(* ===== verification/_CoqProject ===== *)
-Q . S2P
Prelude.v
Cspacepath.v
Interfaces.v
SingleLevel.v
TwoLevel.v
Simple1Level.v
Objects.v
Vka.v
DebugVka.v
Allocman.v
AllocmanLevels.v
AllocmanSpec.v
AllocmanVka.v
Twinkle.v
Split.v
SplitInv.v
SplitSpec.v
Sync.v
SyncRun.v
SyncTokens.v
SyncSem.v
SyncRecursive.v
SyncCv.v
VspaceTables.v
VspaceView.v
VspaceSpec.v
Vspace.v
VspaceReserve.v
VspaceOps.v
Mapping.v
KrMalloc.v
KrInv.v
KrSpec.v
KrAlloc.v
Pools.v
FixedPool.v
VirtualPool.v
DualPool.v
Irq.v
IrqInv.v
IrqKeeps.v
IrqOps.v
IrqServe.v
IrqSpec.v
Simple.v
SimpleSpec.v
Bootstrap.v
BootUntypeds.v
BootDevices.v
Files.v
FilesInv.v
FilesOps.v
FilesSpec.v
Morecore.v
MorecoreSpec.v
VspaceApi.v
VspaceStack.v
Threads.v
ThreadHolds.v
ThreadToy.v
ThreadSpec.v
ThreadRun.v
Slab.v
SlabSpec.v
PageDma.v
TargetMemory.v
Elf.v
ElfPlace.v
ElfLoad.v
ElfSpec.v
Process.v
ProcessSpec.v
ProcessSpawn.v
ProcessConfigure.v
