(* ===== verification/Prelude.v ===== *)
(** * seL4_libs: a verification library

    seL4_libs are the user-level libraries of seL4: allocators of kernel
    objects, capability slots and memory, address-space managers,
    synchronisation primitives, and support code.  This development models the
    core of them, function by function, and proves that it is correct, or
    shows where it is not.  C functions keep their names; a comment at the top
    of each file says which sources (under the repository's root) it is about.

    ** How the parts interact

    A client asks a [vka_t] (libsel4vka) for kernel objects.  A [vka_t] is an
    interface; the allocation manager (libsel4allocman, allocman.c) is its main
    implementation.  The manager owns three allocators: of memory (mspace), of
    capability slots (cspace) and of untyped memory, out of which the kernel
    makes objects (utspace).  They call the manager back, and so each other: to
    keep track of a slot takes memory, to get memory takes a frame and a slot
    for it.  The manager breaks the circle with reserves (watermarks) and queues.
    The address-space manager (libsel4utils, vspace.c) and the synchronisation
    primitives (libsel4sync) are clients of a [vka_t].  An address space is an
    interface too, [vspace_t] (libsel4vspace): threads, stacks, memory for DMA, the
    heap of the C library, ELF files and processes are made through a [vka_t] and
    one or two [vspace_t]s, and are proved against what these promise.

    ** The files

    - Prelude.v: 64-bit words ([wrap], [BIT], [MASK]), results and faults
      ([res]), the state monad [M] with [let!], arrays, and the lemmas and
      tactics ([inv_res], [dlia]) all files share.
    - Interfaces.v: what components promise each other, as classes: the
      manager's operations, the kernel's calls, malloc, the slot allocator
      ([SlotAllocator]), the constants of libsel4.
    - Cspacepath.v: libsel4vka/include/vka/cspacepath_t.h.
    - SingleLevel.v, TwoLevel.v, Simple1Level.v: the three cspaces of
      libsel4allocman/src/cspace.
    - Objects.v: the sizes and types of objects (libsel4vka/include/vka/object.h
      and kobject_t.h, x86_64).  Vka.v: the interface [vka_t] and the functions
      that make and free objects through it.
    - DebugVka.v: libsel4vka/src/debug-vka.c and null-vka.c.
    - Allocman.v: libsel4allocman/src/allocman.c, with AllocmanLevels.v (its
      invariant, and termination) and AllocmanSpec.v (its theorems).
      AllocmanVka.v: the manager as a [vka_t], and a [vka_t] as an allocator of
      the manager.
    - Twinkle.v, Split.v: the two utspaces of libsel4allocman/src/utspace, the
      second with SplitInv.v (its invariant) and SplitSpec.v (its theorems).
    - KrMalloc.v: libsel4allocman/src/mspace/k_r_malloc.c over raw memory, with
      KrInv.v (the free list in memory), KrSpec.v (allocating and freeing) and
      KrAlloc.v (its theorems, against any source of memory).  Pools.v: the other
      allocators of memory under src/mspace; FixedPool.v, VirtualPool.v and
      DualPool.v: their theorems.
    - Simple.v: libsel4simple and libsel4simple-default, what a program is told of
      the capabilities it starts with; SimpleSpec.v: the theorems.  Bootstrap.v:
      libsel4allocman/src/bootstrap.c, how a manager is made out of that;
      BootUntypeds.v and BootDevices.v: the theorems.
    - Sync.v: libsel4sync, as code that threads interleave; SyncRun.v: the
      scheduler; SyncTokens.v: the argument the proofs share; SyncSem.v,
      SyncRecursive.v, SyncCv.v: the theorems.
    - VspaceTables.v: the page-table-like records of an address space
      (libsel4utils/include/sel4utils/vspace_internal.h), VspaceView.v: what they
      say, page by page, VspaceSpec.v: the theorems.  Vspace.v: reservations and the
      mapping of pages (libsel4utils/src/vspace/vspace.c), VspaceReserve.v and
      VspaceOps.v: the theorems.  Mapping.v: mapping one page, with the paging
      structures it needs (libsel4vspace mapping.c, libsel4utils/src/mapping.c).
    - Irq.v: libsel4platsupport/src/irq.c, the interrupt interface; IrqInv.v (its
      invariant), IrqKeeps.v (changes that keep it), IrqOps.v and IrqServe.v (the
      operations), IrqSpec.v (the theorems).
    - Files.v: libsel4muslcsys/src/sys_io.c, the descriptors and files of a program;
      FilesInv.v (the invariant), FilesOps.v (the calls), FilesSpec.v (the theorems).
      Morecore.v: sys_morecore.c, brk and mmap; MorecoreSpec.v: the theorems.
    - VspaceApi.v: libsel4vspace/include/vspace/vspace.h and src/vspace.c, the
      interface [vspace_t] and what is built from it; VspaceStack.v: stacks.
    - Threads.v: libsel4utils/src/thread.c with its configuration; ThreadHolds.v (what
      a thread has taken), ThreadToy.v (a small kernel), ThreadSpec.v and ThreadRun.v
      (the theorems).  Slab.v: slab.c; SlabSpec.v: the theorems.  PageDma.v:
      page_dma.c with its theorems.
    - TargetMemory.v: what loading a program asks of two address spaces, as a class.
      Elf.v: libsel4utils/src/elf.c; ElfPlace.v (where the reservations are put),
      ElfLoad.v (loading a segment) and ElfSpec.v (the whole file): the theorems.
      Process.v and ProcessConfigure.v: process.c and process_config.h; ProcessSpec.v
      (writing on another stack) and ProcessSpawn.v: the theorems.

    ** What is shown

    - Slot allocators: the bitmap cspace refines an abstract set of free slots
      ([single_level_refines]); creation frees exactly the configured slots, but
      the slots past the last full word are lost ([tail_slots_lost]); the two-level
      cspace hands out a slot of the right node and frees it, giving an empty
      node back ([two_level_alloc_spec], [two_level_free_spec]), and goes through
      a null pointer when a new node is needed ([alloc_new_level_null]).
    - Objects: making an object succeeds or leaks nothing
      ([alloc_object_no_leak]); the functions that know sizes agree where they do
      and differ where they differ ([kobject_sizes_agree], [kobject_sizes_disagree]).
    - Debugging allocator: it behaves as a monitor with a set of live slots and a
      map of live objects, which start as what the uncleared memory of its tables
      says ([debug_vka_refines]; [garbage_table_fatal] is what comes of that).
    - Manager: every operation keeps the invariant - depths, queues and
      watermarks - for any sub-allocators ([manager_preserves]); it returns when
      the sub-allocators do ([manager_returns]); configuring the reserves does what
      it says, and on failure leaves the manager locked ([failed_configuration_locks]).
    - Untypeds: the splitting allocator keeps its trees and lists, hands out
      disjoint untypeds of the size asked for, and joins halves when both are free
      ([split_alloc_spec], [split_free_spec], [split_add_uts_spec]); the twinkle
      allocator hands out disjoint ranges ([twinkle_no_overlap]).
    - Memory: the K&R allocator keeps an ordered free list without adjacent
      blocks, hands out what it says and loses no byte, over any source of memory
      that keeps the laws of a class ([k_r_alloc_spec], [k_r_free_spec]); the dual pool
      gives a block back to the heap it came from ([dual_pool_free_spec]).
    - Starting: the default [simple_t] numbers the first capabilities and those of
      four regions once each, and leaves out the other regions
      ([nth_cap_enumerates]); the untyped a root of slots is made from is the
      smallest that fits, what is not used of it stays in the list, piece by
      piece, and each piece is where its retype put it ([allocate_cnode_spec]); the
      untyped of a device is cut into aligned pieces that cover it, each typed by
      the memory regions, where these are sorted ([device_untyped_pieces]).
    - Address spaces: reservations are sorted and disjoint and the tables say so
      ([reserve_range_at_spec], [free_reservation_spec]), or the program stops when
      the memory for tables runs out; the search is first fit among the ranges that
      end before the kernel's part, strictly ([find_range_spec],
      [last_range_missed]); mapping a page ends, and accounts for every paging structure
      it took ([map_page_spec]).
    - Interrupts: after any history of operations that are allowed where they are
      called, tables, bitfields and counts agree and every pairing is one to one,
      and nothing outside a table is read ([irq_histories_safe]; what is not allowed
      does read there: [unset_bit_reads_outside], [free_ntfn_beyond_table]); the bit that pairing gave leads to the callback
      ([paired_callback_runs]).
    - Synchronisation: mutual exclusion, bounds and progress for any number of
      threads and any interleaving, and two schedules in which condition variables
      lose a wake-up.
    - Files: any history of calls of a program that keeps to its open descriptors is
      one of an abstract table of files ([file_calls_refine]).  Heap: the heap and the
      blocks of mmap never meet ([heap_and_blocks_apart]).
    - Threads: whatever fails while a thread is configured, what was taken is
      accounted for ([configure_thread_accounts]); a checkpoint gives the stack and
      the registers back ([checkpoint_restores]); a thread starts with an aligned
      stack and room on it ([start_thread_stack]); a stack is taken and given back
      whole ([stack_given_back]).
    - Slabs and DMA: the slabs of objects of a fixed size fit in the untyped made for
      them, unless memory or a slot is refused ([slab_init_fits]), and
      hand their objects out once ([slab_hands_out]); a cache operation covers its
      range page by page ([dma_cache_op_covers]).
    - Programs: the reservations for the segments of an ELF file do not meet and have
      every page, where two that share one are read-only and writable, in this order
      ([prepare_reservations_covers]; otherwise a page is lost, [kept_page_lost]);
      loading such a file, of segments below 4G, puts every byte of it in its place,
      zeros the rest and leaves nothing behind, or fails because it was refused
      something ([elf_load_image]); a process starts with the stack that the System V ABI asks
      for ([spawn_process_v_stack]).

    ** Faults, fuel and bounds

    A computation ends in [Ok] or in a [Fault]: a failed assertion, a null
    pointer, an access out of bounds.  [OutOfFuel] is the model's own fault: loops
    take fuel.  Every theorem that says a call is [Ok] shows that the fuel the
    definition gives is enough: the search loops of the cspaces take as many
    rounds as there are entries; the splitting allocator takes one level of
    recursion for each size up to 64; the allocation manager takes fuel in levels
    of calls, and [manager_returns] gives a number that suffices.  The walks over
    the tables of an address space take one round for each entry of a table; the
    loop that maps a page four, one more than there are levels of paging
    structures; the loops of the K&R allocator two rounds for each block of the free
    list, and two more; loops over the bits of a word 64; the loop of brk as many
    rounds as there are pages to map; the loops that load a segment, write on a stack
    or maintain a cache one round for each page and two or three more.
    Words are integers with their wrap-around written out.  Where a theorem needs
    a bound (a count below 2^64, an address that does not wrap) it is a
    hypothesis.

    ** What is not modelled, and why

    - Bootstrap.v takes the allocators it sets up by their interface: each is
      modelled in its own file, with its own view of memory.  So do the clients of a
      [vspace_t]: that Vspace.v keeps the promises of TargetMemory.v is not shown.
    - libsel4utils: the start of an address space (src/vspace/bootstrap.c) and
      [create_level] of vspace.c, which it provides: the first pages of the tables
      are mapped by hand there, and Vspace.v takes the memory for tables as a class
      ([LevelMemory]).  The IRQ server (threads around the interface of Irq.v), the
      DMA of IOMMUs, and tables of strings.
    - libsel4muslcsys: the table of system calls and those that only say that they
      are not implemented.  libsel4platsupport but for irq.c: device glue.
      libsel4debug, libsel4bench, libsel4test, libsel4serialserver: printing,
      performance counters, test scaffolding, I/O.
    - Configurations other than x86_64: other architectures differ in constants and
      in the objects they know.
    - The behaviour of the kernel, of libc and of libplatsupport: parameters,
      with what the code relies on as laws of a class. *)
From stdpp Require Export base numbers list gmap.
From Stdlib Require Export ZArith Lia.
Open Scope Z_scope.

(** ** Machine words

    The model is of the 64-bit configurations of the kernel (x86_64,
    aarch64, riscv64): [seL4_Word], [size_t] and [uintptr_t] are all
    64 bits wide and unsigned, so arithmetic on them wraps modulo 2^64. *)

Definition CONFIG_WORD_SIZE : Z := 64.
Definition word_size : Z := 18446744073709551616.

Definition is_word (x : Z) : Prop := 0 <= x < word_size.
Definition wrap (x : Z) : Z := x mod word_size.

Declare Scope word_scope.
Delimit Scope word_scope with word.
Notation "x ⊞ y" := (wrap (x + y)) (at level 50, left associativity) : word_scope.
Notation "x ⊟ y" := (wrap (x - y)) (at level 50, left associativity) : word_scope.
Notation "x ⊠ y" := (wrap (x * y)) (at level 40, left associativity) : word_scope.
Notation "x ≪w n" := (wrap (Z.shiftl x n)) (at level 35) : word_scope.
Open Scope word_scope.

(** Bitwise complement of a 64-bit word. *)
Definition wnot (x : Z) : Z := Z.lxor x (Z.ones CONFIG_WORD_SIZE).

(** The shift and mask macros every source file uses: [1ul << n] and the
    [n] low bits.  (A shift by 64 or more is undefined in C; the lemmas
    below ask for [0 <= n < 64].) *)
Definition BIT (n : Z) : Z := wrap (Z.shiftl 1 n).
Definition MASK (n : Z) : Z := wrap (BIT n - 1).

(** [__builtin_clzl], for a non-zero argument. *)
Definition CLZL (x : Z) : Z := CONFIG_WORD_SIZE - 1 - Z.log2 x.

(** [__builtin_ctzl], for a non-zero argument. *)
Fixpoint trailing_zeros (p : positive) : Z :=
  match p with xO p => 1 + trailing_zeros p | _ => 0 end.
Definition CTZL (x : Z) : Z := match x with Zpos p => trailing_zeros p | _ => 0 end.

(** Booleans as C's [int] truth values. *)
Definition b2z (b : bool) : Z := if b then 1 else 0.

Create HintDb word.
Create HintDb sim.

(** [lia] with division and remainder by constants. *)
Ltac dlia := Z.to_euclidean_division_equations; lia.

(** A word or a sum of words as a C [int], and as a C [long]. *)
Definition to_int (x : Z) : Z := (x + 2 ^ 31) mod 2 ^ 32 - 2 ^ 31.
Definition to_long (x : Z) : Z := (x + 2 ^ 63) mod 2 ^ 64 - 2 ^ 63.

Lemma word_size_pow : word_size = 2 ^ 64.
Proof. reflexivity. Qed.

Lemma wrap_small (x : Z) : is_word x -> wrap x = x.
Proof. intros H. apply Z.mod_small, H. Qed.

Lemma wrap_word (x : Z) : is_word (wrap x).
Proof. apply Z.mod_pos_bound. reflexivity. Qed.

Lemma wrap_wrap (x : Z) : wrap (wrap x) = wrap x.
Proof. apply wrap_small, wrap_word. Qed.

Lemma BIT_pow (n : Z) : 0 <= n < 64 -> BIT n = 2 ^ n.
Proof.
  intros Hn. unfold BIT. rewrite Z.shiftl_1_l. apply wrap_small.
  split; [lia|]. rewrite word_size_pow. apply Z.pow_lt_mono_r; lia.
Qed.

Lemma BIT_pos (n : Z) : 0 <= n < 64 -> 0 < BIT n < word_size.
Proof.
  intros Hn. rewrite BIT_pow by done.
  split; [lia|]. rewrite word_size_pow. apply Z.pow_lt_mono_r; lia.
Qed.

Lemma MASK_ones (n : Z) : 0 <= n < 64 -> MASK n = Z.ones n.
Proof.
  intros Hn. unfold MASK. pose proof (BIT_pos n Hn).
  rewrite wrap_small by (unfold is_word; lia).
  rewrite BIT_pow, Z.ones_equiv by done. lia.
Qed.

Lemma MASK_pow (n : Z) : 0 <= n < 64 -> MASK n = 2 ^ n - 1.
Proof. intros Hn. rewrite MASK_ones, Z.ones_equiv by done. lia. Qed.

Lemma land_MASK (x n : Z) : 0 <= n < 64 -> Z.land x (MASK n) = x mod 2 ^ n.
Proof. intros Hn. rewrite MASK_ones by done. apply Z.land_ones. lia. Qed.

Lemma shiftr_div (x n : Z) : 0 <= n -> Z.shiftr x n = x / 2 ^ n.
Proof. apply Z.shiftr_div_pow2. Qed.

Lemma BIT_testbit (n i : Z) : 0 <= n < 64 -> Z.testbit (BIT n) i = bool_decide (n = i).
Proof.
  intros Hn. rewrite BIT_pow by done.
  destruct (decide (n = i)) as [<-|Hne].
  - rewrite Z.pow2_bits_true by lia. by rewrite bool_decide_eq_true_2.
  - rewrite Z.pow2_bits_false by lia. by rewrite bool_decide_eq_false_2.
Qed.

Lemma wnot_testbit (x i : Z) : 0 <= i < 64 -> Z.testbit (wnot x) i = negb (Z.testbit x i).
Proof.
  intros Hi. unfold wnot. rewrite Z.lxor_spec, Z.ones_spec_low by (unfold CONFIG_WORD_SIZE; lia).
  apply xorb_true_r.
Qed.

Lemma word_testbit_high (x i : Z) : is_word x -> 64 <= i -> Z.testbit x i = false.
Proof.
  intros [H0 H1] Hi. destruct (decide (x = 0)) as [->|Hx]; [apply Z.bits_0|].
  apply Z.bits_above_log2; [done|].
  apply Z.log2_lt_pow2; [lia|]. rewrite word_size_pow in H1.
  eapply Z.lt_le_trans; [done|]. apply Z.pow_le_mono_r; lia.
Qed.

Lemma word_of_testbit (x : Z) : 0 <= x -> (forall i, 64 <= i -> Z.testbit x i = false) -> is_word x.
Proof.
  intros H0 H. split; [done|].
  destruct (decide (x = 0)) as [->|Hx]; [reflexivity|].
  rewrite word_size_pow. apply Z.log2_lt_pow2; [lia|].
  destruct (decide (64 <= Z.log2 x)) as [Hl|]; [|lia].
  specialize (H _ Hl). rewrite Z.bit_log2 in H by lia. done.
Qed.

Lemma land_word_l (x y : Z) : is_word x -> is_word (Z.land x y).
Proof.
  intros Hx. apply word_of_testbit.
  - apply Z.land_nonneg. left. apply Hx.
  - intros i Hi. rewrite Z.land_spec, (word_testbit_high x) by done. done.
Qed.

Lemma lor_word (x y : Z) : is_word x -> is_word y -> is_word (Z.lor x y).
Proof.
  intros Hx Hy. apply word_of_testbit.
  - apply Z.lor_nonneg. split; [apply Hx|apply Hy].
  - intros i Hi. rewrite Z.lor_spec, !word_testbit_high by done. done.
Qed.

#[export] Hint Resolve wrap_word land_word_l lor_word : word.
#[export] Hint Extern 4 (is_word _) => (unfold is_word, word_size in *; lia) : word.

Lemma mod_once (a n : Z) : 0 <= a < 2 * n -> a mod n = if a <? n then a else a - n.
Proof.
  intros Ha. destruct (Z.ltb_spec a n).
  - apply Z.mod_small. lia.
  - rewrite <- (Z_mod_plus_full a (-1)). apply Z.mod_small. lia.
Qed.

(** ** Results, faults and state

    A C function either returns or stops at a fault: a failed [assert], a
    null dereference, an access outside an array, a division by zero, or a
    deliberate stop of the program ([Fatal]: [ZF_LOGF], [abort]).
    [OutOfFuel] is the model's own: a loop was given too few iterations.
    Theorems that a result is [Ok] rule all of them out. *)

Inductive fault : Type :=
  | AssertFailed | NullPointer | OutOfBounds | DivisionByZero | Fatal | OutOfFuel.

#[export] Instance fault_eq_dec : EqDecision fault.
Proof. solve_decision. Defined.

Inductive res (A : Type) : Type :=
  | Ok (a : A)
  | Fault (f : fault).
Arguments Ok {A} _.
Arguments Fault {A} _.

Definition res_bind {A B : Type} (r : res A) (k : A -> res B) : res B :=
  match r with
  | Ok a => k a
  | Fault f => Fault f
  end.

(** Stateful code: [S] is the memory the function works on. *)
Definition M (S A : Type) : Type := S -> res (A * S).

Definition ret {S A : Type} (a : A) : M S A := fun s => Ok (a, s).
Definition bind {S A B : Type} (m : M S A) (k : A -> M S B) : M S B :=
  fun s => res_bind (m s) (fun '(a, s') => k a s').
Definition stop {S A : Type} (f : fault) : M S A := fun _ => Fault f.
Definition gets {S A : Type} (f : S -> A) : M S A := fun s => Ok (f s, s).
Definition modify {S : Type} (f : S -> S) : M S unit := fun s => Ok (tt, f s).
Definition lift {S A : Type} (r : res A) : M S A := fun s => res_bind r (fun a => Ok (a, s)).

Declare Scope c_scope.
Delimit Scope c_scope with c.
Notation "'let?' p := r 'in' k" := (res_bind r (fun p => k))
  (at level 10, p pattern, r at level 100, k at level 200) : c_scope.
Notation "'let!' p := m 'in' k" := (bind m (fun p => k))
  (at level 10, p pattern, m at level 100, k at level 200) : c_scope.
Open Scope c_scope.

Definition rassert (b : bool) : res unit := if b then Ok tt else Fault AssertFailed.
Definition cassert {S : Type} (b : bool) : M S unit := lift (rassert b).

(** Array accesses: an index outside the array is a fault. *)
Definition arr_get {A : Type} (l : list A) (i : Z) : res A :=
  if bool_decide (0 <= i) then
    match l !! Z.to_nat i with Some x => Ok x | None => Fault OutOfBounds end
  else Fault OutOfBounds.

Definition arr_set {A : Type} (l : list A) (i : Z) (x : A) : res (list A) :=
  if bool_decide (0 <= i < Z.of_nat (length l)) then Ok (<[Z.to_nat i := x]> l)
  else Fault OutOfBounds.

Lemma res_bind_ok {A B} (r : res A) (k : A -> res B) (b : B) :
  res_bind r k = Ok b <-> exists a, r = Ok a /\ k a = Ok b.
Proof. destruct r; simpl; naive_solver. Qed.

Lemma bind_ok {S A B} (m : M S A) (k : A -> M S B) (s s' : S) (a : A) :
  m s = Ok (a, s') -> bind m k s = k a s'.
Proof. intros H. unfold bind. by rewrite H. Qed.

Lemma res_bind_assoc {A B C} (r : res A) (f : A -> res B) (g : B -> res C) :
  res_bind (res_bind r f) g = res_bind r (fun a => res_bind (f a) g).
Proof. by destruct r. Qed.

Lemma bind_assoc {S A B C} (m : M S A) (f : A -> M S B) (g : B -> M S C) (s : S) :
  bind m (fun a => bind (f a) g) s = bind (bind m f) g s.
Proof. unfold bind. by destruct (m s) as [[a s']|]. Qed.

Lemma arr_get_ok {A} (l : list A) (i : Z) (x : A) :
  arr_get l i = Ok x <-> 0 <= i /\ l !! Z.to_nat i = Some x.
Proof.
  unfold arr_get. case_bool_decide; [|naive_solver].
  destruct (l !! Z.to_nat i); naive_solver.
Qed.

Lemma arr_get_in {A} (l : list A) (i : Z) :
  0 <= i < Z.of_nat (length l) -> exists x, arr_get l i = Ok x /\ l !! Z.to_nat i = Some x.
Proof.
  intros Hi. destruct (lookup_lt_is_Some_2 l (Z.to_nat i)) as [x Hx]; [lia|].
  exists x. split; [|done]. apply arr_get_ok. split; [lia|done].
Qed.

Lemma arr_get_range {A} (l : list A) (i : Z) (x : A) :
  arr_get l i = Ok x -> 0 <= i < Z.of_nat (length l).
Proof.
  intros [Hi Hx]%arr_get_ok. apply lookup_lt_Some in Hx. lia.
Qed.

Lemma arr_set_in {A} (l : list A) (i : Z) (x : A) :
  0 <= i < Z.of_nat (length l) -> arr_set l i x = Ok (<[Z.to_nat i := x]> l).
Proof. intros Hi. unfold arr_set. by rewrite bool_decide_eq_true_2. Qed.

Lemma arr_set_ok {A} (l l' : list A) (i : Z) (x : A) :
  arr_set l i x = Ok l' <-> 0 <= i < Z.of_nat (length l) /\ l' = <[Z.to_nat i := x]> l.
Proof. unfold arr_set. case_bool_decide; naive_solver. Qed.

Lemma lookup_insert_Z {A} (l : list A) (i j : Z) (x : A) :
  0 <= i < Z.of_nat (length l) -> 0 <= j ->
  (<[Z.to_nat i := x]> l) !! Z.to_nat j = if bool_decide (i = j) then Some x else l !! Z.to_nat j.
Proof.
  intros Hi Hj. case_bool_decide as H.
  - subst. apply list_lookup_insert_eq. lia.
  - apply list_lookup_insert_ne. lia.
Qed.

Lemma rassert_ok (b : bool) (u : unit) : rassert b = Ok u <-> b = true.
Proof. destruct b, u; naive_solver. Qed.

Lemma Ok_inj {A} (a b : A) : Ok a = Ok b -> a = b.
Proof. congruence. Qed.

(** [inv_res] takes a computation that ended in [Ok] apart, step by step. *)
Ltac inv_res :=
  repeat match goal with
  | H : Ok _ = Ok _ |- _ => apply Ok_inj in H
  | H : Fault _ = Ok _ |- _ => discriminate H
  | H : Ok _ = Fault _ |- _ => discriminate H
  | H : ret _ _ = Ok _ |- _ => unfold ret in H
  | H : stop _ _ = Ok _ |- _ => unfold stop in H
  | H : gets _ _ = Ok _ |- _ => unfold gets in H
  | H : modify _ _ = Ok _ |- _ => unfold modify in H
  | H : lift _ _ = Ok _ |- _ => unfold lift in H
  | H : bind _ _ _ = Ok _ |- _ => unfold bind in H
  | H : res_bind _ _ = Ok _ |- _ => apply res_bind_ok in H; destruct H as (? & ? & ?)
  | H : rassert _ = Ok _ |- _ => apply rassert_ok in H
  | H : arr_set _ _ _ = Ok _ |- _ => apply arr_set_ok in H; destruct H as [? ->]
  | x : unit |- _ => destruct x
  | x : (_ * _)%type |- _ => destruct x
  | H : (_, _) = (_, _) |- _ => apply pair_equal_spec in H; destruct H; subst
  end; simplify_eq/=.

(** Two computations simulate each other: from related states they fault alike,
    or return the same result in related states. *)
Definition res_sim {S T A : Type} (R : S -> T -> Prop) (x : res (A * S)) (y : res (A * T)) : Prop :=
  match x, y with
  | Ok (a, s), Ok (b, t) => a = b /\ R s t
  | Fault f, Fault g => f = g
  | _, _ => False
  end.

Definition msim {S T A : Type} (R : S -> T -> Prop) (m : M S A) (n : M T A) : Prop :=
  forall s t, R s t -> res_sim R (m s) (n t).

Lemma msim_ret {S T A} (R : S -> T -> Prop) (a : A) : msim R (ret a) (ret a).
Proof. intros s t H. by split. Qed.

Lemma msim_bind {S T A B} (R : S -> T -> Prop) (m : M S A) (n : M T A) (k : A -> M S B) (l : A -> M T B) :
  msim R m n -> (forall a, msim R (k a) (l a)) -> msim R (bind m k) (bind n l).
Proof.
  intros Hm Hk s t H. specialize (Hm s t H). unfold bind, res_bind.
  destruct (m s) as [[a s']|f], (n t) as [[b t']|g]; simpl in Hm |- *; try done.
  destruct Hm as [-> HR]. by apply Hk.
Qed.

Lemma msim_stop {S T A} (R : S -> T -> Prop) (f : fault) : msim (A := A) R (stop f) (stop f).
Proof. intros s t H. done. Qed.

#[export] Hint Resolve msim_ret msim_bind msim_stop : sim.

Create Rewrite HintDb len.
#[export] Hint Rewrite @length_insert @length_replicate @length_app : len.

(** ** Single bits of words *)

Lemma land_BIT_zero (w n : Z) : 0 <= n < 64 -> Z.land w (BIT n) = 0 <-> Z.testbit w n = false.
Proof.
  intros Hn. split.
  - intros H. assert (Hb : Z.testbit (Z.land w (BIT n)) n = false) by (rewrite H; apply Z.bits_0).
    rewrite Z.land_spec, BIT_testbit, bool_decide_eq_true_2, andb_true_r in Hb; done.
  - intros H. apply Z.bits_inj_0. intros i. rewrite Z.land_spec, BIT_testbit by done.
    case_bool_decide; subst; [by rewrite H|apply andb_false_r].
Qed.

Lemma clear_bit_testbit (w n i : Z) : 0 <= n < 64 -> 0 <= i < 64 ->
  Z.testbit (Z.land w (wnot (BIT n))) i = Z.testbit w i && negb (i =? n).
Proof.
  intros Hn Hi. rewrite Z.land_spec, wnot_testbit, BIT_testbit by done.
  f_equal. f_equal. case_bool_decide; destruct (Z.eqb_spec i n); congruence.
Qed.

Lemma set_bit_testbit (w n i : Z) : 0 <= n < 64 ->
  Z.testbit (Z.lor w (BIT n)) i = Z.testbit w i || (i =? n).
Proof.
  intros Hn. rewrite Z.lor_spec, BIT_testbit by done.
  f_equal. case_bool_decide; destruct (Z.eqb_spec i n); congruence.
Qed.

Lemma BIT_word (n : Z) : is_word (BIT n).
Proof. apply wrap_word. Qed.

Lemma lxor_word (x y : Z) : is_word x -> is_word y -> is_word (Z.lxor x y).
Proof.
  intros Hx Hy. apply word_of_testbit.
  - apply Z.lxor_nonneg. split; intros; [apply Hy|apply Hx].
  - intros i Hi. rewrite Z.lxor_spec, !word_testbit_high by done. done.
Qed.

Lemma highest_bit (w : Z) : is_word w -> w <> 0 ->
  0 <= CONFIG_WORD_SIZE - 1 - CLZL w < 64 /\ Z.testbit w (CONFIG_WORD_SIZE - 1 - CLZL w) = true.
Proof.
  intros [H0 H1] Hw. unfold CLZL, CONFIG_WORD_SIZE.
  replace (64 - 1 - (64 - 1 - Z.log2 w)) with (Z.log2 w) by lia.
  split; [|by apply Z.bit_log2; lia].
  split; [apply Z.log2_nonneg|]. apply Z.log2_lt_pow2; [lia|]. by rewrite <- word_size_pow.
Qed.

Lemma word_zero_testbit (w : Z) : is_word w ->
  (forall i, 0 <= i < 64 -> Z.testbit w i = false) -> w = 0.
Proof.
  intros Hw H. apply Z.bits_inj_0. intros i.
  destruct (decide (i < 0)); [by apply Z.testbit_neg_r|].
  destruct (decide (64 <= i)); [by apply word_testbit_high|]. apply H; lia.
Qed.

Lemma all_ones_testbit (i : Z) : 0 <= i < 64 -> Z.testbit (word_size - 1) i = true.
Proof.
  intros Hi. replace (word_size - 1) with (Z.ones 64) by reflexivity.
  by apply Z.ones_spec_low.
Qed.

#[export] Hint Resolve BIT_word lxor_word : word.

Lemma trailing_zeros_bit (p : positive) :
  0 <= trailing_zeros p /\ Z.testbit (Zpos p) (trailing_zeros p) = true /\
  forall i, 0 <= i < trailing_zeros p -> Z.testbit (Zpos p) i = false.
Proof.
  induction p as [p _|p (H0 & H1 & H2)|]; cbn [trailing_zeros]; [split_and!; [lia|done|lia]| |split_and!; [lia|done|lia]].
  change (Zpos p~0) with (2 * Zpos p). split_and!; [lia| |].
  - rewrite Z.add_1_l, Z.testbit_even_succ by done. done.
  - intros i Hi. destruct (decide (i = 0)) as [->|]; [apply Z.testbit_even_0|].
    replace i with (Z.succ (i - 1)) by lia. rewrite Z.testbit_even_succ by lia. apply H2. lia.
Qed.

(** The lowest bit that is set. *)
Lemma lowest_bit (x : Z) : is_word x -> x <> 0 ->
  0 <= CTZL x < 64 /\ Z.testbit x (CTZL x) = true /\ forall i, 0 <= i < CTZL x -> Z.testbit x i = false.
Proof.
  intros Hx H0. destruct x as [|p|p]; [done| |destruct Hx; lia]. cbn [CTZL].
  pose proof (trailing_zeros_bit p) as (Hn & Ht & Hl). split_and!; [done| |done|done].
  destruct (decide (64 <= trailing_zeros p)); [|lia]. by rewrite word_testbit_high in Ht.
Qed.

Lemma CTZL_BIT (n : Z) : 0 <= n < 64 -> CTZL (BIT n) = n.
Proof.
  intros Hn. destruct (lowest_bit (BIT n)) as (Hr & Ht & _); [auto with word|pose proof (BIT_pos n Hn); lia|].
  rewrite BIT_testbit, bool_decide_eq_true in Ht by done. done.
Qed.

(** ** Counting *)

(** Distinct integers of an interval of [n] are at most [n]. *)
Lemma NoDup_in_range (l : list Z) (a n : Z) :
  0 <= n -> NoDup l -> (forall x, x ∈ l -> a <= x < a + n) -> Z.of_nat (length l) <= n.
Proof.
  intros Hn Hnd Hin.
  assert (Hsub : l ⊆+ ((fun k => a + Z.of_nat k) <$> seq 0 (Z.to_nat n))).
  { apply NoDup_submseteq; [done|]. intros x Hx. specialize (Hin x Hx).
    apply list_elem_of_fmap. exists (Z.to_nat (x - a)). split; [lia|].
    apply elem_of_seq. lia. }
  apply submseteq_length in Hsub. rewrite length_fmap, length_seq in Hsub. lia.
Qed.

(** The number of [x] in [0 .. n-1] that satisfy [p]. *)
Fixpoint countb (p : Z -> bool) (n : nat) : Z :=
  match n with
  | O => 0
  | S n => countb p n + b2z (p (Z.of_nat n))
  end.

Lemma countb_ext (p q : Z -> bool) (n : nat) :
  (forall x, 0 <= x < Z.of_nat n -> p x = q x) -> countb p n = countb q n.
Proof.
  induction n as [|n IH]; intros H; simpl; [done|].
  rewrite IH by (intros; apply H; lia). by rewrite H by lia.
Qed.

Lemma countb_bounds (p : Z -> bool) (n : nat) : 0 <= countb p n <= Z.of_nat n.
Proof. induction n as [|n IH]; simpl; [lia|]. destruct (p (Z.of_nat n)); simpl; lia. Qed.

Lemma countb_full (p : Z -> bool) (n : nat) :
  (forall x, 0 <= x < Z.of_nat n -> p x = true) -> countb p n = Z.of_nat n.
Proof.
  intros H. rewrite (countb_ext p (fun _ => true) n H). clear H.
  induction n as [|n IH]; [done|]. cbn [countb b2z]. lia.
Qed.

Lemma countb_none (p : Z -> bool) (n : nat) :
  (forall x, 0 <= x < Z.of_nat n -> p x = false) -> countb p n = 0.
Proof.
  intros H. rewrite (countb_ext p (fun _ => false) n H). clear H.
  induction n as [|n IH]; [done|]. cbn [countb b2z]. lia.
Qed.

(** Adding one element to the set adds one to the count. *)
Lemma countb_add (p q : Z -> bool) (n : nat) (s : Z) :
  0 <= s < Z.of_nat n -> p s = false ->
  (forall x, 0 <= x < Z.of_nat n -> q x = p x || (x =? s)) ->
  countb q n = countb p n + 1.
Proof.
  induction n as [|n IH]; intros Hs Hp Hq; [lia|]. cbn [countb].
  destruct (Z.eq_dec s (Z.of_nat n)) as [->|Hne].
  - rewrite (Hq (Z.of_nat n)), Hp, Z.eqb_refl by lia. cbn [orb b2z].
    rewrite (countb_ext q p n); [lia|]. intros x Hx. rewrite Hq by lia.
    destruct (Z.eqb_spec x (Z.of_nat n)); [lia|]. apply orb_false_r.
  - rewrite IH; [|lia|done|intros; apply Hq; lia]. rewrite Hq by lia.
    destruct (Z.eqb_spec (Z.of_nat n) s); [lia|]. rewrite orb_false_r. lia.
Qed.

Lemma countb_zero (p : Z -> bool) (n : nat) (x : Z) :
  countb p n = 0 -> 0 <= x < Z.of_nat n -> p x = false.
Proof.
  induction n as [|n IH]; intros Hc Hx; [lia|]. cbn [countb] in Hc.
  pose proof (countb_bounds p n). destruct (p (Z.of_nat n)) eqn:Hp; cbn [b2z] in Hc; [lia|].
  destruct (Z.eq_dec x (Z.of_nat n)) as [->|]; [done|]. apply IH; lia.
Qed.

(** ** Bitmaps: bit [n] of a list of words *)

Definition bit_at (b : list Z) (n : Z) : bool :=
  match b !! Z.to_nat (n / 64) with
  | Some w => Z.testbit w (n mod 64)
  | None => false
  end.

Lemma bit_at_update (b : list Z) (n w' x : Z) :
  0 <= n -> n / 64 < Z.of_nat (length b) -> 0 <= x ->
  bit_at (<[Z.to_nat (n / 64) := w']> b) x =
  if bool_decide (n / 64 = x / 64) then Z.testbit w' (x mod 64) else bit_at b x.
Proof.
  intros Hn Hlen Hx. unfold bit_at. rewrite lookup_insert_Z by dlia.
  by case_bool_decide.
Qed.

Lemma bit_at_clear (b : list Z) (n w x : Z) :
  0 <= n -> b !! Z.to_nat (n / 64) = Some w -> 0 <= x ->
  bit_at (<[Z.to_nat (n / 64) := Z.land w (wnot (BIT (n mod 64)))]> b) x = bit_at b x && negb (x =? n).
Proof.
  intros Hn Hw Hx. pose proof (lookup_lt_Some _ _ _ Hw).
  rewrite bit_at_update by dlia. case_bool_decide as He.
  - rewrite clear_bit_testbit by dlia. unfold bit_at. rewrite <- He, Hw. f_equal. f_equal.
    destruct (Z.eqb_spec (x mod 64) (n mod 64)), (Z.eqb_spec x n); dlia.
  - destruct (Z.eqb_spec x n); [subst; done|]. by rewrite andb_true_r.
Qed.

Lemma bit_at_set (b : list Z) (n w x : Z) :
  0 <= n -> b !! Z.to_nat (n / 64) = Some w -> 0 <= x ->
  bit_at (<[Z.to_nat (n / 64) := Z.lor w (BIT (n mod 64))]> b) x = bit_at b x || (x =? n).
Proof.
  intros Hn Hw Hx. pose proof (lookup_lt_Some _ _ _ Hw).
  rewrite bit_at_update by dlia. case_bool_decide as He.
  - rewrite set_bit_testbit by dlia. unfold bit_at. rewrite <- He, Hw. f_equal.
    destruct (Z.eqb_spec (x mod 64) (n mod 64)), (Z.eqb_spec x n); dlia.
  - destruct (Z.eqb_spec x n); [subst; done|]. by rewrite orb_false_r.
Qed.

Lemma bit_at_word (b : list Z) (e w : Z) :
  0 <= e -> Forall is_word b -> b !! Z.to_nat e = Some w ->
  w = 0 <-> forall i, 0 <= i < 64 -> bit_at b (64 * e + i) = false.
Proof.
  intros He Hb Hw.
  assert (Hbit : forall i, 0 <= i < 64 -> bit_at b (64 * e + i) = Z.testbit w i).
  { intros i Hi. unfold bit_at.
    replace ((64 * e + i) / 64) with e by dlia. replace ((64 * e + i) mod 64) with i by dlia.
    by rewrite Hw. }
  split.
  - intros -> i Hi. rewrite Hbit by done. apply Z.bits_0.
  - intros H. apply word_zero_testbit; [by eapply Forall_lookup_1|].
    intros i Hi. rewrite <- Hbit by done. by apply H.
Qed.

(** ** Packing two fields into a word *)

Lemma lor_shift (i b l : Z) : 0 <= b -> 0 <= l < 2 ^ b -> Z.lor (Z.shiftl i b) l = i * 2 ^ b + l.
Proof.
  intros Hb Hl. rewrite <- Z.lxor_lor, <- Z.add_nocarry_lxor, Z.shiftl_mul_pow2; try done.
  all: apply Z.bits_inj_0; intros n; rewrite Z.land_spec.
  all: destruct (decide (n < b)); [rewrite Z.shiftl_spec_low by done; done|].
  all: rewrite andb_comm, <- (Z.mod_small l (2 ^ b)), Z.mod_pow2_bits_high by lia; done.
Qed.

Lemma pack_div (i b l : Z) : 0 <= b -> 0 <= l < 2 ^ b -> (i * 2 ^ b + l) / 2 ^ b = i.
Proof. intros Hb Hl. rewrite Z.div_add_l by lia. rewrite Z.div_small; lia. Qed.

Lemma pack_mod (i b l : Z) : 0 <= b -> 0 <= l < 2 ^ b -> (i * 2 ^ b + l) mod 2 ^ b = l.
Proof. intros Hb Hl. rewrite Z.add_comm, Z_mod_plus_full. by apply Z.mod_small. Qed.
