(* ===== verification/Cspacepath.v ===== *)
(** libsel4vka/include/vka/cspacepath_t.h: the address of a capability slot. *)
From S2P Require Import Prelude.

Record cspacepath_t : Type := Cspacepath {
  capPtr : Z;
  capDepth : Z;
  root : Z;
  dest : Z;
  destDepth : Z;
  offset : Z;
  window : Z
}.

#[export] Instance cspacepath_eq_dec : EqDecision cspacepath_t.
Proof. solve_decision. Defined.

(** [cspacepath_swap], on the pair of paths the two pointers refer to. *)
Definition cspacepath_swap (ab : cspacepath_t * cspacepath_t) : cspacepath_t * cspacepath_t :=
  let tmp := ab.1 in
  let a := ab.2 in
  let b := tmp in
  (a, b).
