(* ===== verification/Interfaces.v ===== *)
(** The interfaces through which the components call each other: the
    allocation manager's operations, as its sub-allocators see them, and what
    every capability-slot allocator promises to its client. *)
From S2P Require Import Prelude Cspacepath.

(** The absence of a physical address. *)
Definition ALLOCMAN_NO_PADDR : Z := 1.

(** The operations of libsel4allocman/include/allocman/allocman.h that the
    sub-allocators call back.  [W] is the rest of the system's state.
    Each returns the C function's result; an [int *error] out-parameter is
    the second component of the result. *)
Class AllocmanOps (W : Type) : Type := {
  allocman_mspace_alloc : Z -> M W (Z * Z);
  allocman_mspace_free : Z -> Z -> M W unit;
  allocman_cspace_alloc : M W (Z * cspacepath_t);
  allocman_cspace_free : cspacepath_t -> M W unit;
  allocman_utspace_alloc : Z -> Z -> cspacepath_t -> bool -> M W (Z * Z);
  allocman_utspace_free : Z -> Z -> M W unit
}.

(** The manager's operations return: none of them stops at a fault, a memory
    block that was allocated is not at address 0. *)
Class AllocmanReturns (W : Type) `{!AllocmanOps W} : Prop := {
  mspace_alloc_returns : forall bytes w, exists p e w',
    allocman_mspace_alloc bytes w = Ok (p, e, w') /\ (e = 0 -> p <> 0);
  mspace_free_returns : forall p bytes w, exists w', allocman_mspace_free p bytes w = Ok (tt, w');
  utspace_alloc_returns : forall size_bits type path dev w, exists c e w',
    allocman_utspace_alloc size_bits type path dev w = Ok (c, e, w');
  utspace_free_returns : forall c size_bits w, exists w', allocman_utspace_free c size_bits w = Ok (tt, w')
}.

(** The constants of the kernel's headers (libsel4) for x86_64, which are not
    part of this repository: object types, then sizes in bits. *)
Class SeL4Constants : Type := {
  seL4_UntypedObject : Z;
  seL4_TCBObject : Z;
  seL4_EndpointObject : Z;
  seL4_NotificationObject : Z;
  seL4_CapTableObject : Z;
  seL4_SchedContextObject : Z;
  seL4_ReplyObject : Z;
  seL4_X86_4K : Z;
  seL4_X86_LargePageObject : Z;
  seL4_X86_PageTableObject : Z;
  seL4_X86_PageDirectoryObject : Z;
  seL4_X86_IOPageTableObject : Z;
  seL4_X64_HugePageObject : Z;
  seL4_X86_PDPTObject : Z;
  seL4_X64_PML4Object : Z;
  seL4_ObjectTypeCount : Z;
  seL4_SlotBits : Z;
  seL4_TCBBits : Z;
  seL4_EndpointBits : Z;
  seL4_NotificationBits : Z;
  seL4_ReplyBits : Z;
  seL4_MinSchedContextBits : Z;
  seL4_PageBits : Z;
  seL4_LargePageBits : Z;
  seL4_HugePageBits : Z;
  seL4_PageTableBits : Z;
  seL4_PageDirBits : Z;
  seL4_PDPTBits : Z;
  seL4_PML4Bits : Z;
  seL4_IOPageTableBits : Z;
  (* the kernel configuration with mixed-criticality scheduling *)
  CONFIG_KERNEL_MCS : bool
}.

Definition seL4_NoError : Z := 0.
Definition seL4_WordBits : Z := CONFIG_WORD_SIZE.

(** The system calls on capabilities the allocators make; each returns the
    kernel's error code. *)
Class KernelOps (W : Type) : Type := {
  (* _service, index, depth *)
  seL4_CNode_Delete : Z -> Z -> Z -> M W Z;
  (* dest root, index, depth; source root, index, depth *)
  seL4_CNode_Move : Z -> Z -> Z -> Z -> Z -> Z -> M W Z;
  (* _service, type, size_bits, root, node_index, node_depth, node_offset, num_objects *)
  seL4_Untyped_Retype : Z -> Z -> Z -> Z -> Z -> Z -> Z -> Z -> M W Z
}.

(** The kernel answers: none of its calls stops the program. *)
Class KernelReturns (W : Type) `{!KernelOps W} : Prop := {
  delete_returns : forall a b c w, exists e w', seL4_CNode_Delete a b c w = Ok (e, w');
  move_to_returns : forall a b c d e f w, exists r w', seL4_CNode_Move a b c d e f w = Ok (r, w');
  retype_returns : forall a b c d e f g h w, exists r w', seL4_Untyped_Retype a b c d e f g h w = Ok (r, w')
}.

(** The values libsel4 gives them, for witnesses. *)
#[export] Instance x86_64_constants : SeL4Constants := {|
  seL4_UntypedObject := 0; seL4_TCBObject := 1; seL4_EndpointObject := 2;
  seL4_NotificationObject := 3; seL4_CapTableObject := 4;
  seL4_SchedContextObject := 50; seL4_ReplyObject := 51;
  seL4_X86_PDPTObject := 5; seL4_X64_PML4Object := 6; seL4_X64_HugePageObject := 7;
  seL4_X86_4K := 8; seL4_X86_LargePageObject := 9; seL4_X86_PageTableObject := 10;
  seL4_X86_PageDirectoryObject := 11; seL4_X86_IOPageTableObject := 12;
  seL4_ObjectTypeCount := 13;
  seL4_SlotBits := 5; seL4_TCBBits := 11; seL4_EndpointBits := 4; seL4_NotificationBits := 5;
  seL4_ReplyBits := 5; seL4_MinSchedContextBits := 7;
  seL4_PageBits := 12; seL4_LargePageBits := 21; seL4_HugePageBits := 30;
  seL4_PageTableBits := 12; seL4_PageDirBits := 12; seL4_PDPTBits := 12; seL4_PML4Bits := 12;
  seL4_IOPageTableBits := 12;
  CONFIG_KERNEL_MCS := false
|}.

(** libc's allocator: a null result means there is no memory.  [live_blocks]
    are the blocks handed out and not yet freed. *)
Class Malloc (W : Type) : Type := {
  malloc : Z -> M W Z;
  free : Z -> M W unit
}.

Class MallocLaws (W : Type) `{!Malloc W} : Type := {
  live_blocks : W -> gset Z;
  malloc_law : forall bytes w, exists p w', malloc bytes w = Ok (p, w') /\
    ((p = 0 /\ live_blocks w' = live_blocks w) \/
     (p <> 0 /\ (p ∉ live_blocks w) /\ live_blocks w' = {[p]} ∪ live_blocks w));
  free_law : forall p w, p ∈ live_blocks w -> exists w', free p w = Ok (tt, w') /\
    live_blocks w' = live_blocks w ∖ {[p]}
}.

(** A heap with room for a number of blocks. *)
Record toy_heap : Type := ToyHeap { th_room : Z; th_live : gset Z }.

#[export] Instance toy_malloc : Malloc toy_heap := {|
  malloc bytes h :=
    if th_room h <=? 0 then Ok (0, h)
    else let p := fresh ({[0]} ∪ th_live h) in
         Ok (p, ToyHeap (th_room h - 1) ({[p]} ∪ th_live h));
  free p h := Ok (tt, ToyHeap (th_room h + 1) (th_live h ∖ {[p]}))
|}.

#[export] Program Instance toy_malloc_laws : MallocLaws toy_heap := {| live_blocks := th_live |}.
Next Obligation.
  intros bytes h. simpl. destruct (th_room h <=? 0).
  - exists 0, h. split; [done|]. by left.
  - pose proof (is_fresh ({[0]} ∪ th_live h)) as Hf. do 2 eexists. split; [reflexivity|].
    right. split_and!; [set_solver|set_solver|done].
Qed.
Next Obligation. intros p h _. by eexists. Qed.

(** What a slot allocator promises: [cs_avail s] are the slots it may still
    hand out; an allocation takes exactly one of them, and fails only when
    there is none left. *)
Class SlotAllocator (St : Type) : Type := {
  cs_alloc : St -> res (Z * option cspacepath_t * St);
  cs_make_path : St -> Z -> cspacepath_t;
  cs_wf : St -> Prop;
  cs_avail : St -> Z -> bool;
  cs_make_path_capPtr : forall s slot, capPtr (cs_make_path s slot) = slot;
  cs_alloc_spec : forall s, cs_wf s ->
    (exists slot s', cs_alloc s = Ok (0, Some (cs_make_path s slot), s') /\
       cs_wf s' /\ cs_avail s slot = true /\
       (forall x, cs_avail s' x = cs_avail s x && negb (x =? slot))) \/
    (exists e, e <> 0 /\ cs_alloc s = Ok (e, None, s) /\ forall x, cs_avail s x = false)
}.

(** A client that takes [n] slots in a row, stopping at the first failure. *)
Fixpoint alloc_slots {St} `{!SlotAllocator St} (n : nat) (s : St) : res (list Z * St) :=
  match n with
  | O => Ok ([], s)
  | S n => let? (r, s1) := cs_alloc s in
           match r with
           | (_, None) => Ok ([], s1)
           | (_, Some p) => let? (l, s2) := alloc_slots n s1 in Ok (capPtr p :: l, s2)
           end
  end.

Lemma alloc_slots_fresh {St} `{!SlotAllocator St} (n : nat) (s : St) :
  cs_wf s ->
  exists l s', alloc_slots n s = Ok (l, s') /\ cs_wf s' /\ NoDup l /\
    (forall x, x ∈ l -> cs_avail s x = true) /\
    (forall x, cs_avail s' x = cs_avail s x && negb (bool_decide (x ∈ l))) /\
    (length l = n \/ forall x, cs_avail s' x = false).
Proof.
  revert s. induction n as [|n IH]; intros s Hwf; simpl.
  - exists [], s. repeat split; eauto using NoDup_nil_2; [set_solver|].
    intros x. rewrite bool_decide_eq_false_2 by set_solver. by rewrite andb_true_r.
  - destruct (cs_alloc_spec s Hwf) as [(slot & s1 & -> & Hwf1 & Hslot & Hav)|(e & _ & -> & Hno)]; simpl.
    + destruct (IH s1 Hwf1) as (l & s2 & -> & Hwf2 & Hnd & Hin & Hav2 & Hlen); simpl.
      rewrite cs_make_path_capPtr.
      exists (slot :: l), s2. split_and!; [done|done| | | |].
      * apply NoDup_cons. split; [|done]. intros Hc. specialize (Hin _ Hc).
        rewrite Hav, Z.eqb_refl, andb_false_r in Hin. done.
      * intros x [->|Hx]%elem_of_cons; [done|]. specialize (Hin _ Hx).
        rewrite Hav in Hin. by destruct (cs_avail s x).
      * intros x. rewrite Hav2, Hav. destruct (cs_avail s x); [|done]. simpl.
        destruct (Z.eqb_spec x slot) as [->|Hne]; simpl.
        -- by rewrite bool_decide_eq_true_2 by set_solver.
        -- f_equal. apply bool_decide_ext. set_solver.
      * destruct Hlen as [Hl|Hno]; [left; simpl; lia|by right].
    + exists [], s. split_and!; eauto using NoDup_nil_2; [set_solver|].
      intros x. by rewrite Hno.
Qed.

(** ** The abstract slot allocator

    A set of free slots, of which the [managed] ones can be allocated. *)

Inductive slot_op : Type :=
  | AllocSlot
  | AllocSlotAt (slot : Z)
  | FreeSlot (slot : Z).

(** Result of an operation: its error code and the slot it handed out. *)
Definition slot_result : Type := Z * option Z.

Inductive slot_step (managed : Z -> Prop) (free : Z -> bool) :
    slot_op -> slot_result -> (Z -> bool) -> Prop :=
  | step_alloc slot free' :
      managed slot -> free slot = true ->
      (forall x, free' x = free x && negb (x =? slot)) ->
      slot_step managed free AllocSlot (0, Some slot) free'
  | step_alloc_full free' :
      (forall slot, managed slot -> free slot = false) -> (forall x, free' x = free x) ->
      slot_step managed free AllocSlot (1, None) free'
  | step_alloc_at slot free' :
      managed slot -> free slot = true ->
      (forall x, free' x = free x && negb (x =? slot)) ->
      slot_step managed free (AllocSlotAt slot) (0, None) free'
  | step_alloc_at_fail slot free' :
      ~ managed slot \/ free slot = false -> (forall x, free' x = free x) ->
      slot_step managed free (AllocSlotAt slot) (1, None) free'
  | step_free slot free' :
      free slot = false -> (forall x, free' x = free x || (x =? slot)) ->
      slot_step managed free (FreeSlot slot) (0, None) free'.

Inductive slot_trace (managed : Z -> Prop) :
    (Z -> bool) -> list slot_op -> list slot_result -> (Z -> bool) -> Prop :=
  | trace_nil free : slot_trace managed free [] [] free
  | trace_cons free op r free1 ops rs free2 :
      slot_step managed free op r free1 -> slot_trace managed free1 ops rs free2 ->
      slot_trace managed free (op :: ops) (r :: rs) free2.
