(* ===== verification/SingleLevel.v ===== *)
(** libsel4allocman/src/cspace/single_level.c and
    include/allocman/cspace/single_level.h: capability slots of one CNode,
    tracked by a bitmap in which a set bit is a free slot. *)
From S2P Require Import Prelude Cspacepath Interfaces.

Record cspace_single_level_config : Type := Config {
  cnode : Z;
  cnode_size_bits : Z;
  cnode_guard_bits : Z;
  first_slot : Z;
  end_slot : Z
}.

(** [bitmap] is the contents of the array at address [bitmap_ptr]. *)
Record cspace_single_level : Type := SingleLevel {
  config : cspace_single_level_config;
  bitmap_ptr : Z;
  bitmap : list Z;
  bitmap_length : Z;
  last_entry : Z
}.

Definition with_bitmap (cspace : cspace_single_level) (b : list Z) : cspace_single_level :=
  SingleLevel (config cspace) (bitmap_ptr cspace) b (bitmap_length cspace) (last_entry cspace).

Definition with_last_entry (cspace : cspace_single_level) (i : Z) : cspace_single_level :=
  SingleLevel (config cspace) (bitmap_ptr cspace) (bitmap cspace) (bitmap_length cspace) i.

Definition BITS_PER_WORD : Z := 64.
Definition sizeof_size_t : Z := 8.

Definition _cspace_single_level_make_path (cspace : cspace_single_level) (slot : Z) : cspacepath_t :=
  {| root := cnode (config cspace);
     capPtr := slot;
     capDepth := cnode_size_bits (config cspace) ⊞ cnode_guard_bits (config cspace);
     dest := 0;
     destDepth := 0;
     offset := slot;
     window := 1 |}.

(** The loop that clears the padding bits [i .. BITS_PER_WORD - 1]. *)
Fixpoint clear_padding (fuel : nat) (b : list Z) (entry i : Z) : res (list Z) :=
  match fuel with
  | O => Fault OutOfFuel
  | S fuel =>
    if i <? BITS_PER_WORD then
      let? w := arr_get b entry in
      let? b' := arr_set b entry (Z.lxor w (BIT i)) in
      clear_padding fuel b' entry (i ⊞ 1)
    else Ok b
  end.

(** [*cspace] need not be initialised, so the function only produces it. *)
Definition cspace_single_level_create {W} `{!AllocmanOps W} (cfg : cspace_single_level_config)
    : M W (Z * option cspace_single_level) :=
  let num_slots := end_slot cfg ⊟ first_slot cfg in
  let bitmap_length := num_slots / BITS_PER_WORD in
  let num_entries := if num_slots mod BITS_PER_WORD =? 0 then bitmap_length
                     else bitmap_length ⊞ 1 in
  let! (ptr, error) := allocman_mspace_alloc (num_entries ⊠ sizeof_size_t) in
  if negb (error =? 0) then ret (error, None)
  else
    let b := replicate (Z.to_nat num_entries) (word_size - 1) in
    let! b := if negb (num_slots mod BITS_PER_WORD =? 0) then
                let excess := num_slots mod BITS_PER_WORD in
                lift (clear_padding 65 b (num_entries ⊟ 1) excess)
              else ret b in
    ret (0, Some (SingleLevel cfg ptr b bitmap_length 0)).

Definition cspace_single_level_destroy {W} `{!AllocmanOps W} (cspace : cspace_single_level) : M W unit :=
  allocman_mspace_free (bitmap_ptr cspace) (bitmap_length cspace ⊠ sizeof_size_t).

(** [do i = (i + 1) % bitmap_length; while (bitmap[i] == 0 && i != last_entry)] *)
Fixpoint next_entry (fuel : nat) (cspace : cspace_single_level) (i : Z) : res Z :=
  match fuel with
  | O => Fault OutOfFuel
  | S fuel =>
    if bitmap_length cspace =? 0 then Fault DivisionByZero
    else
      let i := (i ⊞ 1) mod bitmap_length cspace in
      let? w := arr_get (bitmap cspace) i in
      if (w =? 0) && negb (i =? last_entry cspace) then next_entry fuel cspace i else Ok i
  end.

Definition take_slot (cspace : cspace_single_level) (i : Z)
    : res (Z * option cspacepath_t * cspace_single_level) :=
  let? w := arr_get (bitmap cspace) i in
  let index := BITS_PER_WORD - 1 - CLZL w in
  let? b := arr_set (bitmap cspace) i (Z.land w (wnot (BIT index))) in
  let cspace := with_bitmap cspace b in
  Ok (0, Some (_cspace_single_level_make_path cspace
                 (first_slot (config cspace) ⊞ (i ⊠ BITS_PER_WORD ⊞ index))), cspace).

Definition _cspace_single_level_alloc (cspace : cspace_single_level)
    : res (Z * option cspacepath_t * cspace_single_level) :=
  let i := last_entry cspace in
  let? w := arr_get (bitmap cspace) i in
  if w =? 0 then
    let? _ := rassert (negb (bitmap_length cspace =? 0)) in
    let? _ := rassert (last_entry cspace <? bitmap_length cspace) in
    let? i := next_entry (Z.to_nat (bitmap_length cspace)) cspace i in
    if i =? last_entry cspace then Ok (1, None, cspace)
    else take_slot (with_last_entry cspace i) i
  else take_slot cspace i.

Definition _cspace_single_level_alloc_at (cspace : cspace_single_level) (slot : Z)
    : res (Z * cspace_single_level) :=
  let index := slot ⊟ first_slot (config cspace) in
  if bitmap_length cspace <=? index / BITS_PER_WORD then Ok (1, cspace)
  else
    let? w := arr_get (bitmap cspace) (index / BITS_PER_WORD) in
    if Z.land w (BIT (index mod BITS_PER_WORD)) =? 0 then Ok (1, cspace)
    else
      let? b := arr_set (bitmap cspace) (index / BITS_PER_WORD)
                  (Z.land w (wnot (BIT (index mod BITS_PER_WORD)))) in
      Ok (0, with_bitmap cspace b).

Definition _cspace_single_level_free (cspace : cspace_single_level) (slot : cspacepath_t)
    : res cspace_single_level :=
  let index := capPtr slot ⊟ first_slot (config cspace) in
  let? w := arr_get (bitmap cspace) (index / BITS_PER_WORD) in
  let? _ := rassert (Z.land w (BIT (index mod BITS_PER_WORD)) =? 0) in
  let? b := arr_set (bitmap cspace) (index / BITS_PER_WORD)
              (Z.lor w (BIT (index mod BITS_PER_WORD))) in
  Ok (with_bitmap cspace b).

(** ** The bitmap as a set of slots *)

Definition avail (cs : cspace_single_level) (slot : Z) : bool :=
  (first_slot (config cs) <=? slot) && bit_at (bitmap cs) (slot - first_slot (config cs)).

(** The slots whose word is among the first [bitmap_length]. *)
Definition managed (cs : cspace_single_level) (slot : Z) : Prop :=
  first_slot (config cs) <= slot < first_slot (config cs) + 64 * bitmap_length cs.

Record wf (cs : cspace_single_level) : Prop := {
  wf_range : 0 <= first_slot (config cs) <= end_slot (config cs) /\ end_slot (config cs) < word_size;
  wf_words : Forall is_word (bitmap cs);
  wf_length : bitmap_length cs = (end_slot (config cs) - first_slot (config cs)) / 64;
  wf_entries : Z.of_nat (length (bitmap cs)) = (end_slot (config cs) - first_slot (config cs) + 63) / 64;
  wf_last : last_entry cs = 0 \/ 0 <= last_entry cs < bitmap_length cs;
  wf_padding : forall n, 0 <= n -> bit_at (bitmap cs) n = true ->
               n < end_slot (config cs) - first_slot (config cs)
}.

(** ** The search for a non-empty word *)

Definition entry_zero (cs : cspace_single_level) (e : Z) : Prop :=
  bitmap cs !! Z.to_nat e = Some 0.

Lemma next_entry_spec (cs : cspace_single_level) (fuel : nat) (k : Z) :
  0 <= last_entry cs < bitmap_length cs -> bitmap_length cs < word_size ->
  bitmap_length cs <= Z.of_nat (length (bitmap cs)) ->
  0 <= k < bitmap_length cs -> bitmap_length cs - k <= Z.of_nat fuel ->
  (forall j, 0 <= j <= k -> entry_zero cs ((last_entry cs + j) mod bitmap_length cs)) ->
  exists i, next_entry fuel cs ((last_entry cs + k) mod bitmap_length cs) = Ok i /\
    0 <= i < bitmap_length cs /\
    ((i = last_entry cs /\ forall e, 0 <= e < bitmap_length cs -> entry_zero cs e) \/
     (i <> last_entry cs /\ exists w, bitmap cs !! Z.to_nat i = Some w /\ w <> 0)).
Proof.
  intros Hlast Hword Hlen. revert k. induction fuel as [|fuel IH]; intros k Hk Hfuel Hz; [lia|].
  simpl. set (len := bitmap_length cs) in *. set (last := last_entry cs) in *.
  destruct (Z.eqb_spec len 0) as [|_]; [lia|].
  pose proof (Z.mod_pos_bound (last + k) len ltac:(lia)) as Hm.
  rewrite (wrap_small ((last + k) mod len + 1)) by (unfold is_word; lia).
  replace (((last + k) mod len + 1) mod len) with ((last + (k + 1)) mod len)
    by (rewrite Zplus_mod_idemp_l; f_equal; lia).
  pose proof (Z.mod_pos_bound (last + (k + 1)) len ltac:(lia)) as Hm1.
  destruct (arr_get_in (bitmap cs) ((last + (k + 1)) mod len)) as (w & -> & Hw); [lia|]. simpl.
  destruct (Z.eqb_spec w 0) as [->|Hne]; simpl.
  2: { eexists. split; [done|]. split; [lia|]. right. split; [|by eauto].
       intros Heq. destruct (Z.eq_dec (k + 1) len) as [Hl|Hl].
       - specialize (Hz 0 ltac:(lia)). unfold entry_zero in Hz.
         rewrite Z.add_0_r, Z.mod_small in Hz by lia. rewrite Heq in Hw. congruence.
       - rewrite mod_once in Heq by lia. destruct (Z.ltb_spec (last + (k + 1)) len); lia. }
  assert (Hz' : forall j, 0 <= j <= k + 1 -> entry_zero cs ((last + j) mod len)).
  { intros j Hj. destruct (Z.eq_dec j (k + 1)) as [->|]; [done|]. apply Hz; lia. }
  assert (Hall : k + 1 >= len - 1 -> forall e, 0 <= e < len -> entry_zero cs e).
  { intros Hkk e He. specialize (Hz' ((e - last) mod len)).
    pose proof (Z.mod_pos_bound (e - last) len ltac:(lia)).
    rewrite Zplus_mod_idemp_r in Hz'. replace (last + (e - last)) with e in Hz' by lia.
    rewrite (Z.mod_small e) in Hz' by lia. apply Hz'. lia. }
  destruct (Z.eqb_spec ((last + (k + 1)) mod len) last) as [Heq|Hne]; simpl.
  - eexists. split; [done|]. split; [lia|]. left. split; [done|]. apply Hall.
    enough (k + 1 = len) by lia.
    rewrite mod_once in Heq by lia. destruct (Z.ltb_spec (last + (k + 1)) len); lia.
  - destruct (Z.eq_dec (k + 1) len) as [He|].
    { exfalso. apply Hne. rewrite mod_once by lia.
      destruct (Z.ltb_spec (last + (k + 1)) len); lia. }
    apply IH; [lia|lia|done].
Qed.

(** ** Allocation *)

Section slots.
Context (cs : cspace_single_level) (Hwf : wf cs).

Lemma wf_managed_entries : bitmap_length cs <= Z.of_nat (length (bitmap cs)).
Proof using Hwf. rewrite (wf_length _ Hwf), (wf_entries _ Hwf). dlia. Qed.

Lemma wf_bitmap_length : 0 <= bitmap_length cs /\ 64 * bitmap_length cs < word_size.
Proof using Hwf.
  destruct (wf_range _ Hwf). rewrite (wf_length _ Hwf). unfold word_size in *. dlia.
Qed.

(** Taking index [n] of the bitmap removes exactly its slot. *)
Lemma avail_clear (n w x : Z) :
  0 <= n -> bitmap cs !! Z.to_nat (n / 64) = Some w ->
  avail (with_bitmap cs (<[Z.to_nat (n / 64) := Z.land w (wnot (BIT (n mod 64)))]> (bitmap cs))) x
  = avail cs x && negb (x =? first_slot (config cs) + n).
Proof using Type.
  intros Hn Hw. unfold avail; simpl. destruct (Z.leb_spec (first_slot (config cs)) x); [|done]. simpl.
  rewrite bit_at_clear by (done || lia). f_equal. f_equal.
  destruct (Z.eqb_spec (x - first_slot (config cs)) n), (Z.eqb_spec x (first_slot (config cs) + n)); lia.
Qed.

Lemma wf_clear (n w : Z) :
  0 <= n -> bitmap cs !! Z.to_nat (n / 64) = Some w ->
  wf (with_bitmap cs (<[Z.to_nat (n / 64) := Z.land w (wnot (BIT (n mod 64)))]> (bitmap cs))).
Proof using Hwf.
  intros Hn Hw. destruct Hwf. split; simpl; auto.
  - apply Forall_insert; [done|]. apply land_word_l. by eapply Forall_lookup_1.
  - by rewrite length_insert.
  - intros x Hx. rewrite bit_at_clear by done. intros [Hb _]%andb_true_iff. by apply wf_padding0.
Qed.

Lemma wf_with_last_entry (i : Z) : 0 <= i < bitmap_length cs -> wf (with_last_entry cs i).
Proof using Hwf. intros Hi. destruct Hwf. split; simpl; auto. Qed.

(** The index the highest set bit of word [i] stands for. *)
Lemma take_slot_spec (i w : Z) :
  0 <= i < bitmap_length cs -> bitmap cs !! Z.to_nat i = Some w -> w <> 0 ->
  exists slot cs', take_slot cs i = Ok (0, Some (_cspace_single_level_make_path cs slot), cs') /\
    wf cs' /\ config cs' = config cs /\ bitmap_length cs' = bitmap_length cs /\
    managed cs slot /\ avail cs slot = true /\
    (forall x, avail cs' x = avail cs x && negb (x =? slot)).
Proof using Hwf.
  intros Hi Hw Hne. unfold take_slot.
  assert (Hww : is_word w) by (eapply Forall_lookup_1; [apply (wf_words _ Hwf)|done]).
  destruct (highest_bit w Hww Hne) as [Hb Ht]. change CONFIG_WORD_SIZE with BITS_PER_WORD in *.
  set (b := BITS_PER_WORD - 1 - CLZL w) in *. set (n := 64 * i + b).
  assert (Hni : n / 64 = i) by (unfold n; dlia). assert (Hnb : n mod 64 = b) by (unfold n; dlia).
  pose proof wf_managed_entries as Hme. pose proof wf_bitmap_length as [_ Hbl].
  pose proof (wf_range _ Hwf) as Hr.
  rewrite (proj2 (arr_get_ok _ _ _) (conj (proj1 Hi) Hw)). cbn [res_bind]. fold b.
  rewrite arr_set_in by lia. simpl.
  assert (Hbit : bit_at (bitmap cs) n = true) by (unfold bit_at; by rewrite Hni, Hnb, Hw).
  pose proof (wf_padding _ Hwf n ltac:(lia) Hbit) as Hpad.
  assert (Hslot : first_slot (config cs) ⊞ (i ⊠ BITS_PER_WORD ⊞ b) = first_slot (config cs) + n).
  { unfold BITS_PER_WORD, n in *. rewrite (wrap_small (i * 64)) by (unfold is_word; lia).
    rewrite (wrap_small (i * 64 + b)) by (unfold is_word; lia).
    rewrite wrap_small by (unfold is_word; lia). lia. }
  rewrite Hslot. exists (first_slot (config cs) + n). eexists. split; [reflexivity|].
  rewrite <- Hni, <- Hnb in *. split_and!; try done.
  - apply wf_clear; [lia|]. by rewrite Hni, <- Hni.
  - unfold managed; lia.
  - unfold avail. rewrite Z.add_simpl_l, Hbit, andb_true_r. apply Z.leb_le. lia.
  - intros x. rewrite <- avail_clear with (w := w); [done|lia|done].
Qed.

Lemma no_managed_slot :
  (forall e, 0 <= e < bitmap_length cs -> entry_zero cs e) ->
  forall x, managed cs x -> avail cs x = false.
Proof using Hwf.
  intros H x Hx. unfold avail, managed in *. destruct (Z.leb_spec (first_slot (config cs)) x); [|done].
  simpl. set (n := x - first_slot (config cs)).
  specialize (H (n / 64) ltac:(unfold n; dlia)).
  replace n with (64 * (n / 64) + n mod 64) by dlia.
  eapply bit_at_word; [|apply (wf_words _ Hwf)|exact H| |]; [unfold n; dlia|done|dlia].
Qed.

End slots.

(** An allocation takes one managed slot that was free, or leaves the state
    alone when no managed slot is free. *)
Lemma alloc_cases (cs : cspace_single_level) :
  wf cs -> bitmap_length cs <> 0 ->
  (exists slot cs',
     _cspace_single_level_alloc cs = Ok (0, Some (_cspace_single_level_make_path cs slot), cs') /\
     wf cs' /\ config cs' = config cs /\ bitmap_length cs' = bitmap_length cs /\
     managed cs slot /\ avail cs slot = true /\
     (forall x, avail cs' x = avail cs x && negb (x =? slot))) \/
  (_cspace_single_level_alloc cs = Ok (1, None, cs) /\
   forall x, managed cs x -> avail cs x = false).
Proof.
  intros Hwf Hlen. unfold _cspace_single_level_alloc.
  pose proof (wf_managed_entries cs Hwf) as Hme. pose proof (wf_bitmap_length cs Hwf) as [Hbl Hbl'].
  assert (Hlast : 0 <= last_entry cs < bitmap_length cs) by (destruct (wf_last _ Hwf); lia).
  destruct (arr_get_in (bitmap cs) (last_entry cs)) as (w & -> & Hw); [lia|]. cbn [res_bind].
  destruct (Z.eqb_spec w 0) as [->|Hne]; [|left; by eapply take_slot_spec].
  destruct (Z.eqb_spec (bitmap_length cs) 0) as [|_]; [done|]. cbn [rassert negb res_bind].
  rewrite (proj2 (Z.ltb_lt _ _) (proj2 Hlast)). cbn [rassert res_bind].
  destruct (next_entry_spec cs (Z.to_nat (bitmap_length cs)) 0) as (i & Hi & Hir & Hcase);
    [done|lia|done|lia|lia| |].
  { intros j Hj. replace j with 0 by lia. rewrite Z.add_0_r, Z.mod_small by lia. done. }
  rewrite Z.add_0_r, Z.mod_small in Hi by lia. rewrite Hi. cbn [res_bind].
  destruct Hcase as [[-> Hz]|(Hne & w & Hwi & Hw0)].
  - rewrite Z.eqb_refl. right. split; [done|]. by apply no_managed_slot.
  - rewrite (proj2 (Z.eqb_neq _ _) Hne). left.
    destruct (take_slot_spec (with_last_entry cs i) (wf_with_last_entry cs Hwf i Hir) i w Hir Hwi Hw0)
      as (slot & cs' & H & ?). exists slot, cs'. by rewrite H.
Qed.

(** ** Allocation at a given slot, and freeing *)

Lemma index_managed (cs : cspace_single_level) (slot : Z) :
  wf cs -> is_word slot ->
  let index := slot ⊟ first_slot (config cs) in
  (index / 64 < bitmap_length cs <-> managed cs slot) /\
  (first_slot (config cs) <= slot -> index = slot - first_slot (config cs)).
Proof.
  intros Hwf Hs index. pose proof (wf_range _ Hwf) as Hr. pose proof (wf_bitmap_length _ Hwf).
  unfold index, managed, is_word, wrap in *. destruct (Z_lt_le_dec slot (first_slot (config cs))).
  - replace ((slot - first_slot (config cs)) mod word_size)
      with (slot - first_slot (config cs) + word_size).
    2:{ rewrite <- (Z_mod_plus_full _ 1), Z.mod_small; lia. }
    pose proof (wf_length _ Hwf). split; [|lia]. unfold word_size in *. dlia.
  - rewrite Z.mod_small by lia. split; [dlia|done].
Qed.

(** [alloc_at] takes the slot when it is managed and free, and otherwise
    fails without changing anything. *)
Lemma alloc_at_cases (cs : cspace_single_level) (slot : Z) :
  wf cs -> is_word slot ->
  (managed cs slot /\ avail cs slot = true /\
   exists cs', _cspace_single_level_alloc_at cs slot = Ok (0, cs') /\
     wf cs' /\ config cs' = config cs /\ bitmap_length cs' = bitmap_length cs /\
     (forall x, avail cs' x = avail cs x && negb (x =? slot))) \/
  ((~ managed cs slot \/ avail cs slot = false) /\
   _cspace_single_level_alloc_at cs slot = Ok (1, cs)).
Proof.
  intros Hwf Hs. destruct (index_managed cs slot Hwf Hs) as [Hm Hidx].
  unfold _cspace_single_level_alloc_at. change BITS_PER_WORD with 64.
  pose proof (wf_managed_entries cs Hwf) as Hme.
  destruct (Z.leb_spec (bitmap_length cs) ((slot ⊟ first_slot (config cs)) / 64)) as [Hle|Hlt].
  { right. split; [left; intros Hc%Hm; lia|done]. }
  apply Hm in Hlt as Hman. destruct Hman as [Hfirst Hend]. rewrite Hidx in * by done.
  set (n := slot - first_slot (config cs)) in *.
  destruct (arr_get_in (bitmap cs) (n / 64)) as (w & -> & Hw); [dlia|]. cbn [res_bind].
  assert (Hbit : avail cs slot = Z.testbit w (n mod 64)).
  { unfold avail, bit_at. fold n. rewrite Hw. by rewrite (proj2 (Z.leb_le _ _) Hfirst). }
  destruct (Z.eqb_spec (Z.land w (BIT (n mod 64))) 0) as [Hz|Hnz].
  - right. apply land_BIT_zero in Hz; [|dlia]. split; [right; congruence|done].
  - left. rewrite land_BIT_zero in Hnz by dlia. rewrite arr_set_in by dlia. cbn [res_bind].
    split; [done|]. split; [rewrite Hbit; by destruct (Z.testbit w (n mod 64))|].
    eexists. split; [reflexivity|]. split_and!; [apply wf_clear; done || lia|done|done|].
    intros x. rewrite avail_clear by (done || lia). f_equal. f_equal. f_equal. lia.
Qed.

(** [free] of an allocated slot makes it free again; of a free slot, it is
    stopped by the assertion. *)
Lemma free_cases (cs : cspace_single_level) (path : cspacepath_t) :
  wf cs -> first_slot (config cs) <= capPtr path < end_slot (config cs) ->
  if avail cs (capPtr path) then _cspace_single_level_free cs path = Fault AssertFailed
  else exists cs', _cspace_single_level_free cs path = Ok cs' /\
    wf cs' /\ config cs' = config cs /\ bitmap_length cs' = bitmap_length cs /\
    (forall x, avail cs' x = avail cs x || (x =? capPtr path)).
Proof.
  intros Hwf Hr. pose proof (wf_range _ Hwf) as Hrr.
  assert (Hs : is_word (capPtr path)) by (unfold is_word; lia).
  destruct (index_managed cs (capPtr path) Hwf Hs) as [_ Hidx].
  unfold _cspace_single_level_free. change BITS_PER_WORD with 64. rewrite Hidx by lia.
  set (n := capPtr path - first_slot (config cs)) in *.
  pose proof (wf_entries _ Hwf) as He.
  destruct (arr_get_in (bitmap cs) (n / 64)) as (w & -> & Hw); [dlia|]. cbn [res_bind].
  unfold avail at 1. rewrite (proj2 (Z.leb_le _ _) (proj1 Hr)). fold n. cbn [andb].
  unfold bit_at at 1. rewrite Hw.
  destruct (Z.testbit w (n mod 64)) eqn:Ht.
  { destruct (Z.eqb_spec (Z.land w (BIT (n mod 64))) 0) as [Hz|]; [|done].
    apply land_BIT_zero in Hz; [congruence|dlia]. }
  rewrite (proj2 (Z.eqb_eq _ _) (proj2 (land_BIT_zero w (n mod 64) ltac:(dlia)) Ht)).
  cbn [rassert res_bind]. rewrite arr_set_in by dlia. cbn [res_bind].
  eexists. split; [reflexivity|]. split_and!; [|done|done|].
  - destruct Hwf. split; simpl; auto.
    + apply Forall_insert; [done|]. apply lor_word; [by eapply Forall_lookup_1|apply BIT_word].
    + by rewrite length_insert.
    + intros x Hx. rewrite bit_at_set by (done || lia). intros [Hb|Hb]%orb_true_iff; [eauto|].
      apply Z.eqb_eq in Hb. lia.
  - intros x. unfold avail; simpl. destruct (Z.leb_spec (first_slot (config cs)) x); simpl.
    + rewrite bit_at_set by (done || lia). f_equal.
      destruct (Z.eqb_spec (x - first_slot (config cs)) n), (Z.eqb_spec x (capPtr path)); lia.
    + destruct (Z.eqb_spec x (capPtr path)); [lia|done].
Qed.

(** ** Creation *)

Lemma clear_padding_spec (fuel : nat) (b : list Z) (entry i w : Z) :
  0 <= entry -> b !! Z.to_nat entry = Some w -> is_word w -> 0 <= i <= 64 ->
  65 - i <= Z.of_nat fuel ->
  exists w', clear_padding fuel b entry i = Ok (<[Z.to_nat entry := w']> b) /\ is_word w' /\
    forall j, 0 <= j < 64 -> Z.testbit w' j = xorb (Z.testbit w j) (i <=? j).
Proof.
  revert b i w. induction fuel as [|fuel IH]; intros b i w He Hw Hww Hi Hf; [lia|].
  simpl. unfold BITS_PER_WORD. destruct (Z.ltb_spec i 64).
  - pose proof (lookup_lt_Some _ _ _ Hw) as Hlen.
    rewrite (proj2 (arr_get_ok _ _ _) (conj He Hw)). cbn [res_bind].
    rewrite arr_set_in by lia. cbn [res_bind]. rewrite wrap_small by (unfold is_word, word_size; lia).
    destruct (IH (<[Z.to_nat entry := Z.lxor w (BIT i)]> b) (i + 1) (Z.lxor w (BIT i)))
      as (w' & -> & Hw' & Ht); [done| |auto with word|lia|lia|].
    { apply list_lookup_insert_eq. lia. }
    rewrite list_insert_insert_eq. exists w'. split; [done|]. split; [done|].
    intros j Hj. rewrite Ht, Z.lxor_spec, BIT_testbit by lia.
    case_bool_decide; destruct (Z.leb_spec (i + 1) j), (Z.leb_spec i j); try lia;
      by destruct (Z.testbit w j).
  - exists w. rewrite list_insert_id by done. split; [done|]. split; [done|].
    intros j Hj. destruct (Z.leb_spec i j); [lia|]. by rewrite xorb_false_r.
Qed.

(** A new cspace has exactly the slots [first_slot .. end_slot - 1] free. *)
Lemma create_cases {W} `{!AllocmanOps W} (cfg : cspace_single_level_config) (w w' : W) (ptr error : Z) :
  0 <= first_slot cfg <= end_slot cfg -> end_slot cfg < word_size ->
  allocman_mspace_alloc ((end_slot cfg - first_slot cfg + 63) / 64 * 8) w = Ok (ptr, error, w') ->
  if error =? 0 then
    exists cs, cspace_single_level_create cfg w = Ok (0, Some cs, w') /\ wf cs /\ config cs = cfg /\
      bitmap_ptr cs = ptr /\ last_entry cs = 0 /\
      (forall x, avail cs x = true <-> first_slot cfg <= x < end_slot cfg)
  else cspace_single_level_create cfg w = Ok (error, None, w').
Proof.
  intros Hr Hend Halloc. unfold cspace_single_level_create. change BITS_PER_WORD with 64.
  rewrite (wrap_small (end_slot cfg - _)) by (unfold is_word; lia).
  set (num := end_slot cfg - first_slot cfg) in *.
  set (entries := if num mod 64 =? 0 then num / 64 else num / 64 ⊞ 1).
  assert (Hent : entries = (num + 63) / 64).
  { unfold entries. destruct (Z.eqb_spec (num mod 64) 0); [dlia|].
    rewrite wrap_small by (unfold is_word, word_size in *; dlia). dlia. }
  unfold bind. unfold sizeof_size_t.
  rewrite Hent, wrap_small by (unfold is_word, word_size in *; dlia). rewrite Halloc.
  cbn [res_bind]. destruct (Z.eqb_spec error 0) as [->|]; [|done]. cbn [negb].
  set (ones := replicate (Z.to_nat ((num + 63) / 64)) (word_size - 1)).
  assert (Hones : forall e, 0 <= e < (num + 63) / 64 -> ones !! Z.to_nat e = Some (word_size - 1)).
  { intros e He. apply lookup_replicate. split; [done|lia]. }
  assert (Hwf : forall b, Forall is_word b -> length b = length ones ->
    (forall n, 0 <= n -> bit_at b n = true <-> n < num) ->
    exists cs, Ok (0, Some (SingleLevel cfg ptr b (num / 64) 0), w') = Ok (0, Some cs, w') /\
      wf cs /\ config cs = cfg /\ bitmap_ptr cs = ptr /\ last_entry cs = 0 /\
      (forall x, avail cs x = true <-> first_slot cfg <= x < end_slot cfg)).
  { intros b Hb Hlen Hbits. eexists. split; [reflexivity|]. split_and!; try done.
    - split; simpl; auto.
      + rewrite Hlen. unfold ones. rewrite length_replicate. fold num. dlia.
      + intros n Hn. by apply Hbits.
    - intros x. unfold avail; simpl. rewrite andb_true_iff, Z.leb_le.
      split; [intros [Hx Hb']; apply Hbits in Hb'; lia|intros Hx; split; [lia|apply Hbits; lia]]. }
  destruct (Z.eqb_spec (num mod 64) 0) as [Hz|Hnz]; cbn [negb]; unfold ret; cbn [res_bind].
  - apply Hwf; [|done|].
    + apply Forall_replicate. unfold is_word; by vm_compute.
    + intros n Hn. unfold bit_at. destruct (Z_lt_le_dec n num).
      * rewrite Hones by dlia. rewrite all_ones_testbit by dlia. done.
      * rewrite (lookup_ge_None_2 ones); [split; [done|lia]|]. unfold ones. rewrite length_replicate. dlia.
  - rewrite wrap_small by (unfold is_word, word_size in *; dlia).
    destruct (clear_padding_spec 65 ones ((num + 63) / 64 - 1) (num mod 64) (word_size - 1))
      as (wd & Hc & Hwd & Ht); [dlia|apply Hones; dlia|by vm_compute|dlia|dlia|].
    unfold lift. rewrite Hc. cbn [res_bind]. apply Hwf.
    + apply Forall_insert; [|done]. apply Forall_replicate. by vm_compute.
    + by rewrite length_insert.
    + intros n Hn. unfold bit_at. destruct (Z_lt_le_dec n (num / 64 * 64)).
      * rewrite list_lookup_insert_ne by dlia. rewrite Hones by dlia.
        rewrite all_ones_testbit by dlia. split; [dlia|done].
      * destruct (Z.eq_dec (n / 64) ((num + 63) / 64 - 1)) as [He|Hne].
        -- rewrite He, list_lookup_insert_eq by (unfold ones; rewrite length_replicate; dlia).
           rewrite Ht by dlia. rewrite all_ones_testbit by dlia. rewrite xorb_true_l, negb_true_iff, Z.leb_gt.
           dlia.
        -- rewrite list_lookup_insert_ne by dlia.
           rewrite (lookup_ge_None_2 ones); [split; [done|dlia]|].
           unfold ones. rewrite length_replicate. dlia.
Qed.

(** ** Running a sequence of operations *)

Definition run_op (cs : cspace_single_level) (op : slot_op) : res (slot_result * cspace_single_level) :=
  match op with
  | AllocSlot => let? (r, cs') := _cspace_single_level_alloc cs in
                 Ok ((r.1, capPtr <$> r.2), cs')
  | AllocSlotAt slot => let? (e, cs') := _cspace_single_level_alloc_at cs slot in Ok ((e, None), cs')
  | FreeSlot slot => let? cs' := _cspace_single_level_free cs (_cspace_single_level_make_path cs slot) in
                     Ok ((0, None), cs')
  end.

Fixpoint run_ops (cs : cspace_single_level) (ops : list slot_op)
    : res (list slot_result * cspace_single_level) :=
  match ops with
  | [] => Ok ([], cs)
  | op :: ops => let? (r, cs1) := run_op cs op in
                 let? (rs, cs2) := run_ops cs1 ops in Ok (r :: rs, cs2)
  end.

Definition op_slot_word (op : slot_op) : Prop :=
  match op with AllocSlot => True | AllocSlotAt slot | FreeSlot slot => is_word slot end.

(** The client's obligation: only free a slot of the CNode that is allocated. *)
Definition legal (cs : cspace_single_level) (op : slot_op) : Prop :=
  match op with
  | FreeSlot slot => first_slot (config cs) <= slot < end_slot (config cs) /\ avail cs slot = false
  | _ => True
  end.

Lemma run_op_refines (cs : cspace_single_level) (op : slot_op) :
  wf cs -> bitmap_length cs <> 0 -> op_slot_word op -> legal cs op ->
  exists r cs', run_op cs op = Ok (r, cs') /\ wf cs' /\ config cs' = config cs /\
    bitmap_length cs' = bitmap_length cs /\ slot_step (managed cs) (avail cs) op r (avail cs').
Proof.
  intros Hwf Hlen Hop Hleg. destruct op as [|slot|slot]; simpl in *.
  - destruct (alloc_cases cs Hwf Hlen) as [(slot & cs' & -> & ? & ? & ? & ? & ? & ?)|[-> Hno]]; simpl;
      do 2 eexists; (split; [reflexivity|]); split_and!; try done; by constructor.
  - destruct (alloc_at_cases cs slot Hwf Hop) as [(? & ? & cs' & -> & ? & ? & ? & ?)|[? ->]]; simpl;
      do 2 eexists; (split; [reflexivity|]); split_and!; try done; by constructor.
  - pose proof (free_cases cs (_cspace_single_level_make_path cs slot) Hwf (proj1 Hleg)) as Hf.
    simpl in Hf. rewrite (proj2 Hleg) in Hf. destruct Hf as (cs' & -> & ? & ? & ? & ?). simpl.
    do 2 eexists. split; [reflexivity|]. split_and!; try done. constructor; [apply Hleg|done].
Qed.

Lemma managed_config (cs cs' : cspace_single_level) :
  config cs' = config cs -> bitmap_length cs' = bitmap_length cs -> managed cs' = managed cs.
Proof. unfold managed. by intros -> ->. Qed.

#[export] Instance legal_dec cs op : Decision (legal cs op).
Proof. destruct op; simpl; apply _. Defined.

#[export] Program Instance single_level_allocator : SlotAllocator cspace_single_level := {|
  cs_alloc := _cspace_single_level_alloc;
  cs_make_path := _cspace_single_level_make_path;
  cs_wf cs := wf cs /\ bitmap_length cs <> 0;
  cs_avail cs slot := bool_decide (first_slot (config cs) <= slot < first_slot (config cs) + 64 * bitmap_length cs)
                      && avail cs slot
|}.
Next Obligation. done. Qed.
Next Obligation.
  intros cs [Hwf Hlen]. destruct (alloc_cases cs Hwf Hlen)
    as [(slot & cs' & H1 & H2 & H3 & H4 & H5 & H6 & H7)|[H1 H2]].
  - left. exists slot, cs'. split_and!; [done|done|congruence| |].
    + rewrite bool_decide_eq_true_2; [done|apply H5].
    + intros x. rewrite H3, H4, H7. apply andb_assoc.
  - right. exists 1. split; [done|]. split; [done|]. intros x.
    case_bool_decide; [|done]. by rewrite H2.
Qed.

(** Every operation of the run is legal in the state it is applied to. *)
Fixpoint legal_run (cs : cspace_single_level) (ops : list slot_op) : Prop :=
  match ops with
  | [] => True
  | op :: ops => op_slot_word op /\ legal cs op /\
      match run_op cs op with Ok (_, cs1) => legal_run cs1 ops | Fault _ => True end
  end.

(** ** Properties *)

(** C12: the bitmap allocator refines the abstract slot allocator.  Any
    sequence of allocations, allocations at a given slot and frees of
    allocated slots runs without a fault and returns what the machine over
    sets of free slots allows, the free bits being the machine's free slots
    at the end. *)
Theorem single_level_refines (cs : cspace_single_level) (ops : list slot_op) :
  wf cs -> 64 <= end_slot (config cs) - first_slot (config cs) -> legal_run cs ops ->
  exists rs cs', run_ops cs ops = Ok (rs, cs') /\ wf cs' /\ slot_trace (managed cs) (avail cs) ops rs (avail cs').
Proof.
  intros Hwf Hnum. assert (Hlen : bitmap_length cs <> 0) by (rewrite (wf_length _ Hwf); dlia).
  clear Hnum. revert cs Hwf Hlen. induction ops as [|op ops IH]; intros cs Hwf Hlen; simpl.
  { intros _. exists [], cs. split; [done|]. split; [done|constructor]. }
  intros (Hop & Hleg & Hrest).
  destruct (run_op_refines cs op Hwf Hlen Hop Hleg) as (r & cs1 & Hr & Hwf1 & Hc & Hl & Hstep).
  rewrite Hr in *. cbn [res_bind].
  destruct (IH cs1 Hwf1 ltac:(congruence) Hrest) as (rs & cs2 & -> & Hwf2 & Htr). cbn [res_bind].
  exists (r :: rs), cs2. split; [done|]. split; [done|].
  rewrite (managed_config _ _ Hc Hl) in Htr. by econstructor.
Qed.

(** A CNode of 128 slots, of which 10 .. 137 are ours, all of them free. *)
Definition sample_config : cspace_single_level_config := Config 2 12 52 10 138.
Definition sample : cspace_single_level :=
  SingleLevel sample_config 4096 [word_size - 1; word_size - 1] 2 0.

Lemma sample_wf : wf sample.
Proof.
  split; simpl; try done.
  - repeat constructor; by vm_compute.
  - by left.
  - intros n Hn. unfold bit_at. simpl. destruct (Z_lt_le_dec n 128); [lia|].
    rewrite lookup_ge_None_2; [done|]. simpl. dlia.
Qed.

Lemma single_level_refines_witness :
  exists rs cs', run_ops sample [AllocSlot; AllocSlotAt 137; FreeSlot 73; AllocSlot] = Ok (rs, cs') /\ wf cs' /\ slot_trace (managed sample) (avail sample)
                [AllocSlot; AllocSlotAt 137; FreeSlot 73; AllocSlot] rs (avail cs').
Proof.
  apply single_level_refines; [apply sample_wf|simpl; lia|].
  vm_compute. repeat split; done.
Defined.

(** [cspace_single_level_create] asks the allocator for one word per 64
    slots, rounded up; if it gets them, the new cspace is well formed and
    exactly the slots [first_slot .. end_slot - 1] are free; if it does not,
    the allocator's error is returned and nothing is created. *)
Theorem create_spec {W} `{!AllocmanOps W} (cfg : cspace_single_level_config) (w w' : W) (ptr error : Z) :
  0 <= first_slot cfg <= end_slot cfg -> end_slot cfg < word_size ->
  allocman_mspace_alloc ((end_slot cfg - first_slot cfg + 63) / 64 * 8) w = Ok (ptr, error, w') ->
  (error <> 0 /\ cspace_single_level_create cfg w = Ok (error, None, w')) \/
  (error = 0 /\ exists cs, cspace_single_level_create cfg w = Ok (0, Some cs, w') /\ wf cs /\ config cs = cfg /\
    forall x, avail cs x = true <-> first_slot cfg <= x < end_slot cfg).
Proof.
  intros H1 H2 H3. pose proof (create_cases cfg w w' ptr error H1 H2 H3) as H.
  destruct (Z.eqb_spec error 0); [right|by left].
  split; [done|]. destruct H as (cs & ? & ? & ? & ? & ? & ?). by exists cs.
Qed.

(** An allocator for witnesses: a bump pointer that never fails. *)
#[export] Instance pos_bump_ops : AllocmanOps Z := {|
  allocman_mspace_alloc bytes := fun w => Ok (Z.max 1 w, 0, Z.max 1 w + bytes);
  allocman_mspace_free _ _ := fun w => Ok (tt, w);
  allocman_cspace_alloc := fun w => Ok (0, Cspacepath w 64 2 0 0 w 1, w + 1);
  allocman_cspace_free _ := fun w => Ok (tt, w);
  allocman_utspace_alloc _ _ _ _ := fun w => Ok (w, 0, w + 1);
  allocman_utspace_free _ _ := fun w => Ok (tt, w)
|}.

Lemma create_spec_witness :
  (0 <> 0 /\ cspace_single_level_create sample_config 4096 = Ok (0, None, 4112)) \/
  (0 = 0 /\ exists cs, cspace_single_level_create sample_config 4096 = Ok (0, Some cs, 4112) /\ wf cs /\ config cs = sample_config /\
    forall x, avail cs x = true <-> first_slot sample_config <= x < end_slot sample_config).
Proof. apply (create_spec sample_config 4096 4112 4096 0); [by vm_compute|by vm_compute|reflexivity]. Defined.

(** The last slots are lost.  [bitmap_length] is the number of slots
    divided by 64, rounded down, although the array has a word for the
    remainder: a slot past [64 * bitmap_length] stays free forever, no
    sequence of allocations returns it and asking for it by number fails. *)
Theorem tail_slots_lost (cs : cspace_single_level) (n : nat) (slot : Z) :
  wf cs -> 64 <= end_slot (config cs) - first_slot (config cs) ->
  let full := (end_slot (config cs) - first_slot (config cs)) / 64 * 64 in
  first_slot (config cs) + full <= slot < end_slot (config cs) ->
  _cspace_single_level_alloc_at cs slot = Ok (1, cs) /\
  exists l cs', alloc_slots n cs = Ok (l, cs') /\ (slot ∉ l) /\ NoDup l /\
    Z.of_nat (length l) <= full.
Proof.
  intros Hwf Hnum full Hslot. pose proof (wf_range _ Hwf) as Hr.
  assert (Hlen : bitmap_length cs <> 0) by (rewrite (wf_length _ Hwf); dlia).
  assert (Hunm : ~ managed cs slot).
  { unfold managed. rewrite (wf_length _ Hwf). unfold full in Hslot. lia. }
  split.
  { destruct (alloc_at_cases cs slot Hwf) as [(Hm & _)|[_ ->]]; [unfold is_word, full in *; dlia|done|done]. }
  destruct (alloc_slots_fresh n cs) as (l & cs' & -> & _ & Hnd & Hin & _); [by split|].
  exists l, cs'. split; [done|].
  assert (Hbound : forall x, x ∈ l -> first_slot (config cs) <= x < first_slot (config cs) + full).
  { intros x Hx%Hin. simpl in Hx. rewrite andb_true_iff, bool_decide_eq_true in Hx.
    rewrite (wf_length _ Hwf) in Hx. unfold full. lia. }
  split; [intros Hx%Hbound; lia|]. split; [done|].
  apply (NoDup_in_range l (first_slot (config cs)) full); [unfold full; dlia|done|done].
Qed.

(** 70 slots: one word of 64 and a remainder of 6. *)
Definition sample70 : cspace_single_level :=
  SingleLevel (Config 2 12 52 0 70) 4096 [word_size - 1; 63] 1 0.

Lemma sample70_wf : wf sample70.
Proof.
  split; simpl; try done.
  - repeat constructor; by vm_compute.
  - by left.
  - intros n Hn. unfold bit_at. simpl. destruct (Z_lt_le_dec n 70); [done|].
    destruct (Z_lt_le_dec n 128).
    + replace (n / 64) with 1 by dlia. simpl. change 63 with (Z.ones 6).
      rewrite Z.ones_spec_high by dlia. done.
    + rewrite lookup_ge_None_2; [done|]. simpl. dlia.
Qed.

Lemma tail_slots_lost_witness :
  _cspace_single_level_alloc_at sample70 65 = Ok (1, sample70) /\ exists l cs', alloc_slots 70 sample70 = Ok (l, cs') /\ (65 ∉ l) /\ NoDup l /\
    Z.of_nat (length l) <= 64.
Proof. apply (tail_slots_lost sample70 70 65); [apply sample70_wf|simpl; lia|vm_compute; split; congruence]. Defined.

(** With fewer than 64 slots [bitmap_length] is 0: once the only word is
    used up the next allocation is stopped by the assertion instead of
    returning an error. *)
Example small_cspace_asserts :
  _cspace_single_level_alloc (SingleLevel (Config 2 4 60 0 16) 4096 [0] 0 0) = Fault AssertFailed.
Proof. reflexivity. Qed.

(** [destroy] gives back fewer bytes than [create] took when the number of
    slots is not a multiple of 64. *)
Lemma destroy_size {W} `{!AllocmanOps W} (cs : cspace_single_level) :
  wf cs ->
  cspace_single_level_destroy cs = allocman_mspace_free (bitmap_ptr cs)
    ((end_slot (config cs) - first_slot (config cs)) / 64 * 8).
Proof.
  intros Hwf. unfold cspace_single_level_destroy, sizeof_size_t.
  pose proof (wf_bitmap_length cs Hwf). rewrite wrap_small by (unfold is_word; lia).
  by rewrite (wf_length _ Hwf).
Qed.
