(* ===== verification/TwoLevel.v ===== *)
(** libsel4allocman/src/cspace/two_level.c and
    include/allocman/cspace/two_level.h: a CNode of CNodes, each level tracked
    by a bitmap allocator, the second-level CNodes being created on demand and
    destroyed when their last slot is freed. *)
From S2P Require Import Prelude Cspacepath Interfaces SingleLevel.

Record cspace_two_level_config : Type := TConfig {
  tc_cnode : Z;
  tc_cnode_size_bits : Z;
  tc_cnode_guard_bits : Z;
  tc_first_slot : Z;
  tc_end_slot : Z;
  level_two_bits : Z;
  start_existing_index : Z;
  end_existing_index : Z;
  start_existing_slot : Z;
  end_existing_slot : Z
}.

(** [node_ptr] is the address the structure was allocated at. *)
Record cspace_two_level_node : Type := Node {
  node_ptr : Z;
  count : Z;
  second_level : cspace_single_level;
  cookie : Z;
  cookie_valid : bool
}.

(** [second_levels] is the array at [second_levels_ptr], a null pointer being
    [None]. *)
Record cspace_two_level : Type := TwoLevel {
  tconfig : cspace_two_level_config;
  first_level : cspace_single_level;
  second_levels_ptr : Z;
  second_levels : list (option cspace_two_level_node);
  last_second_level : Z
}.

Definition with_first_level (cs : cspace_two_level) (f : cspace_single_level) : cspace_two_level :=
  TwoLevel (tconfig cs) f (second_levels_ptr cs) (second_levels cs) (last_second_level cs).
Definition with_second_levels (cs : cspace_two_level) (l : list (option cspace_two_level_node)) : cspace_two_level :=
  TwoLevel (tconfig cs) (first_level cs) (second_levels_ptr cs) l (last_second_level cs).
Definition with_last_second_level (cs : cspace_two_level) (i : Z) : cspace_two_level :=
  TwoLevel (tconfig cs) (first_level cs) (second_levels_ptr cs) (second_levels cs) i.
Definition set_count (n : cspace_two_level_node) (c : Z) : cspace_two_level_node :=
  Node (node_ptr n) c (second_level n) (cookie n) (cookie_valid n).
Definition set_second_level (n : cspace_two_level_node) (s : cspace_single_level) : cspace_two_level_node :=
  Node (node_ptr n) (count n) s (cookie n) (cookie_valid n).
Definition set_cookie (n : cspace_two_level_node) (c : Z) (v : bool) : cspace_two_level_node :=
  Node (node_ptr n) (count n) (second_level n) c v.

Definition sizeof_node : Z := 88.
Definition sizeof_pointer : Z := 8.

(** [cspace->second_levels[i]], which must not be null. *)
Definition get_node (cs : cspace_two_level) (i : Z) : res cspace_two_level_node :=
  let? o := arr_get (second_levels cs) i in
  match o with Some n => Ok n | None => Fault NullPointer end.

Definition set_node (cs : cspace_two_level) (i : Z) (o : option cspace_two_level_node) : res cspace_two_level :=
  let? l := arr_set (second_levels cs) i o in Ok (with_second_levels cs l).

Definition _cspace_two_level_make_path (cspace : cspace_two_level) (slot : Z) : res cspacepath_t :=
  let l1slot := Z.shiftr slot (level_two_bits (tconfig cspace)) in
  let l2slot := Z.land slot (MASK (level_two_bits (tconfig cspace))) in
  let? o := arr_get (second_levels cspace) l1slot in
  match o with
  | None => Fault AssertFailed
  | Some node =>
    let l1_path := _cspace_single_level_make_path (first_level cspace) l1slot in
    let l2_path := _cspace_single_level_make_path (second_level node) l2slot in
    Ok {| root := root l1_path;
          capPtr := Z.lor (capPtr l1_path ≪w capDepth l2_path) (capPtr l2_path);
          capDepth := capDepth l1_path ⊞ capDepth l2_path;
          dest := Z.lor (capPtr l1_path ≪w destDepth l2_path) (dest l2_path);
          destDepth := capDepth l1_path ⊞ destDepth l2_path;
          offset := offset l2_path;
          window := 0 |}
  end.

Section operations.
Context {W : Type} `{!AllocmanOps W} `{!KernelOps W} {seL4 : SeL4Constants}.

(** What fresh memory at an address happens to hold. *)
Context (uninit : Z -> cspace_two_level_node).

Definition second_level_config (cspace : cspace_two_level) : cspace_single_level_config :=
  Config 0 (level_two_bits (tconfig cspace)) 0 0 (BIT (level_two_bits (tconfig cspace))).

Definition _create_second_level (cspace : cspace_two_level) (index : Z) (alloc_node : bool)
    : M W (Z * cspace_two_level) :=
  let bits := level_two_bits (tconfig cspace) in
  let! (ptr, error) := allocman_mspace_alloc sizeof_node in
  let! cspace := lift (set_node cspace index (if ptr =? 0 then None else Some (uninit ptr))) in
  if negb (error =? 0) then ret (error, cspace) else
  let! node := lift (get_node cspace index) in
  let! (node, error) :=
    (if alloc_node then
       let path := _cspace_single_level_make_path (first_level cspace) index in
       let! (c, error) := allocman_utspace_alloc (bits ⊞ seL4_SlotBits) seL4_CapTableObject path false in
       ret (set_cookie node c true, error)
     else ret (set_cookie node (cookie node) false, error)) in
  if negb (error =? 0) then
    let! _ := allocman_mspace_free ptr sizeof_node in
    let! cspace := lift (set_node cspace index None) in
    ret (error, cspace)
  else
    let! (error, sl) := cspace_single_level_create (second_level_config cspace) in
    match sl with
    | None =>
      let! _ := allocman_utspace_free (cookie node) (bits ⊞ seL4_SlotBits) in
      let! _ := allocman_mspace_free ptr sizeof_node in
      let! cspace := lift (set_node cspace index None) in
      ret (error, cspace)
    | Some sl =>
      let! cspace := lift (set_node cspace index (Some (set_count (set_second_level node sl) 0))) in
      ret (0, cspace)
    end.

Definition _cspace_two_level_alloc_at (cspace : cspace_two_level) (slot : Z) : M W (Z * cspace_two_level) :=
  let l1slot := Z.shiftr slot (level_two_bits (tconfig cspace)) in
  let l2slot := Z.land slot (MASK (level_two_bits (tconfig cspace))) in
  let! o := lift (arr_get (second_levels cspace) l1slot) in
  let! (error, cspace) :=
    (match o with
     | Some _ => ret (0, cspace)
     | None =>
       let! (error, f) := lift (_cspace_single_level_alloc_at (first_level cspace) l1slot) in
       let cspace := with_first_level cspace f in
       if negb (error =? 0) then ret (error, cspace)
       else _create_second_level cspace l1slot true
     end) in
  if negb (error =? 0) then ret (error, cspace)
  else
    let! node := lift (get_node cspace l1slot) in
    let! (error, s) := lift (_cspace_single_level_alloc_at (second_level node) l2slot) in
    let node := set_second_level node s in
    if negb (error =? 0) then
      let! cspace := lift (set_node cspace l1slot (Some node)) in ret (error, cspace)
    else
      let! cspace := lift (set_node cspace l1slot (Some (set_count node (count node ⊞ 1)))) in
      ret (0, cspace).

(** The search of [_cspace_two_level_alloc] for a node with a free slot;
    returns [found] and the final [i]. *)
Fixpoint hunt (fuel : nat) (cspace : cspace_two_level) (i : Z) (first : bool) : res (bool * Z) :=
  match fuel with
  | O => Fault OutOfFuel
  | S fuel =>
    if first || negb (i =? last_second_level cspace) then
      let? o := arr_get (second_levels cspace) i in
      if match o with
         | Some node => count node <? MASK (level_two_bits (tconfig cspace))
         | None => false
         end
      then Ok (true, i)
      else hunt fuel cspace ((i ⊞ 1) mod BIT (tc_cnode_size_bits (tconfig cspace))) false
    else Ok (false, i)
  end.

Definition _cspace_two_level_alloc (cspace : cspace_two_level)
    : M W (Z * option cspacepath_t * cspace_two_level) :=
  let! (found, i) := lift (hunt (S (Z.to_nat (BIT (tc_cnode_size_bits (tconfig cspace)))))
                             cspace (last_second_level cspace) true) in
  let! (error, cspace) :=
    (if found then ret (0, cspace) else
       let! (error, l1slot, f) := lift (_cspace_single_level_alloc (first_level cspace)) in
       let cspace := with_first_level cspace f in
       match l1slot with
       | None => ret (error, cspace)
       | Some l1slot => _create_second_level cspace (offset l1slot) true
       end) in
  if negb (error =? 0) then ret (error, None, cspace)
  else
    let cspace := with_last_second_level cspace i in
    let! node := lift (get_node cspace i) in
    let! (error, level2_slot, s) := lift (_cspace_single_level_alloc (second_level node)) in
    match level2_slot with
    | None => stop AssertFailed
    | Some level2_slot =>
      let! cspace := lift (set_node cspace i (Some (set_count (set_second_level node s) (count node ⊞ 1)))) in
      let! path := lift (_cspace_two_level_make_path cspace
                     (Z.lor (i ≪w level_two_bits (tconfig cspace)) (capPtr level2_slot))) in
      ret (0, Some path, cspace)
    end.

Definition _destroy_second_level (cspace : cspace_two_level) (index : Z) : M W cspace_two_level :=
  let bits := level_two_bits (tconfig cspace) in
  let! node := lift (get_node cspace index) in
  let! _ := cspace_single_level_destroy (second_level node) in
  let! _ := (if cookie_valid node then
               let! error := seL4_CNode_Delete (tc_cnode (tconfig cspace)) index (seL4_WordBits ⊟ bits) in
               let! _ := cassert (error =? seL4_NoError) in
               allocman_utspace_free (cookie node) (bits ⊞ seL4_SlotBits)
             else ret tt) in
  let! _ := allocman_mspace_free (node_ptr node) sizeof_node in
  let path := _cspace_single_level_make_path (first_level cspace) index in
  let! f := lift (_cspace_single_level_free (first_level cspace) path) in
  ret (with_first_level cspace f).

Definition _cspace_two_level_free (cspace : cspace_two_level) (slot : cspacepath_t) : M W cspace_two_level :=
  let cptr := capPtr slot in
  let l1slot := Z.shiftr cptr (level_two_bits (tconfig cspace)) in
  let l2slot := Z.land cptr (MASK (level_two_bits (tconfig cspace))) in
  let! node := lift (get_node cspace l1slot) in
  let path := _cspace_single_level_make_path (second_level node) l2slot in
  let! s := lift (_cspace_single_level_free (second_level node) path) in
  let node := set_count (set_second_level node s) (count node ⊟ 1) in
  let! cspace := lift (set_node cspace l1slot (Some node)) in
  if count node =? 0 then
    let! cspace := _destroy_second_level cspace l1slot in
    lift (set_node cspace l1slot None)
  else ret cspace.

(** The loop of [cspace_two_level_destroy] over the [n] nodes from [i]. *)
Fixpoint destroy_levels (n : nat) (cspace : cspace_two_level) (i : Z) : M W cspace_two_level :=
  match n with
  | O => ret cspace
  | S n =>
    let! o := lift (arr_get (second_levels cspace) i) in
    let! cspace := (match o with Some _ => _destroy_second_level cspace i | None => ret cspace end) in
    destroy_levels n cspace (i + 1)
  end.

Definition cspace_two_level_destroy (cspace : cspace_two_level) : M W unit :=
  let size := BIT (tc_cnode_size_bits (tconfig cspace)) in
  let! cspace := destroy_levels (Z.to_nat size) cspace 0 in
  let! _ := allocman_mspace_free (second_levels_ptr cspace) (sizeof_pointer ⊠ size) in
  cspace_single_level_destroy (first_level cspace).

(** The loop of [cspace_two_level_create] over the [n] existing nodes from [i]. *)
Fixpoint create_existing (n : nat) (cspace : cspace_two_level) (i : Z) : M W (Z * cspace_two_level) :=
  match n with
  | O => ret (0, cspace)
  | S n =>
    let! (error, f) := lift (_cspace_single_level_alloc_at (first_level cspace) i) in
    let cspace := with_first_level cspace f in
    if negb (error =? 0) then
      let! _ := cspace_two_level_destroy cspace in ret (error, cspace)
    else
      let! (error, cspace) := _create_second_level cspace i false in
      if negb (error =? 0) then
        let! _ := cspace_two_level_destroy cspace in ret (error, cspace)
      else create_existing n cspace (i + 1)
  end.

(** The loop of [cspace_two_level_create] over the [n] existing slots from [i]. *)
Fixpoint alloc_existing (n : nat) (cspace : cspace_two_level) (i : Z) : M W (Z * cspace_two_level) :=
  match n with
  | O => ret (0, cspace)
  | S n =>
    let! (error, cspace) := _cspace_two_level_alloc_at cspace i in
    if negb (error =? 0) then
      let! _ := cspace_two_level_destroy cspace in ret (error, cspace)
    else alloc_existing n cspace (i + 1)
  end.

Definition cspace_two_level_create (cfg : cspace_two_level_config) : M W (Z * option cspace_two_level) :=
  let single_config := Config (tc_cnode cfg) (tc_cnode_size_bits cfg) (tc_cnode_guard_bits cfg)
                              (tc_first_slot cfg) (tc_end_slot cfg) in
  let size := BIT (tc_cnode_size_bits cfg) in
  let! (ptr, error) := allocman_mspace_alloc (sizeof_pointer ⊠ size) in
  if negb (error =? 0) then ret (error, None)
  else
    let! (error, f) := cspace_single_level_create single_config in
    match f with
    | None => let! _ := allocman_mspace_free ptr (sizeof_pointer ⊠ size) in ret (error, None)
    | Some f =>
      let cspace := TwoLevel cfg f ptr (replicate (Z.to_nat size) None) 0 in
      let! (error, cspace) := create_existing
             (Z.to_nat (end_existing_index cfg - start_existing_index cfg)) cspace (start_existing_index cfg) in
      if negb (error =? 0) then ret (error, None)
      else
        let! (error, cspace) := alloc_existing
               (Z.to_nat (end_existing_slot cfg - start_existing_slot cfg)) cspace (start_existing_slot cfg) in
        if negb (error =? 0) then ret (error, None) else ret (0, Some cspace)
    end.

End operations.

(** ** Well-formedness *)

Section invariant.
Context (cs : cspace_two_level).
Local Abbreviation bits := (level_two_bits (tconfig cs)).
Local Abbreviation size_bits := (tc_cnode_size_bits (tconfig cs)).

(** The number of allocated slots of a second-level bitmap. *)
Definition used (bits : Z) (s : cspace_single_level) : Z :=
  countb (fun x => negb (avail s x)) (Z.to_nat (2 ^ bits)).

Record node_ok (n : cspace_two_level_node) : Prop := {
  node_wf : wf (second_level n);
  node_config : config (second_level n) = second_level_config cs;
  node_count : count n = used bits (second_level n)
}.

Record wf2 : Prop := {
  w2_bits : 6 <= bits /\ 0 <= size_bits /\ bits + size_bits < 64;
  w2_first : wf (first_level cs) /\ bitmap_length (first_level cs) <> 0;
  w2_first_range : end_slot (config (first_level cs)) <= 2 ^ size_bits;
  w2_length : Z.of_nat (length (second_levels cs)) = 2 ^ size_bits;
  w2_last : 0 <= last_second_level cs < 2 ^ size_bits;
  w2_nodes : forall i n, 0 <= i -> second_levels cs !! Z.to_nat i = Some (Some n) ->
    node_ok n /\ first_slot (config (first_level cs)) <= i < end_slot (config (first_level cs)) /\
    avail (first_level cs) i = false
}.

(** The slots of the two-level cspace that are allocated. *)
Definition taken (slot : Z) : bool :=
  match second_levels cs !! Z.to_nat (slot / 2 ^ bits) with
  | Some (Some n) => negb (avail (second_level n) (slot mod 2 ^ bits))
  | _ => false
  end.

Definition has_room (o : option cspace_two_level_node) : bool :=
  match o with Some n => count n <? MASK bits | None => false end.

End invariant.

(** ** One second-level node *)

Lemma second_level_range (cs : cspace_two_level) (n : cspace_two_level_node) :
  wf2 cs -> node_ok cs n ->
  first_slot (config (second_level n)) = 0 /\
  end_slot (config (second_level n)) = 2 ^ level_two_bits (tconfig cs) /\
  bitmap_length (second_level n) <> 0 /\
  (forall x, managed (second_level n) x <-> 0 <= x < 2 ^ level_two_bits (tconfig cs)).
Proof.
  intros Hwf [Hn Hc Hu]. pose proof (w2_bits _ Hwf) as (Hb & Hs & Hbs).
  pose proof (wf_length _ Hn) as Hl. unfold managed. rewrite Hc in *. simpl in *.
  rewrite BIT_pow in * by lia.
  assert (Hdiv : 2 ^ level_two_bits (tconfig cs) = 64 * 2 ^ (level_two_bits (tconfig cs) - 6)).
  { change 64 with (2 ^ 6). rewrite <- Z.pow_add_r by lia. f_equal. lia. }
  assert (0 < 2 ^ (level_two_bits (tconfig cs) - 6)) by (apply Z.pow_pos_nonneg; lia).
  rewrite Hdiv, Z.sub_0_r in *. rewrite Z.mul_comm, Z.div_mul in Hl by lia.
  rewrite Hl. repeat split; intros; lia.
Qed.

Section node.
Context (cs : cspace_two_level) (n : cspace_two_level_node) (Hwf : wf2 cs) (Hn : node_ok cs n).
Local Abbreviation bits := (level_two_bits (tconfig cs)).

Lemma pow_bits : 64 <= 2 ^ bits < word_size.
Proof using Hwf.
  pose proof (w2_bits _ Hwf) as (Hb & Hs & Hbs). split.
  - change 64 with (2 ^ 6). apply Z.pow_le_mono_r; lia.
  - rewrite word_size_pow. apply Z.pow_lt_mono_r; lia.
Qed.

Lemma node_count_bounds : 0 <= count n <= 2 ^ bits.
Proof using Hwf Hn.
  rewrite (node_count _ _ Hn). unfold used. pose proof pow_bits.
  pose proof (countb_bounds (fun x => negb (avail (second_level n) x)) (Z.to_nat (2 ^ bits))). lia.
Qed.

(** Marking slot [l2] as allocated adds one to the count. *)
Lemma node_take (l2 : Z) (s' : cspace_single_level) :
  0 <= l2 < 2 ^ bits -> avail (second_level n) l2 = true -> wf s' ->
  config s' = config (second_level n) ->
  (forall x, avail s' x = avail (second_level n) x && negb (x =? l2)) ->
  count n < 2 ^ bits /\ node_ok cs (set_count (set_second_level n s') (count n ⊞ 1)).
Proof using Hwf Hn.
  intros Hl Hav Hs Hc Hx. pose proof pow_bits as Hp. pose proof node_count_bounds as Hb.
  assert (Hu : used bits s' = count n + 1).
  { rewrite (node_count _ _ Hn). apply (countb_add _ _ _ l2); [lia|by rewrite Hav|].
    intros x _. rewrite Hx. by destruct (avail _ x), (x =? l2). }
  pose proof (countb_bounds (fun x => negb (avail s' x)) (Z.to_nat (2 ^ bits))) as Hb'.
  fold (used bits s') in Hb'. split; [lia|].
  split; simpl; [done|by rewrite Hc, (node_config _ _ Hn)|].
  rewrite wrap_small; [by rewrite Hu|]. unfold is_word. lia.
Qed.

Lemma node_give (l2 : Z) (s' : cspace_single_level) :
  0 <= l2 < 2 ^ bits -> avail (second_level n) l2 = false -> wf s' ->
  config s' = config (second_level n) ->
  (forall x, avail s' x = avail (second_level n) x || (x =? l2)) ->
  0 < count n /\ node_ok cs (set_count (set_second_level n s') (count n ⊟ 1)).
Proof using Hwf Hn.
  intros Hl Hav Hs Hc Hx. pose proof pow_bits as Hp. pose proof node_count_bounds as Hb.
  assert (Hu : count n = used bits s' + 1).
  { rewrite (node_count _ _ Hn). apply (countb_add _ _ _ l2); [lia|by rewrite Hx, Z.eqb_refl, orb_true_r|].
    intros x _. rewrite Hx. destruct (Z.eqb_spec x l2) as [->|]; [by rewrite Hav|].
    by destruct (avail _ x). }
  pose proof (countb_bounds (fun x => negb (avail s' x)) (Z.to_nat (2 ^ bits))) as Hb'.
  fold (used bits s') in Hb'. split; [lia|].
  split; simpl; [done|by rewrite Hc, (node_config _ _ Hn)|].
  rewrite wrap_small; [by rewrite Hu; lia|]. unfold is_word. lia.
Qed.

Lemma node_alloc :
  count n < 2 ^ bits ->
  exists l2 s', _cspace_single_level_alloc (second_level n)
      = Ok (0, Some (_cspace_single_level_make_path (second_level n) l2), s') /\
    0 <= l2 < 2 ^ bits /\ avail (second_level n) l2 = true /\
    (forall x, avail s' x = avail (second_level n) x && negb (x =? l2)) /\
    node_ok cs (set_count (set_second_level n s') (count n ⊞ 1)).
Proof using Hwf Hn.
  intros Hc. destruct (second_level_range cs n Hwf Hn) as (Hf & He & Hbl & Hman).
  destruct (alloc_cases _ (node_wf _ _ Hn) Hbl) as [(l2 & s' & H1 & H2 & H3 & H4 & H5 & H6 & H7)|[_ Hno]].
  - exists l2, s'. apply Hman in H5. split_and!; try done || lia. by apply (node_take l2).
  - exfalso. enough (count n = 2 ^ bits) by lia. rewrite (node_count _ _ Hn). unfold used.
    pose proof pow_bits. rewrite countb_full; [lia|]. intros x Hx.
    rewrite (Hno x); [done|]. apply Hman. lia.
Qed.

End node.

(** ** The search for a node *)

Lemma hunt_spec (cs : cspace_two_level) (fuel : nat) (k : Z) :
  wf2 cs -> let size := 2 ^ tc_cnode_size_bits (tconfig cs) in
  0 <= k <= size -> size - k < Z.of_nat fuel ->
  (forall j o, 0 <= j < k -> second_levels cs !! Z.to_nat ((last_second_level cs + j) mod size) = Some o ->
     has_room cs o = false) ->
  (exists i n, hunt fuel cs ((last_second_level cs + k) mod size) (k =? 0) = Ok (true, i) /\
     0 <= i < size /\ second_levels cs !! Z.to_nat i = Some (Some n) /\
     count n < MASK (level_two_bits (tconfig cs))) \/
  (hunt fuel cs ((last_second_level cs + k) mod size) (k =? 0) = Ok (false, last_second_level cs) /\
   forall i o, 0 <= i < size -> second_levels cs !! Z.to_nat i = Some o -> has_room cs o = false).
Proof.
  intros Hwf size. pose proof (w2_bits _ Hwf) as (Hb & Hs & Hbs). pose proof (w2_last _ Hwf) as Hlast.
  fold size in Hlast. assert (Hsz : size < 2 ^ 58) by (apply Z.pow_lt_mono_r; lia).
  revert k. induction fuel as [|fuel IH]; intros k Hk Hf Hno; [lia|]. cbn [hunt].
  set (last := last_second_level cs) in *.
  pose proof (Z.mod_pos_bound (last + k) size ltac:(lia)) as Hm.
  destruct ((k =? 0) || negb ((last + k) mod size =? last)) eqn:Hcond; cbn match.
  - assert (Hk' : k < size).
    { destruct (Z.eq_dec k size) as [->|]; [|lia]. exfalso. revert Hcond.
      rewrite mod_once by lia. destruct (Z.ltb_spec (last + size) size); [lia|].
      replace (last + size - size) with last by lia. rewrite Z.eqb_refl.
      destruct (Z.eqb_spec size 0); [lia|done]. }
    destruct (arr_get_in (second_levels cs) ((last + k) mod size)) as (o & -> & Ho).
    { rewrite (w2_length _ Hwf). fold size. lia. }
    cbn [res_bind]. fold (has_room cs o). destruct (has_room cs o) eqn:Hr.
    + left. destruct o as [n|]; [|done]. exists ((last + k) mod size), n.
      split_and!; try done || lia. by apply Z.ltb_lt.
    + rewrite BIT_pow by lia. fold size.
      rewrite (wrap_small ((last + k) mod size + 1)) by (unfold is_word, word_size; lia).
      rewrite Zplus_mod_idemp_l. replace (last + k + 1) with (last + (k + 1)) by lia.
      specialize (IH (k + 1)). rewrite (proj2 (Z.eqb_neq (k + 1) 0)) in IH by lia.
      apply IH; [lia|lia|]. intros j o' Hj Ho'.
      destruct (Z.eq_dec j k) as [->|]; [congruence|]. eapply Hno; [|done]. lia.
  - apply orb_false_iff in Hcond as [H0 Heq]. apply negb_false_iff, Z.eqb_eq in Heq.
    assert (Hke : k = size).
    { destruct (Z.eqb_spec k 0); [done|]. rewrite mod_once in Heq by lia.
      destruct (Z.ltb_spec (last + k) size); lia. }
    right. split; [by rewrite Heq|]. intros i o Hi Ho.
    assert (Hj : exists j, 0 <= j < k /\ (last + j) mod size = i).
    { exists ((i - last) mod size). pose proof (Z.mod_pos_bound (i - last) size ltac:(lia)).
      split; [lia|]. rewrite Zplus_mod_idemp_r. replace (last + (i - last)) with i by lia.
      by apply Z.mod_small. }
    destruct Hj as (j & Hj & <-). by eapply Hno.
Qed.

Lemma hunt_cases (cs : cspace_two_level) :
  wf2 cs -> let size := tc_cnode_size_bits (tconfig cs) in
  (exists i n, hunt (S (Z.to_nat (BIT size))) cs (last_second_level cs) true = Ok (true, i) /\
     0 <= i < 2 ^ size /\ second_levels cs !! Z.to_nat i = Some (Some n) /\
     count n < MASK (level_two_bits (tconfig cs))) \/
  (hunt (S (Z.to_nat (BIT size))) cs (last_second_level cs) true = Ok (false, last_second_level cs) /\
   forall i o, 0 <= i < 2 ^ size -> second_levels cs !! Z.to_nat i = Some o -> has_room cs o = false).
Proof.
  intros Hwf size. pose proof (w2_bits _ Hwf) as (Hb & Hs & Hbs). pose proof (w2_last _ Hwf) as Hlast.
  fold size in Hlast, Hs, Hbs. rewrite BIT_pow by lia.
  pose proof (hunt_spec cs (S (Z.to_nat (2 ^ size))) 0 Hwf) as H. cbn zeta in H. fold size in H.
  rewrite Z.add_0_r, Z.mod_small in H by lia. apply H; [lia|lia|]. intros; lia.
Qed.

(** ** Replacing a node *)

Lemma set_node_ok (cs : cspace_two_level) (i : Z) (o : option cspace_two_level_node) :
  0 <= i < Z.of_nat (length (second_levels cs)) ->
  set_node cs i o = Ok (with_second_levels cs (<[Z.to_nat i := o]> (second_levels cs))).
Proof. intros Hi. unfold set_node. by rewrite arr_set_in. Qed.

Lemma get_node_ok (cs : cspace_two_level) (i : Z) (n : cspace_two_level_node) :
  get_node cs i = Ok n <-> 0 <= i /\ second_levels cs !! Z.to_nat i = Some (Some n).
Proof.
  unfold get_node. rewrite res_bind_ok. split.
  - intros ([m|] & H1 & H2); inv_res. by apply arr_get_ok.
  - intros H. exists (Some n). split; [by apply arr_get_ok|done].
Qed.

Lemma node_ok_config (cs cs' : cspace_two_level) (n : cspace_two_level_node) :
  tconfig cs' = tconfig cs -> node_ok cs n -> node_ok cs' n.
Proof. intros H []. unfold second_level_config in *. split; unfold second_level_config; by rewrite ?H. Qed.

Lemma wf2_set_node (cs : cspace_two_level) (i : Z) (n : cspace_two_level_node) (last : Z) :
  wf2 cs -> 0 <= i < 2 ^ tc_cnode_size_bits (tconfig cs) -> node_ok cs n ->
  0 <= last < 2 ^ tc_cnode_size_bits (tconfig cs) ->
  first_slot (config (first_level cs)) <= i < end_slot (config (first_level cs)) ->
  avail (first_level cs) i = false ->
  wf2 (with_second_levels (with_last_second_level cs last) (<[Z.to_nat i := Some n]> (second_levels cs))).
Proof.
  intros Hwf Hi Hn Hl Hr Ha. pose proof (w2_length _ Hwf) as Hlen.
  destruct Hwf as [H1 H2 H3 H4 H5 H6]. split; simpl; try done.
  - by rewrite length_insert.
  - intros j m Hj Hm. rewrite lookup_insert_Z in Hm by lia. case_bool_decide.
    + subst. simplify_eq. split; [by apply (node_ok_config cs)|done].
    + destruct (H6 j m Hj Hm) as (? & ? & ?). split; [by apply (node_ok_config cs)|done].
Qed.

(** After node [i] is replaced, only its slots differ. *)
Lemma taken_set_node (cs : cspace_two_level) (i x : Z) (n : option cspace_two_level_node) (last : Z) :
  wf2 cs -> 0 <= i < 2 ^ tc_cnode_size_bits (tconfig cs) -> 0 <= x ->
  taken (with_second_levels (with_last_second_level cs last) (<[Z.to_nat i := n]> (second_levels cs))) x =
  if bool_decide (i = x / 2 ^ level_two_bits (tconfig cs)) then
    match n with
    | Some n => negb (avail (second_level n) (x mod 2 ^ level_two_bits (tconfig cs)))
    | None => false
    end
  else taken cs x.
Proof.
  intros Hwf Hi Hx. pose proof (w2_length _ Hwf) as Hlen. pose proof (w2_bits _ Hwf) as Hb.
  unfold taken; simpl. assert (0 < 2 ^ level_two_bits (tconfig cs)) by (apply Z.pow_pos_nonneg; lia).
  rewrite lookup_insert_Z; [by case_bool_decide|lia|by apply Z.div_pos].
Qed.

(** ** Paths *)

(** The path made for a slot of an existing node addresses that slot. *)
Lemma make_path_spec (cs : cspace_two_level) (slot : Z) (n : cspace_two_level_node) :
  wf2 cs -> 0 <= slot ->
  second_levels cs !! Z.to_nat (slot / 2 ^ level_two_bits (tconfig cs)) = Some (Some n) ->
  exists p, _cspace_two_level_make_path cs slot = Ok p /\ capPtr p = slot /\
    offset p = slot mod 2 ^ level_two_bits (tconfig cs) /\
    dest p = slot / 2 ^ level_two_bits (tconfig cs).
Proof.
  intros Hwf Hs Hn. pose proof (w2_bits _ Hwf) as (Hb & Hz & Hbs).
  assert (Hp : 0 < 2 ^ level_two_bits (tconfig cs)) by (apply Z.pow_pos_nonneg; lia).
  pose proof (Z.div_pos slot _ Hs Hp) as Hdiv. pose proof (Z.mod_pos_bound slot _ Hp) as Hmod.
  unfold _cspace_two_level_make_path. rewrite shiftr_div, land_MASK by lia.
  rewrite (proj2 (arr_get_ok _ _ _) (conj Hdiv Hn)). cbn [res_bind].
  destruct (w2_nodes _ Hwf _ n Hdiv Hn) as (Hnode & _).
  pose proof (lookup_lt_Some _ _ _ Hn) as Hlt. rewrite <- (Nat2Z.id (length _)) in Hlt.
  rewrite (w2_length _ Hwf) in Hlt.
  assert (Hcd : cnode_size_bits (config (second_level n)) ⊞ cnode_guard_bits (config (second_level n))
                = level_two_bits (tconfig cs)).
  { rewrite (node_config _ _ Hnode). simpl. rewrite Z.add_0_r. apply wrap_small.
    unfold is_word, word_size. lia. }
  eexists. split; [reflexivity|]. simpl. rewrite Hcd, Z.lor_0_r, Z.shiftl_0_r.
  assert (Hlt2 : slot / 2 ^ level_two_bits (tconfig cs) < 2 ^ tc_cnode_size_bits (tconfig cs)) by lia.
  assert (Hprod : 2 ^ tc_cnode_size_bits (tconfig cs) * 2 ^ level_two_bits (tconfig cs) < word_size).
  { rewrite word_size_pow, <- Z.pow_add_r by lia. apply Z.pow_lt_mono_r; lia. }
  rewrite !wrap_small; [|unfold is_word; nia|unfold is_word; rewrite Z.shiftl_mul_pow2 by lia; nia].
  split; [|done]. rewrite lor_shift by lia. pose proof (Z.div_mod slot (2 ^ level_two_bits (tconfig cs))). lia.
Qed.

(** ** Allocation from an existing node *)

Lemma no_room_first (cs : cspace_two_level) : wf2 cs -> MASK (level_two_bits (tconfig cs)) = 2 ^ level_two_bits (tconfig cs) - 1.
Proof. intros Hwf. pose proof (w2_bits _ Hwf). apply MASK_pow. lia. Qed.

Section alloc.
Context {W : Type} `{!AllocmanOps W} `{!KernelOps W} {seL4 : SeL4Constants}.
Context (uninit : Z -> cspace_two_level_node).

(** C33: as long as some second-level node has room, [_cspace_two_level_alloc]
    succeeds without calling out: the capability pointer it returns lies in
    the cspace and was not allocated, it is the only slot whose state
    changes, and the cspace stays well formed (each node's count is the
    number of its allocated slots). *)
Theorem two_level_alloc_spec (cs : cspace_two_level) (w : W) :
  wf2 cs ->
  (exists i n, 0 <= i /\ second_levels cs !! Z.to_nat i = Some (Some n) /\ has_room cs (Some n) = true) ->
  exists path cs', _cspace_two_level_alloc uninit cs w = Ok (0, Some path, cs', w) /\ wf2 cs' /\
    tconfig cs' = tconfig cs /\
    0 <= capPtr path < 2 ^ (tc_cnode_size_bits (tconfig cs) + level_two_bits (tconfig cs)) /\
    taken cs (capPtr path) = false /\
    (forall x, 0 <= x -> taken cs' x = taken cs x || (x =? capPtr path)).
Proof.
  intros Hwf (i0 & n0 & Hi0 & Hn0 & Hr0). unfold _cspace_two_level_alloc, bind, lift.
  pose proof (w2_bits _ Hwf) as (Hb & Hz & Hbs). pose proof (pow_bits cs Hwf) as Hp.
  destruct (hunt_cases cs Hwf) as [(i & n & -> & Hi & Hn & Hc)|(-> & Hno)].
  2:{ exfalso. rewrite (Hno i0 _) in Hr0; [done| |done].
      pose proof (lookup_lt_Some _ _ _ Hn0). pose proof (w2_length _ Hwf). lia. }
  cbn [res_bind ret]. cbn [negb Z.eqb].
  destruct (w2_nodes _ Hwf i n ltac:(lia) Hn) as (Hnode & Hir & Hav).
  set (cs1 := with_last_second_level cs i).
  rewrite (proj2 (get_node_ok cs1 i n)) by (split; [lia|done]). cbn [res_bind].
  rewrite (no_room_first cs Hwf) in Hc.
  destruct (node_alloc cs n Hwf Hnode ltac:(lia)) as (l2 & s' & -> & Hl2 & Hl2a & Hs' & Hnode').
  cbn [res_bind].
  set (n' := set_count (set_second_level n s') (count n ⊞ 1)) in *.
  rewrite (set_node_ok cs1) by (simpl; rewrite (w2_length _ Hwf); lia). cbn [res_bind].
  change (second_levels cs1) with (second_levels cs).
  assert (Hwf' : wf2 (with_second_levels cs1 (<[Z.to_nat i := Some n']> (second_levels cs)))).
  { by apply wf2_set_node. }
  simpl capPtr. unfold is_word in *.
  assert (Hprod : 2 ^ tc_cnode_size_bits (tconfig cs) * 2 ^ level_two_bits (tconfig cs) < word_size).
  { rewrite word_size_pow, <- Z.pow_add_r by lia. apply Z.pow_lt_mono_r; lia. }
  simpl tconfig. rewrite (wrap_small (Z.shiftl i _))
    by (unfold is_word; rewrite Z.shiftl_mul_pow2 by lia; nia).
  rewrite lor_shift by lia. set (slot := i * 2 ^ level_two_bits (tconfig cs) + l2).
  assert (Hdiv : slot / 2 ^ level_two_bits (tconfig cs) = i) by (by apply pack_div; lia).
  assert (Hmod : slot mod 2 ^ level_two_bits (tconfig cs) = l2) by (by apply pack_mod; lia).
  destruct (make_path_spec _ slot n' Hwf') as (p & -> & Hcap & _); [unfold slot; nia| |].
  { simpl. rewrite Hdiv. apply list_lookup_insert_eq. pose proof (w2_length _ Hwf). lia. }
  cbn [res_bind]. do 2 eexists. split; [reflexivity|]. rewrite Hcap. split_and!; try done.
  - unfold slot; nia.
  - unfold slot. rewrite Z.pow_add_r by lia. nia.
  - unfold taken. by rewrite Hdiv, Hmod, Hn, Hl2a.
  - intros x Hx. unfold cs1. rewrite taken_set_node by done. case_bool_decide as He.
    + simpl. rewrite Hs', negb_andb, negb_involutive. unfold taken. rewrite <- He, Hn. f_equal.
      pose proof (Z.div_mod x (2 ^ level_two_bits (tconfig cs)) ltac:(lia)) as Hx2.
      rewrite <- He in Hx2.
      destruct (Z.eqb_spec (x mod 2 ^ level_two_bits (tconfig cs)) l2), (Z.eqb_spec x slot);
        [done| | |done]; exfalso; [unfold slot in *; lia|congruence].
    + destruct (Z.eqb_spec x slot) as [Hxs|]; [by rewrite Hxs, Hdiv in He|]. by rewrite orb_false_r.
Qed.

End alloc.

(** ** Freeing *)

Lemma first_level_give (cs : cspace_two_level) (i : Z) (f : cspace_single_level) (l : list (option cspace_two_level_node)) :
  wf2 cs -> 0 <= i < 2 ^ tc_cnode_size_bits (tconfig cs) -> length l = length (second_levels cs) ->
  (forall j n, 0 <= j -> l !! Z.to_nat j = Some (Some n) ->
     j <> i /\ second_levels cs !! Z.to_nat j = Some (Some n)) ->
  wf f -> config f = config (first_level cs) -> bitmap_length f = bitmap_length (first_level cs) ->
  (forall x, avail f x = avail (first_level cs) x || (x =? i)) ->
  wf2 (with_second_levels (with_first_level cs f) l).
Proof.
  intros Hwf Hi Hlen Hl Hf Hc Hbl Hav. destruct Hwf as [H1 H2 H3 H4 H5 H6]. split; simpl; try done.
  - split; [done|]. rewrite Hbl. apply H2.
  - by rewrite Hc.
  - by rewrite Hlen.
  - intros j n Hj Hn. destruct (Hl j n Hj Hn) as [Hne Hn'].
    destruct (H6 j n Hj Hn') as (Hok & Hr & Ha). rewrite Hc, Hav, Ha.
    split; [by apply (node_ok_config cs)|]. split; [done|]. by apply Z.eqb_neq.
Qed.

Section free.
Context {W : Type} `{!AllocmanOps W} `{!AllocmanReturns W} `{!KernelOps W} {seL4 : SeL4Constants}.

(** Deleting the CNode of an allocated second level succeeds. *)
Context (delete_ok : forall cnode index depth w, exists w', seL4_CNode_Delete cnode index depth w = Ok (0, w')).

Lemma destroy_second_level_spec (cs : cspace_two_level) (i : Z) (n : cspace_two_level_node) (w : W) :
  0 <= i -> second_levels cs !! Z.to_nat i = Some (Some n) ->
  wf (first_level cs) -> first_slot (config (first_level cs)) <= i < end_slot (config (first_level cs)) ->
  avail (first_level cs) i = false ->
  exists f w', _destroy_second_level cs i w = Ok (with_first_level cs f, w') /\ wf f /\
    config f = config (first_level cs) /\ bitmap_length f = bitmap_length (first_level cs) /\
    (forall x, avail f x = avail (first_level cs) x || (x =? i)).
Proof using All.
  intros Hi Hn Hf Hr Ha. unfold _destroy_second_level, bind, lift, cassert.
  rewrite (proj2 (get_node_ok cs i n)) by done. cbn [res_bind].
  unfold cspace_single_level_destroy.
  destruct (mspace_free_returns (bitmap_ptr (second_level n)) (bitmap_length (second_level n) ⊠ sizeof_size_t) w)
    as [w1 ->]. cbn [res_bind].
  match goal with |- context [res_bind ?X _] =>
    match X with context [cookie_valid n] => set (mid := X); assert (Hmid : exists w2, mid = Ok (tt, w2)) end
  end.
  { unfold mid. destruct (cookie_valid n); [|by exists w1].
    destruct (delete_ok (tc_cnode (tconfig cs)) i (seL4_WordBits ⊟ level_two_bits (tconfig cs)) w1) as [w2 ->].
    cbn. apply utspace_free_returns. }
  destruct Hmid as [w2 ->]. cbn [res_bind].
  destruct (mspace_free_returns (node_ptr n) sizeof_node w2) as [w3 ->]. cbn [res_bind].
  pose proof (free_cases (first_level cs) (_cspace_single_level_make_path (first_level cs) i) Hf Hr) as Hfree.
  simpl in Hfree. rewrite Ha in Hfree. destruct Hfree as (f & -> & Hwff & Hcf & Hbf & Haf).
  cbn [res_bind]. by exists f, w3.
Qed.

(** C32: freeing an allocated slot makes exactly that slot available.  When it
    is the last one of its node, the node is destroyed and its slot of the
    first level is free again; otherwise nothing outside the cspace is
    called.  The cspace stays well formed. *)
Theorem two_level_free_spec (cs : cspace_two_level) (path : cspacepath_t) (w : W) :
  wf2 cs -> 0 <= capPtr path -> taken cs (capPtr path) = true ->
  exists cs' w', _cspace_two_level_free cs path w = Ok (cs', w') /\ wf2 cs' /\
    tconfig cs' = tconfig cs /\
    (forall x, 0 <= x -> taken cs' x = taken cs x && negb (x =? capPtr path)) /\
    (* the node survives, or it was the last slot and the node is gone *)
    ((w' = w /\ exists n, second_levels cs' !! Z.to_nat (capPtr path / 2 ^ level_two_bits (tconfig cs)) = Some (Some n)
        /\ 0 < count n) \/
     (second_levels cs' !! Z.to_nat (capPtr path / 2 ^ level_two_bits (tconfig cs)) = Some None /\
      avail (first_level cs') (capPtr path / 2 ^ level_two_bits (tconfig cs)) = true /\
      forall x, 0 <= x -> x / 2 ^ level_two_bits (tconfig cs) = capPtr path / 2 ^ level_two_bits (tconfig cs) ->
        taken cs' x = false)).
Proof using All.
  intros Hwf Hcap Htaken. set (slot := capPtr path) in *.
  pose proof (w2_bits _ Hwf) as (Hb & Hz & Hbs). pose proof (pow_bits cs Hwf) as Hp.
  pose proof (Z.div_pos slot (2 ^ level_two_bits (tconfig cs)) Hcap ltac:(lia)) as Hdiv.
  pose proof (Z.mod_pos_bound slot (2 ^ level_two_bits (tconfig cs)) ltac:(lia)) as Hmod.
  unfold taken in Htaken.
  destruct (second_levels cs !! Z.to_nat (slot / 2 ^ level_two_bits (tconfig cs))) as [[n|]|] eqn:Hn; try done.
  apply negb_true_iff in Htaken.
  unfold _cspace_two_level_free, bind, lift. fold slot. rewrite shiftr_div, land_MASK by lia.
  set (l1 := slot / 2 ^ level_two_bits (tconfig cs)) in *. set (l2 := slot mod 2 ^ level_two_bits (tconfig cs)) in *.
  destruct (w2_nodes _ Hwf l1 n Hdiv Hn) as (Hnode & Hr & Ha).
  pose proof (lookup_lt_Some _ _ _ Hn) as Hlt. pose proof (w2_length _ Hwf) as Hlen.
  assert (Hl1 : 0 <= l1 < 2 ^ tc_cnode_size_bits (tconfig cs)) by lia.
  rewrite (proj2 (get_node_ok cs l1 n)) by done. cbn [res_bind].
  destruct (second_level_range cs n Hwf Hnode) as (Hfs & Hes & Hbl & Hman).
  pose proof (free_cases (second_level n) (_cspace_single_level_make_path (second_level n) l2)
    (node_wf _ _ Hnode)) as Hfree. simpl in Hfree. rewrite Hfs, Hes, Htaken in Hfree.
  destruct Hfree as (s' & -> & Hws & Hcs & Hbs' & Hav); [lia|]. cbn [res_bind].
  destruct (node_give cs n Hwf Hnode l2 s' Hmod Htaken Hws Hcs Hav) as [Hpos Hnode'].
  pose proof (node_count_bounds cs n Hwf Hnode) as Hcb.
  set (n' := set_count (set_second_level n s') (count n ⊟ 1)) in *.
  rewrite (set_node_ok cs) by lia. cbn [res_bind].
  set (cs1 := with_second_levels cs (<[Z.to_nat l1 := Some n']> (second_levels cs))).
  assert (Hwf1 : wf2 cs1).
  { unfold cs1. apply (wf2_set_node cs l1 n' (last_second_level cs)); auto. apply (w2_last _ Hwf). }
  assert (Hcount : count n' = count n - 1) by (simpl; apply wrap_small; unfold is_word; lia).
  assert (Hslot : forall x, 0 <= x -> l1 = x / 2 ^ level_two_bits (tconfig cs) ->
    (x mod 2 ^ level_two_bits (tconfig cs) =? l2) = (x =? slot)).
  { intros x Hx He. pose proof (Z.div_mod x (2 ^ level_two_bits (tconfig cs)) ltac:(lia)) as Hx2.
    pose proof (Z.div_mod slot (2 ^ level_two_bits (tconfig cs)) ltac:(lia)) as Hs2.
    fold l1 l2 in Hs2. rewrite <- He in Hx2.
    destruct (Z.eqb_spec (x mod 2 ^ level_two_bits (tconfig cs)) l2) as [Hm|Hm],
      (Z.eqb_spec x slot) as [Hxs|Hxs]; try done; exfalso;
      [apply Hxs; rewrite Hx2, Hs2, Hm; done|apply Hm; by rewrite Hxs]. }
  assert (Hother : forall x, l1 <> x / 2 ^ level_two_bits (tconfig cs) -> negb (x =? slot) = true).
  { intros x Hne. destruct (Z.eqb_spec x slot); [by subst|done]. }
  assert (Ht1 : forall x, 0 <= x -> taken cs1 x = taken cs x && negb (x =? slot)).
  { intros x Hx.
    change cs1 with (with_second_levels (with_last_second_level cs (last_second_level cs))
                       (<[Z.to_nat l1 := Some n']> (second_levels cs))).
    rewrite taken_set_node by done.
    case_bool_decide as He.
    - simpl. rewrite Hav, negb_orb. unfold taken. rewrite <- He, Hn, Hslot by done. done.
    - by rewrite Hother, andb_true_r. }
  destruct (Z.eqb_spec (count n') 0) as [Hc0|Hc0].
  2:{ exists cs1, w. split; [done|]. split_and!; try done. left. split; [done|].
      exists n'. split; [apply list_lookup_insert_eq; lia|lia]. }
  assert (Hn1 : second_levels cs1 !! Z.to_nat l1 = Some (Some n')) by (apply list_lookup_insert_eq; lia).
  destruct (destroy_second_level_spec cs1 l1 n' w Hdiv Hn1 (proj1 (w2_first _ Hwf)) Hr Ha)
    as (f & w' & -> & Hwff & Hcf & Hbf & Haf). cbn [res_bind].
  rewrite set_node_ok by (simpl; rewrite length_insert; lia). cbn [res_bind].
  eexists _, w'. split; [reflexivity|].
  change (second_levels (with_first_level cs1 f)) with (<[Z.to_nat l1 := Some n']> (second_levels cs)).
  rewrite list_insert_insert_eq.
  assert (Hempty : forall x, l1 = x / 2 ^ level_two_bits (tconfig cs) -> 0 <= x -> taken cs1 x = false).
  { intros x He Hx. unfold taken. change (tconfig cs1) with (tconfig cs). rewrite <- He, Hn1.
    change (negb (avail (second_level n') (x mod 2 ^ level_two_bits (tconfig cs))))
      with ((fun y => negb (avail s' y)) (x mod 2 ^ level_two_bits (tconfig cs))).
    apply (countb_zero _ (Z.to_nat (2 ^ level_two_bits (tconfig cs)))).
    - rewrite <- Hc0. symmetry. apply (node_count _ _ Hnode').
    - rewrite Z2Nat.id by lia. apply Z.mod_pos_bound. lia. }
  assert (Ht2 : forall x, 0 <= x ->
    taken (with_second_levels (with_first_level cs1 f) (<[Z.to_nat l1 := None]> (second_levels cs))) x
    = taken cs1 x).
  { intros x Hx. destruct (Z.eq_dec l1 (x / 2 ^ level_two_bits (tconfig cs))) as [He|He].
    - rewrite Hempty by done. unfold taken; simpl. rewrite <- He, list_lookup_insert_eq by lia. done.
    - unfold taken; simpl. by rewrite !list_lookup_insert_ne by (pose proof (Z.div_pos x (2 ^ level_two_bits (tconfig cs)) Hx ltac:(lia)); lia). }
  split_and!; try done.
  - apply (first_level_give cs1 l1); try done.
    + simpl. by rewrite !length_insert.
    + intros j m Hj Hm. rewrite lookup_insert_Z in Hm by lia. case_bool_decide as Hje; [done|].
      split; [congruence|]. simpl. by rewrite list_lookup_insert_ne by lia.
  - intros x Hx. by rewrite Ht2, Ht1.
  - right. split_and!.
    + simpl. apply list_lookup_insert_eq. lia.
    + simpl. by rewrite Haf, Z.eqb_refl, orb_true_r.
    + intros x Hx He. rewrite Ht2 by done. by apply Hempty.
Qed.

End free.

(** ** Creating a second level *)

Section create.
Context {W : Type} `{!AllocmanOps W} `{!KernelOps W} {seL4 : SeL4Constants}.
Context (uninit : Z -> cspace_two_level_node).

Definition same_but_node (cs cs' : cspace_two_level) (i : Z) : Prop :=
  0 <= i < Z.of_nat (length (second_levels cs)) /\
  tconfig cs' = tconfig cs /\ first_level cs' = first_level cs /\
  last_second_level cs' = last_second_level cs /\
  exists o, second_levels cs' = <[Z.to_nat i := o]> (second_levels cs).

Lemma same_but_node_set (cs cs1 cs2 : cspace_two_level) (i : Z) (o : option cspace_two_level_node) :
  same_but_node cs cs1 i -> set_node cs1 i o = Ok cs2 -> same_but_node cs cs2 i.
Proof.
  intros (Hi & H1 & H2 & H3 & o' & H4). unfold set_node. intros H. inv_res.
  split; [done|]. simpl. split_and!; try done. rewrite H4, list_insert_insert_eq. by eexists.
Qed.

Lemma same_but_node_start (cs cs2 : cspace_two_level) (i : Z) (o : option cspace_two_level_node) :
  set_node cs i o = Ok cs2 -> same_but_node cs cs2 i.
Proof. unfold set_node. intros H. inv_res. split; [done|]. simpl. split_and!; eauto. Qed.

(** Whatever the outcome, [_create_second_level] only touches entry [index]. *)
Lemma create_second_level_frame (cs cs' : cspace_two_level) (index e : Z) (alloc_node : bool) (w w' : W) :
  _create_second_level uninit cs index alloc_node w = Ok (e, cs', w') -> same_but_node cs cs' index.
Proof.
  unfold _create_second_level. intros H. inv_res.
  match goal with H : set_node cs index _ = Ok ?c |- _ => apply same_but_node_start in H as Hs end.
  repeat (case_match; inv_res); eauto using same_but_node_set.
Qed.

(** When no node has room, a first-level slot is taken and a node created
    there; the code then goes back to [last_second_level] instead of using
    the new index.  If that entry is null, this is a null dereference. *)
Theorem alloc_new_level_null (cs cs2 : cspace_two_level) (p : cspacepath_t) (f : cspace_single_level) (w w' : W) :
  wf2 cs ->
  (forall i o, 0 <= i -> second_levels cs !! Z.to_nat i = Some o -> has_room cs o = false) ->
  second_levels cs !! Z.to_nat (last_second_level cs) = Some None ->
  _cspace_single_level_alloc (first_level cs) = Ok (0, Some p, f) ->
  offset p <> last_second_level cs -> 0 <= offset p ->
  _create_second_level uninit (with_first_level cs f) (offset p) true w = Ok (0, cs2, w') ->
  _cspace_two_level_alloc uninit cs w = Fault NullPointer.
Proof.
  intros Hwf Hno Hnull Hf Hne Hp Hc. unfold _cspace_two_level_alloc, bind, lift.
  destruct (hunt_cases cs Hwf) as [(i & n & _ & Hi & Hn & Hr)|(-> & _)].
  { specialize (Hno i _ ltac:(lia) Hn). simpl in Hno. apply Z.ltb_ge in Hno. lia. }
  cbn [res_bind]. rewrite Hf. cbn [res_bind]. rewrite Hc. cbn [res_bind Z.eqb negb].
  apply create_second_level_frame in Hc as (Hi & Ht & Hfl & Hl & o & Hs).
  pose proof (w2_last _ Hwf) as Hlast. simpl in Hs.
  unfold get_node. simpl. rewrite (proj2 (arr_get_ok _ (last_second_level cs) None)); [done|].
  split; [lia|]. rewrite Hs, list_lookup_insert_ne by lia. done.
Qed.

End create.

(** ** Witnesses *)

(** A kernel that accepts every call. *)
#[export] Instance sample_kernel : KernelOps Z := {|
  seL4_CNode_Delete _ _ _ := fun w => Ok (0, w);
  seL4_CNode_Move _ _ _ _ _ _ := fun w => Ok (0, w);
  seL4_Untyped_Retype _ _ _ _ _ _ _ _ := fun w => Ok (0, w)
|}.

#[export] Instance bump_returns : AllocmanReturns Z (AllocmanOps0 := pos_bump_ops).
Proof. split; intros; simpl; eauto 10 with lia. Qed.

Lemma sample_delete_ok (cnode index depth w : Z) :
  exists w', seL4_CNode_Delete cnode index depth w = Ok (0, w').
Proof. by eexists. Qed.

Definition zero_node (ptr : Z) : cspace_two_level_node :=
  Node ptr 0 (SingleLevel (Config 0 0 0 0 0) 0 [] 0 0) 0 false.

Definition sample2_config : cspace_two_level_config := TConfig 2 6 52 0 64 6 0 1 0 3.

(** 64 second-level CNodes of 64 slots; only the first one exists, with slots
    0, 1 and 2 allocated. *)
Definition sample2 : cspace_two_level :=
  TwoLevel sample2_config (SingleLevel (Config 2 6 52 0 64) 512 [word_size - 2] 1 0) 0
    (Some (Node 528 3 (SingleLevel (Config 0 6 0 0 64) 616 [word_size - 8] 1 0) 0 false)
     :: replicate 63 None) 0.

(** The same before any node was created. *)
Definition empty2 : cspace_two_level :=
  TwoLevel sample2_config (SingleLevel (Config 2 6 52 0 64) 512 [word_size - 1] 1 0) 0
    (replicate 64 None) 0.

Lemma wf_one_word (cfg : cspace_single_level_config) (ptr w : Z) :
  0 <= first_slot cfg -> end_slot cfg = first_slot cfg + 64 -> end_slot cfg < word_size -> is_word w ->
  wf (SingleLevel cfg ptr [w] 1 0).
Proof.
  intros H1 H2 H3 Hw. split; simpl; rewrite ?H2.
  - lia.
  - apply Forall_singleton. done.
  - dlia.
  - dlia.
  - by left.
  - intros n Hn. unfold bit_at. destruct (Z_lt_le_dec n 64); [dlia|].
    rewrite lookup_ge_None_2; [done|]. simpl. dlia.
Qed.

Lemma sample2_wf : wf2 sample2.
Proof.
  split; try (vm_compute; intuition congruence).
  - split; [apply wf_one_word; vm_compute; intuition congruence|done].
  - intros i n Hi Hn. destruct (Z.eq_dec i 0) as [->|Hne].
    + simpl in Hn. simplify_eq. split; [|by vm_compute].
      split; [apply wf_one_word; vm_compute; intuition congruence|by vm_compute|by vm_compute].
    + unfold sample2 in Hn. cbn [second_levels] in Hn. rewrite lookup_cons_ne_0 in Hn by lia.
      by apply lookup_replicate in Hn as [? _].
Qed.

Lemma empty2_wf : wf2 empty2.
Proof.
  split; try (vm_compute; intuition congruence).
  - split; [apply wf_one_word; vm_compute; intuition congruence|done].
  - intros i n Hi Hn. unfold empty2 in Hn. cbn [second_levels] in Hn.
    by apply lookup_replicate in Hn as [? _].
Qed.

Lemma two_level_alloc_spec_witness :
  exists path cs', _cspace_two_level_alloc zero_node sample2 1000 = Ok (0, Some path, cs', 1000) /\ wf2 cs' /\
    tconfig cs' = tconfig sample2 /\ 0 <= capPtr path < 2 ^ (6 + 6) /\
    taken sample2 (capPtr path) = false /\
    (forall x, 0 <= x -> taken cs' x = taken sample2 x || (x =? capPtr path)).
Proof.
  apply (two_level_alloc_spec (AllocmanOps0 := pos_bump_ops) zero_node sample2 1000 sample2_wf).
  exists 0. eexists. split; [lia|]. split; [reflexivity|]. by vm_compute.
Defined.

(** Slot 2, an allocated one. *)
Lemma two_level_free_spec_witness :
  exists cs' w', _cspace_two_level_free sample2 (Cspacepath 2 64 2 0 58 2 1) 1000 = Ok (cs', w') /\ wf2 cs' /\
    tconfig cs' = tconfig sample2 /\
    (forall x, 0 <= x -> taken cs' x = taken sample2 x && negb (x =? 2)) /\
    ((w' = 1000 /\ exists n, second_levels cs' !! Z.to_nat (2 / 2 ^ 6) = Some (Some n) /\ 0 < count n) \/
     (second_levels cs' !! Z.to_nat (2 / 2 ^ 6) = Some None /\ avail (first_level cs') (2 / 2 ^ 6) = true /\
      forall x, 0 <= x -> x / 2 ^ 6 = 2 / 2 ^ 6 -> taken cs' x = false)).
Proof.
  apply (two_level_free_spec (AllocmanOps0 := pos_bump_ops)
    sample_delete_ok sample2 (Cspacepath 2 64 2 0 58 2 1) 1000 sample2_wf);
    by vm_compute.
Defined.

Lemma alloc_new_level_null_witness :
  _cspace_two_level_alloc (AllocmanOps0 := pos_bump_ops) zero_node empty2 1000 = Fault NullPointer.
Proof.
  eapply (alloc_new_level_null zero_node empty2); [apply empty2_wf| |reflexivity|reflexivity|by vm_compute|by vm_compute|reflexivity].
  intros i o Hi Ho. unfold empty2 in Ho. cbn [second_levels] in Ho.
  by apply lookup_replicate in Ho as [-> _].
Defined.

(** The whole way from [cspace_two_level_create], with no existing node. *)
Example create_then_alloc_null :
  (let! (_, cs) := cspace_two_level_create (AllocmanOps0 := pos_bump_ops) zero_node
                     (TConfig 2 6 52 0 64 6 0 0 0 0) in
   match cs with
   | Some cs => _cspace_two_level_alloc (AllocmanOps0 := pos_bump_ops) zero_node cs
   | None => stop AssertFailed
   end) 1000 = Fault NullPointer.
Proof. vm_compute. reflexivity. Qed.
