(* ===== verification/Simple1Level.v ===== *)
(** libsel4allocman/src/cspace/simple1level.c and
    include/allocman/cspace/simple1level.h: slots handed out in increasing
    order, never freed. *)
From S2P Require Import Prelude Cspacepath Interfaces.

Record cspace_simple1level_config : Type := S1Config {
  s1_cnode : Z;
  s1_cnode_size_bits : Z;
  s1_cnode_guard_bits : Z;
  s1_first_slot : Z;
  s1_end_slot : Z
}.

Record cspace_simple1level : Type := Simple1Level {
  s1_config : cspace_simple1level_config;
  current_slot : Z
}.

Definition _cspace_simple1level_make_path (cspace : cspace_simple1level) (slot : Z) : cspacepath_t :=
  {| root := s1_cnode (s1_config cspace);
     capPtr := slot;
     offset := slot;
     capDepth := s1_cnode_size_bits (s1_config cspace) ⊞ s1_cnode_guard_bits (s1_config cspace);
     dest := 0;
     destDepth := 0;
     window := 1 |}.

Definition cspace_simple1level_create (config : cspace_simple1level_config) : cspace_simple1level :=
  Simple1Level config (s1_first_slot config).

Definition _cspace_simple1level_alloc (cspace : cspace_simple1level)
    : res (Z * option cspacepath_t * cspace_simple1level) :=
  if current_slot cspace =? s1_end_slot (s1_config cspace) then Ok (1, None, cspace)
  else Ok (0, Some (_cspace_simple1level_make_path cspace (current_slot cspace)),
           Simple1Level (s1_config cspace) (current_slot cspace ⊞ 1)).

Definition _cspace_simple1level_free (cspace : cspace_simple1level) (slot : cspacepath_t)
    : cspace_simple1level := cspace.

Definition s1_wf (cs : cspace_simple1level) : Prop :=
  0 <= current_slot cs <= s1_end_slot (s1_config cs) /\ s1_end_slot (s1_config cs) < word_size.

Definition s1_avail (cs : cspace_simple1level) (slot : Z) : bool :=
  bool_decide (current_slot cs <= slot < s1_end_slot (s1_config cs)).

#[export] Program Instance simple1level_allocator : SlotAllocator cspace_simple1level := {|
  cs_alloc := _cspace_simple1level_alloc;
  cs_make_path := _cspace_simple1level_make_path;
  cs_wf := s1_wf;
  cs_avail := s1_avail
|}.
Next Obligation. done. Qed.
Next Obligation.
  intros cs [Hr He]. unfold _cspace_simple1level_alloc, s1_avail.
  destruct (Z.eqb_spec (current_slot cs) (s1_end_slot (s1_config cs))) as [Heq|Hne].
  - right. exists 1. split; [done|]. split; [done|]. intros x. apply bool_decide_eq_false_2. lia.
  - left. exists (current_slot cs). eexists. split; [reflexivity|].
    unfold s1_wf; simpl. rewrite wrap_small by (unfold is_word; lia).
    split; [lia|]. split; [by apply bool_decide_eq_true_2; lia|].
    intros x. destruct (Z.eqb_spec x (current_slot cs)) as [->|]; simpl.
    + rewrite andb_false_r. apply bool_decide_eq_false_2. lia.
    + rewrite andb_true_r. apply bool_decide_ext. lia.
Qed.

(** From creation, [n] allocations in a row return the slots
    [first_slot], [first_slot + 1], ... without a repeat, and they fall short
    of [n] only when all of [first_slot .. end_slot - 1] have been returned. *)
Theorem simple1level_allocs (cfg : cspace_simple1level_config) (n : nat) :
  0 <= s1_first_slot cfg <= s1_end_slot cfg -> s1_end_slot cfg < word_size ->
  exists cs, alloc_slots n (cspace_simple1level_create cfg) =
    Ok ((fun k => s1_first_slot cfg + Z.of_nat k)
          <$> seq 0 (Nat.min n (Z.to_nat (s1_end_slot cfg - s1_first_slot cfg))), cs).
Proof.
  intros Hr He. unfold cspace_simple1level_create.
  enough (H : forall c, s1_first_slot cfg <= c <= s1_end_slot cfg ->
    exists cs, alloc_slots n (Simple1Level cfg c) =
      Ok ((fun k => c + Z.of_nat k) <$> seq 0 (Nat.min n (Z.to_nat (s1_end_slot cfg - c))), cs))
    by (apply H; lia).
  induction n as [|n IH]; intros c Hc; [by eexists|].
  cbn [alloc_slots cs_alloc simple1level_allocator]. unfold _cspace_simple1level_alloc; simpl.
  destruct (Z.eqb_spec c (s1_end_slot cfg)) as [->|Hne]; cbn [res_bind].
  - rewrite Z.sub_diag. simpl. by eexists.
  - rewrite wrap_small by (unfold is_word; lia). destruct (IH (c + 1) ltac:(lia)) as [cs Hcs].
    rewrite Hcs. cbn [res_bind]. eexists. f_equal. f_equal.
    replace (Z.to_nat (s1_end_slot cfg - c)) with (S (Z.to_nat (s1_end_slot cfg - (c + 1)))) by lia.
    simpl. f_equal; [lia|]. rewrite <- fmap_S_seq, <- list_fmap_compose.
    apply list_fmap_ext. intros i x _. simpl. lia.
Qed.

Lemma simple1level_allocs_witness :
  exists cs, alloc_slots 5 (cspace_simple1level_create (S1Config 2 12 52 100 103)) =
    Ok ((fun k => 100 + Z.of_nat k) <$> seq 0 3, cs).
Proof. apply (simple1level_allocs (S1Config 2 12 52 100 103) 5); by vm_compute. Defined.
