(* ===== verification/Objects.v ===== *)
(** libsel4vka/include/vka/object.h (the size of an object),
    include/vka/kobject_t.h with the x86_64 parts in
    arch_include/x86/vka/arch and sel4_arch_include/x86_64/vka/sel4_arch, and
    get_sel4_object_size of libsel4allocman/include/allocman/utspace/utspace.h.

    The configuration is x86_64 without VTX and cache colouring; MCS is a
    field of the constants. *)
From S2P Require Import Prelude Interfaces.

(** Decides the comparisons of the case labels, which are distinct. *)
Ltac label_cases :=
  repeat match goal with
  | |- context [?a =? ?a] => rewrite (Z.eqb_refl a)
  | |- context [?a =? ?b] => destruct (Z.eqb_spec a b); [congruence|]
  end; simpl; try reflexivity.

Section objects.
Context {seL4 : SeL4Constants}.

(** [return -1] from a function that returns a [seL4_Word]. *)
Definition minus_one : Z := word_size - 1.

(** The [switch] statements test the constants in the order of their cases. *)
Definition vka_x86_mode_get_object_size (objectType : Z) : Z :=
  if objectType =? seL4_X64_HugePageObject then seL4_HugePageBits
  else if objectType =? seL4_X86_PDPTObject then seL4_PDPTBits
  else if objectType =? seL4_X64_PML4Object then seL4_PML4Bits
  else minus_one.

Definition vka_arch_get_object_size (objectType : Z) : Z :=
  if objectType =? seL4_X86_4K then seL4_PageBits
  else if objectType =? seL4_X86_LargePageObject then seL4_LargePageBits
  else if objectType =? seL4_X86_PageTableObject then seL4_PageTableBits
  else if objectType =? seL4_X86_PageDirectoryObject then seL4_PageDirBits
  else if objectType =? seL4_X86_IOPageTableObject then seL4_IOPageTableBits
  else vka_x86_mode_get_object_size objectType.

Definition vka_get_object_size (objectType objectSize : Z) : Z :=
  if objectType =? seL4_UntypedObject then objectSize
  else if objectType =? seL4_TCBObject then seL4_TCBBits
  else if CONFIG_KERNEL_MCS && (objectType =? seL4_SchedContextObject) then
    if objectSize >? seL4_MinSchedContextBits then objectSize else seL4_MinSchedContextBits
  else if CONFIG_KERNEL_MCS && (objectType =? seL4_ReplyObject) then seL4_ReplyBits
  else if objectType =? seL4_EndpointObject then seL4_EndpointBits
  else if objectType =? seL4_NotificationObject then seL4_NotificationBits
  else if objectType =? seL4_CapTableObject then seL4_SlotBits ⊞ objectSize
  else vka_arch_get_object_size objectType.

Definition get_sel4_object_size (type size_bits : Z) : Z :=
  if type =? seL4_CapTableObject then size_bits ⊟ seL4_SlotBits
  else vka_get_object_size type size_bits.

(** [enum _x86_mode_kobject_type], [_x86_kobject_type] and [_kobject_type],
    which number their members one after the other. *)
Inductive kobject_t : Type :=
  | KOBJECT_PML4 | KOBJECT_PDPT | KOBJECT_FRAME
  | KOBJECT_IO_PAGETABLE | KOBJECT_PAGE_DIRECTORY | KOBJECT_PAGE_TABLE
  | KOBJECT_TCB | KOBJECT_CNODE | KOBJECT_CSLOT | KOBJECT_UNTYPED | KOBJECT_ENDPOINT
  | KOBJECT_NOTIFICATION | KOBJECT_REPLY | KOBJECT_SCHED_CONTEXT.

Definition x86_mode_kobject_get_size (type : kobject_t) (objectSize : Z) : Z :=
  match type with
  | KOBJECT_FRAME => if objectSize =? seL4_HugePageBits then objectSize else 0
  | KOBJECT_PDPT => seL4_PDPTBits
  | _ => 0
  end.

Definition x86_mode_kobject_get_type (type : kobject_t) (objectSize : Z) : Z :=
  match type with
  | KOBJECT_FRAME => if objectSize =? seL4_HugePageBits then seL4_X64_HugePageObject else minus_one
  | KOBJECT_PML4 => seL4_X64_PML4Object
  | KOBJECT_PDPT => seL4_X86_PDPTObject
  | _ => minus_one
  end.

Definition arch_kobject_get_size (type : kobject_t) (objectSize : Z) : Z :=
  match type with
  | KOBJECT_IO_PAGETABLE => seL4_IOPageTableBits
  | KOBJECT_FRAME =>
    if (objectSize =? seL4_PageBits) || (objectSize =? seL4_LargePageBits) then objectSize
    else x86_mode_kobject_get_size type objectSize
  | _ => x86_mode_kobject_get_size type objectSize
  end.

Definition arch_kobject_get_type (type : kobject_t) (objectSize : Z) : Z :=
  match type with
  | KOBJECT_PAGE_DIRECTORY => seL4_X86_PageDirectoryObject
  | KOBJECT_PAGE_TABLE => seL4_X86_PageTableObject
  | KOBJECT_FRAME =>
    if objectSize =? seL4_PageBits then seL4_X86_4K
    else if objectSize =? seL4_LargePageBits then seL4_X86_LargePageObject
    else x86_mode_kobject_get_type type objectSize
  | KOBJECT_IO_PAGETABLE => seL4_X86_IOPageTableObject
  | _ => x86_mode_kobject_get_type type objectSize
  end.

Definition kobject_get_size (type : kobject_t) (objectSize : Z) : Z :=
  match type with
  | KOBJECT_TCB => seL4_TCBBits
  | KOBJECT_CNODE => seL4_SlotBits ⊞ objectSize
  | KOBJECT_CSLOT => 0
  | KOBJECT_UNTYPED => objectSize
  | KOBJECT_ENDPOINT => seL4_EndpointBits
  | KOBJECT_NOTIFICATION => seL4_EndpointBits
  | KOBJECT_PAGE_DIRECTORY => seL4_PageDirBits
  | KOBJECT_PAGE_TABLE => seL4_PageTableBits
  | KOBJECT_REPLY =>
    if CONFIG_KERNEL_MCS then seL4_ReplyBits else arch_kobject_get_size type objectSize
  | KOBJECT_SCHED_CONTEXT =>
    if CONFIG_KERNEL_MCS then
      if objectSize >? seL4_MinSchedContextBits then objectSize else seL4_MinSchedContextBits
    else arch_kobject_get_size type objectSize
  | _ => arch_kobject_get_size type objectSize
  end.

Definition kobject_get_type (type : kobject_t) (objectSize : Z) : Z :=
  match type with
  | KOBJECT_TCB => seL4_TCBObject
  | KOBJECT_CNODE => seL4_CapTableObject
  | KOBJECT_CSLOT => minus_one
  | KOBJECT_UNTYPED => seL4_UntypedObject
  | KOBJECT_ENDPOINT => seL4_EndpointObject
  | KOBJECT_NOTIFICATION => seL4_NotificationObject
  | KOBJECT_SCHED_CONTEXT =>
    if CONFIG_KERNEL_MCS then seL4_SchedContextObject else arch_kobject_get_type type objectSize
  | KOBJECT_REPLY =>
    if CONFIG_KERNEL_MCS then seL4_ReplyObject else arch_kobject_get_type type objectSize
  | _ => arch_kobject_get_type type objectSize
  end.

(** ** Properties *)

(** The case labels of [vka_get_object_size]: C rejects a [switch] in which
    two of them are equal. *)
Definition case_labels : list Z :=
  [seL4_UntypedObject; seL4_TCBObject; seL4_SchedContextObject; seL4_ReplyObject;
   seL4_EndpointObject; seL4_NotificationObject; seL4_CapTableObject;
   seL4_X86_4K; seL4_X86_LargePageObject; seL4_X86_PageTableObject;
   seL4_X86_PageDirectoryObject; seL4_X86_IOPageTableObject;
   seL4_X64_HugePageObject; seL4_X86_PDPTObject; seL4_X64_PML4Object].

(** The two descriptions of object sizes agree.  For every kernel object
    kind with an object type, other than notifications and PML4s, the size
    [vka_get_object_size] gives to the type [kobject_get_type] chooses is the
    size [kobject_get_size] states. *)
Theorem kobject_sizes_agree (k : kobject_t) (objectSize : Z) :
  NoDup case_labels -> k <> KOBJECT_NOTIFICATION -> k <> KOBJECT_PML4 ->
  kobject_get_type k objectSize <> minus_one ->
  vka_get_object_size (kobject_get_type k objectSize) objectSize = kobject_get_size k objectSize.
Proof.
  unfold case_labels. rewrite !NoDup_cons, !not_elem_of_cons.
  intros Hnd Hn Hp Ht. destruct_and!.
  destruct k; try congruence; unfold kobject_get_type, kobject_get_size in *; simpl in *;
    try (by exfalso; apply Ht);
    unfold vka_get_object_size, vka_arch_get_object_size, vka_x86_mode_get_object_size;
    try (destruct CONFIG_KERNEL_MCS; simpl in *; try congruence); label_cases.
  all: destruct (Z.eqb_spec objectSize seL4_PageBits),
      (Z.eqb_spec objectSize seL4_LargePageBits), (Z.eqb_spec objectSize seL4_HugePageBits);
      simpl in *; try congruence; label_cases; congruence.
Qed.

Lemma vka_get_object_size_idem (type size_bits : Z) : type <> seL4_CapTableObject ->
  vka_get_object_size type (vka_get_object_size type size_bits) = vka_get_object_size type size_bits.
Proof.
  intros Hne. unfold vka_get_object_size.
  destruct (type =? seL4_UntypedObject), (type =? seL4_TCBObject); try done.
  destruct (CONFIG_KERNEL_MCS && (type =? seL4_SchedContextObject)).
  { destruct (Z.gtb_spec size_bits seL4_MinSchedContextBits).
    - by rewrite (proj2 (Z.gtb_lt _ _)).
    - destruct (Z.gtb_spec seL4_MinSchedContextBits seL4_MinSchedContextBits); lia. }
  destruct (CONFIG_KERNEL_MCS && (type =? seL4_ReplyObject)), (type =? seL4_EndpointObject),
    (type =? seL4_NotificationObject); try done.
  by rewrite (proj2 (Z.eqb_neq _ _) Hne).
Qed.

(** From the size the kernel takes to the size in memory and back. *)
Lemma get_sel4_object_size_of_memory (type size_bits : Z) :
  NoDup case_labels -> is_word size_bits ->
  get_sel4_object_size type (vka_get_object_size type size_bits) =
  if type =? seL4_CapTableObject then size_bits else vka_get_object_size type size_bits.
Proof.
  unfold case_labels. rewrite !NoDup_cons, !not_elem_of_cons. intros Hnd Hs. destruct_and!.
  unfold get_sel4_object_size. destruct (Z.eqb_spec type seL4_CapTableObject) as [->|Hne].
  - unfold vka_get_object_size. destruct CONFIG_KERNEL_MCS; label_cases.
    all: unfold wrap; rewrite Zminus_mod_idemp_l; replace (seL4_SlotBits + size_bits - seL4_SlotBits) with size_bits by lia;
      by apply Z.mod_small.
  - by apply vka_get_object_size_idem.
Qed.

(** The conversion [get_sel4_object_size] makes for the retype call is
    undone by [vka_get_object_size]: the check both untyped allocators start
    with holds for a CNode of any size in memory that has room for a slot,
    and for a fixed-size object exactly when the caller gave its size. *)
Theorem get_sel4_object_size_roundtrip (type size_bits : Z) :
  NoDup case_labels -> is_word size_bits -> is_word seL4_SlotBits ->
  vka_get_object_size type (get_sel4_object_size type size_bits) =
  (if type =? seL4_CapTableObject then size_bits
   else vka_get_object_size type (vka_get_object_size type size_bits)) /\
  (type <> seL4_CapTableObject ->
   vka_get_object_size type (vka_get_object_size type size_bits) = vka_get_object_size type size_bits).
Proof.
  unfold case_labels. rewrite !NoDup_cons, !not_elem_of_cons. intros Hnd Hs Hb. destruct_and!.
  unfold get_sel4_object_size. split.
  - destruct (Z.eqb_spec type seL4_CapTableObject) as [->|]; [|done].
    unfold vka_get_object_size. destruct CONFIG_KERNEL_MCS; label_cases.
    all: unfold wrap; rewrite Zplus_mod_idemp_r; replace (seL4_SlotBits + (size_bits - seL4_SlotBits)) with size_bits by lia;
      by apply Z.mod_small.
  - apply vka_get_object_size_idem.
Qed.

(** For the two kinds left out of the agreement the sizes differ:
    [kobject_get_size] answers the size of an endpoint for a notification,
    and 0 for a PML4. *)
Theorem kobject_sizes_disagree (objectSize : Z) :
  NoDup case_labels ->
  kobject_get_size KOBJECT_NOTIFICATION objectSize = seL4_EndpointBits /\
  vka_get_object_size (kobject_get_type KOBJECT_NOTIFICATION objectSize) objectSize = seL4_NotificationBits /\
  kobject_get_size KOBJECT_PML4 objectSize = 0 /\
  vka_get_object_size (kobject_get_type KOBJECT_PML4 objectSize) objectSize = seL4_PML4Bits.
Proof.
  unfold case_labels. rewrite !NoDup_cons, !not_elem_of_cons. intros Hnd. destruct_and!.
  unfold vka_get_object_size, vka_arch_get_object_size, vka_x86_mode_get_object_size.
  split_and!; simpl; try done; destruct CONFIG_KERNEL_MCS; label_cases.
Qed.

End objects.

Lemma x86_64_labels : NoDup case_labels.
Proof. apply (bool_decide_eq_true_1 _). vm_compute. reflexivity. Qed.

Lemma kobject_sizes_agree_witness :
  vka_get_object_size (kobject_get_type KOBJECT_FRAME 21) 21 = kobject_get_size KOBJECT_FRAME 21.
Proof. apply (kobject_sizes_agree KOBJECT_FRAME 21 x86_64_labels); by vm_compute. Defined.

Lemma get_sel4_object_size_roundtrip_witness :
  vka_get_object_size 4 (get_sel4_object_size 4 17) = 17 /\
  (4 <> seL4_CapTableObject -> vka_get_object_size 4 (vka_get_object_size 4 17) = vka_get_object_size 4 17).
Proof. apply (get_sel4_object_size_roundtrip 4 17 x86_64_labels); by vm_compute. Defined.

Lemma kobject_sizes_disagree_witness :
  kobject_get_size KOBJECT_NOTIFICATION 0 = 4 /\
  vka_get_object_size (kobject_get_type KOBJECT_NOTIFICATION 0) 0 = 5 /\
  kobject_get_size KOBJECT_PML4 0 = 0 /\
  vka_get_object_size (kobject_get_type KOBJECT_PML4 0) 0 = 12.
Proof. apply (kobject_sizes_disagree 0 x86_64_labels). Defined.
