(* ===== verification/Vka.v ===== *)
(** libsel4vka: the allocation interface [vka_t] and its wrappers
    (include/vka/vka.h), capability operations (include/vka/capops.h), and the
    allocation and freeing of kernel objects (include/vka/object.h).

    A [vka_t] is a table of functions over the state [W] behind its [data]
    pointer; a null function pointer, and a null [vka_t], is [None].  An
    out-parameter is part of the result: [None] when it was not written.  The
    checks that the out-parameters themselves are not null have no
    counterpart.  The configuration is a release build that does not allow
    memory leaks (no CONFIG_DEBUG_BUILD, no CONFIG_LIB_VKA_ALLOW_MEMORY_LEAKS). *)
From S2P Require Import Prelude Cspacepath Interfaces Objects.

Record vka_t (W : Type) : Type := Vka {
  cspace_alloc : option (M W (Z * option Z));
  cspace_make_path : option (Z -> M W cspacepath_t);
  utspace_alloc : option (cspacepath_t -> Z -> Z -> M W (Z * option Z));
  utspace_alloc_maybe_device : option (cspacepath_t -> Z -> Z -> bool -> M W (Z * option Z));
  utspace_alloc_at : option (cspacepath_t -> Z -> Z -> Z -> M W (Z * option Z));
  cspace_free : option (Z -> M W unit);
  utspace_free : option (Z -> Z -> Z -> M W unit);
  utspace_paddr : option (Z -> Z -> Z -> M W Z)
}.
Arguments Vka {W} _ _ _ _ _ _ _ _.
Arguments cspace_alloc {W} _.
Arguments cspace_make_path {W} _.
Arguments utspace_alloc {W} _.
Arguments utspace_alloc_maybe_device {W} _.
Arguments utspace_alloc_at {W} _.
Arguments cspace_free {W} _.
Arguments utspace_free {W} _.
Arguments utspace_paddr {W} _.

Definition VKA_NO_PADDR : Z := 1.

Section vka.
Context {W : Type}.
Implicit Types (vka : option (vka_t W)) (w : W).

Definition vka_cspace_alloc vka : M W (Z * option Z) :=
  match vka with
  | None => ret (-1, None)
  | Some v => match cspace_alloc v with None => ret (-1, None) | Some f => f end
  end.

Definition vka_cspace_make_path vka (slot : Z) : M W cspacepath_t :=
  match vka with
  | None => stop Fatal
  | Some v => match cspace_make_path v with None => stop Fatal | Some f => f slot end
  end.

(** [res] is written only if a slot was allocated; a slot that the function
    below did not write is read uninitialised, modelled as 0. *)
Definition vka_cspace_alloc_path vka : M W (Z * option cspacepath_t) :=
  let! (error, slot) := vka_cspace_alloc vka in
  if error =? seL4_NoError then
    let! path := vka_cspace_make_path vka (default 0 slot) in ret (error, Some path)
  else ret (error, None).

Definition vka_cspace_free vka (slot : Z) : M W unit :=
  match vka with
  | None => stop NullPointer
  | Some v => match cspace_free v with None => ret tt | Some f => f slot end
  end.

Definition vka_cspace_free_path vka (path : cspacepath_t) : M W unit :=
  vka_cspace_free vka (capPtr path).

Definition vka_utspace_alloc vka (dest : cspacepath_t) (type size_bits : Z) : M W (Z * option Z) :=
  match vka with
  | None => ret (-1, None)
  | Some v => match utspace_alloc v with None => ret (-1, None) | Some f => f dest type size_bits end
  end.

Definition vka_utspace_alloc_maybe_device vka (dest : cspacepath_t) (type size_bits : Z) (can_use_dev : bool)
    : M W (Z * option Z) :=
  match vka with
  | None => ret (-1, None)
  | Some v => match utspace_alloc_maybe_device v with
              | None => ret (-1, None)
              | Some f => f dest type size_bits can_use_dev
              end
  end.

Definition vka_utspace_alloc_at vka (dest : cspacepath_t) (type size_bits paddr : Z) : M W (Z * option Z) :=
  match vka with
  | None => ret (-1, None)
  | Some v => match utspace_alloc_at v with None => ret (-1, None) | Some f => f dest type size_bits paddr end
  end.

Definition vka_utspace_free vka (type size_bits target : Z) : M W unit :=
  match vka with
  | None => ret tt
  | Some v => match utspace_free v with None => stop Fatal | Some f => f type size_bits target end
  end.

Definition vka_utspace_paddr vka (target type size_bits : Z) : M W Z :=
  match vka with
  | None => ret VKA_NO_PADDR
  | Some v => match utspace_paddr v with None => ret VKA_NO_PADDR | Some f => f target type size_bits end
  end.

(** ** Capability operations *)

Context `{!KernelOps W}.

Definition vka_cnode_delete (src : cspacepath_t) : M W Z :=
  seL4_CNode_Delete (root src) (capPtr src) (capDepth src).

Definition vka_cnode_move (dest src : cspacepath_t) : M W Z :=
  seL4_CNode_Move (root dest) (capPtr dest) (capDepth dest) (root src) (capPtr src) (capDepth src).

Definition vka_cnode_revoke (seL4_CNode_Revoke : Z -> Z -> Z -> M W Z) (src : cspacepath_t) : M W Z :=
  seL4_CNode_Revoke (root src) (capPtr src) (capDepth src).

(** ** Objects *)

Record vka_object_t : Type := VkaObject { cptr : Z; ut : Z; type : Z; size_bits : Z }.

Definition no_object : vka_object_t := VkaObject 0 0 0 0.

Context {seL4 : SeL4Constants}.

(** The [error:] label: give the slot back and clear the result. *)
Definition alloc_object_error vka (cptr : Z) (error : Z) : M W (Z * vka_object_t) :=
  let! _ := (if negb (cptr =? 0) then vka_cspace_free vka cptr else ret tt) in
  ret (error, no_object).

(** [result] is the structure the caller passed. *)
Definition vka_alloc_object_at_maybe_dev vka (type size_bits paddr : Z) (can_use_dev : bool)
    (result : vka_object_t) : M W (Z * vka_object_t) :=
  if negb (type <? seL4_ObjectTypeCount) then alloc_object_error vka 0 (-1)
  else
    let! (error, slot) := vka_cspace_alloc vka in
    if negb (error =? 0) then alloc_object_error vka 0 error
    else
      let c := default (cptr result) slot in
      let! path := vka_cspace_make_path vka c in
      let! (error, u) :=
        (if paddr =? VKA_NO_PADDR then vka_utspace_alloc_maybe_device vka path type size_bits can_use_dev
         else vka_utspace_alloc_at vka path type size_bits paddr) in
      if negb (error =? 0) then alloc_object_error vka c error
      else ret (0, VkaObject c (default (ut result) u) type size_bits).

Definition vka_alloc_object_at vka (type size_bits paddr : Z) (result : vka_object_t) : M W (Z * vka_object_t) :=
  vka_alloc_object_at_maybe_dev vka type size_bits paddr false result.

Definition vka_alloc_object vka (type size_bits : Z) (result : vka_object_t) : M W (Z * vka_object_t) :=
  vka_alloc_object_at vka type size_bits VKA_NO_PADDR result.

Definition vka_alloc_object_leaky vka (type size_bits : Z) : M W Z :=
  let! (error, result) := vka_alloc_object vka type size_bits no_object in
  ret (if error =? -1 then 0 else cptr result).

Definition vka_free_object vka (object : vka_object_t) : M W unit :=
  let! path := vka_cspace_make_path vka (cptr object) in
  if capPtr path =? 0 then ret tt
  else
    let! _ := seL4_CNode_Delete (root path) (capPtr path) (capDepth path) in
    let! _ := vka_cspace_free vka (cptr object) in
    vka_utspace_free vka (type object) (size_bits object) (ut object).

Definition vka_object_paddr vka (object : vka_object_t) : M W Z :=
  vka_utspace_paddr vka (ut object) (type object) (size_bits object).

Definition vka_untyped_retype (untyped : vka_object_t) (type size_bits num_objects : Z) (dst : cspacepath_t) : M W Z :=
  let size_bits := vka_get_object_size type size_bits in
  seL4_Untyped_Retype (cptr untyped) type size_bits (root dst) (dest dst) (destDepth dst) (offset dst) num_objects.

(** The wrappers for one type each. *)
Definition vka_alloc_untyped vka (size_bits : Z) := vka_alloc_object vka seL4_UntypedObject size_bits.
Definition vka_alloc_untyped_at vka (size_bits paddr : Z) :=
  vka_alloc_object_at vka seL4_UntypedObject size_bits paddr.
Definition vka_alloc_tcb vka := vka_alloc_object vka seL4_TCBObject seL4_TCBBits.
Definition vka_alloc_endpoint vka := vka_alloc_object vka seL4_EndpointObject seL4_EndpointBits.
Definition vka_alloc_notification vka := vka_alloc_object vka seL4_NotificationObject seL4_NotificationBits.
Definition vka_alloc_cnode_object vka (slot_bits : Z) := vka_alloc_object vka seL4_CapTableObject slot_bits.
Definition vka_alloc_frame vka (size_bits : Z) :=
  vka_alloc_object vka (kobject_get_type KOBJECT_FRAME size_bits) size_bits.
Definition vka_alloc_frame_maybe_device vka (size_bits : Z) (can_use_dev : bool) :=
  vka_alloc_object_at_maybe_dev vka (kobject_get_type KOBJECT_FRAME size_bits) size_bits VKA_NO_PADDR can_use_dev.
Definition vka_alloc_frame_at vka (size_bits paddr : Z) :=
  vka_alloc_object_at vka (kobject_get_type KOBJECT_FRAME size_bits) size_bits paddr.
Definition vka_alloc_page_directory vka :=
  vka_alloc_object vka (kobject_get_type KOBJECT_PAGE_DIRECTORY 0) seL4_PageDirBits.
Definition vka_alloc_page_table vka :=
  vka_alloc_object vka (kobject_get_type KOBJECT_PAGE_TABLE 0) seL4_PageTableBits.
Definition vka_alloc_kobject vka (type : kobject_t) (size_bits : Z) :=
  vka_alloc_object vka (kobject_get_type type size_bits) size_bits.

End vka.

(** ** What an allocator promises about slots and objects

    [live_slots w] and [live_cookies w] are the slots and untyped cookies
    handed out and not yet given back. *)
Class VkaAccounting (W : Type) `{!KernelOps W} (v : vka_t W) : Type := {
  live_slots : W -> gset Z;
  live_cookies : W -> gset Z;
  acct_cspace_alloc : exists f, cspace_alloc v = Some f /\ forall w, exists e r w',
    f w = Ok (e, r, w') /\ live_cookies w' = live_cookies w /\
    ((e = 0 /\ exists s, r = Some s /\ s <> 0 /\ (s ∉ live_slots w) /\ live_slots w' = {[s]} ∪ live_slots w) \/
     (e <> 0 /\ live_slots w' = live_slots w));
  acct_make_path : exists f, cspace_make_path v = Some f /\ forall s w, exists p,
    f s w = Ok (p, w) /\ capPtr p = s;
  acct_maybe_device : exists f, utspace_alloc_maybe_device v = Some f /\ forall p t sz d w, exists e r w',
    f p t sz d w = Ok (e, r, w') /\ live_slots w' = live_slots w /\
    ((e = 0 /\ exists c, r = Some c /\ (c ∉ live_cookies w) /\ live_cookies w' = {[c]} ∪ live_cookies w) \/
     (e <> 0 /\ live_cookies w' = live_cookies w));
  acct_alloc_at : exists f, utspace_alloc_at v = Some f /\ forall p t sz paddr w, exists e r w',
    f p t sz paddr w = Ok (e, r, w') /\ live_slots w' = live_slots w /\
    ((e = 0 /\ exists c, r = Some c /\ (c ∉ live_cookies w) /\ live_cookies w' = {[c]} ∪ live_cookies w) \/
     (e <> 0 /\ live_cookies w' = live_cookies w));
  acct_cspace_free : exists f, cspace_free v = Some f /\ forall s w, s ∈ live_slots w -> exists w',
    f s w = Ok (tt, w') /\ live_slots w' = live_slots w ∖ {[s]} /\ live_cookies w' = live_cookies w;
  acct_utspace_free : exists f, utspace_free v = Some f /\ forall t sz c w, c ∈ live_cookies w -> exists w',
    f t sz c w = Ok (tt, w') /\ live_cookies w' = live_cookies w ∖ {[c]} /\ live_slots w' = live_slots w;
  acct_delete : forall a b c w, exists e w', seL4_CNode_Delete a b c w = Ok (e, w') /\
    live_slots w' = live_slots w /\ live_cookies w' = live_cookies w
}.

Section accounting.
Context {W : Type} `{!KernelOps W} {seL4 : SeL4Constants} (v : vka_t W) `{!VkaAccounting W v}.

Lemma alloc_object_cases (t sz paddr : Z) (dev : bool) (result : vka_object_t) (w : W) :
  exists e o w', vka_alloc_object_at_maybe_dev (Some v) t sz paddr dev result w = Ok (e, o, w') /\
  ((e = 0 /\ type o = t /\ size_bits o = sz /\ cptr o <> 0 /\
    (cptr o ∉ live_slots w) /\ live_slots w' = {[cptr o]} ∪ live_slots w /\
    (ut o ∉ live_cookies w) /\ live_cookies w' = {[ut o]} ∪ live_cookies w) \/
   (e <> 0 /\ o = no_object /\ live_slots w' = live_slots w /\ live_cookies w' = live_cookies w)).
Proof.
  unfold vka_alloc_object_at_maybe_dev, alloc_object_error, bind.
  destruct (t <? seL4_ObjectTypeCount); cbn [negb].
  2:{ do 3 eexists. split; [reflexivity|]. right. split_and!; done. }
  destruct acct_cspace_alloc as (fa & Hfa & Ha). unfold vka_cspace_alloc. rewrite Hfa.
  destruct (Ha w) as (e & r & w1 & -> & Hc1 & [(-> & s & -> & Hs0 & Hs & Hs1)|(He & Hs1)]); cbn [res_bind].
  2:{ rewrite (proj2 (Z.eqb_neq _ _) He). do 3 eexists. split; [reflexivity|]. right. by split_and!. }
  cbn [Z.eqb negb from_option id]. destruct acct_make_path as (fp & Hfp & Hp). unfold vka_cspace_make_path.
  rewrite Hfp. destruct (Hp s w1) as (p & -> & Hps). cbn [res_bind].
  assert (Hut : exists e r w2, (if paddr =? VKA_NO_PADDR
      then vka_utspace_alloc_maybe_device (Some v) p t sz dev
      else vka_utspace_alloc_at (Some v) p t sz paddr) w1 = Ok (e, r, w2) /\
    live_slots w2 = live_slots w1 /\
    ((e = 0 /\ exists c, r = Some c /\ (c ∉ live_cookies w1) /\ live_cookies w2 = {[c]} ∪ live_cookies w1) \/
     (e <> 0 /\ live_cookies w2 = live_cookies w1))).
  { destruct (paddr =? VKA_NO_PADDR).
    - destruct acct_maybe_device as (fm & Hfm & Hm). unfold vka_utspace_alloc_maybe_device. rewrite Hfm. apply Hm.
    - destruct acct_alloc_at as (fm & Hfm & Hm). unfold vka_utspace_alloc_at. rewrite Hfm. apply Hm. }
  destruct Hut as (e & r & w2 & -> & Hs2 & [(-> & c & -> & Hc & Hc2)|(He & Hc2)]); cbn [res_bind].
  - do 3 eexists. split; [reflexivity|]. left. simpl. split_and!; set_solver.
  - rewrite (proj2 (Z.eqb_neq _ _) He). cbn [negb]. rewrite (proj2 (Z.eqb_neq _ _) Hs0). cbn [negb].
    destruct acct_cspace_free as (ff & Hff & Hf). unfold vka_cspace_free. rewrite Hff.
    destruct (Hf s w2) as (w3 & -> & Hs3 & Hc3); [set_solver|]. cbn [res_bind].
    do 3 eexists. split; [reflexivity|]. right. split_and!; [done|done| |congruence].
    rewrite Hs3, Hs2, Hs1. set_solver.
Qed.

Lemma free_object_cases (o : vka_object_t) (w : W) :
  cptr o <> 0 -> cptr o ∈ live_slots w -> ut o ∈ live_cookies w ->
  exists w', vka_free_object (Some v) o w = Ok (tt, w') /\
    live_slots w' = live_slots w ∖ {[cptr o]} /\ live_cookies w' = live_cookies w ∖ {[ut o]}.
Proof.
  intros H0 Hs Hc. unfold vka_free_object, bind.
  destruct acct_make_path as (fp & Hfp & Hp). unfold vka_cspace_make_path. rewrite Hfp.
  destruct (Hp (cptr o) w) as (p & -> & Hps). cbn [res_bind]. rewrite Hps, (proj2 (Z.eqb_neq _ _) H0).
  destruct (acct_delete (root p) (cptr o) (capDepth p) w) as (e & w1 & -> & Hs1 & Hc1). cbn [res_bind].
  destruct acct_cspace_free as (ff & Hff & Hf). unfold vka_cspace_free. rewrite Hff.
  destruct (Hf (cptr o) w1) as (w2 & -> & Hs2 & Hc2); [set_solver|]. cbn [res_bind].
  destruct acct_utspace_free as (fu & Hfu & Hu). unfold vka_utspace_free. rewrite Hfu.
  destruct (Hu (type o) (size_bits o) (ut o) w2) as (w3 & -> & Hc3 & Hs3); [set_solver|].
  exists w3. split; [done|]. split; congruence.
Qed.

(** C27: over any allocator that keeps its promise about slots and cookies,
    [vka_alloc_object_at_maybe_dev] returns.  Either it returns an object of
    the requested type and size in a new slot with a new cookie, and
    [vka_free_object] on it gives both back; or it returns an error and a
    zeroed object, and no slot or cookie is leaked. *)
Theorem alloc_object_no_leak (t sz paddr : Z) (dev : bool) (result : vka_object_t) (w : W) :
  exists e o w', vka_alloc_object_at_maybe_dev (Some v) t sz paddr dev result w = Ok (e, o, w') /\
  ((e = 0 /\ type o = t /\ size_bits o = sz /\
    (cptr o ∉ live_slots w) /\ live_slots w' = {[cptr o]} ∪ live_slots w /\
    (ut o ∉ live_cookies w) /\ live_cookies w' = {[ut o]} ∪ live_cookies w /\
    exists w'', vka_free_object (Some v) o w' = Ok (tt, w'') /\
      live_slots w'' = live_slots w /\ live_cookies w'' = live_cookies w) \/
   (e <> 0 /\ o = no_object /\ live_slots w' = live_slots w /\ live_cookies w' = live_cookies w)).
Proof.
  destruct (alloc_object_cases t sz paddr dev result w)
    as (e & o & w' & -> & [(He & Ht & Hsz & H0 & Hs & Hs' & Hc & Hc')|H]);
    do 3 eexists; (split; [reflexivity|]); [left|by right].
  destruct (free_object_cases o w' H0) as (w'' & Hf & Hs2 & Hc2); [set_solver|set_solver|].
  split_and!; try done. exists w''. split_and!; [done|set_solver|set_solver].
Qed.

End accounting.

(** ** A model of the promise

    An allocator that keeps the two sets and hands out fresh numbers. *)

Record ledger : Type := Ledger { l_slots : gset Z; l_cookies : gset Z }.

#[export] Instance ledger_kernel : KernelOps ledger := {|
  seL4_CNode_Delete _ _ _ := fun w => Ok (0, w);
  seL4_CNode_Move _ _ _ _ _ _ := fun w => Ok (0, w);
  seL4_Untyped_Retype _ _ _ _ _ _ _ _ := fun w => Ok (0, w)
|}.

Definition ledger_slot (l : ledger) : Z := fresh ({[0]} ∪ l_slots l).
Definition ledger_cookie (l : ledger) : Z := fresh ({[0]} ∪ l_cookies l).

Definition ledger_new_cookie : M ledger (Z * option Z) := fun l =>
  Ok (0, Some (ledger_cookie l), Ledger (l_slots l) ({[ledger_cookie l]} ∪ l_cookies l)).

Definition ledger_vka : vka_t ledger := {|
  cspace_alloc := Some (fun l => Ok (0, Some (ledger_slot l), Ledger ({[ledger_slot l]} ∪ l_slots l) (l_cookies l)));
  cspace_make_path := Some (fun slot l => Ok (Cspacepath slot 64 2 0 0 slot 1, l));
  utspace_alloc := Some (fun _ _ _ => ledger_new_cookie);
  utspace_alloc_maybe_device := Some (fun _ _ _ _ => ledger_new_cookie);
  utspace_alloc_at := Some (fun _ _ _ _ => ledger_new_cookie);
  cspace_free := Some (fun slot l => Ok (tt, Ledger (l_slots l ∖ {[slot]}) (l_cookies l)));
  utspace_free := Some (fun _ _ c l => Ok (tt, Ledger (l_slots l) (l_cookies l ∖ {[c]})));
  utspace_paddr := Some (fun _ _ _ => ret VKA_NO_PADDR)
|}.

(** A world with both a heap and a ledger of what the allocator handed out. *)
#[export] Instance ledger_malloc : Malloc ledger := {|
  malloc bytes l := Ok (ledger_cookie l, Ledger (l_slots l) ({[ledger_cookie l]} ∪ l_cookies l));
  free p l := Ok (tt, Ledger (l_slots l) (l_cookies l ∖ {[p]}))
|}.

Definition empty_ledger : ledger := Ledger ∅ ∅.

Lemma ledger_slot_fresh (l : ledger) : ledger_slot l <> 0 /\ (ledger_slot l ∉ l_slots l).
Proof. pose proof (is_fresh ({[0]} ∪ l_slots l)) as H. unfold ledger_slot. split; set_solver. Qed.

Lemma ledger_cookie_fresh (l : ledger) : ledger_cookie l <> 0 /\ (ledger_cookie l ∉ l_cookies l).
Proof. pose proof (is_fresh ({[0]} ∪ l_cookies l)) as H. unfold ledger_cookie. split; set_solver. Qed.

#[export] Program Instance ledger_accounting : VkaAccounting ledger ledger_vka := {|
  live_slots := l_slots; live_cookies := l_cookies
|}.
Next Obligation.
  eexists. split; [reflexivity|]. intros l. pose proof (ledger_slot_fresh l) as [? ?].
  do 3 eexists. split; [reflexivity|]. split; [done|]. left. split; [done|]. by eexists.
Qed.
Next Obligation. eexists. split; [reflexivity|]. intros s l. by eexists. Qed.
Next Obligation.
  eexists. split; [reflexivity|]. intros p t sz d l. pose proof (ledger_cookie_fresh l) as [? ?].
  do 3 eexists. split; [reflexivity|]. split; [done|]. left. split; [done|]. by eexists.
Qed.
Next Obligation.
  eexists. split; [reflexivity|]. intros p t sz d l. pose proof (ledger_cookie_fresh l) as [? ?].
  do 3 eexists. split; [reflexivity|]. split; [done|]. left. split; [done|]. by eexists.
Qed.
Next Obligation. eexists. split; [reflexivity|]. intros s l _. by eexists. Qed.
Next Obligation. eexists. split; [reflexivity|]. intros t sz c l _. by eexists. Qed.
Next Obligation. intros a b c l. by do 2 eexists. Qed.

Lemma alloc_object_no_leak_witness :
  let l := Ledger {[5]} {[7]} in
  exists e o w', vka_alloc_object_at_maybe_dev (Some ledger_vka) 1 11 VKA_NO_PADDR false no_object l = Ok (e, o, w') /\
  ((e = 0 /\ type o = 1 /\ size_bits o = 11 /\
    (cptr o ∉ live_slots l) /\ live_slots w' = {[cptr o]} ∪ live_slots l /\
    (ut o ∉ live_cookies l) /\ live_cookies w' = {[ut o]} ∪ live_cookies l /\
    exists w'', vka_free_object (Some ledger_vka) o w' = Ok (tt, w'') /\
      live_slots w'' = live_slots l /\ live_cookies w'' = live_cookies l) \/
   (e <> 0 /\ o = no_object /\ live_slots w' = live_slots l /\ live_cookies w' = live_cookies l)).
Proof. apply (alloc_object_no_leak ledger_vka 1 11 VKA_NO_PADDR false no_object (Ledger {[5]} {[7]})). Defined.
