(* ===== verification/DebugVka.v ===== *)
(** libsel4vka/src/debug-vka.c: a [vka_t] that wraps another one and records
    which slots and objects are live, to catch an allocator that hands out a
    live slot and a client that frees what it does not hold; and
    libsel4vka/src/null-vka.c, the allocator that has nothing.

    [fatal] is the fault [Fatal]; the messages are left out.  The buffer sizes
    are below 2^32, so the [unsigned int] indices do not wrap. *)
From S2P Require Import Prelude Cspacepath Interfaces Objects Vka.

(** ** The null allocator *)

Section null_vka.
Context {W : Type}.

Definition null_cspace_alloc : M W (Z * option Z) := ret (-1, None).
(** The path is left as the caller had it. *)
Definition null_cspace_make_path (path : cspacepath_t) (slot : Z) : M W cspacepath_t := ret path.
Definition null_cspace_free (slot : Z) : M W unit := ret tt.
Definition null_utspace_alloc (dest : cspacepath_t) (type size_bits : Z) : M W (Z * option Z) := ret (-1, None).
Definition null_utspace_alloc_maybe_device (dest : cspacepath_t) (type size_bits : Z) (can_use_dev : bool)
    : M W (Z * option Z) := ret (-1, None).
Definition null_utspace_alloc_at (dest : cspacepath_t) (type size_bits paddr : Z) : M W (Z * option Z) :=
  ret (-1, None).
Definition null_utspace_free (type size_bits target : Z) : M W unit := ret tt.
Definition null_utspace_paddr (target type size_bits : Z) : M W Z := ret VKA_NO_PADDR.

Definition vka_init_nullvka (path : cspacepath_t) : vka_t W := {|
  cspace_alloc := Some null_cspace_alloc;
  cspace_make_path := Some (null_cspace_make_path path);
  utspace_alloc := Some null_utspace_alloc;
  utspace_alloc_maybe_device := Some null_utspace_alloc_maybe_device;
  utspace_alloc_at := Some null_utspace_alloc_at;
  cspace_free := Some null_cspace_free;
  utspace_free := Some null_utspace_free;
  utspace_paddr := Some null_utspace_paddr
|}.

End null_vka.

(** ** The debugging allocator *)

Record obj : Type := Obj { o_type : Z; o_size_bits : Z; o_cookie : Z }.

(** The state of the underlying allocator is kept beside the C structure. *)
Record state_t (W : Type) : Type := State {
  underlying : W;
  live_slots : list Z;
  live_slots_sz : Z;
  live_objs : list obj;
  live_objs_sz : Z
}.
Arguments State {W} _ _ _ _ _.
Arguments underlying {W} _.
Arguments live_slots {W} _.
Arguments live_slots_sz {W} _.
Arguments live_objs {W} _.
Arguments live_objs_sz {W} _.

(** The loop of [track_slot] and [track_obj] over the [n] entries from [i]:
    it returns [available]. *)
Fixpoint track_loop {A} (key : A -> Z) (l : list A) (k : Z) (n : nat) (i available : Z) : res Z :=
  match n with
  | O => Ok available
  | S n =>
    let? x := arr_get l i in
    if key x =? k then Fault Fatal
    else track_loop key l k n (i + 1)
           (if (available =? i) && negb (key x =? 0) then available + 1 else available)
  end.

(** The loop of [untrack_slot] and [untrack_obj]: the entry that has key [k]. *)
Fixpoint untrack_loop {A} (key : A -> Z) (l : list A) (k : Z) (n : nat) (i : Z) : res (Z * A) :=
  match n with
  | O => Fault Fatal
  | S n =>
    let? x := arr_get l i in
    if key x =? k then Ok (i, x) else untrack_loop key l k n (i + 1)
  end.

Section debug_vka.
Context {W : Type} (v : vka_t W).
Local Abbreviation state := (state_t W).

Definition track_slot (slot : Z) : M state unit := fun s =>
  if live_slots_sz s =? 0 then Ok (tt, s)
  else if slot =? 0 then Fault Fatal
  else
    let? available := track_loop id (live_slots s) slot (Z.to_nat (live_slots_sz s)) 0 0 in
    if available =? live_slots_sz s then
      Ok (tt, State (underlying s) (live_slots s) 0 (live_objs s) (live_objs_sz s))
    else
      let? l := arr_set (live_slots s) available slot in
      Ok (tt, State (underlying s) l (live_slots_sz s) (live_objs s) (live_objs_sz s)).

Definition untrack_slot (slot : Z) : M state unit := fun s =>
  let? (i, _) := untrack_loop id (live_slots s) slot (Z.to_nat (live_slots_sz s)) 0 in
  let? l := arr_set (live_slots s) i 0 in
  Ok (tt, State (underlying s) l (live_slots_sz s) (live_objs s) (live_objs_sz s)).

Definition track_obj (type size_bits cookie : Z) : M state unit := fun s =>
  if live_objs_sz s =? 0 then Ok (tt, s)
  else if cookie =? 0 then Fault Fatal
  else
    let? available := track_loop o_cookie (live_objs s) cookie (Z.to_nat (live_objs_sz s)) 0 0 in
    if available =? live_objs_sz s then
      Ok (tt, State (underlying s) (live_slots s) (live_slots_sz s) (live_objs s) 0)
    else
      let? l := arr_set (live_objs s) available (Obj type size_bits cookie) in
      Ok (tt, State (underlying s) (live_slots s) (live_slots_sz s) l (live_objs_sz s)).

Definition untrack_obj (type size_bits cookie : Z) : M state unit := fun s =>
  let? (i, x) := untrack_loop o_cookie (live_objs s) cookie (Z.to_nat (live_objs_sz s)) 0 in
  if negb (o_type x =? type) then Fault Fatal
  else if negb (o_size_bits x =? size_bits) then Fault Fatal
  else
    let? l := arr_set (live_objs s) i (Obj (o_type x) (o_size_bits x) 0) in
    Ok (tt, State (underlying s) (live_slots s) (live_slots_sz s) l (live_objs_sz s)).

(** A call of a function of the underlying allocator, which is not null. *)
Definition call_under {A} (f : option (M W A)) : M state A := fun s =>
  match f with
  | None => Fault NullPointer
  | Some m =>
    let? (a, w) := m (underlying s) in
    Ok (a, State w (live_slots s) (live_slots_sz s) (live_objs s) (live_objs_sz s))
  end.

Definition debug_cspace_alloc : M state (Z * option Z) :=
  let! (result, r) := call_under (cspace_alloc v) in
  let! _ := (if result =? 0 then track_slot (default 0 r) else ret tt) in
  ret (result, r).

Definition debug_cspace_free (slot : Z) : M state unit :=
  let! _ := (if negb (slot =? 0) then untrack_slot slot else ret tt) in
  call_under ((fun f => f slot) <$> cspace_free v).

Definition debug_cspace_make_path (slot : Z) : M state cspacepath_t :=
  call_under ((fun f => f slot) <$> cspace_make_path v).

Definition debug_utspace_alloc (dest : cspacepath_t) (type size_bits : Z) : M state (Z * option Z) :=
  let! (result, r) := call_under ((fun f => f dest type size_bits) <$> utspace_alloc v) in
  let! _ := (if result =? 0 then track_obj type size_bits (default 0 r) else ret tt) in
  ret (result, r).

Definition debug_utspace_alloc_maybe_device (dest : cspacepath_t) (type size_bits : Z) (can_use_dev : bool)
    : M state (Z * option Z) :=
  let! (result, r) := call_under ((fun f => f dest type size_bits can_use_dev) <$> utspace_alloc_maybe_device v) in
  let! _ := (if result =? 0 then track_obj type size_bits (default 0 r) else ret tt) in
  ret (result, r).

Definition debug_utspace_alloc_at (dest : cspacepath_t) (type size_bits paddr : Z) : M state (Z * option Z) :=
  let! (result, r) := call_under ((fun f => f dest type size_bits paddr) <$> utspace_alloc_at v) in
  let! _ := (if result =? 0 then track_obj type size_bits (default 0 r) else ret tt) in
  ret (result, r).

Definition debug_utspace_free (type size_bits target : Z) : M state unit :=
  let! _ := (if negb (target =? 0) then untrack_obj type size_bits target else ret tt) in
  call_under ((fun f => f type size_bits target) <$> utspace_free v).

(** The [vka_t] that [vka_init_debugvka] fills in; it leaves [utspace_paddr]
    as it was. *)
Definition debug_vka (old_paddr : option (Z -> Z -> Z -> M state Z)) : vka_t state := {|
  cspace_alloc := Some debug_cspace_alloc;
  cspace_make_path := Some debug_cspace_make_path;
  utspace_alloc := Some debug_utspace_alloc;
  utspace_alloc_maybe_device := Some debug_utspace_alloc_maybe_device;
  utspace_alloc_at := Some debug_utspace_alloc_at;
  cspace_free := Some debug_cspace_free;
  utspace_free := Some debug_utspace_free;
  utspace_paddr := old_paddr
|}.

(** [garbage_slots] and [garbage_objs] are what fresh memory holds. *)
Definition vka_init_debugvka `{!Malloc W} (slots_sz objs_sz : Z) (garbage_slots : Z -> list Z)
    (garbage_objs : Z -> list obj) (w : W) : res (Z * W + state) :=
  let? (s, w) := malloc 40 w in
  if s =? 0 then Ok (inl (-1, w))
  else
    let? (slots, w) := (if slots_sz >? 0 then malloc (8 ⊠ slots_sz) w else Ok (0, w)) in
    if (slots_sz >? 0) && (slots =? 0) then
      let? (_, w) := free s w in Ok (inl (-1, w))
    else
      let? (objs, w) := (if objs_sz >? 0 then malloc (24 ⊠ objs_sz) w else Ok (0, w)) in
      if (objs_sz >? 0) && (objs =? 0) then
        let? (_, w) := (if negb (slots =? 0) then free slots w else Ok (tt, w)) in
        let? (_, w) := free s w in Ok (inl (-1, w))
      else Ok (inr (State w (garbage_slots slots) slots_sz (garbage_objs objs) objs_sz)).

End debug_vka.

(** ** The specification: a monitor

    The same allocator with a set of live slots and a map from the live
    objects' cookies to their type and size, until it holds more than it has
    room for ([None]). *)

Record mon (W : Type) : Type := Mon {
  m_under : W;
  m_slots : option (gset Z);
  m_objs : option (gmap Z (Z * Z))
}.
Arguments Mon {W} _ _ _.
Arguments m_under {W} _.
Arguments m_slots {W} _.
Arguments m_objs {W} _.

Section monitor.
Context {W : Type} (v : vka_t W) (slots_cap objs_cap : Z).

Definition mon_take_slot (slot : Z) : M (mon W) unit := fun m =>
  match m_slots m with
  | None => Ok (tt, m)
  | Some L =>
    if bool_decide (slot = 0 \/ slot ∈ L) then Fault Fatal
    else if Z.of_nat (size L) =? slots_cap then Ok (tt, Mon (m_under m) None (m_objs m))
    else Ok (tt, Mon (m_under m) (Some ({[slot]} ∪ L)) (m_objs m))
  end.

Definition mon_give_slot (slot : Z) : M (mon W) unit := fun m =>
  match m_slots m with
  | None => Fault Fatal
  | Some L =>
    if bool_decide (slot ∈ L) then Ok (tt, Mon (m_under m) (Some (L ∖ {[slot]})) (m_objs m))
    else Fault Fatal
  end.

Definition mon_take_obj (t sz cookie : Z) : M (mon W) unit := fun m =>
  match m_objs m with
  | None => Ok (tt, m)
  | Some T =>
    if bool_decide (cookie = 0 \/ cookie ∈ dom T) then Fault Fatal
    else if Z.of_nat (size T) =? objs_cap then Ok (tt, Mon (m_under m) (m_slots m) None)
    else Ok (tt, Mon (m_under m) (m_slots m) (Some (<[cookie := (t, sz)]> T)))
  end.

Definition mon_give_obj (t sz cookie : Z) : M (mon W) unit := fun m =>
  match m_objs m with
  | None => Fault Fatal
  | Some T =>
    if bool_decide (T !! cookie = Some (t, sz))
    then Ok (tt, Mon (m_under m) (m_slots m) (Some (delete cookie T)))
    else Fault Fatal
  end.

Definition mon_call {A} (f : option (M W A)) : M (mon W) A := fun m =>
  match f with
  | None => Fault NullPointer
  | Some c => let? (a, w) := c (m_under m) in Ok (a, Mon w (m_slots m) (m_objs m))
  end.

Definition mon_obj (t sz : Z) (f : option (M W (Z * option Z))) : M (mon W) (Z * option Z) :=
  let! (result, r) := mon_call f in
  let! _ := (if result =? 0 then mon_take_obj t sz (default 0 r) else ret tt) in
  ret (result, r).

Definition monitor_vka (old_paddr : option (Z -> Z -> Z -> M (mon W) Z)) : vka_t (mon W) := {|
  cspace_alloc := Some (
    let! (result, r) := mon_call (cspace_alloc v) in
    let! _ := (if result =? 0 then mon_take_slot (default 0 r) else ret tt) in
    ret (result, r));
  cspace_make_path := Some (fun slot => mon_call ((fun f => f slot) <$> cspace_make_path v));
  utspace_alloc := Some (fun p t sz => mon_obj t sz ((fun f => f p t sz) <$> utspace_alloc v));
  utspace_alloc_maybe_device := Some (fun p t sz d =>
    mon_obj t sz ((fun f => f p t sz d) <$> utspace_alloc_maybe_device v));
  utspace_alloc_at := Some (fun p t sz a => mon_obj t sz ((fun f => f p t sz a) <$> utspace_alloc_at v));
  cspace_free := Some (fun slot =>
    let! _ := (if negb (slot =? 0) then mon_give_slot slot else ret tt) in
    mon_call ((fun f => f slot) <$> cspace_free v));
  utspace_free := Some (fun t sz target =>
    let! _ := (if negb (target =? 0) then mon_give_obj t sz target else ret tt) in
    mon_call ((fun f => f t sz target) <$> utspace_free v));
  utspace_paddr := old_paddr
|}.

End monitor.

(** Clients: any sequence of calls through the wrappers of vka.h. *)
Inductive vka_op : Type :=
  | OpCspaceAlloc
  | OpCspaceFree (slot : Z)
  | OpMakePath (slot : Z)
  | OpUtspaceAlloc (dest : cspacepath_t) (type size_bits : Z)
  | OpUtspaceAllocMaybeDevice (dest : cspacepath_t) (type size_bits : Z) (can_use_dev : bool)
  | OpUtspaceAllocAt (dest : cspacepath_t) (type size_bits paddr : Z)
  | OpUtspaceFree (type size_bits target : Z).

Inductive vka_answer : Type :=
  | Number (error : Z) (r : option Z)
  | Path (p : cspacepath_t)
  | Done.

Definition run_op {St : Type} (v : vka_t St) (op : vka_op) : M St vka_answer :=
  match op with
  | OpCspaceAlloc => let! (e, r) := vka_cspace_alloc (Some v) in ret (Number e r)
  | OpCspaceFree slot => let! _ := vka_cspace_free (Some v) slot in ret Done
  | OpMakePath slot => let! p := vka_cspace_make_path (Some v) slot in ret (Path p)
  | OpUtspaceAlloc d t sz => let! (e, r) := vka_utspace_alloc (Some v) d t sz in ret (Number e r)
  | OpUtspaceAllocMaybeDevice d t sz c =>
    let! (e, r) := vka_utspace_alloc_maybe_device (Some v) d t sz c in ret (Number e r)
  | OpUtspaceAllocAt d t sz a => let! (e, r) := vka_utspace_alloc_at (Some v) d t sz a in ret (Number e r)
  | OpUtspaceFree t sz target => let! _ := vka_utspace_free (Some v) t sz target in ret Done
  end.

Fixpoint run_ops {St : Type} (v : vka_t St) (ops : list vka_op) : M St (list vka_answer) :=
  match ops with
  | [] => ret []
  | op :: ops => let! a := run_op v op in let! l := run_ops v ops in ret (a :: l)
  end.

(** ** The loops *)

Section table.
Context {A : Type} (key : A -> Z).

(** The entries in use. *)
Definition in_use (l : list A) : list A := filter (fun x => key x <> 0) l.

Lemma track_loop_hit (l : list A) (k : Z) (n : nat) (i a : Z) :
  0 <= i -> Z.of_nat n + i = Z.of_nat (length l) ->
  (exists x, x ∈ drop (Z.to_nat i) l /\ key x = k) -> track_loop key l k n i a = Fault Fatal.
Proof.
  revert i a. induction n as [|n IH]; intros i a Hi Hn (x & Hx & Hk); cbn [track_loop].
  - rewrite drop_ge in Hx by lia. set_solver.
  - destruct (arr_get_in l i) as (y & -> & Hy); [lia|]. cbn [res_bind].
    destruct (Z.eqb_spec (key y) k) as [|Hne]; [done|]. apply IH; [lia|lia|].
    rewrite (drop_S _ _ _ Hy) in Hx. apply elem_of_cons in Hx as [->|Hx]; [done|].
    exists x. split; [|done]. by replace (Z.to_nat (i + 1)) with (S (Z.to_nat i)) by lia.
Qed.

(** Without a hit the loop finds the first free entry, or the end. *)
Lemma track_loop_free (l : list A) (k : Z) (n : nat) (i a : Z) :
  0 <= a <= i -> Z.of_nat n + i = Z.of_nat (length l) -> Forall (fun x => key x <> k) l ->
  Forall (fun x => key x <> 0) (take (Z.to_nat a) l) ->
  (a < i -> exists x, l !! Z.to_nat a = Some x /\ key x = 0) ->
  exists b, track_loop key l k n i a = Ok b /\
    ((b = Z.of_nat (length l) /\ Forall (fun x => key x <> 0) l) \/
     (0 <= b < Z.of_nat (length l) /\ exists x, l !! Z.to_nat b = Some x /\ key x = 0)).
Proof.
  revert i a. induction n as [|n IH]; intros i a Ha Hn Hk Hpre Hz; cbn [track_loop].
  - exists a. split; [done|]. destruct (decide (a < i)) as [Hlt|].
    + right. split; [lia|auto].
    + left. split; [lia|]. by rewrite take_ge in Hpre by lia.
  - destruct (arr_get_in l i) as (y & -> & Hy); [lia|]. cbn [res_bind].
    rewrite (proj2 (Z.eqb_neq _ _)) by (by eapply Forall_lookup_1 in Hk).
    destruct (Z.eqb_spec a i) as [->|Hne]; cbn [andb].
    + destruct (Z.eqb_spec (key y) 0) as [H0|H0]; cbn [negb].
      * apply IH; [lia|lia|done|done|]. intros _. eauto.
      * apply IH; [lia|lia|done| |lia].
        replace (Z.to_nat (i + 1)) with (S (Z.to_nat i)) by lia.
        rewrite (take_S_r _ _ y Hy). apply Forall_app; auto.
    + apply IH; [lia|lia|done|done|]. intros _. apply Hz. lia.
Qed.

Lemma untrack_loop_miss (l : list A) (k : Z) (n : nat) (i : Z) :
  0 <= i -> Z.of_nat n + i = Z.of_nat (length l) -> Forall (fun x => key x <> k) l ->
  untrack_loop key l k n i = Fault Fatal.
Proof.
  revert i. induction n as [|n IH]; intros i Hi Hn Hk; cbn [untrack_loop]; [done|].
  destruct (arr_get_in l i) as (y & -> & Hy); [lia|]. cbn [res_bind].
  rewrite (proj2 (Z.eqb_neq _ _)) by (by eapply Forall_lookup_1 in Hk). apply IH; [lia|lia|done].
Qed.

Lemma untrack_loop_hit (l : list A) (k : Z) (n : nat) (i : Z) :
  0 <= i -> Z.of_nat n + i = Z.of_nat (length l) ->
  (exists x, x ∈ drop (Z.to_nat i) l /\ key x = k) ->
  exists j x, untrack_loop key l k n i = Ok (j, x) /\ 0 <= j < Z.of_nat (length l) /\
    l !! Z.to_nat j = Some x /\ key x = k.
Proof.
  revert i. induction n as [|n IH]; intros i Hi Hn (x & Hx & Hk); cbn [untrack_loop].
  - rewrite drop_ge in Hx by lia. set_solver.
  - destruct (arr_get_in l i) as (y & -> & Hy); [lia|]. cbn [res_bind].
    destruct (Z.eqb_spec (key y) k) as [|Hne].
    + exists i, y. split_and!; [done|lia|lia|done|done].
    + apply IH; [lia|lia|]. rewrite (drop_S _ _ _ Hy) in Hx.
      apply elem_of_cons in Hx as [->|Hx]; [done|].
      exists x. split; [|done]. by replace (Z.to_nat (i + 1)) with (S (Z.to_nat i)) by lia.
Qed.

(** Filling a free entry, and clearing one in use. *)
Lemma in_use_insert (l : list A) (i : nat) (x y : A) :
  l !! i = Some x -> key x = 0 -> key y <> 0 -> in_use (<[i:=y]> l) ≡ₚ y :: in_use l.
Proof.
  intros Hx H0 Hy. unfold in_use. rewrite insert_take_drop by (by eapply lookup_lt_Some).
  rewrite <- (take_drop_middle l i x Hx) at 3.
  rewrite !filter_app, !filter_cons, decide_True, decide_False by naive_solver.
  by rewrite Permutation_middle.
Qed.

Lemma in_use_clear (l : list A) (i : nat) (x y : A) :
  l !! i = Some x -> key x <> 0 -> key y = 0 -> in_use l ≡ₚ x :: in_use (<[i:=y]> l).
Proof.
  intros Hx H0 Hy. unfold in_use. rewrite insert_take_drop by (by eapply lookup_lt_Some).
  rewrite <- (take_drop_middle l i x Hx) at 1.
  rewrite !filter_app, !filter_cons, decide_True, decide_False by naive_solver.
  by rewrite Permutation_middle.
Qed.

Lemma in_use_full (l : list A) : Forall (fun x => key x <> 0) l <-> length (in_use l) = length l.
Proof.
  unfold in_use. induction l as [|x l IH]; [done|]. rewrite Forall_cons, filter_cons.
  pose proof (length_filter (fun x => key x <> 0) l).
  case_decide; simpl; [rewrite IH; naive_solver lia|]. split; [naive_solver|lia].
Qed.

Lemma in_use_miss (l : list A) (k : Z) :
  k <> 0 -> Forall (fun x => key x <> k) (in_use l) -> Forall (fun x => key x <> k) l.
Proof.
  intros Hk H. rewrite Forall_forall in H |- *. intros x Hx He.
  apply (H x); [|done]. apply list_elem_of_filter. naive_solver.
Qed.

End table.

(** ** The debugging allocator implements the monitor *)

Definition obj_entry (x : obj) : Z * (Z * Z) := (o_cookie x, (o_type x, o_size_bits x)).

Section simulation.
Context {W : Type} (slots_cap objs_cap : Z) (slots_cap_pos : 0 < slots_cap) (objs_cap_pos : 0 < objs_cap).

Definition slots_rel (l : list Z) (sz : Z) (o : option (gset Z)) : Prop :=
  match o with
  | None => sz = 0
  | Some L => sz = slots_cap /\ Z.of_nat (length l) = slots_cap /\ in_use id l ≡ₚ elements L
  end.

Definition objs_rel (l : list obj) (sz : Z) (o : option (gmap Z (Z * Z))) : Prop :=
  match o with
  | None => sz = 0
  | Some T => sz = objs_cap /\ Z.of_nat (length l) = objs_cap /\ obj_entry <$> in_use o_cookie l ≡ₚ map_to_list T
  end.

Record dbg_sim (s : state_t W) (m : mon W) : Prop := {
  sim_under : underlying s = m_under m;
  sim_slots : slots_rel (live_slots s) (live_slots_sz s) (m_slots m);
  sim_objs : objs_rel (live_objs s) (live_objs_sz s) (m_objs m)
}.

Local Ltac sim_split := split; [done|]; constructor; simpl; try done.

Lemma slots_in (l : list Z) (L : gset Z) (k : Z) :
  in_use id l ≡ₚ elements L -> k <> 0 -> (exists x, x ∈ drop 0 l /\ id x = k) <-> k ∈ L.
Proof.
  intros Hp Hk. rewrite drop_0. split.
  - intros (x & Hx & <-). apply elem_of_elements. rewrite <- Hp. apply list_elem_of_filter. done.
  - intros H. apply elem_of_elements in H. rewrite <- Hp in H. apply list_elem_of_filter in H as [_ H]. eauto.
Qed.

Lemma slots_miss (l : list Z) (L : gset Z) (k : Z) :
  in_use id l ≡ₚ elements L -> k <> 0 -> (k ∉ L) -> Forall (fun x => id x <> k) l.
Proof.
  intros Hp Hk Hn. apply (in_use_miss id); [done|]. rewrite Hp. apply Forall_forall.
  intros x Hx%elem_of_elements. unfold id. congruence.
Qed.

Lemma track_slot_sim (slot : Z) : msim dbg_sim (track_slot slot) (mon_take_slot slots_cap slot).
Proof.
  intros s m [Hu Hs Ho]. unfold track_slot, mon_take_slot, slots_rel in *.
  destruct (m_slots m) as [L|] eqn:HL.
  2:{ rewrite Hs. split; [done|]. constructor; simpl; by rewrite ?HL. }
  destruct Hs as (Hsz & Hlen & Hp). rewrite Hsz, (proj2 (Z.eqb_neq slots_cap 0)) by lia.
  destruct (Z.eqb_spec slot 0) as [->|H0]; [by rewrite bool_decide_eq_true_2 by auto|].
  destruct (decide (slot ∈ L)) as [Hin|Hin].
  - rewrite bool_decide_eq_true_2 by auto. rewrite track_loop_hit; [done|lia|lia|].
    by apply (slots_in _ L).
  - rewrite bool_decide_eq_false_2 by naive_solver.
    destruct (track_loop_free id (live_slots s) slot (Z.to_nat slots_cap) 0 0)
      as (b & -> & Hb); [lia|lia|by eapply slots_miss|by constructor|lia|]. cbn [res_bind].
    assert (Hsize : length (in_use id (live_slots s)) = size L) by (by rewrite Hp).
    destruct Hb as [[-> Hfull]|[Hb (x & Hx & Hx0)]].
    + apply in_use_full in Hfull. rewrite Hlen, Z.eqb_refl, (proj2 (Z.eqb_eq _ _)) by lia. by sim_split.
    + rewrite (proj2 (Z.eqb_neq b slots_cap)) by lia.
      destruct (Z.eqb_spec (Z.of_nat (size L)) slots_cap) as [He|He].
      { assert (Hfull : Forall (fun x => id x <> 0) (live_slots s)) by (apply in_use_full; lia).
        by destruct (Forall_lookup_1 _ _ _ _ Hfull Hx). }
      rewrite arr_set_in by lia. sim_split. cbn.
      rewrite length_insert. split_and!; [done|done|].
      rewrite (in_use_insert id _ _ x) by done. by rewrite Hp, elements_union_singleton.
Qed.

Lemma untrack_slot_sim (slot : Z) : slot <> 0 -> msim dbg_sim (untrack_slot slot) (mon_give_slot slot).
Proof.
  intros H0 s m [Hu Hs Ho]. unfold untrack_slot, mon_give_slot, slots_rel in *.
  destruct (m_slots m) as [L|] eqn:HL; [|by rewrite Hs].
  destruct Hs as (-> & Hlen & Hp). case_bool_decide as Hin.
  - destruct (untrack_loop_hit id (live_slots s) slot (Z.to_nat slots_cap) 0)
      as (j & x & -> & Hj & Hx & <-); [lia|lia|by apply (slots_in _ L)|].
    cbn [res_bind]. rewrite arr_set_in by lia. sim_split. cbn. rewrite length_insert. split_and!; [done|done|].
    pose proof (in_use_clear id _ _ x 0 Hx H0 eq_refl) as Hc. rewrite Hp in Hc. unfold id in *.
    rewrite (union_difference_L {[x]} L) in Hc by set_solver.
    rewrite elements_union_singleton in Hc by set_solver. by apply Permutation_cons_inv in Hc.
  - by rewrite untrack_loop_miss; [|lia|lia|by eapply slots_miss].
Qed.

Lemma objs_in (l : list obj) (T : gmap Z (Z * Z)) (x : obj) :
  obj_entry <$> in_use o_cookie l ≡ₚ map_to_list T -> x ∈ l -> o_cookie x <> 0 ->
  T !! o_cookie x = Some (o_type x, o_size_bits x).
Proof.
  intros Hp Hx H0. apply elem_of_map_to_list. rewrite <- Hp.
  apply list_elem_of_fmap. exists x. split; [done|]. by apply list_elem_of_filter.
Qed.

Lemma objs_dom (l : list obj) (T : gmap Z (Z * Z)) (k : Z) (b : Z * Z) :
  obj_entry <$> in_use o_cookie l ≡ₚ map_to_list T -> T !! k = Some b ->
  exists x, x ∈ drop 0 l /\ o_cookie x = k.
Proof.
  intros Hp Hb. apply elem_of_map_to_list in Hb. rewrite <- Hp in Hb.
  apply list_elem_of_fmap in Hb as (x & Hx & Hin). apply list_elem_of_filter in Hin as [_ Hin].
  exists x. split; [done|]. by injection Hx.
Qed.

Lemma objs_miss (l : list obj) (T : gmap Z (Z * Z)) (k : Z) :
  obj_entry <$> in_use o_cookie l ≡ₚ map_to_list T -> k <> 0 -> T !! k = None ->
  Forall (fun x => o_cookie x <> k) l.
Proof.
  intros Hp Hk Hn. apply Forall_forall. intros x Hx <-. by rewrite (objs_in l T x) in Hn.
Qed.

Lemma track_obj_sim (t sz cookie : Z) : msim dbg_sim (track_obj t sz cookie) (mon_take_obj objs_cap t sz cookie).
Proof.
  intros s m [Hu Hs Ho]. unfold track_obj, mon_take_obj, objs_rel in *.
  destruct (m_objs m) as [T|] eqn:HT.
  2:{ rewrite Ho. split; [done|]. constructor; simpl; by rewrite ?HT. }
  destruct Ho as (Hsz & Hlen & Hp). rewrite Hsz, (proj2 (Z.eqb_neq objs_cap 0)) by lia.
  destruct (Z.eqb_spec cookie 0) as [->|H0]; [by rewrite bool_decide_eq_true_2 by auto|].
  destruct (T !! cookie) as [b|] eqn:Hin.
  - rewrite bool_decide_eq_true_2 by (right; by eapply elem_of_dom_2).
    rewrite track_loop_hit; [done|lia|lia|]. by eapply objs_dom.
  - rewrite bool_decide_eq_false_2 by (apply not_elem_of_dom in Hin; naive_solver).
    destruct (track_loop_free o_cookie (live_objs s) cookie (Z.to_nat objs_cap) 0 0)
      as (b & -> & Hb); [lia|lia|by eapply objs_miss|by constructor|lia|]. cbn [res_bind].
    assert (Hsize : length (in_use o_cookie (live_objs s)) = size T).
    { rewrite <- length_map_to_list, <- Hp. by rewrite length_fmap. }
    destruct Hb as [[-> Hfull]|[Hb (x & Hx & Hx0)]].
    + apply in_use_full in Hfull. rewrite Hlen, Z.eqb_refl, (proj2 (Z.eqb_eq _ _)) by lia. by sim_split.
    + rewrite (proj2 (Z.eqb_neq b objs_cap)) by lia.
      destruct (Z.eqb_spec (Z.of_nat (size T)) objs_cap) as [He|He].
      { assert (Hfull : Forall (fun x => o_cookie x <> 0) (live_objs s)) by (apply in_use_full; lia).
        by destruct (Forall_lookup_1 _ _ _ _ Hfull Hx). }
      rewrite arr_set_in by lia. sim_split. cbn.
      rewrite length_insert. split_and!; [done|done|].
      rewrite (in_use_insert o_cookie _ _ x) by done. by rewrite fmap_cons, Hp, map_to_list_insert.
Qed.

Lemma untrack_obj_sim (t sz cookie : Z) :
  cookie <> 0 -> msim dbg_sim (untrack_obj t sz cookie) (mon_give_obj t sz cookie).
Proof.
  intros H0 s m [Hu Hs Ho]. unfold untrack_obj, mon_give_obj, objs_rel in *.
  destruct (m_objs m) as [T|] eqn:HT; [|by rewrite Ho].
  destruct Ho as (-> & Hlen & Hp). destruct (T !! cookie) as [b|] eqn:Hin.
  - destruct (untrack_loop_hit o_cookie (live_objs s) cookie (Z.to_nat objs_cap) 0)
      as (j & x & -> & Hj & Hx & <-); [lia|lia|by eapply objs_dom|].
    cbn [res_bind]. pose proof (objs_in _ T x Hp ltac:(by eapply list_elem_of_lookup_2) H0) as HTx.
    rewrite HTx in Hin. injection Hin as <-.
    destruct (Z.eqb_spec (o_type x) t) as [<-|]; cbn [negb]; [|by rewrite bool_decide_eq_false_2 by naive_solver].
    destruct (Z.eqb_spec (o_size_bits x) sz) as [<-|]; cbn [negb]; [|by rewrite bool_decide_eq_false_2 by naive_solver].
    rewrite bool_decide_eq_true_2 by done. rewrite arr_set_in by lia. sim_split. cbn.
    rewrite length_insert. split_and!; [done|done|].
    pose proof (in_use_clear o_cookie _ _ x (Obj (o_type x) (o_size_bits x) 0) Hx H0 eq_refl) as Hc.
    apply (fmap_Permutation obj_entry) in Hc. rewrite Hp, fmap_cons in Hc.
    rewrite <- (map_to_list_delete T (o_cookie x) _ HTx) in Hc. by apply Permutation_cons_inv in Hc.
  - rewrite untrack_loop_miss; [|lia|lia|by eapply objs_miss].
    by rewrite bool_decide_eq_false_2 by congruence.
Qed.

Lemma call_sim {A} (f : option (M W A)) : msim dbg_sim (call_under f) (mon_call f).
Proof.
  intros s m [Hu Hs Ho]. unfold call_under, mon_call. destruct f as [c|]; [|done].
  rewrite Hu. destruct (c (m_under m)) as [[a w]|]; [by sim_split|done].
Qed.

#[local] Hint Resolve track_slot_sim untrack_slot_sim track_obj_sim untrack_obj_sim call_sim : sim.

Lemma run_op_sim (v : vka_t W) p q (op : vka_op) :
  msim dbg_sim (run_op (debug_vka v p) op) (run_op (monitor_vka v slots_cap objs_cap q) op).
Proof.
  destruct op; simpl; unfold mon_obj;
    repeat first
      [ apply msim_ret | apply call_sim | apply track_slot_sim | apply track_obj_sim
      | apply untrack_slot_sim; lia | apply untrack_obj_sim; lia
      | apply msim_bind; [|intros a; try destruct a]
      | case_match; try lia ].
Qed.

Lemma run_ops_sim (v : vka_t W) p q (ops : list vka_op) :
  msim dbg_sim (run_ops (debug_vka v p) ops) (run_ops (monitor_vka v slots_cap objs_cap q) ops).
Proof.
  induction ops as [|op ops IH]; simpl; [apply msim_ret|].
  apply msim_bind; [apply run_op_sim|]. intros a. apply msim_bind; [done|]. intros l. apply msim_ret.
Qed.

End simulation.

Lemma in_use_zero {A} (key : A -> Z) (l : list A) : Forall (fun x => key x = 0) l -> in_use key l = [].
Proof.
  intros H. unfold in_use. induction H as [|x l Hx _ IH]; [done|].
  by rewrite filter_cons_False by auto.
Qed.

Lemma init_debugvka_fields {W} `{!Malloc W} (slots_cap objs_cap : Z) garbage_slots garbage_objs (w : W) s :
  vka_init_debugvka slots_cap objs_cap garbage_slots garbage_objs w = Ok (inr s) ->
  exists a b, s = State (underlying s) (garbage_slots a) slots_cap (garbage_objs b) objs_cap.
Proof.
  unfold vka_init_debugvka. intros H.
  repeat first [progress inv_res | case_match]; try done; eauto.
Qed.

Lemma malloc_if {W} `{!Malloc W, !MallocLaws W} (b : bool) (n : Z) (w : W) :
  exists p w', (if b then malloc n w else Ok (0, w)) = Ok (p, w') /\
    ((b = true /\ p = 0 /\ live_blocks w' = live_blocks w) \/
     (b = true /\ p <> 0 /\ (p ∉ live_blocks w) /\ live_blocks w' = {[p]} ∪ live_blocks w) \/
     (b = false /\ p = 0 /\ w' = w)).
Proof.
  destruct b; [|eexists 0, w; naive_solver].
  destruct (malloc_law n w) as (p & w' & -> & H). exists p, w'. naive_solver.
Qed.

(** ** Properties *)

Section properties.
Context {W : Type} `{!Malloc W} (v : vka_t W) (slots_cap objs_cap : Z).
Context (garbage_slots : Z -> list Z) (garbage_objs : Z -> list obj).

(** What the tables say is live: the entries that are not zero. *)
Definition held_slots (s : state_t W) : gset Z := list_to_set (in_use id (live_slots s)).
Definition held_objs (s : state_t W) : gmap Z (Z * Z) := list_to_map (obj_entry <$> in_use o_cookie (live_objs s)).

Lemma obj_entry_cookies (l : list obj) : (obj_entry <$> l).*1 = o_cookie <$> l.
Proof. by rewrite <- list_fmap_compose. Qed.

Lemma held_sim (s : state_t W) : live_slots_sz s = slots_cap -> live_objs_sz s = objs_cap ->
  Z.of_nat (length (live_slots s)) = slots_cap -> Z.of_nat (length (live_objs s)) = objs_cap ->
  NoDup (in_use id (live_slots s)) -> NoDup (o_cookie <$> in_use o_cookie (live_objs s)) ->
  dbg_sim slots_cap objs_cap s (Mon (underlying s) (Some (held_slots s)) (Some (held_objs s))).
Proof.
  intros H1 H2 H3 H4 Hs Ho. constructor; simpl; [done| |]; split_and!; try done.
  - unfold held_slots. by rewrite elements_list_to_set.
  - unfold held_objs. rewrite map_to_list_to_map; [done|]. by rewrite obj_entry_cookies.
Qed.

Lemma held_nothing (s : state_t W) : Forall (fun x => x = 0) (live_slots s) -> Forall (fun x => o_cookie x = 0) (live_objs s) ->
  held_slots s = ∅ /\ held_objs s = ∅.
Proof. intros Hs Ho. unfold held_slots, held_objs. by rewrite !in_use_zero. Qed.

(** C25: the debugging allocator is the monitor, started with what its tables hold.
    The tables come from malloc and are not cleared, so this is whatever the memory
    held: the theorem asks only that no entry that is not zero is there twice, and
    where all are zero the monitor starts with nothing live.  The allocator then
    answers any sequence of calls as the underlying one does, up to the first call
    at which the underlying one hands out null or what is live, or the client frees
    what it does not hold or with another type or size; that call, and no earlier
    one, stops the program.  What is left over in the memory is live to it:
    [garbage_table_fatal] stops at the first allocation. *)
Theorem debug_vka_refines p q (ops : list vka_op) (w : W) (s : state_t W)
  (slots_cap_pos : 0 < slots_cap) (objs_cap_pos : 0 < objs_cap)
  (Hinit : vka_init_debugvka slots_cap objs_cap garbage_slots garbage_objs w = Ok (inr s))
  (slots_fit : Z.of_nat (length (live_slots s)) = slots_cap) (objs_fit : Z.of_nat (length (live_objs s)) = objs_cap)
  (slots_once : NoDup (in_use id (live_slots s))) (objs_once : NoDup (o_cookie <$> in_use o_cookie (live_objs s))) :
  res_sim (fun s m => underlying s = m_under m)
    (run_ops (debug_vka v p) ops s)
    (run_ops (monitor_vka v slots_cap objs_cap q) ops (Mon (underlying s) (Some (held_slots s)) (Some (held_objs s)))) /\
  (Forall (fun x => x = 0) (live_slots s) -> Forall (fun x => o_cookie x = 0) (live_objs s) ->
     held_slots s = ∅ /\ held_objs s = ∅).
Proof.
  split; [|apply held_nothing].
  assert (Hsz : live_slots_sz s = slots_cap /\ live_objs_sz s = objs_cap)
    by (by apply init_debugvka_fields in Hinit as (a & b & ->)).
  destruct Hsz as [Hs1 Hs2]. pose proof (held_sim s Hs1 Hs2 slots_fit objs_fit slots_once objs_once) as Hs.
  pose proof (run_ops_sim slots_cap objs_cap slots_cap_pos objs_cap_pos v p q ops _ _ Hs) as H.
  unfold res_sim in *. repeat case_match; try done. destruct H as [-> [H _ _]]. done.
Qed.

Local Ltac init_blocks :=
  split; [done|]; cbn [underlying live_slots_sz live_objs_sz]; split_and!; try done;
  [ rewrite ?NoDup_cons, ?elem_of_cons, ?elem_of_nil; repeat split; try apply NoDup_nil_2; set_solver
  | intros p; rewrite ?elem_of_cons, ?elem_of_nil; set_solver
  | simpl ].

(** Creation either succeeds, holding one block per non-empty table and
    one for the state, or returns -1 and has freed every block it took. *)
Theorem init_debugvka_no_leak `{!MallocLaws W} (w : W) :
  (exists w', vka_init_debugvka slots_cap objs_cap garbage_slots garbage_objs w = Ok (inl (-1, w')) /\
     live_blocks w' = live_blocks w) \/
  (exists s blocks, vka_init_debugvka slots_cap objs_cap garbage_slots garbage_objs w = Ok (inr s) /\
     NoDup blocks /\ Z.of_nat (length blocks) = 1 + b2z (slots_cap >? 0) + b2z (objs_cap >? 0) /\
     (forall p, p ∈ blocks -> (p ∉ live_blocks w)) /\
     live_blocks (underlying s) = list_to_set blocks ∪ live_blocks w /\
     live_slots_sz s = slots_cap /\ live_objs_sz s = objs_cap).
Proof.
  unfold vka_init_debugvka.
  destruct (malloc_law 40 w) as (a & w1 & -> & [[-> Hl1]|(Ha & Ha' & Hl1)]); cbn [res_bind]; [left; eauto|].
  rewrite (proj2 (Z.eqb_neq a 0)) by done.
  destruct (malloc_if (slots_cap >? 0) (8 ⊠ slots_cap) w1) as (b & w2 & -> & Hb); cbn [res_bind].
  rewrite Hl1 in Hb.
  destruct Hb as [(-> & -> & Hl2)|[(-> & Hb & Hb' & Hl2)|(-> & -> & ->)]]; cbn [andb Z.eqb b2z];
    [destruct (free_law a w2) as (w3 & -> & Hl3); [set_solver|]; left; eexists; split; [done|set_solver]| |].
  all: rewrite ?(proj2 (Z.eqb_neq b 0)) by done.
  all: match goal with |- context [malloc ?n ?u] => destruct (malloc_if (objs_cap >? 0) n u) as (c & w3 & -> & Hc) end;
    cbn [res_bind].
  all: rewrite ?Hl2, ?Hl1 in Hc.
  all: destruct Hc as [(-> & -> & Hl3)|[(-> & Hc & Hc' & Hl3)|(-> & -> & ->)]]; cbn [andb Z.eqb b2z negb res_bind].
  all: rewrite ?(proj2 (Z.eqb_neq c 0)) by done.
  - destruct (free_law b w3) as (w4 & -> & Hl4); [rewrite Hl3; set_solver|]. cbn [res_bind]. rewrite Hl3 in Hl4.
    destruct (free_law a w4) as (w5 & -> & Hl5); [rewrite Hl4; clear -Hb'; set_solver|].
    left. eexists. split; [done|]. rewrite Hl5, Hl4. clear -Ha' Hb'. set_solver.
  - right. eexists. exists [a; b; c]. init_blocks. rewrite Hl3. clear. set_solver.
  - right. eexists. exists [a; b]. init_blocks. rewrite Hl2. clear. set_solver.
  - destruct (free_law a w3) as (w4 & -> & Hl4); [rewrite Hl3; set_solver|].
    left. eexists. split; [done|]. rewrite Hl4, Hl3. clear -Ha'. set_solver.
  - right. eexists. exists [a; c]. init_blocks. rewrite Hl3. clear. set_solver.
  - right. eexists. exists [a]. init_blocks. rewrite Hl1. clear. set_solver.
Qed.

End properties.

(** Running out of room is fatal after all.  With the table of live
    slots full, the next allocation succeeds and tracking is switched off;
    from then on every attempt to free a slot, the legal ones included,
    stops the program. *)
Theorem full_table_free_fatal {W : Type} (v : vka_t W) (s : state_t W) (f : M W (Z * option Z)) (slot : Z) (w' : W)
  (Hf : cspace_alloc v = Some f) (Hret : f (underlying s) = Ok (0, Some slot, w')) (Hslot : slot <> 0)
  (Hlen : live_slots_sz s = Z.of_nat (length (live_slots s))) (Hpos : 0 < live_slots_sz s)
  (Hfull : Forall (fun x => x <> 0 /\ x <> slot) (live_slots s)) :
  exists s', debug_cspace_alloc v s = Ok (0, Some slot, s') /\
    live_slots_sz s' = 0 /\ live_slots s' = live_slots s /\
    forall x, x <> 0 -> debug_cspace_free v x s' = Fault Fatal.
Proof.
  unfold debug_cspace_alloc, call_under, bind, track_slot. rewrite Hf, Hret. cbn [res_bind Z.eqb from_option].
  cbn [live_slots_sz live_slots id]. rewrite (proj2 (Z.eqb_neq _ 0)), (proj2 (Z.eqb_neq slot 0)) by lia.
  destruct (track_loop_free id (live_slots s) slot (Z.to_nat (live_slots_sz s)) 0 0) as (b & -> & Hb);
    [lia|lia|apply (Forall_impl _ _ _ Hfull); naive_solver|constructor|lia|].
  destruct Hb as [[-> _]|(_ & x & Hx & H0)].
  2:{ destruct (Forall_lookup_1 _ _ _ _ Hfull Hx) as [Hne _]. done. }
  cbn [res_bind]. rewrite Hlen, Z.eqb_refl. cbn [res_bind ret].
  eexists. split_and!; [done|done|done|]. intros x Hx0. unfold debug_cspace_free, bind, untrack_slot.
  by rewrite (proj2 (Z.eqb_neq x 0)).
Qed.

(** ** Witnesses *)

Definition zero_memory (n : nat) (a : Z) : list Z := replicate n 0.
Definition zero_objects (n : nat) (a : Z) : list obj := replicate n (Obj 0 0 0).

(** The table of slots was last used for something else: it says that slot 9 is live. *)
Definition old_memory (a : Z) : list Z := [9; 0].

Definition debug_start : state_t ledger :=
  match vka_init_debugvka 2 1 old_memory (zero_objects 1) empty_ledger with
  | Ok (inr s) => s
  | _ => State empty_ledger [] 0 [] 0
  end.

(** A double free, which the last call is, and the rest of the run. *)
Definition double_free : list vka_op :=
  [OpCspaceAlloc; OpUtspaceAlloc (Cspacepath 1 64 2 0 0 1 1) 1 11; OpCspaceFree 1; OpCspaceFree 1].

Lemma debug_vka_refines_witness :
  vka_init_debugvka 2 1 old_memory (zero_objects 1) empty_ledger = Ok (inr debug_start) /\
  run_ops (debug_vka ledger_vka None) double_free debug_start = Fault Fatal /\
  res_sim (fun s m => underlying s = m_under m)
    (run_ops (debug_vka ledger_vka None) double_free debug_start)
    (run_ops (monitor_vka ledger_vka 2 1 None) double_free (Mon (underlying debug_start) (Some {[9]}) (Some ∅))).
Proof.
  split; [vm_compute; reflexivity|]. split; [vm_compute; reflexivity|].
  destruct (debug_vka_refines ledger_vka 2 1 old_memory (zero_objects 1) None None double_free empty_ledger debug_start)
    as [H _]; [lia|lia|vm_compute; reflexivity|reflexivity|reflexivity| | |].
  - change (NoDup [9]). apply NoDup_singleton.
  - change (NoDup (A := Z) []). apply NoDup_nil_2.
  - replace {[9]} with (held_slots debug_start) by (vm_compute; reflexivity).
    replace ∅ with (held_objs debug_start) by (vm_compute; reflexivity). exact H.
Defined.

Definition full_state : state_t ledger := State empty_ledger [5; 6] 2 [] 0.

Lemma full_table_free_fatal_witness :
  exists s', debug_cspace_alloc ledger_vka full_state = Ok (0, Some 1, s') /\
    live_slots_sz s' = 0 /\ live_slots s' = [5; 6] /\
    forall x, x <> 0 -> debug_cspace_free ledger_vka x s' = Fault Fatal.
Proof.
  refine (full_table_free_fatal ledger_vka full_state _ 1 _ eq_refl _ _ _ _ _).
  - vm_compute; reflexivity.
  - lia.
  - reflexivity.
  - simpl; lia.
  - repeat constructor; lia.
Defined.

Lemma init_debugvka_no_leak_witness :
  (exists w', vka_init_debugvka 2 1 (zero_memory 2) (zero_objects 1) (ToyHeap 2 {[9]}) = Ok (inl (-1, w')) /\
     live_blocks w' = live_blocks (ToyHeap 2 {[9]})) \/
  (exists s blocks, vka_init_debugvka 2 1 (zero_memory 2) (zero_objects 1) (ToyHeap 2 {[9]}) = Ok (inr s) /\
     NoDup blocks /\ Z.of_nat (length blocks) = 1 + b2z (2 >? 0) + b2z (1 >? 0) /\
     (forall p, p ∈ blocks -> (p ∉ live_blocks (ToyHeap 2 {[9]}))) /\
     live_blocks (underlying s) = list_to_set blocks ∪ live_blocks (ToyHeap 2 {[9]}) /\
     live_slots_sz s = 2 /\ live_objs_sz s = 1).
Proof. apply (init_debugvka_no_leak 2 1 (zero_memory 2) (zero_objects 1) (ToyHeap 2 {[9]})). Defined.

(** Memory that is not zero: the fresh table already holds slot 1, so the
    first allocation looks like a double one. *)
Example garbage_table_fatal :
  match vka_init_debugvka 2 1 (fun _ => [1; 0]) (zero_objects 1) empty_ledger with
  | Ok (inr s) => debug_cspace_alloc ledger_vka s = Fault Fatal
  | _ => False
  end.
Proof. vm_compute. reflexivity. Qed.
