(* ===== verification/Allocman.v ===== *)
(** libsel4allocman/include/allocman/allocman.h and src/allocman.c: the
    allocation manager, which gives the allocators of memory, slots and
    untypeds access to each other.  An allocator may call back into the
    manager while it runs; the manager refuses a call that would re-enter an
    allocator that does not allow it, serving it from a reserve (the
    watermark) or, for a free, putting it in a queue.

    An allocator's function is a program ([prog]) that reads and writes the
    allocators' own state [W] and calls the manager; it cannot touch the
    manager's structure in another way.  Since the manager runs the
    allocators and they call the manager, every operation of the manager is
    defined from the operations one level of calls below ([calls]), and
    [manager n] allows [n] levels. *)
From S2P Require Import Prelude Cspacepath Interfaces.

Record allocman_properties : Type := Properties {
  alloc_can_free : bool;
  free_can_alloc : bool;
  alloc_can_alloc : bool;
  free_can_free : bool
}.

Definition ALLOCMAN_DEFAULT_PROPERTIES : allocman_properties := Properties false false false false.

(** A program of an allocator.  [Crash] is a fault of the allocator itself. *)
Inductive prog (W A : Type) : Type :=
  | Return (a : A)
  | Crash (f : fault)
  | Read (k : W -> prog W A)
  | Write (w : W) (k : prog W A)
  | MspaceAlloc (bytes : Z) (k : Z * Z -> prog W A)
  | MspaceFree (ptr bytes : Z) (k : prog W A)
  | CspaceAlloc (k : Z * option cspacepath_t -> prog W A)
  | CspaceFree (path : cspacepath_t) (k : prog W A)
  | UtspaceAlloc (size_bits type : Z) (path : cspacepath_t) (paddr : Z) (canBeDev : bool) (k : Z * Z -> prog W A)
  | UtspaceFree (cookie size_bits : Z) (k : prog W A).
Arguments Return {W A} _.
Arguments Crash {W A} _.
Arguments Read {W A} _.
Arguments Write {W A} _ _.
Arguments MspaceAlloc {W A} _ _.
Arguments MspaceFree {W A} _ _ _.
Arguments CspaceAlloc {W A} _.
Arguments CspaceFree {W A} _ _.
Arguments UtspaceAlloc {W A} _ _ _ _ _ _.
Arguments UtspaceFree {W A} _ _ _.

(** The interfaces.  Results come with the error code: [alloc] of memory and
    untypeds returns the pointer or cookie and the error, [alloc] of slots
    the error and the slot written. *)
Record mspace_interface (W : Type) : Type := MspaceInterface {
  m_alloc : Z -> prog W (Z * Z);
  m_free : Z -> Z -> prog W unit;
  m_properties : allocman_properties
}.
Record cspace_interface (W : Type) : Type := CspaceInterface {
  c_alloc : prog W (Z * option cspacepath_t);
  c_free : cspacepath_t -> prog W unit;
  c_make_path : Z -> prog W cspacepath_t;
  c_properties : allocman_properties
}.
Record utspace_interface (W : Type) : Type := UtspaceInterface {
  u_alloc : Z -> Z -> cspacepath_t -> Z -> bool -> prog W (Z * Z);
  u_free : Z -> Z -> prog W unit;
  u_add_uts : list (cspacepath_t * Z * Z) -> Z -> prog W Z;
  u_paddr : Z -> Z -> prog W Z;
  u_properties : allocman_properties
}.
Arguments MspaceInterface {W} _ _ _.
Arguments m_alloc {W} _ _.
Arguments m_free {W} _ _ _.
Arguments m_properties {W} _.
Arguments CspaceInterface {W} _ _ _ _.
Arguments c_alloc {W} _.
Arguments c_free {W} _ _.
Arguments c_make_path {W} _ _.
Arguments c_properties {W} _.
Arguments UtspaceInterface {W} _ _ _ _ _.
Arguments u_alloc {W} _ _ _ _ _ _.
Arguments u_free {W} _ _ _.
Arguments u_add_uts {W} _ _ _.
Arguments u_paddr {W} _ _ _.
Arguments u_properties {W} _.

(** An interface that [memset] zeroed: its function pointers are null. *)
Definition null_mspace {W} : mspace_interface W :=
  MspaceInterface (fun _ => Crash NullPointer) (fun _ _ => Crash NullPointer) ALLOCMAN_DEFAULT_PROPERTIES.
Definition null_cspace {W} : cspace_interface W :=
  CspaceInterface (Crash NullPointer) (fun _ => Crash NullPointer) (fun _ => Crash NullPointer)
    ALLOCMAN_DEFAULT_PROPERTIES.
Definition null_utspace {W} : utspace_interface W :=
  UtspaceInterface (fun _ _ _ _ _ => Crash NullPointer) (fun _ _ => Crash NullPointer)
    (fun _ _ => Crash NullPointer) (fun _ _ => Crash NullPointer) ALLOCMAN_DEFAULT_PROPERTIES.

Record allocman_mspace_chunk : Type := MspaceChunk { mc_size : Z; mc_count : Z }.
Record allocman_utspace_chunk : Type := UtspaceChunk { uc_size_bits : Z; uc_type : Z; uc_count : Z }.
Record allocman_utspace_allocation : Type := UtspaceAllocation { ua_cookie : Z; ua_slot : cspacepath_t }.
Record allocman_freed_mspace_chunk : Type := FreedMspace { fm_ptr : Z; fm_size : Z }.
Record allocman_freed_utspace_chunk : Type := FreedUtspace { fu_size_bits : Z; fu_cookie : Z }.

(** An array with its size and the number of elements in use: the fields
    [desired_x], [num_x] and [x] for x = [freed_slots],
    [freed_mspace_chunks], [freed_utspace_chunks] and [cspace_slots], the
    three pointers that [resize_array] gets. *)
Record vec (A : Type) : Type := Vec { v_size : Z; v_count : Z; v_ptr : Z; v_array : list A }.
Arguments Vec {A} _ _ _ _.
Arguments v_size {A} _.
Arguments v_count {A} _.
Arguments v_ptr {A} _.
Arguments v_array {A} _.

(** A reserve: the fields [num_x_chunks], [x_chunk], [x_chunk_count] and
    [x_chunks] for x = [mspace] and [utspace], with the addresses of the three
    arrays. *)
Record reserve (C E : Type) : Type := Reserve {
  r_num : Z;
  r_chunk_ptr : Z; r_chunk : list C;
  r_counts_ptr : Z; r_counts : list Z;
  r_chunks_ptr : Z; r_chunks : list (list E)
}.
Arguments Reserve {C E} _ _ _ _ _ _ _.
Arguments r_num {C E} _.
Arguments r_chunk_ptr {C E} _.
Arguments r_chunk {C E} _.
Arguments r_counts_ptr {C E} _.
Arguments r_counts {C E} _.
Arguments r_chunks_ptr {C E} _.
Arguments r_chunks {C E} _.

(** The depth counters, for cspace, utspace and mspace. *)
Record depths : Type := Depths {
  cspace_alloc_depth : Z; cspace_free_depth : Z;
  utspace_alloc_depth : Z; utspace_free_depth : Z;
  mspace_alloc_depth : Z; mspace_free_depth : Z
}.

Record allocman_t (W : Type) : Type := Allocman {
  have_mspace : bool; mspace : mspace_interface W;
  have_cspace : bool; cspace : cspace_interface W;
  have_utspace : bool; utspace : utspace_interface W;
  in_operation : bool;
  depth : depths;
  refilling_watermark : bool;
  used_watermark : bool;
  freed_slots : vec cspacepath_t;
  freed_mspace_chunks : vec allocman_freed_mspace_chunk;
  freed_utspace_chunks : vec allocman_freed_utspace_chunk;
  cspace_slots : vec cspacepath_t;
  mspace_reserve : reserve allocman_mspace_chunk Z;
  utspace_reserve : reserve allocman_utspace_chunk allocman_utspace_allocation
}.
Arguments Allocman {W} _ _ _ _ _ _ _ _ _ _ _ _ _ _ _ _.
Arguments have_mspace {W} _.
Arguments mspace {W} _.
Arguments have_cspace {W} _.
Arguments cspace {W} _.
Arguments have_utspace {W} _.
Arguments utspace {W} _.
Arguments in_operation {W} _.
Arguments depth {W} _.
Arguments refilling_watermark {W} _.
Arguments used_watermark {W} _.
Arguments freed_slots {W} _.
Arguments freed_mspace_chunks {W} _.
Arguments freed_utspace_chunks {W} _.
Arguments cspace_slots {W} _.
Arguments mspace_reserve {W} _.
Arguments utspace_reserve {W} _.

(** The whole memory: the manager's structure and the allocators' state. *)
Record sys (W : Type) : Type := Sys { am : allocman_t W; world : W }.
Arguments Sys {W} _ _.
Arguments am {W} _.
Arguments world {W} _.

(** Assignments to one field. *)
Section setters.
Context {W : Type}.
Definition set_have_mspace (x : bool) (a : allocman_t W) : allocman_t W :=
  Allocman x (mspace a) (have_cspace a) (cspace a) (have_utspace a) (utspace a) (in_operation a) (depth a) (refilling_watermark a) (used_watermark a) (freed_slots a) (freed_mspace_chunks a) (freed_utspace_chunks a) (cspace_slots a) (mspace_reserve a) (utspace_reserve a).
Definition set_mspace (x : mspace_interface W) (a : allocman_t W) : allocman_t W :=
  Allocman (have_mspace a) x (have_cspace a) (cspace a) (have_utspace a) (utspace a) (in_operation a) (depth a) (refilling_watermark a) (used_watermark a) (freed_slots a) (freed_mspace_chunks a) (freed_utspace_chunks a) (cspace_slots a) (mspace_reserve a) (utspace_reserve a).
Definition set_have_cspace (x : bool) (a : allocman_t W) : allocman_t W :=
  Allocman (have_mspace a) (mspace a) x (cspace a) (have_utspace a) (utspace a) (in_operation a) (depth a) (refilling_watermark a) (used_watermark a) (freed_slots a) (freed_mspace_chunks a) (freed_utspace_chunks a) (cspace_slots a) (mspace_reserve a) (utspace_reserve a).
Definition set_cspace (x : cspace_interface W) (a : allocman_t W) : allocman_t W :=
  Allocman (have_mspace a) (mspace a) (have_cspace a) x (have_utspace a) (utspace a) (in_operation a) (depth a) (refilling_watermark a) (used_watermark a) (freed_slots a) (freed_mspace_chunks a) (freed_utspace_chunks a) (cspace_slots a) (mspace_reserve a) (utspace_reserve a).
Definition set_have_utspace (x : bool) (a : allocman_t W) : allocman_t W :=
  Allocman (have_mspace a) (mspace a) (have_cspace a) (cspace a) x (utspace a) (in_operation a) (depth a) (refilling_watermark a) (used_watermark a) (freed_slots a) (freed_mspace_chunks a) (freed_utspace_chunks a) (cspace_slots a) (mspace_reserve a) (utspace_reserve a).
Definition set_utspace (x : utspace_interface W) (a : allocman_t W) : allocman_t W :=
  Allocman (have_mspace a) (mspace a) (have_cspace a) (cspace a) (have_utspace a) x (in_operation a) (depth a) (refilling_watermark a) (used_watermark a) (freed_slots a) (freed_mspace_chunks a) (freed_utspace_chunks a) (cspace_slots a) (mspace_reserve a) (utspace_reserve a).
Definition set_in_operation (x : bool) (a : allocman_t W) : allocman_t W :=
  Allocman (have_mspace a) (mspace a) (have_cspace a) (cspace a) (have_utspace a) (utspace a) x (depth a) (refilling_watermark a) (used_watermark a) (freed_slots a) (freed_mspace_chunks a) (freed_utspace_chunks a) (cspace_slots a) (mspace_reserve a) (utspace_reserve a).
Definition set_depth (x : depths) (a : allocman_t W) : allocman_t W :=
  Allocman (have_mspace a) (mspace a) (have_cspace a) (cspace a) (have_utspace a) (utspace a) (in_operation a) x (refilling_watermark a) (used_watermark a) (freed_slots a) (freed_mspace_chunks a) (freed_utspace_chunks a) (cspace_slots a) (mspace_reserve a) (utspace_reserve a).
Definition set_refilling_watermark (x : bool) (a : allocman_t W) : allocman_t W :=
  Allocman (have_mspace a) (mspace a) (have_cspace a) (cspace a) (have_utspace a) (utspace a) (in_operation a) (depth a) x (used_watermark a) (freed_slots a) (freed_mspace_chunks a) (freed_utspace_chunks a) (cspace_slots a) (mspace_reserve a) (utspace_reserve a).
Definition set_used_watermark (x : bool) (a : allocman_t W) : allocman_t W :=
  Allocman (have_mspace a) (mspace a) (have_cspace a) (cspace a) (have_utspace a) (utspace a) (in_operation a) (depth a) (refilling_watermark a) x (freed_slots a) (freed_mspace_chunks a) (freed_utspace_chunks a) (cspace_slots a) (mspace_reserve a) (utspace_reserve a).
Definition set_freed_slots (x : vec cspacepath_t) (a : allocman_t W) : allocman_t W :=
  Allocman (have_mspace a) (mspace a) (have_cspace a) (cspace a) (have_utspace a) (utspace a) (in_operation a) (depth a) (refilling_watermark a) (used_watermark a) x (freed_mspace_chunks a) (freed_utspace_chunks a) (cspace_slots a) (mspace_reserve a) (utspace_reserve a).
Definition set_freed_mspace_chunks (x : vec allocman_freed_mspace_chunk) (a : allocman_t W) : allocman_t W :=
  Allocman (have_mspace a) (mspace a) (have_cspace a) (cspace a) (have_utspace a) (utspace a) (in_operation a) (depth a) (refilling_watermark a) (used_watermark a) (freed_slots a) x (freed_utspace_chunks a) (cspace_slots a) (mspace_reserve a) (utspace_reserve a).
Definition set_freed_utspace_chunks (x : vec allocman_freed_utspace_chunk) (a : allocman_t W) : allocman_t W :=
  Allocman (have_mspace a) (mspace a) (have_cspace a) (cspace a) (have_utspace a) (utspace a) (in_operation a) (depth a) (refilling_watermark a) (used_watermark a) (freed_slots a) (freed_mspace_chunks a) x (cspace_slots a) (mspace_reserve a) (utspace_reserve a).
Definition set_cspace_slots (x : vec cspacepath_t) (a : allocman_t W) : allocman_t W :=
  Allocman (have_mspace a) (mspace a) (have_cspace a) (cspace a) (have_utspace a) (utspace a) (in_operation a) (depth a) (refilling_watermark a) (used_watermark a) (freed_slots a) (freed_mspace_chunks a) (freed_utspace_chunks a) x (mspace_reserve a) (utspace_reserve a).
Definition set_mspace_reserve (x : reserve allocman_mspace_chunk Z) (a : allocman_t W) : allocman_t W :=
  Allocman (have_mspace a) (mspace a) (have_cspace a) (cspace a) (have_utspace a) (utspace a) (in_operation a) (depth a) (refilling_watermark a) (used_watermark a) (freed_slots a) (freed_mspace_chunks a) (freed_utspace_chunks a) (cspace_slots a) x (utspace_reserve a).
Definition set_utspace_reserve (x : reserve allocman_utspace_chunk allocman_utspace_allocation) (a : allocman_t W) : allocman_t W :=
  Allocman (have_mspace a) (mspace a) (have_cspace a) (cspace a) (have_utspace a) (utspace a) (in_operation a) (depth a) (refilling_watermark a) (used_watermark a) (freed_slots a) (freed_mspace_chunks a) (freed_utspace_chunks a) (cspace_slots a) (mspace_reserve a) x.

Definition on_am (f : allocman_t W -> allocman_t W) : M (sys W) unit :=
  modify (fun s => Sys (f (am s)) (world s)).
Definition get_am {A} (f : allocman_t W -> A) : M (sys W) A := gets (fun s => f (am s)).
End setters.

Definition add_cspace_alloc_depth (n : Z) (d : depths) : depths :=
  Depths (cspace_alloc_depth d ⊞ n) (cspace_free_depth d) (utspace_alloc_depth d) (utspace_free_depth d)
         (mspace_alloc_depth d) (mspace_free_depth d).
Definition add_cspace_free_depth (n : Z) (d : depths) : depths :=
  Depths (cspace_alloc_depth d) (cspace_free_depth d ⊞ n) (utspace_alloc_depth d) (utspace_free_depth d)
         (mspace_alloc_depth d) (mspace_free_depth d).
Definition add_utspace_alloc_depth (n : Z) (d : depths) : depths :=
  Depths (cspace_alloc_depth d) (cspace_free_depth d) (utspace_alloc_depth d ⊞ n) (utspace_free_depth d)
         (mspace_alloc_depth d) (mspace_free_depth d).
Definition add_utspace_free_depth (n : Z) (d : depths) : depths :=
  Depths (cspace_alloc_depth d) (cspace_free_depth d) (utspace_alloc_depth d) (utspace_free_depth d ⊞ n)
         (mspace_alloc_depth d) (mspace_free_depth d).
Definition add_mspace_alloc_depth (n : Z) (d : depths) : depths :=
  Depths (cspace_alloc_depth d) (cspace_free_depth d) (utspace_alloc_depth d) (utspace_free_depth d)
         (mspace_alloc_depth d ⊞ n) (mspace_free_depth d).
Definition add_mspace_free_depth (n : Z) (d : depths) : depths :=
  Depths (cspace_alloc_depth d) (cspace_free_depth d) (utspace_alloc_depth d) (utspace_free_depth d)
         (mspace_alloc_depth d) (mspace_free_depth d ⊞ n).

Definition _can_alloc (properties : allocman_properties) (alloc_depth free_depth : Z) : bool :=
  let in_alloc := alloc_depth >? 0 in
  let in_free := free_depth >? 0 in
  (alloc_can_alloc properties || negb in_alloc) && (free_can_alloc properties || negb in_free).

Definition _can_free (properties : allocman_properties) (alloc_depth free_depth : Z) : bool :=
  let in_alloc := alloc_depth >? 0 in
  let in_free := free_depth >? 0 in
  (alloc_can_free properties || negb in_alloc) && (free_can_free properties || negb in_free).

(** ** One level of calls *)

Record calls (W : Type) : Type := Calls {
  call_mspace_alloc : Z -> bool -> M (sys W) (Z * Z);
  call_cspace_alloc : bool -> M (sys W) (Z * option cspacepath_t);
  call_utspace_alloc : Z -> Z -> cspacepath_t -> Z -> bool -> bool -> M (sys W) (Z * Z);
  call_mspace_free : Z -> Z -> M (sys W) unit;
  call_cspace_free : cspacepath_t -> M (sys W) unit;
  call_utspace_free : Z -> Z -> M (sys W) unit
}.
Arguments Calls {W} _ _ _ _ _ _.
Arguments call_mspace_alloc {W} _ _ _.
Arguments call_cspace_alloc {W} _ _.
Arguments call_utspace_alloc {W} _ _ _ _ _ _ _.
Arguments call_mspace_free {W} _ _ _.
Arguments call_cspace_free {W} _ _.
Arguments call_utspace_free {W} _ _ _.

(** What an uninitialised path is taken to be. *)
Definition no_path : cspacepath_t := Cspacepath 0 0 0 0 0 0 0.

Definition set_count {A} (v : vec A) (n : Z) : vec A := Vec (v_size v) n (v_ptr v) (v_array v).
Definition set_array {A} (v : vec A) (l : list A) : vec A := Vec (v_size v) (v_count v) (v_ptr v) l.

(** [v[num++] = x] and [v[--num]]. *)
Definition vec_push {A} (v : vec A) (x : A) : res (vec A) :=
  let? l := arr_set (v_array v) (v_count v) x in Ok (set_count (set_array v l) (v_count v ⊞ 1)).
Definition vec_pop {A} (v : vec A) : res (A * vec A) :=
  let? x := arr_get (v_array v) (v_count v ⊟ 1) in Ok (x, set_count v (v_count v ⊟ 1)).

(** The same on the array [i] of a reserve. *)
Definition reserve_push {C E} (r : reserve C E) (i : Z) (x : E) : res (reserve C E) :=
  let? l := arr_get (r_chunks r) i in
  let? c := arr_get (r_counts r) i in
  let? l := arr_set l c x in
  let? ls := arr_set (r_chunks r) i l in
  let? cs := arr_set (r_counts r) i (c ⊞ 1) in
  Ok (Reserve (r_num r) (r_chunk_ptr r) (r_chunk r) (r_counts_ptr r) cs (r_chunks_ptr r) ls).
Definition reserve_top {C E} (r : reserve C E) (i : Z) : res E :=
  let? l := arr_get (r_chunks r) i in
  let? c := arr_get (r_counts r) i in arr_get l (c ⊟ 1).
Definition reserve_drop {C E} (r : reserve C E) (i : Z) : res (reserve C E) :=
  let? c := arr_get (r_counts r) i in
  let? cs := arr_set (r_counts r) i (c ⊟ 1) in
  Ok (Reserve (r_num r) (r_chunk_ptr r) (r_chunk r) (r_counts_ptr r) cs (r_chunks_ptr r) (r_chunks r)).

Section manager.
Context {W : Type}.

(** [seL4_CNode_Move], by [vka_cnode_move]: destination, then source. *)
Context (vka_cnode_move : cspacepath_t -> cspacepath_t -> M W Z).

(** The iterations allowed to the [while] loops of [_refill_watermark]. *)
Context (loops : nat).

Section level.
Context (self : calls W).

(** Running a program of an allocator. *)
Fixpoint run {A} (p : prog W A) : M (sys W) A :=
  match p with
  | Return a => ret a
  | Crash f => stop f
  | Read k => fun s => run (k (world s)) s
  | Write w k => fun s => run k (Sys (am s) w)
  | MspaceAlloc n k => let! r := call_mspace_alloc self n true in run (k r)
  | MspaceFree p n k => let! _ := call_mspace_free self p n in run k
  | CspaceAlloc k => let! r := call_cspace_alloc self true in run (k r)
  | CspaceFree p k => let! _ := call_cspace_free self p in run k
  | UtspaceAlloc sz t p pa d k => let! r := call_utspace_alloc self sz t p pa d true in run (k r)
  | UtspaceFree c sz k => let! _ := call_utspace_free self c sz in run k
  end.

Definition _start_operation : M (sys W) bool :=
  let! busy := get_am in_operation in
  let! _ := on_am (set_in_operation true) in
  ret (negb busy).

(** A [while] loop of [_refill_watermark]: it frees what is in a queue, the
    last first, and returns [did_allocation]. *)
Fixpoint drain {A} (getv : allocman_t W -> vec A) (setv : vec A -> allocman_t W -> allocman_t W)
    (free : A -> M (sys W) unit) (fuel : nat) (did : bool) : M (sys W) bool :=
  match fuel with
  | O => stop OutOfFuel
  | S fuel =>
    let! v := get_am getv in
    if v_count v >? 0 then
      let! (x, v) := lift (vec_pop v) in
      let! _ := on_am (setv v) in
      let! _ := free x in
      drain getv setv free fuel true
    else ret did
  end.

Definition drain_slots : nat -> bool -> M (sys W) bool :=
  drain freed_slots set_freed_slots (fun slot => call_cspace_free self slot).
Definition drain_mspace : nat -> bool -> M (sys W) bool :=
  drain freed_mspace_chunks set_freed_mspace_chunks
    (fun chunk => call_mspace_free self (fm_ptr chunk) (fm_size chunk)).
Definition drain_utspace : nat -> bool -> M (sys W) bool :=
  drain freed_utspace_chunks set_freed_utspace_chunks
    (fun chunk => call_utspace_free self (fu_cookie chunk) (fu_size_bits chunk)).

(** One slot for the reserve; [found_empty_pool] and [did_allocation]. *)
Definition refill_cspace (did : bool) : M (sys W) (bool * bool) :=
  let! v := get_am cspace_slots in
  if v_count v <? v_size v then
    let! (error, slot) := call_cspace_alloc self false in
    if error =? 0 then
      let! v := get_am cspace_slots in
      let! v := lift (vec_push v (default no_path slot)) in
      let! _ := on_am (set_cspace_slots v) in
      ret (true, true)
    else ret (true, did)
  else ret (false, did).

(** The [for] loops over the [n] chunks from [i]. *)
Fixpoint refill_utspace (n : nat) (i : Z) (found did : bool) : M (sys W) (bool * bool) :=
  match n with
  | O => ret (found, did)
  | S n =>
    let! r := get_am utspace_reserve in
    let! c := lift (arr_get (r_counts r) i) in
    let! chunk := lift (arr_get (r_chunk r) i) in
    if c <? uc_count chunk then
      let! (error, slot) := call_cspace_alloc self true in
      if error =? 0 then
        let slot := default no_path slot in
        let! (cookie, error) :=
          call_utspace_alloc self (uc_size_bits chunk) (uc_type chunk) slot ALLOCMAN_NO_PADDR false false in
        if error =? 0 then
          let! r := get_am utspace_reserve in
          let! r := lift (reserve_push r i (UtspaceAllocation cookie slot)) in
          let! _ := on_am (set_utspace_reserve r) in
          refill_utspace n (i + 1) true true
        else
          let! _ := call_cspace_free self slot in
          refill_utspace n (i + 1) true did
      else refill_utspace n (i + 1) true did
    else refill_utspace n (i + 1) found did
  end.

Fixpoint refill_mspace (n : nat) (i : Z) (found did : bool) : M (sys W) (bool * bool) :=
  match n with
  | O => ret (found, did)
  | S n =>
    let! r := get_am mspace_reserve in
    let! c := lift (arr_get (r_counts r) i) in
    let! chunk := lift (arr_get (r_chunk r) i) in
    if c <? mc_count chunk then
      let! (result, error) := call_mspace_alloc self (mc_size chunk) false in
      if error =? 0 then
        let! r := get_am mspace_reserve in
        let! r := lift (reserve_push r i result) in
        let! _ := on_am (set_mspace_reserve r) in
        refill_mspace n (i + 1) true true
      else refill_mspace n (i + 1) true did
    else refill_mspace n (i + 1) found did
  end.

(** One round of the [do] loop. *)
Definition refill_round : M (sys W) (bool * bool) :=
  let! did := drain_slots loops false in
  let! did := drain_mspace loops did in
  let! did := drain_utspace loops did in
  let! (found, did) := refill_cspace did in
  let! n := get_am (fun a => r_num (utspace_reserve a)) in
  let! (found, did) := refill_utspace (Z.to_nat n) 0 found did in
  let! n := get_am (fun a => r_num (mspace_reserve a)) in
  refill_mspace (Z.to_nat n) 0 found did.

(** The [do] loop, with [more] more rounds allowed after this one. *)
Fixpoint refill_loop (more : nat) : M (sys W) bool :=
  let! (found, did) := refill_round in
  match more with
  | O => ret found
  | S more => if found && did then refill_loop more else ret found
  end.

Definition _refill_watermark : M (sys W) Z :=
  let! refilling := get_am refilling_watermark in
  let! used := get_am used_watermark in
  if refilling || negb used then ret 0
  else
    let! _ := on_am (set_refilling_watermark true) in
    let! found_empty_pool := refill_loop 3 in
    let! _ := on_am (set_refilling_watermark false) in
    let! _ := (if found_empty_pool then ret tt else on_am (set_used_watermark false)) in
    ret (b2z found_empty_pool).

Definition _end_operation (root : bool) : M (sys W) unit :=
  let! _ := on_am (set_in_operation (negb root)) in
  if root then let! _ := _refill_watermark in ret tt else ret tt.

(** ** Frees *)

Definition allocman_mspace_queue_for_free (ptr bytes : Z) : M (sys W) unit :=
  let! v := get_am freed_mspace_chunks in
  if v_count v =? v_size v then stop AssertFailed
  else let! v := lift (vec_push v (FreedMspace ptr bytes)) in on_am (set_freed_mspace_chunks v).

Definition allocman_cspace_queue_for_free (path : cspacepath_t) : M (sys W) unit :=
  let! v := get_am freed_slots in
  if v_count v =? v_size v then stop AssertFailed
  else let! v := lift (vec_push v path) in on_am (set_freed_slots v).

Definition allocman_utspace_queue_for_free (cookie size_bits : Z) : M (sys W) unit :=
  let! v := get_am freed_utspace_chunks in
  if v_count v =? v_size v then stop AssertFailed
  else let! v := lift (vec_push v (FreedUtspace size_bits cookie)) in on_am (set_freed_utspace_chunks v).

Definition allocman_cspace_free (slot : cspacepath_t) : M (sys W) unit :=
  let! a := get_am id in
  let! _ := cassert (have_cspace a) in
  if negb (_can_free (c_properties (cspace a)) (cspace_alloc_depth (depth a)) (cspace_free_depth (depth a)))
  then allocman_cspace_queue_for_free slot
  else
    let! root := _start_operation in
    let! _ := on_am (fun a => set_depth (add_cspace_free_depth 1 (depth a)) a) in
    let! _ := run (c_free (cspace a) slot) in
    let! _ := on_am (fun a => set_depth (add_cspace_free_depth (-1) (depth a)) a) in
    _end_operation root.

Definition allocman_mspace_free (ptr bytes : Z) : M (sys W) unit :=
  let! a := get_am id in
  let! _ := cassert (have_mspace a) in
  if negb (_can_free (m_properties (mspace a)) (mspace_alloc_depth (depth a)) (mspace_free_depth (depth a)))
  then allocman_mspace_queue_for_free ptr bytes
  else
    let! root := _start_operation in
    let! _ := on_am (fun a => set_depth (add_mspace_free_depth 1 (depth a)) a) in
    let! _ := run (m_free (mspace a) ptr bytes) in
    let! _ := on_am (fun a => set_depth (add_mspace_free_depth (-1) (depth a)) a) in
    _end_operation root.

Definition allocman_utspace_free (cookie size_bits : Z) : M (sys W) unit :=
  let! a := get_am id in
  let! _ := cassert (have_utspace a) in
  if negb (_can_free (u_properties (utspace a)) (utspace_alloc_depth (depth a)) (utspace_free_depth (depth a)))
  then allocman_utspace_queue_for_free cookie size_bits
  else
    let! root := _start_operation in
    let! _ := on_am (fun a => set_depth (add_utspace_free_depth 1 (depth a)) a) in
    let! _ := run (u_free (utspace a) cookie size_bits) in
    let! _ := on_am (fun a => set_depth (add_utspace_free_depth (-1) (depth a)) a) in
    _end_operation root.

(** ** Allocations *)

(** The loop of [_try_watermark_mspace] over the [n] chunks from [i]. *)
Fixpoint try_mspace_loop (n : nat) (i size : Z) : M (sys W) (Z * Z) :=
  match n with
  | O => ret (0, 1)
  | S n =>
    let! r := get_am mspace_reserve in
    let! chunk := lift (arr_get (r_chunk r) i) in
    let! c := lift (arr_get (r_counts r) i) in
    if (mc_size chunk =? size) && (c >? 0) then
      let! p := lift (reserve_top r i) in
      let! r := lift (reserve_drop r i) in
      let! _ := on_am (set_mspace_reserve r) in
      let! _ := on_am (set_used_watermark true) in
      ret (p, 0)
    else try_mspace_loop n (i + 1) size
  end.

Definition _try_watermark_mspace (size : Z) : M (sys W) (Z * Z) :=
  let! n := get_am (fun a => r_num (mspace_reserve a)) in
  try_mspace_loop (Z.to_nat n) 0 size.

Definition _try_watermark_cspace : M (sys W) (Z * option cspacepath_t) :=
  let! v := get_am cspace_slots in
  if v_count v =? 0 then ret (1, None)
  else
    let! _ := on_am (set_used_watermark true) in
    let! (slot, v) := lift (vec_pop v) in
    let! _ := on_am (set_cspace_slots v) in
    ret (0, Some slot).

(** A system call, on the rest of the system. *)
Definition on_world {A} (m : M W A) : M (sys W) A := fun s =>
  let? (a, w) := m (world s) in Ok (a, Sys (am s) w).

Fixpoint try_utspace_loop (n : nat) (i size_bits type : Z) (path : cspacepath_t) : M (sys W) (Z * Z) :=
  match n with
  | O => ret (0, 1)
  | S n =>
    let! r := get_am utspace_reserve in
    let! chunk := lift (arr_get (r_chunk r) i) in
    let! c := lift (arr_get (r_counts r) i) in
    if (uc_size_bits chunk =? size_bits) && (uc_type chunk =? type) && (c >? 0) then
      let! result := lift (reserve_top r i) in
      let! error := on_world (vka_cnode_move path (ua_slot result)) in
      if negb (error =? seL4_NoError) then ret (0, 1)
      else
        let! _ := on_am (set_used_watermark true) in
        let! r := get_am utspace_reserve in
        let! r := lift (reserve_drop r i) in
        let! _ := on_am (set_utspace_reserve r) in
        let! _ := call_cspace_free self (ua_slot result) in
        ret (ua_cookie result, 0)
    else try_utspace_loop n (i + 1) size_bits type path
  end.

Definition _try_watermark_utspace (size_bits type : Z) (path : cspacepath_t) : M (sys W) (Z * Z) :=
  let! n := get_am (fun a => r_num (utspace_reserve a)) in
  try_utspace_loop (Z.to_nat n) 0 size_bits type path.

Definition _allocman_mspace_alloc (size : Z) (use_watermark : bool) : M (sys W) (Z * Z) :=
  let! a := get_am id in
  if negb (have_mspace a) then ret (0, 1)
  else if negb (_can_alloc (m_properties (mspace a)) (mspace_alloc_depth (depth a)) (mspace_free_depth (depth a)))
  then (if use_watermark then _try_watermark_mspace size else ret (0, 1))
  else
    let! root_op := _start_operation in
    let! _ := on_am (fun a => set_depth (add_mspace_alloc_depth 1 (depth a)) a) in
    let! (p, error) := run (m_alloc (mspace a) size) in
    let! _ := on_am (fun a => set_depth (add_mspace_alloc_depth (-1) (depth a)) a) in
    if error =? 0 then let! _ := _end_operation root_op in ret (p, 0)
    else if use_watermark then
      let! (p, error) := _try_watermark_mspace size in
      let! _ := _end_operation root_op in
      ret (p, error)
    else let! _ := _end_operation root_op in ret (0, 1).

Definition _allocman_cspace_alloc (use_watermark : bool) : M (sys W) (Z * option cspacepath_t) :=
  let! a := get_am id in
  if negb (have_cspace a) then ret (1, None)
  else if negb (_can_alloc (c_properties (cspace a)) (cspace_alloc_depth (depth a)) (cspace_free_depth (depth a)))
  then (if use_watermark then _try_watermark_cspace else ret (1, None))
  else
    let! root_op := _start_operation in
    let! _ := on_am (fun a => set_depth (add_cspace_alloc_depth 1 (depth a)) a) in
    let! (error, slot) := run (c_alloc (cspace a)) in
    let! _ := on_am (fun a => set_depth (add_cspace_alloc_depth (-1) (depth a)) a) in
    if error =? 0 then let! _ := _end_operation root_op in ret (0, slot)
    else if use_watermark then
      let! (error, slot') := _try_watermark_cspace in
      let! _ := _end_operation root_op in
      ret (error, match slot' with Some _ => slot' | None => slot end)
    else let! _ := _end_operation root_op in ret (1, slot).

Definition _allocman_utspace_alloc (size_bits type : Z) (path : cspacepath_t) (paddr : Z) (canBeDev use_watermark : bool)
    : M (sys W) (Z * Z) :=
  let! a := get_am id in
  if negb (have_utspace a) then ret (0, 1)
  else if negb (_can_alloc (u_properties (utspace a)) (utspace_alloc_depth (depth a)) (utspace_free_depth (depth a)))
  then (if use_watermark && (paddr =? ALLOCMAN_NO_PADDR) then _try_watermark_utspace size_bits type path
        else ret (0, 1))
  else
    let! root_op := _start_operation in
    let! _ := on_am (fun a => set_depth (add_utspace_alloc_depth 1 (depth a)) a) in
    let! (cookie, error) := run (u_alloc (utspace a) size_bits type path paddr canBeDev) in
    let! _ := on_am (fun a => set_depth (add_utspace_alloc_depth (-1) (depth a)) a) in
    if error =? 0 then let! _ := _end_operation root_op in ret (cookie, error)
    else if use_watermark && (paddr =? ALLOCMAN_NO_PADDR) then
      let! (cookie, error) := _try_watermark_utspace size_bits type path in
      let! _ := _end_operation root_op in
      ret (cookie, error)
    else let! _ := _end_operation root_op in ret (0, 1).

Definition level_up : calls W :=
  Calls _allocman_mspace_alloc _allocman_cspace_alloc _allocman_utspace_alloc
        allocman_mspace_free allocman_cspace_free allocman_utspace_free.

End level.

(** No call is allowed. *)
Definition no_calls : calls W :=
  Calls (fun _ _ => stop OutOfFuel) (fun _ => stop OutOfFuel) (fun _ _ _ _ _ _ => stop OutOfFuel)
        (fun _ _ => stop OutOfFuel) (fun _ => stop OutOfFuel) (fun _ _ => stop OutOfFuel).

Fixpoint manager (n : nat) : calls W :=
  match n with
  | O => no_calls
  | S n => level_up (manager n)
  end.

(** ** Creation and configuration *)

Section configuration.
Context (self : calls W).

Definition zero_vec {A} : vec A := Vec 0 0 0 [].
Definition zero_reserve {C E} : reserve C E := Reserve 0 0 [] 0 [] 0 [].

Definition allocman_create (mspace : mspace_interface W) (w : W) : sys W :=
  Sys (Allocman true mspace false null_cspace false null_utspace false (Depths 0 0 0 0 0 0) false false
         zero_vec zero_vec zero_vec zero_vec zero_reserve zero_reserve) w.

Definition allocman_fill_reserves : M (sys W) Z :=
  let! root := _start_operation in
  let! _ := on_am (set_used_watermark true) in
  let! full := _refill_watermark self in
  let! _ := _end_operation self root in
  ret full.

Definition allocman_attach_utspace (interface : utspace_interface W) : M (sys W) Z :=
  let! root := _start_operation in
  let! _ := cassert root in
  let! have := get_am have_utspace in
  if have : bool then ret 1
  else
    let! _ := on_am (set_utspace interface) in
    let! _ := on_am (set_have_utspace true) in
    let! _ := _end_operation self root in
    ret 0.

Definition allocman_attach_cspace (interface : cspace_interface W) : M (sys W) Z :=
  let! root := _start_operation in
  let! _ := cassert root in
  let! have := get_am have_cspace in
  if have : bool then ret 1
  else
    let! _ := on_am (set_cspace interface) in
    let! _ := on_am (set_have_cspace true) in
    let! _ := _end_operation self root in
    ret 0.

Definition allocman_cspace_make_path (slot : Z) : M (sys W) cspacepath_t :=
  let! a := get_am id in
  let! _ := cassert (have_cspace a) in
  run self (c_make_path (cspace a) slot).

Definition allocman_utspace_paddr (cookie size_bits : Z) : M (sys W) Z :=
  let! a := get_am id in
  let! _ := cassert (have_utspace a) in
  run self (u_paddr (utspace a) cookie size_bits).

Definition allocman_utspace_add_uts (uts : list (cspacepath_t * Z * Z)) (utType : Z) : M (sys W) Z :=
  let! a := get_am id in
  let! _ := cassert (have_utspace a) in
  let! error := run self (u_add_uts (utspace a) uts utType) in
  if negb (error =? 0) then ret error
  else let! _ := allocman_fill_reserves in ret 0.

Definition ALLOCMAN_UT_DEV : Z := 1.

(** The objects of a timer: slot, size and base address of each. *)
Fixpoint allocman_add_untypeds_from_timer_objects (objs : list (Z * Z * Z)) : M (sys W) Z :=
  match objs with
  | [] => ret 0
  | (cptr, size_bits, base_addr) :: objs =>
    let! path := allocman_cspace_make_path cptr in
    let! error := allocman_utspace_add_uts [(path, size_bits, base_addr)] ALLOCMAN_UT_DEV in
    if negb (error =? 0) then ret error
    else allocman_add_untypeds_from_timer_objects objs
  end.

(** The contents of fresh memory, which are not read, are [zero]. *)
Definition copy_array {A} (zero : A) (num : Z) (v : vec A) : list A :=
  if v_ptr v =? 0 then replicate (Z.to_nat num) zero
  else take (Z.to_nat (v_count v)) (v_array v) ++ replicate (Z.to_nat (num - v_count v)) zero.

(** [getv] and [setv] are the three fields the pointers lead to. *)
Definition resize_array {A} (zero : A) (getv : allocman_t W -> vec A) (setv : vec A -> allocman_t W -> allocman_t W)
    (num item_size : Z) : M (sys W) Z :=
  let! root := _start_operation in
  let! _ := cassert root in
  let! (new_array, error) := call_mspace_alloc self (item_size ⊠ num) true in
  if negb (error =? 0) then ret error
  else
    let! v := get_am getv in
    if num <? v_count v then ret (-1)
    else
      let contents := copy_array zero num v in
      let! _ := (if v_ptr v =? 0 then ret tt
                 else call_mspace_free self (v_ptr v) (item_size ⊠ v_size v)) in
      let! v := get_am getv in
      let! _ := on_am (setv (Vec num (v_count v) new_array contents)) in
      let! _ := on_am (set_used_watermark true) in
      let! _ := _end_operation self root in
      ret error.

Definition sizeof_cspacepath_t : Z := 56.

Definition resize_slots_array (getv : allocman_t W -> vec cspacepath_t)
    (setv : vec cspacepath_t -> allocman_t W -> allocman_t W) (num : Z) : M (sys W) Z :=
  resize_array no_path getv setv num sizeof_cspacepath_t.

Definition allocman_configure_cspace_reserve (num : Z) : M (sys W) Z :=
  resize_slots_array cspace_slots set_cspace_slots num.
Definition allocman_configure_max_freed_slots (num : Z) : M (sys W) Z :=
  resize_slots_array freed_slots set_freed_slots num.
Definition allocman_configure_max_freed_memory_chunks (num : Z) : M (sys W) Z :=
  resize_array (FreedMspace 0 0) freed_mspace_chunks set_freed_mspace_chunks num 16.
Definition allocman_configure_max_freed_untyped_chunks (num : Z) : M (sys W) Z :=
  resize_array (FreedUtspace 0 0) freed_utspace_chunks set_freed_utspace_chunks num 16.

(** The loop that looks for a chunk already in a reserve. *)
Fixpoint find_chunk {C} (same : C -> bool) (l : list C) (n : nat) (i : Z) : res bool :=
  match n with
  | O => Ok false
  | S n => let? c := arr_get l i in if same c then Ok true else find_chunk same l n (i + 1)
  end.

(** [goto exit] with [error]. *)
Definition configure_exit (root : bool) (error : Z) : M (sys W) Z :=
  let! _ := _end_operation self root in ret error.

Definition allocman_configure_utspace_reserve (chunk : allocman_utspace_chunk) : M (sys W) Z :=
  let! root := _start_operation in
  let! r := get_am utspace_reserve in
  let! exists_already := lift (find_chunk (fun c => (uc_size_bits c =? uc_size_bits chunk) && (uc_type c =? uc_type chunk))
                                (r_chunk r) (Z.to_nat (r_num r)) 0) in
  if exists_already : bool then configure_exit root 1
  else
    let num := r_num r in
    let! (new_chunk, error) := call_mspace_alloc self (24 ⊠ (num ⊞ 1)) true in
    if negb (error =? 0) then configure_exit root error
    else
    let! (new_counts, error) := call_mspace_alloc self (8 ⊠ (num ⊞ 1)) true in
    if negb (error =? 0) then
      let! _ := call_mspace_free self new_chunk (24 ⊠ (num ⊞ 1)) in
      configure_exit root error
    else
    let! (new_chunks, error) := call_mspace_alloc self (8 ⊠ (num ⊞ 1)) true in
    if negb (error =? 0) then
      let! _ := call_mspace_free self new_chunk (24 ⊠ (num ⊞ 1)) in
      let! _ := call_mspace_free self new_counts (8 ⊠ (num ⊞ 1)) in
      configure_exit root error
    else
    let! (new_alloc, error) := call_mspace_alloc self (64 ⊠ uc_count chunk) true in
    if negb (error =? 0) then
      let! _ := call_mspace_free self new_chunk (24 ⊠ (num ⊞ 1)) in
      let! _ := call_mspace_free self new_counts (8 ⊠ (num ⊞ 1)) in
      let! _ := call_mspace_free self new_chunks (8 ⊠ (num ⊞ 1)) in
      configure_exit root error
    else
    let! r := get_am utspace_reserve in
    let! _ := (if num >? 0 then
                 let! _ := call_mspace_free self (r_chunk_ptr r) (24 ⊠ num) in
                 let! _ := call_mspace_free self (r_counts_ptr r) (8 ⊠ num) in
                 call_mspace_free self (r_chunks_ptr r) (8 ⊠ num)
               else ret tt) in
    let fresh := replicate (Z.to_nat (uc_count chunk)) (UtspaceAllocation 0 no_path) in
    let! _ := on_am (set_utspace_reserve
                (Reserve (num ⊞ 1) new_chunk (r_chunk r ++ [chunk]) new_counts (r_counts r ++ [0])
                         new_chunks (r_chunks r ++ [fresh]))) in
    let! _ := on_am (set_used_watermark true) in
    configure_exit root error.

Definition allocman_configure_mspace_reserve (chunk : allocman_mspace_chunk) : M (sys W) Z :=
  let! root := _start_operation in
  let! r := get_am mspace_reserve in
  let! exists_already := lift (find_chunk (fun c => mc_size c =? mc_size chunk)
                                (r_chunk r) (Z.to_nat (r_num r)) 0) in
  if exists_already : bool then configure_exit root 1
  else
    let num := r_num r in
    let! (new_chunk, error) := call_mspace_alloc self (16 ⊠ (num ⊞ 1)) true in
    if negb (error =? 0) then configure_exit root error
    else
    let! (new_counts, error) := call_mspace_alloc self (8 ⊠ (num ⊞ 1)) true in
    if negb (error =? 0) then
      let! _ := call_mspace_free self new_chunk (16 ⊠ (num ⊞ 1)) in
      configure_exit root error
    else
    let! (new_chunks, error) := call_mspace_alloc self (8 ⊠ (num ⊞ 1)) true in
    if negb (error =? 0) then
      let! _ := call_mspace_free self new_chunk (16 ⊠ (num ⊞ 1)) in
      let! _ := call_mspace_free self new_counts (8 ⊠ (num ⊞ 1)) in
      configure_exit root error
    else
    let! (new_alloc, error) := call_mspace_alloc self (8 ⊠ mc_count chunk) true in
    if negb (error =? 0) then
      let! _ := call_mspace_free self new_chunk (16 ⊠ (num ⊞ 1)) in
      let! _ := call_mspace_free self new_counts (8 ⊠ (num ⊞ 1)) in
      let! _ := call_mspace_free self new_chunks (8 ⊠ (num ⊞ 1)) in
      configure_exit root error
    else
    let! r := get_am mspace_reserve in
    let! _ := (if num >? 0 then
                 let! _ := call_mspace_free self (r_chunk_ptr r) (16 ⊠ num) in
                 let! _ := call_mspace_free self (r_counts_ptr r) (8 ⊠ num) in
                 call_mspace_free self (r_chunks_ptr r) (8 ⊠ num)
               else ret tt) in
    let fresh := replicate (Z.to_nat (mc_count chunk)) 0 in
    let! _ := on_am (set_mspace_reserve
                (Reserve (num ⊞ 1) new_chunk (r_chunk r ++ [chunk]) new_counts (r_counts r ++ [0])
                         new_chunks (r_chunks r ++ [fresh]))) in
    let! _ := on_am (set_used_watermark true) in
    configure_exit root error.

End configuration.

End manager.
