(* ===== verification/AllocmanLevels.v ===== *)
(** The invariant of the allocation manager (Allocman.v), and why one level
    of calls keeps it if the level below does: [good], [level_up_good], and
    its two uses, [manager_good] for any allocators and [manager_enough],
    with a bound on the levels, for simple ones. *)
From S2P Require Import Prelude Cspacepath Interfaces Allocman.

(** ** Well-formedness *)

Section invariant.
Context {W : Type}.

Definition vec_ok {A} (v : vec A) : Prop :=
  0 <= v_count v <= v_size v /\ v_size v < word_size /\ Z.of_nat (length (v_array v)) = v_size v.

(** [size c] is the capacity of a chunk. *)
Definition reserve_ok {C E} (size : C -> Z) (r : reserve C E) : Prop :=
  r_num r = Z.of_nat (length (r_chunk r)) /\
  (r_num r < word_size /\ length (r_counts r) = length (r_chunk r) /\ length (r_chunks r) = length (r_chunk r)) /\
  forall i c, r_chunk r !! i = Some c -> exists k l, r_counts r !! i = Some k /\ r_chunks r !! i = Some l /\
    0 <= k <= size c /\ size c < word_size /\ Z.of_nat (length l) = size c.

Definition depths_ok (d : depths) : Prop :=
  is_word (cspace_alloc_depth d) /\ is_word (cspace_free_depth d) /\ is_word (utspace_alloc_depth d) /\
  is_word (utspace_free_depth d) /\ is_word (mspace_alloc_depth d) /\ is_word (mspace_free_depth d).

(** A program without faults of its own. *)
Inductive safe {A : Type} : prog W A -> Prop :=
  | safe_return a : safe (Return a)
  | safe_read k : (forall w, safe (k w)) -> safe (Read k)
  | safe_write w k : safe k -> safe (Write w k)
  | safe_mspace_alloc n k : (forall r, safe (k r)) -> safe (MspaceAlloc n k)
  | safe_mspace_free p n k : safe k -> safe (MspaceFree p n k)
  | safe_cspace_alloc k : (forall r, safe (k r)) -> safe (CspaceAlloc k)
  | safe_cspace_free p k : safe k -> safe (CspaceFree p k)
  | safe_utspace_alloc sz t p pa d k : (forall r, safe (k r)) -> safe (UtspaceAlloc sz t p pa d k)
  | safe_utspace_free c sz k : safe k -> safe (UtspaceFree c sz k).

Record inv (a : allocman_t W) : Prop := {
  inv_freed_slots : vec_ok (freed_slots a);
  inv_freed_mspace : vec_ok (freed_mspace_chunks a);
  inv_freed_utspace : vec_ok (freed_utspace_chunks a);
  inv_cspace_slots : vec_ok (cspace_slots a);
  inv_mspace_reserve : reserve_ok mc_count (mspace_reserve a);
  inv_utspace_reserve : reserve_ok uc_count (utspace_reserve a);
  inv_depths : depths_ok (depth a);
  inv_mspace : have_mspace a = true ->
    (forall n, safe (m_alloc (mspace a) n)) /\ (forall p n, safe (m_free (mspace a) p n));
  inv_cspace : have_cspace a = true -> safe (c_alloc (cspace a)) /\ (forall p, safe (c_free (cspace a) p));
  inv_utspace : have_utspace a = true ->
    (forall sz t p pa d, safe (u_alloc (utspace a) sz t p pa d)) /\ (forall c sz, safe (u_free (utspace a) c sz))
}.

(** What no operation changes: the interfaces and the sizes. *)
Definition static (a : allocman_t W) :=
  ((have_mspace a, mspace a, have_cspace a, cspace a, have_utspace a, utspace a),
   (v_size (freed_slots a), v_size (freed_mspace_chunks a), v_size (freed_utspace_chunks a), v_size (cspace_slots a)),
   (r_num (mspace_reserve a), r_chunk (mspace_reserve a), r_num (utspace_reserve a), r_chunk (utspace_reserve a))).

(** What an operation gives back as it found it. *)
Definition frame0 (a a' : allocman_t W) : Prop :=
  static a = static a' /\ in_operation a = in_operation a' /\ depth a = depth a' /\
  refilling_watermark a = refilling_watermark a'.

Definition counts_le {C E} (r r' : reserve C E) : Prop :=
  forall i k k', r_counts r !! i = Some k -> r_counts r' !! i = Some k' -> k' <= k.

(** No reserve grew. *)
Definition no_growth (a a' : allocman_t W) : Prop :=
  v_count (cspace_slots a') <= v_count (cspace_slots a) /\
  counts_le (mspace_reserve a) (mspace_reserve a') /\ counts_le (utspace_reserve a) (utspace_reserve a') /\
  length (r_counts (mspace_reserve a)) = length (r_counts (mspace_reserve a')) /\
  length (r_counts (utspace_reserve a)) = length (r_counts (utspace_reserve a')).

(** While the reserves are being refilled, an operation does not make them
    grow: only the refilling does. *)
Definition frame (a a' : allocman_t W) : Prop :=
  frame0 a a' /\ (refilling_watermark a = true -> no_growth a a').

#[export] Instance frame0_equiv : Equivalence frame0.
Proof.
  unfold frame0. split.
  - intros a. done.
  - intros a b (-> & -> & -> & ->). done.
  - intros a b c (-> & -> & -> & ->) (-> & -> & -> & ->). done.
Qed.

Lemma counts_le_trans {C E} (r1 r2 r3 : reserve C E) :
  length (r_counts r1) = length (r_counts r2) -> counts_le r1 r2 -> counts_le r2 r3 -> counts_le r1 r3.
Proof.
  intros Hlen H1 H2 i k k' Hk Hk'. destruct (lookup_lt_is_Some_2 (r_counts r2) i) as [m Hm].
  { rewrite <- Hlen. by eapply lookup_lt_Some. }
  transitivity m; eauto.
Qed.

Lemma counts_le_refl {C E} (r : reserve C E) : counts_le r r.
Proof. intros i k k' Hk Hk'. rewrite Hk in Hk'. injection Hk' as ->. lia. Qed.

#[export] Instance frame_preorder : PreOrder frame.
Proof.
  split.
  - intros a. split; [done|]. intros _. repeat split; auto using counts_le_refl; lia.
  - intros a b c [H0 H1] [H2 H3]. split; [by transitivity b|]. intros Hr.
    destruct (H1 Hr) as (Ha & Hb & Hc & Hd & He).
    destruct H3 as (Ha' & Hb' & Hc' & Hd' & He'); [by destruct H0 as (_ & _ & _ & <-)|].
    split_and!; [lia|by eapply counts_le_trans|by eapply counts_le_trans|congruence|congruence].
Qed.

Lemma frame_frame0 a a' : frame a a' -> frame0 a a'.
Proof. by intros [H _]. Qed.

(** ** Single steps *)

Lemma vec_push_ok {A} (v : vec A) (x : A) : vec_ok v -> v_count v < v_size v ->
  exists v', vec_push v x = Ok v' /\ vec_ok v' /\ v_size v' = v_size v /\ v_count v' = v_count v + 1 /\
    v_array v' !! Z.to_nat (v_count v) = Some x /\
    forall i, i <> Z.to_nat (v_count v) -> v_array v' !! i = v_array v !! i.
Proof.
  intros (Hc & Hw & Hl) Hlt. unfold vec_push. rewrite arr_set_in by lia. cbn [res_bind].
  eexists. split; [reflexivity|]. cbn. unfold vec_ok. cbn. rewrite length_insert.
  rewrite wrap_small by (unfold is_word; lia). split_and!; try lia.
  - apply list_lookup_insert_eq. lia.
  - intros i Hi. by rewrite list_lookup_insert_ne.
Qed.

Lemma vec_pop_ok {A} (v : vec A) : vec_ok v -> 0 < v_count v ->
  exists x v', vec_pop v = Ok (x, v') /\ vec_ok v' /\ v_size v' = v_size v /\ v_count v' = v_count v - 1 /\
    v_array v !! Z.to_nat (v_count v - 1) = Some x /\ v_array v' = v_array v.
Proof.
  intros (Hc & Hw & Hl) Hlt. unfold vec_pop. rewrite wrap_small by (unfold is_word; lia).
  destruct (arr_get_in (v_array v) (v_count v - 1)) as (x & -> & Hx); [lia|].
  do 2 eexists. split; [reflexivity|]. unfold vec_ok. cbn. split_and!; try done; lia.
Qed.

Lemma reserve_at {C E} (size : C -> Z) (r : reserve C E) (i : Z) : reserve_ok size r -> 0 <= i < r_num r ->
  exists c k l, arr_get (r_chunk r) i = Ok c /\ arr_get (r_counts r) i = Ok k /\ arr_get (r_chunks r) i = Ok l /\
    0 <= k <= size c /\ size c < word_size /\ Z.of_nat (length l) = size c.
Proof.
  intros (Hn & Hw & H) Hi. destruct (arr_get_in (r_chunk r) i) as (c & Hc & Hc'); [lia|].
  destruct (H _ _ Hc') as (k & l & Hk & Hl & Hb & Hs & Hlen). exists c, k, l.
  split_and!; try done; try lia; (apply arr_get_ok; split; [lia|done]).
Qed.

Lemma reserve_update {C E} (size : C -> Z) (r : reserve C E) (i k : Z) (c : C) (l : list E) :
  reserve_ok size r -> arr_get (r_chunk r) i = Ok c -> 0 <= k <= size c -> Z.of_nat (length l) = size c ->
  reserve_ok size (Reserve (r_num r) (r_chunk_ptr r) (r_chunk r) (r_counts_ptr r)
    (<[Z.to_nat i := k]> (r_counts r)) (r_chunks_ptr r) (<[Z.to_nat i := l]> (r_chunks r))).
Proof.
  intros (Hn & Hw & H) [Hi Hc]%arr_get_ok Hk Hl.
  split; [done|]. split; [cbn; by rewrite !length_insert|]. intros j d Hd. cbn in *.
  destruct (H _ _ Hd) as (k0 & l0 & Hk0 & Hl0 & Hb & Hs & Hlen).
  destruct (decide (Z.to_nat i = j)) as [<-|Hne].
  - exists k, l. rewrite Hc in Hd. injection Hd as <-.
    apply lookup_lt_Some in Hk0, Hl0. rewrite !list_lookup_insert_eq by lia. split_and!; try done; lia.
  - exists k0, l0. rewrite !list_lookup_insert_ne by done. split_and!; try done; lia.
Qed.

Lemma reserve_push_ok {C E} (size : C -> Z) (r : reserve C E) (i k : Z) (c : C) (x : E) :
  reserve_ok size r -> arr_get (r_chunk r) i = Ok c -> arr_get (r_counts r) i = Ok k -> k < size c ->
  exists r', reserve_push r i x = Ok r' /\ reserve_ok size r' /\ r_num r' = r_num r /\ r_chunk r' = r_chunk r.
Proof.
  intros Hr Hc Hk Hlt. pose proof Hr as (Hn & Hw & H). pose proof (arr_get_range _ _ _ Hc) as Hi.
  destruct (reserve_at size r i Hr) as (c' & k' & l & Hc' & Hk' & Hl & Hb & Hs & Hlen); [lia|].
  rewrite Hc' in Hc. rewrite Hk' in Hk. simplify_eq. unfold reserve_push. rewrite Hl, Hk'. cbn [res_bind].
  rewrite arr_set_in by lia. cbn [res_bind]. rewrite !arr_set_in by (by eapply arr_get_range).
  cbn [res_bind]. eexists. split; [reflexivity|]. split; [|done].
  eapply reserve_update; [done|done|rewrite wrap_small by (unfold is_word; lia); lia|by rewrite length_insert].
Qed.

Lemma reserve_top_ok {C E} (size : C -> Z) (r : reserve C E) (i k : Z) :
  reserve_ok size r -> 0 <= i < r_num r -> arr_get (r_counts r) i = Ok k -> 0 < k ->
  exists x, reserve_top r i = Ok x.
Proof.
  intros Hr Hi Hk Hpos. destruct (reserve_at size r i Hr) as (c & k' & l & Hc & Hk' & Hl & Hb & Hs & Hlen); [lia|].
  rewrite Hk' in Hk. simplify_eq. unfold reserve_top. rewrite Hl, Hk'. cbn [res_bind].
  rewrite wrap_small by (unfold is_word; lia).
  destruct (arr_get_in l (k - 1)) as (x & Hx & _); [lia|]. eauto.
Qed.

Lemma reserve_drop_ok {C E} (size : C -> Z) (r : reserve C E) (i k : Z) :
  reserve_ok size r -> 0 <= i < r_num r -> arr_get (r_counts r) i = Ok k -> 0 < k ->
  exists r', reserve_drop r i = Ok r' /\ reserve_ok size r' /\ r_num r' = r_num r /\ r_chunk r' = r_chunk r /\
    counts_le r r' /\ length (r_counts r) = length (r_counts r').
Proof.
  intros Hr Hi Hk Hpos. destruct (reserve_at size r i Hr) as (c & k' & l & Hc & Hk' & Hl & Hb & Hs & Hlen); [lia|].
  rewrite Hk' in Hk. simplify_eq. unfold reserve_drop. rewrite Hk'. cbn [res_bind].
  rewrite wrap_small by (unfold is_word; lia). pose proof (arr_get_range _ _ _ Hk') as Hr2.
  rewrite arr_set_in by done. cbn [res_bind]. eexists. split; [reflexivity|]. split_and!; [|done|done| |].
  - apply arr_get_ok in Hl as [_ Hl]. rewrite <- (list_insert_id (r_chunks r) (Z.to_nat i) l Hl).
    eapply (reserve_update size r i (k - 1) c l); [done|done|lia|done].
  - intros j m m'. cbn. intros Hm Hm'. apply arr_get_ok in Hk' as [_ Hk'].
    destruct (decide (Z.to_nat i = j)) as [<-|Hne].
    + rewrite list_lookup_insert_eq in Hm' by lia. simplify_eq. lia.
    + rewrite list_lookup_insert_ne in Hm' by done. simplify_eq. lia.
  - cbn. by rewrite length_insert.
Qed.

Lemma depth_restore (x : Z) : is_word x -> wrap (wrap (x + 1) + -1) = x.
Proof.
  intros Hx. unfold wrap. rewrite Zplus_mod_idemp_l. replace (x + 1 + -1) with x by lia. by apply Z.mod_small.
Qed.

End invariant.

(** ** Operations give the manager back as they found it *)

Section steps.
Context {W : Type} (allowed : fault -> Prop).

(** From [s], [m] returns in a well-formed state related to [s] by [F], or
    stops at a fault that is allowed. *)
Definition goes {A} (F : allocman_t W -> allocman_t W -> Prop) (m : M (sys W) A) (s : sys W) : Prop :=
  match m s with
  | Ok (_, s') => inv (am s') /\ F (am s) (am s')
  | Fault f => allowed f
  end.

Context (F : allocman_t W -> allocman_t W -> Prop) `{!PreOrder F}.

Lemma goes_ret {A} (a : A) (s : sys W) : inv (am s) -> goes F (ret a) s.
Proof. by split. Qed.

Lemma goes_bind {A B} (m : M (sys W) A) (k : A -> M (sys W) B) (s : sys W) :
  goes F m s ->
  (forall a s', m s = Ok (a, s') -> inv (am s') -> F (am s) (am s') -> goes F (k a) s') ->
  goes F (bind m k) s.
Proof.
  unfold goes, bind. destruct (m s) as [[a s']|f]; cbn [res_bind]; [|done].
  intros [Hi HF] Hk. specialize (Hk a s' eq_refl Hi HF).
  destruct (k a s') as [[b s'']|g]; [|done]. destruct Hk as [Hi' HF']. split; [done|]. by transitivity (am s').
Qed.

Lemma goes_get {A B} (f : allocman_t W -> A) (k : A -> M (sys W) B) (s : sys W) :
  goes F (k (f (am s))) s -> goes F (bind (get_am f) k) s.
Proof. done. Qed.

Lemma goes_lift {A B} (r : res A) (a : A) (k : A -> M (sys W) B) (s : sys W) :
  r = Ok a -> goes F (k a) s -> goes F (bind (lift r) k) s.
Proof. by intros ->. Qed.

Lemma goes_set {B} (f : allocman_t W -> allocman_t W) (k : unit -> M (sys W) B) (s : sys W) :
  inv (f (am s)) -> F (am s) (f (am s)) -> goes F (k tt) (Sys (f (am s)) (world s)) -> goes F (bind (on_am f) k) s.
Proof.
  intros Hi HF Hk. apply goes_bind; [by split|]. intros [] s' Hs _ _. unfold on_am, modify in Hs. by simplify_eq.
Qed.

Lemma goes_set_end (f : allocman_t W -> allocman_t W) (s : sys W) :
  inv (f (am s)) -> F (am s) (f (am s)) -> goes F (on_am f) s.
Proof. by split. Qed.

End steps.

Lemma goes_weaken {W A} (allowed : fault -> Prop) (F G : allocman_t W -> allocman_t W -> Prop)
  (m : M (sys W) A) (s : sys W) :
  (forall a b, F a b -> G a b) -> goes allowed F m s -> goes allowed G m s.
Proof. unfold goes. intros H. destruct (m s) as [[a s']|f]; naive_solver. Qed.

(** The operations of one level, at the states that satisfy [Qa] (for an
    allocation) and [Qf] (for a free). *)
Record good {W} (allowed : fault -> Prop) (self : calls W) (Qa Qf : allocman_t W -> Prop) : Prop := {
  good_frame_a : forall a a', frame0 a a' -> Qa a -> Qa a';
  good_frame_f : forall a a', frame0 a a' -> Qf a -> Qf a';
  good_mspace_alloc : forall n uw s, inv (am s) -> Qa (am s) -> goes allowed frame (call_mspace_alloc self n uw) s;
  good_cspace_alloc : forall uw s, inv (am s) -> Qa (am s) -> goes allowed frame (call_cspace_alloc self uw) s;
  good_utspace_alloc : forall sz t p pa d uw s, inv (am s) -> Qa (am s) ->
    goes allowed frame (call_utspace_alloc self sz t p pa d uw) s;
  good_mspace_free : forall p n s, inv (am s) -> Qf (am s) -> goes allowed frame (call_mspace_free self p n) s;
  good_cspace_free : forall p s, inv (am s) -> Qf (am s) -> goes allowed frame (call_cspace_free self p) s;
  good_utspace_free : forall c sz s, inv (am s) -> Qf (am s) -> goes allowed frame (call_utspace_free self c sz) s
}.

Section level_proofs.
Context {W : Type} (allowed : fault -> Prop) (allowed_assert : allowed AssertFailed).
Context (vka_cnode_move : cspacepath_t -> cspacepath_t -> M W Z).
Context (move_returns : forall p q w, exists e w', vka_cnode_move p q w = Ok (e, w')).
Context (loops : nat) (self : calls W) (Qa Qf : allocman_t W -> Prop) (Hgood : good allowed self Qa Qf).
Context (Qr : allocman_t W -> Prop) (Qr_frame : forall a a', frame0 a a' -> Qr a -> Qr a').

Lemma run_goes {A} (p : prog W A) (s : sys W) :
  safe p -> inv (am s) -> Qa (am s) -> Qf (am s) -> goes allowed frame (run self p) s.
Proof.
  intros Hp. revert s. induction Hp; intros s Hi Ha Hf; cbn [run].
  - by apply goes_ret; [apply _|].
  - apply H0; done.
  - apply (IHHp (Sys (am s) w)); done.
  - apply goes_bind; [apply _|by apply (good_mspace_alloc _ _ _ _ Hgood)|]. intros r s' _ Hi' [HF _].
    apply H0; [done|by eapply (good_frame_a _ _ _ _ Hgood)|by eapply (good_frame_f _ _ _ _ Hgood)].
  - apply goes_bind; [apply _|by apply (good_mspace_free _ _ _ _ Hgood)|]. intros r s' _ Hi' [HF _].
    apply IHHp; [done|by eapply (good_frame_a _ _ _ _ Hgood)|by eapply (good_frame_f _ _ _ _ Hgood)].
  - apply goes_bind; [apply _|by apply (good_cspace_alloc _ _ _ _ Hgood)|]. intros r s' _ Hi' [HF _].
    apply H0; [done|by eapply (good_frame_a _ _ _ _ Hgood)|by eapply (good_frame_f _ _ _ _ Hgood)].
  - apply goes_bind; [apply _|by apply (good_cspace_free _ _ _ _ Hgood)|]. intros r s' _ Hi' [HF _].
    apply IHHp; [done|by eapply (good_frame_a _ _ _ _ Hgood)|by eapply (good_frame_f _ _ _ _ Hgood)].
  - apply goes_bind; [apply _|by apply (good_utspace_alloc _ _ _ _ Hgood)|]. intros r s' _ Hi' [HF _].
    apply H0; [done|by eapply (good_frame_a _ _ _ _ Hgood)|by eapply (good_frame_f _ _ _ _ Hgood)].
  - apply goes_bind; [apply _|by apply (good_utspace_free _ _ _ _ Hgood)|]. intros r s' _ Hi' [HF _].
    apply IHHp; [done|by eapply (good_frame_a _ _ _ _ Hgood)|by eapply (good_frame_f _ _ _ _ Hgood)].
Qed.

(** *** Refilling *)

Lemma inv_set_cspace_slots (a : allocman_t W) v : inv a -> vec_ok v -> inv (set_cspace_slots v a).
Proof. intros [] Hv. by constructor. Qed.
Lemma inv_set_freed_slots (a : allocman_t W) v : inv a -> vec_ok v -> inv (set_freed_slots v a).
Proof. intros [] Hv. by constructor. Qed.
Lemma inv_set_freed_mspace (a : allocman_t W) v : inv a -> vec_ok v -> inv (set_freed_mspace_chunks v a).
Proof. intros [] Hv. by constructor. Qed.
Lemma inv_set_freed_utspace (a : allocman_t W) v : inv a -> vec_ok v -> inv (set_freed_utspace_chunks v a).
Proof. intros [] Hv. by constructor. Qed.
Lemma inv_set_mspace_reserve (a : allocman_t W) r : inv a -> reserve_ok mc_count r -> inv (set_mspace_reserve r a).
Proof. intros [] Hv. by constructor. Qed.
Lemma inv_set_utspace_reserve (a : allocman_t W) r : inv a -> reserve_ok uc_count r -> inv (set_utspace_reserve r a).
Proof. intros [] Hv. by constructor. Qed.
Lemma inv_set_used (a : allocman_t W) b : inv a -> inv (set_used_watermark b a).
Proof. intros []. by constructor. Qed.
Lemma inv_set_refilling (a : allocman_t W) b : inv a -> inv (set_refilling_watermark b a).
Proof. intros []. by constructor. Qed.
Lemma inv_set_in_operation (a : allocman_t W) b : inv a -> inv (set_in_operation b a).
Proof. intros []. by constructor. Qed.
Lemma inv_set_depth (a : allocman_t W) d : inv a -> depths_ok d -> inv (set_depth d a).
Proof. intros [] Hd. by constructor. Qed.

Lemma frame0_cspace_slots (a : allocman_t W) v :
  v_size v = v_size (cspace_slots a) -> frame0 a (set_cspace_slots v a).
Proof. intros H. unfold frame0, static. cbn. by rewrite H. Qed.
Lemma frame0_mspace_reserve (a : allocman_t W) r :
  r_num r = r_num (mspace_reserve a) -> r_chunk r = r_chunk (mspace_reserve a) -> frame0 a (set_mspace_reserve r a).
Proof. intros H1 H2. unfold frame0, static. cbn. by rewrite H1, H2. Qed.
Lemma frame0_utspace_reserve (a : allocman_t W) r :
  r_num r = r_num (utspace_reserve a) -> r_chunk r = r_chunk (utspace_reserve a) -> frame0 a (set_utspace_reserve r a).
Proof. intros H1 H2. unfold frame0, static. cbn. by rewrite H1, H2. Qed.

(** During a refill the level below may be called at any state reached; [Qr]
    is what the refill itself relies on. *)
Definition refillable (a : allocman_t W) : Prop := refilling_watermark a = true /\ Qa a /\ Qf a /\ Qr a.

Lemma refillable_frame (a a' : allocman_t W) : frame0 a a' -> refillable a -> refillable a'.
Proof.
  intros HF (Hr & Ha & Hf & Hq). split_and!.
  - by destruct HF as (_ & _ & _ & <-).
  - by eapply (good_frame_a _ _ _ _ Hgood).
  - by eapply (good_frame_f _ _ _ _ Hgood).
  - by eapply Qr_frame.
Qed.

Lemma refill_cspace_goes (did : bool) (s : sys W) :
  inv (am s) -> refillable (am s) -> goes allowed frame0 (refill_cspace self did) s.
Proof.
  intros Hi (Hr & Ha & Hf & _). unfold refill_cspace. apply goes_get. case_match eqn:Hlt; [|by apply goes_ret; [apply _|]].
  apply goes_bind; [apply _| |].
  { eapply goes_weaken; [apply frame_frame0|]. by apply (good_cspace_alloc _ _ _ _ Hgood). }
  intros [error slot] s' Hs Hi' HF0. pose proof (good_cspace_alloc _ _ _ _ Hgood false s Hi Ha) as Hg.
  unfold goes in Hg. rewrite Hs in Hg. destruct Hg as [_ [_ Hgrow]]. destruct (Hgrow Hr) as [Hc _].
  case_match; [|by apply goes_ret; [apply _|]]. apply goes_get.
  assert (Hsz : v_size (cspace_slots (am s')) = v_size (cspace_slots (am s))).
  { destruct HF0 as [Hst _]. unfold static in Hst. congruence. }
  destruct (vec_push_ok (cspace_slots (am s')) (default no_path slot)) as (v & Hv & Hvok & Hvs & _);
    [by apply inv_cspace_slots|lia|].
  eapply goes_lift; [done|]. apply goes_set; [apply _|by apply inv_set_cspace_slots|by apply frame0_cspace_slots|].
  apply goes_ret; [apply _|]. by apply inv_set_cspace_slots.
Qed.

Lemma refill_mspace_goes (n : nat) (i : Z) (found did : bool) (s : sys W) :
  inv (am s) -> refillable (am s) -> 0 <= i -> i + Z.of_nat n = r_num (mspace_reserve (am s)) ->
  goes allowed frame0 (refill_mspace self n i found did) s.
Proof.
  revert i found did s. induction n as [|n IH]; intros i found did s Hi Hr Hi0 Hn; cbn [refill_mspace].
  { by apply goes_ret; [apply _|]. }
  apply goes_get.
  destruct (reserve_at mc_count (mspace_reserve (am s)) i) as (c & k & l & Hc & Hk & Hl & Hb);
    [by apply inv_mspace_reserve|lia|].
  eapply goes_lift; [done|]. eapply goes_lift; [done|].
  case_match eqn:Hlt; [|apply IH; (done || lia)].
  pose proof (good_mspace_alloc _ _ _ _ Hgood (mc_size c) false s Hi ltac:(apply Hr)) as Hg.
  apply goes_bind; [apply _|by eapply goes_weaken; [apply frame_frame0|]|].
  intros [result error] s' Hs Hi' HF0. unfold goes in Hg. rewrite Hs in Hg.
  destruct Hg as [_ [_ Hgrow]]. destruct (Hgrow ltac:(apply Hr)) as (_ & Hcm & _).
  assert (Hst : r_num (mspace_reserve (am s')) = r_num (mspace_reserve (am s)) /\
                r_chunk (mspace_reserve (am s')) = r_chunk (mspace_reserve (am s))).
  { destruct HF0 as [Hst _]. unfold static in Hst. split; congruence. }
  destruct Hst as [Hnum Hch]. pose proof (refillable_frame _ _ HF0 Hr) as Hr'.
  case_match; [|apply IH; (done || lia)]. apply goes_get.
  destruct (reserve_at mc_count (mspace_reserve (am s')) i) as (c' & k' & l' & Hc' & Hk' & Hl' & Hb');
    [by apply inv_mspace_reserve|lia|].
  rewrite Hch, Hc in Hc'. simplify_eq.
  assert (k' <= k). { apply arr_get_ok in Hk as [_ Hk], Hk' as [_ Hk']. by eapply Hcm. }
  destruct (reserve_push_ok mc_count (mspace_reserve (am s')) i k' c' result) as (r & Hp & Hok & Hrn & Hrc);
    [by apply inv_mspace_reserve|congruence|done|lia|].
  eapply goes_lift; [done|].
  apply goes_set; [apply _|by apply inv_set_mspace_reserve|by apply frame0_mspace_reserve|].
  apply IH; cbn; [by apply inv_set_mspace_reserve| |lia|lia].
  eapply refillable_frame; [|exact Hr']. by apply frame0_mspace_reserve.
Qed.

Lemma refill_utspace_goes (n : nat) (i : Z) (found did : bool) (s : sys W) :
  inv (am s) -> refillable (am s) -> 0 <= i -> i + Z.of_nat n = r_num (utspace_reserve (am s)) ->
  goes allowed frame0 (refill_utspace self n i found did) s.
Proof.
  revert i found did s. induction n as [|n IH]; intros i found did s Hi Hr Hi0 Hn; cbn [refill_utspace].
  { by apply goes_ret; [apply _|]. }
  apply goes_get.
  destruct (reserve_at uc_count (utspace_reserve (am s)) i) as (c & k & l & Hc & Hk & Hl & Hb);
    [by apply inv_utspace_reserve|lia|].
  eapply goes_lift; [done|]. eapply goes_lift; [done|].
  case_match eqn:Hlt; [|apply IH; (done || lia)].
  pose proof (good_cspace_alloc _ _ _ _ Hgood true s Hi ltac:(apply Hr)) as Hg.
  apply goes_bind; [apply _|by eapply goes_weaken; [apply frame_frame0|]|].
  intros [error slot] s' Hs Hi' HF0. unfold goes in Hg. rewrite Hs in Hg.
  destruct Hg as [_ HF]. pose proof (refillable_frame _ _ HF0 Hr) as Hr'.
  assert (Hn' : i + Z.of_nat (S n) = r_num (utspace_reserve (am s'))).
  { destruct HF0 as [Hst _]. unfold static in Hst. rewrite Hn. congruence. }
  case_match; [|apply IH; (done || lia)].
  pose proof (good_utspace_alloc _ _ _ _ Hgood (uc_size_bits c) (uc_type c) (default no_path slot)
    ALLOCMAN_NO_PADDR false false s' Hi' ltac:(apply Hr')) as Hg.
  apply goes_bind; [apply _|by eapply goes_weaken; [apply frame_frame0|]|].
  intros [cookie error'] s'' Hs'' Hi'' HF0''. unfold goes in Hg. rewrite Hs'' in Hg.
  destruct Hg as [_ HF'']. pose proof (refillable_frame _ _ HF0'' Hr') as Hr''.
  assert (HFF : frame (am s) (am s'')) by (by transitivity (am s')).
  assert (Hst : r_num (utspace_reserve (am s'')) = r_num (utspace_reserve (am s)) /\
                r_chunk (utspace_reserve (am s'')) = r_chunk (utspace_reserve (am s))).
  { destruct HFF as [[Hst _] _]. unfold static in Hst. split; congruence. }
  destruct Hst as [Hnum Hch]. destruct HFF as [HFF0 Hgrow]. destruct (Hgrow ltac:(apply Hr)) as (_ & _ & Hcm & _).
  case_match.
  - apply goes_get.
    destruct (reserve_at uc_count (utspace_reserve (am s'')) i) as (c' & k' & l' & Hc' & Hk' & Hl' & Hb');
      [by apply inv_utspace_reserve|lia|].
    rewrite Hch, Hc in Hc'. simplify_eq.
    assert (k' <= k). { apply arr_get_ok in Hk as [_ Hk], Hk' as [_ Hk']. by eapply Hcm. }
    destruct (reserve_push_ok uc_count (utspace_reserve (am s'')) i k' c' (UtspaceAllocation cookie (default no_path slot)))
      as (r & Hp & Hok & Hrn & Hrc); [by apply inv_utspace_reserve|congruence|done|lia|].
    eapply goes_lift; [done|].
    apply goes_set; [apply _|by apply inv_set_utspace_reserve|by apply frame0_utspace_reserve|].
    apply IH; cbn; [by apply inv_set_utspace_reserve| |lia|lia].
    eapply refillable_frame; [|exact Hr'']. by apply frame0_utspace_reserve.
  - apply goes_bind; [apply _| |].
    { eapply goes_weaken; [apply frame_frame0|]. apply (good_cspace_free _ _ _ _ Hgood); [done|apply Hr'']. }
    intros [] s3 _ Hi3 HF3. apply IH; [done|by eapply refillable_frame|lia|].
    destruct HF3 as [Hst _]. unfold static in Hst.
    replace (r_num (utspace_reserve (am s3))) with (r_num (utspace_reserve (am s''))) by congruence. lia.
Qed.

Context (Hdrain_slots : forall did s, inv (am s) -> refillable (am s) -> goes allowed frame0 (drain_slots self loops did) s).
Context (Hdrain_mspace : forall did s, inv (am s) -> refillable (am s) -> goes allowed frame0 (drain_mspace self loops did) s).
Context (Hdrain_utspace : forall did s, inv (am s) -> refillable (am s) -> goes allowed frame0 (drain_utspace self loops did) s).

Lemma refill_round_goes (s : sys W) :
  inv (am s) -> refillable (am s) -> goes allowed frame0 (refill_round loops self) s.
Proof.
  intros Hi Hr. unfold refill_round.
  apply goes_bind; [apply _|by apply Hdrain_slots|]. intros d1 s1 _ Hi1 HF1.
  pose proof (refillable_frame _ _ HF1 Hr) as Hr1.
  apply goes_bind; [apply _|by apply Hdrain_mspace|]. intros d2 s2 _ Hi2 HF2.
  pose proof (refillable_frame _ _ HF2 Hr1) as Hr2.
  apply goes_bind; [apply _|by apply Hdrain_utspace|]. intros d3 s3 _ Hi3 HF3.
  pose proof (refillable_frame _ _ HF3 Hr2) as Hr3.
  apply goes_bind; [apply _|by apply refill_cspace_goes|]. intros [f4 d4] s4 _ Hi4 HF4.
  pose proof (refillable_frame _ _ HF4 Hr3) as Hr4. apply goes_get.
  pose proof (inv_utspace_reserve _ Hi4) as (Hn4 & _).
  apply goes_bind; [apply _|apply refill_utspace_goes; (done || lia)|]. intros [f5 d5] s5 _ Hi5 HF5.
  pose proof (refillable_frame _ _ HF5 Hr4) as Hr5. apply goes_get.
  pose proof (inv_mspace_reserve _ Hi5) as (Hn5 & _). apply refill_mspace_goes; (done || lia).
Qed.

Lemma refill_loop_goes (n : nat) (s : sys W) :
  inv (am s) -> refillable (am s) -> goes allowed frame0 (refill_loop loops self n) s.
Proof.
  revert s. induction n as [|n IH]; intros s Hi Hr; cbn [refill_loop];
    (apply goes_bind; [apply _|by apply refill_round_goes|]); intros [found did] s' _ Hi' HF.
  - by apply goes_ret; [apply _|].
  - case_match; [|by apply goes_ret; [apply _|]]. apply IH; [done|by eapply refillable_frame].
Qed.

(** [frame] up to [in_operation] and [depth]. *)
Definition wframe (a a' : allocman_t W) : Prop :=
  static a = static a' /\ refilling_watermark a = refilling_watermark a' /\
  (refilling_watermark a = true -> no_growth a a').

Lemma frame_wframe (a a' : allocman_t W) :
  frame a a' <-> wframe a a' /\ in_operation a = in_operation a' /\ depth a = depth a'.
Proof.
  split.
  - intros [(H1 & H2 & H3 & H4) H5]. done.
  - intros [(H1 & H2 & H3) [H4 H5]]. done.
Qed.

Lemma no_growth_refl (a : allocman_t W) : no_growth a a.
Proof. repeat split; auto using counts_le_refl; lia. Qed.

#[local] Instance wframe_preorder : PreOrder wframe.
Proof.
  split.
  - intros a. repeat split; auto using counts_le_refl; lia.
  - intros a b c (H1 & H2 & H3) (H4 & H5 & H6). split_and!; [congruence|congruence|]. intros Hr.
    assert (HF : frame (set_in_operation false (set_depth (Depths 0 0 0 0 0 0) a))
                       (set_in_operation false (set_depth (Depths 0 0 0 0 0 0) c))).
    { transitivity (set_in_operation false (set_depth (Depths 0 0 0 0 0 0) b)); (split; [done|]).
      - done.
      - intros Hb. by apply H6. }
    by apply HF.
Qed.

Lemma refill_watermark_goes (s : sys W) :
  inv (am s) -> (refilling_watermark (am s) = false -> refillable (set_refilling_watermark true (am s))) ->
  goes allowed frame (_refill_watermark loops self) s.
Proof.
  intros Hi Hr. unfold _refill_watermark. apply goes_get, goes_get.
  destruct (refilling_watermark (am s)) eqn:Hrf; cbn [orb]; [by apply goes_ret; [apply _|]|].
  case_match; [by apply goes_ret; [apply _|]|].
  set (s1 := Sys (set_refilling_watermark true (am s)) (world s)).
  pose proof (refill_loop_goes 3 s1 (inv_set_refilling _ true Hi) (Hr eq_refl)) as Hl.
  unfold goes, bind at 1, on_am at 1, modify at 1. cbn [res_bind]. fold s1. unfold bind at 1.
  unfold goes in Hl. destruct (refill_loop loops self 3 s1) as [[found s2]|f]; [|done].
  destruct Hl as [Hi2 (Hst & Hop & Hd & Hrw)]. cbn [res_bind].
  destruct found; cbn; (split; [by repeat first [apply inv_set_used | apply inv_set_refilling]|]);
    (split; [|by rewrite Hrf]); unfold frame0; cbn; done.
Qed.

(** [m], run from [s], ends with [in_operation] and the depths of [a]. *)
Definition ends {A} (a : allocman_t W) (m : M (sys W) A) (s : sys W) : Prop :=
  match m s with
  | Ok (_, s') => inv (am s') /\ wframe (am s) (am s') /\ in_operation a = in_operation (am s') /\ depth a = depth (am s')
  | Fault f => allowed f
  end.

Lemma ends_goes {A} (m : M (sys W) A) (s : sys W) : ends (am s) m s -> goes allowed frame m s.
Proof.
  unfold ends, goes. destruct (m s) as [[r s']|f]; [|done]. intros (Hi & Hw & Ho & Hd).
  split; [done|]. by apply frame_wframe.
Qed.

Lemma ends_bind {A B} (a : allocman_t W) (m : M (sys W) A) (k : A -> M (sys W) B) (s : sys W) :
  goes allowed wframe m s ->
  (forall x s', m s = Ok (x, s') -> inv (am s') -> wframe (am s) (am s') -> ends a (k x) s') ->
  ends a (bind m k) s.
Proof.
  unfold goes, ends, bind. destruct (m s) as [[x s']|f]; cbn [res_bind]; [|done].
  intros [Hi HF] Hk. specialize (Hk x s' eq_refl Hi HF). destruct (k x s') as [[b s'']|g]; [|done].
  destruct Hk as (Hi' & Hw & Ho & Hd). split_and!; try done. by transitivity (am s').
Qed.

Lemma goes_wframe {A} (m : M (sys W) A) (s : sys W) : goes allowed frame m s -> goes allowed wframe m s.
Proof. apply goes_weaken. intros a b H. by apply frame_wframe in H as [? _]. Qed.

Lemma end_ends {A} (a : allocman_t W) (r : A) (s : sys W) :
  inv (am s) -> depth (am s) = depth a ->
  (in_operation a = false -> refilling_watermark (am s) = false ->
     refillable (set_refilling_watermark true (set_in_operation false (am s)))) ->
  ends a (bind (_end_operation loops self (negb (in_operation a))) (fun _ => ret r)) s.
Proof.
  intros Hi Hd Hr. unfold _end_operation. rewrite negb_involutive.
  set (s1 := Sys (set_in_operation (in_operation a) (am s)) (world s)).
  assert (Hw : wframe (am s) (am s1)) by (split_and!; [done|done|intros _; exact (no_growth_refl (am s))]). 
  destruct (in_operation a) eqn:Hop; cbn [negb].
  - unfold ends, bind, on_am, modify, ret. cbn [res_bind]. fold s1.
    split_and!; [by apply inv_set_in_operation|done|by symmetry|done].
  - unfold ends, bind at 1 2, on_am, modify. cbn [res_bind]. fold s1.
    pose proof (refill_watermark_goes s1 (inv_set_in_operation _ false Hi) (Hr eq_refl)) as Hg.
    unfold goes, bind in Hg |- *. destruct (_refill_watermark loops self s1) as [[x s2]|f]; [|done].
    cbn [res_bind ret]. destruct Hg as [Hi2 HF]. apply frame_wframe in HF as (Hw2 & Ho2 & Hd2).
    split_and!; [done|by transitivity (am s1)| |]; [by rewrite Hop, <- Ho2|by rewrite <- Hd2].
Qed.

(** *** The watermark *)

Lemma frame_set_used (a : allocman_t W) (b : bool) : frame a (set_used_watermark b a).
Proof. split; [done|]. intros _. exact (no_growth_refl a). Qed.

Lemma try_mspace_goes (n : nat) (i size : Z) (s : sys W) :
  inv (am s) -> 0 <= i -> i + Z.of_nat n = r_num (mspace_reserve (am s)) ->
  goes allowed frame (try_mspace_loop n i size) s.
Proof.
  revert i. induction n as [|n IH]; intros i Hi Hi0 Hn; cbn [try_mspace_loop]; [by apply goes_ret; [apply _|]|].
  apply goes_get. pose proof (inv_mspace_reserve _ Hi) as Hrv.
  destruct (reserve_at mc_count (mspace_reserve (am s)) i) as (c & k & l & Hc & Hk & Hl & Hb); [done|lia|].
  eapply goes_lift; [done|]. eapply goes_lift; [done|].
  case_match eqn:Ht; [|apply IH; (done || lia)]. apply andb_true_iff in Ht as [_ Hpos].
  destruct (reserve_top_ok mc_count (mspace_reserve (am s)) i k) as (x & Hx); [done|lia|done|lia|].
  destruct (reserve_drop_ok mc_count (mspace_reserve (am s)) i k) as (r & Hr & Hok & Hrn & Hrc & Hle & Hlen);
    [done|lia|done|lia|].
  eapply goes_lift; [done|]. eapply goes_lift; [done|].
  assert (Hf : frame (am s) (set_mspace_reserve r (am s))).
  { split; [by apply frame0_mspace_reserve|]. intros _. repeat split; auto using counts_le_refl; simpl; lia. }
  apply goes_set; [apply _|by apply inv_set_mspace_reserve|done|].
  apply goes_set; [apply _|by apply inv_set_used, inv_set_mspace_reserve| |].
  { apply frame_set_used. }
  apply goes_ret; [apply _|]. by apply inv_set_used, inv_set_mspace_reserve.
Qed.

Lemma try_cspace_goes (s : sys W) : inv (am s) -> goes allowed frame _try_watermark_cspace s.
Proof.
  intros Hi. unfold _try_watermark_cspace. apply goes_get.
  destruct (Z.eqb_spec (v_count (cspace_slots (am s))) 0); [by apply goes_ret; [apply _|]|].
  pose proof (inv_cspace_slots _ Hi) as Hv.
  destruct (vec_pop_ok (cspace_slots (am s))) as (x & v & Hp & Hok & Hs & Hc & _);
    [done|destruct Hv as [[? ?] _]; lia|].
  apply goes_set; [apply _|by apply inv_set_used| |]. { apply frame_set_used. }
  eapply goes_lift; [done|]. apply goes_set; [apply _|apply inv_set_cspace_slots; [by apply inv_set_used|done]| |].
  { split; [by apply frame0_cspace_slots|]. intros _. repeat split; auto using counts_le_refl; simpl; lia. }
  apply goes_ret; [apply _|]. apply inv_set_cspace_slots; [by apply inv_set_used|done].
Qed.

Lemma try_utspace_goes (n : nat) (i size_bits type : Z) (path : cspacepath_t) (s : sys W) :
  inv (am s) -> Qf (am s) -> 0 <= i -> i + Z.of_nat n = r_num (utspace_reserve (am s)) ->
  goes allowed frame (try_utspace_loop vka_cnode_move self n i size_bits type path) s.
Proof.
  revert i. induction n as [|n IH]; intros i Hi Hf Hi0 Hn; cbn [try_utspace_loop]; [by apply goes_ret; [apply _|]|].
  apply goes_get. pose proof (inv_utspace_reserve _ Hi) as Hrv.
  destruct (reserve_at uc_count (utspace_reserve (am s)) i) as (c & k & l & Hc & Hk & Hl & Hb); [done|lia|].
  eapply goes_lift; [done|]. eapply goes_lift; [done|].
  case_match eqn:Ht; [|apply IH; (done || lia)]. apply andb_true_iff in Ht as [_ Hpos].
  destruct (reserve_top_ok uc_count (utspace_reserve (am s)) i k) as (x & Hx); [done|lia|done|lia|].
  destruct (reserve_drop_ok uc_count (utspace_reserve (am s)) i k) as (r & Hr & Hok & Hrn & Hrc & Hle & Hlen);
    [done|lia|done|lia|].
  eapply goes_lift; [done|]. apply goes_bind; [apply _| |].
  { unfold goes, on_world. destruct (move_returns path (ua_slot x) (world s)) as (e & w & ->). by split. }
  intros error s1 Hs1 Hi1 HF1. assert (Ham : am s1 = am s).
  { unfold on_world in Hs1. apply res_bind_ok in Hs1 as ([? ?] & _ & Hs1). by simplify_eq/=. }
  case_match; [by apply goes_ret; [apply _|]|].
  apply goes_set; [apply _|by apply inv_set_used| |]. { apply frame_set_used. }
  apply goes_get. cbn [am utspace_reserve set_used_watermark]. rewrite Ham.
  eapply goes_lift; [done|]. apply goes_set; [apply _|apply inv_set_utspace_reserve; [by apply inv_set_used|done]| |].
  { split; [by apply frame0_utspace_reserve|]. intros _. repeat split; auto using counts_le_refl; simpl; lia. }
  apply goes_bind; [apply _| |].
  { apply (good_cspace_free _ _ _ _ Hgood); [apply inv_set_utspace_reserve; [by apply inv_set_used|done]|].
    eapply (good_frame_f _ _ _ _ Hgood); [|done]. by apply (frame0_utspace_reserve (am s) r). }
  intros [] s2 _ Hi2 _. by apply goes_ret; [apply _|].
Qed.

(** *** The operations *)

(** From the start of an operation to its end: [up] and [down] are the
    changes of the depth around the program [p]. *)
Lemma bracket {A B} (s : sys W) (up down : depths -> depths) (p : prog W A)
  (kont : bool -> A -> M (sys W) B) (k : bool -> A -> M (sys W) B) :
  (forall root x, kont root x = bind (on_am (fun a => set_depth (down (depth a)) a)) (fun _ => k root x)) ->
  inv (am s) -> depths_ok (up (depth (am s))) -> down (up (depth (am s))) = depth (am s) ->
  goes allowed frame (run self p) (Sys (set_depth (up (depth (am s))) (set_in_operation true (am s))) (world s)) ->
  (forall x s2, inv (am s2) -> in_operation (am s2) = true -> depth (am s2) = depth (am s) ->
     wframe (am s) (am s2) -> ends (am s) (k (negb (in_operation (am s))) x) s2) ->
  goes allowed frame
    (bind _start_operation (fun root =>
     bind (on_am (fun a => set_depth (up (depth a)) a)) (fun _ =>
     bind (run self p) (kont root)))) s.
Proof.
  intros Hkont Hi Hup Hdown Hrun Hk. apply ends_goes.
  set (s1 := Sys (set_depth (up (depth (am s))) (set_in_operation true (am s))) (world s)) in *.
  unfold ends, _start_operation, get_am, on_am, gets, modify, ret, bind. cbn [res_bind am world].
  change (Sys _ (world s)) with s1. unfold goes in Hrun.
  destruct (run self p s1) as [[x s2]|f]; cbn [res_bind]; [|done].
  destruct Hrun as [Hi2 HF2]. apply frame_wframe in HF2 as (Hw2 & Ho2 & Hd2).
  rewrite Hkont. unfold bind, on_am, modify. cbn [res_bind].
  set (s3 := Sys (set_depth (down (depth (am s2))) (am s2)) (world s2)).
  assert (Hd3 : depth (am s3) = depth (am s)). { cbn. by rewrite <- Hd2. }
  assert (Hw3 : wframe (am s) (am s3)).
  { destruct Hw2 as (Ha & Hb & Hc). split_and!; [done|done|]. intros Hr. by apply Hc. }
  assert (Hi3 : inv (am s3)).
  { apply inv_set_depth; [done|]. cbn in Hd3. rewrite Hd3. by apply inv_depths. }
  specialize (Hk x s3 Hi3 ltac:(symmetry; exact Ho2) Hd3 Hw3). unfold ends in Hk.
  destruct (k _ x s3) as [[y s4]|f]; [|done]. destruct Hk as (Hi4 & Hw4 & Ho4 & Hd4).
  split_and!; try done. by transitivity (am s3).
Qed.

Lemma bracket_pair {A1 A2 B} (s : sys W) (up down : depths -> depths) (p : prog W (A1 * A2))
  (kont : bool -> A1 * A2 -> M (sys W) B) (k : bool -> A1 -> A2 -> M (sys W) B) :
  (forall root x y, kont root (x, y) = bind (on_am (fun a => set_depth (down (depth a)) a)) (fun _ => k root x y)) ->
  inv (am s) -> depths_ok (up (depth (am s))) -> down (up (depth (am s))) = depth (am s) ->
  goes allowed frame (run self p) (Sys (set_depth (up (depth (am s))) (set_in_operation true (am s))) (world s)) ->
  (forall x y s2, inv (am s2) -> in_operation (am s2) = true -> depth (am s2) = depth (am s) ->
     wframe (am s) (am s2) -> ends (am s) (k (negb (in_operation (am s))) x y) s2) ->
  goes allowed frame
    (bind _start_operation (fun root =>
     bind (on_am (fun a => set_depth (up (depth a)) a)) (fun _ =>
     bind (run self p) (kont root)))) s.
Proof.
  intros Hkont Hi Hup Hdown Hrun Hk.
  apply (bracket s up down p kont (fun root x => k root x.1 x.2)); try done.
  - intros root [x y]. apply Hkont.
  - intros [x y] s2. apply Hk.
Qed.

Context (Pa Pf : allocman_t W -> Prop).
Context (Pa_frame : forall a a', frame0 a a' -> Pa a -> Pa a') (Pf_frame : forall a a', frame0 a a' -> Pf a -> Pf a').

(** The states in which the level below is called: from the watermark, when
    an operation ends with a refill, and from the allocators' programs. *)
Context (below_blocked : forall a, Pa a -> Qf a).
Context (below_after : forall a, Pa a -> Qf (set_in_operation true a)).
Context (below_refill : forall a, Pa a \/ Pf a -> in_operation a = false -> refilling_watermark a = false ->
  refillable (set_refilling_watermark true a)).
Definition enter (up : depths -> depths) (s : sys W) : sys W :=
  Sys (set_depth (up (depth (am s))) (set_in_operation true (am s))) (world s).
Context (run_mspace_alloc : forall n s, inv (am s) -> Pa (am s) -> have_mspace (am s) = true ->
  _can_alloc (m_properties (mspace (am s))) (mspace_alloc_depth (depth (am s))) (mspace_free_depth (depth (am s))) = true ->
  goes allowed frame (run self (m_alloc (mspace (am s)) n)) (enter (add_mspace_alloc_depth 1) s)).
Context (run_cspace_alloc : forall s, inv (am s) -> Pa (am s) -> have_cspace (am s) = true ->
  _can_alloc (c_properties (cspace (am s))) (cspace_alloc_depth (depth (am s))) (cspace_free_depth (depth (am s))) = true ->
  goes allowed frame (run self (c_alloc (cspace (am s)))) (enter (add_cspace_alloc_depth 1) s)).
Context (run_utspace_alloc : forall sz t p pa d s, inv (am s) -> Pa (am s) -> have_utspace (am s) = true ->
  _can_alloc (u_properties (utspace (am s))) (utspace_alloc_depth (depth (am s))) (utspace_free_depth (depth (am s))) = true ->
  goes allowed frame (run self (u_alloc (utspace (am s)) sz t p pa d)) (enter (add_utspace_alloc_depth 1) s)).
Context (run_mspace_free : forall p n s, inv (am s) -> Pf (am s) -> have_mspace (am s) = true ->
  _can_free (m_properties (mspace (am s))) (mspace_alloc_depth (depth (am s))) (mspace_free_depth (depth (am s))) = true ->
  goes allowed frame (run self (m_free (mspace (am s)) p n)) (enter (add_mspace_free_depth 1) s)).
Context (run_cspace_free : forall p s, inv (am s) -> Pf (am s) -> have_cspace (am s) = true ->
  _can_free (c_properties (cspace (am s))) (cspace_alloc_depth (depth (am s))) (cspace_free_depth (depth (am s))) = true ->
  goes allowed frame (run self (c_free (cspace (am s)) p)) (enter (add_cspace_free_depth 1) s)).
Context (run_utspace_free : forall c sz s, inv (am s) -> Pf (am s) -> have_utspace (am s) = true ->
  _can_free (u_properties (utspace (am s))) (utspace_alloc_depth (depth (am s))) (utspace_free_depth (depth (am s))) = true ->
  goes allowed frame (run self (u_free (utspace (am s)) c sz)) (enter (add_utspace_free_depth 1) s)).

Lemma depth_steps (d : depths) : depths_ok d ->
  (depths_ok (add_cspace_alloc_depth 1 d) /\ add_cspace_alloc_depth (-1) (add_cspace_alloc_depth 1 d) = d) /\
  (depths_ok (add_cspace_free_depth 1 d) /\ add_cspace_free_depth (-1) (add_cspace_free_depth 1 d) = d) /\
  (depths_ok (add_utspace_alloc_depth 1 d) /\ add_utspace_alloc_depth (-1) (add_utspace_alloc_depth 1 d) = d) /\
  (depths_ok (add_utspace_free_depth 1 d) /\ add_utspace_free_depth (-1) (add_utspace_free_depth 1 d) = d) /\
  (depths_ok (add_mspace_alloc_depth 1 d) /\ add_mspace_alloc_depth (-1) (add_mspace_alloc_depth 1 d) = d) /\
  (depths_ok (add_mspace_free_depth 1 d) /\ add_mspace_free_depth (-1) (add_mspace_free_depth 1 d) = d).
Proof.
  intros (H1 & H2 & H3 & H4 & H5 & H6). destruct d. cbn in *.
  unfold depths_ok, add_cspace_alloc_depth, add_cspace_free_depth, add_utspace_alloc_depth, add_utspace_free_depth,
    add_mspace_alloc_depth, add_mspace_free_depth. cbn.
  rewrite !depth_restore by done. split_and!; auto using wrap_word.
Qed.

(** At the end of an operation that started in [a]. *)
Lemma end_of {A} (a : allocman_t W) (r : A) (s : sys W) :
  Pa a \/ Pf a -> inv (am s) -> depth (am s) = depth a -> wframe a (am s) ->
  ends a (bind (_end_operation loops self (negb (in_operation a))) (fun _ => ret r)) s.
Proof.
  intros HP Hi Hd (Hst & Hrf & _). apply end_ends; [done|done|]. intros Ho Hrs.
  eapply refillable_frame; [|apply (below_refill a HP Ho)]; [|congruence].
  unfold frame0. split_and!; [exact Hst|exact Ho|symmetry; exact Hd|done].
Qed.

Lemma end_of_free (a : allocman_t W) (s : sys W) :
  Pa a \/ Pf a -> inv (am s) -> depth (am s) = depth a -> wframe a (am s) ->
  ends a (_end_operation loops self (negb (in_operation a))) s.
Proof.
  intros HP Hi Hd Hw. pose proof (end_of a tt s HP Hi Hd Hw) as H. unfold ends, bind, ret in *.
  by destruct (_end_operation _ _ _ s) as [[[] s']|f].
Qed.

Lemma end_after {A B} (a : allocman_t W) (m : M (sys W) A) (k : A -> M (sys W) B) (f : A -> B) (s : sys W) :
  Pa a -> inv (am s) -> depth (am s) = depth a -> wframe a (am s) -> goes allowed frame m s ->
  (forall x, k x = bind (_end_operation loops self (negb (in_operation a))) (fun _ => ret (f x))) ->
  ends a (bind m k) s.
Proof.
  intros HP Hi Hd Hw Hm Hk. apply ends_bind; [by apply goes_wframe|]. intros x s' Hs Hi' Hw'. rewrite Hk.
  unfold goes in Hm. rewrite Hs in Hm. destruct Hm as [_ HF]. apply frame_wframe in HF as (_ & _ & Hd').
  apply end_of; [by left|done|congruence|by transitivity (am s)].
Qed.

Lemma mspace_alloc_goes (n : Z) (uw : bool) (s : sys W) :
  inv (am s) -> Pa (am s) -> goes allowed frame (_allocman_mspace_alloc loops self n uw) s.
Proof.
  intros Hi HP. unfold _allocman_mspace_alloc. apply goes_get. unfold id.
  destruct (have_mspace (am s)) eqn:Hh; cbn [negb]; [|by apply goes_ret; [apply _|]].
  destruct (_can_alloc _ _ _) eqn:Hc; cbn [negb].
  2:{ destruct uw; [|by apply goes_ret; [apply _|]]. unfold _try_watermark_mspace. apply goes_get.
      pose proof (inv_mspace_reserve _ Hi) as (Hn & _). apply try_mspace_goes; (done || lia). }
  destruct (depth_steps _ (inv_depths _ Hi)) as (_ & _ & _ & _ & [Hd1 Hd2] & _).
  eapply (bracket_pair s (add_mspace_alloc_depth 1) (add_mspace_alloc_depth (-1)));
    [by intros root ? ?|done|done|done|by apply run_mspace_alloc|].
  intros p error s2 Hi2 Ho2 Hdep2 Hw2. cbn beta. destruct (error =? 0); [by apply end_of; auto|].
  destruct uw; [|by apply end_of; auto].
  eapply (end_after (am s) _ _ (fun x => x)); [done|done|done|done| |by intros [? ?]].
  unfold _try_watermark_mspace. apply goes_get. pose proof (inv_mspace_reserve _ Hi2) as (Hn & _).
  apply try_mspace_goes; (done || lia).
Qed.

Lemma cspace_alloc_goes (uw : bool) (s : sys W) :
  inv (am s) -> Pa (am s) -> goes allowed frame (_allocman_cspace_alloc loops self uw) s.
Proof.
  intros Hi HP. unfold _allocman_cspace_alloc. apply goes_get. unfold id.
  destruct (have_cspace (am s)) eqn:Hh; cbn [negb]; [|by apply goes_ret; [apply _|]].
  destruct (_can_alloc _ _ _) eqn:Hc; cbn [negb].
  2:{ destruct uw; [|by apply goes_ret; [apply _|]]. by apply try_cspace_goes. }
  destruct (depth_steps _ (inv_depths _ Hi)) as ([Hd1 Hd2] & _).
  eapply (bracket_pair s (add_cspace_alloc_depth 1) (add_cspace_alloc_depth (-1)));
    [by intros root ? ?|done|done|done|by apply run_cspace_alloc|].
  intros error slot s2 Hi2 Ho2 Hdep2 Hw2. cbn beta. destruct (error =? 0); [by apply end_of; auto|].
  destruct uw; [|by apply end_of; auto].
  eapply (end_after (am s) _ _ (fun x => (x.1, match x.2 with Some _ => x.2 | None => slot end)));
    [done|done|done|done|by apply try_cspace_goes|by intros [? ?]].
Qed.

Lemma after_Qf (a : allocman_t W) (s : sys W) :
  Pa a -> depth (am s) = depth a -> wframe a (am s) -> in_operation (am s) = true -> Qf (am s).
Proof.
  intros HP Hd (Hst & Hrf & _) Ho. eapply (good_frame_f _ _ _ _ Hgood); [|by apply below_after].
  unfold frame0. cbn. done.
Qed.

Lemma utspace_alloc_goes (sz t : Z) (path : cspacepath_t) (pa : Z) (d uw : bool) (s : sys W) :
  inv (am s) -> Pa (am s) ->
  goes allowed frame (_allocman_utspace_alloc vka_cnode_move loops self sz t path pa d uw) s.
Proof.
  intros Hi HP. unfold _allocman_utspace_alloc. apply goes_get. unfold id.
  destruct (have_utspace (am s)) eqn:Hh; cbn [negb]; [|by apply goes_ret; [apply _|]].
  destruct (_can_alloc _ _ _) eqn:Hc; cbn [negb].
  2:{ destruct (uw && _); [|by apply goes_ret; [apply _|]]. unfold _try_watermark_utspace. apply goes_get.
      pose proof (inv_utspace_reserve _ Hi) as (Hn & _). apply try_utspace_goes; (lia || auto). }
  destruct (depth_steps _ (inv_depths _ Hi)) as (_ & _ & [Hd1 Hd2] & _).
  eapply (bracket_pair s (add_utspace_alloc_depth 1) (add_utspace_alloc_depth (-1)));
    [by intros root ? ?|done|done|done|by apply run_utspace_alloc|].
  intros p error s2 Hi2 Ho2 Hdep2 Hw2. cbn beta. destruct (error =? 0); [by apply end_of; auto|].
  destruct (uw && _); [|by apply end_of; auto].
  eapply (end_after (am s) _ _ (fun x => x)); [done|done|done|done| |by intros [? ?]].
  unfold _try_watermark_utspace. apply goes_get. pose proof (inv_utspace_reserve _ Hi2) as (Hn & _).
  apply try_utspace_goes; [done|by eapply after_Qf|lia|lia].
Qed.

(** A queue that is not full takes one more. *)
Lemma queue_goes {A} (getv : allocman_t W -> vec A) (setv : vec A -> allocman_t W -> allocman_t W) (x : A) (s : sys W) :
  inv (am s) -> vec_ok (getv (am s)) ->
  (forall v, vec_ok v -> v_size v = v_size (getv (am s)) -> inv (setv v (am s)) /\ frame (am s) (setv v (am s))) ->
  goes allowed frame
    (let! v := get_am getv in
     if v_count v =? v_size v then stop AssertFailed
     else let! v := lift (vec_push v x) in on_am (setv v)) s.
Proof.
  intros Hi Hv Hset. apply goes_get. destruct (Z.eqb_spec (v_count (getv (am s))) (v_size (getv (am s)))); [done|].
  destruct (vec_push_ok (getv (am s)) x Hv) as (v & Hp & Hok & Hs & _); [destruct Hv; lia|].
  eapply goes_lift; [done|]. destruct (Hset v Hok Hs) as [Hi' HF]. by apply goes_set_end.
Qed.

Lemma cspace_free_goes (p : cspacepath_t) (s : sys W) :
  inv (am s) -> Pf (am s) -> goes allowed frame (allocman_cspace_free loops self p) s.
Proof.
  intros Hi HP. unfold allocman_cspace_free. apply goes_get. unfold id.
  destruct (have_cspace (am s)) eqn:Hh; [|done].
  destruct (_can_free _ _ _) eqn:Hc; cbn [negb].
  2:{ apply (queue_goes freed_slots set_freed_slots); [done|by apply inv_freed_slots|].
      intros v Hv Hs. split; [by apply inv_set_freed_slots|]. split; [|intros _; exact (no_growth_refl (am s))].
      unfold frame0, static. cbn. by rewrite Hs. }
  destruct (depth_steps _ (inv_depths _ Hi)) as (_ & [Hd1 Hd2] & _).
  eapply (bracket s (add_cspace_free_depth 1) (add_cspace_free_depth (-1)) _ _
    (fun root _ => _end_operation loops self root)); [done|done|done|done|by apply run_cspace_free|].
  intros [] s2 Hi2 Ho2 Hdep2 Hw2. apply end_of_free; auto.
Qed.

Lemma mspace_free_goes (p n : Z) (s : sys W) :
  inv (am s) -> Pf (am s) -> goes allowed frame (allocman_mspace_free loops self p n) s.
Proof.
  intros Hi HP. unfold allocman_mspace_free. apply goes_get. unfold id.
  destruct (have_mspace (am s)) eqn:Hh; [|done].
  destruct (_can_free _ _ _) eqn:Hc; cbn [negb].
  2:{ apply (queue_goes freed_mspace_chunks set_freed_mspace_chunks); [done|by apply inv_freed_mspace|].
      intros v Hv Hs. split; [by apply inv_set_freed_mspace|]. split; [|intros _; exact (no_growth_refl (am s))].
      unfold frame0, static. cbn. by rewrite Hs. }
  destruct (depth_steps _ (inv_depths _ Hi)) as (_ & _ & _ & _ & _ & Hd1 & Hd2).
  eapply (bracket s (add_mspace_free_depth 1) (add_mspace_free_depth (-1)) _ _
    (fun root _ => _end_operation loops self root)); [done|done|done|done|by apply run_mspace_free|].
  intros [] s2 Hi2 Ho2 Hdep2 Hw2. apply end_of_free; auto.
Qed.

Lemma utspace_free_goes (c sz : Z) (s : sys W) :
  inv (am s) -> Pf (am s) -> goes allowed frame (allocman_utspace_free loops self c sz) s.
Proof.
  intros Hi HP. unfold allocman_utspace_free. apply goes_get. unfold id.
  destruct (have_utspace (am s)) eqn:Hh; [|done].
  destruct (_can_free _ _ _) eqn:Hc; cbn [negb].
  2:{ apply (queue_goes freed_utspace_chunks set_freed_utspace_chunks); [done|by apply inv_freed_utspace|].
      intros v Hv Hs. split; [by apply inv_set_freed_utspace|]. split; [|intros _; exact (no_growth_refl (am s))].
      unfold frame0, static. cbn. by rewrite Hs. }
  destruct (depth_steps _ (inv_depths _ Hi)) as (_ & _ & _ & [Hd1 Hd2] & _).
  eapply (bracket s (add_utspace_free_depth 1) (add_utspace_free_depth (-1)) _ _
    (fun root _ => _end_operation loops self root)); [done|done|done|done|by apply run_utspace_free|].
  intros [] s2 Hi2 Ho2 Hdep2 Hw2. apply end_of_free; auto.
Qed.

Lemma level_up_good : good allowed (level_up vka_cnode_move loops self) Pa Pf.
Proof.
  constructor; [done|done|..]; cbn.
  - intros. by apply mspace_alloc_goes.
  - intros. by apply cspace_alloc_goes.
  - intros. by apply utspace_alloc_goes.
  - intros. by apply mspace_free_goes.
  - intros. by apply cspace_free_goes.
  - intros. by apply utspace_free_goes.
Qed.

End level_proofs.

(** ** Any number of levels *)

Lemma inv_enter {W} (s : sys W) (up : depths -> depths) :
  inv (am s) -> (depths_ok (depth (am s)) -> depths_ok (up (depth (am s)))) -> inv (am (enter up s)).
Proof. intros Hi Hup. apply inv_set_depth; [by apply inv_set_in_operation|]. by apply Hup, inv_depths. Qed.

Lemma set_freed_slots_ok {W} (a : allocman_t W) v :
  inv a -> vec_ok v -> v_size v = v_size (freed_slots a) -> inv (set_freed_slots v a) /\ frame0 a (set_freed_slots v a).
Proof. intros Hi Hv Hs. split; [by apply inv_set_freed_slots|]. unfold frame0, static. cbn. by rewrite Hs. Qed.
Lemma set_freed_mspace_ok {W} (a : allocman_t W) v :
  inv a -> vec_ok v -> v_size v = v_size (freed_mspace_chunks a) ->
  inv (set_freed_mspace_chunks v a) /\ frame0 a (set_freed_mspace_chunks v a).
Proof. intros Hi Hv Hs. split; [by apply inv_set_freed_mspace|]. unfold frame0, static. cbn. by rewrite Hs. Qed.
Lemma set_freed_utspace_ok {W} (a : allocman_t W) v :
  inv a -> vec_ok v -> v_size v = v_size (freed_utspace_chunks a) ->
  inv (set_freed_utspace_chunks v a) /\ frame0 a (set_freed_utspace_chunks v a).
Proof. intros Hi Hv Hs. split; [by apply inv_set_freed_utspace|]. unfold frame0, static. cbn. by rewrite Hs. Qed.

Section any_level.
Context {W : Type} (vka_cnode_move : cspacepath_t -> cspacepath_t -> M W Z).
Context (move_returns : forall p q w, exists e w', vka_cnode_move p q w = Ok (e, w')) (loops : nat).

(** The faults that a call can end in: an assertion of the manager (a queue
    is full, or there is no allocator), or a bound of the model. *)
Definition stops (f : fault) : Prop := f = AssertFailed \/ f = OutOfFuel.

Definition anywhere (a : allocman_t W) : Prop := True.

Lemma drain_any {A} (getv : allocman_t W -> vec A) setv (free : A -> M (sys W) unit)
  (free_goes : forall x s, inv (am s) -> goes stops frame (free x) s)
  (getv_ok : forall a, inv a -> vec_ok (getv a))
  (setv_ok : forall a v, inv a -> vec_ok v -> v_size v = v_size (getv a) -> inv (setv v a) /\ frame0 a (setv v a))
  (fuel : nat) (did : bool) (s : sys W) :
  inv (am s) -> goes stops frame0 (drain getv setv free fuel did) s.
Proof.
  revert did s. induction fuel as [|fuel IH]; intros did s Hi; cbn [drain]; [by right|].
  apply goes_get. case_match; [|by apply goes_ret; [apply _|]].
  destruct (vec_pop_ok (getv (am s))) as (x & v & Hp & Hok & Hs & _); [by apply getv_ok|lia|].
  destruct (setv_ok (am s) v Hi Hok Hs) as [Hi' HF].
  eapply goes_lift; [done|]. apply goes_set; [apply _|done|done|].
  apply goes_bind; [apply _|eapply goes_weaken; [apply frame_frame0|by apply free_goes]|].
  intros [] s' _ Hi2 _. by apply IH.
Qed.

Lemma no_calls_good (allowed : fault -> Prop) : allowed OutOfFuel -> good allowed no_calls anywhere anywhere.
Proof. intros H. by constructor. Qed.

Lemma manager_good (n : nat) : good stops (manager vka_cnode_move loops n) anywhere anywhere.
Proof.
  induction n as [|n IH]; cbn [manager]; [apply no_calls_good; by right|].
  apply (level_up_good stops (or_introl eq_refl) vka_cnode_move move_returns loops (manager vka_cnode_move loops n)
    anywhere anywhere IH anywhere); try done.
  - intros did s Hi _. apply drain_any; [|apply inv_freed_slots|apply set_freed_slots_ok|done].
    intros x s' Hi'. by apply (good_cspace_free _ _ _ _ IH).
  - intros did s Hi _. apply drain_any; [|apply inv_freed_mspace|apply set_freed_mspace_ok|done].
    intros x s' Hi'. by apply (good_mspace_free _ _ _ _ IH).
  - intros did s Hi _. apply drain_any; [|apply inv_freed_utspace|apply set_freed_utspace_ok|done].
    intros x s' Hi'. by apply (good_utspace_free _ _ _ _ IH).
  - intros m s Hi _ Hh _. apply (run_goes stops _ _ _ IH); [by apply (inv_mspace _ Hi Hh)|by apply inv_enter, depth_steps|done|done].
  - intros s Hi _ Hh _. apply (run_goes stops _ _ _ IH); [by apply (inv_cspace _ Hi Hh)|by apply inv_enter, depth_steps|done|done].
  - intros sz t p pa d s Hi _ Hh _.
    apply (run_goes stops _ _ _ IH); [by apply (inv_utspace _ Hi Hh)|by apply inv_enter, depth_steps|done|done].
  - intros p m s Hi _ Hh _. apply (run_goes stops _ _ _ IH); [by apply (inv_mspace _ Hi Hh)|by apply inv_enter, depth_steps|done|done].
  - intros p s Hi _ Hh _. apply (run_goes stops _ _ _ IH); [by apply (inv_cspace _ Hi Hh)|by apply inv_enter, depth_steps|done|done].
  - intros c sz s Hi _ Hh _. apply (run_goes stops _ _ _ IH); [by apply (inv_utspace _ Hi Hh)|by apply inv_enter, depth_steps|done|done].
Qed.

End any_level.

(** ** Enough levels

    With the default properties, and frees that call nothing, seven levels of
    calls are enough: an allocation runs at most three allocators inside one
    another, and what they ask of an allocator already running comes from the
    reserves. *)

Section enough.
Context {W : Type} (vka_cnode_move : cspacepath_t -> cspacepath_t -> M W Z).
Context (move_returns : forall p q w, exists e w', vka_cnode_move p q w = Ok (e, w')) (loops : nat).
Local Abbreviation manager n := (manager vka_cnode_move loops n).

Inductive call_free {A : Type} : prog W A -> Prop :=
  | call_free_return a : call_free (Return a)
  | call_free_read k : (forall w, call_free (k w)) -> call_free (Read k)
  | call_free_write w k : call_free k -> call_free (Write w k).

Record simple (a : allocman_t W) : Prop := {
  simple_mspace : have_mspace a = true -> m_properties (mspace a) = ALLOCMAN_DEFAULT_PROPERTIES /\
    forall p n, call_free (m_free (mspace a) p n);
  simple_cspace : have_cspace a = true -> c_properties (cspace a) = ALLOCMAN_DEFAULT_PROPERTIES /\
    forall p, call_free (c_free (cspace a) p);
  simple_utspace : have_utspace a = true -> u_properties (utspace a) = ALLOCMAN_DEFAULT_PROPERTIES /\
    forall c sz, call_free (u_free (utspace a) c sz);
  (* the loops of a refill can empty full queues *)
  simple_loops : v_size (freed_slots a) < Z.of_nat loops /\ v_size (freed_mspace_chunks a) < Z.of_nat loops /\
    v_size (freed_utspace_chunks a) < Z.of_nat loops
}.

Definition no_depth : depths := Depths 0 0 0 0 0 0.

Definition quiet (a : allocman_t W) : Prop := in_operation a = false -> depth a = no_depth.

(** The number of allocators that are not running. *)
Definition idle (d : depths) : Z :=
  b2z ((cspace_alloc_depth d =? 0) && (cspace_free_depth d =? 0)) +
  b2z ((utspace_alloc_depth d =? 0) && (utspace_free_depth d =? 0)) +
  b2z ((mspace_alloc_depth d =? 0) && (mspace_free_depth d =? 0)).

Definition inside (a : allocman_t W) : bool := in_operation a || refilling_watermark a.

Definition enough_alloc (n : nat) (a : allocman_t W) : Prop :=
  simple a /\ quiet a /\ (if inside a then idle (depth a) + 2 else 7) <= Z.of_nat n.
Definition enough_free (n : nat) (a : allocman_t W) : Prop :=
  simple a /\ quiet a /\ (if inside a then 1 else 6) <= Z.of_nat n.

Definition asserts (f : fault) : Prop := f = AssertFailed.

Lemma simple_frame (a a' : allocman_t W) : static a = static a' -> simple a -> simple a'.
Proof.
  intros H [Hm Hc Hu Hl]. unfold static in H. injection H as H1 H2 H3 H4 H5 H6 H7 H8 H9 H10 H11 H12 H13 H14.
  constructor; [rewrite <- H1, <- H2|rewrite <- H3, <- H4|rewrite <- H5, <- H6|rewrite <- H7, <- H8, <- H9]; done.
Qed.

Lemma enough_alloc_frame n (a a' : allocman_t W) : frame0 a a' -> enough_alloc n a -> enough_alloc n a'.
Proof.
  intros (Hs & Ho & Hd & Hr) (H1 & H2 & H3). unfold enough_alloc, quiet, inside in *.
  rewrite <- Ho, <- Hd, <- Hr. split_and!; [by eapply simple_frame|done|done].
Qed.

Lemma enough_free_frame n (a a' : allocman_t W) : frame0 a a' -> enough_free n a -> enough_free n a'.
Proof.
  intros (Hs & Ho & Hd & Hr) (H1 & H2 & H3). unfold enough_free, quiet, inside in *.
  rewrite <- Ho, <- Hd, <- Hr. split_and!; [by eapply simple_frame|done|done].
Qed.

Lemma idle_bounds (d : depths) : 0 <= idle d <= 3.
Proof. unfold idle. repeat case_match; cbn; repeat destruct (_ =? _); cbn; lia. Qed.

(** With the default properties an allocator that runs is not entered. *)
Lemma can_default (x y : Z) : is_word x -> is_word y ->
  _can_alloc ALLOCMAN_DEFAULT_PROPERTIES x y = (x =? 0) && (y =? 0) /\
  _can_free ALLOCMAN_DEFAULT_PROPERTIES x y = (x =? 0) && (y =? 0).
Proof.
  intros [Hx _] [Hy _]. unfold _can_alloc, _can_free. cbn.
  rewrite !Z.gtb_ltb. destruct (Z.ltb_spec 0 x), (Z.ltb_spec 0 y), (Z.eqb_spec x 0), (Z.eqb_spec y 0);
    cbn; (done || lia).
Qed.

Lemma run_call_free {A} (self : calls W) (p : prog W A) (s : sys W) :
  safe p -> call_free p -> exists a w, run self p s = Ok (a, Sys (am s) w).
Proof.
  intros Hs Hp. revert s Hs. induction Hp as [a|k Hk IH|w k Hk IH]; intros s Hs; inversion Hs; subst; cbn [run].
  - exists a, (world s). by destruct s.
  - apply IH. eauto.
  - destruct (IH (Sys (am s) w)) as (a & w' & ->); [done|]. eauto.
Qed.

(** A free outside any operation, during a refill, changes nothing in the
    manager. *)
Definition keeps_am {A} (m : M (sys W) A) (s : sys W) : Prop :=
  match m s with Ok (_, s') => am s' = am s | Fault f => f = AssertFailed end.

Lemma bracket_keeps (self : calls W) (s : sys W) (up down : depths -> depths) (p : prog W unit) :
  depths_ok (depth (am s)) -> refilling_watermark (am s) = true ->
  down (up (depth (am s))) = depth (am s) -> safe p -> call_free p ->
  keeps_am (let! root := _start_operation in
            let! _ := on_am (fun a => set_depth (up (depth a)) a) in
            let! _ := run self p in
            let! _ := on_am (fun a => set_depth (down (depth a)) a) in
            _end_operation loops self root) s.
Proof.
  intros Hd Hr Hdown Hs Hp. unfold keeps_am, _start_operation, bind, get_am, gets, on_am, modify, ret. cbn [res_bind am world].
  edestruct (run_call_free self p) as (x & w & ->); [done|done|]. cbn [res_bind am world].
  unfold _end_operation, _refill_watermark, bind, get_am, gets, on_am, modify, ret.
  destruct (am s) as [? ? ? ? ? ? op dep rf ? ? ? ? ? ? ?] eqn:Ham. cbn in *. subst rf. rewrite Hdown.
  destruct op; reflexivity.
Qed.

Lemma cspace_free_keeps (n : nat) (p : cspacepath_t) (s : sys W) :
  inv (am s) -> simple (am s) -> depth (am s) = no_depth -> refilling_watermark (am s) = true ->
  keeps_am (call_cspace_free (manager (S n)) p) s.
Proof.
  intros Hi Hs Hd Hr. cbn. unfold allocman_cspace_free, keeps_am, bind at 1, get_am, gets. cbn [res_bind]. unfold id.
  destruct (have_cspace (am s)) eqn:Hh; [|done]. destruct (simple_cspace _ Hs Hh) as [-> Hcf].
  destruct (inv_cspace _ Hi Hh) as [_ Hsafe].
  unfold bind at 1, cassert, rassert, lift. cbn [res_bind]. rewrite Hd. cbn.
  apply (bracket_keeps _ s (add_cspace_free_depth 1) (add_cspace_free_depth (-1)));
    [by apply inv_depths|done|by rewrite Hd|done|done].
Qed.

Lemma mspace_free_keeps (n : nat) (p m : Z) (s : sys W) :
  inv (am s) -> simple (am s) -> depth (am s) = no_depth -> refilling_watermark (am s) = true ->
  keeps_am (call_mspace_free (manager (S n)) p m) s.
Proof.
  intros Hi Hs Hd Hr. cbn. unfold allocman_mspace_free, keeps_am, bind at 1, get_am, gets. cbn [res_bind]. unfold id.
  destruct (have_mspace (am s)) eqn:Hh; [|done]. destruct (simple_mspace _ Hs Hh) as [-> Hcf].
  destruct (inv_mspace _ Hi Hh) as [_ Hsafe].
  unfold bind at 1, cassert, rassert, lift. cbn [res_bind]. rewrite Hd. cbn.
  apply (bracket_keeps _ s (add_mspace_free_depth 1) (add_mspace_free_depth (-1)));
    [by apply inv_depths|done|by rewrite Hd|done|done].
Qed.

Lemma utspace_free_keeps (n : nat) (c sz : Z) (s : sys W) :
  inv (am s) -> simple (am s) -> depth (am s) = no_depth -> refilling_watermark (am s) = true ->
  keeps_am (call_utspace_free (manager (S n)) c sz) s.
Proof.
  intros Hi Hs Hd Hr. cbn. unfold allocman_utspace_free, keeps_am, bind at 1, get_am, gets. cbn [res_bind]. unfold id.
  destruct (have_utspace (am s)) eqn:Hh; [|done]. destruct (simple_utspace _ Hs Hh) as [-> Hcf].
  destruct (inv_utspace _ Hi Hh) as [_ Hsafe].
  unfold bind at 1, cassert, rassert, lift. cbn [res_bind]. rewrite Hd. cbn.
  apply (bracket_keeps _ s (add_utspace_free_depth 1) (add_utspace_free_depth (-1)));
    [by apply inv_depths|done|by rewrite Hd|done|done].
Qed.

Lemma drain_enough {A} (getv : allocman_t W -> vec A) setv (free : A -> M (sys W) unit)
  (free_keeps : forall x s, inv (am s) -> simple (am s) -> depth (am s) = no_depth -> refilling_watermark (am s) = true ->
     keeps_am (free x) s)
  (getv_ok : forall a, inv a -> vec_ok (getv a))
  (setv_ok : forall a v, inv a -> vec_ok v -> v_size v = v_size (getv a) -> inv (setv v a) /\ frame0 a (setv v a))
  (getset : forall a v, getv (setv v a) = v)
  (fuel : nat) (did : bool) (s : sys W) :
  inv (am s) -> simple (am s) -> depth (am s) = no_depth -> refilling_watermark (am s) = true ->
  v_count (getv (am s)) < Z.of_nat fuel -> goes asserts frame0 (drain getv setv free fuel did) s.
Proof.
  revert did s. induction fuel as [|fuel IH]; intros did s Hi Hsi Hd Hr Hf; cbn [drain].
  { destruct (getv_ok _ Hi) as [[? ?] _]. lia. }
  apply goes_get. case_match; [|by apply goes_ret; [apply _|]].
  destruct (vec_pop_ok (getv (am s))) as (x & v & Hp & Hok & Hs & Hc & _); [by apply getv_ok|lia|].
  destruct (setv_ok (am s) v Hi Hok Hs) as [Hi' HF].
  eapply goes_lift; [done|]. apply goes_set; [apply _|done|done|].
  set (s1 := Sys (setv v (am s)) (world s)).
  assert (Hk : keeps_am (free x) s1).
  { destruct HF as (Hst & _ & Hd1 & Hr1). apply free_keeps; cbn; [done|by eapply simple_frame|congruence|congruence]. }
  unfold keeps_am in Hk. unfold goes, bind. destruct (free x s1) as [[[] s2]|f]; cbn [res_bind]; [|done].
  specialize (IH true s2). unfold goes in IH. rewrite Hk in IH.
  destruct HF as (Hst & Ho1 & Hd1 & Hr1).
  apply IH; cbn [am s1]; [done|by eapply simple_frame|congruence|congruence|]. rewrite getset. lia.
Qed.

Lemma enter_enough (n : nat) (up : depths -> depths) (s : sys W) :
  simple (am s) -> idle (up (depth (am s))) + 2 <= Z.of_nat n ->
  enough_alloc n (am (enter up s)) /\ enough_free n (am (enter up s)).
Proof.
  intros Hs Hn. pose proof (idle_bounds (up (depth (am s)))).
  split; (split_and!; [by eapply simple_frame; [|exact Hs]|done|cbn; lia]).
Qed.

(** Entering an allocator that is not running leaves one less that is not. *)
Lemma idle_enter (d : depths) :
  ((cspace_alloc_depth d =? 0) && (cspace_free_depth d =? 0) = true -> idle (add_cspace_alloc_depth 1 d) = idle d - 1) /\
  ((utspace_alloc_depth d =? 0) && (utspace_free_depth d =? 0) = true -> idle (add_utspace_alloc_depth 1 d) = idle d - 1) /\
  ((mspace_alloc_depth d =? 0) && (mspace_free_depth d =? 0) = true -> idle (add_mspace_alloc_depth 1 d) = idle d - 1).
Proof.
  unfold idle. destruct d. cbn.
  split_and!; intros [->%Z.eqb_eq ->%Z.eqb_eq]%andb_true_iff;
    cbn; change (wrap (0 + 1) =? 0) with false; cbn; lia.
Qed.

Lemma run_enough {A} (n : nat) (up : depths -> depths) (p : prog W A) (s : sys W) :
  good asserts (manager n) (enough_alloc n) (enough_free n) ->
  inv (am s) -> safe p -> enough_alloc (S n) (am s) ->
  (depths_ok (depth (am s)) -> depths_ok (up (depth (am s)))) -> idle (up (depth (am s))) = idle (depth (am s)) - 1 ->
  goes asserts frame (run (manager n) p) (enter up s).
Proof.
  intros Hg Hi Hp (Hs & Hq & Hn) Hup Hidle.
  destruct (enter_enough n up s Hs) as [Ha Hf].
  { pose proof (idle_bounds (depth (am s))). destruct (inside (am s)); lia. }
  apply (run_goes asserts _ _ _ Hg); [done|by apply inv_enter|done|done].
Qed.

Lemma run_call_free_goes {A} (self : calls W) (p : prog W A) (s : sys W) :
  safe p -> call_free p -> inv (am s) -> goes asserts frame (run self p) s.
Proof.
  intros Hs Hp Hi. unfold goes. destruct (run_call_free self p s Hs Hp) as (a & w & ->). split; [done|reflexivity].
Qed.

Lemma no_calls_enough : good asserts no_calls (enough_alloc 0) (enough_free 0).
Proof.
  constructor; intros *.
  - apply enough_alloc_frame.
  - apply enough_free_frame.
  - intros _ (_ & _ & H). pose proof (idle_bounds (depth (am s))). case_match; lia.
  - intros _ (_ & _ & H). pose proof (idle_bounds (depth (am s))). case_match; lia.
  - intros _ (_ & _ & H). pose proof (idle_bounds (depth (am s))). case_match; lia.
  - intros _ (_ & _ & H). case_match; lia.
  - intros _ (_ & _ & H). case_match; lia.
  - intros _ (_ & _ & H). case_match; lia.
Qed.

Lemma enough_refill (n : nat) (a : allocman_t W) :
  enough_alloc (S n) a \/ enough_free (S n) a -> in_operation a = false -> refilling_watermark a = false ->
  refillable (enough_alloc n) (enough_free n) (fun a => depth a = no_depth) (set_refilling_watermark true a).
Proof.
  intros HP Ho Hr. assert (Hall : simple a /\ quiet a /\ 6 <= Z.of_nat (S n)).
  { unfold enough_alloc, enough_free, inside in HP. rewrite Ho, Hr in HP. cbn in HP.
    destruct HP as [(? & ? & ?)|(? & ? & ?)]; (split_and!; [done|done|lia]). }
  destruct Hall as (Hs & Hq & Hn). specialize (Hq Ho).
  unfold refillable, enough_alloc, enough_free, quiet, inside. cbn. rewrite Ho, Hq. cbn.
  assert (Hs' : simple (set_refilling_watermark true a)) by (eapply simple_frame; [|exact Hs]; done).
  change (idle no_depth) with 3. split_and!; (done || lia).
Qed.

Lemma refillable_simple (n : nat) (a : allocman_t W) :
  refillable (enough_alloc n) (enough_free n) (fun a => depth a = no_depth) a ->
  simple a /\ depth a = no_depth /\ refilling_watermark a = true /\ exists m, n = S m.
Proof.
  intros (Hr & (Hs & _ & Hn) & _ & Hd). split_and!; [done|done|done|].
  pose proof (idle_bounds (depth a)). exists (pred n). case_match; lia.
Qed.

Lemma manager_enough (n : nat) : good asserts (manager n) (enough_alloc n) (enough_free n).
Proof.
  induction n as [|n IH]; cbn [Allocman.manager]; [apply no_calls_enough|].
  apply (level_up_good asserts eq_refl vka_cnode_move move_returns loops (manager n)
    (enough_alloc n) (enough_free n) IH (fun a => depth a = no_depth)).
  - intros a a' (_ & _ & <- & _). done.
  - intros did s Hi (Hs & Hd & Hr & m & ->)%refillable_simple.
    apply (drain_enough freed_slots); auto using inv_freed_slots, set_freed_slots_ok.
    + intros. by apply cspace_free_keeps.
    + pose proof (inv_freed_slots _ Hi) as [[? ?] _]. pose proof (simple_loops _ Hs). lia.
  - intros did s Hi (Hs & Hd & Hr & m & ->)%refillable_simple.
    apply (drain_enough freed_mspace_chunks); auto using inv_freed_mspace, set_freed_mspace_ok.
    + intros. by apply mspace_free_keeps.
    + pose proof (inv_freed_mspace _ Hi) as [[? ?] _]. pose proof (simple_loops _ Hs). lia.
  - intros did s Hi (Hs & Hd & Hr & m & ->)%refillable_simple.
    apply (drain_enough freed_utspace_chunks); auto using inv_freed_utspace, set_freed_utspace_ok.
    + intros. by apply utspace_free_keeps.
    + pose proof (inv_freed_utspace _ Hi) as [[? ?] _]. pose proof (simple_loops _ Hs). lia.
  - apply enough_alloc_frame.
  - apply enough_free_frame.
  - intros a (Hs & Hq & Hn). pose proof (idle_bounds (depth a)). split_and!; [done|done|]. case_match; lia.
  - intros a (Hs & Hq & Hn). pose proof (idle_bounds (depth a)).
    split_and!; [by eapply simple_frame; [|exact Hs]|done|]. cbn. case_match; lia.
  - intros a. apply enough_refill.
  - intros m s Hi HP Hh Hc. destruct (inv_depths _ Hi) as (D1 & D2 & D3 & D4 & D5 & D6).
    apply run_enough; [done|done|by apply (inv_mspace _ Hi Hh)|done|apply depth_steps|].
    rewrite (proj1 (simple_mspace _ (proj1 HP) Hh)), (proj1 (can_default _ _ D5 D6)) in Hc. by apply idle_enter.
  - intros s Hi HP Hh Hc. destruct (inv_depths _ Hi) as (D1 & D2 & D3 & D4 & D5 & D6).
    apply run_enough; [done|done|by apply (inv_cspace _ Hi Hh)|done|apply depth_steps|].
    rewrite (proj1 (simple_cspace _ (proj1 HP) Hh)), (proj1 (can_default _ _ D1 D2)) in Hc. by apply idle_enter.
  - intros sz t p pa d s Hi HP Hh Hc. destruct (inv_depths _ Hi) as (D1 & D2 & D3 & D4 & D5 & D6).
    apply run_enough; [done|done|by apply (inv_utspace _ Hi Hh)|done|apply depth_steps|].
    rewrite (proj1 (simple_utspace _ (proj1 HP) Hh)), (proj1 (can_default _ _ D3 D4)) in Hc. by apply idle_enter.
  - intros p m s Hi HP Hh Hc. apply run_call_free_goes;
      [by apply (inv_mspace _ Hi Hh)|by apply (simple_mspace _ (proj1 HP) Hh)|by apply inv_enter, depth_steps].
  - intros p s Hi HP Hh Hc. apply run_call_free_goes;
      [by apply (inv_cspace _ Hi Hh)|by apply (simple_cspace _ (proj1 HP) Hh)|by apply inv_enter, depth_steps].
  - intros c sz s Hi HP Hh Hc. apply run_call_free_goes;
      [by apply (inv_utspace _ Hi Hh)|by apply (simple_utspace _ (proj1 HP) Hh)|by apply inv_enter, depth_steps].
Qed.

End enough.
