(* ===== verification/AllocmanSpec.v ===== *)
(** What the operations of the allocation manager (Allocman.v) guarantee, and
    a sample manager on which the theorems are exercised. *)
From S2P Require Import Prelude Cspacepath Interfaces Allocman AllocmanLevels.

(** ** Properties *)

(** The operations that the allocators and the clients call. *)
Inductive am_op : Type :=
  | AllocMspace (size : Z)
  | AllocCspace
  | AllocUtspace (size_bits type : Z) (path : cspacepath_t) (paddr : Z) (canBeDev : bool)
  | FreeMspace (ptr bytes : Z)
  | FreeCspace (path : cspacepath_t)
  | FreeUtspace (cookie size_bits : Z).

Definition am_call {W} (c : calls W) (op : am_op) : M (sys W) unit :=
  match op with
  | AllocMspace n => let! _ := call_mspace_alloc c n true in ret tt
  | AllocCspace => let! _ := call_cspace_alloc c true in ret tt
  | AllocUtspace sz t p pa d => let! _ := call_utspace_alloc c sz t p pa d true in ret tt
  | FreeMspace p n => call_mspace_free c p n
  | FreeCspace p => call_cspace_free c p
  | FreeUtspace k sz => call_utspace_free c k sz
  end.

Lemma am_call_goes {W} (allowed : fault -> Prop) (c : calls W) (Qa Qf : allocman_t W -> Prop) (op : am_op) (s : sys W) :
  good allowed c Qa Qf -> inv (am s) -> Qa (am s) -> Qf (am s) -> goes allowed frame (am_call c op) s.
Proof.
  intros Hg Hi Ha Hf.
  destruct op; cbn; try (apply goes_bind; [apply _| |intros ? ? _ ? _; by apply goes_ret; [apply _|]]).
  - by apply (good_mspace_alloc _ _ _ _ Hg).
  - by apply (good_cspace_alloc _ _ _ _ Hg).
  - by apply (good_utspace_alloc _ _ _ _ Hg).
  - by apply (good_mspace_free _ _ _ _ Hg).
  - by apply (good_cspace_free _ _ _ _ Hg).
  - by apply (good_utspace_free _ _ _ _ Hg).
Qed.

(** The kernel's system call returns. *)
Class MoveReturns {W} (vka_cnode_move : cspacepath_t -> cspacepath_t -> M W Z) : Prop :=
  move_returns : forall p q w, exists e w', vka_cnode_move p q w = Ok (e, w').

Section properties.
Context {W : Type} (vka_cnode_move : cspacepath_t -> cspacepath_t -> M W Z) `{!MoveReturns vka_cnode_move}.
Context (loops : nat).

(** C5: whatever the allocators' programs do, however they call back into
    the manager, and whatever their properties, every operation of the
    manager keeps its arrays, counters and reserves well-formed, never
    accesses an array out of bounds, and returns with [in_operation], the six
    depth counters, the refilling flag, the interfaces and the sizes of the
    reserves as it found them; when it runs inside a refill no reserve has
    grown.  The only stops are the manager's own assertions (a full queue, no
    allocator attached) and the model's bounds on levels and loops. *)
Theorem manager_preserves (n : nat) (op : am_op) (s : sys W) (Hinv : inv (am s)) :
  match am_call (manager vka_cnode_move loops n) op s with
  | Ok (_, s') => inv (am s') /\ frame (am s) (am s')
  | Fault f => f = AssertFailed \/ f = OutOfFuel
  end.
Proof.
  apply (am_call_goes stops _ anywhere anywhere); try done. by apply manager_good.
Qed.

(** C36: the levels are bounded.  If the allocators have the default
    properties and their frees do not call the manager, then from a
    well-formed manager at rest or inside an operation, seven levels of calls
    are enough for every operation to return or to stop at an assertion. *)
Theorem manager_returns (n : nat) (op : am_op) (s : sys W)
  (Hn : (7 <= n)%nat) (Hinv : inv (am s)) (Hsimple : simple loops (am s)) (Hquiet : quiet (am s)) :
  match am_call (manager vka_cnode_move loops n) op s with
  | Ok (_, s') => inv (am s') /\ frame (am s) (am s')
  | Fault f => f = AssertFailed
  end.
Proof.
  pose proof (idle_bounds (depth (am s))).
  apply (am_call_goes asserts _ (enough_alloc loops n) (enough_free loops n)); [by apply manager_enough|done|..];
    (split_and!; [done|done|case_match; lia]).
Qed.

(** While the slot allocator may not be entered, it is not: an
    allocation takes the last slot of the reserve and marks the reserves as
    used, or fails when the reserve is empty; a free goes to the queue.  The
    rest of the system is not touched. *)
Theorem blocked_cspace (self : calls W) (p : cspacepath_t) (s : sys W)
  (Hinv : inv (am s)) (Hhave : have_cspace (am s) = true) :
  (_can_alloc (c_properties (cspace (am s))) (cspace_alloc_depth (depth (am s))) (cspace_free_depth (depth (am s))) = false ->
   let v := cspace_slots (am s) in
   if v_count v =? 0 then _allocman_cspace_alloc loops self true s = Ok (1, None, s)
   else exists slot, v_array v !! Z.to_nat (v_count v - 1) = Some slot /\
     _allocman_cspace_alloc loops self true s =
       Ok (0, Some slot, Sys (set_cspace_slots (set_count v (v_count v - 1)) (set_used_watermark true (am s))) (world s))) /\
  (_can_free (c_properties (cspace (am s))) (cspace_alloc_depth (depth (am s))) (cspace_free_depth (depth (am s))) = false ->
   let v := freed_slots (am s) in
   if v_count v =? v_size v then allocman_cspace_free loops self p s = Fault AssertFailed
   else exists v', v_array v' !! Z.to_nat (v_count v) = Some p /\ v_count v' = v_count v + 1 /\
     (forall i, i <> Z.to_nat (v_count v) -> v_array v' !! i = v_array v !! i) /\
     allocman_cspace_free loops self p s = Ok (tt, Sys (set_freed_slots v' (am s)) (world s))).
Proof.
  split.
  - intros Hc v.
    assert (Heq : _allocman_cspace_alloc loops self true s = _try_watermark_cspace s).
    { unfold _allocman_cspace_alloc, bind at 1, get_am, gets. cbn [res_bind]. unfold id. by rewrite Hhave, Hc. }
    rewrite Heq. unfold _try_watermark_cspace, bind, get_am, gets, on_am, modify, lift, ret. cbn [res_bind].
    pose proof (inv_cspace_slots _ Hinv) as Hv. fold v in Hv |- *.
    destruct (Z.eqb_spec (v_count v) 0) as [|H0]; [done|].
    assert (Hpos : 0 < v_count v) by (destruct Hv as [[? ?] _]; lia).
    destruct (vec_pop_ok v Hv Hpos) as (x & v' & Hp & _ & _ & _ & Hx & _).
    exists x. split; [done|]. rewrite Hp. cbn [res_bind am world].
    unfold vec_pop in Hp. rewrite wrap_small in Hp by (destruct Hv as (? & ? & _); unfold is_word; lia).
    apply res_bind_ok in Hp as (y & _ & Hp). by simplify_eq/=.
  - intros Hc v.
    assert (Heq : allocman_cspace_free loops self p s = allocman_cspace_queue_for_free p s).
    { unfold allocman_cspace_free, bind at 1 2, get_am, gets. cbn [res_bind]. unfold id. by rewrite Hhave, Hc. }
    rewrite Heq. unfold allocman_cspace_queue_for_free, bind, get_am, gets, on_am, modify, lift. cbn [res_bind].
    pose proof (inv_freed_slots _ Hinv) as Hv. fold v in Hv |- *.
    destruct (Z.eqb_spec (v_count v) (v_size v)) as [|Hne]; [done|].
    destruct (vec_push_ok v p Hv) as (v' & Hp & _ & _ & Hcount & Hx & Hrest); [destruct Hv as [[? ?] _]; lia|].
    exists v'. split_and!; [done|done|done|]. by rewrite Hp.
Qed.

(** A configuration that fails leaves the manager in an operation for
    good.  When [resize_array] cannot allocate, or [allocman_attach_cspace]
    finds an allocator attached, it returns without ending the operation it
    started; a later configuration stops at its assertion. *)
Theorem failed_configuration_locks (n : nat) (num e ptr : Z) (s s1 : sys W) (interface : cspace_interface W)
  (self := manager vka_cnode_move loops n) (Hinv : inv (am s)) (Hidle : in_operation (am s) = false)
  (Hfail : call_mspace_alloc self (56 ⊠ num) true (Sys (set_in_operation true (am s)) (world s)) = Ok (ptr, e, s1))
  (He : e <> 0) :
  (exists s', allocman_configure_cspace_reserve loops self num s = Ok (e, s') /\ in_operation (am s') = true /\
     forall m, allocman_configure_cspace_reserve loops self m s' = Fault AssertFailed) /\
  (have_cspace (am s) = true ->
   exists s', allocman_attach_cspace loops self interface s = Ok (1, s') /\ in_operation (am s') = true /\
     forall m, allocman_configure_cspace_reserve loops self m s' = Fault AssertFailed).
Proof.
  assert (Hlock : forall m t, in_operation (am t) = true ->
            allocman_configure_cspace_reserve loops self m t = Fault AssertFailed).
  { intros m t Ht. unfold allocman_configure_cspace_reserve, resize_slots_array, resize_array, _start_operation,
      bind, get_am, gets, on_am, modify, ret, cassert, lift. cbn [res_bind]. by rewrite Ht. }
  assert (Hkeep : in_operation (am s1) = true).
  { pose proof (good_mspace_alloc _ _ _ _ (manager_good vka_cnode_move move_returns loops n) (56 ⊠ num) true
      (Sys (set_in_operation true (am s)) (world s)) (inv_set_in_operation _ true Hinv) I) as Hg.
    unfold goes in Hg. fold self in Hg. rewrite Hfail in Hg. by destruct Hg as [_ [(_ & <- & _) _]]. }
  split.
  - exists s1. split_and!; [|done|auto].
    unfold allocman_configure_cspace_reserve, resize_slots_array, resize_array, _start_operation,
      bind, get_am, gets, on_am, modify, ret, cassert, lift. cbn [res_bind]. rewrite Hidle. cbn [negb rassert res_bind].
    unfold sizeof_cspacepath_t. rewrite Hfail. cbn [res_bind]. by rewrite (proj2 (Z.eqb_neq e 0)).
  - intros Hh. exists (Sys (set_in_operation true (am s)) (world s)). split_and!; [|done|auto].
    unfold allocman_attach_cspace, _start_operation, bind, get_am, gets, on_am, modify, ret, cassert, lift.
    cbn [res_bind]. rewrite Hidle. cbn. by rewrite Hh.
Qed.

End properties.

(** ** Configuring the reserves *)

Section configure.
Context {W : Type} (vka_cnode_move : cspacepath_t -> cspacepath_t -> M W Z) `{!MoveReturns vka_cnode_move}.
Context (loops n : nat).
Local Abbreviation self := (manager vka_cnode_move loops n).

Lemma end_any {A} (a : allocman_t W) (r : A) (s : sys W) :
  inv (am s) -> depth (am s) = depth a ->
  ends stops a (bind (_end_operation loops self (negb (in_operation a))) (fun _ => ret r)) s.
Proof.
  intros Hi Hd. pose proof (manager_good vka_cnode_move move_returns loops n) as Hg.
  apply (end_ends stops loops self anywhere anywhere Hg anywhere); try done.
  - intros did t Ht _. apply drain_any; [|apply inv_freed_slots|apply set_freed_slots_ok|done].
    intros x s' Hi'. by apply (good_cspace_free _ _ _ _ Hg).
  - intros did t Ht _. apply drain_any; [|apply inv_freed_mspace|apply set_freed_mspace_ok|done].
    intros x s' Hi'. by apply (good_mspace_free _ _ _ _ Hg).
  - intros did t Ht _. apply drain_any; [|apply inv_freed_utspace|apply set_freed_utspace_ok|done].
    intros x s' Hi'. by apply (good_utspace_free _ _ _ _ Hg).
Qed.

(** [m] ends the operation that began in [a], and [chunks] goes from [before]
    to [after] if it returns 0. *)
Definition configures {C} (chunks : allocman_t W -> list C) (a : allocman_t W) (after : list C) (m : M (sys W) Z) (s : sys W) : Prop :=
  match m s with
  | Ok (e, s') => inv (am s') /\ in_operation (am s') = in_operation a /\ depth (am s') = depth a /\
      chunks (am s') = (if e =? 0 then after else chunks a)
  | Fault f => stops f
  end.

Context {C : Type} (chunks : allocman_t W -> list C) (chunks_static : forall a b, static a = static b -> chunks a = chunks b).

Lemma configures_alloc (a : allocman_t W) (after : list C) (bytes : Z) (k : Z * Z -> M (sys W) Z) (s : sys W) :
  inv (am s) -> frame0 (set_in_operation true a) (am s) ->
  (forall p e s', inv (am s') -> frame0 (set_in_operation true a) (am s') -> configures chunks a after (k (p, e)) s') ->
  configures chunks a after (bind (call_mspace_alloc self bytes true) k) s.
Proof.
  intros Hi HF Hk.
  pose proof (good_mspace_alloc _ _ _ _ (manager_good vka_cnode_move move_returns loops n) bytes true s Hi I) as Hg.
  unfold goes in Hg. unfold configures, bind. destruct (call_mspace_alloc self bytes true s) as [[[p e] s']|f]; [|done].
  destruct Hg as [Hi' [HF' _]]. apply Hk; [done|by transitivity (am s)].
Qed.

Lemma configures_free (a : allocman_t W) (after : list C) (ptr bytes : Z) (k : unit -> M (sys W) Z) (s : sys W) :
  inv (am s) -> frame0 (set_in_operation true a) (am s) ->
  (forall s', inv (am s') -> frame0 (set_in_operation true a) (am s') -> configures chunks a after (k tt) s') ->
  configures chunks a after (bind (call_mspace_free self ptr bytes) k) s.
Proof.
  intros Hi HF Hk.
  pose proof (good_mspace_free _ _ _ _ (manager_good vka_cnode_move move_returns loops n) ptr bytes s Hi I) as Hg.
  unfold goes in Hg. unfold configures, bind. destruct (call_mspace_free self ptr bytes s) as [[[] s']|f]; [|done].
  destruct Hg as [Hi' [HF' _]]. apply Hk; [done|by transitivity (am s)].
Qed.

Lemma configures_goes {A} (a : allocman_t W) (after : list C) (m : M (sys W) A) (k : A -> M (sys W) Z) (s : sys W) :
  frame0 (set_in_operation true a) (am s) -> goes stops frame m s ->
  (forall x s', inv (am s') -> frame0 (set_in_operation true a) (am s') -> configures chunks a after (k x) s') ->
  configures chunks a after (bind m k) s.
Proof.
  intros HF Hg Hk. unfold goes in Hg. unfold configures, bind. destruct (m s) as [[x s']|f]; [|done].
  destruct Hg as [Hi' [HF' _]]. apply Hk; [done|by transitivity (am s)].
Qed.

(** The frees of the three old arrays. *)
Lemma free_three_goes (b : bool) (p1 n1 p2 n2 p3 n3 : Z) (s : sys W) : inv (am s) ->
  goes stops frame
    (if b then
       let! _ := call_mspace_free self p1 n1 in
       let! _ := call_mspace_free self p2 n2 in
       call_mspace_free self p3 n3
     else ret tt) s.
Proof.
  intros Hi. pose proof (manager_good vka_cnode_move move_returns loops n) as Hg.
  destruct b; [|by apply goes_ret; [apply _|]].
  apply goes_bind; [apply _|by apply (good_mspace_free _ _ _ _ Hg)|]. intros ? s1 _ H1 _.
  apply goes_bind; [apply _|by apply (good_mspace_free _ _ _ _ Hg)|]. intros ? s2 _ H2 _.
  by apply (good_mspace_free _ _ _ _ Hg).
Qed.

Lemma configures_exit (a : allocman_t W) (after : list C) (e : Z) (s : sys W) :
  inv (am s) -> depth (am s) = depth a -> chunks (am s) = (if e =? 0 then after else chunks a) ->
  configures chunks a after (configure_exit loops self (negb (in_operation a)) e) s.
Proof.
  intros Hi Hd Hc. pose proof (end_any a e s Hi Hd) as H. unfold configures, ends, configure_exit in *.
  destruct (bind _ _ s) as [[e' s']|f] eqn:He; [|done]. destruct H as (Hi' & (Hst & _) & Ho & Hdep).
  assert (e' = e) as ->.
  { unfold bind, ret in He. apply res_bind_ok in He as ([[] ?] & _ & He). by simplify_eq/=. }
  split_and!; [done|by symmetry|by symmetry|]. by rewrite <- Hc, (chunks_static _ _ Hst).
Qed.

Lemma configures_abort (a : allocman_t W) (after : list C) (e : Z) (s : sys W) :
  inv (am s) -> frame0 (set_in_operation true a) (am s) -> (e =? 0) = false ->
  configures chunks a after (configure_exit loops self (negb (in_operation a)) e) s.
Proof.
  intros Hi (Hst & _ & Hd & _) He. apply configures_exit; [done|by rewrite <- Hd|]. rewrite He.
  symmetry. apply chunks_static. exact Hst.
Qed.

Lemma configures_start (after : list C) (k : bool -> M (sys W) Z) (s : sys W) :
  configures chunks (am s) after (k (negb (in_operation (am s)))) (Sys (set_in_operation true (am s)) (world s)) ->
  configures chunks (am s) after (bind _start_operation k) s.
Proof. done. Qed.

Lemma configures_get {A} (a : allocman_t W) (after : list C) (f : allocman_t W -> A) (k : A -> M (sys W) Z) (s : sys W) :
  configures chunks a after (k (f (am s))) s -> configures chunks a after (bind (get_am f) k) s.
Proof. done. Qed.

Lemma configures_lift {A} (a : allocman_t W) (after : list C) (r : res A) (x : A) (k : A -> M (sys W) Z) (s : sys W) :
  r = Ok x -> configures chunks a after (k x) s -> configures chunks a after (bind (lift r) k) s.
Proof. by intros ->. Qed.

Lemma configures_set (a : allocman_t W) (after : list C) (f : allocman_t W -> allocman_t W) (k : unit -> M (sys W) Z) (s : sys W) :
  configures chunks a after (k tt) (Sys (f (am s)) (world s)) -> configures chunks a after (bind (on_am f) k) s.
Proof. done. Qed.

Lemma find_chunk_ok {D} (same : D -> bool) (l : list D) (m : nat) (i : Z) :
  0 <= i -> i + Z.of_nat m = Z.of_nat (length l) -> exists b, find_chunk same l m i = Ok b.
Proof.
  revert i. induction m as [|m IH]; intros i Hi Hm; cbn [find_chunk]; [eauto|].
  destruct (arr_get_in l i) as (x & -> & _); [lia|]. cbn [res_bind]. case_match; [eauto|]. apply IH; lia.
Qed.

End configure.

Lemma reserve_append {C E} (size : C -> Z) (r : reserve C E) (c : C) (x : E) (p1 p2 p3 : Z) :
  reserve_ok size r -> r_num r + 1 < word_size -> 0 <= size c < word_size ->
  reserve_ok size (Reserve (r_num r ⊞ 1) p1 (r_chunk r ++ [c]) p2 (r_counts r ++ [0]) p3
    (r_chunks r ++ [replicate (Z.to_nat (size c)) x])).
Proof.
  intros (Hn & (Hw & Hl1 & Hl2) & H) Hlt Hc. rewrite wrap_small by (unfold is_word; lia).
  split_and!; cbn; rewrite ?length_app; cbn; [lia|lia|lia|lia|]. intros i d Hd.
  destruct (decide (i < length (r_chunk r))%nat) as [Hi|Hi].
  - rewrite lookup_app_l in Hd by done. destruct (H _ _ Hd) as (k & l & Hk & Hl & Hb).
    exists k, l. rewrite !lookup_app_l by lia. done.
  - rewrite lookup_app_r in Hd by lia. apply list_lookup_singleton_Some in Hd as [Hi' <-].
    exists 0, (replicate (Z.to_nat (size c)) x). rewrite !lookup_app_r by lia.
    replace (i - length (r_counts r))%nat with O by lia. replace (i - length (r_chunks r))%nat with O by lia.
    rewrite length_replicate. split_and!; try done; lia.
Qed.

Section configure_properties.
Context {W : Type} (vka_cnode_move : cspacepath_t -> cspacepath_t -> M W Z) `{!MoveReturns vka_cnode_move}.
Context (loops n : nat).
Local Abbreviation self := (manager vka_cnode_move loops n).

Lemma inv_reserves (a b : allocman_t W) : inv a -> frame0 (set_in_operation true a) b -> inv b ->
  r_num (mspace_reserve b) = r_num (mspace_reserve a) /\ r_chunk (mspace_reserve b) = r_chunk (mspace_reserve a) /\
  r_num (utspace_reserve b) = r_num (utspace_reserve a) /\ r_chunk (utspace_reserve b) = r_chunk (utspace_reserve a).
Proof. intros _ (Hst & _) _. unfold static in Hst. cbn in Hst. by simplify_eq. Qed.

(** One allocation of a configuration, with the [goto exit] of its failure. *)
Local Ltac alloc_step Hch :=
  apply (configures_alloc vka_cnode_move loops n); [done|done|]; intros ? ? ? ? ?; cbn beta iota;
  match goal with |- context [negb (?e =? 0)] => destruct (e =? 0) eqn:?; cbn [negb] end;
  [|repeat (apply (configures_free vka_cnode_move loops n); [done|done|]; intros ? ? ?);
    by apply (configures_abort vka_cnode_move loops n _ Hch)].

(** Adding a chunk to the memory reserve either appends it, or returns an
    error and leaves the list of chunks as it was; in both cases the
    operation is ended, the reserve is well-formed and the depths restored. *)
Theorem configure_mspace_reserve_spec (chunk : allocman_mspace_chunk) (s : sys W)
  (Hinv : inv (am s)) (Hnum : r_num (mspace_reserve (am s)) + 1 < word_size) (Hcount : 0 <= mc_count chunk < word_size) :
  match allocman_configure_mspace_reserve loops self chunk s with
  | Ok (e, s') => inv (am s') /\ in_operation (am s') = in_operation (am s) /\ depth (am s') = depth (am s) /\
      r_chunk (mspace_reserve (am s')) =
        (if e =? 0 then r_chunk (mspace_reserve (am s)) ++ [chunk] else r_chunk (mspace_reserve (am s)))
  | Fault f => f = AssertFailed \/ f = OutOfFuel
  end.
Proof.
  set (ch := fun a : allocman_t W => r_chunk (mspace_reserve a)).
  assert (Hch : forall a b, static a = static b -> ch a = ch b).
  { intros a b H. unfold ch, static in *. by simplify_eq. }
  change (configures ch (am s) (ch (am s) ++ [chunk]) (allocman_configure_mspace_reserve loops self chunk) s).
  unfold allocman_configure_mspace_reserve. apply configures_start, configures_get.
  pose proof (inv_set_in_operation _ true Hinv) as Hi1. pose proof (inv_mspace_reserve _ Hinv) as (Hn & _ & _).
  destruct (find_chunk_ok (fun c => mc_size c =? mc_size chunk) (r_chunk (mspace_reserve (am s)))
    (Z.to_nat (r_num (mspace_reserve (am s)))) 0) as [b Hb]; [lia|lia|].
  eapply configures_lift; [exact Hb|]. destruct b.
  { by apply (configures_abort vka_cnode_move loops n _ Hch). }
  alloc_step Hch. alloc_step Hch. alloc_step Hch. alloc_step Hch. apply configures_get.
  match goal with |- configures _ _ _ _ ?t => pose proof (inv_reserves _ (am t) Hinv ltac:(done) ltac:(done)) as (Er & Ec & _ & _) end.
  eapply configures_goes; [done|by apply free_three_goes|]. intros [] t Ht HFt. cbn beta.
  apply configures_set, configures_set. apply (configures_exit vka_cnode_move loops n _ Hch).
  - apply inv_set_used, inv_set_mspace_reserve; [done|]. cbn [am mspace_reserve set_in_operation]. rewrite <- Er.
    apply (reserve_append mc_count); [by apply inv_mspace_reserve|lia|done].
  - destruct HFt as (_ & _ & Hd & _). by symmetry.
  - match goal with H : (?e =? 0) = true |- context [?e =? 0] => rewrite H end. unfold ch. cbn. by rewrite Ec.
Qed.

(** Adding a chunk to the untyped reserve either appends it, or returns an
    error and leaves the list of chunks as it was; in both cases the
    operation is ended, the reserve is well-formed and the depths restored. *)
Theorem configure_utspace_reserve_spec (chunk : allocman_utspace_chunk) (s : sys W)
  (Hinv : inv (am s)) (Hnum : r_num (utspace_reserve (am s)) + 1 < word_size) (Hcount : 0 <= uc_count chunk < word_size) :
  match allocman_configure_utspace_reserve loops self chunk s with
  | Ok (e, s') => inv (am s') /\ in_operation (am s') = in_operation (am s) /\ depth (am s') = depth (am s) /\
      r_chunk (utspace_reserve (am s')) =
        (if e =? 0 then r_chunk (utspace_reserve (am s)) ++ [chunk] else r_chunk (utspace_reserve (am s)))
  | Fault f => f = AssertFailed \/ f = OutOfFuel
  end.
Proof.
  set (ch := fun a : allocman_t W => r_chunk (utspace_reserve a)).
  assert (Hch : forall a b, static a = static b -> ch a = ch b).
  { intros a b H. unfold ch, static in *. by simplify_eq. }
  change (configures ch (am s) (ch (am s) ++ [chunk]) (allocman_configure_utspace_reserve loops self chunk) s).
  unfold allocman_configure_utspace_reserve. apply configures_start, configures_get.
  pose proof (inv_set_in_operation _ true Hinv) as Hi1. pose proof (inv_utspace_reserve _ Hinv) as (Hn & _ & _).
  destruct (find_chunk_ok (fun c => (uc_size_bits c =? uc_size_bits chunk) && (uc_type c =? uc_type chunk)) (r_chunk (utspace_reserve (am s)))
    (Z.to_nat (r_num (utspace_reserve (am s)))) 0) as [b Hb]; [lia|lia|].
  eapply configures_lift; [exact Hb|]. destruct b.
  { by apply (configures_abort vka_cnode_move loops n _ Hch). }
  alloc_step Hch. alloc_step Hch. alloc_step Hch. alloc_step Hch. apply configures_get.
  match goal with |- configures _ _ _ _ ?t => pose proof (inv_reserves _ (am t) Hinv ltac:(done) ltac:(done)) as (_ & _ & Er & Ec) end.
  eapply configures_goes; [done|by apply free_three_goes|]. intros [] t Ht HFt. cbn beta.
  apply configures_set, configures_set. apply (configures_exit vka_cnode_move loops n _ Hch).
  - apply inv_set_used, inv_set_utspace_reserve; [done|]. cbn [am utspace_reserve set_in_operation]. rewrite <- Er.
    apply (reserve_append uc_count); [by apply inv_utspace_reserve|lia|done].
  - destruct HFt as (_ & _ & Hd & _). by symmetry.
  - match goal with H : (?e =? 0) = true |- context [?e =? 0] => rewrite H end. unfold ch. cbn. by rewrite Ec.
Qed.

End configure_properties.

(** ** A sample manager

    Memory and slots are numbered by a counter; the slot allocator allocates
    memory for itself, and the untyped allocator a slot. *)

Definition sample_move (p q : cspacepath_t) : M Z Z := ret 0.

#[export] Instance sample_move_returns : MoveReturns sample_move.
Proof. intros p q w. exists 0, w. done. Qed.

Definition path_of (x : Z) : cspacepath_t := Cspacepath x 64 2 0 0 x 1.

Definition sample_mspace : mspace_interface Z :=
  MspaceInterface (fun n => Read (fun w => Write (w + n) (Return (w, 0)))) (fun p n => Return tt)
    ALLOCMAN_DEFAULT_PROPERTIES.
Definition sample_cspace : cspace_interface Z :=
  CspaceInterface (MspaceAlloc 8 (fun '(p, e) => if e =? 0 then Return (0, Some (path_of p)) else Return (e, None)))
    (fun p => Return tt) (fun x => Return (path_of x)) ALLOCMAN_DEFAULT_PROPERTIES.
Definition sample_utspace : utspace_interface Z :=
  UtspaceInterface (fun sz t p pa d => CspaceAlloc (fun '(e, o) => Return (capPtr (default no_path o), e)))
    (fun c sz => Return tt) (fun l t => Return 0) (fun c sz => Return 0) ALLOCMAN_DEFAULT_PROPERTIES.

(** A reserve of two slots with one in it, one chunk of 64 bytes, and one
    untyped of 2^4 bytes wanted; the queues hold up to two. *)
Definition sample_am : allocman_t Z :=
  Allocman true sample_mspace true sample_cspace true sample_utspace false no_depth false true
    (Vec 2 0 100 [no_path; no_path]) (Vec 2 0 200 [FreedMspace 0 0; FreedMspace 0 0])
    (Vec 2 0 300 [FreedUtspace 0 0; FreedUtspace 0 0]) (Vec 2 1 400 [path_of 7; no_path])
    (Reserve 1 500 [MspaceChunk 64 1] 508 [0] 516 [[0]])
    (Reserve 1 600 [UtspaceChunk 4 2 1] 608 [0] 616 [[UtspaceAllocation 0 no_path]]).

Definition sample_sys : sys Z := Sys sample_am 1000.

Lemma sample_inv : inv sample_am.
Proof.
  constructor; try (repeat split; unfold word_size; cbn; lia).
  - repeat split; unfold word_size; cbn; try lia. intros i c Hc. destruct i as [|[|]]; try done. injection Hc as <-.
    exists 0, [0]. repeat split; unfold word_size; cbn; lia.
  - repeat split; unfold word_size; cbn; try lia. intros i c Hc. destruct i as [|[|]]; try done. injection Hc as <-.
    exists 0, [UtspaceAllocation 0 no_path]. repeat split; unfold word_size; cbn; lia.
  - intros _. split; intros; repeat constructor.
  - intros _. split; intros; repeat constructor. intros [p e]. case_match; constructor.
  - intros _. split; intros; repeat constructor. intros [e o]. constructor.
Qed.

Lemma sample_simple : simple 3 sample_am.
Proof. constructor; try (intros _; split; [done|intros; repeat constructor]). cbn. lia. Qed.

Lemma sample_in_operation_inv : inv (set_in_operation true sample_am).
Proof. apply inv_set_in_operation, sample_inv. Qed.

(** The manager in the middle of a slot allocation. *)
Definition blocked_sys : sys Z :=
  Sys (set_depth (add_cspace_alloc_depth 1 no_depth) (set_in_operation true sample_am)) 1000.

Lemma blocked_inv : inv (am blocked_sys).
Proof. apply inv_set_depth; [apply sample_in_operation_inv|]. repeat split; cbn; vm_compute; done. Qed.

(** An allocation at rest also refills the three reserves. *)
Example sample_refills :
  match am_call (manager sample_move 3 7) AllocCspace sample_sys with
  | Ok (_, s) => v_count (cspace_slots (am s)) = 2 /\ r_counts (mspace_reserve (am s)) = [1] /\
                 r_counts (utspace_reserve (am s)) = [1] /\ used_watermark (am s) = false
  | Fault _ => False
  end.
Proof. vm_compute. repeat split. Qed.

Lemma manager_preserves_witness :
  match am_call (manager sample_move 3 7) (AllocUtspace 4 2 (path_of 5) 1 false) sample_sys with
  | Ok (_, s') => inv (am s') /\ frame sample_am (am s')
  | Fault f => f = AssertFailed \/ f = OutOfFuel
  end.
Proof. apply (manager_preserves sample_move 3 7 (AllocUtspace 4 2 (path_of 5) 1 false) sample_sys). exact sample_inv. Defined.

Lemma manager_returns_witness :
  match am_call (manager sample_move 3 7) (AllocUtspace 4 2 (path_of 5) 1 false) sample_sys with
  | Ok (_, s') => inv (am s') /\ frame sample_am (am s')
  | Fault f => f = AssertFailed
  end.
Proof.
  apply (manager_returns sample_move 3 7 (AllocUtspace 4 2 (path_of 5) 1 false) sample_sys).
  - lia.
  - exact sample_inv.
  - exact sample_simple.
  - intros _. reflexivity.
Defined.

Lemma blocked_cspace_witness :
  _allocman_cspace_alloc 3 (manager sample_move 3 0) true blocked_sys =
    Ok (0, Some (path_of 7), Sys (set_cspace_slots (set_count (cspace_slots sample_am) 0)
                                    (set_used_watermark true (am blocked_sys))) 1000) /\
  exists v', v_array v' !! O = Some (path_of 9) /\
    allocman_cspace_free 3 (manager sample_move 3 0) (path_of 9) blocked_sys =
      Ok (tt, Sys (set_freed_slots v' (am blocked_sys)) 1000).
Proof.
  destruct (blocked_cspace 3 (manager sample_move 3 0) (path_of 9) blocked_sys blocked_inv eq_refl) as [Ha Hf].
  split.
  - destruct (Ha eq_refl) as (slot & Hs & Heq). injection Hs as <-. exact Heq.
  - destruct (Hf eq_refl) as (v' & Hs & _ & _ & Heq). exists v'. split; [exact Hs|exact Heq].
Defined.

(** The same manager with a memory allocator that has nothing left, and no
    reserve of the size asked for. *)
Definition starved_sys : sys Z :=
  Sys (set_mspace (MspaceInterface (fun n => Return (0, 1)) (fun p n => Return tt) ALLOCMAN_DEFAULT_PROPERTIES) sample_am) 0.

Lemma starved_inv : inv (am starved_sys).
Proof. destruct sample_inv. constructor; try done. intros _. split; intros; repeat constructor. Qed.

Lemma failed_configuration_locks_witness :
  let self := manager sample_move 3 7 in
  (exists s', allocman_configure_cspace_reserve 3 self 4 starved_sys = Ok (1, s') /\ in_operation (am s') = true /\
     forall m, allocman_configure_cspace_reserve 3 self m s' = Fault AssertFailed) /\
  (have_cspace (am starved_sys) = true ->
   exists s', allocman_attach_cspace 3 self sample_cspace starved_sys = Ok (1, s') /\ in_operation (am s') = true /\
     forall m, allocman_configure_cspace_reserve 3 self m s' = Fault AssertFailed).
Proof.
  refine (failed_configuration_locks sample_move 3 7 4 1 0 starved_sys
    (Sys (set_in_operation true (am starved_sys)) 0) sample_cspace starved_inv eq_refl _ _).
  - vm_compute. reflexivity.
  - lia.
Defined.

Lemma configure_mspace_reserve_spec_witness :
  match allocman_configure_mspace_reserve 3 (manager sample_move 3 7) (MspaceChunk 32 4) sample_sys with
  | Ok (e, s') => inv (am s') /\ in_operation (am s') = false /\ depth (am s') = no_depth /\
      r_chunk (mspace_reserve (am s')) = (if e =? 0 then [MspaceChunk 64 1; MspaceChunk 32 4] else [MspaceChunk 64 1])
  | Fault f => f = AssertFailed \/ f = OutOfFuel
  end.
Proof.
  apply (configure_mspace_reserve_spec sample_move 3 7 (MspaceChunk 32 4) sample_sys sample_inv).
  - unfold word_size; cbn; lia.
  - unfold word_size; cbn; lia.
Defined.

Lemma configure_utspace_reserve_spec_witness :
  match allocman_configure_utspace_reserve 3 (manager sample_move 3 7) (UtspaceChunk 12 1 4) sample_sys with
  | Ok (e, s') => inv (am s') /\ in_operation (am s') = false /\ depth (am s') = no_depth /\
      r_chunk (utspace_reserve (am s')) = (if e =? 0 then [UtspaceChunk 4 2 1; UtspaceChunk 12 1 4] else [UtspaceChunk 4 2 1])
  | Fault f => f = AssertFailed \/ f = OutOfFuel
  end.
Proof.
  apply (configure_utspace_reserve_spec sample_move 3 7 (UtspaceChunk 12 1 4) sample_sys sample_inv).
  - unfold word_size; cbn; lia.
  - unfold word_size; cbn; lia.
Defined.
