(* ===== verification/AllocmanVka.v ===== *)
(** The adapters between the allocation manager and the interface of
    libsel4vka: the manager as a [vka_t] (libsel4allocman/src/vka.c), and a
    [vka_t] as the manager's allocator of slots and of untypeds
    (include/allocman/cspace/vka.h, include/allocman/utspace/vka.h), with
    malloc as its allocator of memory (src/mspace/malloc.c).

    The assertions that pointers are not null have no counterpart. *)
From S2P Require Import Prelude Cspacepath Interfaces Objects Vka Allocman.

(** ** The manager as a vka *)

Section am_vka.
Context {W : Type} {seL4 : SeL4Constants} (loops : nat) (alloc : calls W).
Local Abbreviation sys := (sys W).

Definition am_vka_cspace_alloc : M sys (Z * option Z) :=
  let! (error, path) := call_cspace_alloc alloc true in
  ret (error, if error =? 0 then Some (capPtr (default no_path path)) else None).

Definition am_vka_cspace_make_path (slot : Z) : M sys cspacepath_t :=
  allocman_cspace_make_path alloc slot.

Definition am_vka_cspace_free (slot : Z) : M sys unit :=
  let! path := allocman_cspace_make_path alloc slot in
  call_cspace_free alloc path.

Definition am_vka_utspace_alloc_maybe_device (dest : cspacepath_t) (type size_bits : Z) (can_use_dev : bool)
    : M sys (Z * option Z) :=
  let size_bits := vka_get_object_size type size_bits in
  let! (res, error) := call_utspace_alloc alloc size_bits type dest ALLOCMAN_NO_PADDR can_use_dev true in
  ret (error, Some res).

Definition am_vka_utspace_alloc (dest : cspacepath_t) (type size_bits : Z) : M sys (Z * option Z) :=
  am_vka_utspace_alloc_maybe_device dest type size_bits false.

Definition am_vka_utspace_alloc_at (dest : cspacepath_t) (type size_bits paddr : Z) : M sys (Z * option Z) :=
  let size_bits := vka_get_object_size type size_bits in
  let! (res, error) := call_utspace_alloc alloc size_bits type dest paddr true true in
  ret (error, Some res).

Definition am_vka_utspace_free (type size_bits target : Z) : M sys unit :=
  call_utspace_free alloc target (vka_get_object_size type size_bits).

Definition am_vka_utspace_paddr (target type size_bits : Z) : M sys Z :=
  allocman_utspace_paddr alloc target (vka_get_object_size type size_bits).

Definition allocman_make_vka : vka_t sys := {|
  cspace_alloc := Some am_vka_cspace_alloc;
  cspace_make_path := Some am_vka_cspace_make_path;
  utspace_alloc := Some am_vka_utspace_alloc;
  utspace_alloc_maybe_device := Some am_vka_utspace_alloc_maybe_device;
  utspace_alloc_at := Some am_vka_utspace_alloc_at;
  cspace_free := Some am_vka_cspace_free;
  utspace_free := Some am_vka_utspace_free;
  utspace_paddr := Some am_vka_utspace_paddr
|}.

End am_vka.

(** ** A vka as the manager's allocators *)

Record utspace_vka_cookie_t : Type := UtspaceVkaCookie { original_cookie : Z; ck_type : Z }.

(** The state of the vka (and of malloc), and the cookies on the heap. *)
Record proxied (V : Type) : Type := Proxied { behind : V; cookies : gmap Z utspace_vka_cookie_t }.
Arguments Proxied {V} _ _.
Arguments behind {V} _.
Arguments cookies {V} _.

(** A computation that does not call the manager, as a program. *)
Definition plain {W A} (m : M W A) : prog W A :=
  Read (fun w => match m w with Ok (a, w') => Write w' (Return a) | Fault f => Crash f end).

Section proxy.
Context {V : Type} `{!Malloc V} {seL4 : SeL4Constants} (vka : vka_t V).

Definition on_behind {A} (m : M V A) : M (proxied V) A := fun s =>
  let? (a, v) := m (behind s) in Ok (a, Proxied v (cookies s)).

Definition load_cookie (ptr : Z) : M (proxied V) utspace_vka_cookie_t := fun s =>
  match cookies s !! ptr with Some c => Ok (c, s) | None => Fault NullPointer end.
Definition store_cookie (ptr : Z) (c : utspace_vka_cookie_t) : M (proxied V) unit :=
  modify (fun s => Proxied (behind s) (<[ptr := c]> (cookies s))).

Definition _utspace_vka_alloc (size_bits type : Z) (slot : cspacepath_t) (paddr : Z) (canBeDevice : bool)
    : M (proxied V) (Z * Z) :=
  let sel4_size_bits := get_sel4_object_size type size_bits in
  let! cookie := on_behind (malloc 16) in
  if cookie =? 0 then ret (0, 1)
  else
    let! (_error, original) :=
      (if paddr =? ALLOCMAN_NO_PADDR then on_behind (vka_utspace_alloc (Some vka) slot type sel4_size_bits)
       else on_behind (vka_utspace_alloc_at (Some vka) slot type sel4_size_bits paddr)) in
    if _error =? 0 then
      let! _ := store_cookie cookie (UtspaceVkaCookie (default 0 original) type) in
      ret (cookie, 0)
    else
      let! _ := on_behind (free cookie) in
      ret (0, _error).

(** The arguments of [vka_utspace_free] are type, size and target. *)
Definition _utspace_vka_free (cookie size_bits : Z) : M (proxied V) unit :=
  let! c := load_cookie cookie in
  on_behind (vka_utspace_free (Some vka) (original_cookie c) (ck_type c) (get_sel4_object_size (ck_type c) size_bits)).

Definition _utspace_vka_paddr (cookie size_bits : Z) : M (proxied V) Z :=
  let! c := load_cookie cookie in
  on_behind (vka_utspace_paddr (Some vka) (original_cookie c) (ck_type c) (get_sel4_object_size (ck_type c) size_bits)).

Definition _utspace_vka_add_uts (uts : list (cspacepath_t * Z * Z)) (utType : Z) : M (proxied V) Z :=
  stop AssertFailed.

Definition utspace_vka_make_interface : utspace_interface (proxied V) :=
  UtspaceInterface (fun sz t p pa d => plain (_utspace_vka_alloc sz t p pa d))
    (fun c sz => plain (_utspace_vka_free c sz)) (fun uts t => plain (_utspace_vka_add_uts uts t))
    (fun c sz => plain (_utspace_vka_paddr c sz)) ALLOCMAN_DEFAULT_PROPERTIES.

Definition _cspace_vka_make_path (slot : Z) : M (proxied V) cspacepath_t :=
  on_behind (vka_cspace_make_path (Some vka) slot).
Definition _cspace_vka_alloc : M (proxied V) (Z * option cspacepath_t) :=
  on_behind (vka_cspace_alloc_path (Some vka)).
Definition _cspace_vka_free (slot : cspacepath_t) : M (proxied V) unit :=
  on_behind (vka_cspace_free (Some vka) (capPtr slot)).

Definition cspace_vka_make_interface : cspace_interface (proxied V) :=
  CspaceInterface (plain _cspace_vka_alloc) (fun p => plain (_cspace_vka_free p))
    (fun slot => plain (_cspace_vka_make_path slot)) ALLOCMAN_DEFAULT_PROPERTIES.

Definition _mspace_malloc_alloc (bytes : Z) : M (proxied V) (Z * Z) :=
  let! result := on_behind (malloc bytes) in
  ret (result, if result =? 0 then 1 else 0).
Definition _mspace_malloc_free (ptr bytes : Z) : M (proxied V) unit := on_behind (free ptr).

Definition mspace_malloc_interface : mspace_interface (proxied V) :=
  MspaceInterface (fun n => plain (_mspace_malloc_alloc n)) (fun p n => plain (_mspace_malloc_free p n))
    ALLOCMAN_DEFAULT_PROPERTIES.

Definition allocman_make_from_vka (loops : nat) (alloc : calls (proxied V)) : M (sys (proxied V)) Z := fun s =>
  (let! error := allocman_attach_utspace loops alloc utspace_vka_make_interface in
   let! _ := cassert (error =? 0) in
   let! error := allocman_attach_cspace loops alloc cspace_vka_make_interface in
   let! _ := cassert (error =? 0) in
   ret 0) (allocman_create mspace_malloc_interface (world s)).

End proxy.

(** ** Properties *)

Section properties.
Context {V : Type} `{!Malloc V} {seL4 : SeL4Constants} (vka : vka_t V).
Context (vka_cnode_move : cspacepath_t -> cspacepath_t -> M (proxied V) Z) (loops n : nat).
Local Abbreviation alloc := (manager vka_cnode_move loops (S n)).

(** The manager that [allocman_make_from_vka] makes. *)
Definition made (w : proxied V) : sys (proxied V) :=
  Sys (Allocman true mspace_malloc_interface true (cspace_vka_make_interface vka) true (utspace_vka_make_interface vka)
         false (Depths 0 0 0 0 0 0) false false zero_vec zero_vec zero_vec zero_vec zero_reserve zero_reserve) w.

Lemma make_from_vka_made (s : sys (proxied V)) :
  allocman_make_from_vka vka loops alloc s = Ok (0, made (world s)).
Proof. reflexivity. Qed.

Lemma plain_run {W A} (self : calls W) (m : M W A) (s : sys W) :
  run self (plain m) s = let? (a, w) := m (world s) in Ok (a, Sys (am s) w).
Proof. unfold plain. cbn [run]. by destruct (m (world s)) as [[a w]|f]. Qed.


(** Allocating an untyped from a manager made from a vka is allocating it
    from the vka.  The two conversions of the size cancel for a CNode and
    otherwise pass the size of the object on; an object that the vka gives is
    returned under the address of a fresh cookie, which remembers the vka's
    own; when the vka has none, the cookie is freed and 1 is returned.  The
    manager itself is as before. *)
Theorem make_from_vka_utspace_alloc (dest : cspacepath_t) (type size_bits ptr e : Z) (original : option Z)
  (w : V) (cs : gmap Z utspace_vka_cookie_t) (w1 w2 : V)
  (Hlabels : NoDup case_labels) (Hsize : is_word size_bits) (Hptr : ptr <> 0)
  (Hmalloc : malloc 16 w = Ok (ptr, w1))
  (Hvka : vka_utspace_alloc (Some vka) dest type
            (if type =? seL4_CapTableObject then size_bits else vka_get_object_size type size_bits) w1
          = Ok (e, original, w2)) :
  am_vka_utspace_alloc alloc dest type size_bits (made (Proxied w cs)) =
  if e =? 0 then Ok (0, Some ptr, made (Proxied w2 (<[ptr := UtspaceVkaCookie (default 0 original) type]> cs)))
  else let? (_, w3) := free ptr w2 in Ok (1, Some 0, made (Proxied w3 cs)).
Proof.
  assert (Hrun : _utspace_vka_alloc vka (vka_get_object_size type size_bits) type dest ALLOCMAN_NO_PADDR false (Proxied w cs) =
    if e =? 0 then Ok ((ptr, 0), Proxied w2 (<[ptr := UtspaceVkaCookie (default 0 original) type]> cs))
    else let? (_, w3) := free ptr w2 in Ok ((0, e), Proxied w3 cs)).
  { unfold _utspace_vka_alloc. rewrite get_sel4_object_size_of_memory by done.
    unfold bind, on_behind. cbn [behind cookies]. rewrite Hmalloc. cbn [res_bind behind].
    rewrite (proj2 (Z.eqb_neq ptr 0)) by done. cbn [Z.eqb ALLOCMAN_NO_PADDR Pos.eqb res_bind behind]. rewrite Hvka.
    cbn [res_bind]. destruct (e =? 0); [done|]. cbn [behind cookies]. by destruct (free ptr w2) as [[[] w3]|f]. }
  unfold am_vka_utspace_alloc, am_vka_utspace_alloc_maybe_device. cbn [manager level_up call_utspace_alloc].
  unfold _allocman_utspace_alloc, _start_operation, bind, get_am, gets, on_am, modify, ret.
  cbn -[plain _utspace_vka_alloc word_size vka_get_object_size].
  rewrite plain_run. cbn -[_utspace_vka_alloc vka_get_object_size]. rewrite Hrun. destruct (Z.eqb_spec e 0) as [->|He]; [done|].
  destruct (free ptr w2) as [[[] w3]|f]; cbn; [|done]. rewrite (proj2 (Z.eqb_neq e 0)) by done. done.
Qed.
End properties.

(** ** Over a ledger *)

Definition ledger_move (p q : cspacepath_t) : M (proxied ledger) Z := ret 0.

Definition sample_path : cspacepath_t := Cspacepath 5 64 2 0 0 5 1.

(** The heap and the vka share the ledger's numbers: malloc takes 1, the
    object's cookie is 2. *)
Lemma make_from_vka_utspace_alloc_witness :
  exists w2 cs2,
    am_vka_utspace_alloc (manager ledger_move 1 1) sample_path 4 7 (made ledger_vka (Proxied empty_ledger ∅)) =
      Ok (0, Some 1, made ledger_vka (Proxied w2 cs2)) /\
    original_cookie <$> cs2 !! 1 = Some 2.
Proof.
  do 2 eexists. split.
  - rewrite (make_from_vka_utspace_alloc ledger_vka ledger_move 1 0 sample_path 4 7 1 0 (Some 2) empty_ledger ∅
      (Ledger ∅ {[1]}) (Ledger ∅ {[2; 1]}) x86_64_labels).
    + reflexivity.
    + vm_compute. split; [discriminate|reflexivity].
    + lia.
    + vm_compute. reflexivity.
    + vm_compute. reflexivity.
  - vm_compute. reflexivity.
Defined.

(** Freeing through the adapter does not give the object back: the vka is
    asked to free number 12, the size in bits, instead of its cookie 2. *)
Example utspace_vka_free_leaks :
  let s0 := Proxied empty_ledger ∅ in
  match _utspace_vka_alloc ledger_vka 12 8 sample_path ALLOCMAN_NO_PADDR false s0 with
  | Ok (c, e, s1) =>
    e = 0 /\ match _utspace_vka_free ledger_vka c 12 s1 with
             | Ok (_, s2) => bool_decide (2 ∈ l_cookies (behind s1)) = true /\
                             bool_decide (2 ∈ l_cookies (behind s2)) = true
             | Fault _ => False
             end
  | Fault _ => False
  end.
Proof. vm_compute. repeat split. Qed.
