(* ===== verification/Twinkle.v ===== *)
(** libsel4allocman/src/utspace/twinkle.c and include/allocman/utspace/
    twinkle.h: an allocator of untypeds that only moves forward.  It keeps,
    for each untyped, the offset up to which it is used, as the kernel does.

    An [int *error] that is not written is [None]. *)
From S2P Require Import Prelude Cspacepath Interfaces Objects.

Definition _round_up (v bits : Z) : Z :=
  let mask := MASK bits in
  if negb (Z.land v mask =? 0) then Z.land v (wnot mask) ⊞ BIT bits else v.

Record utspace_twinkle_ut : Type := TwinkleUt { path : cspacepath_t; ut_offset : Z; ut_size_bits : Z }.

(** [uts_ptr] is the address of the array. *)
Record utspace_twinkle_t : Type := Twinkle { num_uts : Z; uts_ptr : Z; uts : list utspace_twinkle_ut }.

Definition ALLOCMAN_UT_KERNEL : Z := 0.
Definition sizeof_twinkle_ut : Z := 72.

Definition utspace_twinkle_create : utspace_twinkle_t := Twinkle 0 0 [].

(** The test of the two loops: does the object fit into untyped [u]? *)
Definition fits (u : utspace_twinkle_ut) (size_bits : Z) : bool :=
  _round_up (ut_offset u) size_bits ⊞ BIT size_bits <=? BIT (ut_size_bits u).

(** The first loop, over the [n] untypeds from [i]. *)
Fixpoint find_first (l : list utspace_twinkle_ut) (size_bits : Z) (n : nat) (i : Z) : res Z :=
  match n with
  | O => Ok i
  | S n => let? u := arr_get l i in
           if fits u size_bits then Ok i else find_first l size_bits n (i + 1)
  end.

(** The bytes lost to alignment. *)
Definition waste (u : utspace_twinkle_ut) (size_bits : Z) : Z :=
  _round_up (ut_offset u) size_bits ⊟ ut_offset u.

(** The second loop, over the [n] untypeds from [j]; [i] is the best so far. *)
Fixpoint find_best (l : list utspace_twinkle_ut) (size_bits : Z) (n : nat) (j i : Z) : res Z :=
  match n with
  | O => Ok i
  | S n =>
    let? uj := arr_get l j in
    let? ui := arr_get l i in
    if ut_size_bits ui =? ut_size_bits uj then
      find_best l size_bits n (j + 1)
        (if fits uj size_bits && (waste uj size_bits <? waste ui size_bits) then j else i)
    else Ok i
  end.

Section operations.
Context {W : Type} `{!AllocmanOps W} `{!KernelOps W} {seL4 : SeL4Constants}.

(** [uts] and [size_bits] are the caller's arrays of length [num]. *)
Definition _utspace_twinkle_add_uts (twinkle : utspace_twinkle_t) (new : list (cspacepath_t * Z)) (utType : Z)
    : M W (Z * utspace_twinkle_t) :=
  let num := Z.of_nat (length new) in
  if negb (utType =? ALLOCMAN_UT_KERNEL) then ret (-1, twinkle)
  else
    let! (new_uts, error) := allocman_mspace_alloc (sizeof_twinkle_ut ⊠ (num ⊞ num_uts twinkle)) in
    if negb (error =? 0) then ret (error, twinkle)
    else
      let! _ := (if uts_ptr twinkle =? 0 then ret tt
                 else allocman_mspace_free (uts_ptr twinkle) (sizeof_twinkle_ut ⊠ num_uts twinkle)) in
      let old := if uts_ptr twinkle =? 0 then [] else uts twinkle in
      ret (0, Twinkle (num_uts twinkle ⊞ num) new_uts
                (old ++ ((fun '(p, sz) => TwinkleUt p 0 sz) <$> new))).

Definition _utspace_twinkle_alloc (twinkle : utspace_twinkle_t) (size_bits type : Z) (slot : cspacepath_t)
    (paddr : Z) (canBeDev : bool) : M W (Z * option Z * utspace_twinkle_t) :=
  if negb (paddr =? ALLOCMAN_NO_PADDR) then ret (word_size - 1, None, twinkle)
  else
    let sel4_size_bits := get_sel4_object_size type size_bits in
    if negb (size_bits =? vka_get_object_size type sel4_size_bits) || (size_bits =? 0)
    then ret (0, Some 1, twinkle)
    else
      let! i := lift (find_first (uts twinkle) size_bits (Z.to_nat (num_uts twinkle)) 0) in
      if i =? num_uts twinkle then ret (0, Some 1, twinkle)
      else
        let! i := lift (find_best (uts twinkle) size_bits (Z.to_nat (num_uts twinkle - i)) i i) in
        let! u := lift (arr_get (uts twinkle) i) in
        let! sel4_error := seL4_Untyped_Retype (capPtr (path u)) type sel4_size_bits (root slot) (dest slot)
                             (destDepth slot) (offset slot) 1 in
        if negb (sel4_error =? seL4_NoError) then ret (0, Some 1, twinkle)
        else
          let u' := TwinkleUt (path u) (_round_up (ut_offset u) size_bits ⊞ BIT size_bits) (ut_size_bits u) in
          let! l := lift (arr_set (uts twinkle) i u') in
          ret (0, Some 0, Twinkle (num_uts twinkle) (uts_ptr twinkle) l).

Definition _utspace_twinkle_free (cookie size_bits : Z) : M W unit := ret tt.

Definition _utspace_twinkle_paddr (cookie size_bits : Z) : M W Z := stop AssertFailed.

End operations.

(** ** Rounding *)

Lemma wnot_land_MASK (v bits : Z) : is_word v -> 0 <= bits < 64 ->
  Z.land v (wnot (MASK bits)) = v - v mod 2 ^ bits.
Proof.
  intros Hv Hb. rewrite MASK_ones by done. unfold wnot.
  replace (v - v mod 2 ^ bits) with (Z.shiftl (Z.shiftr v bits) bits).
  2:{ rewrite Z.shiftl_mul_pow2, Z.shiftr_div_pow2 by lia.
      pose proof (Z.div_mod v (2 ^ bits) ltac:(lia)). lia. }
  apply Z.bits_inj'. intros i Hi. rewrite Z.land_spec, Z.lxor_spec.
  destruct (decide (i < bits)).
  - rewrite Z.shiftl_spec_low, (Z.ones_spec_low bits), (Z.ones_spec_low CONFIG_WORD_SIZE) by (unfold CONFIG_WORD_SIZE; lia).
    apply andb_false_r.
  - rewrite Z.shiftl_spec, Z.shiftr_spec, (Z.ones_spec_high bits) by lia. replace (i - bits + bits) with i by lia.
    destruct (decide (i < 64)).
    + rewrite Z.ones_spec_low by (unfold CONFIG_WORD_SIZE; lia). apply andb_true_r.
    + rewrite (word_testbit_high v i) by (done || lia). done.
Qed.

(** The least multiple of [2 ^ bits] that is not below [v]. *)
Lemma round_up_spec (v bits : Z) : is_word v -> 0 <= bits < 64 -> v <= 2 ^ 63 ->
  v <= _round_up v bits < v + 2 ^ bits /\ _round_up v bits mod 2 ^ bits = 0 /\ _round_up v bits <= 2 ^ 63.
Proof.
  intros Hv Hb Hle. unfold _round_up. rewrite land_MASK, wnot_land_MASK, BIT_pow by done.
  pose proof (Z.mod_pos_bound v (2 ^ bits) ltac:(lia)) as Hm.
  pose proof (Z.div_mod v (2 ^ bits) ltac:(lia)) as Hd.
  assert (Hp : 2 ^ 63 = 2 ^ bits * 2 ^ (63 - bits)) by (rewrite <- Z.pow_add_r by lia; f_equal; lia).
  destruct (Z.eqb_spec (v mod 2 ^ bits) 0) as [H0|H0]; cbn [negb]; [split_and!; lia|].
  assert (Hlt : v / 2 ^ bits < 2 ^ (63 - bits)).
  { apply Z.nle_gt. intros Hge. apply (Z.mul_le_mono_nonneg_l _ _ (2 ^ bits)) in Hge; lia. }
  assert (Htop : 2 ^ bits * (v / 2 ^ bits + 1) <= 2 ^ 63).
  { rewrite Hp. apply Z.mul_le_mono_nonneg_l; lia. }
  assert (Hnext : v - v mod 2 ^ bits + 2 ^ bits = 2 ^ bits * (v / 2 ^ bits + 1)) by lia.
  assert (Hq : 0 <= v / 2 ^ bits) by (apply Z.div_pos; [apply Hv|lia]).
  assert (H2 : 0 <= 2 ^ bits * (v / 2 ^ bits + 1)) by (apply Z.mul_nonneg_nonneg; lia).
  rewrite wrap_small.
  - split_and!; [lia|lia| |lia]. rewrite Hnext, Z.mul_comm. apply Z_mod_mult.
  - rewrite Hnext. unfold is_word. rewrite word_size_pow. replace (2 ^ 64) with (2 ^ 63 * 2) by reflexivity. lia.
Qed.

(** ** Properties *)

(** Untypeds are smaller than 2^63 bytes (the kernel's largest is 2^47), so
    that no offset plus an object wraps around. *)
Record ut_ok (u : utspace_twinkle_ut) : Prop := {
  ut_ok_size : 0 <= ut_size_bits u <= 62;
  ut_ok_offset : 0 <= ut_offset u <= 2 ^ ut_size_bits u
}.

Record tw_wf (t : utspace_twinkle_t) : Prop := {
  tw_wf_num : num_uts t = Z.of_nat (length (uts t));
  tw_wf_uts : Forall ut_ok (uts t)
}.

(** Where an object of [2 ^ size_bits] bytes would start in [u], and whether
    it ends inside. *)
Definition start_in (u : utspace_twinkle_ut) (size_bits : Z) : Z := _round_up (ut_offset u) size_bits.
Definition has_room (u : utspace_twinkle_ut) (size_bits : Z) : Prop :=
  start_in u size_bits + 2 ^ size_bits <= 2 ^ ut_size_bits u.

Lemma pow_le_62 (n : Z) : 0 <= n <= 62 -> 0 < 2 ^ n <= 2 ^ 62.
Proof. intros Hn. split; [lia|]. apply Z.pow_le_mono_r; lia. Qed.

Lemma start_bounds (u : utspace_twinkle_ut) (sz : Z) : ut_ok u -> 0 <= sz <= 62 ->
  ut_offset u <= start_in u sz < ut_offset u + 2 ^ sz /\ start_in u sz mod 2 ^ sz = 0 /\
  0 <= start_in u sz + 2 ^ sz < word_size.
Proof.
  intros [Hs Ho] Hsz. pose proof (pow_le_62 _ Hs). pose proof (pow_le_62 _ Hsz).
  rewrite word_size_pow. replace (2 ^ 64) with (4 * 2 ^ 62) by reflexivity.
  destruct (round_up_spec (ut_offset u) sz) as (H1 & H2 & H3); [unfold is_word; rewrite word_size_pow; lia|lia|lia|].
  unfold start_in. split_and!; lia.
Qed.

Lemma fits_spec (u : utspace_twinkle_ut) (sz : Z) : ut_ok u -> 0 <= sz <= 62 -> fits u sz = true <-> has_room u sz.
Proof.
  intros Hu Hsz. destruct (start_bounds u sz Hu Hsz) as (_ & _ & Hw). unfold fits, has_room, start_in in *.
  pose proof (ut_ok_size _ Hu). rewrite !BIT_pow, wrap_small by (unfold is_word; lia). apply Z.leb_le.
Qed.

Lemma find_first_spec (l : list utspace_twinkle_ut) (sz : Z) (n : nat) (i : Z) :
  0 <= i -> i + Z.of_nat n = Z.of_nat (length l) ->
  exists k, find_first l sz n i = Ok k /\ i <= k <= Z.of_nat (length l) /\
    (forall j u, i <= j < k -> l !! Z.to_nat j = Some u -> fits u sz = false) /\
    (k < Z.of_nat (length l) -> exists u, l !! Z.to_nat k = Some u /\ fits u sz = true).
Proof.
  revert i. induction n as [|n IH]; intros i Hi Hn; cbn [find_first].
  - exists i. split_and!; [done|lia|lia|intros; lia|lia].
  - destruct (arr_get_in l i) as (u & -> & Hu); [lia|]. cbn [res_bind]. destruct (fits u sz) eqn:Hf.
    + exists i. split_and!; [done|lia|lia|intros; lia|]. intros _. eauto.
    + destruct (IH (i + 1)) as (k & -> & Hk & Hno & Hyes); [lia|lia|].
      exists k. split_and!; [done|lia|lia| |done]. intros j v Hj Hv.
      destruct (decide (j = i)) as [->|]; [congruence|]. apply (Hno j v); [lia|done].
Qed.

Lemma find_best_spec (l : list utspace_twinkle_ut) (sz : Z) (n : nat) (j i : Z) :
  0 <= j -> j + Z.of_nat n = Z.of_nat (length l) -> 0 <= i ->
  (exists u, l !! Z.to_nat i = Some u /\ fits u sz = true) ->
  exists k u, find_best l sz n j i = Ok k /\ 0 <= k < Z.of_nat (length l) /\
    l !! Z.to_nat k = Some u /\ fits u sz = true.
Proof.
  revert j i. induction n as [|n IH]; intros j i Hj Hn Hi (u & Hu & Hf); cbn [find_best];
    pose proof (lookup_lt_Some _ _ _ Hu).
  - exists i, u. split_and!; [done|lia|lia|done|done].
  - destruct (arr_get_in l j) as (v & -> & Hv); [lia|]. cbn [res_bind].
    replace (arr_get l i) with (Ok u) by (symmetry; by apply arr_get_ok). cbn [res_bind].
    destruct (ut_size_bits u =? ut_size_bits v); [|exists i, u; split_and!; (done || lia)].
    apply IH; [lia|lia|by case_match|]. destruct (fits v sz) eqn:Hfv; cbn [andb]; [|eauto].
    case_match; eauto.
Qed.

(** [t'] is [t] after handing out the object that starts at [start] in
    untyped number [i]. *)
Definition took (t t' : utspace_twinkle_t) (i : nat) (start size_bits : Z) : Prop :=
  exists u, uts t !! i = Some u /\ start = start_in u size_bits /\ has_room u size_bits /\
    num_uts t' = num_uts t /\ uts t' = <[i := TwinkleUt (path u) (start + 2 ^ size_bits) (ut_size_bits u)]> (uts t).

Lemma took_wf (t t' : utspace_twinkle_t) i start sz : tw_wf t -> 0 <= sz <= 62 -> took t t' i start sz -> tw_wf t'.
Proof.
  intros [Hn Hu] Hsz (u & Hi & -> & Hroom & Hn' & Hl). pose proof (Forall_lookup_1 _ _ _ _ Hu Hi) as Hok.
  destruct (start_bounds u sz Hok Hsz) as (_ & _ & Hw). constructor.
  - by rewrite Hn', Hl, length_insert.
  - rewrite Hl. apply Forall_insert; [done|]. constructor; cbn; [apply Hok|]. unfold has_room in Hroom. lia.
Qed.

Section properties.
Context {W : Type} `{!AllocmanOps W} `{!KernelOps W, !KernelReturns W} {seL4 : SeL4Constants}.

Lemma twinkle_alloc_cases (t : utspace_twinkle_t) (size_bits type : Z) (slot : cspacepath_t) (dev : bool) (w : W)
  (Hwf : tw_wf t) (Hsize : 0 <= size_bits <= 62) :
  let sel4_size := get_sel4_object_size type size_bits in
  let retype u := seL4_Untyped_Retype (capPtr (path u)) type sel4_size (root slot) (dest slot) (destDepth slot) (offset slot) 1 in
  exists e t' w', _utspace_twinkle_alloc t size_bits type slot ALLOCMAN_NO_PADDR dev w = Ok (0, Some e, t', w') /\
    ((e = 0 /\ exists i u start, uts t !! i = Some u /\ retype u w = Ok (0, w') /\ took t t' i start size_bits /\
        start mod 2 ^ size_bits = 0 /\ ut_offset u <= start /\ tw_wf t') \/
     (e = 1 /\ t' = t /\
        (size_bits <> vka_get_object_size type sel4_size \/ size_bits = 0 \/
         (forall i u, uts t !! i = Some u -> ~ has_room u size_bits) \/
         (exists i u r, uts t !! i = Some u /\ retype u w = Ok (r, w') /\ r <> 0)))).
Proof.
  intros sel4_size retype. unfold _utspace_twinkle_alloc. cbn [Z.eqb ALLOCMAN_NO_PADDR Pos.eqb negb].
  fold sel4_size. destruct (Z.eqb_spec size_bits (vka_get_object_size type sel4_size)) as [Hs|]; cbn [negb orb].
  2:{ exists 1, t, w. split; [done|]. right. auto. }
  destruct (Z.eqb_spec size_bits 0) as [|H0]; [exists 1, t, w; split; [done|]; right; auto|].
  pose proof (tw_wf_num _ Hwf) as Hnum.
  destruct (find_first_spec (uts t) size_bits (Z.to_nat (num_uts t)) 0) as (k & Hk & Hb & Hno & Hyes); [lia|lia|].
  unfold bind, lift. rewrite Hk. cbn [res_bind]. destruct (Z.eqb_spec k (num_uts t)) as [->|Hne].
  { exists 1, t, w. split; [done|]. right. split_and!; [done|done|]. right. right. left. intros i u Hu.
    pose proof (Forall_lookup_1 _ _ _ _ (tw_wf_uts _ Hwf) Hu) as Hok. rewrite <- fits_spec by done.
    pose proof (lookup_lt_Some _ _ _ Hu). rewrite (Hno (Z.of_nat i) u); [done|lia|]. by rewrite Nat2Z.id. }
  destruct (find_best_spec (uts t) size_bits (Z.to_nat (num_uts t - k)) k k) as (m & u & Hm & Hmb & Hu & Hf);
    [lia|lia|lia|apply Hyes; lia|].
  rewrite Hm. cbn [res_bind]. replace (arr_get (uts t) m) with (Ok u) by (symmetry; apply arr_get_ok; split; [lia|done]).
  cbn [res_bind]. pose proof (Forall_lookup_1 _ _ _ _ (tw_wf_uts _ Hwf) Hu) as Hok.
  destruct (retype_returns (capPtr (path u)) type sel4_size (root slot) (dest slot) (destDepth slot) (offset slot) 1 w)
    as (r & w' & Hr). rewrite Hr. cbn [res_bind].
  destruct (start_bounds u size_bits Hok Hsize) as (Hst & Hmod & Hw).
  destruct (Z.eqb_spec r seL4_NoError) as [->|Hr0]; cbn [negb].
  - rewrite arr_set_in by done. do 3 eexists. split; [reflexivity|]. left. split; [done|].
    assert (Ht : took t (Twinkle (num_uts t) (uts_ptr t) (<[Z.to_nat m := TwinkleUt (path u)
        (_round_up (ut_offset u) size_bits ⊞ BIT size_bits) (ut_size_bits u)]> (uts t)))
        (Z.to_nat m) (start_in u size_bits) size_bits).
    { exists u. split_and!; [done|done|by apply fits_spec|done|]. cbn. unfold start_in in *.
      by rewrite BIT_pow, wrap_small by (unfold is_word; lia). }
    exists (Z.to_nat m), u, (start_in u size_bits).
    split_and!; [done|done|exact Ht|done|lia|by eapply took_wf].
  - exists 1, t, w'. split; [done|]. right. split_and!; [done|done|]. right. right. right.
    exists (Z.to_nat m), u, r. by split_and!.
Qed.

(** An allocation from well-formed untypeds returns.  It either takes the
    object at the first multiple of its size in one untyped, inside that
    untyped and above everything taken from it before, and tells the kernel
    so; or it returns the error 1 with nothing changed, because the size does
    not belong to the type, or no untyped has room, or the kernel refused. *)
Theorem twinkle_alloc_spec (t : utspace_twinkle_t) (size_bits type : Z) (slot : cspacepath_t) (dev : bool) (w : W)
  (Hwf : tw_wf t) (Hsize : 0 <= size_bits <= 62) :
  let sel4_size := get_sel4_object_size type size_bits in
  let retype u := seL4_Untyped_Retype (capPtr (path u)) type sel4_size (root slot) (dest slot) (destDepth slot) (offset slot) 1 in
  exists e t' w', _utspace_twinkle_alloc t size_bits type slot ALLOCMAN_NO_PADDR dev w = Ok (0, Some e, t', w') /\
    ((e = 0 /\ exists i u start, uts t !! i = Some u /\ retype u w = Ok (0, w') /\ took t t' i start size_bits /\
        start mod 2 ^ size_bits = 0 /\ ut_offset u <= start /\ tw_wf t') \/
     (e = 1 /\ t' = t /\
        (size_bits <> vka_get_object_size type sel4_size \/ size_bits = 0 \/
         (forall i u, uts t !! i = Some u -> ~ has_room u size_bits) \/
         (exists i u r, uts t !! i = Some u /\ retype u w = Ok (r, w') /\ r <> 0)))).
Proof. by apply twinkle_alloc_cases. Qed.

(** The allocations of a run, as untyped number, start and size. *)
Inductive allocations : utspace_twinkle_t -> list (nat * Z * Z) -> utspace_twinkle_t -> Prop :=
  | allocations_nil t : allocations t [] t
  | allocations_cons t1 t2 t3 i u size_bits type slot dev w w' l :
      0 <= size_bits <= 62 ->
      _utspace_twinkle_alloc t1 size_bits type slot ALLOCMAN_NO_PADDR dev w = Ok (0, Some 0, t2, w') ->
      uts t1 !! i = Some u -> uts t2 !! i <> Some u -> allocations t2 l t3 ->
      allocations t1 ((i, start_in u size_bits, size_bits) :: l) t3.

(** The untyped that changed is the one an object was taken from. *)
Lemma alloc_took (t1 t2 : utspace_twinkle_t) (i : nat) (u : utspace_twinkle_ut) (sz type : Z) slot dev (w w' : W) :
  tw_wf t1 -> 0 <= sz <= 62 -> _utspace_twinkle_alloc t1 sz type slot ALLOCMAN_NO_PADDR dev w = Ok (0, Some 0, t2, w') ->
  uts t1 !! i = Some u -> uts t2 !! i <> Some u -> took t1 t2 i (start_in u sz) sz.
Proof.
  intros Hwf Hsz Heq Hu Hne.
  destruct (twinkle_alloc_cases t1 sz type slot dev w Hwf Hsz) as (e & t' & w'' & Heq' & [(_ & j & v & start & Hv & _ & Ht & _)|(He & _)]);
    rewrite Heq in Heq'; simplify_eq.
  destruct Ht as (v' & Hv' & -> & Hroom & Hn & Hl). rewrite Hv in Hv'. simplify_eq.
  destruct (decide (j = i)) as [->|Hji].
  - rewrite Hu in Hv. simplify_eq. by exists v'.
  - rewrite Hl, list_lookup_insert_ne in Hne by done. done.
Qed.

Lemma allocations_above (t t' : utspace_twinkle_t) (l : list (nat * Z * Z)) :
  tw_wf t -> allocations t l t' -> forall i start sz, (i, start, sz) ∈ l ->
  exists u, uts t !! i = Some u /\ ut_offset u <= start /\ start + 2 ^ sz <= 2 ^ ut_size_bits u /\ start mod 2 ^ sz = 0.
Proof.
  intros Hwf H. induction H as [t|t1 t2 t3 i u0 sz type slot dev w w' l Hsz Ha Hi Hch H IH]; [set_solver|].
  intros j st z Hin. pose proof (alloc_took _ _ _ _ _ _ _ _ _ _ Hwf Hsz Ha Hi Hch) as Ht. pose proof (took_wf _ _ _ _ _ Hwf Hsz Ht) as Hwf2.
  destruct Ht as (u & Hu & _ & Hroom & Hn & Hl). rewrite Hi in Hu. injection Hu as ->. rename Hi into Hu.
  pose proof (Forall_lookup_1 _ _ _ _ (tw_wf_uts _ Hwf) Hu) as Hok.
  destruct (start_bounds u sz Hok Hsz) as (Hst & Hmod & _).
  apply elem_of_cons in Hin as [Heq|Hin].
  - simplify_eq. exists u. split_and!; [done|lia|done|done].
  - destruct (IH Hwf2 _ _ _ Hin) as (v & Hv & Hva & Hb & Hc). rewrite Hl in Hv.
    destruct (decide (i = j)) as [->|Hne].
    + rewrite list_lookup_insert_eq in Hv by (by eapply lookup_lt_Some). simplify_eq/=.
      exists u. split_and!; [done|lia|done|done].
    + rewrite list_lookup_insert_ne in Hv by done. exists v. by split_and!.
Qed.

(** The objects handed out do not overlap.  In any run of successful
    allocations, every object lies inside its untyped at a multiple of its
    size, and two objects from the same untyped are disjoint. *)
Theorem twinkle_no_overlap (t t' : utspace_twinkle_t) (l : list (nat * Z * Z))
  (Hwf : tw_wf t) (Hrun : allocations t l t') :
  (forall i start sz, (i, start, sz) ∈ l ->
     exists u, uts t !! i = Some u /\ 0 <= start /\ start + 2 ^ sz <= 2 ^ ut_size_bits u /\ start mod 2 ^ sz = 0) /\
  (forall a b i st1 sz1 st2 sz2, (a < b)%nat -> l !! a = Some (i, st1, sz1) -> l !! b = Some (i, st2, sz2) ->
     st1 + 2 ^ sz1 <= st2).
Proof.
  split.
  - intros i start sz Hin. destruct (allocations_above _ _ _ Hwf Hrun _ _ _ Hin) as (u & Hu & Ha & Hb & Hc).
    pose proof (Forall_lookup_1 _ _ _ _ (tw_wf_uts _ Hwf) Hu) as [_ ?]. exists u. split_and!; [done|lia|done|done].
  - induction Hrun as [t|t1 t2 t3 j u0 sz type slot dev w w' l Hsz Hal Hj Hch Hrun IH]; [by intros []|].
    intros a b i st1 sz1 st2 sz2 Hab Ha Hb. destruct b as [|b]; [lia|]. cbn in Hb.
    pose proof (alloc_took _ _ _ _ _ _ _ _ _ _ Hwf Hsz Hal Hj Hch) as Ht.
    pose proof (took_wf _ _ _ _ _ Hwf Hsz Ht) as Hwf2. destruct a as [|a]; cbn in Ha.
    + simplify_eq. destruct (allocations_above _ _ _ Hwf2 Hrun i st2 sz2) as (v & Hv & Hle & _).
      { by eapply list_elem_of_lookup_2. }
      destruct Ht as (u & Hu & _ & _ & _ & Hl). rewrite Hj in Hu. injection Hu as ->. rewrite Hl in Hv.
      rewrite list_lookup_insert_eq in Hv by (by eapply lookup_lt_Some). simplify_eq/=. lia.
    + eapply (IH Hwf2 a b); [lia|done|done].
Qed.

End properties.

(** ** Witnesses *)

#[export] Instance ledger_like_kernel : KernelOps Z := {|
  seL4_CNode_Delete _ _ _ := fun w => Ok (0, w);
  seL4_CNode_Move _ _ _ _ _ _ := fun w => Ok (0, w);
  seL4_Untyped_Retype _ _ _ _ _ _ _ _ := fun w => Ok (0, w + 1)
|}.
#[export] Instance ledger_like_returns : KernelReturns Z.
Proof. constructor; intros; by do 2 eexists. Qed.

Definition ut_path (x : Z) : cspacepath_t := Cspacepath x 64 2 0 0 x 1.
Definition sample_twinkle : utspace_twinkle_t :=
  Twinkle 2 8 [TwinkleUt (ut_path 10) 4096 12; TwinkleUt (ut_path 11) 16 14].

Lemma sample_twinkle_wf : tw_wf sample_twinkle.
Proof. constructor; [done|]. repeat constructor; cbn; lia. Qed.

(** A TCB of 2^11 bytes: the first untyped is full, and the second is used up
    to 16, so it starts at 2048. *)
Lemma twinkle_alloc_spec_witness :
  exists e t' w', _utspace_twinkle_alloc (W := Z) sample_twinkle 11 1 (ut_path 3) ALLOCMAN_NO_PADDR false 0 = Ok (0, Some e, t', w') /\
    e = 0 /\ took sample_twinkle t' 1 2048 11.
Proof.
  destruct (twinkle_alloc_spec (W := Z) sample_twinkle 11 1 (ut_path 3) false 0 sample_twinkle_wf ltac:(lia))
    as (e & t' & w' & Heq & _).
  exists e, t', w'. split; [exact Heq|]. vm_compute in Heq. injection Heq as <- <- <-.
  split; [reflexivity|]. eexists. split_and!; [reflexivity|vm_compute; reflexivity| |reflexivity|vm_compute; reflexivity].
  vm_compute. discriminate.
Defined.

Lemma twinkle_no_overlap_witness :
  let l := [(1%nat, 2048, 11); (1%nat, 4096, 12)] in
  exists t', allocations (W := Z) sample_twinkle l t' /\ 2048 + 2 ^ 11 <= 4096.
Proof.
  assert (H : allocations (W := Z) sample_twinkle [(1%nat, 2048, 11); (1%nat, 4096, 12)]
    (Twinkle 2 8 [TwinkleUt (ut_path 10) 4096 12; TwinkleUt (ut_path 11) 8192 14])).
  { eapply (allocations_cons _ (Twinkle 2 8 [TwinkleUt (ut_path 10) 4096 12; TwinkleUt (ut_path 11) 4096 14]) _
      1%nat (TwinkleUt (ut_path 11) 16 14) 11 1 (ut_path 3) false 0);
      [lia|vm_compute; reflexivity|reflexivity|discriminate|].
    eapply (allocations_cons _ _ _ 1%nat (TwinkleUt (ut_path 11) 4096 14) 12 8 (ut_path 4) false 0);
      [lia|vm_compute; reflexivity|reflexivity|discriminate|constructor]. }
  eexists. split; [exact H|].
  apply (proj2 (twinkle_no_overlap _ _ _ sample_twinkle_wf H) 0%nat 1%nat 1%nat 2048 11 4096 12); [lia|reflexivity|reflexivity].
Defined.
