(* ===== verification/Split.v ===== *)
(** libsel4allocman/src/utspace/split.c and include/allocman/utspace/split.h:
    an allocator of untypeds that splits an untyped in two when it has none
    of the size asked for, and joins two halves again when both are free.

    The nodes live on the heap, a map from addresses; 0 is the null pointer.
    A pointer to the head of a free list is the array it is in and its index.
    The properties of this allocator are the default ones, so the manager
    does not enter it while it runs and the calls to the manager leave its
    nodes alone. *)
From S2P Require Import Prelude Cspacepath Interfaces Objects.

Inductive pool : Type := Heads | DevHeads | DevMemHeads.
#[export] Instance pool_eq_dec : EqDecision pool.
Proof. solve_decision. Defined.

Definition head_ref : Type := pool * Z.

Record utspace_split_node : Type := Node {
  ut : cspacepath_t;
  parent : Z;
  sibling : Z;
  head : option head_ref;
  origin_head : head_ref;
  paddr : Z;
  next : Z;
  prev : Z
}.

(** The heap, the three arrays of [utspace_split_t], and the rest of the
    system. *)
Record split_state (W : Type) : Type := SplitState {
  nodes : gmap Z utspace_split_node;
  heads : list Z;
  dev_heads : list Z;
  dev_mem_heads : list Z;
  rest : W
}.
Arguments SplitState {W} _ _ _ _ _.
Arguments nodes {W} _.
Arguments heads {W} _.
Arguments dev_heads {W} _.
Arguments dev_mem_heads {W} _.
Arguments rest {W} _.

Definition set_parent (n : utspace_split_node) (x : Z) :=
  Node (ut n) x (sibling n) (head n) (origin_head n) (paddr n) (next n) (prev n).
Definition set_sibling (n : utspace_split_node) (x : Z) :=
  Node (ut n) (parent n) x (head n) (origin_head n) (paddr n) (next n) (prev n).
Definition set_head (n : utspace_split_node) (x : option head_ref) :=
  Node (ut n) (parent n) (sibling n) x (origin_head n) (paddr n) (next n) (prev n).
Definition set_origin_head (n : utspace_split_node) (x : head_ref) :=
  Node (ut n) (parent n) (sibling n) (head n) x (paddr n) (next n) (prev n).
Definition set_paddr (n : utspace_split_node) (x : Z) :=
  Node (ut n) (parent n) (sibling n) (head n) (origin_head n) x (next n) (prev n).
Definition set_next (n : utspace_split_node) (x : Z) :=
  Node (ut n) (parent n) (sibling n) (head n) (origin_head n) (paddr n) x (prev n).
Definition set_prev (n : utspace_split_node) (x : Z) :=
  Node (ut n) (parent n) (sibling n) (head n) (origin_head n) (paddr n) (next n) x.
Definition set_ut (n : utspace_split_node) (x : cspacepath_t) :=
  Node x (parent n) (sibling n) (head n) (origin_head n) (paddr n) (next n) (prev n).

Definition ALLOCMAN_UT_KERNEL : Z := 0.
Definition ALLOCMAN_UT_DEV : Z := 1.
Definition ALLOCMAN_UT_DEV_MEM : Z := 2.
Definition sizeof_split_node : Z := 112.

Section operations.
Context {W : Type} `{!AllocmanOps W} `{!KernelOps W} {seL4 : SeL4Constants}.
Local Abbreviation state := (split_state W).

(** What fresh memory at an address happens to hold. *)
Context (garbage : Z -> utspace_split_node).

(** *** Memory *)

Definition on_rest {A} (m : M W A) : M state A := fun s =>
  let? (a, w) := m (rest s) in
  Ok (a, SplitState (nodes s) (heads s) (dev_heads s) (dev_mem_heads s) w).

Definition load (p : Z) : M state utspace_split_node := fun s =>
  match nodes s !! p with Some n => Ok (n, s) | None => Fault NullPointer end.

Definition set_nodes (f : gmap Z utspace_split_node -> gmap Z utspace_split_node) : M state unit :=
  modify (fun s => SplitState (f (nodes s)) (heads s) (dev_heads s) (dev_mem_heads s) (rest s)).

(** [node->field = ...] *)
Definition update (p : Z) (f : utspace_split_node -> utspace_split_node) : M state unit :=
  let! n := load p in set_nodes (<[p := f n]>).

Definition pool_array (q : pool) (s : state) : list Z :=
  match q with Heads => heads s | DevHeads => dev_heads s | DevMemHeads => dev_mem_heads s end.

(** [*head] and [*head = p]. *)
Definition get_head (r : head_ref) : M state Z := fun s =>
  let? p := arr_get (pool_array r.1 s) r.2 in Ok (p, s).
Definition put_head (r : head_ref) (p : Z) : M state unit := fun s =>
  let? l := arr_set (pool_array r.1 s) r.2 p in
  Ok (tt, match r.1 with
          | Heads => SplitState (nodes s) l (dev_heads s) (dev_mem_heads s) (rest s)
          | DevHeads => SplitState (nodes s) (heads s) l (dev_mem_heads s) (rest s)
          | DevMemHeads => SplitState (nodes s) (heads s) (dev_heads s) l (rest s)
          end).

(** *** Free lists *)

Definition _remove_node (hd : head_ref) (node : Z) : M state unit :=
  let! n := load node in
  let! _ := (if negb (prev n =? 0) then update (prev n) (fun m => set_next m (next n))
             else
               let! h := get_head hd in
               let! _ := cassert (h =? node) in
               put_head hd (next n)) in
  let! n := load node in
  let! _ := (if negb (next n =? 0) then update (next n) (fun m => set_prev m (prev n)) else ret tt) in
  update node (fun n => set_head n (Some hd)).

Definition _insert_node (hd : head_ref) (node : Z) : M state unit :=
  let! h := get_head hd in
  let! _ := update node (fun n => set_prev (set_next n h) 0) in
  let! _ := (if negb (h =? 0) then update h (fun m => set_prev m node) else ret tt) in
  let! _ := put_head hd node in
  update node (fun n => set_head n None).

(** *** Nodes *)

(** A null result is 0. *)
Definition _new_node : M state Z :=
  let! (node, error) := on_rest (allocman_mspace_alloc sizeof_split_node) in
  if negb (error =? 0) then ret 0
  else
    let! _ := set_nodes (<[node := garbage node]>) in
    let! (error, slot) := on_rest allocman_cspace_alloc in
    if negb (error =? 0) then
      let! _ := set_nodes (delete node) in
      let! _ := on_rest (allocman_mspace_free node sizeof_split_node) in
      ret 0
    else
      let! _ := update node (fun n => set_ut n slot) in
      ret node.

(** [vka_cnode_delete] *)
Definition delete_cap (path : cspacepath_t) : M state Z :=
  on_rest (seL4_CNode_Delete (root path) (capPtr path) (capDepth path)).

Definition _delete_node (node : Z) : M state unit :=
  let! n := load node in
  let! _ := delete_cap (ut n) in
  let! _ := on_rest (allocman_cspace_free (ut n)) in
  let! _ := set_nodes (delete node) in
  on_rest (allocman_mspace_free node sizeof_split_node).

Definition _insert_new_node (hd : head_ref) (path : cspacepath_t) (pa : Z) : M state Z :=
  let! (node, error) := on_rest (allocman_mspace_alloc sizeof_split_node) in
  if negb (error =? 0) then ret 1
  else
    let! _ := set_nodes (<[node := garbage node]>) in
    let! _ := update node (fun n => set_origin_head (set_paddr (set_ut (set_parent n 0) path) pa) hd) in
    let! _ := _insert_node hd node in
    ret 0.

Definition utspace_split_create (w : W) : state :=
  let none := replicate (Z.to_nat CONFIG_WORD_SIZE) 0 in SplitState ∅ none none none w.

(** The loop of [add_uts]: capability, size and physical address of each;
    [None] when the caller passed no array of addresses. *)
Fixpoint add_uts_loop (q : pool) (l : list (cspacepath_t * Z * option Z)) : M state Z :=
  match l with
  | [] => ret 0
  | (path, size_bits, pa) :: l =>
    let! error := _insert_new_node (q, size_bits) path (default ALLOCMAN_NO_PADDR pa) in
    if negb (error =? 0) then ret error else add_uts_loop q l
  end.

Definition _utspace_split_add_uts (l : list (cspacepath_t * Z * option Z)) (utType : Z) : M state Z :=
  if utType =? ALLOCMAN_UT_KERNEL then add_uts_loop Heads l
  else if utType =? ALLOCMAN_UT_DEV then add_uts_loop DevHeads l
  else if utType =? ALLOCMAN_UT_DEV_MEM then add_uts_loop DevMemHeads l
  else ret (-1).

(** *** Splitting *)

(** The first node of the list from [p] that satisfies [test], or 0.  A list
    has no more nodes than the heap. *)
Fixpoint walk (test : utspace_split_node -> bool) (fuel : nat) (p : Z) : M state Z :=
  if p =? 0 then ret 0
  else
    match fuel with
    | O => stop OutOfFuel
    | S fuel => let! n := load p in if test n then ret p else walk test fuel (next n)
    end.

Definition find_node (test : utspace_split_node -> bool) (hd : head_ref) : M state Z :=
  let! p := get_head hd in
  fun s => walk test (size (nodes s)) p s.

Definition covers (pa size_bits : Z) (n : utspace_split_node) : bool :=
  negb (paddr n =? ALLOCMAN_NO_PADDR) && ((paddr n <=? pa) && (pa <=? paddr n ⊞ MASK size_bits)).

(** Is there already something to use in the pool? *)
Definition pool_ready (q : pool) (size_bits pa : Z) : M state bool :=
  if pa =? ALLOCMAN_NO_PADDR then
    let! h := get_head (q, size_bits) in ret (negb (h =? 0))
  else
    let! p := find_node (covers pa size_bits) (q, size_bits) in ret (negb (p =? 0)).

(** [size_bits] grows with each call, up to [highest]. *)
Definition highest : Z := 8 * 8 - 2.

(** From the retypes on: [node] becomes [left_node] and [right_node]. *)
Definition split_node (q : pool) (size_bits node left_node right_node : Z) : M state Z :=
  let! n := load node in
  let! l := load left_node in
  let! sel4_error := on_rest (seL4_Untyped_Retype (capPtr (ut n)) seL4_UntypedObject size_bits
                       (root (ut l)) (dest (ut l)) (destDepth (ut l)) (offset (ut l)) 1) in
  if negb (sel4_error =? seL4_NoError) then
    let! _ := _delete_node left_node in
    let! _ := _delete_node right_node in
    ret 1
  else
    let! r := load right_node in
    let! sel4_error := on_rest (seL4_Untyped_Retype (capPtr (ut n)) seL4_UntypedObject size_bits
                         (root (ut r)) (dest (ut r)) (destDepth (ut r)) (offset (ut r)) 1) in
    if negb (sel4_error =? seL4_NoError) then
      let! _ := delete_cap (ut l) in
      let! _ := _delete_node left_node in
      let! _ := _delete_node right_node in
      ret 1
    else
      let! _ := _remove_node (q, size_bits + 1) node in
      let pl := if negb (paddr n =? ALLOCMAN_NO_PADDR) then paddr n else ALLOCMAN_NO_PADDR in
      let pr := if negb (paddr n =? ALLOCMAN_NO_PADDR) then paddr n ⊞ BIT size_bits else ALLOCMAN_NO_PADDR in
      let! _ := update left_node (fun l => set_paddr (set_origin_head (set_sibling (set_parent l node) right_node) (q, size_bits)) pl) in
      let! _ := update right_node (fun r => set_paddr (set_origin_head (set_sibling (set_parent r node) left_node) (q, size_bits)) pr) in
      let! _ := _insert_node (q, size_bits) right_node in
      let! _ := _insert_node (q, size_bits) left_node in
      ret 0.

Fixpoint _refill_pool (fuel : nat) (q : pool) (size_bits pa : Z) : M state Z :=
  let! ready := pool_ready q size_bits pa in
  if ready : bool then ret 0
  else if size_bits >=? highest then ret 1
  else
    match fuel with
    | O => stop OutOfFuel
    | S fuel =>
      let! error := _refill_pool fuel q (size_bits + 1) pa in
      if negb (error =? 0) then ret 1
      else
        let! node := (if pa =? ALLOCMAN_NO_PADDR then get_head (q, size_bits + 1)
                      else
                        let! p := find_node (covers pa (size_bits + 1)) (q, size_bits + 1) in
                        let! _ := cassert (negb (p =? 0)) in
                        ret p) in
        let! left_node := _new_node in
        if left_node =? 0 then ret 1
        else
          let! right_node := _new_node in
          if right_node =? 0 then
            let! _ := _delete_node left_node in ret 1
          else split_node q size_bits node left_node right_node
    end.

Definition refill_fuel (size_bits : Z) : nat := Z.to_nat (highest - size_bits).

(** *** Allocating and freeing *)

Definition holds_range (pa size_bits i : Z) (n : utspace_split_node) : bool :=
  negb (paddr n =? ALLOCMAN_NO_PADDR) && ((paddr n <=? pa) && (pa ⊞ MASK size_bits <=? paddr n ⊞ MASK i)).

Fixpoint find_head_loop (q : pool) (pa size_bits : Z) (n : nat) (i : Z) : M state bool :=
  match n with
  | O => ret false
  | S n =>
    let! p := find_node (holds_range pa size_bits i) (q, i) in
    if negb (p =? 0) then ret true else find_head_loop q pa size_bits n (i + 1)
  end.

Definition find_head_for_paddr (q : pool) (pa size_bits : Z) : M state (option pool) :=
  let! found := find_head_loop q pa size_bits (Z.to_nat CONFIG_WORD_SIZE) 0 in
  ret (if found : bool then Some q else None).

(** The retype and the removal at the end of [alloc]. *)
Definition take_node (q : pool) (size_bits type sel4_size_bits : Z) (slot : cspacepath_t) (node : Z) : M state (Z * Z) :=
  let! n := load node in
  let! sel4_error := on_rest (seL4_Untyped_Retype (capPtr (ut n)) type sel4_size_bits
                       (root slot) (dest slot) (destDepth slot) (offset slot) 1) in
  if negb (sel4_error =? seL4_NoError) then ret (0, 1)
  else
    let! _ := _remove_node (q, size_bits) node in
    ret (node, 0).

Definition alloc_at_paddr (size_bits type sel4_size_bits : Z) (slot : cspacepath_t) (pa : Z) (canBeDev : bool)
    : M state (Z * Z) :=
  let! hd := (if canBeDev then
                let! h := find_head_for_paddr DevHeads pa size_bits in
                match h with Some _ => ret h | None => find_head_for_paddr DevMemHeads pa size_bits end
              else ret None) in
  let! hd := (match hd with Some _ => ret hd | None => find_head_for_paddr Heads pa size_bits end) in
  match hd with
  | None => ret (0, 1)
  | Some q =>
    let! error := _refill_pool (refill_fuel size_bits) q size_bits pa in
    if negb (error =? 0) then ret (0, 1)
    else
      let! node := find_node (fun n => negb ((paddr n =? ALLOCMAN_NO_PADDR) || negb (paddr n =? pa))) (q, size_bits) in
      let! _ := cassert (negb (node =? 0)) in
      take_node q size_bits type sel4_size_bits slot node
  end.

Definition alloc_anywhere (size_bits type sel4_size_bits : Z) (slot : cspacepath_t) (canBeDev : bool) : M state (Z * Z) :=
  let! dev := (if canBeDev then
                 let! error := _refill_pool (refill_fuel size_bits) DevMemHeads size_bits ALLOCMAN_NO_PADDR in
                 ret (error =? 0)
               else ret false) in
  let! hd := (if dev : bool then ret (Some DevMemHeads)
              else
                let! error := _refill_pool (refill_fuel size_bits) Heads size_bits ALLOCMAN_NO_PADDR in
                ret (if error =? 0 then Some Heads else None)) in
  match hd with
  | None => ret (0, 1)
  | Some q =>
    let! node := get_head (q, size_bits) in
    take_node q size_bits type sel4_size_bits slot node
  end.

(** The cookie and the error. *)
Definition _utspace_split_alloc (size_bits type : Z) (slot : cspacepath_t) (pa : Z) (canBeDev : bool) : M state (Z * Z) :=
  let sel4_size_bits := get_sel4_object_size type size_bits in
  if negb (size_bits =? vka_get_object_size type sel4_size_bits) || (size_bits =? 0) then ret (0, 1)
  else if negb (pa =? ALLOCMAN_NO_PADDR) then alloc_at_paddr size_bits type sel4_size_bits slot pa canBeDev
  else alloc_anywhere size_bits type sel4_size_bits slot canBeDev.

(** A parent is one size up, so there are at most [CONFIG_WORD_SIZE] calls. *)
Fixpoint split_free (fuel : nat) (node size_bits : Z) : M state unit :=
  match fuel with
  | O => stop OutOfFuel
  | S fuel =>
    let! n := load node in
    let insert := match head n with
                  | None => stop NullPointer
                  | Some hd => _insert_node hd node
                  end in
    if parent n =? 0 then insert
    else
      let! sib := load (sibling n) in
      match head sib with
      | Some _ => insert
      | None =>
        let! _ := _remove_node (origin_head sib) (sibling n) in
        let! _ := _delete_node (sibling n) in
        let! _ := _delete_node node in
        split_free fuel (parent n) (size_bits + 1)
      end
  end.

Definition _utspace_split_free (cookie size_bits : Z) : M state unit :=
  split_free (Z.to_nat CONFIG_WORD_SIZE) cookie size_bits.

Definition _utspace_split_paddr (cookie size_bits : Z) : M state Z :=
  let! n := load cookie in ret (paddr n).

End operations.

(** ** Doubly linked lists *)

Section lists.
Implicit Types (m : gmap Z utspace_split_node) (l : list Z).

(** The nodes [l], linked from [pr] on the left to [nx] on the right, are in
    the free list of [r]. *)
Fixpoint seg m (r : head_ref) (pr : Z) (l : list Z) (nx : Z) : Prop :=
  match l with
  | [] => True
  | p :: l =>
    (exists n, m !! p = Some n /\ p <> 0 /\ prev n = pr /\ next n = hd nx l /\ head n = None /\ origin_head n = r) /\
    seg m r p l nx
  end.

(** What linking does not change. *)
Definition core (n : utspace_split_node) := (ut n, parent n, sibling n, origin_head n, paddr n).
Definition same_core m m' : Prop := forall p, core <$> m !! p = core <$> m' !! p.

Lemma seg_ext m m' r pr l nx : (forall p, p ∈ l -> m' !! p = m !! p) -> seg m r pr l nx -> seg m' r pr l nx.
Proof.
  revert pr. induction l as [|p l IH]; intros pr Hext; [done|]. cbn. intros [(n & Hn & Hrest) Hseg].
  split; [exists n; by rewrite Hext by set_solver|]. apply IH; [|done]. intros q Hq. apply Hext. set_solver.
Qed.

Lemma last_cons_default (p d : Z) l : List.last (p :: l) d = List.last l p.
Proof.
  revert p d. induction l as [|a l IH]; intros p d; [done|].
  change (List.last (a :: l) d = List.last (a :: l) p). by rewrite !IH.
Qed.

Lemma seg_app m r pr l1 l2 nx :
  seg m r pr (l1 ++ l2) nx <-> seg m r pr l1 (hd nx l2) /\ seg m r (List.last l1 pr) l2 nx.
Proof.
  revert pr. induction l1 as [|p l1 IH]; intros pr; [naive_solver|]. cbn [app seg]. rewrite IH.
  rewrite last_cons_default. destruct l1; naive_solver.
Qed.

Lemma seg_in m r pr l nx p : seg m r pr l nx -> p ∈ l ->
  exists n, m !! p = Some n /\ p <> 0 /\ head n = None /\ origin_head n = r.
Proof.
  revert pr. induction l as [|q l IH]; intros pr; [set_solver|]. cbn. intros [(n & Hn & H0 & _ & _ & Hh & Ho) Hseg].
  intros [->|Hin]%elem_of_cons; [by exists n|by eapply IH].
Qed.

(** Relinking the left end and the right end of a list. *)
Lemma seg_set_prev m r pr pr' p n l nx :
  m !! p = Some n -> (p ∉ l) -> seg m r pr (p :: l) nx -> seg (<[p := set_prev n pr']> m) r pr' (p :: l) nx.
Proof.
  cbn. intros Hp Hl [(n' & Hn' & H0 & _ & Hnx & Hh & Ho) Hseg]. rewrite Hp in Hn'. injection Hn' as <-. split.
  - exists (set_prev n pr'). rewrite lookup_insert_eq. by split_and!.
  - eapply seg_ext; [|done]. intros q Hq. apply lookup_insert_ne. set_solver.
Qed.

Lemma seg_set_next m r pr l p n nx nx' :
  m !! p = Some n -> (p ∉ l) -> seg m r pr (l ++ [p]) nx -> seg (<[p := set_next n nx']> m) r pr (l ++ [p]) nx'.
Proof.
  intros Hp Hl [H1 [(n' & Hn' & H0 & Hpr & Hnx & Hh & Ho) _]]%seg_app. rewrite Hp in Hn'. injection Hn' as <-.
  apply seg_app. split; cbn.
  - eapply seg_ext; [|done]. intros q Hq. apply lookup_insert_ne. set_solver.
  - split; [|done]. exists (set_next n nx'). rewrite lookup_insert_eq. by split_and!.
Qed.

#[export] Instance same_core_equiv : Equivalence same_core.
Proof. unfold same_core. split; [done|intros a b H p; by rewrite H|]. intros a b c H1 H2 p. by rewrite H1. Qed.

Lemma same_core_insert m p n n' : m !! p = Some n -> core n' = core n -> same_core m (<[p := n']> m).
Proof.
  intros Hp Hc q. destruct (decide (p = q)) as [<-|Hne].
  - rewrite lookup_insert_eq, Hp. cbn. by rewrite Hc.
  - by rewrite lookup_insert_ne.
Qed.

Lemma same_core_lookup m m' p n : same_core m m' -> m !! p = Some n -> exists n', m' !! p = Some n' /\ core n' = core n.
Proof.
  intros H Hp. specialize (H p). rewrite Hp in H. cbn in H. destruct (m' !! p) as [n'|]; [|done].
  injection H as Hc. exists n'. split; [done|]. unfold core. congruence.
Qed.

End lists.

Section primitives.
Context {W : Type}.
Local Abbreviation state := (split_state W).

Definition with_nodes (s : state) (m : gmap Z utspace_split_node) : state :=
  SplitState m (heads s) (dev_heads s) (dev_mem_heads s) (rest s).

(** The head of a list, and two states that differ in one head only. *)
Definition head_is (s : state) (r : head_ref) (p : Z) : Prop := arr_get (pool_array r.1 s) r.2 = Ok p.

Definition heads_but (s s' : state) (r : head_ref) (p : Z) : Prop :=
  head_is s' r p /\ (forall x, x <> r -> forall y, head_is s x y -> head_is s' x y) /\ rest s' = rest s.

Lemma update_ok (s : state) (p : Z) f n : nodes s !! p = Some n ->
  update p f s = Ok (tt, with_nodes s (<[p := f n]> (nodes s))).
Proof. intros Hp. unfold update, bind, load. by rewrite Hp. Qed.

Lemma load_ok (s : state) (p : Z) n : nodes s !! p = Some n -> load p s = Ok (n, s).
Proof. intros Hp. unfold load. by rewrite Hp. Qed.

Lemma get_head_ok (s : state) r p : head_is s r p -> get_head r s = Ok (p, s).
Proof. intros Hp. unfold get_head. by rewrite Hp. Qed.

Lemma put_head_ok (s : state) r p q : head_is s r p ->
  exists s', put_head r q s = Ok (tt, s') /\ nodes s' = nodes s /\ heads_but s s' r q.
Proof.
  intros Hp. unfold put_head. pose proof (arr_get_range _ _ _ Hp) as Hr. rewrite arr_set_in by done. cbn [res_bind].
  eexists. split; [reflexivity|]. split; [by destruct r.1|]. split_and!.
  - unfold head_is. apply arr_get_ok. split; [lia|].
    destruct r as [[] i]; cbn in *; apply list_lookup_insert_eq; lia.
  - intros [k i] Hne y [Hi Hy]%arr_get_ok. apply arr_get_ok. split; [done|]. cbn in *.
    destruct r as [[] j], k; cbn in *; try done; rewrite list_lookup_insert_ne; try done; intros Heq; apply Hne;
      f_equal; lia.
  - by destruct r.1.
Qed.

Lemma head_is_nodes (s : state) m r p : head_is (with_nodes s m) r p <-> head_is s r p.
Proof. by destruct r as [[] i]. Qed.

Lemma with_nodes_twice (s : state) m m' : with_nodes (with_nodes s m) m' = with_nodes s m'.
Proof. done. Qed.

Lemma heads_but_nodes (s s' : state) m m' r p :
  heads_but (with_nodes s m) s' r p -> heads_but s (with_nodes s' m') r p.
Proof.
  intros (H1 & H2 & H3). split_and!; [by apply head_is_nodes| |done].
  intros x Hx y Hy. apply head_is_nodes, H2; [done|]. by apply head_is_nodes.
Qed.

(** Inserting a node at the front of a list. *)
Lemma insert_node_spec (s : state) (r : head_ref) (p : Z) (n : utspace_split_node) (l : list Z) :
  head_is s r (hd 0 l) -> seg (nodes s) r 0 l 0 -> NoDup l ->
  nodes s !! p = Some n -> p <> 0 -> (p ∉ l) -> origin_head n = r ->
  exists s', _insert_node r p s = Ok (tt, s') /\ heads_but s s' r p /\
    seg (nodes s') r 0 (p :: l) 0 /\ same_core (nodes s) (nodes s') /\
    (forall q, (q ∉ p :: l) -> nodes s' !! q = nodes s !! q).
Proof.
  intros Hhd Hseg Hnd Hn H0 Hl Ho. unfold _insert_node, bind. rewrite (get_head_ok _ _ _ Hhd). cbn [res_bind].
  rewrite (update_ok _ _ _ _ Hn). cbn [res_bind].
  set (n1 := set_prev (set_next n (hd 0 l)) 0). set (m1 := <[p := n1]> (nodes s)).
  assert (Hseg1 : seg m1 r 0 l 0).
  { eapply seg_ext; [|done]. intros q Hq. apply lookup_insert_ne. set_solver. }
  (* the old first node *)
  assert (H2 : exists m2, (if negb (hd 0 l =? 0) then update (hd 0 l) (fun x => set_prev x p) else ret tt) (with_nodes s m1)
              = Ok (tt, with_nodes s m2) /\ seg m2 r p l 0 /\ m2 !! p = Some n1 /\ same_core m1 m2 /\
                forall q, (q ∉ l) -> m2 !! q = m1 !! q).
  { destruct l as [|h l]; cbn [hd]; [exists m1; split_and!; try done; apply lookup_insert_eq|].
    destruct Hseg1 as [(nh & Hnh & Hh0 & Hrest) Hseg1]. rewrite (proj2 (Z.eqb_neq h 0) Hh0). cbn [negb].
    exists (<[h := set_prev nh p]> m1). split_and!.
    - by rewrite (update_ok (with_nodes s m1) h _ nh).
    - apply seg_set_prev with (pr := 0); [done|by apply NoDup_cons in Hnd as [? _]|]. by split; [exists nh|].
    - rewrite lookup_insert_ne by set_solver. apply lookup_insert_eq.
    - by apply same_core_insert with (n := nh).
    - intros q Hq. apply lookup_insert_ne. set_solver. }
  destruct H2 as (m2 & -> & Hseg2 & Hp2 & Hc2 & Hout2). cbn [res_bind].
  destruct (put_head_ok (with_nodes s m2) r (hd 0 l) p) as (s3 & -> & Hn3 & Hb3); [by apply head_is_nodes|].
  cbn [res_bind]. rewrite (update_ok s3 p _ n1) by (by rewrite Hn3). cbn [res_bind].
  eexists. split; [reflexivity|]. rewrite Hn3. cbn [nodes with_nodes].
  split_and!; [by eapply heads_but_nodes| | |].
  - cbn. split.
    + exists (set_head n1 None). rewrite lookup_insert_eq. by split_and!.
    + eapply seg_ext; [|done]. intros q Hq. apply lookup_insert_ne. set_solver.
  - transitivity m1; [by apply same_core_insert with (n := n)|]. transitivity m2; [done|].
    by apply same_core_insert with (n := n1).
  - intros q Hq. rewrite lookup_insert_ne by set_solver. rewrite Hout2 by set_solver. apply lookup_insert_ne. set_solver.
Qed.

(** Taking a node out of a list. *)
Lemma remove_node_spec (s : state) (r : head_ref) (p : Z) (n : utspace_split_node) (l1 l2 : list Z) :
  head_is s r (hd 0 (l1 ++ p :: l2)) -> seg (nodes s) r 0 (l1 ++ p :: l2) 0 -> NoDup (l1 ++ p :: l2) ->
  nodes s !! p = Some n ->
  exists s', _remove_node r p s = Ok (tt, s') /\ heads_but s s' r (hd 0 (l1 ++ l2)) /\
    seg (nodes s') r 0 (l1 ++ l2) 0 /\ same_core (nodes s) (nodes s') /\
    (exists n', nodes s' !! p = Some n' /\ head n' = Some r /\ core n' = core n) /\
    (forall q, (q ∉ l1 ++ p :: l2) -> nodes s' !! q = nodes s !! q).
Proof.
  intros Hhd [Hs1 Hs2]%seg_app Hnd Hn. cbn [hd] in Hs1.
  destruct Hs2 as [(n' & Hn' & H0 & Hpr & Hnx & Hh & Ho) Hs2]. rewrite Hn in Hn'. injection Hn' as <-.
  apply NoDup_app in Hnd as (Hnd1 & Hdis & [Hp2 Hnd2]%NoDup_cons).
  assert (Hp1 : (p ∉ l1)) by (intros Hp; apply (Hdis p Hp); left).
  unfold _remove_node. rewrite (bind_ok _ _ _ _ _ (load_ok _ _ _ Hn)).
  (* the link from the left *)
  assert (H1 : exists s1, (if negb (prev n =? 0) then update (prev n) (fun x => set_next x (next n))
       else let! h := get_head r in let! _ := cassert (h =? p) in put_head r (next n)) s = Ok (tt, s1) /\
     heads_but s s1 r (hd 0 (l1 ++ l2)) /\ seg (nodes s1) r 0 l1 (hd 0 l2) /\ seg (nodes s1) r p l2 0 /\
     nodes s1 !! p = Some n /\ same_core (nodes s) (nodes s1) /\
     (forall q, (q ∉ l1) -> nodes s1 !! q = nodes s !! q)).
  { destruct l1 as [|a l1 _] using rev_ind.
    - cbn in Hpr. rewrite Hpr. cbn [Z.eqb negb]. rewrite (bind_ok _ _ _ _ _ (get_head_ok _ _ _ Hhd)). cbn [hd app].
      unfold bind, cassert, rassert, lift. rewrite Z.eqb_refl. cbn [res_bind].
      destruct (put_head_ok s r p (next n) Hhd) as (s1 & -> & Hn1 & Hb1). rewrite Hnx in Hb1.
      exists s1. rewrite Hn1. by split_and!.
    - rewrite last_last in Hpr. pose proof Hs1 as Hs1'. apply seg_app in Hs1' as [_ [(na & Hna & Ha0 & _) _]].
      rewrite Hpr, (proj2 (Z.eqb_neq a 0) Ha0). cbn [negb]. rewrite (update_ok _ _ _ _ Hna), Hnx.
      eexists. split; [reflexivity|]. cbn [nodes with_nodes].
      assert (Hal : (a ∉ l1)) by (apply NoDup_app in Hnd1 as (_ & Hd1 & _); intros Ha; apply (Hd1 a Ha); left).
      assert (Hap : a <> p) by (intros ->; apply Hp1; set_solver).
      assert (Hal2 : (a ∉ l2)) by (intros Ha; apply (Hdis a); [set_solver|by right]).
      split_and!.
      + split_and!; [apply head_is_nodes|intros x Hx y Hy; by apply head_is_nodes|done].
        by destruct l1.
      + by eapply seg_set_next.
      + eapply seg_ext; [|done]. intros q Hq. apply lookup_insert_ne. set_solver.
      + by rewrite lookup_insert_ne.
      + by apply same_core_insert with (n := na).
      + intros q Hq. apply lookup_insert_ne. set_solver. }
  destruct H1 as (s1 & Heq & Hb1 & Hsl & Hsr & Hn1 & Hc1 & Hout1).
  rewrite (bind_ok _ _ _ _ _ Heq), (bind_ok _ _ _ _ _ (load_ok _ _ _ Hn1)).
  (* the link from the right *)
  assert (H2 : exists m2, (if negb (next n =? 0) then update (next n) (fun x => set_prev x (prev n)) else ret tt) s1
                = Ok (tt, with_nodes s1 m2) /\ seg m2 r 0 l1 (hd 0 l2) /\ seg m2 r (List.last l1 0) l2 0 /\
                m2 !! p = Some n /\ same_core (nodes s1) m2 /\ (forall q, (q ∉ l2) -> m2 !! q = nodes s1 !! q)).
  { rewrite Hnx. destruct l2 as [|b l2]; cbn [hd].
    - exists (nodes s1). cbn. split_and!; try done. by destruct s1.
    - destruct Hsr as [(nb & Hnb & Hb0 & Hrest) Hsr]. rewrite (proj2 (Z.eqb_neq b 0) Hb0). cbn [negb].
      rewrite (update_ok _ _ _ _ Hnb). eexists. split; [reflexivity|].
      assert (Hbl : (b ∉ l2)) by (by apply NoDup_cons in Hnd2 as [? _]).
      assert (Hbp : b <> p) by (intros ->; apply Hp2; left).
      split_and!.
      + eapply seg_ext; [|done]. intros q Hq. apply lookup_insert_ne. intros <-. apply (Hdis b Hq). right. left.
      + rewrite Hpr. eapply seg_set_prev with (pr := p); [done|done|]. split; [by exists nb|done].
      + by rewrite lookup_insert_ne.
      + by apply same_core_insert with (n := nb).
      + intros q Hq. apply lookup_insert_ne. set_solver. }
  destruct H2 as (m2 & Heq2 & Hsl2 & Hsr2 & Hn2 & Hc2 & Hout2).
  rewrite (bind_ok _ _ _ _ _ Heq2), (update_ok (with_nodes s1 m2) p _ n Hn2). eexists. split; [reflexivity|].
  rewrite with_nodes_twice. cbn [nodes with_nodes]. split_and!.
  - destruct Hb1 as (Ha & Hb & Hc). split_and!; [by apply head_is_nodes| |done].
    intros x Hx y Hy. by apply head_is_nodes, Hb.
  - apply seg_app. split; (eapply seg_ext; [|done]); intros q Hq; apply lookup_insert_ne; set_solver.
  - transitivity (nodes s1); [done|]. transitivity m2; [done|]. by apply same_core_insert with (n := n).
  - exists (set_head n (Some r)). rewrite lookup_insert_eq. by split_and!.
  - intros q Hq. rewrite lookup_insert_ne by set_solver. rewrite Hout2 by set_solver. apply Hout1. set_solver.
Qed.

End primitives.
