(* ===== verification/SplitInv.v ===== *)
(** The invariant of the splitting allocator of untypeds (Split.v): the links
    between the nodes, the free lists and the tree of halves agree; and what
    linking, splitting and joining do to it and to the nodes the clients hold. *)
From S2P Require Import Prelude Cspacepath Interfaces Objects Split.

(** ** The invariant *)

(** What the allocator relies on: the memory manager never hands out a block
    that is still allocated, and nothing else touches the blocks; every call
    returns.  [mem_live] are the allocated blocks. *)
Class SplitMemory (W : Type) `{!AllocmanOps W, !KernelOps W} : Type := {
  mem_live : W -> gset Z;
  mem_alloc : forall n w, exists p e w', allocman_mspace_alloc n w = Ok (p, e, w') /\ mem_live w ⊆ mem_live w' /\
    (e = 0 -> p <> 0 /\ (p ∉ mem_live w) /\ p ∈ mem_live w');
  mem_free : forall p n w, p ∈ mem_live w -> exists w', allocman_mspace_free p n w = Ok (tt, w') /\
    mem_live w ∖ {[p]} ⊆ mem_live w';
  mem_cspace_alloc : forall w, exists e p w', allocman_cspace_alloc w = Ok (e, p, w') /\ mem_live w ⊆ mem_live w';
  mem_cspace_free : forall p w, exists w', allocman_cspace_free p w = Ok (tt, w') /\ mem_live w ⊆ mem_live w';
  mem_delete : forall a b c w, exists e w', seL4_CNode_Delete a b c w = Ok (e, w') /\ mem_live w ⊆ mem_live w';
  mem_retype : forall a b c d e f g h w, exists r w', seL4_Untyped_Retype a b c d e f g h w = Ok (r, w') /\
    mem_live w ⊆ mem_live w'
}.

Section invariant.
Context {W : Type} `{!AllocmanOps W, !KernelOps W, !SplitMemory W}.
Local Abbreviation state := (split_state W).
Local Abbreviation lists := (head_ref -> list Z).

(** [n], at [p], and its sibling are the two halves of its parent, which is
    one size up and allocated. *)
Record halves (X : gset Z) (m : gmap Z utspace_split_node) (fl : lists) (p : Z) (n : utspace_split_node) : Prop := {
  h_sibling : exists sn, m !! sibling n = Some sn /\ parent sn = parent n /\ sibling sn = p /\
    origin_head sn = origin_head n;
  h_sibling_ne : sibling n <> p /\ (sibling n ∉ X);
  h_parent : exists pn, m !! parent n = Some pn /\ (parent n ∉ X) /\
    origin_head pn = ((origin_head n).1, (origin_head n).2 + 1) /\ (parent n ∉ fl (origin_head pn));
  h_only : forall p' n', (p' ∉ X) -> m !! p' = Some n' -> parent n' = parent n -> p' = p \/ p' = sibling n
}.

(** A physical address is a multiple of the size, and the untyped ends before
    the end of the address space. *)
Definition aligned (n : utspace_split_node) : Prop :=
  paddr n = ALLOCMAN_NO_PADDR \/
  exists k, paddr n = k * 2 ^ (origin_head n).2 /\ 0 <= k /\ paddr n + 2 ^ (origin_head n).2 <= word_size.

(** The invariant, but for the nodes in [X], which are being made or
    destroyed, and the [head]s of those in [Y], which are not yet set; [fl] are
    the free lists. *)
Record inv (X Y : gset Z) (s : state) (fl : lists) : Prop := {
  i_heads : forall q i, 0 <= i < 64 -> head_is s (q, i) (hd 0 (fl (q, i)));
  i_seg : forall r, seg (nodes s) r 0 (fl r) 0;
  i_nodup : forall r, NoDup (fl r);
  i_fl : forall r p, p ∈ fl r -> (p ∉ X);
  i_zero : nodes s !! 0 = None;
  i_node : forall p n, (p ∉ X) -> nodes s !! p = Some n ->
    0 <= (origin_head n).2 < 64 /\ ((p ∉ Y) -> (p ∉ fl (origin_head n)) -> head n = Some (origin_head n));
  i_tree : forall p n, (p ∉ X) -> nodes s !! p = Some n -> parent n <> 0 -> halves X (nodes s) fl p n;
  i_addr : forall p n, (p ∉ X) -> nodes s !! p = Some n -> aligned n;
  i_live : forall p n, nodes s !! p = Some n -> p ∈ mem_live (rest s)
}.

(** An allocated node without children: what clients hold. *)
Definition childless (X : gset Z) (m : gmap Z utspace_split_node) (p : Z) : Prop :=
  forall p' n', (p' ∉ X) -> m !! p' = Some n' -> parent n' <> p.

(** What the client knows of it: its capability, its pool and size, its
    physical address. *)
Definition data (n : utspace_split_node) := (ut n, origin_head n, paddr n).

Definition holds (X : gset Z) (m : gmap Z utspace_split_node) (p : Z) (u : cspacepath_t * head_ref * Z) : Prop :=
  (p ∉ X) /\ (exists n, m !! p = Some n /\ head n <> None /\ data n = u) /\ childless X m p.

Definition fl_set (fl : lists) (r : head_ref) (l : list Z) : lists :=
  fun x => if decide (x = r) then l else fl x.

Lemma fl_set_eq fl r l : fl_set fl r l r = l.
Proof. unfold fl_set. by rewrite decide_True. Qed.
Lemma fl_set_ne fl r l x : x <> r -> fl_set fl r l x = fl x.
Proof. intros. unfold fl_set. by rewrite decide_False. Qed.

Lemma inv_in_list X Y s fl r p : inv X Y s fl -> p ∈ fl r ->
  exists n, nodes s !! p = Some n /\ p <> 0 /\ head n = None /\ origin_head n = r.
Proof. intros Hi Hp. eapply seg_in; [by apply (i_seg _ _ _ _ Hi r)|done]. Qed.

(** A node is free exactly when its [head] is null. *)
Lemma inv_head X Y s fl p n : inv X Y s fl -> (p ∉ X) -> (p ∉ Y) -> nodes s !! p = Some n ->
  head n = None <-> p ∈ fl (origin_head n).
Proof.
  intros Hi HX HY Hn. split.
  - intros Hh. destruct (decide (p ∈ fl (origin_head n))); [done|].
    destruct (i_node _ _ _ _ Hi p n HX Hn) as [_ H]. by rewrite H in Hh.
  - intros Hp. destruct (inv_in_list _ _ _ _ _ _ Hi Hp) as (n' & Hn' & _ & Hh & _). by simplify_eq.
Qed.

(** A free node has no children. *)
Lemma inv_childless X Y s fl r p : inv X Y s fl -> p ∈ fl r -> childless X (nodes s) p.
Proof.
  intros Hi Hp p' n' HX Hn' Hpar.
  destruct (inv_in_list _ _ _ _ _ _ Hi Hp) as (n & Hn & H0 & _ & Ho).
  destruct (h_parent _ _ _ _ _ (i_tree _ _ _ _ Hi p' n' HX Hn' ltac:(congruence))) as (pn & Hpn & _ & _ & Hfl).
  rewrite Hpar in Hpn, Hfl. by simplify_eq.
Qed.

Definition with_rest (s : state) (w : W) : state :=
  SplitState (nodes s) (heads s) (dev_heads s) (dev_mem_heads s) w.

Lemma inv_rest X Y (s : state) fl w : inv X Y s fl -> mem_live (rest s) ⊆ mem_live w ->
  inv X Y (with_rest s w) fl.
Proof. intros [] Hl. constructor; simpl; try done. intros p n Hn. by eapply Hl, i_live0. Qed.

(** Cores determine the tree. *)
Lemma core_fields n n' : core n' = core n ->
  ut n' = ut n /\ parent n' = parent n /\ sibling n' = sibling n /\ origin_head n' = origin_head n /\ paddr n' = paddr n.
Proof. unfold core. intros H. by simplify_eq. Qed.

Lemma same_core_sym_lookup m m' p n' : same_core m m' -> m' !! p = Some n' -> exists n, m !! p = Some n /\ core n' = core n.
Proof.
  intros H Hp. specialize (H p). rewrite Hp in H. cbn in H. destruct (m !! p) as [n|]; [|done].
  injection H as Hc. exists n. split; [done|]. unfold core. congruence.
Qed.

Lemma halves_core X m m' fl fl' p n n' :
  same_core m m' -> core n' = core n -> (forall r q, q ∈ fl' r -> q ∈ fl r \/ childless X m q) ->
  (p ∉ X) -> m !! p = Some n ->
  halves X m fl p n -> halves X m' fl' p n'.
Proof.
  intros Hc (Eut & Ep & Es & Eo & Epa)%core_fields Hfl HX Hn [(sn & Hsn & H1 & H2 & H3) H4 (pn & Hpn & H5 & H6 & H7) H8].
  destruct (same_core_lookup _ _ _ _ Hc Hsn) as (sn' & Hsn' & (_ & F1 & F2 & F3 & _)%core_fields).
  destruct (same_core_lookup _ _ _ _ Hc Hpn) as (pn' & Hpn' & (_ & G1 & G2 & G3 & _)%core_fields).
  constructor.
  - exists sn'. rewrite Es, Ep, Eo. split_and!; congruence.
  - by rewrite Es.
  - exists pn'. rewrite Ep, Eo, G3. split_and!; [done|done|done|]. intros Hin.
    destruct (Hfl _ _ Hin) as [?|Hcl]; [done|]. by apply (Hcl p n).
  - intros p' x' HX' Hx'. destruct (same_core_sym_lookup _ _ _ _ Hc Hx') as (x & Hx & (_ & K & _)%core_fields).
    rewrite K, Ep, Es. by apply H8.
Qed.

(** Replacing one free list. *)
Lemma inv_relink X Y Y' (s s' : state) fl r l : inv X Y s fl ->
  heads_but s s' r (hd 0 l) -> seg (nodes s') r 0 l 0 -> NoDup l -> same_core (nodes s) (nodes s') ->
  (forall q, (q ∉ fl r) -> (q ∉ l) -> nodes s' !! q = nodes s !! q) ->
  (forall q, q ∈ l -> q ∈ fl r \/ (q ∉ X) /\ childless X (nodes s) q) ->
  (forall q n, q ∈ fl r -> (q ∉ l) -> nodes s' !! q = Some n -> head n = Some r) ->
  Y ⊆ Y' ∪ list_to_set l ->
  inv X Y' s' (fl_set fl r l).
Proof.
  intros Hi (Hb1 & Hb2 & Hb3) Hseg Hnd Hc Hout Hin Hrem HY.
  (* the origins tell the lists apart *)
  assert (Hor : forall q n, nodes s !! q = Some n -> q ∈ fl r \/ q ∈ l -> origin_head n = r).
  { intros q n Hq [Hqr|Hql].
    - destruct (inv_in_list _ _ _ _ _ _ Hi Hqr) as (z & Hz & _ & _ & Ho). congruence.
    - destruct (seg_in _ _ _ _ _ _ Hseg Hql) as (z & Hz & _ & _ & Ho).
      destruct (same_core_lookup _ _ _ _ Hc Hq) as (z' & Hz' & (_ & _ & _ & Eo & _)%core_fields). congruence. }
  assert (Hkeep : forall q n, nodes s !! q = Some n -> origin_head n <> r -> nodes s' !! q = nodes s !! q).
  { intros q n Hq Hne. apply Hout; intros Hf; apply Hne, (Hor _ _ Hq); auto. }
  constructor.
  - intros q i Hqi. destruct (decide ((q, i) = r)) as [<-|Hne]; [by rewrite fl_set_eq|].
    rewrite fl_set_ne by done. by apply Hb2, (i_heads _ _ _ _ Hi).
  - intros x. destruct (decide (x = r)) as [->|Hne]; [by rewrite fl_set_eq|]. rewrite fl_set_ne by done.
    eapply seg_ext; [|by apply (i_seg _ _ _ _ Hi)]. intros q Hq.
    destruct (inv_in_list _ _ _ _ _ _ Hi Hq) as (z & Hz & _ & _ & Ho). apply (Hkeep _ _ Hz). congruence.
  - intros x. destruct (decide (x = r)) as [->|Hne]; [by rewrite fl_set_eq|].
    rewrite fl_set_ne by done. by apply (i_nodup _ _ _ _ Hi).
  - intros x q. destruct (decide (x = r)) as [->|Hne]; [rewrite fl_set_eq|rewrite fl_set_ne by done].
    + intros [Hq|[? _]]%Hin; [by apply (i_fl _ _ _ _ Hi r)|done].
    + apply (i_fl _ _ _ _ Hi x).
  - pose proof (i_zero _ _ _ _ Hi) as Hz. destruct (nodes s' !! 0) as [z|] eqn:Hz'; [|done].
    destruct (same_core_sym_lookup _ _ _ _ Hc Hz') as (? & ? & _). congruence.
  - intros q x HX Hx. destruct (same_core_sym_lookup _ _ _ _ Hc Hx) as (y & Hy & (_ & _ & _ & Eo & _)%core_fields).
    destruct (i_node _ _ _ _ Hi q y HX Hy) as [Hr2 Hal]. rewrite Eo. split; [done|]. intros HqY.
    destruct (decide (origin_head y = r)) as [Heo|Hne]; [rewrite Heo, fl_set_eq|rewrite fl_set_ne by done]; intros Hq.
    + destruct (decide (q ∈ fl r)) as [Hqr|Hqr]; [by eapply Hrem|].
      rewrite Hout, Hy in Hx by done. injection Hx as <-. rewrite <- Heo. apply Hal; [set_solver|by rewrite Heo].
    + rewrite (Hkeep _ _ Hy Hne), Hy in Hx. injection Hx as <-. apply Hal; [|done]. intros HqY1.
      apply Hne, (Hor q y Hy). set_solver.
  - intros q x HX Hx Hpar. destruct (same_core_sym_lookup _ _ _ _ Hc Hx) as (y & Hy & Hcy).
    pose proof (core_fields _ _ Hcy) as (_ & Ep & _).
    eapply (halves_core X (nodes s) _ fl); [exact Hc|exact Hcy| |exact HX|exact Hy|].
    + intros z a. destruct (decide (z = r)) as [->|Hne]; [rewrite fl_set_eq|rewrite fl_set_ne by done; by left].
      intros [?|[_ ?]]%Hin; auto.
    + apply (i_tree _ _ _ _ Hi); [done|done|congruence].
  - intros q x HX Hx. destruct (same_core_sym_lookup _ _ _ _ Hc Hx) as (y & Hy & (_ & _ & _ & Eo & Epa)%core_fields).
    unfold aligned. rewrite Eo, Epa. by apply (i_addr _ _ _ _ Hi q y).
  - intros q x Hx. destruct (same_core_sym_lookup _ _ _ _ Hc Hx) as (y & Hy & _). rewrite Hb3.
    by apply (i_live _ _ _ _ Hi q y).
Qed.

(** Linking changes whether a node is free for one node only. *)
Definition same_heads (p : Z) (m m' : gmap Z utspace_split_node) : Prop :=
  forall q n n', q <> p -> m !! q = Some n -> m' !! q = Some n' -> head n' = None <-> head n = None.

Lemma same_heads_relink X Y (s s' : state) fl r p l : inv X Y s fl -> seg (nodes s') r 0 l 0 ->
  (forall q, q <> p -> q ∈ fl r <-> q ∈ l) -> (forall q, (q ∉ fl r) -> q <> p -> nodes s' !! q = nodes s !! q) ->
  same_heads p (nodes s) (nodes s').
Proof.
  intros Hi Hseg Hl Hout q n n' Hqp Hn Hn'. destruct (decide (q ∈ fl r)) as [Hq|Hq].
  - destruct (inv_in_list _ _ _ _ _ _ Hi Hq) as (z & Hz & _ & Hh & _).
    destruct (seg_in _ _ _ _ _ _ Hseg (proj1 (Hl q Hqp) Hq)) as (z' & Hz' & _ & Hh' & _). naive_solver congruence.
  - rewrite Hout in Hn' by done. naive_solver congruence.
Qed.

(** Taking a node from a free list. *)
Lemma inv_remove X Y (s : state) fl r p : inv X Y s fl -> p ∈ fl r ->
  exists s' l, _remove_node r p s = Ok (tt, s') /\ inv X Y s' (fl_set fl r l) /\
    same_core (nodes s) (nodes s') /\ same_heads p (nodes s) (nodes s') /\ (forall q, q ∈ l <-> q ∈ fl r /\ q <> p) /\
    (exists n, nodes s !! p = Some n /\ head n = None) /\
    exists n', nodes s' !! p = Some n' /\ head n' = Some r.
Proof.
  intros Hi Hp. destruct (inv_in_list _ _ _ _ _ _ Hi Hp) as (n & Hn & H0 & Hh & Ho).
  destruct (i_node _ _ _ _ Hi p n (i_fl _ _ _ _ Hi r p Hp) Hn) as [Hrange _]. rewrite Ho in Hrange.
  pose proof (i_heads _ _ _ _ Hi r.1 r.2 Hrange) as Hhd. rewrite <- surjective_pairing in Hhd.
  pose proof (i_seg _ _ _ _ Hi r) as Hseg. pose proof (i_nodup _ _ _ _ Hi r) as Hnd.
  pose proof Hp as Hp'. apply list_elem_of_split in Hp as (l1 & l2 & Hl). rewrite Hl in Hhd, Hseg, Hnd.
  destruct (remove_node_spec s r p n l1 l2 Hhd Hseg Hnd Hn) as (s' & Heq & Hb & Hseg' & Hc & (n' & Hn' & Hhn' & Hcn') & Hout).
  pose proof Hnd as (Hnd1 & Hd & [Hp2 Hnd2]%NoDup_cons)%NoDup_app.
  assert (Hin : forall q, q ∈ l1 ++ l2 <-> q ∈ fl r /\ q <> p).
  { intros q. rewrite Hl, !elem_of_app, elem_of_cons. split; [|naive_solver].
    intros [Hq|Hq]; (split; [auto|]); intros ->; [apply (Hd p Hq); left|done]. }
  assert (Hsh : same_heads p (nodes s) (nodes s')).
  { eapply same_heads_relink; [done|done| |].
    - intros q Hq. rewrite Hin. naive_solver.
    - intros q Hq1 Hq2. apply Hout. by rewrite <- Hl. }
  exists s', (l1 ++ l2). split; [done|]. split; [|split_and!; [done|done|done|eauto|eauto]].
  eapply inv_relink; try done.
  - apply NoDup_app. split_and!; [done| |done]. intros y Hy Hy2. apply (Hd y Hy). by right.
  - intros q Hq1 Hq2. apply Hout. by rewrite <- Hl.
  - intros q [? _]%Hin. by left.
  - intros q x Hq1 Hq2 Hx. destruct (decide (q = p)) as [->|Hqp]; [congruence|]. destruct Hq2. by apply Hin.
  - set_solver.
Qed.

(** Putting a node without children into the free list it belongs to. *)
Lemma inv_insert X Y (s : state) fl p n : inv X Y s fl -> (p ∉ X) -> nodes s !! p = Some n ->
  (p ∉ fl (origin_head n)) -> childless X (nodes s) p ->
  exists s', _insert_node (origin_head n) p s = Ok (tt, s') /\
    inv X (Y ∖ {[p]}) s' (fl_set fl (origin_head n) (p :: fl (origin_head n))) /\
    same_core (nodes s) (nodes s') /\ same_heads p (nodes s) (nodes s') /\
    exists n', nodes s' !! p = Some n' /\ head n' = None.
Proof.
  intros Hi HX Hn Hp Hch. set (r := origin_head n) in *.
  destruct (i_node _ _ _ _ Hi p n HX Hn) as [Hrange _]. fold r in Hrange.
  pose proof (i_heads _ _ _ _ Hi r.1 r.2 Hrange) as Hhd. rewrite <- surjective_pairing in Hhd.
  assert (H0 : p <> 0) by (intros ->; rewrite (i_zero _ _ _ _ Hi) in Hn; done).
  destruct (insert_node_spec s r p n (fl r) Hhd (i_seg _ _ _ _ Hi r) (i_nodup _ _ _ _ Hi r) Hn H0 Hp eq_refl)
    as (s' & Heq & Hb & Hseg & Hc & Hout).
  exists s'. split; [done|].
  assert (Hsh : same_heads p (nodes s) (nodes s')).
  { eapply same_heads_relink; [done|done| |].
    - intros q Hq. rewrite elem_of_cons. naive_solver.
    - intros q Hq1 Hq2. apply Hout. set_solver. }
  split; [|split_and!; [done|done|destruct Hseg as [(n' & ? & _ & _ & _ & ? & _) _]; by exists n']].
  eapply inv_relink; try done.
  - constructor; [done|apply (i_nodup _ _ _ _ Hi)].
  - intros q Hq1 Hq2. by apply Hout.
  - intros q [->|Hq]%elem_of_cons; auto.
  - intros q x Hq1 Hq2. destruct Hq2. by right.
  - intros q Hq. destruct (decide (q = p)); set_solver.
Qed.

(** ** Nodes that are being made or destroyed *)

Definition same_known (X X' : gset Z) (m m' : gmap Z utspace_split_node) : Prop :=
  forall p n, ((p ∉ X') /\ m' !! p = Some n) <-> ((p ∉ X) /\ m !! p = Some n).

Lemma halves_known X X' m m' fl p n : same_known X X' m m' -> halves X m fl p n -> halves X' m' fl p n.
Proof.
  intros Hk [(sn & Hsn & H1) [H2 H2'] (pn & Hpn & H3 & H4) H5].
  destruct (proj2 (Hk _ sn) (conj H2' Hsn)) as [HsX Hsn']. destruct (proj2 (Hk _ pn) (conj H3 Hpn)) as [HpX Hpn'].
  constructor; [by exists sn|done|by exists pn|].
  intros p' n' HX Hp'. destruct (proj1 (Hk _ n') (conj HX Hp')). eauto.
Qed.

Lemma inv_known X X' Y (s : state) fl m w : inv X Y s fl -> same_known X X' (nodes s) m -> m !! 0 = None ->
  (forall p n, m !! p = Some n -> p ∈ mem_live w) ->
  inv X' Y (SplitState m (heads s) (dev_heads s) (dev_mem_heads s) w) fl.
Proof.
  intros Hi Hk H0 Hlive.
  assert (Hfl : forall r p, p ∈ fl r -> (p ∉ X') /\ m !! p = nodes s !! p).
  { intros r p Hp. destruct (inv_in_list _ _ _ _ _ _ Hi Hp) as (n & Hn & _). rewrite Hn.
    apply Hk. split; [by apply (i_fl _ _ _ _ Hi r)|done]. }
  constructor; simpl; [apply Hi| |apply Hi| |done| | | |exact Hlive].
  - intros r. eapply seg_ext; [|by apply (i_seg _ _ _ _ Hi)]. intros q Hq. by apply (Hfl r).
  - intros r p Hp. by apply (Hfl r).
  - intros p n HX Hn. destruct (proj1 (Hk p n) (conj HX Hn)). by apply (i_node _ _ _ _ Hi).
  - intros p n HX Hn Hpar. destruct (proj1 (Hk p n) (conj HX Hn)).
    eapply halves_known; [done|]. by apply (i_tree _ _ _ _ Hi).
  - intros p n HX Hn. destruct (proj1 (Hk p n) (conj HX Hn)). by apply (i_addr _ _ _ _ Hi p n).
Qed.

Lemma childless_known X X' m m' p : same_known X X' m m' -> childless X m p -> childless X' m' p.
Proof. intros Hk Hc p' n' HX Hn. destruct (proj1 (Hk p' n') (conj HX Hn)). eauto. Qed.

Lemma same_known_sym X X' m m' : same_known X X' m m' -> same_known X' X m' m.
Proof. intros H p n. symmetry. apply H. Qed.

Lemma same_known_trans X X' X'' m m' m'' : same_known X X' m m' -> same_known X' X'' m' m'' -> same_known X X'' m m''.
Proof. intros H H' p n. etransitivity; [apply H'|apply H]. Qed.

Lemma holds_known X X' m m' p u : same_known X X' m m' -> holds X m p u <-> holds X' m' p u.
Proof.
  assert (H : forall X X' m m', same_known X X' m m' -> holds X m p u -> holds X' m' p u).
  { intros A A' a a' Hk (HX & (n & Hn & Hh) & Hc). destruct (proj2 (Hk p n) (conj HX Hn)).
    split_and!; [done|by exists n|by eapply childless_known]. }
  intros Hk. split; [by apply H|]. by apply H, same_known_sym.
Qed.

Lemma known_fresh X m p g : m !! p = None -> same_known X ({[p]} ∪ X) m (<[p := g]> m).
Proof.
  intros Hp q n. destruct (decide (q = p)) as [->|Hne].
  - rewrite Hp. set_solver.
  - rewrite lookup_insert_ne by done. set_solver.
Qed.

Lemma known_delete X m p : p ∈ X -> same_known X (X ∖ {[p]}) m (delete p m).
Proof.
  intros Hp q n. destruct (decide (q = p)) as [->|Hne].
  - rewrite lookup_delete_eq. set_solver.
  - rewrite lookup_delete_ne by done. set_solver.
Qed.

Lemma known_update X m p n : p ∈ X -> same_known X X m (<[p := n]> m).
Proof.
  intros Hp q x. destruct (decide (q = p)) as [->|Hne]; [set_solver|]. by rewrite lookup_insert_ne.
Qed.

Lemma inv_update X Y (s : state) fl p n f : inv X Y s fl -> p ∈ X -> nodes s !! p = Some n ->
  update p f s = Ok (tt, with_nodes s (<[p := f n]> (nodes s))) /\
  inv X Y (with_nodes s (<[p := f n]> (nodes s))) fl.
Proof.
  intros Hi Hp Hn. split; [by apply update_ok|].
  assert (H0 : p <> 0) by (intros ->; rewrite (i_zero _ _ _ _ Hi) in Hn; done).
  eapply inv_known; [done|by apply known_update|by rewrite lookup_insert_ne; [apply Hi|]|].
  intros q x Hq. destruct (decide (q = p)) as [->|Hne]; [by eapply (i_live _ _ _ _ Hi)|].
  rewrite lookup_insert_ne in Hq by done. by eapply (i_live _ _ _ _ Hi).
Qed.

Lemma on_rest_ok {A} (m : M W A) (s : state) a w : m (rest s) = Ok (a, w) ->
  on_rest m s = Ok (a, with_rest s w).
Proof. intros H. unfold on_rest. by rewrite H. Qed.

(** Destroying one. *)
Lemma delete_cap_ok (s : state) path : exists e w, delete_cap path s = Ok (e, with_rest s w) /\ mem_live (rest s) ⊆ mem_live w.
Proof.
  destruct (mem_delete (root path) (capPtr path) (capDepth path) (rest s)) as (e & w & Hd & Hl).
  exists e, w. split; [|done]. unfold delete_cap. by rewrite (on_rest_ok _ _ _ _ Hd).
Qed.

Lemma delete_node_spec X Y (s : state) fl p n : inv X Y s fl -> p ∈ X -> nodes s !! p = Some n ->
  exists s', _delete_node p s = Ok (tt, s') /\ nodes s' = delete p (nodes s) /\ inv (X ∖ {[p]}) Y s' fl.
Proof.
  intros Hi Hp Hn. unfold _delete_node. rewrite (bind_ok _ _ _ _ _ (load_ok _ _ _ Hn)).
  destruct (delete_cap_ok s (ut n)) as (e & w1 & Hd & Hl1). rewrite (bind_ok _ _ _ _ _ Hd).
  destruct (mem_cspace_free (ut n) w1) as (w2 & Hc & Hl2).
  erewrite bind_ok by (apply on_rest_ok; exact Hc). cbn [with_rest nodes heads dev_heads dev_mem_heads rest].
  unfold set_nodes, modify, bind at 1. cbn [with_rest res_bind nodes heads dev_heads dev_mem_heads rest].
  destruct (mem_free p sizeof_split_node w2) as (w3 & Hf & Hl3); [by eapply Hl2, Hl1, (i_live _ _ _ _ Hi)|].
  erewrite on_rest_ok by exact Hf. cbn [with_rest nodes heads dev_heads dev_mem_heads rest].
  eexists. split; [reflexivity|]. split; [done|].
  eapply (inv_known X _ _ s); [done|by apply known_delete| |].
  { cbn. by rewrite lookup_delete_None; right; apply Hi. }
  intros q x Hq. cbn in Hq. apply lookup_delete_Some in Hq as [Hq Hx]. apply Hl3. apply elem_of_difference.
  split; [by eapply Hl2, Hl1, (i_live _ _ _ _ Hi)|set_solver].
Qed.

(** *** What the clients hold *)

Lemma childless_core X m m' p : same_core m m' -> childless X m p -> childless X m' p.
Proof.
  intros Hc Hch q n HX Hn. destruct (same_core_sym_lookup _ _ _ _ Hc Hn) as (y & Hy & (_ & -> & _)%core_fields).
  by apply (Hch q).
Qed.

Lemma holds_core X m m' p q u : same_core m m' -> same_heads p m m' -> q <> p -> holds X m' q u <-> holds X m q u.
Proof.
  intros Hc Hh Hq. unfold holds. split; intros (HX & (n & Hn & H1 & H2) & Hch); (split; [done|]); split.
  - destruct (same_core_sym_lookup _ _ _ _ Hc Hn) as (y & Hy & Hcy). exists y.
    specialize (Hh q y n Hq Hy Hn). apply core_fields in Hcy as (E1 & _ & _ & E2 & E3). unfold data in *.
    split_and!; [done|by rewrite <- Hh|congruence].
  - eapply childless_core; [|done]. intros x. symmetry. apply Hc.
  - destruct (same_core_lookup _ _ _ _ Hc Hn) as (y & Hy & Hcy). exists y.
    specialize (Hh q n y Hq Hn Hy). apply core_fields in Hcy as (E1 & _ & _ & E2 & E3). unfold data in *.
    split_and!; [done|by rewrite Hh|congruence].
  - by eapply childless_core.
Qed.

Lemma holds_fun X m p u v : holds X m p u -> holds X m p v -> u = v.
Proof. intros (_ & (n & Hn & _ & <-) & _) (_ & (n' & Hn' & _ & <-) & _). congruence. Qed.

(** Taking a free node gives it to the client. *)
Lemma remove_holds X Y (s : state) fl r p : inv X Y s fl -> p ∈ fl r ->
  exists s' l n, _remove_node r p s = Ok (tt, s') /\ inv X Y s' (fl_set fl r l) /\ nodes s !! p = Some n /\
    same_core (nodes s) (nodes s') /\ (forall q, q ∈ l <-> q ∈ fl r /\ q <> p) /\
    (forall u, ~ holds X (nodes s) p u) /\ origin_head n = r /\
    (forall x u, holds X (nodes s') x u <-> holds X (nodes s) x u \/ (x = p /\ u = data n)).
Proof.
  intros Hi Hp. destruct (inv_in_list _ _ _ _ _ _ Hi Hp) as (n & Hn & _ & Hhn & Ho).
  destruct (inv_remove X Y s fl r p Hi Hp) as (s' & l & Heq & Hi' & Hc & Hsh & Hl & _ & (n' & Hn' & Hh')).
  assert (Hno : forall u, ~ holds X (nodes s) p u).
  { intros u (_ & (z & Hz & Hhz & _) & _). congruence. }
  exists s', l, n. split_and!; try done. intros x u. destruct (decide (x = p)) as [->|Hx].
  - split.
    + intros H. right. split; [done|]. destruct H as (_ & (z & Hz & _ & <-) & _).
      destruct (same_core_lookup _ _ _ _ Hc Hn) as (y & Hy & (E1 & _ & _ & E2 & E3)%core_fields).
      unfold data. congruence.
    + intros [?|[_ ->]]; [by destruct (Hno u)|]. split; [by apply (i_fl _ _ _ _ Hi r)|]. split.
      * exists n'. split_and!; [done|by rewrite Hh'|].
        destruct (same_core_lookup _ _ _ _ Hc Hn) as (y & Hy & (E1 & _ & _ & E2 & E3)%core_fields).
        unfold data. congruence.
      * eapply childless_core; [done|]. by eapply inv_childless.
  - rewrite (holds_core X _ _ p x u Hc Hsh Hx). naive_solver.
Qed.

(** Giving a node back takes it from the client. *)
Lemma insert_holds X Y (s : state) fl p n : inv X Y s fl -> (p ∉ X) -> nodes s !! p = Some n ->
  (p ∉ fl (origin_head n)) -> childless X (nodes s) p ->
  exists s', _insert_node (origin_head n) p s = Ok (tt, s') /\
    inv X (Y ∖ {[p]}) s' (fl_set fl (origin_head n) (p :: fl (origin_head n))) /\ same_core (nodes s) (nodes s') /\
    (forall x u, holds X (nodes s') x u <-> holds X (nodes s) x u /\ x <> p).
Proof.
  intros Hi HX Hn Hp Hch. destruct (inv_insert X Y s fl p n Hi HX Hn Hp Hch) as (s' & Heq & Hi' & Hc & Hsh & (n' & Hn' & Hh')).
  exists s'. split_and!; try done. intros x u. destruct (decide (x = p)) as [->|Hx].
  - split; [|naive_solver]. intros (_ & (z & Hz & Hhz & _) & _). congruence.
  - rewrite (holds_core X _ _ p x u Hc Hsh Hx). naive_solver.
Qed.

(** *** Joining and leaving the tree *)

Lemma inv_adopt X Y (s : state) fl a b na nb p pn q i :
  inv X Y s fl -> a ∈ X -> b ∈ X -> a <> b -> nodes s !! a = Some na -> nodes s !! b = Some nb ->
  parent na = p -> parent nb = p -> sibling na = b -> sibling nb = a ->
  origin_head na = (q, i) -> origin_head nb = (q, i) -> 0 <= i < 64 -> aligned na -> aligned nb ->
  (p ∉ X) -> nodes s !! p = Some pn -> origin_head pn = (q, i + 1) -> (p ∉ fl (q, i + 1)) -> childless X (nodes s) p ->
  inv (X ∖ {[a]} ∖ {[b]}) ({[a]} ∪ ({[b]} ∪ Y)) s fl.
Proof.
  intros Hi Ha Hb Hab Hna Hnb Hpa Hpb Hsa Hsb Hoa Hob Hr Hala Halb HpX Hpn Hop Hpfl Hch.
  assert (Hcase : forall x, (x ∉ X ∖ {[a]} ∖ {[b]}) -> x = a \/ x = b \/ (x ∉ X)).
  { intros x Hx. destruct (decide (x = a)); [auto|]. destruct (decide (x = b)); [auto|]. set_solver. }
  constructor; try apply Hi.
  - intros r x Hx. pose proof (i_fl _ _ _ _ Hi r x Hx). set_solver.
  - intros x n HX Hn. destruct (Hcase x HX) as [->|[->|HX']].
    + simplify_eq. rewrite Hoa. split; [done|]. set_solver.
    + simplify_eq. rewrite Hob. split; [done|]. set_solver.
    + destruct (i_node _ _ _ _ Hi x n HX' Hn) as [? H]. split; [done|]. intros HY. apply H. set_solver.
  - assert (Honly : forall p' n', (p' ∉ X ∖ {[a]} ∖ {[b]}) -> nodes s !! p' = Some n' -> parent n' = p -> p' = a \/ p' = b).
    { intros p' n' HX Hn' Hpar. destruct (Hcase p' HX) as [->|[->|HX']]; auto. by destruct (Hch p' n' HX' Hn'). }
    assert (Hpar : exists n, nodes s !! p = Some n /\ (p ∉ X ∖ {[a]} ∖ {[b]}) /\
                     origin_head n = (q, i + 1) /\ (p ∉ fl (origin_head n))).
    { exists pn. rewrite Hop. split_and!; [done|set_solver|done|done]. }
    intros x n HX Hn Hp0. destruct (Hcase x HX) as [->|[->|HX']].
    + rewrite Hna in Hn. injection Hn as <-. constructor; rewrite ?Hsa, ?Hpa, ?Hoa; simpl; [|set_solver|done|by eauto].
      exists nb. by rewrite Hpb, Hob, Hsb.
    + rewrite Hnb in Hn. injection Hn as <-. constructor; rewrite ?Hsb, ?Hpb, ?Hob; simpl; [|set_solver|done|].
      * exists na. by rewrite Hpa, Hoa, Hsa.
      * intros p' n' H1 H2 H3. destruct (Honly p' n' H1 H2 H3); auto.
    + destruct (i_tree _ _ _ _ Hi x n HX' Hn Hp0) as [H1 [H2 H2'] (z & Hz & H3 & H3') H4].
      assert (Hne : parent n <> p) by (by apply (Hch x n)).
      constructor; [done|set_solver|exists z; set_solver|].
      intros p' n' H5 H6 H7. destruct (Hcase p' H5) as [->|[->|HX'']]; [congruence|congruence|]. by eapply H4.
  - intros x n HX Hn. destruct (Hcase x HX) as [->|[->|HX']]; [congruence|congruence|].
    by apply (i_addr _ _ _ _ Hi x).
Qed.

Lemma inv_disown X Y (s : state) fl a b na nb : inv X Y s fl -> (a ∉ X) -> nodes s !! a = Some na -> nodes s !! b = Some nb ->
  parent na <> 0 -> sibling na = b ->
  childless X (nodes s) a -> childless X (nodes s) b -> (forall r, (a ∉ fl r)) -> (forall r, (b ∉ fl r)) ->
  inv ({[a]} ∪ ({[b]} ∪ X)) Y s fl.
Proof.
  intros Hi Ha Hna Hnb Hp0 Hs Hca Hcb Hfa Hfb.
  destruct (i_tree _ _ _ _ Hi a na Ha Hna Hp0) as [(sn & Hsn & _ & Hss & _) _ _ _]. rewrite Hs, Hnb in Hsn. injection Hsn as <-.
  assert (Hout : forall x, (x ∉ {[a]} ∪ ({[b]} ∪ X)) -> (x ∉ X) /\ x <> a /\ x <> b) by set_solver.
  constructor; try apply Hi.
  - intros r x Hx. pose proof (i_fl _ _ _ _ Hi r x Hx).
    assert (x <> a) by (intros ->; by apply (Hfa r)). assert (x <> b) by (intros ->; by apply (Hfb r)).
    set_solver.
  - intros x n [HX _]%Hout. by apply (i_node _ _ _ _ Hi).
  - intros x n (HX & Hxa & Hxb)%Hout Hn Hpar.
    destruct (i_tree _ _ _ _ Hi x n HX Hn Hpar) as [(z & Hz & H1 & H2 & H3) [H4 H4'] (y & Hy & H5 & H6) H7].
    constructor; [by exists z| | |].
    + split; [done|]. intros [Hin|[Hin|Hin]%elem_of_union]%elem_of_union; [| |done].
      * apply elem_of_singleton in Hin. rewrite Hin in Hz. congruence.
      * apply elem_of_singleton in Hin. rewrite Hin in Hz. congruence.
    + exists y. split; [done|]. split; [|done].
      intros [Hin|[Hin|Hin]%elem_of_union]%elem_of_union; [| |done].
      * apply elem_of_singleton in Hin. by apply (Hca x n HX Hn).
      * apply elem_of_singleton in Hin. by apply (Hcb x n HX Hn).
    + intros p' n' [? _]%Hout. by apply H7.
  - intros x n [HX _]%Hout. by apply (i_addr _ _ _ _ Hi).
Qed.

(** *** Looking for a node in a list *)

Lemma walk_spec test (s : state) r pr l fuel : seg (nodes s) r pr l 0 -> (length l <= fuel)%nat ->
  exists x, walk test fuel (hd 0 l) s = Ok (x, s) /\
    ((x = 0 /\ forall y n, y ∈ l -> nodes s !! y = Some n -> test n = false) \/
     (x <> 0 /\ x ∈ l /\ exists n, nodes s !! x = Some n /\ test n = true)).
Proof.
  revert pr fuel. induction l as [|p l IH]; intros pr fuel Hseg Hlen.
  - exists 0. destruct fuel; (split; [done|]); left; (split; [done|]); set_solver.
  - destruct Hseg as [(n & Hn & H0 & _ & Hnx & _) Hseg]. destruct fuel as [|fuel]; [simpl in Hlen; lia|].
    cbn [hd walk]. rewrite (proj2 (Z.eqb_neq p 0) H0), (bind_ok _ _ _ _ _ (load_ok _ _ _ Hn)).
    destruct (test n) eqn:Ht.
    + exists p. split; [done|]. right. split_and!; [done|left|by exists n].
    + rewrite Hnx. destruct (IH p fuel Hseg) as (x & Hx & Hcase); [simpl in Hlen; lia|]. exists x. split; [done|].
      destruct Hcase as [[-> Hno]|(Hx0 & Hin & Hyes)].
      * left. split; [done|]. intros y m [->|Hy]%elem_of_cons Hm; [congruence|by eapply Hno].
      * right. split_and!; [done|by right|done].
Qed.

Lemma find_node_spec test X Y (s : state) fl q i : inv X Y s fl -> 0 <= i < 64 ->
  exists x, find_node test (q, i) s = Ok (x, s) /\
    ((x = 0 /\ forall y n, y ∈ fl (q, i) -> nodes s !! y = Some n -> test n = false) \/
     (x <> 0 /\ x ∈ fl (q, i) /\ exists n, nodes s !! x = Some n /\ test n = true)).
Proof.
  intros Hi Hr. unfold find_node. rewrite (bind_ok _ _ _ _ _ (get_head_ok _ _ _ (i_heads _ _ _ _ Hi q i Hr))).
  apply (walk_spec _ _ (q, i) 0); [by apply (i_seg _ _ _ _ Hi)|].
  rewrite <- size_dom, <- (size_list_to_set (C := gset Z)) by apply (i_nodup _ _ _ _ Hi). apply subseteq_size.
  intros x Hx%elem_of_list_to_set. destruct (inv_in_list _ _ _ _ _ _ Hi Hx) as (n & Hn & _). by eapply elem_of_dom_2.
Qed.

(** *** Splitting *)

Lemma retype_ok a b c d e f g h (s : state) : exists r w,
  on_rest (seL4_Untyped_Retype a b c d e f g h) s = Ok (r, with_rest s w) /\ mem_live (rest s) ⊆ mem_live w.
Proof.
  destruct (mem_retype a b c d e f g h (rest s)) as (r & w & Hr & Hl). exists r, w. split; [|done].
  by rewrite (on_rest_ok _ _ _ _ Hr).
Qed.

Lemma delete_two {A} X (s : state) fl a b (z : A) : inv X ∅ s fl -> a ∈ X -> b ∈ X -> a <> b ->
  is_Some (nodes s !! a) -> is_Some (nodes s !! b) ->
  exists s', (let! _ := _delete_node a in let! _ := _delete_node b in ret z) s = Ok (z, s') /\
    inv (X ∖ {[a]} ∖ {[b]}) ∅ s' fl /\ same_known X (X ∖ {[a]} ∖ {[b]}) (nodes s) (nodes s').
Proof.
  intros Hi Ha Hb Hab [na Hna] [nb Hnb].
  destruct (delete_node_spec X ∅ s fl a na Hi Ha Hna) as (s1 & E1 & N1 & Hi1). rewrite (bind_ok _ _ _ _ _ E1).
  destruct (delete_node_spec (X ∖ {[a]}) ∅ s1 fl b nb Hi1) as (s2 & E2 & N2 & Hi2);
    [set_solver|rewrite N1; by rewrite lookup_delete_ne|].
  rewrite (bind_ok _ _ _ _ _ E2). exists s2. split_and!; [done|done|].
  apply (same_known_trans _ (X ∖ {[a]}) _ _ (nodes s1)).
  - rewrite N1. by apply known_delete.
  - rewrite N2. apply known_delete. set_solver.
Qed.

Lemma aligned_halves i n pa : 0 <= i < 63 -> aligned n -> (origin_head n).2 = i + 1 -> paddr n <> ALLOCMAN_NO_PADDR ->
  pa = paddr n \/ pa = paddr n ⊞ BIT i ->
  exists k, pa = k * 2 ^ i /\ 0 <= k /\ pa + 2 ^ i <= word_size.
Proof.
  intros Hr [?|(k & Hk & Hk0 & Hsz)] Hor Hne Hpa; [done|]. rewrite Hor in Hk, Hsz.
  rewrite Z.pow_add_r, Z.pow_1_r in Hk, Hsz by lia. rewrite BIT_pow in Hpa by lia.
  assert (0 < 2 ^ i) by (apply Z.pow_pos_nonneg; lia).
  assert (0 <= k * 2 ^ i) by (apply Z.mul_nonneg_nonneg; lia).
  rewrite wrap_small in Hpa by (unfold is_word; lia).
  destruct Hpa as [->| ->]; [exists (2 * k)|exists (2 * k + 1)]; split_and!; try lia.
Qed.

Lemma made_childless X Y (s : state) fl p n : inv X Y s fl -> p ∈ X -> nodes s !! p = Some n -> childless X (nodes s) p.
Proof.
  intros Hi Hp Hn q x HX Hx Hpar.
  assert (p <> 0) by (intros ->; rewrite (i_zero _ _ _ _ Hi) in Hn; done).
  destruct (i_tree _ _ _ _ Hi q x HX Hx) as [_ _ (y & _ & HpX & _) _]; congruence.
Qed.

(** The two inserts at the end of a split: the made nodes [a] and [b] become
    the free halves of [p]. *)
Lemma insert_halves X (s : state) fl a b na nb p pn q i :
  inv X ∅ s fl -> a ∈ X -> b ∈ X -> a <> b -> X ∖ {[a]} ∖ {[b]} = ∅ -> nodes s !! a = Some na -> nodes s !! b = Some nb ->
  parent na = p -> parent nb = p -> sibling na = b -> sibling nb = a ->
  origin_head na = (q, i) -> origin_head nb = (q, i) -> 0 <= i < 64 -> aligned na -> aligned nb ->
  (p ∉ X) -> nodes s !! p = Some pn -> origin_head pn = (q, i + 1) -> (p ∉ fl (q, i + 1)) -> childless X (nodes s) p ->
  exists s', (let! _ := _insert_node (q, i) b in let! _ := _insert_node (q, i) a in ret 0) s = Ok (0, s') /\
    inv ∅ ∅ s' (fl_set (fl_set fl (q, i) (b :: fl (q, i))) (q, i) (a :: b :: fl (q, i))) /\
    same_core (nodes s) (nodes s') /\ (forall x u, holds ∅ (nodes s') x u <-> holds X (nodes s) x u /\ x <> p).
Proof.
  intros Hi Ha Hb Hab HXe Hna Hnb Hpa Hpb Hsa Hsb Hoa Hob Hr Hala Halb HpX Hpn Hop Hpfl Hch.
  pose proof (inv_adopt X ∅ s fl a b na nb p pn q i Hi Ha Hb Hab Hna Hnb Hpa Hpb Hsa Hsb Hoa Hob Hr Hala Halb HpX Hpn Hop Hpfl Hch)
    as Hi1. rewrite HXe in Hi1.
  assert (Hnofl : forall x r, x ∈ X -> (x ∉ fl r)).
  { intros x r Hx Hin. by apply (i_fl _ _ _ _ Hi) in Hin. }
  assert (Hout : forall x, (x ∉ X) \/ x = a \/ x = b).
  { intros x. destruct (decide (x = a)); [auto|]. destruct (decide (x = b)); [auto|]. left. set_solver. }
  assert (Hchild : forall c n, c ∈ X -> nodes s !! c = Some n -> childless ∅ (nodes s) c).
  { intros c n Hc Hn x y _ Hx Hpar. destruct (Hout x) as [HX|[->| ->]]; [|congruence|congruence].
    by apply (made_childless X ∅ s fl c n Hi Hc Hn x y). }
  (* the right half *)
  destruct (insert_holds ∅ _ s fl b nb Hi1) as (s1 & E1 & Hi2 & Hc1 & Hh1); [done|done|by apply Hnofl|by eapply Hchild|].
  rewrite Hob in E1, Hi2. rewrite (bind_ok _ _ _ _ _ E1).
  (* the left half *)
  destruct (same_core_lookup _ _ _ _ Hc1 Hna) as (na1 & Hna1 & Hcore). pose proof (core_fields _ _ Hcore) as (_ & _ & _ & Eo & _).
  rewrite Hoa in Eo.
  destruct (insert_holds ∅ _ s1 _ a na1 Hi2) as (s2 & E2 & Hi3 & Hc2 & Hh2); [done|done| | |].
  { rewrite Eo, fl_set_eq. apply not_elem_of_cons. split; [done|]. by apply Hnofl. }
  { eapply childless_core; [done|]. by eapply Hchild. }
  rewrite Eo, fl_set_eq in Hi3. rewrite Eo in E2. rewrite (bind_ok _ _ _ _ _ E2). exists s2. split; [done|].
  split; [|split; [by transitivity (nodes s1)|]].
  { replace (({[a]} ∪ ({[b]} ∪ ∅)) ∖ {[b]} ∖ {[a]}) with (∅ : gset Z) in Hi3 by set_solver. done. }
  intros x u. rewrite Hh2, Hh1. split.
  - intros [[(_ & Hn & Hcx) Hxb] Hxa]. destruct (Hout x) as [HX|[?|?]]; [|done|done].
    split; [split_and!; [done|done|]|].
    + intros y z _ Hy. by apply (Hcx y z).
    + intros ->. by apply (Hcx a na).
  - intros [(HX & Hn & Hcx) Hxp]. split; [split|]; [|by intros ->|by intros ->]. split; [done|]. split; [done|].
    intros y z _ Hy. destruct (Hout y) as [HyX|[->| ->]]; [by apply (Hcx y z)|congruence|congruence].
Qed.

Lemma split_node_spec X (s : state) fl q i p a b : inv X ∅ s fl -> a ∈ X -> b ∈ X -> a <> b -> X ∖ {[a]} ∖ {[b]} = ∅ ->
  is_Some (nodes s !! a) -> is_Some (nodes s !! b) -> 0 <= i < 63 -> p ∈ fl (q, i + 1) ->
  exists e s' fl', split_node q i p a b s = Ok (e, s') /\ inv ∅ ∅ s' fl' /\
    (forall x u, holds ∅ (nodes s') x u <-> holds X (nodes s) x u) /\
    (e = 0 -> exists n na nb, nodes s !! p = Some n /\ origin_head n = (q, i + 1) /\ aligned n /\
       fl' (q, i) = a :: b :: fl (q, i) /\
       nodes s' !! a = Some na /\ nodes s' !! b = Some nb /\ paddr na = paddr n /\
       paddr nb = if negb (paddr n =? ALLOCMAN_NO_PADDR) then paddr n ⊞ BIT i else ALLOCMAN_NO_PADDR).
Proof.
  intros Hi Ha Hb Hab HXe [na Hna] [nb Hnb] Hr Hp.
  destruct (inv_in_list _ _ _ _ _ _ Hi Hp) as (n & Hn & Hp0 & Hhn & Hon).
  pose proof (i_fl _ _ _ _ Hi _ _ Hp) as HpX.
  assert (Hfail : forall (s1 : state), inv X ∅ s1 fl -> nodes s1 = nodes s ->
    exists e s' fl', (let! _ := _delete_node a in let! _ := _delete_node b in ret 1) s1 = Ok (e, s') /\ inv ∅ ∅ s' fl' /\
      (forall x u, holds ∅ (nodes s') x u <-> holds X (nodes s) x u) /\ e = 1).
  { intros s1 Hi1 Hn1. destruct (delete_two X s1 fl a b 1 Hi1 Ha Hb Hab) as (s2 & E & Hi2 & Hk);
      [rewrite Hn1; by eexists|rewrite Hn1; by eexists|].
    rewrite HXe in Hi2, Hk. rewrite Hn1 in Hk. exists 1, s2, fl. split_and!; [done|done| |done].
    intros x u. symmetry. by apply holds_known. }
  unfold split_node. rewrite (bind_ok _ _ _ _ _ (load_ok _ _ _ Hn)), (bind_ok _ _ _ _ _ (load_ok _ _ _ Hna)).
  edestruct retype_ok as (e1 & w1 & Er1 & Hl1). rewrite (bind_ok _ _ _ _ _ Er1). clear Er1.
  pose proof (inv_rest _ _ _ _ _ Hi Hl1) as Hi1.
  destruct (negb (e1 =? seL4_NoError)).
  { destruct (Hfail _ Hi1 eq_refl) as (e & s' & fl' & HE & HI & HH & ->). exists 1, s', fl'. by split_and!. }
  rewrite (bind_ok _ _ _ _ _ (load_ok (with_rest s w1) _ _ Hnb)).
  edestruct retype_ok as (e2 & w2 & Er2 & Hl2). rewrite (bind_ok _ _ _ _ _ Er2). clear Er2.
  pose proof (inv_rest _ _ _ _ _ Hi1 Hl2) as Hi2. set (s2 := with_rest (with_rest s w1) w2) in *.
  destruct (negb (e2 =? seL4_NoError)).
  { destruct (delete_cap_ok s2 (ut na)) as (e3 & w3 & Ed & Hl3). rewrite (bind_ok _ _ _ _ _ Ed).
    destruct (Hfail _ (inv_rest _ _ _ _ _ Hi2 Hl3) eq_refl) as (e & s' & fl' & HE & HI & HH & ->).
    exists 1, s', fl'. by split_and!. }
  (* the parent leaves its list *)
  destruct (remove_holds X ∅ s2 fl _ p Hi2 Hp) as (s3 & l' & n' & E3 & Hi3 & Hn' & Hc3 & Hl' & Hno & _ & Hh3).
  assert (n' = n) as -> by (cbn in Hn'; congruence). rewrite (bind_ok _ _ _ _ _ E3).
  destruct (same_core_lookup _ _ _ _ Hc3 Hna) as (na3 & Hna3 & _).
  destruct (same_core_lookup _ _ _ _ Hc3 Hnb) as (nb3 & Hnb3 & _).
  destruct (same_core_lookup _ _ _ _ Hc3 Hn) as (n3 & Hn3 & (_ & _ & _ & Eo & _)%core_fields). rewrite Hon in Eo.
  pose proof (i_addr _ _ _ _ Hi p n HpX Hn) as Hal.
  assert (Hch : childless X (nodes s3) p) by (eapply childless_core; [done|]; by eapply (inv_childless X ∅ s2 fl)).
  (* the links of the halves *)
  match goal with |- context [update a ?f] => destruct (inv_update X ∅ s3 _ a na3 f Hi3 Ha Hna3) as [E4 Hi4] end.
  rewrite (bind_ok _ _ _ _ _ E4).
  match goal with |- context [update b ?f] => destruct (inv_update X ∅ _ _ b nb3 f Hi4 Hb) as [E5 Hi5] end;
    [cbn; by rewrite lookup_insert_ne|].
  rewrite (bind_ok _ _ _ _ _ E5). clear E4 E5. cbn [with_nodes nodes heads dev_heads dev_mem_heads rest] in *.
  assert (Hpab : p <> a /\ p <> b) by (split; intros ->; done). destruct Hpab as [Hpa Hpb].
  assert (Hhalf : forall pa, paddr n <> ALLOCMAN_NO_PADDR -> pa = paddr n \/ pa = paddr n ⊞ BIT i ->
    exists k, pa = k * 2 ^ i /\ 0 <= k /\ pa + 2 ^ i <= word_size).
  { intros pa Hne. apply aligned_halves; [lia|done|by rewrite Hon|done]. }
  match type of Hi5 with context [<[b := ?x]> (<[a := ?y]> _)] => set (nb4 := x) in *; set (na4 := y) in * end.
  destruct (insert_halves X _ _ a b na4 nb4 p n3 q i Hi5 Ha Hb Hab HXe) as (s6 & E6 & Hi6 & Hc6 & Hh6).
  { cbn. rewrite lookup_insert_ne by done. apply lookup_insert_eq. }
  { cbn. apply lookup_insert_eq. }
  all: try reflexivity.
  { lia. }
  { unfold aligned. cbn. destruct (Z.eqb_spec (paddr n) ALLOCMAN_NO_PADDR) as [?|Hne]; cbn [negb]; auto. }
  { unfold aligned. cbn. destruct (Z.eqb_spec (paddr n) ALLOCMAN_NO_PADDR) as [?|Hne]; cbn [negb]; auto. }
  { done. }
  { cbn. by rewrite !lookup_insert_ne. }
  { done. }
  { rewrite fl_set_eq. intros Hx%Hl'. by destruct Hx. }
  { eapply childless_known; [|exact Hch]. eapply same_known_trans; by apply known_update. }
  rewrite E6. do 3 eexists. split; [reflexivity|]. split; [exact Hi6|]. split.
  - intros x u. rewrite Hh6.
    assert (Hk : same_known X X (nodes s3) (<[b := nb4]> (<[a := na4]> (nodes s3))))
      by (eapply same_known_trans; by apply known_update).
    rewrite <- (holds_known _ _ _ _ _ _ Hk), Hh3. split; [|].
    + intros [[?|[? _]] ?]; done.
    + intros H. split; [by left|]. intros ->. by apply (Hno u).
  - intros _. 
    destruct (same_core_lookup _ _ a na4 Hc6) as (na6 & Hna6 & (_ & _ & _ & _ & Ea)%core_fields);
      [cbn; rewrite lookup_insert_ne by done; apply lookup_insert_eq|].
    destruct (same_core_lookup _ _ b nb4 Hc6) as (nb6 & Hnb6 & (_ & _ & _ & _ & Eb)%core_fields);
      [cbn; apply lookup_insert_eq|].
    exists n, na6, nb6. rewrite fl_set_eq, fl_set_ne by (intros [=]; lia). split_and!; try done.
    rewrite Ea. cbn. destruct (Z.eqb_spec (paddr n) ALLOCMAN_NO_PADDR); cbn; congruence.
Qed.

(** *** Freeing *)

(** What the clients hold when two free or returned halves are disowned: their
    parent becomes an allocated node without children. *)
Lemma disown_holds (s : state) fl a b na : inv ∅ ∅ s fl -> nodes s !! a = Some na -> parent na <> 0 -> sibling na = b ->
  childless ∅ (nodes s) a -> childless ∅ (nodes s) b ->
  childless ({[a]} ∪ ({[b]} ∪ ∅)) (nodes s) (parent na) /\
  forall x u, x <> parent na -> holds ({[a]} ∪ ({[b]} ∪ ∅)) (nodes s) x u <-> holds ∅ (nodes s) x u /\ x <> a /\ x <> b.
Proof.
  intros Hi Hna Hp0 Hs Hca Hcb.
  destruct (i_tree _ _ _ _ Hi a na) as [(sn & Hsn & Hsp & _) _ _ Honly]; [set_solver|done|done|]. rewrite Hs in *.
  assert (HX : forall x, (x ∉ {[a]} ∪ ({[b]} ∪ (∅ : gset Z))) <-> x <> a /\ x <> b) by set_solver.
  split.
  - intros x n [Hxa Hxb]%HX Hn Hpar. by destruct (Honly x n (not_elem_of_empty _) Hn Hpar).
  - intros x u Hxp. unfold holds. rewrite HX. split.
    + intros ([Hxa Hxb] & Hn & Hch). split_and!; [set_solver|done| |done|done].
      intros y z _ Hy Hpar. destruct (decide (y = a)) as [->|Hya]; [congruence|].
      destruct (decide (y = b)) as [->|Hyb]; [congruence|]. apply (Hch y z); [by apply HX|done|done].
    + intros [(_ & Hn & Hch) ?]. split_and!; [naive_solver|naive_solver|done|].
      intros y z _ Hy. apply (Hch y z); [set_solver|done].
Qed.

(** Joining two halves: the free one leaves its list, both are deleted. *)
Lemma join_halves (s : state) fl p n b sn : inv ∅ ∅ s fl -> nodes s !! p = Some n -> (p ∉ fl (origin_head n)) ->
  childless ∅ (nodes s) p -> parent n <> 0 -> sibling n = b -> nodes s !! b = Some sn -> head sn = None ->
  exists s' fl' pn, (let! _ := _remove_node (origin_head sn) b in let! _ := _delete_node b in _delete_node p) s = Ok (tt, s') /\
    inv ∅ ∅ s' fl' /\ nodes s' !! parent n = Some pn /\ (parent n ∉ fl' (origin_head pn)) /\
    childless ∅ (nodes s') (parent n) /\ (origin_head pn).2 = (origin_head n).2 + 1 /\
    (forall x u, holds ∅ (nodes s') x u /\ x <> parent n <-> holds ∅ (nodes s) x u /\ x <> p).
Proof.
  intros Hi Hn Hpfl Hch Hp0 Hs Hsn Hh.
  destruct (i_tree _ _ _ _ Hi p n) as [(sn' & Hsn' & Hsp & Hss & Hso) [Hbp _] (pn & Hpn & _ & Hpo & Hppfl) Honly]; [set_solver|done|done|].
  rewrite Hs in *. assert (sn' = sn) as -> by congruence. clear Hsn'.
  assert (Hb : b ∈ fl (origin_head sn)) by (apply (inv_head ∅ ∅ s fl b sn Hi); [set_solver|set_solver|done|done]).
  pose proof (inv_childless ∅ ∅ s fl _ b Hi Hb) as Hchb.
  destruct (remove_holds ∅ ∅ s fl _ b Hi Hb) as (s1 & l & sn' & E1 & Hi1 & Hsn' & Hc1 & Hl & Hno & _ & Hh1).
  assert (sn' = sn) as -> by congruence. rewrite (bind_ok _ _ _ _ _ E1).
  destruct (same_core_lookup _ _ _ _ Hc1 Hn) as (n1 & Hn1 & (_ & E1p & E1s & E1o & _)%core_fields).
  destruct (same_core_lookup _ _ _ _ Hc1 Hsn) as (sn1 & Hsn1 & _).
  destruct (same_core_lookup _ _ _ _ Hc1 Hpn) as (pn1 & Hpn1 & (_ & _ & _ & Epo & _)%core_fields).
  set (fl1 := fl_set fl (origin_head sn) l) in *.
  assert (Hsub : forall r x, x ∈ fl1 r -> x ∈ fl r /\ (r = origin_head sn -> x <> b)).
  { intros r x. unfold fl1. destruct (decide (r = origin_head sn)) as [->|Hne];
      [rewrite fl_set_eq; intros [? ?]%Hl; done|by rewrite fl_set_ne by done]. }
  assert (Hfree : forall x m r, nodes s !! x = Some m -> x ∈ fl1 r -> r = origin_head m).
  { intros x m r Hx [Hxr _]%Hsub. destruct (inv_in_list _ _ _ _ _ _ Hi Hxr) as (z & Hz & _ & _ & Hoz). congruence. }
  pose proof (childless_core _ _ _ _ Hc1 Hch) as Hch1. pose proof (childless_core _ _ _ _ Hc1 Hchb) as Hchb1.
  assert (Hi2 : inv ({[p]} ∪ ({[b]} ∪ ∅)) ∅ s1 fl1).
  { eapply (inv_disown ∅ ∅ s1 fl1 p b n1 sn1); try done; [congruence|congruence| |].
    - intros r Hr. pose proof (Hfree p n r Hn Hr) as ->. by apply Hsub in Hr as [? _].
    - intros r Hr. pose proof (Hfree b sn r Hsn Hr) as ->. by apply Hsub in Hr as [_ []]. }
  destruct (disown_holds s1 fl1 p b n1 Hi1 Hn1) as [Hchp Hh2]; [congruence|congruence|done|done|]. rewrite E1p in *.
  destruct (delete_two _ s1 fl1 b p tt Hi2) as (s3 & E3 & Hi3 & Hk); [set_solver|set_solver|done|by eexists|by eexists|].
  replace (({[p]} ∪ ({[b]} ∪ ∅)) ∖ {[b]} ∖ {[p]}) with (∅ : gset Z) in Hi3, Hk by set_solver.
  assert (Hpp : parent n <> p /\ parent n <> b).
  { split; intros Heq; [apply (Hch p n)|apply (Hchb p n)]; done || set_solver. }
  exists s3, fl1, pn1. split_and!.
  - unfold bind in E3 |- *. destruct (_delete_node b s1) as [[[] s2]|]; [|done]. cbn in E3 |- *.
    destruct (_delete_node p s2) as [[[] s2']|]; [|done]. cbn in E3 |- *. by injection E3 as ->.
  - done.
  - apply (Hk (parent n) pn1). split; [set_solver|done].
  - rewrite Epo. intros [Hin _]%Hsub. done.
  - by eapply childless_known.
  - rewrite Epo, Hpo. done.
  - intros x u. rewrite <- (holds_known _ _ _ _ _ _ Hk). split.
    + intros [Hx Hxp]. apply (Hh2 x u Hxp) in Hx as (Hx & ? & ?). split; [|done].
      apply Hh1 in Hx as [?|[? _]]; done.
    + intros [Hx Hxp]. assert (Hxpar : x <> parent n).
      { intros ->. destruct Hx as (_ & _ & Hcx). by apply (Hcx p n). }
      split; [|done]. apply (Hh2 x u Hxpar). split_and!; [apply Hh1; by left|done|].
      intros ->. by apply (Hno u).
Qed.

Lemma split_free_ok fuel : forall p i (s : state) fl n, inv ∅ ∅ s fl -> nodes s !! p = Some n ->
  (p ∉ fl (origin_head n)) -> childless ∅ (nodes s) p -> 64 - (origin_head n).2 <= Z.of_nat fuel ->
  exists s' fl', split_free fuel p i s = Ok (tt, s') /\ inv ∅ ∅ s' fl' /\
    (forall x u, holds ∅ (nodes s') x u <-> holds ∅ (nodes s) x u /\ x <> p).
Proof.
  induction fuel as [|fuel IH]; intros p i s fl n Hi Hn Hpfl Hch Hfuel;
    destruct (i_node _ _ _ _ Hi p n (not_elem_of_empty _) Hn) as [Hr Hhead]; [lia|].
  specialize (Hhead (not_elem_of_empty _) Hpfl).
  cbn [split_free]. rewrite (bind_ok _ _ _ _ _ (load_ok _ _ _ Hn)), Hhead.
  assert (Hins : exists s' fl', _insert_node (origin_head n) p s = Ok (tt, s') /\ inv ∅ ∅ s' fl' /\
    (forall x u, holds ∅ (nodes s') x u <-> holds ∅ (nodes s) x u /\ x <> p)).
  { destruct (insert_holds ∅ ∅ s fl p n Hi) as (s' & E & Hi' & _ & Hh); [set_solver|done|done|done|].
    replace (∅ ∖ {[p]}) with (∅ : gset Z) in Hi' by set_solver. by do 2 eexists. }
  destruct (Z.eqb_spec (parent n) 0) as [|Hp0]; [done|].
  destruct (i_tree _ _ _ _ Hi p n (not_elem_of_empty _) Hn Hp0) as [(sn & Hsn & _) _ _ _].
  rewrite (bind_ok _ _ _ _ _ (load_ok _ _ _ Hsn)). destruct (head sn) eqn:Hhs; [done|].
  destruct (join_halves s fl p n _ sn Hi Hn Hpfl Hch Hp0 eq_refl Hsn Hhs)
    as (s1 & fl1 & pn & E1 & Hi1 & Hpn & Hppfl & Hchp & Hpo & Hh1).
  destruct (IH (parent n) (i + 1) s1 fl1 pn Hi1 Hpn Hppfl Hchp) as (s2 & fl2 & E2 & Hi2 & Hh2); [lia|].
  exists s2, fl2. split; [|split; [done|]].
  - unfold bind in E1 |- *. destruct (_remove_node (origin_head sn) (sibling n) s) as [[[] sa]|]; [|done]. cbn in E1 |- *.
    destruct (_delete_node (sibling n) sa) as [[[] sb]|]; [|done]. cbn in E1 |- *. by rewrite E1.
  - intros x u. by rewrite Hh2, Hh1.
Qed.

(** ** What the allocator promises *)

Definition split_wf (s : state) : Prop := exists fl, inv ∅ ∅ s fl.

(** The untypeds that have been allocated, by cookie. *)
Definition client_holds (s : state) (cookie : Z) (u : cspacepath_t * head_ref * Z) : Prop := holds ∅ (nodes s) cookie u.

(** The untypeds that are free. *)
Definition free_untyped (s : state) (u : cspacepath_t * head_ref * Z) : Prop :=
  exists p n, nodes s !! p = Some n /\ head n = None /\ data n = u.

Definition addr_ok (i pa : Z) : Prop :=
  pa = ALLOCMAN_NO_PADDR \/ exists k, pa = k * 2 ^ i /\ 0 <= k /\ pa + 2 ^ i <= word_size.

End invariant.
