(* ===== verification/SplitSpec.v ===== *)
(** What the splitting allocator of untypeds (Split.v) promises its clients:
    adding, allocating and freeing untypeds, on a concrete system too. *)
From S2P Require Import Prelude Cspacepath Interfaces Objects Split SplitInv.

Section specification.
Context {W : Type} `{!AllocmanOps W, !KernelOps W, !SplitMemory W}.
Local Abbreviation state := (split_state W).
Local Abbreviation lists := (head_ref -> list Z).

(** C19: Freeing an untyped a client holds returns, however far up the tree the
    halves join; the client does not hold it any more, the others keep
    theirs, and the allocator is well-formed. *)
Theorem split_free_spec (s : state) (cookie size_bits : Z) (u : cspacepath_t * head_ref * Z) :
  split_wf s -> client_holds s cookie u ->
  exists s', _utspace_split_free cookie size_bits s = Ok (tt, s') /\ split_wf s' /\
    forall x v, client_holds s' x v <-> client_holds s x v /\ x <> cookie.
Proof.
  intros [fl Hi] (_ & (n & Hn & Hh & _) & Hch). unfold _utspace_split_free.
  assert (Hfl : (cookie ∉ fl (origin_head n))).
  { intros Hin. apply Hh. by apply (inv_head ∅ ∅ s fl cookie n Hi); [set_solver..| |]. }
  destruct (i_node _ _ _ _ Hi cookie n (not_elem_of_empty _) Hn) as [Hr _].
  destruct (split_free_ok (Z.to_nat CONFIG_WORD_SIZE) cookie size_bits s fl n Hi Hn Hfl Hch) as (s' & fl' & E & Hi' & Hh');
    [unfold CONFIG_WORD_SIZE; lia|].
  exists s'. split_and!; [done|by exists fl'|done].
Qed.

Context (garbage : Z -> utspace_split_node).

(** Making a node. *)
Lemma new_node_spec X Y (s : state) fl : inv X Y s fl ->
  exists p s', _new_node garbage s = Ok (p, s') /\
    ((p = 0 /\ nodes s' = nodes s /\ inv X Y s' fl) \/
     (p <> 0 /\ nodes s !! p = None /\ (exists g, nodes s' = <[p := g]> (nodes s)) /\ inv ({[p]} ∪ X) Y s' fl)).
Proof.
  intros Hi. unfold _new_node.
  destruct (mem_alloc sizeof_split_node (rest s)) as (p & e & w1 & Ha & Hl1 & Hnew).
  rewrite (bind_ok _ _ _ _ _ (on_rest_ok _ _ _ _ Ha)). destruct (Z.eqb_spec e 0) as [->|He]; cbn [negb].
  2:{ exists 0. eexists. split; [reflexivity|]. left. split_and!; [done|done|]. by apply inv_rest. }
  destruct (Hnew eq_refl) as (Hp0 & Hpl & Hpw).
  assert (Hpn : nodes s !! p = None).
  { destruct (nodes s !! p) as [n|] eqn:Hn; [|done]. destruct Hpl. by eapply (i_live _ _ _ _ Hi). }
  unfold set_nodes, modify, bind at 1. cbn [with_rest res_bind nodes heads dev_heads dev_mem_heads rest].
  destruct (mem_cspace_alloc w1) as (e & slot & w2 & Hc & Hl2).
  erewrite bind_ok by (apply on_rest_ok; exact Hc). cbn [with_rest nodes heads dev_heads dev_mem_heads rest].
  destruct (Z.eqb_spec e 0) as [->|He]; cbn [negb].
  - (* a node *)
    erewrite bind_ok by (apply update_ok; apply lookup_insert_eq). exists p. eexists. split; [reflexivity|]. right.
    cbn [with_rest nodes with_nodes heads dev_heads dev_mem_heads rest]. rewrite insert_insert_eq.
    split_and!; [done|done|by eexists|]. unfold with_nodes.
    eapply (inv_known X _ _ s); [done|by apply known_fresh|by rewrite lookup_insert_ne; [apply Hi|]|].
    intros q x Hq. cbn. destruct (decide (q = p)) as [->|Hne]; [by apply Hl2|].
    rewrite lookup_insert_ne in Hq by done. by eapply Hl2, Hl1, (i_live _ _ _ _ Hi).
  - (* no slot for it *)
    unfold set_nodes, modify, bind at 1. cbn [with_rest res_bind nodes heads dev_heads dev_mem_heads rest].
    destruct (mem_free p sizeof_split_node w2) as (w3 & Hf & Hl3); [by apply Hl2|].
    erewrite bind_ok by (apply on_rest_ok; exact Hf). cbn [with_rest nodes heads dev_heads dev_mem_heads rest].
    exists 0. eexists. split; [reflexivity|]. left. cbn [nodes]. rewrite delete_insert_id by done.
    split_and!; [done|done|]. eapply (inv_known X _ _ s); [done|done|apply Hi|].
    intros q x Hq. apply Hl3. apply elem_of_difference. split; [by eapply Hl2, Hl1, (i_live _ _ _ _ Hi)|].
    intros ->%elem_of_singleton. cbn in Hq. congruence.
Qed.

(** *** Refilling a pool *)

(** The pool has a node of the size, or one that covers the address. *)
Definition ready (m : gmap Z utspace_split_node) (fl : lists) (q : pool) (i pa : Z) : Prop :=
  if pa =? ALLOCMAN_NO_PADDR then fl (q, i) <> []
  else exists y n, y ∈ fl (q, i) /\ m !! y = Some n /\ covers pa i n = true.

Lemma pool_ready_spec X Y (s : state) fl q i pa : inv X Y s fl -> 0 <= i < 64 ->
  exists b, pool_ready q i pa s = Ok (b, s) /\ (b = true <-> ready (nodes s) fl q i pa).
Proof.
  intros Hi Hr. unfold pool_ready, ready. destruct (pa =? ALLOCMAN_NO_PADDR).
  - rewrite (bind_ok _ _ _ _ _ (get_head_ok _ _ _ (i_heads _ _ _ _ Hi q i Hr))). eexists. split; [done|].
    destruct (fl (q, i)) as [|y l] eqn:Hl; [done|]. cbn [hd].
    destruct (inv_in_list X Y s fl (q, i) y Hi) as (n & _ & H0 & _); [rewrite Hl; left|].
    rewrite (proj2 (Z.eqb_neq y 0) H0). done.
  - destruct (find_node_spec (covers pa i) X Y s fl q i Hi Hr) as (x & Hx & Hcase).
    rewrite (bind_ok _ _ _ _ _ Hx). eexists. split; [done|].
    destruct Hcase as [[-> Hno]|(H0 & Hin & n & Hn & Hc)].
    + split; [done|]. intros (y & n & Hy & Hn & Hc). rewrite (Hno y n Hy Hn) in Hc. done.
    + rewrite (proj2 (Z.eqb_neq x 0) H0). split; [eauto|done].
Qed.

(** The choice of the node to split or to take. *)
Definition pick (q : pool) (i pa : Z) : M state Z :=
  if pa =? ALLOCMAN_NO_PADDR then get_head (q, i)
  else
    let! p := find_node (covers pa i) (q, i) in
    let! _ := cassert (negb (p =? 0)) in
    ret p.

Lemma pick_spec X Y (s : state) fl q i pa : inv X Y s fl -> 0 <= i < 64 -> ready (nodes s) fl q i pa ->
  exists p n, pick q i pa s = Ok (p, s) /\ p ∈ fl (q, i) /\ nodes s !! p = Some n /\
    (pa <> ALLOCMAN_NO_PADDR -> covers pa i n = true).
Proof.
  intros Hi Hr Hready. unfold ready, pick in *. destruct (Z.eqb_spec pa ALLOCMAN_NO_PADDR).
  - rewrite (get_head_ok _ _ _ (i_heads _ _ _ _ Hi q i Hr)). destruct (fl (q, i)) as [|y l] eqn:Hl; [done|].
    destruct (inv_in_list X Y s fl (q, i) y Hi) as (n & Hn & _); [rewrite Hl; left|].
    exists y, n. split_and!; [done|left|done|done].
  - destruct (find_node_spec (covers pa i) X Y s fl q i Hi Hr) as (x & Hx & Hcase). rewrite (bind_ok _ _ _ _ _ Hx).
    destruct Hcase as [[-> Hno]|(H0 & Hin & n' & Hn & Hc)].
    + destruct Hready as (y & n' & Hy & Hn & Hc). rewrite (Hno y n' Hy Hn) in Hc. done.
    + exists x, n'. rewrite (proj2 (Z.eqb_neq x 0) H0). by split_and!.
Qed.

Lemma covers_range pa i n : 0 <= i < 64 -> aligned n -> (origin_head n).2 = i -> covers pa i n = true <->
  paddr n <> ALLOCMAN_NO_PADDR /\ paddr n <= pa < paddr n + 2 ^ i.
Proof.
  intros Hr Hal Ho. unfold covers. destruct (Z.eqb_spec (paddr n) ALLOCMAN_NO_PADDR) as [|Hne]; [naive_solver|].
  destruct Hal as [?|(k & Hk & Hk0 & Hsz)]; [done|]. rewrite Ho in Hk, Hsz.
  assert (0 < 2 ^ i) by (apply Z.pow_pos_nonneg; lia).
  assert (0 <= k * 2 ^ i) by (apply Z.mul_nonneg_nonneg; lia).
  rewrite MASK_pow, wrap_small by (unfold is_word; lia). cbn [negb andb]. rewrite andb_true_iff, !Z.leb_le. lia.
Qed.

(** One of the halves of a node that covers an address covers it. *)
Lemma covers_half pa i n na nb : 0 <= i < 63 -> aligned n -> (origin_head n).2 = i + 1 -> covers pa (i + 1) n = true ->
  pa <> ALLOCMAN_NO_PADDR -> aligned na -> aligned nb -> (origin_head na).2 = i -> (origin_head nb).2 = i ->
  paddr na = paddr n -> paddr nb = (if negb (paddr n =? ALLOCMAN_NO_PADDR) then paddr n ⊞ BIT i else ALLOCMAN_NO_PADDR) ->
  covers pa i na = true \/ covers pa i nb = true.
Proof.
  intros Hr Hal Ho Hc Hpa Hala Halb Hoa Hob Ea Eb. apply covers_range in Hc as [Hne Hc]; [|lia|done|done].
  rewrite !covers_range by (done || lia). rewrite Eb, Ea, (proj2 (Z.eqb_neq _ _) Hne). cbn [negb].
  destruct Hal as [?|(k & Hk & Hk0 & Hsz)]; [done|]. rewrite Ho in Hk, Hsz.
  rewrite Z.pow_add_r, Z.pow_1_r in Hc, Hk, Hsz by lia.
  assert (0 < 2 ^ i) by (apply Z.pow_pos_nonneg; lia).
  assert (0 <= k * 2 ^ i) by (apply Z.mul_nonneg_nonneg; lia).
  rewrite BIT_pow, wrap_small by (unfold is_word; lia). unfold ALLOCMAN_NO_PADDR in *.
  destruct (decide (pa < paddr n + 2 ^ i)); [left; lia|right]. split; [|lia].
  destruct (decide (i = 0)) as [->|]; [lia|]. pose proof (Z.pow_gt_1 2 i ltac:(lia)). lia.
Qed.

Lemma refill_pool_spec q pa fuel : forall i (s : state) fl, inv ∅ ∅ s fl -> 0 <= i < 64 -> highest - i <= Z.of_nat fuel ->
  exists e s' fl', _refill_pool garbage fuel q i pa s = Ok (e, s') /\ inv ∅ ∅ s' fl' /\
    (forall x u, holds ∅ (nodes s') x u <-> holds ∅ (nodes s) x u) /\
    (e = 0 -> ready (nodes s') fl' q i pa).
Proof.
  induction fuel as [|fuel IH]; intros i s fl Hi Hr Hfuel; cbn [_refill_pool];
    destruct (pool_ready_spec ∅ ∅ s fl q i pa Hi Hr) as (b & Hb & Hready); rewrite (bind_ok _ _ _ _ _ Hb);
    (destruct b; [exists 0, s, fl; split_and!; [done|done|done|intros _; by apply Hready]|]).
  { rewrite (proj2 (Z.geb_le i highest)) by (unfold highest in *; lia). exists 1, s, fl. by split_and!. }
  destruct (Z.geb_spec i highest); [exists 1, s, fl; by split_and!|]. unfold highest in *.
  destruct (IH (i + 1) s fl Hi) as (e1 & s1 & fl1 & E1 & Hi1 & Hh1 & Hready1); [lia|lia|].
  rewrite (bind_ok _ _ _ _ _ E1). destruct (Z.eqb_spec e1 0) as [->|He1]; cbn [negb]; [|exists 1, s1, fl1; by split_and!].
  destruct (pick_spec ∅ ∅ s1 fl1 q (i + 1) pa Hi1) as (p & n & Ep & Hp & Hn & Hcov); [lia|by apply Hready1|].
  unfold pick in Ep. rewrite (bind_ok _ _ _ _ _ Ep).
  destruct (new_node_spec ∅ ∅ s1 fl1 Hi1) as (a & s2 & Ea & Hcasea). rewrite (bind_ok _ _ _ _ _ Ea).
  destruct Hcasea as [(-> & Hna & Hi2)|(Ha0 & Hna & (ga & Hs2) & Hi2)].
  { exists 1, s2, fl1. rewrite Hna. by split_and!. }
  rewrite (proj2 (Z.eqb_neq a 0) Ha0).
  destruct (new_node_spec _ ∅ s2 fl1 Hi2) as (c & s3 & Ec & Hcasec). rewrite (bind_ok _ _ _ _ _ Ec).
  pose proof (known_fresh ∅ (nodes s1) a ga Hna) as Hk2. rewrite <- Hs2 in Hk2.
  assert (Ha2 : nodes s2 !! a = Some ga) by (rewrite Hs2; apply lookup_insert_eq).
  destruct Hcasec as [(-> & Hnc & Hi3)|(Hc0 & Hnc & (gc & Hs3) & Hi3)].
  { cbn [Z.eqb]. destruct (delete_node_spec _ ∅ s3 fl1 a ga Hi3) as (s4 & E4 & N4 & Hi4); [set_solver|congruence|].
    rewrite (bind_ok _ _ _ _ _ E4). exists 1, s4, fl1.
    assert (HX : ({[a]} ∪ ∅) ∖ {[a]} = (∅ : gset Z)) by set_solver.
    rewrite HX in Hi4. split_and!; [done|done| |done]. intros x u. rewrite <- Hh1.
    rewrite N4, Hnc, Hs2, delete_insert_id by done. done. }
  rewrite (proj2 (Z.eqb_neq c 0) Hc0).
  pose proof (known_fresh ({[a]} ∪ ∅) (nodes s2) c gc Hnc) as Hk3. rewrite <- Hs3 in Hk3.
  assert (Hac : a <> c) by congruence.
  destruct (split_node_spec ({[c]} ∪ ({[a]} ∪ ∅)) s3 fl1 q i p a c Hi3) as (e & s4 & fl4 & E4 & Hi4 & Hh4 & Hok);
    [set_solver|set_solver|done|set_solver|rewrite Hs3, lookup_insert_ne, Ha2 by done; by eexists| |lia|done|].
  { rewrite Hs3, lookup_insert_eq. by eexists. }
  exists e, s4, fl4. split_and!; [done|done| |].
  - intros x u. rewrite Hh4, <- Hh1. symmetry. apply holds_known. by eapply same_known_trans.
  - intros He. destruct (Hok He) as (n' & na & nb & Hn' & Ho & Hal & Hfl & Hna4 & Hnb4 & Epa & Epb).
    assert (n' = n) as ->.
    { destruct (inv_in_list _ _ _ _ _ _ Hi1 Hp) as (z & Hz & _).
      assert (Hpa' : p <> a) by congruence.
      assert (Hpc : p <> c).
      { intros ->. rewrite Hs2, lookup_insert_ne in Hnc by done. congruence. }
      rewrite Hs3, Hs2, !lookup_insert_ne in Hn' by done. congruence. }
    unfold ready. rewrite Hfl. destruct (Z.eqb_spec pa ALLOCMAN_NO_PADDR) as [|Hpa]; [done|].
    assert (Hin : forall x, x = a \/ x = c -> x ∈ fl4 (q, i)) by (intros x Hx; rewrite Hfl; set_solver).
    assert (Hchild : forall x y, x = a \/ x = c -> nodes s4 !! x = Some y -> aligned y /\ (origin_head y).2 = i).
    { intros x y Hx Hy. destruct (inv_in_list _ _ _ _ _ _ Hi4 (Hin x Hx)) as (z & Hz & _ & _ & Hoz). simplify_eq.
      split; [by apply (i_addr _ _ _ _ Hi4 x)|by rewrite Hoz]. }
    destruct (Hchild a na), (Hchild c nb); auto.
    destruct (covers_half pa i n na nb) as [?|?]; try done; [lia|by rewrite Ho|by apply Hcov|exists a, na|exists c, nb];
      (split_and!; [set_solver|done|done]).
Qed.

(** *** Adding untypeds *)

Lemma inv_root X Y (s : state) fl p n : inv X Y s fl -> p ∈ X -> nodes s !! p = Some n -> parent n = 0 ->
  0 <= (origin_head n).2 < 64 -> aligned n -> inv (X ∖ {[p]}) ({[p]} ∪ Y) s fl.
Proof.
  intros Hi Hp Hn Hpar Hr Hal.
  assert (Hcase : forall x, (x ∉ X ∖ {[p]}) -> x = p \/ (x ∉ X)).
  { intros x Hx. destruct (decide (x = p)); [auto|set_solver]. }
  constructor; try apply Hi.
  - intros r x Hx. pose proof (i_fl _ _ _ _ Hi r x Hx). set_solver.
  - intros x m HX Hm. destruct (Hcase x HX) as [->|HX'].
    + simplify_eq. split; [done|set_solver].
    + destruct (i_node _ _ _ _ Hi x m HX' Hm) as [? H]. split; [done|]. intros HY. apply H. set_solver.
  - intros x m HX Hm Hm0. destruct (Hcase x HX) as [->|HX']; [congruence|].
    destruct (i_tree _ _ _ _ Hi x m HX' Hm Hm0) as [H1 [H2 H2'] (z & Hz & H3 & H3') H4].
    constructor; [done|set_solver|exists z; set_solver|].
    intros p' n' H5 H6 H7. destruct (Hcase p' H5) as [->|HX'']; [congruence|]. by eapply H4.
  - intros x m HX Hm. destruct (Hcase x HX) as [->|HX']; [congruence|]. by apply (i_addr _ _ _ _ Hi x).
Qed.

Lemma insert_new_node_spec (s : state) fl q i path pa : inv ∅ ∅ s fl -> 0 <= i < 64 -> addr_ok i pa ->
  exists e s' fl', _insert_new_node garbage (q, i) path pa s = Ok (e, s') /\ inv ∅ ∅ s' fl' /\
    (forall x u, client_holds s' x u <-> client_holds s x u) /\ (forall u, free_untyped s u -> free_untyped s' u) /\
    (e = 1 \/ (e = 0 /\ free_untyped s' (path, (q, i), pa))).
Proof.
  intros Hi Hr Hpa. unfold _insert_new_node.
  destruct (mem_alloc sizeof_split_node (rest s)) as (p & e & w1 & Ha & Hl1 & Hnew).
  rewrite (bind_ok _ _ _ _ _ (on_rest_ok _ _ _ _ Ha)). destruct (Z.eqb_spec e 0) as [->|He]; cbn [negb].
  2:{ exists 1, (with_rest s w1), fl. split_and!; [done|by apply inv_rest|done|done|by left]. }
  destruct (Hnew eq_refl) as (Hp0 & Hpl & Hpw).
  assert (Hpn : nodes s !! p = None).
  { destruct (nodes s !! p) as [n|] eqn:Hn; [|done]. destruct Hpl. by eapply (i_live _ _ _ _ Hi). }
  unfold set_nodes, modify, bind at 1. cbn [with_rest res_bind nodes heads dev_heads dev_mem_heads rest].
  erewrite bind_ok by (apply update_ok; apply lookup_insert_eq). cbn [with_nodes nodes heads dev_heads dev_mem_heads rest].
  unfold with_nodes. rewrite insert_insert_eq. cbn [heads dev_heads dev_mem_heads rest].
  set (n := set_origin_head _ _).
  set (s1 := SplitState (<[p := n]> (nodes s)) (heads s) (dev_heads s) (dev_mem_heads s) w1).
  pose proof (known_fresh ∅ (nodes s) p n Hpn) as Hk.
  assert (Hi1 : inv ({[p]} ∪ ∅) ∅ s1 fl).
  { eapply (inv_known ∅ _ _ s); [done|done|by rewrite lookup_insert_ne; [apply Hi|]|].
    intros x m Hx. destruct (decide (x = p)) as [->|Hne]; [done|].
    rewrite lookup_insert_ne in Hx by done. by eapply Hl1, (i_live _ _ _ _ Hi). }
  assert (Hn1 : nodes s1 !! p = Some n) by apply lookup_insert_eq.
  pose proof (made_childless _ _ _ _ p n Hi1 ltac:(set_solver) Hn1) as Hch.
  pose proof (inv_root _ _ _ _ p n Hi1 ltac:(set_solver) Hn1 eq_refl Hr Hpa) as Hi2.
  replace (({[p]} ∪ ∅) ∖ {[p]}) with (∅ : gset Z) in Hi2 by set_solver.
  assert (Hch0 : childless ∅ (nodes s1) p).
  { intros x m _ Hx. destruct (decide (x = p)) as [->|Hne]; [|apply (Hch x m); [set_solver|done]].
    rewrite Hn1 in Hx. injection Hx as <-. cbn. congruence. }
  destruct (inv_insert ∅ _ s1 fl p n Hi2) as (s2 & E & Hi3 & Hc & Hsh & (n2 & Hn2 & Hh2)); [set_solver|done| |done|].
  { intros Hin. by apply (i_fl _ _ _ _ Hi1) in Hin; set_solver. }
  replace (({[p]} ∪ ∅) ∖ {[p]}) with (∅ : gset Z) in Hi3 by set_solver.
  cbn in E. rewrite (bind_ok _ _ _ _ _ E). do 3 eexists. split; [reflexivity|]. split; [exact Hi3|]. split_and!.
  - intros x u. unfold client_holds. destruct (decide (x = p)) as [->|Hx].
    { split; intros (_ & (z & Hz & Hhz & _) & _); cbn in *; [|congruence]. rewrite Hn2 in Hz. congruence. }
    rewrite (holds_core ∅ _ _ p x u Hc Hsh Hx). rewrite (holds_known _ _ _ _ x u Hk).
    assert (Hx' : forall A (y : Z), (y ∉ ({[p]} ∪ A : gset Z)) -> (y ∉ A)) by set_solver.
    split; intros (HX & Hm & Hcx); (split; [set_solver|]; split; [done|]); intros y m HyX Hy.
    + apply (Hcx y m); [set_solver|done].
    + destruct (decide (y = p)) as [->|Hyp]; [|apply (Hcx y m); [set_solver|done]].
      rewrite Hn1 in Hy. injection Hy as <-. cbn. destruct Hm as (z & Hz & _). intros <-.
      rewrite lookup_insert_ne, (i_zero _ _ _ _ Hi) in Hz by done. done.
  - intros u (x & m & Hm & Hhm & <-). assert (Hx : x <> p) by congruence.
    assert (Hm1 : nodes s1 !! x = Some m) by (cbn; by rewrite lookup_insert_ne).
    destruct (same_core_lookup _ _ _ _ Hc Hm1) as (m2 & Hm2 & Hcm). exists x, m2.
    split_and!; [done|by apply (Hsh x m m2)|]. apply core_fields in Hcm as (E1 & _ & _ & E2 & E3). unfold data. congruence.
  - right. split; [done|]. exists p, n2. split_and!; [done|done|].
    destruct (same_core_lookup _ _ _ _ Hc Hn1) as (m2 & Hm2 & (E1 & _ & _ & E2 & E3)%core_fields).
    unfold data. assert (n2 = m2) as -> by congruence. by rewrite E1, E2, E3.
Qed.

Lemma add_uts_loop_spec q l : forall (s : state) fl, inv ∅ ∅ s fl ->
  (forall path i pa, (path, i, pa) ∈ l -> 0 <= i < 64 /\ addr_ok i (default ALLOCMAN_NO_PADDR pa)) ->
  exists e s' fl', add_uts_loop garbage q l s = Ok (e, s') /\ inv ∅ ∅ s' fl' /\
    (forall x u, client_holds s' x u <-> client_holds s x u) /\ (forall u, free_untyped s u -> free_untyped s' u) /\
    (e = 1 \/ (e = 0 /\ forall path i pa, (path, i, pa) ∈ l -> free_untyped s' (path, (q, i), default ALLOCMAN_NO_PADDR pa))).
Proof.
  induction l as [|[[path i] pa] l IH]; intros s fl Hi Hl; cbn [add_uts_loop].
  { exists 0, s, fl. split_and!; [done|done|done|done|]. right. split; [done|]. set_solver. }
  destruct (Hl path i pa ltac:(left)) as [Hr Hpa].
  destruct (insert_new_node_spec s fl q i path _ Hi Hr Hpa) as (e & s1 & fl1 & E1 & Hi1 & Hh1 & Hf1 & He).
  rewrite (bind_ok _ _ _ _ _ E1). destruct He as [->|[-> Hnew]]; cbn [Z.eqb negb].
  { exists 1, s1, fl1. split_and!; try done. by left. }
  destruct (IH s1 fl1 Hi1) as (e & s2 & fl2 & E2 & Hi2 & Hh2 & Hf2 & He); [intros path' i' pa' Hin; apply (Hl path' i' pa'); by right|].
  exists e, s2, fl2. split_and!; [done|done|intros x u; by rewrite Hh2|auto|].
  destruct He as [->|[-> Hall]]; [by left|right]. split; [done|].
  intros path' i' pa' [[= -> -> ->]|Hin]%elem_of_cons; [by apply Hf2|by apply Hall].
Qed.

Lemma create_wf w : split_wf (utspace_split_create w).
Proof.
  exists (fun _ => []). unfold utspace_split_create. constructor; try done.
  - intros q i Hi. unfold head_is. apply arr_get_ok. cbn [fst snd]. split; [lia|].
    assert (Hl : (Z.to_nat i < Z.to_nat CONFIG_WORD_SIZE)%nat) by (unfold CONFIG_WORD_SIZE; lia).
    destruct q; cbn [pool_array fst heads dev_heads dev_mem_heads snd hd]; by apply lookup_replicate_2.
  - intros r. constructor.
Qed.

(** *** Allocating *)

Lemma find_head_spec (s : state) fl q pa sz n i : inv ∅ ∅ s fl -> 0 <= i -> i + Z.of_nat n <= 64 ->
  exists b, find_head_loop q pa sz n i s = Ok (b, s).
Proof.
  intros Hi. revert i. induction n as [|n IH]; intros i H0 Hle; cbn [find_head_loop]; [by eexists|].
  destruct (find_node_spec (holds_range pa sz i) ∅ ∅ s fl q i Hi) as (x & Hx & _); [lia|].
  rewrite (bind_ok _ _ _ _ _ Hx). destruct (negb (x =? 0)); [by eexists|]. apply IH; lia.
Qed.

Lemma find_head_for_paddr_spec (s : state) fl q pa sz : inv ∅ ∅ s fl ->
  exists h, find_head_for_paddr q pa sz s = Ok (h, s) /\ (h = None \/ h = Some q).
Proof.
  intros Hi. unfold find_head_for_paddr. destruct (find_head_spec s fl q pa sz (Z.to_nat CONFIG_WORD_SIZE) 0 Hi) as [b Hb];
    [lia|unfold CONFIG_WORD_SIZE; lia|].
  rewrite (bind_ok _ _ _ _ _ Hb). eexists. split; [done|]. destruct b; auto.
Qed.

(** What an allocation of 2^[i] bytes at [pa] does to the clients' untypeds. *)
Definition alloc_outcome (i pa : Z) (dev : bool) (s : state) (c e : Z) (s' : state) : Prop :=
  (e = 1 /\ forall x u, client_holds s' x u <-> client_holds s x u) \/
  (e = 0 /\ exists cap q a, (forall u, ~ client_holds s c u) /\
     (forall x u, client_holds s' x u <-> client_holds s x u \/ (x = c /\ u = (cap, (q, i), a))) /\
     (q = Heads \/ dev = true) /\ (pa <> ALLOCMAN_NO_PADDR -> a = pa)).

Lemma alloc_outcome_before (s1 s s' : state) i pa dev c e : (forall x u, client_holds s1 x u <-> client_holds s x u) ->
  alloc_outcome i pa dev s1 c e s' -> alloc_outcome i pa dev s c e s'.
Proof.
  intros Hh [[-> H]|[-> (cap & q & a & H1 & H2 & H3)]].
  - left. split; [done|]. intros x u. by rewrite H.
  - right. split; [done|]. exists cap, q, a. split; [intros u; rewrite <- Hh; apply H1|]. split; [|done].
    intros x u. by rewrite H2, Hh.
Qed.

Lemma take_node_spec (s : state) fl q i type sz slot p n pa dev : inv ∅ ∅ s fl -> p ∈ fl (q, i) -> nodes s !! p = Some n ->
  (q = Heads \/ dev = true) -> (pa <> ALLOCMAN_NO_PADDR -> paddr n = pa) ->
  exists c e s', take_node q i type sz slot p s = Ok (c, e, s') /\ split_wf s' /\ alloc_outcome i pa dev s c e s'.
Proof.
  intros Hi Hp Hn Hq Hpa. unfold take_node. rewrite (bind_ok _ _ _ _ _ (load_ok _ _ _ Hn)).
  edestruct retype_ok as (r & w & Er & Hl). rewrite (bind_ok _ _ _ _ _ Er). clear Er.
  pose proof (inv_rest _ _ _ _ _ Hi Hl) as Hi1. destruct (negb (r =? seL4_NoError)).
  { exists 0, 1, (with_rest s w). split_and!; [done|by exists fl|by left]. }
  destruct (remove_holds _ _ _ _ _ p Hi1 Hp) as (s2 & l & n' & E & Hi2 & Hn' & _ & _ & Hno & Ho & Hh).
  assert (n' = n) as -> by (cbn in Hn'; congruence).
  rewrite (bind_ok _ _ _ _ _ E). exists p, 0, s2. split; [done|]. split; [by eexists|].
  right. split; [done|]. exists (ut n), q, (paddr n). split; [exact Hno|]. split; [|done].
  intros x u. unfold client_holds. rewrite Hh. unfold data. by rewrite Ho.
Qed.

Lemma refill_from (s : state) fl q i pa : inv ∅ ∅ s fl -> 0 <= i < 64 ->
  exists e s' fl', _refill_pool garbage (refill_fuel i) q i pa s = Ok (e, s') /\ inv ∅ ∅ s' fl' /\
    (forall x u, client_holds s' x u <-> client_holds s x u) /\ (e = 0 -> ready (nodes s') fl' q i pa).
Proof. intros Hi Hr. apply (refill_pool_spec q pa _ _ _ fl); [done|done|]. unfold refill_fuel. lia. Qed.

(** An aligned address is in an aligned untyped of the size only as its base. *)
Lemma covers_base pa i k n : 0 <= i < 64 -> aligned n -> (origin_head n).2 = i -> pa = k * 2 ^ i -> covers pa i n = true ->
  paddr n = pa.
Proof.
  intros Hr Hal Ho Hk Hc. apply covers_range in Hc as [Hne Hc]; [|done|done|done].
  destruct Hal as [?|(k' & Hk' & _)]; [done|]. rewrite Ho in Hk'. rewrite Hk', Hk in *.
  assert (0 < 2 ^ i) by (apply Z.pow_pos_nonneg; lia). assert (k' = k) by nia. by subst.
Qed.

Lemma alloc_at_paddr_spec (s : state) fl i type sz slot pa dev : inv ∅ ∅ s fl -> 0 <= i < 64 ->
  pa <> ALLOCMAN_NO_PADDR -> (exists k, pa = k * 2 ^ i) ->
  exists c e s', alloc_at_paddr garbage i type sz slot pa dev s = Ok (c, e, s') /\ split_wf s' /\ alloc_outcome i pa dev s c e s'.
Proof.
  intros Hi Hr Hpa [k Hk]. unfold alloc_at_paddr.
  assert (Hfind : exists hd, ((let! hd := (if dev then
                let! h := find_head_for_paddr DevHeads pa i in
                match h with Some _ => ret h | None => find_head_for_paddr DevMemHeads pa i end
              else ret None) in
      match hd with Some _ => ret hd | None => find_head_for_paddr Heads pa i end) : M state (option pool)) s = Ok (hd, s) /\
      (hd = None \/ exists q, hd = Some q /\ (q = Heads \/ dev = true))).
  { destruct (find_head_for_paddr_spec s fl Heads pa i Hi) as (h3 & E3 & H3).
    destruct (find_head_for_paddr_spec s fl DevMemHeads pa i Hi) as (h2 & E2 & H2).
    destruct (find_head_for_paddr_spec s fl DevHeads pa i Hi) as (h1 & E1 & H1).
    destruct dev; unfold bind, ret; rewrite ?E1; cbn [res_bind].
    - destruct H1 as [->| ->]; cbn; [|by eauto 10]. rewrite E2. cbn. destruct H2 as [->| ->]; [|by eauto 10].
      rewrite E3. destruct H3 as [->| ->]; by eauto 10.
    - rewrite E3. destruct H3 as [->| ->]; by eauto 10. }
  destruct Hfind as (hd & Hhd & Hcase). rewrite bind_assoc, (bind_ok _ _ _ _ _ Hhd).
  destruct Hcase as [->|(q & -> & Hq)].
  { exists 0, 1, s. split_and!; [done|by exists fl|by left]. }
  destruct (refill_from s fl q i pa Hi Hr) as (e & s1 & fl1 & E1 & Hi1 & Hh1 & Hready). rewrite (bind_ok _ _ _ _ _ E1).
  destruct (Z.eqb_spec e 0) as [->|He]; cbn [negb].
  2:{ exists 0, 1, s1. split_and!; [done|by exists fl1|by left]. }
  specialize (Hready eq_refl). unfold ready in Hready. rewrite (proj2 (Z.eqb_neq _ _) Hpa) in Hready.
  destruct Hready as (y & n & Hy & Hn & Hcov).
  assert (Hbase : paddr n = pa).
  { destruct (inv_in_list _ _ _ _ _ _ Hi1 Hy) as (z & Hz & _ & _ & Ho). assert (z = n) as -> by congruence.
    apply (covers_base pa i k); [done| |by rewrite Ho|done|done].
    by apply (i_addr _ _ _ _ Hi1 y n (not_elem_of_empty _)). }
  match goal with |- context [find_node ?t] => destruct (find_node_spec t ∅ ∅ s1 fl1 q i Hi1 Hr) as (x & Hx & Hfound) end.
  rewrite (bind_ok _ _ _ _ _ Hx). destruct Hfound as [[-> Hno]|(Hx0 & Hin & m & Hm & Hxm)].
  { specialize (Hno y n Hy Hn). cbn beta in Hno. rewrite Hbase, Z.eqb_refl, (proj2 (Z.eqb_neq _ _) Hpa) in Hno. done. }
  rewrite (proj2 (Z.eqb_neq x 0) Hx0). cbn [negb]. unfold bind at 1. cbn [cassert rassert lift res_bind].
  destruct (take_node_spec s1 fl1 q i type sz slot x m pa dev Hi1 Hin Hm Hq) as (c & e & s' & E & Hwf & Hout).
  { intros _. apply negb_true_iff, orb_false_iff in Hxm as [_ Hxm]. apply negb_false_iff in Hxm. by apply Z.eqb_eq. }
  exists c, e, s'. split_and!; [exact E|done|]. by eapply alloc_outcome_before.
Qed.

Lemma alloc_anywhere_spec (s : state) fl i type sz slot dev : inv ∅ ∅ s fl -> 0 <= i < 64 ->
  exists c e s', alloc_anywhere garbage i type sz slot dev s = Ok (c, e, s') /\ split_wf s' /\
    alloc_outcome i ALLOCMAN_NO_PADDR dev s c e s'.
Proof.
  intros Hi Hr. unfold alloc_anywhere.
  assert (Htake : forall q (s1 : state) fl1, inv ∅ ∅ s1 fl1 -> (forall x u, client_holds s1 x u <-> client_holds s x u) ->
    ready (nodes s1) fl1 q i ALLOCMAN_NO_PADDR -> (q = Heads \/ dev = true) ->
    exists c e s', (let! node := get_head (q, i) in take_node q i type sz slot node) s1 = Ok (c, e, s') /\ split_wf s' /\
      alloc_outcome i ALLOCMAN_NO_PADDR dev s c e s').
  { intros q s1 fl1 Hi1 Hh1 Hready Hq.
    destruct (pick_spec ∅ ∅ s1 fl1 q i _ Hi1 Hr Hready) as (p & n & Ep & Hp & Hn & _). unfold pick in Ep.
    cbn [Z.eqb ALLOCMAN_NO_PADDR] in Ep. rewrite (bind_ok _ _ _ _ _ Ep).
    destruct (take_node_spec s1 fl1 q i type sz slot p n ALLOCMAN_NO_PADDR dev Hi1 Hp Hn Hq) as (c & e & s' & E & Hwf & Hout); [done|].
    exists c, e, s'. split_and!; [done|done|]. by eapply alloc_outcome_before. }
  assert (Hheads : forall (s1 : state) fl1, inv ∅ ∅ s1 fl1 -> (forall x u, client_holds s1 x u <-> client_holds s x u) ->
    exists c e s', (let! hd := (let! error := _refill_pool garbage (refill_fuel i) Heads i ALLOCMAN_NO_PADDR in
                                ret (if error =? 0 then Some Heads else None)) in
       match hd with
       | None => ret (0, 1)
       | Some q => let! node := get_head (q, i) in take_node q i type sz slot node
       end) s1 = Ok (c, e, s') /\ split_wf s' /\ alloc_outcome i ALLOCMAN_NO_PADDR dev s c e s').
  { intros s1 fl1 Hi1 Hh1.
    destruct (refill_from s1 fl1 Heads i ALLOCMAN_NO_PADDR Hi1 Hr) as (e & s2 & fl2 & E2 & Hi2 & Hh2 & Hready).
    assert (Hh : forall x u, client_holds s2 x u <-> client_holds s x u) by (intros x u; by rewrite Hh2).
    unfold bind at 1, bind at 1. rewrite E2. cbn [res_bind ret]. destruct (Z.eqb_spec e 0) as [->|He].
    - apply (Htake Heads s2 fl2); auto.
    - exists 0, 1, s2. split_and!; [done|by exists fl2|by left]. }
  destruct dev; [|by apply (Hheads s fl)].
  destruct (refill_from s fl DevMemHeads i ALLOCMAN_NO_PADDR Hi Hr) as (e & s2 & fl2 & E2 & Hi2 & Hh2 & Hready).
  unfold bind at 1, bind at 1. rewrite E2. cbn [res_bind ret]. destruct (Z.eqb_spec e 0) as [->|He].
  - unfold bind at 1. cbn [res_bind ret]. apply (Htake DevMemHeads s2 fl2); auto.
  - by apply (Hheads s2 fl2).
Qed.

(** C2: Allocating 2^[size_bits] bytes, anywhere or at an aligned physical
    address, returns and keeps the allocator well-formed.  Either it fails and
    the clients hold what they held, or the cookie is a new one and the
    clients hold one more untyped, of that size, from the kernel's pool unless
    device memory is allowed, at the address when one was given. *)
Theorem split_alloc_spec (s : state) (size_bits type : Z) (slot : cspacepath_t) (pa : Z) (canBeDev : bool) :
  split_wf s -> 0 <= size_bits < 64 -> (pa <> ALLOCMAN_NO_PADDR -> exists k, pa = k * 2 ^ size_bits) ->
  exists c e s', _utspace_split_alloc garbage size_bits type slot pa canBeDev s = Ok (c, e, s') /\ split_wf s' /\
    ((e = 1 /\ forall x u, client_holds s' x u <-> client_holds s x u) \/
     (e = 0 /\ exists cap q a, (forall u, ~ client_holds s c u) /\
        (forall x u, client_holds s' x u <-> client_holds s x u \/ (x = c /\ u = (cap, (q, size_bits), a))) /\
        (q = Heads \/ canBeDev = true) /\ (pa <> ALLOCMAN_NO_PADDR -> a = pa))).
Proof.
  intros [fl Hi] Hr Hpa. unfold _utspace_split_alloc.
  destruct (_ || _); [exists 0, 1, s; split_and!; [done|by exists fl|by left]|].
  destruct (Z.eqb_spec pa ALLOCMAN_NO_PADDR) as [->|Hne]; cbn [negb].
  - by apply (alloc_anywhere_spec s fl).
  - apply (alloc_at_paddr_spec s fl); auto.
Qed.

(** Adding untypeds returns, keeps the allocator well-formed, and leaves
    what the clients hold and the free untypeds alone.  When it succeeds each
    of the untypeds is free in its pool, with its address. *)
Theorem split_add_uts_spec (s : state) (l : list (cspacepath_t * Z * option Z)) (utType : Z) : split_wf s ->
  (forall path i pa, (path, i, pa) ∈ l -> 0 <= i < 64 /\ addr_ok i (default ALLOCMAN_NO_PADDR pa)) ->
  exists e s', _utspace_split_add_uts garbage l utType s = Ok (e, s') /\ split_wf s' /\
    (forall x u, client_holds s' x u <-> client_holds s x u) /\ (forall u, free_untyped s u -> free_untyped s' u) /\
    (e = 0 -> exists q, (utType, q) ∈ [(ALLOCMAN_UT_KERNEL, Heads); (ALLOCMAN_UT_DEV, DevHeads); (ALLOCMAN_UT_DEV_MEM, DevMemHeads)] /\
       forall path i pa, (path, i, pa) ∈ l -> free_untyped s' (path, (q, i), default ALLOCMAN_NO_PADDR pa)).
Proof.
  intros [fl Hi] Hl. unfold _utspace_split_add_uts.
  assert (Hq : forall q, (utType, q) ∈ [(ALLOCMAN_UT_KERNEL, Heads); (ALLOCMAN_UT_DEV, DevHeads); (ALLOCMAN_UT_DEV_MEM, DevMemHeads)] ->
    exists e s', add_uts_loop garbage q l s = Ok (e, s') /\ split_wf s' /\
    (forall x u, client_holds s' x u <-> client_holds s x u) /\ (forall u, free_untyped s u -> free_untyped s' u) /\
    (e = 0 -> exists q, (utType, q) ∈ [(ALLOCMAN_UT_KERNEL, Heads); (ALLOCMAN_UT_DEV, DevHeads); (ALLOCMAN_UT_DEV_MEM, DevMemHeads)] /\
       forall path i pa, (path, i, pa) ∈ l -> free_untyped s' (path, (q, i), default ALLOCMAN_NO_PADDR pa))).
  { intros q Hq. destruct (add_uts_loop_spec q l s fl Hi Hl) as (e & s' & fl' & E & Hi' & Hh & Hf & Hcase).
    exists e, s'. split_and!; [done|by exists fl'|done|done|]. intros He. exists q. split; [done|].
    destruct Hcase as [?|[_ ?]]; [lia|done]. }
  destruct (Z.eqb_spec utType ALLOCMAN_UT_KERNEL) as [->|]; [apply (Hq Heads); set_solver|].
  destruct (Z.eqb_spec utType ALLOCMAN_UT_DEV) as [->|]; [apply (Hq DevHeads); set_solver|].
  destruct (Z.eqb_spec utType ALLOCMAN_UT_DEV_MEM) as [->|]; [apply (Hq DevMemHeads); set_solver|].
  exists (-1), s. split_and!; [done|by exists fl|done|done|done].
Qed.

End specification.

(** ** A concrete system *)

(** A memory manager that hands out the addresses 1, 2, ... and never reuses
    one, and a kernel that always succeeds. *)
Record toy_world : Type := ToyWorld { tw_blocks : nat; tw_slots : Z }.

Definition toy_live (w : toy_world) : gset Z := list_to_set (Z.of_nat <$> seq 1 (tw_blocks w)).

#[export] Instance toy_world_allocman : AllocmanOps toy_world := {|
  allocman_mspace_alloc _ w := Ok (Z.of_nat (S (tw_blocks w)), 0, ToyWorld (S (tw_blocks w)) (tw_slots w));
  allocman_mspace_free _ _ w := Ok (tt, w);
  allocman_cspace_alloc w :=
    Ok (0, Cspacepath (tw_slots w) 64 0 0 0 (tw_slots w) 1, ToyWorld (tw_blocks w) (tw_slots w + 1));
  allocman_cspace_free _ w := Ok (tt, w);
  allocman_utspace_alloc _ _ _ _ w := Ok (0, 1, w);
  allocman_utspace_free _ _ w := Ok (tt, w)
|}.

#[export] Instance toy_world_kernel : KernelOps toy_world := {|
  seL4_CNode_Delete _ _ _ w := Ok (0, w);
  seL4_CNode_Move _ _ _ _ _ _ w := Ok (0, w);
  seL4_Untyped_Retype _ _ _ _ _ _ _ _ w := Ok (0, w)
|}.

#[export] Program Instance toy_world_memory : SplitMemory toy_world := {| mem_live := toy_live |}.
Next Obligation.
  intros n w. do 3 eexists. split; [reflexivity|]. unfold toy_live. simpl tw_blocks. rewrite seq_S, fmap_app. split; [set_solver|].
  intros _. split; [lia|]. split; [|set_solver].
  intros (k & Hk & [_ Hle]%elem_of_seq)%elem_of_list_to_set%list_elem_of_fmap. lia.
Qed.
Next Obligation. intros p n w _. eexists. split; [done|set_solver]. Qed.
Next Obligation. intros w. do 3 eexists. by split. Qed.
Next Obligation. intros p w. eexists. by split. Qed.
Next Obligation. intros a b c w. do 2 eexists. by split. Qed.
Next Obligation. intros a b c d e f g h w. do 2 eexists. by split. Qed.

Definition toy_garbage (p : Z) : utspace_split_node :=
  Node (Cspacepath 9 9 9 9 9 9 9) p p (Some (DevHeads, 77)) (DevHeads, 99) p p p.

(** An untyped of 2^14 bytes at 0x40000, then one page of it. *)
Definition toy_path : cspacepath_t := Cspacepath 3 64 0 0 0 3 1.
Definition toy_state1 : split_state toy_world :=
  match _utspace_split_add_uts toy_garbage [(toy_path, 14, Some 262144)] ALLOCMAN_UT_KERNEL
          (utspace_split_create (ToyWorld 0 10)) with
  | Ok (_, s) => s | Fault _ => utspace_split_create (ToyWorld 0 10)
  end.
Definition toy_state2 : split_state toy_world :=
  match alloc_anywhere toy_garbage 12 seL4_UntypedObject 12 toy_path false toy_state1 with
  | Ok (_, s) => s | Fault _ => toy_state1
  end.

Lemma toy_addr_ok : addr_ok 14 262144.
Proof. right. exists 16. split_and!; (reflexivity || discriminate). Qed.

Lemma toy_state1_wf : split_wf toy_state1.
Proof.
  destruct (create_wf (ToyWorld 0 10)) as [fl Hi].
  destruct (add_uts_loop_spec toy_garbage Heads [(toy_path, 14, Some 262144)] _ fl Hi) as (e & s & fl' & E & Hi' & _).
  { intros path i pa [= -> -> ->]%list_elem_of_singleton. split; [lia|apply toy_addr_ok]. }
  unfold toy_state1, _utspace_split_add_uts. cbn [Z.eqb ALLOCMAN_UT_KERNEL]. rewrite E. by exists fl'.
Qed.

Lemma toy_state2_holds : split_wf toy_state2 /\ exists c u, client_holds toy_state2 c u.
Proof.
  destruct toy_state1_wf as [fl Hi].
  destruct (alloc_anywhere_spec toy_garbage toy_state1 fl 12 seL4_UntypedObject 12 toy_path false Hi) as (c & e & s & E & Hwf & Hout);
    [lia|].
  assert (He : (fun r => match r with Ok (_, e, _) => e | Fault _ => 1 end)
                 (alloc_anywhere toy_garbage 12 seL4_UntypedObject 12 toy_path false toy_state1) = 0) by (vm_compute; reflexivity).
  unfold toy_state2. rewrite E in *. cbn in He. subst e. split; [done|].
  destruct Hout as [[He _]|[_ (cap & q & a & _ & Hh & _)]]; [discriminate He|]. exists c, (cap, (q, 12), a). apply (proj2 (Hh _ _)). right. split; reflexivity.
Qed.

Lemma split_alloc_spec_witness : exists c e s',
  _utspace_split_alloc toy_garbage 12 seL4_UntypedObject toy_path 266240 false toy_state1 = Ok (c, e, s') /\ split_wf s'.
Proof.
  destruct (split_alloc_spec toy_garbage toy_state1 12 seL4_UntypedObject toy_path 266240 false toy_state1_wf) as (c & e & s' & E & Hwf & _);
    [lia|intros _; exists 65; reflexivity|].
  exists c, e, s'. exact (conj E Hwf).
Defined.

(** The allocation at the address succeeds there. *)
Example toy_alloc_at :
  match _utspace_split_alloc toy_garbage 12 seL4_UntypedObject toy_path 266240 false toy_state1 with
  | Ok (c, e, s') => match _utspace_split_paddr c 12 s' with Ok (a, _) => Some (e, a) | Fault _ => None end
  | Fault _ => None
  end = Some (0, 266240).
Proof. vm_compute. reflexivity. Qed.

(** An address that is not a multiple of the size runs into the assertion. *)
Example misaligned_address_asserts :
  match _utspace_split_alloc toy_garbage 12 seL4_UntypedObject toy_path 264192 false toy_state1 with
  | Ok _ => None
  | Fault f => Some f
  end = Some AssertFailed.
Proof. vm_compute. reflexivity. Qed.

Lemma split_free_spec_witness : exists c s', _utspace_split_free c 12 toy_state2 = Ok (tt, s') /\ split_wf s'.
Proof.
  destruct toy_state2_holds as [Hwf (c & u & Hc)].
  destruct (split_free_spec toy_state2 c 12 u Hwf Hc) as (s' & E & Hwf' & _). exists c, s'. exact (conj E Hwf').
Defined.

Lemma split_add_uts_spec_witness : exists e s',
  _utspace_split_add_uts toy_garbage [(toy_path, 14, Some 262144)] ALLOCMAN_UT_DEV toy_state1 = Ok (e, s') /\ split_wf s'.
Proof.
  destruct (split_add_uts_spec toy_garbage toy_state1 [(toy_path, 14, Some 262144)] ALLOCMAN_UT_DEV toy_state1_wf) as (e & s' & E & Hwf & _).
  { intros path i pa [= -> -> ->]%list_elem_of_singleton. split; [lia|apply toy_addr_ok]. }
  exists e, s'. exact (conj E Hwf).
Defined.
