(* ===== verification/Sync.v ===== *)
(** libsel4sync: semaphores (include/sync/sem.h, sem-bare.h), binary semaphores
    (bin_sem.h, bin_sem_bare.h), mutexes (mutex.h), recursive mutexes
    (recursive_mutex.h, src/recursive_mutex.c) and condition variables
    (condition_var.h), as code that threads interleave.

    A function is a [code]: a tree of accesses to shared memory, kernel calls
    and local computation, which the scheduler interleaves at every access.
    Memory is a map of cells, one for each field; a null pointer is 0.  The
    atomic operations (platsupport/sync/atomic.h), the kernel's notifications
    and endpoints, and the allocation interface behind [vka] are parameters.
    The configuration is a release build (no CONFIG_DEBUG_BUILD). *)
From S2P Require Import Prelude Cspacepath Interfaces Objects Vka.

(** ** Code *)

Inductive call (W : Type) : Type -> Type :=
  | Load (p : Z) : call W Z
  | Store (p v : Z) : call W unit
  | AtomicIncrement (p : Z) : call W Z
  | AtomicDecrementSafe (p : Z) : call W (Z * Z)
  | CompareExchangeWeak (p expected desired : Z) : call W bool
  | ThreadId : call W Z
  | World {A : Type} (m : M W A) : call W A.
Arguments Load {W} _.
Arguments Store {W} _ _.
Arguments AtomicIncrement {W} _.
Arguments AtomicDecrementSafe {W} _.
Arguments CompareExchangeWeak {W} _ _ _.
Arguments ThreadId {W}.
Arguments World {W A} _.

(** Kernel calls that may block: [seL4_Wait] (or [seL4_Recv] on an endpoint)
    and [seL4_Signal]. *)
Inductive kcall : Type := Wait (c : Z) | Signal (c : Z).

Inductive code (W : Type) : Type -> Type :=
  | Ret {A : Type} (a : A) : code W A
  | Stop {A : Type} (f : fault) : code W A
  | Do {A B : Type} (c : call W B) (k : B -> code W A) : code W A
  | Sys {A : Type} (c : kcall) (k : code W A) : code W A
  | Iter {A B S : Type} (body : S -> code W (S + B)) (s : S) (k : B -> code W A) : code W A.
Arguments Ret {W A} _.
Arguments Stop {W A} _.
Arguments Do {W A B} _ _.
Arguments Sys {W A} _ _.
Arguments Iter {W A B S} _ _ _.

Fixpoint cbind {W A B : Type} (m : code W A) (f : A -> code W B) {struct m} : code W B :=
  match m in code _ A return (A -> code W B) -> code W B with
  | Ret a => fun f => f a
  | Stop e => fun _ => Stop e
  | Do c k => fun f => Do c (fun b => cbind (k b) f)
  | Sys c k => fun f => Sys c (cbind k f)
  | Iter body s k => fun f => Iter body s (fun b => cbind (k b) f)
  end f.

Notation "'let^' p := m 'in' k" := (cbind m (fun p => k))
  (at level 10, p pattern, m at level 100, k at level 200) : c_scope.

Section code.
Context {W : Type}.
Definition load (p : Z) : code W Z := Do (Load p) Ret.
Definition store (p v : Z) : code W unit := Do (Store p v) Ret.
Definition atomic_increment (p : Z) : code W Z := Do (AtomicIncrement p) Ret.
Definition atomic_decrement_safe (p : Z) : code W (Z * Z) := Do (AtomicDecrementSafe p) Ret.
Definition thread_id : code W Z := Do ThreadId Ret.
Definition world {A : Type} (m : M W A) : code W A := Do (World m) Ret.
Definition seL4_Wait (c : Z) : code W unit := Sys (Wait c) (Ret tt).
Definition seL4_Signal (c : Z) : code W unit := Sys (Signal c) (Ret tt).
Definition check (b : bool) : code W unit := if b then Ret tt else Stop AssertFailed.
End code.

Definition INT_MAX : Z := 2147483647.
Definition INT_MIN : Z := -2147483648.
Definition UINT_MAX : Z := 4294967295.

(** [unsigned int] arithmetic wraps. *)
Definition uint (x : Z) : Z := x mod (UINT_MAX + 1).

(** ** The structures

    Each starts with its [vka_object_t]; the other fields follow. *)

Definition o_cptr (p : Z) : Z := p.
Definition o_ut (p : Z) : Z := p + 1.
Definition o_type (p : Z) : Z := p + 2.
Definition o_size_bits (p : Z) : Z := p + 3.
Definition sem_value (p : Z) : Z := p + 4.
Definition cv_waiters (p : Z) : Z := p + 4.
Definition cv_broadcasting (p : Z) : Z := p + 5.
Definition mutex_owner (p : Z) : Z := p + 4.
Definition mutex_held (p : Z) : Z := p + 5.

Section operations.
Context {W : Type} `{!KernelOps W} {seL4 : SeL4Constants}.
Local Abbreviation code := (code W).

Definition store_object (p : Z) (o : vka_object_t) : code unit :=
  let^ _ := store (o_cptr p) (cptr o) in
  let^ _ := store (o_ut p) (ut o) in
  let^ _ := store (o_type p) (type o) in
  store (o_size_bits p) (size_bits o).

Definition load_object (p : Z) : code vka_object_t :=
  let^ c := load (o_cptr p) in
  let^ u := load (o_ut p) in
  let^ t := load (o_type p) in
  let^ b := load (o_size_bits p) in
  Ret (VkaObject c u t b).

(** *** Binary semaphores *)

Definition sync_bin_sem_bare_wait (notification value : Z) : code Z :=
  let^ (result, oldval) := atomic_decrement_safe value in
  if negb (result =? 0) then Ret (-1)
  else
    let^ _ := (if oldval <=? 0 then seL4_Wait notification else Ret tt) in
    Ret 0.

Definition sync_bin_sem_bare_post (notification value : Z) : code Z :=
  let^ val := atomic_increment value in
  let^ now := load value in
  let^ _ := check (now <=? 1) in
  let^ _ := (if val <=? 0 then seL4_Signal notification else Ret tt) in
  Ret 0.

Definition sync_bin_sem_init (sem notification value : Z) : code Z :=
  if sem =? 0 then Ret (-1)
  else if negb (value =? 0) && negb (value =? 1) then Ret (-1)
  else
    let^ _ := store (o_cptr sem) notification in
    let^ _ := store (sem_value sem) value in
    Ret 0.

Definition sync_bin_sem_wait (sem : Z) : code Z :=
  if sem =? 0 then Ret (-1)
  else
    let^ c := load (o_cptr sem) in
    sync_bin_sem_bare_wait c (sem_value sem).

Definition sync_bin_sem_post (sem : Z) : code Z :=
  if sem =? 0 then Ret (-1)
  else
    let^ c := load (o_cptr sem) in
    sync_bin_sem_bare_post c (sem_value sem).

(** [vka_alloc_notification], into the structure. *)
Definition alloc_notification (vka : option (vka_t W)) (p : Z) : code Z :=
  let^ o := load_object p in
  let^ (error, o) := world (vka_alloc_notification vka o) in
  let^ _ := store_object p o in
  Ret error.

Definition free_object (vka : option (vka_t W)) (p : Z) : code unit :=
  let^ o := load_object p in
  world (vka_free_object vka o).

Definition sync_bin_sem_new (vka : option (vka_t W)) (sem value : Z) : code Z :=
  if sem =? 0 then Ret (-1)
  else if negb (value =? 0) && negb (value =? 1) then Ret (-1)
  else
    let^ error := alloc_notification vka sem in
    if negb (error =? 0) then Ret error
    else
      let^ c := load (o_cptr sem) in
      sync_bin_sem_init sem c value.

Definition sync_bin_sem_destroy (vka : option (vka_t W)) (sem : Z) : code Z :=
  if sem =? 0 then Ret (-1)
  else
    let^ _ := free_object vka sem in
    Ret 0.

(** *** Mutexes *)

Definition sync_mutex_init (mutex notification : Z) : code Z := sync_bin_sem_init mutex notification 1.
Definition sync_mutex_lock (mutex : Z) : code Z := sync_bin_sem_wait mutex.
Definition sync_mutex_unlock (mutex : Z) : code Z := sync_bin_sem_post mutex.
Definition sync_mutex_new (vka : option (vka_t W)) (mutex : Z) : code Z := sync_bin_sem_new vka mutex 1.
Definition sync_mutex_destroy (vka : option (vka_t W)) (mutex : Z) : code Z := sync_bin_sem_destroy vka mutex.

(** *** Semaphores *)

Definition sync_sem_bare_wait (ep value : Z) : code Z :=
  let^ _ := check (negb (value =? 0)) in
  let^ (result, oldval) := atomic_decrement_safe value in
  if negb (result =? 0) then Ret (-1)
  else
    let^ _ := (if oldval <=? 0 then seL4_Wait ep else Ret tt) in
    Ret 0.

(** One round of the [while] loop, from the value read last. *)
Definition trywait_round (value val : Z) : code (Z + Z) :=
  if val >? 0 then
    let^ swapped := Do (CompareExchangeWeak value val (val - 1)) Ret in
    if swapped : bool then Ret (inr 0)
    else
      let^ val := load value in
      Ret (inl val)
  else Ret (inr (-1)).

Definition sync_sem_bare_trywait (ep value : Z) : code Z :=
  let^ val := load value in
  Iter (trywait_round value) val Ret.

Definition sync_sem_bare_post (ep value : Z) : code Z :=
  let^ _ := check (negb (value =? 0)) in
  let^ now := load value in
  let^ _ := check (now <? INT_MAX) in
  let^ v := atomic_increment value in
  let^ _ := (if v <=? 0 then seL4_Signal ep else Ret tt) in
  Ret 0.

Definition sync_sem_init (sem ep value : Z) : code Z :=
  if sem =? 0 then Ret (-1)
  else
    let^ _ := store (o_cptr sem) ep in
    let^ _ := store (sem_value sem) value in
    Ret 0.

Definition sync_sem_wait (sem : Z) : code Z :=
  if sem =? 0 then Ret (-1)
  else
    let^ c := load (o_cptr sem) in
    sync_sem_bare_wait c (sem_value sem).

Definition sync_sem_trywait (sem : Z) : code Z :=
  if sem =? 0 then Ret (-1)
  else
    let^ c := load (o_cptr sem) in
    sync_sem_bare_trywait c (sem_value sem).

Definition sync_sem_post (sem : Z) : code Z :=
  if sem =? 0 then Ret (-1)
  else
    let^ c := load (o_cptr sem) in
    sync_sem_bare_post c (sem_value sem).

(** [vka_alloc_endpoint], into the structure. *)
Definition alloc_endpoint (vka : option (vka_t W)) (p : Z) : code Z :=
  let^ o := load_object p in
  let^ (error, o) := world (vka_alloc_endpoint vka o) in
  let^ _ := store_object p o in
  Ret error.

Definition sync_sem_new (vka : option (vka_t W)) (sem value : Z) : code Z :=
  if sem =? 0 then Ret (-1)
  else
    let^ error := alloc_endpoint vka sem in
    if negb (error =? 0) then Ret error
    else
      let^ c := load (o_cptr sem) in
      sync_sem_init sem c value.

Definition sync_sem_destroy (vka : option (vka_t W)) (sem : Z) : code Z :=
  if sem =? 0 then Ret (-1)
  else
    let^ _ := free_object vka sem in
    Ret 0.

(** *** Recursive mutexes *)

Definition sync_recursive_mutex_init (mutex notification : Z) : code Z :=
  if mutex =? 0 then Ret (-1)
  else
    let^ _ := store (o_cptr mutex) notification in
    let^ _ := store (mutex_owner mutex) 0 in
    let^ _ := store (mutex_held mutex) 0 in
    let^ c := load (o_cptr mutex) in
    let^ _ := seL4_Signal c in
    Ret 0.

(** Waiting for the mutex of another owner. *)
Definition take_mutex (mutex : Z) : code unit :=
  let^ c := load (o_cptr mutex) in
  let^ _ := seL4_Wait c in
  let^ owner := load (mutex_owner mutex) in
  let^ _ := check (owner =? 0) in
  let^ self := thread_id in
  let^ _ := store (mutex_owner mutex) self in
  let^ held := load (mutex_held mutex) in
  check (held =? 0).

(** [mutex->held++], unless it would wrap. *)
Definition count_lock (mutex : Z) : code Z :=
  let^ held := load (mutex_held mutex) in
  if held =? UINT_MAX then Ret (-1)
  else
    let^ held := load (mutex_held mutex) in
    let^ _ := store (mutex_held mutex) (uint (held + 1)) in
    Ret 0.

Definition sync_recursive_mutex_lock (mutex : Z) : code Z :=
  if mutex =? 0 then Ret (-1)
  else
    let^ self := thread_id in
    let^ owner := load (mutex_owner mutex) in
    let^ _ := (if negb (self =? owner) then take_mutex mutex else Ret tt) in
    count_lock mutex.

Definition sync_recursive_mutex_unlock (mutex : Z) : code Z :=
  if mutex =? 0 then Ret (-1)
  else
    let^ owner := load (mutex_owner mutex) in
    let^ self := thread_id in
    let^ _ := check (owner =? self) in
    let^ held := load (mutex_held mutex) in
    let^ _ := check (held >? 0) in
    let^ held := load (mutex_held mutex) in
    let^ _ := store (mutex_held mutex) (uint (held - 1)) in
    let^ held := load (mutex_held mutex) in
    let^ _ := (if held =? 0 then
                 let^ _ := store (mutex_owner mutex) 0 in
                 let^ c := load (o_cptr mutex) in
                 seL4_Signal c
               else Ret tt) in
    Ret 0.

Definition sync_recursive_mutex_new (vka : option (vka_t W)) (mutex : Z) : code Z :=
  let^ error := alloc_notification vka mutex in
  if negb (error =? 0) then Ret error
  else
    let^ c := load (o_cptr mutex) in
    sync_recursive_mutex_init mutex c.

Definition sync_recursive_mutex_destroy (vka : option (vka_t W)) (mutex : Z) : code Z :=
  let^ _ := free_object vka mutex in
  Ret 0.

(** *** Condition variables

    [waiters] is an [int], which fewer threads than 2^31 cannot overflow. *)

Definition sync_cv_init (cv notification : Z) : code Z :=
  if cv =? 0 then Ret (-1)
  else
    let^ _ := store (o_cptr cv) notification in
    let^ _ := store (cv_waiters cv) 0 in
    let^ _ := store (cv_broadcasting cv) 0 in
    Ret 0.

(** The end of [sync_cv_wait], with the lock held again. *)
Definition cv_woken (cv : Z) : code Z :=
  let^ waiters := load (cv_waiters cv) in
  let^ _ := store (cv_waiters cv) (waiters - 1) in
  let^ broadcasting := load (cv_broadcasting cv) in
  let^ _ := (if negb (broadcasting =? 0) then
               let^ waiters := load (cv_waiters cv) in
               if waiters >? 0 then
                 let^ c := load (o_cptr cv) in
                 seL4_Signal c
               else store (cv_broadcasting cv) 0
             else Ret tt) in
  Ret 0.

Definition sync_cv_wait (lock cv : Z) : code Z :=
  if cv =? 0 then Ret (-1)
  else
    let^ waiters := load (cv_waiters cv) in
    let^ _ := store (cv_waiters cv) (waiters + 1) in
    let^ _ := store (cv_broadcasting cv) 0 in
    let^ error := sync_bin_sem_post lock in
    if negb (error =? 0) then Ret error
    else
      let^ c := load (o_cptr cv) in
      let^ _ := seL4_Wait c in
      let^ error := sync_bin_sem_wait lock in
      if negb (error =? 0) then Ret error
      else cv_woken cv.

Definition sync_cv_signal (cv : Z) : code Z :=
  if cv =? 0 then Ret (-1)
  else
    let^ waiters := load (cv_waiters cv) in
    let^ _ := (if waiters >? 0 then let^ c := load (o_cptr cv) in seL4_Signal c else Ret tt) in
    Ret 0.

Definition sync_cv_broadcast (cv : Z) : code Z :=
  if cv =? 0 then Ret (-1)
  else
    let^ waiters := load (cv_waiters cv) in
    let^ _ := (if waiters >? 0 then
                 let^ _ := store (cv_broadcasting cv) 1 in
                 let^ c := load (o_cptr cv) in
                 seL4_Signal c
               else Ret tt) in
    Ret 0.

Definition sync_cv_broadcast_release (lock cv : Z) : code Z :=
  if cv =? 0 then Ret (-1)
  else
    let^ waiters := load (cv_waiters cv) in
    if waiters >? 0 then
      let^ _ := store (cv_broadcasting cv) 1 in
      let^ error := sync_bin_sem_post lock in
      if negb (error =? 0) then Ret error
      else
        let^ c := load (o_cptr cv) in
        let^ _ := seL4_Signal c in
        Ret 0
    else sync_bin_sem_post lock.

Definition sync_cv_new (vka : option (vka_t W)) (cv : Z) : code Z :=
  if cv =? 0 then Ret (-1)
  else
    let^ error := alloc_notification vka cv in
    if negb (error =? 0) then Ret error
    else
      let^ c := load (o_cptr cv) in
      sync_cv_init cv c.

Definition sync_cv_destroy (vka : option (vka_t W)) (cv : Z) : code Z :=
  if cv =? 0 then Ret (-1)
  else
    let^ _ := free_object vka cv in
    Ret 0.

End operations.
