(* ===== verification/SyncRun.v ===== *)
(** Threads that run the code of libsel4sync (Sync.v), one access at a time in
    any order: the state they share, the scheduler, and what the kernel's
    notifications and endpoints and the atomic operations are documented to
    do. *)
From S2P Require Import Prelude Cspacepath Interfaces Objects Vka Sync.

(** ** Documented behaviour *)

(** The atomic operations on an [int]: the new value, if the operation goes
    ahead. *)
Class Atomics : Type := {
  increment : Z -> Z;
  decrement_safe : Z -> option Z;
  increment_law : forall v, INT_MIN <= v < INT_MAX -> increment v = v + 1;
  decrement_law : forall v, INT_MIN < v <= INT_MAX -> decrement_safe v = Some (v - 1);
  decrement_min : decrement_safe INT_MIN = None
}.

(** A kernel object that threads signal and wait on, by thread.  A call
    completes at once, or the thread waits in a queue until another call
    completes it: the result lists the threads whose calls complete.
    A notification ([is_endpoint] is false) remembers one signal; a signal to
    an endpoint waits for its receiver. *)
Class KernelObject (K : Type) : Type := {
  k_signal : nat -> K -> K * list nat;
  k_wait : nat -> K -> K * list nat;
  is_endpoint : K -> bool;
  pending : K -> bool;
  waiters : K -> list nat;
  senders : K -> list nat;
  signal_wakes : forall i j q k, waiters k = j :: q -> exists k', k_signal i k = (k', [i; j]) /\ waiters k' = q /\
    pending k' = pending k /\ senders k' = senders k /\ is_endpoint k' = is_endpoint k;
  signal_notification : forall i k, waiters k = [] -> is_endpoint k = false -> exists k', k_signal i k = (k', [i]) /\
    waiters k' = [] /\ pending k' = true /\ senders k' = senders k /\ is_endpoint k' = false;
  signal_endpoint : forall i k, waiters k = [] -> is_endpoint k = true -> exists k', k_signal i k = (k', []) /\
    waiters k' = [] /\ pending k' = pending k /\ senders k' = senders k ++ [i] /\ is_endpoint k' = true;
  wait_pending : forall i k, pending k = true -> exists k', k_wait i k = (k', [i]) /\
    waiters k' = waiters k /\ pending k' = false /\ senders k' = senders k /\ is_endpoint k' = is_endpoint k;
  wait_sender : forall i j q k, pending k = false -> senders k = j :: q -> exists k', k_wait i k = (k', [i; j]) /\
    waiters k' = waiters k /\ pending k' = false /\ senders k' = q /\ is_endpoint k' = is_endpoint k;
  wait_blocks : forall i k, pending k = false -> senders k = [] -> exists k', k_wait i k = (k', []) /\
    waiters k' = waiters k ++ [i] /\ pending k' = false /\ senders k' = [] /\ is_endpoint k' = is_endpoint k
}.

(** ** Running code *)

Record shared (K W : Type) : Type := Shared { cells : gmap Z Z; objects : gmap Z K; others : W }.
Arguments Shared {K W} _ _ _.
Arguments cells {K W} _.
Arguments objects {K W} _.
Arguments others {K W} _.

Section scheduler.
Context {K W : Type} `{!KernelObject K, !Atomics}.
Local Abbreviation shared := (shared K W).

Definition set_cell (p v : Z) (s : shared) : shared := Shared (<[p := v]> (cells s)) (objects s) (others s).

Definition read_cell (p : Z) (s : shared) : res Z :=
  match cells s !! p with Some v => Ok v | None => Fault NullPointer end.

(** One access, by the thread with IPC buffer [self]; a weak compare and
    exchange may fail for no reason ([spurious]). *)
Definition perform {B : Type} (self : Z) (spurious : bool) (c : call W B) (s : shared) : res (B * shared) :=
  match c in call _ B return res (B * shared) with
  | Load p => let? v := read_cell p s in Ok (v, s)
  | Store p v => let? _ := read_cell p s in Ok (tt, set_cell p v s)
  | AtomicIncrement p => let? v := read_cell p s in Ok (increment v, set_cell p (increment v) s)
  | AtomicDecrementSafe p =>
    let? v := read_cell p s in
    match decrement_safe v with
    | Some v' => Ok (0, v, set_cell p v' s)
    | None => Ok (-1, v, s)
    end
  | CompareExchangeWeak p expected desired =>
    let? v := read_cell p s in
    if (v =? expected) && negb spurious then Ok (true, set_cell p desired s) else Ok (false, s)
  | ThreadId => Ok (self, s)
  | World m => let? (a, w) := m (others s) in Ok (a, Shared (cells s) (objects s) w)
  end.

(** One step of code that is not at a kernel call. *)
Definition exec {A : Type} (self : Z) (spurious : bool) (c : code W A) (s : shared) : option (code W A * shared) :=
  match c in code _ A return option (code W A * shared) with
  | Ret _ => None
  | Stop _ => None
  | Sys _ _ => None
  | Do c k => match perform self spurious c s with
              | Ok (b, s) => Some (k b, s)
              | Fault f => Some (Stop f, s)
              end
  | Iter body x k => Some (cbind (body x) (fun r => match r with inl x => Iter body x k | inr b => k b end), s)
  end.

(** What code has returned, the kernel call it is at, and the code after it. *)
Definition result {A : Type} (c : code W A) : option A :=
  match c in code _ A return option A with Ret a => Some a | _ => None end.
Definition at_call {A : Type} (c : code W A) : option kcall :=
  match c with Sys k _ => Some k | _ => None end.
Definition after_call {A : Type} (c : code W A) : code W A :=
  match c in code _ A return code W A with Sys _ k => k | c => c end.

Definition stopped {A : Type} (c : code W A) : bool := match c with Stop _ => true | _ => false end.

(** ** Threads

    A thread is between calls, holding what it locked [depth] times, or in the
    code of a call that acquires or releases; a thread blocked in the kernel
    waits for its call to complete. *)

Inductive activity : Type := Resting | Entering (c : code W Z) | Leaving (c : code W Z).

Record thread : Type := Thread { depth : nat; act : activity; blocked : bool }.

Record config : Type := Config { state : shared; threads : list thread }.

(** What the threads may do: acquire by one of [entries], and release by
    [exit]; again while they hold when [reentrant]. *)
Context (entries : list (code W Z)) (exit : code W Z) (reentrant : bool) (buffer : nat -> Z).

Definition with_code (t : thread) (c : code W Z) : thread :=
  Thread (depth t) (match act t with Leaving _ => Leaving c | _ => Entering c end) (blocked t).

(** The kernel call of a thread is complete. *)
Definition complete (t : thread) : thread :=
  Thread (depth t) (match act t with
                    | Resting => Resting
                    | Entering c => Entering (after_call c)
                    | Leaving c => Leaving (after_call c)
                    end) false.

Definition block (t : thread) : thread := Thread (depth t) (act t) true.

Definition complete_all (js : list nat) (ts : list thread) : list thread :=
  foldr (fun j ts => alter complete j ts) ts js.

Definition kernel_call (i : nat) (c : kcall) (s : shared) : option (shared * list nat) :=
  let p := match c with Wait p | Signal p => p end in
  match objects s !! p with
  | None => None
  | Some k =>
    let (k, js) := match c with Wait _ => k_wait i k | Signal _ => k_signal i k end in
    Some (Shared (cells s) (<[p := k]> (objects s)) (others s), js)
  end.

(** The code of a call has returned. *)
Definition returned (t : thread) (r : Z) : thread :=
  match act t with
  | Entering _ => Thread (if r =? 0 then S (depth t) else depth t) Resting false
  | _ => Thread (if r =? 0 then pred (depth t) else depth t) Resting false
  end.

Definition run_thread (i : nat) (spurious : bool) (t : thread) (c : code W Z) (cfg : config) : option config :=
  match result c, at_call c with
  | Some r, _ => Some (Config (state cfg) (<[i := returned t r]> (threads cfg)))
  | None, Some k =>
    match kernel_call i k (state cfg) with
    | None => None
    | Some (s, js) => Some (Config s (complete_all js (<[i := block t]> (threads cfg))))
    end
  | None, None =>
    match exec (buffer i) spurious c (state cfg) with
    | None => None
    | Some (c, s) => Some (Config s (<[i := with_code t c]> (threads cfg)))
    end
  end.

(** Code that one thread runs from beginning to end, as initialisation does. *)
Fixpoint alone {A : Type} (fuel : nat) (self : Z) (c : code W A) (s : shared) : res (A * shared) :=
  match fuel with
  | O => Fault OutOfFuel
  | S fuel =>
    match c in code _ A return res (A * shared) with
    | Ret a => Ok (a, s)
    | Stop f => Fault f
    | Do c k => let? (b, s) := perform self false c s in alone fuel self (k b) s
    | Sys k rest =>
      match kernel_call 0 k s with
      | Some (s, [_]) => alone fuel self rest s
      | _ => Fault NullPointer
      end
    | Iter body x k => alone fuel self (cbind (body x) (fun r => match r with inl x => Iter body x k | inr b => k b end)) s
    end
  end.

(** What the scheduler lets thread [i] do next: [Go] on with the code it is in
    (possibly with a spurious failure), [Enter] by one of the entries, or
    [Exit]. *)
Inductive choice : Type := Go (spurious : bool) | Enter (n : nat) | Exit.

Definition step (i : nat) (ch : choice) (cfg : config) : option config :=
  match threads cfg !! i with
  | None => None
  | Some t =>
    if blocked t then None
    else
      match act t, ch with
      | Resting, Enter n =>
        if (depth t =? 0)%nat || reentrant then
          match entries !! n with
          | None => None
          | Some c => Some (Config (state cfg) (<[i := Thread (depth t) (Entering c) false]> (threads cfg)))
          end
        else None
      | Resting, Exit =>
        if (depth t =? 0)%nat then None
        else Some (Config (state cfg) (<[i := Thread (depth t) (Leaving exit) false]> (threads cfg)))
      | Entering c, Go spurious => run_thread i spurious t c cfg
      | Leaving c, Go spurious => run_thread i spurious t c cfg
      | _, _ => None
      end
  end.

Inductive reachable (c0 : config) : config -> Prop :=
  | reach_start : reachable c0 c0
  | reach_step c i ch c' : reachable c0 c -> step i ch c = Some c' -> reachable c0 c'.

Fixpoint run (l : list (nat * choice)) (c : config) : option config :=
  match l with
  | [] => Some c
  | (i, ch) :: l => match step i ch c with Some c => run l c | None => None end
  end.

Lemma run_reachable c0 c l c' : reachable c0 c -> run l c = Some c' -> reachable c0 c'.
Proof.
  revert c. induction l as [|[i ch] l IH]; intros c Hc; cbn [run]; [by intros [= <-]|].
  destruct (step i ch c) as [c1|] eqn:Hs; [|done]. apply IH. by eapply reach_step.
Qed.

(** [n] threads that have not started. *)
Definition start (s : shared) (n : nat) : config := Config s (replicate n (Thread 0 Resting false)).

(** A kernel object that has seen no call. *)
Definition unused (k : K) : Prop := pending k = false /\ waiters k = [] /\ senders k = [].

(** A thread has stopped at a fault. *)
Definition faulted (t : thread) : bool :=
  match act t with Resting => false | Entering c | Leaving c => stopped c end.

(** A thread that can go on by itself: it is in the middle of a call and not
    blocked, or it holds something and may release it. *)
Definition active (t : thread) : Prop :=
  blocked t = false /\ (act t <> Resting \/ depth t <> 0%nat).

(** A thread that has acquired and not yet begun to release. *)
Definition inside (t : thread) : bool :=
  match act t with Resting | Entering _ => negb (depth t =? 0)%nat | Leaving _ => false end.

End scheduler.

Arguments activity : clear implicits.
Arguments thread : clear implicits.
Arguments config : clear implicits.

(** ** A concrete kernel object *)

Record toy_object : Type := ToyObject { to_endpoint : bool; to_pending : bool; to_waiters : list nat; to_senders : list nat }.

#[export] Program Instance toy_kernel_object : KernelObject toy_object := {|
  k_signal i k :=
    match to_waiters k with
    | j :: q => (ToyObject (to_endpoint k) (to_pending k) q (to_senders k), [i; j])
    | [] => if to_endpoint k then (ToyObject true (to_pending k) [] (to_senders k ++ [i]), [])
            else (ToyObject false true [] (to_senders k), [i])
    end;
  k_wait i k :=
    if to_pending k then (ToyObject (to_endpoint k) false (to_waiters k) (to_senders k), [i])
    else
      match to_senders k with
      | j :: q => (ToyObject (to_endpoint k) false (to_waiters k) q, [i; j])
      | [] => (ToyObject (to_endpoint k) false (to_waiters k ++ [i]) [], [])
      end;
  is_endpoint := to_endpoint; pending := to_pending; waiters := to_waiters; senders := to_senders
|}.
Next Obligation. simpl. intros i j q k ->. by eexists. Qed.
Next Obligation. simpl. intros i k -> ->. by eexists. Qed.
Next Obligation. simpl. intros i k -> ->. by eexists. Qed.
Next Obligation. simpl. intros i k ->. by eexists. Qed.
Next Obligation. simpl. intros i j q k -> ->. by eexists. Qed.
Next Obligation. simpl. intros i k -> ->. by eexists. Qed.

#[export] Program Instance toy_atomics : Atomics := {|
  increment v := v + 1;
  decrement_safe v := if v =? INT_MIN then None else Some (v - 1)
|}.
Next Obligation. done. Qed.
Next Obligation. simpl. intros v Hv. destruct (Z.eqb_spec v INT_MIN); [lia|done]. Qed.
Next Obligation. done. Qed.
