(* ===== verification/SyncTokens.v ===== *)
(** The argument that the semaphores of libsel4sync are correct, apart from
    their code: where a thread can be, how a step may move it, and an invariant
    that accounts for every unit of the semaphore.  A protocol is a relation
    between threads and positions that the steps of its code respect; the
    semaphores of SyncSem.v are two. *)
From S2P Require Import Prelude Cspacepath Interfaces Objects Vka Sync SyncRun.

(** ** Sums over lists *)

Fixpoint total {A : Type} (f : A -> Z) (l : list A) : Z :=
  match l with
  | [] => 0
  | a :: l => f a + total f l
  end.

Lemma total_insert {A} (f : A -> Z) (l : list A) i a b : l !! i = Some a -> total f (<[i := b]> l) = total f l - f a + f b.
Proof.
  revert i. induction l as [|x l IH]; intros [|i] H; try done; cbn in *; [simplify_eq; lia|].
  rewrite IH by done. lia.
Qed.

Lemma total_nonneg {A} (f : A -> Z) (l : list A) : (forall a, 0 <= f a) -> 0 <= total f l.
Proof. intros Hf. induction l as [|x l IH]; cbn; [lia|]. specialize (Hf x). lia. Qed.

Lemma total_ge {A} (f : A -> Z) (l : list A) i a : (forall a, 0 <= f a) -> l !! i = Some a -> f a <= total f l.
Proof.
  intros Hf. revert i. induction l as [|x l IH]; intros [|i] H; try done; cbn in *.
  - simplify_eq. pose proof (total_nonneg f l Hf). lia.
  - specialize (IH _ H). specialize (Hf x). lia.
Qed.

Lemma total_zero {A} (f : A -> Z) (l : list A) : (forall i a, l !! i = Some a -> f a = 0) -> total f l = 0.
Proof.
  induction l as [|x l IH]; intros H; cbn; [done|]. rewrite (H 0%nat x eq_refl), IH; [done|].
  intros i a Ha. by apply (H (S i)).
Qed.

Lemma total_filter {A} (f : A -> bool) (l : list A) :
  total (fun a => b2z (f a)) l = Z.of_nat (length (filter (fun a => f a = true) l)).
Proof.
  induction l as [|x l IH]; cbn [total]; [done|]. rewrite filter_cons, IH. destruct (f x); simpl; lia.
Qed.

Lemma total_le {A B} (f : A -> Z) (g : B -> Z) (R : A -> B -> Prop) l k :
  Forall2 R l k -> (forall a b, R a b -> f a <= g b) -> total f l <= total g k.
Proof. intros H Hle. induction H as [|a b l k Hab _ IH]; cbn; [lia|]. specialize (Hle a b Hab). lia. Qed.

Lemma alter_insert {A} (f : A -> A) (l : list A) i a : l !! i = Some a -> alter f i l = <[i := f a]> l.
Proof. revert i. induction l as [|x l IH]; intros [|i] H; try done; cbn in *; [by simplify_eq|]. f_equal. by apply IH. Qed.

(** ** Positions *)

(** Between calls; acquiring; waiting in the kernel; holding a unit; about to
    give it back; the unit given back, with new value [v], about to look
    whether there is a thread to wake; waking it; at the end of a call. *)
Inductive pos : Type := Idle | Trying | Queued | Held | Releasing | Checking (v : Z) | Sending | Ended.

#[export] Instance pos_eq_dec : EqDecision pos.
Proof. solve_decision. Defined.

Definition holds_unit (q : pos) : Z := match q with Held | Releasing => 1 | _ => 0 end.
Definition wants_unit (q : pos) : Z := match q with Queued => 1 | _ => 0 end.
Definition owes_signal (q : pos) : Z := match q with Checking v => b2z (v <=? 0) | Sending => 1 | _ => 0 end.

(** Moves that involve no kernel call, on the value and a thread's position. *)
Inductive move : Z -> pos -> Z -> pos -> Prop :=
  | move_start v : move v Idle v Trying
  | move_try v : move v Trying v Trying
  | move_fail v : move v Trying v Ended
  | move_decrement v : INT_MIN < v -> move v Trying (v - 1) (if v <=? 0 then Queued else Held)
  | move_got v : move v Held v Held
  | move_release v : move v Held v Releasing
  | move_releasing v : move v Releasing v Releasing
  | move_increment v : move v Releasing (v + 1) (Checking (v + 1))
  | move_increment_direct v : move v Releasing (v + 1) (if v + 1 <=? 0 then Sending else Ended)
  | move_recheck v x : move v (Checking x) v (Checking x)
  | move_check v x : move v (Checking x) v (if x <=? 0 then Sending else Ended)
  | move_end v : move v Ended v Idle.

Lemma holds_nonneg q : 0 <= holds_unit q.
Proof. destruct q; simpl; lia. Qed.
Lemma wants_nonneg q : 0 <= wants_unit q.
Proof. destruct q; simpl; lia. Qed.
Lemma owes_nonneg q : 0 <= owes_signal q.
Proof. destruct q as [| | | | |v| |]; simpl; try lia. destruct (v <=? 0); simpl; lia. Qed.

(** A move keeps both balances. *)
Lemma move_balance v q v' q' : move v q v' q' ->
  v' + holds_unit q' + wants_unit q' = v + holds_unit q + wants_unit q /\
  wants_unit q' - owes_signal q' - Z.max 0 (- v') = wants_unit q - owes_signal q - Z.max 0 (- v).
Proof.
  destruct 1; simpl; try lia.
  - destruct (Z.leb_spec v 0); simpl; lia.
  - destruct (Z.leb_spec (v + 1) 0); simpl; lia.
  - destruct (Z.leb_spec (v + 1) 0); simpl; lia.
  - destruct (Z.leb_spec x 0); simpl; lia.
Qed.

Lemma move_range v q v' q' : move v q v' q' -> INT_MIN <= v -> INT_MIN <= v'.
Proof. destruct 1; lia. Qed.

Lemma move_unqueued v q v' q' : move v q v' q' -> q <> Queued /\ q <> Sending.
Proof. by destruct 1. Qed.

(** ** Protocols *)

Section protocol.
Context {K W : Type} `{!KernelObject K, !Atomics}.
Local Abbreviation thread := (thread W).
Local Abbreviation config := (config K W).
Context (entries : list (code W Z)) (exit : code W Z) (buffer : nat -> Z).
Local Abbreviation step := (step entries exit false buffer).

(** The semaphore: the cells of its capability and value, its kernel object,
    the units it starts with. *)
Context (cptr_cell value_cell c v0 : Z).

(** What a protocol must show.  [cells_ok] is what the code reads. *)
Definition cells_ok (v : Z) (s : shared K W) : Prop :=
  cells s !! cptr_cell = Some c /\ cells s !! value_cell = Some v /\ INT_MIN <= v <= v0.

Class Protocol (at_pos : thread -> pos -> Prop) : Prop := {
  pos_idle : at_pos (Thread 0 Resting false) Idle;
  pos_blocked : forall t q, at_pos t q -> blocked t = true -> q = Queued \/ q = Sending;
  pos_fault : forall t q, at_pos t q -> faulted t = false;
  pos_inside : forall t q, at_pos t q -> inside t = true -> q = Held;
  pos_wait : forall t, at_pos t Queued -> exists k,
    act t = Entering (Sys (Wait c) k) /\ at_pos (block t) Queued /\ at_pos (complete (block t)) Held;
  pos_send : forall t, at_pos t Sending -> exists k,
    act t = Leaving (Sys (Signal c) k) /\ at_pos (block t) Sending /\ at_pos (complete (block t)) Ended;
  pos_step : forall i ch s ts t q v cfg', at_pos t q -> q <> Queued -> q <> Sending -> blocked t = false ->
    ts !! i = Some t -> cells_ok v s -> (q = Releasing -> v < v0) -> step i ch (Config s ts) = Some cfg' ->
    exists s' t' q' v', cfg' = Config s' (<[i := t']> ts) /\ blocked t' = false /\ at_pos t' q' /\ move v q v' q' /\
      cells s' !! cptr_cell = Some c /\ cells s' !! value_cell = Some v' /\ objects s' = objects s;
  pos_progress : forall i s ts t q v, at_pos t q -> q <> Idle -> blocked t = false -> ts !! i = Some t -> cells_ok v s ->
    is_Some (objects s !! c) -> exists ch cfg', step i ch (Config s ts) = Some cfg' /\ forall n, ch <> Enter n
}.

Context (at_pos : thread -> pos -> Prop) `{!Protocol at_pos}.

(** ** The invariant *)

Definition waiting_at (q : pos) (ts : list thread) (ps : list pos) (i : nat) : Prop :=
  exists t, ts !! i = Some t /\ blocked t = true /\ ps !! i = Some q.

Record sem_inv (s : shared K W) (ts : list thread) (v : Z) (k : K) (ps : list pos) : Prop := {
  s_cptr : cells s !! cptr_cell = Some c;
  s_value : cells s !! value_cell = Some v;
  s_range : INT_MIN <= v;
  s_object : objects s !! c = Some k;
  s_pos : Forall2 at_pos ts ps;
  s_units : v + total holds_unit ps + total wants_unit ps = v0;
  s_signals : total wants_unit ps = total owes_signal ps + b2z (pending k) + Z.max 0 (- v);
  s_waiters : NoDup (waiters k) /\ forall i, i ∈ waiters k <-> waiting_at Queued ts ps i;
  s_senders : NoDup (senders k) /\ forall i, i ∈ senders k <-> waiting_at Sending ts ps i;
  s_pending : pending k = true -> is_endpoint k = false /\ waiters k = [];
  s_sending : senders k <> [] -> is_endpoint k = true /\ waiters k = [];
  s_binary : is_endpoint k = false -> v0 = 1
}.

Lemma inv_value s ts v k ps : sem_inv s ts v k ps -> v <= v0 /\ cells_ok v s.
Proof.
  intros Hi. pose proof (s_units _ _ _ _ _ Hi). pose proof (total_nonneg holds_unit ps holds_nonneg).
  pose proof (total_nonneg wants_unit ps wants_nonneg).
  split; [lia|]. split_and!; [apply (s_cptr _ _ _ _ _ Hi)|apply (s_value _ _ _ _ _ Hi)|apply (s_range _ _ _ _ _ Hi)|lia].
Qed.

Lemma waiting_insert q i t q0 t' q' ts ps j : ts !! i = Some t -> ps !! i = Some q0 ->
  waiting_at q (<[i := t']> ts) (<[i := q']> ps) j <->
  (j = i /\ blocked t' = true /\ q' = q) \/ (j <> i /\ waiting_at q ts ps j).
Proof.
  intros Ht Hq. unfold waiting_at. pose proof (lookup_lt_Some _ _ _ Ht). pose proof (lookup_lt_Some _ _ _ Hq).
  destruct (decide (j = i)) as [->|Hne].
  - rewrite !list_lookup_insert_eq by done. naive_solver.
  - rewrite !list_lookup_insert_ne by done. naive_solver.
Qed.

(** A move without a kernel call. *)
Lemma inv_move s s' ts v v' k ps i t t' q q' : sem_inv s ts v k ps -> ts !! i = Some t -> ps !! i = Some q ->
  blocked t = false -> blocked t' = false -> at_pos t' q' -> move v q v' q' ->
  cells s' !! cptr_cell = Some c -> cells s' !! value_cell = Some v' -> objects s' = objects s ->
  sem_inv s' (<[i := t']> ts) v' k (<[i := q']> ps).
Proof.
  intros Hi Ht Hq Hb Hb' Hat Hmove Hc Hv Ho. pose proof (move_balance _ _ _ _ Hmove) as [Hbal1 Hbal2].
  destruct Hi as [? ? Hrange Hobj Hpos Hu Hs [Hnd1 Hw1] [Hnd2 Hw2] Hp1 Hp2 Hbin].
  assert (Hwait : forall r x, waiting_at r ts ps x <-> waiting_at r (<[i := t']> ts) (<[i := q']> ps) x).
  { intros r x. rewrite (waiting_insert r i t q t' q' ts ps x Ht Hq), Hb'. split; [|intros [(_ & ? & _)|[_ ?]]; done].
    intros Hx. right. split; [|done]. intros ->. destruct Hx as (z & Hz & Hzb & _). congruence. }
  constructor; try done.
  - by eapply move_range.
  - by rewrite Ho.
  - by apply Forall2_insert.
  - rewrite !(total_insert _ _ _ _ _ Hq). lia.
  - rewrite !(total_insert _ _ _ _ _ Hq). lia.
  - split; [done|]. intros x. by rewrite <- Hwait.
  - split; [done|]. intros x. by rewrite <- Hwait.
Qed.

Lemma complete_one i (b : thread) (ts : list thread) : (i < length ts)%nat ->
  complete_all [i] (<[i := b]> ts) = <[i := complete b]> ts.
Proof.
  intros Hi. cbn. rewrite (alter_insert complete _ i b) by (by apply list_lookup_insert_eq). apply list_insert_insert_eq.
Qed.

Lemma complete_two i j (b tj : thread) (ts : list thread) : (i < length ts)%nat -> i <> j -> ts !! j = Some tj ->
  complete_all [i; j] (<[i := b]> ts) = <[i := complete b]> (<[j := complete tj]> ts).
Proof.
  intros Hi Hij Hj. cbn. rewrite (alter_insert complete (<[i := b]> ts) j tj) by (by rewrite list_lookup_insert_ne).
  rewrite (alter_insert complete _ i b).
  - rewrite (list_insert_insert_ne _ j i) by done. by rewrite list_insert_insert_eq.
  - rewrite list_lookup_insert_ne by done. by apply list_lookup_insert_eq.
Qed.

Lemma block_blocked (t : thread) : blocked t = true -> block t = t.
Proof. by destruct t; simpl; intros ->. Qed.

Definition with_object (s : shared K W) (k : K) : shared K W := Shared (cells s) (<[c := k]> (objects s)) (others s).

(** Where the head of a queue waits. *)
Lemma queue_head q (l : list nat) ts ps j r : NoDup l -> (forall i, i ∈ l <-> waiting_at q ts ps i) -> l = j :: r ->
  NoDup r /\ (exists t, ts !! j = Some t /\ blocked t = true /\ ps !! j = Some q) /\
  forall i, i ∈ r <-> waiting_at q ts ps i /\ i <> j.
Proof.
  intros Hnd Hl ->. apply NoDup_cons in Hnd as [Hj Hnd]. split; [done|]. split; [apply Hl; left|].
  intros i. rewrite <- Hl, elem_of_cons. naive_solver.
Qed.

(** The thread of a waiting position, completed. *)
Lemma complete_queued t : at_pos t Queued -> blocked t = true -> at_pos (complete t) Held.
Proof. intros Ht Hb. destruct (pos_wait t Ht) as (k & _ & _ & Hcomp). by rewrite (block_blocked t Hb) in Hcomp. Qed.
Lemma complete_sending t : at_pos t Sending -> blocked t = true -> at_pos (complete t) Ended.
Proof. intros Ht Hb. destruct (pos_send t Ht) as (k & _ & _ & Hc). by rewrite (block_blocked t Hb) in Hc. Qed.

Lemma at_pos_lookup ts ps i t q : Forall2 at_pos ts ps -> ts !! i = Some t -> ps !! i = Some q -> at_pos t q.
Proof. intros Hf Ht Hq. by eapply Forall2_lookup_lr. Qed.

(** [seL4_Wait]. *)
Lemma inv_wait s ts v k ps i t : sem_inv s ts v k ps -> ts !! i = Some t -> ps !! i = Some Queued -> blocked t = false ->
  exists k' js ps', k_wait i k = (k', js) /\ sem_inv (with_object s k') (complete_all js (<[i := block t]> ts)) v k' ps'.
Proof.
  intros Hi Ht Hq Hb. pose proof (lookup_lt_Some _ _ _ Ht) as Hlt.
  destruct Hi as [Hcp Hva Hrange Hobj Hpos Hu Hs [Hnd1 Hw1] [Hnd2 Hw2] Hp1 Hp2 Hbin].
  pose proof (at_pos_lookup _ _ _ _ _ Hpos Ht Hq) as Hat. destruct (pos_wait t Hat) as (kc & _ & Hblock & Hdone).
  assert (Hni : forall r, ~ waiting_at r ts ps i) by (intros r (z & Hz & Hzb & _); congruence).
  destruct (pending k) eqn:Hpend.
  - (* the signal is there *)
    destruct (wait_pending i k Hpend) as (k' & E & Ew & Ep & Es & Ee). destruct (Hp1 eq_refl) as [Hne Hnil].
    exists k', [i], (<[i := Held]> ps). split; [done|]. rewrite complete_one by done.
    constructor; simpl; rewrite ?Ew, ?Ep, ?Es, ?Ee; try done.
    + apply lookup_insert_eq.
    + by apply Forall2_insert.
    + rewrite !(total_insert _ _ _ _ _ Hq). simpl in *. lia.
    + rewrite !(total_insert _ _ _ _ _ Hq). simpl in *. lia.
    + split; [done|]. intros x. rewrite (waiting_insert Queued i t Queued _ Held ts ps x Ht Hq), Hw1. naive_solver.
    + split; [done|]. intros x. rewrite (waiting_insert Sending i t Queued _ Held ts ps x Ht Hq), Hw2. naive_solver.
  - destruct (senders k) as [|j r] eqn:Hsend.
    + (* nothing: block *)
      destruct (wait_blocks i k Hpend Hsend) as (k' & E & Ew & Ep & Es & Ee).
      exists k', [], ps. split; [done|]. rewrite <- (list_insert_id ps i Queued) by done. cbn [complete_all foldr].
      constructor; simpl; rewrite ?Ew, ?Ep, ?Es, ?Ee; try done.
      * apply lookup_insert_eq.
      * by apply Forall2_insert.
      * by rewrite list_insert_id.
      * by rewrite list_insert_id.
      * split.
        -- apply NoDup_app. split_and!; [done| |apply NoDup_singleton]. intros x Hx ->%list_elem_of_singleton.
           by apply (Hni Queued), Hw1.
        -- intros x. rewrite (waiting_insert Queued i t Queued _ Queued ts ps x Ht Hq), elem_of_app, list_elem_of_singleton, Hw1.
           simpl. split; [intros [Hx| ->]; [right; split; [intros ->; by apply (Hni Queued)|done]|by left]|naive_solver].
      * split; [constructor|]. intros x. rewrite (waiting_insert Sending i t Queued _ Queued ts ps x Ht Hq), <- Hw2.
        naive_solver.
    + (* a sender *)
      destruct (wait_sender i j r k Hpend Hsend) as (k' & E & Ew & Ep & Es & Ee).
      destruct (queue_head Sending _ ts ps j r Hnd2 Hw2 eq_refl) as (Hndr & (tj & Htj & Hbj & Hqj) & Hr).
      destruct Hp2 as [Hep Hnil]; [done|].
      assert (Hij : i <> j) by congruence.
      exists k', [i; j], (<[i := Held]> (<[j := Ended]> ps)). split; [done|]. rewrite (complete_two i j _ tj) by done.
      assert (Ht' : <[j := complete tj]> ts !! i = Some t) by (by rewrite list_lookup_insert_ne).
      assert (Hq' : <[j := Ended]> ps !! i = Some Queued) by (by rewrite list_lookup_insert_ne).
      constructor; simpl; rewrite ?Ew, ?Ep, ?Es, ?Ee; try done.
      * apply lookup_insert_eq.
      * apply Forall2_insert; [|done]. apply Forall2_insert; [done|]. apply complete_sending; [|done].
        by eapply at_pos_lookup.
      * rewrite !(total_insert _ _ _ _ _ Hq'), !(total_insert _ _ _ _ _ Hqj). simpl in *. lia.
      * rewrite !(total_insert _ _ _ _ _ Hq'), !(total_insert _ _ _ _ _ Hqj). simpl in *. lia.
      * split; [done|]. intros x.
        rewrite (waiting_insert Queued i t Queued _ Held _ _ x Ht' Hq'), (waiting_insert Queued j tj Sending _ Ended ts ps x Htj Hqj), Hw1.
        split; [|naive_solver]. intros Hx. right. split; [intros ->; by apply (Hni Queued)|]. right. split; [|done].
        intros ->. destruct Hx as (? & ? & ? & ?). congruence.
      * split; [done|]. intros x.
        rewrite (waiting_insert Sending i t Queued _ Held _ _ x Ht' Hq'), (waiting_insert Sending j tj Sending _ Ended ts ps x Htj Hqj), Hr.
        split; [|naive_solver]. intros [Hx Hxj]. right. split; [intros ->; by apply (Hni Sending)|]. by right.
Qed.

(** [seL4_Signal]. *)
Lemma inv_signal s ts v k ps i t : sem_inv s ts v k ps -> ts !! i = Some t -> ps !! i = Some Sending -> blocked t = false ->
  exists k' js ps', k_signal i k = (k', js) /\ sem_inv (with_object s k') (complete_all js (<[i := block t]> ts)) v k' ps'.
Proof.
  intros Hi Ht Hq Hb. pose proof (lookup_lt_Some _ _ _ Ht) as Hlt.
  destruct Hi as [Hcp Hva Hrange Hobj Hpos Hu Hs [Hnd1 Hw1] [Hnd2 Hw2] Hp1 Hp2 Hbin].
  pose proof (at_pos_lookup _ _ _ _ _ Hpos Ht Hq) as Hat. destruct (pos_send t Hat) as (kc & _ & Hblock & Hdone).
  assert (Hni : forall r, ~ waiting_at r ts ps i) by (intros r (z & Hz & Hzb & _); congruence).
  pose proof (total_ge owes_signal ps i Sending owes_nonneg Hq) as Howe. simpl in Howe.
  pose proof (total_nonneg holds_unit ps holds_nonneg).
  destruct (waiters k) as [|j r] eqn:Hwait.
  - destruct (is_endpoint k) eqn:Hep.
    + (* wait for a receiver *)
      destruct (signal_endpoint i k Hwait Hep) as (k' & E & Ew & Ep & Es & Ee).
      exists k', [], ps. split; [done|]. rewrite <- (list_insert_id ps i Sending) by done. cbn [complete_all foldr].
      constructor; simpl; rewrite ?Ew, ?Ep, ?Es, ?Ee; try done.
      * apply lookup_insert_eq.
      * by apply Forall2_insert.
      * by rewrite list_insert_id.
      * by rewrite list_insert_id.
      * split; [constructor|]. intros x. rewrite (waiting_insert Queued i t Sending _ Sending ts ps x Ht Hq), <- Hw1.
        naive_solver.
      * split.
        -- apply NoDup_app. split_and!; [done| |apply NoDup_singleton]. intros x Hx ->%list_elem_of_singleton.
           by apply (Hni Sending), Hw2.
        -- intros x. rewrite (waiting_insert Sending i t Sending _ Sending ts ps x Ht Hq), elem_of_app, list_elem_of_singleton, Hw2.
           simpl. split; [intros [Hx| ->]; [right; split; [intros ->; by apply (Hni Sending)|done]|by left]|naive_solver].
    + (* remember the signal *)
      destruct (signal_notification i k Hwait Hep) as (k' & E & Ew & Ep & Es & Ee).
      assert (Hpend : pending k = false).
      { destruct (pending k) eqn:Hpend; [|done]. specialize (Hbin eq_refl). simpl in Hs. lia. }
      exists k', [i], (<[i := Ended]> ps). split; [done|]. rewrite complete_one by done.
      constructor; simpl; rewrite ?Ew, ?Ep, ?Es, ?Ee; try done.
      * apply lookup_insert_eq.
      * by apply Forall2_insert.
      * rewrite !(total_insert _ _ _ _ _ Hq). simpl in *. lia.
      * rewrite !(total_insert _ _ _ _ _ Hq). rewrite Hpend in Hs. simpl in *. lia.
      * split; [constructor|]. intros x. rewrite (waiting_insert Queued i t Sending _ Ended ts ps x Ht Hq), <- Hw1. naive_solver.
      * split; [done|]. intros x. rewrite (waiting_insert Sending i t Sending _ Ended ts ps x Ht Hq), Hw2. naive_solver.
  - (* wake a thread *)
    destruct (signal_wakes i j r k Hwait) as (k' & E & Ew & Ep & Es & Ee).
    destruct (queue_head Queued _ ts ps j r Hnd1 Hw1 eq_refl) as (Hndr & (tj & Htj & Hbj & Hqj) & Hr).
    assert (Hpend : pending k = false) by (destruct (pending k); [by destruct (Hp1 eq_refl)|done]).
    assert (Hsend : senders k = []) by (destruct (senders k); [done|by destruct Hp2]).
    assert (Hij : i <> j) by congruence.
    exists k', [i; j], (<[i := Ended]> (<[j := Held]> ps)). split; [done|]. rewrite (complete_two i j _ tj) by done.
    assert (Ht' : <[j := complete tj]> ts !! i = Some t) by (by rewrite list_lookup_insert_ne).
    assert (Hq' : <[j := Held]> ps !! i = Some Sending) by (by rewrite list_lookup_insert_ne).
    constructor; simpl; rewrite ?Ew, ?Ep, ?Es, ?Ee, ?Hpend, ?Hsend; try done.
    + apply lookup_insert_eq.
    + apply Forall2_insert; [|done]. apply Forall2_insert; [done|]. apply complete_queued; [|done].
      by eapply at_pos_lookup.
    + rewrite !(total_insert _ _ _ _ _ Hq'), !(total_insert _ _ _ _ _ Hqj). simpl in *. lia.
    + rewrite !(total_insert _ _ _ _ _ Hq'), !(total_insert _ _ _ _ _ Hqj). rewrite Hpend in Hs. simpl in *. lia.
    + split; [done|]. intros x.
      rewrite (waiting_insert Queued i t Sending _ Ended _ _ x Ht' Hq'), (waiting_insert Queued j tj Queued _ Held ts ps x Htj Hqj), Hr.
      split; [|naive_solver]. intros [Hx Hxj]. right. split; [intros ->; by apply (Hni Queued)|]. by right.
    + rewrite Hsend in Hw2. split; [constructor|]. intros x.
      rewrite (waiting_insert Sending i t Sending _ Ended _ _ x Ht' Hq'), (waiting_insert Sending j tj Queued _ Held ts ps x Htj Hqj), <- Hw2.
      set_solver.
Qed.

(** Every step keeps the invariant. *)
Lemma inv_step s ts v k ps i ch cfg' : sem_inv s ts v k ps -> step i ch (Config s ts) = Some cfg' ->
  exists v' k' ps', sem_inv (state cfg') (threads cfg') v' k' ps'.
Proof.
  intros Hi Hstep. pose proof (inv_value _ _ _ _ _ Hi) as [Hv Hcells].
  destruct (ts !! i) as [t|] eqn:Ht; [|unfold SyncRun.step in Hstep; cbn in Hstep; by rewrite Ht in Hstep].
  destruct (Forall2_lookup_l _ _ _ _ _ (s_pos _ _ _ _ _ Hi) Ht) as (q & Hq & Hat).
  destruct (blocked t) eqn:Hb; [unfold SyncRun.step in Hstep; cbn in Hstep; by rewrite Ht, Hb in Hstep|].
  assert (Hcase : q = Queued \/ q = Sending \/ (q <> Queued /\ q <> Sending)) by (destruct q; auto 6).
  destruct Hcase as [->|[->|[Hq1 Hq2]]].
  - destruct (pos_wait t Hat) as (kc & Hact & _). unfold SyncRun.step in Hstep. cbn in Hstep.
    rewrite Ht, Hb, Hact in Hstep. destruct ch; [|done..]. unfold run_thread, kernel_call in Hstep. cbn in Hstep.
    rewrite (s_object _ _ _ _ _ Hi) in Hstep.
    destruct (inv_wait s ts v k ps i t Hi Ht Hq Hb) as (k' & js & ps' & E & Hi'). rewrite E in Hstep.
    injection Hstep as <-. by exists v, k', ps'.
  - destruct (pos_send t Hat) as (kc & Hact & _). unfold SyncRun.step in Hstep. cbn in Hstep.
    rewrite Ht, Hb, Hact in Hstep. destruct ch; [|done..]. unfold run_thread, kernel_call in Hstep. cbn in Hstep.
    rewrite (s_object _ _ _ _ _ Hi) in Hstep.
    destruct (inv_signal s ts v k ps i t Hi Ht Hq Hb) as (k' & js & ps' & E & Hi'). rewrite E in Hstep.
    injection Hstep as <-. by exists v, k', ps'.
  - assert (Hrel : q = Releasing -> v < v0).
    { intros ->. pose proof (s_units _ _ _ _ _ Hi). pose proof (total_nonneg wants_unit ps wants_nonneg).
      pose proof (total_ge holds_unit ps i Releasing holds_nonneg Hq). simpl in *. lia. }
    destruct (pos_step i ch s ts t q v cfg' Hat Hq1 Hq2 Hb Ht Hcells Hrel Hstep)
      as (s' & t' & q' & v' & -> & Hb' & Hat' & Hmove & Hc & Hv' & Ho).
    exists v', k, (<[i := q']> ps). by eapply (inv_move s s' ts v v' k ps i t t' q q').
Qed.

(** A state in which the semaphore is new: it has its units, and its kernel
    object has seen no call. *)
Record fresh_semaphore (s : shared K W) : Prop := {
  f_cptr : cells s !! cptr_cell = Some c;
  f_value : cells s !! value_cell = Some v0;
  f_object : exists k, objects s !! c = Some k /\ pending k = false /\ waiters k = [] /\ senders k = [] /\
    (is_endpoint k = false -> v0 = 1)
}.

Lemma start_inv s n : 0 <= v0 -> fresh_semaphore s -> exists k, sem_inv s (threads (start s n)) v0 k (replicate n Idle).
Proof.
  intros H0 [Hc Hv (k & Ho & Hp & Hw & Hs & Hb)]. exists k. unfold start. cbn [threads].
  assert (Hz : forall f, f Idle = 0 -> total f (replicate n Idle) = 0).
  { intros f Hf. apply total_zero. intros i a [-> _]%lookup_replicate. done. }
  assert (Hno : forall r i, ~ waiting_at r (replicate n (Thread 0 Resting false)) (replicate n Idle) i).
  { intros r i (t & [-> _]%lookup_replicate & Hbl & _). done. }
  constructor; rewrite ?Hp, ?Hw, ?Hs, ?Hz by done; try done.
  all: try (unfold INT_MIN; cbn [b2z]; lia).
  - apply Forall2_replicate. apply pos_idle.
  - split; [constructor|]. intros i. split; [set_solver|]. by intros ?%Hno.
  - split; [constructor|]. intros i. split; [set_solver|]. by intros ?%Hno.
Qed.

Lemma reachable_inv s n cfg : 0 <= v0 -> fresh_semaphore s -> reachable entries exit false buffer (start s n) cfg ->
  exists v k ps, sem_inv (state cfg) (threads cfg) v k ps.
Proof.
  intros H0 Hf. induction 1 as [|cfg i ch cfg' _ IH Hstep].
  - destruct (start_inv s n H0 Hf) as [k Hi]. eauto.
  - destruct IH as (v & k & ps & Hi). destruct cfg as [s1 ts1]. by eapply inv_step.
Qed.

(** No thread faults, and no more threads are inside than there are units. *)
Lemma protocol_safe s n cfg : 0 <= v0 -> fresh_semaphore s -> reachable entries exit false buffer (start s n) cfg ->
  (forall i t, threads cfg !! i = Some t -> faulted t = false) /\
  total (fun t => b2z (inside t)) (threads cfg) <= v0.
Proof.
  intros H0 Hf Hr. destruct (reachable_inv s n cfg H0 Hf Hr) as (v & k & ps & Hi). split.
  - intros i t Ht. destruct (Forall2_lookup_l _ _ _ _ _ (s_pos _ _ _ _ _ Hi) Ht) as (q & _ & Hat). by eapply pos_fault.
  - assert (Hle : total (fun t => b2z (inside t)) (threads cfg) <= total holds_unit ps).
    { eapply total_le; [apply (s_pos _ _ _ _ _ Hi)|]. intros t q Hat. destruct (inside t) eqn:Hin; simpl.
      - by rewrite (pos_inside t q Hat Hin).
      - apply holds_nonneg. }
    pose proof (s_units _ _ _ _ _ Hi). pose proof (s_signals _ _ _ _ _ Hi).
    pose proof (total_nonneg owes_signal ps owes_nonneg). destruct (pending k); simpl in *; lia.
Qed.

(** No wake-up is lost: while a thread is blocked, some thread can go on with
    what it is doing, without a new thread having to come. *)
Lemma protocol_progress s n cfg i t : 0 < v0 -> fresh_semaphore s -> reachable entries exit false buffer (start s n) cfg ->
  threads cfg !! i = Some t -> blocked t = true ->
  exists j ch cfg', step j ch cfg = Some cfg' /\ forall m, ch <> Enter m.
Proof.
  intros H0 Hf Hr Ht Hb. destruct (reachable_inv s n cfg ltac:(lia) Hf Hr) as (v & k & ps & Hi).
  pose proof (inv_value _ _ _ _ _ Hi) as [Hv Hcells]. destruct cfg as [s1 ts]. cbn [state threads] in *.
  (* otherwise every thread is idle or blocked *)
  destruct (decide (Exists (fun tq : thread * pos => tq.2 <> Idle /\ blocked tq.1 = false) (zip ts ps))) as [Hex|Hno].
  { apply Exists_exists in Hex as ([t' q'] & Hin & Hne & Hb'). apply list_elem_of_lookup in Hin as [j Hj].
    apply lookup_zip_with_Some in Hj as (t1 & q1 & [= <- <-] & Htj & Hqj). cbn in *.
    pose proof (at_pos_lookup _ _ _ _ _ (s_pos _ _ _ _ _ Hi) Htj Hqj) as Hat.
    destruct (pos_progress j s1 ts t' q' v Hat Hne Hb' Htj Hcells) as (ch & cfg' & Hs & Hch);
      [by rewrite (s_object _ _ _ _ _ Hi)|]. by exists j, ch, cfg'. }
  exfalso.
  assert (Hall : forall j q, ps !! j = Some q -> q = Idle \/
    (q = Queued /\ j ∈ waiters k) \/ (q = Sending /\ j ∈ senders k)).
  { intros j q Hq. destruct (Forall2_lookup_r _ _ _ _ _ (s_pos _ _ _ _ _ Hi) Hq) as (t' & Ht' & Hat).
    destruct (decide (q = Idle)) as [|Hne]; [by left|right]. destruct (blocked t') eqn:Hb'.
    - destruct (pos_blocked _ _ Hat Hb') as [->| ->]; [left|right]; (split; [done|]).
      + apply (s_waiters _ _ _ _ _ Hi). by exists t'.
      + apply (s_senders _ _ _ _ _ Hi). by exists t'.
    - destruct Hno. apply Exists_exists. exists (t', q). split; [|done]. apply list_elem_of_lookup. exists j.
      apply lookup_zip_with_Some. by exists t', q. }
  pose proof (s_units _ _ _ _ _ Hi) as Hu. pose proof (s_signals _ _ _ _ _ Hi) as Hsg.
  destruct (senders k) as [|j0 r0] eqn:Hsend.
  - assert (Howe : total owes_signal ps = 0).
    { apply total_zero. intros j q Hq. destruct (Hall j q Hq) as [->|[[-> _]|[_ Hin]]]; [done|done|set_solver]. }
    assert (Hhold : total holds_unit ps = 0).
    { apply total_zero. intros j q Hq. by destruct (Hall j q Hq) as [->|[[-> _]|[-> _]]]. }
    destruct (Forall2_lookup_l _ _ _ _ _ (s_pos _ _ _ _ _ Hi) Ht) as (q & Hq & Hat).
    destruct (pos_blocked _ _ Hat Hb) as [->| ->].
    + assert (Hin : i ∈ waiters k) by (apply (s_waiters _ _ _ _ _ Hi); by exists t).
      assert (Hp : pending k = false).
      { destruct (pending k) eqn:Hp; [|done]. destruct (s_pending _ _ _ _ _ Hi Hp) as [_ Hw]. rewrite Hw in Hin. set_solver. }
      pose proof (total_ge wants_unit ps i Queued wants_nonneg Hq). rewrite Hp in Hsg. simpl in *. lia.
    + assert (Hin : i ∈ senders k) by (apply (s_senders _ _ _ _ _ Hi); by exists t). rewrite Hsend in Hin. set_solver.
  - destruct (s_sending _ _ _ _ _ Hi) as [Hep Hw]; [by rewrite Hsend|].
    assert (Hwant : total wants_unit ps = 0).
    { apply total_zero. intros j q Hq. destruct (Hall j q Hq) as [->|[[-> Hin]|[-> _]]]; [done| |done].
      rewrite Hw in Hin. set_solver. }
    assert (Hj : waiting_at Sending ts ps j0) by (apply (s_senders _ _ _ _ _ Hi); rewrite Hsend; left).
    destruct Hj as (_ & _ & _ & Hqj). pose proof (total_ge owes_signal ps j0 Sending owes_nonneg Hqj).
    destruct (pending k); simpl in *; lia.
Qed.

End protocol.
