(* ===== verification/SyncSem.v ===== *)
(** The semaphores and mutexes of libsel4sync are correct: mutual exclusion and
    progress of the binary semaphore (bin_sem.h), which is also the mutex
    (mutex.h), and of the counting semaphore (sem.h), for any number of threads
    and any interleaving. *)
From S2P Require Import Prelude Cspacepath Interfaces Objects Vka Sync SyncRun SyncTokens.

(** Taking a step of a thread whose code is known. *)
Ltac compute_step Hstep Ht :=
  unfold SyncRun.step in Hstep; cbn [threads state] in Hstep; rewrite Ht in Hstep; cbn in Hstep.

(** The outcome of a step, at a position of the protocol. *)
Ltac moved H := split_and!; [reflexivity|reflexivity|apply H|constructor|done|done|done].

Section binary.
Context {K W : Type} `{!KernelObject K, !Atomics}.
Context (sem c v0 : Z) (Hsem : sem <> 0) (Hv0 : v0 <= 1) (buffer : nat -> Z).
Local Abbreviation code := (code W Z).
Local Abbreviation thread := (thread W).

(** The code of a post after its increment to [val], and of its end. *)
Definition post_check (val : Z) : code :=
  let^ now := load (sem_value sem) in
  let^ _ := check (now <=? 1) in
  let^ _ := (if val <=? 0 then seL4_Signal c else Ret tt) in
  Ret 0.

Inductive bin_at : thread -> pos -> Prop :=
  | bin_idle : bin_at (Thread 0 Resting false) Idle
  | bin_try0 : bin_at (Thread 0 (Entering (sync_bin_sem_wait sem)) false) Trying
  | bin_try1 : bin_at (Thread 0 (Entering (sync_bin_sem_bare_wait c (sem_value sem))) false) Trying
  | bin_queued b : bin_at (Thread 0 (Entering (Sys (Wait c) (Ret 0))) b) Queued
  | bin_got : bin_at (Thread 0 (Entering (Ret 0)) false) Held
  | bin_failed : bin_at (Thread 0 (Entering (Ret (-1))) false) Ended
  | bin_held : bin_at (Thread 1 Resting false) Held
  | bin_post0 : bin_at (Thread 1 (Leaving (sync_bin_sem_post sem)) false) Releasing
  | bin_post1 : bin_at (Thread 1 (Leaving (sync_bin_sem_bare_post c (sem_value sem))) false) Releasing
  | bin_check v : bin_at (Thread 1 (Leaving (post_check v)) false) (Checking v)
  | bin_send b : bin_at (Thread 1 (Leaving (Sys (Signal c) (Ret 0))) b) Sending
  | bin_done : bin_at (Thread 1 (Leaving (Ret 0)) false) Ended.

Local Abbreviation entries := [sync_bin_sem_wait sem : code].
Local Abbreviation exit := (sync_bin_sem_post sem : code).

Lemma wait_unfold : sync_bin_sem_wait sem =
  (let^ k := load (o_cptr sem) in sync_bin_sem_bare_wait k (sem_value sem) : code).
Proof. unfold sync_bin_sem_wait. by rewrite (proj2 (Z.eqb_neq sem 0) Hsem). Qed.
Lemma post_unfold : sync_bin_sem_post sem =
  (let^ k := load (o_cptr sem) in sync_bin_sem_bare_post k (sem_value sem) : code).
Proof. unfold sync_bin_sem_post. by rewrite (proj2 (Z.eqb_neq sem 0) Hsem). Qed.

Lemma bin_step i ch s ts t q v cfg' : bin_at t q -> q <> Queued -> q <> Sending -> blocked t = false ->
  ts !! i = Some t -> cells_ok (K := K) (o_cptr sem) (sem_value sem) c v0 v s -> (q = Releasing -> v < v0) ->
  step entries exit false buffer i ch (Config s ts) = Some cfg' ->
  exists s' t' q' v', cfg' = Config s' (<[i := t']> ts) /\ blocked t' = false /\ bin_at t' q' /\ move v q v' q' /\
    cells s' !! o_cptr sem = Some c /\ cells s' !! sem_value sem = Some v' /\ objects s' = objects s.
Proof.
  intros Hat Hq1 Hq2 Hb Ht (Hc & Hv & Hr) Hrel Hstep.
  assert (Hne : sem_value sem <> o_cptr sem) by (unfold sem_value, o_cptr; lia).
  destruct Hat as [| | |b| | | | | |x|b|]; try done; compute_step Hstep Ht.
  - (* start a wait *)
    destruct ch as [|[|n]|]; try done. injection Hstep as <-.
    exists s. do 2 eexists. exists v. moved bin_try0.
  - (* the capability *)
    destruct ch as [sp| |]; try done. rewrite wait_unfold in Hstep. cbn in Hstep. unfold read_cell in Hstep.
    rewrite Hc in Hstep. injection Hstep as <-.
    exists s. do 2 eexists. exists v. moved bin_try1.
  - (* the decrement *)
    destruct ch as [sp| |]; try done. cbn in Hstep. unfold read_cell in Hstep. rewrite Hv in Hstep. cbn in Hstep.
    destruct (decide (v = INT_MIN)) as [->|Hmin].
    + rewrite decrement_min in Hstep. injection Hstep as <-.
      exists s. do 2 eexists. exists INT_MIN. moved bin_failed.
    + rewrite decrement_law in Hstep by (unfold INT_MAX; lia). injection Hstep as <-.
      do 2 eexists. exists (if v <=? 0 then Queued else Held), (v - 1). split_and!; [done|done| |constructor; lia| | |done].
      * cbn. destruct (v <=? 0); [apply bin_queued|apply bin_got].
      * cbn. by rewrite lookup_insert_ne.
      * cbn. apply lookup_insert_eq.
  - (* return with a unit *)
    destruct ch as [sp| |]; try done. injection Hstep as <-.
    exists s. do 2 eexists. exists v. moved bin_held.
  - (* return without one *)
    destruct ch as [sp| |]; try done. injection Hstep as <-.
    exists s. do 2 eexists. exists v. moved bin_idle.
  - (* start a post *)
    destruct ch as [|n|]; try done. injection Hstep as <-.
    exists s. do 2 eexists. exists v. moved bin_post0.
  - (* the capability *)
    destruct ch as [sp| |]; try done. rewrite post_unfold in Hstep. cbn in Hstep. unfold read_cell in Hstep.
    rewrite Hc in Hstep. injection Hstep as <-.
    exists s. do 2 eexists. exists v. moved bin_post1.
  - (* the increment *)
    destruct ch as [sp| |]; try done. cbn in Hstep. unfold read_cell in Hstep. rewrite Hv in Hstep. cbn in Hstep.
    specialize (Hrel eq_refl). rewrite increment_law in Hstep by (unfold INT_MAX; lia). injection Hstep as <-.
    do 4 eexists. split_and!; [done| |apply bin_check|constructor| | |done]; cbn; [done|by rewrite lookup_insert_ne|].
    apply lookup_insert_eq.
  - (* the assertion *)
    destruct ch as [sp| |]; try done. cbn in Hstep. unfold read_cell in Hstep. rewrite Hv in Hstep.
    injection Hstep as <-. exists s. do 2 eexists. exists v. split_and!; [done| | |apply move_check|done|done|done]; [done|].
    cbn. rewrite (proj2 (Z.leb_le v 1)) by lia. destruct (x <=? 0); [apply bin_send|apply bin_done].
  - (* return *)
    destruct ch as [sp| |]; try done. injection Hstep as <-.
    exists s. do 2 eexists. exists v. moved bin_idle.
Qed.

(** Every thread that is not idle or blocked has a step. *)
Lemma bin_progress i s ts t q v : bin_at t q -> q <> Idle -> blocked t = false -> ts !! i = Some t ->
  cells_ok (K := K) (o_cptr sem) (sem_value sem) c v0 v s -> is_Some (objects s !! c) ->
  exists ch cfg', step entries exit false buffer i ch (Config s ts) = Some cfg' /\ forall n, ch <> Enter n.
Proof.
  intros Hat Hq Hb Ht (Hc & Hv & _) [k Hk].
  unfold step. cbn [threads state]. rewrite Ht, Hb. destruct Hat; try done; cbn.
  all: try (exists Exit; by eexists).
  all: exists (Go false); rewrite ?wait_unfold, ?post_unfold; cbn; unfold read_cell, kernel_call; cbn; rewrite ?Hc, ?Hv, ?Hk; cbn.
  all: try (by eexists).
  - destruct (decrement_safe v); by eexists.
  - destruct (k_wait i k). by eexists.
  - destruct (k_signal i k). by eexists.
Qed.

#[export] Instance bin_protocol : Protocol (K := K) entries exit buffer (o_cptr sem) (sem_value sem) c v0 bin_at.
Proof.
  constructor.
  - constructor.
  - intros t q Hat. destruct Hat; auto; done.
  - intros t q Hat. destruct Hat; try done; cbn; rewrite ?wait_unfold, ?post_unfold; done.
  - intros t q Hat. by destruct Hat.
  - intros t Hat. inversion Hat; subst. eexists. split; [done|]. split; constructor.
  - intros t Hat. inversion Hat; subst. eexists. split; [done|]. split; constructor.
  - apply bin_step.
  - apply bin_progress.
Qed.

End binary.

Section counting.
Context {K W : Type} `{!KernelObject K, !Atomics}.
Context (sem c v0 : Z) (Hsem : 0 < sem) (Hv0 : v0 <= INT_MAX) (buffer : nat -> Z).
Local Abbreviation code := (code W Z).
Local Abbreviation thread := (thread W).

(** The end of a post, and of a round of the loop of [trywait]. *)
Definition post_increment : code :=
  let^ v := atomic_increment (sem_value sem) in
  let^ _ := (if v <=? 0 then seL4_Signal c else Ret tt) in
  Ret 0.

Definition next_round (r : Z + Z) : code :=
  match r with inl val => Iter (trywait_round (sem_value sem)) val Ret | inr b => Ret b end.

Definition reload : code := Do (Load (sem_value sem)) (fun val => next_round (inl val)).

Definition swap (val : Z) : code :=
  cbind (let^ swapped := Do (CompareExchangeWeak (sem_value sem) val (val - 1)) Ret in
         if swapped : bool then Ret (inr 0)
         else
           let^ val := load (sem_value sem) in
           Ret (inl val)) next_round.

Inductive sem_at : thread -> pos -> Prop :=
  | sem_idle : sem_at (Thread 0 Resting false) Idle
  | sem_try0 : sem_at (Thread 0 (Entering (sync_sem_wait sem)) false) Trying
  | sem_try1 : sem_at (Thread 0 (Entering (sync_sem_bare_wait c (sem_value sem))) false) Trying
  | sem_trywait0 : sem_at (Thread 0 (Entering (sync_sem_trywait sem)) false) Trying
  | sem_trywait1 : sem_at (Thread 0 (Entering (sync_sem_bare_trywait c (sem_value sem))) false) Trying
  | sem_round val : sem_at (Thread 0 (Entering (next_round (inl val))) false) Trying
  | sem_reload : sem_at (Thread 0 (Entering reload) false) Trying
  | sem_swap val : val > 0 -> sem_at (Thread 0 (Entering (swap val)) false) Trying
  | sem_queued b : sem_at (Thread 0 (Entering (Sys (Wait c) (Ret 0))) b) Queued
  | sem_got : sem_at (Thread 0 (Entering (Ret 0)) false) Held
  | sem_failed : sem_at (Thread 0 (Entering (Ret (-1))) false) Ended
  | sem_held : sem_at (Thread 1 Resting false) Held
  | sem_post0 : sem_at (Thread 1 (Leaving (sync_sem_post sem)) false) Releasing
  | sem_post1 : sem_at (Thread 1 (Leaving (sync_sem_bare_post c (sem_value sem))) false) Releasing
  | sem_post2 : sem_at (Thread 1 (Leaving post_increment) false) Releasing
  | sem_send b : sem_at (Thread 1 (Leaving (Sys (Signal c) (Ret 0))) b) Sending
  | sem_done : sem_at (Thread 1 (Leaving (Ret 0)) false) Ended.

Local Abbreviation entries := [sync_sem_wait sem : code; sync_sem_trywait sem : code].
Local Abbreviation exit := (sync_sem_post sem : code).

Lemma sem_not_null : (sem =? 0) = false /\ (sem_value sem =? 0) = false.
Proof. unfold sem_value. split; apply Z.eqb_neq; lia. Qed.

Lemma sem_wait_unfold : sync_sem_wait sem = (let^ k := load (o_cptr sem) in sync_sem_bare_wait k (sem_value sem) : code).
Proof. unfold sync_sem_wait. by rewrite (proj1 sem_not_null). Qed.
Lemma sem_trywait_unfold : sync_sem_trywait sem = (let^ k := load (o_cptr sem) in sync_sem_bare_trywait k (sem_value sem) : code).
Proof. unfold sync_sem_trywait. by rewrite (proj1 sem_not_null). Qed.
Lemma sem_post_unfold : sync_sem_post sem = (let^ k := load (o_cptr sem) in sync_sem_bare_post k (sem_value sem) : code).
Proof. unfold sync_sem_post. by rewrite (proj1 sem_not_null). Qed.

Lemma bare_wait_unfold : sync_sem_bare_wait c (sem_value sem) = (sync_bin_sem_bare_wait c (sem_value sem) : code).
Proof. unfold sync_sem_bare_wait, sync_bin_sem_bare_wait. by rewrite (proj2 sem_not_null). Qed.
Lemma bare_post_unfold : sync_sem_bare_post c (sem_value sem) =
  (let^ now := load (sem_value sem) in let^ _ := check (now <? INT_MAX) in post_increment : code).
Proof. unfold sync_sem_bare_post. by rewrite (proj2 sem_not_null). Qed.

Lemma round_unfold val : cbind (trywait_round (sem_value sem) val) next_round = (if val >? 0 then swap val else Ret (-1)).
Proof.
  unfold trywait_round. by destruct (val >? 0).
Qed.

Lemma sem_step i ch s ts t q v cfg' : sem_at t q -> q <> Queued -> q <> Sending -> blocked t = false ->
  ts !! i = Some t -> cells_ok (K := K) (o_cptr sem) (sem_value sem) c v0 v s -> (q = Releasing -> v < v0) ->
  step entries exit false buffer i ch (Config s ts) = Some cfg' ->
  exists s' t' q' v', cfg' = Config s' (<[i := t']> ts) /\ blocked t' = false /\ sem_at t' q' /\ move v q v' q' /\
    cells s' !! o_cptr sem = Some c /\ cells s' !! sem_value sem = Some v' /\ objects s' = objects s.
Proof.
  intros Hat Hq1 Hq2 Hb Ht (Hc & Hv & Hr) Hrel Hstep.
  assert (Hne : sem_value sem <> o_cptr sem) by (unfold sem_value, o_cptr; lia).
  destruct Hat as [| | | | |x| |x Hx|b| | | | | | |b|]; try done; compute_step Hstep Ht.
  - (* start *)
    destruct ch as [|[|[|n]]|]; try done; injection Hstep as <-.
    + exists s. do 2 eexists. exists v. moved sem_try0.
    + exists s. do 2 eexists. exists v. moved sem_trywait0.
  - destruct ch as [sp| |]; try done. rewrite sem_wait_unfold in Hstep. cbn in Hstep. unfold read_cell in Hstep.
    rewrite Hc in Hstep. injection Hstep as <-. exists s. do 2 eexists. exists v. moved sem_try1.
  - (* the decrement *)
    destruct ch as [sp| |]; try done. rewrite bare_wait_unfold in Hstep. cbn in Hstep. unfold read_cell in Hstep.
    rewrite Hv in Hstep. cbn in Hstep. destruct (decide (v = INT_MIN)) as [->|Hmin].
    + rewrite decrement_min in Hstep. injection Hstep as <-.
      exists s. do 2 eexists. exists INT_MIN. moved sem_failed.
    + rewrite decrement_law in Hstep by (unfold INT_MAX in *; lia). injection Hstep as <-.
      do 2 eexists. exists (if v <=? 0 then Queued else Held), (v - 1). split_and!; [done|done| |constructor; lia| | |done].
      * cbn. destruct (v <=? 0); [apply sem_queued|apply sem_got].
      * cbn. by rewrite lookup_insert_ne.
      * cbn. apply lookup_insert_eq.
  - destruct ch as [sp| |]; try done. rewrite sem_trywait_unfold in Hstep. cbn in Hstep. unfold read_cell in Hstep.
    rewrite Hc in Hstep. injection Hstep as <-. exists s. do 2 eexists. exists v. moved sem_trywait1.
  - destruct ch as [sp| |]; try done. cbn in Hstep. unfold read_cell in Hstep.
    rewrite Hv in Hstep. injection Hstep as <-. exists s. do 2 eexists. exists v. moved sem_round.
  - (* a round of the loop *)
    destruct ch as [sp| |]; try done. unfold run_thread in Hstep. cbn [result at_call next_round] in Hstep. cbn [exec] in Hstep.
    change (fun r => match r with inl x => Iter (trywait_round (sem_value sem)) x Ret | inr b => Ret b end)
      with next_round in Hstep.
    rewrite round_unfold in Hstep. injection Hstep as <-. destruct (Z.gtb_spec x 0).
    + exists s. do 2 eexists. exists v. split_and!; [reflexivity|reflexivity|apply sem_swap; lia|constructor|done|done|done].
    + exists s. do 2 eexists. exists v. moved sem_failed.
  - destruct ch as [sp| |]; try done. cbn in Hstep. unfold read_cell in Hstep.
    rewrite Hv in Hstep. injection Hstep as <-. exists s. do 2 eexists. exists v. moved sem_round.
  - (* the exchange *)
    destruct ch as [sp| |]; try done. cbn in Hstep. unfold read_cell in Hstep. rewrite Hv in Hstep. cbn in Hstep.
    destruct ((v =? x) && negb sp) eqn:Hcas; injection Hstep as <-.
    + apply andb_true_iff in Hcas as [->%Z.eqb_eq _]. do 2 eexists. exists Held, (x - 1).
      split_and!; [reflexivity|reflexivity|apply sem_got| |cbn; by rewrite lookup_insert_ne|cbn; apply lookup_insert_eq|done].
      replace Held with (if x <=? 0 then Queued else Held) by (by rewrite (proj2 (Z.leb_gt x 0)) by lia).
      constructor. unfold INT_MIN. lia.
    + exists s. do 2 eexists. exists v. moved sem_reload.
  - destruct ch as [sp| |]; try done. injection Hstep as <-. exists s. do 2 eexists. exists v. moved sem_held.
  - destruct ch as [sp| |]; try done. injection Hstep as <-. exists s. do 2 eexists. exists v. moved sem_idle.
  - destruct ch as [|n|]; try done. injection Hstep as <-. exists s. do 2 eexists. exists v. moved sem_post0.
  - destruct ch as [sp| |]; try done. rewrite sem_post_unfold in Hstep. cbn in Hstep. unfold read_cell in Hstep.
    rewrite Hc in Hstep. injection Hstep as <-. exists s. do 2 eexists. exists v. moved sem_post1.
  - (* the assertion *)
    destruct ch as [sp| |]; try done. rewrite bare_post_unfold in Hstep. cbn in Hstep. unfold read_cell in Hstep.
    rewrite Hv in Hstep. cbn in Hstep. specialize (Hrel eq_refl). rewrite (proj2 (Z.ltb_lt v INT_MAX)) in Hstep by lia.
    injection Hstep as <-. exists s. do 2 eexists. exists v. moved sem_post2.
  - (* the increment *)
    destruct ch as [sp| |]; try done. cbn in Hstep. unfold read_cell in Hstep. rewrite Hv in Hstep. cbn in Hstep.
    specialize (Hrel eq_refl). rewrite increment_law in Hstep by (unfold INT_MAX in *; lia). injection Hstep as <-.
    do 2 eexists. exists (if v + 1 <=? 0 then Sending else Ended), (v + 1).
    split_and!; [done|done| |constructor|cbn; by rewrite lookup_insert_ne|cbn; apply lookup_insert_eq|done].
    cbn. destruct (v + 1 <=? 0); [apply sem_send|apply sem_done].
  - destruct ch as [sp| |]; try done. injection Hstep as <-. exists s. do 2 eexists. exists v. moved sem_idle.
Qed.

Lemma sem_progress i s ts t q v : sem_at t q -> q <> Idle -> blocked t = false -> ts !! i = Some t ->
  cells_ok (K := K) (o_cptr sem) (sem_value sem) c v0 v s -> is_Some (objects s !! c) ->
  exists ch cfg', step entries exit false buffer i ch (Config s ts) = Some cfg' /\ forall n, ch <> Enter n.
Proof.
  intros Hat Hq Hb Ht (Hc & Hv & _) [k Hk].
  unfold step. cbn [threads state]. rewrite Ht, Hb. destruct Hat; try done; cbn.
  all: try (exists Exit; by eexists).
  all: exists (Go false); rewrite ?sem_wait_unfold, ?sem_trywait_unfold, ?sem_post_unfold, ?bare_wait_unfold, ?bare_post_unfold;
    cbn; unfold read_cell, kernel_call; cbn; rewrite ?Hc, ?Hv, ?Hk; cbn.
  all: try (by eexists).
  - destruct (decrement_safe v); by eexists.
  - destruct (_ && _); by eexists.
  - destruct (k_wait i k). by eexists.
  - destruct (k_signal i k). by eexists.
Qed.

#[export] Instance sem_protocol : Protocol (K := K) entries exit buffer (o_cptr sem) (sem_value sem) c v0 sem_at.
Proof.
  constructor.
  - constructor.
  - intros t q Hat. destruct Hat; auto; done.
  - intros t q Hat. destruct Hat; try done; cbn;
      rewrite ?sem_wait_unfold, ?sem_trywait_unfold, ?sem_post_unfold, ?bare_wait_unfold, ?bare_post_unfold; done.
  - intros t q Hat. by destruct Hat.
  - intros t Hat. inversion Hat; subst. eexists. split; [done|]. split; constructor.
  - intros t Hat. inversion Hat; subst. eexists. split; [done|]. split; constructor.
  - apply sem_step.
  - apply sem_progress.
Qed.

End counting.

(** ** Mutexes and binary semaphores *)

Section results.
Context {K W : Type} `{!KernelObject K, !Atomics}.
Local Abbreviation shared := (shared K W).
Context (buffer : nat -> Z) (self : Z).

(** A store that went ahead. *)
Lemma read_cell_ok p (s : shared) v : read_cell p s = Ok v -> cells s !! p = Some v.
Proof. unfold read_cell. destruct (cells s !! p); congruence. Qed.

Lemma bin_init_ok sem c v (s0 s : shared) : alone 10 self (sync_bin_sem_init sem c v) s0 = Ok (0, s) ->
  sem <> 0 /\ (v = 0 \/ v = 1) /\ cells s !! o_cptr sem = Some c /\ cells s !! sem_value sem = Some v /\ objects s = objects s0.
Proof.
  unfold sync_bin_sem_init. destruct (Z.eqb_spec sem 0) as [|Hsem]; [intros; by inv_res|].
  destruct (negb (v =? 0) && negb (v =? 1)) eqn:Hv; [intros; by inv_res|].
  assert (Hne : sem_value sem <> o_cptr sem) by (unfold sem_value, o_cptr; lia).
  cbn. intros Hrun. inv_res. split_and!; try done.
  - apply andb_false_iff in Hv as [Hv|Hv]; apply negb_false_iff, Z.eqb_eq in Hv; auto.
  - rewrite lookup_insert_ne by done. apply lookup_insert_eq.
  - apply lookup_insert_eq.
Qed.

Lemma sem_init_ok sem c v (s0 s : shared) : alone 10 self (sync_sem_init sem c v) s0 = Ok (0, s) ->
  sem <> 0 /\ cells s !! o_cptr sem = Some c /\ cells s !! sem_value sem = Some v /\ objects s = objects s0.
Proof.
  unfold sync_sem_init. destruct (Z.eqb_spec sem 0) as [|Hsem]; [intros; by inv_res|].
  assert (Hne : sem_value sem <> o_cptr sem) by (unfold sem_value, o_cptr; lia).
  cbn. intros Hrun. inv_res. split_and!; try done.
  - rewrite lookup_insert_ne by done. apply lookup_insert_eq.
  - apply lookup_insert_eq.
Qed.

Lemma two_inside (ts : list (thread W)) i j ti tj : total (fun t => b2z (inside t)) ts <= 1 ->
  ts !! i = Some ti -> ts !! j = Some tj -> inside ti = true -> inside tj = true -> i = j.
Proof.
  intros Hle Hi Hj Hti Htj. destruct (decide (i = j)) as [|Hne]; [done|exfalso].
  set (f := fun t : thread W => b2z (inside t)) in *.
  assert (Hf : forall t, 0 <= f t) by (intros t; unfold f; destruct (inside t); simpl; lia).
  set (o := Thread 0 Resting false : thread W).
  pose proof (total_insert f ts i ti o Hi) as H1.
  pose proof (total_ge f (<[i := o]> ts) j tj Hf) as H2. rewrite list_lookup_insert_ne in H2 by done. specialize (H2 Hj).
  unfold f in *. rewrite Hti, Htj in *. simpl in *. lia.
Qed.

(** C3: A mutex that [sync_mutex_init] has set up excludes: whatever number of
    threads lock and unlock it, in whatever order their accesses happen, at
    most one is inside, and no assertion of the code fails. *)
Theorem mutex_exclusion (mutex c : Z) (s0 s : shared) (n : nat) (cfg : config K W) :
  alone 10 self (sync_mutex_init mutex c) s0 = Ok (0, s) ->
  (exists k, objects s0 !! c = Some k /\ unused k /\ is_endpoint k = false) ->
  reachable [sync_mutex_lock mutex] (sync_mutex_unlock mutex) false buffer (start s n) cfg ->
  (forall i t, threads cfg !! i = Some t -> faulted t = false) /\
  forall i j ti tj, threads cfg !! i = Some ti -> threads cfg !! j = Some tj -> inside ti = true -> inside tj = true -> i = j.
Proof.
  intros (Hm & _ & Hc & Hv & Ho)%bin_init_ok (k & Hk & (Hp & Hw & Hs) & He) Hr.
  pose proof (bin_protocol (K := K) (W := W) mutex c 1 Hm ltac:(lia) buffer) as Hprot.
  destruct (protocol_safe [sync_mutex_lock mutex] (sync_mutex_unlock mutex) buffer
    (o_cptr mutex) (sem_value mutex) c 1 (bin_at mutex c) s n cfg) as [Hf Ht]; [lia| |done|].
  { constructor; [done|done|]. exists k. by rewrite Ho. }
  split; [done|]. intros i j ti tj. by apply two_inside.
Qed.

(** C40: A mutex loses no wake-up: while a thread is blocked in it, some thread
    can go on with the call it is in, or holds the mutex and can release it;
    no new thread has to come to the rescue. *)
Theorem mutex_progress (mutex c : Z) (s0 s : shared) (n : nat) (cfg : config K W) (i : nat) (t : thread W) :
  alone 10 self (sync_mutex_init mutex c) s0 = Ok (0, s) ->
  (exists k, objects s0 !! c = Some k /\ unused k /\ is_endpoint k = false) ->
  reachable [sync_mutex_lock mutex] (sync_mutex_unlock mutex) false buffer (start s n) cfg ->
  threads cfg !! i = Some t -> blocked t = true ->
  exists j ch cfg', step [sync_mutex_lock mutex] (sync_mutex_unlock mutex) false buffer j ch cfg = Some cfg' /\
    forall m, ch <> Enter m.
Proof.
  intros (Hm & _ & Hc & Hv & Ho)%bin_init_ok (k & Hk & (Hp & Hw & Hs) & He) Hr Ht Hb.
  pose proof (bin_protocol (K := K) (W := W) mutex c 1 Hm ltac:(lia) buffer) as Hprot.
  apply (protocol_progress [sync_mutex_lock mutex] (sync_mutex_unlock mutex) buffer
    (o_cptr mutex) (sem_value mutex) c 1 (bin_at mutex c) s n cfg i t); [lia| |done|done|done].
  constructor; [done|done|]. exists k. by rewrite Ho.
Qed.

(** ** Counting semaphores *)

(** C28: A semaphore of [v] units lets at most [v] threads in at a time, through
    [sync_sem_wait] or [sync_sem_trywait], in any interleaving, and its
    assertions never fail. *)
Theorem semaphore_bound (sem c v : Z) (s0 s : shared) (n : nat) (cfg : config K W) :
  0 < sem -> 0 <= v <= INT_MAX -> alone 10 self (sync_sem_init sem c v) s0 = Ok (0, s) ->
  (exists k, objects s0 !! c = Some k /\ unused k /\ is_endpoint k = true) ->
  reachable [sync_sem_wait sem; sync_sem_trywait sem] (sync_sem_post sem) false buffer (start s n) cfg ->
  (forall i t, threads cfg !! i = Some t -> faulted t = false) /\
  Z.of_nat (length (filter (fun t => inside t = true) (threads cfg))) <= v.
Proof.
  intros Hsem Hv0 (Hm & Hc & Hv & Ho)%sem_init_ok (k & Hk & (Hp & Hw & Hs) & He) Hr.
  pose proof (sem_protocol (K := K) (W := W) sem c v Hsem ltac:(lia) buffer) as Hprot.
  destruct (protocol_safe [sync_sem_wait sem; sync_sem_trywait sem] (sync_sem_post sem) buffer
    (o_cptr sem) (sem_value sem) c v (sem_at sem c) s n cfg) as [Hf Hle]; [lia| |done|].
  { constructor; [done|done|]. exists k. rewrite Ho, He. by split_and!. }
  split; [done|]. rewrite total_filter in Hle. done.
Qed.

(** A semaphore that starts with a unit loses no wake-up: while a thread is
    blocked, waiting for a unit or for the receiver of its signal, some thread
    can go on with its call or release what it holds. *)
Theorem semaphore_progress (sem c v : Z) (s0 s : shared) (n : nat) (cfg : config K W) (i : nat) (t : thread W) :
  0 < sem -> 0 < v <= INT_MAX -> alone 10 self (sync_sem_init sem c v) s0 = Ok (0, s) ->
  (exists k, objects s0 !! c = Some k /\ unused k /\ is_endpoint k = true) ->
  reachable [sync_sem_wait sem; sync_sem_trywait sem] (sync_sem_post sem) false buffer (start s n) cfg ->
  threads cfg !! i = Some t -> blocked t = true ->
  exists j ch cfg', step [sync_sem_wait sem; sync_sem_trywait sem] (sync_sem_post sem) false buffer j ch cfg = Some cfg' /\
    forall m, ch <> Enter m.
Proof.
  intros Hsem Hv0 (Hm & Hc & Hv & Ho)%sem_init_ok (k & Hk & (Hp & Hw & Hs) & He) Hr Ht Hb.
  pose proof (sem_protocol (K := K) (W := W) sem c v Hsem ltac:(lia) buffer) as Hprot.
  apply (protocol_progress [sync_sem_wait sem; sync_sem_trywait sem] (sync_sem_post sem) buffer
    (o_cptr sem) (sem_value sem) c v (sem_at sem c) s n cfg i t); [lia| |done|done|done].
  constructor; [done|done|]. exists k. rewrite Ho, He. by split_and!.
Qed.

End results.

(** ** Three threads on a mutex *)

(** The structure at address 16, the notification at capability 7. *)
Definition toy_cells : gmap Z Z := list_to_map ((fun i => (16 + Z.of_nat i, 99)) <$> seq 0 6).
Definition toy_shared (endpoint : bool) : shared toy_object unit :=
  Shared toy_cells {[ 7 := ToyObject endpoint false [] [] ]} tt.
Definition toy_buffer (i : nat) : Z := 4096 + Z.of_nat i.

Definition toy_mutex : shared toy_object unit :=
  match alone 10 1 (sync_mutex_init 16 7) (toy_shared false) with Ok (_, s) => s | Fault _ => toy_shared false end.

Lemma toy_mutex_init : alone 10 1 (sync_mutex_init 16 7) (toy_shared false) = Ok (0, toy_mutex).
Proof. vm_compute. reflexivity. Qed.

Lemma toy_unused (endpoint : bool) :
  exists k, objects (toy_shared endpoint) !! 7 = Some k /\ unused k /\ is_endpoint k = endpoint.
Proof. eexists. split; [reflexivity|]. by split_and!. Qed.

(** Thread 0 locks; thread 1 tries and blocks. *)
Definition toy_schedule : list (nat * choice) :=
  [(0%nat, Enter 0)] ++ replicate 3 (0%nat, Go false) ++ [(1%nat, Enter 0)] ++ replicate 3 (1%nat, Go false).

Definition toy_blocked : config toy_object unit :=
  default (start toy_mutex 3) (run [sync_mutex_lock 16] (sync_mutex_unlock 16) false toy_buffer toy_schedule (start toy_mutex 3)).

Lemma toy_blocked_reachable :
  reachable [sync_mutex_lock 16] (sync_mutex_unlock 16) false toy_buffer (start toy_mutex 3) toy_blocked.
Proof.
  unfold toy_blocked. destruct (run _ _ _ _ toy_schedule _) as [cfg|] eqn:Hrun; [|apply reach_start].
  eapply run_reachable; [apply reach_start|exact Hrun].
Qed.

Lemma mutex_exclusion_witness :
  (exists t, threads toy_blocked !! 0%nat = Some t /\ inside t = true) /\
  forall j tj, threads toy_blocked !! j = Some tj -> inside tj = true -> 0%nat = j.
Proof.
  destruct (mutex_exclusion toy_buffer 1 16 7 (toy_shared false) toy_mutex 3 toy_blocked toy_mutex_init (toy_unused false)
    toy_blocked_reachable) as [_ Hex].
  split; [eexists; split; vm_compute; reflexivity|]. intros j tj Hj Htj.
  eapply Hex; [vm_compute; reflexivity|exact Hj|reflexivity|exact Htj].
Defined.

Lemma mutex_progress_witness :
  exists j ch cfg', step [sync_mutex_lock 16] (sync_mutex_unlock 16) false toy_buffer j ch toy_blocked = Some cfg' /\
    forall m, ch <> Enter m.
Proof.
  eapply (mutex_progress toy_buffer 1 16 7 (toy_shared false) toy_mutex 3 toy_blocked 1 _ toy_mutex_init (toy_unused false)
    toy_blocked_reachable); vm_compute; reflexivity.
Defined.

Definition toy_semaphore : shared toy_object unit :=
  match alone 10 1 (sync_sem_init 16 7 2) (toy_shared true) with Ok (_, s) => s | Fault _ => toy_shared true end.

Lemma toy_semaphore_init : alone 10 1 (sync_sem_init 16 7 2) (toy_shared true) = Ok (0, toy_semaphore).
Proof. vm_compute. reflexivity. Qed.

(** Two threads get in, one by trying; the third blocks. *)
Definition toy_sem_schedule : list (nat * choice) :=
  [(0%nat, Enter 0)] ++ replicate 3 (0%nat, Go false) ++ [(1%nat, Enter 1)] ++ replicate 3 (1%nat, Go false) ++
  [(1%nat, Go true); (1%nat, Go false); (1%nat, Go false); (1%nat, Go false); (1%nat, Go false); (2%nat, Enter 0)] ++
  replicate 3 (2%nat, Go false).

Definition toy_sem_blocked : config toy_object unit :=
  default (start toy_semaphore 3) (run [sync_sem_wait 16; sync_sem_trywait 16] (sync_sem_post 16) false toy_buffer
    toy_sem_schedule (start toy_semaphore 3)).

Lemma toy_sem_reachable :
  reachable [sync_sem_wait 16; sync_sem_trywait 16] (sync_sem_post 16) false toy_buffer (start toy_semaphore 3) toy_sem_blocked.
Proof.
  unfold toy_sem_blocked. destruct (run _ _ _ _ toy_sem_schedule _) as [cfg|] eqn:Hrun; [|apply reach_start].
  eapply run_reachable; [apply reach_start|exact Hrun].
Qed.

Lemma semaphore_bound_witness : length (filter (fun t => inside t = true) (threads toy_sem_blocked)) = 2%nat /\
  Z.of_nat (length (filter (fun t => inside t = true) (threads toy_sem_blocked))) <= 2.
Proof.
  split; [vm_compute; reflexivity|].
  apply (semaphore_bound toy_buffer 1 16 7 2 (toy_shared true) toy_semaphore 3 toy_sem_blocked ltac:(lia)
    ltac:(unfold INT_MAX; lia) toy_semaphore_init (toy_unused true) toy_sem_reachable).
Defined.

Lemma semaphore_progress_witness :
  exists j ch cfg', step [sync_sem_wait 16; sync_sem_trywait 16] (sync_sem_post 16) false toy_buffer j ch toy_sem_blocked = Some cfg' /\
    forall m, ch <> Enter m.
Proof.
  eapply (semaphore_progress toy_buffer 1 16 7 2 (toy_shared true) toy_semaphore 3 toy_sem_blocked 2 _ ltac:(lia)
    ltac:(unfold INT_MAX; lia) toy_semaphore_init (toy_unused true) toy_sem_reachable); vm_compute; reflexivity.
Defined.
