(* ===== verification/SyncRecursive.v ===== *)
(** The recursive mutexes of libsel4sync (recursive_mutex.c) are correct: in any
    interleaving of any number of threads that lock and unlock them, each as
    often as it likes, one thread at a time holds the mutex, its assertions
    never fail, [held] counts the locks of the owner, and no wake-up is lost.

    The argument follows one token: the signal that is pending in the
    notification, or the thread that has consumed it. *)
From S2P Require Import Prelude Cspacepath Interfaces Objects Vka Sync SyncRun SyncTokens.

(** Taking a step of a thread whose code is known. *)
Ltac compute_step Hstep Ht :=
  unfold SyncRun.step in Hstep; cbn [threads state] in Hstep; rewrite Ht in Hstep; cbn in Hstep.

Section recursive.
Context {K W : Type} `{!KernelObject K, !Atomics}.
Context (mutex c : Z) (Hmutex : mutex <> 0).
Context (buffer : nat -> Z) (Hbuffer : forall i, buffer i <> 0) (Hinj : forall i j, buffer i = buffer j -> i = j).
Local Abbreviation code := (code W Z).
Local Abbreviation thread := (thread W).
Local Abbreviation config := (config K W).
Local Abbreviation step := (step [sync_recursive_mutex_lock mutex] (sync_recursive_mutex_unlock mutex) true buffer).

(** *** The code, from each of its accesses on *)

Definition lock1 (self : Z) : code :=
  let^ owner := load (mutex_owner mutex) in
  let^ _ := (if negb (self =? owner) then take_mutex mutex else Ret tt) in
  count_lock mutex.

Definition take5 : Sync.code W unit :=
  let^ held := load (mutex_held mutex) in
  check (held =? 0).
Definition take4 (self : Z) : Sync.code W unit := let^ _ := store (mutex_owner mutex) self in take5.
Definition take3 : Sync.code W unit := let^ self := thread_id in take4 self.
Definition take2 : Sync.code W unit :=
  let^ owner := load (mutex_owner mutex) in
  let^ _ := check (owner =? 0) in
  take3.
Definition then_count (m : Sync.code W unit) : code := let^ _ := m in count_lock mutex.

Definition count2 (held : Z) : code := let^ _ := store (mutex_held mutex) (uint (held + 1)) in Ret 0.
Definition count1 : code := let^ held := load (mutex_held mutex) in count2 held.

Definition unlock7 : code :=
  let^ _ := (let^ c := load (o_cptr mutex) in seL4_Signal c) in Ret 0.
Definition unlock6 : code :=
  let^ _ := (let^ _ := store (mutex_owner mutex) 0 in let^ c := load (o_cptr mutex) in seL4_Signal c) in Ret 0.
Definition unlock5 : code :=
  let^ held := load (mutex_held mutex) in
  let^ _ := (if held =? 0 then
               let^ _ := store (mutex_owner mutex) 0 in
               let^ c := load (o_cptr mutex) in
               seL4_Signal c
             else Ret tt) in
  Ret 0.
Definition unlock4 (held : Z) : code := let^ _ := store (mutex_held mutex) (uint (held - 1)) in unlock5.
Definition unlock3 : code := let^ held := load (mutex_held mutex) in unlock4 held.
Definition unlock2 : code :=
  let^ held := load (mutex_held mutex) in
  let^ _ := check (held >? 0) in
  unlock3.
Definition unlock1 (owner : Z) : code :=
  let^ self := thread_id in
  let^ _ := check (owner =? self) in
  unlock2.

Lemma lock_unfold : sync_recursive_mutex_lock mutex = (let^ self := thread_id in lock1 self : code).
Proof. unfold sync_recursive_mutex_lock. by rewrite (proj2 (Z.eqb_neq mutex 0) Hmutex). Qed.
Lemma unlock_unfold : sync_recursive_mutex_unlock mutex = (let^ owner := load (mutex_owner mutex) in unlock1 owner : code).
Proof. unfold sync_recursive_mutex_unlock. by rewrite (proj2 (Z.eqb_neq mutex 0) Hmutex). Qed.

(** *** Where a thread is *)

(** Waiting in the kernel, and waking a thread. *)
Definition waiting (b : bool) : thread := Thread 0 (Entering (Sys (Wait c) (then_count take2))) b.
Definition signalling : thread := Thread 1 (Leaving (Sys (Signal c) (Ret 0))) false.

(** Without the token, not waiting. *)
Inductive idle_at (i : nat) : thread -> Prop :=
  | out_rest : idle_at i (Thread 0 Resting false)
  | out_lock0 : idle_at i (Thread 0 (Entering (sync_recursive_mutex_lock mutex)) false)
  | out_lock1 : idle_at i (Thread 0 (Entering (lock1 (buffer i))) false)
  | out_take0 : idle_at i (Thread 0 (Entering (then_count (take_mutex mutex))) false)
  | out_done : idle_at i (Thread 1 (Leaving (Ret 0)) false).

Definition out_at (i : nat) (t : thread) : Prop := idle_at i t \/ exists b, t = waiting b.

(** With the token, not signalling, the mutex having owner [o] and count [h]. *)
Inductive busy_at (i : nat) : Z -> Z -> thread -> Prop :=
  | tok_take2 : busy_at i 0 0 (Thread 0 (Entering (then_count take2)) false)
  | tok_take3 : busy_at i 0 0 (Thread 0 (Entering (then_count take3)) false)
  | tok_take4 : busy_at i 0 0 (Thread 0 (Entering (then_count (take4 (buffer i)))) false)
  | tok_take5 : busy_at i (buffer i) 0 (Thread 0 (Entering (then_count take5)) false)
  | tok_count0 d : busy_at i (buffer i) (Z.of_nat d) (Thread d (Entering (count_lock mutex)) false)
  | tok_count1 d : Z.of_nat d < UINT_MAX -> busy_at i (buffer i) (Z.of_nat d) (Thread d (Entering count1) false)
  | tok_count2 d : Z.of_nat d < UINT_MAX -> busy_at i (buffer i) (Z.of_nat d) (Thread d (Entering (count2 (Z.of_nat d))) false)
  | tok_locked d : busy_at i (buffer i) (Z.of_nat (S d)) (Thread d (Entering (Ret 0)) false)
  | tok_full d : busy_at i (buffer i) (Z.of_nat (S d)) (Thread (S d) (Entering (Ret (-1))) false)
  | tok_rest d : busy_at i (buffer i) (Z.of_nat (S d)) (Thread (S d) Resting false)
  | tok_lock0 d : busy_at i (buffer i) (Z.of_nat (S d)) (Thread (S d) (Entering (sync_recursive_mutex_lock mutex)) false)
  | tok_lock1 d : busy_at i (buffer i) (Z.of_nat (S d)) (Thread (S d) (Entering (lock1 (buffer i))) false)
  | tok_unlock0 d : busy_at i (buffer i) (Z.of_nat (S d)) (Thread (S d) (Leaving (sync_recursive_mutex_unlock mutex)) false)
  | tok_unlock1 d : busy_at i (buffer i) (Z.of_nat (S d)) (Thread (S d) (Leaving (unlock1 (buffer i))) false)
  | tok_unlock2 d : busy_at i (buffer i) (Z.of_nat (S d)) (Thread (S d) (Leaving unlock2) false)
  | tok_unlock3 d : busy_at i (buffer i) (Z.of_nat (S d)) (Thread (S d) (Leaving unlock3) false)
  | tok_unlock4 d : busy_at i (buffer i) (Z.of_nat (S d)) (Thread (S d) (Leaving (unlock4 (Z.of_nat (S d)))) false)
  | tok_unlock5 d : busy_at i (buffer i) (Z.of_nat d) (Thread (S d) (Leaving unlock5) false)
  | tok_unlocked d : busy_at i (buffer i) (Z.of_nat (S d)) (Thread (S (S d)) (Leaving (Ret 0)) false)
  | tok_unlock6 : busy_at i (buffer i) 0 (Thread 1 (Leaving unlock6) false)
  | tok_unlock7 : busy_at i 0 0 (Thread 1 (Leaving unlock7) false).

Definition token_at (i : nat) (o h : Z) (t : thread) : Prop :=
  busy_at i o h t \/ (o = 0 /\ h = 0 /\ t = signalling).

Record mutex_is (s : shared K W) (o h : Z) : Prop := {
  m_cptr : cells s !! o_cptr mutex = Some c;
  m_owner : cells s !! mutex_owner mutex = Some o;
  m_held : cells s !! mutex_held mutex = Some h
}.

(** The state, with the thread that has the token. *)
Record rec_inv (s : shared K W) (ts : list thread) (k : K) (g : option nat) (o h : Z) : Prop := {
  r_mutex : mutex_is s o h;
  r_range : 0 <= h <= UINT_MAX;
  r_object : objects s !! c = Some k;
  r_notification : is_endpoint k = false /\ senders k = [];
  r_token : match g with
            | None => pending k = true /\ o = 0 /\ h = 0
            | Some j => pending k = false /\ exists t, ts !! j = Some t /\ token_at j o h t
            end;
  r_others : forall i t, ts !! i = Some t -> g <> Some i -> out_at i t;
  r_waiters : NoDup (waiters k) /\ forall i, i ∈ waiters k <-> exists t, ts !! i = Some t /\ blocked t = true;
  r_pending : pending k = true -> waiters k = []
}.


Lemma uint_small x : 0 <= x <= UINT_MAX -> uint x = x.
Proof. intros Hx. apply Z.mod_small. unfold UINT_MAX in *. lia. Qed.

(** *** Steps without a kernel call *)

Lemma mutex_cells : mutex_owner mutex <> o_cptr mutex /\ mutex_held mutex <> o_cptr mutex /\ mutex_owner mutex <> mutex_held mutex.
Proof. unfold mutex_owner, mutex_held, o_cptr. lia. Qed.

Lemma set_owner s o h x : mutex_is s o h -> mutex_is (set_cell (mutex_owner mutex) x s) x h.
Proof.
  intros [H1 H2 H3]. destruct mutex_cells as (N1 & N2 & N3).
  constructor; cbn; rewrite ?lookup_insert_eq, ?lookup_insert_ne; done.
Qed.
Lemma set_held s o h x : mutex_is s o h -> mutex_is (set_cell (mutex_held mutex) x s) o x.
Proof.
  intros [H1 H2 H3]. destruct mutex_cells as (N1 & N2 & N3).
  constructor; cbn; rewrite ?lookup_insert_eq, ?lookup_insert_ne; done.
Qed.

(** The choice is to go on; the code is known to the rewriting. *)
Ltac go Hstep :=
  cbn in Hstep; unfold read_cell in Hstep;
  repeat match goal with H : cells _ !! _ = _ |- _ => rewrite H in Hstep end; cbn in Hstep; injection Hstep as <-.

Ltac kept := match goal with ch : choice, Hstep : _ = Some _ |- _ => destruct ch; try done; go Hstep end.
Ltac tok H := do 3 eexists; split_and!; [done|left; apply H|(done || (cbn; lia))..].

(** A thread without the token changes nothing until it waits. *)
Lemma out_step i ch s ts t o h cfg' : idle_at i t -> blocked t = false -> ts !! i = Some t -> mutex_is s o h ->
  o <> buffer i -> step i ch (Config s ts) = Some cfg' ->
  exists t', cfg' = Config s (<[i := t']> ts) /\ blocked t' = false /\ out_at i t'.
Proof.
  intros Hat Hb Ht [Hc Ho Hh] Hne Hstep. destruct Hat as [| | | |]; compute_step Hstep Ht.
  - destruct ch as [|[|n]|]; try done. injection Hstep as <-. eexists. split_and!; [done|done|left; apply out_lock0].
  - destruct ch as [sp| |]; try done. rewrite lock_unfold in Hstep. go Hstep.
    eexists. split_and!; [done|done|left; apply out_lock1].
  - destruct ch as [sp| |]; try done. go Hstep. rewrite (proj2 (Z.eqb_neq (buffer i) o)) by congruence.
    eexists. split_and!; [done|done|left; apply out_take0].
  - destruct ch as [sp| |]; try done. go Hstep. eexists. split_and!; [done|done|right; by exists false].
  - destruct ch as [sp| |]; try done. go Hstep. eexists. split_and!; [done|done|left; apply out_rest].
Qed.

(** The thread with the token keeps it until it signals. *)
Lemma token_step i ch s ts t o h cfg' : busy_at i o h t -> ts !! i = Some t -> mutex_is s o h -> 0 <= h <= UINT_MAX ->
  step i ch (Config s ts) = Some cfg' ->
  exists s' t' o' h', cfg' = Config s' (<[i := t']> ts) /\ token_at i o' h' t' /\ mutex_is s' o' h' /\
    0 <= h' <= UINT_MAX /\ objects s' = objects s.
Proof.
  intros Hat Ht Hm Hr Hstep. pose proof Hm as [Hc Ho Hh].
  destruct Hat as [| | | |d|d Hd|d Hd|d|d|d|d|d|d|d|d|d|d|d|d| |]; compute_step Hstep Ht.
  - kept. exists s. tok tok_take3.
  - kept. exists s. tok tok_take4.
  - kept. eexists. do 3 eexists. split_and!; [done|left; apply tok_take5|by apply set_owner with 0|done..].
  - kept. exists s. tok (tok_count0 i 0).
  - (* the test against overflow *)
    kept. exists s. destruct (Z.eqb_spec (Z.of_nat d) UINT_MAX) as [Hmax|Hmax].
    + destruct d as [|d]; [done|]. tok tok_full.
    + do 3 eexists. split_and!; [done|left; apply tok_count1; cbn; lia|(done || (cbn; lia))..].
  - kept. exists s. do 3 eexists. split_and!; [done|left; apply tok_count2; cbn; lia|(done || (cbn; lia))..].
  - kept. rewrite uint_small by lia. do 2 eexists. exists (buffer i), (Z.of_nat (S d)).
    split_and!; [done|left; apply tok_locked|replace (Z.of_nat (S d)) with (Z.of_nat d + 1) by lia; by eapply set_held|lia|lia|done].
  - kept. exists s. tok tok_rest.
  - kept. exists s. tok tok_rest.
  - destruct ch as [|[|n]|]; try done; injection Hstep as <-; exists s; [tok tok_lock0|tok tok_unlock0].
  - destruct ch as [sp| |]; try done. rewrite lock_unfold in Hstep. go Hstep. exists s. tok tok_lock1.
  - kept. rewrite Z.eqb_refl. exists s. tok tok_count0.
  - destruct ch as [sp| |]; try done. rewrite unlock_unfold in Hstep. go Hstep. exists s. tok tok_unlock1.
  - kept. rewrite Z.eqb_refl. exists s. tok tok_unlock2.
  - kept. exists s. tok tok_unlock3.
  - kept. exists s. tok tok_unlock4.
  - kept. rewrite uint_small by lia. do 2 eexists. exists (buffer i), (Z.of_nat d).
    split_and!; [done|left; apply tok_unlock5|replace (Z.of_nat d) with (Z.of_nat (S d) - 1) by lia; by eapply set_held|lia|lia|done].
  - kept. exists s. destruct d as [|d]; [tok tok_unlock6|tok tok_unlocked].
  - kept. exists s. tok tok_rest.
  - kept. eexists. do 3 eexists. split_and!; [done|left; apply tok_unlock7|by eapply set_owner|done..].
  - kept. exists s. do 3 eexists. split_and!; [done|by right|done..].
Qed.

(** *** Kernel calls *)

Lemma blocked_insert i t t' (ts : list thread) j : ts !! i = Some t ->
  (exists x, <[i := t']> ts !! j = Some x /\ blocked x = true) <->
  (j = i /\ blocked t' = true) \/ (j <> i /\ exists x, ts !! j = Some x /\ blocked x = true).
Proof.
  intros Ht. pose proof (lookup_lt_Some _ _ _ Ht). destruct (decide (j = i)) as [->|Hne].
  - rewrite list_lookup_insert_eq by done. naive_solver.
  - rewrite list_lookup_insert_ne by done. naive_solver.
Qed.

Lemma others_insert i t' (ts : list thread) (g g' : option nat) :
  (forall j t, ts !! j = Some t -> g <> Some j -> out_at j t) ->
  (forall j, j <> i -> g' <> Some j -> g <> Some j) -> (g' <> Some i -> out_at i t') ->
  forall j t, <[i := t']> ts !! j = Some t -> g' <> Some j -> out_at j t.
Proof.
  intros Hout Hg Hi j t Hj Hgj. destruct (decide (j = i)) as [->|Hne].
  - apply list_lookup_insert_Some in Hj as [(_ & <- & _)|[? _]]; [auto|done].
  - rewrite list_lookup_insert_ne in Hj by done. by apply (Hout j t Hj), Hg.
Qed.

Lemma out_blocked i t : out_at i t -> blocked t = true -> t = waiting true.
Proof. intros [Hat|[b ->]] Hb; [by destruct Hat|]. cbn in Hb. by subst. Qed.

Lemma token_unblocked i o h t : token_at i o h t -> blocked t = false.
Proof. intros [Hat|(_ & _ & ->)]; [by destruct Hat|done]. Qed.

Lemma rec_wait s ts k g o h i : rec_inv s ts k g o h -> g <> Some i ->
  let t := waiting false in ts !! i = Some t ->
  exists k' js g', k_wait i k = (k', js) /\
    rec_inv (Shared (cells s) (<[c := k']> (objects s)) (others s)) (complete_all js (<[i := block t]> ts)) k' g' o h.
Proof.
  intros [Hm Hr Hobj [Hep Hsend] Htok Hout [Hnd Hw] Hp] Hg t Ht. pose proof (lookup_lt_Some _ _ _ Ht) as Hlt.
  assert (Hni : (i ∉ waiters k)) by (rewrite Hw; intros (x & Hx & Hxb); congruence || (rewrite Ht in Hx; by simplify_eq)).
  destruct g as [j|].
  - destruct Htok as (Hpend & tj & Htj & Hj). assert (Hij : j <> i) by congruence.
    destruct (wait_blocks i k Hpend Hsend) as (k' & E & Ew & Ep & Es & Ee).
    exists k', [], (Some j). split; [done|]. cbn [complete_all foldr].
    constructor; cbn; rewrite ?Ew, ?Ep, ?Es, ?Ee; try done; [by destruct Hm|apply lookup_insert_eq| | |].
    + split; [done|]. exists tj. by rewrite list_lookup_insert_ne.
    + eapply others_insert; [exact Hout|done|]. intros _. right. by exists true.
    + split.
      * apply NoDup_app. split_and!; [done| |apply NoDup_singleton]. by intros x Hx ->%list_elem_of_singleton.
      * intros x. rewrite (blocked_insert i t _ ts x Ht), elem_of_app, list_elem_of_singleton, Hw. cbn.
        split; [|naive_solver]. intros [Hx| ->]; [right; split; [|done]|by left]. intros ->. by apply Hni, Hw.
  - destruct Htok as (Hpend & -> & ->). destruct (wait_pending i k Hpend) as (k' & E & Ew & Ep & Es & Ee).
    specialize (Hp Hpend). rewrite Hp in *.
    exists k', [i], (Some i). split; [done|]. rewrite complete_one by done.
    constructor; cbn; rewrite ?Ew, ?Ep, ?Es, ?Ee; try done; [by destruct Hm|apply lookup_insert_eq| | |].
    + split; [done|]. eexists. split; [by apply list_lookup_insert_eq|]. left. apply tok_take2.
    + eapply others_insert; [exact Hout|done|done].
    + split; [done|]. intros x. rewrite (blocked_insert i t _ ts x Ht), Hw. cbn. naive_solver.
Qed.

Lemma rec_signal s ts k i : rec_inv s ts k (Some i) 0 0 ->
  let t := signalling in ts !! i = Some t ->
  exists k' js g', k_signal i k = (k', js) /\
    rec_inv (Shared (cells s) (<[c := k']> (objects s)) (others s)) (complete_all js (<[i := block t]> ts)) k' g' 0 0.
Proof.
  intros [Hm Hr Hobj [Hep Hsend] (Hpend & _) Hout [Hnd Hw] Hp] t Ht. pose proof (lookup_lt_Some _ _ _ Ht) as Hlt.
  destruct (waiters k) as [|j q] eqn:Hwk.
  - destruct (signal_notification i k Hwk Hep) as (k' & E & Ew & Ep & Es & Ee).
    exists k', [i], None. split; [done|]. rewrite complete_one by done.
    constructor; cbn; rewrite ?Ew, ?Ep, ?Es, ?Ee; try done; [by destruct Hm|apply lookup_insert_eq| |].
    + eapply others_insert; [exact Hout|congruence|]. intros _. left. apply out_done.
    + split; [done|]. intros x. rewrite (blocked_insert i t _ ts x Ht), Hw. cbn.
      split; [|naive_solver]. intros Hx. right. split; [|done]. intros ->. destruct Hx as (y & Hy & Hyb). rewrite Ht in Hy.
      by simplify_eq.
  - destruct (signal_wakes i j q k Hwk) as (k' & E & Ew & Ep & Es & Ee).
    apply NoDup_cons in Hnd as [Hjq Hnd]. destruct (proj1 (Hw j)) as (tj & Htj & Hbj); [left|].
    assert (Hij : i <> j) by (intros ->; rewrite Ht in Htj; by simplify_eq).
    pose proof (out_blocked j tj (Hout j tj Htj ltac:(congruence)) Hbj) as ->.
    exists k', [i; j], (Some j). split; [done|]. rewrite (complete_two i j _ _ ts Hlt Hij Htj).
    assert (Ht' : forall y, <[j := y]> ts !! i = Some t) by (intros y; by rewrite list_lookup_insert_ne).
    constructor; cbn; rewrite ?Ew, ?Ep, ?Es, ?Ee; try done; [by destruct Hm|apply lookup_insert_eq| | | |].
    + split; [done|]. eexists. rewrite list_lookup_insert_ne by done. split; [|left; apply tok_take2].
      apply list_lookup_insert_eq. by eapply lookup_lt_Some.
    + intros x y Hx Hgx. assert (Hxj : x <> j) by congruence. destruct (decide (x = i)) as [->|Hxi].
      * apply list_lookup_insert_Some in Hx as [(_ & <- & _)|[? _]]; [left; apply out_done|done].
      * rewrite !list_lookup_insert_ne in Hx by done. apply (Hout x y Hx). congruence.
    + split; [done|]. intros x.
      rewrite (blocked_insert i t _ _ x (Ht' _)), (blocked_insert j _ _ ts x Htj), <- Hw, elem_of_cons. cbn.
      split; [|naive_solver]. intros Hx. right. split.
      * intros ->. destruct (proj1 (Hw i)) as (y & Hy & Hyb); [by right|]. rewrite Ht in Hy. by simplify_eq.
      * right. split; [by intros ->|by right].
    + intros Hpt. discriminate (Hp Hpt).
Qed.

(** Every step keeps the invariant. *)
Lemma rec_step s ts k g o h i ch cfg' : rec_inv s ts k g o h -> step i ch (Config s ts) = Some cfg' ->
  exists k' g' o' h', rec_inv (state cfg') (threads cfg') k' g' o' h'.
Proof.
  intros Hi Hstep. destruct (ts !! i) as [t|] eqn:Ht; [|compute_step Hstep Ht; done].
  destruct (blocked t) eqn:Hb; [unfold SyncRun.step in Hstep; cbn in Hstep; by rewrite Ht, Hb in Hstep|].
  pose proof Hi as [Hm Hr Hobj [Hep Hsend] Htok Hout [Hnd Hw] Hp].
  assert (Hblk : forall t' x, blocked t' = false ->
    (exists y, <[i := t']> ts !! x = Some y /\ blocked y = true) <-> exists y, ts !! x = Some y /\ blocked y = true).
  { intros t' x Hb'. rewrite (blocked_insert i t t' ts x Ht), Hb'. split; [naive_solver|]. intros Hx. right. split; [|done].
    intros ->. destruct Hx as (y & Hy & Hyb). congruence. }
  destruct (decide (g = Some i)) as [->|Hg].
  - destruct Htok as (Hpend & t' & Ht' & Hat). rewrite Ht in Ht'. injection Ht' as <-. destruct Hat as [Hat|(-> & -> & ->)].
    + destruct (token_step i ch s ts t o h cfg' Hat Ht Hm Hr Hstep) as (s' & t' & o' & h' & -> & Hat' & Hm' & Hr' & Ho').
      exists k, (Some i), o', h'. constructor; cbn [state threads]; try done; [by rewrite Ho'| | |].
      * split; [done|]. exists t'. split; [|done]. apply list_lookup_insert_eq. by eapply lookup_lt_Some.
      * eapply others_insert; [exact Hout|done|done].
      * split; [done|]. intros x. rewrite Hw. symmetry. apply Hblk. by eapply token_unblocked.
    + compute_step Hstep Ht. destruct ch; try done. unfold run_thread, kernel_call in Hstep. cbn in Hstep. rewrite Hobj in Hstep.
      destruct (rec_signal s ts k i Hi Ht) as (k' & js & g' & E & Hi'). rewrite E in Hstep. injection Hstep as <-.
      by exists k', g', 0, 0.
  - destruct (Hout i t Ht Hg) as [Hat|[b ->]].
    + assert (Ho : o <> buffer i).
      { destruct g as [j|]; [|destruct Htok as (_ & -> & _); by apply not_eq_sym]. destruct Htok as (_ & tj & _ & Hj).
        assert (Hoj : o = 0 \/ o = buffer j) by (destruct Hj as [Hj|(-> & _)]; [destruct Hj; auto|auto]).
        destruct Hoj as [->| ->]; [by apply not_eq_sym|]. intros Heq%Hinj. congruence. }
      destruct (out_step i ch s ts t o h cfg' Hat Hb Ht Hm Ho Hstep) as (t' & -> & Hb' & Hat').
      exists k, g, o, h. constructor; cbn [state threads]; try done.
      * destruct g as [j|]; [|done]. destruct Htok as (Hpend & tj & Htj & Hj). split; [done|]. exists tj.
        rewrite list_lookup_insert_ne by congruence. done.
      * eapply others_insert; [exact Hout|done|done].
      * split; [done|]. intros x. rewrite Hw. symmetry. by apply Hblk.
    + cbn in Hb. subst b. compute_step Hstep Ht. destruct ch; try done. unfold run_thread, kernel_call in Hstep.
      cbn in Hstep. rewrite Hobj in Hstep.
      destruct (rec_wait s ts k g o h i Hi Hg Ht) as (k' & js & g' & E & Hi'). rewrite E in Hstep. injection Hstep as <-.
      by exists k', g', o, h.
Qed.

Lemma out_inside i t : out_at i t -> inside t = false.
Proof. intros [Hat|[b ->]]; [by destruct Hat|done]. Qed.

Lemma at_fault i o h t : out_at i t \/ token_at i o h t -> faulted t = false.
Proof.
  intros [[Hat|[b ->]]|[Hat|(_ & _ & ->)]]; try done; destruct Hat; try done; cbn; rewrite ?lock_unfold, ?unlock_unfold; done.
Qed.

Lemma at_rest i o h d : out_at i (Thread (S d) Resting false) \/ token_at i o h (Thread (S d) Resting false) ->
  o = buffer i /\ h = Z.of_nat (S d).
Proof. intros [[Hat|[b ?]]|[Hat|(_ & _ & ?)]]; try done; inversion Hat; subst; done. Qed.

(** The thread with the token has a step. *)
Lemma token_progress i s ts t o h : token_at i o h t -> ts !! i = Some t -> mutex_is s o h -> is_Some (objects s !! c) ->
  exists ch cfg', step i ch (Config s ts) = Some cfg' /\ forall n, ch <> Enter n.
Proof.
  intros Hat Ht [Hc Ho Hh] [k Hk]. pose proof (token_unblocked _ _ _ _ Hat) as Hb.
  unfold SyncRun.step. cbn [threads state]. rewrite Ht, Hb. destruct Hat as [Hat|(-> & -> & ->)].
  - destruct Hat; cbn.
    all: try (exists Exit; by eexists).
    all: exists (Go false); rewrite ?lock_unfold, ?unlock_unfold; cbn; unfold read_cell; cbn; rewrite ?Hc, ?Ho, ?Hh; cbn.
    all: by eexists.
  - exists (Go false). cbn. unfold run_thread, kernel_call. cbn. rewrite Hk. destruct (k_signal i k). by eexists.
Qed.

Lemma init_ok self (s0 s : shared K W) : alone 10 self (sync_recursive_mutex_init mutex c) s0 = Ok (0, s) ->
  (exists k, objects s0 !! c = Some k /\ unused k /\ is_endpoint k = false) ->
  mutex_is s 0 0 /\ exists k, objects s !! c = Some k /\ pending k = true /\ waiters k = [] /\ senders k = [] /\ is_endpoint k = false.
Proof.
  intros Hrun (k & Hk & (Hp & Hw & Hs) & He). unfold sync_recursive_mutex_init in Hrun.
  rewrite (proj2 (Z.eqb_neq mutex 0) Hmutex) in Hrun. destruct mutex_cells as (N1 & N2 & N3).
  destruct (signal_notification 0%nat k Hw He) as (k' & E & Ew & Ep & Es & Ee).
  cbn in Hrun. unfold read_cell, kernel_call in Hrun.
  destruct (cells s0 !! o_cptr mutex); [|done]. cbn in Hrun. rewrite !lookup_insert_ne in Hrun by done.
  destruct (cells s0 !! mutex_owner mutex); [|done]. cbn in Hrun. rewrite !lookup_insert_ne in Hrun by done.
  destruct (cells s0 !! mutex_held mutex); [|done]. cbn in Hrun.
  rewrite !lookup_insert_ne, lookup_insert_eq in Hrun by done. cbn in Hrun. rewrite Hk, E in Hrun. cbn in Hrun.
  injection Hrun as <-. split.
  - constructor; cbn.
    + rewrite !lookup_insert_ne by done. apply lookup_insert_eq.
    + rewrite lookup_insert_ne by congruence. apply lookup_insert_eq.
    + apply lookup_insert_eq.
  - exists k'. split; [apply lookup_insert_eq|]. rewrite Ep, Ew, Es, Ee. by split_and!.
Qed.

Lemma start_rec_inv self (s0 s : shared K W) n : alone 10 self (sync_recursive_mutex_init mutex c) s0 = Ok (0, s) ->
  (exists k, objects s0 !! c = Some k /\ unused k /\ is_endpoint k = false) ->
  exists k, rec_inv s (threads (start s n)) k None 0 0.
Proof.
  intros Hrun Hk. destruct (init_ok self s0 s Hrun Hk) as (Hm & k & Ho & Hp & Hw & Hs & He). exists k.
  constructor; try done.
  - intros i t [-> _]%lookup_replicate _. left. apply out_rest.
  - rewrite Hw. split; [constructor|]. intros i. split; [by intros ?%elem_of_nil|]. by intros (t & [-> _]%lookup_replicate & ?).
Qed.

Lemma reachable_rec_inv self (s0 s : shared K W) n cfg : alone 10 self (sync_recursive_mutex_init mutex c) s0 = Ok (0, s) ->
  (exists k, objects s0 !! c = Some k /\ unused k /\ is_endpoint k = false) ->
  reachable [sync_recursive_mutex_lock mutex] (sync_recursive_mutex_unlock mutex) true buffer (start s n) cfg ->
  exists k g o h, rec_inv (state cfg) (threads cfg) k g o h.
Proof.
  intros Hrun Hk. induction 1 as [|cfg i ch cfg' _ IH Hstep].
  - destruct (start_rec_inv self s0 s n Hrun Hk) as [k Hi]. by exists k, None, 0, 0.
  - destruct IH as (k & g & o & h & Hi). destruct cfg as [s1 ts]. by eapply rec_step.
Qed.

Lemma rec_at s ts k g o h i t : rec_inv s ts k g o h -> ts !! i = Some t ->
  (g <> Some i /\ out_at i t) \/ (g = Some i /\ token_at i o h t).
Proof.
  intros Hi Ht. destruct (decide (g = Some i)) as [->|Hg]; [right|left; split; [done|by eapply r_others]].
  split; [done|]. destruct (r_token _ _ _ _ _ _ Hi) as (_ & t' & Ht' & Hat). congruence.
Qed.

(** C18: A recursive mutex that [sync_recursive_mutex_init] has set up excludes:
    in any interleaving of threads that lock it, again while they hold it, and
    unlock it, its assertions never fail, no two threads are inside, and the
    thread that holds it with [d] locks, between calls, is its [owner], with
    [d] in [held]. *)
Theorem recursive_mutex_exclusion (self : Z) (s0 s : shared K W) (n : nat) (cfg : config) :
  alone 10 self (sync_recursive_mutex_init mutex c) s0 = Ok (0, s) ->
  (exists k, objects s0 !! c = Some k /\ unused k /\ is_endpoint k = false) ->
  reachable [sync_recursive_mutex_lock mutex] (sync_recursive_mutex_unlock mutex) true buffer (start s n) cfg ->
  (forall i t, threads cfg !! i = Some t -> faulted t = false) /\
  (forall i j ti tj, threads cfg !! i = Some ti -> threads cfg !! j = Some tj -> inside ti = true -> inside tj = true -> i = j) /\
  (forall i d, threads cfg !! i = Some (Thread (S d) Resting false) ->
     cells (state cfg) !! mutex_owner mutex = Some (buffer i) /\ cells (state cfg) !! mutex_held mutex = Some (Z.of_nat (S d))).
Proof.
  intros Hrun Hk Hr. destruct (reachable_rec_inv self s0 s n cfg Hrun Hk Hr) as (k & g & o & h & Hi). split_and!.
  - intros i t Ht. apply (at_fault i o h). destruct (rec_at _ _ _ _ _ _ i t Hi Ht) as [[_ ?]|[_ ?]]; auto.
  - intros i j ti tj Hti Htj Hini Hinj2.
    destruct (rec_at _ _ _ _ _ _ i ti Hi Hti) as [[_ Hat]|[-> _]]; [by rewrite (out_inside _ _ Hat) in Hini|].
    destruct (rec_at _ _ _ _ _ _ j tj Hi Htj) as [[_ Hat]|[Hg _]]; [by rewrite (out_inside _ _ Hat) in Hinj2|congruence].
  - intros i d Ht. destruct (at_rest i o h d) as [-> ->]; [|destruct (r_mutex _ _ _ _ _ _ Hi); done].
    destruct (rec_at _ _ _ _ _ _ i _ Hi Ht) as [[_ ?]|[_ ?]]; auto.
Qed.

(** A recursive mutex loses no wake-up: while a thread is blocked in it,
    some thread can go on with its call or release what it holds. *)
Theorem recursive_mutex_progress (self : Z) (s0 s : shared K W) (n : nat) (cfg : config) (i : nat) (t : thread) :
  alone 10 self (sync_recursive_mutex_init mutex c) s0 = Ok (0, s) ->
  (exists k, objects s0 !! c = Some k /\ unused k /\ is_endpoint k = false) ->
  reachable [sync_recursive_mutex_lock mutex] (sync_recursive_mutex_unlock mutex) true buffer (start s n) cfg ->
  threads cfg !! i = Some t -> blocked t = true ->
  exists j ch cfg', step j ch cfg = Some cfg' /\ forall m, ch <> Enter m.
Proof.
  intros Hrun Hk Hr Ht Hb. destruct (reachable_rec_inv self s0 s n cfg Hrun Hk Hr) as (k & g & o & h & Hi).
  assert (Hin : i ∈ waiters k) by (apply (r_waiters _ _ _ _ _ _ Hi); by exists t).
  destruct cfg as [s1 ts]. cbn [state threads] in *. destruct g as [j|].
  - destruct (r_token _ _ _ _ _ _ Hi) as (_ & tj & Htj & Hat).
    destruct (token_progress j s1 ts tj o h Hat Htj (r_mutex _ _ _ _ _ _ Hi)) as (ch & cfg' & Hs & Hch);
      [by rewrite (r_object _ _ _ _ _ _ Hi)|]. by exists j, ch, cfg'.
  - destruct (r_token _ _ _ _ _ _ Hi) as (Hp & _). rewrite (r_pending _ _ _ _ _ _ Hi Hp) in Hin. by apply elem_of_nil in Hin.
Qed.

End recursive.

(** ** Three threads on a recursive mutex *)

Definition toy_rec_shared : shared toy_object unit :=
  Shared (list_to_map ((fun i => (16 + Z.of_nat i, 99)) <$> seq 0 6)) {[ 7 := ToyObject false false [] [] ]} tt.
Definition toy_rec_buffer (i : nat) : Z := 4096 + Z.of_nat i.

Definition toy_rec_mutex : shared toy_object unit :=
  match alone 10 1 (sync_recursive_mutex_init 16 7) toy_rec_shared with Ok (_, s) => s | Fault _ => toy_rec_shared end.

Lemma toy_rec_init : alone 10 1 (sync_recursive_mutex_init 16 7) toy_rec_shared = Ok (0, toy_rec_mutex).
Proof. vm_compute. reflexivity. Qed.

Lemma toy_rec_unused : exists k, objects toy_rec_shared !! 7 = Some k /\ unused k /\ is_endpoint k = false.
Proof. eexists. split; [reflexivity|]. by split_and!. Qed.

Lemma toy_rec_buffers : (forall i, toy_rec_buffer i <> 0) /\ forall i j, toy_rec_buffer i = toy_rec_buffer j -> i = j.
Proof. unfold toy_rec_buffer. split; intros; lia. Qed.

(** Thread 0 locks twice; thread 1 tries and blocks. *)
Definition toy_rec_schedule : list (nat * choice) :=
  [(0%nat, Enter 0)] ++ replicate 12 (0%nat, Go false) ++ [(0%nat, Enter 0)] ++ replicate 6 (0%nat, Go false) ++
  [(1%nat, Enter 0)] ++ replicate 4 (1%nat, Go false).

Definition toy_rec_blocked : config toy_object unit :=
  default (start toy_rec_mutex 3) (run [sync_recursive_mutex_lock 16] (sync_recursive_mutex_unlock 16) true toy_rec_buffer
    toy_rec_schedule (start toy_rec_mutex 3)).

Lemma toy_rec_reachable :
  reachable [sync_recursive_mutex_lock 16] (sync_recursive_mutex_unlock 16) true toy_rec_buffer (start toy_rec_mutex 3) toy_rec_blocked.
Proof.
  unfold toy_rec_blocked. destruct (run _ _ _ _ toy_rec_schedule _) as [cfg|] eqn:Hrun; [|apply reach_start].
  eapply run_reachable; [apply reach_start|exact Hrun].
Qed.

Lemma recursive_mutex_exclusion_witness :
  cells (state toy_rec_blocked) !! mutex_owner 16 = Some (toy_rec_buffer 0) /\
  cells (state toy_rec_blocked) !! mutex_held 16 = Some 2.
Proof.
  destruct (recursive_mutex_exclusion 16 7 ltac:(discriminate) toy_rec_buffer (proj1 toy_rec_buffers) (proj2 toy_rec_buffers)
    1 toy_rec_shared toy_rec_mutex 3 toy_rec_blocked toy_rec_init toy_rec_unused toy_rec_reachable) as (_ & _ & Hrest).
  apply (Hrest 0%nat 1%nat). vm_compute. reflexivity.
Defined.

Lemma toy_rec_second : exists t, threads toy_rec_blocked !! 1%nat = Some t /\ blocked t = true.
Proof.
  assert (Hb : blocked <$> threads toy_rec_blocked !! 1%nat = Some true) by (vm_compute; reflexivity).
  destruct (threads toy_rec_blocked !! 1%nat) as [t|]; [|discriminate Hb].
  exists t. split; [reflexivity|]. by injection Hb.
Qed.

Lemma recursive_mutex_progress_witness : exists j ch cfg',
  step [sync_recursive_mutex_lock 16] (sync_recursive_mutex_unlock 16) true toy_rec_buffer j ch toy_rec_blocked = Some cfg' /\
  forall m, ch <> Enter m.
Proof.
  destruct toy_rec_second as (t & Ht & Hb).
  exact (recursive_mutex_progress 16 7 ltac:(discriminate) toy_rec_buffer (proj1 toy_rec_buffers) (proj2 toy_rec_buffers)
    1 toy_rec_shared toy_rec_mutex 3 toy_rec_blocked 1 t toy_rec_init toy_rec_unused toy_rec_reachable Ht Hb).
Defined.
