(* ===== verification/SyncCv.v ===== *)
(** Where the condition variables of libsel4sync (condition_var.h) lose
    wake-ups: two schedules that end with a waiter blocked for good although
    it was signalled, each an execution of the code of Sync.v. *)
From S2P Require Import Prelude Cspacepath Interfaces Objects Vka Sync SyncRun.

Section clients.
Context {W : Type}.

(** The lock at address 16 with notification 7; the condition variable at 32
    with notification 8. *)
Definition waiter : code W Z :=
  let^ _ := sync_mutex_lock 16 in
  let^ _ := sync_cv_wait 16 32 in
  sync_mutex_unlock 16.

Definition signal_twice : code W Z :=
  let^ _ := sync_mutex_lock 16 in
  let^ _ := sync_cv_signal 32 in
  let^ _ := sync_cv_signal 32 in
  sync_mutex_unlock 16.

Definition broadcaster : code W Z :=
  let^ _ := sync_mutex_lock 16 in
  let^ _ := sync_cv_broadcast 32 in
  sync_mutex_unlock 16.
End clients.

Definition cv_clients : list (code unit Z) := [waiter; signal_twice; broadcaster].
Definition cv_buffer (i : nat) : Z := 4096 + Z.of_nat i.

Definition cv_shared : shared toy_object unit :=
  Shared (list_to_map ((fun i => (16 + Z.of_nat i, 0)) <$> seq 0 24))
    {[ 7 := ToyObject false false [] []; 8 := ToyObject false false [] [] ]} tt.

(** After [sync_mutex_init(lock, 7)] and [sync_cv_init(cv, 8)]. *)
Definition cv_ready : shared toy_object unit :=
  match alone 20 1 (let^ _ := sync_mutex_init 16 7 in sync_cv_init 32 8) cv_shared with Ok (_, s) => s | Fault _ => cv_shared end.

Local Abbreviation cv_step := (step cv_clients (Ret 0) false cv_buffer).
Local Abbreviation cv_reachable := (reachable cv_clients (Ret 0) false cv_buffer).
Local Abbreviation cv_run := (run cv_clients (Ret 0) false cv_buffer).

(** Of each thread: the calls it has completed, whether it is blocked in the
    kernel, and whether it is between calls. *)
Definition resting (t : thread unit) : bool := match act t with Resting => true | _ => false end.
Definition summary (cfg : config toy_object unit) : list (nat * bool * bool) :=
  (fun t => (depth t, blocked t, resting t)) <$> threads cfg.

(** When every thread is blocked or at rest, nothing happens until a thread
    begins something new. *)
Definition quiescent (cfg : config toy_object unit) : Prop :=
  forall i b, cv_step i (Go b) cfg = None.

Lemma quiescent_summary cfg : forallb (fun x => x.1.2 || x.2) (summary cfg) = true -> quiescent cfg.
Proof.
  intros H i b. unfold step. destruct (threads cfg !! i) as [t|] eqn:Ht; [|done].
  assert (Hx : (depth t, blocked t, resting t) ∈ summary cfg) by (apply list_elem_of_fmap; exists t; split; [done|by eapply list_elem_of_lookup_2]).
  apply forallb_forall with (x := (depth t, blocked t, resting t)) in H; [|by apply list_elem_of_In].
  cbn in H. unfold resting in H. destruct (blocked t); [done|]. by destruct (act t).
Qed.

Definition go (i n : nat) : list (nat * choice) := replicate n (i, Go false).

(** The state a schedule leads to, when it can be followed. *)
Definition after (l : list (nat * choice)) (c : config toy_object unit) : config toy_object unit := default c (cv_run l c).
Definition follows (l : list (nat * choice)) (c : config toy_object unit) : bool :=
  match cv_run l c with Some _ => true | None => false end.

Lemma after_run l c : follows l c = true -> cv_run l c = Some (after l c).
Proof. unfold follows, after. by destruct (cv_run l c). Qed.

Lemma after_reachable l c0 c : follows l c = true -> cv_reachable c0 c -> cv_reachable c0 (after l c).
Proof. intros H Hc. eapply run_reachable; [exact Hc|by apply after_run]. Qed.

(** *** Signals that coalesce

    Two threads wait: they are counted and have released the lock, but have
    not reached the kernel.  A third thread signals twice. *)

Definition two_waiters : config toy_object unit :=
  after ([(0%nat, Enter 0)] ++ go 0 9 ++ [(1%nat, Enter 0)] ++ go 1 9) (start cv_ready 3).
Definition signalled_twice : config toy_object unit := after ([(2%nat, Enter 1)] ++ go 2 12) two_waiters.
Definition one_left : config toy_object unit := after (go 0 10 ++ go 1 1) signalled_twice.

Definition waiting_count (cfg : config toy_object unit) : option Z := cells (state cfg) !! cv_waiters 32.

(** Two calls of [sync_cv_signal] may wake one waiter only: in a state where
    two threads are counted as waiters and have released the lock, a thread
    signals twice under the lock and returns; then the first waiter returns,
    and the second stays blocked with no thread left to run. *)
Theorem cv_signals_coalesce :
  cv_reachable (start cv_ready 3) two_waiters /\ waiting_count two_waiters = Some 2 /\
  cv_reachable two_waiters signalled_twice /\
  summary signalled_twice = [(0%nat, false, false); (0%nat, false, false); (1%nat, false, true)] /\
  cv_reachable signalled_twice one_left /\ quiescent one_left /\ waiting_count one_left = Some 1 /\
  summary one_left = [(1%nat, false, true); (0%nat, true, false); (1%nat, false, true)].
Proof.
  split_and!.
  - apply after_reachable; [vm_compute; reflexivity|apply reach_start].
  - vm_compute. reflexivity.
  - apply after_reachable; [vm_compute; reflexivity|apply reach_start].
  - vm_compute. reflexivity.
  - apply after_reachable; [vm_compute; reflexivity|apply reach_start].
  - apply quiescent_summary. vm_compute. reflexivity.
  - vm_compute. reflexivity.
  - vm_compute. reflexivity.
Qed.

(** *** A broadcast that is cancelled

    Two threads are blocked in [sync_cv_wait].  A third broadcasts and
    releases the lock, which wakes the first; before it has the lock again a
    fourth thread begins to wait, and its call clears [broadcasting]. *)

Definition two_blocked : config toy_object unit :=
  after ([(0%nat, Enter 0)] ++ go 0 10 ++ [(1%nat, Enter 0)] ++ go 1 10) (start cv_ready 4).
Definition broadcasted : config toy_object unit := after ([(2%nat, Enter 2)] ++ go 2 10) two_blocked.
Definition newcomer : config toy_object unit := after ([(3%nat, Enter 0)] ++ go 3 10) broadcasted.
Definition broadcast_over : config toy_object unit := after (go 0 9) newcomer.

(** A call of [sync_cv_broadcast] may leave a waiter behind: of two threads
    blocked in [sync_cv_wait] at the time of the broadcast one stays blocked,
    because a third that begins to wait clears [broadcasting] before the
    woken thread passes the signal on; no thread is left to run. *)
Theorem cv_broadcast_cancelled :
  cv_reachable (start cv_ready 4) two_blocked /\
  summary two_blocked = [(0%nat, true, false); (0%nat, true, false); (0%nat, false, true); (0%nat, false, true)] /\
  cv_reachable two_blocked broadcasted /\
  summary broadcasted = [(0%nat, false, false); (0%nat, true, false); (1%nat, false, true); (0%nat, false, true)] /\
  cv_reachable broadcasted newcomer /\ cv_reachable newcomer broadcast_over /\ quiescent broadcast_over /\
  summary broadcast_over = [(1%nat, false, true); (0%nat, true, false); (1%nat, false, true); (0%nat, true, false)].
Proof.
  split_and!.
  - apply after_reachable; [vm_compute; reflexivity|apply reach_start].
  - vm_compute. reflexivity.
  - apply after_reachable; [vm_compute; reflexivity|apply reach_start].
  - vm_compute. reflexivity.
  - apply after_reachable; [vm_compute; reflexivity|apply reach_start].
  - apply after_reachable; [vm_compute; reflexivity|apply reach_start].
  - apply quiescent_summary. vm_compute. reflexivity.
  - vm_compute. reflexivity.
Qed.
