(* ===== verification/VspaceTables.v ===== *)
(** libsel4utils/include/sel4utils/vspace_internal.h and vspace.h: the records of
    an address space, a tree of tables shaped like the page tables of x86_64
    (four levels of 512 entries, sel4_arch/vspace.h), in which an entry is
    empty, reserved, or points to a table of the level below; at the bottom it
    holds a capability and the cookie of its untyped memory.

    Tables live in memory: two maps from addresses, one for each type; 0 is
    the null pointer.  Where the memory for a table comes from ([create_level]
    of vspace.c) is a parameter, the class [LevelMemory]. *)
From S2P Require Import Prelude.

Definition VSPACE_LEVEL_BITS : Z := 9.
Definition VSPACE_NUM_LEVELS : Z := 4.
Definition PAGE_BITS_4K : Z := 12.
Definition PAGE_SIZE_4K : Z := BIT PAGE_BITS_4K.
Definition VSPACE_LEVEL_SIZE : Z := BIT VSPACE_LEVEL_BITS.

Definition RESERVED : Z := word_size - 1.
Definition EMPTY : Z := 0.

Definition INDEX_FOR_LEVEL (addr l : Z) : Z :=
  Z.land (Z.shiftr addr (l * VSPACE_LEVEL_BITS + PAGE_BITS_4K)) (MASK VSPACE_LEVEL_BITS).
Definition TOP_LEVEL_INDEX (x : Z) : Z := INDEX_FOR_LEVEL x (VSPACE_NUM_LEVELS - 1).
Definition BYTES_FOR_LEVEL (l : Z) : Z := BIT (VSPACE_LEVEL_BITS * l + PAGE_BITS_4K).
Definition ALIGN_FOR_LEVEL (l : Z) : Z := wnot (MASK (VSPACE_LEVEL_BITS * l + PAGE_BITS_4K)).

Record vspace_mid_level_t : Type := MidLevel { table : list Z }.
Record vspace_bottom_level_t : Type := BottomLevel { cap : list Z; cookie : list Z }.
Definition sizeof_mid_level : Z := 4096.
Definition sizeof_bottom_level : Z := 8192.

(** A reservation; [rights] are the bits of an [seL4_CapRights_t]. *)
Record sel4utils_res_t : Type := Res {
  start : Z;
  end_ : Z;
  rights : Z;
  cacheable : Z;
  malloced : Z;
  rights_deferred : bool;
  next : Z
}.

(** [bootstrap] is the address of the address space that holds the tables, 0
    when the address space holds its own; [vka] and [map_page] are functions,
    which the model takes as parameters. *)
Record sel4utils_alloc_data_t : Type := AllocData {
  vspace_root : Z;
  top_level : Z;
  next_bootstrap_vaddr : Z;
  last_allocated : Z;
  bootstrap : Z;
  reservation_head : Z;
  is_empty : bool
}.

(** The memory an address space works on; [world] is the rest of the system. *)
Record vspace_mem (W : Type) : Type := VspaceMem {
  data : sel4utils_alloc_data_t;
  mids : gmap Z vspace_mid_level_t;
  bottoms : gmap Z vspace_bottom_level_t;
  reservations : gmap Z sel4utils_res_t;
  world : W
}.
Arguments VspaceMem {W} _ _ _ _ _.
Arguments data {W} _.
Arguments mids {W} _.
Arguments bottoms {W} _.
Arguments reservations {W} _.
Arguments world {W} _.

(** Memory for a table, filled with zeroes; null when there is none. *)
Class LevelMemory (W : Type) : Type :=
  create_level : Z -> M (sel4utils_alloc_data_t * W) Z.

Section tables.
Context {W : Type} `{LM : !LevelMemory W}.
Notation St := (vspace_mem W).

Definition set_mids (f : gmap Z vspace_mid_level_t -> gmap Z vspace_mid_level_t) (s : St) : St :=
  VspaceMem (data s) (f (mids s)) (bottoms s) (reservations s) (world s).
Definition set_bottoms (f : gmap Z vspace_bottom_level_t -> gmap Z vspace_bottom_level_t) (s : St) : St :=
  VspaceMem (data s) (mids s) (f (bottoms s)) (reservations s) (world s).
Definition set_reservations (f : gmap Z sel4utils_res_t -> gmap Z sel4utils_res_t) (s : St) : St :=
  VspaceMem (data s) (mids s) (bottoms s) (f (reservations s)) (world s).
Definition set_data (d : sel4utils_alloc_data_t) (s : St) : St :=
  VspaceMem d (mids s) (bottoms s) (reservations s) (world s).
Definition set_last_allocated (v : Z) (d : sel4utils_alloc_data_t) : sel4utils_alloc_data_t :=
  AllocData (vspace_root d) (top_level d) (next_bootstrap_vaddr d) v (bootstrap d) (reservation_head d) (is_empty d).

(** Code that works on [data] and the world only. *)
Definition in_world {A : Type} (m : M (sel4utils_alloc_data_t * W) A) : M St A :=
  fun s => res_bind (m (data s, world s)) (fun '(a, (d, w)) =>
    Ok (a, VspaceMem d (mids s) (bottoms s) (reservations s) w)).

(** An object behind a pointer: anything else is a fault. *)
Definition deref {A : Type} (o : option A) : M St A :=
  match o with
  | Some x => ret x
  | None => stop NullPointer
  end.

Definition load_entry (level index : Z) : M St Z :=
  let! s := gets id in
  let! t := deref (mids s !! level) in
  lift (arr_get (table t) index).
Definition store_entry (level index value : Z) : M St unit :=
  let! s := gets id in
  let! t := deref (mids s !! level) in
  let! l := lift (arr_set (table t) index value) in
  modify (set_mids (insert level (MidLevel l))).
Definition load_cap (level index : Z) : M St Z :=
  let! s := gets id in
  let! b := deref (bottoms s !! level) in
  lift (arr_get (cap b) index).
Definition load_cookie (level index : Z) : M St Z :=
  let! s := gets id in
  let! b := deref (bottoms s !! level) in
  lift (arr_get (cookie b) index).
(** [level->cap[index] = value; level->cookie[index] = c] *)
Definition store_page (level index value c : Z) : M St unit :=
  let! s := gets id in
  let! b := deref (bottoms s !! level) in
  let! caps := lift (arr_set (cap b) index value) in
  let! cookies := lift (arr_set (cookie b) index c) in
  modify (set_bottoms (insert level (BottomLevel caps cookies))).

Definition filled (x : Z) : list Z := replicate (Z.to_nat VSPACE_LEVEL_SIZE) x.

Definition create_mid_level (init : Z) : M St Z :=
  let! level := in_world (create_level sizeof_mid_level) in
  if level =? 0 then ret level else
  let! _ := modify (set_mids (insert level (MidLevel (filled init)))) in
  ret level.

Definition create_bottom_level (init : Z) : M St Z :=
  let! level := in_world (create_level sizeof_bottom_level) in
  if level =? 0 then ret level else
  let! _ := modify (set_bottoms (insert level (BottomLevel (filled init) (filled 0)))) in
  ret level.

(** *** The loops

    The functions below share their loops: over the entries of a table of
    pointers that a range covers, and over the pages of a range.  The body
    may return from the function ([Some]). *)
Definition rounds (l start end_ : Z) : nat := Z.to_nat ((end_ - start) / BYTES_FOR_LEVEL l + 2).

Fixpoint walk_mid {A : Type} (fuel : nat) (level_num : Z) (body : Z -> Z -> Z -> bool -> M St (option A))
    (start end_ : Z) : M St (option A) :=
  if negb (start <? end_) then ret None else
  match fuel with
  | O => stop OutOfFuel
  | S fuel =>
      let index := INDEX_FOR_LEVEL start level_num in
      let aligned_start := Z.land start (ALIGN_FOR_LEVEL level_num) in
      let next_start := aligned_start ⊞ BYTES_FOR_LEVEL level_num in
      let must_recurse := (end_ <? next_start) || negb (start =? aligned_start) in
      let next_start := if end_ <? next_start then end_ else next_start in
      let! r := body index start next_start must_recurse in
      match r with
      | Some a => ret (Some a)
      | None => walk_mid fuel level_num body next_start end_
      end
  end.

Fixpoint walk_bottom {A : Type} (fuel : nat) (body : Z -> M St (option A)) (start end_ : Z) : M St (option A) :=
  if negb (start <? end_) then ret None else
  match fuel with
  | O => stop OutOfFuel
  | S fuel =>
      let! r := body (INDEX_FOR_LEVEL start 0) in
      match r with
      | Some a => ret (Some a)
      | None => walk_bottom fuel body (start ⊞ BYTES_FOR_LEVEL 0) end_
      end
  end.

(** The value of the function when the loop has come to its end. *)
Definition or_else {A : Type} (default : A) (m : M St (option A)) : M St A :=
  let! r := m in ret (match r with Some a => a | None => default end).

(** [if (error) return error;] *)
Definition check (error : Z) : M St (option Z) :=
  ret (if error =? 0 then None else Some error).

Definition reserve_entries_bottom (level start end_ : Z) (preserve_frames : bool) : M St Z :=
  or_else 0 (walk_bottom (rounds 0 start end_) (fun index =>
    let! cap := load_cap level index in
    if cap =? RESERVED then ret (Some (-1)) else
    if negb (cap =? EMPTY) && preserve_frames then ret (Some (-1)) else
    let! _ := store_page level index RESERVED 0 in
    ret None) start end_).

(** The entry of a table of pointers to recurse into, or RESERVED. *)
Definition reserve_table (below : nat) (level index : Z) (must_recurse : bool) : M St (option Z) :=
  let! next_table := load_entry level index in
  if next_table =? RESERVED then ret None else
  if negb (next_table =? EMPTY) then ret (Some next_table) else
  let! next_table := if must_recurse
    then match below with O => create_bottom_level EMPTY | S _ => create_mid_level EMPTY end
    else ret RESERVED in
  if next_table =? EMPTY then ret None else
  let! _ := store_entry level index next_table in
  ret (Some next_table).

(** [below] is [level_num - 1], and so for the functions that follow. *)
Fixpoint reserve_entries_mid (below : nat) (level start end_ : Z) (preserve_frames : bool) : M St Z :=
  let level_num := Z.of_nat below + 1 in
  or_else 0 (walk_mid (rounds level_num start end_) level_num (fun index start next_start must_recurse =>
    let! t := reserve_table below level index must_recurse in
    match t with
    | None => ret (Some (-1))
    | Some next_table =>
        if next_table =? RESERVED then ret None else
        let! error := match below with
          | O => reserve_entries_bottom next_table start next_start preserve_frames
          | S below => reserve_entries_mid below next_table start next_start preserve_frames
          end in
        check error
    end) start end_).

Definition clear_entries_bottom (level start end_ : Z) (only_reserved : bool) : M St Z :=
  or_else 0 (walk_bottom (rounds 0 start end_) (fun index =>
    let! cap := load_cap level index in
    if negb (cap =? RESERVED) && only_reserved then ret (Some (-1)) else
    let! _ := store_page level index EMPTY 0 in
    ret None) start end_).

Fixpoint clear_entries_mid (below : nat) (level start end_ : Z) (only_reserved : bool) : M St Z :=
  let level_num := Z.of_nat below + 1 in
  or_else 0 (walk_mid (rounds level_num start end_) level_num (fun index start next_start _ =>
    let! next_table := load_entry level index in
    if next_table =? RESERVED then ret (Some (-1)) else
    if next_table =? EMPTY then ret None else
    let! error := match below with
      | O => clear_entries_bottom next_table start next_start only_reserved
      | S below => clear_entries_mid below next_table start next_start only_reserved
      end in
    check error) start end_).

Definition update_entries_bottom (level start end_ newcap newcookie : Z) : M St Z :=
  or_else 0 (walk_bottom (rounds 0 start end_) (fun index =>
    let! old_cap := load_cap level index in
    if negb (old_cap =? RESERVED) && negb (old_cap =? EMPTY) then ret (Some (-1)) else
    let! _ := store_page level index newcap newcookie in
    ret None) start end_).

(** The table to recurse into, made if need be; null when there is no memory. *)
Definition update_table (below : nat) (level index : Z) : M St Z :=
  let! next_table := load_entry level index in
  if negb ((next_table =? EMPTY) || (next_table =? RESERVED)) then ret next_table else
  let! next_table := match below with
    | O => create_bottom_level next_table
    | S _ => create_mid_level next_table
    end in
  if next_table =? EMPTY then ret next_table else
  let! _ := store_entry level index next_table in
  ret next_table.

Fixpoint update_entries_mid (below : nat) (level start end_ newcap newcookie : Z) : M St Z :=
  let level_num := Z.of_nat below + 1 in
  or_else 0 (walk_mid (rounds level_num start end_) level_num (fun index start next_start _ =>
    let! next_table := update_table below level index in
    if next_table =? EMPTY then ret (Some (-1)) else
    let! error := match below with
      | O => update_entries_bottom next_table start next_start newcap newcookie
      | S below => update_entries_mid below next_table start next_start newcap newcookie
      end in
    check error) start end_).

Definition is_reserved_or_empty_bottom (level start end_ good bad : Z) : M St bool :=
  or_else true (walk_bottom (rounds 0 start end_) (fun index =>
    let! cap := load_cap level index in
    if negb (cap =? good) then ret (Some false) else ret None) start end_).

Fixpoint is_reserved_or_empty_mid (below : nat) (level start end_ good bad : Z) : M St bool :=
  let level_num := Z.of_nat below + 1 in
  or_else true (walk_mid (rounds level_num start end_) level_num (fun index start next_start _ =>
    let! next_table := load_entry level index in
    if next_table =? bad then ret (Some false) else
    if next_table =? good then ret None else
    let! succ := match below with
      | O => is_reserved_or_empty_bottom next_table start next_start good bad
      | S below => is_reserved_or_empty_mid below next_table start next_start good bad
      end in
    ret (if negb succ then Some false else None)) start end_).

(** The number of levels of pointers less one: [VSPACE_NUM_LEVELS - 2]. *)
Definition top_below : nat := Z.to_nat (VSPACE_NUM_LEVELS - 2).

Definition update_entries (vaddr newcap size_bits newcookie : Z) : M St Z :=
  let! d := gets data in
  update_entries_mid top_below (top_level d) vaddr (vaddr ⊞ BIT size_bits) newcap newcookie.

Definition reserve_entries_range (start end_ : Z) (preserve_frames : bool) : M St Z :=
  let! d := gets data in
  reserve_entries_mid top_below (top_level d) start end_ preserve_frames.

Definition reserve_entries (vaddr size_bits : Z) : M St Z :=
  reserve_entries_range vaddr (vaddr ⊞ BIT size_bits) false.

Definition clear_entries_range (start end_ : Z) (only_reserved : bool) : M St Z :=
  let! d := gets data in
  let! error := clear_entries_mid top_below (top_level d) start end_ only_reserved in
  if negb (error =? 0) then ret error else
  let! _ := modify (fun s =>
    if start <? last_allocated (data s) then set_data (set_last_allocated start (data s)) s else s) in
  ret 0.

Definition clear_entries (vaddr size_bits : Z) : M St Z :=
  clear_entries_range vaddr (vaddr ⊞ BIT size_bits) false.

Definition is_reserved_or_empty_range (top_level start end_ good bad : Z) : M St bool :=
  is_reserved_or_empty_mid top_below top_level start end_ good bad.
Definition is_reserved_or_empty (top_level vaddr size_bits good bad : Z) : M St bool :=
  is_reserved_or_empty_range top_level vaddr (vaddr ⊞ BIT size_bits) good bad.
Definition is_available_range (top_level start end_ : Z) : M St bool :=
  is_reserved_or_empty_range top_level start end_ EMPTY RESERVED.
Definition is_available (top_level vaddr size_bits : Z) : M St bool :=
  is_reserved_or_empty top_level vaddr size_bits EMPTY RESERVED.
Definition is_reserved_range (top_level start end_ : Z) : M St bool :=
  is_reserved_or_empty_range top_level start end_ RESERVED EMPTY.
Definition is_reserved (top_level vaddr size_bits : Z) : M St bool :=
  is_reserved_or_empty top_level vaddr size_bits RESERVED EMPTY.

(** The bottom table of an address, [None] when the walk ends above it: the
    loop of [get_cap] and [get_cookie] over levels [i] to 2, then level 1. *)
Fixpoint bottom_of (i : nat) (level vaddr : Z) : M St (option Z) :=
  let! next := load_entry level (INDEX_FOR_LEVEL vaddr (Z.of_nat i + 1)) in
  if (next =? EMPTY) || (next =? RESERVED) then ret None else
  match i with
  | O => ret (Some next)
  | S i => bottom_of i next vaddr
  end.

Definition get_cap (top vaddr : Z) : M St Z :=
  let! b := bottom_of top_below top vaddr in
  match b with
  | None => ret 0
  | Some bottom => load_cap bottom (INDEX_FOR_LEVEL vaddr 0)
  end.

Definition get_cookie (top vaddr : Z) : M St Z :=
  let! b := bottom_of top_below top vaddr in
  match b with
  | None => ret 0
  | Some bottom => load_cookie bottom (INDEX_FOR_LEVEL vaddr 0)
  end.

End tables.
