(* ===== verification/VspaceView.v ===== *)
(** The address-space records (VspaceTables.v) as a map from pages to what is
    recorded of them, the invariant of the tables, and what the walks over them
    do to that map.

    Pages are numbered: page [p] is at address [p * PAGE_SIZE_4K].  The tables
    of x86_64 cover [pages] of them, which is more than the addresses a
    process can use. *)
From S2P Require Import Prelude VspaceTables.

(** ** Pages and entries *)

Definition pages : Z := 2 ^ 36.
Definition addr (p : Z) : Z := p * PAGE_SIZE_4K.

(** The pages one entry of a table at a level covers. *)
Definition span (l : Z) : Z := 2 ^ (VSPACE_LEVEL_BITS * l).

Lemma PAGE_SIZE_4K_eq : PAGE_SIZE_4K = 4096.
Proof. reflexivity. Qed.

Lemma span_pos (l : Z) : 0 <= l -> 0 < span l.
Proof. intros H. apply Z.pow_pos_nonneg; unfold VSPACE_LEVEL_BITS; lia. Qed.

Lemma span_succ (l : Z) : 0 <= l -> span (l + 1) = 512 * span l.
Proof.
  intros H. unfold span, VSPACE_LEVEL_BITS. rewrite Z.mul_add_distr_l, Z.pow_add_r by lia. lia.
Qed.

Lemma span_bytes (l : Z) : 0 <= l -> 2 ^ (VSPACE_LEVEL_BITS * l + PAGE_BITS_4K) = span l * PAGE_SIZE_4K.
Proof.
  intros H. rewrite PAGE_SIZE_4K_eq. unfold span, VSPACE_LEVEL_BITS, PAGE_BITS_4K.
  rewrite Z.pow_add_r by lia. reflexivity.
Qed.

Lemma BYTES_span (l : Z) : 0 <= l <= 3 -> BYTES_FOR_LEVEL l = span l * PAGE_SIZE_4K.
Proof.
  intros H. unfold BYTES_FOR_LEVEL.
  rewrite BIT_pow by (unfold VSPACE_LEVEL_BITS, PAGE_BITS_4K; lia). apply span_bytes. lia.
Qed.

Lemma INDEX_span (p l : Z) : 0 <= p -> 0 <= l -> INDEX_FOR_LEVEL (addr p) l = (p / span l) mod 512.
Proof.
  intros Hp Hl. unfold INDEX_FOR_LEVEL, addr.
  rewrite land_MASK by (unfold VSPACE_LEVEL_BITS; lia).
  rewrite shiftr_div by (unfold VSPACE_LEVEL_BITS, PAGE_BITS_4K; lia).
  rewrite Z.mul_comm with (n := l), span_bytes by lia.
  pose proof (span_pos l Hl). rewrite Z.div_mul_cancel_r by (rewrite ?PAGE_SIZE_4K_eq; lia). reflexivity.
Qed.

Lemma wnot_MASK (x n : Z) : is_word x -> 0 <= n < 64 -> Z.land x (wnot (MASK n)) = x / 2 ^ n * 2 ^ n.
Proof.
  intros Hx Hn. rewrite <- Z.shiftl_mul_pow2, <- Z.shiftr_div_pow2 by lia.
  rewrite <- Z.ldiff_ones_r by lia. apply Z.bits_inj'. intros i Hi.
  rewrite Z.land_spec, Z.ldiff_spec.
  destruct (decide (i < 64)).
  - rewrite wnot_testbit, MASK_ones by lia. done.
  - rewrite (word_testbit_high x) by (done || lia). done.
Qed.

Lemma pages_word (p : Z) : 0 <= p <= pages -> is_word (addr p).
Proof. unfold pages, addr, is_word, word_size. rewrite PAGE_SIZE_4K_eq. lia. Qed.

Lemma span_bound (l : Z) : 0 <= l <= 3 -> span l <= 2 ^ 27.
Proof. intros H. apply Z.pow_le_mono_r; unfold VSPACE_LEVEL_BITS; lia. Qed.

Lemma next_block (p l : Z) : 0 <= p < pages -> 0 <= l <= 3 ->
  Z.land (addr p) (ALIGN_FOR_LEVEL l) ⊞ BYTES_FOR_LEVEL l = addr ((p / span l + 1) * span l) /\
  Z.land (addr p) (ALIGN_FOR_LEVEL l) = addr (p / span l * span l).
Proof.
  intros Hp Hl. pose proof (span_pos l ltac:(lia)) as Hs. pose proof (span_bound l Hl).
  unfold ALIGN_FOR_LEVEL. rewrite wnot_MASK.
  2: apply pages_word; lia.
  2: unfold VSPACE_LEVEL_BITS, PAGE_BITS_4K; lia.
  rewrite span_bytes, BYTES_span by lia.
  replace (addr p / (span l * PAGE_SIZE_4K)) with (p / span l)
    by (unfold addr; rewrite Z.div_mul_cancel_r; [done|lia|rewrite PAGE_SIZE_4K_eq; lia]).
  split; [|unfold addr; lia].
  assert (Hm : p / span l * span l <= p) by (rewrite Z.mul_comm; apply Z.mul_div_le; lia).
  assert (0 <= p / span l) by (apply Z.div_pos; lia).
  rewrite wrap_small.
  - unfold addr. lia.
  - assert (0 <= p / span l * span l) by (apply Z.mul_nonneg_nonneg; lia).
    unfold addr. revert Hp. unfold pages. rewrite PAGE_SIZE_4K_eq. unfold is_word, word_size. lia.
Qed.

Lemma addr_ltb (p q : Z) : (addr p <? addr q) = (p <? q).
Proof. unfold addr. rewrite PAGE_SIZE_4K_eq. destruct (Z.ltb_spec p q), (Z.ltb_spec (p * 4096) (q * 4096)); lia. Qed.

Lemma addr_eqb (p q : Z) : (addr p =? addr q) = (p =? q).
Proof. unfold addr. rewrite PAGE_SIZE_4K_eq. destruct (Z.eqb_spec p q), (Z.eqb_spec (p * 4096) (q * 4096)); lia. Qed.

(** Entry [i] of a table that covers block [blk] is block [blk * 512 + i] of the
    level below. *)
Lemma block_split (p l : Z) : 0 <= l -> (p / span (l + 1)) * 512 + (p / span l) mod 512 = p / span l.
Proof.
  intros Hl. rewrite span_succ, (Z.mul_comm 512), <- Z.div_div by (pose proof (span_pos l Hl); lia).
  pose proof (Z.div_mod (p / span l) 512). lia.
Qed.

Lemma pages_top (p : Z) : 0 <= p < pages -> p / span 4 = 0.
Proof. intros H. apply Z.div_small. exact H. Qed.

(** ** The loops, page by page *)

Section walks.
Context {W : Type}.
Notation St := (vspace_mem W).

(** The end of the part of the range that one entry covers. *)
Definition part_end (l b p : Z) : Z := Z.min b ((p / span l + 1) * span l).

Lemma part_end_bounds (l b p : Z) : 0 <= l -> p < b ->
  p < part_end l b p <= b /\ p / span l * span l <= p /\ part_end l b p <= (p / span l + 1) * span l.
Proof.
  intros Hl Hp. unfold part_end. pose proof (span_pos l Hl) as Hs.
  pose proof (Z.div_mod p (span l)). pose proof (Z.mod_pos_bound p (span l) Hs). nia.
Qed.

(** A loop over the entries of a table: an invariant [P] of the page reached. *)
Lemma walk_mid_from {A : Type} (l : Z) (body : Z -> Z -> Z -> bool -> M St (option A)) (a b : Z)
    (P : Z -> St -> Prop) (Q : A -> St -> Prop) :
  0 <= l <= 3 -> 0 <= a -> b <= pages ->
  (forall p s, a <= p < b -> P p s ->
    exists r s', body ((p / span l) mod 512) (addr p) (addr (part_end l b p))
        ((b <? (p / span l + 1) * span l) || negb (p =? p / span l * span l)) s = Ok (r, s') /\
      match r with None => P (part_end l b p) s' | Some x => Q x s' end) ->
  forall fuel p s, a <= p <= b -> (p < b -> (b - 1) / span l - p / span l < Z.of_nat fuel) -> P p s ->
  exists r s', walk_mid fuel l body (addr p) (addr b) s = Ok (r, s') /\
    match r with None => P b s' | Some x => Q x s' end.
Proof.
  intros Hl Ha Hb Hbody fuel. pose proof (span_pos l ltac:(lia)) as Hs.
  induction fuel as [|fuel IH]; intros p s Hin Hfuel HP; cbn [walk_mid]; rewrite addr_ltb.
  all: destruct (Z.ltb_spec p b); cbn [negb];
    [|replace b with p in * by lia; exists None, s; done].
  { specialize (Hfuel ltac:(lia)). pose proof (Z.div_le_mono p (b - 1) (span l)). lia. }
  destruct (next_block p l) as [-> ->]; [lia|lia|].
  rewrite INDEX_span, !addr_ltb, addr_eqb by lia.
  pose proof (part_end_bounds l b p ltac:(lia) ltac:(lia)) as (Hn & Hlow & Hhigh).
  destruct (Hbody p s ltac:(lia) HP) as (r & s' & Heq & Hr).
  replace (if b <? (p / span l + 1) * span l then addr b else addr ((p / span l + 1) * span l))
    with (addr (part_end l b p))
    by (unfold part_end; destruct (Z.ltb_spec b ((p / span l + 1) * span l)); f_equal; lia).
  rewrite (bind_ok _ _ _ _ _ Heq).
  destruct r as [x|]; [exists (Some x), s'; done|].
  apply IH; [lia| |done]. intros Hnb. specialize (Hfuel ltac:(lia)).
  assert (part_end l b p = (p / span l + 1) * span l) as -> by (unfold part_end in *; lia).
  rewrite Z.div_mul by lia. lia.
Qed.

Lemma rounds_enough (l a b : Z) : 0 <= l <= 3 -> 0 <= a <= b ->
  (b - 1) / span l - a / span l < Z.of_nat (rounds l (addr a) (addr b)).
Proof.
  intros Hl Hab. pose proof (span_pos l ltac:(lia)) as Hs.
  unfold rounds, addr. rewrite BYTES_span, <- Z.mul_sub_distr_r, Z.div_mul_cancel_r
    by (rewrite ?PAGE_SIZE_4K_eq; lia).
  assert (0 <= (b - a) / span l) by (apply Z.div_pos; lia).
  assert ((b - 1) / span l < a / span l + ((b - a) / span l + 2)); [|lia].
  apply Z.div_lt_upper_bound; [lia|].
  pose proof (Z.div_mod (b - a) (span l)). pose proof (Z.mod_pos_bound (b - a) (span l) Hs).
  pose proof (Z.div_mod a (span l)). pose proof (Z.mod_pos_bound a (span l) Hs). lia.
Qed.

Lemma walk_mid_rule {A : Type} (l : Z) (body : Z -> Z -> Z -> bool -> M St (option A)) (a b : Z)
    (P : Z -> St -> Prop) (Q : A -> St -> Prop) (s : St) :
  0 <= l <= 3 -> 0 <= a <= b -> b <= pages -> P a s ->
  (forall p s, a <= p < b -> P p s ->
    exists r s', body ((p / span l) mod 512) (addr p) (addr (part_end l b p))
        ((b <? (p / span l + 1) * span l) || negb (p =? p / span l * span l)) s = Ok (r, s') /\
      match r with None => P (part_end l b p) s' | Some x => Q x s' end) ->
  exists r s', walk_mid (rounds l (addr a) (addr b)) l body (addr a) (addr b) s = Ok (r, s') /\
    match r with None => P b s' | Some x => Q x s' end.
Proof.
  intros Hl Hab Hb HP Hbody. eapply walk_mid_from; [done|apply Hab|done|exact Hbody|lia| |done].
  intros _. by apply rounds_enough.
Qed.

(** A loop over pages. *)
Lemma walk_bottom_rule {A : Type} (body : Z -> M St (option A)) (a b : Z)
    (P : Z -> St -> Prop) (Q : A -> St -> Prop) (s : St) :
  0 <= a <= b -> b <= pages -> P a s ->
  (forall p s, a <= p < b -> P p s ->
    exists r s', body (p mod 512) s = Ok (r, s') /\
      match r with None => P (p + 1) s' | Some x => Q x s' end) ->
  exists r s', walk_bottom (rounds 0 (addr a) (addr b)) body (addr a) (addr b) s = Ok (r, s') /\
    match r with None => P b s' | Some x => Q x s' end.
Proof.
  intros Hab Hb HP Hbody.
  pose proof (rounds_enough 0 a b ltac:(lia) Hab) as Hfuel. revert Hfuel.
  change (span 0) with 1. rewrite !Z.div_1_r.
  generalize (rounds 0 (addr a) (addr b)). intros fuel Hfuel.
  assert (Hgen : forall p s, a <= p <= b -> b - 1 - p < Z.of_nat fuel -> P p s ->
    exists r s', walk_bottom fuel body (addr p) (addr b) s = Ok (r, s') /\
    match r with None => P b s' | Some x => Q x s' end); [|apply Hgen; done || lia].
  clear s HP Hfuel. induction fuel as [|fuel IH]; intros p s Hin Hfuel HP; cbn [walk_bottom]; rewrite addr_ltb.
  all: destruct (Z.ltb_spec p b); cbn [negb]; [|replace b with p in * by lia; exists None, s; done].
  { lia. }
  rewrite INDEX_span by lia. change (span 0) with 1. rewrite Z.div_1_r.
  destruct (Hbody p s ltac:(lia) HP) as (r & s' & Heq & Hr). rewrite (bind_ok _ _ _ _ _ Heq).
  destruct r as [x|]; [exists (Some x), s'; done|].
  replace (addr p ⊞ BYTES_FOR_LEVEL 0) with (addr (p + 1)); [apply IH; done || lia|].
  rewrite BYTES_span by lia. change (span 0) with 1. rewrite wrap_small; [unfold addr; lia|].
  replace (addr p + 1 * PAGE_SIZE_4K) with (addr (p + 1)) by (unfold addr; lia). apply pages_word. lia.
Qed.
End walks.

(** ** What the tables say of a page *)

Definition is_ptr (e : Z) : Prop := e <> EMPTY /\ e <> RESERVED.

#[export] Instance is_ptr_dec (e : Z) : Decision (is_ptr e).
Proof. unfold is_ptr. apply _. Defined.

Definition nth_or (l : list Z) (i : Z) : Z := default 0 (l !! Z.to_nat i).

(** The entry of page [p] [d] levels below the top: the address of a table of
    level [3 - d], or what stopped the walk above it. *)
Fixpoint entry {W} (s : vspace_mem W) (d : nat) (p : Z) : Z :=
  match d with
  | O => top_level (data s)
  | S d =>
      let a := entry s d p in
      if decide (is_ptr a) then
        nth_or (from_option table [] (mids s !! a)) ((p / span (3 - Z.of_nat d)) mod 512)
      else a
  end.

(** Whether page [p] has a record of its own, and the capability and cookie
    recorded for it. *)
Definition own {W} (s : vspace_mem W) (p : Z) : bool := bool_decide (is_ptr (entry s 3 p)).
Definition recorded {W} (s : vspace_mem W) (p : Z) : Z * Z :=
  let a := entry s 3 p in
  if decide (is_ptr a) then
    (nth_or (from_option cap [] (bottoms s !! a)) (p mod 512),
     nth_or (from_option cookie [] (bottoms s !! a)) (p mod 512))
  else (a, 0).

(** Memory for tables: a fresh address that is no entry's special value, or
    null; of the address space's own data only [next_bootstrap_vaddr] moves.
    [other_blocks] is the memory in use for anything else. *)
Definition with_next_bootstrap (v : Z) (d : sel4utils_alloc_data_t) : sel4utils_alloc_data_t :=
  AllocData (vspace_root d) (top_level d) v (last_allocated d) (bootstrap d) (reservation_head d) (is_empty d).

Lemma with_next_same (d : sel4utils_alloc_data_t) : with_next_bootstrap (next_bootstrap_vaddr d) d = d.
Proof. by destruct d. Qed.

Class LevelMemoryLaws (W : Type) `{!LevelMemory W} : Type := {
  level_addrs : sel4utils_alloc_data_t * W -> gset Z;
  other_blocks : W -> gset Z;
  create_level_law : forall size d w, exists p v w',
    create_level size (d, w) = Ok (p, (with_next_bootstrap v d, w')) /\ other_blocks w' = other_blocks w /\
    ((p = 0 /\ level_addrs (with_next_bootstrap v d, w') = level_addrs (d, w)) \/
     (is_ptr p /\ p ∉ level_addrs (d, w) /\
      level_addrs (with_next_bootstrap v d, w') = {[p]} ∪ level_addrs (d, w)));
  level_addrs_data : forall d d' w, next_bootstrap_vaddr d = next_bootstrap_vaddr d' ->
    level_addrs (d, w) = level_addrs (d', w)
}.

Section invariant.
Context {W : Type} `{LL : LevelMemoryLaws W}.
Notation St := (vspace_mem W).

(** A level: the table at address [a] has level [l] and covers block [blk]. *)
Notation levels := (gmap Z (nat * Z)).

Definition entry_ok (g : levels) (l : nat) (blk e : Z) : Prop :=
  is_ptr e -> g !! e = Some (l, blk).

(** The tables form a tree: what level each table has and which pages it
    covers is [g], and every pointer agrees with it. *)
Record wf_tables (g : levels) (s : St) : Prop := {
  wf_top : g !! top_level (data s) = Some (3%nat, 0);
  wf_mids : forall a l blk, g !! a = Some (S l, blk) -> exists t, mids s !! a = Some t /\
    length (table t) = 512%nat /\
    forall i, 0 <= i < 512 -> entry_ok g l (blk * 512 + i) (nth_or (table t) i);
  wf_bottoms : forall a blk, g !! a = Some (O, blk) -> exists b, bottoms s !! a = Some b /\
    length (cap b) = 512%nat /\ length (cookie b) = 512%nat;
  wf_ptrs : forall a lb, g !! a = Some lb -> is_ptr a /\ a ∈ level_addrs (data s, world s)
}.

Definition wf (s : St) : Prop := exists g, wf_tables g s.

Lemma arr_get_nth (l : list Z) (i : Z) : length l = 512%nat -> 0 <= i < 512 -> arr_get l i = Ok (nth_or l i).
Proof.
  intros Hl Hi. destruct (arr_get_in l i) as (x & -> & Hx); [lia|].
  unfold nth_or. by rewrite Hx.
Qed.

Lemma nth_or_insert (l : list Z) (i j x : Z) : length l = 512%nat -> 0 <= i < 512 -> 0 <= j ->
  nth_or (<[Z.to_nat i := x]> l) j = if bool_decide (i = j) then x else nth_or l j.
Proof.
  intros Hl Hi Hj. unfold nth_or. rewrite lookup_insert_Z by lia. by case_bool_decide.
Qed.

Lemma nth_or_filled (x i : Z) : 0 <= i < 512 -> nth_or (filled x) i = x.
Proof. intros Hi. unfold nth_or, filled. rewrite lookup_replicate_2; [done|]. change VSPACE_LEVEL_SIZE with 512. lia. Qed.

Lemma entry_typed (g : levels) (s : St) (d : nat) (p : Z) :
  wf_tables g s -> 0 <= p < pages -> (d <= 3)%nat -> is_ptr (entry s d p) ->
  g !! entry s d p = Some ((3 - d)%nat, p / span (4 - Z.of_nat d)).
Proof.
  intros Hwf Hp. induction d as [|d IH]; intros Hd Hptr.
  - change (4 - Z.of_nat 0) with 4. rewrite pages_top by done. apply (wf_top _ _ Hwf).
  - cbn [entry] in *. destruct (decide (is_ptr (entry s d p))) as [Ha|]; [|done].
    specialize (IH ltac:(lia) Ha). replace (3 - d)%nat with (S (3 - S d)) in IH by lia.
    destruct (wf_mids _ _ Hwf _ _ _ IH) as (t & Ht & Hlen & Hok). rewrite Ht in *. cbn [from_option] in *.
    pose proof (Hok ((p / span (3 - Z.of_nat d)) mod 512) ltac:(apply Z.mod_pos_bound; lia) Hptr) as Hg.
    rewrite Hg. replace (4 - Z.of_nat d) with (3 - Z.of_nat d + 1) by lia.
    rewrite block_split by lia. by replace (4 - Z.of_nat (S d)) with (3 - Z.of_nat d) by lia.
Qed.

(** The table of level [l] for block [blk] is at [a]. *)
Definition reached (s : St) (l : nat) (blk a : Z) : Prop :=
  forall p, 0 <= p < pages -> p / span (Z.of_nat l + 1) = blk -> entry s (3 - l) p = a.

(** The state of an address space moves on: its tables stay. *)
Record evolves (s s' : St) : Prop := {
  ev_data : exists v, data s' = with_next_bootstrap v (data s);
  ev_reservations : reservations s' = reservations s;
  ev_blocks : other_blocks (world s') = other_blocks (world s);
  ev_entry : forall d p, 0 <= p < pages -> (d <= 3)%nat -> is_ptr (entry s d p) -> entry s' d p = entry s d p
}.

Lemma evolves_refl (s : St) : evolves s s.
Proof. split; [|done|done|done]. exists (next_bootstrap_vaddr (data s)). by destruct (data s). Qed.

Lemma evolves_trans (s1 s2 s3 : St) : evolves s1 s2 -> evolves s2 s3 -> evolves s1 s3.
Proof.
  intros [[v Hd] Hr Hb He] [[v' Hd'] Hr' Hb' He']. split.
  - exists v'. by rewrite Hd', Hd.
  - congruence.
  - congruence.
  - intros d p Hp Hlev Hptr. rewrite He'; [by apply He|done|done|]. by rewrite He.
Qed.

Lemma evolves_top (s s' : St) : evolves s s' -> top_level (data s') = top_level (data s).
Proof. intros [[v ->] _ _ _]. done. Qed.

Lemma evolves_reached (s s' : St) (l : nat) (blk a : Z) :
  evolves s s' -> is_ptr a -> reached s l blk a -> reached s' l blk a.
Proof. intros Hev Ha Hr p Hp Hblk. rewrite (ev_entry _ _ Hev); [by apply Hr|done|lia|]. by rewrite Hr. Qed.

Lemma reached_top (s : St) : reached s 3 0 (top_level (data s)).
Proof. intros p Hp Hblk. done. Qed.

(** Tables of different blocks are different, so a change of one leaves the
    pages of the others alone. *)
Lemma reached_typed (g : levels) (s : St) (l : nat) (blk a : Z) :
  wf_tables g s -> reached s l blk a -> is_ptr a -> (l <= 3)%nat -> 0 <= blk < 2 ^ (9 * (3 - Z.of_nat l)) ->
  g !! a = Some (l, blk).
Proof.
  intros Hwf Hr Ha Hl Hblk.
  set (p := blk * span (Z.of_nat l + 1)).
  pose proof (span_pos (Z.of_nat l + 1) ltac:(lia)) as Hs.
  assert (Hp : 0 <= p < pages).
  { unfold p, pages. split; [nia|].
    replace (2 ^ 36) with (2 ^ (9 * (3 - Z.of_nat l)) * span (Z.of_nat l + 1)); [nia|].
    unfold span, VSPACE_LEVEL_BITS. rewrite <- Z.pow_add_r by lia. apply (f_equal (Z.pow 2)). lia. }
  assert (Hpb : p / span (Z.of_nat l + 1) = blk) by (unfold p; by apply Z.div_mul; lia).
  specialize (Hr p Hp Hpb).
  pose proof (entry_typed g s (3 - l) p Hwf Hp ltac:(lia)) as Ht. rewrite Hr in Ht.
  rewrite (Ht Ha). replace (3 - (3 - l))%nat with l by lia.
  by replace (4 - Z.of_nat (3 - l)) with (Z.of_nat l + 1) by lia; rewrite Hpb.
Qed.

(** *** Writing an entry of a table of pointers *)

Definition ent (s : St) (a i : Z) : Z := nth_or (from_option table [] (mids s !! a)) i.
Definition put_entry (a i x : Z) (s : St) : St :=
  set_mids (insert a (MidLevel (<[Z.to_nat i := x]> (from_option table [] (mids s !! a))))) s.

Lemma entry_S (s : St) (d : nat) (p : Z) :
  entry s (S d) p = if decide (is_ptr (entry s d p)) then ent s (entry s d p) ((p / span (3 - Z.of_nat d)) mod 512)
                    else entry s d p.
Proof. reflexivity. Qed.

Lemma entry_stuck (s : St) (d e : nat) (p : Z) :
  ~ is_ptr (entry s d p) -> (d <= e)%nat -> entry s e p = entry s d p.
Proof.
  intros Hn Hle. induction Hle as [|e Hle IH]; [done|].
  rewrite entry_S, IH. by rewrite decide_False.
Qed.

Lemma recorded_ext (s s' : St) (p : Z) : entry s' 3 p = entry s 3 p ->
  (is_ptr (entry s 3 p) -> bottoms s' !! entry s 3 p = bottoms s !! entry s 3 p) ->
  recorded s' p = recorded s p /\ own s' p = own s p.
Proof.
  intros He Hb. unfold recorded, own. rewrite He. destruct (decide _); [by rewrite Hb|done].
Qed.

Lemma recorded_stuck (s : St) (d : nat) (p e : Z) :
  entry s d p = e -> ~ is_ptr e -> (d <= 3)%nat -> recorded s p = (e, 0) /\ own s p = false.
Proof.
  intros He Hn Hd. unfold recorded, own.
  rewrite (entry_stuck s d 3 p), He by (rewrite ?He; done).
  rewrite decide_False, bool_decide_eq_false_2 by done. done.
Qed.

Section put.
Context (g : levels) (s : St) (Hwf : wf_tables g s).
Context (l : nat) (blk a i : Z) (Ha : g !! a = Some (S l, blk)) (Hi : 0 <= i < 512).

Lemma load_entry_ok : load_entry a i s = Ok (ent s a i, s).
Proof.
  destruct (wf_mids _ _ Hwf _ _ _ Ha) as (t & Ht & Hlen & _).
  unfold load_entry, ent, bind, gets, deref, ret, lift. cbn -[arr_get]. rewrite Ht. cbn -[arr_get].
  rewrite arr_get_nth by done. done.
Qed.

Lemma store_entry_ok (x : Z) : store_entry a i x s = Ok (tt, put_entry a i x s).
Proof.
  destruct (wf_mids _ _ Hwf _ _ _ Ha) as (t & Ht & Hlen & _).
  unfold store_entry, put_entry, bind, gets, deref, ret, lift. cbn -[arr_set]. rewrite Ht. cbn -[arr_set].
  rewrite arr_set_in by lia. done.
Qed.

Lemma ent_put (a' j x : Z) : 0 <= j ->
  ent (put_entry a i x s) a' j = if bool_decide (a = a' /\ i = j) then x else ent s a' j.
Proof.
  intros Hj. destruct (wf_mids _ _ Hwf _ _ _ Ha) as (t & Ht & Hlen & _).
  unfold ent, put_entry. cbn [mids set_mids].
  destruct (decide (a = a')) as [<-|Hne].
  - rewrite lookup_insert_eq, Ht. cbn [from_option table]. rewrite nth_or_insert by done.
    repeat case_bool_decide; naive_solver.
  - rewrite lookup_insert_ne by done. rewrite bool_decide_eq_false_2; [done|tauto].
Qed.

Lemma put_entry_wf (x : Z) : entry_ok g l (blk * 512 + i) x -> wf_tables g (put_entry a i x s).
Proof.
  intros Hx. destruct Hwf as [Htop Hmids Hbot Hptr]. split; [done| |done|done].
  intros a' l' blk' Ha'. destruct (Hmids _ _ _ Ha') as (t & Ht & Hlen & Hok).
  unfold put_entry. cbn [mids set_mids].
  destruct (decide (a = a')) as [<-|Hne]; [|rewrite lookup_insert_ne by done; by exists t].
  rewrite lookup_insert_eq, Ht. eexists. split; [done|]. cbn [from_option table].
  split; [by rewrite length_insert|]. rewrite Ha in Ha'. simplify_eq.
  intros j Hj. rewrite nth_or_insert by (done || lia). case_bool_decide; [by subst|by apply Hok].
Qed.

(** Pages elsewhere, and the tables above, do not see the change. *)
Lemma entry_put_other (x : Z) (d : nat) (p : Z) : 0 <= p < pages -> (d <= 3)%nat ->
  p / span (Z.of_nat (S l)) <> blk * 512 + i \/ (d <= 3 - S l)%nat ->
  entry (put_entry a i x s) d p = entry s d p.
Proof.
  intros Hp. induction d as [|d IH]; intros Hd Hor; [done|].
  rewrite !entry_S, IH by (lia || tauto). destruct (decide (is_ptr (entry s d p))) as [Hptr|]; [|done].
  rewrite ent_put by (apply Z.mod_pos_bound; lia).
  case_bool_decide as Hb; [|done]. destruct Hb as [Hea Hei]. exfalso.
  pose proof (entry_typed g s d p Hwf Hp ltac:(lia) Hptr) as Ht. rewrite <- Hea, Ha in Ht.
  injection Ht as Hl Hblk. destruct Hor as [Hne|]; [|lia]. apply Hne.
  rewrite Hblk, Hei. replace (4 - Z.of_nat d) with (3 - Z.of_nat d + 1) by lia.
  rewrite block_split by lia. do 2 f_equal. lia.
Qed.

Lemma entry_here (s' : St) (p : Z) : (S l <= 3)%nat -> is_ptr a -> entry s' (3 - S l) p = a ->
  p / span (Z.of_nat (S l)) = blk * 512 + i -> entry s' (3 - l) p = ent s' a i.
Proof.
  intros Hl Hptr He Hp. replace (3 - l)%nat with (S (3 - S l)) by lia.
  rewrite entry_S, He, decide_True by done. f_equal.
  replace (3 - Z.of_nat (3 - S l)) with (Z.of_nat (S l)) by lia.
  rewrite Hp. rewrite Z.add_comm, Z_mod_plus_full. by apply Z.mod_small.
Qed.

(** Writing over an entry that was no pointer. *)
Context (Hl : (S l <= 3)%nat) (Hr : reached s (S l) blk a) (Hold : ~ is_ptr (ent s a i)).

Lemma in_block (p : Z) : p / span (Z.of_nat (S l)) = blk * 512 + i -> p / span (Z.of_nat (S l) + 1) = blk.
Proof.
  intros Hp. rewrite span_succ, (Z.mul_comm 512), <- Z.div_div by (pose proof (span_pos (Z.of_nat (S l))); lia).
  rewrite Hp. rewrite Z.div_add_l by lia. rewrite Z.div_small; lia.
Qed.

Lemma a_ptr : is_ptr a.
Proof. eapply (wf_ptrs _ _ Hwf), Ha. Qed.

Lemma put_entry_evolves (x : Z) : evolves s (put_entry a i x s).
Proof.
  split; [exists (next_bootstrap_vaddr (data s)); by rewrite with_next_same|done|done|].
  intros d p Hp Hd Hptr. apply entry_put_other; [done|done|].
  destruct (decide (p / span (Z.of_nat (S l)) = blk * 512 + i)) as [He|]; [|by left].
  right. destruct (decide (d <= 3 - S l)%nat); [done|]. exfalso.
  pose proof (Hr p Hp (in_block p He)) as Hra.
  pose proof (entry_here s p Hl a_ptr Hra He) as Hs.
  rewrite (entry_stuck s (3 - l) d p) in Hptr; [|by rewrite Hs|lia]. by rewrite Hs in Hptr.
Qed.

Lemma put_entry_here (x p : Z) : 0 <= p < pages -> p / span (Z.of_nat (S l)) = blk * 512 + i ->
  entry (put_entry a i x s) (3 - l) p = x /\ entry s (3 - l) p = ent s a i.
Proof.
  intros Hp He. pose proof (Hr p Hp (in_block p He)) as Hra. split.
  - rewrite (entry_here _ p Hl a_ptr); [|rewrite entry_put_other by (done || lia || (right; lia)); done|done].
    rewrite ent_put by lia. by rewrite bool_decide_eq_true_2.
  - by apply entry_here; [|apply a_ptr| |].
Qed.

Lemma put_entry_elsewhere (x p : Z) : 0 <= p < pages -> p / span (Z.of_nat (S l)) <> blk * 512 + i ->
  recorded (put_entry a i x s) p = recorded s p /\ own (put_entry a i x s) p = own s p.
Proof. intros Hp Hne. apply recorded_ext; [|done]. apply entry_put_other; [done|lia|by left]. Qed.
End put.

(** *** Making a table *)

(** The memory for tables has run out: the last request of it was refused. *)
Definition ran_out (s : St) : Prop := exists size dw, create_level size dw = Ok (0, (data s, world s)).

Definition create_table (l : nat) (init : Z) : M St Z :=
  match l with O => create_bottom_level init | S _ => create_mid_level init end.

(** Nothing that is recorded changes. *)
Record unseen (s s' : St) : Prop := {
  un_data : exists v, data s' = with_next_bootstrap v (data s);
  un_reservations : reservations s' = reservations s;
  un_blocks : other_blocks (world s') = other_blocks (world s);
  un_entry : forall d p, 0 <= p < pages -> (d <= 3)%nat -> entry s' d p = entry s d p;
  un_recorded : forall p, 0 <= p < pages -> recorded s' p = recorded s p /\ own s' p = own s p
}.

Lemma unseen_evolves (s s' : St) : unseen s s' -> evolves s s'.
Proof. intros [Hd Hr Hb He _]. split; [done|done|done|]. intros d p Hp Hl _. by apply He. Qed.

(** It is enough that the known tables stay as they are. *)
Lemma unseen_intro (g : levels) (s s' : St) : wf_tables g s ->
  (exists v, data s' = with_next_bootstrap v (data s)) -> reservations s' = reservations s ->
  other_blocks (world s') = other_blocks (world s) ->
  (forall a, is_Some (g !! a) -> mids s' !! a = mids s !! a /\ bottoms s' !! a = bottoms s !! a) -> unseen s s'.
Proof.
  intros Hwf [v Hd] Hr Hbl Hsame.
  assert (He : forall d p, 0 <= p < pages -> (d <= 3)%nat -> entry s' d p = entry s d p).
  { intros d p Hp. induction d as [|d IH]; intros Hl; [cbn; by rewrite Hd|].
    rewrite !entry_S, IH by lia. destruct (decide (is_ptr (entry s d p))) as [Hptr|]; [|done].
    unfold ent. destruct (Hsame (entry s d p)) as [-> _]; [|done].
    rewrite (entry_typed g s d p) by (done || lia). done. }
  split; [by exists v|done|done|done|].
  intros p Hp. apply recorded_ext; [by apply He|]. intros Hptr.
  apply Hsame. rewrite (entry_typed g s 3 p) by (done || lia). done.
Qed.

(** A fresh table of level [l], filled with [init]. *)
Definition fresh_table (s1 : St) (l : nat) (x init : Z) : Prop :=
  match l with
  | O => exists b, bottoms s1 !! x = Some b /\ cap b = filled init /\ cookie b = filled 0
  | S _ => exists t, mids s1 !! x = Some t /\ table t = filled init
  end.

Lemma create_table_ok (g : levels) (s : St) (l : nat) (init : Z) : wf_tables g s -> ~ is_ptr init ->
  exists x s1, create_table l init s = Ok (x, s1) /\ unseen s s1 /\
    ((x = 0 /\ ran_out s1 /\ wf_tables g s1) \/
     (is_ptr x /\ fresh_table s1 l x init /\ g !! x = None /\
      (forall a, is_Some (g !! a) -> mids s1 !! a = mids s !! a) /\
      forall blk, wf_tables (<[x := (l, blk)]> g) s1)).
Proof.
  intros Hwf Hinit.
  destruct (create_level_law (match l with O => sizeof_bottom_level | S _ => sizeof_mid_level end) (data s) (world s))
    as (x & v & w' & Hc & Hother & Hlaw).
  assert (Hlvl : forall a lb, g !! a = Some lb -> is_ptr a /\ a ∈ level_addrs (with_next_bootstrap v (data s), w')).
  { intros a lb Ha. destruct (wf_ptrs _ _ Hwf _ _ Ha) as [? Hin]. split; [done|].
    destruct Hlaw as [[_ ->]|(_ & _ & ->)]; set_solver. }
  pose (s0 := VspaceMem (with_next_bootstrap v (data s)) (mids s) (bottoms s) (reservations s) w').
  destruct Hlaw as [[-> _]|(Hx & Hnot & Hadd)].
  - exists 0, s0. split; [unfold create_table, create_bottom_level, create_mid_level, bind, in_world;
      destruct l; rewrite Hc; done|].
    assert (Hun : unseen s s0) by (eapply unseen_intro; [done|by exists v|done|done|done]).
    split; [done|]. left. split; [done|]. split; [by eexists _, _|].
    destruct Hwf as [Htop Hmids Hbot _]. by split.
  - assert (Hg : g !! x = None).
    { destruct (g !! x) eqn:Hgx; [|done]. by apply (wf_ptrs _ _ Hwf) in Hgx as [_ ?]. }
    exists x, (match l with
      | O => set_bottoms (insert x (BottomLevel (filled init) (filled 0))) s0
      | S _ => set_mids (insert x (MidLevel (filled init))) s0 end).
    split.
    { unfold create_table, create_bottom_level, create_mid_level, bind, in_world. destruct l; rewrite Hc; cbn.
      all: destruct (Z.eqb_spec x 0) as [->|]; [by destruct Hx|done]. }
    split.
    { eapply unseen_intro; [done| | | |].
      - exists v. by destruct l.
      - by destruct l.
      - by destruct l.
      - intros a [lb Ha]. assert (x <> a) by (intros ->; congruence).
        destruct l; cbn; rewrite ?lookup_insert_ne by done; done. }
    right. split; [done|]. split.
    { destruct l; cbn; rewrite lookup_insert_eq; eexists; split; done. }
    split; [done|]. split.
    { intros a [lb Ha]. destruct l; [done|]. cbn. rewrite lookup_insert_ne; [done|]. intros ->. congruence. }
    intros blk. destruct Hwf as [Htop Hmids Hbot _].
    assert (Hokx : forall l' b e, entry_ok g l' b e -> entry_ok (<[x:=(l, blk)]> g) l' b e).
    { intros l' b e He Hp. specialize (He Hp). rewrite lookup_insert_ne; [done|]. intros ->. congruence. }
    split.
    + rewrite lookup_insert_ne; [by destruct l|]. intros Heq. destruct l; cbn in *; congruence.
    + intros a l' b Ha. destruct (decide (x = a)) as [<-|Hne].
      * rewrite lookup_insert_eq in Ha. simplify_eq. cbn. rewrite lookup_insert_eq.
        eexists. split; [done|]. split; [apply length_replicate|].
        intros i Hi Hp. cbn [table] in Hp. rewrite nth_or_filled in Hp by done. done.
      * rewrite lookup_insert_ne in Ha by done. destruct (Hmids _ _ _ Ha) as (t & Ht & Hlen & Hok).
        exists t. split; [destruct l; cbn; rewrite ?lookup_insert_ne by done; done|].
        split; [done|]. intros i Hi. by apply Hokx, Hok.
    + intros a b Ha. destruct (decide (x = a)) as [<-|Hne].
      * rewrite lookup_insert_eq in Ha. simplify_eq. cbn. rewrite lookup_insert_eq.
        eexists. split; [done|]. split; apply length_replicate.
      * rewrite lookup_insert_ne in Ha by done. destruct (Hbot _ _ Ha) as (t & Ht & Hlen).
        exists t. split; [destruct l; cbn; rewrite ?lookup_insert_ne by done; done|done].
    + intros a lb Ha. replace (data _, world _) with (with_next_bootstrap v (data s), w') by (by destruct l).
      destruct (decide (x = a)) as [<-|Hne]; [|rewrite lookup_insert_ne in Ha by done; by eapply Hlvl].
      split; [done|]. rewrite Hadd. set_solver.
Qed.

Lemma reached_intro (s : St) (l : nat) (blk i x : Z) :
  (forall p, 0 <= p < pages -> p / span (Z.of_nat (S l)) = blk * 512 + i -> entry s (3 - l) p = x) ->
  reached s l (blk * 512 + i) x.
Proof.
  intros H p Hp Hb. apply H; [done|]. rewrite <- Hb. do 2 f_equal. lia.
Qed.

Lemma reached_unseen (s s' : St) (l : nat) (blk a : Z) : unseen s s' -> reached s l blk a -> reached s' l blk a.
Proof. intros Hu Hr p Hp Hb. rewrite (un_entry _ _ Hu) by (done || lia). by apply Hr. Qed.

(** A new table filled with the entry it takes the place of changes nothing. *)
Lemma put_fresh (g : levels) (s : St) (l : nat) (blk a i x init : Z) :
  wf_tables (<[x := (l, blk * 512 + i)]> g) s -> g !! x = None ->
  g !! a = Some (S l, blk) -> 0 <= i < 512 -> (S l <= 3)%nat ->
  reached s (S l) blk a -> ent s a i = init -> ~ is_ptr init -> is_ptr x -> fresh_table s l x init ->
  let s' := put_entry a i x s in
  wf s' /\ evolves s s' /\ (forall p, 0 <= p < pages -> recorded s' p = recorded s p) /\
  reached s' l (blk * 512 + i) x.
Proof.
  intros Hwf Hgx Ha Hi Hl Hr Hent Hinit Hx Hfresh s'.
  assert (Ha' : (<[x := (l, blk * 512 + i)]> g) !! a = Some (S l, blk))
    by (rewrite lookup_insert_ne; [done|intros ->; congruence]).
  assert (Hold : ~ is_ptr (ent s a i)) by (by rewrite Hent).
  pose proof (put_entry_here _ s Hwf l blk a i Ha' Hi Hl Hr x) as Hhere.
  assert (Hx' : reached s' l (blk * 512 + i) x).
  { apply reached_intro. intros p Hp Hb. by apply Hhere. }
  split; [eexists; eapply put_entry_wf; [done|done|done|]; intros _; by rewrite lookup_insert_eq|].
  split; [by eapply put_entry_evolves|]. split; [|done].
  intros p Hp. destruct (decide (p / span (Z.of_nat (S l)) = blk * 512 + i)) as [Hb|Hb].
  2: by eapply put_entry_elsewhere.
  destruct (Hhere p Hp Hb) as [Hnew Holdp]. rewrite Hent in Holdp.
  destruct (recorded_stuck s (3 - l) p init Holdp Hinit ltac:(lia)) as [-> _].
  assert (Hxa : x <> a) by (intros ->; congruence).
  destruct l as [|l].
  - destruct Hfresh as (b & Hb' & Hcap & Hcookie).
    unfold recorded. change (3 - 0)%nat with 3%nat in Hnew. fold s' in Hnew. rewrite Hnew, decide_True by done.
    unfold s', put_entry. cbn [bottoms set_mids]. rewrite Hb'. cbn [from_option]. rewrite Hcap, Hcookie.
    by rewrite !nth_or_filled by (apply Z.mod_pos_bound; lia).
  - destruct Hfresh as (t & Ht & Htab).
    apply (recorded_stuck s' (3 - l)); [|done|lia].
    replace (3 - l)%nat with (S (3 - S l)) by lia. rewrite entry_S. fold s' in Hnew. rewrite Hnew, decide_True by done.
    unfold s', put_entry, ent. cbn [mids set_mids]. rewrite lookup_insert_ne by done. rewrite Ht.
    cbn [from_option]. rewrite Htab. apply nth_or_filled, Z.mod_pos_bound. lia.
Qed.

(** *** The pages of a bottom table *)

Section bottom.
Context (g : levels) (s : St) (Hwf : wf_tables g s).
Context (blk a p : Z) (Ha : g !! a = Some (0%nat, blk)) (Hr : entry s 3 p = a).
Context (Hp : 0 <= p < pages) (Hpb : p / 512 = blk).

Definition put_page (c k : Z) : St :=
  set_bottoms (insert a (BottomLevel
    (<[Z.to_nat (p mod 512) := c]> (from_option cap [] (bottoms s !! a)))
    (<[Z.to_nat (p mod 512) := k]> (from_option cookie [] (bottoms s !! a))))) s.

Lemma bottom_reached : entry s 3 p = a /\ is_ptr a.
Proof. split; [exact Hr|]. eapply (wf_ptrs _ _ Hwf), Ha. Qed.

Lemma load_cap_ok : load_cap a (p mod 512) s = Ok ((recorded s p).1, s) /\ own s p = true.
Proof.
  destruct bottom_reached as [He Hptr]. destruct (wf_bottoms _ _ Hwf _ _ Ha) as (b & Hb & Hcap & _).
  unfold recorded, own. rewrite He, decide_True, bool_decide_eq_true_2 by done. split; [|done].
  unfold load_cap, bind, gets, deref, ret, lift. cbn -[arr_get Z.modulo]. rewrite Hb. cbn -[arr_get Z.modulo].
  rewrite arr_get_nth by (done || apply Z.mod_pos_bound; lia). done.
Qed.

Lemma load_cookie_ok : load_cookie a (p mod 512) s = Ok ((recorded s p).2, s).
Proof.
  destruct bottom_reached as [He Hptr]. destruct (wf_bottoms _ _ Hwf _ _ Ha) as (b & Hb & _ & Hcookie).
  unfold recorded. rewrite He, decide_True by done.
  unfold load_cookie, bind, gets, deref, ret, lift. cbn -[arr_get Z.modulo]. rewrite Hb. cbn -[arr_get Z.modulo].
  rewrite arr_get_nth by (done || apply Z.mod_pos_bound; lia). done.
Qed.

Lemma store_page_ok (c k : Z) :
  store_page a (p mod 512) c k s = Ok (tt, put_page c k) /\ wf_tables g (put_page c k) /\
  evolves s (put_page c k) /\ recorded (put_page c k) p = (c, k) /\
  (forall q, 0 <= q < pages -> q <> p -> recorded (put_page c k) q = recorded s q) /\
  (forall q, own (put_page c k) q = own s q).
Proof.
  destruct bottom_reached as [He Hptr]. destruct (wf_bottoms _ _ Hwf _ _ Ha) as (b & Hb & Hcap & Hcookie).
  pose proof (Z.mod_pos_bound p 512 ltac:(lia)) as Hi.
  assert (Hent : forall d q, entry (put_page c k) d q = entry s d q) by (intros d q; induction d as [|d IH]; [done|rewrite !entry_S, IH; done]).
  split_and!.
  - unfold store_page, put_page, bind, gets, deref, ret, lift. cbn -[arr_set Z.modulo]. rewrite Hb.
    cbn -[arr_set Z.modulo]. rewrite !arr_set_in by lia. done.
  - destruct Hwf as [Htop Hmids Hbot Hptrs]. split; [done|done| |done].
    intros a' blk' Ha'. unfold put_page. cbn [bottoms set_bottoms].
    destruct (decide (a = a')) as [<-|Hne]; [|rewrite lookup_insert_ne by done; by eapply Hbot].
    rewrite lookup_insert_eq, Hb. eexists. split; [done|]. cbn [cap cookie from_option]. by rewrite !length_insert.
  - split; [exists (next_bootstrap_vaddr (data s)); by rewrite with_next_same|done|done|]. intros d q _ _ _. apply Hent.
  - unfold recorded. rewrite Hent, He, decide_True by done. unfold put_page. cbn [bottoms set_bottoms].
    rewrite lookup_insert_eq, Hb. cbn [cap cookie from_option].
    rewrite !nth_or_insert by (done || lia). by rewrite bool_decide_eq_true_2.
  - intros q Hq Hne. unfold recorded. rewrite Hent. destruct (decide (is_ptr (entry s 3 q))) as [Hpq|]; [|done].
    unfold put_page. cbn [bottoms set_bottoms].
    destruct (decide (a = entry s 3 q)) as [Hea|Hea]; [|by rewrite lookup_insert_ne by done].
    rewrite <- Hea, lookup_insert_eq, Hb. cbn [cap cookie from_option].
    pose proof (Z.mod_pos_bound q 512 ltac:(lia)).
    rewrite !nth_or_insert by (done || lia).
    rewrite bool_decide_eq_false_2; [done|]. intros Hmod. apply Hne.
    pose proof (entry_typed g s 3 q Hwf Hq ltac:(lia) Hpq) as Ht. rewrite <- Hea, Ha in Ht. injection Ht as Hblk.
    change (span (4 - Z.of_nat 3)) with 512 in Hblk.
    pose proof (Z.div_mod p 512 ltac:(lia)). pose proof (Z.div_mod q 512 ltac:(lia)). lia.
  - intros q. unfold own. by rewrite Hent.
Qed.
End bottom.

(** *** The steps of a walk *)

Lemma block_range (l : nat) (blk : Z) : (l <= 3)%nat -> 0 <= blk -> blk * span (Z.of_nat l + 1) < pages ->
  0 <= blk < 2 ^ (9 * (3 - Z.of_nat l)).
Proof.
  intros Hl Hb Hp. split; [done|]. pose proof (span_pos (Z.of_nat l + 1) ltac:(lia)).
  apply (Z.mul_lt_mono_pos_r (span (Z.of_nat l + 1))); [done|].
  replace (2 ^ (9 * (3 - Z.of_nat l)) * span (Z.of_nat l + 1)) with pages; [done|].
  unfold pages, span, VSPACE_LEVEL_BITS. rewrite <- Z.pow_add_r by lia. apply (f_equal (Z.pow 2)). lia.
Qed.

(** The table below. *)
Lemma reached_child (g : levels) (s : St) (l : nat) (blk a i : Z) :
  wf_tables g s -> g !! a = Some (S l, blk) -> 0 <= i < 512 -> (S l <= 3)%nat -> reached s (S l) blk a ->
  reached s l (blk * 512 + i) (ent s a i).
Proof.
  intros Hwf Ha Hi Hl Hr. apply reached_intro. intros p Hp Hb.
  eapply entry_here; try done; [by eapply a_ptr|]. apply Hr; [done|]. by eapply in_block.
Qed.

(** One page: what its entry holds, and how to change it. *)
Lemma page_step (s : St) (blk a q : Z) :
  wf s -> reached s 0 blk a -> is_ptr a -> 0 <= q < pages -> q / 512 = blk ->
  load_cap a (q mod 512) s = Ok ((recorded s q).1, s) /\ load_cookie a (q mod 512) s = Ok ((recorded s q).2, s) /\
  own s q = true /\
  forall c k, exists s2, store_page a (q mod 512) c k s = Ok (tt, s2) /\ wf s2 /\ evolves s s2 /\
    recorded s2 q = (c, k) /\
    (forall x, 0 <= x < pages -> x <> q -> recorded s2 x = recorded s x) /\ (forall x, own s2 x = own s x).
Proof.
  intros [g Hwf] Hr Ha Hq Hb.
  assert (Hg : g !! a = Some (0%nat, blk)).
  { eapply reached_typed; try done; [lia|]. apply block_range; [lia|subst; apply Z.div_pos; lia|].
    change (span (Z.of_nat 0 + 1)) with 512. pose proof (Z.mul_div_le q 512). lia. }
  assert (He : entry s 3 q = a) by (by apply (Hr q Hq)).
  destruct (load_cap_ok g s Hwf blk a q Hg He) as [Hcap Hown].
  pose proof (load_cookie_ok g s Hwf blk a q Hg He).
  split_and!; try done. intros c k.
  destruct (store_page_ok g s Hwf blk a q Hg He Hb c k) as (? & ? & ? & ? & ? & ?).
  eexists. split; [done|]. split; [by exists g|]. done.
Qed.

(** Code that leaves the tables alone, but may change the other fields. *)
Lemma entry_same_tables (s s' : St) (d : nat) (p : Z) :
  top_level (data s') = top_level (data s) -> mids s' = mids s -> entry s' d p = entry s d p.
Proof.
  intros Ht Hm. induction d as [|d IH]; [done|]. rewrite !entry_S, IH. unfold ent. by rewrite Hm.
Qed.

Lemma recorded_same_tables (s s' : St) (p : Z) :
  top_level (data s') = top_level (data s) -> mids s' = mids s -> bottoms s' = bottoms s ->
  recorded s' p = recorded s p /\ own s' p = own s p.
Proof. intros Ht Hm Hb. apply recorded_ext; [by apply entry_same_tables|]. by rewrite Hb. Qed.

Lemma wf_same_tables (s s' : St) :
  top_level (data s') = top_level (data s) -> mids s' = mids s -> bottoms s' = bottoms s ->
  level_addrs (data s, world s) ⊆ level_addrs (data s', world s') -> wf s -> wf s'.
Proof.
  intros Ht Hm Hb Hl [g [Htop Hmids Hbot Hptr]]. exists g. split; rewrite ?Ht, ?Hm, ?Hb; try done.
  intros a lb Ha. destruct (Hptr a lb Ha). split; [done|set_solver].
Qed.

End invariant.
