(* ===== verification/VspaceSpec.v ===== *)
(** What the functions of vspace_internal.h (VspaceTables.v) do to the records of
    the pages: each one visits the pages of a range in order, and goes as far as
    it can. *)
From S2P Require Import Prelude Cspacepath Interfaces VspaceTables VspaceView.

(** ** Going through a range of pages

    [ran step stopped f f' a b e]: the pages from [a] on are changed from [f] to
    [f'] by [step], all of them if the result [e] is 0; otherwise the result is
    -1, and the first page that is not changed is one [step] refuses, or there
    was no memory ([stopped]). *)
Definition ran {X : Type} (step : X -> option X) (stopped : Prop) (f f' : Z -> X) (a b e : Z) : Prop :=
  exists m, a <= m <= b /\
    (forall p, a <= p < m -> step (f p) = Some (f' p)) /\
    (forall p, 0 <= p < pages -> ~ (a <= p < m) -> f' p = f p) /\
    ((e = 0 /\ m = b) \/ (e = -1 /\ m < b /\ (step (f m) = None \/ stopped))).

Section ran.
Context {X : Type} (step : X -> option X).

Lemma ran_nil (stopped : Prop) (f f' : Z -> X) (a : Z) :
  (forall p, 0 <= p < pages -> f' p = f p) -> ran step stopped f f' a a 0.
Proof. intros Hf. exists a. split_and!; [lia|lia|lia|auto with lia|by left]. Qed.

Lemma ran_app (stopped stopped' : Prop) (f f1 f2 : Z -> X) (a m b e : Z) :
  0 <= a -> m <= b <= pages -> ran step stopped f f1 a m 0 -> ran step stopped' f1 f2 m b e ->
  ran step stopped' f f2 a b e.
Proof.
  intros Ha Hmb (m1 & Hm1 & Hin1 & Hout1 & He1) (m2 & Hm2 & Hin2 & Hout2 & He2).
  assert (m1 = m) as -> by lia. exists m2. split; [lia|]. split; [|split].
  - intros p Hp. destruct (decide (p < m)).
    + rewrite Hout2 by lia. apply Hin1. lia.
    + rewrite <- Hout1 by lia. apply Hin2. lia.
  - intros p Hp Hn. rewrite Hout2 by lia. apply Hout1; lia.
  - destruct He2 as [|(-> & Hlt & Hstop)]; [by left|]. right. split; [done|]. split; [done|].
    rewrite Hout1 in Hstop by lia. done.
Qed.

Lemma ran_ext (stopped : Prop) (f f1 f' : Z -> X) (a b e : Z) :
  0 <= a -> b <= pages -> (forall p, 0 <= p < pages -> f1 p = f p) ->
  ran step stopped f1 f' a b e -> ran step stopped f f' a b e.
Proof.
  intros Ha Hb Hf (m & Hm & Hin & Hout & He). exists m. split; [done|]. split_and!.
  - intros p Hp. rewrite <- Hf by lia. by apply Hin.
  - intros p Hp Hn. rewrite Hout by done. by apply Hf.
  - destruct He as [|(He & Hlt & Hs)]; [by left|]. right. rewrite Hf in Hs by lia. done.
Qed.

(** A whole block whose pages take the same step. *)
Lemma ran_all (stopped : Prop) (f f' : Z -> X) (a b : Z) : a <= b ->
  (forall p, a <= p < b -> step (f p) = Some (f' p)) ->
  (forall p, 0 <= p < pages -> ~ (a <= p < b) -> f' p = f p) -> ran step stopped f f' a b 0.
Proof. intros Hab Hin Hout. exists b. split_and!; [lia|lia|done|done|by left]. Qed.

Lemma ran_stop (stopped : Prop) (f f' : Z -> X) (a b : Z) : a < b ->
  (forall p, 0 <= p < pages -> f' p = f p) -> step (f a) = None \/ stopped -> ran step stopped f f' a b (-1).
Proof. intros Hab Hf Hs. exists a. split_and!; [lia|lia|lia|auto with lia|by right]. Qed.
End ran.

(** ** The rules for the loops *)

Section rules.
Context {W : Type} `{LL : LevelMemoryLaws W}.
Notation St := (vspace_mem W).
Context {X : Type} (obs : St -> Z -> X) (step : X -> option X) (stopped : St -> Prop).

Definition goes (m : M St Z) (s : St) (a b : Z) : Prop :=
  exists e s', m s = Ok (e, s') /\ wf s' /\ evolves s s' /\ ran step (stopped s') (obs s) (obs s') a b e.

(** The walk below a table of level [l]. *)
Definition walks (l : nat) (op : Z -> Z -> Z -> M St Z) : Prop :=
  forall s blk a p n, wf s -> reached s l blk a -> is_ptr a -> 0 <= blk ->
    blk * span (Z.of_nat l + 1) <= p <= n -> n <= (blk + 1) * span (Z.of_nat l + 1) -> n <= pages ->
    goes (op a (addr p) (addr n)) s p n.

(** What the body of a loop has to do on the part of the range that entry
    [i] of the table at [a], of level [S l], covers. *)
Definition body_goes (l : nat) (blk a i : Z) (m : M St (option Z)) (s : St) (p n : Z) : Prop :=
  exists r s', m s = Ok (r, s') /\ wf s' /\ evolves s s' /\ r <> Some 0 /\
    ran step (stopped s') (obs s) (obs s') p n (from_option id 0 r).

Lemma goes_or_else (m : M St (option Z)) (s s0 : St) (a b : Z) :
  (exists r s', m s = Ok (r, s') /\
    wf s' /\ evolves s0 s' /\ ran step (stopped s') (obs s0) (obs s') a b (from_option id 0 r)) ->
  s = s0 -> goes (or_else 0 m) s0 a b.
Proof.
  intros (r & s' & Heq & Hwf & Hev & Hran) ->. exists (from_option id 0 r), s'.
  split; [|done]. unfold or_else. rewrite (bind_ok _ _ _ _ _ Heq). by destruct r.
Qed.

(** A loop over the entries of a table that covers block [blk]: the parts of
    the range that the entries cover. *)
Lemma walk_mid_blocks {A : Type} (l : nat) (blk : Z) (body : Z -> Z -> Z -> bool -> M St (option A)) (s : St) (p n : Z)
    (P : Z -> St -> Prop) (Q : A -> St -> Prop) :
  (S l <= 3)%nat -> 0 <= blk ->
  blk * span (Z.of_nat (S l) + 1) <= p <= n -> n <= (blk + 1) * span (Z.of_nat (S l) + 1) -> n <= pages -> P p s ->
  (forall s' i q n' must, P q s' -> 0 <= i < 512 -> p <= q -> n' <= n ->
    (blk * 512 + i) * span (Z.of_nat (S l)) <= q < n' -> n' <= (blk * 512 + i + 1) * span (Z.of_nat (S l)) ->
    blk * span (Z.of_nat (S l) + 1) < pages -> 0 <= q -> n' <= pages ->
    (must = false -> q = (blk * 512 + i) * span (Z.of_nat (S l)) /\ n' = (blk * 512 + i + 1) * span (Z.of_nat (S l))) ->
    exists r s2, body i (addr q) (addr n') must s' = Ok (r, s2) /\
      match r with None => P n' s2 | Some x => Q x s2 end) ->
  exists r s', walk_mid (rounds (Z.of_nat l + 1) (addr p) (addr n)) (Z.of_nat l + 1) body (addr p) (addr n) s = Ok (r, s') /\
    match r with None => P n s' | Some x => Q x s' end.
Proof.
  intros Hl Hblk Hp Hn Hpages HP Hbody.
  replace (Z.of_nat l + 1) with (Z.of_nat (S l)) by lia. set (lv := Z.of_nat (S l)) in *.
  pose proof (span_pos lv ltac:(lia)) as Hs. pose proof (span_succ lv ltac:(lia)) as Hss.
  assert (Hp0 : 0 <= p) by nia.
  apply walk_mid_rule; [lia|lia|done|done|]. intros q s' Hq HPq.
  pose proof (part_end_bounds lv n q ltac:(lia) ltac:(lia)) as (Hpe & Hlow & Hhigh).
  assert (Hqb : q / span (lv + 1) = blk).
  { symmetry. apply (Z.div_unique q (span (lv + 1)) blk (q - span (lv + 1) * blk)); nia. }
  pose proof (block_split q lv ltac:(lia)) as Hsub. rewrite Hqb in Hsub.
  apply Hbody; try done || lia.
  - apply Z.mod_pos_bound. lia.
  - rewrite Hsub. intros [H1 H2]%orb_false_iff. unfold part_end in *.
    apply Z.ltb_ge in H1. apply negb_false_iff, Z.eqb_eq in H2. lia.
Qed.

Lemma walk_mid_goes (l : nat) (blk a : Z) (body : Z -> Z -> Z -> bool -> M St (option Z)) (s : St) (p n : Z) :
  (S l <= 3)%nat -> wf s -> 0 <= blk ->
  blk * span (Z.of_nat (S l) + 1) <= p <= n -> n <= (blk + 1) * span (Z.of_nat (S l) + 1) -> n <= pages ->
  (forall s' i q n' must, wf s' -> evolves s s' -> 0 <= i < 512 ->
    (blk * 512 + i) * span (Z.of_nat (S l)) <= q < n' -> n' <= (blk * 512 + i + 1) * span (Z.of_nat (S l)) ->
    blk * span (Z.of_nat (S l) + 1) < pages -> 0 <= q -> n' <= pages ->
    (must = false -> q = (blk * 512 + i) * span (Z.of_nat (S l)) /\ n' = (blk * 512 + i + 1) * span (Z.of_nat (S l))) ->
    body_goes l blk a i (body i (addr q) (addr n') must) s' q n') ->
  goes (or_else 0 (walk_mid (rounds (Z.of_nat l + 1) (addr p) (addr n)) (Z.of_nat l + 1) body (addr p) (addr n))) s p n.
Proof.
  intros Hl Hwf Hblk Hp Hn Hpages Hbody.
  assert (Hp0 : 0 <= p) by (pose proof (span_pos (Z.of_nat (S l) + 1)); nia).
  eapply goes_or_else; [|reflexivity].
  edestruct (walk_mid_blocks l blk body s p n
    (fun q s' => wf s' /\ evolves s s' /\ ran step (stopped s') (obs s) (obs s') p q 0)
    (fun e s' => wf s' /\ evolves s s' /\ ran step (stopped s') (obs s) (obs s') p n e)) as (r & s' & Heq & Hr); try done.
  - split; [done|]. split; [apply evolves_refl|]. by apply ran_nil.
  - intros s' i q n' must (Hwf' & Hev & Hran) Hi Hpq Hnn Hq Hn' Hb Hq0 Hpg Hmust.
    destruct (Hbody s' i q n' must) as (r & s2 & Heq & Hwf2 & Hev2 & Hr0 & Hran2); try done.
    exists r, s2. split; [done|]. destruct r as [e|]; cbn [from_option id] in *.
    + split; [done|]. split; [by eapply evolves_trans|].
      destruct Hran2 as (m & Hm & Hin & Hout & He).
      eapply ran_app; [done| |done|]; [lia|]. exists m. split_and!; [lia|lia|done|done|].
      right. destruct He as [[-> ?]|(-> & ? & ?)]; [done|]. split_and!; [done|lia|done].
    + split; [done|]. split; [by eapply evolves_trans|]. eapply ran_app; [done| |done|done]. lia.
  - exists r, s'. split; [done|]. by destruct r.
Qed.

Lemma walk_bottom_goes (blk : Z) (body : Z -> M St (option Z)) (s : St) (p n : Z) :
  wf s -> 0 <= blk -> blk * 512 <= p <= n -> n <= (blk + 1) * 512 -> n <= pages ->
  (forall s' q, wf s' -> evolves s s' -> 0 <= q < pages -> q / 512 = blk ->
    exists r s2, body (q mod 512) s' = Ok (r, s2) /\ wf s2 /\ evolves s' s2 /\
      ((r = None /\ step (obs s' q) = Some (obs s2 q) /\ (forall x, 0 <= x < pages -> x <> q -> obs s2 x = obs s' x)) \/
       (r = Some (-1) /\ step (obs s' q) = None /\ s2 = s'))) ->
  goes (or_else 0 (walk_bottom (rounds 0 (addr p) (addr n)) body (addr p) (addr n))) s p n.
Proof.
  intros Hwf Hblk Hp Hn Hpages Hbody. eapply goes_or_else; [|reflexivity].
  edestruct (walk_bottom_rule body p n
    (fun q s' => wf s' /\ evolves s s' /\ ran step (stopped s') (obs s) (obs s') p q 0)
    (fun e s' => wf s' /\ evolves s s' /\ ran step (stopped s') (obs s) (obs s') p n e) s) as (r & s' & Heq & Hr).
  - lia.
  - done.
  - split; [done|]. split; [apply evolves_refl|]. by apply ran_nil.
  - intros q s' Hq (Hwf' & Hev & Hran).
    assert (Hqb : q / 512 = blk) by (symmetry; apply (Z.div_unique q 512 blk (q - 512 * blk)); lia).
    destruct (Hbody s' q Hwf' Hev ltac:(lia) Hqb) as (r & s2 & Heq & Hwf2 & Hev2 & [(-> & Hst & Ho)|(-> & Hst & ->)]).
    + exists None, s2. split; [done|]. split; [done|]. split; [by eapply evolves_trans|].
      eapply ran_app; [lia| |done|]; [lia|]. apply ran_all; [lia| |].
      * intros x Hx. by replace x with q by lia.
      * intros x Hx Hxq. apply Ho; lia.
    + exists (Some (-1)), s'. split; [done|]. split; [done|]. split; [done|].
      eapply ran_app; [lia| |done|]; [lia|]. apply ran_stop; [lia|done|by left].
  - exists r, s'. split; [done|]. by destruct r.
Qed.

End rules.

(** ** The functions *)

Section functions.
Context {W : Type} `{LL : LevelMemoryLaws W}.
Notation St := (vspace_mem W).

(** The table that entry [i] of the table at [a] points to, and what the body
    of a loop knows when it gets there. *)
Definition at_entry (s : St) (g : gmap Z (nat * Z)) (l : nat) (blk a i : Z) : Prop :=
  wf_tables g s /\ g !! a = Some (S l, blk) /\ reached s (S l) blk a /\ 0 <= i < 512 /\ (S l <= 3)%nat.

Lemma at_entry_intro (s s' : St) (l : nat) (blk a i : Z) :
  wf s' -> evolves s s' -> reached s (S l) blk a -> is_ptr a -> (S l <= 3)%nat -> 0 <= i < 512 ->
  0 <= blk -> blk * span (Z.of_nat (S l) + 1) < pages ->
  exists g, at_entry s' g l blk a i.
Proof.
  intros [g Hwf] Hev Hr Ha Hl Hi Hb Hp. exists g.
  assert (Hr' : reached s' (S l) blk a) by (by eapply evolves_reached).
  split_and!; try done || lia. eapply reached_typed; [done|done|done|done|]. by apply block_range.
Qed.

Lemma recurse_goes {X : Type} (obs : St -> Z -> X) (step : X -> option X) (stopped : St -> Prop) (l : nat)
    (op : Z -> Z -> Z -> M St Z) (s : St) (blk a i x q n : Z) :
  walks obs step stopped l op -> wf s -> reached s l (blk * 512 + i) x -> is_ptr x -> 0 <= blk -> 0 <= i ->
  (blk * 512 + i) * span (Z.of_nat (S l)) <= q < n -> n <= (blk * 512 + i + 1) * span (Z.of_nat (S l)) ->
  n <= pages ->
  body_goes obs step stopped l blk a i (let! error := op x (addr q) (addr n) in check error) s q n.
Proof.
  intros Hop Hwf Hr Hx Hblk Hi Hq Hn Hp.
  replace (Z.of_nat (S l)) with (Z.of_nat l + 1) in * by lia.
  destruct (Hop s (blk * 512 + i) x q n Hwf Hr Hx) as (e & s' & Heq & Hwf' & Hev & Hran); try lia.
  exists (if e =? 0 then None else Some e), s'. rewrite (bind_ok _ _ _ _ _ Heq).
  split; [done|]. split; [done|]. split; [done|].
  destruct Hran as (m & Hm & Hin & Hout & He).
  destruct (Z.eqb_spec e 0) as [->|Hne].
  - split; [done|]. by exists m.
  - split; [congruence|]. by exists m.
Qed.

(** *** Reserving *)

Definition step_reserve (preserve_frames : bool) (c : Z * Z) : option (Z * Z) :=
  if c.1 =? RESERVED then None
  else if negb (c.1 =? EMPTY) && preserve_frames then None
  else Some (RESERVED, 0).

Lemma reserve_bottom_walks (pf : bool) :
  walks recorded (step_reserve pf) ran_out 0 (fun level a b => reserve_entries_bottom level a b pf).
Proof.
  intros s blk a p n Hwf Hr Ha Hblk Hp Hn Hpg. change (span (Z.of_nat 0 + 1)) with 512 in *.
  unfold reserve_entries_bottom. eapply walk_bottom_goes; try done.
  intros s' q Hwf' Hev Hq Hb.
  destruct (page_step s' blk a q) as (Hload & _ & _ & Hstore); try done; [by eapply evolves_reached|].
  rewrite (bind_ok _ _ _ _ _ Hload). unfold step_reserve.
  destruct (Z.eqb_spec (recorded s' q).1 RESERVED) as [|];
    [exists (Some (-1)), s'; split_and!; try done; [apply evolves_refl|by right]|].
  destruct (_ && pf) eqn:Hpf; [exists (Some (-1)), s'; split_and!; try done; [apply evolves_refl|by right]|].
  destruct (Hstore RESERVED 0) as (s2 & Hst & Hwf2 & Hev2 & Hrec & Hoth & _).
  rewrite (bind_ok _ _ _ _ _ Hst). exists None, s2. split_and!; try done. left. by rewrite Hrec.
Qed.

Lemma RESERVED_not_ptr : ~ is_ptr RESERVED.
Proof. intros []. done. Qed.
Lemma EMPTY_not_ptr : ~ is_ptr EMPTY.
Proof. intros []. done. Qed.

(** Pages of a block whose entry is no pointer. *)
Lemma stuck_block (s : St) (g : gmap Z (nat * Z)) (l : nat) (blk a i : Z) :
  at_entry s g l blk a i -> ~ is_ptr (ent s a i) ->
  forall p, 0 <= p < pages -> p / span (Z.of_nat (S l)) = blk * 512 + i ->
  recorded s p = (ent s a i, 0) /\ own s p = false.
Proof.
  intros (Hwf & Ha & Hr & Hi & Hl) Hn p Hp Hb.
  eapply (recorded_stuck s (3 - l)); [|done|lia].
  eapply entry_here; try done; [by eapply a_ptr|]. apply Hr; [done|]. by eapply in_block.
Qed.

Lemma block_div (l : nat) (sub q : Z) : sub * span (Z.of_nat l) <= q < (sub + 1) * span (Z.of_nat l) ->
  q / span (Z.of_nat l) = sub.
Proof.
  intros Hq. symmetry. apply (Z.div_unique q (span (Z.of_nat l)) sub (q - span (Z.of_nat l) * sub)); lia.
Qed.

(** Reserving a whole block whose entry is empty. *)
Lemma reserve_whole (s : St) (g : gmap Z (nat * Z)) (l : nat) (blk a i : Z) (pf : bool) q n :
  at_entry s g l blk a i -> ent s a i = EMPTY -> 0 <= blk ->
  q = (blk * 512 + i) * span (Z.of_nat (S l)) -> n = (blk * 512 + i + 1) * span (Z.of_nat (S l)) -> n <= pages ->
  let s' := put_entry a i RESERVED s in
  wf s' /\ evolves s s' /\ ran (step_reserve pf) (ran_out s') (recorded s) (recorded s') q n 0.
Proof.
  intros Hat He Hblk Hq Hn Hp s'. pose proof (span_pos (Z.of_nat (S l)) ltac:(lia)).
  assert (Hold : ~ is_ptr (ent s a i)) by (rewrite He; apply EMPTY_not_ptr).
  pose proof (stuck_block _ _ _ _ _ _ Hat Hold) as Hstuck. rewrite He in Hstuck.
  destruct Hat as (Hwf & Ha & Hr & Hi & Hl).
  split; [exists g; eapply put_entry_wf; try done; intros Hx; by apply RESERVED_not_ptr in Hx|].
  split; [by eapply put_entry_evolves|].
  apply ran_all; [lia| |].
  - intros p Hpq. assert (Hb : p / span (Z.of_nat (S l)) = blk * 512 + i) by (apply block_div; lia).
    assert (Hpp : 0 <= p < pages) by nia. destruct (Hstuck p Hpp Hb) as [-> _].
    destruct (put_entry_here g s Hwf l blk a i Ha Hi Hl Hr RESERVED p Hpp Hb) as [Hnew _].
    destruct (recorded_stuck s' (3 - l) p RESERVED Hnew RESERVED_not_ptr ltac:(lia)) as [-> _].
    unfold step_reserve. cbn [fst]. by destruct pf.
  - intros p Hpp Hout. eapply put_entry_elsewhere; try done. intros Hb. apply Hout.
    pose proof (Z.div_mod p (span (Z.of_nat (S l)))). pose proof (Z.mod_pos_bound p (span (Z.of_nat (S l)))). nia.
Qed.

(** A new table below an entry that was no pointer. *)
Lemma make_table_ok (s : St) (g : gmap Z (nat * Z)) (l : nat) (blk a i init : Z) :
  at_entry s g l blk a i -> ent s a i = init -> ~ is_ptr init ->
  exists x s1, create_table l init s = Ok (x, s1) /\
    ((x = EMPTY /\ ran_out s1 /\ wf s1 /\ evolves s s1 /\
      (forall p, 0 <= p < pages -> recorded s1 p = recorded s p)) \/
     (is_ptr x /\ exists s2, store_entry a i x s1 = Ok (tt, s2) /\ wf s2 /\ evolves s s2 /\
      (forall p, 0 <= p < pages -> recorded s2 p = recorded s p) /\ reached s2 l (blk * 512 + i) x)).
Proof.
  intros (Hwf & Ha & Hr & Hi & Hl) He Hinit.
  destruct (create_table_ok g s l init Hwf Hinit) as (x & s1 & Hc & Hun & [(-> & Hro & Hwf1)|(Hx & Hfresh & Hg & Hmids & Hwf1)]).
  - exists 0, s1. split; [done|]. left. split_and!; [done|done|by exists g|by apply unseen_evolves|].
    intros p Hp. by apply (un_recorded _ _ Hun).
  - exists x, s1. split; [done|]. right. split; [done|].
    specialize (Hwf1 (blk * 512 + i)).
    assert (Ha1 : <[x:=(l, blk * 512 + i)]> g !! a = Some (S l, blk))
      by (rewrite lookup_insert_ne; [done|intros ->; congruence]).
    assert (Hr1 : reached s1 (S l) blk a) by (by eapply reached_unseen).
    assert (He1 : ent s1 a i = init).
    { unfold ent. rewrite Hmids; [done|by rewrite Ha]. }
    exists (put_entry a i x s1). split; [by eapply store_entry_ok|].
    destruct (put_fresh g s1 l blk a i x init) as (Hwf2 & Hev2 & Hrec2 & Hr2); try done.
    split; [done|]. split; [eapply evolves_trans; [by apply unseen_evolves|done]|].
    split; [|done]. intros p Hp. rewrite Hrec2 by done. by apply (un_recorded _ _ Hun).
Qed.

Lemma reserve_mid_walks (pf : bool) (below : nat) : (S below <= 3)%nat ->
  walks recorded (step_reserve pf) ran_out (S below) (fun level a b => reserve_entries_mid below level a b pf).
Proof.
  induction below as [below IH] using lt_wf_ind. intros Hl s blk a p n Hwf Hr Ha Hblk Hp Hn Hpg.
  assert (Hrec : walks recorded (step_reserve pf) ran_out below (fun level a b => match below with
    | O => reserve_entries_bottom level a b pf
    | S below => reserve_entries_mid below level a b pf end)).
  { destruct below; [apply reserve_bottom_walks|]. apply IH; lia. }
  assert (Hunf : forall level a b, reserve_entries_mid below level a b pf =
    or_else 0 (walk_mid (rounds (Z.of_nat below + 1) a b) (Z.of_nat below + 1)
      (fun index start next_start must_recurse =>
       let! t := reserve_table below level index must_recurse in
       match t with
       | None => ret (Some (-1))
       | Some next_table =>
           if next_table =? RESERVED then ret None else
           let! error := match below with
             | O => reserve_entries_bottom next_table start next_start pf
             | S below => reserve_entries_mid below next_table start next_start pf
             end in
           check error
       end) a b)) by (by destruct below).
  rewrite Hunf. apply (walk_mid_goes _ _ _ _ blk a); try done.
  intros s' i q n' must Hwf' Hev Hi Hq Hn' Hblk' Hq0 Hpg' Hmust.
  destruct (at_entry_intro s s' below blk a i) as [g Hat]; try done.
  pose proof Hat as (Hwfg & Hag & Hr' & _ & _).
  unfold body_goes, reserve_table. cbv beta. rewrite <- bind_assoc, (bind_ok _ _ _ _ _ (load_entry_ok g s' Hwfg below blk a i Hag Hi)).
  assert (Hqb : q / span (Z.of_nat (S below)) = blk * 512 + i) by (apply block_div; lia).
  assert (Hself : evolves s' s') by apply evolves_refl.
  destruct (Z.eqb_spec (ent s' a i) RESERVED) as [He|He].
  { exists (Some (-1)), s'. split_and!; try done. apply ran_stop; [lia|done|left].
    destruct (stuck_block s' g below blk a i Hat) with (p := q) as [-> _];
      [rewrite He; apply RESERVED_not_ptr|lia|done|]. by rewrite He. }
  destruct (Z.eqb_spec (ent s' a i) EMPTY) as [He0|He0]; cbn [negb].
  2: { assert (Hx : is_ptr (ent s' a i)) by done.
    unfold bind at 1. cbn [res_bind ret]. rewrite (proj2 (Z.eqb_neq _ _) He).
    apply (recurse_goes recorded (step_reserve pf) ran_out below _ s' blk a i (ent s' a i) q n' Hrec); try done; try lia.
    by eapply reached_child. }
  destruct must.
  - change (match below with O => create_bottom_level EMPTY | S _ => create_mid_level EMPTY end)
      with (create_table below EMPTY).
    destruct (make_table_ok s' g below blk a i EMPTY Hat He0 EMPTY_not_ptr)
      as (x & s1 & Hc & [(-> & Hro & Hwf1 & Hev1 & Hrec1)|(Hx & s2 & Hst & Hwf2 & Hev2 & Hrec2 & Hr2)]).
    + exists (Some (-1)), s1. unfold bind at 1 2. rewrite Hc. cbn. split_and!; try done.
      apply ran_stop; [lia|done|by right].
    + destruct Hx as [Hx0 HxR]. unfold bind at 1 2. rewrite Hc. cbn [res_bind].
      rewrite (proj2 (Z.eqb_neq _ _) Hx0). unfold bind at 1. rewrite Hst. cbn [res_bind ret].
      rewrite (proj2 (Z.eqb_neq _ _) HxR).
      destruct (recurse_goes recorded (step_reserve pf) ran_out below _ s2 blk a i x q n' Hrec) as (r & s3 & Heq & Hwf3 & Hev3 & Hr0 & Hran);
        try done; try lia.
      exists r, s3. split_and!; try done; [by eapply evolves_trans|].
      eapply ran_ext; [lia|lia| |exact Hran]. done.
  - destruct (Hmust eq_refl) as [-> ->].
    exists None, (put_entry a i RESERVED s').
    unfold bind at 1 2. cbn [res_bind ret]. change (RESERVED =? EMPTY) with false. cbn [negb].
    unfold bind at 1. rewrite (store_entry_ok g s' Hwfg below blk a i Hag Hi). cbn [res_bind].
    destruct (reserve_whole s' g below blk a i pf _ _ Hat He0 Hblk eq_refl eq_refl Hpg') as (? & ? & ?).
    split_and!; done.
Qed.

(** *** Recording pages *)

Definition step_update (newcap newcookie : Z) (c : Z * Z) : option (Z * Z) :=
  if negb (c.1 =? RESERVED) && negb (c.1 =? EMPTY) then None else Some (newcap, newcookie).

Lemma update_bottom_walks (c k : Z) :
  walks recorded (step_update c k) ran_out 0 (fun level a b => update_entries_bottom level a b c k).
Proof.
  intros s blk a p n Hwf Hr Ha Hblk Hp Hn Hpg. change (span (Z.of_nat 0 + 1)) with 512 in *.
  unfold update_entries_bottom. eapply walk_bottom_goes; try done.
  intros s' q Hwf' Hev Hq Hb.
  destruct (page_step s' blk a q) as (Hload & _ & _ & Hstore); try done; [by eapply evolves_reached|].
  rewrite (bind_ok _ _ _ _ _ Hload). unfold step_update.
  destruct (_ && _); [exists (Some (-1)), s'; split_and!; try done; [apply evolves_refl|by right]|].
  destruct (Hstore c k) as (s2 & Hst & Hwf2 & Hev2 & Hrec & Hoth & _).
  rewrite (bind_ok _ _ _ _ _ Hst). exists None, s2. split_and!; try done. left. by rewrite Hrec.
Qed.

Lemma not_ptr_cases (e : Z) : (e =? EMPTY) || (e =? RESERVED) = negb (bool_decide (is_ptr e)).
Proof.
  unfold is_ptr. destruct (Z.eqb_spec e EMPTY), (Z.eqb_spec e RESERVED); case_bool_decide; naive_solver.
Qed.

Lemma update_mid_walks (c k : Z) (below : nat) : (S below <= 3)%nat ->
  walks recorded (step_update c k) ran_out (S below) (fun level a b => update_entries_mid below level a b c k).
Proof.
  induction below as [below IH] using lt_wf_ind. intros Hl s blk a p n Hwf Hr Ha Hblk Hp Hn Hpg.
  assert (Hrec : walks recorded (step_update c k) ran_out below (fun level a b => match below with
    | O => update_entries_bottom level a b c k
    | S below => update_entries_mid below level a b c k end)).
  { destruct below; [apply update_bottom_walks|]. apply IH; lia. }
  assert (Hunf : forall level a b, update_entries_mid below level a b c k =
    or_else 0 (walk_mid (rounds (Z.of_nat below + 1) a b) (Z.of_nat below + 1)
      (fun index start next_start _ =>
       let! next_table := update_table below level index in
       if next_table =? EMPTY then ret (Some (-1)) else
       let! error := match below with
         | O => update_entries_bottom next_table start next_start c k
         | S below => update_entries_mid below next_table start next_start c k
         end in
       check error) a b)) by (by destruct below).
  rewrite Hunf. apply (walk_mid_goes _ _ _ _ blk a); try done.
  intros s' i q n' must Hwf' Hev Hi Hq Hn' Hblk' Hq0 Hpg' _.
  destruct (at_entry_intro s s' below blk a i) as [g Hat]; try done.
  pose proof Hat as (Hwfg & Hag & Hr' & _ & _).
  unfold body_goes, update_table. cbv beta.
  rewrite <- bind_assoc, (bind_ok _ _ _ _ _ (load_entry_ok g s' Hwfg below blk a i Hag Hi)), not_ptr_cases.
  case_bool_decide as Hx; cbn [negb].
  { unfold bind at 1. cbn [res_bind ret]. rewrite (proj2 (Z.eqb_neq _ _) (proj1 Hx)).
    apply (recurse_goes recorded (step_update c k) ran_out below _ s' blk a i (ent s' a i) q n' Hrec); try done; try lia.
    by eapply reached_child. }
  change (match below with O => create_bottom_level (ent s' a i) | S _ => create_mid_level (ent s' a i) end)
    with (create_table below (ent s' a i)).
  destruct (make_table_ok s' g below blk a i (ent s' a i) Hat eq_refl Hx)
    as (x & s1 & Hc & [(-> & Hro & Hwf1 & Hev1 & Hrec1)|(Hx1 & s2 & Hst & Hwf2 & Hev2 & Hrec2 & Hr2)]).
  - exists (Some (-1)), s1. unfold bind at 1 2. rewrite Hc. cbn. split_and!; try done.
    apply ran_stop; [lia|done|by right].
  - unfold bind at 1 2. rewrite Hc. cbn [res_bind].
    rewrite (proj2 (Z.eqb_neq _ _) (proj1 Hx1)). unfold bind at 1. rewrite Hst. cbn [res_bind ret].
    rewrite (proj2 (Z.eqb_neq _ _) (proj1 Hx1)).
    destruct (recurse_goes recorded (step_update c k) ran_out below _ s2 blk a i x q n' Hrec) as (r & s3 & Heq & Hwf3 & Hev3 & Hr0 & Hran);
      try done; try lia.
    exists r, s3. split_and!; try done; [by eapply evolves_trans|].
    eapply ran_ext; [lia|lia| |exact Hran]. done.
Qed.

(** *** Clearing

    Here the result depends on where a page is recorded: an entry above the
    bottom that is reserved is refused, an empty one is passed over. *)
Definition placed (s : St) (p : Z) : bool * (Z * Z) := (own s p, recorded s p).

Definition step_clear (only_reserved : bool) (c : bool * (Z * Z)) : option (bool * (Z * Z)) :=
  if c.1 then
    if negb (c.2.1 =? RESERVED) && only_reserved then None else Some (true, (EMPTY, 0))
  else if c.2.1 =? RESERVED then None else Some c.

Lemma clear_bottom_walks (o : bool) :
  walks placed (step_clear o) (fun _ => False) 0 (fun level a b => clear_entries_bottom level a b o).
Proof.
  intros s blk a p n Hwf Hr Ha Hblk Hp Hn Hpg. change (span (Z.of_nat 0 + 1)) with 512 in *.
  unfold clear_entries_bottom. eapply walk_bottom_goes; try done.
  intros s' q Hwf' Hev Hq Hb.
  destruct (page_step s' blk a q) as (Hload & _ & Hown & Hstore); try done; [by eapply evolves_reached|].
  rewrite (bind_ok _ _ _ _ _ Hload). unfold step_clear, placed. cbn [fst snd]. rewrite Hown.
  destruct (_ && _); [exists (Some (-1)), s'; split_and!; try done; [apply evolves_refl|by right]|].
  destruct (Hstore EMPTY 0) as (s2 & Hst & Hwf2 & Hev2 & Hrec & Hoth & Hown2).
  rewrite (bind_ok _ _ _ _ _ Hst). exists None, s2. split_and!; try done. left.
  rewrite Hrec, Hown2, Hown. split_and!; try done. intros x Hx Hne. by rewrite Hown2, Hoth.
Qed.

Lemma clear_mid_walks (o : bool) (below : nat) : (S below <= 3)%nat ->
  walks placed (step_clear o) (fun _ => False) (S below) (fun level a b => clear_entries_mid below level a b o).
Proof.
  induction below as [below IH] using lt_wf_ind. intros Hl s blk a p n Hwf Hr Ha Hblk Hp Hn Hpg.
  assert (Hrec : walks placed (step_clear o) (fun _ => False) below (fun level a b => match below with
    | O => clear_entries_bottom level a b o
    | S below => clear_entries_mid below level a b o end)).
  { destruct below; [apply clear_bottom_walks|]. apply IH; lia. }
  assert (Hunf : forall level a b, clear_entries_mid (W := W) below level a b o =
    or_else 0 (walk_mid (rounds (Z.of_nat below + 1) a b) (Z.of_nat below + 1)
      (fun index start next_start _ =>
       let! next_table := load_entry level index in
       if next_table =? RESERVED then ret (Some (-1)) else
       if next_table =? EMPTY then ret None else
       let! error := match below with
         | O => clear_entries_bottom (W := W) next_table start next_start o
         | S below => clear_entries_mid (W := W) below next_table start next_start o
         end in
       check error) a b)) by (by destruct below).
  cbv beta. rewrite Hunf. apply (walk_mid_goes _ _ _ _ blk a); try done.
  intros s' i q n' must Hwf' Hev Hi Hq Hn' Hblk' Hq0 Hpg' _.
  destruct (at_entry_intro s s' below blk a i) as [g Hat]; try done.
  pose proof Hat as (Hwfg & Hag & Hr' & _ & _).
  unfold body_goes. rewrite (bind_ok _ _ _ _ _ (load_entry_ok g s' Hwfg below blk a i Hag Hi)).
  pose proof (stuck_block s' g below blk a i Hat) as Hstuck.
  assert (Hself : evolves s' s') by apply evolves_refl.
  destruct (Z.eqb_spec (ent s' a i) RESERVED) as [He|He].
  { exists (Some (-1)), s'. split_and!; try done. apply ran_stop; [lia|done|left].
    rewrite He in Hstuck. unfold placed, step_clear. cbn [fst snd].
    destruct (Hstuck RESERVED_not_ptr q) as [-> ->]; [lia|by apply block_div; lia|]. done. }
  destruct (Z.eqb_spec (ent s' a i) EMPTY) as [He0|He0].
  { exists None, s'. split_and!; try done. apply ran_all; [lia| |done].
    intros x Hxq. rewrite He0 in Hstuck. unfold placed, step_clear. cbn [fst snd].
    destruct (Hstuck EMPTY_not_ptr x) as [-> ->]; [lia|by apply block_div; lia|]. done. }
  apply (recurse_goes placed (step_clear o) (fun _ => False) below _ s' blk a i (ent s' a i) q n' Hrec); try done; try lia.
  by eapply reached_child.
Qed.

(** *** Looking *)

(** A question about a range that leaves everything as it is. *)
Definition tells (m : M St bool) (s : St) (good p n : Z) : Prop :=
  exists b, m s = Ok (b, s) /\
    if b : bool then forall q, p <= q < n -> (recorded s q).1 = good
    else exists q, p <= q < n /\ (recorded s q).1 <> good.

Definition opposite (good bad : Z) : Prop := (good = EMPTY /\ bad = RESERVED) \/ (good = RESERVED /\ bad = EMPTY).

Lemma tells_or_else (m : M St (option bool)) (s : St) (good p n : Z) :
  (exists r s', m s = Ok (r, s') /\ match r with
    | None => s' = s /\ forall q, p <= q < n -> (recorded s q).1 = good
    | Some x => s' = s /\ x = false /\ exists q, p <= q < n /\ (recorded s q).1 <> good end) ->
  tells (or_else true m) s good p n.
Proof.
  intros (r & s' & Heq & Hr). unfold tells, or_else. rewrite (bind_ok _ _ _ _ _ Heq).
  destruct r as [x|]; [destruct Hr as (-> & -> & q & Hq & Hne)|destruct Hr as [-> Hall]].
  - exists false. split; [done|]. by exists q.
  - exists true. by split.
Qed.

Lemma tells_bottom (s : St) (blk a p n good bad : Z) :
  wf s -> reached s 0 blk a -> is_ptr a -> 0 <= blk ->
  blk * 512 <= p <= n -> n <= (blk + 1) * 512 -> n <= pages ->
  tells (is_reserved_or_empty_bottom a (addr p) (addr n) good bad) s good p n.
Proof.
  intros Hwf Hr Ha Hblk Hp Hn Hpg. apply tells_or_else.
  apply (walk_bottom_rule _ p n (fun q s' => s' = s /\ forall x, p <= x < q -> (recorded s x).1 = good)
    (fun x s' => s' = s /\ x = false /\ exists q, p <= q < n /\ (recorded s q).1 <> good)); [lia|done| |].
  { split; [done|lia]. }
  intros q s' Hq [-> Hall].
  assert (Hqb : q / 512 = blk) by (symmetry; apply (Z.div_unique q 512 blk (q - 512 * blk)); lia).
  destruct (page_step s blk a q) as (Hload & _); try done; [lia|].
  rewrite (bind_ok _ _ _ _ _ Hload). destruct (Z.eqb_spec (recorded s q).1 good) as [Hg|Hg]; cbn [negb].
  - exists None, s. split; [done|]. split; [done|]. intros x Hx. destruct (decide (x = q)) as [->|]; [done|]. apply Hall. lia.
  - exists (Some false), s. split; [done|]. split_and!; try done. by exists q.
Qed.

Lemma tells_mid (below : nat) (s : St) (blk a p n good bad : Z) :
  opposite good bad -> (S below <= 3)%nat -> wf s -> reached s (S below) blk a -> is_ptr a -> 0 <= blk ->
  blk * span (Z.of_nat (S below) + 1) <= p <= n -> n <= (blk + 1) * span (Z.of_nat (S below) + 1) -> n <= pages ->
  tells (is_reserved_or_empty_mid below a (addr p) (addr n) good bad) s good p n.
Proof.
  intros Hop. revert blk a p n. induction below as [below IH] using lt_wf_ind.
  intros blk a p n Hl Hwf Hr Ha Hblk Hp Hn Hpg.
  assert (Hunf : is_reserved_or_empty_mid (W := W) below a (addr p) (addr n) good bad =
    or_else true (walk_mid (rounds (Z.of_nat below + 1) (addr p) (addr n)) (Z.of_nat below + 1)
      (fun index start next_start _ =>
       let! next_table := load_entry a index in
       if next_table =? bad then ret (Some false) else
       if next_table =? good then ret None else
       let! succ := match below with
         | O => is_reserved_or_empty_bottom (W := W) next_table start next_start good bad
         | S below => is_reserved_or_empty_mid (W := W) below next_table start next_start good bad
         end in
       ret (if negb succ then Some false else None)) (addr p) (addr n))) by (by destruct below).
  rewrite Hunf. apply tells_or_else.
  apply (walk_mid_blocks below blk _ s p n (fun q s' => s' = s /\ forall x, p <= x < q -> (recorded s x).1 = good)
    (fun x s' => s' = s /\ x = false /\ exists q, p <= q < n /\ (recorded s q).1 <> good)); try done.
  { split; [done|lia]. }
  intros s' i q n' must [-> Hall] Hi Hpq Hnn Hq Hn' Hb Hq0 Hpg' _.
  destruct (at_entry_intro s s below blk a i) as [g Hat]; try done; [apply evolves_refl|].
  pose proof Hat as (Hwfg & Hag & Hr' & _ & _).
  rewrite (bind_ok _ _ _ _ _ (load_entry_ok g s Hwfg below blk a i Hag Hi)).
  pose proof (stuck_block s g below blk a i Hat) as Hstuck.
  destruct (Z.eqb_spec (ent s a i) bad) as [He|He].
  { exists (Some false), s. split; [done|]. split_and!; try done. exists q. split; [lia|].
    destruct Hstuck with (p := q) as [-> _]; [|lia|apply block_div; lia|].
    - rewrite He. destruct Hop as [[_ ->]|[_ ->]]; [apply RESERVED_not_ptr|apply EMPTY_not_ptr].
    - cbn [fst]. rewrite He. by destruct Hop as [[-> ->]|[-> ->]]. }
  destruct (Z.eqb_spec (ent s a i) good) as [He'|He'].
  { exists None, s. split; [done|]. split; [done|]. intros x Hx.
    destruct (decide (x < q)); [apply Hall; lia|].
    destruct Hstuck with (p := x) as [-> _]; [|lia|apply block_div; lia|done].
    rewrite He'. destruct Hop as [[-> _]|[-> _]]; [apply EMPTY_not_ptr|apply RESERVED_not_ptr]. }
  assert (Hx : is_ptr (ent s a i)) by (destruct Hop as [[-> ->]|[-> ->]]; by split).
  assert (Hrx : reached s below (blk * 512 + i) (ent s a i)) by (by eapply reached_child).
  assert (Hrec : tells (match below with
     | O => is_reserved_or_empty_bottom (ent s a i) (addr q) (addr n') good bad
     | S below => is_reserved_or_empty_mid below (ent s a i) (addr q) (addr n') good bad end) s good q n').
  { replace (Z.of_nat (S below)) with (Z.of_nat below + 1) in * by lia. destruct below as [|below].
    - change (span (Z.of_nat 0 + 1)) with 512 in *. eapply tells_bottom; try done; lia.
    - eapply (IH below); try done; lia. }
  destruct Hrec as (b & Heq & Hb'). rewrite (bind_ok _ _ _ _ _ Heq). destruct b; cbn [negb].
  - exists None, s. split; [done|]. split; [done|]. intros x Hx'.
    destruct (decide (x < q)); [apply Hall|apply Hb']; lia.
  - exists (Some false), s. split; [done|]. split_and!; try done.
    destruct Hb' as (x & Hxq & Hne). exists x. split; [lia|done].
Qed.

Lemma bottom_of_ok (s : St) (p : Z) (i : nat) : wf s -> 0 <= p < pages -> (S i <= 3)%nat ->
  is_ptr (entry s (3 - S i) p) ->
  bottom_of i (entry s (3 - S i) p) (addr p) s = Ok (if own s p then Some (entry s 3 p) else None, s).
Proof.
  intros [g Hwf] Hp. induction i as [i IH] using lt_wf_ind. intros Hi Hptr.
  pose proof (entry_typed g s (3 - S i) p Hwf Hp ltac:(lia) Hptr) as Ht.
  replace (3 - (3 - S i))%nat with (S i) in Ht by lia.
  pose proof (entry_S s (3 - S i) p) as HS. rewrite decide_True in HS by done.
  replace (S (3 - S i)) with (3 - i)%nat in HS by lia.
  replace (3 - Z.of_nat (3 - S i)) with (Z.of_nat i + 1) in HS by lia.
  assert (Hunf : forall level, bottom_of (W := W) i level (addr p) =
    let! next := load_entry level (INDEX_FOR_LEVEL (addr p) (Z.of_nat i + 1)) in
    if (next =? EMPTY) || (next =? RESERVED) then ret None else
    match i with O => ret (Some next) | S i => bottom_of i next (addr p) end) by (by destruct i).
  rewrite Hunf, INDEX_span by lia.
  rewrite (bind_ok _ _ _ _ _ (load_entry_ok g s Hwf i _ _ _ Ht ltac:(apply Z.mod_pos_bound; lia))).
  rewrite <- HS, not_ptr_cases. unfold own.
  case_bool_decide as Hx; cbn [negb].
  - destruct i as [|i].
    + change (3 - 0)%nat with 3%nat in *. by rewrite bool_decide_eq_true_2.
    + rewrite IH; [done|lia|lia|]. done.
  - rewrite (entry_stuck s (3 - i) 3 p) by (done || lia). by rewrite bool_decide_eq_false_2.
Qed.

Lemma top_ptr (s : St) : wf s -> is_ptr (top_level (data s)).
Proof. intros [g Hwf]. eapply (wf_ptrs _ _ Hwf), (wf_top _ _ Hwf). Qed.

Lemma own_reached (s : St) (p : Z) : own s p = true -> is_ptr (entry s 3 p).
Proof. unfold own. apply bool_decide_eq_true. Qed.

Lemma own_stuck (s : St) (p : Z) : own s p = false -> ~ is_ptr (entry s 3 p).
Proof. unfold own. apply bool_decide_eq_false_1. Qed.

Lemma own_loads (s : St) (p : Z) : wf s -> 0 <= p < pages -> own s p = true ->
  load_cap (entry s 3 p) (p mod 512) s = Ok ((recorded s p).1, s) /\
  load_cookie (entry s 3 p) (p mod 512) s = Ok ((recorded s p).2, s).
Proof.
  intros [g Hwf] Hp Hown%own_reached.
  pose proof (entry_typed g s 3 p Hwf Hp ltac:(lia) Hown) as Ht. change (span (4 - Z.of_nat 3)) with 512 in Ht.
  split; [by eapply load_cap_ok|by eapply load_cookie_ok].
Qed.

Lemma bottom_of_top (s : St) (p : Z) : wf s -> 0 <= p < pages ->
  bottom_of top_below (top_level (data s)) (addr p) s = Ok (if own s p then Some (entry s 3 p) else None, s).
Proof.
  intros Hwf Hp. assert (Htop : top_below = 2%nat) by reflexivity. rewrite Htop.
  pose proof (bottom_of_ok s p 2 Hwf Hp ltac:(lia)) as H. cbn [entry Nat.sub] in H. apply H. by apply top_ptr.
Qed.

Lemma INDEX_page (p : Z) : 0 <= p -> INDEX_FOR_LEVEL (addr p) 0 = p mod 512.
Proof. intros Hp. rewrite INDEX_span by lia. change (span 0) with 1. by rewrite Z.div_1_r. Qed.

Lemma get_cap_ok (s : St) (p : Z) : wf s -> 0 <= p < pages ->
  get_cap (top_level (data s)) (addr p) s = Ok (if own s p then (recorded s p).1 else 0, s).
Proof.
  intros Hwf Hp. pose proof (bottom_of_top s p Hwf Hp) as Hb.
  destruct (own s p) eqn:Hown; unfold get_cap; rewrite (bind_ok _ _ _ _ _ Hb).
  - rewrite INDEX_page by lia. exact (proj1 (own_loads s p Hwf Hp Hown)).
  - done.
Qed.

Lemma get_cookie_ok (s : St) (p : Z) : wf s -> 0 <= p < pages ->
  get_cookie (top_level (data s)) (addr p) s = Ok ((recorded s p).2, s).
Proof.
  intros Hwf Hp. pose proof (bottom_of_top s p Hwf Hp) as Hb.
  destruct (own s p) eqn:Hown; unfold get_cookie; rewrite (bind_ok _ _ _ _ _ Hb).
  - rewrite INDEX_page by lia. exact (proj2 (own_loads s p Hwf Hp Hown)).
  - apply own_stuck in Hown. unfold recorded. by rewrite decide_False by exact Hown.
Qed.

(** From the top. *)
Lemma walks_top {X : Type} (obs : St -> Z -> X) (step : X -> option X) (stopped : St -> Prop) (op : Z -> Z -> Z -> M St Z) (s : St) (a b : Z) :
  walks obs step stopped 3 op -> wf s -> 0 <= a <= b -> b <= pages ->
  goes obs step stopped (op (top_level (data s)) (addr a) (addr b)) s a b.
Proof.
  intros Hop Hwf Hab Hb. apply (Hop s 0); change (span (Z.of_nat 3 + 1)) with pages; first [done|lia|apply (reached_top s)|by apply top_ptr].
Qed.

Lemma reserve_entries_range_ok (s : St) (a b : Z) (pf : bool) : wf s -> 0 <= a <= b -> b <= pages ->
  goes recorded (step_reserve pf) ran_out (reserve_entries_range (addr a) (addr b) pf) s a b.
Proof.
  intros. exact (walks_top recorded (step_reserve pf) ran_out (fun level a b => reserve_entries_mid 2 level a b pf) s a b
    (reserve_mid_walks pf 2 ltac:(lia)) ltac:(done) ltac:(done) ltac:(done)).
Qed.

Lemma page_end (p size_bits : Z) : 0 <= p -> 12 <= size_bits < 48 -> p + 2 ^ (size_bits - 12) <= pages ->
  addr p ⊞ BIT size_bits = addr (p + 2 ^ (size_bits - 12)).
Proof.
  intros Hp Hs Hle. rewrite BIT_pow by lia. unfold addr. rewrite PAGE_SIZE_4K_eq.
  replace (2 ^ size_bits) with (2 ^ (size_bits - 12) * 4096)
    by (change 4096 with (2 ^ 12); rewrite <- Z.pow_add_r by lia; f_equal; lia).
  rewrite <- Z.mul_add_distr_r. apply wrap_small. unfold is_word, word_size. unfold pages in Hle.
  assert (0 <= 2 ^ (size_bits - 12)) by (apply Z.pow_nonneg; lia). lia.
Qed.

Lemma update_entries_ok (s : St) (p c size_bits k : Z) :
  wf s -> 0 <= p -> 12 <= size_bits < 48 -> p + 2 ^ (size_bits - 12) <= pages ->
  goes recorded (step_update c k) ran_out (update_entries (addr p) c size_bits k) s p (p + 2 ^ (size_bits - 12)).
Proof.
  intros Hwf Hp Hs Hle. unfold update_entries. rewrite page_end by done.
  assert (0 <= 2 ^ (size_bits - 12)) by (apply Z.pow_nonneg; lia).
  exact (walks_top recorded (step_update c k) ran_out (fun level a b => update_entries_mid 2 level a b c k) s p
    (p + 2 ^ (size_bits - 12)) (update_mid_walks c k 2 ltac:(lia)) Hwf ltac:(lia) Hle).
Qed.

Lemma is_reserved_or_empty_range_ok (s : St) (a b good bad : Z) :
  wf s -> opposite good bad -> 0 <= a <= b -> b <= pages ->
  tells (is_reserved_or_empty_range (top_level (data s)) (addr a) (addr b) good bad) s good a b.
Proof.
  intros Hwf Hop Hab Hb. apply (tells_mid 2 s 0); change (span (Z.of_nat 3 + 1)) with pages; first [done|lia|apply (reached_top s)|by apply top_ptr].
Qed.

(** The last step of [clear_entries_range] touches no table. *)
Lemma set_last_allocated_wf (s : St) (v : Z) : wf s -> wf (set_data (set_last_allocated v (data s)) s).
Proof.
  apply wf_same_tables; try done. cbn. by rewrite (level_addrs_data (set_last_allocated v (data s)) (data s)).
Qed.

Lemma set_last_allocated_same (s : St) (v p : Z) :
  recorded (set_data (set_last_allocated v (data s)) s) p = recorded s p /\
  own (set_data (set_last_allocated v (data s)) s) p = own s p.
Proof. by apply recorded_same_tables. Qed.

Lemma set_last_same (d : sel4utils_alloc_data_t) : set_last_allocated (last_allocated d) d = d.
Proof. by destruct d. Qed.

Lemma clear_entries_range_ok (s : St) (a b : Z) (o : bool) : wf s -> 0 <= a <= b -> b <= pages ->
  exists e s', clear_entries_range (addr a) (addr b) o s = Ok (e, s') /\ wf s' /\
    reservations s' = reservations s /\ other_blocks (world s') = other_blocks (world s) /\
    (exists v, data s' = with_next_bootstrap v (set_last_allocated
      (if e =? 0 then Z.min (addr a) (last_allocated (data s)) else last_allocated (data s)) (data s))) /\
    ran (step_clear o) False (placed s) (placed s') a b e.
Proof.
  intros Hwf Hab Hb.
  destruct (walks_top placed (step_clear o) (fun _ => False) (fun level a b => clear_entries_mid 2 level a b o) s a b
      (clear_mid_walks o 2 ltac:(lia)) Hwf Hab Hb)
    as (e & s1 & Heq & Hwf1 & [[v Hd] Hres Hbl _] & Hran).
  unfold clear_entries_range. unfold bind at 1. cbn [gets res_bind].
  rewrite (bind_ok _ _ _ _ _ Heq). destruct (Z.eqb_spec e 0) as [->|Hne]; cbn [negb].
  - destruct (Z.ltb_spec (addr a) (last_allocated (data s1))) as [Hlt|Hge].
    + exists 0, (set_data (set_last_allocated (addr a) (data s1)) s1).
      unfold bind, modify, ret. cbn [res_bind]. rewrite (proj2 (Z.ltb_lt _ _) Hlt).
      split; [done|]. split; [by apply set_last_allocated_wf|]. split; [done|]. split; [done|]. split.
      { exists v. cbn. rewrite Hd in *. cbn in *. by rewrite Z.min_l by lia. }
      destruct Hran as (m & Hm & Hin & Hout & He). exists m. unfold placed in *.
      split; [done|]. split; [|split].
      * intros p Hp. destruct (set_last_allocated_same s1 (addr a) p) as [-> ->]. by apply Hin.
      * intros p Hp Hn. destruct (set_last_allocated_same s1 (addr a) p) as [-> ->]. by apply Hout.
      * left. destruct He as [|[]]; done.
    + exists 0, s1. unfold bind, modify, ret. cbn [res_bind]. rewrite (proj2 (Z.ltb_ge _ _) Hge).
      split; [done|]. split; [done|]. split; [done|]. split; [done|]. split; [|done].
      exists v. change (0 =? 0) with true. cbv iota.
      assert (last_allocated (data s1) = last_allocated (data s)) by (by rewrite Hd).
      rewrite Z.min_r, set_last_same by lia. done.
  - exists e, s1. split; [done|]. split; [done|]. split; [done|]. split; [done|]. split; [|done].
    exists v. rewrite (proj2 (Z.eqb_neq _ _) Hne). by rewrite set_last_same.
Qed.

(** *** The theorems *)

(** C34: reserving a range visits its pages in order: a page is reserved if it is
    empty, or if it is mapped and frames need not be preserved; the walk stops
    with -1 at the first page it may not reserve, or when there is no memory for
    a table, and the pages outside the part it went through keep their
    records. *)
Theorem reserve_entries_range_spec (s : St) (a b : Z) (preserve_frames : bool) :
  wf s -> 0 <= a <= b -> b <= pages ->
  exists e s', reserve_entries_range (addr a) (addr b) preserve_frames s = Ok (e, s') /\ wf s' /\ evolves s s' /\
    ran (step_reserve preserve_frames) (ran_out s') (recorded s) (recorded s') a b e.
Proof. exact (reserve_entries_range_ok s a b preserve_frames). Qed.

(** Recording a mapped page of any size writes its capability and cookie for
    each 4K page it covers, splitting reserved or empty blocks of entries where
    it has to without a change to their other pages; it stops with -1 at the
    first page that is already mapped, or when there is no memory for a table. *)
Theorem update_entries_spec (s : St) (p newcap size_bits newcookie : Z) :
  wf s -> 0 <= p -> 12 <= size_bits < 48 -> p + 2 ^ (size_bits - 12) <= pages ->
  exists e s', update_entries (addr p) newcap size_bits newcookie s = Ok (e, s') /\ wf s' /\ evolves s s' /\
    ran (step_update newcap newcookie) (ran_out s') (recorded s) (recorded s') p (p + 2 ^ (size_bits - 12)) e.
Proof. exact (update_entries_ok s p newcap size_bits newcookie). Qed.

(** Clearing a range empties the pages that have an entry of their own at the
    bottom, up to the first page that is part of a reserved block above the
    bottom - such blocks are never cleared - or, if only reserved pages may be
    cleared, that is not reserved.  A range that is cleared lowers
    [last_allocated]. *)
Theorem clear_entries_range_spec (s : St) (a b : Z) (only_reserved : bool) :
  wf s -> 0 <= a <= b -> b <= pages ->
  exists e s', clear_entries_range (addr a) (addr b) only_reserved s = Ok (e, s') /\ wf s' /\
    reservations s' = reservations s /\
    (exists v, data s' = with_next_bootstrap v (set_last_allocated
      (if e =? 0 then Z.min (addr a) (last_allocated (data s)) else last_allocated (data s)) (data s))) /\
    ran (step_clear only_reserved) False (placed s) (placed s') a b e.
Proof.
  intros Hwf Hab Hb. destruct (clear_entries_range_ok s a b only_reserved Hwf Hab Hb) as (e & s' & H1 & H2 & H3 & _ & H4 & H5).
  exists e, s'. split_and!; done.
Qed.

(** [is_available_range] and [is_reserved_range] answer whether every page of
    the range is empty, or reserved, whatever the shape of the tables, and
    change nothing; [get_cap] and [get_cookie] return what is recorded of a page
    that has an entry of its own. *)
Theorem lookups_spec (s : St) (a b : Z) :
  wf s -> 0 <= a < b -> b <= pages ->
  let top := top_level (data s) in
  (exists r, is_available_range top (addr a) (addr b) s = Ok (r, s) /\
    (r = true <-> forall p, a <= p < b -> (recorded s p).1 = EMPTY)) /\
  (exists r, is_reserved_range top (addr a) (addr b) s = Ok (r, s) /\
    (r = true <-> forall p, a <= p < b -> (recorded s p).1 = RESERVED)) /\
  get_cap top (addr a) s = Ok (if own s a then (recorded s a).1 else 0, s) /\
  get_cookie top (addr a) s = Ok ((recorded s a).2, s).
Proof.
  intros Hwf Hab Hb top.
  assert (Htell : forall good bad, opposite good bad ->
    exists r, is_reserved_or_empty_range top (addr a) (addr b) good bad s = Ok (r, s) /\
      (r = true <-> forall p, a <= p < b -> (recorded s p).1 = good)).
  { intros good bad Hop. destruct (is_reserved_or_empty_range_ok s a b good bad Hwf Hop) as (r & Heq & Hr); [lia|done|].
    exists r. split; [done|]. destruct r; [done|]. split; [done|].
    destruct Hr as (q & Hq & Hne). intros Hall. by destruct Hne; apply Hall. }
  split; [apply Htell; by left|]. split; [apply Htell; by right|].
  split; [apply get_cap_ok|apply get_cookie_ok]; done || lia.
Qed.

End functions.

(** ** A small system: memory for a thousand tables, and a heap *)

#[export] Instance toy_memory : LevelMemory (nat * toy_heap) := fun size '(d, (n, h)) =>
  if Z.of_nat n <? 1000 then Ok (8192 * (Z.of_nat n + 1), (d, (S n, h))) else Ok (0, (d, (n, h))).

Definition toy_addrs (n : nat) : gset Z := list_to_set ((fun k => 8192 * (Z.of_nat k + 1)) <$> seq 0 (n `min` 1000)).

Lemma toy_addrs_in (n : nat) (p : Z) :
  p ∈ toy_addrs n <-> exists k, (k < n)%nat /\ (k < 1000)%nat /\ p = 8192 * (Z.of_nat k + 1).
Proof.
  unfold toy_addrs. rewrite elem_of_list_to_set, list_elem_of_fmap. split.
  - intros (k & -> & Hk%elem_of_seq). exists k. lia.
  - intros (k & Hk & Hk' & ->). exists k. split; [done|]. apply elem_of_seq. lia.
Qed.

#[export] Program Instance toy_memory_laws : LevelMemoryLaws (nat * toy_heap) := {
  level_addrs dw := toy_addrs dw.2.1;
  other_blocks w := th_live w.2
}.
Next Obligation.
  intros size d [n h]. cbn [fst snd]. unfold create_level, toy_memory.
  exists (if Z.of_nat n <? 1000 then 8192 * (Z.of_nat n + 1) else 0), (next_bootstrap_vaddr d).
  rewrite with_next_same.
  destruct (Z.ltb_spec (Z.of_nat n) 1000); [exists (S n, h)|exists (n, h); auto].
  split; [done|]. split; [done|right]. split; [|split].
  - unfold is_ptr, EMPTY, RESERVED, word_size. lia.
  - cbn [fst snd]. rewrite toy_addrs_in. intros (k & ? & ? & ?). lia.
  - cbn [fst snd]. apply set_eq. intros p. rewrite elem_of_union, elem_of_singleton, !toy_addrs_in. split.
    + intros (k & ? & ? & ->). destruct (decide (k = n)) as [->|]; [by left|right; exists k; lia].
    + intros [->|(k & ? & ? & ->)]; [exists n; lia|exists k; lia].
Qed.
Next Obligation. done. Qed.

(** An address space with nothing in it, its top table at 8192. *)
Definition toy_space : vspace_mem (nat * toy_heap) :=
  VspaceMem (AllocData 3 8192 0 268435456 1 0 false) {[8192 := MidLevel (filled EMPTY)]} ∅ ∅ (1%nat, ToyHeap 10 ∅).

Lemma toy_space_wf : wf toy_space.
Proof.
  exists {[8192 := (3%nat, 0)]}. split.
  - reflexivity.
  - intros a l blk [<- ?]%lookup_singleton_Some. exists (MidLevel (filled EMPTY)).
    split; [reflexivity|]. split; [apply length_replicate|].
    intros i Hi Hp. cbn [table] in Hp. rewrite nth_or_filled in Hp by done. by apply EMPTY_not_ptr in Hp.
  - intros a blk [<- ?]%lookup_singleton_Some. done.
  - intros a lb [<- <-]%lookup_singleton_Some. split; [by split|]. apply toy_addrs_in. exists 0%nat. cbn. lia.
Qed.

(** Reserving 600 pages from page 256 on: the first 256 of them one by one, the
    next block of 512 would not fit, so the rest one by one too. *)
Example reserve_600 : exists s', reserve_entries_range (addr 256) (addr 856) true toy_space = Ok (0, s') /\
  recorded s' 255 = (EMPTY, 0) /\ recorded s' 256 = (RESERVED, 0) /\ recorded s' 855 = (RESERVED, 0) /\
  recorded s' 856 = (EMPTY, 0) /\ own s' 855 = true.
Proof. eexists. split; [vm_compute; reflexivity|]. vm_compute. done. Qed.

Lemma reserve_entries_range_spec_witness : exists e s',
  reserve_entries_range (addr 256) (addr 1024) true toy_space = Ok (e, s') /\ wf s' /\ evolves toy_space s' /\
    ran (step_reserve true) (ran_out s') (recorded toy_space) (recorded s') 256 1024 e.
Proof. apply (reserve_entries_range_spec toy_space 256 1024 true); [exact toy_space_wf|lia|unfold pages; lia]. Defined.

Lemma update_entries_spec_witness : exists e s',
  update_entries (addr 512) 77 21 5 toy_space = Ok (e, s') /\ wf s' /\ evolves toy_space s' /\
    ran (step_update 77 5) (ran_out s') (recorded toy_space) (recorded s') 512 (512 + 2 ^ (21 - 12)) e.
Proof. apply (update_entries_spec toy_space 512 77 21 5); [exact toy_space_wf|lia|lia|unfold pages; lia]. Defined.

Lemma clear_entries_range_spec_witness : exists e s',
  clear_entries_range (addr 512) (addr 520) false toy_space = Ok (e, s') /\ wf s' /\
    reservations s' = reservations toy_space /\
    (exists v, data s' = with_next_bootstrap v (set_last_allocated
      (if e =? 0 then Z.min (addr 512) (last_allocated (data toy_space)) else last_allocated (data toy_space))
      (data toy_space))) /\
    ran (step_clear false) False (placed toy_space) (placed s') 512 520 e.
Proof. apply (clear_entries_range_spec toy_space 512 520 false); [exact toy_space_wf|lia|unfold pages; lia]. Defined.

Lemma lookups_spec_witness :
  let top := top_level (data toy_space) in
  (exists r, is_available_range top (addr 512) (addr 1024) toy_space = Ok (r, toy_space) /\
    (r = true <-> forall p, 512 <= p < 1024 -> (recorded toy_space p).1 = EMPTY)) /\
  (exists r, is_reserved_range top (addr 512) (addr 1024) toy_space = Ok (r, toy_space) /\
    (r = true <-> forall p, 512 <= p < 1024 -> (recorded toy_space p).1 = RESERVED)) /\
  get_cap top (addr 512) toy_space = Ok (if own toy_space 512 then (recorded toy_space 512).1 else 0, toy_space) /\
  get_cookie top (addr 512) toy_space = Ok ((recorded toy_space 512).2, toy_space).
Proof. apply (lookups_spec toy_space 512 1024); [exact toy_space_wf|lia|unfold pages; lia]. Defined.

(** A block that is reserved as a whole can be recorded page by page, but the
    reservation itself cannot be cleared. *)
Example reserved_block_stays : exists s1 s2,
  reserve_entries_range (addr 512) (addr 1024) true toy_space = Ok (0, s1) /\
  clear_entries_range (addr 512) (addr 1024) true s1 = Ok (-1, s2) /\ recorded s2 700 = (RESERVED, 0).
Proof. eexists _, _. split; [vm_compute; reflexivity|]. split; [vm_compute; reflexivity|]. vm_compute. done. Qed.
