(* ===== verification/Vspace.v ===== *)
(** libsel4utils/src/vspace/vspace.c: reservations of address ranges, and the
    mapping of pages, over the records of VspaceTables.v.

    Reservations are nodes of a linked list on the heap ([reservations]).  The
    [vka_t] of the address space, the function that maps a page, the kernel's
    call to unmap one, and the rounding macros of libutils are parameters.  The
    configuration has neither VTX nor an IOMMU; messages are left out. *)
From S2P Require Import Prelude Cspacepath Interfaces Objects Vka VspaceTables.

(** The macros of libutils (utils/arith.h, utils/page.h): rounding to a multiple
    of the second argument, a power of two for [ALIGN_UP] and [ALIGN_DOWN], the
    number of pages of [2^size_bits] bytes that hold some bytes, and the bytes of
    such a page. *)
Class UtilsMacros : Type := {
  ROUND_DOWN : Z -> Z -> Z;
  ROUND_UP : Z -> Z -> Z;
  ALIGN_UP : Z -> Z -> Z;
  ALIGN_DOWN : Z -> Z -> Z;
  BYTES_TO_SIZE_BITS_PAGES : Z -> Z -> Z;
  SIZE_BITS_TO_BYTES : Z -> Z
}.

(** What can be passed as the allocator that pages go back to. *)
Inductive vka_choice (W : Type) : Type :=
  | VSPACE_FREE
  | VSPACE_PRESERVE
  | Use (v : vka_t W).
Arguments VSPACE_FREE {W}.
Arguments VSPACE_PRESERVE {W}.
Arguments Use {W} _.

Definition sizeof_sel4utils_res_t : Z := 48.

Section vspace.
Context {W : Type} `{LM : !LevelMemory W} `{MA : !Malloc W} `{KO : !KernelOps W}
  `{SC : !SeL4Constants} `{UM : !UtilsMacros}.
Context (data_vka : option (vka_t W)) (map_page_fn : Z -> Z -> Z -> Z -> Z -> M W Z)
  (seL4_ARCH_Page_Unmap : Z -> M W Z) (seL4_UserTop seL4_NotEnoughMemory seL4_NoRights : Z) (CONFIG_HUGE_PAGE : bool).
Notation St := (vspace_mem W).

Definition KERNEL_RESERVED_START : Z := ALIGN_DOWN seL4_UserTop PAGE_SIZE_4K.

(** Code of another component. *)
Definition outside {A : Type} (m : M W A) : M St A :=
  in_world (fun '(d, w) => res_bind (m w) (fun '(a, w') => Ok (a, (d, w')))).

(** libsel4vspace/include/vspace/page.h *)
Definition sel4_page_sizes : list Z :=
  [seL4_PageBits; seL4_LargePageBits] ++ (if CONFIG_HUGE_PAGE then [seL4_HugePageBits] else []).

Fixpoint valid_size_loop {S : Type} (previous : option Z) (sizes : list Z) (size_bits : Z) : M S bool :=
  match sizes with
  | [] => ret false
  | x :: sizes =>
      if size_bits <? x then ret false else
      let! _ := cassert (match previous with Some y => y <? x | None => true end) in
      if size_bits =? x then ret true else valid_size_loop (Some x) sizes size_bits
  end.
Definition sel4_valid_size_bits {S : Type} (size_bits : Z) : M S bool := valid_size_loop None sel4_page_sizes size_bits.

(** ** The list of reservations *)

Definition load_res (p : Z) : M St sel4utils_res_t :=
  let! s := gets id in deref (reservations s !! p).
Definition store_res (p : Z) (r : sel4utils_res_t) : M St unit :=
  let! _ := load_res p in modify (set_reservations (insert p r)).
Definition with_next (n : Z) (r : sel4utils_res_t) : sel4utils_res_t :=
  Res (start r) (end_ r) (rights r) (cacheable r) (malloced r) (rights_deferred r) n.
Definition set_next (p n : Z) : M St unit :=
  let! r := load_res p in store_res p (with_next n r).
Definition set_head (p : Z) : M St unit :=
  modify (fun s => let d := data s in
    set_data (AllocData (vspace_root d) (top_level d) (next_bootstrap_vaddr d) (last_allocated d) (bootstrap d) p (is_empty d)) s).
Definition get_head : M St Z := gets (fun s => reservation_head (data s)).

(** Enough rounds for a walk along the list. *)
Definition list_rounds : M St nat := gets (fun s => S (size (reservations s))).

Fixpoint insert_loop (fuel : nat) (reservation res_start prev current : Z) : M St unit :=
  if current =? 0 then set_next prev reservation else
  match fuel with
  | O => stop OutOfFuel
  | S fuel =>
      let! c := load_res current in
      if start c <? res_start then
        let! _ := set_next reservation current in
        set_next prev reservation
      else insert_loop fuel reservation res_start current (next c)
  end.

Definition insert_reservation (reservation : Z) : M St unit :=
  let! _ := cassert (negb (reservation =? 0)) in
  let! _ := set_next reservation 0 in
  let! r := load_res reservation in
  let! head := get_head in
  if head =? 0 then
    let! _ := set_next reservation head in set_head reservation
  else
    let! h := load_res head in
    if start h <? start r then
      let! _ := set_next reservation head in set_head reservation
    else
      let! n := list_rounds in
      insert_loop n reservation (start r) head (next h).

Fixpoint remove_loop (fuel : nat) (reservation prev current : Z) : M St unit :=
  if current =? 0 then
    let! _ := set_next prev 0 in set_next reservation 0
  else
  match fuel with
  | O => stop OutOfFuel
  | S fuel =>
      let! c := load_res current in
      if current =? reservation then
        let! _ := set_next prev (next c) in set_next reservation 0
      else remove_loop fuel reservation current (next c)
  end.

Definition remove_reservation (reservation : Z) : M St unit :=
  let! head := get_head in
  let! h := load_res head in
  if reservation =? head then
    let! _ := set_head (next h) in set_next reservation 0
  else
    let! n := list_rounds in
    remove_loop n reservation head (next h).

Fixpoint find_loop (fuel : nat) (vaddr current : Z) : M St Z :=
  if current =? 0 then ret 0 else
  match fuel with
  | O => stop OutOfFuel
  | S fuel =>
      let! c := load_res current in
      if (start c <=? vaddr) && (vaddr <? end_ c) then ret current else find_loop fuel vaddr (next c)
  end.

Definition find_reserve (vaddr : Z) : M St Z :=
  let! head := get_head in
  let! n := list_rounds in
  find_loop n vaddr head.

Definition check_reservation_bounds (r : sel4utils_res_t) (a b : Z) : bool := (start r <=? a) && (b <=? end_ r).

Definition check_reservation (top_level : Z) (reservation a b : Z) : M St bool :=
  let! r := load_res reservation in
  if check_reservation_bounds r a b then is_reserved_range top_level a b else ret false.

(** ** Reserving *)

(** First fit: [from] is the start of the run being tried, [contiguous] its
    length so far, [current] its end.  Null when there is no room. *)
Fixpoint find_range_loop (fuel : nat) (num_pages size_bits from contiguous current : Z) : M St Z :=
  if negb (contiguous <? num_pages) then
    let! _ := modify (fun s => set_data (set_last_allocated current (data s)) s) in ret from
  else
  match fuel with
  | O => stop OutOfFuel
  | S fuel =>
      let! d := gets data in
      let! available := is_available (top_level d) current size_bits in
      let current := current ⊞ SIZE_BITS_TO_BYTES size_bits in
      let (from, contiguous) := if available : bool then (from, contiguous + 1) else (current, 0) in
      if KERNEL_RESERVED_START <=? current then ret 0
      else find_range_loop fuel num_pages size_bits from contiguous current
  end.

Definition find_range (num_pages size_bits : Z) : M St Z :=
  let! d := gets data in
  let from := ALIGN_UP (last_allocated d) (SIZE_BITS_TO_BYTES size_bits) in
  let! _ := cassert (Z.land from (MASK size_bits) =? 0) in
  find_range_loop (Z.to_nat ((KERNEL_RESERVED_START - from) / SIZE_BITS_TO_BYTES size_bits + 2))
    num_pages size_bits from 0 from.

Definition perform_reservation (reservation vaddr bytes rights cacheable : Z) : M St unit :=
  let! _ := cassert (negb (reservation =? 0)) in
  let! r := load_res reservation in
  let a := ROUND_DOWN vaddr PAGE_SIZE_4K in
  let b := ROUND_UP (vaddr ⊞ bytes) PAGE_SIZE_4K in
  let! _ := store_res reservation (Res a b rights cacheable (malloced r) (rights_deferred r) (next r)) in
  let! error := reserve_entries_range a b true in
  let! _ := cassert (error =? seL4_NoError) in
  insert_reservation reservation.

(** [reservation->malloced = m; reservation->rights_deferred = d] *)
Definition set_malloced (p m : Z) : M St unit :=
  let! r := load_res p in
  store_res p (Res (start r) (end_ r) (rights r) (cacheable r) m (rights_deferred r) (next r)).
Definition set_rights_deferred (p : Z) (b : bool) : M St unit :=
  let! r := load_res p in
  store_res p (Res (start r) (end_ r) (rights r) (cacheable r) (malloced r) b (next r)).

(** [*result] is written only when there is room. *)
Definition sel4utils_reserve_range_no_alloc_aligned (reservation bytes size_bits rights cacheable : Z)
    : M St (Z * option Z) :=
  let! vaddr := find_range (BYTES_TO_SIZE_BITS_PAGES bytes size_bits) size_bits in
  if vaddr =? 0 then ret (-1, None) else
  let! _ := set_malloced reservation 0 in
  let! _ := set_rights_deferred reservation false in
  let! _ := perform_reservation reservation vaddr bytes rights cacheable in
  ret (0, Some vaddr).

Definition sel4utils_reserve_range_no_alloc (reservation bytes rights cacheable : Z) : M St (Z * option Z) :=
  sel4utils_reserve_range_no_alloc_aligned reservation bytes seL4_PageBits rights cacheable.

(** A node fresh from malloc; its fields are written before they are read. *)
Definition malloc_res : M St Z :=
  let! p := outside (malloc sizeof_sel4utils_res_t) in
  if p =? 0 then ret 0 else
  let! _ := modify (set_reservations (insert p (Res 0 0 0 0 0 false 0))) in
  ret p.
Definition free_res (p : Z) : M St unit :=
  let! _ := modify (set_reservations (delete p)) in outside (free p).

(** The reservation, null on failure, and [*result]. *)
Definition sel4utils_reserve_range_aligned (bytes size_bits rights cacheable : Z) : M St (Z * option Z) :=
  let! valid := sel4_valid_size_bits size_bits in
  if negb valid then ret (0, None) else
  let! res := malloc_res in
  if res =? 0 then ret (0, None) else
  let! (error, result) := sel4utils_reserve_range_no_alloc_aligned res bytes size_bits rights cacheable in
  let! reservation := if negb (error =? 0) then let! _ := free_res res in ret 0 else ret res in
  let! _ := set_malloced res 1 in
  ret (reservation, result).

Definition sel4utils_reserve_range_at_no_alloc (reservation vaddr size rights cacheable : Z) : M St Z :=
  let! d := gets data in
  let! available := is_available_range (top_level d) vaddr (vaddr ⊞ size) in
  if negb available then ret (-1) else
  let! _ := set_malloced reservation 0 in
  let! _ := set_rights_deferred reservation false in
  let! _ := perform_reservation reservation vaddr size rights cacheable in
  ret 0.

Definition sel4utils_reserve_range_at (vaddr size rights cacheable : Z) : M St Z :=
  let! res := malloc_res in
  if res =? 0 then ret 0 else
  let! error := sel4utils_reserve_range_at_no_alloc res vaddr size rights cacheable in
  if negb (error =? 0) then let! _ := free_res res in ret 0
  else let! _ := set_malloced res 1 in ret res.

Definition sel4utils_reserve_deferred_rights_range_at (vaddr size cacheable : Z) : M St Z :=
  let! res := sel4utils_reserve_range_at vaddr size seL4_NoRights cacheable in
  if negb (res =? 0) then let! _ := set_rights_deferred res true in ret res else ret res.

Definition sel4utils_free_reservation (reservation : Z) : M St unit :=
  let! res := load_res reservation in
  let! _ := clear_entries_range (start res) (end_ res) true in
  let! _ := remove_reservation reservation in
  let! res := load_res reservation in
  if negb (malloced res =? 0) then free_res reservation else ret tt.

Definition sel4utils_free_reservation_by_vaddr (vaddr : Z) : M St unit :=
  let! res := find_reserve vaddr in
  sel4utils_free_reservation res.

(** The loops of [sel4utils_move_resize_reservation], over [v]: pages that the
    new range adds are reserved, pages that it gives up are cleared. *)
Definition page_rounds (a b : Z) : nat := Z.to_nat ((b - a) / PAGE_SIZE_4K + 2).

Fixpoint add_pages (fuel : nat) (r : sel4utils_res_t) (v new_end : Z) : M St unit :=
  if negb (v <? new_end) then ret tt else
  match fuel with
  | O => stop OutOfFuel
  | S fuel =>
      if (v <? start r) || (end_ r <=? v) then
        let! error := reserve_entries_range v (v ⊞ PAGE_SIZE_4K) true in
        let! _ := cassert (error =? 0) in
        add_pages fuel r (v ⊞ PAGE_SIZE_4K) new_end
      else add_pages fuel r (end_ r ⊟ PAGE_SIZE_4K ⊞ PAGE_SIZE_4K) new_end
  end.

Fixpoint drop_pages (fuel : nat) (r : sel4utils_res_t) (v new_start new_end : Z) : M St unit :=
  if negb (v <? end_ r) then ret tt else
  match fuel with
  | O => stop OutOfFuel
  | S fuel =>
      if (v <? new_start) || (new_end <=? v) then
        let! d := gets data in
        let! cap := get_cap (top_level d) v in
        let! _ := (if cap =? RESERVED then clear_entries_range v (v ⊞ PAGE_SIZE_4K) true else ret 0) in
        drop_pages fuel r (v ⊞ PAGE_SIZE_4K) new_start new_end
      else drop_pages fuel r (new_end ⊟ PAGE_SIZE_4K ⊞ PAGE_SIZE_4K) new_start new_end
  end.

Definition sel4utils_move_resize_reservation (reservation vaddr bytes : Z) : M St Z :=
  let! _ := cassert (negb (reservation =? 0)) in
  let! res := load_res reservation in
  let! d := gets data in
  let new_start := ROUND_DOWN vaddr PAGE_SIZE_4K in
  let new_end := ROUND_UP (vaddr ⊞ bytes) PAGE_SIZE_4K in
  let! below := (if new_start <? start res then is_available_range (top_level d) new_start (start res) else ret true) in
  if negb below then ret (-1) else
  let! above := (if end_ res <? new_end then is_available_range (top_level d) (end_ res) new_end else ret true) in
  if negb above then ret (-2) else
  let! _ := add_pages (page_rounds new_start new_end) res new_start new_end in
  let! _ := drop_pages (page_rounds (start res) (end_ res)) res (start res) new_start new_end in
  let need_reinsert := negb (start res =? new_start) in
  let! r := load_res reservation in
  let! _ := store_res reservation
    (Res new_start new_end (rights r) (cacheable r) (malloced r) (rights_deferred r) (next r)) in
  let! _ := (if need_reinsert then
    let! _ := remove_reservation reservation in insert_reservation reservation else ret tt) in
  ret 0.

(** ** Mapping and unmapping pages *)

Definition map_page (cap vaddr rights cacheable size_bits : Z) : M St Z :=
  outside (map_page_fn cap vaddr rights cacheable size_bits).

(** The loop of [map_pages_at_vaddr] from page [i] on; [n] pages are left. *)
Fixpoint map_pages_loop (n : nat) (i : Z) (caps : list Z) (cookies : option (list Z))
    (vaddr size_bits rights cacheable : Z) : M St Z :=
  match n with
  | O => ret seL4_NoError
  | S n =>
      let! cap := lift (arr_get caps i) in
      let! error := map_page cap vaddr rights cacheable size_bits in
      if negb (error =? seL4_NoError) then ret error else
      let! cookie := lift (match cookies with None => Ok 0 | Some l => arr_get l i end) in
      let! error := update_entries vaddr cap size_bits cookie in
      if negb (error =? seL4_NoError) then ret error else
      map_pages_loop n (i + 1) caps cookies (vaddr ⊞ BIT size_bits) size_bits rights cacheable
  end.

Definition map_pages_at_vaddr (caps : list Z) (cookies : option (list Z))
    (vaddr num_pages size_bits rights cacheable : Z) : M St Z :=
  map_pages_loop (Z.to_nat num_pages) 0 caps cookies vaddr size_bits rights cacheable.

Definition sel4utils_get_cap (vaddr : Z) : M St Z :=
  let! d := gets data in
  let! cap := get_cap (top_level d) vaddr in
  ret (if cap =? RESERVED then 0 else cap).

Definition sel4utils_get_cookie (vaddr : Z) : M St Z :=
  let! d := gets data in get_cookie (top_level d) vaddr.

Definition sel4utils_get_root : M St Z := gets (fun s => vspace_root (data s)).

(** One page of [sel4utils_unmap_pages]. *)
Definition unmap_one (v : Z) (reserve size_bits : Z) (vka : option (vka_t W)) : M St unit :=
  let! d := gets data in
  let! cap := get_cap (top_level d) v in
  let! _ := (if negb (cap =? 0) then outside (seL4_ARCH_Page_Unmap cap) else ret 0) in
  let! _ := match vka with
    | None => ret tt
    | Some _ =>
        let! path := outside (vka_cspace_make_path vka cap) in
        let! _ := outside (vka_cnode_delete path) in
        let! _ := outside (vka_cspace_free vka cap) in
        let! cookie := sel4utils_get_cookie v in
        if negb (cookie =? 0) then
          let! cookie := sel4utils_get_cookie v in
          outside (vka_utspace_free vka (kobject_get_type KOBJECT_FRAME size_bits) size_bits cookie)
        else ret tt
    end in
  let! _ := (if reserve =? 0 then clear_entries v size_bits else reserve_entries v size_bits) in
  let! d := gets data in
  let! c := get_cap (top_level d) v in
  let! _ := cassert (negb (c =? cap)) in
  let! k := get_cookie (top_level d) v in
  cassert (k =? 0).

Fixpoint unmap_loop (n : nat) (v reserve size_bits : Z) (vka : option (vka_t W)) : M St unit :=
  match n with
  | O => ret tt
  | S n =>
      let! _ := unmap_one v reserve size_bits vka in
      unmap_loop n (v ⊞ BIT size_bits) reserve size_bits vka
  end.

Definition sel4utils_unmap_pages (vaddr num_pages size_bits : Z) (vka : vka_choice W) : M St unit :=
  let! reserve := find_reserve vaddr in
  let! valid := sel4_valid_size_bits size_bits in
  if negb valid then ret tt else
  unmap_loop (Z.to_nat num_pages) vaddr reserve size_bits
    (match vka with VSPACE_FREE => data_vka | VSPACE_PRESERVE => None | Use v => Some v end).

(** The loop of [new_pages_at_vaddr]: the error, the number [i] of pages it
    went through, and the last error of an update, which the next page
    overwrites. *)
Fixpoint new_pages_loop (n : nat) (i error vaddr size_bits rights cacheable : Z) (can_use_dev : bool)
    : M St (Z * Z) :=
  match n with
  | O => ret (error, i)
  | S n =>
      let! (e, object) := outside (vka_alloc_frame_maybe_device data_vka size_bits can_use_dev no_object) in
      if negb (e =? 0) then ret (seL4_NotEnoughMemory, i) else
      let! error := map_page (cptr object) vaddr rights cacheable size_bits in
      if error =? seL4_NoError then
        let! error := update_entries vaddr (cptr object) size_bits (ut object) in
        new_pages_loop n (i + 1) error (vaddr ⊞ BIT size_bits) size_bits rights cacheable can_use_dev
      else
        let! _ := outside (vka_free_object data_vka object) in
        ret (error, i)
  end.

Definition new_pages_at_vaddr (vaddr num_pages size_bits rights cacheable : Z) (can_use_dev : bool) : M St Z :=
  let! (error, i) := new_pages_loop (Z.to_nat num_pages) 0 seL4_NoError vaddr size_bits rights cacheable can_use_dev in
  let! _ := (if i <? num_pages
    then sel4utils_unmap_pages vaddr i size_bits (match data_vka with Some v => Use v | None => VSPACE_PRESERVE end)
    else ret tt) in
  ret error.

Definition sel4utils_map_pages_at_vaddr (caps : list Z) (cookies : option (list Z))
    (vaddr num_pages size_bits reservation : Z) : M St Z :=
  let! d := gets data in
  let! valid := sel4_valid_size_bits size_bits in
  if negb valid then ret (-1) else
  let! ok := check_reservation (top_level d) reservation vaddr (vaddr ⊞ num_pages ⊠ BIT size_bits) in
  if negb ok then ret (-1) else
  let! res := load_res reservation in
  if rights_deferred res then ret (-1) else
  map_pages_at_vaddr caps cookies vaddr num_pages size_bits (rights res) (cacheable res).

Definition sel4utils_deferred_rights_map_pages_at_vaddr (caps : list Z) (cookies : option (list Z))
    (vaddr num_pages size_bits newrights reservation : Z) : M St Z :=
  let! d := gets data in
  let! valid := sel4_valid_size_bits size_bits in
  if negb valid then ret (-1) else
  let! ok := check_reservation (top_level d) reservation vaddr (vaddr ⊞ num_pages ⊠ BIT size_bits) in
  if negb ok then ret (-1) else
  let! res := load_res reservation in
  if negb (rights_deferred res) then ret (-1) else
  map_pages_at_vaddr caps cookies vaddr num_pages size_bits newrights (cacheable res).

Definition sel4utils_map_pages (caps : list Z) (cookies : option (list Z))
    (rights num_pages size_bits cacheable : Z) : M St Z :=
  let! _ := cassert (0 <? num_pages) in
  let! ret_vaddr := find_range num_pages size_bits in
  if ret_vaddr =? 0 then ret 0 else
  let! error := map_pages_at_vaddr caps cookies ret_vaddr num_pages size_bits rights cacheable in
  if negb (error =? 0) then let! _ := clear_entries ret_vaddr size_bits in ret 0
  else ret ret_vaddr.

Definition sel4utils_new_pages_at_vaddr (vaddr num_pages size_bits reservation : Z) (can_use_dev : bool) : M St Z :=
  let! d := gets data in
  let! ok := check_reservation (top_level d) reservation vaddr (vaddr ⊞ num_pages ⊠ BIT size_bits) in
  if negb ok then ret (-1) else
  let! res := load_res reservation in
  new_pages_at_vaddr vaddr num_pages size_bits (rights res) (cacheable res) can_use_dev.

Definition sel4utils_new_pages (rights num_pages size_bits : Z) : M St Z :=
  let! _ := cassert (0 <? num_pages) in
  let! ret_vaddr := find_range num_pages size_bits in
  if ret_vaddr =? 0 then ret 0 else
  let! error := new_pages_at_vaddr ret_vaddr num_pages size_bits rights 1 false in
  if negb (error =? 0) then let! _ := clear_entries ret_vaddr size_bits in ret 0
  else ret ret_vaddr.

Definition sel4utils_get_paddr (vaddr type size_bits : Z) : M St Z :=
  let! cookie := sel4utils_get_cookie vaddr in
  outside (vka_utspace_paddr data_vka cookie type size_bits).

(** ** Sharing pages with another address space

    This address space is the one the pages go to; [from_get_cap] looks a page
    up in the other, whose allocator is [from_vka]; they may be the same. *)
Context (seL4_CNode_Copy : Z -> Z -> Z -> Z -> Z -> Z -> Z -> M W Z).

Definition vka_cnode_copy (dest src : cspacepath_t) (rights : Z) : M W Z :=
  seL4_CNode_Copy (root dest) (capPtr dest) (capDepth dest) (root src) (capPtr src) (capDepth src) rights.

(** The error, and the page the loop stopped at. *)
Fixpoint share_loop (n : nat) (page : Z) (from_get_cap : Z -> M St Z) (from_vka : option (vka_t W))
    (from_start vaddr size_bits reservation : Z) : M St (Z * Z) :=
  match n with
  | O => ret (0, page)
  | S n =>
      let size_bytes := Z.shiftl 1 size_bits in
      let from_vaddr := from_start ⊞ page ⊠ size_bytes in
      let to_vaddr := vaddr ⊞ page ⊠ size_bytes in
      let! cap := from_get_cap from_vaddr in
      if cap =? 0 then ret (-1, page) else
      let! from_path := outside (vka_cspace_make_path from_vka cap) in
      let! (error, to_path) := outside (vka_cspace_alloc_path data_vka) in
      match to_path with
      | None => ret (error, page)
      | Some to_path =>
          let! res := load_res reservation in
          let! error := outside (vka_cnode_copy to_path from_path (rights res)) in
          if negb (error =? 0) then ret (error, page) else
          let! error := map_page (capPtr to_path) to_vaddr (rights res) (cacheable res) size_bits in
          if negb (error =? 0) then ret (error, page) else
          let! _ := update_entries to_vaddr (capPtr to_path) size_bits 0 in
          share_loop n (page + 1) from_get_cap from_vka from_start vaddr size_bits reservation
      end
  end.

Definition sel4utils_share_mem_at_vaddr (from_get_cap : Z -> M St Z) (from_vka : option (vka_t W))
    (from_start num_pages size_bits vaddr reservation : Z) : M St Z :=
  let! valid := sel4_valid_size_bits size_bits in
  if negb valid then ret (-1) else
  let! (error, page) := share_loop (Z.to_nat num_pages) 0 from_get_cap from_vka from_start vaddr size_bits reservation in
  let! _ := (if negb (error =? 0) then sel4utils_unmap_pages vaddr page size_bits VSPACE_FREE else ret tt) in
  ret error.

(** ** Tearing an address space down

    [bootstrap_unmap] is [vspace_unmap_pages] on the address space that holds
    the tables, with [VSPACE_FREE]. *)
Context (bootstrap_unmap : Z -> Z -> Z -> M W unit).

(** The number of pages that follow with the same cookie; only pages with an
    entry in a bottom table have one. *)
Fixpoint same_cookie_loop (fuel : nat) (level cookie test_vaddr num_4k_entries : Z) : M St Z :=
  let! c := get_cookie level test_vaddr in
  if negb (c =? cookie) then ret num_4k_entries else
  match fuel with
  | O => stop OutOfFuel
  | S fuel => same_cookie_loop fuel level cookie (test_vaddr ⊞ PAGE_SIZE_4K) (num_4k_entries + 1)
  end.

Definition free_page (vka : vka_choice W) (vaddr : Z) : M St unit :=
  let! d := gets data in
  let! cookie := get_cookie (top_level d) vaddr in
  if cookie =? 0 then ret tt else
  let! fuel := gets (fun s => 512 * size (bottoms s))%nat in
  let! num_4k_entries := same_cookie_loop fuel (top_level d) cookie (vaddr ⊞ PAGE_SIZE_4K) 1 in
  sel4utils_unmap_pages vaddr 1 (PAGE_BITS_4K * num_4k_entries) vka.

(** Down to the table of level [to], or of level 1: the loop over [i]. *)
Fixpoint walk_down (i : nat) (to level vaddr : Z) : M St (option Z) :=
  if negb ((to <? Z.of_nat i) && (1 <? Z.of_nat i)) then ret (Some level) else
  match i with
  | O => ret (Some level)
  | S j =>
      let! next := load_entry level (INDEX_FOR_LEVEL vaddr (Z.of_nat i)) in
      if (next =? RESERVED) || (next =? EMPTY) then ret None else walk_down j to next vaddr
  end.

Definition table_pages (table_level : Z) : Z :=
  (if table_level =? 1 then sizeof_bottom_level else sizeof_mid_level) / PAGE_SIZE_4K.

Fixpoint each {A : Type} (f : A -> M St unit) (l : list A) : M St unit :=
  match l with
  | [] => ret tt
  | x :: l => let! _ := f x in each f l
  end.

Definition level_indices : list Z := Z.of_nat <$> seq 0 (Z.to_nat VSPACE_LEVEL_SIZE).

Fixpoint free_pages_at_level (vka : vka_choice W) (table_level : nat) (vaddr : Z) : M St unit :=
  let! d := gets data in
  let! level := walk_down (Z.to_nat (VSPACE_NUM_LEVELS - 1)) (Z.of_nat table_level) (top_level d) vaddr in
  match level with
  | None => ret tt
  | Some level =>
      match table_level with
      | O =>
          let! bottom := load_entry level (INDEX_FOR_LEVEL vaddr 1) in
          if (bottom =? RESERVED) || (bottom =? EMPTY) then ret tt else
          let! cap := load_cap bottom (INDEX_FOR_LEVEL vaddr 0) in
          if negb (cap =? EMPTY) && negb (cap =? RESERVED) then free_page vka vaddr else ret tt
      | S below =>
          let index := INDEX_FOR_LEVEL vaddr (Z.of_nat table_level) in
          let! e := load_entry level index in
          if (e =? RESERVED) || (e =? EMPTY) then ret tt else
          let! _ := each (fun j => free_pages_at_level vka below (vaddr ⊞ j ⊠ BYTES_FOR_LEVEL (Z.of_nat below)))
            level_indices in
          let! e := load_entry level index in
          outside (bootstrap_unmap e (table_pages (Z.of_nat table_level)) PAGE_BITS_4K)
      end
  end.

Fixpoint free_reservations (fuel : nat) : M St unit :=
  let! head := get_head in
  if head =? 0 then ret tt else
  match fuel with
  | O => stop OutOfFuel
  | S fuel => let! _ := sel4utils_free_reservation head in free_reservations fuel
  end.

Definition sel4utils_tear_down (vka : vka_choice W) : M St unit :=
  let! d := gets data in
  if bootstrap d =? 0 then ret tt else
  let vka := match vka with
    | VSPACE_FREE => match data_vka with Some v => Use v | None => VSPACE_PRESERVE end
    | _ => vka
    end in
  let! n := list_rounds in
  let! _ := free_reservations n in
  if top_level d =? 0 then ret tt else
  let! _ := each (fun i => free_pages_at_level vka (Z.to_nat (VSPACE_NUM_LEVELS - 1))
    (BYTES_FOR_LEVEL (VSPACE_NUM_LEVELS - 1) ⊠ i)) level_indices in
  outside (bootstrap_unmap (top_level d) (sizeof_mid_level / PAGE_SIZE_4K) PAGE_BITS_4K).

End vspace.
