(* ===== verification/VspaceReserve.v ===== *)
(** Reservations (Vspace.v): the list they are kept in, first fit, and what
    reserving, finding and freeing a range do. *)
From stdpp Require Import sorting.
From S2P Require Import Prelude Cspacepath Interfaces Objects Vka VspaceTables VspaceView VspaceSpec Vspace.

(** ** The list of reservations *)

Fixpoint chain (m : gmap Z sel4utils_res_t) (h : Z) (l : list Z) : Prop :=
  match l with
  | [] => h = 0
  | p :: l => h = p /\ p <> 0 /\ exists r, m !! p = Some r /\ chain m (next r) l
  end.

(** What the list operations keep of a node. *)
Definition erase (r : sel4utils_res_t) : sel4utils_res_t := with_next 0 r.

Definition start_of (m : gmap Z sel4utils_res_t) (p : Z) : Z := from_option start 0 (m !! p).
Definition end_of (m : gmap Z sel4utils_res_t) (p : Z) : Z := from_option end_ 0 (m !! p).

(** Sorted insertion: before the first node that starts lower. *)
Fixpoint insert_sorted (f : Z -> Z) (p : Z) (l : list Z) : list Z :=
  match l with
  | [] => [p]
  | q :: l => if f q <? f p then p :: q :: l else q :: insert_sorted f p l
  end.

Definition descending (f : Z -> Z) (l : list Z) : Prop := StronglySorted (fun p q => f q <= f p) l.

Lemma insert_sorted_perm (f : Z -> Z) (p : Z) (l : list Z) : insert_sorted f p l ≡ₚ p :: l.
Proof.
  induction l as [|q l IH]; [done|]. cbn. destruct (f q <? f p); [done|]. rewrite IH. apply Permutation_swap.
Qed.

Lemma insert_sorted_descending (f : Z -> Z) (p : Z) (l : list Z) :
  descending f l -> descending f (insert_sorted f p l).
Proof.
  unfold descending. induction l as [|q l IH]; intros Hs; [repeat constructor|]. cbn.
  apply StronglySorted_inv in Hs as [Hs Hq]. destruct (Z.ltb_spec (f q) (f p)).
  - constructor; [by constructor|]. constructor; [lia|]. eapply Forall_impl; [exact Hq|]. cbn. lia.
  - constructor; [by apply IH|]. rewrite insert_sorted_perm. constructor; [lia|done].
Qed.

Lemma insert_sorted_ext (f g : Z -> Z) (p : Z) (l : list Z) :
  (forall q, q ∈ p :: l -> f q = g q) -> insert_sorted f p l = insert_sorted g p l.
Proof.
  induction l as [|q l IH]; intros H; [done|]. cbn. rewrite (H q), (H p) by set_solver.
  rewrite IH by set_solver. done.
Qed.

Lemma descending_ext (f g : Z -> Z) (l : list Z) :
  (forall q, q ∈ l -> f q = g q) -> descending f l -> descending g l.
Proof.
  unfold descending. induction l as [|q l IH]; intros H Hs; [constructor|].
  apply StronglySorted_inv in Hs as [Hs Hq]. constructor; [apply IH; set_solver|].
  rewrite Forall_forall in Hq |- *. intros x Hx. rewrite <- (H q), <- (H x) by set_solver. by apply Hq.
Qed.

Lemma chain_head_in (m : gmap Z sel4utils_res_t) (h : Z) (l : list Z) : chain m h l -> h = default 0 (head l).
Proof. destruct l; [done|]. by intros [-> _]. Qed.

Lemma chain_lookup (m : gmap Z sel4utils_res_t) (h : Z) (l : list Z) (p : Z) :
  chain m h l -> p ∈ l -> p <> 0 /\ is_Some (m !! p).
Proof.
  revert h. induction l as [|q l IH]; intros h; [set_solver|].
  intros (-> & Hq & r & Hr & Hc) [->|Hp]%elem_of_cons; [by rewrite Hr|by eapply IH].
Qed.

Lemma chain_ext (m m' : gmap Z sel4utils_res_t) (h : Z) (l : list Z) :
  (forall p, p ∈ l -> m' !! p = m !! p) -> chain m h l -> chain m' h l.
Proof.
  revert h. induction l as [|q l IH]; intros h Hm; [done|].
  intros (-> & Hq & r & Hr & Hc). split; [done|]. split; [done|]. exists r.
  split; [rewrite Hm; [done|set_solver]|]. apply IH; [set_solver|done].
Qed.

Lemma chain_length (m : gmap Z sel4utils_res_t) (h : Z) (l : list Z) :
  chain m h l -> NoDup l -> (length l <= size m)%nat.
Proof.
  intros Hc Hnd. rewrite <- size_dom, <- (size_list_to_set (C := gset Z) l Hnd).
  apply subseteq_size. intros p Hp%elem_of_list_to_set. apply elem_of_dom. by eapply chain_lookup.
Qed.

Lemma erase_insert (m : gmap Z sel4utils_res_t) (p n : Z) (r : sel4utils_res_t) :
  m !! p = Some r -> erase <$> (<[p := with_next n r]> m) = erase <$> m.
Proof.
  intros Hr. rewrite fmap_insert. change (erase (with_next n r)) with (erase r).
  apply insert_id. by rewrite lookup_fmap, Hr.
Qed.

Lemma erase_start (m m' : gmap Z sel4utils_res_t) (p : Z) :
  erase <$> m' = erase <$> m -> start_of m' p = start_of m p /\ end_of m' p = end_of m p /\
  (is_Some (m' !! p) <-> is_Some (m !! p)).
Proof.
  intros He. assert (H : (erase <$> m') !! p = (erase <$> m) !! p) by (by rewrite He).
  rewrite !lookup_fmap in H. unfold start_of, end_of.
  destruct (m' !! p) as [[]|], (m !! p) as [[]|]; cbn in *; try done. injection H as -> -> -> -> -> ->.
  split_and!; done.
Qed.

Section list.
Context {W : Type} `{LM : !LevelMemory W} `{MA : !Malloc W} `{KO : !KernelOps W}
  `{SC : !SeL4Constants} `{UM : !UtilsMacros}.
Notation St := (vspace_mem W).

Definition with_res (m : gmap Z sel4utils_res_t) (s : St) : St := set_reservations (fun _ => m) s.

Lemma load_res_ok (s : St) (p : Z) (r : sel4utils_res_t) :
  reservations s !! p = Some r -> load_res p s = Ok (r, s).
Proof. intros H. unfold load_res, bind, gets, deref, id. cbn [res_bind]. by rewrite H. Qed.

Lemma store_res_ok (s : St) (p : Z) (r r' : sel4utils_res_t) :
  reservations s !! p = Some r -> store_res p r' s = Ok (tt, with_res (<[p := r']> (reservations s)) s).
Proof. intros H. unfold store_res. by rewrite (bind_ok _ _ _ _ _ (load_res_ok _ _ _ H)). Qed.

Lemma set_next_ok (s : St) (p n : Z) (r : sel4utils_res_t) :
  reservations s !! p = Some r ->
  set_next p n s = Ok (tt, with_res (<[p := with_next n r]> (reservations s)) s).
Proof.
  intros H. unfold set_next. rewrite (bind_ok _ _ _ _ _ (load_res_ok _ _ _ H)). by eapply store_res_ok.
Qed.

(** *** Inserting *)

Lemma insert_loop_ok (fuel : nat) (rest : list Z) (s : St) (prev current res : Z) (rp rr : sel4utils_res_t) :
  let m := reservations s in
  chain m current rest -> (length rest <= fuel)%nat -> NoDup (prev :: rest) -> res ∉ prev :: rest ->
  prev <> 0 -> res <> 0 ->
  m !! prev = Some rp -> next rp = current -> m !! res = Some rr -> next rr = 0 ->
  exists m', insert_loop fuel res (start rr) prev current s = Ok (tt, with_res m' s) /\
    erase <$> m' = erase <$> m /\ chain m' prev (prev :: insert_sorted (start_of m) res rest) /\
    (forall q, q ∉ res :: prev :: rest -> m' !! q = m !! q).
Proof.
  intros m. revert rest s prev current rp m. induction fuel as [|fuel IH]; intros rest s prev current rp m Hc Hlen Hnd Hres Hp0 Hr0 Hprev Hnext Hrr Hrn.
  all: pose proof Hres as [Hrp Hrest]%not_elem_of_cons.
  all: destruct rest as [|c rest]; [|try (cbn in Hlen; lia)].
  1, 2: cbn in Hc; subst current; cbn [insert_loop]; rewrite Z.eqb_refl, (set_next_ok s prev res rp Hprev);
    eexists; split; [done|]; split; [by apply erase_insert|]; split.
  1, 3: cbn; split; [done|]; split; [done|]; eexists; split; [apply lookup_insert_eq|]; split; [done|];
      split; [done|]; exists rr; split; [rewrite lookup_insert_ne by done; done|done].
  1, 2: intros q [? [? _]%not_elem_of_cons]%not_elem_of_cons; rewrite lookup_insert_ne by done; done.
  cbn in Hc. destruct Hc as (-> & Hc0 & rc & Hrc & Hc). cbn [insert_loop].
  rewrite (proj2 (Z.eqb_neq _ _) Hc0), (bind_ok _ _ _ _ _ (load_res_ok s c rc Hrc)).
  assert (Hsc : start_of m c = start rc) by (unfold start_of; by rewrite Hrc).
  assert (Hsr : start_of m res = start rr) by (unfold start_of; by rewrite Hrr).
  apply not_elem_of_cons in Hrest as [Hrc' Hrest].
  pose proof Hnd as [[Hpc Hprest]%not_elem_of_cons [Hcrest Hndr]%NoDup_cons]%NoDup_cons.
  cbn [insert_sorted]. rewrite Hsc, Hsr. destruct (Z.ltb_spec (start rc) (start rr)).
  - rewrite (bind_ok _ _ _ _ _ (set_next_ok s res c rr Hrr)).
    erewrite set_next_ok by (cbn; rewrite lookup_insert_ne by done; exact Hprev).
    eexists. split; [done|]. cbn [reservations with_res set_reservations]. split; [|split].
    + rewrite erase_insert by (rewrite lookup_insert_ne by done; done). by apply erase_insert.
    + cbn. split; [done|]. split; [done|]. eexists. split; [apply lookup_insert_eq|]. split; [done|]. split; [done|].
      eexists. split; [rewrite lookup_insert_ne by done; apply lookup_insert_eq|]. split; [done|]. split; [done|].
      exists rc. split; [rewrite !lookup_insert_ne by done; done|].
      eapply chain_ext; [|exact Hc]. intros p Hp. rewrite !lookup_insert_ne by (intros ->; done). done.
    + intros q [? [? _]%not_elem_of_cons]%not_elem_of_cons. rewrite !lookup_insert_ne by done. done.
  - cbn in Hlen.
    destruct (IH rest s c (next rc) rc) as (m' & Heq & He & Hch & Hoth); first [done|lia|by constructor|by apply not_elem_of_cons|idtac].
    exists m'. split; [done|]. split; [done|]. split.
    + split; [done|]. split; [done|]. exists rp.
      split; [rewrite Hoth; [done|]; by apply not_elem_of_cons; split; [|apply not_elem_of_cons]|]. by rewrite Hnext.
    + intros q [? [? [? ?]%not_elem_of_cons]%not_elem_of_cons]%not_elem_of_cons. apply Hoth.
      by apply not_elem_of_cons; split; [|apply not_elem_of_cons].
Qed.

Definition head_is (s : St) (l : list Z) : Prop := chain (reservations s) (reservation_head (data s)) l.

Definition same_but_list (s s' : St) : Prop :=
  erase <$> reservations s' = erase <$> reservations s /\
  mids s' = mids s /\ bottoms s' = bottoms s /\ world s' = world s /\
  exists h, data s' = AllocData (vspace_root (data s)) (top_level (data s)) (next_bootstrap_vaddr (data s))
    (last_allocated (data s)) (bootstrap (data s)) h (is_empty (data s)).

Lemma insert_reservation_ok (s : St) (l : list Z) (res : Z) (rr : sel4utils_res_t) :
  head_is s l -> NoDup l -> res ∉ l -> res <> 0 -> reservations s !! res = Some rr ->
  exists s', insert_reservation res s = Ok (tt, s') /\ same_but_list s s' /\
    head_is s' (insert_sorted (start_of (reservations s)) res l).
Proof.
  intros Hc Hnd Hres Hr0 Hrr. unfold insert_reservation.
  unfold cassert, lift, rassert. rewrite (proj2 (Z.eqb_neq _ _) Hr0). cbn [negb].
  unfold bind at 1. cbn [res_bind].
  rewrite (bind_ok _ _ _ _ _ (set_next_ok s res 0 rr Hrr)).
  set (m0 := <[res := with_next 0 rr]> (reservations s)). set (s0 := with_res m0 s).
  assert (Hrr0 : m0 !! res = Some (with_next 0 rr)) by apply lookup_insert_eq.
  rewrite (bind_ok _ _ _ _ _ (load_res_ok s0 res _ Hrr0)).
  assert (He0 : erase <$> m0 = erase <$> reservations s) by (by apply erase_insert).
  assert (Hc0 : chain m0 (reservation_head (data s)) l).
  { eapply chain_ext; [|exact Hc]. intros p Hp. unfold m0. rewrite lookup_insert_ne by (intros ->; done). done. }
  assert (Hext : forall q, start_of m0 q = start_of (reservations s) q) by (intros q; by apply erase_start).
  assert (Hsr : start_of m0 res = start rr) by (unfold start_of; by rewrite Hrr0).
  unfold get_head. unfold bind at 1. cbn [gets res_bind].
  change (reservation_head (data s0)) with (reservation_head (data s)).
  assert (Hhead : forall h, set_next res h s0 = Ok (tt, with_res (<[res := with_next h (with_next 0 rr)]> m0) s0))
    by (intros h; by apply set_next_ok).
  destruct l as [|h l].
  - cbn in Hc0. rewrite Hc0, Z.eqb_refl. rewrite (bind_ok _ _ _ _ _ (Hhead 0)). unfold set_head, modify.
    eexists. split; [done|]. split.
    + split; [cbn; by rewrite erase_insert|]. split_and!; try done. by exists res.
    + cbn. split; [done|]. split; [done|]. eexists. split; [apply lookup_insert_eq|done].
  - destruct Hc0 as (Hh & Hh0 & rh & Hrh & Hc0). rewrite Hh, (proj2 (Z.eqb_neq _ _) Hh0).
    rewrite (bind_ok _ _ _ _ _ (load_res_ok s0 h rh Hrh)). cbn [start with_next].
    assert (Hsh : start_of m0 h = start rh) by (unfold start_of; by rewrite Hrh).
    cbn [insert_sorted]. rewrite <- !Hext, Hsh, Hsr.
    destruct (Z.ltb_spec (start rh) (start rr)).
    + rewrite (bind_ok _ _ _ _ _ (Hhead h)). unfold set_head, modify.
      eexists. split; [done|]. split.
      * split; [cbn; by rewrite erase_insert|]. split_and!; try done. by exists res.
      * cbn. split; [done|]. split; [done|]. eexists. split; [apply lookup_insert_eq|].
        split; [done|]. split; [done|]. exists rh. apply not_elem_of_cons in Hres as [? ?].
        split; [rewrite lookup_insert_ne by done; done|].
        eapply chain_ext; [|exact Hc0]. intros p Hp. rewrite lookup_insert_ne; [done|]. by intros ->.
    + unfold list_rounds. unfold bind at 1. cbn [gets res_bind].
      assert (Hndl : NoDup l) by (by apply NoDup_cons in Hnd as [_ ?]).
      pose proof (chain_length _ _ _ Hc0 Hndl).
      destruct (insert_loop_ok (S (size (reservations s0))) l s0 h (next rh) res rh (with_next 0 rr))
        as (m' & Heq & He & Hch & Hoth); try done; [cbn; lia|].
      change (start (with_next 0 rr)) with (start rr) in Heq. rewrite Heq.
      eexists. split; [done|]. split.
      * split; [cbn; rewrite He; exact He0|]. split_and!; try done. exists h. cbn. rewrite <- Hh. by destruct (data s).
      * unfold head_is. cbn [reservations data with_res set_reservations].
        change (data s0) with (data s). rewrite Hh.
        rewrite <- (insert_sorted_ext (start_of m0)) by (intros; apply Hext). exact Hch.
Qed.

(** *** Removing *)

Definition without (p : Z) (l : list Z) : list Z := filter (fun q => q <> p) l.

Lemma without_notin (p : Z) (l : list Z) : p ∉ l -> without p l = l.
Proof.
  unfold without. induction l as [|q l IH]; intros H; [done|].
  apply not_elem_of_cons in H as [Hq Hl]. rewrite filter_cons_True by done. by rewrite IH.
Qed.

Lemma remove_loop_ok (fuel : nat) (rest : list Z) (s : St) (prev current p : Z) (rp : sel4utils_res_t) :
  let m := reservations s in
  chain m current rest -> (length rest <= fuel)%nat -> NoDup (prev :: rest) -> p ∈ rest -> prev <> 0 ->
  m !! prev = Some rp -> next rp = current ->
  exists m', remove_loop fuel p prev current s = Ok (tt, with_res m' s) /\
    erase <$> m' = erase <$> m /\ chain m' prev (prev :: without p rest) /\
    (forall q, q ∉ prev :: rest -> m' !! q = m !! q).
Proof.
  intros m. revert rest s prev current rp m.
  induction fuel as [|fuel IH]; intros rest s prev current rp m Hc Hlen Hnd Hin Hp0 Hprev Hnext.
  all: destruct rest as [|c rest]; [by apply elem_of_nil in Hin|try (cbn in Hlen; lia)].
  cbn in Hc. destruct Hc as (-> & Hc0 & rc & Hrc & Hc). cbn [remove_loop].
  rewrite (proj2 (Z.eqb_neq _ _) Hc0), (bind_ok _ _ _ _ _ (load_res_ok s c rc Hrc)).
  pose proof Hnd as [[Hpc Hprest]%not_elem_of_cons [Hcrest Hndr]%NoDup_cons]%NoDup_cons.
  unfold without. destruct (Z.eqb_spec c p) as [->|Hne].
  - rewrite filter_cons_False by tauto. fold (without p rest). rewrite without_notin by done.
    rewrite (bind_ok _ _ _ _ _ (set_next_ok s prev (next rc) rp Hprev)).
    erewrite set_next_ok by (cbn; rewrite lookup_insert_ne by done; exact Hrc).
    eexists. split; [done|]. cbn [reservations with_res set_reservations]. split; [|split].
    + rewrite erase_insert by (rewrite lookup_insert_ne by done; done). by apply erase_insert.
    + cbn. split; [done|]. split; [done|]. eexists.
      split; [rewrite lookup_insert_ne by done; apply lookup_insert_eq|]. cbn [next with_next].
      eapply chain_ext; [|exact Hc]. intros q Hq. rewrite !lookup_insert_ne by (intros ->; done). done.
    + intros q [? [? ?]%not_elem_of_cons]%not_elem_of_cons. rewrite !lookup_insert_ne by done. done.
  - rewrite filter_cons_True by done. fold (without p rest).
    apply elem_of_cons in Hin as [->|Hin]; [done|]. cbn in Hlen.
    destruct (IH rest s c (next rc) rc) as (m' & Heq & He & Hch & Hoth); try done; first [done|lia|by constructor|idtac].
    exists m'. split; [done|]. split; [done|]. split.
    + split; [done|]. split; [done|]. exists rp.
      split; [rewrite Hoth; [done|]; by apply not_elem_of_cons|]. by rewrite Hnext.
    + intros q [? Hq]%not_elem_of_cons. by apply Hoth.
Qed.

Lemma remove_reservation_ok (s : St) (l : list Z) (p : Z) :
  head_is s l -> NoDup l -> p ∈ l ->
  exists s', remove_reservation p s = Ok (tt, s') /\ same_but_list s s' /\ head_is s' (without p l).
Proof.
  intros Hc Hnd Hin. unfold remove_reservation, get_head. unfold bind at 1. cbn [gets res_bind].
  destruct l as [|h l]; [by apply elem_of_nil in Hin|].
  destruct Hc as (Hh & Hh0 & rh & Hrh & Hc). rewrite Hh.
  rewrite (bind_ok _ _ _ _ _ (load_res_ok s h rh Hrh)).
  apply NoDup_cons in Hnd as [Hhl Hndl].
  unfold without. destruct (Z.eqb_spec p h) as [->|Hne].
  - rewrite filter_cons_False by tauto. fold (without h l). rewrite without_notin by done.
    unfold set_head, modify. unfold bind at 1. cbn [res_bind].
    erewrite set_next_ok by exact Hrh. eexists. split; [done|]. split.
    + split; [cbn; by apply erase_insert|]. split_and!; try done. by exists (next rh).
    + unfold head_is. cbn. eapply chain_ext; [|exact Hc].
      intros q Hq. rewrite lookup_insert_ne; [done|]. by intros ->.
  - rewrite filter_cons_True by done. fold (without p l).
    apply elem_of_cons in Hin as [->|Hin]; [done|].
    unfold list_rounds. unfold bind at 1. cbn [gets res_bind].
    pose proof (chain_length _ _ _ Hc Hndl).
    destruct (remove_loop_ok (S (size (reservations s))) l s h (next rh) p rh) as (m' & Heq & He & Hch & _);
      try done; first [done|lia|by constructor|idtac].
    rewrite Heq. eexists. split; [done|]. split.
    + split; [done|]. split_and!; try done. exists h. cbn. rewrite <- Hh. by destruct (data s).
    + unfold head_is. cbn [reservations data with_res set_reservations]. by rewrite Hh.
Qed.

(** *** Finding *)

Definition covers (m : gmap Z sel4utils_res_t) (vaddr p : Z) : Prop := start_of m p <= vaddr < end_of m p.

Lemma find_loop_ok (fuel : nat) (l : list Z) (s : St) (vaddr current : Z) :
  chain (reservations s) current l -> (length l <= fuel)%nat ->
  exists r, find_loop fuel vaddr current s = Ok (r, s) /\
    ((r = 0 /\ forall p, p ∈ l -> ~ covers (reservations s) vaddr p) \/
     (r <> 0 /\ r ∈ l /\ covers (reservations s) vaddr r)).
Proof.
  revert l current. induction fuel as [|fuel IH]; intros l current Hc Hlen.
  all: destruct l as [|c l]; [cbn in Hc; subst; exists 0; split; [done|]; left; split; [done|];
    intros p Hp; by apply elem_of_nil in Hp|try (cbn in Hlen; lia)].
  destruct Hc as (-> & Hc0 & rc & Hrc & Hc). cbn [find_loop].
  rewrite (proj2 (Z.eqb_neq _ _) Hc0), (bind_ok _ _ _ _ _ (load_res_ok s c rc Hrc)).
  assert (Hcov : covers (reservations s) vaddr c <-> (start rc <=? vaddr) && (vaddr <? end_ rc) = true).
  { unfold covers, start_of, end_of. rewrite Hrc. cbn. rewrite andb_true_iff, Z.leb_le, Z.ltb_lt. done. }
  destruct (_ && _).
  - exists c. split; [done|]. right. split_and!; [done|left|by apply Hcov].
  - cbn in Hlen. destruct (IH l (next rc) Hc ltac:(lia)) as (r & Heq & [[-> Hno]|(Hr & Hin & Hcr)]); exists r || exists 0; split; try done.
    + left. split; [done|]. intros p [->|Hp]%elem_of_cons; [by rewrite Hcov|by apply Hno].
    + right. split_and!; [done|by right|done].
Qed.

Lemma find_reserve_ok (s : St) (l : list Z) (vaddr : Z) : head_is s l -> NoDup l ->
  exists r, find_reserve vaddr s = Ok (r, s) /\
    ((r = 0 /\ forall p, p ∈ l -> ~ covers (reservations s) vaddr p) \/
     (r <> 0 /\ r ∈ l /\ covers (reservations s) vaddr r)).
Proof.
  intros Hc Hnd. unfold find_reserve, get_head, list_rounds. unfold bind at 1 2. cbn [gets res_bind].
  pose proof (chain_length _ _ _ Hc Hnd). by apply find_loop_ok; [|lia].
Qed.

End list.

(** ** First fit *)

(** What libutils documents of its macros. *)
Class UtilsLaws `{UM : !UtilsMacros} : Prop := {
  ALIGN_UP_law : forall x k, 0 <= k < 64 -> 0 <= x -> x + 2 ^ k <= word_size ->
    ALIGN_UP x (2 ^ k) = (x + 2 ^ k - 1) / 2 ^ k * 2 ^ k;
  ALIGN_DOWN_law : forall x k, 0 <= k < 64 -> is_word x -> ALIGN_DOWN x (2 ^ k) = x / 2 ^ k * 2 ^ k;
  ROUND_DOWN_law : forall x b, 0 < b -> is_word x -> ROUND_DOWN x b = x / b * b;
  ROUND_UP_law : forall x b, 0 < b -> 0 <= x -> x + b <= word_size -> ROUND_UP x b = (x + b - 1) / b * b;
  BYTES_TO_SIZE_BITS_PAGES_law : forall x k, 0 <= k < 64 -> 0 <= x -> x + 2 ^ k <= word_size ->
    BYTES_TO_SIZE_BITS_PAGES x k = (x + 2 ^ k - 1) / 2 ^ k;
  SIZE_BITS_TO_BYTES_law : forall k, 0 <= k < 64 -> SIZE_BITS_TO_BYTES k = BIT k
}.

#[export] Instance utils_macros : UtilsMacros := {|
  ROUND_DOWN x b := x - x mod b;
  ROUND_UP x b := x + (if x mod b =? 0 then 0 else b - x mod b);
  ALIGN_UP x b := Z.land (wrap (x + b - 1)) (wnot (b - 1));
  ALIGN_DOWN x b := Z.land x (wnot (b - 1));
  BYTES_TO_SIZE_BITS_PAGES x k := (x + 2 ^ k - 1) / 2 ^ k;
  SIZE_BITS_TO_BYTES k := BIT k
|}.

#[export] Instance utils_laws : UtilsLaws.
Proof.
  split; cbn.
  - intros x k Hk Hx Hw. rewrite wrap_small by (unfold is_word; pose proof (Z.pow_pos_nonneg 2 k); lia).
    rewrite <- MASK_pow by done. apply wnot_MASK; [|done]. unfold is_word. pose proof (Z.pow_pos_nonneg 2 k); lia.
  - intros x k Hk Hx. rewrite <- MASK_pow by done. by apply wnot_MASK.
  - intros x b Hb Hx. pose proof (Z.div_mod x b). lia.
  - intros x b Hb Hx Hw. pose proof (Z.div_mod x b ltac:(lia)) as Hdm. pose proof (Z.mod_pos_bound x b Hb).
    destruct (Z.eqb_spec (x mod b) 0) as [H0|H0].
    + replace (x + b - 1) with (x / b * b + (b - 1)) by lia.
      rewrite Z.div_add_l, (Z.div_small (b - 1)) by lia. lia.
    + replace (x + b - 1) with ((x / b + 1) * b + (x mod b - 1)) by lia.
      rewrite Z.div_add_l, (Z.div_small (x mod b - 1)) by lia. lia.
  - done.
  - done.
Qed.

Section first_fit.
Context {W : Type} `{LL : LevelMemoryLaws W} `{MA : !Malloc W} `{KO : !KernelOps W}
  `{SC : !SeL4Constants} `{UM : !UtilsMacros} `{UL : !UtilsLaws}.
Context (seL4_UserTop : Z).
Notation St := (vspace_mem W).

(** The pages of a page of [2 ^ size_bits] bytes. *)
Definition block (size_bits : Z) : Z := 2 ^ (size_bits - 12).

Definition all_empty (s : St) (a b : Z) : Prop := forall p, a <= p < b -> (recorded s p).1 = EMPTY.
Definition not_all_empty (s : St) (a b : Z) : Prop := exists p, a <= p < b /\ (recorded s p).1 <> EMPTY.

Lemma block_pos (size_bits : Z) : 12 <= size_bits -> 0 < block size_bits.
Proof. intros H. apply Z.pow_pos_nonneg; lia. Qed.

Lemma block_addr (size_bits : Z) : 12 <= size_bits < 48 -> addr (block size_bits) = 2 ^ size_bits.
Proof.
  intros H. unfold addr, block. rewrite PAGE_SIZE_4K_eq. change 4096 with (2 ^ 12).
  rewrite <- Z.pow_add_r by lia. f_equal. lia.
Qed.

Lemma block_end (p size_bits : Z) : 0 <= p -> 12 <= size_bits < 48 -> p + block size_bits <= pages ->
  addr p ⊞ SIZE_BITS_TO_BYTES size_bits = addr (p + block size_bits).
Proof. intros Hp Hs. rewrite SIZE_BITS_TO_BYTES_law by lia. by apply page_end. Qed.

Lemma is_available_ok (s : St) (p size_bits : Z) :
  wf s -> 0 <= p -> 12 <= size_bits < 48 -> p + block size_bits <= pages ->
  exists b : bool, is_available (top_level (data s)) (addr p) size_bits s = Ok (b, s) /\
    if b then all_empty s p (p + block size_bits) else not_all_empty s p (p + block size_bits).
Proof.
  intros Hwf Hp Hs Hle. unfold is_available, is_reserved_or_empty. rewrite page_end by done.
  pose proof (block_pos size_bits ltac:(lia)).
  destruct (is_reserved_or_empty_range_ok s p (p + block size_bits) EMPTY RESERVED Hwf) as (b & Heq & Hb);
    [by left|lia|done|]. exists b. split; [exact Heq|]. by destruct b.
Qed.

(** [K] is the first page the kernel keeps.  Runs of [num] blocks that start
    before [from] are known not to be free. *)
Lemma find_range_loop_ok (fuel : nat) (s : St) (num size_bits f0 from n K : Z) :
  wf s -> 12 <= size_bits < 48 -> KERNEL_RESERVED_START seL4_UserTop = addr K -> K + 2 * block size_bits <= pages ->
  0 < f0 <= from -> (block size_bits | f0) -> (block size_bits | from) -> 0 <= n < num ->
  all_empty s from (from + n * block size_bits) -> from + n * block size_bits < K + block size_bits ->
  (forall f, f0 <= f < from -> (block size_bits | f) -> not_all_empty s f (f + num * block size_bits)) ->
  (0 < fuel)%nat -> K - (from + n * block size_bits) < Z.of_nat fuel * block size_bits ->
  exists r s', find_range_loop seL4_UserTop fuel num size_bits (addr from) n (addr (from + n * block size_bits)) s = Ok (r, s') /\
  ((r = 0 /\ s' = s /\
    forall f, f0 <= f -> f + num * block size_bits < K -> (block size_bits | f) -> not_all_empty s f (f + num * block size_bits)) \/
   (exists f, r = addr f /\ f0 <= f /\ f + num * block size_bits < K /\ (block size_bits | f) /\
    all_empty s f (f + num * block size_bits) /\
    s' = set_data (set_last_allocated (addr (f + num * block size_bits)) (data s)) s /\
    forall f', f0 <= f' < f -> (block size_bits | f') -> not_all_empty s f' (f' + num * block size_bits))).
Proof.
  intros Hwf Hs HK HKp Hf0. pose proof (block_pos size_bits ltac:(lia)) as HB.
  set (B := block size_bits) in *. intros Hf0d. revert from n Hf0.
  induction fuel as [|fuel IH]; intros from n Hf0 Hd Hn Hrun Hcur Hno Hpos Hfuel; [lia|].
  cbn [find_range_loop]. rewrite (proj2 (Z.ltb_lt _ _) (proj2 Hn)). cbn [negb].
  assert (HnB : 0 <= n * B) by (apply Z.mul_nonneg_nonneg; lia).
  unfold bind at 1. cbn [gets res_bind].
  destruct (is_available_ok s (from + n * B) size_bits Hwf) as (b & Heq & Hb); [lia|done|fold B; lia|].
  rewrite (bind_ok _ _ _ _ _ Heq). fold B in Hb.
  replace (addr (from + n * B) ⊞ SIZE_BITS_TO_BYTES size_bits) with (addr (from + n * B + B))
    by (symmetry; apply block_end; [lia|done|fold B; lia]).
  rewrite HK.
  assert (Hle : (addr K <=? addr (from + n * B + B)) = (K <=? from + n * B + B)).
  { unfold addr. rewrite PAGE_SIZE_4K_eq. destruct (Z.leb_spec (K * 4096) ((from + n * B + B) * 4096)),
      (Z.leb_spec K (from + n * B + B)); lia. }
  destruct b.
  - (* the run grows *)
    assert (Hrun' : all_empty s from (from + (n + 1) * B)).
    { intros p Hp. destruct (decide (p < from + n * B)); [apply Hrun|apply Hb]; lia. }
    cbn iota. rewrite Hle. replace (from + n * B + B) with (from + (n + 1) * B) by lia.
    destruct (Z.leb_spec K (from + (n + 1) * B)).
    + exists 0, s. split; [done|]. left. split; [done|]. split; [done|]. intros f Hf Hend Hdf.
      destruct (decide (f < from)); [apply Hno; [lia|done]|exfalso; nia].
    + destruct (decide (n + 1 = num)) as [Heqn|Hne].
      * exists (addr from), (set_data (set_last_allocated (addr (from + num * B)) (data s)) s).
        split; [destruct fuel; cbn [find_range_loop]; rewrite Heqn, Z.ltb_irrefl; done|].
        right. exists from. rewrite <- Heqn in *. split_and!; try done; lia.
      * apply IH; try done; lia.
  - (* a new run begins *)
    cbn iota. rewrite Hle.
    assert (Hno' : forall f, f0 <= f < from + n * B + B -> (B | f) -> not_all_empty s f (f + num * B)).
    { intros f Hf Hdf. destruct (decide (f < from)); [apply Hno; [lia|done]|].
      destruct Hb as (p & Hp & Hne). exists p. split; [|done].
      destruct Hd as [x ->], Hdf as [y ->]. split; [|nia]. assert (y <= x + n) by nia. nia. }
    destruct (Z.leb_spec K (from + n * B + B)).
    + exists 0, s. split; [done|]. left. split; [done|]. split; [done|]. intros f Hf Hend Hdf.
      apply Hno'; [|done]. split; [lia|]. nia.
    + pose proof (IH (from + n * B + B) 0) as IH'. rewrite Z.mul_0_l, Z.add_0_r in IH'.
      apply IH'; try done; try lia.
      * destruct Hd as [x ->]. exists (x + n + 1). lia.
      * intros p Hp. lia.
Qed.

(** The first block of [size_bits] that [find_range] looks at. *)
Definition first_block (size_bits last : Z) : Z := (last + 2 ^ size_bits - 1) / 2 ^ size_bits * block size_bits.

(** C17: [find_range] is first fit: it returns the lowest range of [num_pages]
    consecutive empty pages of the size asked for that starts at or after
    [last_allocated] and ends strictly below the kernel's part, moving
    [last_allocated] behind it; it returns null, changing nothing, exactly if no
    such range ends strictly below the kernel's part.  A free range that ends
    where the kernel's part begins is not found. *)
Theorem find_range_spec (s : St) (num_pages size_bits K : Z) :
  wf s -> 12 <= size_bits < 48 -> 0 < num_pages ->
  KERNEL_RESERVED_START seL4_UserTop = addr K -> K + 2 * block size_bits <= pages ->
  0 < last_allocated (data s) <= addr K ->
  let B := block size_bits in
  let f0 := first_block size_bits (last_allocated (data s)) in
  exists r s', find_range seL4_UserTop num_pages size_bits s = Ok (r, s') /\
  ((r = 0 /\ s' = s /\
    forall f, f0 <= f -> f + num_pages * B < K -> (B | f) -> not_all_empty s f (f + num_pages * B)) \/
   (exists f, r = addr f /\ f0 <= f /\ f + num_pages * B < K /\ (B | f) /\
    all_empty s f (f + num_pages * B) /\
    s' = set_data (set_last_allocated (addr (f + num_pages * B)) (data s)) s /\
    forall f', f0 <= f' < f -> (B | f') -> not_all_empty s f' (f' + num_pages * B))).
Proof.
  intros Hwf Hs Hn HK HKp Hlast B f0. pose proof (block_pos size_bits ltac:(lia)) as HB. fold B in HB.
  pose proof (block_addr size_bits Hs) as HBa. fold B in HBa.
  assert (Hpages : addr pages = 2 ^ 48) by reflexivity.
  assert (Hmono : forall p q, p <= q <-> addr p <= addr q) by (intros p q; unfold addr; rewrite PAGE_SIZE_4K_eq; lia).
  assert (Hpow : 0 < 2 ^ size_bits) by (apply Z.pow_pos_nonneg; lia).
  assert (HKB : addr K + 2 * 2 ^ size_bits <= 2 ^ 48).
  { rewrite <- Hpages, <- HBa. fold B in HKp. rewrite Hmono in HKp. unfold addr in *. lia. }
  set (last := last_allocated (data s)) in *.
  assert (Hf0 : addr f0 = (last + 2 ^ size_bits - 1) / 2 ^ size_bits * 2 ^ size_bits).
  { rewrite <- HBa at 3. unfold f0, first_block, addr. fold B. lia. }
  unfold find_range. unfold bind at 1. cbn [gets res_bind]. fold last.
  assert (Hup : ALIGN_UP last (SIZE_BITS_TO_BYTES size_bits) = addr f0).
  { rewrite SIZE_BITS_TO_BYTES_law, BIT_pow by lia. rewrite Hf0. apply ALIGN_UP_law; [lia|lia|].
    change word_size with (2 ^ 64). lia. }
  rewrite Hup. unfold cassert, lift, rassert. rewrite land_MASK by lia.
  rewrite Hf0, Z.mod_mul, <- Hf0 by lia. cbn [Z.eqb]. unfold bind at 1. cbn [res_bind].
  assert (Hq : 0 < (last + 2 ^ size_bits - 1) / 2 ^ size_bits) by (apply Z.div_str_pos; lia).
  assert (Hf0K : addr f0 < addr K + 2 ^ size_bits).
  { rewrite Hf0. pose proof (Z.mul_div_le (last + 2 ^ size_bits - 1) (2 ^ size_bits)). lia. }
  assert (Hf0d : (B | f0)) by (by eexists).
  assert (Hf0K' : f0 < K + B).
  { rewrite <- HBa in Hf0K. unfold addr in Hf0K. rewrite PAGE_SIZE_4K_eq in Hf0K. lia. }
  assert (0 < f0) by (unfold f0, first_block; apply Z.mul_pos_pos; done).
  rewrite HK. rewrite SIZE_BITS_TO_BYTES_law, BIT_pow by lia.
  set (fuel := Z.to_nat ((addr K - addr f0) / 2 ^ size_bits + 2)).
  destruct (find_range_loop_ok fuel s num_pages size_bits f0 f0 0 K) as (r & s' & Heq & Hr); fold B; try done; try lia.
  - intros p Hp. lia.
  - subst fuel. assert (-1 <= (addr K - addr f0) / 2 ^ size_bits); [|lia].
    apply Z.div_le_lower_bound; lia.
  - subst fuel. assert (-1 <= (addr K - addr f0) / 2 ^ size_bits) by (apply Z.div_le_lower_bound; lia).
    rewrite Z2Nat.id by lia. pose proof (Z.div_mod (addr K - addr f0) (2 ^ size_bits) ltac:(lia)) as Hdm.
    pose proof (Z.mod_pos_bound (addr K - addr f0) (2 ^ size_bits) Hpow).
    set (q := (addr K - addr f0) / 2 ^ size_bits) in *. rewrite <- HBa in *.
    unfold addr in *. rewrite PAGE_SIZE_4K_eq in *. nia.
  - fold B in Heq. rewrite Z.mul_0_l, Z.add_0_r in Heq. exists r, s'. split; [exact Heq|]. exact Hr.
Qed.

End first_fit.

Lemma find_range_spec_witness : exists r s',
  find_range 0x40000000 3 21 toy_space = Ok (r, s') /\
  ((r = 0 /\ s' = toy_space /\
    forall f, first_block 21 268435456 <= f -> f + 3 * block 21 < 262144 -> (block 21 | f) ->
      not_all_empty toy_space f (f + 3 * block 21)) \/
   (exists f, r = addr f /\ first_block 21 268435456 <= f /\ f + 3 * block 21 < 262144 /\ (block 21 | f) /\
    all_empty toy_space f (f + 3 * block 21) /\
    s' = set_data (set_last_allocated (addr (f + 3 * block 21)) (data toy_space)) toy_space /\
    forall f', first_block 21 268435456 <= f' < f -> (block 21 | f') ->
      not_all_empty toy_space f' (f' + 3 * block 21))).
Proof.
  apply (find_range_spec 0x40000000 toy_space 3 21 262144);
    [exact toy_space_wf|lia|lia|reflexivity|unfold pages, block; lia|cbn; unfold addr; rewrite PAGE_SIZE_4K_eq; lia].
Defined.
