(* ===== verification/VspaceOps.v ===== *)
(** Reserving, finding and freeing ranges of an address space (Vspace.v) keep its
    reservations in order: the list is sorted, the ranges are disjoint, and
    their pages are taken. *)
From stdpp Require Import sorting.
From S2P Require Import Prelude Cspacepath Interfaces Objects Vka VspaceTables VspaceView VspaceSpec.
From S2P Require Import Vspace VspaceReserve.

(** The heap and the memory for tables are apart. *)
Class VspaceHeap (W : Type) `{LL : LevelMemoryLaws W} `{ML : MallocLaws W} : Prop := {
  heap_other : forall w, other_blocks w = live_blocks w;
  malloc_levels : forall bytes d w p w', malloc bytes w = Ok (p, w') -> level_addrs (d, w') = level_addrs (d, w);
  free_levels : forall p d w w', free p w = Ok (tt, w') -> level_addrs (d, w') = level_addrs (d, w)
}.

Section ops.
Context {W : Type} `{LM : !LevelMemory W} `{LL : !LevelMemoryLaws W} `{MA : !Malloc W} `{ML : !MallocLaws W}
  `{VH : !VspaceHeap W} `{KO : !KernelOps W} `{SC : !SeL4Constants} `{UM : !UtilsMacros} `{UL : !UtilsLaws}.
Notation St := (vspace_mem W).

(** The range of a reservation, in pages. *)
Definition range_of (m : gmap Z sel4utils_res_t) (p a b : Z) : Prop :=
  start_of m p = addr a /\ end_of m p = addr b /\ 0 <= a < b /\ b <= pages.

Record res_ok (s : St) (l : list Z) : Prop := {
  ro_wf : wf s;
  ro_chain : head_is s l;
  ro_nodup : NoDup l;
  ro_sorted : descending (start_of (reservations s)) l;
  ro_live : forall p, is_Some (reservations s !! p) -> p ∈ live_blocks (world s);
  ro_range : forall p, p ∈ l -> exists a b, range_of (reservations s) p a b /\
    forall q, a <= q < b -> (recorded s q).1 <> EMPTY;
  ro_disjoint : forall p q, p ∈ l -> q ∈ l -> p <> q ->
    start_of (reservations s) p < end_of (reservations s) q ->
    start_of (reservations s) q < end_of (reservations s) p -> False
}.

Lemma range_start (m m' : gmap Z sel4utils_res_t) (p a b : Z) :
  start_of m' p = start_of m p -> end_of m' p = end_of m p -> range_of m p a b -> range_of m' p a b.
Proof. intros Hs He (H1 & H2 & H3). unfold range_of. by rewrite Hs, He. Qed.

Lemma addr_le (p q : Z) : addr p <= addr q <-> p <= q.
Proof. unfold addr. rewrite PAGE_SIZE_4K_eq. lia. Qed.
Lemma addr_lt (p q : Z) : addr p < addr q <-> p < q.
Proof. unfold addr. rewrite PAGE_SIZE_4K_eq. lia. Qed.
Lemma addr_inj (p q : Z) : addr p = addr q -> p = q.
Proof. unfold addr. rewrite PAGE_SIZE_4K_eq. lia. Qed.

(** *** Finding *)

(** [find_reserve] returns the one reservation whose range the address is in,
    and null if there is none. *)
Theorem find_reserve_spec (s : St) (l : list Z) (vaddr : Z) : res_ok s l ->
  exists r, find_reserve vaddr s = Ok (r, s) /\
    ((r = 0 /\ forall p, p ∈ l -> ~ covers (reservations s) vaddr p) \/
     (r ∈ l /\ covers (reservations s) vaddr r /\ forall p, p ∈ l -> covers (reservations s) vaddr p -> p = r)).
Proof.
  intros H. destruct (find_reserve_ok s l vaddr (ro_chain _ _ H) (ro_nodup _ _ H)) as (r & Heq & Hr).
  exists r. split; [done|]. destruct Hr as [|(Hr & Hin & Hc)]; [by left|right].
  split; [done|]. split; [done|]. intros p Hp Hcp. destruct (decide (p = r)) as [|Hne]; [done|].
  unfold covers in *. exfalso. apply (ro_disjoint _ _ H p r Hp Hin Hne); lia.
Qed.

(** *** Reserving *)

Lemma outside_ok {A : Type} (m : M W A) (s : St) (a : A) (w' : W) : m (world s) = Ok (a, w') ->
  outside m s = Ok (a, VspaceMem (data s) (mids s) (bottoms s) (reservations s) w').
Proof. intros H. unfold outside, in_world. by rewrite H. Qed.

(** The state after a heap operation that succeeded. *)
Definition with_world (w : W) (s : St) : St := VspaceMem (data s) (mids s) (bottoms s) (reservations s) w.

Lemma with_world_wf (s : St) (w : W) :
  level_addrs (data s, w) = level_addrs (data s, world s) -> wf s -> wf (with_world w s).
Proof. intros Hl. apply wf_same_tables; try done. cbn. by rewrite Hl. Qed.

Lemma with_res_wf (s : St) (m : gmap Z sel4utils_res_t) : wf s -> wf (with_res m s).
Proof. by apply wf_same_tables. Qed.

Lemma same_but_list_wf (s s' : St) : same_but_list s s' -> wf s -> wf s'.
Proof.
  intros (_ & Hm & Hb & Hw & h & Hd). apply wf_same_tables; try done; [by rewrite Hd|].
  rewrite Hw. by rewrite (level_addrs_data (data s') (data s)) by (by rewrite Hd).
Qed.

Lemma same_but_list_recorded (s s' : St) (p : Z) :
  same_but_list s s' -> recorded s' p = recorded s p /\ own s' p = own s p.
Proof. intros (_ & Hm & Hb & Hw & h & Hd). apply recorded_same_tables; try done. by rewrite Hd. Qed.

Lemma evolves_head (s s' : St) (l : list Z) : evolves s s' -> head_is s l -> head_is s' l.
Proof. intros [[v Hd] Hr _ _] Hl. unfold head_is. by rewrite Hr, Hd. Qed.

(** The walk that reserves the pages from [a] to [b] for a new node, run from [s]
    once the node is allocated and filled in, is refused memory for a table. *)
Definition tables_run_out (s : St) (a b newrights newcacheable : Z) : Prop := exists p w' s1,
  malloc sizeof_sel4utils_res_t (world s) = Ok (p, w') /\ p <> 0 /\
  reserve_entries_range (addr a) (addr b) true
    (with_res (<[p := Res (addr a) (addr b) newrights newcacheable 0 false 0]> (reservations s)) (with_world w' s)) =
    Ok (-1, s1) /\ ran_out s1.

(** What [perform_reservation] does to an empty range: it is reserved, and its
    node is in the list; or the memory for tables runs out, and the assertion
    that the range could be reserved fails. *)
Lemma perform_reservation_ok (s : St) (l : list Z) (p a b rights cacheable : Z) (r : sel4utils_res_t) :
  wf s -> head_is s l -> NoDup l -> p ∉ l -> p <> 0 -> reservations s !! p = Some r ->
  0 <= a < b -> b <= pages -> all_empty s a b ->
  (perform_reservation p (addr a) (addr b - addr a) rights cacheable s = Fault AssertFailed /\
   let m := <[p := Res (addr a) (addr b) rights cacheable (malloced r) (rights_deferred r) (next r)]> (reservations s) in
   exists s1, reserve_entries_range (addr a) (addr b) true (with_res m s) = Ok (-1, s1) /\ ran_out s1) \/
  (exists s', perform_reservation p (addr a) (addr b - addr a) rights cacheable s = Ok (tt, s') /\
    wf s' /\ other_blocks (world s') = other_blocks (world s) /\
    let m := <[p := Res (addr a) (addr b) rights cacheable (malloced r) (rights_deferred r) (next r)]> (reservations s) in
    erase <$> reservations s' = erase <$> m /\ head_is s' (insert_sorted (start_of m) p l) /\
    (forall q, a <= q < b -> recorded s' q = (RESERVED, 0)) /\
    (forall q, 0 <= q < pages -> ~ (a <= q < b) -> recorded s' q = recorded s q) /\
    last_allocated (data s') = last_allocated (data s)).
Proof.
  intros Hwf Hc Hnd Hp Hp0 Hr Hab Hb Hempty.
  remember (perform_reservation p (addr a) (addr b - addr a) rights cacheable s) as R eqn:HR.
  unfold perform_reservation in HR.
  unfold cassert at 1, lift, rassert in HR. rewrite (proj2 (Z.eqb_neq _ _) Hp0) in HR. cbn [negb] in HR.
  unfold bind at 1 in HR. cbn [res_bind] in HR. rewrite (bind_ok _ _ _ _ _ (load_res_ok s p r Hr)) in HR.
  assert (Hword : forall x, 0 <= x <= pages -> is_word (addr x)) by apply pages_word.
  assert (Hbw : addr a ⊞ (addr b - addr a) = addr b)
    by (replace (addr a + (addr b - addr a)) with (addr b) by lia; apply wrap_small, Hword; lia).
  assert (HP : 0 < PAGE_SIZE_4K) by done.
  rewrite Hbw, ROUND_DOWN_law in HR by (done || apply Hword; lia).
  assert (Hmax : addr b + PAGE_SIZE_4K <= word_size).
  { assert (addr b <= addr pages) by (apply addr_le; lia). assert (addr pages = 2 ^ 48) by reflexivity.
    rewrite PAGE_SIZE_4K_eq. unfold word_size. lia. }
  rewrite ROUND_UP_law in HR by (try done; pose proof (Hword b ltac:(lia)) as Hx; unfold is_word in Hx; lia).
  replace ((addr b + PAGE_SIZE_4K - 1) / PAGE_SIZE_4K * PAGE_SIZE_4K) with (addr b) in HR.
  2: { unfold addr. replace (b * PAGE_SIZE_4K + PAGE_SIZE_4K - 1) with (b * PAGE_SIZE_4K + (PAGE_SIZE_4K - 1)) by lia.
       rewrite Z.div_add_l, (Z.div_small (PAGE_SIZE_4K - 1)) by lia. lia. }
  replace (addr a / PAGE_SIZE_4K * PAGE_SIZE_4K) with (addr a) in HR by (unfold addr; rewrite Z.div_mul by lia; lia).
  rewrite (bind_ok _ _ _ _ _ (store_res_ok s p r _ Hr)) in HR.
  set (r1 := Res (addr a) (addr b) rights cacheable (malloced r) (rights_deferred r) (next r)).
  set (m := <[p := r1]> (reservations s)). set (s1 := with_res m s).
  assert (Hwf1 : wf s1) by (by apply with_res_wf).
  assert (Hrec1 : forall q, recorded s1 q = recorded s q) by (intros q; by apply recorded_same_tables).
  destruct (reserve_entries_range_ok s1 a b true Hwf1 ltac:(lia) Hb) as (e & s2 & Heq & Hwf2 & Hev & x & Hx & Hin & Hout & He).
  fold r1 m s1 in HR. rewrite (bind_ok _ _ _ _ _ Heq) in HR.
  assert (Hstep : forall q, a <= q < b -> step_reserve true (recorded s1 q) = Some (RESERVED, 0)).
  { intros q Hq. unfold step_reserve. by rewrite Hrec1, (Hempty q Hq). }
  destruct He as [[-> ->]|(-> & Hlt & [Hnone|Hro])].
  - right. unfold cassert, lift, rassert in HR. change (0 =? seL4_NoError) with true in HR. cbv iota in HR.
    unfold bind at 1 in HR. cbn [res_bind] in HR.
    assert (Hm2 : reservations s2 = m) by apply (ev_reservations _ _ Hev).
    assert (Hc2 : head_is s2 l).
    { eapply evolves_head; [exact Hev|]. unfold head_is. cbn. eapply chain_ext; [|exact Hc].
      intros q Hq. unfold m. rewrite lookup_insert_ne; [done|]. by intros ->. }
    destruct (insert_reservation_ok s2 l p r1 Hc2 Hnd Hp Hp0) as (s3 & Hins & Hsame & Hhead).
    { rewrite Hm2. apply lookup_insert_eq. }
    exists s3. split; [by rewrite HR|]. pose proof Hsame as (He3 & _ & _ & Hw3 & h & Hd3).
    split; [by eapply same_but_list_wf|]. split; [rewrite Hw3; apply (ev_blocks _ _ Hev)|].
    rewrite Hm2 in *. split; [done|]. split; [done|].
    assert (Hrec3 : forall q, recorded s3 q = recorded s2 q) by (intros q; by apply same_but_list_recorded).
    split_and!.
    + intros q Hq. rewrite Hrec3. specialize (Hin q Hq). rewrite Hstep in Hin by done. congruence.
    + intros q Hq Hn. by rewrite Hrec3, Hout, Hrec1.
    + rewrite Hd3. cbn. destruct (ev_data _ _ Hev) as [v ->]. done.
  - exfalso. rewrite Hstep in Hnone by lia. done.
  - left. split; [by rewrite HR|]. exists s2. split; [exact Heq|exact Hro].
Qed.

(** Writing a field of a node other than its range and its link. *)
Lemma chain_insert_same (m : gmap Z sel4utils_res_t) (h : Z) (l : list Z) (p : Z) (r r' : sel4utils_res_t) :
  m !! p = Some r -> next r' = next r -> chain m h l -> chain (<[p := r']> m) h l.
Proof.
  intros Hr Hn. revert h. induction l as [|q l IH]; intros h; [done|].
  intros (-> & Hq & rq & Hrq & Hc). split; [done|]. split; [done|].
  destruct (decide (p = q)) as [->|Hne].
  - exists r'. split; [apply lookup_insert_eq|]. rewrite Hn. apply IH. congruence.
  - exists rq. split; [by rewrite lookup_insert_ne by done|]. by apply IH.
Qed.

Lemma range_insert_same (m : gmap Z sel4utils_res_t) (p q : Z) (r r' : sel4utils_res_t) :
  m !! p = Some r -> start r' = start r -> end_ r' = end_ r ->
  start_of (<[p := r']> m) q = start_of m q /\ end_of (<[p := r']> m) q = end_of m q.
Proof.
  intros Hr Hs He. unfold start_of, end_of. destruct (decide (p = q)) as [->|Hne].
  - rewrite lookup_insert_eq, Hr. cbn. by rewrite Hs, He.
  - by rewrite lookup_insert_ne by done.
Qed.

Lemma erase_lookup (m m' : gmap Z sel4utils_res_t) (p : Z) (r : sel4utils_res_t) :
  erase <$> m' = erase <$> m -> m !! p = Some r -> exists n, m' !! p = Some (with_next n r).
Proof.
  intros He Hr. assert (H : (erase <$> m') !! p = (erase <$> m) !! p) by (by rewrite He).
  rewrite !lookup_fmap, Hr in H. destruct (m' !! p) as [r'|]; [|done]. exists (next r').
  destruct r', r. cbn in *. by simplify_eq.
Qed.

(** [res_ok] from what is known of the nodes. *)
Lemma res_ok_ext (s s' : St) (l : list Z) :
  res_ok s l -> wf s' -> head_is s' l ->
  (forall q, q ∈ l -> start_of (reservations s') q = start_of (reservations s) q /\
    end_of (reservations s') q = end_of (reservations s) q) ->
  (forall p, is_Some (reservations s' !! p) -> p ∈ live_blocks (world s')) ->
  (forall q, 0 <= q < pages -> (recorded s q).1 <> EMPTY -> (recorded s' q).1 <> EMPTY) -> res_ok s' l.
Proof.
  intros H Hwf Hc Hn Hlive Hrec. split; try done.
  - apply (ro_nodup _ _ H).
  - eapply descending_ext; [|apply (ro_sorted _ _ H)]. intros q Hq. symmetry. by apply Hn.
  - intros p Hp. destruct (ro_range _ _ H p Hp) as (a & b & Hr & Ht). exists a, b.
    split; [eapply range_start; [..|exact Hr]; by apply Hn|]. intros q Hq. apply Hrec; [|by apply Ht].
    destruct Hr as (_ & _ & ? & ?). lia.
  - intros p q Hp Hq Hne. destruct (Hn p Hp) as [-> ->], (Hn q Hq) as [-> ->]. by apply (ro_disjoint _ _ H).
Qed.

Lemma res_ok_add (s s' : St) (l : list Z) (p a b : Z) :
  res_ok s l -> p ∉ l -> 0 <= a < b -> b <= pages -> all_empty s a b -> wf s' ->
  head_is s' (insert_sorted (start_of (reservations s')) p l) -> range_of (reservations s') p a b ->
  (forall q, q ∈ l -> start_of (reservations s') q = start_of (reservations s) q /\
    end_of (reservations s') q = end_of (reservations s) q) ->
  (forall q, is_Some (reservations s' !! q) -> q ∈ live_blocks (world s')) ->
  (forall q, a <= q < b -> recorded s' q = (RESERVED, 0)) ->
  (forall q, 0 <= q < pages -> ~ (a <= q < b) -> recorded s' q = recorded s q) ->
  res_ok s' (insert_sorted (start_of (reservations s')) p l).
Proof.
  intros H Hp Hab Hb Hempty Hwf Hc Hrange Hn Hlive Hin Hout.
  set (f := start_of (reservations s')).
  assert (Hperm : insert_sorted f p l ≡ₚ p :: l) by apply insert_sorted_perm.
  assert (Hmem : forall q, q ∈ insert_sorted f p l <-> q = p \/ q ∈ l)
    by (intros q; rewrite Hperm; apply elem_of_cons).
  assert (Hold : forall q, q ∈ l -> exists c d, range_of (reservations s') q c d /\ (d <= a \/ b <= c) /\
    forall x, c <= x < d -> (recorded s' x).1 <> EMPTY).
  { intros q Hq. destruct (ro_range _ _ H q Hq) as (c & d & Hr & Ht).
    pose proof Hr as (_ & _ & Hcd & Hd).
    assert (Hdis : d <= a \/ b <= c).
    { destruct (decide (d <= a)); [by left|]. destruct (decide (b <= c)); [by right|]. exfalso.
      apply (Ht (Z.max a c)); [lia|]. apply Hempty. lia. }
    exists c, d. split; [eapply range_start; [..|exact Hr]; by apply Hn|]. split; [done|].
    intros x Hx. rewrite Hout by lia. by apply Ht. }
  assert (Hnew : forall q, q ∈ l -> f p < end_of (reservations s') q -> f q < end_of (reservations s') p -> False).
  { intros q Hq. destruct (Hold q Hq) as (c & d & (Hs & He & Hcd & Hd) & Hdis & _).
    destruct Hrange as (Hsp & Hep & _). unfold f. rewrite Hs, He, Hsp, Hep, !addr_lt. lia. }
  split; try done.
  - rewrite Hperm. apply NoDup_cons. split; [done|apply (ro_nodup _ _ H)].
  - apply insert_sorted_descending. eapply descending_ext; [|apply (ro_sorted _ _ H)].
    intros q Hq. symmetry. by apply Hn.
  - intros q [->|Hq]%Hmem; [exists a, b; split; [done|]; intros x Hx; by rewrite Hin|].
    destruct (Hold q Hq) as (c & d & Hr & _ & Ht). by exists c, d.
  - intros x y [->|Hx]%Hmem [->|Hy]%Hmem Hne Hxy Hyx; [done|by eapply Hnew|by eapply (Hnew x)|].
    destruct (Hn x Hx) as [Hsx Hex], (Hn y Hy) as [Hsy Hey]. rewrite Hsx, Hex, Hsy, Hey in *.
    by apply (ro_disjoint _ _ H x y).
Qed.

Lemma malloc_res_ok (s : St) : exists p w', malloc sizeof_sel4utils_res_t (world s) = Ok (p, w') /\
  ((p = 0 /\ malloc_res s = Ok (0, with_world w' s) /\ live_blocks w' = live_blocks (world s)) \/
   (p <> 0 /\ p ∉ live_blocks (world s) /\ live_blocks w' = {[p]} ∪ live_blocks (world s) /\
    malloc_res s = Ok (p, with_res (<[p := Res 0 0 0 0 0 false 0]> (reservations s)) (with_world w' s)))) /\
  forall d, level_addrs (d, w') = level_addrs (d, world s).
Proof.
  destruct (malloc_law sizeof_sel4utils_res_t (world s)) as (p & w' & Hm & Hcase).
  exists p, w'. split; [done|]. split; [|intros d; by eapply malloc_levels].
  unfold malloc_res. rewrite (bind_ok _ _ _ _ _ (outside_ok _ s p w' Hm)).
  destruct Hcase as [[-> Hl]|(Hp & Hnot & Hl)]; [by left|right].
  rewrite (proj2 (Z.eqb_neq _ _) Hp). done.
Qed.

Lemma add_remove (X : gset Z) (p : Z) : p ∉ X -> ({[p]} ∪ X) ∖ {[p]} = X.
Proof. set_solver. Qed.

Lemma free_res_ok (s : St) (p : Z) : p ∈ live_blocks (world s) -> exists w',
  free_res p s = Ok (tt, with_res (delete p (reservations s)) (with_world w' s)) /\
  live_blocks w' = live_blocks (world s) ∖ {[p]} /\ forall d, level_addrs (d, w') = level_addrs (d, world s).
Proof.
  intros Hp. destruct (free_law p (world s) Hp) as (w' & Hf & Hl). exists w'.
  split; [|split; [done|intros d; by eapply free_levels]].
  unfold free_res, modify. unfold bind at 1. cbn [res_bind].
  exact (outside_ok (free p) (set_reservations (delete p) s) tt w' Hf).
Qed.

Lemma set_malloced_ok (s : St) (p m : Z) (r : sel4utils_res_t) : reservations s !! p = Some r ->
  set_malloced p m s = Ok (tt, with_res
    (<[p := Res (start r) (end_ r) (rights r) (cacheable r) m (rights_deferred r) (next r)]> (reservations s)) s).
Proof.
  intros H. unfold set_malloced. rewrite (bind_ok _ _ _ _ _ (load_res_ok _ _ _ H)). by eapply store_res_ok.
Qed.

Lemma set_rights_deferred_ok (s : St) (p : Z) (b : bool) (r : sel4utils_res_t) : reservations s !! p = Some r ->
  set_rights_deferred p b s = Ok (tt, with_res
    (<[p := Res (start r) (end_ r) (rights r) (cacheable r) (malloced r) b (next r)]> (reservations s)) s).
Proof.
  intros H. unfold set_rights_deferred. rewrite (bind_ok _ _ _ _ _ (load_res_ok _ _ _ H)). by eapply store_res_ok.
Qed.

(** The outcomes of reserving the pages from [a] to [b], from a state [s] with the
    reservations [l]. *)
Definition reserve_outcome (s : St) (l : list Z) (a b newrights newcacheable : Z) (run : res (Z * St)) : Prop :=
  (exists s', run = Ok (0, s') /\ res_ok s' l /\ live_blocks (world s') = live_blocks (world s) /\
    (forall q, recorded s' q = recorded s q) /\
    ((exists w', malloc sizeof_sel4utils_res_t (world s) = Ok (0, w')) \/ not_all_empty s a b)) \/
  (all_empty s a b /\
   ((run = Fault AssertFailed /\ tables_run_out s a b newrights newcacheable) \/
    exists p r s', run = Ok (p, s') /\ p <> 0 /\ p ∉ l /\
      res_ok s' (insert_sorted (start_of (reservations s')) p l) /\
      live_blocks (world s') = {[p]} ∪ live_blocks (world s) /\
      reservations s' !! p = Some r /\ start r = addr a /\ end_ r = addr b /\
      rights r = newrights /\ cacheable r = newcacheable /\ malloced r = 1 /\ rights_deferred r = false /\
      (forall q, a <= q < b -> recorded s' q = (RESERVED, 0)) /\
      (forall q, 0 <= q < pages -> ~ (a <= q < b) -> recorded s' q = recorded s q))).

Lemma reserve_range_at_ok (s : St) (l : list Z) (a b newrights newcacheable : Z) :
  res_ok s l -> 0 <= a < b -> b <= pages ->
  reserve_outcome s l a b newrights newcacheable
    (sel4utils_reserve_range_at (addr a) (addr b - addr a) newrights newcacheable s).
Proof.
  intros H Hab Hb. remember (sel4utils_reserve_range_at (addr a) (addr b - addr a) newrights newcacheable s) as R eqn:HR.
  unfold reserve_outcome. unfold sel4utils_reserve_range_at in HR.
  destruct (malloc_res_ok s) as (p & w' & Hmal & [(-> & Hm & Hl)|(Hp & Hnot & Hl & Hm)] & Hlev);
    rewrite (bind_ok _ _ _ _ _ Hm) in HR.
  { left. exists (with_world w' s). split; [rewrite HR; reflexivity|]. clear HR R.
    assert (Hrec : forall q, recorded (with_world w' s) q = recorded s q) by (intros q; by apply recorded_same_tables).
    split; [|split; [done|]; split; [done|left; by exists w']].
    apply (res_ok_ext s); [exact H| | | | |].
    - apply with_world_wf; [by rewrite Hlev|apply (ro_wf _ _ H)].
    - apply (ro_chain _ _ H).
    - intros q Hq. split; reflexivity.
    - intros q Hq. cbn. rewrite Hl. by apply (ro_live _ _ H).
    - intros q _ Hq. by rewrite Hrec. }
  rewrite (proj2 (Z.eqb_neq _ _) Hp) in HR.
  set (n0 := Res 0 0 0 0 0 false 0) in *.
  set (s0 := with_res (<[p := n0]> (reservations s)) (with_world w' s)) in *.
  assert (Hpdom : reservations s !! p = None).
  { destruct (reservations s !! p) eqn:Hd; [|done]. exfalso. apply Hnot, (ro_live _ _ H). by rewrite Hd. }
  assert (Hpl : p ∉ l).
  { intros Hin. destruct (chain_lookup _ _ _ p (ro_chain _ _ H) Hin) as [_ [r Hr]]. congruence. }
  assert (Hwf0 : wf s0) by (apply with_res_wf, with_world_wf; [by rewrite Hlev|apply (ro_wf _ _ H)]).
  assert (Hrec0 : forall q, recorded s0 q = recorded s q) by (intros q; by apply recorded_same_tables).
  unfold sel4utils_reserve_range_at_no_alloc in HR.
  rewrite <- bind_assoc in HR. unfold bind at 1 in HR. cbn [gets res_bind] in HR.
  assert (Hend : addr a ⊞ (addr b - addr a) = addr b).
  { replace (addr a + (addr b - addr a)) with (addr b) by lia. apply wrap_small, pages_word. lia. }
  rewrite Hend in HR.
  destruct (is_reserved_or_empty_range_ok s0 a b EMPTY RESERVED Hwf0) as (av & Hav & Hcase); [by left|lia|done|].
  change (is_reserved_or_empty_range (top_level (data s0)) (addr a) (addr b) EMPTY RESERVED)
    with (is_available_range (W := W) (top_level (data s0)) (addr a) (addr b)) in Hav.
  rewrite <- bind_assoc, (bind_ok _ _ _ _ _ Hav) in HR. destruct av; cbn [negb] in HR.
  2: { (* taken *)
    left. unfold bind at 1 in HR. cbn [ret res_bind] in HR. change (-1 =? 0) with false in HR. cbn [negb] in HR.
    destruct (free_res_ok s0 p) as (w2 & Hf & Hl2 & Hlev2); [cbn; rewrite Hl; by apply elem_of_union_l, elem_of_singleton|].
    rewrite (bind_ok _ _ _ _ _ Hf) in HR.
    eexists. split; [rewrite HR; reflexivity|]. clear HR R.
    assert (Hdel : delete p (reservations s0) = reservations s) by (cbn; by rewrite delete_insert_id).
    assert (Hlive : live_blocks w2 = live_blocks (world s)) by (rewrite Hl2; cbn; rewrite Hl; by apply add_remove).
    set (s' := with_res (delete p (reservations s0)) (with_world w2 s0)).
    assert (Hrec : forall q, recorded s' q = recorded s q)
      by (intros q; rewrite <- Hrec0; by apply recorded_same_tables).
    split; [|split; [exact Hlive|]; split; [done|right]].
    - assert (Hrs : reservations s' = reservations s) by exact Hdel.
      apply (res_ok_ext s); [exact H| | | | |].
      + apply with_res_wf, with_world_wf; [|exact Hwf0]. cbn. rewrite Hlev2. cbn. by rewrite Hlev.
      + unfold head_is. rewrite Hrs. apply (ro_chain _ _ H).
      + intros q Hq. by rewrite Hrs.
      + intros q. rewrite Hrs. change (world s') with w2. rewrite Hlive. by apply (ro_live _ _ H).
      + intros q _ Hq. by rewrite Hrec.
    - destruct Hcase as (q & Hq & Hne). exists q. split; [done|]. by rewrite <- Hrec0. }
  right. assert (Hempty : all_empty s a b) by (intros q Hq; rewrite <- Hrec0; by apply Hcase).
  split; [exact Hempty|].
  assert (Hn0 : reservations s0 !! p = Some n0) by apply lookup_insert_eq.
  rewrite <- bind_assoc, (bind_ok _ _ _ _ _ (set_malloced_ok s0 p 0 n0 Hn0)) in HR.
  change (Res (start n0) (end_ n0) (rights n0) (cacheable n0) 0 (rights_deferred n0) (next n0)) with n0 in HR.
  rewrite (insert_id _ _ _ Hn0) in HR. change (with_res (reservations s0) s0) with s0 in HR.
  rewrite <- bind_assoc, (bind_ok _ _ _ _ _ (set_rights_deferred_ok s0 p false n0 Hn0)) in HR.
  change (Res (start n0) (end_ n0) (rights n0) (cacheable n0) (malloced n0) false (next n0)) with n0 in HR.
  rewrite (insert_id _ _ _ Hn0) in HR. change (with_res (reservations s0) s0) with s0 in HR.
  assert (Hc0 : head_is s0 l).
  { unfold head_is. cbn. eapply chain_ext; [|apply (ro_chain _ _ H)].
    intros q Hq. rewrite lookup_insert_ne; [done|]. by intros ->. }
  assert (Hempty0 : all_empty s0 a b) by (intros q Hq; rewrite Hrec0; by apply Hempty).
  destruct (perform_reservation_ok s0 l p a b newrights newcacheable n0 Hwf0 Hc0 (ro_nodup _ _ H) Hpl Hp Hn0 Hab Hb Hempty0)
    as [(Hf & s1 & Hwalk & Hro)|(s2 & Hperf & Hwf2 & Hbl & He & Hhead & Hin & Hout & _)].
  { left. rewrite <- bind_assoc in HR. unfold bind at 1 in HR. rewrite Hf in HR. cbn [res_bind] in HR.
    split; [exact HR|]. exists p, w', s1. split; [exact Hmal|]. split; [exact Hp|]. split; [|exact Hro].
    change (with_res _ s0) with (with_res (<[p := Res (addr a) (addr b) newrights newcacheable 0 false 0]>
      (<[p := n0]> (reservations s))) (with_world w' s)) in Hwalk. by rewrite insert_insert_eq in Hwalk. }
  right. rewrite <- bind_assoc, (bind_ok _ _ _ _ _ Hperf) in HR. unfold bind at 1 in HR. cbn [ret res_bind] in HR.
  change (0 =? 0) with true in HR. cbn [negb] in HR.
  set (m := <[p := Res (addr a) (addr b) newrights newcacheable (malloced n0) (rights_deferred n0) (next n0)]> (reservations s0)) in *.
  destruct (erase_lookup _ _ p _ He (lookup_insert_eq _ _ _)) as [n Hn].
  set (r2 := with_next n _) in Hn.
  rewrite (bind_ok _ _ _ _ _ (set_malloced_ok s2 p 1 r2 Hn)) in HR.
  set (r3 := Res (start r2) (end_ r2) (rights r2) (cacheable r2) 1 (rights_deferred r2) (next r2)) in HR.
  set (s3 := with_res (<[p := r3]> (reservations s2)) s2) in HR.
  exists p, r3, s3. split; [exact HR|]. clear HR R.
  assert (Hsame : forall q, start_of (reservations s3) q = start_of m q /\ end_of (reservations s3) q = end_of m q).
  { intros q. change (reservations s3) with (<[p := r3]> (reservations s2)).
    destruct (range_insert_same (reservations s2) p q r2 r3 Hn eq_refl eq_refl) as [-> ->].
    destruct (erase_start _ _ q He) as (-> & -> & _). done. }
  assert (Hrec3 : forall q, recorded s3 q = recorded s2 q) by (intros q; by apply recorded_same_tables).
  assert (Hlive : live_blocks (world s3) = {[p]} ∪ live_blocks (world s)).
  { rewrite <- Hl, <- !heap_other. exact Hbl. }
  assert (Hin3 : forall q, a <= q < b -> recorded s3 q = (RESERVED, 0)) by (intros q Hq; rewrite Hrec3; by apply Hin).
  assert (Hout3 : forall q, 0 <= q < pages -> ~ (a <= q < b) -> recorded s3 q = recorded s q)
    by (intros q Hq Hnq; rewrite Hrec3, <- Hrec0; by apply Hout).
  split; [exact Hp|]. split; [exact Hpl|]. split.
  - apply (res_ok_add s s3 l p a b H Hpl Hab Hb Hempty); [by apply with_res_wf| | | | |exact Hin3|exact Hout3].
    + rewrite (insert_sorted_ext _ (start_of m)) by (intros q _; apply Hsame).
      unfold head_is. cbn. by eapply chain_insert_same.
    + destruct (Hsame p) as [Hs1 Hs2]. split; [|split; [|done]].
      * rewrite Hs1. unfold start_of, m. by rewrite lookup_insert_eq.
      * rewrite Hs2. unfold end_of, m. by rewrite lookup_insert_eq.
    + intros q Hq. destruct (Hsame q) as [-> ->]. unfold start_of, end_of, m.
      assert (p <> q) by (intros ->; done). cbn [reservations s0 with_res set_reservations].
      by rewrite !lookup_insert_ne by done.
    + intros q Hq. rewrite Hlive. destruct (decide (q = p)) as [->|Hne]; [by apply elem_of_union_l, elem_of_singleton|].
      apply elem_of_union_r, (ro_live _ _ H). cbn in Hq. rewrite lookup_insert_ne in Hq by congruence.
      apply (erase_start _ _ q He) in Hq. unfold m in Hq. cbn in Hq. by rewrite !lookup_insert_ne in Hq by congruence.
  - split; [exact Hlive|]. split; [cbn; apply lookup_insert_eq|]. split_and!; done.
Qed.

(** C6: [sel4utils_reserve_range_at] on a range of whole pages.  It returns null,
    with the records, the list and the heap as they were, exactly when there is
    no memory for the node or some page is taken.  Otherwise it returns a new
    node for the range, in its place in the list, and the pages of the range,
    and no others, are reserved; all reservations stay sorted and disjoint.  The
    one exception is an empty range for which the walk over the tables, run from
    this state, is refused memory for a table: the call does not fail, an
    assertion stops the program. *)
Theorem reserve_range_at_spec (s : St) (l : list Z) (a b newrights newcacheable : Z) :
  res_ok s l -> 0 <= a < b -> b <= pages ->
  reserve_outcome s l a b newrights newcacheable
    (sel4utils_reserve_range_at (addr a) (addr b - addr a) newrights newcacheable s).
Proof. exact (reserve_range_at_ok s l a b newrights newcacheable). Qed.

(** *** Freeing *)

Lemma not_own_cases (s : St) (q : Z) : own s q = false -> (recorded s q).1 = EMPTY \/ (recorded s q).1 = RESERVED.
Proof.
  intros Hown%own_stuck. unfold recorded. rewrite decide_False by exact Hown. cbn [fst].
  unfold is_ptr in Hown. destruct (decide (entry s 3 q = EMPTY)); [by left|]. right.
  destruct (decide (entry s 3 q = RESERVED)); tauto.
Qed.

(** Pages of another reservation lie elsewhere. *)
Lemma ranges_apart (s : St) (l : list Z) (p q a b c d x : Z) :
  res_ok s l -> p ∈ l -> q ∈ l -> p <> q -> range_of (reservations s) p a b -> range_of (reservations s) q c d ->
  c <= x < d -> ~ (a <= x < b).
Proof.
  intros H Hp Hq Hne (Hps & Hpe & _) (Hqs & Hqe & _) Hx Hx'.
  apply (ro_disjoint _ _ H p q Hp Hq Hne); rewrite ?Hps, ?Hpe, ?Hqs, ?Hqe, addr_lt; lia.
Qed.

Lemma res_ok_remove (s s' : St) (l : list Z) (p a b : Z) :
  res_ok s l -> p ∈ l -> range_of (reservations s) p a b -> wf s' -> head_is s' (without p l) ->
  (forall q, q <> p -> start_of (reservations s') q = start_of (reservations s) q /\
    end_of (reservations s') q = end_of (reservations s) q) ->
  (forall q, is_Some (reservations s' !! q) -> q ∈ live_blocks (world s')) ->
  (forall q, 0 <= q < pages -> ~ (a <= q < b) -> recorded s' q = recorded s q) ->
  res_ok s' (without p l).
Proof.
  intros H Hp Hr Hwf Hc Hn Hlive Hout.
  assert (Hmem : forall q, q ∈ without p l <-> q <> p /\ q ∈ l) by (intros q; unfold without; rewrite list_elem_of_filter; done).
  split; try done.
  - apply NoDup_filter, (ro_nodup _ _ H).
  - eapply (descending_ext (start_of (reservations s))).
    + intros q [Hq _]%Hmem. symmetry. by apply Hn.
    + unfold descending, without. pose proof (ro_sorted _ _ H) as Hs. unfold descending in Hs.
      clear -Hs. induction Hs as [|q l Hs IH Hall]; [constructor|].
      destruct (decide (q <> p)); [rewrite filter_cons_True by done|by rewrite filter_cons_False by done].
      constructor; [done|]. rewrite Forall_forall in Hall |- *. intros x [_ Hx]%list_elem_of_filter. by apply Hall.
  - intros q [Hne Hq]%Hmem. destruct (ro_range _ _ H q Hq) as (c & d & Hqr & Ht).
    exists c, d. split; [eapply range_start; [..|exact Hqr]; by apply Hn|].
    intros x Hx. rewrite Hout; [by apply Ht|destruct Hqr as (_ & _ & ? & ?); lia|].
    eapply (ranges_apart s l p q); done.
  - intros x y [Hx Hxl]%Hmem [Hy Hyl]%Hmem. destruct (Hn x Hx) as [-> ->], (Hn y Hy) as [-> ->].
    by apply (ro_disjoint _ _ H).
Qed.

(** What clearing the pages of a reservation does: see [free_reservation_spec]. *)
Definition emptied (s s' : St) (a b m : Z) : Prop :=
  a <= m <= b /\
  (forall q, a <= q < m -> own s q = true /\ (recorded s q).1 = RESERVED /\ recorded s' q = (EMPTY, 0)) /\
  (forall q, 0 <= q < pages -> ~ (a <= q < m) -> recorded s' q = recorded s q) /\
  (m < b -> own s m = false \/ (recorded s m).1 <> RESERVED).

Lemma step_clear_reserved (s s' : St) (q : Z) : (recorded s q).1 <> EMPTY ->
  step_clear true (placed s q) = Some (placed s' q) ->
  own s q = true /\ (recorded s q).1 = RESERVED /\ recorded s' q = (EMPTY, 0).
Proof.
  intros Hne. pose proof (not_own_cases s q) as Hno. unfold step_clear, placed. cbn [fst snd].
  destruct (own s q).
  - destruct (Z.eqb_spec (recorded s q).1 RESERVED) as [Heq|_]; cbn [negb andb]; [|congruence].
    intros Hs. split; [reflexivity|]. split; [exact Heq|]. congruence.
  - destruct (Hno eq_refl) as [|Heq]; [contradiction|]. rewrite (proj2 (Z.eqb_eq _ _) Heq). congruence.
Qed.

Lemma step_clear_stops (s : St) (q : Z) :
  step_clear true (placed s q) = None -> own s q = false \/ (recorded s q).1 <> RESERVED.
Proof.
  unfold step_clear, placed. cbn [fst snd]. destruct (own s q); [|by left].
  destruct (Z.eqb_spec (recorded s q).1 RESERVED); cbn [negb andb]; [congruence|by right].
Qed.

Lemma ran_emptied (s s' : St) (a b e : Z) : 0 <= a -> b <= pages -> (forall q, a <= q < b -> (recorded s q).1 <> EMPTY) ->
  ran (step_clear true) False (placed s) (placed s') a b e -> exists m, emptied s s' a b m.
Proof.
  intros Ha Hb Htaken (m & Hm & Hin & Hout & Hend). exists m. split; [exact Hm|]. split; [|split].
  - intros q Hq. apply step_clear_reserved; [apply Htaken; lia|by apply Hin].
  - intros q Hq Hnq. specialize (Hout q Hq Hnq). unfold placed in Hout. congruence.
  - intros Hlt. destruct Hend as [[_ ->]|(_ & _ & [Hnone|[]])]; [lia|]. by apply step_clear_stops.
Qed.

Lemma emptied_ext (s s1 s2 : St) (a b m : Z) :
  (forall q, recorded s2 q = recorded s1 q) -> emptied s s1 a b m -> emptied s s2 a b m.
Proof.
  intros H (Hm & Hin & Hout & Hend). split; [done|]. split; [|split; [|done]]; intros q Hq; rewrite H; auto.
Qed.

(** The last step: the node is out of the list, and is freed if it is malloc's. *)
Lemma release_ok (s s2 : St) (l : list Z) (p a b m : Z) (r : sel4utils_res_t) :
  res_ok s l -> p ∈ l -> reservations s !! p = Some r -> range_of (reservations s) p a b -> wf s2 ->
  head_is s2 (without p l) -> erase <$> reservations s2 = erase <$> reservations s ->
  live_blocks (world s2) = live_blocks (world s) -> emptied s s2 a b m ->
  exists s', (let! res := load_res p in if negb (malloced res =? 0) then free_res p else ret tt) s2 = Ok (tt, s') /\
    res_ok s' (without p l) /\ emptied s s' a b m /\
    live_blocks (world s') = (if malloced r =? 0 then live_blocks (world s) else live_blocks (world s) ∖ {[p]}).
Proof.
  intros H Hp Hr Hrange Hwf2 Hc2 He2 Hlive2 Hpages.
  destruct (erase_lookup _ _ p r He2 Hr) as [n Hn]. rewrite (bind_ok _ _ _ _ _ (load_res_ok s2 p _ Hn)).
  change (malloced (with_next n r)) with (malloced r).
  assert (Hplive : p ∈ live_blocks (world s)) by (apply (ro_live _ _ H); by rewrite Hr).
  assert (Hnodes : forall q, start_of (reservations s2) q = start_of (reservations s) q /\
    end_of (reservations s2) q = end_of (reservations s) q /\
    (is_Some (reservations s2 !! q) <-> is_Some (reservations s !! q))) by (intros q; by apply erase_start).
  assert (Hout : forall s' : St, (forall q, recorded s' q = recorded s2 q) ->
      forall q, 0 <= q < pages -> ~ (a <= q < b) -> recorded s' q = recorded s q).
  { intros s' Hs' q Hq Hnq. rewrite Hs'. destruct Hpages as (Hm & _ & Ho & _). apply Ho; lia. }
  destruct (malloced r =? 0); cbn [negb].
  - exists s2. split; [reflexivity|]. split; [|split; [exact Hpages|exact Hlive2]].
    apply (res_ok_remove s s2 l p a b H Hp Hrange Hwf2 Hc2); [| |by apply Hout].
    + intros q _. by destruct (Hnodes q) as (-> & -> & _).
    + intros q Hq. rewrite Hlive2. by apply (ro_live _ _ H), Hnodes.
  - destruct (free_res_ok s2 p) as (w3 & Hfree & Hl3 & Hlev3); [by rewrite Hlive2|].
    set (s3 := with_res (delete p (reservations s2)) (with_world w3 s2)) in *.
    assert (Hrec3 : forall q, recorded s3 q = recorded s2 q) by (intros q; by apply recorded_same_tables).
    assert (Hlive3 : live_blocks (world s3) = live_blocks (world s) ∖ {[p]}) by (rewrite <- Hlive2; exact Hl3).
    exists s3. split; [exact Hfree|]. split; [|split; [by eapply emptied_ext|exact Hlive3]].
    apply (res_ok_remove s s3 l p a b H Hp Hrange); [by apply with_res_wf, with_world_wf| | | |by apply Hout].
    + unfold head_is. cbn. eapply chain_ext; [|exact Hc2].
      intros q [Hq _]%list_elem_of_filter. by rewrite lookup_delete_ne.
    + intros q Hq. destruct (Hnodes q) as (<- & <- & _). unfold start_of, end_of. cbn. by rewrite lookup_delete_ne.
    + intros q Hq. rewrite Hlive3. change (reservations s3) with (delete p (reservations s2)) in Hq.
      destruct (decide (p = q)) as [->|Hne]; [by rewrite lookup_delete_eq in Hq; destruct Hq|].
      rewrite lookup_delete_ne in Hq by done. apply elem_of_difference. split; [by apply (ro_live _ _ H), Hnodes|].
      by intros ->%elem_of_singleton.
Qed.

Lemma range_of_node (s : St) (l : list Z) (p a b : Z) (r : sel4utils_res_t) :
  res_ok s l -> p ∈ l -> reservations s !! p = Some r -> start r = addr a -> end_ r = addr b ->
  range_of (reservations s) p a b /\ forall q, a <= q < b -> (recorded s q).1 <> EMPTY.
Proof.
  intros H Hp Hr Hs He. destruct (ro_range _ _ H p Hp) as (c & d & Hcd & Ht).
  pose proof Hcd as (Hs' & He' & _). unfold start_of, end_of in Hs', He'. rewrite Hr in Hs', He'. cbn in Hs', He'.
  rewrite Hs in Hs'. rewrite He in He'. apply addr_inj in Hs', He'. by subst.
Qed.

(** C35: [sel4utils_free_reservation] takes the node out of the list, which stays
    sorted, disjoint and linked, and frees it if it came from malloc; the pages
    of the range are emptied in order, but only up to the first page that is
    mapped or that was reserved as part of a whole block of entries: from there
    on they stay taken, with no reservation to free them by. *)
Theorem free_reservation_spec (s : St) (l : list Z) (p a b : Z) (r : sel4utils_res_t) :
  res_ok s l -> p ∈ l -> reservations s !! p = Some r -> start r = addr a -> end_ r = addr b ->
  exists m s', sel4utils_free_reservation p s = Ok (tt, s') /\ res_ok s' (without p l) /\ emptied s s' a b m /\
    live_blocks (world s') = (if malloced r =? 0 then live_blocks (world s) else live_blocks (world s) ∖ {[p]}).
Proof.
  intros H Hp Hr Hs He.
  destruct (range_of_node s l p a b r H Hp Hr Hs He) as [Hrange Htaken]. pose proof Hrange as (_ & _ & Hab & Hb).
  unfold sel4utils_free_reservation. rewrite (bind_ok _ _ _ _ _ (load_res_ok s p r Hr)), Hs, He.
  destruct (clear_entries_range_ok s a b true (ro_wf _ _ H) ltac:(lia) Hb)
    as (e & s1 & Heq & Hwf1 & Hres1 & Hbl1 & [v Hd1] & Hran).
  destruct (ran_emptied s s1 a b e ltac:(lia) Hb Htaken Hran) as [m Hm]. clear Hran.
  rewrite (bind_ok _ _ _ _ _ Heq). clear Heq.
  assert (Hc1 : head_is s1 l) by (unfold head_is; rewrite Hres1, Hd1; apply (ro_chain _ _ H)).
  destruct (remove_reservation_ok s1 l p Hc1 (ro_nodup _ _ H) Hp) as (s2 & Hrem & Hsame & Hc2).
  rewrite (bind_ok _ _ _ _ _ Hrem). clear Hrem.
  pose proof Hsame as (He2 & _ & _ & Hw2 & h & Hd2).
  destruct (release_ok s s2 l p a b m r H Hp Hr Hrange) as (s' & Hrel & Hok & Hem & Hlive).
  - by eapply same_but_list_wf.
  - exact Hc2.
  - rewrite He2, Hres1. reflexivity.
  - rewrite Hw2, <- !heap_other. exact Hbl1.
  - eapply emptied_ext; [|exact Hm]. intros q. by apply same_but_list_recorded.
  - exists m, s'. split; [exact Hrel|]. split; [exact Hok|]. split; [exact Hem|exact Hlive].
Qed.

End ops.

(** ** The theorems at a small system *)

#[export] Instance toy_pair_malloc : Malloc (nat * toy_heap) := {|
  malloc bytes w := res_bind (malloc bytes w.2) (fun '(p, h) => Ok (p, (w.1, h)));
  free p w := res_bind (free p w.2) (fun '(_, h) => Ok (tt, (w.1, h)))
|}.

#[export] Program Instance toy_pair_malloc_laws : MallocLaws (nat * toy_heap) := {| live_blocks w := th_live w.2 |}.
Next Obligation.
  intros bytes [n h]. destruct (malloc_law bytes h) as (p & h' & Hm & H). exists p, (n, h').
  split; [|exact H]. unfold malloc at 1, toy_pair_malloc. cbn [fst snd]. by rewrite Hm.
Qed.
Next Obligation.
  intros p [n h] Hp. destruct (free_law (MallocLaws := toy_malloc_laws) p h Hp) as (h' & Hf & H). exists (n, h').
  split; [|exact H]. unfold free at 1, toy_pair_malloc. cbn [fst snd]. by rewrite Hf.
Qed.

#[export] Instance toy_pair_heap : VspaceHeap (nat * toy_heap).
Proof.
  split; [done| |].
  - intros bytes d [n h] p [n' h']. unfold malloc at 1, toy_pair_malloc. cbn [fst snd].
    destruct (malloc bytes h) as [[q h0]|]; cbn [res_bind]; [|discriminate].
    intros [=]. by subst.
  - intros p d [n h] [n' h']. unfold free at 1, toy_pair_malloc. cbn [fst snd].
    destruct (free p h) as [[q h0]|]; cbn [res_bind]; [|discriminate]. intros [=]. by subst.
Qed.

Lemma toy_space_ok : res_ok toy_space [].
Proof.
  split; [exact toy_space_wf|done|constructor|constructor| |by intros p []%not_elem_of_nil|by intros p q []%not_elem_of_nil].
  intros p Hp. by destruct Hp.
Qed.

(** One reservation, of four pages from 256 MiB on. *)
Definition toy_reserved : vspace_mem (nat * toy_heap) :=
  match sel4utils_reserve_range_at 268435456 16384 7 1 toy_space with Ok (_, s) => s | _ => toy_space end.

Example toy_reserved_at : sel4utils_reserve_range_at 268435456 16384 7 1 toy_space = Ok (1, toy_reserved).
Proof. vm_compute. reflexivity. Qed.

Lemma toy_reserved_ok : res_ok toy_reserved [1].
Proof.
  destruct (reserve_range_at_ok toy_space [] 65536 65540 7 1 toy_space_ok ltac:(lia) ltac:(unfold pages; lia))
    as [(s' & Hrun & _)|(_ & [[Hrun _]|(p & r & s' & Hrun & _ & _ & Hok & _)])];
    change (addr 65540 - addr 65536) with 16384 in Hrun; change (addr 65536) with 268435456 in Hrun;
    rewrite toy_reserved_at in Hrun; [congruence|congruence|].
  injection Hrun as <- <-. exact Hok.
Qed.

Lemma reserve_range_at_spec_witness :
  reserve_outcome toy_reserved [1] 65540 65544 7 1
    (sel4utils_reserve_range_at (addr 65540) (addr 65544 - addr 65540) 7 1 toy_reserved).
Proof. apply (reserve_range_at_spec toy_reserved [1] 65540 65544 7 1); [exact toy_reserved_ok|lia|unfold pages; lia]. Defined.

Lemma find_reserve_spec_witness : exists r, find_reserve 268435457 toy_reserved = Ok (r, toy_reserved) /\
  ((r = 0 /\ forall p, p ∈ [1] -> ~ covers (reservations toy_reserved) 268435457 p) \/
   (r ∈ [1] /\ covers (reservations toy_reserved) 268435457 r /\
    forall p, p ∈ [1] -> covers (reservations toy_reserved) 268435457 p -> p = r)).
Proof. apply (find_reserve_spec toy_reserved [1] 268435457). exact toy_reserved_ok. Defined.

Lemma free_reservation_spec_witness : exists m s',
  sel4utils_free_reservation 1 toy_reserved = Ok (tt, s') /\ res_ok s' [] /\
  emptied toy_reserved s' 65536 65540 m /\ live_blocks (world s') = live_blocks (world toy_reserved) ∖ {[1]}.
Proof.
  destruct (free_reservation_spec toy_reserved [1] 1 65536 65540 (Res 268435456 268451840 7 1 1 false 0))
    as (m & s' & Hrun & Hok & Hem & Hlive);
    [exact toy_reserved_ok|by apply list_elem_of_singleton|vm_compute; reflexivity|reflexivity|reflexivity|].
  exists m, s'. split; [exact Hrun|]. split; [exact Hok|]. split; [exact Hem|exact Hlive].
Defined.

(** With pages 65536 to 65539 reserved, the next three pages of 2 MiB are found
    at the next multiple of 2 MiB. *)
Example find_after_reserved : exists s',
  find_range 0x40000000 3 21 toy_reserved = Ok (addr 66048, s') /\ last_allocated (data s') = addr 67584.
Proof. eexists. split; [vm_compute; reflexivity|]. reflexivity. Qed.

(** [sel4utils_reserve_range_aligned] writes to the node after it has freed it,
    when there is no room for the range. *)
Example no_room_use_after_free :
  sel4utils_reserve_range_aligned 0x10400000 false 0x800000 21 7 1 toy_space = Fault NullPointer.
Proof. vm_compute. reflexivity. Qed.

(** A reservation of an aligned 2 MiB page is never cleared: after it is freed
    its pages are still taken, with no reservation. *)
Example large_reservation_stays : exists p v s1 s2,
  sel4utils_reserve_range_aligned 0x40000000 false 0x200000 21 7 1 toy_space = Ok ((p, Some v), s1) /\
  sel4utils_free_reservation p s1 = Ok (tt, s2) /\
  recorded s2 (v / 4096) = (RESERVED, 0) /\ find_reserve v s2 = Ok (0, s2).
Proof. do 4 eexists. split; [vm_compute; reflexivity|]. split; [vm_compute; reflexivity|]. vm_compute. done. Qed.

(** [sel4utils_reserve_range_at] walks the range it was given in steps of a page
    from its start, but reserves all the pages the range touches: the page of its
    end is not looked at when the start is further into its own page, and an
    assertion fails if that page is taken. *)
Example unaligned_range_asserts : exists s1,
  sel4utils_reserve_range_at 268439552 4096 7 1 toy_space = Ok (1, s1) /\
  sel4utils_reserve_range_at (268439552 - 512) 768 7 1 s1 = Fault AssertFailed.
Proof. eexists. split; vm_compute; reflexivity. Qed.

(** With memory for tables left the assertion is not reached: this range is
    reserved, and [tables_run_out] is false of it. *)
Example tables_do_not_run_out : ~ tables_run_out toy_reserved 65540 65544 7 1.
Proof.
  intros (p & w' & s1 & Hmal & _ & Hwalk & _). vm_compute in Hmal. injection Hmal as <- <-.
  vm_compute in Hwalk. discriminate Hwalk.
Qed.

(** With none left the call does not fail: the assertion stops the program. *)
Example no_tables_stops :
  sel4utils_reserve_range_at 268435456 16384 7 1 (with_world (1000%nat, ToyHeap 10 ∅) toy_space) = Fault AssertFailed.
Proof. vm_compute. reflexivity. Qed.

(** The last free page before the kernel's part is not found, while the page
    before it is. *)
Example last_range_missed : let last p := set_data (set_last_allocated (addr p) (data toy_space)) toy_space in
  all_empty (last 262143) 262143 262144 /\ addr 262144 = KERNEL_RESERVED_START 0x40000000 /\
  find_range 0x40000000 1 12 (last 262143) = Ok (0, last 262143) /\
  exists s', find_range 0x40000000 1 12 (last 262142) = Ok (addr 262142, s').
Proof.
  split; [|split; [reflexivity|split; [vm_compute; reflexivity|eexists; vm_compute; reflexivity]]].
  intros p Hp. replace p with 262143 by lia. vm_compute. reflexivity.
Qed.
