(* ===== verification/Mapping.v ===== *)
(** Mapping pages: libsel4vspace/src/sel4_arch/x86_64/mapping.c (the paging
    structures of x86_64), libsel4utils/src/mapping.c and [sel4utils_map_page_pd]
    of vspace.c.

    The kernel refuses to map a page while a paging structure on the way to it is
    missing, and says which level; the code makes one and tries again.  The
    kernel's calls and constants are parameters; the configuration has neither
    VTX nor an IOMMU. *)
From S2P Require Import Prelude Cspacepath Interfaces Objects Vka Vspace.

(** What libsel4 provides for x86_64.  Arguments of the calls: the capability,
    the root, the address, then rights (of a page) and attributes. *)
Class MappingKernel (S : Type) : Type := {
  seL4_X86_Page_Map : Z -> Z -> Z -> Z -> Z -> M S Z;
  seL4_X86_PageTable_Map : Z -> Z -> Z -> Z -> M S Z;
  seL4_X86_PageDirectory_Map : Z -> Z -> Z -> Z -> M S Z;
  seL4_X86_PDPT_Map : Z -> Z -> Z -> Z -> M S Z;
  seL4_MappingFailedLookupLevel : M S Z
}.

Class MappingConstants : Type := {
  SEL4_MAPPING_LOOKUP_NO_PT : Z;
  SEL4_MAPPING_LOOKUP_NO_PD : Z;
  SEL4_MAPPING_LOOKUP_NO_PDPT : Z;
  seL4_FailedLookup : Z;
  seL4_DeleteFirst : Z;
  seL4_AllRights : Z;
  seL4_ARCH_Default_VMAttributes : Z;
  seL4_ARCH_Uncached_VMAttributes : Z;
  EINVAL : Z
}.

Record vspace_map_obj_t (S : Type) : Type := MapObj {
  obj_type : Z;
  obj_size_bits : Z;
  map_fn : Z -> Z -> Z -> Z -> M S Z
}.
Arguments MapObj {S} _ _ _.
Arguments obj_type {S} _.
Arguments obj_size_bits {S} _.
Arguments map_fn {S} _.

Section map_obj.
Context {S : Type} `{MK : !MappingKernel S} `{MC : !MappingConstants} `{SC : !SeL4Constants}.

(** The error, and the object if there is none. *)
Definition vspace_get_map_obj (failed_bits : Z) : Z * option (vspace_map_obj_t S) :=
  if failed_bits =? SEL4_MAPPING_LOOKUP_NO_PT then
    (0, Some (MapObj seL4_X86_PageTableObject seL4_PageTableBits seL4_X86_PageTable_Map))
  else if failed_bits =? SEL4_MAPPING_LOOKUP_NO_PD then
    (0, Some (MapObj seL4_X86_PageDirectoryObject seL4_PageDirBits seL4_X86_PageDirectory_Map))
  else if failed_bits =? SEL4_MAPPING_LOOKUP_NO_PDPT then
    (0, Some (MapObj seL4_X86_PDPTObject seL4_PDPTBits seL4_X86_PDPT_Map))
  else (EINVAL, None).

Definition vspace_map_obj (obj : vspace_map_obj_t S) (cap vspace vaddr attr : Z) : M S Z :=
  map_fn obj cap vspace vaddr attr.
Lemma map_obj_found (l : Z) :
  l ∈@{gset Z} {[SEL4_MAPPING_LOOKUP_NO_PT; SEL4_MAPPING_LOOKUP_NO_PD; SEL4_MAPPING_LOOKUP_NO_PDPT]} ->
  exists obj, vspace_get_map_obj l = (0, Some obj).
Proof.
  intros Hl. unfold vspace_get_map_obj.
  destruct (Z.eqb_spec l SEL4_MAPPING_LOOKUP_NO_PT); [by eexists|].
  destruct (Z.eqb_spec l SEL4_MAPPING_LOOKUP_NO_PD); [by eexists|].
  destruct (Z.eqb_spec l SEL4_MAPPING_LOOKUP_NO_PDPT); [by eexists|]. set_solver.
Qed.
End map_obj.

Lemma three_levels (A : gset Z) (a b c : Z) : A ⊆ {[a; b; c]} -> (size A <= 3)%nat.
Proof.
  intros HA. etrans; [by apply subseteq_size|].
  assert (Hle : forall A B : gset Z, (size (A ∪ B) <= size A + size B)%nat).
  { intros X Y. rewrite size_union_alt. pose proof (subseteq_size (Y ∖ X) Y ltac:(set_solver)). lia. }
  etrans; [apply Hle|]. rewrite size_singleton. pose proof (Hle {[a]} {[b]}) as H2.
  rewrite !size_singleton in H2. lia.
Qed.

(** One level less. *)
Lemma missing_less (l : Z) (a b : gset Z) : l ∈ a -> b ⊆ a -> (l ∉ b) -> (size b < size a)%nat.
Proof. intros Ha Hb Hl. apply subset_size. split; [done|]. intros Hab. by apply Hl, Hab. Qed.

(** libsel4utils/sel4_arch_include/x86_64/sel4utils/sel4_arch/vspace.h *)
Definition VSPACE_MAP_PAGING_OBJECTS : nat := 5.

(** Rounds of the loop of [map_page]: x86_64 has three levels below the root, and
    the page itself is mapped last. *)
Definition max_rounds : nat := 4.

Section mapping.
Context {W : Type} `{MK : !MappingKernel W} `{MC : !MappingConstants} `{SC : !SeL4Constants} `{KO : !KernelOps W}.

(** The results: an error, the array [objects] if there is one, the count. *)
Definition map_result : Type := Z * option (list vka_object_t) * Z.

Definition note_object (objects : option (list vka_object_t)) (num_objects : Z) (object : vka_object_t) :
    res (option (list vka_object_t)) :=
  match objects with
  | None => Ok None
  | Some l => let? l := arr_set l num_objects object in Ok (Some l)
  end.

Section map_page.
Context (vka : option (vka_t W)) (map_page_fn : Z -> Z -> Z -> Z -> Z -> M W Z)
  (map_obj_fn : Z -> Z * option (vspace_map_obj_t W)) (root frame vaddr rights attr : Z).

(** The loop of [map_page], with the [error] of the last attempt. *)
Fixpoint map_page_loop (fuel : nat) (error : Z) (objects : option (list vka_object_t)) (num_objects : Z) : M W map_result :=
  if negb (error =? seL4_FailedLookup) then ret (error, objects, num_objects) else
  match fuel with
  | O => stop OutOfFuel
  | S fuel =>
      let! level := seL4_MappingFailedLookupLevel in
      match map_obj_fn level with
      | (0, Some obj) =>
          let! (error, object) := vka_alloc_object vka (obj_type obj) (obj_size_bits obj) no_object in
          let! objects := lift (note_object objects num_objects object) in
          if negb (error =? 0) then ret (error, objects, num_objects) else
          let! error := vspace_map_obj obj (cptr object) root vaddr seL4_ARCH_Default_VMAttributes in
          if error =? seL4_DeleteFirst then
            let! _ := vka_free_object vka object in
            let! error := map_page_fn frame root vaddr rights attr in
            map_page_loop fuel error objects num_objects
          else
            let num_objects := num_objects + 1 in
            if negb (error =? 0) then ret (error, objects, num_objects) else
            let! error := map_page_fn frame root vaddr rights attr in
            map_page_loop fuel error objects num_objects
      | _ => stop AssertFailed
      end
  end.
End map_page.

(** [num_objects] is the caller's, who gets the count back. *)
Definition map_page (vka : option (vka_t W)) (map_page_fn : Z -> Z -> Z -> Z -> Z -> M W Z)
    (map_obj_fn : Z -> Z * option (vspace_map_obj_t W)) (root frame vaddr rights : Z) (cacheable : bool)
    (objects : option (list vka_object_t)) (num_objects : Z) : M W map_result :=
  match vka with
  | None => ret (EINVAL, objects, num_objects)
  | Some _ =>
      if root =? 0 then ret (EINVAL, objects, num_objects) else
      let attr := if cacheable then seL4_ARCH_Default_VMAttributes else seL4_ARCH_Uncached_VMAttributes in
      let! error := map_page_fn frame root vaddr rights attr in
      map_page_loop vka map_page_fn map_obj_fn root frame vaddr rights attr max_rounds error objects 0
  end.

Definition sel4utils_map_page (vka : option (vka_t W)) (vspace_root frame vaddr rights : Z) (cacheable : bool)
    (objects : option (list vka_object_t)) (num_objects : Z) : M W map_result :=
  map_page vka seL4_X86_Page_Map vspace_get_map_obj vspace_root frame vaddr rights cacheable objects num_objects.

(** The array of the leaky version is on its stack, not initialised. *)
Definition sel4utils_map_page_leaky (vka : option (vka_t W)) (pd frame vaddr rights : Z) (cacheable : bool) : M W Z :=
  let! (error, _, _) := sel4utils_map_page vka pd frame vaddr rights cacheable (Some (replicate 3 no_object)) 3 in
  ret error.

(** libsel4vspace/include/vspace/vspace.h: the callback of the address space, if any. *)
Definition vspace_maybe_call_allocated_object (allocated_object : option (vka_object_t -> M W unit)) (object : vka_object_t) : M W unit :=
  match allocated_object with None => ret tt | Some f => f object end.

Fixpoint call_allocated (allocated_object : option (vka_object_t -> M W unit)) (objects : list vka_object_t) : M W unit :=
  match objects with
  | [] => ret tt
  | object :: objects =>
      let! _ := vspace_maybe_call_allocated_object allocated_object object in
      call_allocated allocated_object objects
  end.

Definition sel4utils_map_page_pd (data_vka : option (vka_t W)) (vspace_root : Z)
    (allocated_object : option (vka_object_t -> M W unit)) (cap vaddr rights : Z) (cacheable : bool) (size_bits : Z) : M W Z :=
  let objects := replicate VSPACE_MAP_PAGING_OBJECTS no_object in
  let! (error, objects, num) := sel4utils_map_page data_vka vspace_root cap vaddr rights cacheable
    (Some objects) (Z.of_nat VSPACE_MAP_PAGING_OBJECTS) in
  if negb (error =? 0) then ret (-1) else
  let! _ := call_allocated allocated_object (take (Z.to_nat num) (default [] objects)) in
  ret seL4_NoError.

(** ** Mapping a page once more, at an address of the allocator's choice

    [vspace_map_pages] and the like are the operations of the [vspace_t] passed;
    they take an array of capabilities, one of cookies if there is any, the
    rights, a number of pages, the bits of their size and whether to cache them. *)
Section dup.
Context (vka : option (vka_t W)) (seL4_CNode_Copy : Z -> Z -> Z -> Z -> Z -> Z -> Z -> M W Z)
  (vspace_map_pages : list Z -> option (list Z) -> Z -> Z -> Z -> bool -> M W Z) (vspace_get_cap : Z -> M W Z)
  (vspace_unmap_pages : Z -> Z -> Z -> vka_choice W -> M W unit).

(** A path that was not written is read uninitialised; its fields are then 0. *)
Definition no_path : cspacepath_t := Cspacepath 0 0 0 0 0 0 0.

Definition sel4utils_dup_and_map (page size_bits : Z) : M W Z :=
  let! (error, copy_path) := vka_cspace_alloc_path vka in
  let copy_path := default no_path copy_path in
  if negb (error =? seL4_NoError) then ret 0 else
  let! page_path := vka_cspace_make_path vka page in
  let! error := vka_cnode_copy seL4_CNode_Copy copy_path page_path seL4_AllRights in
  if negb (error =? seL4_NoError) then
    let! _ := vka_cspace_free vka (capPtr copy_path) in ret 0
  else
    let! mapping := vspace_map_pages [capPtr copy_path] None seL4_AllRights 1 size_bits true in
    if mapping =? 0 then
      let! _ := vka_cnode_delete copy_path in
      let! _ := vka_cspace_free vka (capPtr copy_path) in ret 0
    else ret mapping.

Definition sel4utils_unmap_dup (mapping size_bits : Z) : M W unit :=
  let! copy := vspace_get_cap mapping in
  let! _ := cassert (negb (copy =? 0)) in
  let! _ := vspace_unmap_pages mapping 1 size_bits VSPACE_PRESERVE in
  let! copy_path := vka_cspace_make_path vka copy in
  let! _ := vka_cnode_delete copy_path in
  vka_cspace_free vka copy.
End dup.
End mapping.

(** ** What the kernel and the allocator promise *)

(** [missing w root vaddr]: the levels of paging structures that are not there.
    [unused_cap w slot]: the slot has no structure that is mapped.  Mapping a page
    changes neither, and a failed lookup is of a missing level.  Mapping a
    structure removes the level it is for, if it is mapped or already there.
    Neither mapping nor allocating unmaps anything, and deleting an unused
    structure does not either. *)
Class PagingLaws (W : Type) `{MK : !MappingKernel W} `{MC : !MappingConstants} `{SC : !SeL4Constants} `{KO : !KernelOps W}
    (v : vka_t W) `{VA : !VkaAccounting W v} : Type := {
  missing : W -> Z -> Z -> gset Z;
  unused_cap : W -> Z -> Prop;
  lookup_is_error : seL4_FailedLookup <> 0 /\ seL4_DeleteFirst <> 0;
  missing_levels : forall w root vaddr,
    missing w root vaddr ⊆ {[SEL4_MAPPING_LOOKUP_NO_PT; SEL4_MAPPING_LOOKUP_NO_PD; SEL4_MAPPING_LOOKUP_NO_PDPT]};
  page_map_law : forall cap root vaddr rights attr w, exists e w', seL4_X86_Page_Map cap root vaddr rights attr w = Ok (e, w') /\
    live_slots w' = live_slots w /\ live_cookies w' = live_cookies w /\ missing w' root vaddr = missing w root vaddr /\
    (e = seL4_FailedLookup -> exists l, seL4_MappingFailedLookupLevel w' = Ok (l, w') /\ l ∈ missing w' root vaddr);
  structure_map_law : forall l obj cap root vaddr attr w, vspace_get_map_obj l = (0, Some obj) ->
    exists e w', map_fn obj cap root vaddr attr w = Ok (e, w') /\
    live_slots w' = live_slots w /\ live_cookies w' = live_cookies w /\ missing w' root vaddr ⊆ missing w root vaddr /\
    (e = 0 \/ e = seL4_DeleteFirst -> l ∉ missing w' root vaddr) /\ (e <> 0 -> unused_cap w cap -> unused_cap w' cap);
  alloc_object_law : forall t sz o w e o' w', vka_alloc_object (Some v) t sz o w = Ok (e, o', w') ->
    (forall root vaddr, missing w' root vaddr ⊆ missing w root vaddr) /\ (e = 0 -> unused_cap w' (cptr o'));
  free_object_law : forall o w w', unused_cap w (cptr o) -> vka_free_object (Some v) o w = Ok (tt, w') ->
    forall root vaddr, missing w' root vaddr ⊆ missing w root vaddr
}.

Section spec.
Context {W : Type} `{PL : PagingLaws W v}.

(** [objs] are what was taken from the allocator between two states: objects in
    new slots, with new cookies. *)
Record gained (w w' : W) (objs : list vka_object_t) : Prop := {
  gained_slots : live_slots w' = list_to_set (map cptr objs) ∪ live_slots w;
  gained_cookies : live_cookies w' = list_to_set (map ut objs) ∪ live_cookies w;
  gained_distinct : NoDup (map cptr objs) /\ NoDup (map ut objs);
  gained_new : forall o, o ∈ objs -> (cptr o ∉ live_slots w) /\ (ut o ∉ live_cookies w)
}.

Lemma gained_nil (w w' : W) : live_slots w' = live_slots w -> live_cookies w' = live_cookies w -> gained w w' [].
Proof.
  intros Hs Hc. split; cbn; [rewrite Hs; set_solver|rewrite Hc; set_solver|split; constructor|].
  by intros o ?%not_elem_of_nil.
Qed.

Lemma gained_trans (w1 w2 w3 : W) (l l' : list vka_object_t) : gained w1 w2 l -> gained w2 w3 l' -> gained w1 w3 (l ++ l').
Proof.
  intros [Hs1 Hc1 [Hd1 He1] Hn1] [Hs2 Hc2 [Hd2 He2] Hn2]. rewrite Hs1 in Hs2, Hn2. rewrite Hc1 in Hc2, Hn2.
  assert (Hn : forall o, o ∈ l' -> (cptr o ∉ live_slots w1) /\ (ut o ∉ live_cookies w1) /\
      (cptr o ∉ map cptr l) /\ (ut o ∉ map ut l)).
  { intros o Ho. destruct (Hn2 o Ho) as [H1 H2]. rewrite elem_of_union, elem_of_list_to_set in H1, H2. tauto. }
  split; rewrite ?map_app, ?list_to_set_app_L.
  - rewrite Hs2. rewrite (assoc_L (∪)). f_equal. apply (comm_L (∪)).
  - rewrite Hc2. rewrite (assoc_L (∪)). f_equal. apply (comm_L (∪)).
  - split; apply NoDup_app; (split; [done|]); (split; [|done]); intros x Hx (o & -> & Ho)%list_elem_of_fmap;
    destruct (Hn o Ho) as (_ & _ & ? & ?); done.
  - intros o [Ho|Ho]%elem_of_app; [by apply Hn1|]. destruct (Hn o Ho) as (? & ? & _). done.
Qed.

(** The caller's array after [objs] were noted from index [n] on. *)
Definition noted (objects objects' : option (list vka_object_t)) (n : nat) (objs : list vka_object_t) : Prop :=
  match objects, objects' with
  | None, None => True
  | Some l, Some l' => length l' = length l /\ take (n + length objs) l' = take n l ++ objs
  | _, _ => False
  end.
Definition room (objects : option (list vka_object_t)) (n : nat) : Prop :=
  match objects with None => True | Some l => (n <= length l)%nat end.

Lemma note_object_ok (objects : option (list vka_object_t)) (n : nat) (o : vka_object_t) : room objects (S n) ->
  exists objects', note_object objects (Z.of_nat n) o = Ok objects' /\ noted objects objects' n [] /\ noted objects objects' n [o].
Proof.
  destruct objects as [l|]; cbn; [|by exists None]. intros Hn. rewrite arr_set_in by lia. cbn. eexists. split; [done|].
  rewrite Nat2Z.id, length_insert. cbn. split; (split; [done|]).
  - rewrite Nat.add_0_r, app_nil_r. apply take_insert_ge. lia.
  - rewrite Nat.add_1_r, (take_S_r _ _ o) by (apply list_lookup_insert_eq; lia). f_equal. apply take_insert_ge. lia.
Qed.

Lemma noted_refl (objects : option (list vka_object_t)) (n : nat) : noted objects objects n [].
Proof. destruct objects; cbn; [|done]. by rewrite Nat.add_0_r, app_nil_r. Qed.

Lemma noted_trans (a b c : option (list vka_object_t)) (n : nat) (l l' : list vka_object_t) :
  noted a b n l -> noted b c (n + length l) l' -> noted a c n (l ++ l').
Proof.
  destruct a, b, c; cbn; try done. intros [L1 T1] [L2 T2]. split; [congruence|].
  rewrite length_app, Nat.add_assoc, T2, T1. by rewrite app_assoc.
Qed.

Lemma noted_room (a b : option (list vka_object_t)) (n k : nat) (l : list vka_object_t) : noted a b n l -> room a k -> room b k.
Proof. destruct a, b; cbn; try done. intros [L _]. lia. Qed.

(** What an attempt to map the page leaves for the next round. *)
Definition attempted (frame root vaddr rights attr e : Z) (w : W) : Prop :=
  (exists w0, seL4_X86_Page_Map frame root vaddr rights attr w0 = Ok (e, w)) /\
  (e = seL4_FailedLookup -> exists l, seL4_MappingFailedLookupLevel w = Ok (l, w) /\ l ∈ missing w root vaddr).

Lemma page_map_attempted (frame root vaddr rights attr : Z) (w : W) :
  exists e w', seL4_X86_Page_Map frame root vaddr rights attr w = Ok (e, w') /\ gained w w' [] /\
    missing w' root vaddr = missing w root vaddr /\ attempted frame root vaddr rights attr e w'.
Proof.
  destruct (page_map_law frame root vaddr rights attr w) as (e & w' & Hrun & Hs & Hc & Hm & Hf).
  exists e, w'. split; [done|]. split; [by apply gained_nil|]. split; [done|]. split; [by exists w|done].
Qed.

(** What [map_page_loop] ends with, started with [n] objects noted. *)
Definition map_outcome (frame root vaddr rights attr : Z) (w : W) (objects : option (list vka_object_t)) (n : nat)
    (run : res (map_result * W)) : Prop :=
  exists e objs objects' w', run = Ok (e, objects', Z.of_nat (n + length objs), w') /\ gained w w' objs /\
    noted objects objects' n objs /\ (length objs <= size (missing w root vaddr))%nat /\
    missing w' root vaddr ⊆ missing w root vaddr /\
    (e = 0 -> exists w0, seL4_X86_Page_Map frame root vaddr rights attr w0 = Ok (0, w')).

Lemma map_outcome_after (frame root vaddr rights attr : Z) (w w1 : W) (objects objects1 : option (list vka_object_t))
    (n : nat) (l : list vka_object_t) (run : res (map_result * W)) :
  gained w w1 l -> noted objects objects1 n l -> missing w1 root vaddr ⊆ missing w root vaddr ->
  (length l + size (missing w1 root vaddr) <= size (missing w root vaddr))%nat ->
  map_outcome frame root vaddr rights attr w1 objects1 (n + length l) run ->
  map_outcome frame root vaddr rights attr w objects n run.
Proof.
  intros Hg Hn Hm Hl (e & objs & objects' & w' & -> & Hg' & Hn' & Hl' & Hm' & He).
  exists e, (l ++ objs), objects', w'. rewrite length_app, Nat.add_assoc. split; [done|].
  split; [by eapply gained_trans|]. split; [by eapply noted_trans|]. split; [lia|]. split; [set_solver|done].
Qed.

Lemma map_page_loop_ok (frame root vaddr rights attr : Z) (fuel : nat) : forall e w objects n,
  attempted frame root vaddr rights attr e w -> (size (missing w root vaddr) <= fuel)%nat ->
  room objects (n + size (missing w root vaddr)) ->
  map_outcome frame root vaddr rights attr w objects n
    (map_page_loop (Some v) seL4_X86_Page_Map vspace_get_map_obj root frame vaddr rights attr fuel e objects (Z.of_nat n) w).
Proof.
  induction fuel as [|fuel IH]; intros e w objects n Hatt Hfuel Hroom; cbn [map_page_loop];
    destruct (Z.eqb_spec e seL4_FailedLookup) as [He|He]; cbn [negb].
  2,4: exists e, [], objects, w; rewrite Nat.add_0_r; split; [done|]; split; [by apply gained_nil|]; split; [apply noted_refl|];
    split; [cbn; lia|]; split; [done|]; intros ->; apply Hatt.
  all: destruct Hatt as [_ Hatt]; destruct (Hatt He) as (l & Hl & Hin).
  { exfalso. apply (elem_of_empty (C := gset Z) l). rewrite <- (size_empty_inv (missing w root vaddr)); [done|lia]. }
  assert (Hpos : (1 <= size (missing w root vaddr))%nat).
  { destruct (decide (size (missing w root vaddr) = 0%nat)) as [H0|]; [|lia]. apply size_empty_inv in H0. set_solver. }
  rewrite (bind_ok _ _ _ _ _ Hl). destruct (map_obj_found l (missing_levels w root vaddr l Hin)) as (obj & Hobj). rewrite Hobj.
  destruct (alloc_object_cases v (obj_type obj) (obj_size_bits obj) VKA_NO_PADDR false no_object w) as (e1 & o & w1 & Hrun1 & Hcase).
  change (vka_alloc_object_at_maybe_dev _ _ _ _ _ _ w) with (vka_alloc_object (Some v) (obj_type obj) (obj_size_bits obj) no_object w) in Hrun1.
  rewrite (bind_ok _ _ _ _ _ Hrun1). destruct (alloc_object_law _ _ _ _ _ _ _ Hrun1) as [Hm1 Hun1].
  destruct (note_object_ok objects n o) as (objects1 & Hnote & Hn0 & Hn1); [destruct objects; cbn in *; lia|].
  unfold bind at 1, lift at 1. rewrite Hnote. cbn [res_bind].
  destruct Hcase as [(-> & _ & _ & Ho & Hs & Hs1 & Hc & Hc1)|(He1 & -> & Hs1 & Hc1)].
  2:{ rewrite (proj2 (Z.eqb_neq _ _) He1). cbn [negb].
      exists e1, [], objects1, w1. rewrite Nat.add_0_r. split; [done|]. split; [by apply gained_nil|]. split; [done|].
      split; [cbn; lia|]. split; [apply Hm1|]. by intros ->. }
  change (0 =? 0) with true. cbn [negb]. unfold vspace_map_obj.
  destruct (structure_map_law l obj (cptr o) root vaddr seL4_ARCH_Default_VMAttributes w1 Hobj)
    as (e2 & w2 & Hrun2 & Hs2 & Hc2 & Hm2 & Hgone & Hun2).
  rewrite (bind_ok _ _ _ _ _ Hrun2).
  assert (Hm02 : missing w2 root vaddr ⊆ missing w root vaddr) by (etrans; [exact Hm2|apply Hm1]).
  destruct (Z.eqb_spec e2 seL4_DeleteFirst) as [He2|He2].
  - (* already there: the new one goes back *)
    destruct (free_object_cases v o w2 Ho) as (w3 & Hrun3 & Hs3 & Hc3); [set_solver|set_solver|].
    rewrite (bind_ok _ _ _ _ _ Hrun3).
    assert (Hm3 : missing w3 root vaddr ⊆ missing w2 root vaddr).
    { eapply free_object_law; [|exact Hrun3]. apply Hun2; [|by apply Hun1]. destruct lookup_is_error. congruence. }
    destruct (page_map_attempted frame root vaddr rights attr w3) as (e4 & w4 & Hrun4 & Hg4 & Hm4 & Hatt4).
    rewrite (bind_ok _ _ _ _ _ Hrun4).
    assert (Hless : (size (missing w4 root vaddr) < size (missing w root vaddr))%nat).
    { rewrite Hm4. apply (missing_less l); [done|by etrans|]. intros Hl3. apply (Hgone (or_intror He2)). by apply Hm3. }
    assert (Hg : gained w w4 []).
    { apply (gained_trans w w3 w4 [] []); [|exact Hg4]. apply gained_nil.
      - rewrite Hs3, Hs2, Hs1. set_solver.
      - rewrite Hc3, Hc2, Hc1. set_solver. }
    apply (map_outcome_after _ _ _ _ _ w w4 objects objects1 n []); [done|done| |cbn; lia|].
    + rewrite Hm4. by etrans.
    + rewrite Nat.add_0_r. apply IH; [done|lia|]. eapply noted_room; [exact Hn0|]. destruct objects; cbn in *; lia.
  - assert (Hg2 : gained w w2 [o]).
    { split; cbn; [rewrite Hs2, Hs1; set_solver|rewrite Hc2, Hc1; set_solver|split; apply NoDup_singleton|].
      intros o' ->%list_elem_of_singleton. done. }
    replace (Z.of_nat n + 1) with (Z.of_nat (n + length [o])) by (cbn; lia).
    destruct (Z.eqb_spec e2 0) as [He20|He20]; cbn [negb].
    2:{ exists e2, [o], objects1, w2. split; [done|]. split; [done|]. split; [done|]. split; [cbn; lia|]. split; [done|]. by intros ->. }
    destruct (page_map_attempted frame root vaddr rights attr w2) as (e4 & w4 & Hrun4 & Hg4 & Hm4 & Hatt4).
    rewrite (bind_ok _ _ _ _ _ Hrun4).
    assert (Hless : (size (missing w4 root vaddr) < size (missing w root vaddr))%nat).
    { rewrite Hm4. apply (missing_less l); [done|done|]. apply Hgone. by left. }
    apply (map_outcome_after _ _ _ _ _ w w4 objects objects1 n [o]); [|done| |cbn [length]; lia|].
    + rewrite <- (app_nil_r [o]). by eapply gained_trans.
    + by rewrite Hm4.
    + apply IH; [done|lia|]. eapply noted_room; [exact Hn1|]. destruct objects; cbn in *; lia.
Qed.

Lemma missing_three (w : W) (root vaddr : Z) : (size (missing w root vaddr) <= 3)%nat.
Proof. eapply three_levels, missing_levels. Qed.

(** C20: mapping a page ends, whatever levels of paging structures are missing,
    within the rounds the model gives it.  The count it returns and the first
    entries of the caller's array are exactly the objects that were taken from the
    allocator, at most one for each missing level; a structure that turned out to
    be there already went back.  A result of zero means the kernel mapped the
    page. *)
Theorem map_page_spec (root frame vaddr rights : Z) (cacheable : bool) (objects : option (list vka_object_t)) (num : Z) (w : W) :
  root <> 0 -> room objects (size (missing w root vaddr)) ->
  map_outcome frame root vaddr rights (if cacheable then seL4_ARCH_Default_VMAttributes else seL4_ARCH_Uncached_VMAttributes) w objects 0
    (sel4utils_map_page (Some v) root frame vaddr rights cacheable objects num w).
Proof.
  intros Hroot Hroom. unfold sel4utils_map_page, map_page. rewrite (proj2 (Z.eqb_neq _ _) Hroot). cbv zeta.
  set (attr := if cacheable then _ else _).
  destruct (page_map_attempted frame root vaddr rights attr w) as (e & w1 & Hrun & Hg & Hm & Hatt).
  rewrite (bind_ok _ _ _ _ _ Hrun).
  apply (map_outcome_after _ _ _ _ _ w w1 objects objects 0 []); [done|apply noted_refl|by rewrite Hm|cbn; by rewrite Hm|].
  apply (map_page_loop_ok _ _ _ _ _ max_rounds e w1 objects 0 Hatt).
  - pose proof (missing_three w1 root vaddr). unfold max_rounds. lia.
  - by rewrite Hm.
Qed.

(** Mapping a page for an address space tells the callback of exactly the
    objects that were taken from the allocator, in order, if the page is mapped;
    if it is not, it returns -1, and the structures it made are told to nobody. *)
Theorem map_page_pd_spec (root : Z) (callback : option (vka_object_t -> M W unit)) (cap vaddr rights : Z) (cacheable : bool)
    (size_bits : Z) (w : W) : root <> 0 ->
  exists objs w1, gained w w1 objs /\ (length objs <= 3)%nat /\
    (sel4utils_map_page_pd (Some v) root callback cap vaddr rights cacheable size_bits w =
       (let! _ := call_allocated callback objs in ret 0) w1 /\
     (exists attr w0, seL4_X86_Page_Map cap root vaddr rights attr w0 = Ok (0, w1)) \/
     sel4utils_map_page_pd (Some v) root callback cap vaddr rights cacheable size_bits w = Ok (-1, w1)).
Proof.
  intros Hroot. unfold sel4utils_map_page_pd.
  pose proof (missing_three w root vaddr) as H3.
  destruct (map_page_spec root cap vaddr rights cacheable (Some (replicate VSPACE_MAP_PAGING_OBJECTS no_object))
    (Z.of_nat VSPACE_MAP_PAGING_OBJECTS) w Hroot) as (e & objs & objects' & w1 & Hrun & Hg & Hn & Hl & _ & He).
  { cbn. lia. }
  exists objs, w1. split; [done|]. split; [lia|]. rewrite (bind_ok _ _ _ _ _ Hrun).
  destruct (Z.eqb_spec e 0) as [->|He0]; cbn [negb]; [left|by right].
  destruct objects' as [l|]; cbn in Hn; [|done]. destruct Hn as [_ Ht]. cbn [default from_option id].
  rewrite Nat2Z.id. cbn [Nat.add] in *. rewrite Ht. split; [done|]. eexists. by apply He.
Qed.
End spec.

Section dup_spec.
Context {W : Type} `{MC : !MappingConstants} `{SC : !SeL4Constants} `{KO : !KernelOps W} (v : vka_t W) `{VA : !VkaAccounting W v}.
Context (seL4_CNode_Copy : Z -> Z -> Z -> Z -> Z -> Z -> Z -> M W Z)
  (vspace_map_pages : list Z -> option (list Z) -> Z -> Z -> Z -> bool -> M W Z) (vspace_get_cap : Z -> M W Z)
  (vspace_unmap_pages : Z -> Z -> Z -> vka_choice W -> M W unit).
(** The address space may take slots of its own from the same allocator, and
    knows the capability of each page; pages are preserved if told so. *)
Context (page_at : W -> Z -> option Z).
Hypothesis copy_law : forall a b c d e f r w, exists err w', seL4_CNode_Copy a b c d e f r w = Ok (err, w') /\
  live_slots w' = live_slots w.
Hypothesis map_law : forall cap bits w, exists r own w', vspace_map_pages [cap] None seL4_AllRights 1 bits true w = Ok (r, w') /\
  live_slots w' = own ∪ live_slots w /\ own ## live_slots w /\ (r <> 0 -> page_at w' r = Some cap).
Hypothesis get_cap_law : forall a w, vspace_get_cap a w = Ok (default 0 (page_at w a), w).
Hypothesis unmap_law : forall a bits w, exists w', vspace_unmap_pages a 1 bits VSPACE_PRESERVE w = Ok (tt, w') /\
  live_slots w' = live_slots w.

Lemma give_back (slot : Z) (w : W) : slot ∈ live_slots w -> exists path w', vka_cspace_make_path (Some v) slot w = Ok (path, w) /\
  capPtr path = slot /\ (let! _ := vka_cnode_delete path in vka_cspace_free (Some v) slot) w = Ok (tt, w') /\
  live_slots w' = live_slots w ∖ {[slot]}.
Proof.
  intros Hs. destruct acct_make_path as (fp & Hfp & Hp). unfold vka_cspace_make_path, vka_cnode_delete. rewrite Hfp.
  destruct (Hp slot w) as (path & Hpath & Hcap). rewrite Hpath. exists path.
  destruct (acct_delete (root path) (capPtr path) (capDepth path) w) as (e & w1 & Hd & Hs1 & _). rewrite <- Hs1 in Hs.
  destruct acct_cspace_free as (ff & Hff & Hf). destruct (Hf slot w1 Hs) as (w2 & Hf2 & Hs2 & _).
  exists w2. split; [done|]. split; [done|]. rewrite (bind_ok _ _ _ _ _ Hd). unfold vka_cspace_free. rewrite Hff. split; [done|congruence].
Qed.

Lemma alloc_path_cases (w : W) : exists e p w', vka_cspace_alloc_path (Some v) w = Ok (e, p, w') /\
  ((e = 0 /\ exists path, p = Some path /\ capPtr path <> 0 /\ (capPtr path ∉ live_slots w) /\
     live_slots w' = {[capPtr path]} ∪ live_slots w) \/
   (e <> 0 /\ live_slots w' = live_slots w)).
Proof.
  unfold vka_cspace_alloc_path, vka_cspace_alloc. destruct acct_cspace_alloc as (fa & Hfa & Ha). rewrite Hfa.
  destruct (Ha w) as (e & o & w1 & Hrun1 & _ & [(-> & slot & -> & H0 & Hnew & Hs1)|(He & Hs1)]).
  - rewrite (bind_ok _ _ _ _ _ Hrun1). cbn [Z.eqb seL4_NoError default from_option id].
    destruct (give_back slot w1) as (cp & _ & Hcp & Hcap & _); [set_solver|]. rewrite (bind_ok _ _ _ _ _ Hcp).
    exists 0, (Some cp), w1. split; [done|]. left. split; [done|]. exists cp. by rewrite Hcap.
  - rewrite (bind_ok _ _ _ _ _ Hrun1), (proj2 (Z.eqb_neq e seL4_NoError) He). exists e, None, w1. split; [done|]. by right.
Qed.

(** C37: mapping a page a second time takes one slot for the copy of its
    capability, or fails and takes none; unmapping the copy gives the slot back.
    What the address space takes for itself is all that remains. *)
Theorem dup_and_map_unmap (page size_bits : Z) (w : W) :
  exists r own w', sel4utils_dup_and_map (Some v) seL4_CNode_Copy vspace_map_pages page size_bits w = Ok (r, w') /\
  own ## live_slots w /\
  ((r = 0 /\ live_slots w' = own ∪ live_slots w) \/
   (r <> 0 /\ exists slot w'', (slot ∉ own ∪ live_slots w) /\ live_slots w' = {[slot]} ∪ (own ∪ live_slots w) /\
     page_at w' r = Some slot /\
     sel4utils_unmap_dup (Some v) vspace_get_cap vspace_unmap_pages r size_bits w' = Ok (tt, w'') /\
     live_slots w'' = own ∪ live_slots w)).
Proof.
  unfold sel4utils_dup_and_map.
  destruct (alloc_path_cases w) as (e & p & w1 & Hrun1 & [(-> & cp & -> & H0 & Hnew & Hs1)|(He & Hs1)]);
    rewrite (bind_ok _ _ _ _ _ Hrun1).
  2:{ exists 0, ∅, w1. cbv zeta. rewrite (proj2 (Z.eqb_neq e seL4_NoError) He). split; [reflexivity|]. split; [set_solver|].
      left. split; [done|]. rewrite Hs1. set_solver. }
  change (0 =? seL4_NoError) with true. cbn [negb default from_option id]. remember (capPtr cp) as slot eqn:Hcap.
  assert (Hpage : exists pp, vka_cspace_make_path (Some v) page w1 = Ok (pp, w1)).
  { destruct acct_make_path as (fp & Hfp & Hp). unfold vka_cspace_make_path. rewrite Hfp. destruct (Hp page w1) as (pp & ? & _). by exists pp. }
  destruct Hpage as (pp & Hpp). rewrite (bind_ok _ _ _ _ _ Hpp). unfold vka_cnode_copy.
  destruct (copy_law (root cp) (capPtr cp) (capDepth cp) (root pp) (capPtr pp) (capDepth pp) seL4_AllRights w1) as (e2 & w2 & Hrun2 & Hs2).
  rewrite (bind_ok _ _ _ _ _ Hrun2). destruct (e2 =? seL4_NoError); cbn [negb].
  2:{ destruct acct_cspace_free as (ff & Hff & Hf). destruct (Hf slot w2) as (w3 & Hrun3 & Hs3 & _); [rewrite Hs2, Hs1; set_solver|].
      unfold vka_cspace_free. rewrite Hff, (bind_ok _ _ _ _ _ Hrun3). exists 0, ∅, w3. split; [done|]. split; [set_solver|].
      left. split; [done|]. rewrite Hs3, Hs2, Hs1. set_solver. }
  destruct (map_law slot size_bits w2) as (r & own & w3 & Hrun3 & Hs3 & Hown & Hat). rewrite (bind_ok _ _ _ _ _ Hrun3).
  rewrite Hs2, Hs1 in Hs3, Hown. exists r, own.
  assert (Hin3 : slot ∈ live_slots w3) by set_solver. assert (Hno : slot ∉ own ∪ live_slots w) by set_solver.
  assert (Hs3' : live_slots w3 = {[slot]} ∪ (own ∪ live_slots w)) by (rewrite Hs3; set_solver).
  destruct (Z.eqb_spec r 0) as [->|Hr].
  - destruct (give_back slot w3 Hin3) as (cp' & w4 & Hcp' & _ & Hrun4 & Hs4).
    destruct (acct_delete (root cp) (capPtr cp) (capDepth cp) w3) as (e5 & w5 & Hd & Hs5 & _).
    destruct acct_cspace_free as (ff & Hff & Hf). destruct (Hf slot w5) as (w6 & Hf6 & Hs6 & _); [by rewrite Hs5|].
    exists w6. unfold vka_cnode_delete, vka_cspace_free. rewrite (bind_ok _ _ _ _ _ Hd), Hff, (bind_ok _ _ _ _ _ Hf6). split; [done|].
    split; [set_solver|]. left. split; [done|]. rewrite Hs6, Hs5, Hs3'. set_solver.
  - exists w3. split; [done|]. split; [set_solver|]. right. split; [done|]. specialize (Hat Hr).
    unfold sel4utils_unmap_dup. rewrite (bind_ok _ _ _ _ _ (get_cap_law r w3)), Hat. cbn [default from_option id].
    rewrite (proj2 (Z.eqb_neq _ _) H0). cbn [negb]. rewrite (bind_ok (cassert true) _ w3 w3 tt) by done.
    destruct (unmap_law r size_bits w3) as (w4 & Hrun4 & Hs4). rewrite (bind_ok _ _ _ _ _ Hrun4). rewrite <- Hs4 in Hin3.
    destruct (give_back slot w4 Hin3) as (cp' & w5 & Hcp' & _ & Hrun5 & Hs5). rewrite (bind_ok _ _ _ _ _ Hcp').
    exists slot, w5. split; [done|]. split; [done|]. split; [done|]. split; [exact Hrun5|]. rewrite Hs5, Hs4, Hs3'. set_solver.
Qed.
End dup_spec.

(** ** An allocator and a kernel that keep the promises

    The kernel has one root and one address; what is missing nearest to the root
    is found first. *)

#[export] Instance x86_64_mapping : MappingConstants := {|
  SEL4_MAPPING_LOOKUP_NO_PT := 21; SEL4_MAPPING_LOOKUP_NO_PD := 30; SEL4_MAPPING_LOOKUP_NO_PDPT := 39;
  seL4_FailedLookup := 6; seL4_DeleteFirst := 8; seL4_AllRights := 15;
  seL4_ARCH_Default_VMAttributes := 0; seL4_ARCH_Uncached_VMAttributes := 16; EINVAL := 22
|}.

Record paging : Type := Paging { pg_ledger : ledger; no_pdpt : bool; no_pd : bool; no_pt : bool }.

Definition pg_missing (s : paging) : list Z :=
  (if no_pdpt s then [39] else []) ++ (if no_pd s then [30] else []) ++ (if no_pt s then [21] else []).

Definition of_ledger {A : Type} (m : M ledger A) : M paging A :=
  fun s => res_bind (m (pg_ledger s)) (fun '(a, l) => Ok (a, Paging l (no_pdpt s) (no_pd s) (no_pt s))).

#[export] Instance paging_kernel : KernelOps paging := {|
  seL4_CNode_Delete a b c := of_ledger (seL4_CNode_Delete a b c);
  seL4_CNode_Move a b c d e f := of_ledger (seL4_CNode_Move a b c d e f);
  seL4_Untyped_Retype a b c d e f g h := of_ledger (seL4_Untyped_Retype a b c d e f g h)
|}.

Definition paging_structure (level : Z) : M paging Z := fun s =>
  if bool_decide (head (pg_missing s) = Some level) then
    Ok (0, Paging (pg_ledger s) (no_pdpt s && negb (level =? 39)) (no_pd s && negb (level =? 30)) (no_pt s && negb (level =? 21)))
  else if bool_decide (level ∈ pg_missing s) then Ok (6, s) else Ok (8, s).

#[export] Instance paging_mapping : MappingKernel paging := {|
  seL4_X86_Page_Map _ _ _ _ _ := fun s => Ok (match pg_missing s with [] => 0 | _ => 6 end, s);
  seL4_X86_PageTable_Map _ _ _ _ := paging_structure 21;
  seL4_X86_PageDirectory_Map _ _ _ _ := paging_structure 30;
  seL4_X86_PDPT_Map _ _ _ _ := paging_structure 39;
  seL4_MappingFailedLookupLevel := fun s => Ok (default 0 (head (pg_missing s)), s)
|}.

Definition paging_vka : vka_t paging := {|
  cspace_alloc := of_ledger <$> cspace_alloc ledger_vka;
  cspace_make_path := (fun f s => of_ledger (f s)) <$> cspace_make_path ledger_vka;
  utspace_alloc := (fun f a b c => of_ledger (f a b c)) <$> utspace_alloc ledger_vka;
  utspace_alloc_maybe_device := (fun f a b c d => of_ledger (f a b c d)) <$> utspace_alloc_maybe_device ledger_vka;
  utspace_alloc_at := (fun f a b c d => of_ledger (f a b c d)) <$> utspace_alloc_at ledger_vka;
  cspace_free := (fun f s => of_ledger (f s)) <$> cspace_free ledger_vka;
  utspace_free := (fun f a b c => of_ledger (f a b c)) <$> utspace_free ledger_vka;
  utspace_paddr := (fun f a b c => of_ledger (f a b c)) <$> utspace_paddr ledger_vka
|}.

#[export] Program Instance paging_accounting : VkaAccounting paging paging_vka := {|
  live_slots s := l_slots (pg_ledger s); live_cookies s := l_cookies (pg_ledger s)
|}.
Next Obligation.
  eexists. split; [reflexivity|]. intros s. pose proof (ledger_slot_fresh (pg_ledger s)) as [? ?].
  do 3 eexists. split; [reflexivity|]. split; [done|]. left. split; [done|]. by eexists.
Qed.
Next Obligation. eexists. split; [reflexivity|]. intros x [l ? ? ?]. by eexists. Qed.
Next Obligation.
  eexists. split; [reflexivity|]. intros p t sz d s. pose proof (ledger_cookie_fresh (pg_ledger s)) as [? ?].
  do 3 eexists. split; [reflexivity|]. split; [done|]. left. split; [done|]. by eexists.
Qed.
Next Obligation.
  eexists. split; [reflexivity|]. intros p t sz d s. pose proof (ledger_cookie_fresh (pg_ledger s)) as [? ?].
  do 3 eexists. split; [reflexivity|]. split; [done|]. left. split; [done|]. by eexists.
Qed.
Next Obligation. eexists. split; [reflexivity|]. intros x s _. by eexists. Qed.
Next Obligation. eexists. split; [reflexivity|]. intros t sz c s _. by eexists. Qed.
Next Obligation. intros a b c s. by do 2 eexists. Qed.

#[export] Program Instance paging_laws : PagingLaws paging paging_vka := {|
  missing s _ _ := list_to_set (pg_missing s); unused_cap _ _ := True
|}.
Next Obligation. done. Qed.
Next Obligation. intros [l [] [] []] root vaddr x; cbn; set_solver. Qed.
Next Obligation.
  intros cap root vaddr rights attr s. do 2 eexists. split; [reflexivity|]. split_and!; [done..|].
  intros He. unfold seL4_MappingFailedLookupLevel. cbn. destruct (pg_missing s) as [|l ls]; [done|]. exists l. split; [done|set_solver].
Qed.
Next Obligation.
  intros l obj cap root vaddr attr [g b1 b2 b3] Hobj.
  assert (Hfn : map_fn obj cap root vaddr attr = paging_structure l).
  { unfold vspace_get_map_obj in Hobj. cbn in Hobj.
    destruct (Z.eqb_spec l 21) as [->|]; [by injection Hobj as <-|].
    destruct (Z.eqb_spec l 30) as [->|]; [by injection Hobj as <-|].
    destruct (Z.eqb_spec l 39) as [->|]; [by injection Hobj as <-|done]. }
  rewrite Hfn. unfold paging_structure. case_bool_decide as Hh.
  - do 2 eexists. split; [reflexivity|]. split; [done|]. split; [done|].
    destruct b1, b2, b3; cbn in Hh; try discriminate Hh; injection Hh as <-; cbn; (split; [set_solver|]; split; [set_solver|done]).
  - case_bool_decide as Hin; do 2 eexists; (split; [reflexivity|]; split; [done|]; split; [done|]; split; [done|]; split; [|done]).
    + by intros [|].
    + intros _. by rewrite elem_of_list_to_set.
Qed.
Next Obligation.
  intros t sz o [g b1 b2 b3] e o' w' Hrun. split; [|done]. intros _ _.
  unfold vka_alloc_object, vka_alloc_object_at, vka_alloc_object_at_maybe_dev, alloc_object_error, bind in Hrun. cbn in Hrun.
  destruct (t <? 13); cbn in Hrun; injection Hrun as _ _ <-; done.
Qed.
Next Obligation.
  intros o [g b1 b2 b3] w' _ Hrun _ _. unfold vka_free_object, bind in Hrun. cbn in Hrun.
  destruct (cptr o =? 0); cbn in Hrun; injection Hrun as <-; done.
Qed.

Definition nothing_mapped : paging := Paging empty_ledger true true true.

Lemma map_page_spec_witness :
  map_outcome 9 3 4096 15 0 nothing_mapped (Some (replicate 3 no_object)) 0
    (sel4utils_map_page (Some paging_vka) 3 9 4096 15 true (Some (replicate 3 no_object)) 3 nothing_mapped) /\
  match sel4utils_map_page (Some paging_vka) 3 9 4096 15 true (Some (replicate 3 no_object)) 3 nothing_mapped with
  | Ok (error, Some objects, num, _) => error = 0 /\ map type objects = [5; 11; 10] /\ num = 3
  | _ => False
  end.
Proof.
  split; [apply (map_page_spec (PL := paging_laws) 3 9 4096 15 true (Some (replicate 3 no_object)) 3 nothing_mapped); [done|vm_compute; lia]|].
  vm_compute. done.
Defined.

Lemma map_page_pd_spec_witness :
  exists objs w1, gained nothing_mapped w1 objs /\ (length objs <= 3)%nat /\
    (sel4utils_map_page_pd (Some paging_vka) 3 None 9 4096 15 true 12 nothing_mapped =
       (let! _ := call_allocated None objs in ret 0) w1 /\
     (exists attr w0, seL4_X86_Page_Map 9 3 4096 15 attr w0 = Ok (0, w1)) \/
     sel4utils_map_page_pd (Some paging_vka) 3 None 9 4096 15 true 12 nothing_mapped = Ok (-1, w1)).
Proof. apply (map_page_pd_spec (PL := paging_laws) 3 None 9 4096 15 true 12 nothing_mapped). done. Defined.

(** The caller's size of the array is not looked at: one that is too small is
    written past its end. *)
Example small_array_overflows :
  sel4utils_map_page (Some paging_vka) 3 9 4096 15 true (Some [no_object]) 1 nothing_mapped = Fault OutOfBounds.
Proof. vm_compute. reflexivity. Qed.

Lemma dup_and_map_unmap_witness :
  exists r own w', sel4utils_dup_and_map (Some paging_vka) (fun _ _ _ _ _ _ _ => ret 0)
      (fun caps _ _ _ _ _ => ret (4096 * default 0 (head caps))) 77 12 nothing_mapped = Ok (r, w') /\
  own ## live_slots nothing_mapped /\
  ((r = 0 /\ live_slots w' = own ∪ live_slots nothing_mapped) \/
   (r <> 0 /\ exists slot w'', (slot ∉ own ∪ live_slots nothing_mapped) /\ live_slots w' = {[slot]} ∪ (own ∪ live_slots nothing_mapped) /\
     Some (r / 4096) = Some slot /\
     sel4utils_unmap_dup (Some paging_vka) (fun a => ret (a / 4096)) (fun _ _ _ _ => ret tt) r 12 w' = Ok (tt, w'') /\
     live_slots w'' = own ∪ live_slots nothing_mapped)).
Proof.
  apply (dup_and_map_unmap paging_vka (fun _ _ _ _ _ _ _ => ret 0) (fun caps _ _ _ _ _ => ret (4096 * default 0 (head caps)))
    (fun a => ret (a / 4096)) (fun _ _ _ _ => ret tt) (fun _ a => Some (a / 4096))).
  - intros a b c d e f r w. by exists 0, w.
  - intros cap bits w. exists (4096 * cap), ∅, w. split; [done|]. split; [set_solver|]. split; [set_solver|].
    intros _. f_equal. rewrite Z.mul_comm. by apply Z.div_mul.
  - done.
  - intros a bits w. by exists w.
Defined.
