(* ===== verification/KrMalloc.v ===== *)
(** libsel4allocman/src/mspace/k_r_malloc.c: the memory allocator of the K&R
    book, over raw memory.

    Memory is a map from addresses to 64-bit words; an access to an address that
    is not mapped faults.  A header is two words: [ptr] and, eight bytes on,
    [size].  A [mspace_k_r_malloc_t] is in memory too: the header [base], then
    [freep] and [cookie].  Its last field, the function [morecore], is a
    parameter.  Null is 0. *)
From S2P Require Import Prelude.

Record heap (W : Type) : Type := Heap { words : gmap Z Z; outer : W }.
Arguments Heap {W} _ _.
Arguments words {W} _.
Arguments outer {W} _.

Section heap.
Context {W : Type}.

Definition load (x : Z) : M (heap W) Z :=
  fun s => match words s !! x with Some v => Ok (v, s) | None => Fault NullPointer end.
Definition store (x v : Z) : M (heap W) unit :=
  fun s => match words s !! x with Some _ => Ok (tt, Heap (<[x := v]> (words s)) (outer s)) | None => Fault NullPointer end.
End heap.

Definition sizeof_k_r_malloc_header_t : Z := 16.

(** [p + n], for a pointer to headers. *)
Definition header_at (p n : Z) : Z := p ⊞ (n ⊠ sizeof_k_r_malloc_header_t).

(** The fields of a header and of a [mspace_k_r_malloc_t], by their offsets. *)
Definition at_ptr (p : Z) : Z := p.
Definition at_size (p : Z) : Z := p + 8.
Definition at_base (k : Z) : Z := k.
Definition at_freep (k : Z) : Z := k + 16.
Definition at_cookie (k : Z) : Z := k + 24.

Section k_r_malloc.
Context {W : Type} (morecore : Z -> Z -> Z -> M (heap W) Z).
Notation St := (heap W).

Definition mspace_k_r_malloc_init (k_r_malloc cookie : Z) : M St unit :=
  let! _ := store (at_freep k_r_malloc) 0 in
  store (at_cookie k_r_malloc) cookie.

(** The loop of [free]: the block after which [bp] goes. *)
Fixpoint find_place (fuel : nat) (bp p : Z) : M St Z :=
  let! n := load (at_ptr p) in
  if (p <? bp) && (bp <? n) then ret p else
  if (n <=? p) && ((p <? bp) || (bp <? n)) then ret p else
  match fuel with
  | O => stop OutOfFuel
  | S fuel => find_place fuel bp n
  end.

(** [bp] goes between [p] and its successor, and is joined to either if they touch. *)
Definition join_upper (bp p : Z) : M St unit :=
  let! size := load (at_size bp) in
  let! n := load (at_ptr p) in
  if header_at bp size =? n then
    let! n_size := load (at_size n) in
    let! _ := store (at_size bp) (size ⊞ n_size) in
    let! n := load (at_ptr p) in
    let! nn := load (at_ptr n) in
    store (at_ptr bp) nn
  else store (at_ptr bp) n.

Definition join_lower (bp p : Z) : M St unit :=
  let! size := load (at_size p) in
  if header_at p size =? bp then
    let! b_size := load (at_size bp) in
    let! _ := store (at_size p) (size ⊞ b_size) in
    let! n := load (at_ptr bp) in
    store (at_ptr p) n
  else store (at_ptr p) bp.

Definition mspace_k_r_malloc_free (k_r_malloc ap : Z) : M St unit :=
  if ap =? 0 then ret tt else
  let bp := ap ⊟ sizeof_k_r_malloc_header_t in
  let! freep := load (at_freep k_r_malloc) in
  let! fuel := gets (fun s => size (words s)) in
  let! p := find_place fuel bp freep in
  let! _ := join_upper bp p in
  let! _ := join_lower bp p in
  store (at_freep k_r_malloc) p.

(** Taking [nunits] out of the block [p], which has [size] of them and follows
    [prevp]: all of it, or its end. *)
Definition take_units (k_r_malloc nunits size prevp p : Z) : M St Z :=
  let! p := (if size =? nunits then
      let! n := load (at_ptr p) in
      let! _ := store (at_ptr prevp) n in
      ret p
    else
      let! _ := store (at_size p) (size ⊟ nunits) in
      let! size := load (at_size p) in
      let p := header_at p size in
      let! _ := store (at_size p) nunits in
      ret p) in
  let! _ := store (at_freep k_r_malloc) prevp in
  ret (header_at p 1).

Fixpoint alloc_loop (fuel : nat) (k_r_malloc nunits prevp p : Z) : M St Z :=
  let! size := load (at_size p) in
  if nunits <=? size then take_units k_r_malloc nunits size prevp p else
  match fuel with
  | O => stop OutOfFuel
  | S fuel =>
      let! freep := load (at_freep k_r_malloc) in
      if p =? freep then
        let! cookie := load (at_cookie k_r_malloc) in
        let! p := morecore cookie k_r_malloc nunits in
        if p =? 0 then ret 0 else
        let! _ := store (at_size p) nunits in
        let! _ := mspace_k_r_malloc_free k_r_malloc (header_at p 1) in
        let! p := load (at_freep k_r_malloc) in
        let! n := load (at_ptr p) in
        alloc_loop fuel k_r_malloc nunits p n
      else
        let! n := load (at_ptr p) in
        alloc_loop fuel k_r_malloc nunits p n
  end.

(** The units of a block with room for [nbytes], its header included. *)
Definition units_for (nbytes : Z) : Z :=
  (nbytes ⊞ sizeof_k_r_malloc_header_t ⊟ 1) / sizeof_k_r_malloc_header_t ⊞ 1.

Definition mspace_k_r_malloc_alloc (k_r_malloc nbytes : Z) : M St Z :=
  let nunits := units_for nbytes in
  let! freep := load (at_freep k_r_malloc) in
  let! prevp := (if freep =? 0 then
      let base := at_base k_r_malloc in
      let! _ := store (at_freep k_r_malloc) base in
      let! _ := store (at_ptr base) base in
      let! _ := store (at_size base) 0 in
      ret base
    else ret freep) in
  let! fuel := gets (fun s => 2 * size (words s) + 2)%nat in
  let! p := load (at_ptr prevp) in
  alloc_loop fuel k_r_malloc nunits prevp p.

End k_r_malloc.
