(* ===== verification/KrInv.v ===== *)
(** The free list of the K&R allocator (KrMalloc.v): a circular list of blocks in
    the order of their addresses.  The cyclic order, the list in memory, and
    what the searches along it find. *)
From stdpp Require Import sorting.
From S2P Require Import Prelude KrMalloc.

(** ** Cyclic order

    A list of addresses that is sorted up to where it starts. *)

Definition cyc_sorted (l : list Z) : Prop :=
  exists l1 l2, l = l2 ++ l1 /\ StronglySorted Z.lt (l1 ++ l2).

(** [n] is the successor of [z] in the circular list. *)
Definition cnext (l : list Z) (z n : Z) : Prop :=
  exists A B, l = A ++ z :: B /\ head (B ++ A ++ [z]) = Some n.

(** The test of the loop in [mspace_k_r_malloc_free]. *)
Definition fits_after (bp z n : Z) : Prop := (z < bp /\ bp < n) \/ (n <= z /\ (z < bp \/ bp < n)).

Lemma cyc_sorted_rotate (A B : list Z) : cyc_sorted (A ++ B) -> cyc_sorted (B ++ A).
Proof.
  intros (l1 & l2 & Heq & Hs). apply app_eq_app in Heq as (k & [[-> ->]|[-> ->]]).
  - exists k, (B ++ l2). rewrite <- !app_assoc in *. done.
  - exists (l1 ++ A), k. rewrite <- !app_assoc in *. done.
Qed.

Lemma cnext_rotate (A B : list Z) (z n : Z) : cnext (A ++ B) z n -> cnext (B ++ A) z n.
Proof.
  intros (C & D & Heq & Hn). apply app_eq_app in Heq as (k & [[-> Hk]|[-> ->]]).
  - destruct k as [|y k]; cbn in Hk; [|simplify_eq].
    + subst B. exists [], (D ++ C). rewrite app_nil_r. split; [done|]. by rewrite <- !app_assoc in *.
    + exists (B ++ C), k. rewrite <- !app_assoc in *. done.
  - exists k, (D ++ A). rewrite <- !app_assoc in *. done.
Qed.

Lemma cyc_sorted_NoDup (l : list Z) : cyc_sorted l -> NoDup l.
Proof.
  intros (l1 & l2 & -> & Hs). rewrite (Permutation_app_comm l2 l1).
  induction Hs as [|x l Hs IH Hx]; constructor; [|done].
  rewrite Forall_forall in Hx. intros Hin. specialize (Hx x Hin). lia.
Qed.

(** The successor of an element: the next one, or from the last one the first. *)
Lemma sorted_cnext (S : list Z) (z n : Z) : StronglySorted Z.lt S -> cnext S z n ->
  z ∈ S /\ n ∈ S /\ ((z < n /\ forall y, y ∈ S -> y <= z \/ n <= y) \/
    (n <= z /\ forall y, y ∈ S -> n <= y <= z)).
Proof.
  intros Hs (A & B & -> & Hn).
  assert (HA : forall y, y ∈ A -> y < z) by (intros y Hy; eapply StronglySorted_app_1_elem_of; [exact Hs|done|left]).
  apply StronglySorted_app_1_r in Hs as Hs'. apply StronglySorted_inv in Hs' as [HsB HB]. rewrite Forall_forall in HB.
  split; [set_solver|]. destruct B as [|y B]; cbn in Hn.
  - split; [|right].
    { destruct A; cbn in Hn; simplify_eq; set_solver. }
    assert (Hmin : forall y, y ∈ A ++ [z] -> n <= y).
    { destruct A as [|x A]; cbn in Hn; simplify_eq; [intros y ->%list_elem_of_singleton; lia|].
      cbn in Hs. apply StronglySorted_inv in Hs as [_ Hx]. rewrite Forall_forall in Hx.
      cbn. intros y [->|Hy]%elem_of_cons; [lia|]. specialize (Hx y Hy). lia. }
    split; [apply Hmin; set_solver|]. intros y Hy. split; [by apply Hmin|].
    apply elem_of_app in Hy as [Hy| ->%list_elem_of_singleton]; [specialize (HA y Hy); lia|lia].
  - simplify_eq. split; [set_solver|left]. split; [apply HB; left|].
    apply StronglySorted_inv in HsB as [_ Hn]. rewrite Forall_forall in Hn.
    intros x [Hx|[->|[->|Hx]%elem_of_cons]%elem_of_cons]%elem_of_app; [specialize (HA x Hx)| | |specialize (Hn x Hx)]; lia.
Qed.

Lemma cyc_cnext (l : list Z) (z n : Z) : cyc_sorted l -> cnext l z n ->
  z ∈ l /\ n ∈ l /\ ((z < n /\ forall y, y ∈ l -> y <= z \/ n <= y) \/ (n <= z /\ forall y, y ∈ l -> n <= y <= z)).
Proof.
  intros (l1 & l2 & -> & Hs) Hn. apply cnext_rotate, (sorted_cnext _ _ _ Hs) in Hn as (Hz & Hn & Hc).
  assert (Hmem : forall y, y ∈ l2 ++ l1 <-> y ∈ l1 ++ l2) by (intros y; rewrite !elem_of_app; tauto).
  split; [by apply Hmem|]. split; [by apply Hmem|].
  destruct Hc as [[Hlt Hc]|[Hle Hc]]; [left|right]; split; try done; intros y Hy%Hmem; auto.
Qed.

Lemma cnext_total (l : list Z) (z : Z) : z ∈ l -> exists n, cnext l z n.
Proof.
  intros (A & B & ->)%list_elem_of_split. destruct (B ++ A ++ [z]) as [|n r] eqn:H; [by destruct B, A|].
  exists n, A, B. by rewrite H.
Qed.

(** Where an address that is not in the list goes: after exactly one element. *)
Lemma fits_unique (l : list Z) (bp z n y m : Z) : cyc_sorted l ->
  cnext l z n -> cnext l y m -> fits_after bp z n -> fits_after bp y m -> bp ∉ l -> z = y.
Proof.
  intros Hl Hz Hy Hfz Hfy Hbp. destruct (cyc_cnext _ _ _ Hl Hz) as (Hzl & Hnl & Hcz), (cyc_cnext _ _ _ Hl Hy) as (Hyl & Hml & Hcy).
  assert (bp <> z /\ bp <> y /\ bp <> n /\ bp <> m) as (? & ? & ? & ?) by (repeat split; congruence).
  unfold fits_after in *.
  destruct Hcz as [[? Hcz]|[? Hcz]], Hcy as [[? Hcy]|[? Hcy]];
    pose proof (Hcz y Hyl); pose proof (Hcz m Hml); pose proof (Hcy z Hzl); pose proof (Hcy n Hnl); lia.
Qed.

Lemma last_fits (S : list Z) (bp t : Z) : StronglySorted Z.lt (S ++ [t]) ->
  (forall x, x ∈ S ++ [t] -> x < bp) \/ (forall x, x ∈ S ++ [t] -> bp < x) ->
  exists n, cnext (S ++ [t]) t n /\ fits_after bp t n.
Proof.
  intros Hs Hall. destruct (cnext_total (S ++ [t]) t) as [n Hn]; [set_solver|]. exists n. split; [done|].
  destruct (sorted_cnext _ _ _ Hs Hn) as (Ht & Hnl & Hc).
  assert (Hmax : forall x, x ∈ S ++ [t] -> x <= t).
  { intros x [Hx| ->%list_elem_of_singleton]%elem_of_app; [|lia].
    apply Z.lt_le_incl. eapply StronglySorted_app_1_elem_of; [exact Hs|done|left]. }
  specialize (Hmax n Hnl). unfold fits_after. destruct Hall as [Ha|Ha]; pose proof (Ha t Ht); pose proof (Ha n Hnl); lia.
Qed.

Lemma sorted_split (S : list Z) (bp : Z) : StronglySorted Z.lt S -> bp ∉ S ->
  exists lo hi, S = lo ++ hi /\ (forall x, x ∈ lo -> x < bp) /\ (forall x, x ∈ hi -> bp < x).
Proof.
  induction 1 as [|x S Hs IH Hx]; intros Hbp; [exists [], []; set_solver|].
  rewrite Forall_forall in Hx. destruct (decide (x < bp)).
  - destruct IH as (lo & hi & -> & Hlo & Hhi); [set_solver|]. exists (x :: lo), hi. set_solver.
  - exists [], (x :: S). split; [done|]. split; [set_solver|].
    intros y [->|Hy]%elem_of_cons; [|specialize (Hx y Hy); lia]. assert (x <> bp) by set_solver. lia.
Qed.

Lemma sorted_fits (S : list Z) (bp : Z) : StronglySorted Z.lt S -> S <> [] -> bp ∉ S ->
  exists t n, cnext S t n /\ fits_after bp t n.
Proof.
  intros Hs Hne Hbp. destruct (sorted_split S bp Hs Hbp) as (lo & hi & -> & Hlo & Hhi).
  destruct hi as [|y hi].
  - rewrite app_nil_r in *. destruct lo as [|t lo _] using rev_ind; [done|].
    destruct (last_fits lo bp t Hs) as (n & Hn); [by left|]. by exists t, n.
  - destruct lo as [|t lo _] using rev_ind.
    + cbn in *. destruct (exists_last (l := y :: hi)) as (S & t & Heq); [done|]. rewrite Heq in *.
      destruct (last_fits S bp t Hs) as (n & Hn); [by right|]. by exists t, n.
    + exists t, y. split; [exists lo, (y :: hi); by rewrite <- app_assoc|]. left. split; [apply Hlo; set_solver|apply Hhi; left].
Qed.

Lemma cyc_fits (l : list Z) (bp : Z) : cyc_sorted l -> l <> [] -> bp ∉ l -> exists t n, cnext l t n /\ fits_after bp t n.
Proof.
  intros (l1 & l2 & -> & Hs) Hne Hbp. destruct (sorted_fits (l1 ++ l2) bp Hs) as (t & n & Hn & Hf).
  - intros [-> ->]%app_nil. done.
  - rewrite elem_of_app in *. tauto.
  - exists t, n. split; [by apply cnext_rotate|done].
Qed.

(** Inserting at the place found, and removing, keep the order. *)
Lemma cyc_insert (l : list Z) (t n bp : Z) : cyc_sorted (t :: l) ->
  cnext (t :: l) t n -> fits_after bp t n -> cyc_sorted (t :: bp :: l).
Proof.
  intros Hl Hn Hf. pose proof (cyc_cnext _ _ _ Hl Hn) as (_ & _ & Hc).
  assert (exists l1 l2, l = l2 ++ l1 /\ StronglySorted Z.lt (l1 ++ t :: l2)) as (l1 & l2 & -> & Hs).
  { destruct Hl as (l1 & l2 & Heq & Hs). destruct l2 as [|t' l2]; cbn in Heq; simplify_eq; [|by exists l1, l2].
    exists [], l. by rewrite app_nil_r in *. }
  apply StronglySorted_app in Hs as (H1 & Hs1 & Hs2). apply StronglySorted_inv in Hs2 as [Hs2 Ht]. rewrite Forall_forall in Ht.
  assert (Hmem : forall y, y ∈ l2 -> y ∈ t :: l2 ++ l1) by set_solver.
  assert (Hcase : (t < bp /\ forall y, y ∈ l2 -> bp < y) \/ (bp < t /\ l2 = [] /\ forall y, y ∈ l1 -> bp < y)).
  { unfold fits_after in Hf. destruct Hc as [[Hlt Hc]|[Hle Hc]].
    - left. split; [lia|]. intros y Hy. specialize (Ht y Hy). specialize (Hc y (Hmem y Hy)). lia.
    - assert (l2 = []) as ->.
      { destruct l2 as [|y l2]; [done|]. specialize (Ht y ltac:(left)). specialize (Hc y (Hmem y ltac:(left))). lia. }
      destruct (decide (t < bp)); [left; set_solver|right]. split; [lia|]. split; [done|].
      intros y Hy. specialize (Hc y ltac:(set_solver)). lia. }
  destruct Hcase as [[Hlt Hhi]|(Hlt & -> & Hall)].
  - exists l1, (t :: bp :: l2). split; [done|]. apply StronglySorted_app. split; [|split; [done|]].
    + intros x y Hx [->|[->|Hy]%elem_of_cons]%elem_of_cons; [apply H1; [done|left]| |apply H1; [done|by right]].
      specialize (H1 x t Hx ltac:(left)). lia.
    + apply SSorted_cons; [apply SSorted_cons; [done|]|]; rewrite Forall_forall; [exact Hhi|].
      intros y [->|Hy]%elem_of_cons; [done|by apply Ht].
  - exists (bp :: l1), [t]. split; [done|]. apply SSorted_cons.
    + apply StronglySorted_app. split; [exact H1|]. split; [done|]. by repeat constructor.
    + rewrite Forall_forall. intros y [Hy| ->%list_elem_of_singleton]%elem_of_app; [by apply Hall|done].
Qed.

Lemma cyc_remove (A B : list Z) (x : Z) : cyc_sorted (A ++ x :: B) -> cyc_sorted (A ++ B).
Proof.
  intros (l1 & l2 & Heq & Hs). assert (Hrm : forall C D, StronglySorted Z.lt (C ++ x :: D) -> StronglySorted Z.lt (C ++ D)).
  { intros C D (H1 & H2 & H3)%StronglySorted_app. apply StronglySorted_inv in H3 as [H3 _].
    apply StronglySorted_app. split; [|done]. intros y z Hy Hz. apply H1; [done|by right]. }
  apply app_eq_app in Heq as (k & [[-> ->]|[-> Hk]]).
  - exists (k ++ B), l2. split; [by rewrite <- app_assoc|]. rewrite <- app_assoc in *. by apply (Hrm k).
  - destruct k as [|y k]; cbn in Hk; simplify_eq.
    + exists B, A. split; [done|]. rewrite app_nil_r in Hs. by apply (Hrm []).
    + exists l1, (A ++ k). split; [by rewrite <- app_assoc|]. rewrite !app_assoc in *. by apply Hrm.
Qed.

(** ** The list in memory

    [linked m p q R]: the blocks [R] - address and size in units - are linked
    from [p] on, up to [q]. *)

Notation cell := (Z * Z)%type.

Fixpoint linked (m : gmap Z Z) (p q : Z) (R : list cell) : Prop :=
  match R with
  | [] => p = q
  | c :: R => p = c.1 /\ m !! at_size p = Some c.2 /\ exists n, m !! at_ptr p = Some n /\ linked m n q R
  end.

Lemma linked_app (m : gmap Z Z) (R1 R2 : list cell) (p q : Z) :
  linked m p q (R1 ++ R2) <-> exists r, linked m p r R1 /\ linked m r q R2.
Proof.
  revert p. induction R1 as [|c R1 IH]; intros p; cbn; [naive_solver|].
  setoid_rewrite IH. naive_solver.
Qed.

Lemma linked_rotate (m : gmap Z Z) (R1 R2 : list cell) (c : cell) (f : Z) :
  linked m f f (R1 ++ c :: R2) -> linked m c.1 c.1 (c :: R2 ++ R1).
Proof.
  intros (r & H1 & H2)%linked_app. pose proof H2 as [-> _].
  change (c :: R2 ++ R1) with ((c :: R2) ++ R1). apply linked_app. by exists f.
Qed.

Lemma linked_ext (m m' : gmap Z Z) (R : list cell) (p q : Z) :
  (forall c, c ∈ R -> m' !! at_ptr c.1 = m !! at_ptr c.1 /\ m' !! at_size c.1 = m !! at_size c.1) ->
  linked m p q R -> linked m' p q R.
Proof.
  revert p. induction R as [|c R IH]; intros p Heq; cbn; [done|]. intros (-> & Hs & n & Hn & HR).
  destruct (Heq c ltac:(left)) as [-> ->]. split; [done|]. split; [done|]. exists n. split; [done|].
  apply IH; [|done]. intros d Hd. apply Heq. by right.
Qed.

Lemma linked_cell (m : gmap Z Z) (R : list cell) (p q : Z) (c : cell) : linked m p q R -> c ∈ R ->
  m !! at_size c.1 = Some c.2 /\ is_Some (m !! at_ptr c.1).
Proof.
  revert p. induction R as [|d R IH]; intros p; [by intros _ []%not_elem_of_nil|].
  intros (-> & Hs & n & Hn & HR) [->|Hc]%elem_of_cons; [by rewrite Hn|by eapply IH].
Qed.

Lemma linked_head (m : gmap Z Z) (R : list cell) (p q : Z) : linked m p q R -> head (R.*1 ++ [q]) = Some p.
Proof. destruct R as [|c R]; cbn; [by intros ->|by intros (-> & _)]. Qed.

Lemma linked_next (m : gmap Z Z) (R : list cell) (f z n : Z) :
  linked m f f R -> cnext R.*1 z n -> m !! at_ptr z = Some n.
Proof.
  intros HR (A & B & Heq & Hn). apply fmap_app_inv in Heq as (RA & RB & -> & HB & ->).
  destruct RB as [|c RB]; cbn in HB; simplify_eq.
  apply linked_rotate in HR as (_ & _ & n' & Hn' & HR).
  apply linked_head in HR. rewrite fmap_app, <- app_assoc in HR. rewrite Hn in HR. by simplify_eq.
Qed.

(** *** The search of [mspace_k_r_malloc_free] *)

Section searches.
Context {W : Type}.
Notation St := (heap W).

Lemma load_word_ok (s : St) (x v : Z) : words s !! x = Some v -> load x s = Ok (v, s).
Proof. intros H. unfold load. by rewrite H. Qed.

Lemma store_word_ok (s : St) (x v : Z) : is_Some (words s !! x) -> store x v s = Ok (tt, Heap (<[x := v]> (words s)) (outer s)).
Proof. intros [y H]. unfold store. by rewrite H. Qed.

Lemma find_place_step (s : St) (fuel : nat) (bp p n : Z) : words s !! at_ptr p = Some n ->
  (fits_after bp p n -> find_place fuel bp p s = Ok (p, s)) /\
  (~ fits_after bp p n -> find_place (S fuel) bp p s = find_place fuel bp n s).
Proof.
  intros Hn. unfold fits_after. split; intros Hf.
  - destruct fuel as [|fuel]; cbn [find_place]; rewrite (bind_ok _ _ _ _ _ (load_word_ok _ _ _ Hn));
    destruct (Z.ltb_spec p bp), (Z.ltb_spec bp n), (Z.leb_spec n p); try reflexivity; lia.
  - cbn [find_place]. rewrite (bind_ok _ _ _ _ _ (load_word_ok _ _ _ Hn)).
    destruct (Z.ltb_spec p bp), (Z.ltb_spec bp n), (Z.leb_spec n p); try reflexivity; lia.
Qed.

Lemma find_place_walk (s : St) (bp : Z) (R : list cell) (p q : Z) (fuel : nat) :
  linked (words s) p q R ->
  (forall c n, c ∈ R -> words s !! at_ptr c.1 = Some n -> ~ fits_after bp c.1 n) ->
  find_place (length R + fuel) bp p s = find_place fuel bp q s.
Proof.
  revert p. induction R as [|c R IH]; intros p; [by intros ->|].
  intros (-> & _ & n & Hn & HR) Hno. cbn [length Nat.add].
  rewrite (proj2 (find_place_step s _ bp c.1 n Hn)) by (apply Hno; [left|done]).
  apply IH; [done|]. intros d m Hd. apply Hno. by right.
Qed.

Lemma find_place_ok (s : St) (bp f : Z) (R : list cell) (fuel : nat) :
  linked (words s) f f R -> R <> [] -> cyc_sorted R.*1 -> bp ∉ R.*1 -> (length R <= fuel)%nat ->
  exists R1 t R2 n, R = R1 ++ t :: R2 /\ find_place fuel bp f s = Ok (t.1, s) /\
    words s !! at_ptr t.1 = Some n /\ cnext (t :: R2 ++ R1).*1 t.1 n /\ fits_after bp t.1 n.
Proof.
  intros HR Hne Hs Hbp Hfuel.
  destruct (cyc_fits R.*1 bp Hs) as (ta & n & Hn & Hf); [by destruct R|done|].
  pose proof Hn as (A & B & Heq & _). apply fmap_app_inv in Heq as (R1 & R2 & -> & HB & ->).
  destruct R2 as [|t R2]; cbn in HB; simplify_eq.
  exists R1, t, R2, n. pose proof (linked_next _ _ _ _ _ HR Hn) as Hm.
  split; [done|]. split; [|split; [done|]].
  - pose proof HR as (r & HR1 & HR2)%linked_app. pose proof HR2 as [-> _].
    rewrite length_app in Hfuel. cbn in Hfuel.
    replace fuel with (length R1 + (fuel - length R1))%nat by lia.
    rewrite (find_place_walk s bp R1 f t.1 _ HR1).
    + by apply (find_place_step s _ bp t.1 n Hm).
    + intros c m Hc Hcm Hfc. assert (Hin : c.1 ∈ (R1 ++ t :: R2).*1) by (apply list_elem_of_fmap; exists c; set_solver).
      destruct (cnext_total _ _ Hin) as [m' Hm']. pose proof (linked_next _ _ _ _ _ HR Hm') as Hmm. simplify_eq.
      pose proof (fits_unique _ bp _ _ _ _ Hs Hm' Hn Hfc Hf Hbp) as Heq.
      apply cyc_sorted_NoDup in Hs. rewrite fmap_app in Hs. cbn in Hs. apply NoDup_app in Hs as (_ & Hdis & _).
      apply (Hdis c.1); [apply list_elem_of_fmap; by exists c|rewrite Heq; left].
  - split; [|done]. rewrite fmap_app in Hn. apply cnext_rotate in Hn. by rewrite <- fmap_app in Hn.
Qed.

End searches.

(** ** Joining *)

Lemma header_at_small (p n : Z) : 0 <= p -> 0 <= n -> p + 16 * n < word_size -> header_at p n = p + 16 * n.
Proof.
  intros Hp Hn H. unfold header_at, sizeof_k_r_malloc_header_t.
  rewrite (wrap_small (n * 16)) by (unfold is_word; lia). rewrite wrap_small; [lia|unfold is_word; lia].
Qed.

(** The two words of a header are not those of another. *)
Definition away (x p : Z) : Prop := at_ptr x <> at_ptr p /\ at_ptr x <> at_size p /\ at_size x <> at_ptr p /\ at_size x <> at_size p.

(** A map with the header at [p] written. *)
Definition with_header (p n u : Z) (m : gmap Z Z) : gmap Z Z := <[at_ptr p := n]> (<[at_size p := u]> m).

Lemma with_header_ptr (m : gmap Z Z) (p n u : Z) : with_header p n u m !! at_ptr p = Some n.
Proof. apply lookup_insert_eq. Qed.
Lemma with_header_size (m : gmap Z Z) (p n u : Z) : with_header p n u m !! at_size p = Some u.
Proof. unfold with_header. rewrite lookup_insert_ne by (unfold at_ptr, at_size; lia). apply lookup_insert_eq. Qed.
Lemma with_header_ne (m : gmap Z Z) (p n u x : Z) : x <> at_ptr p -> x <> at_size p -> with_header p n u m !! x = m !! x.
Proof. intros H1 H2. unfold with_header. by rewrite !lookup_insert_ne by done. Qed.
Lemma with_header_some (m : gmap Z Z) (p n u x : Z) : is_Some (m !! x) -> is_Some (with_header p n u m !! x).
Proof. intros H. unfold with_header. apply lookup_insert_is_Some'. right. apply lookup_insert_is_Some'. by right. Qed.

Lemma linked_with_header (m : gmap Z Z) (R : list cell) (f q p n u : Z) :
  (forall c, c ∈ R -> away c.1 p) -> linked m f q R -> linked (with_header p n u m) f q R.
Proof.
  intros Haw. apply linked_ext. intros c Hc. destruct (Haw c Hc) as (? & ? & ? & ?).
  by rewrite !with_header_ne by done.
Qed.

Section joins.
Context {W : Type}.
Notation St := (heap W).
Implicit Types (s : St) (c : cell) (R rest : list cell).

Definition on_words (f : gmap Z Z -> gmap Z Z) (s : St) : St := Heap (f (words s)) (outer s).

Lemma store_header (s : St) (p n u : Z) : is_Some (words s !! at_ptr p) -> is_Some (words s !! at_size p) ->
  (let! _ := store (at_size p) u in store (at_ptr p) n) s = Ok (tt, on_words (with_header p n u) s).
Proof.
  intros Hp Hs. rewrite (bind_ok _ _ _ _ _ (store_word_ok _ _ _ Hs)). rewrite store_word_ok; [done|].
  cbn. apply lookup_insert_is_Some'. by right.
Qed.

(** Joined to its successor or not, [bp] is linked to what follows. *)
Lemma join_upper_ok (s : St) (bp u t v : Z) (rest : list cell) :
  linked (words s) t t ((t, v) :: rest) -> words s !! at_size bp = Some u -> is_Some (words s !! at_ptr bp) ->
  0 <= bp -> 0 <= u -> bp + 16 * u < word_size ->
  (forall c, c ∈ (t, v) :: rest -> away c.1 bp) ->
  (forall c, c ∈ rest -> 0 <= c.1 /\ 0 <= c.2 /\ c.1 + 16 * c.2 < word_size) ->
  (rest = [] -> bp + 16 * u <> t) ->
  exists n u' rest', join_upper bp t s = Ok (tt, on_words (with_header bp n u') s) /\
    linked (words s) n t rest' /\
    ((rest' = rest /\ u' = u /\ words s !! at_ptr t <> Some (bp + 16 * u)) \/
     (exists w, rest = (bp + 16 * u, w) :: rest' /\ u' = u + w)).
Proof.
  intros (_ & Hv & n & Hn & Hrest) Hu Hbp Hbp0 Hu0 Hend Haw Hsize Hlast. unfold join_upper.
  rewrite (bind_ok _ _ _ _ _ (load_word_ok _ _ _ Hu)), (bind_ok _ _ _ _ _ (load_word_ok _ _ _ Hn)), header_at_small by done.
  destruct (Z.eqb_spec (bp + 16 * u) n) as [<-|Hne].
  - destruct rest as [|[q w] rest']; [cbn in Hrest; by destruct (Hlast eq_refl)|].
    destruct Hrest as (Hq & Hw & nn & Hnn & Hrest'). cbn [fst snd] in *. subst q.
    rewrite (bind_ok _ _ _ _ _ (load_word_ok _ _ _ Hw)).
    assert (Hsum : u ⊞ w = u + w) by (apply wrap_small; destruct (Hsize (bp + 16 * u, w) ltac:(left)); cbn in *; unfold is_word; lia).
    rewrite Hsum, (bind_ok _ _ _ _ _ (store_word_ok _ _ _ (ltac:(by rewrite Hu)))).
    destruct (Haw (t, v) ltac:(left)) as (? & ? & ? & ?), (Haw (bp + 16 * u, w) ltac:(right; left)) as (? & ? & ? & ?).
    cbn [fst snd] in *.
    rewrite (bind_ok _ _ _ (Heap (<[at_size bp := u + w]> (words s)) (outer s)) (bp + 16 * u))
      by (apply load_word_ok; cbn; by rewrite lookup_insert_ne by congruence).
    rewrite (bind_ok _ _ _ (Heap (<[at_size bp := u + w]> (words s)) (outer s)) nn)
      by (apply load_word_ok; cbn; by rewrite lookup_insert_ne by congruence).
    exists nn, (u + w), rest'. split; [|split; [done|]].
    + rewrite store_word_ok; [done|]. cbn. apply lookup_insert_is_Some'. by right.
    + right. by exists w.
  - exists n, u, rest. split; [|split; [done|]].
    + rewrite store_word_ok by done. unfold on_words, with_header. by rewrite (insert_id (words s) _ _ Hu).
    + left. split; [done|]. split; [done|]. congruence.
Qed.

Lemma join_lower_ok (s : St) (bp u n t v : Z) :
  words s !! at_size t = Some v -> is_Some (words s !! at_ptr t) ->
  words s !! at_size bp = Some u -> words s !! at_ptr bp = Some n ->
  0 <= t -> 0 <= v -> 0 <= u -> t + 16 * v < word_size -> bp + 16 * u < word_size -> away t bp ->
  exists n' v', join_lower bp t s = Ok (tt, on_words (with_header t n' v') s) /\
    ((t + 16 * v = bp /\ n' = n /\ v' = v + u) \/ (t + 16 * v <> bp /\ n' = bp /\ v' = v)).
Proof.
  intros Hv Ht Hu Hn Ht0 Hv0 Hu0 Htend Hbend (? & ? & ? & ?). unfold join_lower.
  rewrite (bind_ok _ _ _ _ _ (load_word_ok _ _ _ Hv)), header_at_small by done.
  destruct (Z.eqb_spec (t + 16 * v) bp) as [<-|Hne].
  - rewrite (bind_ok _ _ _ _ _ (load_word_ok _ _ _ Hu)), (wrap_small (v + u)) by (unfold is_word; lia).
    rewrite (bind_ok _ _ _ _ _ (store_word_ok _ _ _ (ltac:(by rewrite Hv)))).
    rewrite (bind_ok _ _ _ (Heap (<[at_size t := v + u]> (words s)) (outer s)) n)
      by (apply load_word_ok; cbn; by rewrite lookup_insert_ne by congruence).
    exists n, (v + u). split; [|by left]. rewrite store_word_ok; [done|]. cbn. apply lookup_insert_is_Some'. by right.
  - exists bp, v. split; [|by right]. rewrite store_word_ok by done. unfold on_words, with_header. by rewrite (insert_id (words s) _ _ Hv).
Qed.

End joins.
