(* ===== verification/KrSpec.v ===== *)
(** What the K&R allocator (KrMalloc.v) promises: its invariant, and that
    allocating and freeing keep it, hand out memory of the size asked for that
    nothing else uses, and lose none. *)
From stdpp Require Import sorting.
From S2P Require Import Prelude KrMalloc KrInv.

(** ** Blocks as sets of bytes *)

Definition extent (c : cell) : list Z := seqZ c.1 (sizeof_k_r_malloc_header_t * c.2).
Definition extents (l : list cell) : list Z := l ≫= extent.

Lemma in_extent (c : cell) (x : Z) : x ∈ extent c <-> c.1 <= x < c.1 + 16 * c.2.
Proof. apply elem_of_seqZ. Qed.

Lemma in_extents (l : list cell) (x : Z) : x ∈ extents l <-> exists c, c ∈ l /\ x ∈ extent c.
Proof. unfold extents. rewrite list_elem_of_bind. naive_solver. Qed.

Lemma extents_cons (c : cell) (l : list cell) : extents (c :: l) = extent c ++ extents l.
Proof. apply bind_cons. Qed.
Lemma extents_app (l1 l2 : list cell) : extents (l1 ++ l2) = extents l1 ++ extents l2.
Proof. apply bind_app. Qed.

Lemma extents_single (c : cell) : extents [c] = extent c.
Proof. apply app_nil_r. Qed.

#[export] Instance extents_perm : Proper (Permutation ==> Permutation) extents.
Proof. apply bind_Permutation. Qed.

(** Two blocks that touch are one. *)
Lemma extent_split (a u w : Z) : 0 <= u -> 0 <= w -> extent (a, u + w) = extent (a, u) ++ extent (a + 16 * u, w).
Proof.
  intros Hu Hw. unfold extent, sizeof_k_r_malloc_header_t. cbn [fst snd].
  rewrite Z.mul_add_distr_l. apply seqZ_app; lia.
Qed.

Lemma nodup_extents (l : list cell) (c d : cell) (x : Z) :
  NoDup (extents l) -> c ∈ l -> d ∈ l -> x ∈ extent c -> x ∈ extent d -> c = d.
Proof.
  induction l as [|e l IH]; intros Hnd; [by intros ?%not_elem_of_nil|].
  rewrite extents_cons in Hnd. apply NoDup_app in Hnd as (_ & Hdis & Hnd).
  intros [->|Hc]%elem_of_cons [->|Hd]%elem_of_cons Hxc Hxd; [done| | |by apply IH].
  - destruct (Hdis x Hxc). apply in_extents. by exists d.
  - destruct (Hdis x Hxd). apply in_extents. by exists c.
Qed.

(** ** The invariant

    [k] is the address of the [mspace_k_r_malloc_t]; its memory, and the byte
    before it, belong to no block. *)

Definition zone (k : Z) : list Z := seqZ (k - 1) 41.

Lemma in_zone (k x : Z) : x ∈ zone k <-> k - 1 <= x < k + 40.
Proof. unfold zone. rewrite elem_of_seqZ. lia. Qed.

(** The bytes a cell of the list lives in: the base of the list has none of its own. *)
Definition home (k : Z) (c : cell) : list Z := if decide (c.2 = 0) then zone k else extent c.

(** Memory where any header of the block could be. *)
Definition mapped (m : gmap Z Z) (c : cell) : Prop :=
  0 < c.1 /\ 0 <= c.2 /\ c.1 + 16 * c.2 < word_size /\
  forall i, 0 <= i < c.2 -> is_Some (m !! at_ptr (c.1 + 16 * i)) /\ is_Some (m !! at_size (c.1 + 16 * i)).

(** [R] are the blocks of the free list, with its base; [A] those handed out;
    [spare] is memory that may still be given to the allocator. *)
Record kr_shape (m : gmap Z Z) (k : Z) (R A : list cell) (spare : list Z) : Prop := {
  ks_base : (k, 0) ∈ R;
  ks_sorted : cyc_sorted R.*1;
  ks_pos : forall c, c ∈ R -> c = (k, 0) \/ 0 < c.2;
  ks_alloc : forall c, c ∈ A -> 0 < c.2;
  ks_mapped : forall c, c ∈ R ++ A -> mapped m c;
  ks_apart : NoDup (zone k ++ extents (R ++ A) ++ spare);
  ks_zone : 0 < k < word_size - 40;
  ks_struct : is_Some (m !! at_ptr k) /\ is_Some (m !! at_size k) /\ is_Some (m !! at_freep k)
}.

Record kr_inv (m : gmap Z Z) (k cookie : Z) (R A : list cell) (spare : list Z) : Prop := {
  kr_shaped : kr_shape m k R A spare;
  kr_linked : exists f, m !! at_freep k = Some f /\ linked m f f R;
  kr_coalesced : forall c d, c ∈ R -> d ∈ R -> 0 < c.2 -> c.1 + 16 * c.2 <> d.1;
  kr_sizes : forall c, c ∈ A -> m !! at_size c.1 = Some c.2;
  kr_cookie : m !! at_cookie k = Some cookie
}.

Section shape.
Context (m : gmap Z Z) (k : Z) (R A : list cell) (spare : list Z).
Hypothesis H : kr_shape m k R A spare.

Lemma ks_nonneg (c : cell) : c ∈ R ++ A -> 0 < c.1 /\ 0 <= c.2 /\ c.1 + 16 * c.2 < word_size.
Proof. intros Hc. destruct (ks_mapped _ _ _ _ _ H c Hc) as (? & ? & ? & _). done. Qed.

Lemma home_words (c : cell) : c ∈ R ++ A -> at_ptr c.1 ∈ home k c /\ at_size c.1 ∈ home k c.
Proof.
  intros Hc. unfold home, at_ptr, at_size. destruct (decide (c.2 = 0)) as [H0|H0].
  - assert (c = (k, 0)) as ->.
    { apply elem_of_app in Hc as [Hc|Hc]; [destruct (ks_pos _ _ _ _ _ H c Hc); [done|lia]|].
      apply (ks_alloc _ _ _ _ _ H) in Hc. lia. }
    cbn. rewrite !in_zone. lia.
  - destruct (ks_nonneg c Hc). rewrite !in_extent. lia.
Qed.

Lemma home_inj (c d : cell) (x : Z) : c ∈ R ++ A -> d ∈ R ++ A -> x ∈ home k c -> x ∈ home k d -> c = d.
Proof.
  intros Hc Hd. pose proof (ks_apart _ _ _ _ _ H) as (_ & Hz & Hnd)%NoDup_app.
  apply NoDup_app in Hnd as (Hnd & _ & _).
  assert (Hbase : forall e, e ∈ R ++ A -> e.2 = 0 -> e = (k, 0)).
  { intros e [He|He]%elem_of_app H0; [destruct (ks_pos _ _ _ _ _ H e He); [done|lia]|].
    apply (ks_alloc _ _ _ _ _ H) in He. lia. }
  assert (Hout : forall e, e ∈ R ++ A -> x ∈ zone k -> x ∈ extent e -> False).
  { intros e He Hxz Hxe. apply (Hz x Hxz), elem_of_app. left. apply in_extents. by exists e. }
  unfold home. destruct (decide (c.2 = 0)) as [Hc0|Hc0], (decide (d.2 = 0)) as [Hd0|Hd0]; intros Hxc Hxd.
  - by rewrite (Hbase c Hc Hc0), (Hbase d Hd Hd0).
  - by destruct (Hout d).
  - by destruct (Hout c).
  - by apply (nodup_extents (R ++ A) c d x).
Qed.

Lemma cells_away (c d : cell) : c ∈ R ++ A -> d ∈ R ++ A -> c <> d -> away c.1 d.1.
Proof.
  intros Hc Hd Hne. destruct (home_words c Hc), (home_words d Hd). unfold away.
  assert (Hno : forall x y, x ∈ home k c -> y ∈ home k d -> x <> y) by (intros x ? ? ? <-; by eapply Hne, home_inj).
  split_and!; by apply Hno.
Qed.

Lemma not_zone (c : cell) (x : Z) : c ∈ R ++ A -> x ∈ extent c -> x ∉ zone k.
Proof.
  intros Hc Hx Hz. pose proof (ks_apart _ _ _ _ _ H) as (_ & Hdis & _)%NoDup_app.
  apply (Hdis x Hz), elem_of_app. left. apply in_extents. by exists c.
Qed.

End shape.

(** The shape does not depend on what is in memory, or on where the list starts. *)
Lemma kr_shape_ext (m m' : gmap Z Z) (k : Z) (R A : list cell) (spare : list Z) :
  (forall x, is_Some (m !! x) -> is_Some (m' !! x)) -> kr_shape m k R A spare -> kr_shape m' k R A spare.
Proof.
  intros Hm []. split; try done; [|naive_solver].
  intros c Hc. destruct (ks_mapped0 c Hc) as (? & ? & ? & Hi). split_and!; try done. intros i Hi'.
  destruct (Hi i Hi'). auto.
Qed.

Lemma kr_shape_list (m : gmap Z Z) (k : Z) (R A R' A' : list cell) (spare : list Z) :
  cyc_sorted R'.*1 -> R ++ A ≡ₚ R' ++ A' -> (k, 0) ∈ R' -> (forall c, c ∈ R' -> c = (k, 0) \/ 0 < c.2) ->
  (forall c, c ∈ A' -> 0 < c.2) -> kr_shape m k R A spare -> kr_shape m k R' A' spare.
Proof.
  intros Hs Hp Hb Hpos Halloc []. split; try done.
  - intros c. rewrite <- Hp. auto.
  - by rewrite <- Hp.
Qed.

Lemma kr_shape_rotate (m : gmap Z Z) (k : Z) (R1 R2 A : list cell) (spare : list Z) :
  kr_shape m k (R1 ++ R2) A spare -> kr_shape m k (R2 ++ R1) A spare.
Proof.
  intros H. apply (kr_shape_list m k (R1 ++ R2) A); [|by rewrite (Permutation_app_comm R1)| | |apply (ks_alloc _ _ _ _ _ H)|done].
  - rewrite fmap_app. apply cyc_sorted_rotate. rewrite <- fmap_app. apply (ks_sorted _ _ _ _ _ H).
  - rewrite (Permutation_app_comm R2). apply (ks_base _ _ _ _ _ H).
  - intros c. rewrite (Permutation_app_comm R2). apply (ks_pos _ _ _ _ _ H).
Qed.

(** A block that was handed out is inserted into the list. *)
Lemma kr_shape_insert (m : gmap Z Z) (k : Z) (t b : cell) (rest A : list cell) (spare : list Z) (n : Z) :
  kr_shape m k (t :: rest) (b :: A) spare -> cnext (t :: rest).*1 t.1 n -> fits_after b.1 t.1 n ->
  kr_shape m k (t :: b :: rest) A spare.
Proof.
  intros H Hn Hf. apply (kr_shape_list m k (t :: rest) (b :: A)); [| | | | |done].
  - change (cyc_sorted (t.1 :: b.1 :: rest.*1)). eapply cyc_insert; [apply (ks_sorted _ _ _ _ _ H)|exact Hn|exact Hf].
  - cbn. f_equiv. by rewrite Permutation_middle.
  - pose proof (ks_base _ _ _ _ _ H). set_solver.
  - pose proof (ks_alloc _ _ _ _ _ H b ltac:(left)). pose proof (ks_pos _ _ _ _ _ H).
    intros c [->|[->|Hc]%elem_of_cons]%elem_of_cons; [|by right|]; apply H1; set_solver.
  - intros c Hc. apply (ks_alloc _ _ _ _ _ H). by right.
Qed.

Lemma extents_merge (P Q : list cell) (a u w : Z) : 0 <= u -> 0 <= w ->
  extents (P ++ (a, u + w) :: Q) = extents (P ++ (a, u) :: (a + 16 * u, w) :: Q).
Proof. intros Hu Hw. rewrite !extents_app, !extents_cons, extent_split by done. by rewrite <- app_assoc. Qed.

(** Two blocks of the list that touch become one. *)
Lemma kr_shape_merge (m : gmap Z Z) (k : Z) (P Q A : list cell) (spare : list Z) (a u w : Z) : 0 < u -> 0 < w ->
  kr_shape m k (P ++ (a, u) :: (a + 16 * u, w) :: Q) A spare -> kr_shape m k (P ++ (a, u + w) :: Q) A spare.
Proof.
  intros Hu Hw []. split; try done.
  - apply elem_of_app in ks_base0 as [|[Hc|[Hc|]%elem_of_cons]%elem_of_cons]; [set_solver| | |set_solver];
      injection Hc; lia.
  - rewrite !fmap_app in *. cbn in *. pose proof (cyc_remove (P.*1 ++ [a]) Q.*1 (a + 16 * u)) as Hrm. rewrite <- !app_assoc in Hrm. by apply Hrm.
  - intros c [Hc|[->|Hc]%elem_of_cons]%elem_of_app; [|right; cbn; lia|]; apply ks_pos0; set_solver.
  - intros c Hc. assert (Hcase : c = (a, u + w) \/ c ∈ (P ++ (a, u) :: (a + 16 * u, w) :: Q) ++ A) by set_solver.
    destruct Hcase as [->|Hc']; [|by apply ks_mapped0].
    destruct (ks_mapped0 (a, u)) as (? & ? & ? & Hm1); [set_solver|].
    destruct (ks_mapped0 (a + 16 * u, w)) as (? & ? & ? & Hm2); [set_solver|]. cbn in *.
    split_and!; cbn; [lia|lia|lia|]. intros i Hi. destruct (decide (i < u)); [apply Hm1; lia|].
    replace (a + 16 * i) with (a + 16 * u + 16 * (i - u)) by lia. apply Hm2. lia.
  - rewrite extents_app, extents_merge in * by lia. by rewrite extents_app in *.
Qed.

Lemma free_not_alloc (m : gmap Z Z) (k : Z) (R A : list cell) (spare : list Z) (c d : cell) :
  kr_shape m k R A spare -> c ∈ R -> d ∈ A -> c <> d.
Proof.
  intros H Hc Hd ->. pose proof (ks_apart _ _ _ _ _ H) as (_ & _ & Hnd)%NoDup_app.
  apply NoDup_app in Hnd as (Hnd & _ & _). rewrite extents_app in Hnd. apply NoDup_app in Hnd as (_ & Hdis & _).
  pose proof (ks_alloc _ _ _ _ _ H d Hd). apply (Hdis d.1); apply in_extents; exists d; (split; [done|apply in_extent; lia]).
Qed.

Lemma linked_length (m : gmap Z Z) (f : Z) (R : list cell) :
  NoDup R.*1 -> linked m f f R -> (length R <= size m)%nat.
Proof.
  intros Hnd HR. rewrite <- (length_fmap fst R), <- (size_list_to_set (C := gset Z) _ Hnd), <- size_dom.
  apply subseteq_size. intros x [c [-> Hc]]%elem_of_list_to_set%list_elem_of_fmap.
  apply elem_of_dom. by apply (linked_cell m R f f c).
Qed.

(** Nothing of the list lies between the place found and the block. *)
Section geometry.
Context (m : gmap Z Z) (k : Z) (t b : cell) (rest A : list cell) (spare : list Z) (n : Z).
Hypotheses (H : kr_shape m k (t :: rest) (b :: A) spare) (Hn : cnext (t :: rest).*1 t.1 n) (Hf : fits_after b.1 t.1 n).

Lemma fits_end (c : cell) : c ∈ t :: rest -> 0 < c.2 -> c.1 + 16 * c.2 = b.1 -> c = t.
Proof.
  intros Hc Hpos Hend. destruct (cyc_cnext _ _ _ (ks_sorted _ _ _ _ _ H) Hn) as (_ & _ & Hcase).
  assert (Hc1 : c.1 ∈ (t :: rest).*1) by (by apply list_elem_of_fmap_2).
  assert (c.1 <= t.1 < b.1).
  { unfold fits_after in Hf. destruct Hcase as [[? Hy]|[? Hy]]; pose proof (Hy c.1 Hc1); lia. }
  apply (home_inj m k (t :: rest) (b :: A) spare H c t t.1); [set_solver|set_solver| |].
  - unfold home. rewrite decide_False by lia. apply in_extent. lia.
  - apply (home_words m k (t :: rest) (b :: A) spare H). set_solver.
Qed.

Lemma fits_start (d : cell) : d ∈ t :: rest -> b.1 + 16 * b.2 = d.1 -> d.1 = n.
Proof.
  intros Hd Hend. pose proof (ks_alloc _ _ _ _ _ H b ltac:(left)) as Hb.
  destruct (cyc_cnext _ _ _ (ks_sorted _ _ _ _ _ H) Hn) as (_ & Hnl & Hcase).
  assert (Hd1 : d.1 ∈ (t :: rest).*1) by (by apply list_elem_of_fmap_2).
  assert (b.1 < n <= d.1).
  { unfold fits_after in Hf. destruct Hcase as [[? Hy]|[? Hy]]; pose proof (Hy d.1 Hd1); lia. }
  destruct (decide (n = d.1)) as [|Hne]; [done|exfalso].
  apply list_elem_of_fmap in Hnl as (e & He1 & He).
  assert (e = b) as ->; [|lia].
  apply (home_inj m k (t :: rest) (b :: A) spare H e b n); [set_solver|set_solver| |].
  - rewrite He1. apply (home_words m k (t :: rest) (b :: A) spare H). set_solver.
  - unfold home. rewrite decide_False by lia. apply in_extent. lia.
Qed.
End geometry.

(** ** Freeing *)

(** Memory is changed only at the places given, and stays mapped. *)
Definition changes_only (l : list Z) (m m' : gmap Z Z) : Prop :=
  (forall x, x ∉ l -> m' !! x = m !! x) /\ forall x, is_Some (m' !! x) <-> is_Some (m !! x).

Lemma changes_refl (l : list Z) (m : gmap Z Z) : changes_only l m m.
Proof. done. Qed.

Lemma changes_trans (l : list Z) (m1 m2 m3 : gmap Z Z) :
  changes_only l m1 m2 -> changes_only l m2 m3 -> changes_only l m1 m3.
Proof. intros [H1 D1] [H2 D2]. split; [intros x Hx; by rewrite H2, H1|]. intros x. by rewrite D2, D1. Qed.

Lemma changes_insert (l : list Z) (m : gmap Z Z) (x v : Z) : x ∈ l -> is_Some (m !! x) -> changes_only l m (<[x := v]> m).
Proof.
  intros Hx Hm. split; [intros y Hy; rewrite lookup_insert_ne; [done|congruence]|].
  intros y. rewrite lookup_insert_is_Some'. split; [intros [<-|]; done|auto].
Qed.

Lemma changes_header (l : list Z) (m : gmap Z Z) (p n u : Z) : at_ptr p ∈ l -> at_size p ∈ l ->
  is_Some (m !! at_ptr p) -> is_Some (m !! at_size p) -> changes_only l m (with_header p n u m).
Proof.
  intros Hp Hs Hmp Hms. eapply changes_trans; [by apply (changes_insert l m (at_size p) u)|].
  apply changes_insert; [done|]. apply lookup_insert_is_Some'. by right.
Qed.

(** The fields of the [mspace_k_r_malloc_t] that allocating and freeing write. *)
Definition touched (k : Z) : list Z := [at_ptr k; at_size k; at_freep k].

Lemma header_touched (m : gmap Z Z) (k : Z) (R A : list cell) (spare : list Z) (c : cell) :
  kr_shape m k R A spare -> c ∈ R ++ A ->
  (forall L, c ∈ L -> at_ptr c.1 ∈ touched k ++ extents L /\ at_size c.1 ∈ touched k ++ extents L) /\
  is_Some (m !! at_ptr c.1) /\ is_Some (m !! at_size c.1).
Proof.
  intros H Hc. pose proof (home_words _ _ _ _ _ H c Hc) as [Hp Hs]. unfold home in Hp, Hs.
  destruct (decide (c.2 = 0)) as [H0|H0].
  - assert (c = (k, 0)) as ->.
    { apply elem_of_app in Hc as [Hc|Hc]; [destruct (ks_pos _ _ _ _ _ H c Hc); [done|lia]|].
      apply (ks_alloc _ _ _ _ _ H) in Hc. lia. }
    cbn. split; [intros L _; set_solver|]. destruct (ks_struct _ _ _ _ _ H) as (? & ? & ?). done.
  - split; [intros L HL; split; apply elem_of_app; right; apply in_extents; by exists c|].
    destruct (ks_mapped _ _ _ _ _ H c Hc) as (_ & ? & _ & Hm). specialize (Hm 0 ltac:(lia)).
    by rewrite Z.mul_0_r, Z.add_0_r in Hm.
Qed.

Lemma header_not_freep (m : gmap Z Z) (k : Z) (R A : list cell) (spare : list Z) (c : cell) :
  kr_shape m k R A spare -> c ∈ R ++ A -> at_ptr c.1 <> at_freep k /\ at_size c.1 <> at_freep k.
Proof.
  intros H Hin. pose proof (home_words _ _ _ _ _ H c Hin) as [Hp Hs]. unfold home in *. destruct (decide (c.2 = 0)) as [H0|H0].
  - apply elem_of_app in Hin as [Hc|Hc]; [|apply (ks_alloc _ _ _ _ _ H) in Hc; lia].
    destruct (ks_pos _ _ _ _ _ H c Hc) as [->|]; [|lia]. unfold at_ptr, at_size, at_freep. cbn. lia.
  - split; intros Heq; apply (not_zone _ _ _ _ _ H c (at_freep k) Hin); first [by rewrite <- Heq|apply in_zone; unfold at_freep; lia].
Qed.

Section relink.
Context {W : Type} (s : heap W) (k bp u ta v : Z) (rest A : list cell) (spare : list Z) (n : Z).
Notation t := (ta, v).
Notation b := (bp, u).
Hypotheses (H : kr_shape (words s) k (t :: rest) (b :: A) spare) (Hlink : linked (words s) ta ta (t :: rest))
  (Hsize : words s !! at_size bp = Some u) (Hn : cnext (t :: rest).*1 ta n) (Hf : fits_after bp ta n).

Let Hb : 0 < u := ks_alloc _ _ _ _ _ H b ltac:(left).

Lemma cell_in (c : cell) : c ∈ t :: rest -> c ∈ (t :: rest) ++ b :: A.
Proof. intros Hc. apply elem_of_app. by left. Qed.
Lemma block_in : b ∈ (t :: rest) ++ b :: A.
Proof. apply elem_of_app. right. left. Qed.
Lemma cells_apart (c : cell) : c ∈ t :: rest -> away c.1 bp.
Proof.
  intros Hc. apply (cells_away _ _ _ _ _ H c b (cell_in c Hc) block_in).
  apply (free_not_alloc _ _ _ _ _ c b H Hc). left.
Qed.

Lemma upper_pos (w : Z) : (bp + 16 * u, w) ∈ rest -> 0 < w.
Proof.
  intros Hin. destruct (ks_pos _ _ _ _ _ H (bp + 16 * u, w)) as [Hk|]; [by right| |done]. injection Hk as Hk _.
  destruct (not_zone _ _ _ _ _ H b (k - 1) block_in); [|apply in_zone; lia]. apply in_extent. cbn. lia.
Qed.

Lemma relink_shape_upper (rest' : list cell) (u' : Z) :
  (rest' = rest /\ u' = u) \/ (exists w, rest = (bp + 16 * u, w) :: rest' /\ u' = u + w) ->
  kr_shape (words s) k (t :: (bp, u') :: rest') A spare /\ u <= u'.
Proof.
  pose proof (kr_shape_insert _ _ _ _ _ _ _ _ H Hn Hf) as Hi.
  intros [[-> ->]|(w & Heq & ->)]; [split; [done|lia]|].
  assert (Hw : 0 < w) by (apply upper_pos; rewrite Heq; left).
  split; [|lia]. rewrite Heq in Hi. apply (kr_shape_merge _ _ [t]); [done|done|]. exact Hi.
Qed.

Lemma freep_apart (c : cell) : c ∈ t :: rest \/ c = b -> at_ptr c.1 <> at_freep k /\ at_size c.1 <> at_freep k.
Proof. intros Hc. apply (header_not_freep _ _ _ _ _ c H). destruct Hc as [Hc| ->]; [by apply cell_in|apply block_in]. Qed.

(** Memory after the relinking. *)
Definition relinked (n1 u' n2 v' : Z) : gmap Z Z :=
  <[at_freep k := ta]> (with_header ta n2 v' (with_header bp n1 u' (words s))).

Lemma relinked_linked (n1 u' n2 v' p q : Z) (l : list cell) :
  (forall c, c ∈ l -> c ∈ rest) -> linked (words s) p q l -> linked (relinked n1 u' n2 v') p q l.
Proof.
  intros Hl Hlk. apply (linked_ext (with_header ta n2 v' (with_header bp n1 u' (words s)))).
  { intros c Hc. destruct (freep_apart c ltac:(left; right; by apply Hl)).
    unfold relinked. by rewrite !lookup_insert_ne by done. }
  assert (Hin : forall c, c ∈ l -> c ∈ t :: rest) by (intros c Hc; right; by apply Hl).
  apply linked_with_header; [|apply linked_with_header; [|done]]; intros c Hc.
  - apply (cells_away _ _ _ _ _ H c t (cell_in c (Hin c Hc)) (cell_in t ltac:(left))). intros ->.
    pose proof (cyc_sorted_NoDup _ (ks_sorted _ _ _ _ _ H)) as [Hnd _]%NoDup_cons. apply Hnd.
    apply list_elem_of_fmap. exists t. split; [done|by apply Hl].
  - apply (cells_apart c), Hin, Hc.
Qed.

Lemma relinked_headers (n1 u' n2 v' : Z) :
  relinked n1 u' n2 v' !! at_freep k = Some ta /\ relinked n1 u' n2 v' !! at_ptr ta = Some n2 /\
  relinked n1 u' n2 v' !! at_size ta = Some v' /\ relinked n1 u' n2 v' !! at_ptr bp = Some n1 /\
  relinked n1 u' n2 v' !! at_size bp = Some u'.
Proof.
  destruct (freep_apart t ltac:(by left; left)), (freep_apart b ltac:(by right)). cbn [fst snd] in *.
  destruct (cells_apart t ltac:(left)) as (? & ? & ? & ?). cbn [fst snd] in *.
  split; [apply lookup_insert_eq|].
  assert (Hne : forall x, x <> at_freep k -> relinked n1 u' n2 v' !! x = with_header ta n2 v' (with_header bp n1 u' (words s)) !! x)
    by (intros x Hx; by apply lookup_insert_ne).
  rewrite !Hne by congruence. split; [apply with_header_ptr|]. split; [apply with_header_size|].
  split; (rewrite with_header_ne by congruence); [apply with_header_ptr|apply with_header_size].
Qed.

Lemma relinked_changes (n1 u' n2 v' : Z) :
  changes_only (touched k ++ extents ((t :: rest) ++ [b])) (words s) (relinked n1 u' n2 v').
Proof.
  destruct (header_touched _ _ _ _ _ b H block_in) as [Hb' [Hm1 Hm2]].
  destruct (header_touched _ _ _ _ _ t H (cell_in t ltac:(left))) as [Ht' [Hm3 Hm4]].
  destruct (Hb' ((t :: rest) ++ [b])) as [Hbp Hbs]; [apply elem_of_app; right; left|].
  destruct (Ht' ((t :: rest) ++ [b])) as [Htp Hts]; [apply elem_of_app; left; left|].
  eapply changes_trans; [by apply (changes_header _ _ bp n1 u')|].
  eapply changes_trans; [apply (changes_header _ _ ta n2 v'); [done|done| |]; by apply with_header_some|].
  apply changes_insert; [apply elem_of_app; left; do 2 right; left|]. apply with_header_some, with_header_some, (ks_struct _ _ _ _ _ H).
Qed.

(** What is known of the ends and starts of the blocks of the new list. *)
Definition ends_known (R' : list cell) : Prop :=
  (forall c, c ∈ R' -> 0 < c.2 -> (exists c0, c0 ∈ t :: rest /\ 0 < c0.2 /\ c0.1 + 16 * c0.2 = c.1 + 16 * c.2) \/
    (c.1 + 16 * c.2 = bp + 16 * u /\ words s !! at_ptr ta <> Some (bp + 16 * u))) /\
  (forall d, d ∈ R' -> d.1 ∈ (t :: rest).*1 \/ (d.1 = bp /\ ta + 16 * v <> bp)).

Lemma join_upper_here : exists n1 u' rest',
  join_upper bp ta s = Ok (tt, on_words (with_header bp n1 u') s) /\ linked (words s) n1 ta rest' /\
  ((rest' = rest /\ u' = u /\ words s !! at_ptr ta <> Some (bp + 16 * u)) \/
   (exists w, rest = (bp + 16 * u, w) :: rest' /\ u' = u + w)).
Proof.
  destruct (header_touched _ _ _ _ _ b H block_in) as [_ [Hmbp _]].
  destruct (ks_nonneg _ _ _ _ _ H b block_in) as (Hb0 & _ & Hbe).
  apply (join_upper_ok s bp u ta v rest Hlink Hsize Hmbp ltac:(cbn in *; lia) ltac:(lia) Hbe cells_apart).
  - intros c Hc. destruct (ks_nonneg _ _ _ _ _ H c (cell_in c ltac:(by right))). lia.
  - intros Hnil Heq. pose proof (ks_base _ _ _ _ _ H) as Hk. rewrite Hnil in Hk. apply list_elem_of_singleton in Hk.
    apply (not_zone _ _ _ _ _ H b (k - 1) block_in); [|apply in_zone; lia].
    apply in_extent. cbn. injection Hk as Hk _. lia.
Qed.

Lemma join_lower_here (n1 u' : Z) : u <= u' -> bp + 16 * u' < word_size ->
  exists n2 v', join_lower bp ta (on_words (with_header bp n1 u') s) =
      Ok (tt, on_words (with_header ta n2 v') (on_words (with_header bp n1 u') s)) /\
    ((ta + 16 * v = bp /\ n2 = n1 /\ v' = v + u') \/ (ta + 16 * v <> bp /\ n2 = bp /\ v' = v)).
Proof.
  intros Hu' Hend. destruct (header_touched _ _ _ _ _ t H (cell_in t ltac:(left))) as [_ [Hmtp _]].
  destruct (ks_nonneg _ _ _ _ _ H b block_in) as (Hb0 & _ & _).
  destruct (ks_nonneg _ _ _ _ _ H t (cell_in t ltac:(left))) as (Ht0 & Hv0 & Hte). cbn [fst snd] in *.
  destruct (cells_apart t ltac:(left)) as (? & ? & ? & ?). cbn [fst snd] in *.
  apply (join_lower_ok (on_words (with_header bp n1 u') s) bp u' n1 ta v); try lia; try done.
  - cbn. rewrite with_header_ne by done. apply (linked_cell _ _ _ _ t Hlink). left.
  - cbn. by apply with_header_some.
  - apply with_header_size.
  - apply with_header_ptr.
Qed.

(** The list that results, whether or not the block is joined below. *)
Section result.
Context (u' : Z) (rest' : list cell).
Hypotheses (Hcase : (rest' = rest /\ u' = u /\ words s !! at_ptr ta <> Some (bp + 16 * u)) \/
  (exists w, rest = (bp + 16 * u, w) :: rest' /\ u' = u + w)).

Definition new_list : list cell := if decide (ta + 16 * v = bp) then (ta, v + u') :: rest' else t :: (bp, u') :: rest'.

Lemma v_pos : ta + 16 * v = bp -> 0 < v.
Proof.
  intros Heq. destruct (ks_nonneg _ _ _ _ _ H t (cell_in t ltac:(left))) as (_ & Hv & _). cbn in Hv.
  destruct (cells_apart t ltac:(left)) as (Hne & _). unfold at_ptr in Hne. cbn in Hne. lia.
Qed.

Lemma upper_shape : kr_shape (words s) k (t :: (bp, u') :: rest') A spare /\ u <= u'.
Proof. apply relink_shape_upper. destruct Hcase as [(? & ? & _)|]; auto. Qed.

Lemma new_shape : kr_shape (words s) k new_list A spare.
Proof.
  destruct upper_shape as [Hsh Huu]. unfold new_list. destruct (decide (ta + 16 * v = bp)) as [Heq|]; [|done].
  rewrite <- Heq in Hsh. apply (kr_shape_merge _ _ []); [by apply v_pos|lia|exact Hsh].
Qed.

Lemma new_extents : extents new_list ≡ₚ extents ((t :: rest) ++ [b]).
Proof.
  destruct upper_shape as [_ Huu]. transitivity (extents (t :: (bp, u') :: rest')).
  - unfold new_list. destruct (decide (ta + 16 * v = bp)) as [Heq|]; [|done].
    destruct (ks_nonneg _ _ _ _ _ H t (cell_in t ltac:(left))) as (_ & Hv & _). cbn in Hv.
    pose proof (extents_merge [] rest' ta v u' Hv ltac:(lia)) as Hm. rewrite !app_nil_l in Hm. by rewrite Hm, Heq.
  - destruct Hcase as [(-> & -> & _)|(w & -> & ->)].
    + apply extents_perm, perm_skip, Permutation_cons_append.
    + pose proof (extents_merge [t] rest' bp u w ltac:(lia) ltac:(lia)) as Hm. cbn [app] in Hm. rewrite Hm.
      apply extents_perm, perm_skip, Permutation_cons_append.
Qed.

Lemma rest'_in (c : cell) : c ∈ rest' -> c ∈ rest.
Proof. destruct Hcase as [(-> & _)|(w & -> & _)]; [done|by right]. Qed.

Lemma upper_end (c : cell) : c.1 + 16 * c.2 = bp + 16 * u' ->
  (exists c0, c0 ∈ t :: rest /\ 0 < c0.2 /\ c0.1 + 16 * c0.2 = c.1 + 16 * c.2) \/
  (c.1 + 16 * c.2 = bp + 16 * u /\ words s !! at_ptr ta <> Some (bp + 16 * u)).
Proof.
  intros Hc. destruct Hcase as [(_ & -> & Hne)|(w & Heq & ->)]; [by right|left].
  assert (Hin : (bp + 16 * u, w) ∈ rest) by (rewrite Heq; left).
  exists (bp + 16 * u, w). split; [by right|]. split; [by apply upper_pos|cbn; lia].
Qed.

Lemma new_ends : ends_known new_list.
Proof.
  assert (Hold : forall c, c ∈ rest' -> 0 < c.2 ->
    (exists c0, c0 ∈ t :: rest /\ 0 < c0.2 /\ c0.1 + 16 * c0.2 = c.1 + 16 * c.2)).
  { intros c Hc Hpos. exists c. split; [right; by apply rest'_in|done]. }
  assert (Hstart : forall d, d ∈ rest' -> d.1 ∈ (t :: rest).*1).
  { intros d Hd. apply list_elem_of_fmap_2. right. by apply rest'_in. }
  unfold new_list, ends_known. destruct (decide (ta + 16 * v = bp)) as [Heq|Hne]; split.
  - intros c [->|Hc]%elem_of_cons Hpos; [apply upper_end; cbn; lia|left; by apply Hold].
  - intros d [->|Hd]%elem_of_cons; left; [left|by apply Hstart].
  - intros c [->|[->|Hc]%elem_of_cons]%elem_of_cons Hpos; [left; exists t; split; [left|done]|by apply upper_end|left; by apply Hold].
  - intros d [->|[->|Hd]%elem_of_cons]%elem_of_cons; [left; left|by right|left; by apply Hstart].
Qed.

Lemma new_room : exists c, c ∈ new_list /\ u <= c.2.
Proof.
  destruct upper_shape as [_ Huu]. destruct (ks_nonneg _ _ _ _ _ H t (cell_in t ltac:(left))) as (_ & Hv & _). cbn in Hv.
  unfold new_list. destruct (decide (ta + 16 * v = bp)).
  - exists (ta, v + u'). split; [left|cbn; lia].
  - exists (bp, u'). split; [right; left|done].
Qed.

Lemma new_length : (length new_list <= 2 + length rest)%nat.
Proof.
  assert (length rest' <= length rest)%nat by (destruct Hcase as [(-> & _)|(w & -> & _)]; cbn; lia).
  unfold new_list. destruct (decide (ta + 16 * v = bp)); cbn; lia.
Qed.
End result.

Lemma relink_ok : exists m' R',
  (let! _ := join_upper bp ta in let! _ := join_lower bp ta in store (at_freep k) ta) s = Ok (tt, Heap m' (outer s)) /\
  kr_shape m' k R' A spare /\ m' !! at_freep k = Some ta /\ linked m' ta ta R' /\
  changes_only (touched k ++ extents ((t :: rest) ++ [b])) (words s) m' /\
  extents R' ≡ₚ extents ((t :: rest) ++ [b]) /\ (exists c, c ∈ R' /\ u <= c.2) /\ (length R' <= 2 + length rest)%nat /\
  ends_known R'.
Proof.
  destruct join_upper_here as (n1 & u' & rest' & Hup & Hl' & Hcase).
  destruct (upper_shape u' rest' Hcase) as [Hsh Huu].
  assert (Hend' : bp + 16 * u' < word_size) by (apply (ks_nonneg _ _ _ _ _ Hsh (bp, u')); right; left).
  destruct (join_lower_here n1 u' Huu Hend') as (n2 & v' & Hlow & Hcase2).
  destruct (relinked_headers n1 u' n2 v') as (Hfp & Htp & Hts & Hbp & Hbs).
  pose proof (relinked_changes n1 u' n2 v') as Hch.
  pose proof (relinked_linked n1 u' n2 v' n1 ta rest' (rest'_in u' rest' Hcase) Hl') as Hlk.
  exists (relinked n1 u' n2 v'), (new_list u' rest'). split_and!; [| |done| |done|by apply new_extents|by apply new_room|by apply new_length|by apply new_ends].
  - rewrite (bind_ok _ _ _ _ _ Hup), (bind_ok _ _ _ _ _ Hlow). rewrite store_word_ok; [done|].
    cbn. apply with_header_some, with_header_some, (ks_struct _ _ _ _ _ H).
  - apply (kr_shape_ext (words s)); [intros x Hx; by apply Hch|by apply new_shape].
  - unfold new_list. destruct Hcase2 as [(Heq & -> & ->)|(Hne & -> & ->)].
    + rewrite decide_True by done. split; [done|]. split; [done|]. by exists n1.
    + rewrite decide_False by done. split; [done|]. split; [done|]. exists bp. split; [done|].
      split; [done|]. split; [done|]. by exists n1.
Qed.

Lemma ends_coalesced (R' : list cell) : ends_known R' ->
  (forall c d, c ∈ t :: rest -> d ∈ t :: rest -> 0 < c.2 -> c.1 + 16 * c.2 <> d.1) ->
  forall c d, c ∈ R' -> d ∈ R' -> 0 < c.2 -> c.1 + 16 * c.2 <> d.1.
Proof.
  intros [Hce Hds] Hco c d Hc Hd Hpos Heq.
  destruct (Hce c Hc Hpos) as [(c0 & Hc0 & Hpos0 & Hend)|[Hend Hnext]], (Hds d Hd) as [(d0 & Hd0 & Hdin)%list_elem_of_fmap|[Hd0 Hne]].
  - apply (Hco c0 d0 Hc0 Hdin Hpos0). congruence.
  - assert (c0 = t) as ->; [|cbn in Hend; lia].
    apply (fits_end _ _ _ _ _ _ _ _ H Hn Hf c0 Hc0 Hpos0). cbn. lia.
  - apply Hnext. rewrite (linked_next _ _ _ _ _ Hlink Hn). f_equal.
    rewrite <- (fits_start _ _ _ _ _ _ _ _ H Hn Hf d0 Hdin); cbn; lia.
  - lia.
Qed.

End relink.

Lemma changes_perm (l l' : list Z) (m m' : gmap Z Z) : l ≡ₚ l' -> changes_only l m m' -> changes_only l' m m'.
Proof. intros Hp [H1 H2]. split; [|done]. intros x. rewrite <- Hp. apply H1. Qed.

(** A header outside the places changed keeps its words. *)
Lemma alloc_kept (m m' : gmap Z Z) (k : Z) (R A : list cell) (spare : list Z) (B : list cell) (c : cell) :
  kr_shape m k R (B ++ A) spare -> changes_only (touched k ++ extents (R ++ B)) m m' -> c ∈ A ->
  m' !! at_size c.1 = m !! at_size c.1.
Proof.
  intros H [Hm _] Hc. apply Hm. pose proof (ks_alloc _ _ _ _ _ H c ltac:(set_solver)) as Hpos.
  assert (Hin : c ∈ R ++ B ++ A) by (rewrite !elem_of_app; tauto).
  pose proof (home_words _ _ _ _ _ H c Hin) as [_ Hs]. unfold home in Hs. rewrite decide_False in Hs by lia.
  rewrite elem_of_app. intros [Ht|He].
  - apply (not_zone _ _ _ _ _ H c _ Hin Hs). apply in_zone. unfold touched, at_ptr, at_size, at_freep in *.
    repeat (apply elem_of_cons in Ht as [Ht|Ht]; [lia|]). by apply not_elem_of_nil in Ht.
  - pose proof (ks_apart _ _ _ _ _ H) as (_ & _ & Hnd)%NoDup_app. apply NoDup_app in Hnd as (Hnd & _ & _).
    rewrite app_assoc, extents_app in Hnd. apply NoDup_app in Hnd as (_ & Hdis & _).
    apply (Hdis _ He). apply in_extents. by exists c.
Qed.

Lemma not_touched_cookie (m m' : gmap Z Z) (k : Z) (R A : list cell) (spare : list Z) (B : list cell) :
  kr_shape m k R (B ++ A) spare -> changes_only (touched k ++ extents (R ++ B)) m m' -> m' !! at_cookie k = m !! at_cookie k.
Proof.
  intros H [Hm _]. apply Hm. rewrite elem_of_app. intros [Ht|(c & Hc & He)%in_extents].
  - unfold touched, at_ptr, at_size, at_freep, at_cookie in *.
    repeat (apply elem_of_cons in Ht as [Ht|Ht]; [lia|]). by apply not_elem_of_nil in Ht.
  - apply (not_zone _ _ _ _ _ H c (at_cookie k)); [|done|apply in_zone; unfold at_cookie; lia].
    apply elem_of_app in Hc. rewrite !elem_of_app. tauto.
Qed.

Lemma kr_free_ok {W : Type} (s : heap W) (k cookie : Z) (b : cell) (R A : list cell) (spare : list Z) :
  kr_inv (words s) k cookie R (b :: A) spare ->
  exists m' R', mspace_k_r_malloc_free k (header_at b.1 1) s = Ok (tt, Heap m' (outer s)) /\
    kr_inv m' k cookie R' A spare /\ extents R' ≡ₚ extents (R ++ [b]) /\
    changes_only (touched k ++ extents (R ++ [b])) (words s) m' /\
    (exists c, c ∈ R' /\ b.2 <= c.2) /\ (length R' <= S (length R))%nat.
Proof.
  intros [H (f & Hfreep & Hlink) Hco Hsz Hck]. destruct b as [bp u].
  pose proof (ks_alloc _ _ _ _ _ H (bp, u) ltac:(left)) as Hu. cbn in Hu.
  destruct (ks_nonneg _ _ _ _ _ H (bp, u)) as (Hb0 & _ & Hbe); [apply elem_of_app; right; left|]. cbn in Hb0, Hbe.
  assert (Hbp : bp ∉ R.*1).
  { intros (c & Hc1 & Hc)%list_elem_of_fmap. eapply (free_not_alloc _ _ _ _ _ c (bp, u) H Hc); [left|].
    eapply (home_inj _ _ _ _ _ H c (bp, u) bp); [apply elem_of_app; by left|apply elem_of_app; right; left| |].
    - rewrite Hc1. apply (home_words _ _ _ _ _ H c). apply elem_of_app. by left.
    - apply (home_words _ _ _ _ _ H (bp, u)). apply elem_of_app. right. left. }
  pose proof (ks_sorted _ _ _ _ _ H) as Hs.
  destruct (find_place_ok s bp f R (size (words s)) Hlink) as (R1 & [ta v] & R2 & n & -> & Hfind & Hn & Hnext & Hfits).
  { intros ->. pose proof (ks_base _ _ _ _ _ H) as Hbase. by apply not_elem_of_nil in Hbase. }
  { done. } { done. } { apply (linked_length _ f); [by apply cyc_sorted_NoDup|done]. }
  apply linked_rotate in Hlink. cbn [fst] in *. apply kr_shape_rotate in H. cbn [app] in H.
  destruct (relink_ok s k bp u ta v (R2 ++ R1) A spare n H Hlink (Hsz (bp, u) ltac:(left)) Hnext Hfits)
    as (m' & R' & Hrun & Hsh & Hfp & Hlk & Hch & Hext & Hroom & Hlen & Hends).
  exists m', R'. split.
  { unfold mspace_k_r_malloc_free. rewrite header_at_small by (cbn; lia).
    rewrite (proj2 (Z.eqb_neq _ _)) by (cbn; lia). unfold sizeof_k_r_malloc_header_t.
    rewrite (wrap_small (_ - 16)) by (unfold is_word; cbn; lia). cbn [fst]. replace (bp + 16 * 1 - 16) with bp by lia.
    rewrite (bind_ok _ _ _ _ _ (load_word_ok _ _ _ Hfreep)). unfold bind at 1. cbn [gets res_bind].
    rewrite (bind_ok _ _ _ _ _ Hfind). exact Hrun. }
  assert (Hperm : (R1 ++ (ta, v) :: R2) ++ [(bp, u)] ≡ₚ ((ta, v) :: R2 ++ R1) ++ [(bp, u)])
    by (f_equiv; change ((ta, v) :: R2 ++ R1) with (((ta, v) :: R2) ++ R1); apply Permutation_app_comm).
  split; [|split; [by rewrite Hext, Hperm|split; [eapply changes_perm; [|exact Hch]; by rewrite Hperm|split; [done|]]]].
  2: { rewrite length_app in *. cbn in *. lia. }
  split; [done|by exists ta| | |].
  - apply (ends_coalesced s k bp u ta v (R2 ++ R1) A spare n H Hlink Hnext Hfits R' Hends).
    intros c d Hc Hd. apply Hco; [revert Hc|revert Hd]; rewrite (Permutation_app_comm R1); done.
  - intros c Hc. rewrite (alloc_kept _ _ _ _ _ _ [(bp, u)] c H Hch Hc). apply Hsz. by right.
  - by rewrite (not_touched_cookie _ _ _ _ _ _ [(bp, u)] H Hch).
Qed.

(** ** Allocating *)

(** A block of the list is split, and its end handed out. *)
Lemma kr_shape_take_end (m : gmap Z Z) (k : Z) (P Q A : list cell) (spare : list Z) (a u w : Z) : 0 < u -> 0 < w ->
  kr_shape m k (P ++ (a, u + w) :: Q) A spare -> kr_shape m k (P ++ (a, u) :: Q) ((a + 16 * u, w) :: A) spare.
Proof.
  intros Hu Hw []. split; try done.
  - apply elem_of_app in ks_base0 as [Hb|[Hb|Hb]%elem_of_cons]; apply elem_of_app; [by left| |right; by right].
    injection Hb. lia.
  - rewrite !fmap_app in *. exact ks_sorted0.
  - intros c [Hc|[->|Hc]%elem_of_cons]%elem_of_app; [|right; cbn; lia|]; apply ks_pos0; apply elem_of_app; [by left|right; by right].
  - intros c [->|Hc]%elem_of_cons; [cbn; lia|by apply ks_alloc0].
  - destruct (ks_mapped0 (a, u + w)) as (Ha & _ & He & Hi); [apply elem_of_app; left; apply elem_of_app; right; left|]. cbn in *.
    assert (Hold : forall c, c ∈ P ++ Q ++ A -> mapped m c).
    { intros c Hc. apply ks_mapped0. rewrite <- app_assoc. cbn. rewrite !elem_of_app, elem_of_cons, elem_of_app in *. tauto. }
    intros c Hc. assert (c = (a, u) \/ c = (a + 16 * u, w) \/ c ∈ P ++ Q ++ A) as [->|[->|Hc']].
    { rewrite !elem_of_app, !elem_of_cons in *. tauto. }
    + split_and!; cbn; [lia|lia|lia|]. intros i Hi'. apply Hi. lia.
    + split_and!; cbn; [lia|lia|lia|]. intros i Hi'. replace (a + 16 * u + 16 * i) with (a + 16 * (u + i)) by lia. apply Hi. lia.
    + by apply Hold.
  - rewrite extents_app, extents_merge in ks_apart0 by lia.
    assert (Hp : extents ((P ++ (a, u) :: Q) ++ (a + 16 * u, w) :: A) ≡ₚ extents (P ++ (a, u) :: (a + 16 * u, w) :: Q) ++ extents A).
    { rewrite <- extents_app. apply extents_perm. rewrite <- !app_assoc. cbn. f_equiv. f_equiv. by rewrite Permutation_middle. }
    by rewrite Hp.
Qed.

(** All of it. *)
Lemma kr_shape_take_all (m : gmap Z Z) (k : Z) (P Q A : list cell) (spare : list Z) (c : cell) : 0 < c.2 ->
  kr_shape m k (P ++ c :: Q) A spare -> kr_shape m k (P ++ Q) (c :: A) spare.
Proof.
  intros Hc H. apply (kr_shape_list m k (P ++ c :: Q) A); [| | | | |done].
  - pose proof (ks_sorted _ _ _ _ _ H) as Hs. rewrite fmap_app in *. cbn in Hs. by eapply cyc_remove.
  - rewrite <- !app_assoc. cbn. f_equiv. by rewrite Permutation_middle.
  - pose proof (ks_base _ _ _ _ _ H) as Hb. rewrite elem_of_app, elem_of_cons in *.
    destruct Hb as [|[<-|]]; [tauto|cbn in Hc; lia|tauto].
  - intros d Hd. apply (ks_pos _ _ _ _ _ H). rewrite elem_of_app, elem_of_cons in *. tauto.
  - intros d [->|Hd]%elem_of_cons; [done|by apply (ks_alloc _ _ _ _ _ H)].
Qed.

Section take.
Context {W : Type} (s : heap W) (k cookie nunits : Z) (prev x : cell) (post A : list cell) (spare : list Z).
Hypotheses (HS : kr_shape (words s) k (prev :: x :: post) A spare)
  (HC : forall c d, c ∈ prev :: x :: post -> d ∈ prev :: x :: post -> 0 < c.2 -> c.1 + 16 * c.2 <> d.1)
  (HZ : forall c, c ∈ A -> words s !! at_size c.1 = Some c.2) (HK : words s !! at_cookie k = Some cookie)
  (Hlink : linked (words s) prev.1 prev.1 (prev :: x :: post)) (Hn : 0 < nunits <= x.2).

Lemma in_list (c : cell) : c ∈ prev :: x :: post -> c ∈ (prev :: x :: post) ++ A.
Proof. intros Hc. apply elem_of_app. by left. Qed.

Definition took (res : res (Z * heap W)) (m' : gmap Z Z) (R' : list cell) (y : Z) : Prop :=
  res = Ok (y + 16, Heap m' (outer s)) /\ kr_inv m' k cookie R' ((y, nunits) :: A) spare /\
  extents (R' ++ [(y, nunits)]) ≡ₚ extents (prev :: x :: post) /\
  changes_only (touched k ++ extents (prev :: x :: post)) (words s) m'.

Lemma took_result (y : Z) (m' : gmap Z Z) : kr_shape (words s) k (prev :: x :: post) A spare ->
  y = x.1 + 16 * (x.2 - nunits) -> header_at y 1 = y + 16.
Proof.
  intros Hs ->. destruct (ks_nonneg _ _ _ _ _ Hs x) as (? & ? & ?); [apply in_list; right; left|].
  rewrite header_at_small; lia.
Qed.

Lemma kept (m' : gmap Z Z) : changes_only (touched k ++ extents (prev :: x :: post)) (words s) m' ->
  (forall c, c ∈ A -> m' !! at_size c.1 = Some c.2) /\ m' !! at_cookie k = Some cookie.
Proof.
  pose proof HS as Hsh. pose proof HC as Hco. pose proof HZ as Hsz. pose proof HK as Hck. intros Hch. rewrite <- (app_nil_r (prev :: x :: post)) in Hch.
  split; [intros c Hc; rewrite (alloc_kept _ _ _ _ _ _ [] c Hsh Hch Hc); by apply Hsz|].
  by rewrite (not_touched_cookie _ _ _ _ _ _ [] Hsh Hch).
Qed.

Lemma list_distinct (c d : cell) : kr_shape (words s) k (prev :: x :: post) A spare ->
  (c = prev /\ d ∈ x :: post) \/ (c = x /\ d ∈ post) -> away d.1 c.1.
Proof.
  intros Hsh Hcd. pose proof (cyc_sorted_NoDup _ (ks_sorted _ _ _ _ _ Hsh)) as Hnd. cbn in Hnd.
  apply NoDup_cons in Hnd as [Hp Hnd]. apply NoDup_cons in Hnd as [Hx _].
  apply (cells_away _ _ _ _ _ Hsh); [apply in_list|apply in_list|].
  - destruct Hcd as [[_ Hd]|[_ Hd]]; [by right|by do 2 right].
  - destruct Hcd as [[-> _]|[-> _]]; [left|right; left].
  - intros ->. destruct Hcd as [[-> Hd]|[-> Hd]]; [apply Hp|apply Hx]; by apply (list_elem_of_fmap_2 fst) in Hd.
Qed.

Lemma freep_distinct (c : cell) : kr_shape (words s) k (prev :: x :: post) A spare ->
  c ∈ prev :: x :: post -> at_ptr c.1 <> at_freep k /\ at_size c.1 <> at_freep k.
Proof. intros Hsh Hc. by apply (header_not_freep _ _ _ _ _ c Hsh), in_list. Qed.

Lemma take_all_ok : x.2 = nunits -> exists m' R' y, took (take_units k nunits x.2 prev.1 x.1 s) m' R' y.
Proof.
  intros Hx. pose proof HS as Hsh. pose proof HC as Hco. pose proof HZ as Hsz. pose proof HK as Hck.
  pose proof Hlink as (_ & Hps & n1 & Hpp & Hx1 & Hxs & n2 & Hxp & Hrest). subst n1. cbn [fst snd] in *.
  destruct (freep_distinct prev Hsh ltac:(left)) as [Hf1 Hf2], (freep_distinct x Hsh ltac:(right; left)) as [Hf3 Hf4].
  destruct (list_distinct prev x Hsh ltac:(left; split; [done|left])) as (Ha1 & Ha2 & Ha3 & Ha4).
  set (m' := <[at_freep k := prev.1]> (<[at_ptr prev.1 := n2]> (words s))).
  assert (Hm' : forall z, z <> at_freep k -> z <> at_ptr prev.1 -> m' !! z = words s !! z)
    by (intros z Hz1 Hz2; unfold m'; by rewrite !lookup_insert_ne).
  assert (Hch : changes_only (touched k ++ extents (prev :: x :: post)) (words s) m').
  { destruct (header_touched _ _ _ _ _ prev Hsh (in_list prev ltac:(left))) as [Hl [Hm1 Hm2]].
    destruct (Hl (prev :: x :: post) ltac:(left)) as [Hl1 _].
    eapply changes_trans; [by apply (changes_insert _ _ (at_ptr prev.1) n2)|].
    apply changes_insert; [apply elem_of_app; left; do 2 right; left|].
    apply lookup_insert_is_Some'. right. apply (ks_struct _ _ _ _ _ Hsh). }
  pose proof (kr_shape_take_all _ _ [prev] post A spare x ltac:(lia) Hsh) as Hsh'.
  destruct (kept m' Hch) as [Hkz Hkc].
  assert (Hxe : x = (x.1, nunits)) by (destruct x; cbn in *; by subst).
  exists m', (prev :: post), x.1. split; [|split; [|split; [|exact Hch]]].
  - unfold take_units. rewrite (proj2 (Z.eqb_eq _ _) Hx), <- bind_assoc, (bind_ok _ _ _ _ _ (load_word_ok _ _ _ Hxp)).
    rewrite <- bind_assoc, (bind_ok _ _ _ _ _ (store_word_ok _ _ _ (ltac:(by rewrite Hpp)))). unfold bind at 1. cbn [ret res_bind].
    rewrite (bind_ok _ _ _ _ _ (store_word_ok (Heap _ _) _ _ (ltac:(cbn; apply lookup_insert_is_Some'; right; apply (ks_struct _ _ _ _ _ Hsh))))).
    rewrite (took_result x.1 m' Hsh) by lia. done.
  - rewrite <- Hxe. split; [|exists prev.1| | |done].
    + eapply kr_shape_ext; [|exact Hsh']. intros z Hz. by apply Hch.
    + split; [apply lookup_insert_eq|]. split; [done|]. split; [rewrite Hm' by (unfold at_ptr, at_size in *; lia); done|].
      exists n2. split; [unfold m'; rewrite lookup_insert_ne by congruence; apply lookup_insert_eq|].
      eapply linked_ext; [|exact Hrest]. intros c Hc.
      destruct (list_distinct prev c Hsh ltac:(left; split; [done|by right])) as (? & ? & ? & ?).
      destruct (freep_distinct c Hsh ltac:(by do 2 right)). by rewrite !Hm' by congruence.
    + intros c d Hc Hd. apply Hco; [revert Hc|revert Hd]; rewrite !elem_of_cons; tauto.
    + intros c [->|Hc]%elem_of_cons; [|by apply Hkz]. by rewrite Hm' by congruence.
  - apply extents_perm. rewrite <- Hxe. cbn. apply perm_skip. symmetry. apply Permutation_cons_append.
Qed.

(** The end of [x] is handed out: its header is at [y]. *)
Section take_end.
Hypothesis (Hx : x.2 <> nunits).
Let y : Z := x.1 + 16 * (x.2 - nunits).
Let x' : cell := (x.1, x.2 - nunits).
Let m' : gmap Z Z := <[at_freep k := prev.1]> (<[at_size y := nunits]> (<[at_size x.1 := x.2 - nunits]> (words s))).

Lemma end_shape : kr_shape (words s) k (prev :: x :: post) A spare ->
  kr_shape (words s) k (prev :: x' :: post) ((y, nunits) :: A) spare.
Proof.
  intros Hsh. assert (Hxeq : x = (x.1, x.2 - nunits + nunits)) by (rewrite Z.sub_add; by destruct x).
  rewrite Hxeq in Hsh. by apply (kr_shape_take_end _ _ [prev]) in Hsh; [|lia|lia].
Qed.

Lemma end_in : y ∈ extent x /\ at_size y ∈ extent x.
Proof. rewrite !in_extent. unfold y, at_size. lia. Qed.

Lemma end_mapped : kr_shape (words s) k (prev :: x :: post) A spare -> is_Some (words s !! at_size y).
Proof.
  intros Hsh. destruct (ks_mapped _ _ _ _ _ Hsh x) as (_ & _ & _ & Hi); [apply in_list; right; left|].
  apply (Hi (x.2 - nunits)). lia.
Qed.

Lemma end_changes : kr_shape (words s) k (prev :: x :: post) A spare ->
  changes_only (touched k ++ extents (prev :: x :: post)) (words s) m'.
Proof.
  intros Hsh. destruct (header_touched _ _ _ _ _ x Hsh (in_list x ltac:(right; left))) as [Hl [Hm1 Hm2]].
  destruct (Hl (prev :: x :: post) ltac:(right; left)) as [_ Hl2].
  eapply changes_trans; [by apply (changes_insert _ _ (at_size x.1) (x.2 - nunits))|].
  eapply changes_trans; [apply (changes_insert _ _ (at_size y) nunits)|apply changes_insert; [apply elem_of_app; left; do 2 right; left|]].
  - apply elem_of_app. right. apply in_extents. exists x. split; [right; left|apply end_in].
  - apply lookup_insert_is_Some'. right. by apply end_mapped.
  - apply lookup_insert_is_Some'. right. apply lookup_insert_is_Some'. right. apply (ks_struct _ _ _ _ _ Hsh).
Qed.

Lemma end_other (z : Z) : z <> at_freep k -> z <> at_size y -> z <> at_size x.1 -> m' !! z = words s !! z.
Proof. intros H1 H2 H3. unfold m'. by rewrite !lookup_insert_ne. Qed.

Lemma end_linked : kr_shape (words s) k (prev :: x :: post) A spare -> linked m' prev.1 prev.1 (prev :: x' :: post).
Proof.
  intros Hsh. pose proof (end_shape Hsh) as Hsh'.
  assert (Haw : forall c, c ∈ prev :: x' :: post -> away c.1 y).
  { intros c Hc. apply (cells_away _ _ _ _ _ Hsh' c (y, nunits)); [apply elem_of_app; by left|apply elem_of_app; right; left|].
    apply (free_not_alloc _ _ _ _ _ _ _ Hsh' Hc). left. }
  pose proof Hlink as (_ & Hps & n1 & Hpp & -> & Hxs & n2 & Hxp & Hrest).
  destruct (list_distinct prev x Hsh ltac:(left; split; [done|left])) as (Ha1 & Ha2 & Ha3 & Ha4).
  destruct (freep_distinct prev Hsh ltac:(left)) as [Hf1 Hf2], (freep_distinct x Hsh ltac:(right; left)) as [Hf3 Hf4].
  destruct (Haw prev ltac:(left)) as (? & ? & ? & ?), (Haw x' ltac:(right; left)) as (? & ? & ? & ?). cbn [fst snd] in *.
  change (x'.1) with x.1 in *.
  split; [done|]. split; [by rewrite end_other by congruence|]. exists x.1. split; [by rewrite end_other by congruence|].
  split; [done|]. split.
  { unfold m'. rewrite !lookup_insert_ne by congruence. apply lookup_insert_eq. }
  exists n2. split; [rewrite end_other by (unfold at_ptr, at_size in *; lia); done|].
  eapply linked_ext; [|exact Hrest]. intros c Hc.
  destruct (list_distinct x c Hsh ltac:(right; by split)) as (? & ? & ? & ?), (freep_distinct c Hsh ltac:(by do 2 right)).
  destruct (Haw c ltac:(by do 2 right)) as (? & ? & ? & ?). by rewrite !end_other by congruence.
Qed.

Lemma end_coalesced : kr_shape (words s) k (prev :: x :: post) A spare ->
  (forall c d, c ∈ prev :: x :: post -> d ∈ prev :: x :: post -> 0 < c.2 -> c.1 + 16 * c.2 <> d.1) ->
  forall c d, c ∈ prev :: x' :: post -> d ∈ prev :: x' :: post -> 0 < c.2 -> c.1 + 16 * c.2 <> d.1.
Proof.
  intros Hsh Hco c d Hc Hd Hpos Heq.
  assert (Hd' : exists d0, d0 ∈ prev :: x :: post /\ d0.1 = d.1).
  { apply elem_of_cons in Hd as [->|[->|Hd]%elem_of_cons]; [exists prev|exists x|exists d; split; [by do 2 right|done]];
      (split; [|done]); [left|right; left]. }
  destruct Hd' as (d0 & Hd0 & Hdd). apply elem_of_cons in Hc as [->|[->|Hc]%elem_of_cons].
  - apply (Hco prev d0); [left|done|done|congruence].
  - cbn in Heq. assert (d0 = x) as ->; [|cbn in *; lia].
    apply (home_inj _ _ _ _ _ Hsh d0 x y); [by apply in_list|apply in_list; right; left| |].
    + unfold y. rewrite Heq, <- Hdd. apply (home_words _ _ _ _ _ Hsh d0). by apply in_list.
    + unfold home. rewrite decide_False by lia. apply end_in.
  - apply (Hco c d0); [by do 2 right|done|done|congruence].
Qed.

Lemma take_end_ok : exists m' R' y, took (take_units k nunits x.2 prev.1 x.1 s) m' R' y.
Proof.
  pose proof HS as Hsh. pose proof HC as Hco. pose proof HZ as Hsz. pose proof HK as Hck. pose proof Hlink as (_ & Hps & n1 & Hpp & -> & Hxs & n2 & Hxp & Hrest).
  destruct (ks_nonneg _ _ _ _ _ Hsh x) as (Hx0 & _ & Hxe); [apply in_list; right; left|].
  destruct (kept m' (end_changes Hsh)) as [Hkz Hkc].
  destruct (freep_distinct x Hsh ltac:(right; left)) as [_ Hf4].
  assert (Hyf : at_size y <> at_freep k) by apply (header_not_freep _ _ _ _ _ (y, nunits) (end_shape Hsh) ltac:(apply elem_of_app; right; left)).
  exists m', (prev :: x' :: post), y. split; [|split; [|split; [|by apply end_changes]]].
  - unfold take_units. rewrite (proj2 (Z.eqb_neq _ _) Hx), <- bind_assoc.
    rewrite (bind_ok _ _ _ _ _ (store_word_ok _ _ _ (ltac:(by rewrite Hxs)))), (wrap_small (x.2 - nunits)) by (unfold is_word; lia).
    rewrite <- bind_assoc, (bind_ok _ _ (Heap (<[at_size x.1 := x.2 - nunits]> (words s)) (outer s))
      (Heap (<[at_size x.1 := x.2 - nunits]> (words s)) (outer s)) (x.2 - nunits))
      by (apply load_word_ok; cbn; apply lookup_insert_eq).
    cbv zeta. rewrite header_at_small by lia. fold y.
    rewrite <- bind_assoc, (bind_ok _ _ _ _ _ (store_word_ok (Heap _ _) _ _ (ltac:(cbn; apply lookup_insert_is_Some'; right; by apply end_mapped)))).
    unfold bind at 1. cbn [ret res_bind words outer].
    rewrite (bind_ok _ _ _ _ _ (store_word_ok (Heap _ _) _ _ (ltac:(cbn; apply lookup_insert_is_Some'; right; apply lookup_insert_is_Some'; right; apply (ks_struct _ _ _ _ _ Hsh))))).
    rewrite (took_result y m' Hsh) by done. done.
  - split; [|exists prev.1| | |done].
    + eapply kr_shape_ext; [|by apply end_shape]. intros z Hz. by apply end_changes.
    + split; [apply lookup_insert_eq|by apply end_linked].
    + by apply end_coalesced.
    + intros c [->|Hc]%elem_of_cons; [|by apply Hkz]. cbn. unfold m'. rewrite lookup_insert_ne by done. apply lookup_insert_eq.
  - transitivity (extents (prev :: x' :: (y, nunits) :: post)); [apply extents_perm; cbn; do 2 apply perm_skip; symmetry; apply Permutation_cons_append|].
    assert (Hxeq : x = (x.1, x.2 - nunits + nunits)) by (rewrite Z.sub_add; by destruct x).
    pose proof (extents_merge [prev] post x.1 (x.2 - nunits) nunits ltac:(lia) ltac:(lia)) as Hm. rewrite <- Hxeq in Hm. cbn [app] in Hm. unfold x', y. by rewrite <- Hm.
Qed.
End take_end.

Lemma take_units_ok : exists m' R' y, took (take_units k nunits x.2 prev.1 x.1 s) m' R' y.
Proof. destruct (decide (x.2 = nunits)); [by apply take_all_ok|by apply take_end_ok]. Qed.

End take.
