(* ===== verification/KrAlloc.v ===== *)
(** The K&R allocator as a whole: the search of [mspace_k_r_malloc_alloc], what
    it asks of the function that gets more memory, and the theorems. *)
From S2P Require Import Prelude KrMalloc KrInv KrSpec.

(** What [morecore] promises: [pool_inv] holds of the memory and the rest of the
    system, with the bytes [spare] not given out yet.  It gives out some of them,
    mapped, or null; it unmaps nothing, and besides [spare] it changes only
    [client_words], memory of those it calls (a manager has its records in
    memory it got here).  [askable] is how much the pool may be asked for, and
    [refuses] when it may give nothing. *)
Class MorecoreLaws {W : Type} (morecore : Z -> Z -> Z -> M (heap W) Z) : Type := {
  pool_inv : Z -> Z -> gmap Z Z -> W -> list Z -> Prop;
  client_words : Z -> Prop;
  askable : list Z -> Z -> Prop;
  refuses : list Z -> Z -> Prop;
  pool_local : forall cookie k m m' w spare, (forall x, x ∈ spare -> m' !! x = m !! x) ->
    pool_inv cookie k m w spare -> pool_inv cookie k m' w spare;
  morecore_law : forall cookie k n s spare, pool_inv cookie k (words s) (outer s) spare -> askable spare n -> 0 < n -> 16 * n < word_size ->
    exists r s' spare', morecore cookie k n s = Ok (r, s') /\ pool_inv cookie k (words s') (outer s') spare' /\
      (forall x, is_Some (words s !! x) -> is_Some (words s' !! x)) /\
      (forall x, x ∉ spare -> ~ client_words x -> is_Some (words s !! x) -> words s' !! x = words s !! x) /\
      ((r = 0 /\ spare' = spare /\ refuses spare n) \/ (r <> 0 /\ mapped (words s') (r, n) /\ spare ≡ₚ extent (r, n) ++ spare'))
}.

(** The invariant is about the memory of the allocator and of its blocks. *)
Lemma kr_shape_frame (m m' : gmap Z Z) (k : Z) (R A : list cell) (spare : list Z) :
  (forall x, is_Some (m !! x) -> is_Some (m' !! x)) ->
  kr_shape m k R A spare -> kr_shape m' k R A spare.
Proof.
  intros Hm [Hb Hs Hp Ha Hmap Hap Hz (Hk1 & Hk2 & Hk3)]. split; [done|done|done|done| |done|done|split_and!; by apply Hm].
  intros c Hc. destruct (Hmap c Hc) as (? & ? & ? & Hi). split_and!; try done.
  intros i Hi'. destruct (Hi i Hi'). split; by apply Hm.
Qed.

(** What the allocator relies on: its own structure, its free blocks, and the
    headers of those handed out. *)
Definition headers (A : list cell) : list Z := A ≫= fun c => [at_ptr c.1; at_size c.1].
Definition held (k : Z) (R A : list cell) : list Z := zone k ++ extents R ++ headers A.

Lemma in_headers (A : list cell) (c : cell) : c ∈ A -> at_size c.1 ∈ headers A.
Proof. intros Hc. unfold headers. apply list_elem_of_bind. exists c. split; [right; left|done]. Qed.

Lemma headers_extents (A : list cell) (x : Z) : (forall c, c ∈ A -> 0 < c.2) -> x ∈ headers A -> x ∈ extents A.
Proof.
  intros HA. unfold headers. rewrite list_elem_of_bind. intros (c & Hx & Hc). apply in_extents. exists c. split; [done|].
  apply in_extent. specialize (HA c Hc). unfold at_ptr, at_size in Hx.
  apply elem_of_cons in Hx as [->|Hx]; [lia|]. apply list_elem_of_singleton in Hx. lia.
Qed.

Lemma held_touched (m : gmap Z Z) (k : Z) (R A : list cell) (spare : list Z) (x : Z) :
  kr_shape m k R A spare -> x ∈ held k R A -> x ∈ zone k ++ extents (R ++ A).
Proof.
  intros H. unfold held. rewrite extents_app, !elem_of_app. intros [Hx|[Hx|Hx]]; [by left|right; by left|right; right].
  by apply headers_extents; [apply (ks_alloc _ _ _ _ _ H)|].
Qed.

Lemma kr_inv_frame (m m' : gmap Z Z) (k cookie : Z) (R A : list cell) (spare : list Z) :
  (forall x, is_Some (m !! x) -> is_Some (m' !! x)) ->
  (forall x, x ∈ held k R A -> is_Some (m !! x) -> m' !! x = m !! x) ->
  kr_inv m k cookie R A spare -> kr_inv m' k cookie R A spare.
Proof.
  intros Hmap Hm [H (f & Hf & Hlk) Hco Hsz Hck].
  assert (Hzone : forall x, k <= x < k + 40 -> is_Some (m !! x) -> m' !! x = m !! x).
  { intros x Hx. apply Hm, elem_of_app. left. apply in_zone. lia. }
  split; [by eapply kr_shape_frame|exists f| done| |].
  - split; [rewrite Hzone; [done|unfold at_freep; lia|by rewrite Hf]|].
    eapply linked_ext; [|exact Hlk]. intros c Hc.
    assert (Hc' : c ∈ R ++ A) by (apply elem_of_app; by left).
    destruct (header_touched _ _ _ _ _ c H Hc') as (_ & Hp & Hs), (home_words _ _ _ _ _ H c Hc') as [Hp' Hs'].
    assert (Hin : forall x, x ∈ home k c -> x ∈ held k R A).
    { intros x Hx. apply elem_of_app. unfold home in Hx. destruct (decide (c.2 = 0)); [by left|right].
      apply elem_of_app. left. apply in_extents. by exists c. }
    split; apply Hm; auto.
  - intros c Hc. specialize (Hsz c Hc). rewrite Hm; [done| |by rewrite Hsz].
    apply elem_of_app. right. apply elem_of_app. right. by apply in_headers.
  - rewrite Hzone; [done|unfold at_cookie; lia|by rewrite Hck].
Qed.

(** New memory is a block that is handed out, until it is freed into the list. *)
Lemma kr_inv_granted (m : gmap Z Z) (k cookie : Z) (R A : list cell) (spare spare' : list Z) (r n : Z) :
  kr_inv m k cookie R A spare -> 0 < n -> mapped m (r, n) -> spare ≡ₚ extent (r, n) ++ spare' ->
  kr_inv (<[at_size r := n]> m) k cookie R ((r, n) :: A) spare'.
Proof.
  intros [H Hlk Hco Hsz Hck] Hn Hmap Hsp.
  assert (Hsh : kr_shape m k R ((r, n) :: A) spare').
  { destruct H as [Hb Hs Hp Ha Hm Hap Hz Hst]. split; try done.
    - intros c [->|Hc]%elem_of_cons; [done|by apply Ha].
    - intros c Hc. rewrite elem_of_app, elem_of_cons in Hc. destruct (decide (c = (r, n))) as [->|]; [done|].
      apply Hm, elem_of_app. tauto.
    - rewrite Hsp in Hap. assert (Hp' : extents (R ++ (r, n) :: A) ++ spare' ≡ₚ extents (R ++ A) ++ extent (r, n) ++ spare').
      { rewrite <- Permutation_middle, extents_cons, app_assoc. f_equiv. apply Permutation_app_comm. }
      by rewrite Hp'. }
  assert (Hin : (r, n) ∈ R ++ (r, n) :: A) by (apply elem_of_app; right; left).
  assert (Hinv : kr_inv m k cookie R A spare') by (destruct H as [Hb Hs Hp Ha Hm Hap Hz Hst]; split; try done; split; try done;
    rewrite Hsp, app_assoc in Hap; rewrite app_assoc; apply NoDup_app in Hap as (H1 & H2 & H3%NoDup_app); apply NoDup_app;
    split; [done|]; split; [|apply H3]; intros x Hx Hx'; apply (H2 x Hx), elem_of_app; by right).
  assert (Hfr : forall x, x ∈ zone k ++ extents (R ++ A) -> x <> at_size r).
  { intros x Hx ->. pose proof (home_words _ _ _ _ _ Hsh _ Hin) as [_ Hs]. cbn [fst] in Hs. unfold home in Hs.
    rewrite decide_False in Hs by (cbn; lia). apply elem_of_app in Hx as [Hx|(c & Hc & Hx)%in_extents].
    - by apply (not_zone _ _ _ _ _ Hsh _ (at_size r) Hin).
    - pose proof (ks_apart _ _ _ _ _ Hsh) as (_ & _ & Hnd)%NoDup_app. apply NoDup_app in Hnd as (Hnd & _ & _).
      rewrite <- Permutation_middle, extents_cons in Hnd. apply NoDup_app in Hnd as (_ & Hdis & _).
      apply (Hdis _ Hs), in_extents. by exists c. }
  apply (kr_inv_frame m (<[at_size r := n]> m)) in Hinv; [|intros x Hx; apply lookup_insert_is_Some'; by right|].
  2:{ intros x Hx _. rewrite lookup_insert_ne; [done|]. apply not_eq_sym, Hfr. eapply held_touched; [|exact Hx]. apply Hinv. }
  destruct Hinv as [_ Hlk' _ Hsz' Hck']. split; [|done|done| |done].
  - eapply kr_shape_ext; [|exact Hsh]. intros x Hx. apply lookup_insert_is_Some'. by right.
  - intros c [->|Hc]%elem_of_cons; [apply lookup_insert_eq|by apply Hsz'].
Qed.

Section search.
Context {W : Type} (morecore : Z -> Z -> Z -> M (heap W) Z).
#[local] Notation St := (heap W).

Lemma alloc_loop_fit (s : St) (fuel : nat) (k nunits prevp p size : Z) : words s !! at_size p = Some size -> nunits <= size ->
  alloc_loop morecore fuel k nunits prevp p s = take_units k nunits size prevp p s.
Proof.
  intros Hs Hle. destruct fuel; cbn [alloc_loop]; rewrite (bind_ok _ _ _ _ _ (load_word_ok _ _ _ Hs));
  by rewrite (proj2 (Z.leb_le _ _) Hle).
Qed.

Lemma alloc_loop_small (s : St) (fuel : nat) (k nunits prevp p f n size : Z) :
  words s !! at_size p = Some size -> size < nunits -> words s !! at_freep k = Some f -> p <> f -> words s !! at_ptr p = Some n ->
  alloc_loop morecore (S fuel) k nunits prevp p s = alloc_loop morecore fuel k nunits p n s.
Proof.
  intros Hs Hlt Hf Hne Hn. cbn [alloc_loop]. rewrite (bind_ok _ _ _ _ _ (load_word_ok _ _ _ Hs)).
  rewrite (proj2 (Z.leb_gt _ _) Hlt), (bind_ok _ _ _ _ _ (load_word_ok _ _ _ Hf)), (proj2 (Z.eqb_neq _ _) Hne).
  by rewrite (bind_ok _ _ _ _ _ (load_word_ok _ _ _ Hn)).
Qed.

(** The last block of a list, or what comes before it. *)
Fixpoint final (prevp : Z) (L : list cell) : Z := match L with [] => prevp | c :: L => final c.1 L end.

Lemma final_snoc (prevp : Z) (L : list cell) (c : cell) : final prevp (L ++ [c]) = c.1.
Proof. revert prevp. by induction L; intros prevp; cbn. Qed.

Lemma alloc_walk (s : St) (fuel : nat) (k nunits prevp p q f : Z) (L : list cell) :
  linked (words s) p q L -> (forall c, c ∈ L -> c.2 < nunits) -> words s !! at_freep k = Some f -> f ∉ L.*1 ->
  alloc_loop morecore (length L + fuel) k nunits prevp p s = alloc_loop morecore fuel k nunits (final prevp L) q s.
Proof.
  intros HL Hsm Hf. revert p prevp HL. induction L as [|c L IH]; intros p prevp HL Hfl; [by cbn in HL; subst|].
  destruct HL as (-> & Hs & n & Hn & HL). cbn in Hfl. apply not_elem_of_cons in Hfl as [Hfc Hfl]. cbn [length Nat.add].
  rewrite (alloc_loop_small s _ k nunits prevp c.1 f n c.2 Hs); [|apply Hsm; left|done|done|done].
  apply IH; [|done|done]. intros d Hd. apply Hsm. by right.
Qed.

Lemma first_fit (L : list cell) (nunits : Z) :
  (forall c, c ∈ L -> c.2 < nunits) \/
  exists L1 x L2, L = L1 ++ x :: L2 /\ nunits <= x.2 /\ forall c, c ∈ L1 -> c.2 < nunits.
Proof.
  induction L as [|c L IH]; [left; by intros ? ?%not_elem_of_nil|].
  destruct (decide (nunits <= c.2)) as [Hc|Hc].
  { right. exists [], c, L. split; [done|]. split; [done|]. by intros ? ?%not_elem_of_nil. }
  destruct IH as [IH|(L1 & x & L2 & -> & Hx & H1)].
  - left. intros d [->|Hd]%elem_of_cons; [lia|by apply IH].
  - right. exists (c :: L1), x, L2. split; [done|]. split; [done|]. intros d [->|Hd]%elem_of_cons; [lia|by apply H1].
Qed.

Lemma kr_inv_rotate (m : gmap Z Z) (k cookie : Z) (R1 R2 A : list cell) (spare : list Z) (c : cell) :
  kr_inv m k cookie (R1 ++ c :: R2) A spare ->
  kr_shape m k (c :: R2 ++ R1) A spare /\ (forall f, linked m f f (R1 ++ c :: R2) -> linked m c.1 c.1 (c :: R2 ++ R1)) /\
  (forall d e, d ∈ c :: R2 ++ R1 -> e ∈ c :: R2 ++ R1 -> 0 < d.2 -> d.1 + 16 * d.2 <> e.1).
Proof.
  intros [H _ Hco _ _]. split; [by apply (kr_shape_rotate m k R1 (c :: R2))|]. split; [intros f; apply linked_rotate|].
  intros d e Hd He. apply Hco; rewrite elem_of_app, elem_of_cons in *; rewrite elem_of_app in *; tauto.
Qed.

(** A round that finds a block: it is taken out of the list as it starts before it. *)
Lemma fit_taken (s : St) (k cookie nunits : Z) (L0 L1 post : list cell) (prev x : cell) (A : list cell) (spare : list Z) (f : Z) :
  kr_inv (words s) k cookie (L0 ++ prev :: L1) A spare -> L1 ++ L0 = x :: post ->
  linked (words s) f f (L0 ++ prev :: L1) -> 0 < nunits <= x.2 ->
  exists m' R' y, took s k cookie nunits prev x post A spare (take_units k nunits x.2 prev.1 x.1 s) m' R' y.
Proof.
  intros H Heq Hlk Hn. destruct (kr_inv_rotate _ _ _ _ _ _ _ _ H) as (Hsh & Hrot & Hco). apply Hrot in Hlk. rewrite Heq in *.
  destruct H as [_ _ _ Hsz Hck]. by apply (take_units_ok s k cookie nunits prev x post).
Qed.

Lemma not_in_prefix (c : cell) (rest L1 L2 : list cell) (x : cell) :
  NoDup (c :: rest).*1 -> rest ++ [c] = L1 ++ x :: L2 -> c.1 ∉ L1.*1.
Proof.
  intros Hnd Heq Hin. assert (Hp : rest ++ [c] ≡ₚ c :: rest) by (symmetry; apply Permutation_cons_append).
  rewrite <- Hp, Heq in Hnd. destruct L2 as [|y L2 _] using rev_ind.
  - apply app_inj_tail in Heq as [-> ->]. rewrite fmap_app in Hnd. apply NoDup_app in Hnd as (_ & Hdis & _).
    apply (Hdis _ Hin). left.
  - change (x :: L2 ++ [y]) with ((x :: L2) ++ [y]) in *. rewrite app_assoc in Heq. apply app_inj_tail in Heq as [_ ->].
    rewrite fmap_app in Hnd. apply NoDup_app in Hnd as (_ & Hdis & _). apply (Hdis _ Hin).
    rewrite fmap_app. right. apply elem_of_app. right. left.
Qed.

Definition allocated (s : St) (k cookie nunits : Z) (R A : list cell) (spare : list Z) (run : res (Z * St)) : Prop :=
  exists m' R' y, run = Ok (y + 16, Heap m' (outer s)) /\ kr_inv m' k cookie R' ((y, nunits) :: A) spare /\
    extents (R' ++ [(y, nunits)]) ≡ₚ extents R /\ changes_only (touched k ++ extents R) (words s) m'.

Lemma took_allocated (s : St) (k cookie nunits : Z) (prev x : cell) (post R A : list cell) (spare : list Z) (run : res (Z * St)) :
  prev :: x :: post ≡ₚ R -> (exists m' R' y, took s k cookie nunits prev x post A spare run m' R' y) ->
  allocated s k cookie nunits R A spare run.
Proof.
  intros Hp (m' & R' & y & Hrun & Hinv & Hext & Hch). exists m', R', y. split; [done|]. split; [done|].
  split; [by rewrite <- Hp|]. eapply changes_perm; [|exact Hch]. by rewrite Hp.
Qed.

Lemma fit_round (s : St) (fuel : nat) (k cookie nunits f p : Z) (R A : list cell) (spare : list Z) :
  kr_inv (words s) k cookie R A spare -> words s !! at_freep k = Some f -> words s !! at_ptr f = Some p ->
  0 < nunits -> (exists c, c ∈ R /\ nunits <= c.2) -> (length R <= fuel)%nat ->
  allocated s k cookie nunits R A spare (alloc_loop morecore fuel k nunits f p s).
Proof.
  intros H Hf Hp Hn0 (c & Hc & Hcn) Hfuel. pose proof (kr_shaped _ _ _ _ _ _ H) as Hsh.
  assert (Hlk : linked (words s) f f R) by (destruct (kr_linked _ _ _ _ _ _ H) as (f' & Hf' & Hlk); by simplify_eq).
  destruct R as [|c0 rest]; [by apply not_elem_of_nil in Hc|].
  pose proof Hlk as (-> & Hs0 & p' & Hp' & Hrest). rewrite Hp' in Hp. injection Hp as ->.
  assert (HL : linked (words s) p p (rest ++ [c0])).
  { apply linked_app. exists c0.1. split; [done|]. split; [done|]. split; [done|]. by exists p. }
  pose proof (cyc_sorted_NoDup _ (ks_sorted _ _ _ _ _ Hsh)) as Hnd.
  destruct (first_fit (rest ++ [c0]) nunits) as [Hno|(L1 & x & L2 & Heq & Hx & Hsm)].
  { specialize (Hno c). rewrite elem_of_app, list_elem_of_singleton in Hno. apply elem_of_cons in Hc. assert (c.2 < nunits) by tauto. lia. }
  pose proof (not_in_prefix c0 rest L1 L2 x Hnd Heq) as Hnot. rewrite Heq in HL.
  apply linked_app in HL as (q & HL1 & HL2). pose proof HL2 as (-> & Hsx & _).
  assert (Hlen : (length L1 <= fuel)%nat).
  { assert (length (rest ++ [c0]) = length (L1 ++ x :: L2)) by (by rewrite Heq). rewrite !length_app in *. cbn in *. lia. }
  replace fuel with (length L1 + (fuel - length L1))%nat by lia.
  rewrite (alloc_walk s _ k nunits c0.1 p x.1 c0.1 L1 HL1 Hsm Hf Hnot), (alloc_loop_fit s _ k nunits _ x.1 x.2 Hsx Hx).
  destruct L1 as [|pr L1 _] using rev_ind.
  - (* the first block after freep *)
    destruct L2 as [|y L2 _] using rev_ind.
    { destruct rest as [|r rest]; cbn in Heq; [|by destruct rest]. injection Heq as ->.
      pose proof (ks_base _ _ _ _ _ Hsh) as <-%list_elem_of_singleton. cbn in Hx. lia. }
    rewrite app_comm_cons in Heq. apply app_inj_tail in Heq as [-> ->].
    eapply took_allocated; [|apply (fit_taken s k cookie nunits [] (x :: L2) L2 y x A spare y.1 H); try done]; [done|by rewrite app_nil_r].
  - rewrite final_snoc. destruct L2 as [|y L2 _] using rev_ind.
    + (* the last: freep itself *)
      apply app_inj_tail in Heq as [-> ->].
      eapply took_allocated; [|apply (fit_taken s k cookie nunits (x :: L1) [] L1 pr x A spare x.1 H); done].
      rewrite (Permutation_cons_append (x :: L1) pr). done.
    + rewrite app_comm_cons, app_assoc in Heq. apply app_inj_tail in Heq as [-> ->]. rewrite <- app_assoc in *. cbn [app] in *.
      eapply took_allocated; [|apply (fit_taken s k cookie nunits (y :: L1) (x :: L2) (L2 ++ y :: L1) pr x A spare y.1 H); done].
      change (y :: L1 ++ pr :: x :: L2) with ((y :: L1) ++ pr :: x :: L2). by rewrite (Permutation_app_comm (y :: L1)).
Qed.
End search.

(** ** The theorems *)

(** Bytes of the pool, and of blocks handed out, are not those the allocator writes. *)
Lemma spare_apart (m : gmap Z Z) (k : Z) (R A : list cell) (spare : list Z) (x : Z) :
  kr_shape m k R A spare -> x ∈ spare -> x ∉ touched k ++ extents (R ++ A) /\ x ∉ zone k.
Proof.
  intros H Hx. pose proof (ks_apart _ _ _ _ _ H) as (_ & Hz & Hnd)%NoDup_app. apply NoDup_app in Hnd as (_ & He & _).
  assert (Hxz : x ∉ zone k) by (intros Hxz; apply (Hz x Hxz), elem_of_app; by right).
  split; [|done]. intros [Ht|Hxe]%elem_of_app; [|by apply (He x)]. apply Hxz, in_zone.
  unfold touched, at_ptr, at_size, at_freep in Ht.
  repeat (apply elem_of_cons in Ht as [Ht|Ht]; [lia|]). by apply not_elem_of_nil in Ht.
Qed.

Lemma alloc_apart (m : gmap Z Z) (k : Z) (R A B : list cell) (spare : list Z) (x : Z) :
  kr_shape m k R (B ++ A) spare -> x ∈ extents A -> x ∉ touched k ++ extents (R ++ B) /\ x ∉ spare.
Proof.
  intros H Hx. pose proof (ks_apart _ _ _ _ _ H) as (_ & Hz & Hnd)%NoDup_app.
  rewrite app_assoc, extents_app, <- app_assoc in Hz, Hnd. apply NoDup_app in Hnd as (_ & H1 & Hnd). apply NoDup_app in Hnd as (_ & H2 & _).
  split; [|by apply H2]. intros [Ht|Hxe]%elem_of_app; [|apply (H1 x Hxe), elem_of_app; by left].
  apply (Hz x); [|apply elem_of_app; right; apply elem_of_app; by left].
  apply in_zone. unfold touched, at_ptr, at_size, at_freep in Ht.
  repeat (apply elem_of_cons in Ht as [Ht|Ht]; [lia|]). by apply not_elem_of_nil in Ht.
Qed.

(** Set up, but no list yet. *)
Definition kr_fresh (m : gmap Z Z) (k cookie : Z) (spare : list Z) : Prop :=
  kr_shape m k [(k, 0)] [] spare /\ m !! at_freep k = Some 0 /\ m !! at_cookie k = Some cookie.

Definition kr_ready (m : gmap Z Z) (k cookie : Z) (R A : list cell) (spare : list Z) : Prop :=
  kr_inv m k cookie R A spare \/ (R = [(k, 0)] /\ A = [] /\ kr_fresh m k cookie spare).

Definition units (nbytes : Z) : Z := (nbytes + 15) / 16 + 1.

Lemma units_for_eq (nbytes : Z) : 0 <= nbytes -> nbytes + 32 <= word_size -> units_for nbytes = units nbytes.
Proof.
  intros H0 H1. unfold units_for, units, sizeof_k_r_malloc_header_t. unfold word_size in *.
  rewrite (wrap_small (nbytes + 16)) by (unfold is_word, word_size; lia).
  rewrite (wrap_small (_ - 1)) by (unfold is_word, word_size; lia).
  replace (nbytes + 16 - 1) with (nbytes + 15) by lia. apply wrap_small. unfold is_word, word_size. dlia.
Qed.

Lemma units_bounds (nbytes : Z) : 0 <= nbytes -> 0 < units nbytes /\ nbytes <= 16 * (units nbytes - 1) < nbytes + 16.
Proof. intros H. unfold units. dlia. Qed.

Section spec.
Context {W : Type} {morecore : Z -> Z -> Z -> M (heap W) Z} {ML : MorecoreLaws morecore}.
#[local] Notation St := (heap W).

(** Memory stays mapped, and apart from [own] and what the clients write, as it was. *)
Definition preserves (own : list Z) (s s' : St) : Prop :=
  (forall x, is_Some (words s !! x) -> is_Some (words s' !! x)) /\
  forall x, x ∉ own -> ~ client_words x -> is_Some (words s !! x) -> words s' !! x = words s !! x.

Lemma preserves_trans (own own1 own2 : list Z) (s1 s2 s3 : St) :
  (forall x, x ∈ own1 -> x ∈ own) -> (forall x, x ∈ own2 -> x ∈ own) ->
  preserves own1 s1 s2 -> preserves own2 s2 s3 -> preserves own s1 s3.
Proof.
  intros H1 H2 [M1 E1] [M2 E2]. split; [auto|]. intros x Hx Hc Hs. rewrite E2 by auto. apply E1; auto.
Qed.

Lemma preserves_changes (l own : list Z) (s : St) (m' : gmap Z Z) (w : W) : (forall x, x ∈ l -> x ∈ own) ->
  changes_only l (words s) m' -> preserves own s (Heap m' w).
Proof. intros Hl [H1 H2]. split; [intros x; apply H2|]. intros x Hx _ _. apply H1. auto. Qed.

(** What allocating [n] units gives, from a list [R] and the pool's [spare]. *)
Definition alloc_outcome (s : St) (k cookie n : Z) (R A : list cell) (spare : list Z) (run : res (Z * St)) : Prop :=
  exists r s' spare', run = Ok (r, s') /\ pool_inv cookie k (words s') (outer s') spare' /\
    preserves (touched k ++ extents R ++ spare) s s' /\
    ((r = 0 /\ kr_inv (words s') k cookie R A spare /\ spare' = spare /\ refuses spare n /\ forall c, c ∈ R -> c.2 < n) \/
     (exists R', r <> 0 /\ kr_inv (words s') k cookie R' ((r - 16, n) :: A) spare' /\
        extents (R' ++ [(r - 16, n)]) ++ spare' ≡ₚ extents R ++ spare /\
        ((exists c, c ∈ R /\ n <= c.2) -> spare' = spare))).

Lemma pool_kept (s : St) (m' : gmap Z Z) (w : W) (k cookie : Z) (R A : list cell) (spare : list Z) :
  kr_shape (words s) k R A spare -> changes_only (touched k ++ extents (R ++ A)) (words s) m' ->
  pool_inv cookie k (words s) w spare -> pool_inv cookie k m' w spare.
Proof. intros H [Hm _]. apply pool_local. intros x Hx. apply Hm. by apply (spare_apart _ _ _ _ _ _ H). Qed.

Lemma changes_more (l l' : list Z) (m m' : gmap Z Z) : (forall x, x ∈ l -> x ∈ l') -> changes_only l m m' -> changes_only l' m m'.
Proof. intros Hl [H1 H2]. split; [|done]. intros x Hx. apply H1. auto. Qed.

Lemma more_extents (k : Z) (R A : list cell) (x : Z) : x ∈ touched k ++ extents R -> x ∈ touched k ++ extents (R ++ A).
Proof. rewrite extents_app, !elem_of_app. tauto. Qed.

(** A round that finds a block big enough. *)
Lemma fit_outcome (s : St) (fuel : nat) (k cookie n f p : Z) (R A : list cell) (spare : list Z) :
  kr_inv (words s) k cookie R A spare -> pool_inv cookie k (words s) (outer s) spare ->
  words s !! at_freep k = Some f -> words s !! at_ptr f = Some p ->
  0 < n -> (exists c, c ∈ R /\ n <= c.2) -> (length R <= fuel)%nat ->
  alloc_outcome s k cookie n R A spare (alloc_loop morecore fuel k n f p s).
Proof.
  intros H Hpool Hf Hp Hn Hfit Hfuel. pose proof (kr_shaped _ _ _ _ _ _ H) as Hsh.
  destruct (fit_round morecore s fuel k cookie n f p R A spare H Hf Hp Hn Hfit Hfuel) as (m' & R' & y & Hrun & Hinv & Hext & Hch).
  exists (y + 16), (Heap m' (outer s)), spare. split; [done|]. split.
  { eapply pool_kept; [exact Hsh| |done]. eapply changes_more; [|exact Hch]. apply more_extents. }
  split.
  { eapply preserves_changes; [|exact Hch]. intros x. rewrite !elem_of_app. tauto. }
  right. exists R'. replace (y + 16 - 16) with y by lia.
  destruct (ks_nonneg _ _ _ _ _ (kr_shaped _ _ _ _ _ _ Hinv) (y, n)) as (Hy & _); [apply elem_of_app; right; left|]. cbn in Hy.
  split; [lia|]. split; [done|]. split; [by rewrite Hext|done].
Qed.

(** A round that finds none: more memory is asked for. *)
Lemma grow_outcome (s : St) (fuel : nat) (k cookie n f prevp : Z) (R A : list cell) (spare : list Z) :
  kr_inv (words s) k cookie R A spare -> pool_inv cookie k (words s) (outer s) spare ->
  (forall x, client_words x -> x ∉ held k R A) -> askable spare n ->
  words s !! at_freep k = Some f -> 0 < n -> 16 * n < word_size -> (forall c, c ∈ R -> c.2 < n) -> (S (length R) <= fuel)%nat ->
  alloc_outcome s k cookie n R A spare (alloc_loop morecore (S fuel) k n prevp f s).
Proof.
  intros H Hpool Hcl Hask Hf Hn Hn' Hsm Hfuel. pose proof (kr_shaped _ _ _ _ _ _ H) as Hsh.
  assert (Hlk : linked (words s) f f R) by (destruct (kr_linked _ _ _ _ _ _ H) as (f' & Hf' & Hlk); by simplify_eq).
  destruct R as [|c0 rest] eqn:HR; [pose proof (ks_base _ _ _ _ _ Hsh) as Hb; by apply not_elem_of_nil in Hb|].
  rewrite <- HR in *. assert (Hc0 : c0 ∈ R) by (rewrite HR; left).
  assert (Hf0 : f = c0.1 /\ words s !! at_size f = Some c0.2) by (rewrite HR in Hlk; destruct Hlk as (-> & ? & _); done).
  destruct Hf0 as [Hf0 Hs0].
  cbn [alloc_loop]. rewrite (bind_ok _ _ _ _ _ (load_word_ok _ _ _ Hs0)), (proj2 (Z.leb_gt _ _) (Hsm c0 Hc0)).
  rewrite (bind_ok _ _ _ _ _ (load_word_ok _ _ _ Hf)), Z.eqb_refl, (bind_ok _ _ _ _ _ (load_word_ok _ _ _ (kr_cookie _ _ _ _ _ _ H))).
  destruct (morecore_law cookie k n s spare Hpool Hask Hn Hn') as (r & s1 & spare1 & Hmore & Hpool1 & Hmapd & Hkeep & Hcase).
  rewrite (bind_ok _ _ _ _ _ Hmore).
  assert (Hinv1 : kr_inv (words s1) k cookie R A spare).
  { eapply kr_inv_frame; [exact Hmapd| |exact H]. intros x Hx. apply Hkeep; [|by intros Hc; apply (Hcl x Hc)].
    intros Hxs. destruct (spare_apart _ _ _ _ _ _ Hsh Hxs) as [Hn1 Hn2].
    apply (held_touched _ _ _ _ _ _ Hsh), elem_of_app in Hx as [Hx|Hx]; [done|]. apply Hn1, elem_of_app. by right. }
  assert (Hk1 : preserves spare s s1) by done.
  destruct Hcase as [(-> & -> & Href)|(Hr & Hmap & Hsp)].
  { exists 0, s1, spare. split; [done|]. split; [done|]. split; [|by left].
    eapply (preserves_trans _ spare []); [| |exact Hk1|by split]; intros x Hx; [|by apply not_elem_of_nil in Hx].
    rewrite !elem_of_app. tauto. }
  rewrite (proj2 (Z.eqb_neq _ _) Hr).
  assert (Hst : is_Some (words s1 !! at_size r)).
  { destruct Hmap as (_ & _ & _ & Hi). specialize (Hi 0 ltac:(cbn; lia)). cbn in Hi. rewrite Z.add_0_r in Hi. apply Hi. }
  rewrite (bind_ok _ _ _ _ _ (store_word_ok _ _ _ Hst)).
  pose proof (kr_inv_granted _ _ _ _ _ _ _ _ _ Hinv1 Hn Hmap Hsp) as Hinv2.
  set (s2 := Heap (<[at_size r := n]> (words s1)) (outer s1)) in *.
  destruct (kr_free_ok s2 k cookie (r, n) R A spare1 Hinv2) as (m3 & R3 & Hfree & Hinv3 & Hext3 & Hch3 & Hroom & Hlen).
  cbn [fst snd] in *. rewrite (bind_ok _ _ _ _ _ Hfree).
  destruct (kr_linked _ _ _ _ _ _ Hinv3) as (f3 & Hf3 & Hlk3).
  rewrite (bind_ok _ _ _ (Heap m3 (outer s2)) f3) by (by apply load_word_ok).
  destruct R3 as [|c3 rest3] eqn:HR3; [destruct Hroom as (c & Hc & _); by apply not_elem_of_nil in Hc|].
  rewrite <- HR3 in *. assert (Hp3 : exists p3, m3 !! at_ptr f3 = Some p3) by (rewrite HR3 in Hlk3; destruct Hlk3 as (-> & _ & p3 & ? & _); by exists p3).
  destruct Hp3 as [p3 Hp3]. rewrite (bind_ok _ _ _ (Heap m3 (outer s2)) p3) by (by apply load_word_ok).
  pose proof (kr_shaped _ _ _ _ _ _ Hinv2) as Hsh2.
  assert (Hpool3 : pool_inv cookie k m3 (outer s1) spare1).
  { eapply (pool_kept s2); [exact Hsh2| |].
    - eapply changes_more; [|exact Hch3]. intros x. rewrite !extents_app, extents_single, extents_cons, !elem_of_app. tauto.
    - eapply pool_local; [|exact Hpool1]. intros x Hx. cbn. rewrite lookup_insert_ne; [done|]. intros <-.
      destruct (spare_apart _ _ _ _ _ _ Hsh2 Hx) as [Hno _]. apply Hno.
      apply (header_touched _ _ _ _ _ (r, n) Hsh2); apply elem_of_app; right; left. }
  destruct (fit_outcome (Heap m3 (outer s2)) fuel k cookie n f3 p3 R3 A spare1 Hinv3 Hpool3 Hf3 Hp3 Hn Hroom ltac:(lia))
    as (r4 & s4 & spare4 & Hrun & Hpool4 & Hk4 & Hcase4).
  exists r4, s4, spare4. split; [exact Hrun|]. split; [done|]. split.
  { assert (Hext : forall x, x ∈ extent (r, n) -> x ∈ spare) by (intros x Hx; rewrite Hsp; apply elem_of_app; by left).
    eapply (preserves_trans _ spare (spare ++ touched k ++ extents R)); [| |exact Hk1|]; [intros x; rewrite !elem_of_app; tauto..|].
    eapply (preserves_trans _ (extent (r, n)) (spare ++ touched k ++ extents R) _ s2); [intros x Hx; apply elem_of_app; by left; apply Hext|done| |].
    { eapply (preserves_changes (extent (r, n))); [done|]. apply changes_insert; [|done]. apply in_extent. unfold at_size. cbn. lia. }
    eapply (preserves_trans _ _ (touched k ++ extents R3 ++ spare1)); [intros x Hx; exact Hx| | |exact Hk4].
    - intros x. rewrite !elem_of_app, Hext3, extents_app, extents_single, elem_of_app. intros [Hx|[[Hx|Hx]|Hx]]; auto.
      left. rewrite Hsp. apply elem_of_app. by right.
    - eapply preserves_changes; [|exact Hch3]. intros x. rewrite !elem_of_app, extents_app, extents_single, elem_of_app.
      intros [Hx|[Hx|Hx]]; auto. }
  destruct Hcase4 as [(_ & _ & _ & _ & Hno)|(R5 & Hr5 & Hinv5 & Hext5 & Hsp5)].
  { destruct Hroom as (c & Hc & Hcn). specialize (Hno c Hc). lia. }
  right. exists R5. split; [done|]. split; [done|]. split.
  - by rewrite Hext5, Hext3, Hsp, extents_app, extents_single, <- app_assoc.
  - intros (c & Hc & Hcn). specialize (Hsm c Hc). lia.
Qed.

(** From the list on. *)
Lemma search_outcome (s : St) (k cookie n f : Z) (R A : list cell) (spare : list Z) :
  kr_inv (words s) k cookie R A spare -> pool_inv cookie k (words s) (outer s) spare ->
  (forall x, client_words x -> x ∉ held k R A) -> askable spare n -> words s !! at_freep k = Some f -> 0 < n -> 16 * n < word_size ->
  alloc_outcome s k cookie n R A spare
    ((let! fuel := gets (fun s => 2 * size (words s) + 2)%nat in let! p := load (at_ptr f) in
      alloc_loop morecore fuel k n f p) s).
Proof.
  intros H Hpool Hcl Hask Hf Hn Hn'. pose proof (kr_shaped _ _ _ _ _ _ H) as Hsh.
  assert (Hlk : linked (words s) f f R) by (destruct (kr_linked _ _ _ _ _ _ H) as (f' & Hf' & Hlk); by simplify_eq).
  pose proof (cyc_sorted_NoDup _ (ks_sorted _ _ _ _ _ Hsh)) as Hnd.
  pose proof (linked_length _ _ _ Hnd Hlk) as Hlen.
  unfold bind at 1. cbn [gets res_bind].
  destruct R as [|c0 rest] eqn:HR; [pose proof (ks_base _ _ _ _ _ Hsh) as Hb; by apply not_elem_of_nil in Hb|].
  pose proof Hlk as (-> & Hs0 & p & Hp & Hrest). rewrite (bind_ok _ _ _ _ _ (load_word_ok _ _ _ Hp)). cbn [length] in Hlen.
  destruct (first_fit (c0 :: rest) n) as [Hsm|(L1 & x & L2 & Heq & Hx & _)].
  - assert (Hsplit : (2 * size (words s) + 2)%nat = (length rest + S (2 * size (words s) + 1 - length rest))%nat) by lia.
    rewrite Hsplit. rewrite (alloc_walk morecore s _ k n c0.1 p c0.1 c0.1 rest Hrest); [|intros c Hc; apply Hsm; by right|done|].
    + apply (grow_outcome s _ k cookie n c0.1 _ (c0 :: rest) A spare); try done. cbn. lia.
    + by apply NoDup_cons in Hnd as [Hno _].
  - apply fit_outcome; try done; [exists x; split; [rewrite Heq; apply elem_of_app; right; left|done]|]. cbn. lia.
Qed.

Lemma fresh_list (s : St) (k cookie : Z) (spare : list Z) : kr_fresh (words s) k cookie spare ->
  exists m', (let base := at_base k in let! _ := store (at_freep k) base in let! _ := store (at_ptr base) base in
      let! _ := store (at_size base) 0 in ret base) s = Ok (k, Heap m' (outer s)) /\
    kr_inv m' k cookie [(k, 0)] [] spare /\ m' !! at_freep k = Some k /\ changes_only (touched k) (words s) m'.
Proof.
  intros (Hsh & Hf & Hck). destruct (ks_struct _ _ _ _ _ Hsh) as (H1 & H2 & H3).
  set (m' := <[at_size k := 0]> (<[at_ptr k := k]> (<[at_freep k := k]> (words s)))).
  assert (Hch : changes_only (touched k) (words s) m').
  { eapply changes_trans; [apply (changes_insert _ _ (at_freep k) k); [do 2 right; left|done]|].
    eapply changes_trans; [apply (changes_insert _ _ (at_ptr k) k); [left|apply lookup_insert_is_Some'; by right]|].
    apply changes_insert; [right; left|]. apply lookup_insert_is_Some'. right. apply lookup_insert_is_Some'. by right. }
  assert (Hne : at_ptr k <> at_size k /\ at_ptr k <> at_freep k /\ at_size k <> at_freep k) by (unfold at_ptr, at_size, at_freep; lia).
  destruct Hne as (Hn1 & Hn2 & Hn3).
  exists m'. split; [|split; [|split; [|done]]].
  - cbv zeta. unfold at_base. rewrite (bind_ok _ _ _ _ _ (store_word_ok _ _ _ H3)).
    rewrite (bind_ok _ _ (Heap _ _) _ _ (store_word_ok (Heap (<[at_freep k := k]> (words s)) (outer s)) (at_ptr k) k
      (ltac:(cbn; apply lookup_insert_is_Some'; by right)))).
    cbn [words outer].
    rewrite (bind_ok _ _ (Heap _ _) _ _ (store_word_ok (Heap (<[at_ptr k := k]> (<[at_freep k := k]> (words s))) (outer s)) (at_size k) 0
      (ltac:(cbn; apply lookup_insert_is_Some'; right; apply lookup_insert_is_Some'; by right)))).
    done.
  - split; [|exists k| | |].
    + eapply kr_shape_ext; [|exact Hsh]. intros x Hx. by apply Hch.
    + split; [unfold m'; rewrite !lookup_insert_ne by congruence; apply lookup_insert_eq|].
      split; [done|]. split; [apply lookup_insert_eq|]. exists k. split; [|done].
      unfold m'. rewrite lookup_insert_ne by congruence. apply lookup_insert_eq.
    + intros c d ->%list_elem_of_singleton. cbn. lia.
    + by intros c ?%not_elem_of_nil.
    + destruct Hch as [Hch _]. rewrite Hch; [done|]. unfold touched, at_ptr, at_size, at_freep, at_cookie. intros Ht.
      repeat (apply elem_of_cons in Ht as [Ht|Ht]; [lia|]). by apply not_elem_of_nil in Ht.
  - unfold m'. rewrite !lookup_insert_ne by congruence. apply lookup_insert_eq.
Qed.

(** C7: allocating succeeds when a block of the free list is big enough, or else
    when the pool gives more memory: the result is a block of at least the size
    asked for, in memory no other block uses, and the free list keeps its order
    with no two blocks that touch.  No byte is lost or used twice: the block and
    the new free list are made of the old free list and of what the pool gave.
    Null is returned only if no block is big enough and the pool refuses.  Nothing
    changes in memory but the allocator's own words, its free blocks, what the
    pool had left, and what the pool's own clients write. *)
Theorem k_r_alloc_spec (s : St) (k cookie nbytes : Z) (R A : list cell) (spare : list Z) :
  kr_ready (words s) k cookie R A spare -> pool_inv cookie k (words s) (outer s) spare ->
  (forall x, client_words x -> x ∉ held k R A) -> askable spare (units nbytes) -> 0 <= nbytes -> nbytes + 32 <= word_size ->
  nbytes <= 16 * (units nbytes - 1) < nbytes + 16 /\
  alloc_outcome s k cookie (units nbytes) R A spare (mspace_k_r_malloc_alloc morecore k nbytes s).
Proof.
  intros Hready Hpool Hcl Hask H0 H1. destruct (units_bounds nbytes H0) as [Hu Hb]. split; [done|].
  unfold mspace_k_r_malloc_alloc. rewrite units_for_eq by done. cbv zeta.
  assert (Hu' : 16 * units nbytes < word_size) by lia.
  destruct Hready as [H|(-> & -> & Hfr)].
  - destruct (kr_linked _ _ _ _ _ _ H) as (f & Hf & Hlk). rewrite (bind_ok _ _ _ _ _ (load_word_ok _ _ _ Hf)).
    assert (Hf0 : f =? 0 = false).
    { apply Z.eqb_neq. destruct R as [|c R]; [destruct (not_elem_of_nil _ (ks_base _ _ _ _ _ (kr_shaped _ _ _ _ _ _ H)))|].
      destruct Hlk as [-> _]. destruct (ks_nonneg _ _ _ _ _ (kr_shaped _ _ _ _ _ _ H) c); [left|lia]. }
    rewrite Hf0. unfold bind at 1. cbn [ret res_bind]. by apply search_outcome.
  - destruct (fresh_list s k cookie spare Hfr) as (m' & Hrun & Hinv & Hf & Hch). destruct Hfr as (Hsh & Hf0 & _).
    rewrite (bind_ok _ _ _ _ _ (load_word_ok _ _ _ Hf0)). rewrite Z.eqb_refl, (bind_ok _ _ _ _ _ Hrun).
    assert (Hpool' : pool_inv cookie k m' (outer s) spare).
    { eapply (pool_kept s); [exact Hsh| |done]. eapply changes_more; [|exact Hch]. intros x Hx. apply elem_of_app. by left. }
    destruct (search_outcome (Heap m' (outer s)) k cookie (units nbytes) k _ _ spare Hinv Hpool' Hcl Hask Hf Hu Hu')
      as (r & s' & spare' & Hr & Hp' & Hkeep & Hcase).
    exists r, s', spare'. split; [exact Hr|]. split; [exact Hp'|]. split; [|exact Hcase].
    eapply preserves_trans; [| |eapply preserves_changes; [|exact Hch]|exact Hkeep]; [|done|done].
    intros x Hx. apply elem_of_app. by left.
Qed.

(** C8: freeing a block gives back exactly its bytes: the free list is made of
    the old one and of the block, in order, and joined so that no two of its
    blocks touch; the search for its place ends.  Nothing changes in memory but
    the allocator's own words, its free blocks and the block. *)
Theorem k_r_free_spec (s : St) (k cookie : Z) (b : cell) (R A : list cell) (spare : list Z) :
  kr_inv (words s) k cookie R (b :: A) spare -> pool_inv cookie k (words s) (outer s) spare ->
  exists s' R', mspace_k_r_malloc_free k (b.1 + 16) s = Ok (tt, s') /\ outer s' = outer s /\
    kr_inv (words s') k cookie R' A spare /\ pool_inv cookie k (words s') (outer s') spare /\
    extents R' ≡ₚ extents R ++ extent b /\
    changes_only (touched k ++ extents R ++ extent b) (words s) (words s').
Proof.
  intros H Hpool. pose proof (kr_shaped _ _ _ _ _ _ H) as Hsh.
  destruct (ks_nonneg _ _ _ _ _ Hsh b) as (Hb & _ & Hbe); [apply elem_of_app; right; left|].
  pose proof (ks_alloc _ _ _ _ _ Hsh b ltac:(left)) as Hb1.
  destruct (kr_free_ok s k cookie b R A spare H) as (m' & R' & Hrun & Hinv & Hext & Hch & _).
  rewrite header_at_small in Hrun by lia. exists (Heap m' (outer s)), R'. split; [exact Hrun|]. split; [done|]. split; [done|].
  split; [|split].
  - eapply (pool_kept s); [exact Hsh| |done]. eapply changes_more; [|exact Hch].
    intros x. rewrite !extents_app, extents_single, extents_cons, !elem_of_app. tauto.
  - by rewrite Hext, extents_app, extents_single.
  - by rewrite extents_app, extents_single in Hch.
Qed.

End spec.

(** ** A small heap

    A structure at 1000 and a block of four units at 2000, and a pool that has
    nothing to give. *)

Definition no_core : Z -> Z -> Z -> M (heap unit) Z := fun _ _ _ => ret 0.

#[export] Program Instance no_core_laws : MorecoreLaws no_core := {|
  pool_inv _ _ _ _ _ := True; client_words _ := False; askable _ _ := True; refuses _ _ := True
|}.
Next Obligation. done. Qed.
Next Obligation. intros cookie k n s spare _ _ _ _. exists 0, s, spare. do 4 (split; [done|]). by left. Qed.

Definition small_blocks : list (Z * Z) := (fun i => (2000 + 8 * i, 0)) <$> seqZ 0 8.
Definition small_words (freep next size : Z) : gmap Z Z :=
  list_to_map ([(1000, next); (1008, 0); (1016, freep); (1024, 7); (2000, 1000); (2008, size)] ++ small_blocks).

Lemma small_shape (freep next : Z) (R A : list cell) : R ++ A = [(1000, 0); (2000, 4)] -> (1000, 0) ∈ R -> cyc_sorted R.*1 ->
  kr_shape (small_words freep next 4) 1000 R A [].
Proof.
  intros Heq Hb Hs. assert (Hin : forall c, c ∈ R ++ A -> c = (1000, 0) \/ c = (2000, 4)).
  { intros c. rewrite Heq, !elem_of_cons. intros [|[|?%not_elem_of_nil]]; auto; done. }
  assert (HA : forall c, c ∈ A -> c = (2000, 4)).
  { intros c Hc. destruct R as [|r R]; [by apply not_elem_of_nil in Hb|]. injection Heq as -> Heq.
    destruct R as [|r R]; cbn in Heq; [subst; by apply list_elem_of_singleton in Hc|].
    injection Heq as -> Heq. destruct R, A; try done. by apply not_elem_of_nil in Hc. }
  split; [done|done| | | | |unfold word_size; lia|done].
  - intros c Hc. destruct (Hin c) as [->| ->]; [apply elem_of_app; by left|by left|right; cbn; lia].
  - intros c ->%HA. cbn. lia.
  - intros c [->| ->]%Hin; (split; [done|]; split; [done|]; split; [done|]); cbn; intros i Hi; [lia|].
    assert (i = 0 \/ i = 1 \/ i = 2 \/ i = 3) as [->|[->|[->| ->]]] by lia; (split; apply (bool_decide_unpack _); by vm_compute).
  - rewrite Heq. apply (bool_decide_unpack _). by vm_compute.
Qed.

Lemma small_free : kr_inv (small_words 1000 2000 4) 1000 7 [(1000, 0); (2000, 4)] [] [].
Proof.
  split.
  - apply small_shape; [done|left|]. exists [], [1000; 2000]. split; [done|]. repeat constructor.
  - exists 1000. split; [done|]. cbn. split; [done|]. split; [done|]. exists 2000. split; [done|]. split; [done|]. split; [done|]. exists 1000. done.
  - intros c d Hc Hd. rewrite !elem_of_cons in Hc, Hd.
    destruct Hc as [->|[->|?%not_elem_of_nil]], Hd as [->|[->|?%not_elem_of_nil]]; cbn; lia || done.
  - by intros c ?%not_elem_of_nil.
  - done.
Qed.

Lemma small_taken : kr_inv (small_words 1000 1000 4) 1000 7 [(1000, 0)] [(2000, 4)] [].
Proof.
  split.
  - apply small_shape; [done|left|]. exists [], [1000]. split; [done|]. repeat constructor.
  - exists 1000. split; [done|]. cbn. split; [done|]. split; [done|]. exists 1000. done.
  - intros c d ->%list_elem_of_singleton. cbn. lia.
  - intros c ->%list_elem_of_singleton. done.
  - done.
Qed.

Lemma k_r_alloc_spec_witness :
  let s := Heap (small_words 1000 2000 4) tt in
  (20 <= 16 * (units 20 - 1) < 20 + 16 /\
   alloc_outcome (morecore := no_core) s 1000 7 (units 20) [(1000, 0); (2000, 4)] [] [] (mspace_k_r_malloc_alloc no_core 1000 20 s)) /\
  match mspace_k_r_malloc_alloc no_core 1000 20 s with Ok (r, _) => r = 2032 | Fault _ => False end.
Proof.
  intros s. split; [|by vm_compute]. apply (k_r_alloc_spec s 1000 7 20); [left; apply small_free|done|done|done|lia|unfold word_size; lia].
Defined.

Lemma k_r_free_spec_witness :
  let s := Heap (small_words 1000 1000 4) tt in
  exists s' R', mspace_k_r_malloc_free 1000 2016 s = Ok (tt, s') /\ outer s' = tt /\
    kr_inv (words s') 1000 7 R' [] [] /\ pool_inv 7 1000 (words s') (outer s') [] /\
    extents R' ≡ₚ extents [(1000, 0)] ++ extent (2000, 4) /\
    changes_only (touched 1000 ++ extents [(1000, 0)] ++ extent (2000, 4)) (words s) (words s').
Proof. intros s. apply (k_r_free_spec s 1000 7 (2000, 4)); [apply small_taken|done]. Defined.

(** A request close to the size of the address space wraps around to one unit,
    which has no room for anything. *)
Example units_for_wraps : units_for (word_size - 1) = 1 /\
  match mspace_k_r_malloc_alloc no_core 1000 (word_size - 1) (Heap (small_words 1000 2000 4) tt) with
  | Ok (r, _) => r = 2064
  | Fault _ => False
  end.
Proof. vm_compute. done. Qed.
