(* ===== verification/Pools.v ===== *)
(** The memory pools of libsel4allocman/src/mspace: fixed_pool.c, virtual_pool.c,
    vspace_pool.c and dual_pool.c (and null.h).  Each is a K&R allocator
    (KrMalloc.v) with a function that gives it more memory.

    A pool's structure is in memory, its address a parameter of each operation;
    the fields are at the offsets below.  The result of an allocation is the
    pointer and the error.  The manager's operations, the kernel's and the
    address space's are parameters that work on the same memory. *)
From S2P Require Import Prelude Cspacepath Interfaces Mapping KrMalloc.

(** [mspace_fixed_pool_t] *)
Module fixed_pool.
Definition at_pool_ptr (p : Z) : Z := p.
Definition at_remaining (p : Z) : Z := p + 8.
Definition at_k_r_malloc (p : Z) : Z := p + 16.
End fixed_pool.

(** [mspace_virtual_pool_t] *)
Module virtual_pool.
Definition at_pool_ptr (p : Z) : Z := p.
Definition at_pool_top (p : Z) : Z := p + 8.
Definition at_pool_limit (p : Z) : Z := p + 16.
Definition at_pd (p : Z) : Z := p + 24.
Definition at_k_r_malloc (p : Z) : Z := p + 32.
Definition at_morecore_alloc (p : Z) : Z := p + 72.
End virtual_pool.

(** [mspace_vspace_pool_t]: the [vspace_t] it has a copy of takes 19 words. *)
Module vspace_pool.
Definition at_pool_ptr (p : Z) : Z := p.
Definition at_pool_top (p : Z) : Z := p + 8.
Definition at_reservation (p : Z) : Z := p + 16.
Definition at_k_r_malloc (p : Z) : Z := p + 176.
Definition at_morecore_alloc (p : Z) : Z := p + 216.
End vspace_pool.

(** [mspace_dual_pool_t] *)
Module dual_pool.
Definition at_fixed_pool_start (p : Z) : Z := p.
Definition at_fixed_pool_end (p : Z) : Z := p + 8.
Definition at_fixed_pool (p : Z) : Z := p + 16.
Definition at_have_virtual_pool (p : Z) : Z := p + 72.
Definition at_virtual_pool (p : Z) : Z := p + 80.
Definition sizeof_words : nat := 20.
End dual_pool.

Record mspace_fixed_pool_config : Type := FixedConfig { config_pool : Z; config_size : Z }.
Record mspace_virtual_pool_config : Type := VirtualConfig { vstart : Z; vsize : Z; pd : Z }.
Record mspace_vspace_pool_config : Type := VspaceConfig { vp_vstart : Z; vp_reservation : Z }.

(** mspace/null.h *)
Definition _mspace_null_alloc {S : Type} (bytes : Z) : M S (Z * Z) := ret (0, 1).
Definition _mspace_null_free {S : Type} (ptr bytes : Z) : M S unit := ret tt.

Section pools.
Context {W : Type}.
#[local] Notation St := (heap W).

(** ** fixed_pool.c *)

Definition fixed_pool_morecore (cookie k_r_malloc new_units : Z) : M St Z :=
  let fixed_pool := cookie in
  let new_size := new_units ⊠ sizeof_k_r_malloc_header_t in
  let! remaining := load (fixed_pool.at_remaining fixed_pool) in
  if remaining <? new_size then ret 0 else
  let! new_header := load (fixed_pool.at_pool_ptr fixed_pool) in
  let! _ := store (fixed_pool.at_pool_ptr fixed_pool) (new_header ⊞ new_size) in
  let! _ := store (fixed_pool.at_remaining fixed_pool) (remaining ⊟ new_size) in
  ret new_header.

Definition mspace_fixed_pool_create (fixed_pool : Z) (config : mspace_fixed_pool_config) : M St unit :=
  let! _ := store (fixed_pool.at_pool_ptr fixed_pool) (config_pool config) in
  let! _ := store (fixed_pool.at_remaining fixed_pool) (config_size config) in
  let! pool_ptr := load (fixed_pool.at_pool_ptr fixed_pool) in
  let padding := pool_ptr mod sizeof_k_r_malloc_header_t in
  let! _ := store (fixed_pool.at_pool_ptr fixed_pool) (pool_ptr ⊞ padding) in
  let! remaining := load (fixed_pool.at_remaining fixed_pool) in
  let! _ := store (fixed_pool.at_remaining fixed_pool) (remaining ⊟ padding) in
  mspace_k_r_malloc_init (fixed_pool.at_k_r_malloc fixed_pool) fixed_pool.

Definition _mspace_fixed_pool_alloc (fixed_pool bytes : Z) : M St (Z * Z) :=
  let! ret_ := mspace_k_r_malloc_alloc fixed_pool_morecore (fixed_pool.at_k_r_malloc fixed_pool) bytes in
  ret (ret_, if ret_ =? 0 then 1 else 0).

Definition _mspace_fixed_pool_free (fixed_pool ptr bytes : Z) : M St unit :=
  mspace_k_r_malloc_free (fixed_pool.at_k_r_malloc fixed_pool) ptr.

(** ** virtual_pool.c *)

Section virtual.
Context `{AO : !AllocmanOps St} `{MK : !MappingKernel St} `{MC : !MappingConstants} `{SC : !SeL4Constants}.

Definition PAGE_SIZE_4K : Z := 4096.

(** [memset] with 0, of [n] words. *)
Fixpoint zero_words (n : nat) (x : Z) : M St unit :=
  match n with
  | O => ret tt
  | S n => let! _ := store x 0 in zero_words n (x ⊞ 8)
  end.

(** The loop of [_add_page] that maps the frame: the error of the last attempt. *)
Fixpoint map_frame (fuel : nat) (frame pd vaddr : Z) : M St Z :=
  let! error := seL4_X86_Page_Map frame pd vaddr seL4_AllRights seL4_ARCH_Default_VMAttributes in
  if negb (error =? seL4_FailedLookup) then ret error else
  match fuel with
  | O => stop OutOfFuel
  | S fuel =>
      let! (error, path) := allocman_cspace_alloc in
      if negb (error =? 0) then ret error else
      let! failed_bits := seL4_MappingFailedLookupLevel in
      match vspace_get_map_obj failed_bits with
      | (0, Some obj) =>
          let! (cookie, error) := allocman_utspace_alloc (obj_size_bits obj) (obj_type obj) path false in
          if negb (error =? 0) then let! _ := allocman_cspace_free path in ret error else
          let! error := vspace_map_obj obj (capPtr path) pd vaddr seL4_ARCH_Default_VMAttributes in
          if negb (error =? seL4_NoError) then
            let! _ := allocman_utspace_free cookie seL4_PageTableBits in
            let! _ := allocman_cspace_free path in ret error
          else map_frame fuel frame pd vaddr
      | _ => stop AssertFailed
      end
  end.

(** The manager passed is [alloc]; it must not be null. *)
Definition _add_page (alloc pd vaddr : Z) : M St Z :=
  if alloc =? 0 then stop NullPointer else
  let! (error, frame_path) := allocman_cspace_alloc in
  if negb (error =? 0) then ret error else
  let! (frame_cookie, error) := allocman_utspace_alloc seL4_PageBits seL4_X86_4K frame_path true in
  if negb (error =? 0) then let! _ := allocman_cspace_free frame_path in ret error else
  let! error := map_frame max_rounds (capPtr frame_path) pd vaddr in
  if negb (error =? seL4_NoError) then
    let! _ := allocman_cspace_free frame_path in
    let! _ := allocman_utspace_free frame_cookie seL4_PageBits in ret error
  else
    let! _ := zero_words 512 vaddr in
    ret 0.

(** The loop of [_morecore]: the error of the last page. *)
Fixpoint add_pages (fuel : nat) (virtual_pool new_size : Z) : M St Z :=
  let! pool_ptr := load (virtual_pool.at_pool_ptr virtual_pool) in
  let! pool_top := load (virtual_pool.at_pool_top virtual_pool) in
  if pool_ptr ⊞ new_size <=? pool_top then ret 0 else
  match fuel with
  | O => stop OutOfFuel
  | S fuel =>
      let! alloc := load (virtual_pool.at_morecore_alloc virtual_pool) in
      let! pd := load (virtual_pool.at_pd virtual_pool) in
      let! error := _add_page alloc pd pool_top in
      if negb (error =? 0) then ret error else
      let! pool_top := load (virtual_pool.at_pool_top virtual_pool) in
      let! _ := store (virtual_pool.at_pool_top virtual_pool) (pool_top ⊞ PAGE_SIZE_4K) in
      add_pages fuel virtual_pool new_size
  end.

Definition virtual_pool_morecore (cookie k_r_malloc new_units : Z) : M St Z :=
  let virtual_pool := cookie in
  let new_size := new_units ⊠ sizeof_k_r_malloc_header_t in
  let! pool_ptr := load (virtual_pool.at_pool_ptr virtual_pool) in
  let! pool_limit := load (virtual_pool.at_pool_limit virtual_pool) in
  if pool_limit <? pool_ptr ⊞ new_size then ret 0 else
  let! error := add_pages (Z.to_nat (new_size / PAGE_SIZE_4K + 1)) virtual_pool new_size in
  if negb (error =? 0) then ret 0 else
  let! new_header := load (virtual_pool.at_pool_ptr virtual_pool) in
  let! _ := store (virtual_pool.at_pool_ptr virtual_pool) (new_header ⊞ new_size) in
  ret new_header.

Definition mspace_virtual_pool_create (virtual_pool : Z) (config : mspace_virtual_pool_config) : M St unit :=
  let! _ := store (virtual_pool.at_pool_ptr virtual_pool) (vstart config) in
  let! pool_ptr := load (virtual_pool.at_pool_ptr virtual_pool) in
  let! _ := store (virtual_pool.at_pool_top virtual_pool) pool_ptr in
  let! _ := store (virtual_pool.at_pool_limit virtual_pool) (vstart config ⊞ vsize config) in
  let! _ := store (virtual_pool.at_morecore_alloc virtual_pool) 0 in
  let! _ := store (virtual_pool.at_pd virtual_pool) (pd config) in
  mspace_k_r_malloc_init (virtual_pool.at_k_r_malloc virtual_pool) virtual_pool.

Definition _mspace_virtual_pool_alloc (alloc virtual_pool bytes : Z) : M St (Z * Z) :=
  let! _ := store (virtual_pool.at_morecore_alloc virtual_pool) alloc in
  let! ret_ := mspace_k_r_malloc_alloc virtual_pool_morecore (virtual_pool.at_k_r_malloc virtual_pool) bytes in
  let! _ := store (virtual_pool.at_morecore_alloc virtual_pool) 0 in
  ret (ret_, if ret_ =? 0 then 1 else 0).

Definition _mspace_virtual_pool_free (alloc virtual_pool ptr bytes : Z) : M St unit :=
  let! _ := store (virtual_pool.at_morecore_alloc virtual_pool) alloc in
  let! _ := mspace_k_r_malloc_free (virtual_pool.at_k_r_malloc virtual_pool) ptr in
  store (virtual_pool.at_morecore_alloc virtual_pool) 0.

(** ** dual_pool.c *)

Definition mspace_dual_pool_create (dual_pool : Z) (config : mspace_fixed_pool_config) : M St unit :=
  let! _ := zero_words dual_pool.sizeof_words dual_pool in
  let! _ := store (dual_pool.at_fixed_pool_start dual_pool) (config_pool config) in
  let! _ := store (dual_pool.at_fixed_pool_end dual_pool) (config_pool config ⊞ config_size config) in
  mspace_fixed_pool_create (dual_pool.at_fixed_pool dual_pool) config.

Definition mspace_dual_pool_attach_virtual (dual_pool : Z) (config : mspace_virtual_pool_config) : M St unit :=
  let! _ := mspace_virtual_pool_create (dual_pool.at_virtual_pool dual_pool) config in
  store (dual_pool.at_have_virtual_pool dual_pool) 1.

Definition _mspace_dual_pool_alloc (alloc dual_pool bytes : Z) : M St (Z * Z) :=
  let! have_virtual_pool := load (dual_pool.at_have_virtual_pool dual_pool) in
  if negb (have_virtual_pool =? 0) then
    let! (ret_, error) := _mspace_virtual_pool_alloc alloc (dual_pool.at_virtual_pool dual_pool) bytes in
    if error =? 0 then ret (ret_, 0) else _mspace_fixed_pool_alloc (dual_pool.at_fixed_pool dual_pool) bytes
  else _mspace_fixed_pool_alloc (dual_pool.at_fixed_pool dual_pool) bytes.

Definition _mspace_dual_pool_free (alloc dual_pool ptr bytes : Z) : M St unit :=
  let! fixed_pool_start := load (dual_pool.at_fixed_pool_start dual_pool) in
  let! fixed_pool_end := load (dual_pool.at_fixed_pool_end dual_pool) in
  if (fixed_pool_start <=? ptr) && (ptr <? fixed_pool_end)
  then _mspace_fixed_pool_free (dual_pool.at_fixed_pool dual_pool) ptr bytes
  else _mspace_virtual_pool_free alloc (dual_pool.at_virtual_pool dual_pool) ptr bytes.
End virtual.

(** ** vspace_pool.c

    [vspace_new_pages_at_vaddr] is the operation of the pool's [vspace_t]: an
    address, a number of pages, the bits of their size, a reservation. *)
Section vspace.
Context (vspace_new_pages_at_vaddr : Z -> Z -> Z -> Z -> M St Z).

Definition PAGE_SIZE_BITS : Z := 12.

Fixpoint new_pages (fuel : nat) (vspace_pool new_size : Z) : M St Z :=
  let! pool_ptr := load (vspace_pool.at_pool_ptr vspace_pool) in
  let! pool_top := load (vspace_pool.at_pool_top vspace_pool) in
  if pool_ptr ⊞ new_size <=? pool_top then ret 0 else
  match fuel with
  | O => stop OutOfFuel
  | S fuel =>
      let! reservation := load (vspace_pool.at_reservation vspace_pool) in
      let! error := vspace_new_pages_at_vaddr pool_top 1 PAGE_SIZE_BITS reservation in
      if negb (error =? seL4_NoError) then ret error else
      let! pool_top := load (vspace_pool.at_pool_top vspace_pool) in
      let! _ := store (vspace_pool.at_pool_top vspace_pool) (pool_top ⊞ BIT PAGE_SIZE_BITS) in
      new_pages fuel vspace_pool new_size
  end.

Definition vspace_pool_morecore (cookie k_r_malloc new_units : Z) : M St Z :=
  let vspace_pool := cookie in
  let new_size := new_units ⊠ sizeof_k_r_malloc_header_t in
  let! error := new_pages (Z.to_nat (new_size / BIT PAGE_SIZE_BITS + 1)) vspace_pool new_size in
  if negb (error =? seL4_NoError) then ret 0 else
  let! new_header := load (vspace_pool.at_pool_ptr vspace_pool) in
  let! _ := store (vspace_pool.at_pool_ptr vspace_pool) (new_header ⊞ new_size) in
  ret new_header.

Definition mspace_vspace_pool_create (vspace_pool : Z) (config : mspace_vspace_pool_config) : M St unit :=
  let! _ := store (vspace_pool.at_pool_ptr vspace_pool) (vp_vstart config) in
  let! _ := store (vspace_pool.at_pool_top vspace_pool) (vp_vstart config) in
  let! _ := store (vspace_pool.at_reservation vspace_pool) (vp_reservation config) in
  let! _ := store (vspace_pool.at_morecore_alloc vspace_pool) 0 in
  mspace_k_r_malloc_init (vspace_pool.at_k_r_malloc vspace_pool) vspace_pool.

Definition _mspace_vspace_pool_alloc (alloc vspace_pool bytes : Z) : M St (Z * Z) :=
  let! _ := store (vspace_pool.at_morecore_alloc vspace_pool) alloc in
  let! ret_ := mspace_k_r_malloc_alloc vspace_pool_morecore (vspace_pool.at_k_r_malloc vspace_pool) bytes in
  let! _ := store (vspace_pool.at_morecore_alloc vspace_pool) 0 in
  ret (ret_, if ret_ =? 0 then 1 else 0).

Definition _mspace_vspace_pool_free (alloc vspace_pool ptr bytes : Z) : M St unit :=
  let! _ := store (vspace_pool.at_morecore_alloc vspace_pool) alloc in
  let! _ := mspace_k_r_malloc_free (vspace_pool.at_k_r_malloc vspace_pool) ptr in
  store (vspace_pool.at_morecore_alloc vspace_pool) 0.
End vspace.
End pools.
