(* ===== verification/FixedPool.v ===== *)
(** The fixed pool of libsel4allocman/src/mspace/fixed_pool.c gives the K&R
    allocator what it asks for: setting up, allocating and freeing. *)
From S2P Require Import Prelude KrMalloc KrInv KrSpec KrAlloc Pools.
Import fixed_pool.

(** Running straight-line code over memory: one access, at an address that is a
    constant offset from others. *)
Lemma load_bind {W A : Type} (x v : Z) (k : Z -> M (heap W) A) (m : gmap Z Z) (w : W) :
  m !! x = Some v -> bind (load x) k (Heap m w) = k v (Heap m w).
Proof. intros H. by apply bind_ok, load_word_ok. Qed.
Lemma store_bind {W A : Type} (x v : Z) (k : unit -> M (heap W) A) (m : gmap Z Z) (w : W) :
  is_Some (m !! x) -> bind (store x v) k (Heap m w) = k tt (Heap (<[x := v]> m) w).
Proof. intros H. by apply bind_ok, (store_word_ok (Heap m w)). Qed.
Lemma store_run {W : Type} (x v : Z) (m : gmap Z Z) (w : W) :
  is_Some (m !! x) -> store x v (Heap m w) = Ok (tt, Heap (<[x := v]> m) w).
Proof. intros H. by apply (store_word_ok (Heap m w)). Qed.

Ltac find_word := repeat (rewrite lookup_insert_ne by lia); first [apply lookup_insert_eq | eassumption].
Ltac find_mapped := repeat (apply lookup_insert_is_Some'; right); first [assumption | eapply mk_is_Some; eassumption].
Ltac heap_step := first [erewrite load_bind by find_word | rewrite store_bind by find_mapped].

Section fixed.
Context {W : Type}.
#[local] Notation St := (heap W).

(** The pool's two words, and what is left of its memory. *)
Definition fixed_spare (f pool_ptr remaining : Z) : list Z := [at_pool_ptr f; at_remaining f] ++ seqZ pool_ptr remaining.

Lemma in_fixed_spare (f p n x : Z) : x ∈ fixed_spare f p n <-> x = f \/ x = f + 8 \/ p <= x < p + n.
Proof.
  unfold fixed_spare, at_pool_ptr, at_remaining. rewrite elem_of_app, elem_of_cons, list_elem_of_singleton, elem_of_seqZ. tauto.
Qed.

Lemma fixed_spare_NoDup (f p n : Z) : f + 16 <= p \/ p + n <= f -> NoDup (fixed_spare f p n).
Proof.
  intros Hap. apply NoDup_app. unfold at_pool_ptr, at_remaining. split; [|split; [|apply NoDup_seqZ]].
  - apply NoDup_cons. split; [|apply NoDup_singleton]. intros ?%list_elem_of_singleton. lia.
  - intros x Hx Hx'%elem_of_seqZ. rewrite elem_of_cons, list_elem_of_singleton in Hx. lia.
Qed.

Record fixed_inv (f : Z) (m : gmap Z Z) (spare : list Z) (pool_ptr remaining : Z) : Prop := {
  fx_ptr : m !! at_pool_ptr f = Some pool_ptr;
  fx_remaining : m !! at_remaining f = Some remaining;
  fx_range : 0 < pool_ptr /\ 0 <= remaining /\ pool_ptr + remaining < word_size;
  fx_apart : f + 16 <= pool_ptr \/ pool_ptr + remaining <= f;
  fx_mapped : forall i, 0 <= i -> 16 * i + 16 <= remaining ->
    is_Some (m !! at_ptr (pool_ptr + 16 * i)) /\ is_Some (m !! at_size (pool_ptr + 16 * i));
  fx_spare : spare = fixed_spare f pool_ptr remaining
}.

Lemma fixed_inv_ext (f : Z) (m m' : gmap Z Z) (spare : list Z) (pool_ptr remaining : Z) :
  (forall x, x ∈ spare -> is_Some (m !! x) -> m' !! x = m !! x) ->
  fixed_inv f m spare pool_ptr remaining -> fixed_inv f m' spare pool_ptr remaining.
Proof.
  intros Hm [Hp Hr Hrange Hap Hmap ->]. split; [rewrite Hm; [done|left|by eexists]|rewrite Hm; [done|right; left|by eexists]|done|done| |done].
  intros i Hi Hi'. specialize (Hmap i Hi Hi').
  destruct Hmap. split; (rewrite Hm; [done|apply in_fixed_spare; unfold at_ptr, at_size; lia|done]).
Qed.

Lemma fixed_morecore_none (f k n : Z) (s : St) (spare : list Z) (pool_ptr remaining : Z) :
  fixed_inv f (words s) spare pool_ptr remaining -> 0 < n -> 16 * n < word_size -> remaining < 16 * n ->
  fixed_pool_morecore f k n s = Ok (0, s).
Proof.
  intros [Hp Hr Hrange Hap Hmap ->] Hn Hn' Hlt. unfold fixed_pool_morecore, sizeof_k_r_malloc_header_t. cbv zeta.
  rewrite wrap_small by (unfold is_word; lia). rewrite (bind_ok _ _ _ _ _ (load_word_ok _ _ _ Hr)).
  by rewrite (proj2 (Z.ltb_lt _ _)) by lia.
Qed.

Lemma fixed_morecore_some (f k n : Z) (s : St) (spare : list Z) (pool_ptr remaining : Z) :
  fixed_inv f (words s) spare pool_ptr remaining -> 0 < n -> 16 * n < word_size -> 16 * n <= remaining ->
  let m := <[at_remaining f := remaining - 16 * n]> (<[at_pool_ptr f := pool_ptr + 16 * n]> (words s)) in
  fixed_pool_morecore f k n s = Ok (pool_ptr, Heap m (outer s)) /\
  fixed_inv f m (fixed_spare f (pool_ptr + 16 * n) (remaining - 16 * n)) (pool_ptr + 16 * n) (remaining - 16 * n) /\
  mapped m (pool_ptr, n) /\ spare ≡ₚ extent (pool_ptr, n) ++ fixed_spare f (pool_ptr + 16 * n) (remaining - 16 * n).
Proof.
  intros [Hp Hr (Hr1 & Hr2 & Hr3) Hap Hmap ->] Hn Hn' Hle m.
  assert (Hne : at_pool_ptr f <> at_remaining f) by (unfold at_pool_ptr, at_remaining; lia).
  assert (Hsome : forall x, is_Some (words s !! x) -> is_Some (m !! x)).
  { intros x Hx. unfold m. rewrite !lookup_insert_is_Some'. auto. }
  split; [|split; [|split]].
  - unfold fixed_pool_morecore, sizeof_k_r_malloc_header_t. cbv zeta.
    rewrite (wrap_small (n * 16)) by (unfold is_word; lia). rewrite (bind_ok _ _ _ _ _ (load_word_ok _ _ _ Hr)).
    rewrite (proj2 (Z.ltb_ge _ _)) by lia. rewrite (bind_ok _ _ _ _ _ (load_word_ok _ _ _ Hp)).
    rewrite !wrap_small by (unfold is_word; lia). rewrite (bind_ok _ _ s _ _ (store_word_ok s _ _ (mk_is_Some _ _ Hp))).
    erewrite bind_ok; [|apply store_word_ok; cbn; apply lookup_insert_is_Some'; right; by eapply mk_is_Some].
    cbn [words outer ret]. unfold m. by rewrite !(Z.mul_comm n 16).
  - split; [unfold m; rewrite lookup_insert_ne by congruence; apply lookup_insert_eq|apply lookup_insert_eq|lia|lia| |done].
    intros i Hi Hi'. replace (pool_ptr + 16 * n + 16 * i) with (pool_ptr + 16 * (n + i)) by lia.
    destruct (Hmap (n + i)); [lia|lia|]. split; by apply Hsome.
  - split; [done|]. cbn [fst snd]. split; [lia|]. split; [lia|]. intros i Hi. destruct (Hmap i); [lia|lia|]. split; by apply Hsome.
  - unfold fixed_spare, extent, sizeof_k_r_malloc_header_t. cbn [fst snd].
    replace remaining with (16 * n + (remaining - 16 * n)) at 1 by lia. rewrite seqZ_app by lia.
    rewrite !app_assoc. f_equiv. apply Permutation_app_comm.
Qed.

#[export] Program Instance fixed_pool_laws : MorecoreLaws (W := W) fixed_pool_morecore := {|
  pool_inv f _ m _ spare := exists pool_ptr remaining, fixed_inv f m spare pool_ptr remaining;
  client_words _ := False; askable _ _ := True;
  refuses spare n := Z.of_nat (length spare) - 2 < 16 * n
|}.
Next Obligation. intros f k m m' w spare Hm (p & r & H). exists p, r. eapply fixed_inv_ext; [|exact H]. auto. Qed.
Next Obligation.
  intros f k n s spare (p & r & H) _ Hn Hn'. destruct (decide (r < 16 * n)) as [Hlt|Hge].
  - exists 0, s, spare. split; [by eapply fixed_morecore_none|]. split; [by exists p, r|]. split; [done|]. split; [done|].
    left. split; [done|]. split; [done|]. destruct H as [_ _ (_ & Hr & _) _ _ ->]. unfold fixed_spare.
    rewrite length_app, length_seqZ. cbn [length]. lia.
  - destruct (fixed_morecore_some f k n s spare p r H Hn Hn') as (Hrun & Hinv & Hmap & Hsp); [lia|].
    do 3 eexists. split; [exact Hrun|]. split; [by do 2 eexists|]. cbn [words].
    destruct H as [_ _ (Hp & _) _ _ ->]. split; [|split].
    + intros x Hx. rewrite !lookup_insert_is_Some'. auto.
    + intros x Hx _ _. unfold fixed_spare in Hx. rewrite elem_of_app in Hx.
      rewrite !lookup_insert_ne; [done|intros <-; apply Hx; left; left|intros <-; apply Hx; left; right; left].
    + right. split; [lia|done].
Qed.

(** The heap of a pool: the structure of the allocator is 16 bytes into the pool's. *)
Definition fixed_ready (f : Z) (s : St) (R A : list cell) (spare : list Z) : Prop :=
  kr_ready (words s) (at_k_r_malloc f) f R A spare /\
  exists pool_ptr remaining, fixed_inv f (words s) spare pool_ptr remaining.

(** The words of the structure that are used, and memory for a pool. *)
Definition fixed_words (f : Z) : list Z := [at_pool_ptr f; at_remaining f] ++ map (fun i => at_k_r_malloc f + i) [0; 8; 16; 24].
Definition given (m : gmap Z Z) (p n : Z) : Prop := forall x, p <= x -> x + 8 <= p + n -> x mod 8 = 0 -> is_Some (m !! x).

Lemma fixed_ready_intro (f p n : Z) (m : gmap Z Z) (w : W) :
  0 < f -> f + 56 < word_size -> 0 < p -> 0 <= n -> p + n < word_size -> f + 56 <= p \/ p + n <= f ->
  m !! f = Some p -> m !! (f + 8) = Some n -> is_Some (m !! (f + 16)) -> is_Some (m !! (f + 24)) ->
  m !! (f + 32) = Some 0 -> m !! (f + 40) = Some f -> given m p n -> p mod 8 = 0 ->
  fixed_ready f (Heap m w) [(at_k_r_malloc f, 0)] [] (fixed_spare f p n).
Proof.
  intros Hf Hf' Hp Hn Hpn Hap G0 G8 G16 G24 G32 G40 Hgiven Hp8. unfold fixed_ready, at_k_r_malloc. cbn [words].
  assert (Hst : f + 16 + 16 = f + 32 /\ f + 16 + 24 = f + 40 /\ f + 16 + 8 = f + 24) by lia. destruct Hst as (E1 & E2 & E3).
  split.
  - right. split; [done|]. split; [done|]. unfold kr_fresh, at_freep, at_cookie. rewrite E1, E2. split; [|done].
    split; unfold at_ptr, at_size, at_freep; rewrite ?E1, ?E3; try done.
    + left.
    + exists [], [f + 16]. split; [done|]. repeat constructor.
    + intros c ->%list_elem_of_singleton. by left.
    + by intros c ?%not_elem_of_nil.
    + intros c ->%list_elem_of_singleton. split; [cbn; lia|]. split; [done|]. split; [cbn; lia|]. cbn. intros i Hi. lia.
    + cbn [app extents mbind list_bind extent]. change (extents [(f + 16, 0)]) with (@nil Z). cbn [app]. unfold zone.
      apply NoDup_app. split; [apply NoDup_seqZ|]. split; [|by apply fixed_spare_NoDup; lia].
      intros x Hx Hx'. apply elem_of_seqZ in Hx. apply in_fixed_spare in Hx'. lia.
    + lia.
  - exists p, n. split; unfold at_pool_ptr, at_remaining; try done; [lia|].
    intros i Hi Hi'. unfold at_ptr, at_size. split; apply Hgiven; try lia; dlia.
Qed.

(** C38: a pool made of aligned memory is a heap with nothing handed out; all of
    the memory, after the padding, is left to give.  The padding is the address
    modulo 16, so it aligns only what is aligned to 8 bytes. *)
Theorem fixed_pool_create_ready (f : Z) (config : mspace_fixed_pool_config) (s : St) :
  0 < f -> f + 56 < word_size -> 0 < config_pool config -> config_pool config + config_size config < word_size ->
  config_pool config mod 8 = 0 -> config_pool config mod 16 <= config_size config ->
  f + 56 <= config_pool config \/ config_pool config + config_size config <= f ->
  (forall x, x ∈ fixed_words f -> is_Some (words s !! x)) -> given (words s) (config_pool config) (config_size config) ->
  exists s', mspace_fixed_pool_create f config s = Ok (tt, s') /\ outer s' = outer s /\
    changes_only (fixed_words f) (words s) (words s') /\
    (config_pool config + config_pool config mod 16) mod 16 = 0 /\
    fixed_ready f s' [(at_k_r_malloc f, 0)] [] (fixed_spare f (config_pool config + config_pool config mod 16) (config_size config - config_pool config mod 16)).
Proof.
  destruct config as [p n]. cbn [config_pool config_size]. intros Hf Hf' Hp Hpn Hp8 Hpad Hap Hw Hgiven.
  set (pad := p mod 16) in *. assert (Hpad0 : 0 <= pad) by (unfold pad; dlia).
  assert (Hwords : forall d, d ∈ [0; 8; 16; 24; 32; 40] -> is_Some (words s !! (f + d))).
  { intros d Hd. apply Hw. unfold fixed_words, at_pool_ptr, at_remaining, at_k_r_malloc. cbn. rewrite !elem_of_cons in *.
    repeat (destruct Hd as [->|Hd]; [lia|]). by apply not_elem_of_nil in Hd. }
  pose proof (Hwords 0 ltac:(set_solver)) as H0. rewrite Z.add_0_r in H0.
  pose proof (Hwords 8 ltac:(set_solver)) as H8. pose proof (Hwords 16 ltac:(set_solver)) as H16.
  pose proof (Hwords 24 ltac:(set_solver)) as H24. pose proof (Hwords 32 ltac:(set_solver)) as H32.
  pose proof (Hwords 40 ltac:(set_solver)) as H40. clear Hwords Hw. destruct s as [m w]. cbn [words outer] in *.
  assert (Hrun : exists m', mspace_fixed_pool_create f (FixedConfig p n) (Heap m w) = Ok (tt, Heap m' w) /\
    m' = <[f + 40 := f]> (<[f + 32 := 0]> (<[f + 8 := n - pad]> (<[f := p + pad]> (<[f + 8 := n]> (<[f := p]> m)))))).
  { eexists. split; [|reflexivity].
    unfold mspace_fixed_pool_create, mspace_k_r_malloc_init, at_pool_ptr, at_remaining, at_k_r_malloc, at_freep, at_cookie, sizeof_k_r_malloc_header_t.
    cbn [config_pool config_size]. replace (f + 16 + 16) with (f + 32) by lia. replace (f + 16 + 24) with (f + 40) by lia.
    do 3 heap_step. cbv zeta. fold pad. rewrite (wrap_small (p + pad)) by (unfold is_word; lia).
    do 2 heap_step. rewrite (wrap_small (n - pad)) by (unfold is_word; lia). do 2 heap_step. apply store_run. find_mapped. }
  destruct Hrun as (m' & Hrun & Hm'). exists (Heap m' w). split; [exact Hrun|]. split; [done|]. cbn [words].
  assert (Hch : changes_only (fixed_words f) m m').
  { subst m'. unfold fixed_words, at_pool_ptr, at_remaining, at_k_r_malloc. cbn.
    replace (f + 16 + 0) with (f + 16) by lia. replace (f + 16 + 8) with (f + 24) by lia.
    replace (f + 16 + 16) with (f + 32) by lia. replace (f + 16 + 24) with (f + 40) by lia.
    split; [intros x Hx; rewrite !not_elem_of_cons in Hx; rewrite !lookup_insert_ne by (intros <-; tauto); done|].
    intros x. rewrite !lookup_insert_is_Some'. split; [|tauto].
    intros [<-|[<-|[<-|[<-|[<-|[<-|?]]]]]]; done. }
  split; [done|]. split; [unfold pad; dlia|].
  assert (Hget : m' !! f = Some (p + pad) /\ m' !! (f + 8) = Some (n - pad) /\ m' !! (f + 32) = Some 0 /\ m' !! (f + 40) = Some f).
  { subst m'. split_and!; find_word. }
  destruct Hget as (G0 & G8 & G32 & G40). destruct Hch as [_ Hdom].
  apply fixed_ready_intro; try done; try lia.
  - by apply Hdom.
  - by apply Hdom.
  - intros x Hx Hx' Hx8. apply Hdom, Hgiven; [lia|lia|done].
  - unfold pad. dlia.
Qed.

(** A fixed pool fails, with error 1, only if neither a free block nor what is
    left of its memory has room; otherwise the error is 0 and the result is a
    block of the size asked for.  The memory of the block is taken from the free
    blocks and from what was left, and nothing else in memory is changed. *)
Lemma fixed_pool_alloc_ok (f bytes : Z) (s : St) (R A : list cell) (spare : list Z) :
  fixed_ready f s R A spare -> 0 <= bytes -> bytes + 32 <= word_size ->
  exists r e s', _mspace_fixed_pool_alloc f bytes s = Ok (r, e, s') /\
    preserves (touched (at_k_r_malloc f) ++ extents R ++ spare) s s' /\
    ((r = 0 /\ e = 1 /\ fixed_ready f s' R A spare /\
        Z.of_nat (length spare) - 2 < 16 * units bytes /\ forall c, c ∈ R -> c.2 < units bytes) \/
     (r <> 0 /\ e = 0 /\ exists R' spare', fixed_ready f s' R' ((r - 16, units bytes) :: A) spare' /\
        extents (R' ++ [(r - 16, units bytes)]) ++ spare' ≡ₚ extents R ++ spare)).
Proof.
  intros [Hready Hpool] H0 H1.
  destruct (k_r_alloc_spec (ML := fixed_pool_laws) s (at_k_r_malloc f) f bytes R A spare Hready Hpool) as (_ & r & s' & spare' & Hrun & Hpool' & Hkeep & Hcase);
    [done|done|done|done|].
  exists r, (if r =? 0 then 1 else 0), s'. unfold _mspace_fixed_pool_alloc. rewrite (bind_ok _ _ _ _ _ Hrun). split; [done|]. split; [done|].
  destruct Hcase as [(-> & Hinv & -> & Href & Hsm)|(R' & Hr & Hinv & Hext & _)].
  - left. split; [done|]. split; [done|]. split; [|done]. split; [by left|done].
  - right. split; [done|]. rewrite (proj2 (Z.eqb_neq _ _) Hr). split; [done|]. exists R', spare'. split; [|done]. split; [by left|done].
Qed.

Lemma fixed_pool_free_ok (f bytes : Z) (s : St) (b : cell) (R A : list cell) (spare : list Z) :
  kr_inv (words s) (at_k_r_malloc f) f R (b :: A) spare -> (exists p n, fixed_inv f (words s) spare p n) ->
  exists s' R', _mspace_fixed_pool_free f (b.1 + 16) bytes s = Ok (tt, s') /\ outer s' = outer s /\
    kr_inv (words s') (at_k_r_malloc f) f R' A spare /\ (exists p n, fixed_inv f (words s') spare p n) /\
    extents R' ≡ₚ extents R ++ extent b /\ changes_only (touched (at_k_r_malloc f) ++ extents R ++ extent b) (words s) (words s').
Proof. intros Hinv Hpool. apply (k_r_free_spec (ML := fixed_pool_laws) s (at_k_r_malloc f) f b R A spare Hinv Hpool). Qed.
End fixed.

(** ** A pool of 64 bytes at 4096, its structure at 512 *)

Definition small_memory : gmap Z Z :=
  list_to_map ((fun i => (512 + 8 * i, 0)) <$> seqZ 0 7) ∪ list_to_map ((fun i => (4096 + 8 * i, 0)) <$> seqZ 0 8).
Definition small_config : mspace_fixed_pool_config := FixedConfig 4096 64.

Lemma given_words (m : gmap Z Z) : bool_decide (Forall (fun i => is_Some (m !! (4096 + 8 * i))) (seqZ 0 8)) = true -> given m 4096 64.
Proof.
  intros Hm%bool_decide_eq_true x H1 H2 H8. rewrite Forall_forall in Hm.
  replace x with (4096 + 8 * ((x - 4096) / 8)) by dlia. apply Hm. rewrite elem_of_seqZ. dlia.
Qed.

Lemma fixed_pool_create_ready_witness :
  exists s', mspace_fixed_pool_create 512 small_config (Heap small_memory tt) = Ok (tt, s') /\ outer s' = tt /\
    changes_only (fixed_words 512) small_memory (words s') /\ (4096 + 4096 mod 16) mod 16 = 0 /\
    fixed_ready 512 s' [(528, 0)] [] (fixed_spare 512 4096 64).
Proof.
  apply (fixed_pool_create_ready 512 small_config (Heap small_memory tt)); cbn [config_pool config_size small_config]; try (unfold word_size; lia); try done.
  - intros x Hx. cbn in Hx. repeat (apply elem_of_cons in Hx as [->|Hx]; [by eexists|]). by apply not_elem_of_nil in Hx.
  - by apply given_words; vm_compute.
Defined.

(** The same pool, set up. *)
Definition small_pool : heap unit :=
  match mspace_fixed_pool_create 512 small_config (Heap small_memory tt) with Ok (_, s) => s | Fault _ => Heap ∅ tt end.

Lemma small_pool_ready : fixed_ready 512 small_pool [(528, 0)] [] (fixed_spare 512 4096 64).
Proof.
  assert (H : small_pool = Heap (words small_pool) tt) by (by vm_compute). rewrite H.
  apply fixed_ready_intro; try (unfold word_size; lia); try (vm_compute; (reflexivity || by eexists)).
  by apply given_words; vm_compute.
Qed.

Example small_alloc : match _mspace_fixed_pool_alloc 512 20 small_pool with Ok (r, e, _) => r = 4112 /\ e = 0 | Fault _ => False end.
Proof. vm_compute. done. Qed.
