(* ===== verification/VirtualPool.v ===== *)
(** The virtual pool of libsel4allocman/src/mspace/virtual_pool.c: it maps pages
    one after the other, with frames and paging structures of the manager it
    serves. *)
From S2P Require Import Prelude Cspacepath Interfaces Mapping KrMalloc KrInv KrSpec KrAlloc Pools FixedPool.
Import virtual_pool.

(** Memory stays mapped, and apart from [own] and [client], as it was. *)
Definition leaves {W : Type} (client : Z -> Prop) (own : list Z) (s s' : heap W) : Prop :=
  (forall x, is_Some (words s !! x) -> is_Some (words s' !! x)) /\
  forall x, x ∉ own -> ~ client x -> is_Some (words s !! x) -> words s' !! x = words s !! x.

Lemma leaves_refl {W} client own (s : heap W) : leaves client own s s.
Proof. by split. Qed.

Lemma leaves_trans {W} client own own1 own2 (s1 s2 s3 : heap W) :
  (forall x, x ∈ own1 -> x ∈ own) -> (forall x, x ∈ own2 -> x ∈ own) ->
  leaves client own1 s1 s2 -> leaves client own2 s2 s3 -> leaves client own s1 s3.
Proof. intros H1 H2 [M1 E1] [M2 E2]. split; [auto|]. intros x Hx Hc Hs. rewrite E2 by auto. apply E1; auto. Qed.

(** What the manager and the kernel do to memory.  The manager writes only
    [manager_words].  [levels]: the paging structures that are not there; a slot
    for one is taken between the failed lookup and the reading of the level, and
    [slot_law] asks that taking it leaves the level to be read. *)
Class PoolSystem (W : Type) `{AO : !AllocmanOps (heap W)} `{MK : !MappingKernel (heap W)} `{MC : !MappingConstants}
    `{SC : !SeL4Constants} : Type := {
  manager_words : Z -> Prop;
  levels : heap W -> Z -> Z -> gset Z;
  lookup_not_ok : seL4_FailedLookup <> 0;
  levels_known : forall s root vaddr,
    levels s root vaddr ⊆ {[SEL4_MAPPING_LOOKUP_NO_PT; SEL4_MAPPING_LOOKUP_NO_PD; SEL4_MAPPING_LOOKUP_NO_PDPT]};
  slot_law : forall s, exists e p s', allocman_cspace_alloc s = Ok (e, p, s') /\ leaves manager_words [] s s' /\
    (forall root vaddr, levels s' root vaddr ⊆ levels s root vaddr) /\
    forall l, seL4_MappingFailedLookupLevel s = Ok (l, s) -> seL4_MappingFailedLookupLevel s' = Ok (l, s');
  slot_free_law : forall p s, exists s', allocman_cspace_free p s = Ok (tt, s') /\ leaves manager_words [] s s' /\
    forall root vaddr, levels s' root vaddr ⊆ levels s root vaddr;
  untyped_law : forall size_bits type p dev s, exists c e s', allocman_utspace_alloc size_bits type p dev s = Ok (c, e, s') /\
    leaves manager_words [] s s' /\ forall root vaddr, levels s' root vaddr ⊆ levels s root vaddr;
  untyped_free_law : forall c size_bits s, exists s', allocman_utspace_free c size_bits s = Ok (tt, s') /\
    leaves manager_words [] s s' /\ forall root vaddr, levels s' root vaddr ⊆ levels s root vaddr;
  frame_law : forall cap root vaddr rights attr s, exists e s', seL4_X86_Page_Map cap root vaddr rights attr s = Ok (e, s') /\
    (forall x, is_Some (words s !! x) -> words s' !! x = words s !! x) /\ levels s' root vaddr = levels s root vaddr /\
    (e = 0 -> forall i, 0 <= i < 512 -> is_Some (words s' !! (vaddr + 8 * i))) /\
    (e = seL4_FailedLookup -> exists l, seL4_MappingFailedLookupLevel s' = Ok (l, s') /\ l ∈ levels s' root vaddr);
  structure_law : forall l obj cap root vaddr attr s, vspace_get_map_obj l = (0, Some obj) ->
    exists e s', map_fn obj cap root vaddr attr s = Ok (e, s') /\ (forall x, is_Some (words s !! x) -> words s' !! x = words s !! x) /\
    levels s' root vaddr ⊆ levels s root vaddr /\ (e = 0 -> l ∉ levels s' root vaddr)
}.

Section virtual.
Context {W : Type} `{PS : PoolSystem W}.
#[local] Notation St := (heap W).

Lemma leaves_same (own : list Z) (s s' : St) : (forall x, is_Some (words s !! x) -> words s' !! x = words s !! x) ->
  leaves manager_words own s s'.
Proof. intros H. split; [intros x Hx; by rewrite H|]. intros x _ _. apply H. Qed.

(** ** One page *)

Lemma map_frame_ok (fuel : nat) (frame root vaddr : Z) : forall s : St, (size (levels s root vaddr) <= fuel)%nat ->
  exists e s', map_frame fuel frame root vaddr s = Ok (e, s') /\ leaves manager_words [] s s' /\
    (e = 0 -> forall i, 0 <= i < 512 -> is_Some (words s' !! (vaddr + 8 * i))).
Proof.
  induction fuel as [|fuel IH]; intros s Hfuel; cbn [map_frame];
    destruct (frame_law frame root vaddr seL4_AllRights seL4_ARCH_Default_VMAttributes s) as (e & s1 & Hrun & Hw & Hlv & Hmap & Hlook);
    rewrite (bind_ok _ _ _ _ _ Hrun); (destruct (Z.eqb_spec e seL4_FailedLookup) as [He|He]; cbn [negb];
      [|exists e, s1; split; [done|]; split; [by apply leaves_same|done]]);
    destruct (Hlook He) as (l & Hl & Hin).
  { rewrite Hlv in Hin. assert (H0 : levels s root vaddr ≡ ∅) by (apply size_empty_inv; lia). set_solver. }
  assert (L1 : leaves manager_words [] s s1) by (by apply leaves_same).
  assert (Hstop : forall e' s', e' <> 0 -> leaves manager_words [] s1 s' ->
      exists e s'', Ok (e', s') = Ok (e, s'') /\ leaves manager_words [] s s'' /\
      (e = 0 -> forall i, 0 <= i < 512 -> is_Some (words s'' !! (vaddr + 8 * i)))).
  { intros e' s' He' L. exists e', s'. split; [done|]. split; [by eapply leaves_trans|done]. }
  destruct (slot_law s1) as (e2 & p & s2 & Hrun2 & L2 & Hlv2 & Hread). rewrite (bind_ok _ _ _ _ _ Hrun2).
  destruct (Z.eqb_spec e2 0) as [He2|He2]; cbn [negb]; [|by apply Hstop].
  rewrite (bind_ok _ _ _ _ _ (Hread l Hl)). destruct (map_obj_found l (levels_known s1 root vaddr l Hin)) as (obj & Hobj). rewrite Hobj.
  destruct (untyped_law (obj_size_bits obj) (obj_type obj) p false s2) as (c & e3 & s3 & Hrun3 & L3 & Hlv3).
  rewrite (bind_ok _ _ _ _ _ Hrun3). assert (L13 : leaves manager_words [] s1 s3) by (by eapply leaves_trans).
  destruct (Z.eqb_spec e3 0) as [He3|He3]; cbn [negb].
  2:{ destruct (slot_free_law p s3) as (s4 & Hrun4 & L4 & _). rewrite (bind_ok _ _ _ _ _ Hrun4). apply Hstop; [done|by eapply leaves_trans]. }
  unfold vspace_map_obj.
  destruct (structure_law l obj (capPtr p) root vaddr seL4_ARCH_Default_VMAttributes s3 Hobj) as (e4 & s4 & Hrun4 & Hw4 & Hlv4 & Hgone).
  rewrite (bind_ok _ _ _ _ _ Hrun4).
  assert (L14 : leaves manager_words [] s1 s4) by (eapply leaves_trans; [done|done|exact L13|by apply leaves_same]).
  destruct (Z.eqb_spec e4 seL4_NoError) as [He4|He4]; cbn [negb].
  2:{ destruct (untyped_free_law c seL4_PageTableBits s4) as (s5 & Hrun5 & L5 & _). rewrite (bind_ok _ _ _ _ _ Hrun5).
      destruct (slot_free_law p s5) as (s6 & Hrun6 & L6 & _). rewrite (bind_ok _ _ _ _ _ Hrun6).
      apply Hstop; [done|]. eapply leaves_trans; [| |exact L14|by eapply leaves_trans]; done. }
  assert (Hsub : levels s4 root vaddr ⊆ levels s root vaddr).
  { rewrite <- Hlv. etrans; [exact Hlv4|]. etrans; [apply Hlv3|apply Hlv2]. }
  destruct (IH s4) as (e5 & s5 & Hrun5 & L5 & Hmap5).
  { assert (size (levels s4 root vaddr) < size (levels s root vaddr))%nat; [|lia].
    apply (missing_less l); [by rewrite <- Hlv|done|by apply Hgone]. }
  exists e5, s5. split; [done|]. split; [|done].
  eapply leaves_trans; [| |eapply leaves_trans; [| |exact L1|exact L14]|exact L5]; done.
Qed.

(** The bytes of a page. *)
Definition page_bytes (vaddr : Z) : list Z := seqZ vaddr 4096.

Lemma zero_words_ok (n : nat) : forall (x : Z) (m : gmap Z Z) (w : W), 0 <= x -> x + 8 * Z.of_nat n < word_size ->
  (forall i, 0 <= i < Z.of_nat n -> is_Some (m !! (x + 8 * i))) ->
  exists m', zero_words n x (Heap m w) = Ok (tt, Heap m' w) /\
    (forall i, 0 <= i < Z.of_nat n -> m' !! (x + 8 * i) = Some 0) /\
    changes_only (seqZ x (8 * Z.of_nat n)) m m'.
Proof.
  induction n as [|n IH]; intros x m w Hx Hw Hm; cbn [zero_words]; [exists m; split; [done|]; split; [lia|apply changes_refl]|].
  assert (H0 : is_Some (m !! x)) by (rewrite <- (Z.add_0_r x), <- (Z.mul_0_r 8); apply Hm; lia).
  rewrite store_bind by done. rewrite wrap_small by (unfold is_word; lia).
  destruct (IH (x + 8) (<[x := 0]> m) w) as (m' & Hrun & Hz & Hch); [lia|lia| |].
  { intros i Hi. apply lookup_insert_is_Some'. right. replace (x + 8 + 8 * i) with (x + 8 * (i + 1)) by lia. apply Hm. lia. }
  assert (Hsub : forall y, y ∈ seqZ (x + 8) (8 * Z.of_nat n) -> y ∈ seqZ x (8 * Z.of_nat (S n))) by (intros y; rewrite !elem_of_seqZ; lia).
  exists m'. split; [done|]. split.
  - intros i Hi. destruct (decide (i = 0)) as [->|Hi0].
    + destruct Hch as [Hch _]. rewrite Hch by (rewrite elem_of_seqZ; lia). rewrite Z.mul_0_r, Z.add_0_r. apply lookup_insert_eq.
    + replace (x + 8 * i) with (x + 8 + 8 * (i - 1)) by lia. apply Hz. lia.
  - eapply changes_trans; [apply (changes_insert _ _ x 0); [rewrite elem_of_seqZ; lia|done]|]. by eapply changes_more.
Qed.

Lemma changes_leaves (l own : list Z) (s : St) (m' : gmap Z Z) (w : W) : (forall x, x ∈ l -> x ∈ own) ->
  changes_only l (words s) m' -> leaves manager_words own s (Heap m' w).
Proof. intros Hl [H1 H2]. split; [intros x; apply H2|]. intros x Hx _ _. apply H1. auto. Qed.

Lemma add_page_ok (alloc root vaddr : Z) (s : St) : alloc <> 0 -> 0 <= vaddr -> vaddr + 4096 < word_size ->
  exists e s', _add_page alloc root vaddr s = Ok (e, s') /\
    leaves manager_words (if e =? 0 then page_bytes vaddr else []) s s' /\
    (e = 0 -> forall i, 0 <= i < 512 -> words s' !! (vaddr + 8 * i) = Some 0).
Proof.
  intros Ha Hv Hv'. unfold _add_page. rewrite (proj2 (Z.eqb_neq _ _) Ha).
  assert (Hstop : forall e' s', e' <> 0 -> leaves manager_words [] s s' ->
      exists e s'', Ok (e', s') = Ok (e, s'') /\ leaves manager_words (if e =? 0 then page_bytes vaddr else []) s s'' /\
      (e = 0 -> forall i, 0 <= i < 512 -> words s'' !! (vaddr + 8 * i) = Some 0)).
  { intros e' s' He' L. exists e', s'. rewrite (proj2 (Z.eqb_neq _ _) He'). done. }
  destruct (slot_law s) as (e1 & p & s1 & Hrun1 & L1 & _). rewrite (bind_ok _ _ _ _ _ Hrun1).
  destruct (Z.eqb_spec e1 0) as [He1|He1]; cbn [negb]; [|by apply Hstop].
  destruct (untyped_law seL4_PageBits seL4_X86_4K p true s1) as (c & e2 & s2 & Hrun2 & L2 & _). rewrite (bind_ok _ _ _ _ _ Hrun2).
  assert (L02 : leaves manager_words [] s s2) by (by eapply leaves_trans).
  destruct (Z.eqb_spec e2 0) as [He2|He2]; cbn [negb].
  2:{ destruct (slot_free_law p s2) as (s3 & Hrun3 & L3 & _). rewrite (bind_ok _ _ _ _ _ Hrun3). apply Hstop; [done|by eapply leaves_trans]. }
  destruct (map_frame_ok max_rounds (capPtr p) root vaddr s2) as (e3 & s3 & Hrun3 & L3 & Hmap).
  { pose proof (three_levels _ _ _ _ (levels_known s2 root vaddr)). unfold max_rounds. lia. }
  rewrite (bind_ok _ _ _ _ _ Hrun3). assert (L03 : leaves manager_words [] s s3) by (by eapply leaves_trans).
  destruct (Z.eqb_spec e3 seL4_NoError) as [He3|He3]; cbn [negb].
  2:{ destruct (slot_free_law p s3) as (s4 & Hrun4 & L4 & _). rewrite (bind_ok _ _ _ _ _ Hrun4).
      destruct (untyped_free_law c seL4_PageBits s4) as (s5 & Hrun5 & L5 & _). rewrite (bind_ok _ _ _ _ _ Hrun5).
      apply Hstop; [done|]. eapply leaves_trans; [| |exact L03|by eapply leaves_trans]; done. }
  destruct s3 as [m3 w3]. destruct (zero_words_ok 512 vaddr m3 w3) as (m4 & Hrun4 & Hz & Hch); [done|lia|by apply Hmap|].
  rewrite (bind_ok _ _ _ _ _ Hrun4). exists 0, (Heap m4 w3). split; [done|]. split; [|done].
  eapply leaves_trans; [| |exact L03|by eapply (changes_leaves (page_bytes vaddr))]; [|done].
  by intros x ?%not_elem_of_nil.
Qed.

(** ** The pool *)

(** User addresses of x86_64 are below this. *)
Definition user_end : Z := 140737488355328.

(** The pool's own words, and its addresses that are not given out. *)
Definition virtual_spare (v pool_ptr pool_limit : Z) : list Z :=
  [at_pool_ptr v; at_pool_top v; at_pool_limit v; at_pd v; at_morecore_alloc v] ++ seqZ pool_ptr (pool_limit - pool_ptr).

Lemma in_virtual_spare (v p l x : Z) :
  x ∈ virtual_spare v p l <-> x = v \/ x = v + 8 \/ x = v + 16 \/ x = v + 24 \/ x = v + 72 \/ p <= x < l.
Proof.
  unfold virtual_spare, at_pool_ptr, at_pool_top, at_pool_limit, at_pd, at_morecore_alloc.
  rewrite elem_of_app, !elem_of_cons, elem_of_seqZ. split.
  - intros [[?|[?|[?|[?|[?|?%not_elem_of_nil]]]]]|?]; try tauto. lia.
  - intros [?|[?|[?|[?|[?|?]]]]]; try tauto. right. lia.
Qed.

Record virtual_inv (v alloc : Z) (m : gmap Z Z) (spare : list Z) (pool_ptr pool_top pool_limit root : Z) : Prop := {
  vx_ptr : m !! at_pool_ptr v = Some pool_ptr;
  vx_top : m !! at_pool_top v = Some pool_top;
  vx_limit : m !! at_pool_limit v = Some pool_limit;
  vx_pd : m !! at_pd v = Some root;
  vx_alloc : m !! at_morecore_alloc v = Some alloc;
  vx_range : 0 < pool_ptr /\ pool_ptr <= pool_top <= pool_limit /\ pool_limit <= user_end;
  vx_aligned : pool_ptr mod 16 = 0 /\ pool_top mod 4096 = 0 /\ pool_limit mod 4096 = 0;
  vx_apart : v + 80 <= pool_ptr \/ pool_limit <= v;
  vx_mapped : given m pool_ptr (pool_top - pool_ptr);
  vx_spare : spare = virtual_spare v pool_ptr pool_limit;
  vx_manager : forall x, manager_words x -> x ∉ spare
}.

Lemma virtual_inv_ext (v alloc : Z) (m m' : gmap Z Z) (spare : list Z) (p t l r : Z) :
  (forall x, x ∈ spare -> is_Some (m !! x) -> m' !! x = m !! x) -> virtual_inv v alloc m spare p t l r -> virtual_inv v alloc m' spare p t l r.
Proof.
  intros Hm [H1 H2 H3 H4 H5 Hr Ha Hap Hmap -> Hc].
  assert (Hin : forall x, x = v \/ x = v + 8 \/ x = v + 16 \/ x = v + 24 \/ x = v + 72 \/ p <= x < l -> x ∈ virtual_spare v p l) by (intros x; apply in_virtual_spare).
  split; try done; try (rewrite Hm; [done|apply Hin; unfold at_pool_ptr, at_pool_top, at_pool_limit, at_pd, at_morecore_alloc; tauto|by eexists]).
  intros x Hx Hx' H8. assert (Hs : is_Some (m !! x)) by (by apply Hmap). rewrite Hm; [done| |done]. apply Hin. lia.
Qed.

(** Nothing the pool relies on is the manager's. *)
Lemma leaves_spare (v alloc : Z) (s s' : St) (own spare : list Z) (p t l r : Z) : virtual_inv v alloc (words s) spare p t l r ->
  (forall x, x ∈ own -> t <= x < l) -> leaves manager_words own s s' -> virtual_inv v alloc (words s') spare p t l r.
Proof.
  intros [H1 H2 H3 H4 H5 Hr Ha Hap Hmap -> Hc] Hown [Hdom Hsame].
  assert (Hin : forall x, x = v \/ x = v + 8 \/ x = v + 16 \/ x = v + 24 \/ x = v + 72 -> ~ manager_words x /\ (x ∉ own)).
  { intros x Hx. split; [intros Hmw; apply (Hc x Hmw), in_virtual_spare; tauto|]. intros Ho%Hown. lia. }
  split; try done; try (rewrite Hsame; [done|apply Hin; unfold at_pool_ptr, at_pool_top, at_pool_limit, at_pd, at_morecore_alloc; tauto..|by eexists]).
  intros x Hx Hx' H8. by apply Hdom, Hmap.
Qed.

(** One more page, and the top of the pool after it. *)
Lemma page_added (v alloc : Z) (s s' : St) (spare : list Z) (p t l r : Z) : virtual_inv v alloc (words s) spare p t l r -> t < l ->
  leaves manager_words (page_bytes t) s s' -> (forall i, 0 <= i < 512 -> words s' !! (t + 8 * i) = Some 0) ->
  virtual_inv v alloc (<[at_pool_top v := t + 4096]> (words s')) spare p (t + 4096) l r.
Proof.
  intros H Ht Hl Hz. pose proof H as [_ _ _ _ _ Hr (Ha1 & Ha2 & Ha3) Hap _ _ _].
  assert (Htl : t + 4096 <= l) by dlia.
  assert (H' : virtual_inv v alloc (words s') spare p t l r).
  { eapply leaves_spare; [exact H| |exact Hl]. intros x. unfold page_bytes. rewrite elem_of_seqZ. lia. }
  destruct H' as [H1 H2 H3 H4 H5 _ _ _ Hmap Hsp Hc].
  unfold at_pool_ptr, at_pool_top, at_pool_limit, at_pd, at_morecore_alloc in *.
  split; unfold at_pool_ptr, at_pool_top, at_pool_limit, at_pd, at_morecore_alloc; try done; try find_word; [lia|split; [done|split; [dlia|done]]|].
  intros x Hx Hx' H8. apply lookup_insert_is_Some'. right. destruct (decide (x < t)); [apply Hmap; [done| |done]; dlia|].
  replace x with (t + 8 * ((x - t) / 8)) by dlia. rewrite Hz by dlia. done.
Qed.

Lemma add_pages_ok (v alloc new : Z) (spare : list Z) (p l r : Z) (fuel : nat) : forall (s : St) (t : Z), alloc <> 0 ->
  virtual_inv v alloc (words s) spare p t l r -> 0 < new -> p + new <= l -> new <= (t - p) + 4096 * Z.of_nat fuel ->
  exists e s' t', add_pages fuel v new s = Ok (e, s') /\ virtual_inv v alloc (words s') spare p t' l r /\
    (e = 0 -> p + new <= t') /\ leaves manager_words spare s s'.
Proof.
  induction fuel as [|fuel IH]; intros s t Ha H Hn Hl Hfuel; pose proof H as [H1 H2 H3 H4 H5 Hr (A1 & A2 & A3) Hap Hmap Hsp Hc];
    destruct s as [m w]; cbn [words] in *; cbn [add_pages]; rewrite (load_bind _ p) by done; rewrite (load_bind _ t) by done;
    rewrite wrap_small by (unfold is_word, word_size, user_end in *; lia); (destruct (Z.leb_spec (p + new) t) as [Hle|Hgt];
      [exists 0, (Heap m w), t; split; [done|]; split; [done|]; split; [done|]; apply leaves_refl|]); [lia|].
  rewrite (load_bind _ alloc), (load_bind _ r) by done. assert (Htw : t + 4096 < word_size) by (unfold word_size, user_end in *; lia).
  destruct (add_page_ok alloc r t (Heap m w) Ha) as (e & s1 & Hrun1 & L1 & Hz); [lia|done|].
  rewrite (bind_ok _ _ _ _ _ Hrun1). destruct (Z.eqb_spec e 0) as [He|He]; cbn [negb].
  2:{ exists e, s1, t. split; [done|]. split; [|split; [done|]].
      - eapply (leaves_spare _ _ (Heap m w)); [exact H| |exact L1]. by intros x ?%not_elem_of_nil.
      - eapply leaves_trans; [| |exact L1|apply (leaves_refl _ [])]; by intros x ?%not_elem_of_nil. }
  pose proof (page_added v alloc (Heap m w) s1 spare p t l r H ltac:(lia) L1 (Hz He)) as Hnew.
  assert (Htl : t + 4096 <= l) by dlia.
  assert (H2' : words s1 !! at_pool_top v = Some t).
  { eapply vx_top, (leaves_spare _ _ (Heap m w) s1 (page_bytes t)); [exact H| |exact L1]. intros x. unfold page_bytes. rewrite elem_of_seqZ. lia. }
  destruct s1 as [m1 w1]. cbn [words] in *. rewrite (load_bind _ t) by done. rewrite store_bind by by eexists.
  unfold PAGE_SIZE_4K. rewrite wrap_small by (unfold is_word; lia).
  destruct (IH (Heap (<[at_pool_top v := t + 4096]> m1) w1) (t + 4096) Ha Hnew Hn Hl) as (e2 & s2 & t2 & Hrun2 & Hinv2 & Hfit & L2); [lia|].
  exists e2, s2, t2. split; [done|]. split; [done|]. split; [done|].
  assert (Hin : forall x, x = v + 8 \/ t <= x < t + 4096 -> x ∈ spare) by (intros x Hx; rewrite Hsp; apply in_virtual_spare; lia).
  eapply (leaves_trans _ _ (page_bytes t) spare); [|done|exact L1|].
  { intros x. unfold page_bytes. rewrite elem_of_seqZ. intros Hx. apply Hin. lia. }
  eapply (leaves_trans _ _ [at_pool_top v] spare); [|done| |exact L2].
  { intros x ->%list_elem_of_singleton. apply Hin. unfold at_pool_top. lia. }
  eapply (changes_leaves [at_pool_top v]); [done|]. apply changes_insert; [left|by eexists].
Qed.

Lemma virtual_pool_ok (v alloc n : Z) (s : St) (spare : list Z) (p t l r : Z) : alloc <> 0 ->
  virtual_inv v alloc (words s) spare p t l r -> 0 < n -> 16 * n + user_end < word_size ->
  exists res s' spare' p' t', (forall k, virtual_pool_morecore v k n s = Ok (res, s')) /\
    virtual_inv v alloc (words s') spare' p' t' l r /\ leaves manager_words spare s s' /\
    ((res = 0 /\ spare' = spare) \/ (res <> 0 /\ mapped (words s') (res, n) /\ spare ≡ₚ extent (res, n) ++ spare')).
Proof.
  intros Ha H Hn Hn'. pose proof H as [H1 H2 H3 H4 H5 Hr (A1 & A2 & A3) Hap Hmap Hsp Hc].
  assert (Hnew : n ⊠ sizeof_k_r_malloc_header_t = 16 * n).
  { unfold sizeof_k_r_malloc_header_t. rewrite wrap_small; [lia|]. unfold is_word, user_end in *. lia. }
  assert (Hrun0 : forall k, virtual_pool_morecore v k n s = (if l <? p + 16 * n then ret 0 else
     let! error := add_pages (Z.to_nat (16 * n / 4096 + 1)) v (16 * n) in if negb (error =? 0) then ret 0 else
     let! new_header := load (at_pool_ptr v) in let! _ := store (at_pool_ptr v) (new_header ⊞ 16 * n) in ret new_header) s).
  { intros k. unfold virtual_pool_morecore. rewrite Hnew. destruct s as [m w]. cbn [words] in *. cbv zeta.
    rewrite (load_bind _ p), (load_bind _ l) by done.
    rewrite (wrap_small (p + 16 * n)) by (unfold is_word, user_end in *; lia). done. }
  destruct (Z.ltb_spec l (p + 16 * n)) as [Hlt|Hge].
  { exists 0, s, spare, p, t. split; [done|]. split; [done|]. split; [apply leaves_refl|]. by left. }
  destruct (add_pages_ok v alloc (16 * n) spare p l r (Z.to_nat (16 * n / 4096 + 1)) s t Ha H) as (e & s1 & t1 & Hrun1 & Hinv1 & Hfit & L1);
    [lia|lia|dlia|].
  destruct (Z.eqb_spec e 0) as [He|He].
  2:{ exists 0, s1, spare, p, t1. split; [|split; [done|split; [done|by left]]].
      intros k. rewrite Hrun0, (bind_ok _ _ _ _ _ Hrun1), (proj2 (Z.eqb_neq _ _) He). done. }
  specialize (Hfit He). destruct s1 as [m1 w1]. cbn [words] in *.
  pose proof Hinv1 as [B1 B2 B3 B4 B5 Br (C1 & C2 & C3) _ Bmap _ _].
  exists p, (Heap (<[at_pool_ptr v := p + 16 * n]> m1) w1), (virtual_spare v (p + 16 * n) l), (p + 16 * n), t1. split; [|split; [|split]].
  - intros k. rewrite Hrun0, (bind_ok _ _ _ _ _ Hrun1), He. cbn [negb Z.eqb]. rewrite (load_bind _ p), store_bind by (done || by eexists).
    rewrite wrap_small by (unfold is_word, word_size, user_end in *; lia). done.
  - unfold at_pool_ptr, at_pool_top, at_pool_limit, at_pd, at_morecore_alloc in *. cbn [words].
    split; unfold at_pool_ptr, at_pool_top, at_pool_limit, at_pd, at_morecore_alloc; try done; try find_word; [lia|split; [dlia|done]|lia| |].
    + intros x Hx Hx' H8. apply lookup_insert_is_Some'. right. apply Bmap; [lia|lia|done].
    + intros x Hx Hin. apply (Hc x Hx). rewrite Hsp. apply in_virtual_spare. apply in_virtual_spare in Hin. lia.
  - eapply (leaves_trans _ _ spare [at_pool_ptr v]); [done| |exact L1|].
    + intros x ->%list_elem_of_singleton. rewrite Hsp. apply in_virtual_spare. by left.
    + eapply (changes_leaves [at_pool_ptr v]); [done|]. apply changes_insert; [left|by eexists].
  - right. split; [lia|]. split.
    + split; [cbn [fst]; lia|]. cbn [fst snd]. split; [lia|]. split; [unfold word_size, user_end in *; lia|]. intros i Hi. unfold at_ptr, at_size.
      split; apply lookup_insert_is_Some'; right; apply Bmap; try lia; dlia.
    + rewrite Hsp. unfold virtual_spare, extent, sizeof_k_r_malloc_header_t. cbn [fst snd].
      replace (l - p) with (16 * n + (l - (p + 16 * n))) by lia. rewrite seqZ_app by lia.
      rewrite !app_assoc. f_equiv. apply Permutation_app_comm.
Qed.

#[export] Program Instance virtual_pool_laws : MorecoreLaws virtual_pool_morecore := {|
  pool_inv v _ m _ spare := exists alloc p t l r, alloc <> 0 /\ virtual_inv v alloc m spare p t l r;
  client_words := manager_words; askable _ n := 16 * n + user_end < word_size; refuses _ _ := True
|}.
Next Obligation.
  intros v k m m' w spare Hm (alloc & p & t & l & r & Ha & H). exists alloc, p, t, l, r. split; [done|].
  eapply virtual_inv_ext; [|exact H]. intros x Hx _. by apply Hm.
Qed.
Next Obligation.
  intros v k n s spare (alloc & p & t & l & r & Ha & H) Hn' Hn _.
  destruct (virtual_pool_ok v alloc n s spare p t l r Ha H Hn Hn') as (res & s' & spare' & p' & t' & Hrun & Hinv & [Hdom Hsame] & Hcase).
  exists res, s', spare'. split; [apply Hrun|]. split; [by exists alloc, p', t', l, r|]. split; [done|]. split; [done|].
  destruct Hcase as [[-> ->]|Hcase]; [by left|by right].
Qed.

(** ** The pool's operations *)

(** A pool between its operations; what its allocator relies on is not the manager's. *)
Definition virtual_ready (v : Z) (s : St) (R A : list cell) (spare : list Z) : Prop :=
  kr_ready (words s) (at_k_r_malloc v) v R A spare /\
  (exists p t l r, virtual_inv v 0 (words s) spare p t l r) /\
  forall x, manager_words x -> x ∉ held (at_k_r_malloc v) R A.

Lemma set_alloc (v a b : Z) (m : gmap Z Z) (spare : list Z) (p t l r : Z) : virtual_inv v a m spare p t l r ->
  virtual_inv v b (<[at_morecore_alloc v := b]> m) spare p t l r.
Proof.
  intros [H1 H2 H3 H4 H5 Hr Ha Hap Hmap Hsp Hc].
  split; unfold at_pool_ptr, at_pool_top, at_pool_limit, at_pd, at_morecore_alloc in *; try done; try find_word.
  intros x Hx Hx' H8. apply lookup_insert_is_Some'. right. by apply Hmap.
Qed.

(** The pool's own words are not the allocator's. *)
Lemma held_spare (m : gmap Z Z) (k : Z) (R A : list cell) (spare : list Z) (x : Z) :
  kr_shape m k R A spare -> x ∈ spare -> x ∉ held k R A.
Proof.
  intros H Hx Hh. destruct (spare_apart _ _ _ _ _ _ H Hx) as [H1 H2].
  apply (held_touched _ _ _ _ _ _ H), elem_of_app in Hh as [Hh|Hh]; [done|]. apply H1, elem_of_app. by right.
Qed.

Lemma kr_inv_store (m : gmap Z Z) (k cookie : Z) (R A : list cell) (spare : list Z) (x y : Z) :
  x ∈ spare -> kr_inv m k cookie R A spare -> kr_inv (<[x := y]> m) k cookie R A spare.
Proof.
  intros Hx H. eapply kr_inv_frame; [| |exact H].
  - intros z Hz. apply lookup_insert_is_Some'. by right.
  - intros z Hz _. apply lookup_insert_ne. intros ->. by apply (held_spare _ _ _ _ _ _ (kr_shaped _ _ _ _ _ _ H) Hx).
Qed.

Lemma kr_ready_store (m : gmap Z Z) (k cookie : Z) (R A : list cell) (spare : list Z) (x y : Z) :
  x ∈ spare -> kr_ready m k cookie R A spare -> kr_ready (<[x := y]> m) k cookie R A spare.
Proof.
  intros Hx [H|(-> & -> & Hsh & Hf & Hck)]; [left; by apply kr_inv_store|right]. split; [done|]. split; [done|].
  assert (Hz : forall z, k <= z < k + 40 -> <[x := y]> m !! z = m !! z).
  { intros z Hz. apply lookup_insert_ne. intros ->. destruct (spare_apart _ _ _ _ _ _ Hsh Hx) as [_ Hn]. apply Hn, in_zone. lia. }
  split; [|by rewrite !Hz by (unfold at_freep, at_cookie; lia)].
  eapply kr_shape_frame; [|exact Hsh]. intros z Hs. apply lookup_insert_is_Some'. by right.
Qed.

Lemma manager_apart (k n y : Z) (R R' A : list cell) (spare spare' : list Z) : 0 < n ->
  extents (R' ++ [(y, n)]) ++ spare' ≡ₚ extents R ++ spare ->
  (forall x, manager_words x -> x ∉ spare) -> (forall x, manager_words x -> x ∉ held k R A) ->
  forall x, manager_words x -> x ∉ held k R' ((y, n) :: A).
Proof.
  intros Hn Hext Hsp Hh x Hm Hx. unfold held in *. specialize (Hsp x Hm). specialize (Hh x Hm).
  rewrite !elem_of_app in Hh. apply Hh. rewrite !elem_of_app in Hx.
  assert (Hold : x ∈ extents (R' ++ [(y, n)]) -> x ∈ extents R).
  { intros Hin. assert (Hin' : x ∈ extents R ++ spare) by (rewrite <- Hext; apply elem_of_app; by left).
    apply elem_of_app in Hin' as [?|?]; done. }
  rewrite extents_app, elem_of_app in Hold. destruct Hx as [Hx|[Hx|Hx]]; [tauto|tauto|].
  unfold headers in Hx. rewrite bind_cons in Hx. apply elem_of_app in Hx as [Hx|Hx]; [|tauto].
  right. left. apply Hold. right. rewrite extents_single. apply in_extent. cbn [fst snd] in *. unfold at_ptr, at_size in Hx.
  apply elem_of_cons in Hx as [->|Hx]; [lia|]. apply list_elem_of_singleton in Hx. lia.
Qed.

(** A virtual pool fails, with error 1, only if no free block has room and its
    range is used up or the manager or the kernel refuses; it is then as it was.
    Otherwise the result is a block of the size asked for, made of free blocks and
    of pages mapped for it.  The search for memory ends, the pool grows page by
    page within its range, and nothing else in memory is changed but what the
    manager writes of its own. *)
Lemma virtual_pool_alloc_ok (alloc v bytes : Z) (s : St) (R A : list cell) (spare : list Z) :
  virtual_ready v s R A spare -> alloc <> 0 -> 0 <= bytes -> 16 * units bytes + user_end < word_size ->
  exists r e s', _mspace_virtual_pool_alloc alloc v bytes s = Ok (r, e, s') /\
    leaves manager_words (touched (at_k_r_malloc v) ++ extents R ++ spare) s s' /\
    ((r = 0 /\ e = 1 /\ virtual_ready v s' R A spare /\ forall c, c ∈ R -> c.2 < units bytes) \/
     (r <> 0 /\ e = 0 /\ exists R' spare', virtual_ready v s' R' ((r - 16, units bytes) :: A) spare' /\
        extents (R' ++ [(r - 16, units bytes)]) ++ spare' ≡ₚ extents R ++ spare)).
Proof.
  intros (Hready & (p & t & l & rt & Hpool) & Hmw) Ha H0 H1. destruct s as [m w]. cbn [words] in *.
  assert (Hin : at_morecore_alloc v ∈ spare).
  { rewrite (vx_spare _ _ _ _ _ _ _ _ Hpool). apply in_virtual_spare. unfold at_morecore_alloc. tauto. }
  pose proof (mk_is_Some _ _ (vx_alloc _ _ _ _ _ _ _ _ Hpool)) as Hsome.
  unfold _mspace_virtual_pool_alloc. rewrite store_bind by done. set (m1 := <[at_morecore_alloc v := alloc]> m).
  pose proof (units_bounds bytes H0) as [Hu Hub].
  destruct (k_r_alloc_spec (ML := virtual_pool_laws) (Heap m1 w) (at_k_r_malloc v) v bytes R A spare)
    as (_ & r & s2 & spare2 & Hrun & (a2 & p2 & t2 & l2 & rt2 & Ha2 & Hpool2) & Hkeep & Hcase).
  { by apply kr_ready_store. }
  { exists alloc, p, t, l, rt. split; [done|by eapply set_alloc]. }
  { done. } { done. } { done. } { unfold user_end in *. lia. }
  rewrite (bind_ok _ _ _ _ _ Hrun). destruct s2 as [m2 w2]. cbn [words] in *.
  pose proof (mk_is_Some _ _ (vx_alloc _ _ _ _ _ _ _ _ Hpool2)) as Hsome2. rewrite store_bind by done.
  exists r, (if r =? 0 then 1 else 0), (Heap (<[at_morecore_alloc v := 0]> m2) w2). split; [done|].
  assert (Hstore : forall (m : gmap Z Z) (w : W) y (w' : W), is_Some (m !! at_morecore_alloc v) ->
      leaves manager_words (touched (at_k_r_malloc v) ++ extents R ++ spare) (Heap m w) (Heap (<[at_morecore_alloc v := y]> m) w')).
  { intros m0 w0 y w' Hs0. apply (changes_leaves [at_morecore_alloc v]).
    - intros x ->%list_elem_of_singleton. rewrite !elem_of_app. tauto.
    - apply changes_insert; [left|done]. }
  split.
  { eapply leaves_trans; [| |by apply (Hstore m w alloc w)|]; [done|done|].
    eapply leaves_trans; [| |exact Hkeep|by apply Hstore]; done. }
  assert (Hin2 : at_morecore_alloc v ∈ spare2).
  { rewrite (vx_spare _ _ _ _ _ _ _ _ Hpool2). apply in_virtual_spare. unfold at_morecore_alloc. tauto. }
  destruct Hcase as [(-> & Hinv & -> & _ & Hsm)|(R' & Hr & Hinv & Hext & _)].
  - left. split; [done|]. split; [done|]. split; [|done]. split; [left; by apply kr_inv_store|]. split; [|done].
    exists p2, t2, l2, rt2. by eapply set_alloc.
  - right. split; [done|]. rewrite (proj2 (Z.eqb_neq _ _) Hr). split; [done|]. exists R', spare2. split; [|done].
    split; [left; by apply kr_inv_store|]. split; [exists p2, t2, l2, rt2; by eapply set_alloc|].
    eapply manager_apart; [done|exact Hext|apply (vx_manager _ _ _ _ _ _ _ _ Hpool)|done].
Qed.

Lemma virtual_pool_free_ok (alloc v bytes : Z) (s : St) (b : cell) (R A : list cell) (spare : list Z) :
  virtual_ready v s R (b :: A) spare -> (forall x, manager_words x -> x ∉ extent b) ->
  exists s' R', _mspace_virtual_pool_free alloc v (b.1 + 16) bytes s = Ok (tt, s') /\
    virtual_ready v s' R' A spare /\ extents R' ≡ₚ extents R ++ extent b /\
    changes_only (touched (at_k_r_malloc v) ++ extents R ++ extent b ++ spare) (words s) (words s').
Proof.
  intros (Hready & (p & t & l & rt & Hpool) & Hmw) Hb. destruct s as [m w]. cbn [words] in *.
  destruct Hready as [Hinv|(_ & ? & _)]; [|done].
  assert (Hin : at_morecore_alloc v ∈ spare).
  { rewrite (vx_spare _ _ _ _ _ _ _ _ Hpool). apply in_virtual_spare. unfold at_morecore_alloc. tauto. }
  pose proof (mk_is_Some _ _ (vx_alloc _ _ _ _ _ _ _ _ Hpool)) as Hsome.
  unfold _mspace_virtual_pool_free. rewrite store_bind by done. set (m1 := <[at_morecore_alloc v := alloc]> m).
  pose proof (kr_inv_store _ _ _ _ _ _ _ alloc Hin Hinv) as Hinv1. fold m1 in Hinv1.
  destruct (kr_free_ok (Heap m1 w) (at_k_r_malloc v) v b R A spare Hinv1) as (m2 & R' & Hrun & Hinv2 & Hext & Hch & _).
  destruct (ks_nonneg _ _ _ _ _ (kr_shaped _ _ _ _ _ _ Hinv) b) as (Hb1 & _ & Hbe); [apply elem_of_app; right; left|].
  pose proof (ks_alloc _ _ _ _ _ (kr_shaped _ _ _ _ _ _ Hinv) b ltac:(left)) as Hb2.
  rewrite header_at_small in Hrun by lia. rewrite (bind_ok _ _ _ _ _ Hrun).
  assert (Hpool2 : virtual_inv v alloc m2 spare p t l rt).
  { eapply virtual_inv_ext; [|by eapply (set_alloc v 0 alloc)]. intros x Hx _. apply Hch.
    intros Hx'. destruct (spare_apart _ _ _ _ _ x (kr_shaped _ _ _ _ _ _ Hinv1) Hx) as [Hn _]. apply Hn. revert Hx'.
    rewrite !extents_app, extents_single, extents_cons, !elem_of_app. tauto. }
  pose proof (mk_is_Some _ _ (vx_alloc _ _ _ _ _ _ _ _ Hpool2)) as Hsome2.
  exists (Heap (<[at_morecore_alloc v := 0]> m2) w), R'. split; [by apply store_run|]. rewrite extents_app, extents_single in Hext. cbn [words].
  split; [|split; [done|]].
  - split; [left; by apply kr_inv_store|]. split; [exists p, t, l, rt; by eapply set_alloc|].
    intros x Hm Hx. specialize (Hmw x Hm). apply Hmw. unfold held in *. rewrite !elem_of_app in *. rewrite Hext, elem_of_app in Hx.
    specialize (Hb x Hm). unfold headers in *. rewrite bind_cons, elem_of_app. tauto.
  - eapply changes_trans; [apply (changes_insert _ _ (at_morecore_alloc v) alloc); [rewrite !elem_of_app; tauto|done]|].
    eapply changes_trans; [eapply changes_more; [|exact Hch]|apply changes_insert; [rewrite !elem_of_app; tauto|done]].
    intros x. rewrite extents_app, extents_single, !elem_of_app. tauto.
Qed.
End virtual.
