(* ===== verification/DualPool.v ===== *)
(** The dual pool of libsel4allocman/src/mspace/dual_pool.c: a fixed pool and,
    once it is attached, a virtual pool, in one memory.  Allocations go to the
    virtual pool first; a block is freed to the pool its address is in. *)
From S2P Require Import Prelude Cspacepath Interfaces Mapping KrMalloc KrInv KrSpec KrAlloc Pools FixedPool VirtualPool.
Import dual_pool.

(** The bytes of a heap: its allocator, its blocks, and what it may still give. *)
Definition heap_bytes (k : Z) (R A : list cell) (spare : list Z) : list Z := zone k ++ extents (R ++ A) ++ spare.

Lemma kr_ready_shape (m : gmap Z Z) (k cookie : Z) (R A : list cell) (spare : list Z) :
  kr_ready m k cookie R A spare -> kr_shape m k R A spare.
Proof. intros [H|(-> & -> & H & _)]; [apply H|done]. Qed.

Lemma kr_ready_frame (m m' : gmap Z Z) (k cookie : Z) (R A : list cell) (spare : list Z) :
  (forall x, is_Some (m !! x) -> is_Some (m' !! x)) ->
  (forall x, x ∈ held k R A -> is_Some (m !! x) -> m' !! x = m !! x) ->
  kr_ready m k cookie R A spare -> kr_ready m' k cookie R A spare.
Proof.
  intros Hdom Hm [H|(-> & -> & Hsh & Hf & Hck)]; [left; by eapply kr_inv_frame|right]. split; [done|]. split; [done|].
  assert (Hz : forall z, k <= z < k + 40 -> is_Some (m !! z) -> m' !! z = m !! z).
  { intros z Hz. apply Hm, elem_of_app. left. apply in_zone. lia. }
  split; [by eapply kr_shape_frame|]. rewrite !Hz; try done; try (unfold at_freep, at_cookie; lia); by eexists.
Qed.

Lemma held_bytes (m : gmap Z Z) (k cookie : Z) (R A : list cell) (spare : list Z) (x : Z) :
  kr_ready m k cookie R A spare -> x ∈ held k R A -> x ∈ heap_bytes k R A spare.
Proof.
  intros H%kr_ready_shape Hx. apply (held_touched _ _ _ _ _ _ H), elem_of_app in Hx. unfold heap_bytes. rewrite !elem_of_app. tauto.
Qed.

Lemma block_not_spare (m : gmap Z Z) (k : Z) (R A : list cell) (spare : list Z) (b : cell) (x : Z) :
  kr_shape m k R A spare -> b ∈ A -> x ∈ extent b -> x ∉ spare.
Proof.
  intros H Hb Hx Hs. destruct (spare_apart _ _ _ _ _ _ H Hs) as [Hn _]. apply Hn, elem_of_app. right. apply in_extents.
  exists b. split; [apply elem_of_app; by right|done].
Qed.

Lemma touched_zone (k x : Z) : x ∈ touched k -> x ∈ zone k.
Proof.
  unfold touched, at_ptr, at_size, at_freep. intros Hx. apply in_zone.
  repeat (apply elem_of_cons in Hx as [->|Hx]; [lia|]). by apply not_elem_of_nil in Hx.
Qed.

Section dual.
Context {W : Type} `{PS : PoolSystem W}.
#[local] Notation St := (heap W).

Lemma fixed_frame (f : Z) (s s' : St) (own : list Z) (R A : list cell) (spare : list Z) :
  leaves manager_words own s s' -> (forall x, x ∈ own -> x ∉ heap_bytes (fixed_pool.at_k_r_malloc f) R A spare) ->
  (forall x, manager_words x -> (x ∉ held (fixed_pool.at_k_r_malloc f) R A) /\ (x ∉ spare)) ->
  fixed_ready f s R A spare -> fixed_ready f s' R A spare.
Proof.
  intros [Hdom Hsame] Hown Hmw (Hready & p & n & Hpool). split.
  - eapply kr_ready_frame; [exact Hdom| |exact Hready]. intros x Hx. apply Hsame.
    + intros Ho. apply (Hown x Ho). by eapply held_bytes.
    + intros Hm. by destruct (Hmw x Hm).
  - exists p, n. eapply fixed_inv_ext; [|exact Hpool]. intros x Hx. apply Hsame.
    + intros Ho. apply (Hown x Ho). unfold heap_bytes. rewrite !elem_of_app. tauto.
    + intros Hm. by destruct (Hmw x Hm).
Qed.

Lemma virtual_frame (v : Z) (s s' : St) (own : list Z) (R A : list cell) (spare : list Z) :
  (forall x, is_Some (words s !! x) -> is_Some (words s' !! x)) ->
  (forall x, x ∉ own -> is_Some (words s !! x) -> words s' !! x = words s !! x) ->
  (forall x, x ∈ own -> x ∉ heap_bytes (virtual_pool.at_k_r_malloc v) R A spare) ->
  virtual_ready v s R A spare -> virtual_ready v s' R A spare.
Proof.
  intros Hdom Hsame Hown (Hready & (p & t & l & r & Hpool) & Hmw). split; [|split; [|done]].
  - eapply kr_ready_frame; [exact Hdom| |exact Hready]. intros x Hx. apply Hsame.
    intros Ho. apply (Hown x Ho). by eapply held_bytes.
  - exists p, t, l, r. eapply virtual_inv_ext; [|exact Hpool]. intros x Hx. apply Hsame.
    intros Ho. apply (Hown x Ho). unfold heap_bytes. rewrite !elem_of_app. tauto.
Qed.

(** A dual pool with its virtual pool attached.  The two heaps share no byte; the
    blocks of the fixed one, and what it has left, are in its range, and nothing
    of the virtual one is.  What the manager writes is neither heap's. *)
Record dual_ready (d start fin : Z) (s : St) (Rf Af : list cell) (sf : list Z) (Rv Av : list cell) (sv : list Z) : Prop := {
  dl_start : words s !! at_fixed_pool_start d = Some start;
  dl_end : words s !! at_fixed_pool_end d = Some fin;
  dl_have : exists h, words s !! at_have_virtual_pool d = Some h /\ h <> 0;
  dl_fixed : fixed_ready (at_fixed_pool d) s Rf Af sf;
  dl_virtual : virtual_ready (at_virtual_pool d) s Rv Av sv;
  dl_apart : forall x, x ∈ heap_bytes (fixed_pool.at_k_r_malloc (at_fixed_pool d)) Rf Af sf ->
    x ∉ heap_bytes (virtual_pool.at_k_r_malloc (at_virtual_pool d)) Rv Av sv;
  dl_own : forall x, x ∈ [at_fixed_pool_start d; at_fixed_pool_end d; at_have_virtual_pool d] ->
    (x ∉ heap_bytes (fixed_pool.at_k_r_malloc (at_fixed_pool d)) Rf Af sf) /\
    (x ∉ heap_bytes (virtual_pool.at_k_r_malloc (at_virtual_pool d)) Rv Av sv) /\ ~ manager_words x;
  dl_manager : forall x, manager_words x ->
    (x ∉ held (fixed_pool.at_k_r_malloc (at_fixed_pool d)) Rf Af) /\ (x ∉ sf);
  dl_in : forall x, x ∈ extents (Rf ++ Af) ++ sf -> x = at_fixed_pool d \/ x = at_fixed_pool d + 8 \/ start <= x < fin;
  dl_out : forall x, x ∈ extents (Rv ++ Av) ++ sv -> ~ (start <= x < fin)
}.

(** A step of the virtual heap, seen from the dual pool: its bytes are what they were. *)
Lemma dual_virtual_step (d start fin : Z) (s s' : St) (own : list Z) (Rf Af Rv Av Rv' Av' : list cell) (sf sv sv' : list Z) :
  dual_ready d start fin s Rf Af sf Rv Av sv -> leaves manager_words own s s' ->
  (forall x, x ∈ own -> x ∈ heap_bytes (virtual_pool.at_k_r_malloc (at_virtual_pool d)) Rv Av sv) ->
  virtual_ready (at_virtual_pool d) s' Rv' Av' sv' -> extents (Rv' ++ Av') ++ sv' ≡ₚ extents (Rv ++ Av) ++ sv ->
  dual_ready d start fin s' Rf Af sf Rv' Av' sv'.
Proof.
  intros [H1 H2 (h & H3 & Hh) Hf Hv Hap Hown Hman Hin Hout] L Hsub Hv' Hext.
  assert (Hbytes : forall x, x ∈ heap_bytes (virtual_pool.at_k_r_malloc (at_virtual_pool d)) Rv' Av' sv' <->
    x ∈ heap_bytes (virtual_pool.at_k_r_malloc (at_virtual_pool d)) Rv Av sv).
  { intros x. unfold heap_bytes. by rewrite Hext. }
  assert (Hkeep : forall x, x ∈ [at_fixed_pool_start d; at_fixed_pool_end d; at_have_virtual_pool d] ->
    is_Some (words s !! x) -> words s' !! x = words s !! x).
  { intros x Hx. destruct (Hown x Hx) as (Hn1 & Hn2 & Hn3). apply L; [|done]. intros Ho. by apply Hn2, Hsub. }
  assert (I1 : at_fixed_pool_start d ∈ [at_fixed_pool_start d; at_fixed_pool_end d; at_have_virtual_pool d]) by left.
  assert (I2 : at_fixed_pool_end d ∈ [at_fixed_pool_start d; at_fixed_pool_end d; at_have_virtual_pool d]) by (right; left).
  assert (I3 : at_have_virtual_pool d ∈ [at_fixed_pool_start d; at_fixed_pool_end d; at_have_virtual_pool d]) by (do 2 right; left).
  split.
  - rewrite Hkeep; [done|done|by eexists].
  - rewrite Hkeep; [done|done|by eexists].
  - exists h. rewrite Hkeep; [done|done|by eexists].
  - eapply fixed_frame; [exact L| |exact Hman|exact Hf]. intros x Hx Hx'. apply (Hap x Hx'). by apply Hsub.
  - done.
  - intros x Hx. rewrite Hbytes. by apply Hap.
  - intros x Hx. rewrite Hbytes. by apply Hown.
  - done.
  - done.
  - intros x. rewrite Hext. apply Hout.
Qed.

(** The same of the fixed heap. *)
Lemma dual_fixed_step (d start fin : Z) (s s' : St) (own : list Z) (Rf Af Rf' Af' Rv Av : list cell) (sf sf' sv : list Z) :
  dual_ready d start fin s Rf Af sf Rv Av sv ->
  (forall x, is_Some (words s !! x) -> is_Some (words s' !! x)) ->
  (forall x, x ∉ own -> is_Some (words s !! x) -> words s' !! x = words s !! x) ->
  (forall x, x ∈ own -> x ∈ heap_bytes (fixed_pool.at_k_r_malloc (at_fixed_pool d)) Rf Af sf) ->
  fixed_ready (at_fixed_pool d) s' Rf' Af' sf' -> extents (Rf' ++ Af') ++ sf' ≡ₚ extents (Rf ++ Af) ++ sf ->
  (forall x, manager_words x -> (x ∉ held (fixed_pool.at_k_r_malloc (at_fixed_pool d)) Rf' Af') /\ (x ∉ sf')) ->
  dual_ready d start fin s' Rf' Af' sf' Rv Av sv.
Proof.
  intros [H1 H2 (h & H3 & Hh) Hf Hv Hap Hown Hman Hin Hout] Hdom Hsame Hsub Hf' Hext Hman'.
  assert (Hbytes : forall x, x ∈ heap_bytes (fixed_pool.at_k_r_malloc (at_fixed_pool d)) Rf' Af' sf' <->
    x ∈ heap_bytes (fixed_pool.at_k_r_malloc (at_fixed_pool d)) Rf Af sf).
  { intros x. unfold heap_bytes. by rewrite Hext. }
  assert (Hkeep : forall x, x ∈ [at_fixed_pool_start d; at_fixed_pool_end d; at_have_virtual_pool d] ->
    is_Some (words s !! x) -> words s' !! x = words s !! x).
  { intros x Hx. destruct (Hown x Hx) as (Hn1 & Hn2 & Hn3). apply Hsame. intros Ho. by apply Hn1, Hsub. }
  assert (I1 : at_fixed_pool_start d ∈ [at_fixed_pool_start d; at_fixed_pool_end d; at_have_virtual_pool d]) by left.
  assert (I2 : at_fixed_pool_end d ∈ [at_fixed_pool_start d; at_fixed_pool_end d; at_have_virtual_pool d]) by (right; left).
  assert (I3 : at_have_virtual_pool d ∈ [at_fixed_pool_start d; at_fixed_pool_end d; at_have_virtual_pool d]) by (do 2 right; left).
  split.
  - rewrite Hkeep; [done|done|by eexists].
  - rewrite Hkeep; [done|done|by eexists].
  - exists h. rewrite Hkeep; [done|done|by eexists].
  - done.
  - eapply virtual_frame; [exact Hdom|exact Hsame| |exact Hv]. intros x Hx. apply Hap. by apply Hsub.
  - intros x Hx%Hbytes. by apply Hap.
  - intros x Hx. rewrite Hbytes. by apply Hown.
  - done.
  - intros x. rewrite Hext. apply Hin.
  - done.
Qed.

Lemma allocated_bytes (R R' A : list cell) (b : cell) (spare spare' : list Z) :
  extents (R' ++ [b]) ++ spare' ≡ₚ extents R ++ spare -> extents (R' ++ b :: A) ++ spare' ≡ₚ extents (R ++ A) ++ spare.
Proof.
  intros H. rewrite (cons_middle b R' A), app_assoc, (extents_app (R' ++ [b])), (extents_app R A), <- !app_assoc.
  rewrite (Permutation_app_comm (extents A) spare'), (Permutation_app_comm (extents A) spare), !app_assoc. by rewrite H.
Qed.

Lemma freed_bytes (R R' A : list cell) (b : cell) (spare : list Z) :
  extents R' ≡ₚ extents R ++ extent b -> extents (R' ++ A) ++ spare ≡ₚ extents (R ++ b :: A) ++ spare.
Proof. intros H. rewrite !extents_app, extents_cons, H, <- !app_assoc. done. Qed.

Lemma own_bytes (k : Z) (R A : list cell) (spare : list Z) (x : Z) : x ∈ touched k ++ extents R ++ spare -> x ∈ heap_bytes k R A spare.
Proof.
  unfold heap_bytes. rewrite extents_app, !elem_of_app. intros [Hx%touched_zone|[Hx|Hx]]; tauto.
Qed.

(** C26: with its virtual pool attached, a dual pool keeps its two heaps apart.  An
    allocation that succeeds gives a block of one of them; it fails, with error 1,
    only when both do. *)
Theorem dual_pool_alloc_spec (alloc d start fin bytes : Z) (s : St) (Rf Af Rv Av : list cell) (sf sv : list Z) :
  dual_ready d start fin s Rf Af sf Rv Av sv -> alloc <> 0 -> 0 <= bytes -> 16 * units bytes + user_end < word_size ->
  exists r e s', _mspace_dual_pool_alloc alloc d bytes s = Ok (r, e, s') /\
    ((r = 0 /\ e = 1 /\ dual_ready d start fin s' Rf Af sf Rv Av sv /\ Z.of_nat (length sf) - 2 < 16 * units bytes /\
        forall c, c ∈ Rf ++ Rv -> c.2 < units bytes) \/
     (r <> 0 /\ e = 0 /\ exists Rv' sv', dual_ready d start fin s' Rf Af sf Rv' ((r - 16, units bytes) :: Av) sv') \/
     (r <> 0 /\ e = 0 /\ exists Rf' sf', dual_ready d start fin s' Rf' ((r - 16, units bytes) :: Af) sf' Rv Av sv)).
Proof.
  intros H Ha H0 H1. pose proof H as [_ _ (h & Hh & Hh0) Hf Hv Hap _ Hman _ _]. unfold _mspace_dual_pool_alloc.
  rewrite (bind_ok _ _ _ _ _ (load_word_ok _ _ _ Hh)), (proj2 (Z.eqb_neq _ _) Hh0). cbn [negb].
  destruct (virtual_pool_alloc_ok alloc (at_virtual_pool d) bytes s Rv Av sv Hv Ha H0 H1) as (r & e & s1 & Hrun & L & Hcase).
  rewrite (bind_ok _ _ _ _ _ Hrun).
  destruct Hcase as [(-> & -> & Hv1 & Hsm)|(Hr & -> & Rv' & sv' & Hv1 & Hext)]; cbn [Z.eqb].
  2:{ exists r, 0, s1. split; [done|]. right. left. split; [done|]. split; [done|]. exists Rv', sv'.
      eapply dual_virtual_step; [exact H|exact L| |exact Hv1|by apply allocated_bytes]. intros x. apply own_bytes. }
  assert (Hd : dual_ready d start fin s1 Rf Af sf Rv Av sv).
  { eapply dual_virtual_step; [exact H|exact L| |exact Hv1|done]. intros x. apply own_bytes. }
  destruct (fixed_pool_alloc_ok (at_fixed_pool d) bytes s1 Rf Af sf (dl_fixed _ _ _ _ _ _ _ _ _ _ Hd) H0)
    as (r & e & s2 & Hrun2 & [Hdom Hsame] & Hcase); [unfold user_end in *; pose proof (units_bounds bytes H0); lia|].
  assert (Hsame' : forall x, x ∉ touched (fixed_pool.at_k_r_malloc (at_fixed_pool d)) ++ extents Rf ++ sf ->
    is_Some (words s1 !! x) -> words s2 !! x = words s1 !! x) by (intros x Hx Hs; apply Hsame; [done|by intros []|done]).
  exists r, e, s2. split; [done|].
  destruct Hcase as [(-> & -> & Hf2 & Hlen & Hsm2)|(Hr & -> & Rf' & sf' & Hf2 & Hext)].
  - left. split; [done|]. split; [done|]. split; [|split; [done|]].
    + eapply dual_fixed_step; [exact Hd|exact Hdom|exact Hsame'|intros x; apply own_bytes|exact Hf2|done|exact Hman].
    + intros c [Hc|Hc]%elem_of_app; auto.
  - right. right. split; [done|]. split; [done|]. exists Rf', sf'.
    eapply dual_fixed_step; [exact Hd|exact Hdom|exact Hsame'|intros x; apply own_bytes|exact Hf2|by apply allocated_bytes|].
    pose proof (units_bounds bytes H0) as [Hu _]. intros x Hm. split.
    + apply (manager_apart _ _ _ Rf Rf' Af sf sf' Hu Hext); [intros y Hy; by apply Hman|intros y Hy; by apply Hman|done].
    + intros Hx. assert (Hx' : x ∈ extents Rf ++ sf) by (rewrite <- Hext; apply elem_of_app; by right).
      destruct (Hman x Hm) as [Hn1 Hn2]. apply elem_of_app in Hx' as [Hx'|Hx']; [|done].
      apply Hn1. unfold held. rewrite !elem_of_app. tauto.
Qed.

(** C13: a block goes back to the heap it came from, whichever it is, and the other
    heap stays as it was.  (A block of one unit, which only an allocation of no
    bytes gives, has its address past its end.) *)
Theorem dual_pool_free_spec (alloc d start fin bytes : Z) (s : St) (b : cell) (Rf Af Rv Av : list cell) (sf sv : list Z) :
  1 < b.2 -> (forall x, manager_words x -> x ∉ extent b) ->
  (dual_ready d start fin s Rf (b :: Af) sf Rv Av sv ->
   exists s' Rf', _mspace_dual_pool_free alloc d (b.1 + 16) bytes s = Ok (tt, s') /\
     dual_ready d start fin s' Rf' Af sf Rv Av sv /\ extents Rf' ≡ₚ extents Rf ++ extent b) /\
  (dual_ready d start fin s Rf Af sf Rv (b :: Av) sv ->
   exists s' Rv', _mspace_dual_pool_free alloc d (b.1 + 16) bytes s = Ok (tt, s') /\
     dual_ready d start fin s' Rf Af sf Rv' Av sv /\ extents Rv' ≡ₚ extents Rv ++ extent b).
Proof.
  intros Hb Hbm. assert (Hext : b.1 + 16 ∈ extent b) by (apply in_extent; lia).
  split; intros H; pose proof H as [Hs He _ Hf Hv Hap _ Hman Hin Hout]; unfold _mspace_dual_pool_free;
    rewrite (bind_ok _ _ _ _ _ (load_word_ok _ _ _ Hs)), (bind_ok _ _ _ _ _ (load_word_ok _ _ _ He)).
  - assert (Hr : start <= b.1 + 16 < fin).
    { destruct Hf as (Hready & p & n & Hpool). pose proof (fx_spare _ _ _ _ _ Hpool) as Hsp.
      assert (Hno : b.1 + 16 ∉ sf) by (by eapply block_not_spare; [by eapply kr_ready_shape|left|]).
      rewrite Hsp, in_fixed_spare in Hno. destruct (Hin (b.1 + 16)) as [Hx|[Hx|Hx]]; [|tauto|tauto|done].
      apply elem_of_app. left. apply in_extents. exists b. split; [apply elem_of_app; right; left|done]. }
    rewrite (proj2 (Z.leb_le _ _)), (proj2 (Z.ltb_lt _ _)) by lia. cbn [andb].
    destruct Hf as [[Hinv|(_ & ? & _)] Hpool]; [|done]. destruct (fixed_pool_free_ok (at_fixed_pool d) bytes s b Rf Af sf Hinv Hpool)
      as (s' & R' & Hrun & _ & Hinv' & Hpool' & Hext' & [Hsame Hdom]).
    exists s', R'. split; [exact Hrun|]. split; [|done].
    eapply dual_fixed_step; [exact H|intros x; apply Hdom|intros x Hx _; exact (Hsame x Hx)| |split; [by left|done]|by apply freed_bytes|].
    + intros x. unfold heap_bytes. rewrite extents_app, extents_cons, !elem_of_app. intros [Hx%touched_zone|[Hx|Hx]]; tauto.
    + intros x Hm. destruct (Hman x Hm) as [Hn1 Hn2]. split; [|done]. specialize (Hbm x Hm). intros Hx. apply Hn1. unfold held in *.
      rewrite !elem_of_app in *. rewrite Hext', elem_of_app in Hx. unfold headers in *. rewrite bind_cons, elem_of_app. tauto.
  - assert (Hr : ~ (start <= b.1 + 16 < fin)).
    { apply Hout, elem_of_app. left. apply in_extents. exists b. split; [apply elem_of_app; right; left|done]. }
    assert (Hno : (start <=? b.1 + 16) && (b.1 + 16 <? fin) = false) by (apply andb_false_iff; rewrite Z.leb_gt, Z.ltb_ge; lia).
    rewrite Hno.
    destruct (virtual_pool_free_ok alloc (at_virtual_pool d) bytes s b Rv Av sv Hv Hbm) as (s' & R' & Hrun & Hv' & Hext' & Hch).
    exists s', R'. split; [exact Hrun|]. split; [|done]. destruct s' as [m' w'].
    eapply dual_virtual_step; [exact H|by eapply (changes_leaves _ _ s m' w')| |exact Hv'|by apply freed_bytes].
    intros x. unfold heap_bytes. rewrite extents_app, extents_cons, !elem_of_app. intros [Hx%touched_zone|[Hx|[Hx|Hx]]]; tauto.
Qed.
End dual.

(** ** A dual pool at 512

    Its fixed pool of 64 bytes at 4096 has handed out a block of two units; its
    virtual pool has a page at 8192.  The kernel maps every page. *)

#[export] Instance lucky_manager : AllocmanOps (heap unit) := {|
  allocman_mspace_alloc _ := ret (0, 1);
  allocman_mspace_free _ _ := ret tt;
  allocman_cspace_alloc := ret (0, Cspacepath 5 64 2 0 0 5 1);
  allocman_cspace_free _ := ret tt;
  allocman_utspace_alloc _ _ _ _ := ret (7, 0);
  allocman_utspace_free _ _ := ret tt
|}.

Definition page_words (vaddr : Z) : gmap Z Z := list_to_map ((fun i => (vaddr + 8 * i, 1)) <$> seqZ 0 512).

#[export] Instance lucky_kernel : MappingKernel (heap unit) := {|
  seL4_X86_Page_Map _ _ vaddr _ _ := fun s => Ok (0, Heap (words s ∪ page_words vaddr) (outer s));
  seL4_X86_PageTable_Map _ _ _ _ := ret 8;
  seL4_X86_PageDirectory_Map _ _ _ _ := ret 8;
  seL4_X86_PDPT_Map _ _ _ _ := ret 8;
  seL4_MappingFailedLookupLevel := ret 0
|}.

Lemma page_words_mapped (vaddr i : Z) : 0 <= i < 512 -> is_Some (page_words vaddr !! (vaddr + 8 * i)).
Proof.
  intros Hi. destruct (page_words vaddr !! (vaddr + 8 * i)) eqn:E; [by eexists|]. exfalso.
  apply not_elem_of_list_to_map_2 in E. apply E. rewrite <- list_fmap_compose. apply list_elem_of_fmap.
  exists i. split; [done|]. rewrite elem_of_seqZ. lia.
Qed.

#[export] Program Instance lucky_system : PoolSystem unit := {| manager_words _ := False; levels _ _ _ := ∅ |}.
Next Obligation. done. Qed.
Next Obligation. intros. set_solver. Qed.
Next Obligation. intros s. do 3 eexists. split; [reflexivity|]. split; [apply leaves_refl|done]. Qed.
Next Obligation. intros p s. eexists. split; [reflexivity|]. split; [apply leaves_refl|done]. Qed.
Next Obligation. intros a b p d s. do 3 eexists. split; [reflexivity|]. split; [apply leaves_refl|done]. Qed.
Next Obligation. intros c b s. eexists. split; [reflexivity|]. split; [apply leaves_refl|done]. Qed.
Next Obligation.
  intros cap root vaddr rights attr s. do 2 eexists. split; [reflexivity|]. cbn [words]. split.
  { intros x [v Hv]. rewrite Hv. by apply lookup_union_Some_l. }
  split; [done|]. split; [|done]. intros _ i Hi. apply lookup_union_is_Some. right. by apply page_words_mapped.
Qed.
Next Obligation.
  intros l obj cap root vaddr attr s Hobj. exists 8, s. split; [|split; [done|split; done]].
  unfold vspace_get_map_obj in Hobj. cbn in Hobj.
  destruct (l =? 21); [by injection Hobj as <-|]. destruct (l =? 30); [by injection Hobj as <-|].
  destruct (l =? 39); [by injection Hobj as <-|done].
Qed.

Lemma cyc_single (x : Z) : cyc_sorted [x].
Proof. exists [], [x]. split; [done|]. repeat constructor. Qed.

Definition demo_words : gmap Z Z := list_to_map
  [(512, 4096); (520, 4160); (528, 4128); (536, 32); (544, 544); (552, 0); (560, 544); (568, 528); (576, 0); (584, 1);
   (592, 8192); (600, 8192); (608, 12288); (616, 3); (624, 0); (632, 0); (640, 0); (648, 592); (656, 0); (664, 0);
   (4096, 0); (4104, 2); (4112, 0); (4120, 0); (4128, 0); (4136, 0); (4144, 0); (4152, 0)].
Definition demo : heap unit := Heap demo_words tt.

Lemma demo_fixed : fixed_ready 528 demo [(544, 0)] [(4096, 2)] (fixed_spare 528 4128 32).
Proof.
  split.
  - left. split.
    + split; try done; [left|apply cyc_single|intros c ->%list_elem_of_singleton; by left| | |].
      * intros c ->%list_elem_of_singleton. cbn. lia.
      * intros c. cbn [app]. rewrite elem_of_cons, list_elem_of_singleton.
        intros [->| ->]; (split; [done|]; split; [done|]; split; [done|]); cbn; intros i Hi; [lia|].
        assert (i = 0 \/ i = 1) as [->| ->] by lia; (split; by eexists).
      * apply (bool_decide_unpack _). by vm_compute.
    + exists 544. split; [done|]. cbn. split; [done|]. split; [done|]. by exists 544.
    + intros c d' ->%list_elem_of_singleton. cbn. lia.
    + intros c ->%list_elem_of_singleton. done.
    + done.
  - exists 4128, 32. split; try done; [lia|].
    intros i Hi Hi'. assert (i = 0 \/ i = 1) as [->| ->] by lia; (split; by eexists).
Qed.

Lemma demo_virtual : virtual_ready 592 demo [(624, 0)] [] (virtual_spare 592 8192 12288).
Proof.
  split; [|split; [|done]].
  - right. split; [done|]. split; [done|]. split; [|done].
    split; try done; [left|apply cyc_single|intros c ->%list_elem_of_singleton; by left| | |].
    + by intros c ?%not_elem_of_nil.
    + intros c ->%list_elem_of_singleton. split; [done|]. split; [done|]. split; [done|]. cbn. intros i Hi. lia.
    + change (NoDup (zone 624 ++ virtual_spare 592 8192 12288)). apply NoDup_app. split; [apply NoDup_seqZ|]. split.
      * intros x Hx%elem_of_seqZ Hx'%in_virtual_spare. lia.
      * unfold virtual_spare. apply NoDup_app. split; [apply (bool_decide_unpack _); by vm_compute|]. split; [|apply NoDup_seqZ].
        intros x Hx Hx'%elem_of_seqZ. unfold virtual_pool.at_pool_ptr, virtual_pool.at_pool_top, virtual_pool.at_pool_limit, virtual_pool.at_pd, virtual_pool.at_morecore_alloc in Hx. repeat (apply elem_of_cons in Hx as [->|Hx]; [lia|]). by apply not_elem_of_nil in Hx.
  - exists 8192, 8192, 12288, 3. split; try done; [lia|]. intros x H1 H2. lia.
Qed.

Lemma demo_ready : dual_ready 512 4096 4160 demo [(544, 0)] [(4096, 2)] (fixed_spare 528 4128 32) [(624, 0)] [] (virtual_spare 592 8192 12288).
Proof.
  assert (Hf : forall x, x ∈ heap_bytes 544 [(544, 0)] [(4096, 2)] (fixed_spare 528 4128 32) ->
    543 <= x < 584 \/ 4096 <= x < 4160 \/ x = 528 \/ x = 536).
  { intros x. unfold heap_bytes. change (extents ([(544, 0)] ++ [(4096, 2)])) with (extent (4096, 2)).
    rewrite !elem_of_app, in_zone, in_extent, in_fixed_spare. cbn [fst snd]. lia. }
  assert (Hv : forall x, x ∈ heap_bytes 624 [(624, 0)] [] (virtual_spare 592 8192 12288) ->
    623 <= x < 664 \/ 8192 <= x < 12288 \/ x = 592 \/ x = 600 \/ x = 608 \/ x = 616 \/ x = 664).
  { intros x. unfold heap_bytes. change (extents ([(624, 0)] ++ [])) with (@nil Z). cbn [app].
    rewrite !elem_of_app, in_zone, in_virtual_spare. lia. }
  split; try done.
  - by exists 1.
  - apply demo_fixed.
  - apply demo_virtual.
  - intros x Hx%Hf Hx'%Hv. lia.
  - intros x Hx. unfold at_fixed_pool_start, at_fixed_pool_end, at_have_virtual_pool in Hx.
    repeat (apply elem_of_cons in Hx as [->|Hx]; [split_and!; [intros ?%Hf; lia|intros ?%Hv; lia|by intros []]|]).
    by apply not_elem_of_nil in Hx.
  - intros x. change (extents ([(544, 0)] ++ [(4096, 2)])) with (extent (4096, 2)).
    rewrite elem_of_app, in_extent, in_fixed_spare. unfold at_fixed_pool. cbn [fst snd]. lia.
  - intros x. change (extents ([(624, 0)] ++ [])) with (@nil Z). cbn [app]. rewrite in_virtual_spare. lia.
Qed.

Lemma dual_pool_alloc_spec_witness :
  (exists r e s', _mspace_dual_pool_alloc 9 512 20 demo = Ok (r, e, s') /\
    ((r = 0 /\ e = 1 /\ dual_ready 512 4096 4160 s' [(544, 0)] [(4096, 2)] (fixed_spare 528 4128 32) [(624, 0)] [] (virtual_spare 592 8192 12288) /\
        Z.of_nat (length (fixed_spare 528 4128 32)) - 2 < 16 * units 20 /\ forall c, c ∈ [(544, 0)] ++ [(624, 0)] -> c.2 < units 20) \/
     (r <> 0 /\ e = 0 /\ exists Rv' sv', dual_ready 512 4096 4160 s' [(544, 0)] [(4096, 2)] (fixed_spare 528 4128 32) Rv' [(r - 16, units 20)] sv') \/
     (r <> 0 /\ e = 0 /\ exists Rf' sf', dual_ready 512 4096 4160 s' Rf' [(r - 16, units 20); (4096, 2)] sf' [(624, 0)] [] (virtual_spare 592 8192 12288)))) /\
  match _mspace_dual_pool_alloc 9 512 20 demo with Ok (r, e, _) => r = 8208 /\ e = 0 | Fault _ => False end.
Proof.
  split; [|by vm_compute].
  apply (dual_pool_alloc_spec 9 512 4096 4160 20 demo _ _ _ _ _ _ demo_ready); [done|lia|by vm_compute].
Defined.

Lemma dual_pool_free_spec_witness :
  exists s' Rf', _mspace_dual_pool_free 9 512 4112 16 demo = Ok (tt, s') /\
     dual_ready 512 4096 4160 s' Rf' [] (fixed_spare 528 4128 32) [(624, 0)] [] (virtual_spare 592 8192 12288) /\
     extents Rf' ≡ₚ extents [(544, 0)] ++ extent (4096, 2).
Proof. apply (dual_pool_free_spec 9 512 4096 4160 16 demo (4096, 2) _ [] _ [] _ _); [cbn; lia|by intros x []|apply demo_ready]. Defined.

(** The test of the limit of a virtual pool wraps around: a request near the size
    of the address space is granted, and the pool goes back below where it began. *)
Example virtual_pool_goes_back :
  match virtual_pool_morecore 592 624 ((word_size - 4096) / 16) demo with
  | Ok (r, s) => r = 8192 /\ words s !! virtual_pool.at_pool_ptr 592 = Some 4096
  | Fault _ => False
  end.
Proof.
  unfold virtual_pool_morecore. cbv zeta.
  generalize (Z.to_nat (((word_size - 4096) / 16) ⊠ sizeof_k_r_malloc_header_t / PAGE_SIZE_4K + 1)). intros [|n]; by vm_compute.
Qed.

(** An allocation of no bytes at the end of the fixed pool is freed into the
    virtual heap: its address is the end of the pool's range. *)
Example empty_block_changes_heap :
  match _mspace_fixed_pool_alloc 528 0 (Heap (<[536 := 16]> (<[528 := 4144]> demo_words)) tt) with
  | Ok (r, _, s) => r = 4160 /\
      match _mspace_dual_pool_free 9 512 r 0 s with
      | Ok (_, s') => words s' !! at_freep (virtual_pool.at_k_r_malloc 592) <> words s !! at_freep (virtual_pool.at_k_r_malloc 592)
      | Fault f => f = NullPointer
      end
  | Fault _ => False
  end.
Proof. by vm_compute. Qed.
