(* ===== verification/Irq.v ===== *)
(** libsel4platsupport/src/irq.c: the interrupt interface.  Drivers register
    interrupts; the application provides notification objects and pairs
    interrupts with the bits of their badges; callbacks are run for the bits that
    arrive.

    The structure behind the [cookie] pointer is a record, its two tables lists
    of entries; a path of zeros is one that was cleared.  The kernel's calls, the
    [vka_t], [sel4platsupport_copy_irq_cap], the allocation of memory and the
    callbacks are parameters; pointers that callers pass are not null. *)
From S2P Require Import Prelude Cspacepath Interfaces Objects Vka.

Definition UNPAIRED_ID : Z := -1.
Definition UNALLOCATED_BADGE_INDEX : Z := -1.
Definition MINI_IRQ_INTERFACE_NTFN_ID : Z := 0.

(** What libutils and libsel4 provide: the byte swap and the number of bits of a
    word, rounding up, the null capability, all rights, the bits of a badge; the
    sizes of the structures (a field is of another library); and the error
    codes of libc, positive. *)
Class IrqConstants : Type := {
  BSWAP_WORD : Z -> Z;
  POPCOUNTL : Z -> Z;
  irq_ALIGN_UP : Z -> Z -> Z;
  sizeof_irq_cookie_t : Z;
  sizeof_irq_entry_t : Z;
  sizeof_ntfn_entry_t : Z;
  seL4_CapNull : Z;
  irq_AllRights : Z;
  MAX_INTERRUPTS_TO_NOTIFICATIONS : Z;
  irq_EINVAL : Z;
  ENOSPC : Z;
  ENOMEM : Z;
  EFAULT : Z;
  EMFILE : Z;
  EPERM : Z;
  EADDRINUSE : Z
}.

(** The calls on interrupt handlers and notifications, minting of a capability,
    and allocation of cleared memory: an error and a pointer. *)
Class IrqKernel (W : Type) : Type := {
  seL4_CNode_Mint : Z -> Z -> Z -> Z -> Z -> Z -> Z -> Z -> M W Z;
  seL4_IRQHandler_SetNotification : Z -> Z -> M W Z;
  seL4_IRQHandler_Ack : Z -> M W Z;
  seL4_IRQHandler_Clear : Z -> M W Z;
  seL4_Wait : Z -> M W Z;
  seL4_Poll : Z -> M W Z;
  ps_calloc : Z -> M W (Z * Z);
  ps_free : Z -> Z -> M W unit
}.

Inductive irq_iface_type_t : Type := STANDARD_IFACE | MINI_IFACE.

#[export] Instance irq_iface_type_eq_dec : EqDecision irq_iface_type_t.
Proof. solve_decision. Defined.

(** A function pointer is a number, null is 0. *)
Record irq_entry_t : Type := IrqEntry {
  irq_allocated : bool;
  irq : Z;
  handler_path : cspacepath_t;
  irq_callback_fn : Z;
  callback_data : Z;
  ntfn_path : cspacepath_t;
  paired_ntfn : Z;
  allocated_badge_index : Z
}.

Record ntfn_entry_t : Type := NtfnEntry {
  ntfn_allocated : bool;
  root_ntfn_path : cspacepath_t;
  num_irqs_bound : Z;
  usable_mask : Z;
  status_bitfield : Z;
  pending_bitfield : Z;
  bound_irqs : list Z
}.

Record irq_cookie_t : Type := IrqCookie {
  iface_type : irq_iface_type_t;
  num_registered_irqs : Z;
  num_allocated_ntfns : Z;
  max_irq_ids : Z;
  max_ntfn_ids : Z;
  num_irq_bitfields : Z;
  num_ntfn_bitfields : Z;
  allocated_irq_bitfields : list Z;
  allocated_ntfn_bitfields : list Z;
  irq_table : list irq_entry_t;
  ntfn_table : list ntfn_entry_t
}.

Record irq_interface_config_t : Type := IrqConfig { config_max_irq_ids : Z; config_max_ntfn_ids : Z }.

Definition no_path : cspacepath_t := Cspacepath 0 0 0 0 0 0 0.
Definition no_irq : irq_entry_t := IrqEntry false 0 no_path 0 0 no_path UNPAIRED_ID UNALLOCATED_BADGE_INDEX.

(** ** Numbers of entries *)

Definition check_irq_id_is_valid (c : irq_cookie_t) (id : Z) : bool := negb ((id <? 0) || (max_irq_ids c <=? id)).
Definition check_ntfn_id_is_valid (c : irq_cookie_t) (id : Z) : bool := negb ((id <? 0) || (max_ntfn_ids c <=? id)).
Definition check_irq_id_all_allocated (c : irq_cookie_t) : bool := max_irq_ids c <=? num_registered_irqs c.
Definition check_ntfn_id_all_allocated (c : irq_cookie_t) : bool := max_ntfn_ids c <=? num_allocated_ntfns c.

Definition check_ntfn_id_is_allocated (c : irq_cookie_t) (id : Z) : res bool :=
  let? e := arr_get (ntfn_table c) id in Ok (ntfn_allocated e).
Definition check_irq_id_is_allocated (c : irq_cookie_t) (id : Z) : res bool :=
  let? e := arr_get (irq_table c) id in Ok (irq_allocated e).

Definition fill_bit_in_bitfield (bitfield_array : list Z) (index : Z) : res (list Z) :=
  let bitfield_index := index mod 64 in
  let array_index := index / 64 in
  let? w := arr_get bitfield_array array_index in
  arr_set bitfield_array array_index (Z.lor w (BIT bitfield_index)).

Definition unfill_bit_in_bitfield (bitfield_array : list Z) (index : Z) : res (list Z) :=
  let bitfield_index := index mod 64 in
  let array_index := index / 64 in
  let? w := arr_get bitfield_array array_index in
  arr_set bitfield_array array_index (Z.land w (wnot (BIT bitfield_index))).

Section ids.
Context {IC : IrqConstants}.

(** The search of a free number among [num] words; those that can not be used are
    hidden in word [masked]. *)
Fixpoint find_free_loop (n : nat) (bitfields : list Z) (i num masked max_ids : Z) : res Z :=
  match n with
  | O => Ok (-1)
  | S n =>
      let? w := arr_get bitfields i in
      let unallocated_bitfield := wnot w in
      let unallocated_bitfield :=
        if i =? masked then
          let num_leftover_bits := (num ⊠ 8) ⊟ max_ids in
          let mask := MASK num_leftover_bits in
          let mask := BSWAP_WORD mask in
          Z.land unallocated_bitfield mask
        else unallocated_bitfield in
      if negb (unallocated_bitfield =? 0) then Ok (CTZL unallocated_bitfield + i * 64)
      else find_free_loop n bitfields (i + 1) num masked max_ids
  end.

Definition find_free_irq_id (c : irq_cookie_t) : res Z :=
  find_free_loop (Z.to_nat (num_irq_bitfields c)) (allocated_irq_bitfields c) 0
    (num_irq_bitfields c) (num_irq_bitfields c - 1) (max_irq_ids c).

Definition find_free_ntfn_id (c : irq_cookie_t) : res Z :=
  find_free_loop (Z.to_nat (num_ntfn_bitfields c)) (allocated_ntfn_bitfields c) 0
    (num_ntfn_bitfields c) (num_irq_bitfields c - 1) (max_ntfn_ids c).

Definition find_free_ntfn_badge_index (e : ntfn_entry_t) : Z :=
  let unallocated_bitfield := wnot (status_bitfield e) in
  let unallocated_bitfield := Z.land unallocated_bitfield (usable_mask e) in
  if unallocated_bitfield =? 0 then -1 else CTZL unallocated_bitfield.
End ids.

(** ** The operations

    The state is the structure and the rest of the system; [acks] are the blocks
    for the acknowledgement of an interrupt, by their addresses. *)
Record irq_state (W : Type) : Type := IrqState { cookie : irq_cookie_t; acks : gmap Z Z; world : W }.
Arguments IrqState {W} _ _ _.
Arguments cookie {W} _.
Arguments acks {W} _.
Arguments world {W} _.

Section irq.
Context {W : Type} `{IC : !IrqConstants} `{IK : !IrqKernel W} `{KO : !KernelOps W} (vka : option (vka_t W)).
(* the copy of the capability of an interrupt, to a path; the callback, its data, the address of the block *)
Context (sel4platsupport_copy_irq_cap : Z -> cspacepath_t -> M W Z)
  (run_callback : Z -> Z -> Z -> M (irq_state W) unit).
#[local] Notation St := (irq_state W).

Definition outside {A : Type} (m : M W A) : M St A :=
  fun s => res_bind (m (world s)) (fun '(a, w) => Ok (a, IrqState (cookie s) (acks s) w)).
Definition irq_cookie : M St irq_cookie_t := gets cookie.
Definition put_cookie (c : irq_cookie_t) : M St unit := modify (fun s => IrqState c (acks s) (world s)).

Definition load_irq (id : Z) : M St irq_entry_t := let! c := irq_cookie in lift (arr_get (irq_table c) id).
Definition store_irq (id : Z) (e : irq_entry_t) : M St unit :=
  let! c := irq_cookie in
  let! t := lift (arr_set (irq_table c) id e) in
  put_cookie (IrqCookie (iface_type c) (num_registered_irqs c) (num_allocated_ntfns c) (max_irq_ids c) (max_ntfn_ids c)
    (num_irq_bitfields c) (num_ntfn_bitfields c) (allocated_irq_bitfields c) (allocated_ntfn_bitfields c) t (ntfn_table c)).
Definition load_ntfn (id : Z) : M St ntfn_entry_t := let! c := irq_cookie in lift (arr_get (ntfn_table c) id).
Definition store_ntfn (id : Z) (e : ntfn_entry_t) : M St unit :=
  let! c := irq_cookie in
  let! t := lift (arr_set (ntfn_table c) id e) in
  put_cookie (IrqCookie (iface_type c) (num_registered_irqs c) (num_allocated_ntfns c) (max_irq_ids c) (max_ntfn_ids c)
    (num_irq_bitfields c) (num_ntfn_bitfields c) (allocated_irq_bitfields c) (allocated_ntfn_bitfields c) (irq_table c) t).

(** The number of registered interrupts, and the bitfields that say which they are. *)
Definition set_registered (n : Z) (bitfields : list Z) : M St unit :=
  let! c := irq_cookie in
  put_cookie (IrqCookie (iface_type c) n (num_allocated_ntfns c) (max_irq_ids c) (max_ntfn_ids c)
    (num_irq_bitfields c) (num_ntfn_bitfields c) bitfields (allocated_ntfn_bitfields c) (irq_table c) (ntfn_table c)).
Definition set_provided (n : Z) (bitfields : list Z) : M St unit :=
  let! c := irq_cookie in
  put_cookie (IrqCookie (iface_type c) (num_registered_irqs c) n (max_irq_ids c) (max_ntfn_ids c)
    (num_irq_bitfields c) (num_ntfn_bitfields c) (allocated_irq_bitfields c) bitfields (irq_table c) (ntfn_table c)).

(** The fields of an interrupt that pairing it changes. *)
Definition with_pair (path : cspacepath_t) (ntfn index : Z) (e : irq_entry_t) : irq_entry_t :=
  IrqEntry (irq_allocated e) (irq e) (handler_path e) (irq_callback_fn e) (callback_data e) path ntfn index.
Definition with_pending (p : Z) (e : ntfn_entry_t) : ntfn_entry_t :=
  NtfnEntry (ntfn_allocated e) (root_ntfn_path e) (num_irqs_bound e) (usable_mask e) (status_bitfield e) p (bound_irqs e).

Definition vka_cnode_mint (dest src : cspacepath_t) (rights badge : Z) : M W Z :=
  seL4_CNode_Mint (root dest) (capPtr dest) (capDepth dest) (root src) (capPtr src) (capDepth src) rights badge.

(** [ZF_LOGF_IF]: the program stops on an error. *)
Definition fatal_if (error : Z) : M St unit := if negb (error =? 0) then stop Fatal else ret tt.

(** The error, and the badge. *)
Definition irq_set_ntfn_common (ntfn_id irq_id : Z) : M St (Z * Z) :=
  let! irq_entry := load_irq irq_id in
  if UNPAIRED_ID <? paired_ntfn irq_entry then ret (- irq_EINVAL, 0) else
  let! ntfn_entry := load_ntfn ntfn_id in
  if MAX_INTERRUPTS_TO_NOTIFICATIONS <=? num_irqs_bound ntfn_entry then ret (- ENOSPC, 0) else
  let badge_index := find_free_ntfn_badge_index ntfn_entry in
  if badge_index =? -1 then ret (- ENOSPC, 0) else
  let! (error, path) := outside (vka_cspace_alloc_path vka) in
  let mint_path := default no_path path in
  if negb (error =? 0) then ret (- ENOMEM, 0) else
  let badge := BIT badge_index in
  let! error := outside (vka_cnode_mint mint_path (root_ntfn_path ntfn_entry) irq_AllRights badge) in
  if negb (error =? 0) then
    let! _ := outside (vka_cspace_free_path vka mint_path) in ret (- ENOMEM, 0)
  else
  let! error := outside (seL4_IRQHandler_SetNotification (capPtr (handler_path irq_entry)) (capPtr mint_path)) in
  if negb (error =? 0) then
    let! error := outside (vka_cnode_delete mint_path) in
    let! _ := fatal_if error in
    let! _ := outside (vka_cspace_free_path vka mint_path) in ret (- EFAULT, 0)
  else
  let! error := outside (seL4_IRQHandler_Ack (capPtr (handler_path irq_entry))) in
  if negb (error =? 0) then
    let! error := outside (seL4_IRQHandler_Clear (capPtr (handler_path irq_entry))) in
    let! _ := fatal_if error in
    let! error := outside (vka_cnode_delete mint_path) in
    let! _ := fatal_if error in
    let! _ := outside (vka_cspace_free_path vka mint_path) in ret (- EFAULT, 0)
  else
  let! bound := lift (arr_set (bound_irqs ntfn_entry) badge_index irq_id) in
  let! _ := store_ntfn ntfn_id (NtfnEntry (ntfn_allocated ntfn_entry) (root_ntfn_path ntfn_entry) (num_irqs_bound ntfn_entry ⊞ 1)
    (usable_mask ntfn_entry) (Z.lor (status_bitfield ntfn_entry) badge) (pending_bitfield ntfn_entry) bound) in
  let! _ := store_irq irq_id (with_pair mint_path ntfn_id badge_index irq_entry) in
  ret (0, badge).

(** The error of the allocation of a slot is not looked at; the path stays clear. *)
Definition irq_register_common (irq callback callback_data : Z) : M St Z :=
  let! c := irq_cookie in
  if check_irq_id_all_allocated c then ret (- EMFILE) else
  if callback =? 0 then ret (- irq_EINVAL) else
  let! free_id := lift (find_free_irq_id c) in
  if free_id =? -1 then ret (- EMFILE) else
  let! (_, path) := outside (vka_cspace_alloc_path vka) in
  let irq_handler_path := default no_path path in
  let! err := outside (sel4platsupport_copy_irq_cap irq irq_handler_path) in
  if negb (err =? 0) then
    let! _ := outside (vka_cspace_free_path vka irq_handler_path) in ret (- EFAULT)
  else
  let! e := load_irq free_id in
  let! _ := store_irq free_id (IrqEntry true irq irq_handler_path callback callback_data (ntfn_path e) (paired_ntfn e) (allocated_badge_index e)) in
  let! c := irq_cookie in
  let! bits := lift (fill_bit_in_bitfield (allocated_irq_bitfields c) free_id) in
  let! _ := set_registered (num_registered_irqs c ⊞ 1) bits in
  ret free_id.

(** The entry is cleared whole, the array of its interrupts too: their numbers are 0. *)
Definition provide_ntfn_common (ntfn usable_mask allocated_id : Z) : M St unit :=
  let! path := outside (vka_cspace_make_path vka ntfn) in
  let! _ := store_ntfn allocated_id (NtfnEntry true path 0 usable_mask 0 0
    (replicate (Z.to_nat MAX_INTERRUPTS_TO_NOTIFICATIONS) 0)) in
  let! c := irq_cookie in
  let! bits := lift (fill_bit_in_bitfield (allocated_ntfn_bitfields c) allocated_id) in
  set_provided (num_allocated_ntfns c ⊞ 1) bits.

(** What unpairing does to the entry of the notification. *)
Definition without_irq (index : Z) (e : ntfn_entry_t) : res ntfn_entry_t :=
  let? bound := arr_set (bound_irqs e) index UNPAIRED_ID in
  Ok (NtfnEntry (ntfn_allocated e) (root_ntfn_path e) (num_irqs_bound e ⊟ 1) (usable_mask e)
    (Z.land (status_bitfield e) (wnot (BIT index))) (Z.land (pending_bitfield e) (wnot (BIT index))) bound).

Definition sel4platsupport_irq_unregister (irq_id : Z) : M St Z :=
  let! c := irq_cookie in
  if negb (check_irq_id_is_valid c irq_id) then ret (- irq_EINVAL) else
  let! allocated := lift (check_irq_id_is_allocated c irq_id) in
  if negb allocated then ret (- irq_EINVAL) else
  let! irq_entry := load_irq irq_id in
  let! error := (if UNPAIRED_ID <? paired_ntfn irq_entry then
      let! error := outside (seL4_IRQHandler_Clear (capPtr (handler_path irq_entry))) in
      if negb (error =? 0) then ret (- EFAULT) else
      let! _ := outside (vka_cnode_delete (ntfn_path irq_entry)) in
      let! _ := outside (vka_cspace_free_path vka (ntfn_path irq_entry)) in
      let! ntfn_entry := load_ntfn (paired_ntfn irq_entry) in
      let! e := lift (without_irq (allocated_badge_index irq_entry) ntfn_entry) in
      let! _ := store_ntfn (paired_ntfn irq_entry) e in ret 0
    else ret 0) in
  if negb (error =? 0) then ret error else
  let! _ := outside (vka_cnode_delete (handler_path irq_entry)) in
  let! _ := outside (vka_cspace_free_path vka (handler_path irq_entry)) in
  let! _ := store_irq irq_id no_irq in
  let! c := irq_cookie in
  let! bits := lift (unfill_bit_in_bitfield (allocated_irq_bitfields c) irq_id) in
  let! _ := set_registered (num_registered_irqs c ⊟ 1) bits in
  ret 0.

Definition sel4platsupport_irq_register (irq callback callback_data : Z) : M St Z :=
  irq_register_common irq callback callback_data.

Definition sel4platsupport_irq_register_mini (irq callback callback_data : Z) : M St Z :=
  let! assigned_id := irq_register_common irq callback callback_data in
  if assigned_id <? 0 then ret assigned_id else
  let! (error, _) := irq_set_ntfn_common MINI_IRQ_INTERFACE_NTFN_ID assigned_id in
  if negb (error =? 0) then
    let! e := sel4platsupport_irq_unregister assigned_id in
    let! _ := fatal_if e in ret error
  else ret assigned_id.

Definition sizeof_ack_data_t : Z := 16.

(** [ack_data] is the address of a block; it is freed whatever happens. *)
Definition sel4platsupport_irq_acknowledge (ack_data : Z) : M St Z :=
  if ack_data =? 0 then ret (- irq_EINVAL) else
  let! s := gets id in
  let! irq_id := lift (match acks s !! ack_data with Some id => Ok id | None => Fault NullPointer end) in
  let c := cookie s in
  let! r := (if negb (check_irq_id_is_valid c irq_id) then ret (- irq_EINVAL) else
    let! allocated := lift (check_irq_id_is_allocated c irq_id) in
    if negb allocated then ret (- irq_EINVAL) else
    let! irq_entry := load_irq irq_id in
    let! error := outside (seL4_IRQHandler_Ack (capPtr (handler_path irq_entry))) in
    ret (if negb (error =? 0) then - EFAULT else 0)) in
  let! _ := outside (ps_free sizeof_ack_data_t ack_data) in
  let! _ := modify (fun s => IrqState (cookie s) (delete ack_data (acks s)) (world s)) in
  ret r.

(** ** Setting up *)

(** Blocks that were allocated go back, in order. *)
Fixpoint release (blocks : list (Z * Z)) : M W unit :=
  match blocks with
  | [] => ret tt
  | (size, p) :: blocks => let! _ := (if negb (p =? 0) then ps_free size p else ret tt) in release blocks
  end.

Definition no_ntfn : ntfn_entry_t :=
  NtfnEntry false no_path 0 0 0 0 (replicate (Z.to_nat MAX_INTERRUPTS_TO_NOTIFICATIONS) UNPAIRED_ID).

(** The structure, or null.  A pointer whose allocation failed stays null. *)
Definition new_irq_ops_common (irq_config : irq_interface_config_t) (iface_type : irq_iface_type_t) : M W (option irq_cookie_t) :=
  let max_irq_ids := config_max_irq_ids irq_config in
  let max_ntfn_ids := config_max_ntfn_ids irq_config in
  let num_irq_bitfields := irq_ALIGN_UP max_irq_ids 64 / 8 in
  let num_ntfn_bitfields := irq_ALIGN_UP max_ntfn_ids 64 / 8 in
  let! (err, cookie) := ps_calloc sizeof_irq_cookie_t in
  if negb (err =? 0) then ret None else
  let b0 := (sizeof_irq_cookie_t, cookie) in
  let! (err, irq_table) := ps_calloc (sizeof_irq_entry_t ⊠ max_irq_ids) in
  if negb (err =? 0) then let! _ := release [b0] in ret None else
  let b1 := (sizeof_irq_entry_t ⊠ max_irq_ids, irq_table) in
  let! (err, ntfn_table) := ps_calloc (sizeof_ntfn_entry_t ⊠ max_ntfn_ids) in
  if negb (err =? 0) then let! _ := release [b1; b0] in ret None else
  let b2 := (sizeof_ntfn_entry_t ⊠ max_ntfn_ids, ntfn_table) in
  let! (err, irq_bitfields) := ps_calloc (num_irq_bitfields ⊠ 8) in
  if negb (err =? 0) then let! _ := release [b1; b2; b0] in ret None else
  let b3 := (8 ⊠ num_irq_bitfields, irq_bitfields) in
  let! (err, ntfn_bitfields) := ps_calloc (num_ntfn_bitfields ⊠ 8) in
  if negb (err =? 0) then let! _ := release [b1; b2; b3; b0] in ret None else
  ret (Some (IrqCookie iface_type 0 0 max_irq_ids max_ntfn_ids num_irq_bitfields num_ntfn_bitfields
    (replicate (Z.to_nat num_irq_bitfields) 0) (replicate (Z.to_nat num_ntfn_bitfields) 0)
    (replicate (Z.to_nat max_irq_ids) no_irq) (replicate (Z.to_nat max_ntfn_ids) no_ntfn))).

Definition sel4platsupport_new_irq_ops (irq_config : irq_interface_config_t) : M W (Z * option irq_cookie_t) :=
  if (config_max_irq_ids irq_config =? 0) || (config_max_ntfn_ids irq_config =? 0) then ret (- irq_EINVAL, None) else
  let! cookie := new_irq_ops_common irq_config STANDARD_IFACE in
  match cookie with
  | None => ret (- ENOMEM, None)
  | Some c => ret (0, Some c)
  end.

Definition sel4platsupport_new_mini_irq_ops (ntfn usable_mask : Z) : M W (Z * option irq_cookie_t) :=
  if usable_mask =? 0 then ret (- irq_EINVAL, None) else
  if ntfn =? seL4_CapNull then ret (- irq_EINVAL, None) else
  let bits_in_mask := POPCOUNTL usable_mask in
  let! cookie_ := new_irq_ops_common (IrqConfig bits_in_mask 1) MINI_IFACE in
  match cookie_ with
  | None => ret (- ENOMEM, None)
  | Some c => fun w =>
      res_bind (provide_ntfn_common ntfn usable_mask MINI_IRQ_INTERFACE_NTFN_ID (IrqState c ∅ w))
        (fun '(_, s) => Ok (0, Some (cookie s), world s))
  end.

(** ** Notifications *)

Definition is_mini (c : irq_cookie_t) : bool := bool_decide (iface_type c = MINI_IFACE).

Definition sel4platsupport_irq_provide_ntfn (ntfn usable_mask : Z) : M St Z :=
  if (ntfn =? seL4_CapNull) || (usable_mask =? 0) then ret (- irq_EINVAL) else
  let! c := irq_cookie in
  if is_mini c then ret (- EPERM) else
  if check_ntfn_id_all_allocated c then ret (- EMFILE) else
  let! free_id := lift (find_free_ntfn_id c) in
  if free_id =? -1 then ret (- EMFILE) else
  let! _ := provide_ntfn_common ntfn usable_mask free_id in
  ret free_id.

Definition sel4platsupport_irq_provide_ntfn_with_id (ntfn usable_mask id_hint : Z) : M St Z :=
  if (ntfn =? seL4_CapNull) || (usable_mask =? 0) then ret (- irq_EINVAL) else
  let! c := irq_cookie in
  if is_mini c then ret (- EPERM) else
  if check_ntfn_id_all_allocated c then ret (- EMFILE) else
  let! e := load_ntfn id_hint in
  if ntfn_allocated e then ret (- EADDRINUSE) else
  let! _ := provide_ntfn_common ntfn usable_mask id_hint in
  ret 0.

(** The loop of [sel4platsupport_irq_return_ntfn]: one round for each bit. *)
Fixpoint unbind_loop (fuel : nat) (ntfn_id allocated_bits : Z) : M St unit :=
  if allocated_bits =? 0 then ret tt else
  match fuel with
  | O => stop OutOfFuel
  | S fuel =>
      let index := CTZL allocated_bits in
      let! ntfn_entry := load_ntfn ntfn_id in
      let! id := lift (arr_get (bound_irqs ntfn_entry) index) in
      let! irq_entry := load_irq id in
      let! _ := outside (seL4_IRQHandler_Clear (capPtr (handler_path irq_entry))) in
      let! error := outside (vka_cnode_delete (ntfn_path irq_entry)) in
      let! _ := fatal_if error in
      let! _ := store_irq id (with_pair no_path UNPAIRED_ID UNALLOCATED_BADGE_INDEX irq_entry) in
      unbind_loop fuel ntfn_id (Z.land allocated_bits (wnot (BIT index)))
  end.

(** The error, and the notification. *)
Definition sel4platsupport_irq_return_ntfn (ntfn_id : Z) : M St (Z * Z) :=
  let! c := irq_cookie in
  if is_mini c then ret (- EPERM, 0) else
  if negb (check_ntfn_id_is_valid c ntfn_id) then ret (- irq_EINVAL, 0) else
  let! allocated := lift (check_ntfn_id_is_allocated c ntfn_id) in
  if negb allocated then ret (- irq_EINVAL, 0) else
  let! ntfn_entry := load_ntfn ntfn_id in
  let! _ := (if 0 <? num_irqs_bound ntfn_entry then unbind_loop 64 ntfn_id (status_bitfield ntfn_entry) else ret tt) in
  let! _ := store_ntfn ntfn_id no_ntfn in
  let! c := irq_cookie in
  let! bits := lift (unfill_bit_in_bitfield (allocated_ntfn_bitfields c) ntfn_id) in
  let! _ := set_provided (num_allocated_ntfns c ⊟ 1) bits in
  ret (0, capPtr (root_ntfn_path ntfn_entry)).

(** A number that is out of range, or of an entry that is not in use. *)
Definition bad_ntfn_id (c : irq_cookie_t) (id : Z) : res bool :=
  if negb (check_ntfn_id_is_valid c id) then Ok true else
  let? a := check_ntfn_id_is_allocated c id in Ok (negb a).
Definition bad_irq_id (c : irq_cookie_t) (id : Z) : res bool :=
  if negb (check_irq_id_is_valid c id) then Ok true else
  let? a := check_irq_id_is_allocated c id in Ok (negb a).

Definition sel4platsupport_irq_set_ntfn (ntfn_id irq_id : Z) : M St (Z * Z) :=
  let! c := irq_cookie in
  if is_mini c then ret (- EPERM, 0) else
  let! bad := lift (bad_ntfn_id c ntfn_id) in
  if bad then ret (- irq_EINVAL, 0) else
  let! bad := lift (bad_irq_id c irq_id) in
  if bad then ret (- irq_EINVAL, 0) else
  irq_set_ntfn_common ntfn_id irq_id.

Definition sel4platsupport_irq_unset_ntfn (irq_id : Z) : M St Z :=
  let! c := irq_cookie in
  if is_mini c then ret (- EPERM) else
  let! bad := lift (bad_irq_id c irq_id) in
  if bad then ret (- irq_EINVAL) else
  let! irq_entry := load_irq irq_id in
  if paired_ntfn irq_entry =? UNPAIRED_ID then ret (- irq_EINVAL) else
  let! error := outside (seL4_IRQHandler_Clear (capPtr (handler_path irq_entry))) in
  if negb (error =? 0) then ret (- EFAULT) else
  let! _ := outside (vka_cnode_delete (ntfn_path irq_entry)) in
  let! _ := outside (vka_cspace_free_path vka (ntfn_path irq_entry)) in
  let paired_id := paired_ntfn irq_entry in
  let! ntfn_entry := load_ntfn paired_id in
  let! e := lift (without_irq (allocated_badge_index irq_entry) ntfn_entry) in
  let! _ := store_ntfn paired_id e in
  let! _ := store_irq irq_id (with_pair no_path UNPAIRED_ID UNALLOCATED_BADGE_INDEX irq_entry) in
  ret 0.

(** ** Running the callbacks *)

Definition perform_callback (irq_id : Z) : M St bool :=
  let! irq_entry := load_irq irq_id in
  let callback := irq_callback_fn irq_entry in
  if negb (callback =? 0) then
    let! (error, ack_data) := outside (ps_calloc sizeof_ack_data_t) in
    let! _ := fatal_if error in
    let! _ := modify (fun s => IrqState (cookie s) (<[ack_data := irq_id]> (acks s)) (world s)) in
    let! _ := run_callback callback (callback_data irq_entry) ack_data in
    ret true
  else ret false.

Fixpoint handle_loop (fuel : nat) (ntfn_id unchecked_bits : Z) : M St unit :=
  if unchecked_bits =? 0 then ret tt else
  match fuel with
  | O => stop OutOfFuel
  | S fuel =>
      let bit_index := CTZL unchecked_bits in
      let! ntfn_entry := load_ntfn ntfn_id in
      let! paired_irq_id := lift (arr_get (bound_irqs ntfn_entry) bit_index) in
      let! callback_called := perform_callback paired_irq_id in
      let! ntfn_entry := load_ntfn ntfn_id in
      let! _ := (if callback_called && negb (Z.land (pending_bitfield ntfn_entry) (BIT bit_index) =? 0)
        then store_ntfn ntfn_id (with_pending (Z.land (pending_bitfield ntfn_entry) (wnot (BIT bit_index))) ntfn_entry)
        else ret tt) in
      handle_loop fuel ntfn_id (Z.land unchecked_bits (wnot (BIT bit_index)))
  end.

Definition sel4platsupport_irq_handle (ntfn_id handle_mask : Z) : M St Z :=
  let! c := irq_cookie in
  let! bad := lift (bad_ntfn_id c ntfn_id) in
  if bad then ret (- irq_EINVAL) else
  let! ntfn_entry := load_ntfn ntfn_id in
  let! _ := handle_loop 64 ntfn_id (Z.land handle_mask (usable_mask ntfn_entry)) in
  ret 0.

(** The loop of [serve_irq]: the bits that were served. *)
Fixpoint serve_loop (fuel : nat) (id mask unchecked_bits served_mask : Z) : M St Z :=
  if unchecked_bits =? 0 then ret served_mask else
  match fuel with
  | O => stop OutOfFuel
  | S fuel =>
      let bit_index := CTZL unchecked_bits in
      let! served_mask := (if negb (Z.land (BIT bit_index) mask =? 0) then
          let! ntfn_entry := load_ntfn id in
          let! paired_irq_id := lift (arr_get (bound_irqs ntfn_entry) bit_index) in
          let! called := perform_callback paired_irq_id in
          ret (if called then Z.lor served_mask (BIT bit_index) else served_mask)
        else ret served_mask) in
      serve_loop fuel id mask (Z.land unchecked_bits (wnot (BIT bit_index))) served_mask
  end.

(** The bits that are left over. *)
Definition serve_irq (id mask badge : Z) : M St Z :=
  let! ntfn_entry := load_ntfn id in
  let unchecked_bits := Z.lor (Z.land badge (usable_mask ntfn_entry)) (pending_bitfield ntfn_entry) in
  let! served_mask := serve_loop 64 id mask unchecked_bits 0 in
  let! ntfn_entry := load_ntfn id in
  let! _ := store_ntfn id (with_pending (Z.lxor (pending_bitfield ntfn_entry)
    (Z.land (Z.land badge (usable_mask ntfn_entry)) (wnot served_mask))) ntfn_entry) in
  ret (Z.land badge (wnot served_mask)).

(** The error, and the bits left over. *)
Definition irq_receive (receive : Z -> M W Z) (ntfn_id mask : Z) : M St (Z * Z) :=
  let! c := irq_cookie in
  if negb (check_ntfn_id_is_valid c ntfn_id) then ret (- irq_EINVAL, 0) else
  let! allocated := lift (check_ntfn_id_is_allocated c ntfn_id) in
  if negb allocated then ret (- irq_EINVAL, 0) else
  let! ntfn_entry := load_ntfn ntfn_id in
  let! badge := outside (receive (capPtr (root_ntfn_path ntfn_entry))) in
  let! leftover := serve_irq ntfn_id mask badge in
  ret (0, leftover).

Definition sel4platsupport_irq_wait (ntfn_id wait_mask : Z) : M St (Z * Z) := irq_receive seL4_Wait ntfn_id wait_mask.
Definition sel4platsupport_irq_poll (ntfn_id poll_mask : Z) : M St (Z * Z) := irq_receive seL4_Poll ntfn_id poll_mask.
End irq.
