(* ===== verification/IrqInv.v ===== *)
(** The invariant of the interrupt interface (Irq.v): the tables, the bitfields
    and the counts agree, and interrupts and the bits of badges are paired one
    to one. *)
From S2P Require Import Prelude Cspacepath Interfaces Irq.

(** What libutils and libsel4 say of the constants of a 64-bit configuration. *)
Class IrqConstantsLaws `{IC : !IrqConstants} : Prop := {
  badge_bits : MAX_INTERRUPTS_TO_NOTIFICATIONS = 64;
  align_up_law : forall x, 0 <= x -> x + 64 <= word_size -> irq_ALIGN_UP x 64 = (x + 63) / 64 * 64;
  error_codes : 0 < irq_EINVAL /\ 0 < ENOSPC /\ 0 < ENOMEM /\ 0 < EFAULT /\ 0 < EMFILE /\ 0 < EPERM /\ 0 < EADDRINUSE
}.

(** ** Lists and bits *)

Lemma get_set {A} (l : list A) (i j : Z) (x : A) : 0 <= i < Z.of_nat (length l) ->
  arr_get (<[Z.to_nat i := x]> l) j = if decide (j = i) then Ok x else arr_get l j.
Proof.
  intros Hi. unfold arr_get. case_bool_decide as Hj; [|destruct (decide (j = i)); [lia|done]].
  rewrite lookup_insert_Z by lia. case_bool_decide; destruct (decide (j = i)); congruence.
Qed.

Lemma get_set_inv {A} (l : list A) (i j : Z) (x y : A) : 0 <= i < Z.of_nat (length l) ->
  arr_get (<[Z.to_nat i := x]> l) j = Ok y -> (j = i /\ y = x) \/ (j <> i /\ arr_get l j = Ok y).
Proof. intros Hi. rewrite get_set by done. destruct (decide (j = i)); naive_solver. Qed.

(** Clearing the lowest bit makes a word with fewer bits. *)
Definition bits_of (x : Z) : Z := countb (Z.testbit x) 64.

Lemma bits_clear (x n : Z) : 0 <= n < 64 -> Z.testbit x n = true ->
  bits_of (Z.land x (wnot (BIT n))) = bits_of x - 1.
Proof.
  intros Hn Ht. unfold bits_of. enough (countb (Z.testbit x) 64 = countb (Z.testbit (Z.land x (wnot (BIT n)))) 64 + 1) by lia.
  apply (countb_add _ _ _ n); [lia|rewrite clear_bit_testbit, Z.eqb_refl by lia; apply andb_false_r|].
  intros i Hi. rewrite clear_bit_testbit by lia. destruct (Z.eqb_spec i n) as [->|]; [by rewrite Ht|].
  by rewrite andb_true_r, orb_false_r.
Qed.

Lemma bits_set (x n : Z) : 0 <= n < 64 -> Z.testbit x n = false ->
  bits_of (Z.lor x (BIT n)) = bits_of x + 1.
Proof.
  intros Hn Ht. unfold bits_of. apply (countb_add _ _ _ n); [lia|done|]. intros i Hi. by apply set_bit_testbit.
Qed.

Definition subset_bits (x y : Z) : Prop := forall i, 0 <= i < 64 -> Z.testbit x i = true -> Z.testbit y i = true.

Lemma set_bit_subset (x y n : Z) : 0 <= n < 64 -> subset_bits x y -> Z.testbit y n = true -> subset_bits (Z.lor x (BIT n)) y.
Proof.
  intros Hn Hs Ht i Hi. rewrite set_bit_testbit by done. intros [H|Heq%Z.eqb_eq]%orb_true_iff; [by apply Hs|by subst].
Qed.

Lemma subset_set (x y n : Z) : 0 <= n < 64 -> subset_bits x y -> subset_bits x (Z.lor y (BIT n)).
Proof. intros Hn Hs i Hi H. rewrite set_bit_testbit by done. by rewrite (Hs i Hi H). Qed.

Lemma clear_subset (x y n : Z) : 0 <= n < 64 -> subset_bits x y -> subset_bits (Z.land x (wnot (BIT n))) y.
Proof. intros Hn Hs i Hi. rewrite clear_bit_testbit by done. intros [H _]%andb_true_iff. by apply Hs. Qed.

Lemma clear_both_subset (x y n : Z) : 0 <= n < 64 -> subset_bits x y ->
  subset_bits (Z.land x (wnot (BIT n))) (Z.land y (wnot (BIT n))).
Proof.
  intros Hn Hs i Hi. rewrite !clear_bit_testbit by done. intros [H ->]%andb_true_iff. by rewrite (Hs i Hi H).
Qed.

(** ** The invariant *)

Definition irq_used (c : irq_cookie_t) (i : Z) : bool :=
  match arr_get (irq_table c) i with Ok e => irq_allocated e | Fault _ => false end.
Definition ntfn_used (c : irq_cookie_t) (k : Z) : bool :=
  match arr_get (ntfn_table c) k with Ok e => ntfn_allocated e | Fault _ => false end.

(** [num] words of bits say which of the [n] numbers are in use, and [count] how many are. *)
Record numbering (n num count : Z) (bits : list Z) (used : Z -> bool) : Prop := {
  nb_max : 0 < n < 2 ^ 31;
  nb_num : num = (n + 63) / 64 * 8;
  nb_length : Z.of_nat (length bits) = num;
  nb_words : Forall is_word bits;
  nb_bits : forall i, 0 <= i < n -> bit_at bits i = used i;
  nb_count : count = countb used (Z.to_nat n)
}.

Record ntfn_wf (e : ntfn_entry_t) : Prop := {
  nw_bound : Z.of_nat (length (bound_irqs e)) = 64;
  nw_words : is_word (usable_mask e) /\ is_word (status_bitfield e) /\ is_word (pending_bitfield e);
  nw_status : subset_bits (status_bitfield e) (usable_mask e);
  nw_pending : subset_bits (pending_bitfield e) (status_bitfield e);
  nw_count : num_irqs_bound e = bits_of (status_bitfield e);
  nw_unused : ntfn_allocated e = false -> status_bitfield e = 0
}.

Definition unpaired (e : irq_entry_t) : Prop := paired_ntfn e = UNPAIRED_ID /\ allocated_badge_index e = UNALLOCATED_BADGE_INDEX.

(** Interrupt [i] is bit [b] of notification [k]: each side names the other. *)
Definition names_irq (e : ntfn_entry_t) (b i : Z) : Prop :=
  0 <= b < 64 /\ Z.testbit (status_bitfield e) b = true /\ arr_get (bound_irqs e) b = Ok i.
Definition names_bit (e : irq_entry_t) (k b : Z) : Prop := paired_ntfn e = k /\ allocated_badge_index e = b.

(** The two tables agree. *)
Record tables_agree (irqs : list irq_entry_t) (ntfns : list ntfn_entry_t) : Prop := {
  ta_wf : forall k e, arr_get ntfns k = Ok e -> ntfn_wf e;
  ta_irq : forall i e, arr_get irqs i = Ok e -> unpaired e \/
    irq_allocated e = true /\
    exists n, arr_get ntfns (paired_ntfn e) = Ok n /\ names_irq n (allocated_badge_index e) i;
  ta_bit : forall k n b i, arr_get ntfns k = Ok n -> names_irq n b i ->
    exists e, arr_get irqs i = Ok e /\ names_bit e k b
}.

Record irq_inv (c : irq_cookie_t) : Prop := {
  ii_irqs : Z.of_nat (length (irq_table c)) = max_irq_ids c;
  ii_ntfns : Z.of_nat (length (ntfn_table c)) = max_ntfn_ids c;
  ii_irq_ids : numbering (max_irq_ids c) (num_irq_bitfields c) (num_registered_irqs c) (allocated_irq_bitfields c) (irq_used c);
  ii_ntfn_ids : numbering (max_ntfn_ids c) (num_ntfn_bitfields c) (num_allocated_ntfns c) (allocated_ntfn_bitfields c) (ntfn_used c);
  ii_masked : max_ntfn_ids c <= 64 * (num_irq_bitfields c - 1);
  ii_tables : tables_agree (irq_table c) (ntfn_table c)
}.

(** ** Numbers of entries *)

Lemma numbering_ext (n num count : Z) (bits : list Z) (used used' : Z -> bool) :
  (forall i, 0 <= i < n -> used' i = used i) -> numbering n num count bits used -> numbering n num count bits used'.
Proof.
  intros H []. constructor; try done.
  - intros i Hi. rewrite H by done. auto.
  - rewrite nb_count0. apply countb_ext. intros x Hx. symmetry. apply H. lia.
Qed.

Lemma numbering_word (n num count : Z) (bits : list Z) (used : Z -> bool) (i : Z) :
  numbering n num count bits used -> 0 <= i < n ->
  exists w, arr_get bits (i / 64) = Ok w /\ bits !! Z.to_nat (i / 64) = Some w /\ is_word w.
Proof.
  intros H Hi. destruct (arr_get_in bits (i / 64)) as (w & Hw & Hw').
  { rewrite (nb_length _ _ _ _ _ H), (nb_num _ _ _ _ _ H). dlia. }
  exists w. split_and!; [done|done|]. by eapply Forall_lookup_1; [apply (nb_words _ _ _ _ _ H)|].
Qed.

Lemma fill_numbering (n num count : Z) (bits : list Z) (used used' : Z -> bool) (i : Z) :
  numbering n num count bits used -> 0 <= i < n -> used i = false ->
  (forall j, 0 <= j < n -> used' j = used j || (j =? i)) ->
  exists bits', fill_bit_in_bitfield bits i = Ok bits' /\ numbering n num (count ⊞ 1) bits' used'.
Proof.
  intros H Hi Hu Hu'. destruct (numbering_word _ _ _ _ _ i H Hi) as (w & Hw & Hl & Hww).
  pose proof (arr_get_range _ _ _ Hw) as Hr. destruct H.
  unfold fill_bit_in_bitfield. rewrite Hw. cbn [res_bind]. rewrite arr_set_in by done. eexists. split; [done|].
  assert (Hc : countb used' (Z.to_nat n) = count + 1).
  { rewrite nb_count0. apply (countb_add _ _ _ i); [lia|done|]. intros x Hx. apply Hu'. lia. }
  constructor; [done|done|by rewrite length_insert| |..].
  - apply Forall_insert; [done|]. auto with word.
  - intros j Hj. rewrite bit_at_set by (done || lia). by rewrite Hu', nb_bits0 by done.
  - rewrite Hc. apply wrap_small. pose proof (countb_bounds used' (Z.to_nat n)). unfold is_word, word_size. lia.
Qed.

Lemma unfill_numbering (n num count : Z) (bits : list Z) (used used' : Z -> bool) (i : Z) :
  numbering n num count bits used -> 0 <= i < n -> used i = true ->
  (forall j, 0 <= j < n -> used' j = used j && negb (j =? i)) ->
  exists bits', unfill_bit_in_bitfield bits i = Ok bits' /\ numbering n num (count ⊟ 1) bits' used'.
Proof.
  intros H Hi Hu Hu'. destruct (numbering_word _ _ _ _ _ i H Hi) as (w & Hw & Hl & Hww).
  pose proof (arr_get_range _ _ _ Hw) as Hr. destruct H.
  unfold unfill_bit_in_bitfield. rewrite Hw. cbn [res_bind]. rewrite arr_set_in by done. eexists. split; [done|].
  assert (Hc : count = countb used' (Z.to_nat n) + 1).
  { rewrite nb_count0. apply (countb_add _ _ _ i); [lia|rewrite Hu', Z.eqb_refl by done; apply andb_false_r|].
    intros x Hx. rewrite Hu' by lia. destruct (Z.eqb_spec x i) as [->|]; [by rewrite Hu|]. by rewrite andb_true_r, orb_false_r. }
  constructor; [done|done|by rewrite length_insert| |..].
  - apply Forall_insert; [done|]. auto with word.
  - intros j Hj. rewrite bit_at_clear by (done || lia). by rewrite Hu', nb_bits0 by done.
  - rewrite Hc. pose proof (countb_bounds used' (Z.to_nat n)).
    replace (countb used' (Z.to_nat n) + 1 - 1) with (countb used' (Z.to_nat n)) by lia.
    apply wrap_small. unfold is_word, word_size. lia.
Qed.

(** *** The search of a free number *)

Lemma a_number_is_free (used : Z -> bool) (n : nat) :
  countb used n < Z.of_nat n -> exists i, 0 <= i < Z.of_nat n /\ used i = false.
Proof.
  intros H. induction n as [|n IH]; [simpl in H; lia|]. destruct (used (Z.of_nat n)) eqn:Hu.
  - destruct IH as (i & Hi & Hf); [cbn [countb] in H; rewrite Hu in H; cbn [b2z] in H; lia|]. exists i. split; [lia|done].
  - exists (Z.of_nat n). split; [lia|done].
Qed.

Section search.
Context {IC : IrqConstants}.

(** The first number that is free, if it is before the masked word. *)
Lemma find_free_finds (n : nat) (bits : list Z) (i num masked max_ids f : Z) :
  Forall is_word bits -> 0 <= i -> i + Z.of_nat n = num -> num = Z.of_nat (length bits) ->
  i <= f / 64 < num -> f < 64 * masked -> bit_at bits f = false ->
  exists j, find_free_loop n bits i num masked max_ids = Ok j /\ i * 64 <= j <= f /\ bit_at bits j = false /\
    forall x, i * 64 <= x < j -> bit_at bits x = true.
Proof.
  intros Hw. revert i. induction n as [|n IH]; intros i Hi Hn Hl Hf Hm Hb; [lia|]. cbn [find_free_loop].
  destruct (arr_get_in bits i) as (w & Hg & Hg'); [lia|]. rewrite Hg. cbn [res_bind].
  assert (Hww : is_word w) by (by eapply Forall_lookup_1).
  assert (Hbit : forall x, i * 64 <= x < i * 64 + 64 -> bit_at bits x = Z.testbit w (x - i * 64)).
  { intros x Hx. unfold bit_at. replace (x / 64) with i by dlia. replace (x mod 64) with (x - i * 64) by dlia. by rewrite Hg'. }
  destruct (Z.eqb_spec i masked); [dlia|]. destruct (Z.eqb_spec (wnot w) 0) as [Hz|Hz]; cbn [negb].
  - assert (Hall : forall x, i * 64 <= x < i * 64 + 64 -> bit_at bits x = true).
    { intros x Hx. rewrite Hbit by done. apply negb_false_iff. rewrite <- wnot_testbit by lia. rewrite Hz. apply Z.bits_0. }
    destruct (decide (f / 64 = i)); [rewrite Hall in Hb by dlia; done|].
    destruct (IH (i + 1)) as (j & -> & Hj & Hjb & Hjl); [lia..|done|]. exists j. split_and!; [done|lia|lia|done|].
    intros x Hx. destruct (decide (x < i * 64 + 64)); [apply Hall; lia|apply Hjl; lia].
  - assert (Hnw : is_word (wnot w)) by (unfold wnot; apply lxor_word; [done|by split]).
    destruct (lowest_bit (wnot w) Hnw Hz) as (Hr & Ht & Hlow). rewrite wnot_testbit in Ht by done. apply negb_true_iff in Ht.
    exists (CTZL (wnot w) + i * 64).
    assert (Hlt : forall x, i * 64 <= x < CTZL (wnot w) + i * 64 -> bit_at bits x = true).
    { intros x Hx. rewrite Hbit by lia. apply negb_false_iff. rewrite <- wnot_testbit by lia. apply Hlow. lia. }
    split_and!; [done|lia| |rewrite Hbit by lia; rewrite Z.add_simpl_r; done|done].
    destruct (decide (CTZL (wnot w) + i * 64 <= f)); [done|]. rewrite Hlt in Hb by dlia. done.
Qed.

(** While numbers are left, the search ends with the first of them. *)
Lemma find_free_numbering (n num count masked : Z) (bits : list Z) (used : Z -> bool) :
  numbering n num count bits used -> n <= 64 * masked -> count < n ->
  exists i, find_free_loop (Z.to_nat num) bits 0 num masked n = Ok i /\ 0 <= i < n /\ used i = false /\
    forall j, 0 <= j < i -> used j = true.
Proof.
  intros H Hm Hc. pose proof H as []. rewrite nb_count0 in Hc.
  destruct (a_number_is_free used (Z.to_nat n)) as (f & Hf & Hu); [lia|].
  destruct (find_free_finds (Z.to_nat num) bits 0 num masked n f) as (i & -> & Hi & Hb & Hlow);
    [done|lia|lia|lia|rewrite nb_num0; dlia|lia|rewrite nb_bits0; [done|lia]|].
  exists i. rewrite nb_bits0 in Hb by lia. split_and!; [done|lia|lia|done|].
  intros j Hj. rewrite <- nb_bits0 by lia. apply Hlow. lia.
Qed.
End search.

(** ** The tables *)

(** A change to an interrupt that leaves its pairing alone. *)
Lemma agree_entry (T : list irq_entry_t) (N : list ntfn_entry_t) (i : Z) (e e' : irq_entry_t) :
  tables_agree T N -> arr_get T i = Ok e -> paired_ntfn e' = paired_ntfn e ->
  allocated_badge_index e' = allocated_badge_index e -> (irq_allocated e' = true \/ unpaired e) ->
  tables_agree (<[Z.to_nat i := e']> T) N.
Proof.
  intros [Hwf Hirq Hbit] He Hp Hb Ha. pose proof (arr_get_range _ _ _ He) as Hr. constructor; [done| |].
  - intros j x [[-> ->]|[_ Hx]]%get_set_inv; [|by eapply Hirq|done].
    unfold unpaired. rewrite Hp, Hb. destruct (Hirq i e He) as [Hu|[Hal Hn]]; [by left|].
    destruct Ha as [Ha|Hu]; [right; by rewrite Ha|by left].
  - intros k n b j Hk Hn. destruct (Hbit k n b j Hk Hn) as (x & Hx & Hnb). rewrite get_set by done.
    destruct (decide (j = i)) as [->|]; [|eauto]. exists e'. split; [done|].
    unfold names_bit in *. rewrite Hp, Hb. congruence.
Qed.

(** Interrupt [i] becomes bit [b] of notification [k]. *)
Lemma agree_pair (T : list irq_entry_t) (N : list ntfn_entry_t) (i k b : Z) (e e' : irq_entry_t) (n n' : ntfn_entry_t) :
  tables_agree T N -> arr_get T i = Ok e -> arr_get N k = Ok n -> unpaired e -> names_bit e' k b ->
  irq_allocated e' = true -> ntfn_wf n' -> Z.testbit (status_bitfield n) b = false ->
  (forall b' j, names_irq n' b' j <-> names_irq n b' j \/ (b' = b /\ j = i)) ->
  tables_agree (<[Z.to_nat i := e']> T) (<[Z.to_nat k := n']> N).
Proof.
  intros [Hwf Hirq Hbit] He Hk Hu Hnb Ha Hw Hb Hn. pose proof (arr_get_range _ _ _ He) as Hi.
  pose proof (arr_get_range _ _ _ Hk) as Hrk. constructor.
  - intros j x [[-> ->]|[_ Hx]]%get_set_inv; [done|by eapply Hwf|done].
  - intros j x [[-> ->]|[Hne Hx]]%get_set_inv; [| |done].
    + right. split; [done|]. destruct Hnb as [-> ->]. exists n'. rewrite get_set, decide_True by done. split; [done|].
      apply Hn. by right.
    + destruct (Hirq j x Hx) as [Hux|(Hax & m & Hm & Hnm)]; [by left|right]. split; [done|].
      rewrite get_set by done. destruct (decide (paired_ntfn x = k)) as [Hp|]; [|eauto].
      exists n'. split; [done|]. apply Hn. left. rewrite Hp, Hk in Hm. by simplify_eq.
  - intros k' m b' j [[-> ->]|[Hne Hm]]%get_set_inv; [| |done].
    + intros [Hnm|[-> ->]]%Hn.
      * destruct (Hbit k n b' j Hk Hnm) as (x & Hx & Hxb). rewrite get_set by done.
        destruct (decide (j = i)) as [->|]; [|eauto]. rewrite He in Hx. simplify_eq.
        destruct Hu as [Hu _], Hxb as [Hxb _]. rewrite Hu in Hxb. unfold UNPAIRED_ID in Hxb. lia.
      * exists e'. by rewrite get_set, decide_True by done.
    + intros Hnm. destruct (Hbit k' m b' j Hm Hnm) as (x & Hx & Hxb). rewrite get_set by done.
      destruct (decide (j = i)) as [->|]; [|eauto]. rewrite He in Hx. simplify_eq.
      destruct Hu as [Hu _], Hxb as [Hxb _]. apply arr_get_range in Hm. unfold UNPAIRED_ID in Hu. lia.
Qed.

(** Interrupt [i], bit [b] of notification [k], is unpaired. *)
Lemma agree_unpair (T : list irq_entry_t) (N : list ntfn_entry_t) (i k b : Z) (e e' : irq_entry_t) (n n' : ntfn_entry_t) :
  tables_agree T N -> arr_get T i = Ok e -> arr_get N k = Ok n -> names_bit e k b -> unpaired e' -> ntfn_wf n' ->
  (forall b' j, names_irq n' b' j <-> names_irq n b' j /\ b' <> b) ->
  tables_agree (<[Z.to_nat i := e']> T) (<[Z.to_nat k := n']> N).
Proof.
  intros [Hwf Hirq Hbit] He Hk Hnb Hu Hw Hn. pose proof (arr_get_range _ _ _ He) as Hi.
  pose proof (arr_get_range _ _ _ Hk) as Hrk. constructor.
  - intros j x [[-> ->]|[_ Hx]]%get_set_inv; [done|by eapply Hwf|done].
  - intros j x [[-> ->]|[Hne Hx]]%get_set_inv; [by left| |done].
    destruct (Hirq j x Hx) as [Hux|(Hax & m & Hm & Hnm)]; [by left|right]. split; [done|].
    rewrite get_set by done. destruct (decide (paired_ntfn x = k)) as [Hp|]; [|eauto].
    exists n'. split; [done|]. rewrite Hp, Hk in Hm. simplify_eq. apply Hn. split; [done|]. intros Hb.
    destruct (Hirq i e He) as [[He1 _]|(_ & m' & Hm' & _ & _ & Hm2)].
    + destruct Hnb as [Hnb _]. rewrite He1 in Hnb. unfold UNPAIRED_ID in Hnb. lia.
    + destruct Hnb as [Hnb1 Hnb2]. rewrite Hnb1, Hk in Hm'. simplify_eq. destruct Hnm as (_ & _ & Hnm). congruence.
  - intros k' m b' j [[-> ->]|[Hne Hm]]%get_set_inv; [| |done].
    + intros [Hnm Hb]%Hn. destruct (Hbit k n b' j Hk Hnm) as (x & Hx & Hxb). rewrite get_set by done.
      destruct (decide (j = i)) as [->|]; [|eauto]. rewrite He in Hx. simplify_eq.
      destruct Hnb as [_ Hnb], Hxb as [_ Hxb]. congruence.
    + intros Hnm. destruct (Hbit k' m b' j Hm Hnm) as (x & Hx & Hxb). rewrite get_set by done.
      destruct (decide (j = i)) as [->|]; [|eauto]. rewrite He in Hx. simplify_eq.
      destruct Hnb as [Hnb _], Hxb as [Hxb _]. congruence.
Qed.

(** A change to a notification that leaves its interrupts alone. *)
Lemma agree_ntfn (T : list irq_entry_t) (N : list ntfn_entry_t) (k : Z) (n n' : ntfn_entry_t) :
  tables_agree T N -> arr_get N k = Ok n -> ntfn_wf n' -> (forall b i, names_irq n' b i <-> names_irq n b i) ->
  tables_agree T (<[Z.to_nat k := n']> N).
Proof.
  intros [Hwf Hirq Hbit] Hk Hw Hn. pose proof (arr_get_range _ _ _ Hk) as Hrk. constructor.
  - intros j x [[-> ->]|[_ Hx]]%get_set_inv; [done|by eapply Hwf|done].
  - intros j x Hx. destruct (Hirq j x Hx) as [Hux|(Hax & m & Hm & Hnm)]; [by left|right]. split; [done|].
    rewrite get_set by done. destruct (decide (paired_ntfn x = k)) as [Hp|]; [|eauto].
    exists n'. split; [done|]. apply Hn. rewrite Hp, Hk in Hm. by simplify_eq.
  - intros k' m b' j [[-> ->]|[Hne Hm]]%get_set_inv; [|by eapply Hbit|done].
    intros Hnm%Hn. by eapply Hbit.
Qed.

(** A registered interrupt that is paired names a bit that names it. *)
Lemma paired_names (T : list irq_entry_t) (N : list ntfn_entry_t) (i : Z) (e : irq_entry_t) :
  tables_agree T N -> arr_get T i = Ok e -> paired_ntfn e <> UNPAIRED_ID ->
  exists n, arr_get N (paired_ntfn e) = Ok n /\ ntfn_wf n /\ names_irq n (allocated_badge_index e) i.
Proof.
  intros [Hwf Hirq _] He Hp. destruct (Hirq i e He) as [[? _]|(_ & n & Hn & Hnm)]; [done|].
  exists n. split_and!; eauto.
Qed.

Lemma pair_or_not (T : list irq_entry_t) (N : list ntfn_entry_t) (i : Z) (e : irq_entry_t) :
  tables_agree T N -> arr_get T i = Ok e -> unpaired e \/ 0 <= paired_ntfn e.
Proof.
  intros [_ Hirq _] He. destruct (Hirq i e He) as [Hu|(_ & n & Hn%arr_get_range & _)]; [by left|right; lia].
Qed.

(** ** Entries of notifications *)

(** Setting a bit that is free and may be used. *)
Definition binds (n : ntfn_entry_t) (b i : Z) : ntfn_entry_t :=
  NtfnEntry (ntfn_allocated n) (root_ntfn_path n) (num_irqs_bound n ⊞ 1) (usable_mask n)
    (Z.lor (status_bitfield n) (BIT b)) (pending_bitfield n) (<[Z.to_nat b := i]> (bound_irqs n)).

(** Clearing a bit; the array of interrupts becomes [bound]. *)
Definition unbinds (n : ntfn_entry_t) (b : Z) (bound : list Z) : ntfn_entry_t :=
  NtfnEntry (ntfn_allocated n) (root_ntfn_path n) (num_irqs_bound n ⊟ 1) (usable_mask n)
    (Z.land (status_bitfield n) (wnot (BIT b))) (Z.land (pending_bitfield n) (wnot (BIT b))) bound.

Lemma bits_of_range (x : Z) : 0 <= bits_of x <= 64.
Proof. apply (countb_bounds _ 64). Qed.

Lemma binds_wf (n : ntfn_entry_t) (b i : Z) : ntfn_wf n -> 0 <= b < 64 -> ntfn_allocated n = true ->
  Z.testbit (usable_mask n) b = true -> Z.testbit (status_bitfield n) b = false -> ntfn_wf (binds n b i).
Proof.
  intros [] Hb Ha Hu Hs. destruct nw_words0 as (Hw1 & Hw2 & Hw3). constructor; cbn [binds bound_irqs usable_mask status_bitfield
    pending_bitfield num_irqs_bound ntfn_allocated]; [by rewrite length_insert|auto with word| | | |by rewrite Ha].
  - by apply set_bit_subset.
  - by apply subset_set.
  - rewrite nw_count0, bits_set by done. apply wrap_small. pose proof (bits_of_range (status_bitfield n)).
    unfold is_word, word_size. lia.
Qed.

Lemma binds_names (n : ntfn_entry_t) (b i : Z) : ntfn_wf n -> 0 <= b < 64 -> Z.testbit (status_bitfield n) b = false ->
  forall b' j, names_irq (binds n b i) b' j <-> names_irq n b' j \/ (b' = b /\ j = i).
Proof.
  intros Hw Hb Hs b' j. unfold names_irq, binds. cbn [status_bitfield bound_irqs].
  rewrite set_bit_testbit, get_set by (rewrite ?(nw_bound _ Hw); done).
  destruct (decide (b' = b)) as [->|Hne].
  - rewrite Z.eqb_refl, orb_true_r, Hs. split; [intros (_ & _ & H); right; by simplify_eq|].
    intros [(_ & [=] & _)|[_ ->]]. done.
  - destruct (Z.eqb_spec b' b); [done|]. rewrite orb_false_r. naive_solver.
Qed.

Lemma unbinds_wf (n : ntfn_entry_t) (b : Z) (bound : list Z) : ntfn_wf n -> 0 <= b < 64 ->
  Z.testbit (status_bitfield n) b = true -> length bound = length (bound_irqs n) -> ntfn_wf (unbinds n b bound).
Proof.
  intros [] Hb Hs Hl. destruct nw_words0 as (Hw1 & Hw2 & Hw3). constructor; cbn [unbinds bound_irqs usable_mask status_bitfield
    pending_bitfield num_irqs_bound ntfn_allocated]; [by rewrite Hl|auto with word| | | |].
  - by apply clear_subset.
  - by apply clear_both_subset.
  - rewrite nw_count0, bits_clear by done. pose proof (bits_clear _ _ Hb Hs).
    pose proof (bits_of_range (Z.land (status_bitfield n) (wnot (BIT b)))). apply wrap_small. unfold is_word, word_size. lia.
  - intros H. rewrite nw_unused0 in Hs by done. by rewrite Z.bits_0 in Hs.
Qed.

Lemma unbinds_names (n : ntfn_entry_t) (b : Z) (bound : list Z) : 0 <= b < 64 ->
  (forall b', b' <> b -> arr_get bound b' = arr_get (bound_irqs n) b') ->
  forall b' j, names_irq (unbinds n b bound) b' j <-> names_irq n b' j /\ b' <> b.
Proof.
  intros Hb Hbd b' j. unfold names_irq, unbinds. cbn [status_bitfield bound_irqs].
  destruct (decide (b' = b)) as [->|Hne].
  - rewrite clear_bit_testbit, Z.eqb_refl, andb_false_r by done. naive_solver.
  - rewrite Hbd by done. split.
    + intros (Hr & Ht & Hg). rewrite clear_bit_testbit in Ht by done. apply andb_true_iff in Ht as [Ht _]. done.
    + intros [(Hr & Ht & Hg) _]. rewrite clear_bit_testbit, Ht by done. destruct (Z.eqb_spec b' b); done.
Qed.
