(* ===== verification/IrqKeeps.v ===== *)
(** Every operation of the interrupt interface keeps the invariant, and stops
    only where the program itself does. *)
From S2P Require Import Prelude Cspacepath Interfaces Objects Vka Irq IrqInv.

(** ** Changes to the structure *)

Definition set_irq_table (T : list irq_entry_t) (c : irq_cookie_t) : irq_cookie_t :=
  IrqCookie (iface_type c) (num_registered_irqs c) (num_allocated_ntfns c) (max_irq_ids c) (max_ntfn_ids c)
    (num_irq_bitfields c) (num_ntfn_bitfields c) (allocated_irq_bitfields c) (allocated_ntfn_bitfields c) T (ntfn_table c).
Definition set_ntfn_table (N : list ntfn_entry_t) (c : irq_cookie_t) : irq_cookie_t :=
  IrqCookie (iface_type c) (num_registered_irqs c) (num_allocated_ntfns c) (max_irq_ids c) (max_ntfn_ids c)
    (num_irq_bitfields c) (num_ntfn_bitfields c) (allocated_irq_bitfields c) (allocated_ntfn_bitfields c) (irq_table c) N.
Definition set_irq_ids (n : Z) (bits : list Z) (c : irq_cookie_t) : irq_cookie_t :=
  IrqCookie (iface_type c) n (num_allocated_ntfns c) (max_irq_ids c) (max_ntfn_ids c)
    (num_irq_bitfields c) (num_ntfn_bitfields c) bits (allocated_ntfn_bitfields c) (irq_table c) (ntfn_table c).
Definition set_ntfn_ids (n : Z) (bits : list Z) (c : irq_cookie_t) : irq_cookie_t :=
  IrqCookie (iface_type c) (num_registered_irqs c) n (max_irq_ids c) (max_ntfn_ids c)
    (num_irq_bitfields c) (num_ntfn_bitfields c) (allocated_irq_bitfields c) bits (irq_table c) (ntfn_table c).

Definition irq_put (i : Z) (e : irq_entry_t) (c : irq_cookie_t) : irq_cookie_t := set_irq_table (<[Z.to_nat i := e]> (irq_table c)) c.
Definition ntfn_put (k : Z) (n : ntfn_entry_t) (c : irq_cookie_t) : irq_cookie_t := set_ntfn_table (<[Z.to_nat k := n]> (ntfn_table c)) c.

(** Changes to the tables that keep every number in use as it is. *)
Lemma inv_tables (c : irq_cookie_t) (T : list irq_entry_t) (N : list ntfn_entry_t) : irq_inv c ->
  length T = length (irq_table c) -> length N = length (ntfn_table c) ->
  (forall i, irq_used (set_irq_table T c) i = irq_used c i) ->
  (forall k, ntfn_used (set_ntfn_table N c) k = ntfn_used c k) ->
  tables_agree T N -> irq_inv (set_irq_table T (set_ntfn_table N c)).
Proof.
  intros [] HT HN HuT HuN Ha. constructor; cbn; [by rewrite HT|by rewrite HN| | |done|done].
  - eapply numbering_ext; [|exact ii_irq_ids]. intros i _. apply HuT.
  - eapply numbering_ext; [|exact ii_ntfn_ids]. intros i _. apply HuN.
Qed.

Lemma irq_used_put (c : irq_cookie_t) (i : Z) (e : irq_entry_t) (j : Z) : 0 <= i < Z.of_nat (length (irq_table c)) ->
  irq_used (irq_put i e c) j = if decide (j = i) then irq_allocated e else irq_used c j.
Proof. intros Hi. unfold irq_used, irq_put. cbn [set_irq_table irq_table]. rewrite get_set by done. by destruct (decide (j = i)). Qed.

Lemma ntfn_used_put (c : irq_cookie_t) (k : Z) (n : ntfn_entry_t) (j : Z) : 0 <= k < Z.of_nat (length (ntfn_table c)) ->
  ntfn_used (ntfn_put k n c) j = if decide (j = k) then ntfn_allocated n else ntfn_used c j.
Proof. intros Hi. unfold ntfn_used, ntfn_put. cbn [set_ntfn_table ntfn_table]. rewrite get_set by done. by destruct (decide (j = k)). Qed.

Lemma irq_used_get (c : irq_cookie_t) (i : Z) (e : irq_entry_t) : arr_get (irq_table c) i = Ok e -> irq_used c i = irq_allocated e.
Proof. unfold irq_used. by intros ->. Qed.
Lemma ntfn_used_get (c : irq_cookie_t) (k : Z) (n : ntfn_entry_t) : arr_get (ntfn_table c) k = Ok n -> ntfn_used c k = ntfn_allocated n.
Proof. unfold ntfn_used. by intros ->. Qed.

Lemma irq_used_same (c : irq_cookie_t) (i : Z) (e e' : irq_entry_t) : arr_get (irq_table c) i = Ok e ->
  irq_allocated e' = irq_allocated e -> forall j, irq_used (irq_put i e' c) j = irq_used c j.
Proof.
  intros He Ha j. rewrite irq_used_put by (by eapply arr_get_range). destruct (decide (j = i)) as [->|]; [|done].
  by rewrite (irq_used_get _ _ _ He).
Qed.

Lemma ntfn_used_same (c : irq_cookie_t) (k : Z) (n n' : ntfn_entry_t) : arr_get (ntfn_table c) k = Ok n ->
  ntfn_allocated n' = ntfn_allocated n -> forall j, ntfn_used (ntfn_put k n' c) j = ntfn_used c j.
Proof.
  intros He Ha j. rewrite ntfn_used_put by (by eapply arr_get_range). destruct (decide (j = k)) as [->|]; [|done].
  by rewrite (ntfn_used_get _ _ _ He).
Qed.

(** Pairing and unpairing: both tables change, the numbers in use do not. *)
Lemma inv_put_both (c : irq_cookie_t) (i k : Z) (e e' : irq_entry_t) (n n' : ntfn_entry_t) : irq_inv c ->
  arr_get (irq_table c) i = Ok e -> arr_get (ntfn_table c) k = Ok n -> irq_allocated e' = irq_allocated e ->
  ntfn_allocated n' = ntfn_allocated n ->
  tables_agree (<[Z.to_nat i := e']> (irq_table c)) (<[Z.to_nat k := n']> (ntfn_table c)) ->
  irq_inv (irq_put i e' (ntfn_put k n' c)).
Proof.
  intros Hinv He Hn Ha Hb Ht. unfold irq_put, ntfn_put. cbn [set_ntfn_table irq_table].
  apply inv_tables; [done|by rewrite length_insert..| | |done].
  - exact (irq_used_same c i e e' He Ha).
  - exact (ntfn_used_same c k n n' Hn Hb).
Qed.

Lemma inv_pair (c : irq_cookie_t) (i k b : Z) (e : irq_entry_t) (n : ntfn_entry_t) (path : cspacepath_t) : irq_inv c ->
  arr_get (irq_table c) i = Ok e -> arr_get (ntfn_table c) k = Ok n -> irq_allocated e = true -> ntfn_allocated n = true ->
  unpaired e -> 0 <= b < 64 -> Z.testbit (usable_mask n) b = true -> Z.testbit (status_bitfield n) b = false ->
  irq_inv (irq_put i (with_pair path k b e) (ntfn_put k (binds n b i) c)).
Proof.
  intros Hinv He Hn Ha Hna Hu Hb Hub Hsb. pose proof (ta_wf _ _ (ii_tables _ Hinv) _ _ Hn) as Hw.
  eapply inv_put_both; [done|done|done|done|done|].
  eapply agree_pair; [apply Hinv|done|done|done|done|done|by apply binds_wf|exact Hsb|by apply binds_names].
Qed.

Lemma inv_unpair (c : irq_cookie_t) (i : Z) (e e' : irq_entry_t) (n : ntfn_entry_t) (bound : list Z) : irq_inv c ->
  arr_get (irq_table c) i = Ok e -> arr_get (ntfn_table c) (paired_ntfn e) = Ok n -> names_irq n (allocated_badge_index e) i ->
  irq_allocated e' = irq_allocated e -> unpaired e' -> length bound = length (bound_irqs n) ->
  (forall b', b' <> allocated_badge_index e -> arr_get bound b' = arr_get (bound_irqs n) b') ->
  irq_inv (irq_put i e' (ntfn_put (paired_ntfn e) (unbinds n (allocated_badge_index e) bound) c)).
Proof.
  intros Hinv He Hn (Hb & Ht & _) Ha Hu Hl Hbd. pose proof (ta_wf _ _ (ii_tables _ Hinv) _ _ Hn) as Hw.
  eapply inv_put_both; [done|done|done|done|done|].
  eapply agree_unpair; [apply Hinv|done|done|by split|done|by apply unbinds_wf|by apply unbinds_names].
Qed.

(** Putting an unpaired interrupt into use, or out of it. *)
Lemma inv_irq_ids (c : irq_cookie_t) (i : Z) (e e' : irq_entry_t) (count : Z) (bits : list Z) : irq_inv c ->
  arr_get (irq_table c) i = Ok e -> unpaired e -> unpaired e' ->
  numbering (max_irq_ids c) (num_irq_bitfields c) count bits (irq_used (irq_put i e' c)) ->
  irq_inv (set_irq_ids count bits (irq_put i e' c)).
Proof.
  intros [] He [Hu1 Hu2] [Hu1' Hu2'] Hnum. constructor; cbn; [by rewrite length_insert|done|exact Hnum|done|done|].
  eapply agree_entry; [done|done|congruence|congruence|by right].
Qed.

(** An entry of a notification without interrupts replaced by another. *)
Lemma inv_ntfn_ids (c : irq_cookie_t) (k : Z) (n n' : ntfn_entry_t) (count : Z) (bits : list Z) : irq_inv c ->
  arr_get (ntfn_table c) k = Ok n -> status_bitfield n = 0 -> status_bitfield n' = 0 -> ntfn_wf n' ->
  numbering (max_ntfn_ids c) (num_ntfn_bitfields c) count bits (ntfn_used (ntfn_put k n' c)) ->
  irq_inv (set_ntfn_ids count bits (ntfn_put k n' c)).
Proof.
  intros [] Hk Hs Hs' Hw Hnum. constructor; cbn; [done|by rewrite length_insert|done|exact Hnum|done|].
  eapply agree_ntfn; [done|done|done|]. intros b i. unfold names_irq. rewrite Hs, Hs', Z.bits_0. naive_solver.
Qed.

(** Other pending bits. *)
Lemma inv_pending (c : irq_cookie_t) (k p : Z) (n : ntfn_entry_t) : irq_inv c -> arr_get (ntfn_table c) k = Ok n ->
  is_word p -> subset_bits p (status_bitfield n) -> irq_inv (ntfn_put k (with_pending p n) c).
Proof.
  intros Hinv Hk Hp Hs. pose proof (ta_wf _ _ (ii_tables _ Hinv) _ _ Hk) as [].
  change (irq_inv (set_irq_table (irq_table c) (ntfn_put k (with_pending p n) c))).
  apply inv_tables; [done|done|by rewrite length_insert|done|by apply (ntfn_used_same c k n)|].
  eapply agree_ntfn; [apply Hinv|done| |done].
  constructor; cbn [with_pending bound_irqs usable_mask status_bitfield pending_bitfield num_irqs_bound ntfn_allocated]; try done.
  split_and!; [apply nw_words|apply nw_words|done].
Qed.

Lemma irq_put_twice (c : irq_cookie_t) (i : Z) (e e' : irq_entry_t) : irq_put i e' (irq_put i e c) = irq_put i e' c.
Proof. unfold irq_put. cbn [set_irq_table irq_table]. by rewrite list_insert_insert_eq. Qed.
Lemma ntfn_put_twice (c : irq_cookie_t) (k : Z) (n n' : ntfn_entry_t) : ntfn_put k n' (ntfn_put k n c) = ntfn_put k n' c.
Proof. unfold ntfn_put. cbn [set_ntfn_table ntfn_table]. by rewrite list_insert_insert_eq. Qed.
Lemma ntfn_put_same (c : irq_cookie_t) (k : Z) (n : ntfn_entry_t) : arr_get (ntfn_table c) k = Ok n -> ntfn_put k n c = c.
Proof. intros [_ Hk]%arr_get_ok. unfold ntfn_put. rewrite list_insert_id by done. by destruct c. Qed.

Lemma no_bits (x : Z) : is_word x -> bits_of x = 0 -> x = 0.
Proof.
  intros Hx Hb. apply word_zero_testbit; [done|]. intros i Hi. revert Hb. unfold bits_of.
  assert (Hn : 64 = Z.of_nat 64) by reflexivity. rewrite Hn in Hi. clear Hn. revert Hi. generalize 64%nat.
  intros n Hi Hb. by apply (countb_zero _ n).
Qed.

(** ** Computations on the structure

    [triple c m P]: [m], started with the structure [c], returns with [P], or
    stops the program. *)
Section keeps.
Context {W : Type} `{IC : !IrqConstants} `{IK : !IrqKernel W} `{KO : !KernelOps W} (vka : option (vka_t W)).
Context (sel4platsupport_copy_irq_cap : Z -> cspacepath_t -> M W Z)
  (run_callback : Z -> Z -> Z -> M (irq_state W) unit).
#[local] Notation St := (irq_state W).

Definition triple {A : Type} (c : irq_cookie_t) (m : M St A) (P : A -> irq_cookie_t -> Prop) : Prop :=
  forall s, cookie s = c -> match m s with Ok (a, s') => P a (cookie s') | Fault f => f = Fatal end.

(** A call to the system returns, or stops the program. *)
Definition tame {A : Type} (m : M W A) : Prop := forall w, match m w with Ok _ => True | Fault f => f = Fatal end.

(** The parameters: every call returns or stops the program, and a callback
    leaves the structure as it is (it may acknowledge its interrupt). *)
Class IrqEnvironment : Prop := {
  alloc_path_tame : tame (vka_cspace_alloc_path vka);
  free_path_tame : forall p, tame (vka_cspace_free_path vka p);
  make_path_tame : forall p, tame (vka_cspace_make_path vka p);
  delete_tame : forall p, tame (vka_cnode_delete p);
  mint_tame : forall d s r b, tame (vka_cnode_mint d s r b);
  set_notification_tame : forall h n, tame (seL4_IRQHandler_SetNotification h n);
  ack_tame : forall h, tame (seL4_IRQHandler_Ack h);
  clear_tame : forall h, tame (seL4_IRQHandler_Clear h);
  wait_tame : forall p, tame (seL4_Wait p);
  poll_tame : forall p, tame (seL4_Poll p);
  copy_irq_cap_tame : forall i p, tame (sel4platsupport_copy_irq_cap i p);
  calloc_tame : forall n, tame (ps_calloc n);
  ps_free_tame : forall n p, tame (ps_free n p);
  callback_tame : forall f d a s,
    match run_callback f d a s with Ok (_, s') => cookie s' = cookie s | Fault f => f = Fatal end
}.

Section rules.
Context {A B : Type} (c : irq_cookie_t).

Lemma t_ret (a : A) (P : A -> irq_cookie_t -> Prop) : P a c -> triple c (ret a) P.
Proof. by intros H s <-. Qed.

Lemma t_weaken (m : M St A) (P Q : A -> irq_cookie_t -> Prop) : triple c m P -> (forall a c', P a c' -> Q a c') -> triple c m Q.
Proof. intros Hm H s Hs. specialize (Hm s Hs). destruct (m s) as [[a s']|f]; auto. Qed.

Lemma t_bind (m : M St A) (k : A -> M St B) (P : B -> irq_cookie_t -> Prop) :
  triple c m (fun a c' => triple c' (k a) P) -> triple c (bind m k) P.
Proof.
  intros Hm s Hs. specialize (Hm s Hs). unfold bind. destruct (m s) as [[a s']|f]; cbn [res_bind]; [by apply Hm|done].
Qed.

Lemma t_outside (m : M W A) (P : A -> irq_cookie_t -> Prop) : tame m -> (forall a, P a c) -> triple c (outside m) P.
Proof. intros Hm H s <-. unfold outside. specialize (Hm (world s)). by destruct (m (world s)) as [[a w]|f]; cbn [res_bind]. Qed.

Lemma t_lift (r : res A) (a : A) (P : A -> irq_cookie_t -> Prop) : r = Ok a -> P a c -> triple c (lift r) P.
Proof. by intros -> H s <-. Qed.
End rules.

Section rules.
Context (c : irq_cookie_t).

Lemma t_get (P : irq_cookie_t -> irq_cookie_t -> Prop) : P c c -> triple c irq_cookie P.
Proof. by intros H s <-. Qed.

Lemma t_fatal_if (e : Z) (P : unit -> irq_cookie_t -> Prop) : P tt c -> triple c (fatal_if e) P.
Proof. intros H s <-. unfold fatal_if. by destruct (negb (e =? 0)). Qed.

Lemma t_load_irq (i : Z) (e : irq_entry_t) (P : irq_entry_t -> irq_cookie_t -> Prop) :
  arr_get (irq_table c) i = Ok e -> P e c -> triple c (load_irq i) P.
Proof. intros He H s <-. unfold load_irq, irq_cookie, gets, bind, lift. cbn [res_bind]. by rewrite He. Qed.

Lemma t_load_ntfn (k : Z) (n : ntfn_entry_t) (P : ntfn_entry_t -> irq_cookie_t -> Prop) :
  arr_get (ntfn_table c) k = Ok n -> P n c -> triple c (load_ntfn k) P.
Proof. intros He H s <-. unfold load_ntfn, irq_cookie, gets, bind, lift. cbn [res_bind]. by rewrite He. Qed.

Lemma t_store_irq (i : Z) (e e' : irq_entry_t) (P : unit -> irq_cookie_t -> Prop) :
  arr_get (irq_table c) i = Ok e -> P tt (irq_put i e' c) -> triple c (store_irq i e') P.
Proof.
  intros He H s <-. unfold store_irq, irq_cookie, gets, put_cookie, modify, bind, lift. cbn [res_bind].
  rewrite arr_set_in by (by eapply arr_get_range). done.
Qed.

Lemma t_store_ntfn (k : Z) (n n' : ntfn_entry_t) (P : unit -> irq_cookie_t -> Prop) :
  arr_get (ntfn_table c) k = Ok n -> P tt (ntfn_put k n' c) -> triple c (store_ntfn k n') P.
Proof.
  intros He H s <-. unfold store_ntfn, irq_cookie, gets, put_cookie, modify, bind, lift. cbn [res_bind].
  rewrite arr_set_in by (by eapply arr_get_range). done.
Qed.

Lemma t_set_registered (m : Z) (bits : list Z) (P : unit -> irq_cookie_t -> Prop) :
  P tt (set_irq_ids m bits c) -> triple c (set_registered m bits) P.
Proof. by intros H s <-. Qed.

Lemma t_set_provided (m : Z) (bits : list Z) (P : unit -> irq_cookie_t -> Prop) :
  P tt (set_ntfn_ids m bits c) -> triple c (set_provided m bits) P.
Proof. by intros H s <-. Qed.
End rules.
End keeps.

Create HintDb tame.
#[export] Hint Extern 0 (tame _) =>
  match goal with
  | H : IrqEnvironment _ _ _ |- _ => destruct H; clear H; match goal with T : _ |- _ => apply T end
  end : tame.

(** One step of a computation, with the entries it reads among the hypotheses. *)
Ltac t_step := first
  [ apply t_get
  | apply t_outside; [by auto with tame|intros ?]
  | eapply t_load_irq; [eassumption|]
  | eapply t_load_ntfn; [eassumption|]
  | eapply t_store_irq; [eassumption|]
  | eapply t_store_ntfn; [eassumption|]
  | apply t_set_registered | apply t_set_provided
  | apply t_fatal_if
  | eapply t_lift; [eassumption|]
  | apply t_bind
  | apply t_ret
  | case_match ].
