(* ===== verification/IrqOps.v ===== *)
(** Every operation of the interrupt interface keeps the invariant, and stops
    only where the program itself does. *)
From S2P Require Import Prelude Cspacepath Interfaces Objects Vka Irq IrqInv IrqKeeps.

Section ops.
Context {W : Type} `{IC : !IrqConstants} `{IL : !IrqConstantsLaws} `{IK : !IrqKernel W} `{KO : !KernelOps W} (vka : option (vka_t W)).
Context (sel4platsupport_copy_irq_cap : Z -> cspacepath_t -> M W Z)
  (run_callback : Z -> Z -> Z -> M (irq_state W) unit).
Context `{IE : !IrqEnvironment vka sel4platsupport_copy_irq_cap run_callback}.
#[local] Notation St := (irq_state W).
#[local] Notation register := (irq_register_common vka sel4platsupport_copy_irq_cap).

(** ** Registering *)

Lemma all_registered (c : irq_cookie_t) : irq_inv c -> check_irq_id_all_allocated c = false ->
  exists i, find_free_irq_id c = Ok i /\ 0 <= i < max_irq_ids c /\ irq_used c i = false /\
    forall j, 0 <= j < i -> irq_used c j = true.
Proof.
  intros Hinv Hf. unfold check_irq_id_all_allocated in Hf. apply Z.leb_gt in Hf.
  eapply find_free_numbering; [apply Hinv| |done]. pose proof (ii_irq_ids _ Hinv) as []. rewrite nb_num. dlia.
Qed.

Lemma irq_entry_at (c : irq_cookie_t) (i : Z) : irq_inv c -> 0 <= i < max_irq_ids c ->
  exists e, arr_get (irq_table c) i = Ok e /\ irq_allocated e = irq_used c i.
Proof.
  intros Hinv Hi. destruct (arr_get_in (irq_table c) i) as (e & He & _); [rewrite (ii_irqs _ Hinv); done|].
  exists e. by rewrite (irq_used_get _ _ _ He).
Qed.

Lemma ntfn_entry_at (c : irq_cookie_t) (k : Z) : irq_inv c -> 0 <= k < max_ntfn_ids c ->
  exists n, arr_get (ntfn_table c) k = Ok n /\ ntfn_allocated n = ntfn_used c k.
Proof.
  intros Hinv Hi. destruct (arr_get_in (ntfn_table c) k) as (e & He & _); [rewrite (ii_ntfns _ Hinv); done|].
  exists e. by rewrite (ntfn_used_get _ _ _ He).
Qed.

Lemma unused_unpaired (c : irq_cookie_t) (i : Z) (e : irq_entry_t) : irq_inv c -> arr_get (irq_table c) i = Ok e ->
  irq_allocated e = false -> unpaired e.
Proof. intros Hinv He Ha. destruct (ta_irq _ _ (ii_tables _ Hinv) i e He) as [?|[? _]]; [done|congruence]. Qed.

(** What registering an interrupt in a free entry does. *)
Definition registered (c c' : irq_cookie_t) (i irq cb data : Z) : Prop :=
  exists e path bits, cb <> 0 /\ arr_get (irq_table c) i = Ok e /\ irq_allocated e = false /\
    c' = set_irq_ids (num_registered_irqs c ⊞ 1) bits
           (irq_put i (IrqEntry true irq path cb data (ntfn_path e) (paired_ntfn e) (allocated_badge_index e)) c).

Lemma register_keeps (c : irq_cookie_t) (irq cb data : Z) : irq_inv c ->
  triple c (register irq cb data) (fun r c' => irq_inv c' /\
    ((r < 0 /\ c' = c) \/ (0 <= r < max_irq_ids c /\ registered c c' r irq cb data /\ forall j, 0 <= j < r -> irq_used c j = true))).
Proof.
  intros Hinv. pose proof error_codes as Herr. unfold irq_register_common. apply t_bind, t_get.
  destruct (check_irq_id_all_allocated c) eqn:Hall; [apply t_ret; split; [done|left; split; [lia|done]]|].
  destruct (Z.eqb_spec cb 0); [apply t_ret; split; [done|left; split; [lia|done]]|].
  destruct (all_registered c Hinv Hall) as (i & Hfind & Hi & Hu & Hlow).
  apply t_bind. eapply t_lift; [done|]. destruct (Z.eqb_spec i (-1)); [lia|].
  apply t_bind, t_outside; [auto with tame|]. intros [? path]. apply t_bind, t_outside; [auto with tame|]. intros err.
  case_match; [apply t_bind, t_outside; [auto with tame|]; intros _; apply t_ret; split; [done|left; split; [lia|done]]|].
  destruct (irq_entry_at c i Hinv Hi) as (e & He & Ha). rewrite Hu in Ha. pose proof (arr_get_range _ _ _ He) as Hr.
  set (e' := IrqEntry true irq (default no_path path) cb data (ntfn_path e) (paired_ntfn e) (allocated_badge_index e)).
  destruct (fill_numbering _ _ _ _ _ (irq_used (irq_put i e' c)) i (ii_irq_ids _ Hinv) Hi Hu) as (bits & Hbits & Hnum).
  { intros j Hj. rewrite irq_used_put by done. destruct (decide (j = i)) as [->|]; [by rewrite Z.eqb_refl, orb_true_r|].
    destruct (Z.eqb_spec j i); [done|]. by rewrite orb_false_r. }
  repeat t_step. pose proof (unused_unpaired c i e Hinv He Ha) as Hun. split.
  - by eapply inv_irq_ids.
  - right. split_and!; [lia|lia| |done]. by exists e, (default no_path path), bits.
Qed.

(** ** Pairing *)

Lemma free_badge_index (n : ntfn_entry_t) : ntfn_wf n -> find_free_ntfn_badge_index n <> -1 ->
  0 <= find_free_ntfn_badge_index n < 64 /\ Z.testbit (usable_mask n) (find_free_ntfn_badge_index n) = true /\
  Z.testbit (status_bitfield n) (find_free_ntfn_badge_index n) = false.
Proof.
  intros Hw Hne. pose proof (nw_words _ Hw) as (Hu & Hs & _). unfold find_free_ntfn_badge_index in *.
  destruct (Z.eqb_spec (Z.land (wnot (status_bitfield n)) (usable_mask n)) 0) as [|Hz]; [done|].
  rewrite Z.land_comm in Hz |- *. destruct (lowest_bit _ (land_word_l _ (wnot (status_bitfield n)) Hu) Hz) as (Hr & Ht & _).
  rewrite Z.land_spec, wnot_testbit in Ht by done. apply andb_true_iff in Ht as [Ht ?%negb_true_iff]. done.
Qed.

(** A successful pairing; the badge has one bit. *)
Definition paired (c c' : irq_cookie_t) (k i badge : Z) : Prop :=
  exists e n path, arr_get (irq_table c) i = Ok e /\ arr_get (ntfn_table c) k = Ok n /\ ntfn_allocated n = true /\ unpaired e /\
    find_free_ntfn_badge_index n <> -1 /\ badge = BIT (find_free_ntfn_badge_index n) /\
    c' = irq_put i (with_pair path k (find_free_ntfn_badge_index n) e) (ntfn_put k (binds n (find_free_ntfn_badge_index n) i) c).

Lemma set_ntfn_common_keeps (c : irq_cookie_t) (k i : Z) : irq_inv c -> ntfn_used c k = true -> irq_used c i = true ->
  triple c (irq_set_ntfn_common vka k i) (fun r c' => irq_inv c' /\
    ((r.1 < 0 /\ c' = c) \/ (r.1 = 0 /\ paired c c' k i r.2))).
Proof.
  intros Hinv Hk Hi. pose proof error_codes as Herr. unfold ntfn_used in Hk. unfold irq_used in Hi.
  destruct (arr_get (ntfn_table c) k) as [n|] eqn:Hn; [|done]. destruct (arr_get (irq_table c) i) as [e|] eqn:He; [|done].
  pose proof (ta_wf _ _ (ii_tables _ Hinv) _ _ Hn) as Hw.
  assert (Hfail : forall v : Z, v < 0 -> irq_inv c /\ (((v, 0).1 < 0 /\ c = c) \/ ((v, 0).1 = 0 /\ paired c c k i (v, 0).2))).
  { intros v Hv. split; [done|]. by left. }
  unfold irq_set_ntfn_common. apply t_bind. eapply t_load_irq; [done|].
  destruct (Z.ltb_spec UNPAIRED_ID (paired_ntfn e)); [apply t_ret, Hfail; lia|].
  assert (Hu : unpaired e) by (destruct (pair_or_not _ _ i e (ii_tables _ Hinv) He); [done|unfold UNPAIRED_ID in *; lia]).
  apply t_bind. eapply t_load_ntfn; [done|]. case_match; [apply t_ret, Hfail; lia|].
  destruct (Z.eqb_spec (find_free_ntfn_badge_index n) (-1)) as [|Hne]; [apply t_ret, Hfail; lia|].
  destruct (free_badge_index n Hw Hne) as (Hb & Hub & Hsb). set (b := find_free_ntfn_badge_index n) in *.
  apply t_bind, t_outside; [auto with tame|]. intros [err path].
  case_match; [apply t_ret, Hfail; lia|]. apply t_bind, t_outside; [auto with tame|]. intros err'.
  case_match; [repeat t_step; apply Hfail; lia|]. apply t_bind, t_outside; [auto with tame|]. intros err2.
  case_match; [repeat t_step; apply Hfail; lia|]. apply t_bind, t_outside; [auto with tame|]. intros err3.
  case_match; [repeat t_step; apply Hfail; lia|].
  apply t_bind. eapply t_lift; [apply arr_set_in; rewrite (nw_bound _ Hw); done|].
  repeat t_step. split; [by eapply inv_pair|]. right. split; [done|]. by exists e, n, (default no_path path).
Qed.

(** ** Unregistering, and taking a pairing back *)

Lemma without_irq_unbinds (c : irq_cookie_t) (i : Z) (e : irq_entry_t) : irq_inv c -> arr_get (irq_table c) i = Ok e ->
  paired_ntfn e <> UNPAIRED_ID -> exists n bound, arr_get (ntfn_table c) (paired_ntfn e) = Ok n /\
    names_irq n (allocated_badge_index e) i /\ length bound = length (bound_irqs n) /\
    (forall b', b' <> allocated_badge_index e -> arr_get bound b' = arr_get (bound_irqs n) b') /\
    without_irq (allocated_badge_index e) n = Ok (unbinds n (allocated_badge_index e) bound).
Proof.
  intros Hinv He Hp. destruct (paired_names _ _ i e (ii_tables _ Hinv) He Hp) as (n & Hn & Hw & Hnm).
  pose proof Hnm as (Hb & _ & _). exists n, (<[Z.to_nat (allocated_badge_index e) := UNPAIRED_ID]> (bound_irqs n)).
  split_and!; [done|done|by rewrite length_insert| |].
  - intros b' Hb'. rewrite get_set by (rewrite (nw_bound _ Hw); done). by rewrite decide_False.
  - unfold without_irq. rewrite arr_set_in by (rewrite (nw_bound _ Hw); done). done.
Qed.

Lemma clear_keeps (c : irq_cookie_t) (i : Z) (e : irq_entry_t) : irq_inv c -> arr_get (irq_table c) i = Ok e ->
  unpaired e -> irq_allocated e = true -> exists bits,
    unfill_bit_in_bitfield (allocated_irq_bitfields c) i = Ok bits /\
    irq_inv (set_irq_ids (num_registered_irqs c ⊟ 1) bits (irq_put i no_irq c)).
Proof.
  intros Hinv He Hu Ha. pose proof (arr_get_range _ _ _ He) as Hr. pose proof (ii_irqs _ Hinv) as Hl.
  destruct (unfill_numbering _ _ _ _ _ (irq_used (irq_put i no_irq c)) i (ii_irq_ids _ Hinv)) as (bits & Hbits & Hnum).
  - lia.
  - by rewrite (irq_used_get _ _ _ He).
  - intros j Hj. rewrite irq_used_put by done. destruct (decide (j = i)) as [->|]; [by rewrite Z.eqb_refl, andb_false_r|].
    destruct (Z.eqb_spec j i); [done|]. by rewrite andb_true_r.
  - exists bits. split; [done|]. by eapply inv_irq_ids.
Qed.

Lemma unregister_keeps (c : irq_cookie_t) (i : Z) : irq_inv c ->
  triple c (sel4platsupport_irq_unregister vka i) (fun r c' => irq_inv c' /\ (r <> 0 -> c' = c) /\ (r = 0 -> irq_used c' i = false)).
Proof.
  intros Hinv. pose proof error_codes as Herr. unfold sel4platsupport_irq_unregister. apply t_bind, t_get.
  assert (Hfail : forall v, v < 0 -> irq_inv c /\ (v <> 0 -> c = c) /\ (v = 0 -> irq_used c i = false)) by (intros v Hv; split_and!; [done|done|lia]).
  destruct (check_irq_id_is_valid c i) eqn:Hv; cbn [negb]; [|apply t_ret, Hfail; lia].
  apply negb_true_iff, orb_false_iff in Hv as [Hv1%Z.ltb_ge Hv2%Z.leb_gt].
  destruct (irq_entry_at c i Hinv) as (e & He & Ha); [lia|].
  apply t_bind. eapply t_lift; [unfold check_irq_id_is_allocated; rewrite He; done|].
  destruct (irq_allocated e) eqn:Hal; cbn [negb]; [|apply t_ret, Hfail; lia].
  apply t_bind. eapply t_load_irq; [done|]. apply t_bind.
  eapply (t_weaken _ _ (fun r c' => (r < 0 /\ c' = c) \/ (r = 0 /\ exists e', irq_inv (irq_put i e' c') /\ unpaired e' /\ irq_allocated e' = true /\
    0 <= i < Z.of_nat (length (irq_table c'))))).
  - destruct (Z.ltb_spec UNPAIRED_ID (paired_ntfn e)) as [Hp|Hp].
    + destruct (without_irq_unbinds c i e Hinv He) as (n & bound & Hn & Hnm & Hl & Hbd & Hwo); [lia|].
      repeat t_step; [left; split; [lia|done]|right]. split; [done|]. eexists (with_pair no_path UNPAIRED_ID UNALLOCATED_BADGE_INDEX e).
      split_and!; [|done|done|eapply (arr_get_range _ _ _ He)..]. eapply inv_unpair; done.
    + destruct (pair_or_not _ _ i e (ii_tables _ Hinv) He); [|unfold UNPAIRED_ID in *; lia].
      apply t_ret. right. split; [done|]. exists e. split_and!; [|done|done|eapply (arr_get_range _ _ _ He)..].
      destruct Hinv as []. eapply arr_get_ok in He as [_ He]. unfold irq_put. rewrite list_insert_id by done. by destruct c.
  - intros r c' [[Hr ->]|(-> & e' & Hinv' & Hu' & Ha' & Hr')].
    + rewrite (proj2 (Z.eqb_neq r 0)) by lia. apply t_ret, Hfail. lia.
    + rewrite Z.eqb_refl. cbn [negb].
      assert (He' : arr_get (irq_table (irq_put i e' c')) i = Ok e') by (cbn; by rewrite get_set, decide_True).
      destruct (clear_keeps _ i e' Hinv' He' Hu' Ha') as (bits & Hbits & Hfin).
      change (allocated_irq_bitfields (irq_put i e' c')) with (allocated_irq_bitfields (irq_put i no_irq c')) in Hbits.
      rewrite irq_put_twice in Hfin. destruct (arr_get_in (irq_table c') i Hr') as (e'' & He'' & _).
      repeat t_step. split_and!; [exact Hfin|done|]. intros _. unfold irq_used. cbn [set_irq_ids irq_put set_irq_table irq_table].
      by rewrite get_set, decide_True.
Qed.

Lemma bad_irq_id_spec (c : irq_cookie_t) (i : Z) : irq_inv c -> bad_irq_id c i = Ok (negb (irq_used c i)).
Proof.
  intros Hinv. unfold bad_irq_id, check_irq_id_is_valid, check_irq_id_is_allocated, irq_used. rewrite negb_involutive.
  destruct (arr_get (irq_table c) i) as [e|] eqn:He.
  - apply arr_get_range in He. rewrite (ii_irqs _ Hinv) in He. rewrite (proj2 (Z.ltb_ge _ _)), (proj2 (Z.leb_gt _ _)) by lia. done.
  - destruct ((i <? 0) || (max_irq_ids c <=? i)) eqn:Hb; [done|]. apply orb_false_iff in Hb as [H1%Z.ltb_ge H2%Z.leb_gt].
    destruct (irq_entry_at c i Hinv) as (e & He' & _); [lia|congruence].
Qed.

Lemma bad_ntfn_id_spec (c : irq_cookie_t) (k : Z) : irq_inv c -> bad_ntfn_id c k = Ok (negb (ntfn_used c k)).
Proof.
  intros Hinv. unfold bad_ntfn_id, check_ntfn_id_is_valid, check_ntfn_id_is_allocated, ntfn_used. rewrite negb_involutive.
  destruct (arr_get (ntfn_table c) k) as [e|] eqn:He.
  - apply arr_get_range in He. rewrite (ii_ntfns _ Hinv) in He. rewrite (proj2 (Z.ltb_ge _ _)), (proj2 (Z.leb_gt _ _)) by lia. done.
  - destruct ((k <? 0) || (max_ntfn_ids c <=? k)) eqn:Hb; [done|]. apply orb_false_iff in Hb as [H1%Z.ltb_ge H2%Z.leb_gt].
    destruct (ntfn_entry_at c k Hinv) as (e & He' & _); [lia|congruence].
Qed.

Lemma used_irq_entry (c : irq_cookie_t) (i : Z) : irq_used c i = true ->
  exists e, arr_get (irq_table c) i = Ok e /\ irq_allocated e = true.
Proof. unfold irq_used. destruct (arr_get (irq_table c) i); [eauto|done]. Qed.
Lemma used_ntfn_entry (c : irq_cookie_t) (k : Z) : ntfn_used c k = true ->
  exists n, arr_get (ntfn_table c) k = Ok n /\ ntfn_allocated n = true.
Proof. unfold ntfn_used. destruct (arr_get (ntfn_table c) k); [eauto|done]. Qed.

Lemma set_ntfn_keeps (c : irq_cookie_t) (k i : Z) : irq_inv c ->
  triple c (sel4platsupport_irq_set_ntfn vka k i) (fun r c' => irq_inv c' /\
    ((r.1 < 0 /\ c' = c) \/ (r.1 = 0 /\ paired c c' k i r.2))).
Proof.
  intros Hinv. pose proof error_codes as Herr. unfold sel4platsupport_irq_set_ntfn. apply t_bind, t_get.
  case_match; [apply t_ret; split; [done|left; cbn; split; [lia|done]]|].
  apply t_bind. eapply t_lift; [by apply bad_ntfn_id_spec|].
  destruct (ntfn_used c k) eqn:Hk; cbn [negb]; [|apply t_ret; split; [done|left; cbn; split; [lia|done]]].
  apply t_bind. eapply t_lift; [by apply bad_irq_id_spec|].
  destruct (irq_used c i) eqn:Hi; cbn [negb]; [|apply t_ret; split; [done|left; cbn; split; [lia|done]]].
  by apply set_ntfn_common_keeps.
Qed.

Lemma unset_ntfn_keeps (c : irq_cookie_t) (i : Z) : irq_inv c ->
  triple c (sel4platsupport_irq_unset_ntfn vka i) (fun r c' => irq_inv c' /\ (r <> 0 -> c' = c)).
Proof.
  intros Hinv. unfold sel4platsupport_irq_unset_ntfn. apply t_bind, t_get.
  case_match; [by apply t_ret|]. apply t_bind. eapply t_lift; [by apply bad_irq_id_spec|].
  destruct (irq_used c i) eqn:Hi; cbn [negb]; [|by apply t_ret]. destruct (used_irq_entry c i Hi) as (e & He & Ha).
  apply t_bind. eapply t_load_irq; [done|]. destruct (Z.eqb_spec (paired_ntfn e) UNPAIRED_ID) as [|Hp]; [by apply t_ret|].
  destruct (without_irq_unbinds c i e Hinv He Hp) as (n & bound & Hn & Hnm & Hl & Hbd & Hwo).
  repeat t_step; [by split|]. split; [|done]. eapply inv_unpair; done.
Qed.
End ops.
