(* ===== verification/IrqServe.v ===== *)
(** Notifications are provided and returned, and callbacks are run: these keep
    the invariant too, so every history of operations does. *)
From S2P Require Import Prelude Cspacepath Interfaces Objects Vka Irq IrqInv IrqKeeps IrqOps.

(** The entry with the bits [r] only. *)
Definition only_bits (n : ntfn_entry_t) (r : Z) : ntfn_entry_t :=
  NtfnEntry (ntfn_allocated n) (root_ntfn_path n) (bits_of r) (usable_mask n) r (Z.land (pending_bitfield n) r) (bound_irqs n).

Lemma only_all_bits (n : ntfn_entry_t) : ntfn_wf n -> only_bits n (status_bitfield n) = n.
Proof.
  intros []. destruct nw_words as (_ & Hs & Hp). unfold only_bits. rewrite <- nw_count.
  replace (Z.land (pending_bitfield n) (status_bitfield n)) with (pending_bitfield n); [by destruct n|].
  apply Z.bits_inj'. intros i Hi. rewrite Z.land_spec. destruct (Z.testbit (pending_bitfield n) i) eqn:Ht; [|done].
  destruct (decide (i < 64)); [by rewrite nw_pending|]. rewrite word_testbit_high in Ht by (done || lia). done.
Qed.

Lemma unbinds_only (n : ntfn_entry_t) (r b : Z) : 0 <= b < 64 -> Z.testbit r b = true ->
  unbinds (only_bits n r) b (bound_irqs n) = only_bits n (Z.land r (wnot (BIT b))).
Proof.
  intros Hb Ht. unfold unbinds, only_bits. cbn [ntfn_allocated root_ntfn_path num_irqs_bound usable_mask status_bitfield pending_bitfield].
  rewrite bits_clear, Z.land_assoc by done. f_equal. pose proof (bits_clear r b Hb Ht).
  pose proof (bits_of_range (Z.land r (wnot (BIT b)))). apply wrap_small. unfold is_word, word_size. lia.
Qed.

Section serve.
Context {W : Type} `{IC : !IrqConstants} `{IL : !IrqConstantsLaws} `{IK : !IrqKernel W} `{KO : !KernelOps W} (vka : option (vka_t W)).
Context (sel4platsupport_copy_irq_cap : Z -> cspacepath_t -> M W Z)
  (run_callback : Z -> Z -> Z -> M (irq_state W) unit).
Context `{IE : !IrqEnvironment vka sel4platsupport_copy_irq_cap run_callback}.
#[local] Notation St := (irq_state W).

(** ** Providing and returning *)

Lemma fresh_ntfn_wf (a : bool) (path : cspacepath_t) (mask x : Z) : is_word mask ->
  ntfn_wf (NtfnEntry a path 0 mask 0 0 (replicate (Z.to_nat MAX_INTERRUPTS_TO_NOTIFICATIONS) x)).
Proof.
  intros Hm. constructor; cbn [bound_irqs usable_mask status_bitfield pending_bitfield num_irqs_bound].
  - rewrite badge_bits. done.
  - split_and!; [done|by split..].
  - intros i _. by rewrite Z.bits_0.
  - intros i _. by rewrite Z.bits_0.
  - reflexivity.
  - done.
Qed.

Lemma provide_keeps (c : irq_cookie_t) (ntfn mask k : Z) : irq_inv c -> is_word mask -> 0 <= k < max_ntfn_ids c ->
  ntfn_used c k = false ->
  triple c (provide_ntfn_common vka ntfn mask k) (fun _ c' => irq_inv c' /\ ntfn_used c' k = true).
Proof.
  intros Hinv Hm Hk Hu. destruct (ntfn_entry_at c k Hinv Hk) as (n & Hn & Ha). rewrite Hu in Ha.
  pose proof (arr_get_range _ _ _ Hn) as Hr. unfold provide_ntfn_common.
  apply t_bind, t_outside; [auto with tame|]. intros path.
  set (n' := NtfnEntry true path 0 mask 0 0 (replicate (Z.to_nat MAX_INTERRUPTS_TO_NOTIFICATIONS) 0)).
  destruct (fill_numbering _ _ _ _ _ (ntfn_used (ntfn_put k n' c)) k (ii_ntfn_ids _ Hinv) Hk Hu) as (bits & Hbits & Hnum).
  { intros j Hj. rewrite ntfn_used_put by done. destruct (decide (j = k)) as [->|]; [by rewrite Z.eqb_refl, orb_true_r|].
    destruct (Z.eqb_spec j k); [done|]. by rewrite orb_false_r. }
  repeat t_step. split.
  - eapply inv_ntfn_ids; [done|done|by eapply nw_unused; [eapply ta_wf; [apply Hinv|]|]|done|by apply fresh_ntfn_wf|done].
  - unfold ntfn_used. cbn [set_ntfn_ids ntfn_put set_ntfn_table ntfn_table]. by rewrite get_set, decide_True.
Qed.

Lemma provide_ntfn_keeps (c : irq_cookie_t) (ntfn mask : Z) : irq_inv c -> is_word mask ->
  triple c (sel4platsupport_irq_provide_ntfn vka ntfn mask) (fun r c' => irq_inv c' /\ (r < 0 \/ ntfn_used c' r = true)).
Proof.
  intros Hinv Hm. pose proof error_codes as Herr. unfold sel4platsupport_irq_provide_ntfn.
  case_match; [apply t_ret; split; [done|left; lia]|]. apply t_bind, t_get.
  case_match; [apply t_ret; split; [done|left; lia]|].
  destruct (check_ntfn_id_all_allocated c) eqn:Hall; [apply t_ret; split; [done|left; lia]|].
  unfold check_ntfn_id_all_allocated in Hall. apply Z.leb_gt in Hall.
  destruct (find_free_numbering _ _ _ (num_irq_bitfields c - 1) _ _ (ii_ntfn_ids _ Hinv) (ii_masked _ Hinv) Hall)
    as (k & Hfind & Hk & Hu & _).
  apply t_bind. eapply t_lift; [exact Hfind|]. destruct (Z.eqb_spec k (-1)); [lia|].
  apply t_bind. eapply t_weaken; [by apply provide_keeps|]. intros _ c' [Hinv' Hu']. apply t_ret. auto.
Qed.

Lemma provide_with_id_keeps (c : irq_cookie_t) (ntfn mask k : Z) : irq_inv c -> is_word mask -> 0 <= k < max_ntfn_ids c ->
  triple c (sel4platsupport_irq_provide_ntfn_with_id vka ntfn mask k) (fun r c' => irq_inv c' /\ (r = 0 -> ntfn_used c' k = true)).
Proof.
  intros Hinv Hm Hk. pose proof error_codes as Herr. unfold sel4platsupport_irq_provide_ntfn_with_id.
  case_match; [apply t_ret; split; [done|lia]|]. apply t_bind, t_get.
  case_match; [apply t_ret; split; [done|lia]|]. case_match; [apply t_ret; split; [done|lia]|].
  destruct (ntfn_entry_at c k Hinv Hk) as (n & Hn & Ha).
  apply t_bind. eapply t_load_ntfn; [done|]. case_match; [apply t_ret; split; [done|lia]|].
  apply t_bind. eapply t_weaken; [by apply provide_keeps|]. intros _ c' [Hinv' Hu']. by apply t_ret.
Qed.

(** The loop over the bits [r] that are left; the entry itself does not change. *)
Lemma unbind_loop_keeps (fuel : nat) (c : irq_cookie_t) (k r : Z) (n : ntfn_entry_t) :
  arr_get (ntfn_table c) k = Ok n -> is_word r -> bits_of r <= Z.of_nat fuel ->
  irq_inv (ntfn_put k (only_bits n r) c) ->
  triple c (unbind_loop fuel k r) (fun _ c' => arr_get (ntfn_table c') k = Ok n /\ irq_inv (ntfn_put k (only_bits n 0) c')).
Proof.
  revert c r. induction fuel as [|fuel IH]; intros c r Hn Hr Hf Hinv; cbn [unbind_loop];
    (destruct (Z.eqb_spec r 0) as [->|Hr0]; [by apply t_ret|]).
  - pose proof (bits_of_range r). rewrite (no_bits r Hr) in Hr0; [done|lia].
  - destruct (lowest_bit r Hr Hr0) as (Hb & Ht & _). set (b := CTZL r) in *.
    pose proof (arr_get_range _ _ _ Hn) as Hk.
    assert (Hn' : arr_get (ntfn_table (ntfn_put k (only_bits n r) c)) k = Ok (only_bits n r)) by (cbn; by rewrite get_set, decide_True).
    pose proof (ta_wf _ _ (ii_tables _ Hinv) _ _ Hn') as Hw. pose proof (nw_bound _ Hw) as Hlen. cbn [only_bits bound_irqs] in Hlen.
    destruct (arr_get_in (bound_irqs n) b) as (i & Hi & _); [lia|].
    destruct (ta_bit _ _ (ii_tables _ Hinv) k _ b i Hn') as (e & He & Hp & Hidx); [done|].
    apply t_bind. eapply t_load_ntfn; [done|]. apply t_bind. eapply t_lift; [done|].
    apply t_bind. eapply t_load_irq; [done|]. do 6 t_step. apply t_bind. eapply t_store_irq; [done|].
    apply IH; [done|auto with word|rewrite bits_clear by done; lia|].
    rewrite <- unbinds_only, <- Hidx by done.
    pose proof (inv_unpair _ i e (with_pair no_path UNPAIRED_ID UNALLOCATED_BADGE_INDEX e) (only_bits n r) (bound_irqs n) Hinv He) as Hunp.
    rewrite Hp, Hidx in Hunp. specialize (Hunp Hn'). rewrite ntfn_put_twice in Hunp. rewrite Hidx. by apply Hunp.
Qed.

Lemma return_keeps (c : irq_cookie_t) (k : Z) : irq_inv c ->
  triple c (sel4platsupport_irq_return_ntfn k) (fun r c' => irq_inv c' /\ (r.1 <> 0 -> c' = c) /\ (r.1 = 0 -> 0 <= k /\ ntfn_used c' k = false)).
Proof.
  intros Hinv. pose proof error_codes as Herr. unfold sel4platsupport_irq_return_ntfn. apply t_bind, t_get.
  assert (Hfail : forall v : Z, v < 0 -> irq_inv c /\ ((v, 0).1 <> 0 -> c = c) /\ ((v, 0).1 = 0 -> 0 <= k /\ ntfn_used c k = false))
    by (intros v Hv; cbn; split_and!; [done|done|lia]).
  case_match; [apply t_ret, Hfail; lia|].
  destruct (check_ntfn_id_is_valid c k) eqn:Hv; cbn [negb]; [|apply t_ret, Hfail; lia].
  apply negb_true_iff, orb_false_iff in Hv as [Hv1%Z.ltb_ge Hv2%Z.leb_gt].
  destruct (ntfn_entry_at c k Hinv) as (n & Hn & Ha); [lia|].
  apply t_bind. eapply t_lift; [unfold check_ntfn_id_is_allocated; rewrite Hn; done|].
  destruct (ntfn_allocated n) eqn:Hal; cbn [negb]; [|apply t_ret, Hfail; lia].
  apply t_bind. eapply t_load_ntfn; [done|]. apply t_bind.
  pose proof (ta_wf _ _ (ii_tables _ Hinv) _ _ Hn) as Hw. pose proof (nw_words _ Hw) as (_ & Hs & _).
  eapply (t_weaken _ _ (fun _ c' => arr_get (ntfn_table c') k = Ok n /\ irq_inv (ntfn_put k (only_bits n 0) c'))).
  - pose proof (bits_of_range (status_bitfield n)).
    assert (Hsame : irq_inv (ntfn_put k (only_bits n (status_bitfield n)) c)) by (by rewrite only_all_bits, ntfn_put_same).
    destruct (Z.ltb_spec 0 (num_irqs_bound n)) as [Hb|Hb]; [apply unbind_loop_keeps; auto; lia|].
    rewrite (nw_count _ Hw) in Hb. apply t_ret. split; [done|]. rewrite (no_bits (status_bitfield n)) in Hsame; [done|done|lia].
  - intros _ c' [Hn' Hinv']. pose proof (arr_get_range _ _ _ Hn') as Hr. pose proof (ii_ntfns _ Hinv') as Hlen.
    cbn in Hlen. rewrite length_insert in Hlen.
    assert (Hz : arr_get (ntfn_table (ntfn_put k (only_bits n 0) c')) k = Ok (only_bits n 0)) by (cbn; by rewrite get_set, decide_True).
    destruct (unfill_numbering _ _ _ _ _ (ntfn_used (ntfn_put k no_ntfn (ntfn_put k (only_bits n 0) c'))) k (ii_ntfn_ids _ Hinv'))
      as (bits & Hbits & Hnum); [cbn; lia|by rewrite (ntfn_used_get _ _ _ Hz)| |].
    { intros j Hj. rewrite ntfn_used_put by (cbn; by rewrite length_insert).
      destruct (decide (j = k)) as [->|]; [by rewrite Z.eqb_refl, andb_false_r|].
      destruct (Z.eqb_spec j k); [done|]. by rewrite andb_true_r. }
    cbn [ntfn_put set_ntfn_table allocated_ntfn_bitfields] in Hbits.
    pose proof (inv_ntfn_ids _ k _ no_ntfn (num_allocated_ntfns c' ⊟ 1) bits Hinv' Hz) as Hfin. rewrite ntfn_put_twice in Hfin, Hnum. cbn [only_bits status_bitfield] in Hfin.
    assert (Hnw : ntfn_wf no_ntfn) by (apply fresh_ntfn_wf; by split).
    repeat t_step. split_and!; [by apply Hfin|done|]. intros _. split; [done|]. unfold ntfn_used.
    cbn [set_ntfn_ids ntfn_put set_ntfn_table ntfn_table]. by rewrite get_set, decide_True.
Qed.

(** ** Running callbacks *)

Lemma callback_keeps (c : irq_cookie_t) (i : Z) (e : irq_entry_t) : arr_get (irq_table c) i = Ok e ->
  triple c (perform_callback run_callback i) (fun _ c' => c' = c).
Proof.
  intros He. unfold perform_callback. apply t_bind. eapply t_load_irq; [done|].
  case_match; [|by apply t_ret]. apply t_bind, t_outside; [auto with tame|]. intros [err a].
  apply t_bind, t_fatal_if. apply t_bind. intros s Hs. unfold modify. cbn [cookie].
  change (triple (cookie s) (bind (run_callback (irq_callback_fn e) (callback_data e) a) (fun _ => ret true)) (fun _ c' => c' = c)).
  apply t_bind. intros s' Hs'. pose proof (callback_tame _ _ _ (irq_callback_fn e) (callback_data e) a s') as Hcb.
  destruct (run_callback _ _ _ s') as [[[] s'']|f]; [|done]. apply t_ret. congruence.
Qed.

(** A bit that is bound names an interrupt of the table. *)
Lemma bound_bit (c : irq_cookie_t) (k b : Z) (n : ntfn_entry_t) : irq_inv c -> arr_get (ntfn_table c) k = Ok n -> 0 <= b < 64 ->
  Z.testbit (status_bitfield n) b = true ->
  exists i e, arr_get (bound_irqs n) b = Ok i /\ arr_get (irq_table c) i = Ok e /\ names_bit e k b.
Proof.
  intros Hinv Hn Hb Ht. pose proof (ta_wf _ _ (ii_tables _ Hinv) _ _ Hn) as Hw.
  destruct (arr_get_in (bound_irqs n) b) as (i & Hi & _); [rewrite (nw_bound _ Hw); done|].
  destruct (ta_bit _ _ (ii_tables _ Hinv) k n b i Hn) as (e & He & Hnb); [done|]. eauto.
Qed.

Lemma handle_loop_keeps (fuel : nat) (c : irq_cookie_t) (k u : Z) (n : ntfn_entry_t) : irq_inv c ->
  arr_get (ntfn_table c) k = Ok n -> is_word u -> subset_bits u (status_bitfield n) -> bits_of u <= Z.of_nat fuel ->
  triple c (handle_loop run_callback fuel k u) (fun _ c' => irq_inv c').
Proof.
  revert c u n. induction fuel as [|fuel IH]; intros c u n Hinv Hn Hu Hsub Hf; cbn [handle_loop];
    (destruct (Z.eqb_spec u 0) as [->|Hu0]; [by apply t_ret|]).
  - pose proof (bits_of_range u). rewrite (no_bits u Hu) in Hu0; [done|lia].
  - destruct (lowest_bit u Hu Hu0) as (Hb & Ht & _). set (b := CTZL u) in *.
    pose proof (ta_wf _ _ (ii_tables _ Hinv) _ _ Hn) as Hw. pose proof (nw_words _ Hw) as (_ & _ & Hpw).
    destruct (bound_bit c k b n Hinv Hn Hb (Hsub b Hb Ht)) as (i & e & Hi & He & _).
    apply t_bind. eapply t_load_ntfn; [done|]. apply t_bind. eapply t_lift; [done|].
    apply t_bind. eapply t_weaken; [by eapply callback_keeps|]. intros called c' ->.
    apply t_bind. eapply t_load_ntfn; [done|]. apply t_bind.
    assert (Hf' : bits_of (Z.land u (wnot (BIT b))) <= Z.of_nat fuel) by (rewrite bits_clear by done; lia).
    assert (Hu' : is_word (Z.land u (wnot (BIT b)))) by auto with word.
    case_match; [|apply t_ret; apply (IH _ _ n); [done..|by apply clear_subset|done]].
    eapply t_store_ntfn; [done|]. eapply IH; [apply inv_pending| |done|apply clear_subset|done].
    + done.
    + exact Hn.
    + auto with word.
    + by apply clear_subset, nw_pending.
    + cbn [ntfn_put set_ntfn_table ntfn_table]. rewrite get_set by (by eapply arr_get_range). by rewrite decide_True.
    + done.
    + done.
Qed.

(** The bits handled are of interrupts that are bound. *)
Definition bits_bound (c : irq_cookie_t) (k mask : Z) : Prop :=
  forall n, arr_get (ntfn_table c) k = Ok n -> subset_bits (Z.land mask (usable_mask n)) (status_bitfield n).

Lemma land_word_r (x y : Z) : is_word y -> is_word (Z.land x y).
Proof. rewrite Z.land_comm. apply land_word_l. Qed.

Lemma handle_keeps (c : irq_cookie_t) (k mask : Z) : irq_inv c -> bits_bound c k mask ->
  triple c (sel4platsupport_irq_handle run_callback k mask) (fun _ c' => irq_inv c').
Proof.
  intros Hinv Hmask. unfold sel4platsupport_irq_handle. apply t_bind, t_get.
  apply t_bind. eapply t_lift; [by apply bad_ntfn_id_spec|].
  destruct (ntfn_used c k) eqn:Hk; cbn [negb]; [|by apply t_ret]. destruct (used_ntfn_entry c k Hk) as (n & Hn & _).
  pose proof (ta_wf _ _ (ii_tables _ Hinv) _ _ Hn) as Hw. pose proof (nw_words _ Hw) as (Huw & _ & _).
  apply t_bind. eapply t_load_ntfn; [done|]. apply t_bind.
  eapply t_weaken; [eapply handle_loop_keeps; [done|done|by apply land_word_r|by apply Hmask|]|by intros; apply t_ret].
  pose proof (bits_of_range (Z.land mask (usable_mask n))). lia.
Qed.

Lemma serve_loop_keeps (fuel : nat) (c : irq_cookie_t) (k mask u served : Z) (n : ntfn_entry_t) : irq_inv c ->
  arr_get (ntfn_table c) k = Ok n -> is_word u -> subset_bits u (status_bitfield n) -> bits_of u <= Z.of_nat fuel ->
  triple c (serve_loop run_callback fuel k mask u served) (fun _ c' => c' = c).
Proof.
  intros Hinv Hn. revert u served. induction fuel as [|fuel IH]; intros u served Hu Hsub Hf; cbn [serve_loop];
    (destruct (Z.eqb_spec u 0) as [->|Hu0]; [by apply t_ret|]).
  - pose proof (bits_of_range u). rewrite (no_bits u Hu) in Hu0; [done|lia].
  - destruct (lowest_bit u Hu Hu0) as (Hb & Ht & _). set (b := CTZL u) in *.
    destruct (bound_bit c k b n Hinv Hn Hb (Hsub b Hb Ht)) as (i & e & Hi & He & _).
    apply t_bind. eapply (t_weaken _ _ (fun _ c' => c' = c)).
    + case_match; [|by apply t_ret]. apply t_bind. eapply t_load_ntfn; [done|]. apply t_bind. eapply t_lift; [done|].
      apply t_bind. eapply t_weaken; [by eapply callback_keeps|]. intros called c' ->. by apply t_ret.
    + intros x c' ->. apply IH; [auto with word|by apply clear_subset|rewrite bits_clear by done; lia].
Qed.

Lemma lor_subset (x y z : Z) : subset_bits x z -> subset_bits y z -> subset_bits (Z.lor x y) z.
Proof. intros Hx Hy i Hi. rewrite Z.lor_spec. intros [H|H]%orb_true_iff; auto. Qed.

Lemma lxor_land_subset (x y z w : Z) : subset_bits x z -> subset_bits y z -> subset_bits (Z.lxor x (Z.land y w)) z.
Proof.
  intros Hx Hy i Hi. rewrite Z.lxor_spec, Z.land_spec. intros H. destruct (Z.testbit x i) eqn:Htx; [by apply Hx|].
  destruct (Z.testbit y i) eqn:Hty; [by apply Hy|done].
Qed.

Lemma serve_keeps (c : irq_cookie_t) (k mask badge : Z) : irq_inv c -> ntfn_used c k = true -> bits_bound c k badge ->
  triple c (serve_irq run_callback k mask badge) (fun _ c' => irq_inv c').
Proof.
  intros Hinv Hk Hbadge. destruct (used_ntfn_entry c k Hk) as (n & Hn & _).
  pose proof (ta_wf _ _ (ii_tables _ Hinv) _ _ Hn) as Hw. pose proof (nw_words _ Hw) as (Huw & _ & Hpw).
  assert (Hbw : is_word (Z.land badge (usable_mask n))) by (by apply land_word_r).
  unfold serve_irq. apply t_bind. eapply t_load_ntfn; [done|]. apply t_bind. eapply t_weaken.
  - eapply serve_loop_keeps; [done|done|by apply lor_word| |].
    + apply lor_subset; [by apply Hbadge|by apply nw_pending].
    + pose proof (bits_of_range (Z.lor (Z.land badge (usable_mask n)) (pending_bitfield n))). lia.
  - intros served c' ->. apply t_bind. eapply t_load_ntfn; [done|]. apply t_bind. eapply t_store_ntfn; [done|].
    apply t_ret. apply inv_pending; [done|done|auto with word|].
    apply lxor_land_subset; [by apply nw_pending|by apply Hbadge].
Qed.

Lemma receive_keeps (receive : Z -> M W Z) (c : irq_cookie_t) (k mask : Z) : irq_inv c -> (forall p, tame (receive p)) ->
  (forall p w b w', receive p w = Ok (b, w') -> bits_bound c k b) ->
  triple c (irq_receive run_callback receive k mask) (fun _ c' => irq_inv c').
Proof.
  intros Hinv Ht Hr. unfold irq_receive. apply t_bind, t_get.
  destruct (check_ntfn_id_is_valid c k) eqn:Hv; cbn [negb]; [|by apply t_ret].
  apply negb_true_iff, orb_false_iff in Hv as [Hv1%Z.ltb_ge Hv2%Z.leb_gt].
  destruct (ntfn_entry_at c k Hinv) as (n & Hn & Ha); [lia|].
  apply t_bind. eapply t_lift; [unfold check_ntfn_id_is_allocated; rewrite Hn; done|].
  destruct (ntfn_allocated n) eqn:Hal; cbn [negb]; [|by apply t_ret].
  apply t_bind. eapply t_load_ntfn; [done|]. apply t_bind. intros s Hs. unfold outside.
  specialize (Ht (capPtr (root_ntfn_path n)) (world s)).
  destruct (receive (capPtr (root_ntfn_path n)) (world s)) as [[b w]|f] eqn:Hrun; cbn [res_bind cookie]; [|done].
  rewrite Hs. apply t_bind. eapply t_weaken; [by apply serve_keeps; eauto|]. intros left c' Hc'. by apply t_ret.
Qed.
End serve.
