(* ===== verification/IrqSpec.v ===== *)
(** What the interrupt interface promises: histories of operations are safe, a
    registered and paired interrupt has its callback run when its bit is handled,
    and a notification that is returned leaves no interrupt paired with it. *)
From S2P Require Import Prelude Cspacepath Interfaces Objects Vka Irq IrqInv IrqKeeps IrqOps IrqServe.

(** ** The structure when it is made *)

(** Both tables have entries, their numbers are those of an [int], and the word of
    the bitfield of notifications that is masked, chosen by the number of
    interrupts, lies past those that number notifications. *)
Definition config_ok (cfg : irq_interface_config_t) : Prop :=
  0 < config_max_irq_ids cfg < 2 ^ 31 /\ 0 < config_max_ntfn_ids cfg < 2 ^ 31 /\
  config_max_ntfn_ids cfg <= 64 * ((config_max_irq_ids cfg + 63) / 64 * 8 - 1).

Lemma arr_get_replicate {A} (n : Z) (x y : A) (i : Z) : arr_get (replicate (Z.to_nat n) x) i = Ok y -> y = x.
Proof. intros [_ H]%arr_get_ok. by apply lookup_replicate in H as [-> _]. Qed.

Lemma fresh_numbering (n : Z) (used : Z -> bool) : 0 < n < 2 ^ 31 -> (forall i, used i = false) ->
  numbering n ((n + 63) / 64 * 8) 0 (replicate (Z.to_nat ((n + 63) / 64 * 8)) 0) used.
Proof.
  intros Hn Hu. constructor; [done|done|rewrite length_replicate; dlia|by apply Forall_replicate| |].
  - intros i Hi. rewrite Hu. unfold bit_at. destruct (_ !! _) as [w|] eqn:Hw; [|done].
    apply lookup_replicate in Hw as [-> _]. apply Z.bits_0.
  - symmetry. apply countb_none. auto.
Qed.

Section setup.
Context `{IC : !IrqConstants} `{IL : !IrqConstantsLaws}.

Definition fresh_cookie (cfg : irq_interface_config_t) (ty : irq_iface_type_t) : irq_cookie_t :=
  let ni := irq_ALIGN_UP (config_max_irq_ids cfg) 64 / 8 in
  let nn := irq_ALIGN_UP (config_max_ntfn_ids cfg) 64 / 8 in
  IrqCookie ty 0 0 (config_max_irq_ids cfg) (config_max_ntfn_ids cfg) ni nn
    (replicate (Z.to_nat ni) 0) (replicate (Z.to_nat nn) 0)
    (replicate (Z.to_nat (config_max_irq_ids cfg)) no_irq) (replicate (Z.to_nat (config_max_ntfn_ids cfg)) no_ntfn).

Lemma fresh_inv (cfg : irq_interface_config_t) (ty : irq_iface_type_t) : config_ok cfg -> irq_inv (fresh_cookie cfg ty).
Proof.
  intros (Hi & Hn & Hm). assert (Hal : forall x, 0 < x < 2 ^ 31 -> irq_ALIGN_UP x 64 / 8 = (x + 63) / 64 * 8).
  { intros x Hx. rewrite align_up_law by (unfold word_size; lia). dlia. }
  unfold fresh_cookie. rewrite !Hal by done. constructor; cbn.
  - rewrite length_replicate. lia.
  - rewrite length_replicate. lia.
  - apply fresh_numbering; [done|]. intros i. unfold irq_used. cbn [irq_table].
    destruct (arr_get _ i) as [e|] eqn:He; [|done]. by apply arr_get_replicate in He as ->.
  - apply fresh_numbering; [done|]. intros i. unfold ntfn_used. cbn [ntfn_table].
    destruct (arr_get _ i) as [e|] eqn:He; [|done]. by apply arr_get_replicate in He as ->.
  - done.
  - constructor.
    + intros k e ->%arr_get_replicate. by apply fresh_ntfn_wf.
    + intros i e ->%arr_get_replicate. by left.
    + intros k n b i ->%arr_get_replicate (_ & Ht & _). cbn in Ht. by rewrite Z.bits_0 in Ht.
Qed.

Context {W : Type} `{IK : !IrqKernel W}.

Lemma new_ops_fresh (cfg : irq_interface_config_t) (ty : irq_iface_type_t) (w w' : W) (c : irq_cookie_t) :
  new_irq_ops_common cfg ty w = Ok (Some c, w') -> c = fresh_cookie cfg ty.
Proof.
  intros H. unfold new_irq_ops_common in H.
  repeat (apply res_bind_ok in H as ([[? ?] ?] & _ & H); case_match; [inv_res|]). by inv_res.
Qed.
End setup.

(** ** Operations and histories *)

Inductive irq_op : Type :=
  | OpRegister (irq callback callback_data : Z)
  | OpRegisterMini (irq callback callback_data : Z)
  | OpUnregister (irq_id : Z)
  | OpAcknowledge (ack_data : Z)
  | OpProvide (ntfn usable_mask : Z)
  | OpProvideWithId (ntfn usable_mask id_hint : Z)
  | OpReturn (ntfn_id : Z)
  | OpSet (ntfn_id irq_id : Z)
  | OpUnset (irq_id : Z)
  | OpHandle (ntfn_id handle_mask : Z)
  | OpWait (ntfn_id wait_mask : Z)
  | OpPoll (ntfn_id poll_mask : Z).

Section spec.
Context {W : Type} `{IC : !IrqConstants} `{IL : !IrqConstantsLaws} `{IK : !IrqKernel W} `{KO : !KernelOps W} (vka : option (vka_t W)).
Context (sel4platsupport_copy_irq_cap : Z -> cspacepath_t -> M W Z)
  (run_callback : Z -> Z -> Z -> M (irq_state W) unit).
#[local] Notation St := (irq_state W).

Definition fst_of {A : Type} (m : M St (Z * A)) : M St Z := let! r := m in ret r.1.

Definition run_op (o : irq_op) : M St Z :=
  match o with
  | OpRegister irq cb data => sel4platsupport_irq_register vka sel4platsupport_copy_irq_cap irq cb data
  | OpRegisterMini irq cb data => sel4platsupport_irq_register_mini vka sel4platsupport_copy_irq_cap irq cb data
  | OpUnregister i => sel4platsupport_irq_unregister vka i
  | OpAcknowledge a => sel4platsupport_irq_acknowledge a
  | OpProvide ntfn mask => sel4platsupport_irq_provide_ntfn vka ntfn mask
  | OpProvideWithId ntfn mask k => sel4platsupport_irq_provide_ntfn_with_id vka ntfn mask k
  | OpReturn k => fst_of (sel4platsupport_irq_return_ntfn k)
  | OpSet k i => fst_of (sel4platsupport_irq_set_ntfn vka k i)
  | OpUnset i => sel4platsupport_irq_unset_ntfn vka i
  | OpHandle k mask => sel4platsupport_irq_handle run_callback k mask
  | OpWait k mask => fst_of (sel4platsupport_irq_wait run_callback k mask)
  | OpPoll k mask => fst_of (sel4platsupport_irq_poll run_callback k mask)
  end.

(** What the callers see to: the mini interface has its notification, a block to
    acknowledge with is one that was given out, masks are words, a number asked
    for is in range, and the bits handled or received are of interrupts that are
    paired. *)
Definition allowed (o : irq_op) (s : St) : Prop :=
  match o with
  | OpRegisterMini _ _ _ => ntfn_used (cookie s) MINI_IRQ_INTERFACE_NTFN_ID = true
  | OpAcknowledge a => a = 0 \/ is_Some (acks s !! a)
  | OpProvide _ mask => is_word mask
  | OpProvideWithId _ mask k => is_word mask /\ 0 <= k < max_ntfn_ids (cookie s)
  | OpHandle k mask => bits_bound (cookie s) k mask
  | OpWait k _ => forall p w b w', seL4_Wait p w = Ok (b, w') -> bits_bound (cookie s) k b
  | OpPoll k _ => forall p w b w', seL4_Poll p w = Ok (b, w') -> bits_bound (cookie s) k b
  | _ => True
  end.

Inductive history (s0 : St) : St -> Prop :=
  | history_start : history s0 s0
  | history_step s o r s' : history s0 s -> allowed o s -> run_op o s = Ok (r, s') -> history s0 s'.

Section env.
Context `{IE : !IrqEnvironment vka sel4platsupport_copy_irq_cap run_callback}.

Lemma fst_of_triple {A} (c : irq_cookie_t) (m : M St (Z * A)) (P : Z * A -> irq_cookie_t -> Prop) :
  triple c m P -> triple c (fst_of m) (fun r c' => exists x, P (r, x) c').
Proof. intros Hm. apply t_bind. eapply t_weaken; [exact Hm|]. intros [r x] c' H. apply t_ret. by exists x. Qed.

Lemma mini_keeps (c : irq_cookie_t) (irq cb data : Z) : irq_inv c -> ntfn_used c MINI_IRQ_INTERFACE_NTFN_ID = true ->
  triple c (sel4platsupport_irq_register_mini vka sel4platsupport_copy_irq_cap irq cb data) (fun _ c' => irq_inv c').
Proof.
  intros Hinv Hk. unfold sel4platsupport_irq_register_mini. apply t_bind.
  eapply t_weaken; [by eapply register_keeps|]. intros i c1 [Hinv1 Hr].
  destruct (Z.ltb_spec i 0) as [|Hi]; [by apply t_ret|]. destruct Hr as [[? _]|(Hr & (e & path & bits & _ & He & _ & ->) & _)]; [lia|].
  apply t_bind. eapply t_weaken; [eapply set_ntfn_common_keeps; [done|done|exact Hk|]|].
  - unfold irq_used. cbn [set_irq_ids irq_put set_irq_table irq_table]. rewrite get_set by (by eapply arr_get_range). by rewrite decide_True.
  - intros [err badge] c2 [Hinv2 _]. case_match; [|by apply t_ret].
    apply t_bind. eapply t_weaken; [by eapply unregister_keeps|]. intros e' c3 [Hinv3 _]. apply t_bind, t_fatal_if. by apply t_ret.
Qed.

Lemma acknowledge_keeps (a : Z) (s : St) : irq_inv (cookie s) -> a = 0 \/ is_Some (acks s !! a) ->
  match sel4platsupport_irq_acknowledge a s with Ok (_, s') => cookie s' = cookie s | Fault f => f = Fatal end.
Proof.
  intros Hinv Ha. unfold sel4platsupport_irq_acknowledge. destruct (Z.eqb_spec a 0); [done|].
  destruct Ha as [?|[i Hi]]; [done|]. unfold bind at 1. unfold gets at 1. cbn [res_bind id]. rewrite Hi.
  unfold bind at 1. unfold lift at 1. cbn [res_bind].
  match goal with |- match ?m s with _ => _ end => enough (H : triple (cookie s) m (fun _ c' => c' = cookie s)) by exact (H s eq_refl) end.
  set (c := cookie s) in *. apply t_bind. eapply (t_weaken _ _ (fun _ c' => c' = c)).
  - destruct (check_irq_id_is_valid c i) eqn:Hv; cbn [negb]; [|by apply t_ret].
    apply negb_true_iff, orb_false_iff in Hv as [Hv1%Z.ltb_ge Hv2%Z.leb_gt].
    destruct (irq_entry_at c i Hinv) as (e & He & Hal); [lia|].
    apply t_bind. eapply t_lift; [unfold check_irq_id_is_allocated; rewrite He; done|].
    case_match; [by apply t_ret|]. by repeat t_step.
  - intros r c' ->. apply t_bind, t_outside; [auto with tame|]. intros _. apply t_bind. intros s' Hs'. unfold modify. cbn [cookie].
    rewrite Hs'. by apply t_ret.
Qed.

(** Every operation keeps the invariant, and stops only where the program itself does. *)
Lemma run_op_ok (o : irq_op) (s : St) : irq_inv (cookie s) -> allowed o s ->
  match run_op o s with Ok (_, s') => irq_inv (cookie s') | Fault f => f = Fatal end.
Proof.
  intros Hinv Ha. destruct o as [irq cb data|irq cb data|i|a|ntfn mask|ntfn mask k|k|k i|i|k mask|k mask|k mask]; cbn [run_op allowed] in *.
  4: { pose proof (acknowledge_keeps a s Hinv Ha) as H. destruct (sel4platsupport_irq_acknowledge a s) as [[r s']|f]; [by rewrite H|done]. }
  all: match goal with |- match ?m ?s with _ => _ end => enough (H : triple (cookie s) m (fun _ c' => irq_inv c')) by exact (H s eq_refl) end.
  - eapply t_weaken; [by eapply register_keeps|by intros ? ? []].
  - by apply mini_keeps.
  - eapply t_weaken; [by eapply unregister_keeps|by intros ? ? []].
  - eapply t_weaken; [by eapply provide_ntfn_keeps|by intros ? ? []].
  - destruct Ha. eapply t_weaken; [by eapply provide_with_id_keeps|by intros ? ? []].
  - eapply t_weaken; [eapply fst_of_triple; by eapply return_keeps|by intros ? ? (? & [])].
  - eapply t_weaken; [eapply fst_of_triple; by eapply set_ntfn_keeps|by intros ? ? (? & [])].
  - eapply t_weaken; [by eapply unset_ntfn_keeps|by intros ? ? []].
  - by eapply handle_keeps.
  - eapply t_weaken; [eapply fst_of_triple; eapply receive_keeps; [done|done|by eapply wait_tame|done]|by intros ? ? (? & ?)].
  - eapply t_weaken; [eapply fst_of_triple; eapply receive_keeps; [done|done|by eapply poll_tame|done]|by intros ? ? (? & ?)].
Qed.

Lemma history_inv (s0 s : St) : irq_inv (cookie s0) -> history s0 s -> irq_inv (cookie s).
Proof.
  intros H0 H. induction H as [|s o r s' _ IH Ha Hrun]; [done|]. pose proof (run_op_ok o s IH Ha) as Hk. by rewrite Hrun in Hk.
Qed.

(** C9: after [sel4platsupport_new_irq_ops] with tables of a size the bitfields can
    number ([config_ok]), any operations in any order, each [allowed] where it is
    called: every further operation that is allowed returns with the tables, the
    bitfields and the counts in agreement and every interrupt paired with one bit
    that names it, or stops the program deliberately; no access is outside a
    table.  What is left out is what the code does not check: a mask with a bit
    that no interrupt is paired with reads outside the table of interrupts
    ([unset_bit_reads_outside]), and so does one from the kernel that holds such a
    bit; a table of notifications larger than [config_ok] asks for gives numbers
    outside it ([free_ntfn_beyond_table]); and the number a notification is asked
    to have and the block to acknowledge with are taken as given. *)
Theorem irq_histories_safe (cfg : irq_interface_config_t) (w w' : W) (c : irq_cookie_t) (s : St) (o : irq_op) :
  config_ok cfg -> sel4platsupport_new_irq_ops cfg w = Ok ((0, Some c), w') ->
  history (IrqState c ∅ w') s -> allowed o s ->
  irq_inv (cookie s) /\ match run_op o s with Ok (_, s') => irq_inv (cookie s') | Fault f => f = Fatal end.
Proof.
  intros Hcfg Hnew Hs Ha. unfold sel4platsupport_new_irq_ops in Hnew. case_match; [inv_res|].
  apply res_bind_ok in Hnew as ([[c'|] w1] & Hc & Hnew); inv_res.
  apply new_ops_fresh in Hc as ->. assert (Hinv : irq_inv (cookie s)) by (eapply history_inv; [|exact Hs]; by apply fresh_inv).
  split; [done|by apply run_op_ok].
Qed.

(** Registering: the first free number, an entry with what was given, and nothing else;
    or an error, and nothing changed. *)
Theorem irq_register_spec (irq cb data : Z) (s s' : St) (r : Z) :
  irq_inv (cookie s) -> sel4platsupport_irq_register vka sel4platsupport_copy_irq_cap irq cb data s = Ok (r, s') ->
  irq_inv (cookie s') /\
  ((r < 0 /\ cookie s' = cookie s) \/
   (0 <= r < max_irq_ids (cookie s) /\ registered (cookie s) (cookie s') r irq cb data /\
    forall j, 0 <= j < r -> irq_used (cookie s) j = true)).
Proof.
  intros Hinv Hrun. pose proof (register_keeps vka sel4platsupport_copy_irq_cap run_callback (IE := IE) (cookie s) irq cb data Hinv s eq_refl) as H.
  change (irq_register_common vka sel4platsupport_copy_irq_cap irq cb data s = Ok (r, s')) in Hrun. by rewrite Hrun in H.
Qed.

(** Returning a notification frees its number and leaves no interrupt paired with it. *)
Theorem return_ntfn_unpairs (k v : Z) (s s' : St) :
  irq_inv (cookie s) -> sel4platsupport_irq_return_ntfn k s = Ok ((0, v), s') ->
  irq_inv (cookie s') /\ ntfn_used (cookie s') k = false /\
  forall i e, arr_get (irq_table (cookie s')) i = Ok e -> paired_ntfn e <> k.
Proof.
  intros Hinv Hrun. pose proof (return_keeps vka sel4platsupport_copy_irq_cap run_callback (IE := IE) (cookie s) k Hinv s eq_refl) as H.
  rewrite Hrun in H. destruct H as (Hinv' & _ & Hu). destruct (Hu eq_refl) as [Hk Hun]. split_and!; [done|done|].
  intros i e He Hp. destruct (ta_irq _ _ (ii_tables _ Hinv') i e He) as [[Hup _]|(_ & n & Hn & _ & Ht & _)].
  - unfold UNPAIRED_ID in Hup. lia.
  - rewrite Hp in Hn. rewrite (ntfn_used_get _ _ _ Hn) in Hun.
    rewrite (nw_unused _ (ta_wf _ _ (ii_tables _ Hinv') _ _ Hn) Hun), Z.bits_0 in Ht. done.
Qed.

(** *** From the bit to the callback *)

Lemma load_ntfn_run (k : Z) (n : ntfn_entry_t) (s : St) : arr_get (ntfn_table (cookie s)) k = Ok n -> load_ntfn k s = Ok (n, s).
Proof. intros Hn. unfold load_ntfn, irq_cookie, gets, bind, lift. cbn [res_bind]. by rewrite Hn. Qed.
Lemma load_irq_run (i : Z) (e : irq_entry_t) (s : St) : arr_get (irq_table (cookie s)) i = Ok e -> load_irq i s = Ok (e, s).
Proof. intros He. unfold load_irq, irq_cookie, gets, bind, lift. cbn [res_bind]. by rewrite He. Qed.

(** The block for the acknowledgement of [i], then the callback. *)
Definition notify (i cb data : Z) : M St unit :=
  let! (error, ack) := outside (ps_calloc sizeof_ack_data_t) in
  let! _ := fatal_if error in
  let! _ := modify (fun s => IrqState (cookie s) (<[ack := i]> (acks s)) (world s)) in
  run_callback cb data ack.

Lemma callback_run (i : Z) (e : irq_entry_t) (s : St) : arr_get (irq_table (cookie s)) i = Ok e -> irq_callback_fn e <> 0 ->
  perform_callback run_callback i s = (let! _ := notify i (irq_callback_fn e) (callback_data e) in ret true) s.
Proof.
  intros He Hcb. unfold perform_callback, notify. rewrite (bind_ok _ _ _ _ _ (load_irq_run i e s He)).
  rewrite (proj2 (Z.eqb_neq _ _) Hcb). cbn [negb]. unfold bind. destruct (outside _ s) as [[[err a] s1]|f]; cbn [res_bind]; [|done].
  destruct (fatal_if err s1) as [[? s2]|f]; cbn [res_bind]; [|done]. done.
Qed.

Lemma notify_keeps (i cb data : Z) (s s' : St) : notify i cb data s = Ok (tt, s') -> cookie s' = cookie s.
Proof.
  unfold notify, outside, fatal_if. intros H. apply res_bind_ok in H as ([[err a] s1] & H1 & H).
  apply res_bind_ok in H1 as ([[? ?] w] & _ & H1). simplify_eq. destruct (err =? 0); cbn [negb] in H; [|done].
  change (run_callback cb data a (IrqState (cookie s) (<[a:=i]> (acks s)) w) = Ok (tt, s')) in H.
  pose proof (callback_tame _ _ _ cb data a (IrqState (cookie s) (<[a:=i]> (acks s)) w)) as Hcb. by rewrite H in Hcb.
Qed.

Lemma handle_one_bit (k b i : Z) (n : ntfn_entry_t) (e : irq_entry_t) (s : St) : irq_inv (cookie s) ->
  ntfn_used (cookie s) k = true -> arr_get (ntfn_table (cookie s)) k = Ok n -> names_irq n b i ->
  arr_get (irq_table (cookie s)) i = Ok e -> irq_callback_fn e <> 0 -> Z.testbit (pending_bitfield n) b = false ->
  sel4platsupport_irq_handle run_callback k (BIT b) s = (let! _ := notify i (irq_callback_fn e) (callback_data e) in ret 0) s.
Proof.
  intros Hinv Hk Hn (Hb & Ht & Hi) He Hcb Hp. pose proof (ta_wf _ _ (ii_tables _ Hinv) _ _ Hn) as Hw.
  unfold sel4platsupport_irq_handle. unfold bind at 1. unfold irq_cookie, gets. cbn [res_bind].
  rewrite (bind_ok _ _ _ _ _ (eq_trans (f_equal (fun r => res_bind r _) (bad_ntfn_id_spec _ k Hinv)) eq_refl)). rewrite Hk. cbn [negb].
  rewrite (bind_ok _ _ _ _ _ (load_ntfn_run k n s Hn)).
  assert (Hmask : Z.land (BIT b) (usable_mask n) = BIT b).
  { apply Z.bits_inj'. intros x Hx. rewrite Z.land_spec, BIT_testbit by done. case_bool_decide; [subst x|done]. by rewrite (nw_status _ Hw). }
  rewrite Hmask. change 64%nat with (S 63). generalize 63%nat. intros fuel. cbn [handle_loop].
  pose proof (BIT_pos b Hb) as Hpos. rewrite (proj2 (Z.eqb_neq (BIT b) 0)) by lia. rewrite CTZL_BIT by done.
  rewrite <- bind_assoc. rewrite (bind_ok _ _ _ _ _ (load_ntfn_run k n s Hn)).
  rewrite <- bind_assoc. rewrite (bind_ok (lift (arr_get (bound_irqs n) b)) _ s s i) by (unfold lift; by rewrite Hi).
  rewrite <- bind_assoc. pose proof (callback_run i e s He Hcb) as Hc. unfold bind at 1 in Hc.
  destruct (notify i (irq_callback_fn e) (callback_data e) s) as [[[] s']|f] eqn:Hnt; cbn [res_bind] in Hc.
  - rewrite (bind_ok _ _ _ _ _ Hc), (bind_ok _ _ _ _ _ Hnt). pose proof (notify_keeps _ _ _ _ _ Hnt) as Hs'.
    rewrite <- bind_assoc. rewrite (bind_ok _ _ _ _ _ (load_ntfn_run k n s' (eq_trans (f_equal (fun c => arr_get (ntfn_table c) k) Hs') Hn))).
    rewrite (proj2 (land_BIT_zero _ _ Hb) Hp). cbn [Z.eqb negb andb].
    assert (Hz : Z.land (BIT b) (wnot (BIT b)) = 0).
    { apply word_zero_testbit; [auto with word|]. intros x Hx. rewrite clear_bit_testbit, BIT_testbit by done.
      case_bool_decide; [subst; by rewrite Z.eqb_refl|done]. }
    rewrite Hz. by destruct fuel.
  - unfold bind at 1. rewrite Hc. unfold bind. by rewrite Hnt.
Qed.

(** C22: an interrupt that is registered and paired: handling the badge that pairing
    gave allocates a block that names the interrupt, runs its callback on its
    data, once, and nothing else. *)
Theorem paired_callback_runs (irq cb data k i badge : Z) (s s1 s2 : St) :
  irq_inv (cookie s) -> sel4platsupport_irq_register vka sel4platsupport_copy_irq_cap irq cb data s = Ok (i, s1) -> 0 <= i ->
  sel4platsupport_irq_set_ntfn vka k i s1 = Ok ((0, badge), s2) ->
  sel4platsupport_irq_handle run_callback k badge s2 = (let! _ := notify i cb data in ret 0) s2.
Proof.
  intros Hinv Hreg Hi Hset.
  pose proof (register_keeps vka sel4platsupport_copy_irq_cap run_callback (IE := IE) (cookie s) irq cb data Hinv s eq_refl) as H1.
  change (irq_register_common vka sel4platsupport_copy_irq_cap irq cb data s = Ok (i, s1)) in Hreg. rewrite Hreg in H1.
  destruct H1 as (Hinv1 & [[? _]|(_ & (e0 & path0 & bits & Hcb & He0 & _ & Hc1) & _)]); [lia|].
  pose proof (set_ntfn_keeps vka sel4platsupport_copy_irq_cap run_callback (IE := IE) (cookie s1) k i Hinv1 s1 eq_refl) as H2.
  rewrite Hset in H2. destruct H2 as (Hinv2 & [[Hlt _]|(_ & e & n & path & He & Hn & Hna & Hu & Hne & Hbadge & Hc2)]); [cbn in Hlt; lia|].
  cbn [snd] in Hbadge. pose proof (ta_wf _ _ (ii_tables _ Hinv1) _ _ Hn) as Hw. destruct (free_badge_index n Hw Hne) as (Hb & _ & Hsb).
  set (b := find_free_ntfn_badge_index n) in *. rewrite Hbadge.
  assert (Hce : irq_callback_fn e = cb /\ callback_data e = data).
  { rewrite Hc1 in He. cbn [set_irq_ids irq_put set_irq_table irq_table] in He.
    rewrite get_set, decide_True in He by (done || by eapply arr_get_range). by inv_res. }
  destruct Hce as [Hce Hde]. rewrite <- Hce, <- Hde.
  pose proof (arr_get_range _ _ _ He) as Hri. pose proof (arr_get_range _ _ _ Hn) as Hrk.
  assert (Hn2 : arr_get (ntfn_table (cookie s2)) k = Ok (binds n b i)).
  { rewrite Hc2. cbn [irq_put set_irq_table ntfn_put set_ntfn_table ntfn_table]. by rewrite get_set, decide_True. }
  assert (He2 : arr_get (irq_table (cookie s2)) i = Ok (with_pair path k b e)).
  { rewrite Hc2. cbn [irq_put set_irq_table ntfn_put set_ntfn_table irq_table]. by rewrite get_set, decide_True. }
  apply (handle_one_bit k b i (binds n b i) (with_pair path k b e)); [done| |done|by apply binds_names; [..|right]|done| |].
  - by rewrite (ntfn_used_get _ _ _ Hn2).
  - cbn. by rewrite Hce.
  - cbn [binds pending_bitfield]. destruct (Z.testbit (pending_bitfield n) b) eqn:Hpb; [|done]. by rewrite (nw_pending _ Hw) in Hsb.
Qed.
End env.
End spec.

(** ** A small system: the calls succeed, and callbacks are written to a list *)

Record toy_irqs : Type := ToyIrqs { ran : list (Z * Z); blocks : Z }.

(** [BSWAP_WORD] of a 64-bit word. *)
Definition swap_bytes (x : Z) : Z :=
  foldr (fun i acc => Z.lor acc (Z.shiftl (Z.land (Z.shiftr x (8 * i)) 255) (8 * (7 - i)))) 0 [0; 1; 2; 3; 4; 5; 6; 7].

#[export] Instance toy_irq_constants : IrqConstants := {|
  BSWAP_WORD := swap_bytes; POPCOUNTL := bits_of; irq_ALIGN_UP := fun x n => (x + n - 1) / n * n;
  sizeof_irq_cookie_t := 96; sizeof_irq_entry_t := 160; sizeof_ntfn_entry_t := 600; seL4_CapNull := 0; irq_AllRights := 15;
  MAX_INTERRUPTS_TO_NOTIFICATIONS := 64; irq_EINVAL := 22; ENOSPC := 28; ENOMEM := 12; EFAULT := 14; EMFILE := 24;
  EPERM := 1; EADDRINUSE := 98 |}.

#[export] Instance toy_irq_constants_laws : IrqConstantsLaws.
Proof. constructor; [done|intros x _ _; cbn; f_equal; f_equal; lia|cbn; lia]. Qed.

#[export] Instance toy_irq_cnodes : KernelOps toy_irqs := {|
  seL4_CNode_Delete _ _ _ := ret 0; seL4_CNode_Move _ _ _ _ _ _ := ret 0; seL4_Untyped_Retype _ _ _ _ _ _ _ _ := ret 0 |}.

(** The kernel signals bit 0. *)
#[export] Instance toy_irq_kernel : IrqKernel toy_irqs := {|
  seL4_CNode_Mint _ _ _ _ _ _ _ _ := ret 0; seL4_IRQHandler_SetNotification _ _ := ret 0; seL4_IRQHandler_Ack _ := ret 0;
  seL4_IRQHandler_Clear _ := ret 0; seL4_Wait _ := ret 1; seL4_Poll _ := ret 1;
  ps_calloc _ := fun w => Ok ((0, 4096 + 16 * blocks w), ToyIrqs (ran w) (blocks w + 1)); ps_free _ _ := ret tt |}.

Definition toy_irq_vka : option (vka_t toy_irqs) :=
  Some (Vka (Some (ret (0, Some 7))) (Some (fun slot => ret (Cspacepath slot 64 0 0 0 2 1))) None None None
    (Some (fun _ => ret tt)) None None).
Definition toy_copy_irq_cap (irq : Z) (path : cspacepath_t) : M toy_irqs Z := ret 0.
Definition toy_run_callback (f data ack : Z) : M (irq_state toy_irqs) unit :=
  modify (fun s => IrqState (cookie s) (acks s) (ToyIrqs (ran (world s) ++ [(f, data)]) (blocks (world s)))).

#[export] Instance toy_irq_environment : IrqEnvironment toy_irq_vka toy_copy_irq_cap toy_run_callback.
Proof. by constructor. Qed.

Definition toy_config : irq_interface_config_t := IrqConfig 3 2.
Lemma toy_config_ok : config_ok toy_config.
Proof. unfold config_ok, toy_config. cbn [config_max_irq_ids config_max_ntfn_ids]. dlia. Qed.

Definition toy_irq_start : irq_state toy_irqs := IrqState (fresh_cookie toy_config STANDARD_IFACE) ∅ (ToyIrqs [] 5).

Lemma toy_irq_start_inv : irq_inv (cookie toy_irq_start).
Proof. apply fresh_inv, toy_config_ok. Qed.

#[local] Notation toy_run := (run_op toy_irq_vka toy_copy_irq_cap toy_run_callback).
Definition state_after {A} (r : res (A * irq_state toy_irqs)) : irq_state toy_irqs := match r with Ok (_, s) => s | Fault _ => toy_irq_start end.

(** A notification for bits 0 and 1, an interrupt, and their pairing. *)
Definition toy_provided : irq_state toy_irqs := state_after (toy_run (OpProvide 9 3) toy_irq_start).
Definition toy_registered : irq_state toy_irqs := state_after (toy_run (OpRegister 33 77 5) toy_provided).
Definition toy_paired : irq_state toy_irqs := state_after (toy_run (OpSet 0 0) toy_registered).

Lemma toy_provided_history : history toy_irq_vka toy_copy_irq_cap toy_run_callback toy_irq_start toy_provided.
Proof. eapply (history_step _ _ _ _ _ (OpProvide 9 3) 0); [constructor|by split|by vm_compute]. Qed.

Lemma toy_provided_inv : irq_inv (cookie toy_provided).
Proof.
  apply (history_inv toy_irq_vka toy_copy_irq_cap toy_run_callback toy_irq_start); [apply toy_irq_start_inv|apply toy_provided_history].
Qed.

Lemma irq_histories_safe_witness :
  irq_inv (cookie toy_provided) /\
  match toy_run (OpRegister 33 77 5) toy_provided with Ok (_, s') => irq_inv (cookie s') | Fault f => f = Fatal end.
Proof.
  apply (irq_histories_safe toy_irq_vka toy_copy_irq_cap toy_run_callback toy_config (ToyIrqs [] 0) (ToyIrqs [] 5)
    (fresh_cookie toy_config STANDARD_IFACE) toy_provided (OpRegister 33 77 5)); [apply toy_config_ok|by vm_compute| |done].
  eapply (history_step _ _ _ _ _ (OpProvide 9 3) 0); [constructor|by split|by vm_compute].
Defined.

Lemma irq_register_spec_witness :
  irq_inv (cookie toy_registered) /\
  ((0 < 0 /\ cookie toy_registered = cookie toy_provided) \/
   (0 <= 0 < 3 /\ registered (cookie toy_provided) (cookie toy_registered) 0 33 77 5 /\
    forall j, 0 <= j < 0 -> irq_used (cookie toy_provided) j = true)).
Proof.
  apply (irq_register_spec toy_irq_vka toy_copy_irq_cap toy_run_callback 33 77 5 toy_provided toy_registered 0 toy_provided_inv).
  by vm_compute.
Defined.

(** The callback 77 of interrupt 33 is run, with its data. *)
Lemma paired_callback_runs_witness :
  sel4platsupport_irq_handle toy_run_callback 0 1 toy_paired = (let! _ := notify toy_run_callback 0 77 5 in ret 0) toy_paired /\
  ran (world (state_after (sel4platsupport_irq_handle toy_run_callback 0 1 toy_paired))) = [(77, 5)].
Proof.
  split; [|by vm_compute].
  apply (paired_callback_runs toy_irq_vka toy_copy_irq_cap toy_run_callback 33 77 5 0 0 1 toy_provided toy_registered toy_paired toy_provided_inv);
    [by vm_compute|lia|by vm_compute].
Defined.

Lemma toy_paired_inv : irq_inv (cookie toy_paired).
Proof.
  apply (history_inv toy_irq_vka toy_copy_irq_cap toy_run_callback toy_provided toy_paired toy_provided_inv).
  eapply (history_step _ _ _ _ toy_registered (OpSet 0 0) 0); [|done|by vm_compute].
  eapply (history_step _ _ _ _ toy_provided (OpRegister 33 77 5) 0); [constructor|done|by vm_compute].
Qed.

Definition toy_returned : irq_state toy_irqs := state_after (sel4platsupport_irq_return_ntfn 0 toy_paired).

Lemma return_ntfn_unpairs_witness :
  irq_inv (cookie toy_returned) /\ ntfn_used (cookie toy_returned) 0 = false /\
  forall i e, arr_get (irq_table (cookie toy_returned)) i = Ok e -> paired_ntfn e <> 0.
Proof.
  apply (return_ntfn_unpairs toy_irq_vka toy_copy_irq_cap toy_run_callback 0 9 toy_paired toy_returned toy_paired_inv).
  by vm_compute.
Defined.

(** ** What the interface does not see to *)

(** A notification that was just provided has no interrupts, and bit 1 is
    handled: the callback of interrupt 0 is run. *)
Example unbound_bit_runs_irq_0 :
  ran (world (state_after (sel4platsupport_irq_handle toy_run_callback 0 2 toy_registered))) = [(77, 5)].
Proof. by vm_compute. Qed.

(** Once the pairing of a bit was taken back, handling the bit reads before the table. *)
Example unset_bit_reads_outside :
  sel4platsupport_irq_handle toy_run_callback 0 1 (state_after (toy_run (OpUnset 0) toy_paired)) = Fault OutOfBounds.
Proof. by vm_compute. Qed.

(** 64 interrupts and 511 notifications, all in use but the last: the masked word
    is that of the interrupts, the search passes number 510 and gives 512. *)
Example free_ntfn_beyond_table :
  let bits := replicate 7 (2 ^ 64 - 1) ++ [2 ^ 62 - 1] ++ replicate 56 0 in
  find_free_ntfn_id (IrqCookie STANDARD_IFACE 0 510 64 511 8 64 (replicate 8 0) bits [] []) = Ok 512.
Proof. by vm_compute. Qed.

(** A bit that was left pending and arrives again, unserved, is pending no more. *)
Example pending_bit_lost :
  let s1 := state_after (serve_irq toy_run_callback 0 0 1 toy_paired) in
  let s2 := state_after (serve_irq toy_run_callback 0 0 1 s1) in
  ((fun n => pending_bitfield n) <$> ntfn_table (cookie s1) !! 0%nat, (fun n => pending_bitfield n) <$> ntfn_table (cookie s2) !! 0%nat)
    = (Some 1, Some 0).
Proof. by vm_compute. Qed.
