(* ===== verification/Simple.v ===== *)
(** libsel4simple (include/simple/simple.h, simple_helpers.h, src/simple.c and
    the x86 part) and libsel4simple-default: what a program finds out about the
    capabilities it was started with.  A [simple_t] is a table of functions,
    any of which may be missing; the default one reads the boot information.

    Configuration: x86_64 without IOMMU, in release mode (no messages). *)
From S2P Require Import Prelude Cspacepath Interfaces Objects Vka.

(** What libsel4 numbers: the first capabilities, error codes, rights, sizes. *)
Class BootConstants : Type := {
  seL4_CapNull : Z;
  seL4_CapInitThreadTCB : Z;
  seL4_CapInitThreadCNode : Z;
  seL4_CapInitThreadPD : Z;
  seL4_CapIRQControl : Z;
  seL4_CapInitThreadASIDPool : Z;
  seL4_CapIOPortControl : Z;
  seL4_CapIOSpace : Z;
  seL4_CapSMMUSIDControl : Z;
  seL4_CapInitThreadSC : Z;
  seL4_CapSMC : Z;
  seL4_NumInitialCaps : Z;
  seL4_BootInfoFrameSize : Z;
  seL4_InvalidArgument : Z;
  seL4_FailedLookup : Z;
  seL4_DeleteFirst : Z;
  seL4_AllRights : Z;
  CONFIG_IRQ_IOAPIC : bool
}.

(** The system calls, a header of the extended boot information (its [id] and
    [len]) and the copy of memory. *)
Class SimpleKernel (W : Type) : Type := {
  (* dest root, index, depth; source root, index, depth; rights *)
  seL4_CNode_Copy : Z -> Z -> Z -> Z -> Z -> Z -> Z -> M W Z;
  seL4_ARCH_ASIDPool_Assign : Z -> Z -> M W Z;
  seL4_IRQControl_Get : Z -> Z -> Z -> Z -> Z -> M W Z;
  seL4_IRQControl_GetIOAPIC : Z -> Z -> Z -> Z -> Z -> Z -> Z -> Z -> Z -> M W Z;
  seL4_IRQControl_GetMSI : Z -> Z -> Z -> Z -> Z -> Z -> Z -> Z -> Z -> M W Z;
  seL4_X86_IOPortControl_Issue : Z -> Z -> Z -> Z -> Z -> Z -> M W Z;
  read_BootInfoHeader : Z -> M W (Z * Z);
  simple_memcpy : Z -> Z -> Z -> M W unit;
  debug_print_bootinfo : M W unit
}.

(** libsel4's boot information: its address, the regions of capabilities, and the
    other fields that are read.  [schedcontrol] is there with mixed-criticality
    scheduling; [ioSpaceCaps] and [extraBIPages] are not read on x86. *)
Record seL4_SlotRegion : Type := SlotRegion { start : Z; end_ : Z }.
Record seL4_UntypedDesc : Type := UntypedDesc { paddr : Z; sizeBits : Z; isDevice : bool }.
Record seL4_BootInfo : Type := BootInfo {
  bi_address : Z;
  extraLen : Z;
  numNodes : Z;
  empty : seL4_SlotRegion;
  sharedFrames : seL4_SlotRegion;
  userImageFrames : seL4_SlotRegion;
  userImagePaging : seL4_SlotRegion;
  ioSpaceCaps : seL4_SlotRegion;
  extraBIPages : seL4_SlotRegion;
  schedcontrol : seL4_SlotRegion;
  untyped : seL4_SlotRegion;
  untypedList : list seL4_UntypedDesc;
  initThreadCNodeSizeBits : Z
}.

(** ** The table of functions *)

(** Functions over the rest of the system; those that write through pointers
    return what they wrote, if they did. *)
Record arch_simple_t (W : Type) : Type := ArchSimple {
  (* start port, end port, root, dest, depth *)
  IOPort_cap : option (Z -> Z -> Z -> Z -> Z -> M W Z);
  (* root, index, depth; bus, device, function, handle, vector *)
  msi : option (Z -> Z -> Z -> Z -> Z -> Z -> Z -> Z -> M W Z);
  (* irq, root, index, depth *)
  irq : option (Z -> Z -> Z -> Z -> M W Z);
  (* root, index, depth; ioapic, pin, level, polarity, vector *)
  ioapic : option (Z -> Z -> Z -> Z -> Z -> Z -> Z -> Z -> M W Z)
}.
Arguments ArchSimple {W} _ _ _ _.
Arguments IOPort_cap {W} _.
Arguments msi {W} _.
Arguments irq {W} _.
Arguments ioapic {W} _.

Record simple_t (W : Type) : Type := Simple {
  frame_cap : option (Z -> Z -> cspacepath_t -> M W Z);
  frame_mapping : option (Z -> Z -> M W Z);
  frame_info : option (Z -> Z -> M W (Z * option (Z * Z)));
  ASID_assign : option (Z -> M W Z);
  cap_count : option (M W Z);
  nth_cap : option (Z -> M W Z);
  init_cap : option (Z -> M W Z);
  cnode_size : option (M W Z);
  untyped_count : option (M W Z);
  (* the slot; size, address and whether it is a device's *)
  nth_untyped : option (Z -> M W (Z * option (Z * Z * bool)));
  userimage_count : option (M W Z);
  nth_userimage : option (Z -> M W Z);
  core_count : option (M W Z);
  print : option (M W unit);
  sched_ctrl : option (Z -> M W Z);
  extended_bootinfo_len : option (Z -> M W Z);
  extended_bootinfo : option (Z -> Z -> Z -> M W Z);
  arch_simple : arch_simple_t W
}.
Arguments Simple {W} _ _ _ _ _ _ _ _ _ _ _ _ _ _ _ _ _ _.
Arguments frame_cap {W} _.
Arguments frame_mapping {W} _.
Arguments frame_info {W} _.
Arguments ASID_assign {W} _.
Arguments cap_count {W} _.
Arguments nth_cap {W} _.
Arguments init_cap {W} _.
Arguments cnode_size {W} _.
Arguments untyped_count {W} _.
Arguments nth_untyped {W} _.
Arguments userimage_count {W} _.
Arguments nth_userimage {W} _.
Arguments core_count {W} _.
Arguments print {W} _.
Arguments sched_ctrl {W} _.
Arguments extended_bootinfo_len {W} _.
Arguments extended_bootinfo {W} _.
Arguments arch_simple {W} _.

Section wrappers.
Context {W : Type} `{BC : !BootConstants}.
#[local] Notation simple_ptr := (option (simple_t W)).

(** A missing table or function gives [missing]. *)
Definition simple_call {A F : Type} (missing : A) (field : simple_t W -> option F) (call : F -> M W A) (simple : simple_ptr) : M W A :=
  match simple with
  | None => ret missing
  | Some s => match field s with None => ret missing | Some f => call f end
  end.

Definition simple_get_frame_info (simple : simple_ptr) (paddr size_bits : Z) : M W (Z * option (Z * Z)) :=
  simple_call (0, None) frame_info (fun f => f paddr size_bits) simple.
Definition simple_get_frame_cap (simple : simple_ptr) (paddr size_bits : Z) (path : cspacepath_t) : M W Z :=
  simple_call seL4_InvalidArgument frame_cap (fun f => f paddr size_bits path) simple.
Definition simple_get_frame_vaddr (simple : simple_ptr) (paddr size_bits : Z) : M W Z :=
  simple_call 0 frame_mapping (fun f => f paddr size_bits) simple.
Definition simple_get_IRQ_control (simple : simple_ptr) (i : Z) (path : cspacepath_t) : M W Z :=
  simple_call seL4_InvalidArgument (fun s => irq (arch_simple s)) (fun f => f i (root path) (capPtr path) (capDepth path)) simple.
Definition simple_get_IRQ_handler (simple : simple_ptr) (i : Z) (path : cspacepath_t) : M W Z :=
  simple_call seL4_InvalidArgument (fun s => irq (arch_simple s)) (fun f => f i (root path) (capPtr path) (capDepth path)) simple.
Definition simple_ASIDPool_assign (simple : simple_ptr) (vspace : Z) : M W Z :=
  simple_call seL4_InvalidArgument ASID_assign (fun f => f vspace) simple.
Definition arch_simple_get_IOPort_cap (a : option (arch_simple_t W)) (start_port end_port root dest depth : Z) : M W Z :=
  match a with
  | None => ret seL4_InvalidArgument
  | Some a => match IOPort_cap a with None => ret seL4_InvalidArgument | Some f => f start_port end_port root dest depth end
  end.
Definition simple_get_IOPort_cap (simple : simple_ptr) (start_port end_port root dest depth : Z) : M W Z :=
  match simple with
  | None => ret seL4_InvalidArgument
  | Some s => arch_simple_get_IOPort_cap (Some (arch_simple s)) start_port end_port root dest depth
  end.

(** These three go on to call a missing function. *)
Definition arch_simple_get_msi (a : option (arch_simple_t W)) (path : cspacepath_t) (bus dev func handle vector : Z) : M W Z :=
  match a with
  | None => ret seL4_InvalidArgument
  | Some a => match msi a with
              | None => stop NullPointer
              | Some f => f (root path) (capPtr path) (capDepth path) bus dev func handle vector
              end
  end.
Definition arch_simple_get_ioapic (a : option (arch_simple_t W)) (path : cspacepath_t) (ioapic_ pin level polarity vector : Z) : M W Z :=
  match a with
  | None => ret seL4_InvalidArgument
  | Some a => match ioapic a with
              | None => stop NullPointer
              | Some f => f (root path) (capPtr path) (capDepth path) ioapic_ pin level polarity vector
              end
  end.
Definition simple_get_cap_count (simple : simple_ptr) : M W Z :=
  match simple with
  | None => ret (-1)
  | Some s => match cap_count s with None => stop NullPointer | Some f => f end
  end.

Definition simple_get_nth_cap (simple : simple_ptr) (n : Z) : M W Z := simple_call seL4_CapNull nth_cap (fun f => f n) simple.
Definition simple_get_cnode_size_bits (simple : simple_ptr) : M W Z := simple_call (-1) cnode_size (fun f => f) simple.
Definition simple_init_cap (simple : simple_ptr) (cap : Z) : M W Z := simple_call seL4_CapNull init_cap (fun f => f cap) simple.
Definition simple_get_cnode (simple : simple_ptr) : M W Z := simple_init_cap simple seL4_CapInitThreadCNode.
Definition simple_get_tcb (simple : simple_ptr) : M W Z := simple_init_cap simple seL4_CapInitThreadTCB.
Definition simple_get_sc `{!SeL4Constants} (simple : simple_ptr) : M W Z :=
  if CONFIG_KERNEL_MCS then simple_init_cap simple seL4_CapInitThreadSC else ret seL4_CapNull.
Definition simple_get_pd (simple : simple_ptr) : M W Z := simple_init_cap simple seL4_CapInitThreadPD.
Definition simple_get_irq_ctrl (simple : simple_ptr) : M W Z := simple_init_cap simple seL4_CapIRQControl.
Definition simple_get_init_cap (simple : simple_ptr) (cap : Z) : M W Z := simple_init_cap simple cap.
Definition simple_get_untyped_count (simple : simple_ptr) : M W Z := simple_call (-1) untyped_count (fun f => f) simple.
Definition simple_get_nth_untyped (simple : simple_ptr) (n : Z) : M W (Z * option (Z * Z * bool)) :=
  simple_call (seL4_CapNull, None) nth_untyped (fun f => f n) simple.
Definition simple_get_userimage_count (simple : simple_ptr) : M W Z := simple_call (-1) userimage_count (fun f => f) simple.
Definition simple_get_nth_userimage (simple : simple_ptr) (n : Z) : M W Z := simple_call seL4_CapNull nth_userimage (fun f => f n) simple.
Definition simple_get_core_count (simple : simple_ptr) : M W Z := simple_call (-1) core_count (fun f => f) simple.
Definition simple_print (simple : simple_ptr) : M W unit := simple_call tt print (fun f => f) simple.
Definition simple_get_sched_ctrl (simple : simple_ptr) (core : Z) : M W Z :=
  simple_call seL4_CapNull sched_ctrl (fun f =>
    let! n := simple_get_core_count simple in
    if n <=? core then ret seL4_CapNull else f core) simple.
Definition simple_get_extended_bootinfo_length (simple : simple_ptr) (type : Z) : M W Z :=
  simple_call (-1) extended_bootinfo_len (fun f => f type) simple.
Definition simple_get_extended_bootinfo (simple : simple_ptr) (type dest max_len : Z) : M W Z :=
  simple_call (-1) extended_bootinfo (fun f => f type dest max_len) simple.

(** ** Helpers: simple.c *)

(** The loops ask for the number they count to in every round; they take
    [fuel] rounds at most. *)
Fixpoint is_untyped_loop (fuel : nat) (simple : simple_ptr) (i pos : Z) : M W bool :=
  let! count := simple_get_untyped_count simple in
  if negb (i <? count) then ret false else
  match fuel with
  | O => stop OutOfFuel
  | S fuel =>
      let! (ut_pos, _) := simple_get_nth_untyped simple i in
      if ut_pos =? pos then ret true else is_untyped_loop fuel simple (i + 1) pos
  end.
Definition simple_is_untyped_cap (fuel : nat) (simple : simple_ptr) (pos : Z) : M W bool := is_untyped_loop fuel simple 0 pos.

Fixpoint last_cap_loop (fuel : nat) (simple : simple_ptr) (i largest : Z) : M W Z :=
  let! count := simple_get_cap_count simple in
  if negb (i <? count) then ret largest else
  match fuel with
  | O => stop OutOfFuel
  | S fuel =>
      let! cap := simple_get_nth_cap simple i in
      last_cap_loop fuel simple (i + 1) (if largest <? cap then cap else largest)
  end.
Definition simple_last_valid_cap (fuel : nat) (simple : simple_ptr) : M W Z := last_cap_loop fuel simple 0 0.

Context `{SK : !SimpleKernel W} `{KO : !KernelOps W}.

(** One try: a copy of the root into slot [cap_count + i]. *)
Definition try_slot (simple : simple_ptr) (cnode i : Z) : M W Z :=
  let! count := simple_get_cap_count simple in
  seL4_CNode_Copy cnode (wrap (count + i)) seL4_WordBits cnode cnode seL4_WordBits seL4_AllRights.

Fixpoint free_slot_loop (fuel : nat) (simple : simple_ptr) (cnode i error : Z) : M W (Z * Z) :=
  if error =? seL4_DeleteFirst then
    match fuel with
    | O => stop OutOfFuel
    | S fuel => let! error := try_slot simple cnode (i + 1) in free_slot_loop fuel simple cnode (i + 1) error
    end
  else ret (error, i).

(** The error, and the slot if it was written. *)
Definition simple_vka_cspace_alloc (fuel : nat) (simple : simple_ptr) : M W (Z * option Z) :=
  let! cnode := simple_get_cnode simple in
  let! error := try_slot simple cnode 0 in
  let! (error, i) := free_slot_loop fuel simple cnode 0 error in
  let! count := simple_get_cap_count simple in
  if negb (error =? seL4_NoError) then
    let! error := seL4_CNode_Delete cnode (wrap (count + i)) seL4_WordBits in ret (error, None)
  else
  let! error := seL4_CNode_Delete cnode (wrap (count + i)) seL4_WordBits in
  if negb (error =? seL4_NoError) then ret (error, None) else
  let! count := simple_get_cap_count simple in
  ret (seL4_NoError, Some (wrap (count + i))).

(** The field [window] of the path is not written: it is [w]. *)
Definition simple_vka_cspace_make_path (w : Z) (simple : simple_ptr) (slot : Z) : M W cspacepath_t :=
  let! cnode := simple_get_cnode simple in
  let! dest := simple_get_cnode simple in
  ret (Cspacepath slot seL4_WordBits cnode dest seL4_WordBits slot w).

(** The other fields of the [vka_t] stay as they were. *)
Definition simple_make_vka (fuel : nat) (simple : simple_ptr) (vka : vka_t W) : vka_t W :=
  Vka (Some (simple_vka_cspace_alloc fuel simple)) (Some (simple_vka_cspace_make_path 0 simple)) None None
    (utspace_alloc_at vka) None None (utspace_paddr vka).
End wrappers.

(** ** The default table: libsel4simple-default

    [bi] is the boot information behind the [data] pointer, which is not null. *)
Section default.
Context {W : Type} `{BC : !BootConstants} `{SC : !SeL4Constants} `{SK : !SimpleKernel W} `{KO : !KernelOps W}.
Context (bi : seL4_BootInfo).
#[local] Notation MW := (M W).

Definition region_size (r : seL4_SlotRegion) : Z := end_ r ⊟ start r.

Fixpoint frame_info_loop (n : nat) (i paddr_ size_bits : Z) : res (option (Z * Z)) :=
  match n with
  | O => Ok None
  | S n =>
      let? u := arr_get (untypedList bi) i in
      if (paddr u <=? paddr_) && ((paddr_ ⊞ BIT size_bits) <=? (paddr u ⊞ BIT (sizeBits u)))
      then Ok (Some (start (untyped bi) ⊞ i, paddr_ ⊟ paddr u))
      else frame_info_loop n (i + 1) paddr_ size_bits
  end.
Definition simple_default_get_frame_info (paddr_ size_bits : Z) : MW (Z * option (Z * Z)) :=
  let! _ := cassert (negb (paddr_ =? 0)) in
  let! r := lift (frame_info_loop (Z.to_nat (region_size (untyped bi))) 0 paddr_ size_bits) in
  ret (0, r).

Fixpoint frame_cap_loop (n : nat) (i paddr_ size_bits : Z) : res (option Z) :=
  match n with
  | O => Ok None
  | S n =>
      let? u := arr_get (untypedList bi) i in
      if (paddr u =? paddr_) && (size_bits <=? sizeBits u) then Ok (Some (start (untyped bi) ⊞ i))
      else frame_cap_loop n (i + 1) paddr_ size_bits
  end.
Definition simple_default_get_frame_cap (paddr_ size_bits : Z) (path : cspacepath_t) : MW Z :=
  let! _ := cassert (negb (paddr_ =? 0)) in
  let! ut := lift (frame_cap_loop (Z.to_nat (region_size (untyped bi))) 0 paddr_ size_bits) in
  match ut with
  | None => ret seL4_FailedLookup
  | Some ut =>
      seL4_Untyped_Retype ut (kobject_get_type KOBJECT_FRAME size_bits) size_bits (root path) (dest path) (destDepth path) (offset path) 1
  end.

Definition simple_default_get_frame_mapping (paddr_ size_bits : Z) : MW Z := ret 0.
Definition simple_default_set_ASID (vspace : Z) : MW Z := seL4_ARCH_ASIDPool_Assign seL4_CapInitThreadASIDPool vspace.

(** x86 has no capabilities for SMMU and SMC; I/O spaces and the scheduling
    context depend on the configuration. *)
Definition SIMPLE_SKIPPED_INIT_CAPS : Z := 4 + 1 + (if CONFIG_KERNEL_MCS then 0 else 1).
Definition SIMPLE_NUM_INIT_CAPS : Z := seL4_NumInitialCaps - SIMPLE_SKIPPED_INIT_CAPS.

Definition simple_default_cap_count : Z :=
  to_int (region_size (sharedFrames bi) ⊞ region_size (userImageFrames bi) ⊞ region_size (userImagePaging bi)
    ⊞ region_size (untyped bi) ⊞ SIMPLE_NUM_INIT_CAPS).

(** The first capabilities, numbered without those that this kernel has not. *)
Definition nth_init_cap (n : Z) : Z :=
  let c := wrap n ⊞ 1 in
  let c := if seL4_CapIOSpace <=? c then c ⊞ 1 else c in
  let c := if seL4_CapSMMUSIDControl <=? c then c ⊞ 2 else c in
  let c := if negb CONFIG_KERNEL_MCS && (seL4_CapInitThreadSC <=? c) then c ⊞ 1 else c in
  if seL4_CapSMC <=? c then c ⊞ 1 else c.

Definition simple_default_nth_cap (n : Z) : Z :=
  let shared_frame_range := region_size (sharedFrames bi) ⊞ SIMPLE_NUM_INIT_CAPS in
  let user_img_frame_range := region_size (userImageFrames bi) ⊞ shared_frame_range in
  let user_img_paging_range := region_size (userImagePaging bi) ⊞ user_img_frame_range in
  let untyped_range := region_size (untyped bi) ⊞ user_img_paging_range in
  if n <? SIMPLE_NUM_INIT_CAPS then nth_init_cap n
  else if wrap n <? shared_frame_range then start (sharedFrames bi) ⊞ (n - SIMPLE_NUM_INIT_CAPS)
  else if wrap n <? user_img_frame_range then start (userImageFrames bi) ⊞ (wrap n ⊟ shared_frame_range)
  else if wrap n <? user_img_paging_range then start (userImagePaging bi) ⊞ (wrap n ⊟ user_img_frame_range)
  else if wrap n <? untyped_range then start (untyped bi) ⊞ (wrap n ⊟ user_img_paging_range)
  else seL4_CapNull.

Definition simple_default_init_cap (cap_pos : Z) : Z := cap_pos.
(** A [uint8_t]. *)
Definition simple_default_cnode_size : Z := initThreadCNodeSizeBits bi mod 2 ^ 8.
Definition simple_default_untyped_count : Z := to_int (region_size (untyped bi)).

Definition simple_default_nth_untyped (n : Z) : res (Z * option (Z * Z * bool)) :=
  if wrap n <? region_size (untyped bi) then
    let? u := arr_get (untypedList bi) n in
    Ok (start (untyped bi) ⊞ n, Some (sizeBits u, paddr u, isDevice u))
  else Ok (seL4_CapNull, None).

Definition simple_default_userimage_count : Z := to_int (region_size (userImageFrames bi)).
Definition simple_default_nth_userimage (n : Z) : Z :=
  if wrap n <? region_size (userImageFrames bi) then start (userImageFrames bi) ⊞ n else seL4_CapNull.
Definition simple_default_core_count : Z := to_int (numNodes bi).
Definition simple_default_print : MW unit := debug_print_bootinfo.
Definition simple_default_sched_control (core : Z) : MW Z :=
  let! _ := cassert (core <? simple_default_core_count) in
  ret (if CONFIG_KERNEL_MCS then start (schedcontrol bi) ⊞ core else seL4_CapNull).

(** The walk over the headers of the extended boot information. *)
Fixpoint find_header (fuel : nat) (cur end__ type : Z) : MW (option (Z * Z)) :=
  if negb (cur <? end__) then ret None else
  match fuel with
  | O => stop OutOfFuel
  | S fuel =>
      let! (id, len) := read_BootInfoHeader cur in
      if id =? type then ret (Some (cur, len)) else find_header fuel (cur ⊞ len) end__ type
  end.
Definition extended_start : Z := bi_address bi ⊞ seL4_BootInfoFrameSize.
Definition simple_default_get_extended_bootinfo_size (fuel : nat) (type : Z) : MW Z :=
  let! h := find_header fuel extended_start (extended_start ⊞ extraLen bi) type in
  ret (match h with None => -1 | Some (_, len) => len end).
Definition simple_default_get_extended_bootinfo (fuel : nat) (type dest max_len : Z) : MW Z :=
  if max_len <? 0 then ret (-1) else
  let! h := find_header fuel extended_start (extended_start ⊞ extraLen bi) type in
  match h with
  | None => ret (-1)
  | Some (cur, len) =>
      let copy_len := Z.min len max_len in
      let! _ := simple_memcpy dest cur copy_len in ret copy_len
  end.

(** *** x86: arch/x86/default.c *)

Definition simple_default_get_ioapic (root index depth ioapic pin level polarity vector : Z) : MW Z :=
  seL4_IRQControl_GetIOAPIC seL4_CapIRQControl root index depth ioapic pin level polarity vector.
Definition simple_default_get_irq (irq root index depth : Z) : MW Z :=
  if CONFIG_IRQ_IOAPIC then
    let vector := irq in
    let irq := if irq =? 0 then 2 else irq in
    let level := if 16 <=? irq then 1 else 0 in
    let low_polarity := if 16 <=? irq then 1 else 0 in
    simple_default_get_ioapic root index depth 0 (wrap irq) level low_polarity (wrap vector)
  else seL4_IRQControl_Get seL4_CapIRQControl irq root index depth.
Definition simple_default_get_msi (root index depth bus dev func handle vector : Z) : MW Z :=
  seL4_IRQControl_GetMSI seL4_CapIRQControl root index depth bus dev func handle vector.
Definition simple_default_get_IOPort_cap (start_port end_port root dest depth : Z) : MW Z :=
  seL4_X86_IOPortControl_Issue seL4_CapIOPortControl start_port end_port root dest depth.
Definition simple_default_init_arch_simple : arch_simple_t W :=
  ArchSimple (Some simple_default_get_IOPort_cap) (Some simple_default_get_msi) (Some simple_default_get_irq)
    (Some simple_default_get_ioapic).

Definition simple_default_init_bootinfo (fuel : nat) : simple_t W :=
  Simple (Some simple_default_get_frame_cap) (Some simple_default_get_frame_mapping) (Some simple_default_get_frame_info)
    (Some simple_default_set_ASID) (Some (ret simple_default_cap_count)) (Some (fun n => ret (simple_default_nth_cap n)))
    (Some (fun c => ret (simple_default_init_cap c))) (Some (ret simple_default_cnode_size))
    (Some (ret simple_default_untyped_count)) (Some (fun n => lift (simple_default_nth_untyped n)))
    (Some (ret simple_default_userimage_count)) (Some (fun n => ret (simple_default_nth_userimage n)))
    (Some (ret simple_default_core_count)) (Some simple_default_print) (Some simple_default_sched_control)
    (Some (simple_default_get_extended_bootinfo_size fuel)) (Some (simple_default_get_extended_bootinfo fuel))
    simple_default_init_arch_simple.
End default.
