(* ===== verification/SimpleSpec.v ===== *)
(** What a program learns of the capabilities it was started with (Simple.v):
    the default table numbers each of those it is about once, and leaves out the
    others; what is built on it -
    the last capability, whether one is untyped, a free slot, the extended boot
    information - is right. *)
From S2P Require Import Prelude Cspacepath Interfaces Objects Vka Simple.

(** Removes the wrap-arounds of small sums, from the inside. *)
Ltac unwrap := repeat match goal with
  | |- context [wrap ?x] =>
      lazymatch x with
      | context [wrap _] => fail
      | _ => rewrite (wrap_small x) by (unfold is_word, word_size in *; repeat case_match; lia)
      end
  end.

(** The first capabilities as libsel4 numbers them. *)
Class BootLaws `{BC : !BootConstants} : Prop := {
  cap_null_law : seL4_CapNull = 0;
  cap_order_law : seL4_CapIOSpace = 8 /\ seL4_CapSMMUSIDControl = 12 /\ seL4_CapInitThreadSC = 14 /\ seL4_CapSMC = 15 /\
    seL4_NumInitialCaps = 16
}.

(** A region is after the first capabilities, unless it is empty. *)
Definition region_ok (r : seL4_SlotRegion) : Prop :=
  0 <= start r <= end_ r /\ end_ r < word_size /\ (start r < end_ r -> 16 <= start r).
Definition in_region (r : seL4_SlotRegion) (c : Z) : Prop := start r <= c < end_ r.
Definition regions_apart (r r' : seL4_SlotRegion) : Prop := forall c, in_region r c -> in_region r' c -> False.

(** Boot information as the kernel gives it. *)
Record boot_ok (bi : seL4_BootInfo) : Prop := {
  bo_shared : region_ok (sharedFrames bi);
  bo_frames : region_ok (userImageFrames bi);
  bo_paging : region_ok (userImagePaging bi);
  bo_untyped : region_ok (untyped bi);
  bo_apart : regions_apart (sharedFrames bi) (userImageFrames bi) /\ regions_apart (sharedFrames bi) (userImagePaging bi) /\
    regions_apart (sharedFrames bi) (untyped bi) /\ regions_apart (userImageFrames bi) (userImagePaging bi) /\
    regions_apart (userImageFrames bi) (untyped bi) /\ regions_apart (userImagePaging bi) (untyped bi);
  bo_total : (end_ (sharedFrames bi) - start (sharedFrames bi)) + (end_ (userImageFrames bi) - start (userImageFrames bi)) +
    (end_ (userImagePaging bi) - start (userImagePaging bi)) + (end_ (untyped bi) - start (untyped bi)) + 16 < 2 ^ 31;
  bo_list : Z.of_nat (length (untypedList bi)) = end_ (untyped bi) - start (untyped bi);
  bo_rest : forall r, r ∈ [ioSpaceCaps bi; extraBIPages bi; schedcontrol bi] -> region_ok r /\
    regions_apart r (sharedFrames bi) /\ regions_apart r (userImageFrames bi) /\
    regions_apart r (userImagePaging bi) /\ regions_apart r (untyped bi)
}.

Section spec.
Context `{BC : !BootConstants} `{BL : !BootLaws} `{SC : !SeL4Constants}.

(** The first capabilities that an x86 kernel without IOMMU gives. *)
Definition init_cap_given (c : Z) : Prop :=
  1 <= c < seL4_NumInitialCaps /\ c <> seL4_CapIOSpace /\ c <> seL4_CapSMMUSIDControl /\ c <> seL4_CapSMMUSIDControl + 1 /\
  (c = seL4_CapInitThreadSC -> CONFIG_KERNEL_MCS = true) /\ c <> seL4_CapSMC.

(** The capabilities that the default table is about. *)
Definition cap_listed (bi : seL4_BootInfo) (c : Z) : Prop :=
  init_cap_given c \/ in_region (sharedFrames bi) c \/ in_region (userImageFrames bi) c \/
  in_region (userImagePaging bi) c \/ in_region (untyped bi) c.

(** The others that the boot information gives. *)
Definition cap_left_out (bi : seL4_BootInfo) (c : Z) : Prop :=
  in_region (ioSpaceCaps bi) c \/ in_region (extraBIPages bi) c \/ (CONFIG_KERNEL_MCS = true /\ in_region (schedcontrol bi) c).

(** All that the kernel gives: the first ones, and those in the regions. *)
Definition cap_given (bi : seL4_BootInfo) (c : Z) : Prop := cap_listed bi c \/ cap_left_out bi c.

Definition caps_total (bi : seL4_BootInfo) : Z :=
  SIMPLE_NUM_INIT_CAPS + (end_ (sharedFrames bi) - start (sharedFrames bi)) + (end_ (userImageFrames bi) - start (userImageFrames bi)) +
  (end_ (userImagePaging bi) - start (userImagePaging bi)) + (end_ (untyped bi) - start (untyped bi)).

Lemma num_init_caps : SIMPLE_NUM_INIT_CAPS = if CONFIG_KERNEL_MCS then 11 else 10.
Proof.
  destruct cap_order_law as (_ & _ & _ & _ & H). unfold SIMPLE_NUM_INIT_CAPS, SIMPLE_SKIPPED_INIT_CAPS. rewrite H.
  by destruct CONFIG_KERNEL_MCS.
Qed.

Lemma region_size_eq (r : seL4_SlotRegion) : region_ok r -> region_size r = end_ r - start r.
Proof. intros (H1 & H2 & _). unfold region_size. apply wrap_small. unfold is_word. lia. Qed.

Lemma to_int_small (x : Z) : - 2 ^ 31 <= x < 2 ^ 31 -> to_int x = x.
Proof. intros H. unfold to_int. rewrite Z.mod_small by lia. lia. Qed.

Lemma cap_count_total (bi : seL4_BootInfo) : boot_ok bi -> simple_default_cap_count bi = caps_total bi.
Proof.
  intros [Hs Hf Hp Hu Ha Ht Hl _]. unfold simple_default_cap_count, caps_total. rewrite !region_size_eq by done. pose proof num_init_caps as Hn.
  destruct Hs as (? & ? & _), Hf as (? & ? & _), Hp as (? & ? & _), Hu as (? & ? & _).
  assert (10 <= SIMPLE_NUM_INIT_CAPS <= 11) by (rewrite Hn; destruct CONFIG_KERNEL_MCS; lia).
  unwrap. rewrite to_int_small; lia.
Qed.

(** The numbers of the first capabilities. *)
Lemma nth_init_cap_cases (n : Z) : 0 <= n < SIMPLE_NUM_INIT_CAPS ->
  nth_init_cap n = if n <? 7 then n + 1 else if n <? 10 then n + 2 else 14.
Proof.
  intros Hn. rewrite num_init_caps in Hn. destruct cap_order_law as (H1 & H2 & H3 & H4 & _).
  unfold nth_init_cap. rewrite H1, H2, H3, H4, (wrap_small n) by (destruct CONFIG_KERNEL_MCS; unfold is_word, word_size; lia).
  destruct CONFIG_KERNEL_MCS;
    unwrap; repeat (case_match; cbn [negb andb] in *; try lia).
Qed.

Lemma nth_init_cap_given (n : Z) : 0 <= n < SIMPLE_NUM_INIT_CAPS -> init_cap_given (nth_init_cap n).
Proof.
  intros Hn. rewrite nth_init_cap_cases by done. rewrite num_init_caps in Hn. destruct cap_order_law as (H1 & H2 & H3 & H4 & H5).
  unfold init_cap_given. rewrite H1, H2, H3, H4, H5. destruct CONFIG_KERNEL_MCS; repeat case_match; split_and!; lia || done.
Qed.

Lemma init_cap_numbered (c : Z) : init_cap_given c -> exists n, 0 <= n < SIMPLE_NUM_INIT_CAPS /\ nth_init_cap n = c.
Proof.
  destruct cap_order_law as (H1 & H2 & H3 & H4 & H5). unfold init_cap_given. rewrite H1, H2, H3, H4, H5.
  intros (Hc & ? & ? & ? & Hsc & ?). exists (if c <? 8 then c - 1 else if c <? 12 then c - 2 else 10).
  pose proof num_init_caps as Hn.
  assert (0 <= (if c <? 8 then c - 1 else if c <? 12 then c - 2 else 10) < SIMPLE_NUM_INIT_CAPS).
  { rewrite Hn. destruct CONFIG_KERNEL_MCS; repeat case_match; lia. }
  split; [done|]. rewrite nth_init_cap_cases by done. repeat (case_match; try lia).
Qed.

(** ** The numbering *)

Lemma nth_cap_cases (bi : seL4_BootInfo) (n : Z) : boot_ok bi -> 0 <= n < 2 ^ 31 ->
  let a := SIMPLE_NUM_INIT_CAPS in
  let b := a + (end_ (sharedFrames bi) - start (sharedFrames bi)) in
  let c := b + (end_ (userImageFrames bi) - start (userImageFrames bi)) in
  let d := c + (end_ (userImagePaging bi) - start (userImagePaging bi)) in
  simple_default_nth_cap bi n =
    if n <? a then nth_init_cap n
    else if n <? b then start (sharedFrames bi) + (n - a)
    else if n <? c then start (userImageFrames bi) + (n - b)
    else if n <? d then start (userImagePaging bi) + (n - c)
    else if n <? caps_total bi then start (untyped bi) + (n - d)
    else 0.
Proof.
  intros Hbi Hn a b c d. destruct Hbi as [Hs Hf Hp Hu _ Ht _ _]. unfold simple_default_nth_cap, caps_total. rewrite !region_size_eq by done.
  rewrite cap_null_law. pose proof num_init_caps as Hnum. destruct Hs as (? & ? & _), Hf as (? & ? & _), Hp as (? & ? & _), Hu as (? & ? & _).
  assert (10 <= SIMPLE_NUM_INIT_CAPS <= 11) by (rewrite Hnum; destruct CONFIG_KERNEL_MCS; lia).
  rewrite (wrap_small n) by (unfold is_word, word_size; lia). subst a b c d.
  clear Hnum. unwrap. repeat (match goal with |- context [?x <? ?y] => destruct (Z.ltb_spec x y) end; try lia); unwrap; lia.
Qed.

(** Splits the cases of a number. *)
Ltac by_cases := repeat (match goal with
  | H : context [if ?x <? ?y then _ else _] |- _ => destruct (Z.ltb_spec x y)
  | |- context [if ?x <? ?y then _ else _] => destruct (Z.ltb_spec x y)
  end; try lia).

Lemma caps_total_bound (bi : seL4_BootInfo) : boot_ok bi -> SIMPLE_NUM_INIT_CAPS <= caps_total bi < 2 ^ 31 /\ 10 <= SIMPLE_NUM_INIT_CAPS <= 11.
Proof.
  intros [(? & ? & ?) (? & ? & ?) (? & ? & ?) (? & ? & ?) _ Ht _ _]. unfold caps_total. pose proof num_init_caps as Hnum.
  assert (10 <= SIMPLE_NUM_INIT_CAPS <= 11) by (rewrite Hnum; destruct CONFIG_KERNEL_MCS; lia). lia.
Qed.

(** Capabilities are numbered: those given, each by one number below the count. *)
Lemma nth_cap_given (bi : seL4_BootInfo) (n : Z) : boot_ok bi -> 0 <= n < caps_total bi -> cap_listed bi (simple_default_nth_cap bi n).
Proof.
  intros Hbi Hn. pose proof (caps_total_bound bi Hbi) as [Hb Hi]. rewrite nth_cap_cases by (done || lia). cbn zeta. unfold cap_listed, in_region.
  destruct (Z.ltb_spec n SIMPLE_NUM_INIT_CAPS); [left; apply nth_init_cap_given; lia|right].
  destruct Hbi as [(? & ? & ?) (? & ? & ?) (? & ? & ?) (? & ? & ?) _ Ht _ _]. unfold caps_total in *. by_cases.
Qed.

Lemma nth_cap_numbers (bi : seL4_BootInfo) (c : Z) : boot_ok bi -> cap_listed bi c ->
  exists n, 0 <= n < caps_total bi /\ simple_default_nth_cap bi n = c.
Proof.
  intros Hbi Hc. pose proof (caps_total_bound bi Hbi) as [Hb Hi]. pose proof Hbi as [(? & ? & ?) (? & ? & ?) (? & ? & ?) (? & ? & ?) _ Ht _ _].
  unfold cap_listed, in_region in Hc. destruct Hc as [Hc|[Hc|[Hc|[Hc|Hc]]]].
  - destruct (init_cap_numbered c Hc) as (n & Hn & <-). exists n. split; [lia|]. rewrite nth_cap_cases by (done || lia). cbn zeta.
    by rewrite (proj2 (Z.ltb_lt n SIMPLE_NUM_INIT_CAPS)) by lia.
  - exists (SIMPLE_NUM_INIT_CAPS + (c - start (sharedFrames bi))).
    assert (0 <= SIMPLE_NUM_INIT_CAPS + (c - start (sharedFrames bi)) < caps_total bi) by (unfold caps_total; lia).
    split; [done|]. rewrite nth_cap_cases by (done || lia). cbn zeta. unfold caps_total in *. by_cases.
  - exists (SIMPLE_NUM_INIT_CAPS + (end_ (sharedFrames bi) - start (sharedFrames bi)) + (c - start (userImageFrames bi))).
    split; [unfold caps_total; lia|]. rewrite nth_cap_cases by (done || unfold caps_total in *; lia). cbn zeta. unfold caps_total in *. by_cases.
  - exists (SIMPLE_NUM_INIT_CAPS + (end_ (sharedFrames bi) - start (sharedFrames bi)) + (end_ (userImageFrames bi) - start (userImageFrames bi)) + (c - start (userImagePaging bi))).
    split; [unfold caps_total; lia|]. rewrite nth_cap_cases by (done || unfold caps_total in *; lia). cbn zeta. unfold caps_total in *. by_cases.
  - exists (SIMPLE_NUM_INIT_CAPS + (end_ (sharedFrames bi) - start (sharedFrames bi)) + (end_ (userImageFrames bi) - start (userImageFrames bi)) + (end_ (userImagePaging bi) - start (userImagePaging bi)) + (c - start (untyped bi))).
    split; [unfold caps_total; lia|]. rewrite nth_cap_cases by (done || unfold caps_total in *; lia). cbn zeta. unfold caps_total in *. by_cases.
Qed.

Lemma nth_init_cap_range (n : Z) : 0 <= n < SIMPLE_NUM_INIT_CAPS -> 1 <= nth_init_cap n < 16.
Proof. intros Hn. rewrite nth_init_cap_cases by done. rewrite num_init_caps in Hn. destruct CONFIG_KERNEL_MCS; by_cases. Qed.

Lemma nth_init_cap_inj (n m : Z) : 0 <= n < SIMPLE_NUM_INIT_CAPS -> 0 <= m < SIMPLE_NUM_INIT_CAPS ->
  nth_init_cap n = nth_init_cap m -> n = m.
Proof.
  intros Hn Hm. rewrite !nth_init_cap_cases by done. rewrite num_init_caps in Hn, Hm. intros H. destruct CONFIG_KERNEL_MCS; by_cases.
Qed.

Lemma nth_cap_inj (bi : seL4_BootInfo) (n m : Z) : boot_ok bi -> 0 <= n < caps_total bi -> 0 <= m < caps_total bi ->
  simple_default_nth_cap bi n = simple_default_nth_cap bi m -> n = m.
Proof.
  intros Hbi Hn Hm. pose proof (caps_total_bound bi Hbi) as [Hb Hi]. rewrite !nth_cap_cases by (done || lia). cbn zeta. intros H.
  pose proof (nth_init_cap_range n) as Hrn. pose proof (nth_init_cap_range m) as Hrm. pose proof (nth_init_cap_inj n m) as Hinj.
  pose proof Hbi as [(? & ? & ?) (? & ? & ?) (? & ? & ?) (? & ? & ?) (Hd1 & Hd2 & Hd3 & Hd4 & Hd5 & Hd6) Ht _ _]. unfold caps_total in *.
  unfold regions_apart, in_region in *.
  by_cases; try (apply Hinj; lia).
  all: match type of H with ?x = ?y => exfalso; first
    [ apply (Hd1 x); lia | apply (Hd1 y); lia | apply (Hd2 x); lia | apply (Hd2 y); lia | apply (Hd3 x); lia | apply (Hd3 y); lia
    | apply (Hd4 x); lia | apply (Hd4 y); lia | apply (Hd5 x); lia | apply (Hd5 y); lia | apply (Hd6 x); lia | apply (Hd6 y); lia
    | lia ] end.
Qed.

(** What is left out is none of those listed. *)
Lemma left_out_not_listed (bi : seL4_BootInfo) (c : Z) : boot_ok bi -> cap_left_out bi c -> ~ cap_listed bi c.
Proof.
  intros Hbi Hc. assert (Hr : exists r, r ∈ [ioSpaceCaps bi; extraBIPages bi; schedcontrol bi] /\ in_region r c).
  { destruct Hc as [?|[?|[_ ?]]]; eexists; (split; [|done]); rewrite !elem_of_cons; tauto. }
  destruct Hr as (r & Hr & Hin). destruct (bo_rest bi Hbi r Hr) as ((_ & _ & H16) & H1 & H2 & H3 & H4).
  destruct cap_order_law as (_ & _ & _ & _ & H5). unfold cap_listed, init_cap_given. rewrite H5.
  unfold regions_apart in *. intros [[Hi _]|[H|[H|[H|H]]]]; [|eauto..].
  unfold in_region in Hin. lia.
Qed.

(** C39: The default table numbers capabilities: 0, 1, ..., up to the count, give
    each of the first capabilities and of those in the four regions it is about
    ([cap_listed]), once; from the count on there is none.  Of all that the boot
    information gives these are all but those in the other regions: I/O spaces, the
    pages of the extended boot information and the control of scheduling have no
    number (see [extra_page_has_no_number] and [sched_control_has_no_number]). *)
Theorem nth_cap_enumerates (bi : seL4_BootInfo) : boot_ok bi ->
  simple_default_cap_count bi = caps_total bi /\
  (forall n, 0 <= n < simple_default_cap_count bi -> cap_listed bi (simple_default_nth_cap bi n)) /\
  (forall c, cap_listed bi c -> exists n, (0 <= n < simple_default_cap_count bi /\ simple_default_nth_cap bi n = c) /\
     forall m, 0 <= m < simple_default_cap_count bi -> simple_default_nth_cap bi m = c -> m = n) /\
  (forall n, simple_default_cap_count bi <= n < 2 ^ 31 -> simple_default_nth_cap bi n = seL4_CapNull) /\
  (forall c, cap_given bi c ->
     (exists n, 0 <= n < simple_default_cap_count bi /\ simple_default_nth_cap bi n = c) <-> ~ cap_left_out bi c).
Proof.
  intros Hbi. rewrite cap_count_total by done. split_and!; [done|auto using nth_cap_given| | |].
  - intros c Hc. destruct (nth_cap_numbers bi c Hbi Hc) as (n & Hn & Hnc). exists n. split; [done|].
    intros m Hm Hmc. apply (nth_cap_inj bi); [done..|congruence].
  - intros n Hn. pose proof (caps_total_bound bi Hbi). rewrite nth_cap_cases by (done || lia). cbn zeta. rewrite cap_null_law.
    pose proof Hbi as [(? & ? & ?) (? & ? & ?) (? & ? & ?) (? & ? & ?) _ Ht _ _]. unfold caps_total in *. by_cases.
  - intros c Hc. split.
    + intros (n & Hn & <-) Hleft. by apply (left_out_not_listed bi _ Hbi Hleft), nth_cap_given.
    + intros Hleft. destruct Hc as [Hc|]; [by apply nth_cap_numbers|done].
Qed.

(** The control of scheduling is found per core all the same. *)
Lemma sched_control_spec {W : Type} (bi : seL4_BootInfo) (core : Z) (w : W) :
  boot_ok bi -> 0 <= core < numNodes bi -> numNodes bi < 2 ^ 31 -> end_ (schedcontrol bi) - start (schedcontrol bi) = numNodes bi ->
  exists c, simple_default_sched_control bi core w = Ok (c, w) /\
    if CONFIG_KERNEL_MCS then in_region (schedcontrol bi) c /\ cap_left_out bi c else c = seL4_CapNull.
Proof.
  intros Hbi Hc Hn Hr. unfold simple_default_sched_control, simple_default_core_count. rewrite to_int_small by lia.
  rewrite (proj2 (Z.ltb_lt _ _)) by lia. eexists. split; [done|].
  destruct (bo_rest bi Hbi (schedcontrol bi)) as ((? & ? & ?) & _); [rewrite !elem_of_cons; tauto|].
  destruct CONFIG_KERNEL_MCS eqn:Hm; [|done]. rewrite wrap_small by (unfold is_word; lia).
  assert (Hin : in_region (schedcontrol bi) (start (schedcontrol bi) + core)) by (unfold in_region; lia).
  split; [done|]. right. by right.
Qed.

Section table.
Context {W : Type} `{SK : !SimpleKernel W} `{KO : !KernelOps W}.
#[local] Notation default bi := (Some (simple_default_init_bootinfo bi 0) : option (simple_t W)).

Lemma last_cap_loop_spec (bi : seL4_BootInfo) (fuel : nat) (i largest : Z) (w : W) :
  simple_default_cap_count bi - i <= Z.of_nat fuel ->
  exists m, last_cap_loop fuel (default bi) i largest w = Ok (m, w) /\ largest <= m /\
    (forall n, i <= n < simple_default_cap_count bi -> simple_default_nth_cap bi n <= m) /\
    (m = largest \/ exists n, i <= n < simple_default_cap_count bi /\ simple_default_nth_cap bi n = m).
Proof.
  revert i largest. induction fuel as [|fuel IH]; intros i largest Hf; cbn [last_cap_loop];
    unfold simple_get_cap_count at 1; cbn [simple_default_init_bootinfo cap_count]; unfold bind, ret at 1; cbn [res_bind];
    destruct (Z.ltb_spec i (simple_default_cap_count bi)) as [Hi|Hi]; cbn [negb].
  - lia.
  - exists largest. split_and!; [done|lia|lia|by left].
  - unfold simple_get_nth_cap, simple_call. cbn [nth_cap simple_default_init_bootinfo]. unfold ret at 1. cbn [res_bind].
    set (cap := simple_default_nth_cap bi i).
    destruct (IH (i + 1) (if largest <? cap then cap else largest)) as (m & Hrun & Hm & Hall & Hat); [lia|].
    exists m. split; [exact Hrun|]. destruct (Z.ltb_spec largest cap); (split_and!; [lia| |]).
    1, 3: intros n Hn; destruct (decide (n = i)) as [->|]; [fold cap; lia|apply Hall; lia].
    all: destruct Hat as [->|(n & Hn & <-)]; [|right; exists n; split; [lia|done]].
    + right. exists i. split; [lia|done].
    + by left.
  - exists largest. split_and!; [done|lia|lia|by left].
Qed.

(** The last capability is one of those listed, and no slot after it holds another. *)
Theorem last_valid_cap_spec (bi : seL4_BootInfo) (fuel : nat) (w : W) :
  boot_ok bi -> caps_total bi <= Z.of_nat fuel ->
  exists m, simple_last_valid_cap fuel (default bi) w = Ok (m, w) /\ cap_listed bi m /\ forall c, cap_listed bi c -> c <= m.
Proof.
  intros Hbi Hf. pose proof (caps_total_bound bi Hbi).
  destruct (last_cap_loop_spec bi fuel 0 0 w) as (m & Hrun & Hm & Hall & Hat); [rewrite cap_count_total by done; lia|].
  rewrite cap_count_total in Hall, Hat by done. exists m. split; [exact Hrun|]. split.
  - destruct Hat as [->|(n & Hn & <-)]; [|by apply nth_cap_given]. exfalso.
    assert (H0 : 0 <= 0 < SIMPLE_NUM_INIT_CAPS) by lia. specialize (Hall 0 ltac:(lia)).
    rewrite nth_cap_cases in Hall by (done || lia). cbn zeta in Hall. rewrite (proj2 (Z.ltb_lt _ _)) in Hall by lia.
    pose proof (nth_init_cap_range 0 H0). lia.
  - intros c Hc. destruct (nth_cap_numbers bi c Hbi Hc) as (n & Hn & <-). by apply Hall.
Qed.

Lemma is_untyped_loop_spec (bi : seL4_BootInfo) (fuel : nat) (i pos : Z) (w : W) : boot_ok bi -> 0 <= i ->
  end_ (untyped bi) - start (untyped bi) - i <= Z.of_nat fuel ->
  is_untyped_loop fuel (default bi) i pos w = Ok (bool_decide (start (untyped bi) + i <= pos < end_ (untyped bi)), w).
Proof.
  intros Hbi. pose proof Hbi as [(? & ? & ?) (? & ? & ?) (? & ? & ?) (? & ? & ?) _ Ht Hlen _].
  assert (Hc : simple_default_untyped_count bi = end_ (untyped bi) - start (untyped bi)).
  { unfold simple_default_untyped_count. rewrite region_size_eq by apply Hbi. apply to_int_small. lia. }
  revert i. induction fuel as [|fuel IH]; intros i Hi Hf; cbn [is_untyped_loop];
    unfold simple_get_untyped_count, simple_call; cbn [simple_default_init_bootinfo untyped_count]; unfold bind, ret at 1; cbn [res_bind];
    rewrite Hc; (destruct (Z.ltb_spec i (end_ (untyped bi) - start (untyped bi))); cbn [negb];
      [|rewrite bool_decide_eq_false_2 by lia; done]).
  - lia.
  - unfold simple_get_nth_untyped, simple_call. cbn [nth_untyped simple_default_init_bootinfo]. unfold lift, simple_default_nth_untyped.
    rewrite region_size_eq by apply Hbi. rewrite (wrap_small i) by (unfold is_word, word_size in *; lia). rewrite (proj2 (Z.ltb_lt _ _)) by done.
    destruct (arr_get_in (untypedList bi) i) as (u & -> & _); [lia|]. cbn [res_bind].
    rewrite wrap_small by (unfold is_word, word_size in *; lia). destruct (Z.eqb_spec (start (untyped bi) + i) pos) as [<-|Hne].
    + rewrite bool_decide_eq_true_2 by lia. done.
    + fold (@bind W). rewrite IH by lia. do 2 f_equal. apply bool_decide_ext. lia.
Qed.

(** A slot is said to hold an untyped when it does. *)
Theorem is_untyped_cap_spec (bi : seL4_BootInfo) (fuel : nat) (pos : Z) (w : W) :
  boot_ok bi -> caps_total bi <= Z.of_nat fuel ->
  simple_is_untyped_cap fuel (default bi) pos w = Ok (bool_decide (in_region (untyped bi) pos), w).
Proof.
  intros Hbi Hf. pose proof (caps_total_bound bi Hbi). unfold simple_is_untyped_cap. rewrite is_untyped_loop_spec; [|done|lia|].
  - do 2 f_equal. apply bool_decide_ext. unfold in_region. lia.
  - pose proof Hbi as [(? & ? & ?) (? & ? & ?) (? & ? & ?) (? & ? & ?) _ _ _ _]. unfold caps_total in Hf. lia.
Qed.

(** ** A free slot *)

(** What the kernel does for a root of [2 ^ bits] slots: a copy into an empty slot
    fills it, into another is refused; a delete empties a slot. *)
Class SlotsOfRoot (cnode bits : Z) : Type := {
  slot_full : W -> Z -> bool;
  delete_first_is_error : seL4_DeleteFirst <> seL4_NoError;
  copy_full_law : forall slot w, 0 <= slot < 2 ^ bits -> slot_full w slot = true ->
    seL4_CNode_Copy cnode slot seL4_WordBits cnode cnode seL4_WordBits seL4_AllRights w = Ok (seL4_DeleteFirst, w);
  copy_empty_law : forall slot w, 0 <= slot < 2 ^ bits -> slot_full w slot = false ->
    exists w', seL4_CNode_Copy cnode slot seL4_WordBits cnode cnode seL4_WordBits seL4_AllRights w = Ok (seL4_NoError, w') /\
      forall x, slot_full w' x = slot_full w x || (x =? slot);
  delete_slot_law : forall slot w, 0 <= slot < 2 ^ bits ->
    exists w', seL4_CNode_Delete cnode slot seL4_WordBits w = Ok (seL4_NoError, w') /\
      forall x, slot_full w' x = slot_full w x && negb (x =? slot)
}.

Lemma free_slot_loop_spec (bi : seL4_BootInfo) (bits : Z) `{SR : !SlotsOfRoot seL4_CapInitThreadCNode bits} (k fuel : nat) (i : Z) (w : W) :
  boot_ok bi -> 0 <= i -> 0 <= bits <= 64 -> caps_total bi + i + Z.of_nat k < 2 ^ bits -> (k <= fuel)%nat ->
  (forall x, caps_total bi + i <= x < caps_total bi + i + Z.of_nat k -> slot_full w x = true) ->
  slot_full w (caps_total bi + i + Z.of_nat k) = false ->
  exists w', (let! error := try_slot (default bi) seL4_CapInitThreadCNode i in
              free_slot_loop fuel (default bi) seL4_CapInitThreadCNode i error) w = Ok ((seL4_NoError, i + Z.of_nat k), w') /\
    forall x, slot_full w' x = slot_full w x || (x =? caps_total bi + i + Z.of_nat k).
Proof.
  intros Hbi Hi Hbits Hr Hfuel Hfull Hempty. pose proof (caps_total_bound bi Hbi) as [Hb Hnc].
  assert (Hpow : 2 ^ bits <= word_size) by (rewrite word_size_pow; apply Z.pow_le_mono_r; lia).
  revert i fuel Hi Hr Hfuel Hfull Hempty. induction k as [|k IH]; intros i fuel Hi Hr Hfuel Hfull Hempty.
  - change (Z.of_nat 0) with 0 in *. rewrite Z.add_0_r in *. unfold try_slot, simple_get_cap_count at 1. cbn [simple_default_init_bootinfo cap_count].
    unfold bind, ret at 1. cbn [res_bind]. rewrite cap_count_total by done. rewrite wrap_small by (unfold is_word; lia).
    destruct (copy_empty_law _ w (ltac:(lia) : 0 <= caps_total bi + i < 2 ^ bits) Hempty) as (w' & -> & Hw'). cbn [res_bind].
    exists w'. rewrite Z.add_0_r in *. split; [|done]. pose proof delete_first_is_error.
    destruct fuel; cbn [free_slot_loop]; destruct (Z.eqb_spec seL4_NoError seL4_DeleteFirst); done || congruence.
  - assert (Hnow : try_slot (default bi) seL4_CapInitThreadCNode i w = Ok (seL4_DeleteFirst, w)).
    { unfold try_slot, simple_get_cap_count. cbn [simple_default_init_bootinfo cap_count]. unfold bind, ret. cbn [res_bind].
      rewrite cap_count_total by done. rewrite wrap_small by (unfold is_word; lia). apply copy_full_law; [lia|]. apply Hfull. lia. }
    rewrite (bind_ok _ _ _ _ _ Hnow). destruct fuel as [|fuel]; [lia|]. cbn [free_slot_loop]. rewrite Z.eqb_refl.
    replace (caps_total bi + i + Z.of_nat (S k)) with (caps_total bi + (i + 1) + Z.of_nat k) in * by lia.
    replace (i + Z.of_nat (S k)) with (i + 1 + Z.of_nat k) by lia.
    apply IH; [lia|lia|lia| |done]. intros x Hx. apply Hfull. lia.
Qed.

(** Slots are handed out from the root itself: the first that is empty from the
    count of capabilities on, which stays empty. *)
Theorem simple_vka_cspace_alloc_spec (bi : seL4_BootInfo) (bits : Z) `{SR : !SlotsOfRoot seL4_CapInitThreadCNode bits} (fuel : nat) (k : nat) (w : W) :
  boot_ok bi -> 0 <= bits <= 64 -> caps_total bi + Z.of_nat k < 2 ^ bits -> (k <= fuel)%nat ->
  (forall x, caps_total bi <= x < caps_total bi + Z.of_nat k -> slot_full w x = true) ->
  slot_full w (caps_total bi + Z.of_nat k) = false ->
  exists w', simple_vka_cspace_alloc fuel (default bi) w = Ok ((seL4_NoError, Some (caps_total bi + Z.of_nat k)), w') /\
    forall x, slot_full w' x = slot_full w x.
Proof.
  intros Hbi Hbits Hr Hfuel Hfull Hempty. pose proof (caps_total_bound bi Hbi) as [Hb Hnc].
  assert (Hpow : 2 ^ bits <= word_size) by (rewrite word_size_pow; apply Z.pow_le_mono_r; lia).
  destruct (free_slot_loop_spec bi bits k fuel 0 w) as (w1 & Hrun & Hw1);
    [done|lia|lia|by rewrite Z.add_0_r|done|by rewrite Z.add_0_r|by rewrite Z.add_0_r|].
  rewrite Z.add_0_r in Hw1. unfold simple_vka_cspace_alloc.
  rewrite (bind_ok (simple_get_cnode (default bi)) _ w w seL4_CapInitThreadCNode) by done.
  rewrite bind_assoc. rewrite (bind_ok _ _ _ _ _ Hrun). cbn [Z.add].
  rewrite (bind_ok (simple_get_cap_count (default bi)) _ w1 w1 (caps_total bi))
    by (unfold simple_get_cap_count; cbn [simple_default_init_bootinfo cap_count]; rewrite cap_count_total by done; done).
  rewrite Z.eqb_refl. cbn [negb]. rewrite wrap_small by (unfold is_word; lia).
  destruct (delete_slot_law (caps_total bi + Z.of_nat k) w1) as (w2 & Hdel & Hw2); [lia|].
  rewrite (bind_ok _ _ _ _ _ Hdel), Z.eqb_refl. cbn [negb].
  rewrite (bind_ok (simple_get_cap_count (default bi)) _ w2 w2 (caps_total bi))
    by (unfold simple_get_cap_count; cbn [simple_default_init_bootinfo cap_count]; rewrite cap_count_total by done; done).
  rewrite wrap_small by (unfold is_word; lia). exists w2. split; [done|].
  intros x. rewrite Hw2, Hw1. destruct (Z.eqb_spec x (caps_total bi + Z.of_nat k)) as [->|]; [by rewrite Hempty|].
  by rewrite orb_false_r, andb_true_r.
Qed.

(** ** The extended boot information *)

(** Headers that follow each other from [cur] to [end__]. *)
Fixpoint headers_at (w : W) (cur : Z) (hs : list (Z * Z)) (end__ : Z) : Prop :=
  match hs with
  | [] => cur = end__
  | (id, len) :: hs => read_BootInfoHeader cur w = Ok ((id, len), w) /\ 0 < len /\ headers_at w (cur + len) hs end__
  end.

(** The first header of a type, with its address. *)
Fixpoint first_header (cur : Z) (hs : list (Z * Z)) (type : Z) : option (Z * Z) :=
  match hs with
  | [] => None
  | (id, len) :: hs => if id =? type then Some (cur, len) else first_header (cur + len) hs type
  end.

Lemma headers_end (w : W) (cur : Z) (hs : list (Z * Z)) (end__ : Z) : headers_at w cur hs end__ -> cur <= end__.
Proof.
  revert cur. induction hs as [|[id len] hs IH]; intros cur; cbn [headers_at]; [lia|]. intros (_ & Hl & H). specialize (IH _ H). lia.
Qed.

Lemma find_header_spec (w : W) (fuel : nat) (cur end__ type : Z) (hs : list (Z * Z)) : 0 <= cur -> end__ < word_size ->
  headers_at w cur hs end__ -> (length hs <= fuel)%nat ->
  find_header fuel cur end__ type w = Ok (first_header cur hs type, w).
Proof.
  intros Hc He. revert cur fuel Hc. induction hs as [|[id len] hs IH]; intros cur fuel Hc Hh Hf; cbn [headers_at first_header length] in *.
  - destruct fuel; cbn [find_header]; rewrite (proj2 (Z.ltb_ge _ _)) by lia; done.
  - destruct Hh as (Hrd & Hl & Hh). pose proof (headers_end _ _ _ _ Hh). destruct fuel as [|fuel]; [lia|]. cbn [find_header].
    rewrite (proj2 (Z.ltb_lt _ _)) by lia. cbn [negb]. rewrite (bind_ok _ _ _ _ _ Hrd). destruct (id =? type); [done|].
    rewrite wrap_small by (unfold is_word; lia). apply IH; [lia|done|lia].
Qed.

(** The extended boot information is searched to its end: the length of the first
    header of the type, and as much of it as there is room for. *)
Theorem extended_bootinfo_spec (bi : seL4_BootInfo) (fuel : nat) (hs : list (Z * Z)) (type dest max_len : Z) (w : W) :
  0 <= bi_address bi -> 0 <= seL4_BootInfoFrameSize -> 0 <= max_len ->
  bi_address bi + seL4_BootInfoFrameSize + extraLen bi < word_size -> 0 <= extraLen bi ->
  headers_at w (bi_address bi + seL4_BootInfoFrameSize) hs (bi_address bi + seL4_BootInfoFrameSize + extraLen bi) ->
  (length hs <= fuel)%nat ->
  match first_header (bi_address bi + seL4_BootInfoFrameSize) hs type with
  | None => simple_default_get_extended_bootinfo_size bi fuel type w = Ok (-1, w) /\
            simple_default_get_extended_bootinfo bi fuel type dest max_len w = Ok (-1, w)
  | Some (cur, len) => simple_default_get_extended_bootinfo_size bi fuel type w = Ok (len, w) /\
            simple_default_get_extended_bootinfo bi fuel type dest max_len w =
              (let! _ := simple_memcpy dest cur (Z.min len max_len) in ret (Z.min len max_len)) w
  end.
Proof.
  intros Ha Hs Hm Hend Hx Hh Hf.
  assert (Hfind : find_header fuel (extended_start bi) (extended_start bi ⊞ extraLen bi) type w =
    Ok (first_header (bi_address bi + seL4_BootInfoFrameSize) hs type, w)).
  { unfold extended_start. rewrite (wrap_small (bi_address bi + _)) by (unfold is_word; lia).
    rewrite wrap_small by (unfold is_word; lia). by apply find_header_spec; [lia| | |]. }
  unfold simple_default_get_extended_bootinfo_size, simple_default_get_extended_bootinfo.
  rewrite (proj2 (Z.ltb_ge max_len 0)) by lia. rewrite !(bind_ok _ _ _ _ _ Hfind).
  by destruct (first_header _ hs type) as [[cur len]|].
Qed.
End table.
End spec.

(** ** A small system *)

#[export] Instance libsel4_boot_constants : BootConstants := {|
  seL4_CapNull := 0; seL4_CapInitThreadTCB := 1; seL4_CapInitThreadCNode := 2; seL4_CapInitThreadPD := 3;
  seL4_CapIRQControl := 4; seL4_CapInitThreadASIDPool := 6; seL4_CapIOPortControl := 7; seL4_CapIOSpace := 8;
  seL4_CapSMMUSIDControl := 12; seL4_CapInitThreadSC := 14; seL4_CapSMC := 15; seL4_NumInitialCaps := 16;
  seL4_BootInfoFrameSize := 4096; seL4_InvalidArgument := 1; seL4_FailedLookup := 6; seL4_DeleteFirst := 8;
  seL4_AllRights := 15; CONFIG_IRQ_IOAPIC := true |}.

#[export] Instance libsel4_boot_laws : BootLaws.
Proof. by constructor. Qed.

(** The slots that are full, and the headers by address.  Slot 63 is the last. *)
Record toy_boot : Type := ToyBoot { tb_full : gset Z; tb_headers : gmap Z (Z * Z) }.

#[export] Instance toy_boot_kernel : SimpleKernel toy_boot := {|
  seL4_CNode_Copy _ slot _ _ _ _ _ w :=
    if 64 <=? slot then Ok (seL4_FailedLookup, w)
    else if bool_decide (slot ∈ tb_full w) then Ok (seL4_DeleteFirst, w) else Ok (0, ToyBoot ({[slot]} ∪ tb_full w) (tb_headers w));
  seL4_ARCH_ASIDPool_Assign _ _ := ret 0; seL4_IRQControl_Get _ _ _ _ _ := ret 0;
  seL4_IRQControl_GetIOAPIC _ _ _ _ _ _ _ _ _ := ret 0; seL4_IRQControl_GetMSI _ _ _ _ _ _ _ _ _ := ret 0;
  seL4_X86_IOPortControl_Issue _ _ _ _ _ _ := ret 0;
  read_BootInfoHeader a w := match tb_headers w !! a with Some h => Ok (h, w) | None => Fault OutOfBounds end;
  simple_memcpy _ _ _ := ret tt; debug_print_bootinfo := ret tt |}.

#[export] Instance toy_boot_cnodes : KernelOps toy_boot := {|
  seL4_CNode_Delete _ slot _ w := Ok (0, ToyBoot (tb_full w ∖ {[slot]}) (tb_headers w));
  seL4_CNode_Move _ _ _ _ _ _ := ret 0; seL4_Untyped_Retype _ _ _ _ _ _ _ _ := ret 0 |}.

#[export] Program Instance toy_boot_slots : SlotsOfRoot (W := toy_boot) seL4_CapInitThreadCNode 6 :=
  {| slot_full w x := bool_decide (x ∈ tb_full w) |}.
Next Obligation. done. Qed.
Next Obligation.
  intros slot w Hs Hf. cbn [seL4_CNode_Copy toy_boot_kernel]. destruct (Z.leb_spec 64 slot); [lia|]. by rewrite Hf.
Qed.
Next Obligation.
  intros slot w Hs Hf. cbn [seL4_CNode_Copy toy_boot_kernel]. destruct (Z.leb_spec 64 slot); [lia|]. rewrite Hf.
  eexists. split; [done|]. intros x. cbn [tb_full]. apply bool_decide_eq_false in Hf.
  destruct (Z.eqb_spec x slot) as [->|]; [rewrite orb_true_r|rewrite orb_false_r];
    [apply bool_decide_eq_true; set_solver|apply bool_decide_ext; set_solver].
Qed.
Next Obligation.
  intros slot w Hs. eexists. split; [done|]. intros x. cbn [tb_full].
  destruct (Z.eqb_spec x slot) as [->|]; [rewrite andb_false_r; apply bool_decide_eq_false; set_solver|].
  rewrite andb_true_r. apply bool_decide_ext. set_solver.
Qed.

(** 10 first capabilities, 2 shared frames, 3 of the image, 1 paging structure and 2
    untypeds; a page of the extended boot information in slot 24. *)
Definition toy_bootinfo : seL4_BootInfo :=
  BootInfo 8192 32 1 (SlotRegion 26 64) (SlotRegion 16 18) (SlotRegion 18 21) (SlotRegion 21 22)
    (SlotRegion 0 0) (SlotRegion 24 25) (SlotRegion 25 26) (SlotRegion 22 24)
    [UntypedDesc 4096 12 false; UntypedDesc 8192 13 true] 6.
Definition toy_boot_world : toy_boot := ToyBoot {[18; 19; 20]} (<[12288 := (3, 16)]> (<[12304 := (5, 16)]> ∅)).

Lemma toy_bootinfo_ok : boot_ok toy_bootinfo.
Proof.
  constructor; unfold region_ok, regions_apart, in_region, word_size; cbn; try lia.
  - split_and!; intros c; lia.
  - intros r. rewrite !elem_of_cons, elem_of_nil. intros [->|[->|[->|[]]]]; cbn; split_and!; try lia; intros c; lia.
Qed.

Lemma nth_cap_enumerates_witness :
  simple_default_cap_count toy_bootinfo = 18 /\
  (forall n, 0 <= n < simple_default_cap_count toy_bootinfo -> cap_listed toy_bootinfo (simple_default_nth_cap toy_bootinfo n)).
Proof. split; [by vm_compute|]. apply (nth_cap_enumerates toy_bootinfo toy_bootinfo_ok). Defined.

(** The last one is the untyped in slot 23. *)
Lemma last_valid_cap_spec_witness :
  exists m, simple_last_valid_cap 18 (Some (simple_default_init_bootinfo toy_bootinfo 0)) toy_boot_world = Ok (m, toy_boot_world) /\
    cap_listed toy_bootinfo m /\ forall c, cap_listed toy_bootinfo c -> c <= m.
Proof. apply (last_valid_cap_spec toy_bootinfo 18 toy_boot_world toy_bootinfo_ok). by vm_compute. Defined.

Lemma is_untyped_cap_spec_witness :
  simple_is_untyped_cap 18 (Some (simple_default_init_bootinfo toy_bootinfo 0)) 22 toy_boot_world = Ok (true, toy_boot_world).
Proof. apply (is_untyped_cap_spec toy_bootinfo 18 22 toy_boot_world toy_bootinfo_ok). by vm_compute. Defined.

(** Slots 18, 19 and 20 are full: slot 21 is handed out. *)
Lemma simple_vka_cspace_alloc_spec_witness :
  exists w', simple_vka_cspace_alloc 3 (Some (simple_default_init_bootinfo toy_bootinfo 0)) toy_boot_world = Ok ((0, Some 21), w') /\
    forall x, slot_full w' x = slot_full toy_boot_world x.
Proof.
  change 21 with (caps_total toy_bootinfo + Z.of_nat 3).
  apply (simple_vka_cspace_alloc_spec toy_bootinfo 6 3 3 toy_boot_world toy_bootinfo_ok); [lia|by vm_compute|lia| |by vm_compute].
  change (caps_total toy_bootinfo) with 18. intros x Hx. cbn. apply bool_decide_eq_true.
  assert (x = 18 \/ x = 19 \/ x = 20) as [->|[->| ->]] by lia; set_solver.
Defined.

Lemma extended_bootinfo_spec_witness :
  simple_default_get_extended_bootinfo_size toy_bootinfo 2 5 toy_boot_world = Ok (16, toy_boot_world) /\
  simple_default_get_extended_bootinfo toy_bootinfo 2 5 0 10 toy_boot_world =
    (let! _ := simple_memcpy 0 12304 10 in ret 10) toy_boot_world.
Proof.
  assert (Hh : headers_at toy_boot_world (bi_address toy_bootinfo + seL4_BootInfoFrameSize) [(3, 16); (5, 16)]
    (bi_address toy_bootinfo + seL4_BootInfoFrameSize + extraLen toy_bootinfo)) by (by split_and!).
  assert (Hl : (length [(3, 16); (5, 16)] <= 2)%nat) by (cbn; lia).
  exact (extended_bootinfo_spec toy_bootinfo 2 [(3, 16); (5, 16)] 5 0 10 toy_boot_world
    ltac:(done) ltac:(done) ltac:(done) ltac:(done) ltac:(done) Hh Hl).
Defined.

(** ** What it does not see to *)

(** The page of the extended boot information was given, and has no number. *)
Example extra_page_has_no_number : cap_given toy_bootinfo 24 /\
  ~ exists n, 0 <= n < simple_default_cap_count toy_bootinfo /\ simple_default_nth_cap toy_bootinfo n = 24.
Proof.
  assert (Hl : cap_left_out toy_bootinfo 24) by (right; left; unfold in_region; cbn; lia).
  split; [by right|]. intros (n & Hn & Heq). apply (left_out_not_listed toy_bootinfo 24 toy_bootinfo_ok Hl).
  rewrite <- Heq. apply nth_cap_given; [exact toy_bootinfo_ok|]. by rewrite <- (cap_count_total toy_bootinfo toy_bootinfo_ok).
Qed.

(** With mixed-criticality scheduling, neither has the control of scheduling of the
    first core, which the table gives when asked for it. *)
Example sched_control_has_no_number `{SC : !SeL4Constants} : CONFIG_KERNEL_MCS = true ->
  simple_default_sched_control toy_bootinfo 0 toy_boot_world = Ok (25, toy_boot_world) /\
  ~ exists n, 0 <= n < simple_default_cap_count toy_bootinfo /\ simple_default_nth_cap toy_bootinfo n = 25.
Proof.
  intros Hm. split; [by unfold simple_default_sched_control; rewrite Hm|]. intros (n & Hn & Heq).
  assert (Hl : cap_left_out toy_bootinfo 25) by (right; right; split; [done|unfold in_region; cbn; lia]).
  apply (left_out_not_listed toy_bootinfo 25 toy_bootinfo_ok Hl).
  rewrite <- Heq. apply nth_cap_given; [exact toy_bootinfo_ok|]. by rewrite <- (cap_count_total toy_bootinfo toy_bootinfo_ok).
Qed.

(** From slot 64 on a copy fails; the delete succeeds, and so does the allocation,
    without a slot. *)
Example no_slot_is_success :
  simple_vka_cspace_alloc 50 (Some (simple_default_init_bootinfo toy_bootinfo 0))
    (ToyBoot (list_to_set (Z.of_nat <$> seq 0 64)) ∅) = Ok ((0, None), ToyBoot (list_to_set (Z.of_nat <$> seq 0 64)) ∅).
Proof. by vm_compute. Qed.

(** A header of length 0 is read for ever. *)
Example empty_header_loops (fuel : nat) :
  find_header fuel 12288 12320 7 (ToyBoot ∅ {[12288 := (3, 0)]}) = Fault OutOfFuel.
Proof. induction fuel as [|fuel IH]; [done|exact IH]. Qed.

(** A table without a count has it called nevertheless. *)
Example missing_count_is_called (s : simple_t toy_boot) (w : toy_boot) :
  cap_count s = None -> simple_get_cap_count (Some s) w = Fault NullPointer.
Proof. intros H. unfold simple_get_cap_count. by rewrite H. Qed.
