(* ===== verification/Bootstrap.v ===== *)
(** libsel4allocman/src/bootstrap.c: how an allocation manager starts.  From a
    pool of memory and a record of what the program was given - a root of slots
    and untyped memory - it makes a manager (Allocman.v) with an allocator of
    slots and one of untypeds, in the current root or in a new one.

    The structures of the allocators are modelled in files of their own
    (SingleLevel.v, TwoLevel.v, Simple1Level.v, Split.v, Pools.v), each with its
    own view of memory.  Here they are behind an interface, [BootAllocators]:
    functions that set one up at an address and give its interface; the manager
    takes any. *)
From S2P Require Import Prelude Cspacepath Interfaces Objects Vka SingleLevel TwoLevel Simple1Level Allocman Simple.

(** ** What it calls *)

Record bootstrap_config : Type := BootstrapConfig {
  sizeof_bootstrap_info_t : Z;
  sizeof_allocman_t : Z;
  sizeof_mspace_dual_pool_t : Z;
  sizeof_cspace_single_level_t : Z;
  sizeof_cspace_two_level_t : Z;
  sizeof_cspace_simple1level_t : Z;
  sizeof_utspace_split_t : Z;
  sizeof_add_untypeds_state_t : Z;
  sizeof_pmem_region_t : Z;
  seL4_MaxUntypedBits : Z;
  PMEM_TYPE_RAM : Z
}.

(** Kernel calls that only starting up makes, and the memory regions of the platform. *)
Class BootKernel (W : Type) : Type := {
  (* dest root, index, depth; source root, index, depth; rights, badge *)
  boot_CNode_Mint : Z -> Z -> Z -> Z -> Z -> Z -> Z -> Z -> M W Z;
  (* tcb, fault endpoint, cspace, its data, vspace, its data *)
  seL4_TCB_SetSpace : Z -> Z -> Z -> Z -> Z -> Z -> M W Z;
  (* the word of a guard of zeros of this size *)
  seL4_CNode_CapData_new : Z -> Z -> Z;
  sel4platsupport_get_num_pmem_regions : M W Z;
  (* at most this many: the number, and the regions (type, base address, length) *)
  sel4platsupport_get_pmem_region_list : Z -> M W (Z * list (Z * Z * Z))
}.

Class BootAllocators (W : Type) : Type := {
  new_dual_pool : Z -> Z -> Z -> M W unit;
  dual_pool_interface : Z -> mspace_interface W;
  (* the dual pool; of the virtual pool: start, size, page directory *)
  attach_virtual_pool : Z -> Z -> Z -> Z -> M W unit;
  new_simple1level : cspace_simple1level_config -> M W unit;
  simple1level_interface : cspace_interface W;
  (* copies the structure to an address *)
  copy_simple1level : Z -> M W unit;
  new_single_level : calls W -> Z -> cspace_single_level_config -> M (sys W) Z;
  single_level_interface : Z -> cspace_interface W;
  new_two_level : calls W -> Z -> cspace_two_level_config -> M (sys W) Z;
  two_level_interface : Z -> cspace_interface W;
  new_utspace_split : Z -> M W unit;
  utspace_split_interface : Z -> utspace_interface W
}.

(** ** The record of what there is *)

Record boot_ut : Type := BootUt { bu_path : cspacepath_t; bu_size_bits : Z; bu_paddr : Z; bu_isDevice : bool }.

(** [uts], [ut_size_bits], [ut_paddr] and [ut_isDevice] are one list, of length
    [num_uts], with the addresses of the four arrays. *)
Record bootstrap_info (W : Type) : Type := BootstrapInfo {
  bs_ptr : Z;
  have_boot_cspace : bool;
  boot_cnode : cspacepath_t;
  boot_cspace : cspace_interface W;
  old_cnode : cspacepath_t;
  pd : cspacepath_t;
  tcb : cspacepath_t;
  uts_in_current_cspace : bool;
  uts_ptrs : Z * Z * Z * Z;
  uts : list boot_ut;
  bs_simple : option (simple_t W)
}.
Arguments BootstrapInfo {W} _ _ _ _ _ _ _ _ _ _ _.
Arguments bs_ptr {W} _.
Arguments have_boot_cspace {W} _.
Arguments boot_cnode {W} _.
Arguments boot_cspace {W} _.
Arguments old_cnode {W} _.
Arguments pd {W} _.
Arguments tcb {W} _.
Arguments uts_in_current_cspace {W} _.
Arguments uts_ptrs {W} _.
Arguments uts {W} _.
Arguments bs_simple {W} _.

(** The manager, the allocators and the rest of the system; and the record. *)
Record boot_state (W : Type) : Type := BootState { info : bootstrap_info W; system : sys W }.
Arguments BootState {W} _ _.
Arguments info {W} _.
Arguments system {W} _.

Section setters.
Context {W : Type}.
#[local] Notation BI := (bootstrap_info W).
Definition set_boot (have : bool) (node : cspacepath_t) (c : cspace_interface W) (i : BI) : BI :=
  BootstrapInfo (bs_ptr i) have node c (old_cnode i) (pd i) (tcb i) (uts_in_current_cspace i) (uts_ptrs i) (uts i) (bs_simple i).
Definition set_old_cnode (old node : cspacepath_t) (i : BI) : BI :=
  BootstrapInfo (bs_ptr i) (have_boot_cspace i) node (boot_cspace i) old (pd i) (tcb i) (uts_in_current_cspace i) (uts_ptrs i) (uts i) (bs_simple i).
Definition set_pd_tcb (pd tcb : cspacepath_t) (i : BI) : BI :=
  BootstrapInfo (bs_ptr i) (have_boot_cspace i) (boot_cnode i) (boot_cspace i) (old_cnode i) pd tcb (uts_in_current_cspace i) (uts_ptrs i) (uts i) (bs_simple i).
Definition set_uts_current (b : bool) (i : BI) : BI :=
  BootstrapInfo (bs_ptr i) (have_boot_cspace i) (boot_cnode i) (boot_cspace i) (old_cnode i) (pd i) (tcb i) b (uts_ptrs i) (uts i) (bs_simple i).
Definition set_uts (ptrs : Z * Z * Z * Z) (l : list boot_ut) (i : BI) : BI :=
  BootstrapInfo (bs_ptr i) (have_boot_cspace i) (boot_cnode i) (boot_cspace i) (old_cnode i) (pd i) (tcb i) (uts_in_current_cspace i) ptrs l (bs_simple i).
Definition set_simple (s : option (simple_t W)) (i : BI) : BI :=
  BootstrapInfo (bs_ptr i) (have_boot_cspace i) (boot_cnode i) (boot_cspace i) (old_cnode i) (pd i) (tcb i) (uts_in_current_cspace i) (uts_ptrs i) (uts i) s.
Definition num_uts (i : BI) : Z := Z.of_nat (length (uts i)).
Definition have_uts (i : BI) : bool := negb ((uts_ptrs i).1.1.1 =? 0).
End setters.

Section bootstrap.
Context {W : Type} `{BC : !BootConstants} `{SC : !SeL4Constants} `{KO : !KernelOps W} `{SK : !SimpleKernel W}
  `{BK : !BootKernel W} `{BA : !BootAllocators W} (cfg : bootstrap_config).
(** The manager's calls, the rounds of its loops, and the rounds of the loops here. *)
Context (self : calls W) (loops fuel : nat).
#[local] Notation St := (boot_state W).
#[local] Notation AM := (M (sys W)).

(** Calls of the manager and of the rest of the system. *)
Definition on_system {A} (m : AM A) : M St A := fun s => let? (a, y) := m (system s) in Ok (a, BootState (info s) y).
Definition get_info {A} (f : bootstrap_info W -> A) : M St A := gets (fun s => f (info s)).
Definition on_info (f : bootstrap_info W -> bootstrap_info W) : M St unit := modify (fun s => BootState (f (info s)) (system s)).
Definition syscall {A} (m : M W A) : M St A := on_system (on_world m).
Definition mspace_alloc (bytes : Z) : M St (Z * Z) := on_system (call_mspace_alloc self bytes true).
Definition mspace_free (p bytes : Z) : M St unit := on_system (call_mspace_free self p bytes).
Definition boot_alloc : M St (Z * option cspacepath_t) := let! c := get_info boot_cspace in on_system (run self (c_alloc c)).
Definition boot_make_path (slot : Z) : M St cspacepath_t := let! c := get_info boot_cspace in on_system (run self (c_make_path c slot)).

Definition seL4_NilData : Z := 0.
Definition api_make_guard_skip_word (guard_size : Z) : Z := seL4_CNode_CapData_new 0 guard_size.

(** The array of the devices, and that of the addresses, stay allocated. *)
Definition bootstrap_free_info : M St unit :=
  let! i := get_info id in
  let! _ := (if have_uts i then
      let! _ := mspace_free (uts_ptrs i).1.1.1 (sizeof_cspacepath_t ⊠ num_uts i) in
      mspace_free (uts_ptrs i).1.1.2 (8 ⊠ num_uts i)
    else ret tt) in
  mspace_free (bs_ptr i) (sizeof_bootstrap_info_t cfg).

(** The manager, in what is left of the pool after its own structures. *)
Definition bootstrap_create_allocman (pool_size pool : Z) : M W (option (allocman_t W)) :=
  let cur_pool := (pool ⊞ 7) / 8 * 8 in
  let pool_top := pool ⊞ pool_size in
  let cur_pool := cur_pool ⊞ sizeof_allocman_t cfg in
  let mspace := cur_pool in
  let cur_pool := cur_pool ⊞ sizeof_mspace_dual_pool_t cfg in
  if pool_top <=? cur_pool then ret None else
  let! _ := new_dual_pool mspace cur_pool (pool_top ⊟ cur_pool) in
  let! w := gets id in
  ret (Some (am (allocman_create (dual_pool_interface mspace) w))).

Definition bootstrap_set_boot_cspace (cspace : cspace_interface W) (root_cnode : cspacepath_t) : M St Z :=
  let! _ := on_info (set_boot true root_cnode cspace) in ret 0.

Definition bootstrap_create_temp_bootinfo_cspace_at (bi : seL4_BootInfo) (root_cnode : Z) : M St Z :=
  let! _ := syscall (new_simple1level (S1Config root_cnode (initThreadCNodeSizeBits bi)
    (seL4_WordBits ⊟ initThreadCNodeSizeBits bi) (start (Simple.empty bi)) (end_ (Simple.empty bi) ⊟ 1))) in
  let! path := on_system (run self (c_make_path simple1level_interface root_cnode)) in
  bootstrap_set_boot_cspace simple1level_interface path.

Definition bootstrap_create_temp_bootinfo_cspace (bi : seL4_BootInfo) : M St Z :=
  bootstrap_create_temp_bootinfo_cspace_at bi seL4_CapInitThreadCNode.

(** ** Untypeds *)

(** Four new arrays: their addresses, or an error; those made before it are not
    given back. *)
Definition alloc_arrays (n : Z) : M St (Z * (Z * Z * Z * Z)) :=
  let! (new_uts, error) := mspace_alloc (sizeof_cspacepath_t ⊠ n) in
  if negb (error =? 0) then ret (error, (0, 0, 0, 0)) else
  let! (new_size_bits, error) := mspace_alloc (8 ⊠ n) in
  if negb (error =? 0) then ret (error, (0, 0, 0, 0)) else
  let! (new_paddr, error) := mspace_alloc (8 ⊠ n) in
  if negb (error =? 0) then ret (error, (0, 0, 0, 0)) else
  let! (new_isDevice, error) := mspace_alloc n in
  if negb (error =? 0) then ret (error, (0, 0, 0, 0)) else
  ret (0, (new_uts, new_size_bits, new_paddr, new_isDevice)).

Definition free_arrays (ptrs : Z * Z * Z * Z) (n : Z) : M St unit :=
  let! _ := mspace_free ptrs.1.1.1 (sizeof_cspacepath_t ⊠ n) in
  let! _ := mspace_free ptrs.1.1.2 (8 ⊠ n) in
  let! _ := mspace_free ptrs.1.2 (8 ⊠ n) in
  mspace_free ptrs.2 n.

Definition _add_ut (u : boot_ut) : M St Z :=
  let! i := get_info id in
  let! (error, ptrs) := alloc_arrays (num_uts i + 1) in
  if negb (error =? 0) then ret error else
  let! _ := (if have_uts i then free_arrays (uts_ptrs i) (num_uts i) else ret tt) in
  let! _ := on_info (fun i => set_uts ptrs (uts i ++ [u]) i) in
  ret 0.

Fixpoint bootstrap_add_untypeds (l : list boot_ut) : M St Z :=
  match l with
  | [] => ret 0
  | u :: l => let! error := _add_ut u in if negb (error =? 0) then ret error else bootstrap_add_untypeds l
  end.

(** The loop over the slots [i] and their descriptions, up to [last]. *)
Fixpoint add_bootinfo_loop (descs : list seL4_UntypedDesc) (i last : Z) : M St Z :=
  if negb (i <? last) then ret 0 else
  match descs with
  | [] => stop OutOfBounds
  | d :: descs =>
      let! slot := boot_make_path i in
      let! error := _add_ut (BootUt slot (sizeBits d) (paddr d) (isDevice d)) in
      if negb (error =? 0) then ret error else add_bootinfo_loop descs (i ⊞ 1) last
  end.

(** Untypeds can only be added while there is a boot cspace and those added are in it. *)
Definition cannot_add (i : bootstrap_info W) : bool := negb (have_boot_cspace i) || (have_uts i && negb (uts_in_current_cspace i)).

Definition bootstrap_add_untypeds_from_bootinfo (bi : seL4_BootInfo) : M St Z :=
  let! i := get_info id in
  if cannot_add i then ret 1 else
  let! error := add_bootinfo_loop (untypedList bi) (start (untyped bi)) (end_ (untyped bi)) in
  if negb (error =? 0) then ret error else
  let! _ := on_info (set_uts_current true) in ret 0.

(** Outputs that are not written are what they were: [size_bits], [paddr], [device]. *)
Definition nth_untyped_desc (simple : option (simple_t W)) (i : Z) : M St (Z * (Z * Z * bool)) :=
  let! (cap, d) := syscall (simple_get_nth_untyped simple i) in ret (cap, default (0, 0, false) d).

Fixpoint add_simple_loop (n : nat) (simple : option (simple_t W)) (i : Z) : M St Z :=
  let! count := syscall (simple_get_untyped_count simple) in
  if negb (i <? count) then ret 0 else
  match n with
  | O => stop OutOfFuel
  | S n =>
      let! (cap, d) := nth_untyped_desc simple i in
      let! slot := boot_make_path cap in
      let! error := _add_ut (BootUt slot d.1.1 d.1.2 d.2) in
      if negb (error =? 0) then ret error else add_simple_loop n simple (i + 1)
  end.

Definition bootstrap_add_untypeds_from_simple (simple : option (simple_t W)) : M St Z :=
  let! i := get_info id in
  if cannot_add i then ret 1 else
  let! error := add_simple_loop fuel simple 0 in
  if negb (error =? 0) then ret error else
  let! _ := on_info (set_uts_current true) in ret 0.

Definition _remove_ut (i : Z) : M St Z :=
  let! bs := get_info id in
  if num_uts bs =? 0 then ret 1 else
  let! (error, ptrs) := (if 1 <? num_uts bs then alloc_arrays (num_uts bs - 1) else ret (0, (0, 0, 0, 0))) in
  if negb (error =? 0) then ret error else
  let! _ := free_arrays (uts_ptrs bs) (num_uts bs) in
  let! _ := on_info (fun bs => set_uts ptrs (take (Z.to_nat i) (uts bs) ++ drop (Z.to_nat (i + 1)) (uts bs)) bs) in
  ret 0.

Definition retype (ut : cspacepath_t) (type size : Z) (p : cspacepath_t) : M St Z :=
  syscall (seL4_Untyped_Retype (capPtr ut) type size (root p) (dest p) (destDepth p) (offset p) 1).

Definition _split_ut (ut p1 p2 : cspacepath_t) (size : Z) : M St Z :=
  let! error := retype ut seL4_UntypedObject size p1 in
  if negb (error =? seL4_NoError) then ret 1 else
  let! error := retype ut seL4_UntypedObject size p2 in
  if negb (error =? seL4_NoError) then ret 1 else ret 0.

Definition _retype_cnode (ut cnode : cspacepath_t) (sel4_size : Z) : M St Z :=
  let! error := retype ut seL4_CapTableObject sel4_size cnode in
  ret (if negb (error =? seL4_NoError) then 1 else 0).

(** The smallest untyped that is big enough and not of a device: the search is
    at entry [i]; [best] is the index found so far and its size. *)
Fixpoint find_best (l : list boot_ut) (i ut_size : Z) (best : option (Z * boot_ut)) : option (Z * boot_ut) :=
  match l with
  | [] => best
  | u :: l =>
      let better := match best with None => true | Some (_, b) => bu_size_bits u <? bu_size_bits b end in
      find_best l (i + 1) ut_size
        (if (ut_size <=? bu_size_bits u) && better && negb (bu_isDevice u) then Some (i, u) else best)
  end.

(** The loop of [bootstrap_allocate_cnode]: the untyped is split until it has the
    size; the first half goes back to the list. *)
Fixpoint split_loop (n : nat) (ut_size : Z) (best : boot_ut) : M St (Z * boot_ut) :=
  if negb (ut_size <? bu_size_bits best) then ret (0, best) else
  match n with
  | O => stop OutOfFuel
  | S n =>
      let! (error, slot1) := boot_alloc in
      if negb (error =? 0) then ret (error, best) else
      let! (error, slot2) := boot_alloc in
      if negb (error =? 0) then ret (error, best) else
      let slot1 := default no_path slot1 in
      let slot2 := default no_path slot2 in
      let! error := _split_ut (bu_path best) slot1 slot2 (bu_size_bits best ⊟ 1) in
      if negb (error =? 0) then ret (error, best) else
      let! error := bootstrap_add_untypeds [BootUt slot1 (bu_size_bits best ⊟ 1) (bu_paddr best) (bu_isDevice best)] in
      if negb (error =? 0) then ret (error, best) else
      let best_size := bu_size_bits best ⊟ 1 in
      let best_paddr := if bu_paddr best =? ALLOCMAN_NO_PADDR then bu_paddr best else bu_paddr best ⊞ BIT best_size in
      split_loop n ut_size (BootUt slot2 best_size best_paddr (bu_isDevice best))
  end.

(** The error, and the slot of the new node. *)
Definition bootstrap_allocate_cnode (size : Z) : M St (Z * cspacepath_t) :=
  let! bs := get_info id in
  if negb (have_boot_cspace bs) then ret (1, no_path) else
  let ut_size := size ⊞ seL4_SlotBits in
  match find_best (uts bs) 0 ut_size None with
  | None => ret (1, no_path)
  | Some (best, u) =>
      let! _ := cassert (negb (bu_isDevice u)) in
      let! error := _remove_ut best in
      if negb (error =? 0) then ret (error, no_path) else
      let! (error, best) := split_loop 64 ut_size u in
      if negb (error =? 0) then ret (error, no_path) else
      let! (error, slot) := boot_alloc in
      if negb (error =? 0) then ret (error, no_path) else
      let slot := default no_path slot in
      let! error := _retype_cnode (bu_path best) slot size in
      ret (error, slot)
  end.

(** ** Slots *)

Definition bootstrap_use_current_cspace (cspace : cspace_interface W) : M St Z :=
  let! error := on_system (allocman_attach_cspace loops self cspace) in
  if negb (error =? 0) then ret error else
  let! _ := on_info (fun i => set_boot true (boot_cnode i) cspace i) in ret 0.

Definition bootstrap_use_current_1level_cspace (cnode size_bits start_free_index end_free_index : Z) : M St Z :=
  let! (cspace, error) := mspace_alloc (sizeof_cspace_single_level_t cfg) in
  if negb (error =? 0) then ret error else
  let! error := on_system (new_single_level self cspace
    (SingleLevel.Config cnode size_bits (seL4_WordBits ⊟ size_bits) start_free_index end_free_index)) in
  if negb (error =? 0) then ret error else
  bootstrap_use_current_cspace (single_level_interface cspace).

Definition SEL4UTILS_CNODE_SLOT : Z := 1.

(** A path that is given back by the manager's own cspace. *)
Definition new_path (slot : Z) : M St cspacepath_t := on_system (allocman_cspace_make_path self slot).

Definition bootstrap_new_1level_cspace (size : Z) : M St Z :=
  let! (error, node) := bootstrap_allocate_cnode size in
  if negb (error =? 0) then ret error else
  let new_cnode := SEL4UTILS_CNODE_SLOT in
  let! error := syscall (boot_CNode_Mint (capPtr node) new_cnode size (root node) (capPtr node) (capDepth node)
    seL4_AllRights (api_make_guard_skip_word (seL4_WordBits ⊟ size))) in
  if negb (error =? seL4_NoError) then ret 1 else
  let old_cnode_slot := BIT size ⊟ 1 in
  let! bs := get_info id in
  let! error := syscall (seL4_CNode_Copy (capPtr node) old_cnode_slot size
    (root (boot_cnode bs)) (capPtr (boot_cnode bs)) (capDepth (boot_cnode bs)) seL4_AllRights) in
  if negb (error =? seL4_NoError) then ret 1 else
  let! error := syscall (seL4_TCB_SetSpace (capPtr (tcb bs)) 0 (capPtr node)
    (api_make_guard_skip_word (seL4_WordBits ⊟ size)) (capPtr (pd bs)) seL4_NilData) in
  if negb (error =? seL4_NoError) then ret 1 else
  let! (cspace, error) := mspace_alloc (sizeof_cspace_single_level_t cfg) in
  if negb (error =? 0) then ret error else
  let! last := syscall (simple_last_valid_cap fuel (bs_simple bs)) in
  let! error := on_system (new_single_level self cspace
    (SingleLevel.Config new_cnode size (seL4_WordBits ⊟ size) (last ⊞ 1) (BIT size ⊟ 2))) in
  if negb (error =? 0) then ret error else
  let! error := on_system (allocman_attach_cspace loops self (single_level_interface cspace)) in
  if negb (error =? 0) then ret error else
  let! old := new_path old_cnode_slot in
  let! node := new_path new_cnode in
  let! _ := on_info (fun i => set_uts_current false (set_old_cnode old node i)) in
  ret 0.

(** The loop of [bootstrap_transfer_caps_simple] from capability [i]. *)
Fixpoint transfer_loop (n : nat) (simple : option (simple_t W)) (levels cnode cap_count i : Z) : M St Z :=
  if negb (i <? cap_count) then ret 0 else
  match n with
  | O => stop OutOfFuel
  | S n =>
      let! pos := syscall (simple_get_nth_cap simple i) in
      let! skip := (if pos =? cnode then ret true else syscall (simple_is_untyped_cap fuel simple pos)) in
      if skip : bool then transfer_loop n simple levels cnode cap_count (i + 1) else
      if negb ((levels =? 1) || (levels =? 2)) then ret 1 else
      let! slot := new_path pos in
      let! bs := get_info id in
      let! error := (if (pos =? capPtr (tcb bs)) || (pos =? capPtr (pd bs))
        then syscall (seL4_CNode_Copy (root slot) pos (capDepth slot) (capPtr (old_cnode bs)) pos (capDepth (old_cnode bs)) seL4_AllRights)
        else syscall (seL4_CNode_Move (root slot) pos (capDepth slot) (capPtr (old_cnode bs)) pos (capDepth (old_cnode bs)))) in
      if negb (error =? seL4_NoError) then ret 1 else transfer_loop n simple levels cnode cap_count (i + 1)
  end.
Definition bootstrap_transfer_caps_simple (simple : option (simple_t W)) (levels : Z) : M St Z :=
  let! cap_count := syscall (simple_get_cap_count simple) in
  let! cnode := syscall (simple_get_cnode simple) in
  transfer_loop fuel simple levels cnode (wrap cap_count) 0.

(** The loop that makes nodes of the second level, from node [i]: the last node
    made is [l2node]; the capability of the one that will hold the old root is
    [backpointer]. *)
Fixpoint second_level_loop (n : nat) (l1node l2node : cspacepath_t) (l1size l2size old_cnode total i backpointer : Z) : M St (Z * Z) :=
  if negb (i <? total) then ret (0, backpointer) else
  match n with
  | O => stop OutOfFuel
  | S n =>
      let! (error, l2node) := (if negb (i =? 0) then bootstrap_allocate_cnode l2size else ret (0, l2node)) in
      if negb (error =? 0) then ret (error, backpointer) else
      let backpointer := if old_cnode / BIT l2size =? i then capPtr l2node else backpointer in
      let! error := syscall (seL4_CNode_Copy (capPtr l1node) i l1size (root l2node) (capPtr l2node) (capDepth l2node) seL4_AllRights) in
      if negb (error =? seL4_NoError) then ret (1, backpointer)
      else second_level_loop n l1node l2node l1size l2size old_cnode total (i + 1) backpointer
  end.

Definition bootstrap_new_2level_cspace (l1size l2size cnode old_cnode total_caps : Z) : M St Z :=
  let last_cap := Z.max cnode old_cnode in
  let! (error, l1node) := bootstrap_allocate_cnode l1size in
  if negb (error =? 0) then ret error else
  let! (error, l2node) := bootstrap_allocate_cnode l2size in
  if negb (error =? 0) then ret error else
  let! error := syscall (boot_CNode_Mint (capPtr l2node) cnode l2size (root l1node) (capPtr l1node) (capDepth l1node)
    seL4_AllRights (api_make_guard_skip_word (seL4_WordBits ⊟ l1size ⊟ l2size))) in
  if negb (error =? seL4_NoError) then ret 1 else
  let total := (total_caps / BIT l2size) ⊞ 1 in
  let! (error, l2nodeforbackpointer) := second_level_loop (Z.to_nat total) l1node l2node l1size l2size old_cnode total 0 0 in
  if negb (error =? 0) then ret error else
  let end_existing_index := total in
  let! bs := get_info id in
  let! error := syscall (seL4_CNode_Copy l2nodeforbackpointer (Z.land old_cnode (MASK l2size)) l2size
    (root (boot_cnode bs)) (capPtr (boot_cnode bs)) (capDepth (boot_cnode bs)) seL4_AllRights) in
  if negb (error =? seL4_NoError) then ret 1 else
  let! error := syscall (seL4_TCB_SetSpace (capPtr (tcb bs)) 0 (capPtr l1node)
    (api_make_guard_skip_word (seL4_WordBits ⊟ l1size ⊟ l2size)) (capPtr (pd bs)) seL4_NilData) in
  if negb (error =? seL4_NoError) then ret 1 else
  let! (cspace, error) := mspace_alloc (sizeof_cspace_two_level_t cfg) in
  if negb (error =? 0) then ret error else
  let! error := on_system (new_two_level self cspace
    (TConfig cnode l1size (seL4_WordBits ⊟ l1size ⊟ l2size) 0 (BIT l1size) l2size 0 end_existing_index 0 (last_cap ⊞ 1))) in
  if negb (error =? 0) then ret error else
  let! error := on_system (allocman_attach_cspace loops self (two_level_interface cspace)) in
  if negb (error =? 0) then ret error else
  let! old := on_system (run self (c_make_path (two_level_interface cspace) old_cnode)) in
  let! node := on_system (run self (c_make_path (two_level_interface cspace) cnode)) in
  let! _ := on_info (fun i => set_uts_current false (set_old_cnode old node i)) in
  ret 0.

(** ** Putting the manager together *)

Definition with_root (r : Z) (p : cspacepath_t) : cspacepath_t :=
  Cspacepath (capPtr p) (capDepth p) r (dest p) (destDepth p) (offset p) (window p).

Definition bootstrap_update_untypeds : M St unit :=
  on_info (fun i => set_uts (uts_ptrs i)
    (map (fun u => BootUt (with_root (capPtr (old_cnode i)) (bu_path u)) (bu_size_bits u) (bu_paddr u) (bu_isDevice u)) (uts i)) i).

Definition bootstrap_set_pd_tcb_bootinfo : M St unit :=
  let! pd := boot_make_path seL4_CapInitThreadPD in
  let! _ := on_info (fun i => set_pd_tcb pd (tcb i) i) in
  let! tcb := boot_make_path seL4_CapInitThreadTCB in
  on_info (fun i => set_pd_tcb (Bootstrap.pd i) tcb i).

Definition bootstrap_set_pd_tcb (pd tcb : cspacepath_t) : M St unit := on_info (set_pd_tcb pd tcb).

(** The untypeds from entry [i] on are moved, one by one, to slots of the manager. *)
Fixpoint move_loop (n : nat) (i : Z) : M St Z :=
  match n with
  | O => ret 0
  | S n =>
      let! (error, slot) := on_system (call_cspace_alloc self true) in
      if negb (error =? 0) then ret error else
      let slot := default no_path slot in
      let! bs := get_info id in
      let! u := lift (arr_get (uts bs) i) in
      let! error := syscall (seL4_CNode_Move (root slot) (capPtr slot) (capDepth slot)
        (root (bu_path u)) (capPtr (bu_path u)) (capDepth (bu_path u))) in
      if negb (error =? seL4_NoError) then ret 1 else
      let! l := lift (arr_set (uts bs) i (BootUt slot (bu_size_bits u) (bu_paddr u) (bu_isDevice u))) in
      let! _ := on_info (fun i => set_uts (uts_ptrs i) l i) in
      move_loop n (i + 1)
  end.
Definition bootstrap_move_untypeds : M St Z :=
  let! n := get_info num_uts in
  let! error := move_loop (Z.to_nat n) 0 in
  if negb (error =? 0) then ret error else
  let! _ := on_info (set_uts_current true) in ret 0.

Definition ALLOCMAN_UT_KERNEL : Z := 0.
Definition ALLOCMAN_UT_DEV_MEM : Z := 2.

Fixpoint add_uts_loop (l : list boot_ut) (utspace : utspace_interface W) : M St Z :=
  match l with
  | [] => ret 0
  | u :: l =>
      let! error := on_system (run self (u_add_uts utspace [(bu_path u, bu_size_bits u, bu_paddr u)]
        (if bu_isDevice u then ALLOCMAN_UT_DEV else ALLOCMAN_UT_KERNEL))) in
      if negb (error =? 0) then ret error else add_uts_loop l utspace
  end.
Definition bootstrap_create_utspace : M St Z :=
  let! (utspace, error) := mspace_alloc (sizeof_utspace_split_t cfg) in
  if negb (error =? 0) then ret error else
  let! _ := syscall (new_utspace_split utspace) in
  let! error := on_system (allocman_attach_utspace loops self (utspace_split_interface utspace)) in
  if negb (error =? 0) then ret error else
  let! bs := get_info id in
  add_uts_loop (uts bs) (utspace_split_interface utspace).

Definition empty_info (ptr : Z) : bootstrap_info W :=
  BootstrapInfo ptr false no_path null_cspace no_path no_path no_path true (0, 0, 0, 0) [] None.

Definition _create_info : AM (option (bootstrap_info W)) :=
  let! (bs, error) := call_mspace_alloc self (sizeof_bootstrap_info_t cfg) true in
  ret (if negb (error =? 0) then None else Some (empty_info bs)).

(** From nothing: the state with the record, or none. *)
Definition bootstrap_create_info (pool_size pool : Z) (w : W) : res (option St) :=
  let? (alloc, w) := bootstrap_create_allocman pool_size pool w in
  match alloc with
  | None => Ok None
  | Some a =>
      let? (i, s) := _create_info (Sys a w) in
      Ok (match i with None => None | Some i => Some (BootState i s) end)
  end.

Definition _slot_memory_reservations : AM Z :=
  let! error := allocman_configure_max_freed_slots loops self 10 in
  if negb (error =? 0) then ret error else
  let! error := allocman_configure_max_freed_memory_chunks loops self 20 in
  if negb (error =? 0) then ret error else
  let! error := allocman_configure_max_freed_untyped_chunks loops self 10 in
  if negb (error =? 0) then ret error else
  let! error := allocman_configure_cspace_reserve loops self 30 in
  if negb (error =? 0) then ret error else ret 0.

Definition _cnode_reservation (cnode_size : Z) : AM Z :=
  allocman_configure_utspace_reserve loops self (UtspaceChunk (cnode_size ⊞ seL4_SlotBits) seL4_CapTableObject 1).

(** What a manager was made in: the current root. *)
Definition use_current_1level (root_cnode cnode_size start_slot end_slot : Z) : M St bool :=
  let! error := bootstrap_use_current_1level_cspace root_cnode cnode_size start_slot end_slot in
  if negb (error =? 0) then ret false else
  let! _ := bootstrap_set_pd_tcb_bootinfo in
  let! error := bootstrap_create_utspace in
  if negb (error =? 0) then ret false else
  let! error := on_system _slot_memory_reservations in
  if negb (error =? 0) then ret false else
  let! _ := bootstrap_free_info in ret true.

(** Runs what comes after [bootstrap_create_info]: the manager, or null. *)
Definition from_pool (pool_size pool : Z) (m : M St bool) (w : W) : res (option (sys W)) :=
  let? s := bootstrap_create_info pool_size pool w in
  match s with
  | None => Ok None
  | Some s => let? (ok, s) := m s in Ok (if ok : bool then Some (system s) else None)
  end.

Definition bootstrap_use_current_1level (root_cnode cnode_size start_slot end_slot pool_size pool : Z) : W -> res (option (sys W)) :=
  from_pool pool_size pool (use_current_1level root_cnode cnode_size start_slot end_slot).

(** The path to the old root, if it succeeds. *)
Definition _post_new_cspace_common : M St (option cspacepath_t) :=
  let! _ := bootstrap_update_untypeds in
  let! error := bootstrap_move_untypeds in
  if negb (error =? 0) then ret None else
  let! error := bootstrap_create_utspace in
  if negb (error =? 0) then ret None else
  let! error := on_system _slot_memory_reservations in
  if negb (error =? 0) then ret None else
  let! old := get_info old_cnode in ret (Some old).

Definition _bootstrap_new_level1 (cnode_size : Z) (tcb pd : cspacepath_t) : M St (option cspacepath_t) :=
  let! _ := bootstrap_set_pd_tcb pd tcb in
  let! error := bootstrap_new_1level_cspace cnode_size in
  if negb (error =? 0) then ret None else _post_new_cspace_common.

(** The error of the allocation of a slot is not looked at: a path that was not
    written is read. *)
Definition _bootstrap_new_level2 (l1size l2size : Z) (tcb pd : cspacepath_t) : M St (option cspacepath_t) :=
  let! _ := bootstrap_set_pd_tcb pd tcb in
  let! bs := get_info id in
  let! error := (if have_boot_cspace bs then
      let! (_, to_slot) := boot_alloc in
      match to_slot with
      | None => stop OutOfBounds
      | Some to_slot => bootstrap_new_2level_cspace l1size l2size 2 (capPtr to_slot) (num_uts bs ⊞ Z.max 2 (capPtr to_slot))
      end
    else bootstrap_new_2level_cspace l1size l2size 2 1 (num_uts bs ⊞ 2)) in
  if negb (error =? 0) then ret None else
  let! alloc := _post_new_cspace_common in
  match alloc with
  | None => ret None
  | Some old =>
      let! error := on_system (_cnode_reservation l2size) in
      if negb (error =? 0) then ret None else ret (Some old)
  end.

(** Frees the record when there is a manager. *)
Definition finish (m : M St (option cspacepath_t)) : M St (option cspacepath_t) :=
  let! alloc := m in
  match alloc with
  | None => ret None
  | Some old => let! _ := bootstrap_free_info in ret (Some old)
  end.
Definition bootstrap_new_1level (cnode_size : Z) (tcb pd : cspacepath_t) : M St (option cspacepath_t) :=
  finish (_bootstrap_new_level1 cnode_size tcb pd).
Definition bootstrap_new_2level (l1size l2size : Z) (tcb pd : cspacepath_t) : M St (option cspacepath_t) :=
  finish (_bootstrap_new_level2 l1size l2size tcb pd).

(** *** From boot information *)

Definition _start_new_from_bootinfo (bi : seL4_BootInfo) (pool_size pool : Z) (w : W) : res (option St) :=
  let? s := bootstrap_create_info pool_size pool w in
  match s with
  | None => Ok None
  | Some s =>
      let? (error, s) := (let! error := bootstrap_create_temp_bootinfo_cspace bi in
        if negb (error =? 0) then ret error else bootstrap_add_untypeds_from_bootinfo bi) s in
      Ok (if negb (error =? 0) then None else Some s)
  end.

(** A copy of the old cspace, if it is asked for, and its address. *)
Definition _new_from_bootinfo_common (want_old : bool) : M St (option Z) :=
  let! (old, error) := (if want_old then mspace_alloc (sizeof_cspace_simple1level_t cfg) else ret (0, 0)) in
  if negb (error =? 0) then ret None else
  let! _ := (if want_old then syscall (copy_simple1level old) else ret tt) in
  let! _ := bootstrap_free_info in ret (Some old).

Definition new_from_bootinfo (bi : seL4_BootInfo) (new_level : cspacepath_t -> cspacepath_t -> M St (option cspacepath_t))
    (pool_size pool : Z) (want_old : bool) (w : W) : res (option (Z * sys W)) :=
  let? s := _start_new_from_bootinfo bi pool_size pool w in
  match s with
  | None => Ok None
  | Some s =>
      let? (r, s) := (let! tcb := boot_make_path seL4_CapInitThreadTCB in
        let! pd := boot_make_path seL4_CapInitThreadPD in
        let! alloc := new_level tcb pd in
        match alloc with None => ret None | Some _ => _new_from_bootinfo_common want_old end) s in
      Ok (match r with None => None | Some old => Some (old, system s) end)
  end.
Definition bootstrap_new_1level_bootinfo (bi : seL4_BootInfo) (cnode_size pool_size pool : Z) (want_old : bool) : W -> res (option (Z * sys W)) :=
  new_from_bootinfo bi (_bootstrap_new_level1 cnode_size) pool_size pool want_old.
Definition bootstrap_new_2level_bootinfo (bi : seL4_BootInfo) (l1size l2size pool_size pool : Z) (want_old : bool) : W -> res (option (Z * sys W)) :=
  new_from_bootinfo bi (_bootstrap_new_level2 l1size l2size) pool_size pool want_old.

(** The untypeds from slot [i], of descriptions [descs], up to [last]. *)
Fixpoint add_bootinfo_uts_loop (descs : list seL4_UntypedDesc) (i last : Z) : AM Z :=
  if negb (i <? last) then ret 0 else
  match descs with
  | [] => stop OutOfBounds
  | d :: descs =>
      let! slot := allocman_cspace_make_path self i in
      let! error := allocman_utspace_add_uts loops self [(slot, sizeBits d, paddr d)] (if isDevice d then ALLOCMAN_UT_DEV else ALLOCMAN_UT_KERNEL) in
      if negb (error =? 0) then ret error else add_bootinfo_uts_loop descs (i ⊞ 1) last
  end.
Definition allocman_add_bootinfo_untypeds (bi : seL4_BootInfo) : AM Z :=
  add_bootinfo_uts_loop (untypedList bi) (start (untyped bi)) (end_ (untyped bi)).

Definition bootstrap_use_bootinfo (bi : seL4_BootInfo) (pool_size pool : Z) (w : W) : res (option (sys W)) :=
  let? s := bootstrap_use_current_1level seL4_CapInitThreadCNode (initThreadCNodeSizeBits bi) (start (Simple.empty bi))
    (end_ (Simple.empty bi)) pool_size pool w in
  match s with
  | None => Ok None
  | Some s => let? (error, s) := allocman_add_bootinfo_untypeds bi s in Ok (if negb (error =? 0) then None else Some s)
  end.

(** ** Untyped memory of devices

    A device's untyped may be, in part, memory that can be used; it is taken apart
    at the bounds of the platform's memory regions. *)

Record pmem_region : Type := PmemRegion { region_type : Z; base_addr : Z; region_length : Z }.
Record add_untypeds_state_t : Type := AddUntypeds {
  au_ptr : Z;
  region_alloc : bool;
  regions_ptr : Z;
  regions : list pmem_region;
  ut_interface : utspace_interface W
}.

Definition MIN (a b : Z) : Z := if a <? b then a else b.

(** [ZF_LOGF_IF] *)
Definition fatal_on (b : bool) : AM unit := if b then stop Fatal else ret tt.

(** The largest power of two that can be taken from [base] without passing
    [goal]: of its alignment, and of what is left. *)
Definition get_next_alignment_bits (base goal max_alignment : Z) : res Z :=
  let alignment := if base =? 0 then max_alignment else MIN (CTZL base) max_alignment in
  let next_size := MIN (goal ⊟ base) (BIT alignment) in
  if next_size =? 0 then Fault Fatal else Ok (seL4_WordBits - 1 - CLZL next_size).

Definition perform_sub_allocation (base goal : Z) (ut_space : utspace_interface W) (untyped_type : Z) : AM Z :=
  let! next_size_bits := lift (get_next_alignment_bits base goal (seL4_MaxUntypedBits cfg)) in
  let! (error, path) := call_cspace_alloc self true in
  let! _ := fatal_on (negb (error =? 0)) in
  let path := default no_path path in
  let! (_, error) := run self (u_alloc ut_space next_size_bits seL4_UntypedObject path base true) in
  let! _ := fatal_on (negb (error =? 0)) in
  let! error := allocman_utspace_add_uts loops self [(path, next_size_bits, base)] untyped_type in
  let! _ := fatal_on (negb (error =? 0)) in
  ret (BIT next_size_bits).

(** The loop inside a region: from [paddr] to [top]. *)
Fixpoint region_loop (n : nat) (ut_space : utspace_interface W) (base_addr top paddr : Z) : AM Z :=
  if negb (paddr <? top) then ret paddr else
  match n with
  | O => stop OutOfFuel
  | S n =>
      let! result := (if base_addr <=? paddr then perform_sub_allocation paddr top ut_space ALLOCMAN_UT_DEV_MEM
        else perform_sub_allocation paddr base_addr ut_space ALLOCMAN_UT_DEV) in
      let! _ := fatal_on (BIT 63 <=? result) in
      region_loop n ut_space base_addr top (paddr ⊞ result)
  end.

(** The loop over the regions: [tainted] says that the untyped was handed to the
    allocator that takes it apart. *)
Fixpoint regions_loop (state : add_untypeds_state_t) (l : list pmem_region) (path : cspacepath_t) (size_bits ut_end : Z)
    (tainted : bool) (paddr : Z) : AM (bool * Z) :=
  match l with
  | [] => ret (tainted, paddr)
  | r :: l =>
      let region_end := base_addr r ⊞ region_length r in
      if (region_type r =? PMEM_TYPE_RAM cfg) && negb ((region_end <=? paddr) || (ut_end <=? base_addr r)) then
        let! _ := (if tainted then ret 0
          else run self (u_add_uts (ut_interface state) [(path, size_bits, paddr)] ALLOCMAN_UT_DEV)) in
        let! paddr := region_loop fuel (ut_interface state) (base_addr r) (MIN region_end ut_end) paddr in
        regions_loop state l path size_bits ut_end true paddr
      else regions_loop state l path size_bits ut_end tainted paddr
  end.

(** What is left, as a device's. *)
Fixpoint rest_loop (n : nat) (ut_space : utspace_interface W) (ut_end paddr : Z) : AM unit :=
  if negb (paddr <? ut_end) then ret tt else
  match n with
  | O => stop OutOfFuel
  | S n =>
      let! result := perform_sub_allocation paddr ut_end ut_space ALLOCMAN_UT_DEV in
      let! _ := fatal_on (BIT 63 <=? result) in
      rest_loop n ut_space ut_end (paddr ⊞ result)
  end.

Definition handle_device_untyped_cap (state : option add_untypeds_state_t) (paddr size_bits : Z) (path : cspacepath_t) : AM Z :=
  let ut_end := paddr ⊞ BIT size_bits in
  match state with
  | None =>
      let! error := allocman_utspace_add_uts loops self [(path, size_bits, paddr)] ALLOCMAN_UT_DEV in
      let! _ := fatal_on (negb (error =? 0)) in ret 0
  | Some state =>
      let! (cap_tainted, paddr) := regions_loop state (regions state) path size_bits ut_end false paddr in
      if negb cap_tainted then
        let! error := allocman_utspace_add_uts loops self [(path, size_bits, paddr)] ALLOCMAN_UT_DEV in
        let! _ := fatal_on (negb (error =? 0)) in ret 0
      else if negb (paddr =? ut_end) then let! _ := rest_loop fuel (ut_interface state) ut_end paddr in ret 0
      else ret 0
  end.

Definition free_device_untyped_cap_state (state : add_untypeds_state_t) : AM unit :=
  if region_alloc state && (regions_ptr state =? 0) then ret tt else
  let! _ := (if region_alloc state
    then call_mspace_free self (regions_ptr state) (sizeof_pmem_region_t cfg ⊠ Z.of_nat (length (regions state))) else ret tt) in
  call_mspace_free self (au_ptr state) (sizeof_add_untypeds_state_t cfg).

(** The state, unless there are no regions.  [region_list] is null or the
    caller's regions.  The allocator is inside the structure, at its address.  The
    field [region_alloc] of memory that was just allocated is [garbage]. *)
Definition prepare_handle_device_untyped_cap (garbage : bool * Z) (region_list : option (list pmem_region)) : AM (option add_untypeds_state_t) :=
  let! (state, error) := call_mspace_alloc self (sizeof_add_untypeds_state_t cfg) true in
  let! _ := fatal_on (negb (error =? 0)) in
  let with_split (s : add_untypeds_state_t) :=
    let! _ := on_world (new_utspace_split state) in ret (Some s) in
  match region_list with
  | Some l => with_split (AddUntypeds state false 0 l (utspace_split_interface state))
  | None =>
      let! num_regions := on_world sel4platsupport_get_num_pmem_regions in
      if (num_regions =? 0) || (num_regions =? -1) then
        let! _ := free_device_untyped_cap_state (AddUntypeds state garbage.1 garbage.2 [] (utspace_split_interface state)) in
        ret None
      else
      let! (ptr, _) := call_mspace_alloc self (sizeof_pmem_region_t cfg ⊠ num_regions) true in
      let! (n, l) := on_world (sel4platsupport_get_pmem_region_list num_regions) in
      let! _ := fatal_on (negb (n =? num_regions)) in
      with_split (AddUntypeds state true ptr (map (fun '(t, b, len) => PmemRegion t b len) l) (utspace_split_interface state))
  end.

Fixpoint add_simple_uts_loop (n : nat) (state : option add_untypeds_state_t) (simple : option (simple_t W)) (total i : Z) : AM unit :=
  if negb (i <? total) then ret tt else
  match n with
  | O => stop OutOfFuel
  | S n =>
      let! (cap, d) := on_world (simple_get_nth_untyped simple i) in
      let '(size_bits, paddr, device) := default (0, 0, false) d in
      let! path := allocman_cspace_make_path self cap in
      let! error := (if negb device then allocman_utspace_add_uts loops self [(path, size_bits, paddr)] ALLOCMAN_UT_KERNEL
        else handle_device_untyped_cap state paddr size_bits path) in
      let! _ := fatal_on (negb (error =? 0)) in
      add_simple_uts_loop n state simple total (i + 1)
  end.
Definition allocman_add_simple_untypeds_with_regions (garbage : bool * Z) (simple : option (simple_t W)) (region_list : option (list pmem_region)) : AM Z :=
  let! state := prepare_handle_device_untyped_cap garbage region_list in
  let! total_untyped := on_world (simple_get_untyped_count simple) in
  let! _ := add_simple_uts_loop fuel state simple (wrap total_untyped) 0 in
  let! _ := match state with Some s => free_device_untyped_cap_state s | None => ret tt end in
  ret 0.
Definition allocman_add_simple_untypeds (garbage : bool * Z) (simple : option (simple_t W)) : AM Z :=
  allocman_add_simple_untypeds_with_regions garbage simple None.

(** *** From a [simple_t] *)

Definition bootstrap_use_current_simple (garbage : bool * Z) (simple : option (simple_t W)) (pool_size pool : Z) (w : W) : res (option (sys W)) :=
  let? (args, w) := (let! node := simple_get_cnode simple in
    let! bits := simple_get_cnode_size_bits simple in
    let! last := simple_last_valid_cap fuel simple in
    let! top := simple_get_cnode_size_bits simple in
    ret (node, bits, last, top)) w in
  let '(node, bits, last, top) := args in
  let? s := bootstrap_use_current_1level node (wrap bits) (last ⊞ 1) (BIT top) pool_size pool w in
  match s with
  | None => Ok None
  | Some s => let? (error, s) := allocman_add_simple_untypeds garbage simple s in Ok (if negb (error =? 0) then None else Some s)
  end.

(** What [bootstrap_new_simple] does with the record it made. *)
Definition new_simple (simple : option (simple_t W)) (levels l1size l2size : Z) : M St bool :=
  let! _ := on_info (set_simple simple) in
  let! node := syscall (simple_get_cnode simple) in
  let! bits := syscall (simple_get_cnode_size_bits simple) in
  let! guard := syscall (simple_get_cnode_size_bits simple) in
  let! last := syscall (simple_last_valid_cap fuel simple) in
  let! top := syscall (simple_get_cnode_size_bits simple) in
  let! _ := syscall (new_simple1level (S1Config node (wrap bits) (seL4_WordBits ⊟ guard) (last ⊞ 1) (BIT top))) in
  let! node := syscall (simple_get_cnode simple) in
  let! init_cnode_path := on_system (run self (c_make_path simple1level_interface node)) in
  let! _ := bootstrap_set_boot_cspace simple1level_interface init_cnode_path in
  let! _ := bootstrap_add_untypeds_from_simple simple in
  let! tcb := syscall (simple_get_tcb simple) in
  let! tcb := on_system (run self (c_make_path simple1level_interface tcb)) in
  let! pd := syscall (simple_get_pd simple) in
  let! pd := on_system (run self (c_make_path simple1level_interface pd)) in
  let! alloc := (if levels =? 1 then _bootstrap_new_level1 l1size tcb pd else _bootstrap_new_level2 l1size l2size tcb pd) in
  match alloc with
  | None => ret false
  | Some _ =>
      let! error := bootstrap_transfer_caps_simple simple levels in
      if negb (error =? 0) then ret false else
      let! _ := bootstrap_free_info in ret true
  end.

Definition bootstrap_new_simple (simple : option (simple_t W)) (levels l1size l2size pool_size pool : Z) (w : W) : res (option (sys W)) :=
  let? _ := rassert ((levels =? 1) || (levels =? 2)) in
  let? _ := rassert (0 <? l1size) in
  let? _ := rassert ((levels =? 1) || (0 <? l2size)) in
  from_pool pool_size pool (new_simple simple levels l1size l2size) w.
Definition bootstrap_new_1level_simple (simple : option (simple_t W)) (l1size pool_size pool : Z) : W -> res (option (sys W)) :=
  bootstrap_new_simple simple 1 l1size 0 pool_size pool.
Definition bootstrap_new_2level_simple (simple : option (simple_t W)) (l1size l2size pool_size pool : Z) : W -> res (option (sys W)) :=
  bootstrap_new_simple simple 2 l1size l2size pool_size pool.

(** *** A virtual pool, once there is an address space *)

Definition allocman_sel4_arch_configure_reservations : AM unit :=
  let! _ := allocman_configure_utspace_reserve loops self
    (UtspaceChunk (vka_get_object_size seL4_X86_PageDirectoryObject 0) seL4_X86_PageDirectoryObject 1) in
  let! _ := allocman_configure_utspace_reserve loops self
    (UtspaceChunk (vka_get_object_size seL4_X86_PDPTObject 0) seL4_X86_PDPTObject 1) in
  ret tt.

Definition bootstrap_configure_virtual_pool (mspace vstart vsize pd : Z) : AM unit :=
  let! _ := allocman_configure_utspace_reserve loops self (UtspaceChunk (vka_get_object_size seL4_X86_4K 0) seL4_X86_4K 3) in
  let! _ := allocman_configure_utspace_reserve loops self
    (UtspaceChunk (vka_get_object_size seL4_X86_PageTableObject 0) seL4_X86_PageTableObject 1) in
  let! _ := allocman_sel4_arch_configure_reservations in
  on_world (attach_virtual_pool mspace vstart vsize pd).
End bootstrap.
