(* ===== verification/BootUntypeds.v ===== *)
(** The untypeds a manager starts from (Bootstrap.v): the list of them and how a
    node of capabilities is made from the smallest that is big enough.  What is
    called - the memory of the manager, the slots, the kernel - is arbitrary code
    that returns, and accounts for the slots it gives out and the objects it makes:
    the theorem says which capability each object was made from, in which slot. *)
From S2P Require Import Prelude Cspacepath Interfaces Objects Vka Allocman Simple Bootstrap.

Section untypeds.
Context {W : Type} `{SC : !SeL4Constants} `{KO : !KernelOps W} (self : calls W) (slots : cspace_interface W).
#[local] Notation St := (boot_state W).

(** A retype that the kernel has done: of the untyped at a slot, into a slot. *)
Record retype_call : Type := RetypeCall {
  rc_untyped : Z; rc_type : Z; rc_size : Z; rc_root : Z; rc_dest : Z; rc_depth : Z; rc_offset : Z
}.
Definition call_of (ut : cspacepath_t) (type size : Z) (p : cspacepath_t) : retype_call :=
  RetypeCall (capPtr ut) type size (root p) (dest p) (destDepth p) (offset p).

(** What is called returns.  [made] are the objects made so far, in order, and
    [given] the slots that were given out: the memory is a fixed pool, which makes
    no objects; a slot is given out once; a retype makes one object or none. *)
Class BootReturns : Type := {
  made : W -> list retype_call;
  given : sys W -> gset Z;
  boot_mspace_alloc_returns : forall n b y, exists p e y', call_mspace_alloc self n b y = Ok (p, e, y') /\
    made (world y') = made (world y) /\ given y ⊆ given y';
  boot_mspace_free_returns : forall p n y, exists y', call_mspace_free self p n y = Ok (tt, y') /\
    made (world y') = made (world y) /\ given y ⊆ given y';
  boot_slot_returns : forall y, exists e p y', run self (c_alloc slots) y = Ok (e, p, y') /\
    made (world y') = made (world y) /\ given y ⊆ given y' /\
    (e = 0 -> exists slot, p = Some slot /\ capPtr slot ∉ given y /\ capPtr slot ∈ given y');
  boot_retype_returns : forall ut type size p y, exists e w',
    seL4_Untyped_Retype (capPtr ut) type size (root p) (dest p) (destDepth p) (offset p) 1 (world y) = Ok (e, w') /\
    given y ⊆ given (Sys (am y) w') /\
    made w' = made (world y) ++ (if e =? seL4_NoError then [call_of ut type size p] else [])
}.
Context `{BR : !BootReturns}.

(** From one state of the system to a later one: [extra] was made. *)
Definition later (extra : list retype_call) (y y' : sys W) : Prop :=
  made (world y') = made (world y) ++ extra /\ given y ⊆ given y'.

Lemma later_refl (y : sys W) : later [] y y.
Proof. split; [by rewrite app_nil_r|done]. Qed.

Lemma later_trans (l k : list retype_call) (y1 y2 y3 : sys W) : later l y1 y2 -> later k y2 y3 -> later (l ++ k) y1 y3.
Proof. intros [H1 H2] [H3 H4]. split; [by rewrite H3, H1, app_assoc|by etrans]. Qed.

Lemma later_none (l : list retype_call) (y1 y2 y3 : sys W) : later l y1 y2 -> later [] y2 y3 -> later l y1 y3.
Proof. intros H1 H2. rewrite <- (app_nil_r l). by eapply later_trans. Qed.

(** A computation that returns, leaves the record as it is and makes nothing. *)
Definition quiet {A} (m : M St A) : Prop :=
  forall s, boot_cspace (info s) = slots -> exists a y, m s = Ok (a, BootState (info s) y) /\ later [] (system s) y.

Lemma quiet_ret {A} (a : A) : quiet (ret a).
Proof. intros [i y] _. exists a, y. split; [done|apply later_refl]. Qed.

Lemma quiet_bind {A B} (m : M St A) (k : A -> M St B) : quiet m -> (forall a, quiet (k a)) -> quiet (bind m k).
Proof.
  intros Hm Hk s Hs. destruct (Hm s Hs) as (a & y & E & L). destruct (Hk a (BootState (info s) y) Hs) as (b & y' & E' & L').
  exists b, y'. split; [unfold bind; by rewrite E|by eapply later_none].
Qed.

Lemma quiet_if {A} (b : bool) (m n : M St A) : quiet m -> quiet n -> quiet (if b then m else n).
Proof. by destruct b. Qed.

Lemma quiet_pair {A B C} (k : A -> B -> M St C) (p : A * B) :
  (forall a b, quiet (k a b)) -> quiet (let '(a, b) := p in k a b).
Proof. destruct p. auto. Qed.

Lemma quiet_mspace_alloc (n : Z) : quiet (mspace_alloc self n).
Proof.
  intros s _. destruct (boot_mspace_alloc_returns n true (system s)) as (p & e & y & E & H1 & H2).
  exists (p, e), y. split; [unfold mspace_alloc, on_system; by rewrite E|]. split; [by rewrite app_nil_r|done].
Qed.

Lemma quiet_mspace_free (p n : Z) : quiet (mspace_free self p n).
Proof.
  intros s _. destruct (boot_mspace_free_returns p n (system s)) as (y & E & H1 & H2).
  exists tt, y. split; [unfold mspace_free, on_system; by rewrite E|]. split; [by rewrite app_nil_r|done].
Qed.

Create HintDb quiet.
#[local] Hint Resolve quiet_ret quiet_bind quiet_if quiet_pair quiet_mspace_alloc quiet_mspace_free : quiet.

Lemma quiet_alloc_arrays (n : Z) : quiet (alloc_arrays self n).
Proof. unfold alloc_arrays. repeat (apply quiet_bind; [auto with quiet|intros [? ?]; apply quiet_if; [auto with quiet|]]); auto with quiet. Qed.

Lemma quiet_free_arrays (ptrs : Z * Z * Z * Z) (n : Z) : quiet (free_arrays self ptrs n).
Proof. unfold free_arrays. auto 10 with quiet. Qed.

#[local] Hint Resolve quiet_alloc_arrays quiet_free_arrays : quiet.

(** A slot is new. *)
Lemma boot_alloc_gives (s : St) : boot_cspace (info s) = slots ->
  exists e p y, boot_alloc self s = Ok (e, p, BootState (info s) y) /\ later [] (system s) y /\
    (e = 0 -> exists slot, p = Some slot /\ capPtr slot ∉ given (system s) /\ capPtr slot ∈ given y).
Proof.
  intros Hs. destruct (boot_slot_returns (system s)) as (e & p & y & E & H1 & H2 & H3).
  exists e, p, y. split; [unfold boot_alloc, bind, get_info, gets, on_system; simpl; by rewrite Hs, E|].
  split; [split; [by rewrite app_nil_r|done]|done].
Qed.

(** A retype makes its object, or nothing. *)
Lemma retype_makes (ut : cspacepath_t) (type size : Z) (p : cspacepath_t) (s : St) :
  exists e y, retype ut type size p s = Ok (e, BootState (info s) y) /\
    later (if e =? seL4_NoError then [call_of ut type size p] else []) (system s) y.
Proof.
  destruct (boot_retype_returns ut type size p (system s)) as (e & w & E & H1 & H2).
  eexists e, _. split; [unfold retype, syscall, on_system, on_world; by rewrite E|]. by split.
Qed.

(** Splitting makes both halves, or it is an error. *)
Lemma split_ut_makes (ut p1 p2 : cspacepath_t) (size : Z) (s : St) :
  let calls := [call_of ut seL4_UntypedObject size p1; call_of ut seL4_UntypedObject size p2] in
  exists e y extra, _split_ut ut p1 p2 size s = Ok (e, BootState (info s) y) /\ later extra (system s) y /\
    ((e = 0 /\ extra = calls) \/ (e <> 0 /\ extra `prefix_of` calls)).
Proof.
  intros calls. unfold _split_ut. destruct (retype_makes ut seL4_UntypedObject size p1 s) as (e1 & y1 & E1 & L1).
  erewrite bind_ok by exact E1. destruct (e1 =? seL4_NoError); cbn [negb].
  2: { exists 1, y1, []. split; [done|]. split; [done|]. right. split; [done|apply prefix_nil]. }
  destruct (retype_makes ut seL4_UntypedObject size p2 (BootState (info s) y1)) as (e2 & y2 & E2 & L2).
  erewrite bind_ok by exact E2. pose proof (later_trans _ _ _ _ _ L1 L2) as L. destruct (e2 =? seL4_NoError); cbn [negb].
  - exists 0, y2. eexists. split; [done|]. split; [exact L|]. by left.
  - exists 1, y2. eexists. split; [done|]. split; [exact L|]. right. split; [done|]. by eexists.
Qed.

Lemma retype_cnode_makes (ut cnode : cspacepath_t) (size : Z) (s : St) :
  exists e y extra, _retype_cnode ut cnode size s = Ok (e, BootState (info s) y) /\ later extra (system s) y /\
    ((e = 0 /\ extra = [call_of ut seL4_CapTableObject size cnode]) \/ (e <> 0 /\ extra = [])).
Proof.
  unfold _retype_cnode. destruct (retype_makes ut seL4_CapTableObject size cnode s) as (e & y & E & L).
  erewrite bind_ok by exact E. destruct (e =? seL4_NoError); cbn [negb]; do 3 eexists; (split; [done|]);
    (split; [exact L|]); [by left|by right].
Qed.

(** [step H as x y L]: runs the next computation, which is quiet. *)
Tactic Notation "step" uconstr(H) "as" ident(x) ident(y) ident(L) :=
  let E := fresh "E" in
  match goal with |- context [bind ?m _ ?s] =>
    destruct (H s) as (x & y & E & L); [try done|rewrite (bind_ok m _ s (BootState (info s) y) x E); clear E; cbn [info system] in L |- * ]
  end.

Lemma set_uts_same (i : bootstrap_info W) : set_uts (uts_ptrs i) (uts i) i = i.
Proof. by destruct i. Qed.

Lemma set_uts_set_uts (p q : Z * Z * Z * Z) (l k : list boot_ut) (i : bootstrap_info W) :
  set_uts p l (set_uts q k i) = set_uts p l i.
Proof. by destruct i. Qed.

(** *** Adding and removing *)

Lemma add_ut_spec (u : boot_ut) (s : St) : boot_cspace (info s) = slots ->
  exists e p y, _add_ut self u s =
    Ok (e, BootState (if e =? 0 then set_uts p (uts (info s) ++ [u]) (info s) else info s) y) /\ later [] (system s) y.
Proof.
  intros Hs. unfold _add_ut. erewrite bind_ok by done.
  step (quiet_alloc_arrays (num_uts (info s) + 1)) as r y1 L1. destruct r as [e p]. destruct (Z.eqb_spec e 0) as [->|He]; cbn [negb].
  - assert (Hq : quiet (if have_uts (info s) then free_arrays self (uts_ptrs (info s)) (num_uts (info s)) else ret tt)) by auto with quiet.
    step Hq as u' y2 L2. exists 0, p, y2. split; [done|by eapply later_none].
  - exists e, p, y1. by destruct (Z.eqb_spec e 0).
Qed.

Lemma remove_ut_spec (i : Z) (s : St) : boot_cspace (info s) = slots -> 0 <= i < num_uts (info s) ->
  exists e p y, _remove_ut self i s =
    Ok (e, BootState (if e =? 0 then set_uts p (delete (Z.to_nat i) (uts (info s))) (info s) else info s) y) /\ later [] (system s) y.
Proof.
  intros Hs Hi. unfold _remove_ut. erewrite bind_ok by done. unfold id.
  destruct (Z.eqb_spec (num_uts (info s)) 0); [lia|].
  assert (Hq : quiet (if 1 <? num_uts (info s) then alloc_arrays self (num_uts (info s) - 1) else ret (0, (0, 0, 0, 0)))) by auto with quiet.
  step Hq as r y1 L1. destruct r as [e p]. destruct (Z.eqb_spec e 0) as [->|He]; cbn [negb].
  - step (quiet_free_arrays (uts_ptrs (info s)) (num_uts (info s))) as u' y2 L2. exists 0, p, y2.
    rewrite delete_take_drop. replace (S (Z.to_nat i)) with (Z.to_nat (i + 1)) by lia. split; [done|by eapply later_none].
  - exists e, p, y1. by destruct (Z.eqb_spec e 0).
Qed.

Lemma add_untypeds_one (u : boot_ut) (s : St) : boot_cspace (info s) = slots ->
  exists e p y, bootstrap_add_untypeds self [u] s =
    Ok (e, BootState (if e =? 0 then set_uts p (uts (info s) ++ [u]) (info s) else info s) y) /\ later [] (system s) y.
Proof.
  intros Hs. destruct (add_ut_spec u s Hs) as (e & p & y & E & L). exists e, p, y. split; [|done].
  cbn [bootstrap_add_untypeds]. unfold bind. rewrite E. cbn [res_bind].
  by destruct (Z.eqb_spec e 0) as [->|].
Qed.

(** *** The smallest that is big enough *)

(** An untyped a node can be made from. *)
Definition fits (ut_size : Z) (u : boot_ut) : Prop := ut_size <= bu_size_bits u /\ bu_isDevice u = false.

(** Entry [i] of the list is the first of the smallest of those that fit. *)
Definition is_best (l : list boot_ut) (ut_size : Z) (i : nat) (u : boot_ut) : Prop :=
  l !! i = Some u /\ fits ut_size u /\
  forall j v, l !! j = Some v -> fits ut_size v ->
    bu_size_bits u <= bu_size_bits v /\ ((j < i)%nat -> bu_size_bits u < bu_size_bits v).

(** The search over the entries after [pre] keeps the best of those it has seen. *)
Definition best_so_far (pre : list boot_ut) (ut_size : Z) (best : option (Z * boot_ut)) : Prop :=
  match best with
  | None => forall u, u ∈ pre -> ~ fits ut_size u
  | Some (i, u) => 0 <= i /\ is_best pre ut_size (Z.to_nat i) u
  end.

Lemma fits_test (ut_size : Z) (u : boot_ut) (b : bool) :
  (ut_size <=? bu_size_bits u) && b && negb (bu_isDevice u) = true <-> fits ut_size u /\ b = true.
Proof. unfold fits. destruct (Z.leb_spec ut_size (bu_size_bits u)), b, (bu_isDevice u); simpl; naive_solver lia. Qed.

Lemma best_step_new (pre : list boot_ut) (ut_size : Z) (best : option (Z * boot_ut)) (u : boot_ut) :
  best_so_far pre ut_size best -> fits ut_size u ->
  match best with None => true | Some (_, b) => bu_size_bits u <? bu_size_bits b end = true ->
  best_so_far (pre ++ [u]) ut_size (Some (Z.of_nat (length pre), u)).
Proof.
  intros Hb Hu Hlt. split; [lia|]. rewrite Nat2Z.id. split_and!; [by rewrite list_lookup_middle|done|].
  intros j v [Hv|[Hj Hv]]%lookup_app_Some Hf.
  - enough (bu_size_bits u < bu_size_bits v) by lia. destruct best as [[i b]|].
    + destruct Hb as (_ & _ & _ & Hmin). specialize (Hmin j v Hv Hf). apply Z.ltb_lt in Hlt. lia.
    + destruct (Hb v); [by eapply list_elem_of_lookup_2|done].
  - apply list_lookup_singleton_Some in Hv as [? ->]. split; [lia|]. lia.
Qed.

Lemma best_step_old (pre : list boot_ut) (ut_size : Z) (best : option (Z * boot_ut)) (u : boot_ut) :
  best_so_far pre ut_size best ->
  ~ (fits ut_size u /\ match best with None => true | Some (_, b) => bu_size_bits u <? bu_size_bits b end = true) ->
  best_so_far (pre ++ [u]) ut_size best.
Proof.
  intros Hb Hn. destruct best as [[i b]|]; cbn in Hb |- *.
  - destruct Hb as (Hi & Hl & Hf & Hmin). split; [done|]. split_and!; [by apply lookup_app_l_Some|done|].
    pose proof (lookup_lt_Some _ _ _ Hl).
    intros j v [Hv|[Hj Hv]]%lookup_app_Some Hv'; [by apply Hmin|].
    apply list_lookup_singleton_Some in Hv as [? <-].
    destruct (Z.ltb_spec (bu_size_bits u) (bu_size_bits b)); [naive_solver|lia].
  - intros v Hv. apply elem_of_app in Hv as [Hv| ->%list_elem_of_singleton]; [by apply Hb|naive_solver].
Qed.

Lemma boot_find_best_spec (l pre : list boot_ut) (ut_size : Z) (best : option (Z * boot_ut)) :
  best_so_far pre ut_size best ->
  best_so_far (pre ++ l) ut_size (find_best l (Z.of_nat (length pre)) ut_size best).
Proof.
  revert pre best. induction l as [|u l IH]; intros pre best Hb; cbn [find_best]; [by rewrite app_nil_r|].
  replace (pre ++ u :: l) with ((pre ++ [u]) ++ l) by (by rewrite <- app_assoc).
  replace (Z.of_nat (length pre) + 1) with (Z.of_nat (length (pre ++ [u]))) by (rewrite length_app; simpl; lia).
  destruct (_ && _ && _) eqn:Ht.
  - apply fits_test in Ht as [Hu Hlt]. apply IH, (best_step_new pre ut_size best u Hb Hu Hlt).
  - apply IH, best_step_old; [done|]. intros Hc%fits_test. congruence.
Qed.

(** *** Splitting

    An untyped is split into slots [p1] and [p2]: the capability of the first half
    is in [p1], that of the second in [p2]. *)
Definition first_half (u : boot_ut) (p1 : cspacepath_t) : boot_ut :=
  BootUt p1 (bu_size_bits u - 1) (bu_paddr u) (bu_isDevice u).
Definition second_half (u : boot_ut) (p2 : cspacepath_t) : boot_ut :=
  BootUt p2 (bu_size_bits u - 1)
    (if bu_paddr u =? ALLOCMAN_NO_PADDR then bu_paddr u else bu_paddr u ⊞ BIT (bu_size_bits u - 1)) (bu_isDevice u).

(** Splitting [u], then its second half, and so on, with a pair of slots each time:
    the first halves, the last second half, and the retypes that make them. *)
Fixpoint put_back (u : boot_ut) (ps : list (cspacepath_t * cspacepath_t)) : list boot_ut :=
  match ps with [] => [] | (p1, p2) :: ps => first_half u p1 :: put_back (second_half u p2) ps end.
Fixpoint last_half (u : boot_ut) (ps : list (cspacepath_t * cspacepath_t)) : boot_ut :=
  match ps with [] => u | (p1, p2) :: ps => last_half (second_half u p2) ps end.
Definition split_call (u : boot_ut) (p1 p2 : cspacepath_t) : list retype_call :=
  [call_of (bu_path u) seL4_UntypedObject (bu_size_bits u - 1) p1; call_of (bu_path u) seL4_UntypedObject (bu_size_bits u - 1) p2].
Fixpoint split_calls (u : boot_ut) (ps : list (cspacepath_t * cspacepath_t)) : list retype_call :=
  match ps with [] => [] | (p1, p2) :: ps => split_call u p1 p2 ++ split_calls (second_half u p2) ps end.
Definition slots_of (ps : list (cspacepath_t * cspacepath_t)) : list Z := flat_map (fun p => [capPtr p.1; capPtr p.2]) ps.

(** The slots are different, and none was given out before [y]. *)
Definition new_slots (ps : list (cspacepath_t * cspacepath_t)) (y y' : sys W) : Prop :=
  NoDup (slots_of ps) /\ forall c, c ∈ slots_of ps -> c ∉ given y /\ c ∈ given y'.

Lemma new_slots_nil (y y' : sys W) : new_slots [] y y'.
Proof. split; [apply NoDup_nil_2|]. by intros c Hc%elem_of_nil. Qed.

Lemma new_slots_later (l : list retype_call) ps (y y1 y2 : sys W) : new_slots ps y y1 -> later l y1 y2 -> new_slots ps y y2.
Proof. intros [H1 H2] [_ L]. split; [done|]. intros c Hc. destruct (H2 c Hc). split; [done|by apply L]. Qed.

Lemma new_slots_cons (p1 p2 : cspacepath_t) ps (y y1 y2 y3 : sys W) :
  capPtr p1 ∉ given y -> capPtr p1 ∈ given y1 -> given y ⊆ given y1 ->
  capPtr p2 ∉ given y1 -> capPtr p2 ∈ given y2 -> given y1 ⊆ given y2 ->
  new_slots ps y2 y3 -> given y2 ⊆ given y3 -> new_slots ((p1, p2) :: ps) y y3.
Proof.
  intros H1 H1' L1 H2 H2' L2 [Hnd Hin] L3. unfold new_slots, slots_of in *. simpl.
  assert (Hno : forall c, c ∈ given y2 -> c ∉ flat_map (fun p => [capPtr p.1; capPtr p.2]) ps)
    by (intros c Hc Hps; by destruct (Hin c Hps)).
  split.
  - constructor; [|constructor; [by apply Hno|done]]. rewrite elem_of_cons. intros [Heq|Hps].
    + by apply H2; rewrite <- Heq.
    + by apply (Hno (capPtr p1)); [apply L2|].
  - intros c. rewrite !elem_of_cons. intros [->|[->|Hps]]; [split; [done|by apply L3, L2]|split; [|by apply L3]|].
    + intros Hc. apply H2. by apply L1.
    + destruct (Hin c Hps) as [Hn Hg]. split; [|done]. intros Hc. apply Hn. by apply L2, L1.
Qed.

Lemma length_put_back (u : boot_ut) ps : length (put_back u ps) = length ps.
Proof. revert u. induction ps as [|[p1 p2] ps IH]; intros u; simpl; auto. Qed.

Lemma last_half_size (u : boot_ut) ps : bu_size_bits (last_half u ps) = bu_size_bits u - Z.of_nat (length ps).
Proof. revert u. induction ps as [|[p1 p2] ps IH]; intros u; cbn [last_half length]; [lia|]. rewrite IH. simpl. lia. Qed.

(** The bytes of a list of untypeds. *)
Definition bytes (l : list boot_ut) : Z := foldr (fun u a => 2 ^ bu_size_bits u + a) 0 l.

Lemma bytes_app (l k : list boot_ut) : bytes (l ++ k) = bytes l + bytes k.
Proof. induction l; simpl; lia. Qed.

Lemma bytes_put_back (u : boot_ut) ps : Z.of_nat (length ps) <= bu_size_bits u ->
  bytes (put_back u ps) + 2 ^ (bu_size_bits u - Z.of_nat (length ps)) = 2 ^ bu_size_bits u.
Proof.
  revert u. induction ps as [|[p1 p2] ps IH]; intros u Hn; cbn [put_back bytes foldr length] in *.
  - replace (bu_size_bits u - Z.of_nat 0) with (bu_size_bits u) by lia. lia.
  - specialize (IH (second_half u p2)). cbn [bu_size_bits second_half first_half] in *. specialize (IH ltac:(lia)).
    replace (bu_size_bits u - 1 - Z.of_nat (length ps)) with (bu_size_bits u - Z.of_nat (S (length ps))) in IH by lia.
    fold (bytes (put_back (second_half u p2) ps)).
    replace (2 ^ bu_size_bits u) with (2 * 2 ^ (bu_size_bits u - 1)); [lia|].
    rewrite <- Z.pow_succ_r by lia. f_equal. lia.
Qed.

Lemma bytes_delete (l : list boot_ut) (i : nat) (u : boot_ut) : l !! i = Some u ->
  bytes (delete i l) + 2 ^ bu_size_bits u = bytes l.
Proof.
  revert i. induction l as [|v l IH]; intros [|i] Hi; simplify_eq/=; [lia|].
  specialize (IH i Hi). unfold bytes in *. simpl. change (list_delete i l) with (delete i l) in *. lia.
Qed.

(** What the loop has put back, what it has in its hands and what was made: on an
    error at most a part of one more split. *)
Definition split_result (n : nat) (u : boot_ut) (s : St) (e : Z) (best : boot_ut) (s' : St) : Prop :=
  exists ps p extra, info s' = set_uts p (uts (info s) ++ put_back u ps) (info s) /\
    later (split_calls u ps ++ extra) (system s) (system s') /\ new_slots ps (system s) (system s') /\ (length ps <= n)%nat /\
    if e =? 0 then length ps = n /\ best = last_half u ps /\ extra = []
    else exists a b, extra `prefix_of` split_call (last_half u ps) a b.

Lemma split_result_error (n : nat) (u best : boot_ut) (a b : cspacepath_t) (s : St) (e : Z) (y : sys W) (extra : list retype_call) :
  e <> 0 -> later extra (system s) y -> extra `prefix_of` split_call u a b -> split_result n u s e best (BootState (info s) y).
Proof.
  intros He L Hp. exists [], (uts_ptrs (info s)), extra. cbn [put_back split_calls last_half app info system].
  rewrite app_nil_r, set_uts_same. split_and!; [done|done|apply new_slots_nil|simpl; lia|].
  rewrite (proj2 (Z.eqb_neq e 0)) by done. by exists a, b.
Qed.

(** One more split in front of the others. *)
Lemma split_result_cons (n : nat) (u best : boot_ut) (p1 p2 : cspacepath_t) (ptrs : Z * Z * Z * Z) (s s' : St) (e : Z) (y1 y2 y3 : sys W) :
  capPtr p1 ∉ given (system s) -> capPtr p1 ∈ given y1 -> later [] (system s) y1 ->
  capPtr p2 ∉ given y1 -> capPtr p2 ∈ given y2 -> later [] y1 y2 ->
  later (split_call u p1 p2) y2 y3 ->
  split_result n (second_half u p2) (BootState (set_uts ptrs (uts (info s) ++ [first_half u p1]) (info s)) y3) e best s' ->
  split_result (S n) u s e best s'.
Proof.
  intros H1 H1' L1 H2 H2' L2 L3 (ps & p & extra & Hi & L & Hnew & Hlen & He). cbn [info system] in *.
  exists ((p1, p2) :: ps), p, extra. cbn [put_back split_calls last_half length]. split_and!.
  - rewrite Hi, set_uts_set_uts. cbn [uts set_uts]. by rewrite <- app_assoc.
  - rewrite <- app_assoc. apply (later_trans (split_call u p1 p2) _ _ y3); [|done].
    exact (later_trans [] _ _ _ _ L1 (later_trans [] _ _ _ _ L2 L3)).
  - apply (new_slots_cons p1 p2 ps _ y1 y2); [done|done|apply L1|done|done|apply L2| |].
    + destruct Hnew as [Hnd Hn]. split; [done|]. intros c Hc. destruct (Hn c Hc) as [Hn1 Hn2]. split; [|done].
      intros Hc'. apply Hn1. by apply L3.
    + etrans; [apply L3|apply L].
  - lia.
  - destruct (e =? 0); [|done]. destruct He as (-> & -> & ->). done.
Qed.

Lemma split_loop_spec (fuel : nat) (ut_size : Z) (u : boot_ut) (s : St) :
  boot_cspace (info s) = slots -> 0 <= ut_size <= bu_size_bits u -> bu_size_bits u < 64 ->
  (Z.to_nat (bu_size_bits u - ut_size) <= fuel)%nat ->
  exists e best s', split_loop self fuel ut_size u s = Ok (e, best, s') /\
    split_result (Z.to_nat (bu_size_bits u - ut_size)) u s e best s'.
Proof.
  revert u s. induction fuel as [|fuel IH]; intros u s Hs Hsz H64 Hf; cbn [split_loop].
  all: destruct (Z.ltb_spec ut_size (bu_size_bits u)) as [Hlt|Hge]; cbn [negb]; [try lia|
    exists 0, u, s; split; [done|]; exists [], (uts_ptrs (info s)), []; cbn [put_back app split_calls last_half Z.eqb];
    rewrite app_nil_r, set_uts_same; split_and!;
      [done|apply later_refl|apply new_slots_nil|simpl; lia|simpl; lia|done|done] ].
  set (n := Z.to_nat (bu_size_bits u - ut_size)).
  assert (Hfail : forall e a b y extra, e <> 0 -> later extra (system s) y -> extra `prefix_of` split_call u a b ->
    exists e' best s', Ok (e, u, BootState (info s) y) = Ok (e', best, s') /\ split_result n u s e' best s').
  { intros e a b y extra He L Hp. eexists e, _, _. split; [done|]. by eapply split_result_error. }
  destruct (boot_alloc_gives s Hs) as (e1 & o1 & y1 & E1 & L1 & G1). erewrite bind_ok by exact E1. cbn beta iota.
  destruct (Z.eqb_spec e1 0) as [->|]; cbn [negb]; [|apply (Hfail _ no_path no_path _ []); [done|done|apply prefix_nil] ].
  destruct (G1 eq_refl) as (p1 & -> & Hn1 & Hg1).
  destruct (boot_alloc_gives (BootState (info s) y1) Hs) as (e2 & o2 & y2 & E2 & L2 & G2). erewrite bind_ok by exact E2. cbn beta iota.
  cbn [info system] in L2, G2. pose proof (later_none _ _ _ _ L1 L2) as L12.
  destruct (Z.eqb_spec e2 0) as [->|]; cbn [negb]; [|apply (Hfail _ no_path no_path _ []); [done|done|apply prefix_nil] ].
  destruct (G2 eq_refl) as (p2 & -> & Hn2 & Hg2). cbn [default from_option]. unfold id.
  assert (Hm : bu_size_bits u ⊟ 1 = bu_size_bits u - 1) by (apply wrap_small; unfold is_word, word_size; lia). rewrite Hm.
  destruct (split_ut_makes (bu_path u) p1 p2 (bu_size_bits u - 1) (BootState (info s) y2)) as (e3 & y3 & extra & E3 & L3 & C3).
  cbn [info system] in L3, E3. erewrite bind_ok by exact E3.
  destruct C3 as [[-> ->]|[He3 Hpre]]; [|rewrite (proj2 (Z.eqb_neq e3 0)) by done; cbn [negb];
    apply (Hfail _ p1 p2 _ extra); [done|exact (later_trans [] _ _ _ _ L12 L3)|exact Hpre] ].
  cbn [Z.eqb negb]. fold (split_call u p1 p2) in L3. fold (first_half u p1).
  destruct (add_untypeds_one (first_half u p1) (BootState (info s) y3) Hs) as (e4 & p & y4 & E4 & L4). cbn [info system] in E4, L4.
  erewrite bind_ok by exact E4. pose proof (later_none _ _ _ _ L3 L4) as L34.
  destruct (Z.eqb_spec e4 0) as [->|]; cbn [negb];
    [|apply (Hfail _ p1 p2 _ (split_call u p1 p2)); [done|exact (later_trans [] _ _ _ _ L12 L34)|done] ].
  fold (second_half u p2).
  destruct (IH (second_half u p2) (BootState (set_uts p (uts (info s) ++ [first_half u p1]) (info s)) y4)) as (e & best & s' & E' & Hr);
    [done|simpl; lia|simpl; lia|simpl; lia|].
  exists e, best, s'. split; [exact E'|].
  replace n with (S (Z.to_nat (bu_size_bits (second_half u p2) - ut_size))) by (unfold n; simpl; lia).
  eapply (split_result_cons _ u best p1 p2 p s s' e y1 y2 y4); done.
Qed.

(** *** A node *)

(** What the list has become, and what was made, when untyped [u], entry [i], was
    taken for a node of [size] bits of slots. *)
Definition node_result (size ut_size : Z) (s : St) (i : nat) (u : boot_ut) (e : Z) (slot : cspacepath_t) (s' : St) : Prop :=
  exists ps p extra,
    info s' = set_uts p (delete i (uts (info s)) ++ put_back u ps) (info s) /\
    made (world (system s')) = made (world (system s)) ++ split_calls u ps ++ extra /\
    NoDup (slots_of ps) /\ (forall c, c ∈ slots_of ps -> c ∉ given (system s)) /\
    (length ps <= Z.to_nat (bu_size_bits u - ut_size))%nat /\
    if e =? 0 then
      bu_size_bits (last_half u ps) = ut_size /\
      extra = [call_of (bu_path (last_half u ps)) seL4_CapTableObject size slot] /\
      capPtr slot ∉ given (system s) /\ capPtr slot ∉ slots_of ps /\
      bytes (uts (info s')) + 2 ^ ut_size = bytes (uts (info s))
    else exists a b, extra `prefix_of` split_call (last_half u ps) a b.

Lemma node_bytes (l : list boot_ut) (i : nat) (u : boot_ut) ps :
  l !! i = Some u -> Z.of_nat (length ps) <= bu_size_bits u ->
  bytes (delete i l ++ put_back u ps) + 2 ^ (bu_size_bits u - Z.of_nat (length ps)) = bytes l.
Proof. intros Hi Hsz. rewrite bytes_app, <- (bytes_delete l i u Hi), <- (bytes_put_back u ps Hsz). lia. Qed.

(** The loop failed, or nothing was made after it. *)
Lemma node_error (size ut_size : Z) (s : St) (i : nat) (u best : boot_ut) (p : Z * Z * Z * Z)
    (y0 y : sys W) (e e' : Z) (slot : cspacepath_t) (s1 : St) :
  later [] (system s) y0 ->
  split_result (Z.to_nat (bu_size_bits u - ut_size)) u (BootState (set_uts p (delete i (uts (info s))) (info s)) y0) e best s1 ->
  later [] (system s1) y -> e' <> 0 -> node_result size ut_size s i u e' slot (BootState (info s1) y).
Proof.
  intros L0 (ps & q & extra & Hi & L & [Hnd Hnew] & Hlen & He) L1 He'. cbn [info system] in *.
  exists ps, q, extra. cbn [info system]. rewrite Hi, set_uts_set_uts. cbn [uts set_uts]. split_and!; [done| |done| |done|].
  - pose proof (later_trans [] _ _ _ _ L0 (later_none _ _ _ _ L L1)) as [Hm _]. exact Hm.
  - intros c Hc Hg. destruct (Hnew c Hc) as [Hn _]. apply Hn. by apply L0.
  - rewrite (proj2 (Z.eqb_neq e' 0)) by done. destruct (e =? 0); [|done].
    destruct He as (_ & _ & ->). exists no_path, no_path. apply prefix_nil.
Qed.

(** The node was made of what the loop left. *)
Lemma node_made (size ut_size : Z) (s : St) (i : nat) (u best : boot_ut) (p : Z * Z * Z * Z)
    (y0 y2 y : sys W) (slot : cspacepath_t) (s1 : St) :
  uts (info s) !! i = Some u -> 0 <= ut_size <= bu_size_bits u -> later [] (system s) y0 ->
  split_result (Z.to_nat (bu_size_bits u - ut_size)) u (BootState (set_uts p (delete i (uts (info s))) (info s)) y0) 0 best s1 ->
  later [] (system s1) y2 -> capPtr slot ∉ given (system s1) ->
  later [call_of (bu_path best) seL4_CapTableObject size slot] y2 y ->
  node_result size ut_size s i u 0 slot (BootState (info s1) y).
Proof.
  intros Hl Hsz L0 (ps & q & extra & Hi & L & [Hnd Hnew] & Hlen & He) L2 Hslot L3. cbn [info system Z.eqb] in *.
  destruct He as (Hlen' & -> & ->). rewrite app_nil_r in L.
  exists ps, q, [call_of (bu_path (last_half u ps)) seL4_CapTableObject size slot]. cbn [info system Z.eqb].
  rewrite Hi, set_uts_set_uts. cbn [uts set_uts]. split_and!; [done| |done| |done| |done| | |].
  - pose proof (later_trans [] _ _ _ _ L0 (later_trans _ _ _ _ _ (later_none _ _ _ _ L L2) L3)) as [Hm _]. exact Hm.
  - intros c Hc Hg. destruct (Hnew c Hc) as [Hn _]. apply Hn. by apply L0.
  - rewrite last_half_size. lia.
  - intros Hg. apply Hslot. apply L. by apply L0.
  - intros Hc. destruct (Hnew _ Hc) as [_ Hg]. done.
  - replace ut_size with (bu_size_bits u - Z.of_nat (length ps)) by lia. apply node_bytes; [done|lia].
Qed.

(** What [bootstrap_allocate_cnode] does once it has found its untyped. *)
Lemma allocate_from (size ut_size : Z) (s : St) (i : Z) (u : boot_ut) :
  boot_cspace (info s) = slots -> 0 <= i -> uts (info s) !! Z.to_nat i = Some u ->
  0 <= ut_size <= bu_size_bits u -> bu_size_bits u < 64 ->
  exists e slot s',
    (let! error := _remove_ut self i in
     if negb (error =? 0) then ret (error, no_path) else
     let! (error, best) := split_loop self 64 ut_size u in
     if negb (error =? 0) then ret (error, no_path) else
     let! (error, slot) := boot_alloc self in
     if negb (error =? 0) then ret (error, no_path) else
     let slot := default no_path slot in
     let! error := _retype_cnode (bu_path best) slot size in
     ret (error, slot)) s = Ok (e, slot, s') /\
    ((e <> 0 /\ info s' = info s /\ made (world (system s')) = made (world (system s))) \/
     node_result size ut_size s (Z.to_nat i) u e slot s').
Proof.
  intros Hs Hi Hl Hsz H64. pose proof (lookup_lt_Some _ _ _ Hl) as Hlen.
  destruct (remove_ut_spec i s Hs) as (e & p & y & E & L0); [unfold num_uts; lia|].
  erewrite bind_ok by exact E. destruct (Z.eqb_spec e 0) as [->|He]; cbn [negb].
  2: { eexists e, _, _. split; [done|]. left. split; [done|]. split; [done|]. destruct L0 as [H0 _]. by rewrite app_nil_r in H0. }
  set (s0 := BootState (set_uts p _ _) y) in *.
  destruct (split_loop_spec 64 ut_size u s0) as (e1 & best & s1 & E1 & Hr); [done|done|done|lia|].
  erewrite bind_ok by exact E1. cbn beta iota.
  assert (Hs1 : boot_cspace (info s1) = slots) by (destruct Hr as (ps & q & extra & -> & _); done).
  assert (Hfail : forall e' y', e' <> 0 -> later [] (system s1) y' -> exists e slot s', Ok (e', no_path, BootState (info s1) y') = Ok (e, slot, s') /\
    ((e <> 0 /\ info s' = info s /\ made (world (system s')) = made (world (system s))) \/
     node_result size ut_size s (Z.to_nat i) u e slot s')).
  { intros e' y' He' L'. eexists e', _, _. split; [done|]. right. by eapply node_error with (s1 := s1). }
  destruct (Z.eqb_spec e1 0) as [->|]; cbn [negb]; [|destruct s1; apply Hfail; [done|apply later_refl] ].
  destruct (boot_alloc_gives s1 Hs1) as (e2 & o & y2 & E2 & L2 & G2). erewrite bind_ok by exact E2. cbn beta iota.
  destruct (Z.eqb_spec e2 0) as [->|]; cbn [negb]; [|by apply Hfail]. destruct (G2 eq_refl) as (slot & -> & Hn & _).
  cbn [default from_option]. unfold id.
  destruct (retype_cnode_makes (bu_path best) slot size (BootState (info s1) y2)) as (e3 & y3 & extra & E3 & L3 & C3).
  cbn [info system] in E3, L3. erewrite bind_ok by exact E3. eexists e3, _, _. split; [done|]. right.
  destruct C3 as [[-> ->]|[He3 ->]]; [by eapply node_made with (s1 := s1)|].
  eapply node_error with (s1 := s1); [done|exact Hr|by eapply later_none|done].
Qed.

(** C23: [bootstrap_allocate_cnode] returns, whatever the manager's memory, the
    slots and the kernel answer.  Without a root of slots, or when no untyped
    that is not a device's is big enough, it is an error and nothing changes.
    Otherwise it takes the smallest (the first of them) and splits it, its second
    half and so on, each time by two retypes of the capability it has at that
    point, into two slots that are new, until the second half has the size of the
    node; it retypes that half's capability into a node, in another new slot.  The
    list is then the old one without the untyped but with the first halves, each
    with the capability, size and address of its own, and its bytes plus those of
    the node are those of the list before.  On an error the list has the first
    halves of the splits that were complete, and nothing is made but a part of
    the next split. *)
Theorem allocate_cnode_spec (size : Z) (s : St) :
  boot_cspace (info s) = slots -> (forall u, u ∈ uts (info s) -> bu_size_bits u < 64) ->
  let ut_size := size ⊞ seL4_SlotBits in
  exists e slot s', bootstrap_allocate_cnode self size s = Ok (e, slot, s') /\
    ((e = 1 /\ s' = s /\ (have_boot_cspace (info s) = false \/ forall u, u ∈ uts (info s) -> ~ fits ut_size u)) \/
     (have_boot_cspace (info s) = true /\ exists i u, is_best (uts (info s)) ut_size i u /\
       ((e <> 0 /\ info s' = info s /\ made (world (system s')) = made (world (system s))) \/
        node_result size ut_size s i u e slot s'))).
Proof.
  intros Hs H64 ut_size. unfold bootstrap_allocate_cnode. erewrite bind_ok by done. unfold id. fold ut_size.
  destruct (have_boot_cspace (info s)) eqn:Hh; cbn [negb]; [|eexists 1, _, s; split; [done|left; auto] ].
  pose proof (boot_find_best_spec (uts (info s)) [] ut_size None) as Hb. cbn [app length Z.of_nat] in Hb.
  specialize (Hb ltac:(by intros u' Hu'%elem_of_nil)). change (Z.of_nat 0) with 0 in Hb. unfold best_so_far, is_best in Hb.
  destruct (find_best (uts (info s)) 0 ut_size None) as [[i u]|].
  - destruct Hb as [Hi (Hl & [Hf Hd] & Hmin)].
    rewrite Hd. erewrite bind_ok by done.
    assert (Hu : u ∈ uts (info s)) by (by eapply list_elem_of_lookup_2).
    assert (0 <= ut_size) by apply wrap_word.
    destruct (allocate_from size ut_size s i u) as (e & slot & s' & E & Hr); [done|done|done|lia|by apply H64|].
    exists e, slot, s'. split; [exact E|]. right. split; [done|]. exists (Z.to_nat i), u. by split.
  - eexists 1, _, s. split; [done|]. left. split_and!; [done|done|]. by right.
Qed.
End untypeds.

(** ** An example *)

(** A system whose slots are numbered upwards; memory never runs out, and the
    kernel makes whatever it is asked for. *)
Record toy_start : Type := ToyStart { next_slot : nat; retyped : list retype_call }.

#[export] Instance toy_start_kernel : KernelOps toy_start := {|
  seL4_CNode_Delete := fun _ _ _ => ret 0;
  seL4_CNode_Move := fun _ _ _ _ _ _ => ret 0;
  seL4_Untyped_Retype := fun ut type size root dest depth off _ w =>
    Ok (0, ToyStart (next_slot w) (retyped w ++ [RetypeCall ut type size root dest depth off]))
|}.

Definition toy_slots : cspace_interface toy_start :=
  CspaceInterface
    (Read (fun w => Write (ToyStart (S (next_slot w)) (retyped w))
      (Return (0, Some (Cspacepath (Z.of_nat (next_slot w)) 64 2 2 64 (Z.of_nat (next_slot w)) 1)))))
    (fun _ => Return tt) (fun slot => Return (Cspacepath slot 64 2 2 64 slot 1)) ALLOCMAN_DEFAULT_PROPERTIES.

Definition toy_start_calls : calls toy_start :=
  Calls (fun _ _ => ret (4096, 0)) (fun _ => ret (0, Some (Cspacepath 40 64 2 2 64 40 1))) (fun _ _ _ _ _ _ => ret (7, 0))
    (fun _ _ => ret tt) (fun _ => ret tt) (fun _ _ => ret tt).

Definition toy_given (n : nat) : gset Z := list_to_set (Z.of_nat <$> seq 0 n).

Lemma elem_of_toy_given (n : nat) (c : Z) : c ∈ toy_given n <-> 0 <= c < Z.of_nat n.
Proof.
  unfold toy_given. rewrite elem_of_list_to_set, list_elem_of_fmap. split.
  - intros (k & -> & Hk%elem_of_seq). lia.
  - intros Hc. exists (Z.to_nat c). split; [lia|]. apply elem_of_seq. lia.
Qed.

#[export] Program Instance toy_start_returns : BootReturns toy_start_calls toy_slots := {|
  made := retyped; given y := toy_given (next_slot (world y))
|}.
Next Obligation. intros. by eexists 4096, 0, _. Qed.
Next Obligation. intros. by eexists. Qed.
Next Obligation.
  intros y. do 3 eexists. split; [reflexivity|]. split; [done|]. cbn -[toy_given]. split.
  - intros c. rewrite !elem_of_toy_given. lia.
  - intros _. eexists. split; [done|]. cbn -[toy_given]. rewrite !elem_of_toy_given. lia.
Qed.
Next Obligation. intros. do 2 eexists. split; [reflexivity|]. by split. Qed.

Definition toy_ut (slot size_bits paddr : Z) (device : bool) : boot_ut := BootUt (Cspacepath slot 64 2 2 64 slot 1) size_bits paddr device.

(** A device's untyped of 2^12 bytes, and two of memory, of 2^14 and 2^12 bytes. *)
Definition toy_boot_state : boot_state toy_start :=
  BootState (BootstrapInfo 512 true no_path toy_slots no_path no_path no_path true (4096, 8192, 12288, 16384)
      [toy_ut 20 12 32768 true; toy_ut 21 14 65536 false; toy_ut 22 12 1048576 false] None)
    (allocman_create (MspaceInterface (fun _ => Return (0, 0)) (fun _ _ => Return tt) ALLOCMAN_DEFAULT_PROPERTIES) (ToyStart 30 [])).

Lemma toy_boot_sizes : forall u, u ∈ uts (info toy_boot_state) -> bu_size_bits u < 64.
Proof. intros u Hu. simpl in Hu. repeat (apply elem_of_cons in Hu as [->|Hu]; [simpl; lia|]). by apply elem_of_nil in Hu. Qed.

(** A node of 2^5 slots takes 2^10 bytes: the untyped of 2^12 is split twice, the
    second time from its second half, whose own second half is made a node. *)
Example node_of_five_bits : exists s', bootstrap_allocate_cnode toy_start_calls 5 toy_boot_state = Ok (0, Cspacepath 34 64 2 2 64 34 1, s') /\
  uts (info s') = [toy_ut 20 12 32768 true; toy_ut 21 14 65536 false; toy_ut 30 11 1048576 false; toy_ut 32 10 1050624 false] /\
  (fun c => (rc_untyped c, rc_type c, rc_size c, rc_offset c)) <$> retyped (world (system s')) =
    [(22, 0, 11, 30); (22, 0, 11, 31); (31, 0, 10, 32); (31, 0, 10, 33); (33, 4, 5, 34)].
Proof. eexists. split; [by vm_compute|]. by vm_compute. Qed.

Lemma allocate_cnode_spec_witness : boot_cspace (info toy_boot_state) = toy_slots /\
  exists e slot s', bootstrap_allocate_cnode toy_start_calls 5 toy_boot_state = Ok (e, slot, s') /\
    ((e = 1 /\ s' = toy_boot_state /\
       (have_boot_cspace (info toy_boot_state) = false \/ forall u, u ∈ uts (info toy_boot_state) -> ~ fits 10 u)) \/
     (have_boot_cspace (info toy_boot_state) = true /\ exists i u, is_best (uts (info toy_boot_state)) 10 i u /\
       ((e <> 0 /\ info s' = info toy_boot_state /\ retyped (world (system s')) = []) \/
        node_result toy_start_calls toy_slots 5 10 toy_boot_state i u e slot s'))).
Proof.
  split; [done|].
  exact (allocate_cnode_spec toy_start_calls toy_slots 5 toy_boot_state eq_refl toy_boot_sizes).
Defined.
