(* ===== verification/BootDevices.v ===== *)
(** The untyped memory of devices that is in part ordinary memory
    (Bootstrap.v): how it is taken apart at the bounds of the platform's
    regions.  What is called - the slots, the allocator the untyped is handed to,
    the manager's own allocator - is arbitrary code. *)
From S2P Require Import Prelude Cspacepath Interfaces Objects Vka Allocman Simple Bootstrap.

(** ** The largest piece from an address *)

Lemma divide_pow2_le (n m x : Z) : 0 <= n <= m -> (2 ^ m | x) -> (2 ^ n | x).
Proof. intros H Hx. etransitivity; [|exact Hx]. exists (2 ^ (m - n)). rewrite <- Z.pow_add_r by lia. f_equal. lia. Qed.

Lemma divide_CTZL (x n : Z) : is_word x -> x <> 0 -> 0 <= n -> (2 ^ n | x) <-> n <= CTZL x.
Proof.
  intros Hx H0 Hn. destruct (lowest_bit x Hx H0) as (Hr & Ht & Hl). split.
  - intros Hd%Z.mod_divide; [|lia]. destruct (decide (n <= CTZL x)); [done|].
    rewrite <- (Z.mod_pow2_bits_low x n (CTZL x)), Hd, Z.bits_0 in Ht by lia. done.
  - intros Hle. apply Z.mod_divide; [lia|]. apply Z.bits_inj_0. intros i.
    destruct (decide (i < 0)); [by apply Z.testbit_neg_r|].
    destruct (decide (i < n)); [|by apply Z.mod_pow2_bits_high; lia].
    rewrite Z.mod_pow2_bits_low by lia. apply Hl. lia.
Qed.

(** The alignment of an address, at most [max]. *)
Definition alignment_bits (max base : Z) : Z := if base =? 0 then max else Z.min (CTZL base) max.

Section alignment.
Context (max : Z) (Hmax : 0 <= max < 63).
#[local] Notation align := (alignment_bits max).

Lemma align_range (base : Z) : is_word base -> 0 <= align base <= max.
Proof.
  intros Hb. unfold alignment_bits. destruct (Z.eqb_spec base 0); [lia|].
  destruct (lowest_bit base) as (Hr & _); [done|done|]. lia.
Qed.

Lemma align_divide (base n : Z) : is_word base -> 0 <= n <= max -> (2 ^ n | base) <-> n <= align base.
Proof.
  intros Hb Hn. unfold alignment_bits. destruct (Z.eqb_spec base 0) as [->|H0].
  - split; [lia|]. intros _. apply Z.divide_0_r.
  - rewrite divide_CTZL by (done || lia). lia.
Qed.

(** The bits of the piece from [base] on the way to [goal]. *)
Definition piece_bits (base goal : Z) : Z := Z.min (align base) (Z.log2 (goal - base)).

Lemma piece_bits_range (base goal : Z) : is_word base -> base < goal ->
  0 <= piece_bits base goal <= max /\ (2 ^ piece_bits base goal | base) /\ base + 2 ^ piece_bits base goal <= goal.
Proof.
  intros Hb Hlt. pose proof (align_range base Hb). unfold piece_bits.
  pose proof (Z.log2_nonneg (goal - base)). pose proof (Z.log2_spec (goal - base) ltac:(lia)) as [Hlog _].
  split_and!; [lia..| |].
  - apply align_divide; [done|lia|lia].
  - pose proof (Z.pow_le_mono_r 2 (Z.min (align base) (Z.log2 (goal - base))) (Z.log2 (goal - base)) ltac:(lia) ltac:(lia)). lia.
Qed.

Lemma get_next_alignment_bits_ok (base goal : Z) : is_word base -> is_word goal -> base < goal ->
  get_next_alignment_bits base goal max = Ok (piece_bits base goal).
Proof.
  intros Hb Hg Hlt. unfold get_next_alignment_bits, MIN. pose proof (align_range base Hb).
  assert (Ha : (if base =? 0 then max else if CTZL base <? max then CTZL base else max) = align base).
  { unfold alignment_bits. destruct (Z.eqb_spec base 0); [done|]. destruct (Z.ltb_spec (CTZL base) max); lia. }
  rewrite Ha, BIT_pow, wrap_small by (unfold is_word in *; lia).
  pose proof (Z.log2_nonneg (goal - base)). pose proof (Z.log2_spec (goal - base) ltac:(lia)) as [Hl Hh].
  assert (0 < 2 ^ align base) by (apply Z.pow_pos_nonneg; lia).
  unfold piece_bits, CLZL, seL4_WordBits, CONFIG_WORD_SIZE.
  destruct (Z.ltb_spec (goal - base) (2 ^ align base)) as [Hc|Hc].
  - destruct (Z.eqb_spec (goal - base) 0); [lia|]. apply Z.log2_lt_pow2 in Hc; [|lia]. f_equal. lia.
  - destruct (Z.eqb_spec (2 ^ align base) 0); [lia|]. apply Z.log2_le_pow2 in Hc; [|lia].
    rewrite Z.log2_pow2 by lia. f_equal. lia.
Qed.

(** How many pieces there may still be: while the alignment is what bounds them it
    grows; after that the bits of what is left decrease. *)
Definition pieces_left (base goal : Z) : Z :=
  if goal <=? base then 0
  else if 2 ^ align base <=? goal - base then 128 - align base else Z.log2 (goal - base) + 1.

Lemma pieces_left_pos (base goal : Z) : is_word base -> base < goal -> 0 < pieces_left base goal.
Proof.
  intros Hb Hlt. unfold pieces_left. pose proof (align_range base Hb). pose proof (Z.log2_nonneg (goal - base)).
  destruct (Z.leb_spec goal base); [lia|]. destruct (Z.leb_spec (2 ^ align base) (goal - base)); lia.
Qed.

Lemma pieces_left_bound (base goal : Z) : is_word base -> is_word goal -> pieces_left base goal <= 128.
Proof.
  intros Hb Hg. unfold pieces_left. pose proof (align_range base Hb).
  destruct (Z.leb_spec goal base); [lia|]. destruct (Z.leb_spec (2 ^ align base) (goal - base)); [lia|].
  assert (Z.log2 (goal - base) < 64) by (apply Z.log2_lt_pow2; [lia|rewrite <- word_size_pow; unfold is_word in *; lia]). lia.
Qed.

(** An address that is not more aligned becomes so. *)
Lemma align_grows (base : Z) : is_word base -> is_word (base + 2 ^ align base) -> align base < max ->
  align base + 1 <= align (base + 2 ^ align base).
Proof.
  intros Hb Hb' Hlt. pose proof (align_range base Hb). apply align_divide; [done|lia|].
  assert (Hd : (2 ^ align base | base)) by (apply align_divide; [done|lia|lia]).
  assert (Hn : ~ (2 ^ (align base + 1) | base)) by (rewrite align_divide by (done || lia); lia).
  destruct Hd as [k Hk]. rewrite Z.pow_add_r, Z.pow_1_r in Hn |- * by lia. set (a := 2 ^ align base) in *.
  destruct (Z.Even_or_Odd k) as [[j Hj]|[j Hj]].
  - destruct Hn. exists j. rewrite Hk, Hj. ring.
  - exists (j + 1). rewrite Hk, Hj. ring.
Qed.

Lemma pieces_left_decreases (base goal : Z) :
  is_word base -> is_word goal -> base < goal -> goal - base <= 2 ^ max ->
  pieces_left (base + 2 ^ piece_bits base goal) goal < pieces_left base goal.
Proof.
  intros Hb Hg Hlt Hle. pose proof (align_range base Hb) as Ha.
  destruct (piece_bits_range base goal Hb Hlt) as (Hp & Hd & Hpl).
  destruct (decide (base + 2 ^ piece_bits base goal = goal)) as [->|Hne].
  { unfold pieces_left at 1. rewrite Z.leb_refl. by apply pieces_left_pos. }
  pose proof (Z.log2_nonneg (goal - base)). pose proof (Z.log2_spec (goal - base) ltac:(lia)) as [Hl Hh].
  assert (0 < 2 ^ piece_bits base goal) by (apply Z.pow_pos_nonneg; lia).
  assert (Hb' : is_word (base + 2 ^ piece_bits base goal)) by (unfold is_word in *; lia).
  unfold pieces_left. destruct (Z.leb_spec goal base), (Z.leb_spec goal (base + 2 ^ piece_bits base goal)); [lia..|].
  remember (goal - (base + 2 ^ piece_bits base goal)) as rem' eqn:Erem.
  assert (Hpos : 0 < rem' < word_size) by (unfold is_word in *; lia).
  destruct (Z.leb_spec (2 ^ align base) (goal - base)) as [Hc|Hc].
  - assert (Hbits : piece_bits base goal = align base).
    { unfold piece_bits. apply Z.log2_le_pow2 in Hc; lia. }
    rewrite Hbits in *. assert (align base < max).
    { destruct (decide (align base = max)) as [E|]; [|lia]. rewrite E in *. lia. }
    pose proof (align_grows base Hb Hb' ltac:(done)).
    destruct (Z.leb_spec (2 ^ align (base + 2 ^ align base)) rem'); [lia|].
    assert (Z.log2 rem' < 64); [|lia]. apply Z.log2_lt_pow2; [lia|]. rewrite <- word_size_pow. lia.
  - assert (Hlog : Z.log2 (goal - base) < align base) by (apply Z.log2_lt_pow2; lia).
    assert (Hbits : piece_bits base goal = Z.log2 (goal - base)) by (unfold piece_bits; lia).
    rewrite Hbits in *. assert (Hrem : rem' < 2 ^ Z.log2 (goal - base)).
    { rewrite Z.pow_succ_r in Hh by lia. lia. }
    assert (Hal : Z.log2 (goal - base) <= align (base + 2 ^ Z.log2 (goal - base))).
    { apply align_divide; [done|lia|]. apply Z.divide_add_r; [done|apply Z.divide_refl]. }
    pose proof (Z.pow_le_mono_r 2 _ _ ltac:(lia) Hal).
    destruct (Z.leb_spec (2 ^ align (base + 2 ^ Z.log2 (goal - base))) rem'); [lia|].
    assert (Z.log2 rem' < Z.log2 (goal - base)); [|lia]. apply Z.log2_lt_pow2; lia.
Qed.
End alignment.

(** ** Taking it apart *)

Section devices.
Context {W : Type} `{SC : !SeL4Constants} (cfg : bootstrap_config) (self : calls W) (loops fuel : nat).
Context (Hmax : 0 <= seL4_MaxUntypedBits cfg < 63).
#[local] Notation AM := (M (sys W)).
#[local] Notation max := (seL4_MaxUntypedBits cfg).

(** A piece: its address, its bits, and as what it is given to the manager. *)
Definition piece : Type := Z * Z * Z.

(** Takes a piece out of the allocator that has the untyped. *)
Definition sub_allocation (u : utspace_interface W) (p : piece) : AM unit :=
  let '(base, bits, untyped_type) := p in
  let! (error, path) := call_cspace_alloc self true in
  let! _ := fatal_on (negb (error =? 0)) in
  let path := default no_path path in
  let! (_, error) := run self (u_alloc u bits seL4_UntypedObject path base true) in
  let! _ := fatal_on (negb (error =? 0)) in
  let! error := allocman_utspace_add_uts loops self [(path, bits, base)] untyped_type in
  fatal_on (negb (error =? 0)).

Fixpoint sub_allocations (u : utspace_interface W) (l : list piece) : AM unit :=
  match l with
  | [] => ret tt
  | p :: l => let! _ := sub_allocation u p in sub_allocations u l
  end.

Lemma sub_allocations_app (u : utspace_interface W) (l k : list piece) (s : sys W) :
  sub_allocations u (l ++ k) s = (let! _ := sub_allocations u l in sub_allocations u k) s.
Proof.
  revert s. induction l as [|p l IH]; intros s; [done|]. cbn [app sub_allocations].
  unfold bind in *. destruct (sub_allocation u p s) as [[[] s']|]; cbn [res_bind]; [apply IH|done].
Qed.

(** Aligned pieces that follow each other from [lo] to [hi]. *)
Inductive tiles : Z -> Z -> list piece -> Prop :=
  | tiles_done lo : tiles lo lo []
  | tiles_piece lo hi bits ty l : 0 <= bits <= max -> (2 ^ bits | lo) -> tiles (lo + 2 ^ bits) hi l ->
      tiles lo hi ((lo, bits, ty) :: l).

Lemma tiles_app (lo mid hi : Z) (l k : list piece) : tiles lo mid l -> tiles mid hi k -> tiles lo hi (l ++ k).
Proof. induction 1; cbn [app]; [done|]. intros. constructor; auto. Qed.

Lemma tiles_le (lo hi : Z) (l : list piece) : tiles lo hi l -> lo <= hi.
Proof. induction 1; [lia|]. assert (0 < 2 ^ bits) by (apply Z.pow_pos_nonneg; lia). lia. Qed.

(** Each piece is between the bounds. *)
Lemma tiles_within (lo hi : Z) (l : list piece) : tiles lo hi l -> forall p, p ∈ l -> lo <= p.1.1 /\ p.1.1 + 2 ^ p.1.2 <= hi.
Proof.
  induction 1 as [|lo hi bits ty l Hb Hd Ht IH]; intros p Hp; [by apply elem_of_nil in Hp|].
  assert (0 < 2 ^ bits) by (apply Z.pow_pos_nonneg; lia). apply tiles_le in Ht.
  apply elem_of_cons in Hp as [->|Hp]; [simpl; lia|]. destruct (IH p Hp). lia.
Qed.

Lemma perform_sub_allocation_piece (u : utspace_interface W) (base goal ty : Z) (s : sys W) :
  is_word base -> is_word goal -> base < goal ->
  perform_sub_allocation cfg self loops base goal u ty s =
    (let! _ := sub_allocation u (base, piece_bits max base goal, ty) in ret (BIT (piece_bits max base goal))) s.
Proof.
  intros Hb Hg Hlt. unfold perform_sub_allocation, lift. rewrite get_next_alignment_bits_ok by done.
  unfold sub_allocation, bind. cbn [res_bind]. generalize (piece_bits max base goal). intros bits.
  destruct (call_cspace_alloc self true s) as [[[e p] s1]|]; cbn [res_bind]; [|done].
  destruct (fatal_on (negb (e =? 0)) s1) as [[[] s2]|]; cbn [res_bind]; [|done].
  destruct (run self _ s2) as [[[c e'] s3]|]; cbn [res_bind]; [|done].
  destruct (fatal_on (negb (e' =? 0)) s3) as [[[] s4]|]; cbn [res_bind]; [|done].
  by destruct (allocman_utspace_add_uts loops self _ ty s4) as [[e'' s5]|]; cbn [res_bind].
Qed.

(** A loop that takes pieces on the way to [goal], and what it has done when it
    gets there. *)
Section a_loop.
Context {A : Type} (L : nat -> Z -> AM A) (u : utspace_interface W) (lo goal ty : Z).
Context (Hlo : 0 <= lo) (Hgoal : is_word goal).
Context (L_step : forall n p s, lo <= p < goal -> L (S n) p s =
  (let! r := perform_sub_allocation cfg self loops p goal u ty in let! _ := fatal_on (BIT 63 <=? r) in L n (p ⊞ r)) s).

Lemma loop_step (n : nat) (p : Z) (s : sys W) : lo <= p < goal ->
  L (S n) p s = (let! _ := sub_allocation u (p, piece_bits max p goal, ty) in L n (p + 2 ^ piece_bits max p goal)) s.
Proof.
  intros Hp. assert (is_word p) by (unfold is_word in *; lia).
  destruct (piece_bits_range max Hmax p goal) as (Hr & _ & Hle); [done|lia|].
  assert (0 < 2 ^ piece_bits max p goal) by (apply Z.pow_pos_nonneg; lia).
  rewrite L_step by done. unfold bind at 1. rewrite perform_sub_allocation_piece by (done || lia).
  unfold bind. destruct (sub_allocation u _ s) as [[[] s']|]; cbn [res_bind ret]; [|done].
  rewrite !BIT_pow by lia. assert (2 ^ piece_bits max p goal < 2 ^ 63) by (apply Z.pow_lt_mono_r; lia).
  destruct (Z.leb_spec (2 ^ 63) (2 ^ piece_bits max p goal)); [lia|]. cbn [fatal_on ret res_bind].
  by rewrite wrap_small by (unfold is_word in *; lia).
Qed.

Lemma loop_pieces (m k : nat) (p : Z) : lo <= p <= goal -> goal - p <= 2 ^ max -> pieces_left max p goal <= Z.of_nat m ->
  exists l k', (k <= k')%nat /\ tiles p goal l /\ (forall x, x ∈ l -> x.2 = ty) /\
    forall s, L (m + k)%nat p s = (let! _ := sub_allocations u l in L k' goal) s.
Proof.
  revert p. induction m as [|m IH]; intros p Hp Hd Hm.
  all: assert (is_word p) by (unfold is_word in *; lia).
  all: destruct (decide (p = goal)) as [->|Hne].
  1, 3: eexists [], _; split_and!; [|constructor|by intros x ?%elem_of_nil|done]; lia.
  - pose proof (pieces_left_pos max Hmax p goal ltac:(done) ltac:(lia)). lia.
  - destruct (piece_bits_range max Hmax p goal) as (Hr & Hdv & Hle); [done|lia|].
    assert (0 < 2 ^ piece_bits max p goal) by (apply Z.pow_pos_nonneg; lia).
    pose proof (pieces_left_decreases max Hmax p goal ltac:(done) Hgoal ltac:(lia) Hd).
    destruct (IH (p + 2 ^ piece_bits max p goal)) as (l & k' & Hk & Ht & Hty & HL); [lia..|].
    exists ((p, piece_bits max p goal, ty) :: l), k'. split_and!; [done|by constructor| |].
    + intros x [->|Hx]%elem_of_cons; [done|by apply Hty].
    + intros s. cbn [Nat.add sub_allocations]. rewrite loop_step by lia. unfold bind in *.
      destruct (sub_allocation u _ s) as [[[] s']|]; cbn [res_bind]; [apply HL|done].
Qed.

(** With as many rounds as there can be pieces, and more. *)
Lemma loop_all (n : nat) (p : Z) : lo <= p <= goal -> goal - p <= 2 ^ max -> (128 <= n)%nat ->
  exists l k', (n - 128 <= k')%nat /\ tiles p goal l /\ (forall x, x ∈ l -> x.2 = ty) /\
    forall s, L n p s = (let! _ := sub_allocations u l in L k' goal) s.
Proof.
  intros Hp Hd Hn. pose proof (pieces_left_bound max Hmax p goal ltac:(unfold is_word in *; lia) Hgoal).
  destruct (loop_pieces 128 (n - 128) p Hp Hd) as (l & k' & Hk & Ht & Hty & HL); [lia|].
  exists l, k'. split_and!; [done..|]. intros s. rewrite <- HL. f_equal. lia.
Qed.
End a_loop.

(** ** Regions *)

Definition region_end (r : pmem_region) : Z := base_addr r + region_length r.
Definition is_ram (r : pmem_region) : Prop := region_type r = PMEM_TYPE_RAM cfg.
#[local] Notation region_loop := (region_loop cfg self loops).
#[local] Notation regions_loop := (regions_loop cfg self loops fuel).
#[local] Notation rest_loop := (rest_loop cfg self loops).

(** What becomes of the pieces inside a region, and before it. *)
Definition in_or_before (base : Z) (x : piece) : Prop :=
  (x.2 = ALLOCMAN_UT_DEV /\ x.1.1 + 2 ^ x.1.2 <= base) \/ (x.2 = ALLOCMAN_UT_DEV_MEM /\ base <= x.1.1).

Lemma region_loop_end (n : nat) (u : utspace_interface W) (base top p : Z) (s : sys W) :
  top <= p -> region_loop n u base top p s = ret p s.
Proof. intros H. destruct n; cbn [Bootstrap.region_loop]; destruct (Z.ltb_spec p top); by try lia. Qed.

Lemma region_loop_step (n : nat) (u : utspace_interface W) (base top p goal ty : Z) (s : sys W) :
  p < top -> (if base <=? p then top else base) = goal ->
  (if base <=? p then ALLOCMAN_UT_DEV_MEM else ALLOCMAN_UT_DEV) = ty ->
  region_loop (S n) u base top p s =
    (let! r := perform_sub_allocation cfg self loops p goal u ty in
     let! _ := fatal_on (BIT 63 <=? r) in region_loop n u base top (p ⊞ r)) s.
Proof.
  intros Hp <- <-. cbn [Bootstrap.region_loop]. destruct (Z.ltb_spec p top); [|lia]. cbn [negb].
  by destruct (base <=? p).
Qed.

Lemma region_loop_inside (n : nat) (u : utspace_interface W) (base top p : Z) :
  is_word top -> 0 <= base <= p -> p <= top -> top - p <= 2 ^ max -> (128 <= n)%nat ->
  exists l, tiles p top l /\ (forall x, x ∈ l -> in_or_before base x) /\
    forall s, region_loop n u base top p s = (let! _ := sub_allocations u l in ret top) s.
Proof.
  intros Ht Hb Hp Hd Hn.
  destruct (loop_all (fun n p => region_loop n u base top p) u p top ALLOCMAN_UT_DEV_MEM ltac:(lia) Ht) with (n := n) (p := p)
    as (l & k & _ & Htl & Hty & HL); [|lia..|].
  - intros n' q s Hq. apply region_loop_step; [lia| |]; by destruct (Z.leb_spec base q); try lia.
  - exists l. split_and!; [done| |].
    + intros x Hx. right. split; [by apply Hty|]. destruct (tiles_within _ _ _ Htl x Hx). lia.
    + intros s. rewrite HL. unfold bind. destruct (sub_allocations u l s) as [[[] s']|]; cbn [res_bind]; [|done].
      by apply region_loop_end.
Qed.

Lemma region_loop_pieces (n : nat) (u : utspace_interface W) (base top p : Z) :
  is_word top -> 0 <= base <= top -> 0 <= p <= top -> top - p <= 2 ^ max -> (256 <= n)%nat ->
  exists l, tiles p top l /\ (forall x, x ∈ l -> in_or_before base x) /\
    forall s, region_loop n u base top p s = (let! _ := sub_allocations u l in ret top) s.
Proof.
  intros Ht Hb Hp Hd Hn. destruct (decide (base <= p)); [apply region_loop_inside; by try lia|].
  assert (Hbw : is_word base) by (unfold is_word in *; lia).
  destruct (loop_all (fun n p => region_loop n u base top p) u p base ALLOCMAN_UT_DEV ltac:(lia) Hbw) with (n := n) (p := p)
    as (l & k & Hk & Htl & Hty & HL); [|lia..|].
  - intros n' q s Hq. apply region_loop_step; [lia| |]; by destruct (Z.leb_spec base q); try lia.
  - destruct (region_loop_inside k u base top base) as (l' & Htl' & Hin & HL'); [done|lia..|].
    exists (l ++ l'). split_and!; [by eapply tiles_app| |].
    + intros x [Hx|Hx]%elem_of_app; [|by apply Hin]. left. split; [by apply Hty|]. by apply (tiles_within _ _ _ Htl x Hx).
    + intros s. rewrite HL. unfold bind. rewrite sub_allocations_app. unfold bind.
      destruct (sub_allocations u l s) as [[[] s']|]; cbn [res_bind]; [|done]. by rewrite HL'.
Qed.

Lemma rest_loop_pieces (n : nat) (u : utspace_interface W) (ut_end p : Z) :
  is_word ut_end -> 0 <= p <= ut_end -> ut_end - p <= 2 ^ max -> (128 <= n)%nat ->
  exists l, tiles p ut_end l /\ (forall x, x ∈ l -> x.2 = ALLOCMAN_UT_DEV) /\
    forall s, rest_loop n u ut_end p s = sub_allocations u l s.
Proof.
  intros Ht Hp Hd Hn.
  destruct (loop_all (fun n p => rest_loop n u ut_end p) u p ut_end ALLOCMAN_UT_DEV ltac:(lia) Ht) with (n := n) (p := p)
    as (l & k & _ & Htl & Hty & HL); [|lia..|].
  - intros n' q s Hq. cbn [Bootstrap.rest_loop]. destruct (Z.ltb_spec q ut_end); [done|lia].
  - exists l. split_and!; [done..|]. intros s. rewrite HL. unfold bind.
    destruct (sub_allocations u l s) as [[[] s']|]; cbn [res_bind]; [|done].
    destruct k; cbn [Bootstrap.rest_loop]; destruct (Z.ltb_spec ut_end ut_end); by try lia.
Qed.

(** Regions that fit in the addresses; those of memory do not overlap and are in order. *)
Fixpoint regions_ok (l : list pmem_region) : Prop :=
  match l with
  | [] => True
  | r :: l => (0 <= base_addr r /\ 0 <= region_length r /\ region_end r < word_size) /\
      (is_ram r -> forall r', r' ∈ l -> is_ram r' -> region_end r <= base_addr r') /\ regions_ok l
  end.

(** A region is away from an interval. *)
Definition away (r : pmem_region) (lo hi : Z) : Prop := region_end r <= lo \/ hi <= base_addr r.

(** A piece is given to the manager as what it is: memory inside a region of
    memory, or a device's outside all of them. *)
Definition rightly (all : list pmem_region) (x : piece) : Prop :=
  (x.2 = ALLOCMAN_UT_DEV /\ forall r, r ∈ all -> is_ram r -> away r x.1.1 (x.1.1 + 2 ^ x.1.2)) \/
  (x.2 = ALLOCMAN_UT_DEV_MEM /\ exists r, r ∈ all /\ is_ram r /\ base_addr r <= x.1.1 /\ x.1.1 + 2 ^ x.1.2 <= region_end r).

Lemma tiles_piece_pos (lo hi : Z) (l : list piece) : tiles lo hi l -> forall x, x ∈ l -> 0 < 2 ^ x.1.2.
Proof.
  induction 1 as [|lo hi bits ty l Hb _ _ IH]; intros x Hx; [by apply elem_of_nil in Hx|].
  apply elem_of_cons in Hx as [->|Hx]; [|by apply IH]. apply Z.pow_pos_nonneg; simpl; lia.
Qed.

Section one_untyped.
Context (state : add_untypeds_state_t (W := W)) (path : cspacepath_t) (size_bits ut_end : Z) (all : list pmem_region).
Context (Hend : is_word ut_end) (Hfuel : (256 <= fuel)%nat).

(** Of the regions of memory, those that are not in [l] are behind, or after the untyped. *)
Definition passed (l : list pmem_region) (p : Z) : Prop :=
  p < ut_end -> forall r, r ∈ all -> is_ram r -> r ∈ l \/ away r p ut_end.

Definition overlap (r : pmem_region) (p : Z) : bool :=
  (region_type r =? PMEM_TYPE_RAM cfg) && negb ((base_addr r ⊞ region_length r <=? p) || (ut_end <=? base_addr r)).

Lemma overlap_true (r : pmem_region) (p : Z) : 0 <= base_addr r /\ 0 <= region_length r /\ region_end r < word_size ->
  overlap r p = true <-> is_ram r /\ ~ away r p ut_end.
Proof.
  intros (Hb & Hl & He). unfold overlap, is_ram, away, region_end in *. rewrite wrap_small by (unfold is_word; lia).
  destruct (Z.eqb_spec (region_type r) (PMEM_TYPE_RAM cfg)), (Z.leb_spec (base_addr r + region_length r) p),
    (Z.leb_spec ut_end (base_addr r)); cbn; naive_solver lia.
Qed.

(** The pieces that one region leads to. *)
Lemma region_pieces (r : pmem_region) (l : list pmem_region) (p : Z) :
  regions_ok (r :: l) -> r ∈ all -> 0 <= p <= ut_end -> ut_end - p <= 2 ^ max -> passed (r :: l) p -> overlap r p = true ->
  exists pcs top, top = MIN (base_addr r ⊞ region_length r) ut_end /\ p <= top <= ut_end /\ tiles p top pcs /\
    (forall x, x ∈ pcs -> rightly all x) /\ passed l top /\
    forall s, region_loop fuel (ut_interface state) (base_addr r) top p s = (let! _ := sub_allocations (ut_interface state) pcs in ret top) s.
Proof.
  intros (Hr & Hord & _) Hin Hp Hd Hpass Hov. apply overlap_true in Hov as [Hram Hov]; [|done].
  unfold away in Hov. set (top := MIN (base_addr r ⊞ region_length r) ut_end).
  assert (Htop : top = Z.min (region_end r) ut_end).
  { unfold top, MIN. unfold region_end in *. rewrite wrap_small by (unfold is_word; lia).
    destruct (Z.ltb_spec (base_addr r + region_length r) ut_end); lia. }
  assert (base_addr r <= region_end r) by (unfold region_end; lia).
  destruct (region_loop_pieces fuel (ut_interface state) (base_addr r) top p) as (pcs & Ht & Hpcs & HL);
    [unfold is_word in *; lia|lia..|].
  exists pcs, top. split_and!; [done|lia|lia|done| | |exact HL].
  - intros x Hx. destruct (tiles_within _ _ _ Ht x Hx) as [Hlo Hhi]. pose proof (tiles_piece_pos _ _ _ Ht x Hx).
    destruct (Hpcs x Hx) as [[Hty Hx']|[Hty Hx']]; [left|right; split; [done|exists r; split_and!; [done..|lia|lia] ] ].
    split; [done|]. intros r' Hr' Hram'. unfold away.
    destruct (Hpass ltac:(lia) r' Hr' Hram') as [[->|Hr'l]%elem_of_cons|Haw]; [lia| |unfold away in Haw; lia].
    specialize (Hord Hram r' Hr'l Hram'). lia.
  - intros Hlt r' Hr' Hram'. destruct (Hpass ltac:(lia) r' Hr' Hram') as [[->|Hr'l]%elem_of_cons|Haw]; [|by left|];
      right; unfold away in *; lia.
Qed.

Lemma passed_skip (r : pmem_region) (l : list pmem_region) (p : Z) :
  regions_ok (r :: l) -> passed (r :: l) p -> overlap r p = false -> passed l p.
Proof.
  intros (Hr & _ & _) Hpass Hov Hlt r' Hr' Hram'.
  destruct (Hpass Hlt r' Hr' Hram') as [[->|Hl]%elem_of_cons|Haw]; [|by left|by right].
  right. unfold away. destruct (decide (region_end r <= p)); [by left|]. destruct (decide (ut_end <= base_addr r)); [by right|].
  enough (overlap r p = true) by congruence. apply overlap_true; [done|]. split; [done|]. unfold away. lia.
Qed.

(** What the loop over regions [l] has done when it ends. *)
Definition regions_done (p : Z) (pcs : list piece) (p' : Z) : Prop :=
  p <= p' <= ut_end /\ tiles p p' pcs /\ (forall x, x ∈ pcs -> rightly all x) /\ passed [] p'.

Lemma regions_loop_tainted (l : list pmem_region) (p : Z) :
  regions_ok l -> (forall r, r ∈ l -> r ∈ all) -> 0 <= p <= ut_end -> ut_end - p <= 2 ^ max -> passed l p ->
  exists pcs p', regions_done p pcs p' /\
    forall s, regions_loop state l path size_bits ut_end true p s =
      (let! _ := sub_allocations (ut_interface state) pcs in ret (true, p')) s.
Proof.
  revert p. induction l as [|r l IH]; intros p Hok Hall Hp Hd Hpass.
  - exists [], p. split; [|done]. split_and!; [lia|lia|constructor|by intros x ?%elem_of_nil|done].
  - assert (Hl : forall r, r ∈ l -> r ∈ all) by (intros r' Hr'; apply Hall; by right).
    cbn [Bootstrap.regions_loop]. fold (overlap r p). destruct (overlap r p) eqn:Hov.
    + destruct (region_pieces r l p) as (pcs & top & -> & Hle & Ht & Hx & Hpass' & HL); [done|apply Hall; by left|done..|].
      set (top := MIN _ _) in *. destruct (IH top) as (pcs' & p' & (Hle' & Ht' & Hx' & Hdone) & HL'); [apply Hok|done|lia|lia|done|].
      exists (pcs ++ pcs'), p'. split.
      * split_and!; [lia|lia|by eapply tiles_app| |done]. intros x [?|?]%elem_of_app; auto.
      * intros s. unfold bind, ret. cbn [res_bind]. rewrite HL, sub_allocations_app. unfold bind, ret.
        destruct (sub_allocations _ pcs s) as [[[] s']|]; cbn [res_bind]; [|done]. by rewrite HL'.
    + apply (IH p); [apply Hok|done..|]. by eapply passed_skip.
Qed.

Definition hand_over (paddr : Z) : AM Z :=
  run self (u_add_uts (ut_interface state) [(path, size_bits, paddr)] ALLOCMAN_UT_DEV).

Lemma regions_loop_untainted (l : list pmem_region) (p : Z) :
  regions_ok l -> (forall r, r ∈ l -> r ∈ all) -> 0 <= p <= ut_end -> ut_end - p <= 2 ^ max -> passed l p ->
  (passed [] p /\ forall s, regions_loop state l path size_bits ut_end false p s = Ok (false, p, s)) \/
  (exists r, r ∈ l /\ is_ram r /\ ~ away r p ut_end) /\ exists pcs p', regions_done p pcs p' /\
    forall s, regions_loop state l path size_bits ut_end false p s =
      (let! _ := hand_over p in let! _ := sub_allocations (ut_interface state) pcs in ret (true, p')) s.
Proof.
  intros Hok Hall Hp Hd. induction l as [|r l IH]; intros Hpass; [by left|].
  assert (Hl : forall r, r ∈ l -> r ∈ all) by (intros r' Hr'; apply Hall; by right).
  cbn [Bootstrap.regions_loop]. fold (overlap r p). destruct (overlap r p) eqn:Hov.
  - right. split; [exists r; apply overlap_true in Hov as [? ?]; [|apply Hok]; split_and!; [by left|done..]|].
    destruct (region_pieces r l p) as (pcs & top & -> & Hle & Ht & Hx & Hpass' & HL); [done|apply Hall; by left|done..|].
    set (top := MIN _ _) in *. destruct (regions_loop_tainted l top) as (pcs' & p' & (Hle' & Ht' & Hx' & Hdone) & HL'); [apply Hok|done|lia|lia|done|].
    exists (pcs ++ pcs'), p'. split.
    + split_and!; [lia|lia|by eapply tiles_app| |done]. intros x [?|?]%elem_of_app; auto.
    + intros s. fold (hand_over p). unfold bind. destruct (hand_over p s) as [[e s1]|]; cbn [res_bind]; [|done].
      rewrite HL, sub_allocations_app. unfold bind, ret.
      destruct (sub_allocations _ pcs s1) as [[[] s']|]; cbn [res_bind]; [|done]. by rewrite HL'.
  - destruct IH as [Hno|[(r' & Hr' & Hram & Haw) Hyes]]; [apply Hok|done|by eapply passed_skip|by left|].
    right. split; [exists r'; split_and!; [by right|done..]|done].
Qed.
End one_untyped.

(** After the loop over the regions, the rest is a device's. *)
Lemma rest_pieces (u : utspace_interface W) (ut_end p : Z) (all : list pmem_region) :
  is_word ut_end -> 0 <= p <= ut_end -> ut_end - p <= 2 ^ max -> (128 <= fuel)%nat -> passed ut_end all [] p ->
  exists l, tiles p ut_end l /\ (forall x, x ∈ l -> rightly all x) /\
    forall s, (if negb (p =? ut_end) then let! _ := rest_loop fuel u ut_end p in ret 0 else ret 0) s =
      (let! _ := sub_allocations u l in ret 0) s.
Proof.
  intros He Hp Hd Hf Hpass. destruct (Z.eqb_spec p ut_end) as [->|Hne]; cbn [negb].
  - exists []. split_and!; [constructor|by intros x ?%elem_of_nil|done].
  - destruct (rest_loop_pieces fuel u ut_end p) as (l & Ht & Hty & HL); [done..|]. exists l. split_and!; [done| |].
    + intros x Hx. left. split; [by apply Hty|]. intros r Hr Hram. destruct (tiles_within _ _ _ Ht x Hx).
      destruct (Hpass ltac:(lia) r Hr Hram) as [?%elem_of_nil|Haw]; [done|]. unfold away in *. lia.
    + intros s. unfold bind. by rewrite HL.
Qed.

(** C24: where the regions of memory in the caller's list are in the order of their
    addresses and do not overlap ([regions_ok]; the code does not check it, and
    [unsorted_regions] shows what happens otherwise), a device's untyped that no
    region of memory overlaps is given to the manager whole.  One that a region
    overlaps goes first to the allocator that takes untypeds apart, and then piece
    by piece to the manager: the pieces are aligned powers of two, they follow each
    other from the first byte of the untyped to its last, and a piece is given as
    memory exactly when it is inside a region of memory, as a device's when it is
    outside all of them; 256 rounds of each loop are enough. *)
Theorem device_untyped_pieces (state : add_untypeds_state_t (W := W)) (paddr size_bits : Z) (path : cspacepath_t) :
  0 <= paddr -> 0 <= size_bits <= max -> paddr + 2 ^ size_bits < word_size -> (256 <= fuel)%nat -> regions_ok (regions state) ->
  let ut_end := paddr + 2 ^ size_bits in
  ((forall r, r ∈ regions state -> is_ram r -> away r paddr ut_end) /\
   forall s, handle_device_untyped_cap cfg self loops fuel (Some state) paddr size_bits path s =
     (let! error := allocman_utspace_add_uts loops self [(path, size_bits, paddr)] ALLOCMAN_UT_DEV in
      let! _ := fatal_on (negb (error =? 0)) in ret 0) s) \/
  ((exists r, r ∈ regions state /\ is_ram r /\ ~ away r paddr ut_end) /\
   exists pieces, tiles paddr ut_end pieces /\ (forall x, x ∈ pieces -> rightly (regions state) x) /\
   forall s, handle_device_untyped_cap cfg self loops fuel (Some state) paddr size_bits path s =
     (let! _ := run self (u_add_uts (ut_interface state) [(path, size_bits, paddr)] ALLOCMAN_UT_DEV) in
      let! _ := sub_allocations (ut_interface state) pieces in ret 0) s).
Proof.
  intros Hp Hs Hw Hf Hok ut_end. assert (0 < 2 ^ size_bits) by (apply Z.pow_pos_nonneg; lia).
  assert (Hle : 2 ^ size_bits <= 2 ^ max) by (apply Z.pow_le_mono_r; lia).
  assert (He : paddr ⊞ BIT size_bits = ut_end) by (rewrite BIT_pow by lia; apply wrap_small; unfold is_word; lia).
  unfold handle_device_untyped_cap. rewrite He.
  destruct (regions_loop_untainted state path size_bits ut_end (regions state) ltac:(unfold is_word, ut_end; lia) Hf
    (regions state) paddr Hok ltac:(done) ltac:(unfold ut_end; lia) ltac:(unfold ut_end; lia) ltac:(by left))
    as [[Hno HL]|(Hr & pcs & p' & ([Hp1 Hp2] & Ht & Hx & Hpass) & HL)].
  - left. split.
    + intros r Hr Hram. by destruct (Hno ltac:(unfold ut_end; lia) r Hr Hram) as [?%elem_of_nil|?].
    + intros s. unfold bind at 1. by rewrite HL.
  - right. split; [done|].
    destruct (rest_pieces (ut_interface state) ut_end p' (regions state)) as (l & Ht' & Hx' & HL');
      [unfold is_word, ut_end in *; lia|lia|unfold ut_end in *; lia|lia|done|].
    exists (pcs ++ l). split_and!; [by eapply tiles_app|intros x [?|?]%elem_of_app; auto|].
    intros s. unfold bind at 1. rewrite HL. unfold hand_over, bind.
    destruct (run self _ s) as [[e s1]|]; cbn [res_bind]; [|done].
    rewrite sub_allocations_app. unfold bind, ret in *.
    destruct (sub_allocations _ pcs s1) as [[[] s2]|]; cbn [res_bind negb]; [|done]. by rewrite HL'.
Qed.
End devices.

(** ** An example *)

Definition toy_boot_config : bootstrap_config := BootstrapConfig 512 1024 256 64 128 32 2048 4096 24 47 1.

(** The world is the list of what was taken out of one allocator (16) and given
    to the other (17): which, bits, address and type. *)
Definition toy_space (who : Z) : utspace_interface (list (Z * Z * Z * Z)) :=
  UtspaceInterface (fun bits ty _ pa _ => Read (fun w => Write (w ++ [(who, bits, pa, ty)]) (Return (7, 0)))) (fun _ _ => Return tt)
    (fun l ty => Read (fun w => Write (w ++ map (fun u => (who, u.1.2, u.2, ty)) l) (Return 0)))
    (fun _ _ => Return 0) ALLOCMAN_DEFAULT_PROPERTIES.

Definition toy_device_calls : calls (list (Z * Z * Z * Z)) :=
  Calls (fun _ _ => ret (4096, 0)) (fun _ => ret (0, Some (Cspacepath 40 64 2 2 64 40 1))) (fun _ _ _ _ _ _ => ret (7, 0))
    (fun _ _ => ret tt) (fun _ => ret tt) (fun _ _ => ret tt).

(** Memory from 0x4800 to 0x7000, and then a region that is not memory. *)
Definition toy_regions : add_untypeds_state_t (W := list (Z * Z * Z * Z)) :=
  AddUntypeds 4096 false 0 [PmemRegion 1 18432 10240; PmemRegion 2 28672 4096] (toy_space 16).

Definition toy_device_manager : sys (list (Z * Z * Z * Z)) :=
  Sys (Allocman true (MspaceInterface (fun _ => Return (0, 0)) (fun _ _ => Return tt) ALLOCMAN_DEFAULT_PROPERTIES)
    true null_cspace true (toy_space 17) false (Depths 0 0 0 0 0 0) false false zero_vec zero_vec zero_vec zero_vec
    zero_reserve zero_reserve) [].

Lemma toy_regions_ok : regions_ok toy_boot_config (regions toy_regions).
Proof. unfold regions_ok, region_end, word_size. cbn. split_and!; try lia; try done. by intros _ r' [->|?%elem_of_nil]%elem_of_cons. Qed.

(** The untyped from 0x4000 to 0x8000. *)
Example device_in_pieces : exists s',
  handle_device_untyped_cap toy_boot_config toy_device_calls 10 256 (Some toy_regions) 16384 14 no_path toy_device_manager = Ok (0, s') /\
  world s' = [(16, 14, 16384, 1); (16, 11, 16384, 0); (17, 11, 16384, 1); (16, 11, 18432, 0); (17, 11, 18432, 2);
    (16, 12, 20480, 0); (17, 12, 20480, 2); (16, 12, 24576, 0); (17, 12, 24576, 2);
    (16, 12, 28672, 0); (17, 12, 28672, 1)].
Proof. eexists. split; [by vm_compute|]. by vm_compute. Qed.

Lemma device_untyped_pieces_witness :
  let ut_end := 32768 in
  ((forall r, r ∈ regions toy_regions -> is_ram toy_boot_config r -> away r 16384 ut_end) /\
   forall s, handle_device_untyped_cap toy_boot_config toy_device_calls 10 256 (Some toy_regions) 16384 14 no_path s =
     (let! error := allocman_utspace_add_uts 10 toy_device_calls [(no_path, 14, 16384)] ALLOCMAN_UT_DEV in
      let! _ := fatal_on (negb (error =? 0)) in ret 0) s) \/
  ((exists r, r ∈ regions toy_regions /\ is_ram toy_boot_config r /\ ~ away r 16384 ut_end) /\
   exists pieces, tiles toy_boot_config 16384 ut_end pieces /\ (forall x, x ∈ pieces -> rightly toy_boot_config (regions toy_regions) x) /\
   forall s, handle_device_untyped_cap toy_boot_config toy_device_calls 10 256 (Some toy_regions) 16384 14 no_path s =
     (let! _ := run toy_device_calls (u_add_uts (ut_interface toy_regions) [(no_path, 14, 16384)] ALLOCMAN_UT_DEV) in
      let! _ := sub_allocations toy_device_calls 10 (ut_interface toy_regions) pieces in ret 0) s).
Proof.
  refine (device_untyped_pieces toy_boot_config toy_device_calls 10 256 _ toy_regions 16384 14 no_path _ _ _ _ toy_regions_ok);
    [cbn; lia|lia|cbn; lia|by vm_compute|lia].
Defined.

(** Regions that are not in the order of their addresses: the first 4 KiB are
    memory, by the second region, and are given as a device's. *)
Example unsorted_regions : exists s',
  handle_device_untyped_cap toy_boot_config toy_device_calls 10 256
    (Some (AddUntypeds 4096 false 0 [PmemRegion 1 24576 8192; PmemRegion 1 16384 4096] (toy_space 16))) 16384 14 no_path toy_device_manager = Ok (0, s') /\
  world s' = [(16, 14, 16384, 1); (16, 13, 16384, 0); (17, 13, 16384, 1); (16, 13, 24576, 0); (17, 13, 24576, 2)].
Proof. eexists. split; [by vm_compute|]. by vm_compute. Qed.
