(* ===== verification/Files.v ===== *)
(** libsel4muslcsys/src/sys_io.c (with include/muslcsys/io.h): the file calls of the
    C library.  File descriptors are entries of a table, with a stack of those
    that are free; a file is a part of an archive in memory and can only be
    read.

    Configuration: 64-bit, with assertions.  A pointer to a [cpio_file_data_t] is
    the address of a block, and the blocks are a map; what is in a block or
    an array before it is written is [None], and reading it is a fault. *)
From Stdlib Require Import Ascii.
From stdpp Require Import gmap strings.
From S2P Require Import Prelude Interfaces.

(** ** What it is built with *)

(** Numbers of the C library. *)
Class FileConstants : Type := {
  EMFILE : Z; ENOMEM : Z; EBADF : Z; EINVAL : Z; ENOENT : Z; EOVERFLOW : Z; EACCES : Z;
  O_RDONLY : Z; O_LARGEFILE : Z; AT_FDCWD : Z; IOV_MAX : Z; RLIMIT_NOFILE : Z;
  SEEK_SET : Z; SEEK_CUR : Z; SEEK_END : Z; F_OK : Z; R_OK : Z;
  sizeof_cpio_file_data_t : Z
}.

(** The copy of memory (to, from, bytes), and what the C library makes of the
    result of a call. *)
Class FileLib (W : Type) : Type := {
  file_memcpy : Z -> Z -> Z -> M W unit;
  syscall_ret : Z -> Z
}.

Definition STDOUT_FILENO : Z := 1.
Definition STDERR_FILENO : Z := 2.
Definition FIRST_USER_FD : Z := STDERR_FILENO + 1.
Definition FILE_TYPE_FREE : Z := -1.
Definition FILE_TYPE_CPIO : Z := 0.
Definition INT_MAX : Z := 2 ^ 31 - 1.
Definition SSIZE_MAX : Z := 2 ^ 63 - 1.

(** A word as a [uint32_t]. *)
Definition to_uint32 (x : Z) : Z := x mod 2 ^ 32.

Record cpio_file_data_t : Type := CpioFile { file_start : Z; file_size : Z; file_current : Z }.
Record muslcsys_fd_t : Type := Fd { filetype : option Z; fd_data : option Z }.

(** A call that finds a file of an archive: its address, and its size. *)
Definition muslcsys_cpio_get_file_fn_t (W : Type) : Type := Z -> Z -> string -> M W (option (Z * Z)).

(** The variables of the file, the blocks of open files, and the rest of the system. *)
Record io_state (W : Type) : Type := IoState {
  num_fds : Z;
  fd_table_ptr : Z;
  fd_table : list muslcsys_fd_t;
  free_fd_table_ptr : Z;
  free_fd_table : list (option Z);
  free_fd_table_index : Z;
  files : gmap Z cpio_file_data_t;
  cpio_archive_symbol : Z;
  cpio_archive_len : Z;
  cpio_get_file_impl : option (muslcsys_cpio_get_file_fn_t W);
  stdio_write : option (Z -> Z -> M W Z);
  io_rest : W
}.
Arguments IoState {W} _ _ _ _ _ _ _ _ _ _ _ _.
Arguments num_fds {W} _.
Arguments fd_table_ptr {W} _.
Arguments fd_table {W} _.
Arguments free_fd_table_ptr {W} _.
Arguments free_fd_table {W} _.
Arguments free_fd_table_index {W} _.
Arguments files {W} _.
Arguments cpio_archive_symbol {W} _.
Arguments cpio_archive_len {W} _.
Arguments cpio_get_file_impl {W} _.
Arguments stdio_write {W} _.
Arguments io_rest {W} _.

Section io.
Context {W : Type} `{FC : !FileConstants} `{MA : !Malloc W} `{FL : !FileLib W}.
#[local] Notation St := (io_state W).

Definition set_tables (n p : Z) (t : list muslcsys_fd_t) (q : Z) (f : list (option Z)) (i : Z) (s : St) : St :=
  IoState n p t q f i (files s) (cpio_archive_symbol s) (cpio_archive_len s) (cpio_get_file_impl s) (stdio_write s) (io_rest s).
Definition set_fd_table (t : list muslcsys_fd_t) (s : St) : St :=
  set_tables (num_fds s) (fd_table_ptr s) t (free_fd_table_ptr s) (free_fd_table s) (free_fd_table_index s) s.
Definition set_free (f : list (option Z)) (i : Z) (s : St) : St :=
  set_tables (num_fds s) (fd_table_ptr s) (fd_table s) (free_fd_table_ptr s) f i s.
Definition set_files (m : gmap Z cpio_file_data_t) (s : St) : St :=
  IoState (num_fds s) (fd_table_ptr s) (fd_table s) (free_fd_table_ptr s) (free_fd_table s) (free_fd_table_index s) m
    (cpio_archive_symbol s) (cpio_archive_len s) (cpio_get_file_impl s) (stdio_write s) (io_rest s).
Definition set_rest (w : W) (s : St) : St :=
  IoState (num_fds s) (fd_table_ptr s) (fd_table s) (free_fd_table_ptr s) (free_fd_table s) (free_fd_table_index s) (files s)
    (cpio_archive_symbol s) (cpio_archive_len s) (cpio_get_file_impl s) (stdio_write s) w.
Definition set_archive (sym len : Z) (fn : option (muslcsys_cpio_get_file_fn_t W)) (s : St) : St :=
  IoState (num_fds s) (fd_table_ptr s) (fd_table s) (free_fd_table_ptr s) (free_fd_table s) (free_fd_table_index s) (files s)
    sym len fn (stdio_write s) (io_rest s).
Definition set_stdio (fn : option (Z -> Z -> M W Z)) (s : St) : St :=
  IoState (num_fds s) (fd_table_ptr s) (fd_table s) (free_fd_table_ptr s) (free_fd_table s) (free_fd_table_index s) (files s)
    (cpio_archive_symbol s) (cpio_archive_len s) (cpio_get_file_impl s) fn (io_rest s).

(** The rest of the system, and what was written in memory. *)
Definition io_outside {A} (m : M W A) : M St A := fun s => let? (a, w) := m (io_rest s) in Ok (a, set_rest w s).
Definition written {A} (o : option A) : M St A := match o with Some a => ret a | None => stop OutOfBounds end.

(** ** The table *)

Definition valid_fd (s : St) (fd : Z) : bool := (fd <? num_fds s) && (FIRST_USER_FD <=? fd).

(** The index of the entry. *)
Definition get_fd_struct (fd : Z) : M St Z :=
  let! s := gets id in
  let! _ := cassert ((fd <? num_fds s) && (FIRST_USER_FD <=? fd)) in
  ret (fd - FIRST_USER_FD).

Definition read_fd (i : Z) : M St muslcsys_fd_t := let! s := gets id in lift (arr_get (fd_table s) i).
Definition write_fd (i : Z) (f : muslcsys_fd_t) : M St unit :=
  let! s := gets id in let! t := lift (arr_set (fd_table s) i f) in modify (set_fd_table t).

Definition add_free_fd (fd : Z) : M St unit :=
  let! i := get_fd_struct fd in
  let! f := read_fd i in
  let! _ := write_fd i (Fd (Some FILE_TYPE_FREE) (fd_data f)) in
  let! _ := modify (fun s => set_free (free_fd_table s) (free_fd_table_index s + 1) s) in
  let! s := gets id in
  let! _ := cassert (free_fd_table_index s <? num_fds s) in
  let! t := lift (arr_set (free_fd_table s) (free_fd_table_index s) (Some fd)) in
  modify (set_free t (free_fd_table_index s)).

Definition get_free_fd : M St Z :=
  let! s := gets id in
  if free_fd_table_index s =? -1 then ret (- EMFILE) else
  let! _ := modify (set_free (free_fd_table s) (free_fd_table_index s - 1)) in
  let! fd := lift (arr_get (free_fd_table s) (free_fd_table_index s - 1 + 1)) in
  written fd.

(** [sizeof(muslcsys_fd_t)] is 16, [sizeof(int)] is 4. *)
Definition FD_TABLE_SIZE (x : Z) : Z := wrap (16 * x).
Definition FREE_FD_TABLE_SIZE (x : Z) : Z := wrap (4 * (x - FIRST_USER_FD)).

(** The loop that adds [n] descriptors from [i] on. *)
Fixpoint add_free_fds (n : nat) (i : Z) : M St unit :=
  match n with
  | O => ret tt
  | S n => let! _ := add_free_fd i in add_free_fds n (i + 1)
  end.

Definition allocate_file_table : M St Z :=
  let! s := gets id in
  let! p := io_outside (malloc (FD_TABLE_SIZE (num_fds s))) in
  let! _ := modify (fun s => set_tables (num_fds s) p (if p =? 0 then [] else replicate (Z.to_nat (num_fds s)) (Fd None None))
      (free_fd_table_ptr s) (free_fd_table s) (free_fd_table_index s) s) in
  if p =? 0 then ret (- ENOMEM) else
  let! q := io_outside (malloc (FREE_FD_TABLE_SIZE (num_fds s))) in
  let! _ := modify (fun s => set_tables (num_fds s) p (fd_table s) q
      (if q =? 0 then [] else replicate (Z.to_nat (num_fds s - FIRST_USER_FD)) None) (free_fd_table_index s) s) in
  if q =? 0 then let! _ := io_outside (free p) in ret (- ENOMEM) else
  let! _ := modify (fun s => set_free (free_fd_table s) (-1) s) in
  let! _ := add_free_fds (Z.to_nat (num_fds s - FIRST_USER_FD)) FIRST_USER_FD in
  ret 0.

(** A new array with the contents of the old one; it does not fit in a smaller one. *)
Definition grown {A} (n : Z) (empty : A) (l : list A) : M St (list A) :=
  if n <? Z.of_nat (length l) then stop OutOfBounds else ret (l ++ replicate (Z.to_nat n - length l) empty).

(** The loop of new descriptors starts at the number there are by then. *)
Definition grow_fds (how_much : Z) : M St Z :=
  let! s := gets id in
  let new_num_fds := to_int (num_fds s + how_much) in
  let! error := (if fd_table_ptr s =? 0 then allocate_file_table else ret 0) in
  if error =? - ENOMEM then ret (- ENOMEM) else
  let! p := io_outside (malloc (FD_TABLE_SIZE new_num_fds)) in
  if p =? 0 then ret (- ENOMEM) else
  let! q := io_outside (malloc (FREE_FD_TABLE_SIZE new_num_fds)) in
  if q =? 0 then let! _ := io_outside (free p) in ret (- ENOMEM) else
  let! s := gets id in
  let! f := grown (new_num_fds - FIRST_USER_FD) None (free_fd_table s) in
  let! t := grown new_num_fds (Fd None None) (fd_table s) in
  let! _ := io_outside (free (fd_table_ptr s)) in
  let! _ := io_outside (free (free_fd_table_ptr s)) in
  let! _ := modify (fun s => set_tables new_num_fds p t q f (free_fd_table_index s) s) in
  let! s := gets id in
  let! _ := add_free_fds (Z.to_nat (new_num_fds - num_fds s)) (num_fds s) in
  ret 0.

Definition allocate_fd : M St Z :=
  let! s := gets id in
  let! error := (if fd_table_ptr s =? 0 then allocate_file_table else ret 0) in
  if error =? - ENOMEM then ret (- ENOMEM) else get_free_fd.

(** ** Open and close *)

Definition strip_dot_slash (pathname : string) : option string :=
  match pathname with
  | String "."%char (String "/"%char p) => Some p
  | _ => None
  end.

(** The address and the size. *)
Definition find_file (pathname : string) : M St (option (Z * Z)) :=
  let! s := gets id in
  match cpio_get_file_impl s with
  | None => ret None
  | Some get => if cpio_archive_symbol s =? 0 then ret None else
      let! file := io_outside (get (cpio_archive_symbol s) (cpio_archive_len s) pathname) in
      match file, strip_dot_slash pathname with
      | None, Some p => io_outside (get (cpio_archive_symbol s) (cpio_archive_len s) p)
      | _, _ => ret file
      end
  end.

Definition sys_open_impl (pathname : string) (flags : Z) : M St Z :=
  let flags := Z.ldiff flags O_LARGEFILE in
  let! _ := cassert (flags =? O_RDONLY) in
  let! file := find_file pathname in
  match file with
  | None => ret (- ENOENT)
  | Some (file, size) =>
      let! fd := allocate_fd in
      if fd =? - EMFILE then ret (- EMFILE) else
      let! fds := get_fd_struct fd in
      let! f := read_fd fds in
      let! _ := write_fd fds (Fd (Some FILE_TYPE_CPIO) (fd_data f)) in
      let! p := io_outside (malloc sizeof_cpio_file_data_t) in
      let! _ := write_fd fds (Fd (Some FILE_TYPE_CPIO) (Some p)) in
      if p =? 0 then let! _ := add_free_fd fd in ret (- ENOMEM) else
      let! _ := modify (fun s => set_files (<[p := CpioFile file (to_uint32 size) 0]> (files s)) s) in
      ret fd
  end.

Definition sys_open (pathname : string) (flags : Z) : M St Z := sys_open_impl pathname flags.
Definition sys_openat (dirfd : Z) (pathname : string) (flags : Z) : M St Z :=
  if negb (dirfd =? AT_FDCWD) then ret (- EINVAL) else sys_open_impl pathname flags.

Definition sys_close (fd : Z) : M St Z :=
  let! _ := cassert (FIRST_USER_FD <=? fd) in
  let! s := gets id in
  if negb (valid_fd s fd) then ret (- EBADF) else
  let! fds := get_fd_struct fd in
  let! f := read_fd fds in
  let! t := written (filetype f) in
  let! _ := (if t =? FILE_TYPE_CPIO then
      let! p := written (fd_data f) in
      let! _ := modify (fun s => set_files (delete p (files s)) s) in
      io_outside (free p)
    else ret tt) in
  let! _ := add_free_fd fd in
  ret 0.

(** ** Write *)

(** An address and a length. *)
Definition iovec : Type := Z * Z.

(** The loop that adds up the lengths, until the sum is too big. *)
Fixpoint iov_sum (iov : list iovec) (sum : Z) : option Z :=
  match iov with
  | [] => Some sum
  | (_, len) :: iov => let sum := to_long (sum + to_long len) in if SSIZE_MAX <? sum then None else iov_sum iov sum
  end.

Fixpoint write_loop (iov : list iovec) (ret_ : Z) : M St Z :=
  match iov with
  | [] => ret ret_
  | (base, len) :: iov =>
      let! s := gets id in
      let! n := (match stdio_write s with None => ret len | Some write => io_outside (write base len) end) in
      write_loop iov (to_long (ret_ + n))
  end.

(** [iov] has [iovcnt] entries, if that is positive. *)
Definition sys_writev (fildes : Z) (iov : list iovec) (iovcnt : Z) : M St Z :=
  if (iovcnt <=? 0) || (IOV_MAX <? iovcnt) then ret (- EINVAL) else
  match iov_sum iov 0 with
  | None => ret (- EINVAL)
  | Some sum =>
      if sum =? 0 then ret 0 else
      if (fildes =? STDOUT_FILENO) || (fildes =? STDERR_FILENO) then write_loop iov 0 else stop AssertFailed
  end.

(** Through the C library's [writev]. *)
Definition sys_write (fd buf count : Z) : M St Z :=
  let! r := sys_writev fd [(buf, count)] 1 in ret (syscall_ret r).

Definition sel4muslcsys_register_stdio_write_fn (fn : option (Z -> Z -> M W Z)) : M St (option (Z -> Z -> M W Z)) :=
  let! s := gets id in let! _ := modify (set_stdio fn) in ret (stdio_write s).

(** ** Read and seek *)

Definition read_file (p : Z) : M St cpio_file_data_t := let! s := gets id in written (files s !! p).
Definition set_current (p current : Z) : M St unit :=
  modify (fun s => set_files (alter (fun f => CpioFile (file_start f) (file_size f) current) p (files s)) s).

(** The loop over the buffers, of the file in block [p]: [read] bytes so far. *)
Fixpoint readv_loop (iov : list iovec) (p read : Z) : M St Z :=
  match iov with
  | [] => ret read
  | (base, iov_len) :: iov =>
      let! f := read_file p in
      if negb (file_current f <? file_size f) then ret read else
      let max := file_size f - file_current f in
      let len := if max <? iov_len then max else iov_len in
      let! _ := io_outside (file_memcpy base (file_start f ⊞ file_current f) len) in
      let! _ := set_current p (file_current f + len) in
      readv_loop iov p (read + len)
  end.

(** The entries of [iov] are those the count allows. *)
Definition sys_readv (fd : Z) (iov : list iovec) : M St Z :=
  let! _ := cassert (FIRST_USER_FD <=? fd) in
  let! s := gets id in
  if negb (valid_fd s fd) then ret (- EBADF) else
  let! i := get_fd_struct fd in
  let! f := read_fd i in
  let! t := written (filetype f) in
  let! _ := cassert (t =? FILE_TYPE_CPIO) in
  let! p := written (fd_data f) in
  readv_loop iov p 0.

(** Through the C library's [readv]. *)
Definition sys_read (fd buf count : Z) : M St Z := let! r := sys_readv fd [(buf, count)] in ret (syscall_ret r).

Definition sys_ioctl (fd : Z) : M St Z := if fd =? STDOUT_FILENO then ret 0 else stop AssertFailed.

(** The result, and the limits if they are wanted: the current one and the greatest. *)
Definition sys_prlimit64 (resource : Z) (new_limit : option Z) (want_old : bool) : M St (Z * option (Z * Z)) :=
  let! _ := cassert (resource =? RLIMIT_NOFILE) in
  let! s := gets id in
  let old := if want_old then Some (num_fds s, 65536) else None in
  match new_limit with
  | None => ret (0, old)
  | Some rlim_cur => if rlim_cur <? wrap (num_fds s) then ret (0, old) else
      let! result := grow_fds (to_int (rlim_cur ⊟ wrap (num_fds s))) in ret (result, old)
  end.

Definition safe_addition (a b : Z) : bool :=
  negb ((0 <=? a) && (INT_MAX - a <? b)) && negb ((a <? 0) && (b <? INT_MAX - a)).

(** The offset to go to, or an error. *)
Definition new_offset (f : cpio_file_data_t) (offset whence : Z) : Z + Z :=
  if whence =? SEEK_SET then inr (to_int offset)
  else if whence =? SEEK_CUR then
    if negb (safe_addition (to_int (file_current f)) (to_int offset)) then inl (- EOVERFLOW)
    else inr (to_int (file_current f + offset))
  else if whence =? SEEK_END then
    if 0 <? offset then inl (- EINVAL) else inr (to_int (file_size f + offset))
  else inl (- EINVAL).

Definition sys_lseek_impl (fd offset whence : Z) : M St Z :=
  let! s := gets id in
  if negb (valid_fd s fd) then ret (- EBADF) else
  let! i := get_fd_struct fd in
  let! m := read_fd i in
  let! t := written (filetype m) in
  let! _ := cassert (t =? FILE_TYPE_CPIO) in
  let! p := written (fd_data m) in
  let! f := read_file p in
  match new_offset f offset whence with
  | inl error => ret error
  | inr n => if n <? 0 then ret (- EINVAL) else
      if file_size f <? n then ret (- EINVAL) else
      let! _ := set_current p n in ret n
  end.
Definition sys_lseek (fd offset whence : Z) : M St Z := sys_lseek_impl fd offset whence.

(** The result, and the offset if it was written. *)
Definition sys__llseek (fd offset_high offset_low : Z) (want_result : bool) (whence : Z) : M St (Z * option Z) :=
  let! r := sys_lseek_impl fd (to_long (Z.lor (Z.shiftl offset_high 32) offset_low)) whence in
  if r <? 0 then ret (r, None) else ret (0, if want_result then Some r else None).

(** Through the C library's [open] and [close]. *)
Definition sys_access (pathname : string) (mode : Z) : M St Z :=
  if (mode =? F_OK) || (mode =? R_OK) then
    let! fd := sys_open pathname O_RDONLY in
    let fd := syscall_ret fd in
    if fd <? 0 then ret (- EACCES) else
    let! _ := sys_close fd in ret 0
  else ret (- EACCES).

Definition muslcsys_install_cpio_interface (symbol len : Z) (fn : option (muslcsys_cpio_get_file_fn_t W)) : M St unit :=
  modify (set_archive symbol len fn).
End io.

(** The variables at the start. *)
Definition io_start {W} (write : Z -> Z -> M W Z) (w : W) : io_state W :=
  IoState 256 0 [] 0 [] 0 ∅ 0 0 None (Some write) w.

(** The values of Linux, for witnesses. *)
#[export] Instance linux_file_constants : FileConstants := {|
  EMFILE := 24; ENOMEM := 12; EBADF := 9; EINVAL := 22; ENOENT := 2; EOVERFLOW := 75; EACCES := 13;
  O_RDONLY := 0; O_LARGEFILE := 32768; AT_FDCWD := -100; IOV_MAX := 1024; RLIMIT_NOFILE := 7;
  SEEK_SET := 0; SEEK_CUR := 1; SEEK_END := 2; F_OK := 0; R_OK := 4; sizeof_cpio_file_data_t := 24
|}.
