(* ===== verification/FilesInv.v ===== *)
(** The table of file descriptors (Files.v): the invariant of the table, of the
    stack of free descriptors and of the blocks of the files that are open, and
    what the steps on them do to it. *)
From stdpp Require Import gmap strings.
From S2P Require Import Prelude Interfaces Files.

(** *** Stacks in arrays *)

Lemma take_push {A} (l : list A) (n : nat) (x : A) : (n < length l)%nat -> take (S n) (<[n := x]> l) = take n l ++ [x].
Proof.
  intros Hn. rewrite (take_S_r _ _ x); [|by apply list_lookup_insert_eq]. by rewrite take_insert_ge by lia.
Qed.

Lemma take_pop {A} (l k : list A) (n : nat) (x : A) : take n l = k ++ [x] -> length (k ++ [x]) = n ->
  l !! length k = Some x /\ take (length k) l = k.
Proof.
  intros Ht Hn. rewrite length_app in Hn. cbn in Hn. split.
  - rewrite <- (lookup_take_lt l n) by lia. rewrite Ht. by apply list_lookup_middle.
  - replace (length k) with (length k `min` n)%nat by lia. rewrite <- take_take, Ht. by rewrite take_app_length.
Qed.

Section inv.
Context {W : Type} `{FC : !FileConstants} `{MA : !Malloc W} `{ML : !MallocLaws W} `{FL : !FileLib W}.
#[local] Notation St := (io_state W).

(** The entry of a descriptor, as a place in the table. *)
Definition entry (fd : Z) : nat := Z.to_nat (fd - FIRST_USER_FD).

Definition is_free (s : St) (fd : Z) : Prop :=
  FIRST_USER_FD <= fd /\ exists d, fd_table s !! entry fd = Some (Fd (Some FILE_TYPE_FREE) d).

(** Entry [i] is of the open file in block [p]. *)
Definition open_at (s : St) (i : nat) (p : Z) : Prop := fd_table s !! i = Some (Fd (Some FILE_TYPE_CPIO) (Some p)).

Definition file_ok (f : cpio_file_data_t) : Prop := 0 <= file_current f <= file_size f /\ file_size f < 2 ^ 32.

(** [l] are the free descriptors, from the bottom of their stack. *)
Record fds_ok (s : St) (l : list Z) : Prop := FdsOk {
  ok_size : FIRST_USER_FD <= num_fds s;
  ok_table : Z.of_nat (length (fd_table s)) = num_fds s;
  ok_free_len : Z.of_nat (length (free_fd_table s)) = num_fds s - FIRST_USER_FD;
  ok_index : free_fd_table_index s = Z.of_nat (length l) - 1;
  ok_stack : take (length l) (free_fd_table s) = Some <$> l;
  ok_nodup : NoDup l;
  ok_free : forall fd, fd ∈ l <-> is_free s fd /\ fd < num_fds s;
  ok_data : forall i d, fd_table s !! i = Some (Fd (Some FILE_TYPE_CPIO) d) -> exists p, d = Some p;
  ok_open : forall i p, open_at s i p -> p ∈ live_blocks (io_rest s) /\ exists f, files s !! p = Some f /\ file_ok f;
  ok_inj : forall i j p, open_at s i p -> open_at s j p -> i = j
}.

(** The file a descriptor is of, if it is open. *)
Definition opened (s : St) (fd : Z) : option cpio_file_data_t :=
  if bool_decide (FIRST_USER_FD <= fd < num_fds s) then
    match fd_table s !! entry fd with
    | Some (Fd (Some t) (Some p)) => if t =? FILE_TYPE_CPIO then files s !! p else None
    | _ => None
    end
  else None.

Lemma opened_at (s : St) (fd p : Z) : FIRST_USER_FD <= fd < num_fds s -> open_at s (entry fd) p -> opened s fd = files s !! p.
Proof. intros Hfd Ho. unfold opened. rewrite bool_decide_eq_true_2 by done. unfold open_at in Ho. by rewrite Ho. Qed.

Lemma opened_inv (s : St) (fd : Z) (f : cpio_file_data_t) : opened s fd = Some f ->
  FIRST_USER_FD <= fd < num_fds s /\ exists p, open_at s (entry fd) p /\ files s !! p = Some f.
Proof.
  unfold opened. case_bool_decide as Hfd; [|done]. unfold open_at.
  destruct (fd_table s !! entry fd) as [[[t|] [p|]]|]; try done.
  destruct (Z.eqb_spec t FILE_TYPE_CPIO) as [->|]; [|done]. intros Hf. split; [done|]. by exists p.
Qed.

Lemma opened_free (s : St) (fd : Z) : is_free s fd -> opened s fd = None.
Proof.
  intros [_ [d Hd]]. unfold opened. rewrite Hd. case_bool_decide; [|done]. by destruct d.
Qed.

(** Two states with the same table and the same blocks have the same files. *)
Lemma opened_same (s t : St) (fd : Z) : num_fds s = num_fds t -> fd_table s = fd_table t -> files s = files t -> opened s fd = opened t fd.
Proof. intros H1 H2 H3. unfold opened. by rewrite H1, H2, H3. Qed.

(** Changes of one entry. *)
Lemma entry_ne (fd fd' : Z) : FIRST_USER_FD <= fd -> FIRST_USER_FD <= fd' -> fd <> fd' -> entry fd <> entry fd'.
Proof. unfold entry. lia. Qed.

Lemma entry_lt (s : St) (l : list Z) (fd : Z) : fds_ok s l -> FIRST_USER_FD <= fd < num_fds s ->
  (entry fd < length (fd_table s))%nat /\ 0 <= fd - FIRST_USER_FD < Z.of_nat (length (fd_table s)).
Proof. intros Hok Hfd. pose proof (ok_table s l Hok). unfold entry. unfold FIRST_USER_FD, STDERR_FILENO in *. lia. Qed.

(** *** The steps *)

Lemma get_fd_struct_ok (s : St) (fd : Z) : FIRST_USER_FD <= fd < num_fds s -> get_fd_struct fd s = Ok (fd - FIRST_USER_FD, s).
Proof.
  intros Hfd. unfold get_fd_struct, bind, gets, cassert, lift, rassert, id. cbn.
  destruct (Z.ltb_spec fd (num_fds s)), (Z.leb_spec FIRST_USER_FD fd); by try lia.
Qed.

Lemma read_fd_ok (s : St) (l : list Z) (fd : Z) : fds_ok s l -> FIRST_USER_FD <= fd < num_fds s ->
  exists f, read_fd (fd - FIRST_USER_FD) s = Ok (f, s) /\ fd_table s !! entry fd = Some f.
Proof.
  intros Hok Hfd. destruct (entry_lt s l fd Hok Hfd) as [_ Hi].
  destruct (arr_get_in (fd_table s) (fd - FIRST_USER_FD) Hi) as (f & Hg & Hl).
  exists f. split; [|done]. unfold read_fd, bind, gets, lift, id. cbn. by rewrite Hg.
Qed.

Lemma read_fd_at (s : St) (fd : Z) (f : muslcsys_fd_t) : FIRST_USER_FD <= fd -> fd_table s !! entry fd = Some f ->
  read_fd (fd - FIRST_USER_FD) s = Ok (f, s).
Proof.
  intros Hfd Hl. unfold read_fd, bind, gets, lift, id. cbn.
  assert (Hg : arr_get (fd_table s) (fd - FIRST_USER_FD) = Ok f) by (apply arr_get_ok; split; [lia|done]). by rewrite Hg.
Qed.

Lemma write_fd_at (s : St) (fd : Z) (f g : muslcsys_fd_t) : FIRST_USER_FD <= fd -> fd_table s !! entry fd = Some g ->
  write_fd (fd - FIRST_USER_FD) f s = Ok (tt, set_fd_table (<[entry fd := f]> (fd_table s)) s).
Proof.
  intros Hfd Hl. pose proof (lookup_lt_Some _ _ _ Hl). unfold write_fd, bind, gets, lift, id, modify. cbn.
  rewrite arr_set_in; [done|]. unfold entry in *. lia.
Qed.

(** Giving a descriptor back, when the stack has room for it. *)
Lemma add_free_fd_at (s : St) (fd : Z) (f : muslcsys_fd_t) :
  FIRST_USER_FD <= fd < num_fds s -> fd_table s !! entry fd = Some f ->
  0 <= free_fd_table_index s + 1 < Z.of_nat (length (free_fd_table s)) -> free_fd_table_index s + 1 < num_fds s ->
  add_free_fd fd s = Ok (tt, set_free (<[Z.to_nat (free_fd_table_index s + 1) := Some fd]> (free_fd_table s)) (free_fd_table_index s + 1)
    (set_fd_table (<[entry fd := Fd (Some FILE_TYPE_FREE) (fd_data f)]> (fd_table s)) s)).
Proof.
  intros Hfd Hl Hi Hn. unfold add_free_fd.
  rewrite (bind_ok _ _ s s (fd - FIRST_USER_FD)) by (by apply get_fd_struct_ok).
  rewrite (bind_ok _ _ s s f) by (apply read_fd_at; [lia|done]).
  erewrite bind_ok by (apply (write_fd_at s fd _ f); [lia|done]).
  unfold bind, gets, modify, cassert, lift, rassert, id. cbn [res_bind free_fd_table_index free_fd_table num_fds set_free set_fd_table set_tables].
  destruct (Z.ltb_spec (free_fd_table_index s + 1) (num_fds s)); [|lia]. cbn [res_bind].
  by rewrite arr_set_in by done.
Qed.

Lemma get_free_fd_none (s : St) : fds_ok s [] -> get_free_fd s = Ok (- EMFILE, s).
Proof.
  intros Hok. unfold get_free_fd, bind, gets, id. cbn [res_bind]. rewrite (ok_index s [] Hok). done.
Qed.

(** Taking one: it is the top of the stack. *)
Lemma get_free_fd_some (s : St) (l : list Z) (fd : Z) : fds_ok s (l ++ [fd]) ->
  get_free_fd s = Ok (fd, set_free (free_fd_table s) (free_fd_table_index s - 1) s).
Proof.
  intros Hok. pose proof (ok_index _ _ Hok) as Hi. pose proof (ok_stack _ _ Hok) as Hs.
  rewrite length_app in Hi. cbn in Hi. rewrite fmap_app in Hs. cbn in Hs.
  unfold get_free_fd, bind, gets, id. cbn [res_bind]. destruct (Z.eqb_spec (free_fd_table_index s) (-1)); [lia|].
  destruct (take_pop _ _ _ _ Hs) as [Hl _]; [by rewrite !length_app, length_fmap|].
  rewrite length_fmap in Hl. unfold modify, lift. cbn [res_bind].
  assert (Hg : arr_get (free_fd_table s) (free_fd_table_index s - 1 + 1) = Ok (Some fd)).
  { apply arr_get_ok. split; [lia|]. rewrite <- Hl. f_equal. lia. }
  by rewrite Hg.
Qed.

(** *** Keeping the invariant *)

Lemma free_in_range (s : St) (l : list Z) (fd : Z) : fds_ok s l -> fd ∈ l -> FIRST_USER_FD <= fd < num_fds s.
Proof. intros Hok [[? _] ?]%(ok_free _ _ Hok). lia. Qed.

(** A descriptor that is not free leaves room in the stack. *)
Lemma stack_room (s : St) (l : list Z) (fd : Z) : fds_ok s l -> FIRST_USER_FD <= fd < num_fds s -> fd ∉ l ->
  Z.of_nat (length l) < num_fds s - FIRST_USER_FD.
Proof.
  intros Hok Hfd Hl. pose proof (ok_size _ _ Hok).
  enough (Z.of_nat (length (fd :: l)) <= num_fds s - FIRST_USER_FD) by (cbn [length] in *; lia).
  apply NoDup_in_range with (a := FIRST_USER_FD); [lia|constructor; [done|apply (ok_nodup _ _ Hok)]|].
  intros x [->|Hx]%elem_of_cons; [lia|]. pose proof (free_in_range s l x Hok Hx). lia.
Qed.

(** The state after descriptor [fd] was given back, with blocks [m] and the rest of the system [w]. *)
Definition given_back (s : St) (fd : Z) (d : option Z) (m : gmap Z cpio_file_data_t) (w : W) : St :=
  set_free (<[Z.to_nat (free_fd_table_index s + 1) := Some fd]> (free_fd_table s)) (free_fd_table_index s + 1)
    (set_fd_table (<[entry fd := Fd (Some FILE_TYPE_FREE) d]> (fd_table s)) (set_rest w (set_files m s))).

Lemma given_back_ok (s : St) (l : list Z) (fd : Z) (d : option Z) (m : gmap Z cpio_file_data_t) (w : W) :
  fds_ok s l -> FIRST_USER_FD <= fd < num_fds s -> fd ∉ l ->
  (forall i p, i <> entry fd -> open_at s i p -> p ∈ live_blocks w /\ m !! p = files s !! p) ->
  fds_ok (given_back s fd d m w) (l ++ [fd]).
Proof.
  intros Hok Hfd Hl Hkeep. destruct (entry_lt s l fd Hok Hfd) as [Hlt _].
  pose proof (stack_room s l fd Hok Hfd Hl) as Hroom. pose proof (ok_free_len _ _ Hok) as Hlen.
  assert (Hi : Z.to_nat (free_fd_table_index s + 1) = length l) by (rewrite (ok_index _ _ Hok); lia).
  assert (Hother : forall i x, i <> entry fd -> fd_table (given_back s fd d m w) !! i = x <-> fd_table s !! i = x).
  { intros i x Hne. cbn. by rewrite list_lookup_insert_ne by done. }
  assert (Hself : fd_table (given_back s fd d m w) !! entry fd = Some (Fd (Some FILE_TYPE_FREE) d)).
  { cbn. by apply list_lookup_insert_eq. }
  constructor; cbn [num_fds fd_table free_fd_table free_fd_table_index given_back set_free set_fd_table set_rest set_files set_tables].
  - apply (ok_size _ _ Hok).
  - rewrite length_insert. apply (ok_table _ _ Hok).
  - by rewrite length_insert.
  - rewrite length_app, (ok_index _ _ Hok). cbn. lia.
  - rewrite length_app, Hi. cbn [length]. replace (length l + 1)%nat with (S (length l)) by lia.
    rewrite take_push by (unfold FIRST_USER_FD, STDERR_FILENO in *; lia). rewrite (ok_stack _ _ Hok), fmap_app. done.
  - apply NoDup_app. split_and!; [apply (ok_nodup _ _ Hok)| |apply NoDup_singleton].
    by intros x Hx ->%list_elem_of_singleton.
  - intros x. rewrite elem_of_app, list_elem_of_singleton, (ok_free _ _ Hok). split.
    + intros [[[Hx [d' Hd']] Hxn]| ->]; [|by split; [split; [lia|by exists d]|lia] ].
      split; [|done]. split; [done|]. destruct (decide (x = fd)) as [->|Hne]; [by exists d|].
      exists d'. apply Hother; [by apply entry_ne; try lia|done].
    + intros [[Hx [d' Hd']] Hxn]. destruct (decide (x = fd)) as [->|Hne]; [by right|]. left. split; [|done]. split; [done|].
      exists d'. rewrite Hother in Hd' by (apply entry_ne; lia || done). done.
  - intros i d'. destruct (decide (i = entry fd)) as [->|Hne].
    + intros Hd. change (fd_table (given_back s fd d m w) !! entry fd = Some (Fd (Some FILE_TYPE_CPIO) d')) in Hd. by rewrite Hself in Hd.
    + intros Hd. rewrite list_lookup_insert_ne in Hd by done. by apply (ok_data _ _ Hok i).
  - intros i p Hp. unfold open_at in Hp. destruct (decide (i = entry fd)) as [->|Hne]; [by rewrite Hself in Hp|].
    rewrite Hother in Hp by done. destruct (Hkeep i p Hne Hp) as [Hlive Hm]. split; [done|]. cbn.
    rewrite Hm. by apply (ok_open _ _ Hok i).
  - intros i j p Hp Hq. unfold open_at in *.
    destruct (decide (i = entry fd)) as [->|Hne]; [by rewrite Hself in Hp|].
    destruct (decide (j = entry fd)) as [->|Hne']; [by rewrite Hself in Hq|].
    rewrite Hother in Hp, Hq by done. by eapply (ok_inj _ _ Hok).
Qed.

Lemma given_back_opened (s : St) (fd : Z) (d : option Z) (m : gmap Z cpio_file_data_t) (w : W) (x : Z) :
  (entry fd < length (fd_table s))%nat -> FIRST_USER_FD <= fd ->
  (forall i p, i <> entry fd -> open_at s i p -> m !! p = files s !! p) ->
  opened (given_back s fd d m w) x = if bool_decide (x = fd) then None else opened s x.
Proof.
  intros Hlt Hfd Hkeep. unfold opened. cbn [num_fds fd_table files given_back set_free set_fd_table set_rest set_files set_tables].
  case_bool_decide as Hx; case_bool_decide as Hxf; try done.
  - subst. rewrite list_lookup_insert_eq by done. by destruct d.
  - rewrite list_lookup_insert_ne by (apply entry_ne; lia || congruence).
    destruct (fd_table s !! entry x) as [[[t|] [p|]]|] eqn:E; try done.
    destruct (Z.eqb_spec t FILE_TYPE_CPIO) as [->|]; [|done]. apply (Hkeep (entry x)); [apply entry_ne; lia || done|done].
Qed.

(** The state after the top of the stack was taken for block [p]. *)
Definition taken (s : St) (fd p : Z) (f : cpio_file_data_t) (w : W) : St :=
  set_files (<[p := f]> (files s)) (set_fd_table (<[entry fd := Fd (Some FILE_TYPE_CPIO) (Some p)]> (fd_table s))
    (set_free (free_fd_table s) (free_fd_table_index s - 1) (set_rest w s))).

Lemma taken_ok (s : St) (l : list Z) (fd p : Z) (f : cpio_file_data_t) (w : W) :
  fds_ok s (l ++ [fd]) -> (p ∉ live_blocks (io_rest s)) -> live_blocks w = {[p]} ∪ live_blocks (io_rest s) -> file_ok f ->
  fds_ok (taken s fd p f w) l.
Proof.
  intros Hok Hp Hw Hf. assert (Hin : fd ∈ l ++ [fd]) by (apply elem_of_app; right; by apply list_elem_of_singleton).
  pose proof (free_in_range _ _ _ Hok Hin) as Hfd. destruct (entry_lt _ _ fd Hok Hfd) as [Hlt _].
  pose proof (ok_nodup _ _ Hok) as (Hnd & Hdis & _)%NoDup_app.
  assert (Hnew : forall i q, open_at s i q -> q <> p) by (intros i q Hq ->; by apply (ok_open _ _ Hok) in Hq as [? _]).
  assert (Hother : forall i x, i <> entry fd -> fd_table (taken s fd p f w) !! i = x <-> fd_table s !! i = x).
  { intros i x Hne. cbn. by rewrite list_lookup_insert_ne by done. }
  assert (Hself : fd_table (taken s fd p f w) !! entry fd = Some (Fd (Some FILE_TYPE_CPIO) (Some p))).
  { cbn. by apply list_lookup_insert_eq. }
  constructor; cbn [num_fds fd_table free_fd_table free_fd_table_index taken set_free set_fd_table set_rest set_files set_tables].
  - apply (ok_size _ _ Hok).
  - rewrite length_insert. apply (ok_table _ _ Hok).
  - apply (ok_free_len _ _ Hok).
  - pose proof (ok_index _ _ Hok) as Hi. rewrite length_app in Hi. cbn in Hi. lia.
  - pose proof (ok_stack _ _ Hok) as Hs. rewrite fmap_app in Hs. cbn in Hs.
    destruct (take_pop _ _ _ _ Hs) as [_ Hl]; [by rewrite !length_app, length_fmap|]. by rewrite length_fmap in Hl.
  - done.
  - intros x. split.
    + intros Hx. assert (Hx' : x ∈ l ++ [fd]) by (apply elem_of_app; by left).
      pose proof Hx' as [[Hx1 [d Hd]] Hx2]%(ok_free _ _ Hok). split; [|done]. split; [done|]. exists d.
      apply Hother; [|done]. apply entry_ne; [lia|lia|]. intros ->. by apply (Hdis fd); [|apply list_elem_of_singleton].
    + intros [[Hx1 [d Hd]] Hx2]. destruct (decide (x = fd)) as [->|Hne]; [by rewrite Hself in Hd|].
      rewrite Hother in Hd by (apply entry_ne; lia || done).
      assert (Hx : x ∈ l ++ [fd]) by (apply (ok_free _ _ Hok); split; [split; [done|by exists d]|done]).
      apply elem_of_app in Hx as [Hx|Hx%list_elem_of_singleton]; done.
  - intros i d Hd. destruct (decide (i = entry fd)) as [->|Hne].
    + rewrite list_lookup_insert_eq in Hd by done. simplify_eq. by eexists.
    + rewrite list_lookup_insert_ne in Hd by done. by apply (ok_data _ _ Hok i).
  - intros i q Hq. unfold open_at in Hq. destruct (decide (i = entry fd)) as [->|Hne].
    + rewrite Hself in Hq. simplify_eq. cbn. rewrite Hw. split; [set_solver|]. exists f. by rewrite lookup_insert_eq.
    + rewrite Hother in Hq by done. pose proof (Hnew i q Hq). cbn. rewrite Hw, lookup_insert_ne by done.
      apply (ok_open _ _ Hok) in Hq as [? ?]. split; [by apply elem_of_union_r|done].
  - intros i j q Hi Hj. unfold open_at in *.
    destruct (decide (i = entry fd)) as [->|Hne], (decide (j = entry fd)) as [->|Hne']; [done|..].
    + rewrite Hself in Hi. rewrite Hother in Hj by done. simplify_eq. by destruct (Hnew j q).
    + rewrite Hself in Hj. rewrite Hother in Hi by done. simplify_eq. by destruct (Hnew i q).
    + rewrite Hother in Hi, Hj by done. by eapply (ok_inj _ _ Hok).
Qed.

Lemma taken_opened (s : St) (l : list Z) (fd p : Z) (f : cpio_file_data_t) (w : W) (x : Z) :
  fds_ok s (l ++ [fd]) -> (p ∉ live_blocks (io_rest s)) ->
  opened (taken s fd p f w) x = if bool_decide (x = fd) then Some f else opened s x.
Proof.
  intros Hok Hp. assert (Hin : fd ∈ l ++ [fd]) by (apply elem_of_app; right; by apply list_elem_of_singleton).
  pose proof (free_in_range _ _ _ Hok Hin) as Hfd. destruct (entry_lt _ _ fd Hok Hfd) as [Hlt _].
  unfold opened. cbn [num_fds fd_table files taken set_free set_fd_table set_rest set_files set_tables].
  case_bool_decide as Hx; case_bool_decide as Hxf; [| |congruence|done].
  - subst. rewrite list_lookup_insert_eq by done. cbn. by rewrite lookup_insert_eq.
  - rewrite list_lookup_insert_ne by (apply entry_ne; lia || congruence).
    destruct (fd_table s !! entry x) as [[[t|] [q|]]|] eqn:E; try done.
    destruct (Z.eqb_spec t FILE_TYPE_CPIO) as [->|]; [|done]. rewrite lookup_insert_ne; [done|].
    intros <-. by apply (ok_open _ _ Hok (entry x)) in E as [? _].
Qed.
End inv.
