(* ===== verification/FilesOps.v ===== *)
(** The file calls (Files.v) on the invariant of the table (FilesInv.v): what
    opening, closing, reading and moving do to the files that are open. *)
From stdpp Require Import gmap strings.
From S2P Require Import Prelude Interfaces Files FilesInv.

(** The rest of the system returns, and does not touch the blocks of the files. *)
Class FileLibLaws (W : Type) `{MA : !Malloc W} `{ML : !MallocLaws W} `{FL : !FileLib W} : Prop := {
  file_memcpy_returns : forall to from n w, exists w', file_memcpy to from n w = Ok (tt, w') /\ live_blocks w' = live_blocks w
}.

(** The numbers of errors are positive, and the flags are different bits. *)
Class FileErrnos `{FC : !FileConstants} : Prop := {
  EMFILE_pos : 0 < EMFILE; ENOMEM_pos : 0 < ENOMEM; ENOENT_pos : 0 < ENOENT; EINVAL_pos : 0 < EINVAL; EOVERFLOW_pos : 0 < EOVERFLOW;
  open_read_only : Z.ldiff O_RDONLY O_LARGEFILE = O_RDONLY
}.

Section ops.
Context {W : Type} `{FC : !FileConstants} `{MA : !Malloc W} `{ML : !MallocLaws W} `{FL : !FileLib W} `{FW : !FileLibLaws W} `{FE : !FileErrnos}.
#[local] Notation St := (io_state W).

(** The call that finds files returns, and leaves the blocks alone. *)
Definition finder_ok (s : St) : Prop :=
  forall get, cpio_get_file_impl s = Some get ->
  forall sym len name w, exists r w', get sym len name w = Ok (r, w') /\ live_blocks w' = live_blocks w.

(** The descriptors that are open, with their blocks, keep the invariant when
    only the rest of the system changes. *)
Lemma set_rest_ok (s : St) (l : list Z) (w : W) : fds_ok s l -> live_blocks w = live_blocks (io_rest s) -> fds_ok (set_rest w s) l.
Proof. intros [] Hw. constructor; try done. intros i p Hp. cbn. rewrite Hw. by eapply ok_open. Qed.

Lemma find_file_ok (s : St) (pathname : string) : finder_ok s -> exists r w,
  find_file pathname s = Ok (r, set_rest w s) /\ live_blocks w = live_blocks (io_rest s).
Proof.
  intros Hf. assert (Hs : s = set_rest (io_rest s) s) by (by destruct s).
  unfold find_file, bind, gets, id. cbn [res_bind].
  destruct (cpio_get_file_impl s) as [get|] eqn:Eg; [|exists None, (io_rest s); by rewrite <- Hs].
  destruct (Z.eqb_spec (cpio_archive_symbol s) 0); [exists None, (io_rest s); by rewrite <- Hs|].
  destruct (Hf get Eg (cpio_archive_symbol s) (cpio_archive_len s) pathname (io_rest s)) as (r & w & Er & Hw).
  unfold io_outside at 1. rewrite Er. cbn [res_bind].
  destruct r as [r|]; [by exists (Some r), w|].
  destruct (strip_dot_slash pathname) as [p|]; [|by exists None, w].
  destruct (Hf get Eg (cpio_archive_symbol s) (cpio_archive_len s) p w) as (r' & w' & Er' & Hw').
  unfold io_outside. cbn [io_rest set_rest cpio_archive_symbol cpio_archive_len]. rewrite Er'. exists r', w'. split; [done|congruence].
Qed.

(** *** Opening *)

(** A free descriptor whose entry holds another pointer is still free. *)
Lemma free_data_ok (s : St) (l : list Z) (fd : Z) (d : option Z) (w : W) :
  fds_ok s l -> fd ∈ l -> live_blocks w = live_blocks (io_rest s) ->
  fds_ok (set_fd_table (<[entry fd := Fd (Some FILE_TYPE_FREE) d]> (fd_table s)) (set_rest w s)) l.
Proof.
  intros Hok Hl Hw. pose proof (free_in_range _ _ _ Hok Hl) as Hfd. destruct (entry_lt _ _ fd Hok Hfd) as [Hlt _].
  pose proof Hl as [[_ [d0 Hd0]] _]%(ok_free _ _ Hok).
  assert (Hcpio : forall i e, <[entry fd := Fd (Some FILE_TYPE_FREE) d]> (fd_table s) !! i = Some (Fd (Some FILE_TYPE_CPIO) e) ->
    fd_table s !! i = Some (Fd (Some FILE_TYPE_CPIO) e)).
  { intros i e He. destruct (decide (i = entry fd)) as [->|Hne]; [by rewrite list_lookup_insert_eq in He|].
    by rewrite list_lookup_insert_ne in He. }
  constructor; cbn [num_fds fd_table free_fd_table free_fd_table_index set_fd_table set_rest set_tables]; try apply Hok.
  - rewrite length_insert. apply (ok_table _ _ Hok).
  - intros x. rewrite (ok_free _ _ Hok). unfold is_free. cbn [fd_table set_fd_table set_rest set_tables].
    destruct (decide (entry x = entry fd)) as [->|Hne]; [|by rewrite list_lookup_insert_ne by done].
    rewrite list_lookup_insert_eq by done. split; intros [[Hx _] Hxn]; (split; [|done]); (split; [done|]); [by exists d|by exists d0].
  - intros i e He. apply Hcpio in He. by apply (ok_data _ _ Hok i).
  - intros i p Hp. apply Hcpio in Hp. cbn. rewrite Hw. by apply (ok_open _ _ Hok i).
  - intros i j p Hi Hj. apply Hcpio in Hi, Hj. by eapply (ok_inj _ _ Hok).
Qed.

(** What [open] does once there is a file and a table. *)
Definition open_file (file size : Z) : M St Z :=
  let! fd := allocate_fd in
  if fd =? - EMFILE then ret (- EMFILE) else
  let! fds := get_fd_struct fd in
  let! f := read_fd fds in
  let! _ := write_fd fds (Fd (Some FILE_TYPE_CPIO) (fd_data f)) in
  let! p := io_outside (malloc sizeof_cpio_file_data_t) in
  let! _ := write_fd fds (Fd (Some FILE_TYPE_CPIO) (Some p)) in
  if p =? 0 then let! _ := add_free_fd fd in ret (- ENOMEM) else
  let! _ := modify (fun s => set_files (<[p := CpioFile file (to_uint32 size) 0]> (files s)) s) in
  ret fd.

Lemma allocate_fd_table (s : St) : fd_table_ptr s <> 0 -> allocate_fd s = get_free_fd s.
Proof.
  intros Hp. pose proof ENOMEM_pos. unfold allocate_fd, bind, gets, id. cbn [res_bind]. destruct (Z.eqb_spec (fd_table_ptr s) 0); [done|].
  cbn [res_bind]. unfold ret. cbn [res_bind]. destruct (Z.eqb_spec 0 (- ENOMEM)); [lia|done].
Qed.

Lemma io_outside_ok {A} (m : M W A) (a : A) (s : St) (w : W) : m (io_rest s) = Ok (a, w) -> io_outside m s = Ok (a, set_rest w s).
Proof. intros E. unfold io_outside. by rewrite E. Qed.

Lemma to_uint32_range (x : Z) : 0 <= to_uint32 x < 2 ^ 32.
Proof. apply Z.mod_pos_bound. lia. Qed.

Lemma open_file_ok (s : St) (l : list Z) (fd file size : Z) :
  fds_ok s (l ++ [fd]) -> fd_table_ptr s <> 0 ->
  exists s', (open_file file size s = Ok (fd, s') /\ exists p w, s' = taken s fd p (CpioFile file (to_uint32 size) 0) w /\
      (p ∉ live_blocks (io_rest s)) /\ live_blocks w = {[p]} ∪ live_blocks (io_rest s)) \/
    (open_file file size s = Ok (- ENOMEM, s') /\ exists w,
      s' = set_fd_table (<[entry fd := Fd (Some FILE_TYPE_FREE) (Some 0)]> (fd_table s)) (set_rest w s) /\
      live_blocks w = live_blocks (io_rest s)).
Proof.
  intros Hok Hp. pose proof EMFILE_pos. assert (Hin : fd ∈ l ++ [fd]) by (apply elem_of_app; right; by apply list_elem_of_singleton).
  pose proof (free_in_range _ _ _ Hok Hin) as Hfd. destruct (entry_lt _ _ fd Hok Hfd) as [Hlt _].
  pose proof Hin as [[_ [d0 Hd0]] _]%(ok_free _ _ Hok).
  pose proof (ok_index _ _ Hok) as Hi. rewrite length_app in Hi. cbn in Hi.
  pose proof (ok_free_len _ _ Hok) as Hflen. pose proof (ok_stack _ _ Hok) as Hst. rewrite fmap_app in Hst. cbn in Hst.
  destruct (take_pop _ _ _ _ Hst) as [Htop _]; [by rewrite !length_app, length_fmap|]. rewrite length_fmap in Htop.
  unfold open_file. rewrite (bind_ok _ _ s _ _ (eq_trans (allocate_fd_table s Hp) (get_free_fd_some s l fd Hok))).
  set (s1 := set_free (free_fd_table s) (free_fd_table_index s - 1) s).
  assert (H3 : FIRST_USER_FD <= fd) by lia. destruct (Z.eqb_spec fd (- EMFILE)); [unfold FIRST_USER_FD, STDERR_FILENO in *; lia|].
  rewrite (bind_ok _ _ s1 s1 (fd - FIRST_USER_FD)) by (by apply get_fd_struct_ok).
  rewrite (bind_ok _ _ s1 s1 (Fd (Some FILE_TYPE_FREE) d0)) by (apply read_fd_at; [done|done]).
  erewrite bind_ok by (apply (write_fd_at s1 fd _ (Fd (Some FILE_TYPE_FREE) d0)); [done|done]).
  set (s2 := set_fd_table _ s1). destruct (malloc_law sizeof_cpio_file_data_t (io_rest s2)) as (p & w & Em & Hm).
  rewrite (bind_ok _ _ s2 (set_rest w s2) p) by (by apply io_outside_ok).
  assert (Hl2 : fd_table (set_rest w s2) !! entry fd = Some (Fd (Some FILE_TYPE_CPIO) d0)) by (cbn; by apply list_lookup_insert_eq).
  erewrite bind_ok by (apply (write_fd_at (set_rest w s2) fd _ (Fd (Some FILE_TYPE_CPIO) d0)); [done|exact Hl2]).
  set (s3 := set_fd_table _ (set_rest w s2)).
  assert (Ht3 : fd_table s3 = <[entry fd := Fd (Some FILE_TYPE_CPIO) (Some p)]> (fd_table s)) by (cbn; apply list_insert_insert_eq).
  destruct Hm as [[-> Hw]|(Hp0 & Hfresh & Hw)].
  - eexists. right. cbn [Z.eqb]. erewrite bind_ok.
    2: { apply (add_free_fd_at s3 fd (Fd (Some FILE_TYPE_CPIO) (Some 0))); [done| | |].
         - rewrite Ht3. by apply list_lookup_insert_eq.
         - cbn. unfold FIRST_USER_FD, STDERR_FILENO in *. apply lookup_lt_Some in Htop. lia.
         - cbn. apply lookup_lt_Some in Htop. unfold FIRST_USER_FD, STDERR_FILENO in *. lia. }
    split; [reflexivity|]. exists w. split; [|done]. rewrite Ht3, list_insert_insert_eq. cbn.
    replace (Z.to_nat (free_fd_table_index s - 1 + 1)) with (length l) by lia.
    rewrite (list_insert_id _ _ _ Htop). replace (free_fd_table_index s - 1 + 1) with (free_fd_table_index s) by lia. by destruct s.
  - eexists. left. destruct (Z.eqb_spec p 0); [done|]. cbn [bind modify ret]. unfold bind, modify, ret. cbn [res_bind].
    split; [reflexivity|]. exists p, w. split; [|done]. unfold taken. by rewrite <- Ht3.
Qed.

(** What the calls leave as it is. *)
Definition same_env (s s' : St) : Prop :=
  num_fds s' = num_fds s /\ fd_table_ptr s' = fd_table_ptr s /\ cpio_get_file_impl s' = cpio_get_file_impl s.

Lemma open_file_none (s : St) (file size : Z) : fds_ok s [] -> fd_table_ptr s <> 0 ->
  open_file file size s = Ok (- EMFILE, s).
Proof.
  intros Hok Hp. unfold open_file. rewrite (bind_ok _ _ s _ _ (eq_trans (allocate_fd_table s Hp) (get_free_fd_none s Hok))).
  by rewrite Z.eqb_refl.
Qed.

(** Opening: an error changes no file; the descriptor otherwise is the top
    of the stack, and is of the file from its start. *)
Lemma sys_open_ok (s : St) (l : list Z) (pathname : string) (flags : Z) :
  fds_ok s l -> fd_table_ptr s <> 0 -> finder_ok s -> Z.ldiff flags O_LARGEFILE = O_RDONLY ->
  exists r s' l', sys_open pathname flags s = Ok (r, s') /\ fds_ok s' l' /\ same_env s s' /\
    ((r < 0 /\ l' = l /\ forall x, opened s' x = opened s x) \/
     (l = l' ++ [r] /\ exists file size, forall x,
        opened s' x = if bool_decide (x = r) then Some (CpioFile file (to_uint32 size) 0) else opened s x)).
Proof.
  intros Hok Hp Hf Hfl. pose proof EMFILE_pos. pose proof ENOMEM_pos. pose proof ENOENT_pos.
  destruct (find_file_ok s pathname Hf) as (r & w & Er & Hw). set (s1 := set_rest w s).
  assert (Hok1 : fds_ok s1 l) by (by apply set_rest_ok).
  assert (E : sys_open pathname flags s =
    match r with None => Ok (- ENOENT, s1) | Some (file, size) => open_file file size s1 end).
  { unfold sys_open, sys_open_impl. cbv zeta. rewrite Hfl, Z.eqb_refl. unfold bind at 1. cbn [cassert lift rassert res_bind].
    rewrite (bind_ok _ _ _ _ _ Er). by destruct r as [[file size]|]. }
  rewrite E. clear E. destruct r as [[file size]|]; [|exists (- ENOENT), s1, l; split_and!; [done..|left; split; [lia|done] ] ].
  induction l as [|fd l _] using rev_ind.
  - exists (- EMFILE), s1, []. rewrite open_file_none by done. split_and!; [done..|]. left. split; [lia|done].
  - destruct (open_file_ok s1 l fd file size Hok1 Hp) as (s' & [(E & p & w' & -> & Hfresh & Hw')|(E & w' & -> & Hw')]); rewrite E.
    + eexists fd, _, l. split; [done|]. split_and!; [|done|right].
      * apply taken_ok; try done. pose proof (to_uint32_range size). unfold file_ok. cbn. lia.
      * split; [done|]. exists file, size. intros x. by rewrite (taken_opened s1 l) by done.
    + assert (Hin : fd ∈ l ++ [fd]) by (apply elem_of_app; right; by apply list_elem_of_singleton).
      eexists _, _, (l ++ [fd]). split; [done|]. split_and!; [by apply free_data_ok|done|]. left. split_and!; [lia|done|].
      pose proof Hin as [[H3 [d0 Hd0]] _]%(ok_free _ _ Hok1). destruct (entry_lt _ _ fd Hok1 (free_in_range _ _ _ Hok1 Hin)) as [Hlt _].
      intros x. unfold opened. cbn [num_fds fd_table files set_fd_table set_rest set_tables s1].
      case_bool_decide as Hx; [|done]. destruct (decide (entry x = entry fd)) as [Heq|Hne].
      * rewrite Heq, list_lookup_insert_eq by done. change (fd_table s !! entry fd = Some (Fd (Some FILE_TYPE_FREE) d0)) in Hd0.
        rewrite Hd0. by destruct d0.
      * by rewrite list_lookup_insert_ne by done.
Qed.

(** *** Closing *)

Lemma open_not_free (s : St) (l : list Z) (fd p : Z) : fds_ok s l -> open_at s (entry fd) p -> fd ∉ l.
Proof. intros Hok Ho [[_ [d Hd]] _]%(ok_free _ _ Hok). unfold open_at in Ho. rewrite Ho in Hd. done. Qed.

Lemma valid_fd_true (s : St) (fd : Z) : FIRST_USER_FD <= fd < num_fds s -> valid_fd s fd = true.
Proof. intros Hfd. unfold valid_fd. apply andb_true_iff. split; [apply Z.ltb_lt|apply Z.leb_le]; lia. Qed.

(** Closing an open descriptor puts it on top of the stack. *)
Lemma sys_close_ok (s : St) (l : list Z) (fd : Z) (f : cpio_file_data_t) :
  fds_ok s l -> opened s fd = Some f ->
  exists s', sys_close fd s = Ok (0, s') /\ fds_ok s' (l ++ [fd]) /\ same_env s s' /\
    forall x, opened s' x = if bool_decide (x = fd) then None else opened s x.
Proof.
  intros Hok (Hfd & p & Ho & Hp)%opened_inv. pose proof (open_not_free _ _ _ _ Hok Ho) as Hl.
  pose proof (ok_open _ _ Hok _ _ Ho) as [Hlive _]. destruct (entry_lt _ _ fd Hok Hfd) as [Hlt _].
  destruct (free_law p (io_rest s) Hlive) as (w & Ew & Hw). pose proof (ok_index _ _ Hok) as Hi.
  pose proof (stack_room _ _ _ Hok Hfd Hl) as Hroom. pose proof (ok_free_len _ _ Hok) as Hflen.
  assert (Hkeep : forall i q, i <> entry fd -> open_at s i q -> q ∈ live_blocks w /\ delete p (files s) !! q = files s !! q).
  { intros i q Hne Hq. assert (q <> p) by (intros ->; apply Hne; by eapply (ok_inj _ _ Hok)).
    split; [|by apply lookup_delete_ne]. apply (ok_open _ _ Hok) in Hq as [? _]. rewrite Hw. set_solver. }
  exists (given_back s fd (Some p) (delete p (files s)) w). split; [|split_and!; [by apply given_back_ok|done|] ].
  - unfold sys_close. unfold bind at 1. unfold cassert, rassert, lift. destruct (Z.leb_spec FIRST_USER_FD fd); [|lia]. cbn [res_bind].
    erewrite bind_ok by done. unfold id. rewrite valid_fd_true by done. cbn [negb].
    erewrite bind_ok by (by apply get_fd_struct_ok). erewrite bind_ok by (apply read_fd_at; [lia|exact Ho]).
    cbn [filetype written fd_data]. unfold bind at 1. cbn [ret res_bind Z.eqb FILE_TYPE_CPIO].
    set (s1 := set_rest w (set_files (delete p (files s)) s)).
    erewrite (bind_ok _ _ s s1 tt).
    2: { change (FILE_TYPE_CPIO =? FILE_TYPE_CPIO) with true. cbn iota. unfold bind, ret, modify. cbn [res_bind].
         by apply io_outside_ok. }
    erewrite bind_ok; [reflexivity|].
    apply (add_free_fd_at s1 fd (Fd (Some FILE_TYPE_CPIO) (Some p))); [done|exact Ho|cbn; lia|].
    cbn. pose proof (ok_size _ _ Hok). unfold FIRST_USER_FD, STDERR_FILENO in *. lia.
  - intros x. apply given_back_opened; [done|lia|]. intros i q Hne Hq. by apply Hkeep with (i := i).
Qed.

(** *** Reading and moving *)

(** The file of block [p] at another position. *)
Definition at_position (f : cpio_file_data_t) (c : Z) : cpio_file_data_t := CpioFile (file_start f) (file_size f) c.
Definition moved (s : St) (p : Z) (f : cpio_file_data_t) (c : Z) (w : W) : St :=
  set_files (<[p := at_position f c]> (files s)) (set_rest w s).

Lemma moved_ok (s : St) (l : list Z) (fd p : Z) (f : cpio_file_data_t) (c : Z) (w : W) :
  fds_ok s l -> FIRST_USER_FD <= fd < num_fds s -> open_at s (entry fd) p -> files s !! p = Some f ->
  0 <= c <= file_size f -> live_blocks w = live_blocks (io_rest s) ->
  fds_ok (moved s p f c w) l /\
  forall x, opened (moved s p f c w) x = if bool_decide (x = fd) then Some (at_position f c) else opened s x.
Proof.
  intros Hok Hfd Ho Hp Hc Hw. pose proof (ok_open _ _ Hok _ _ Ho) as [_ (f' & Hf' & Hfok)]. simplify_eq. split.
  - constructor; try apply Hok. intros i q Hq. pose proof (ok_open _ _ Hok i q Hq) as [Hlive Hf]. cbn. rewrite Hw. split; [done|].
    destruct (decide (q = p)) as [->|Hne]; [|by rewrite lookup_insert_ne].
    rewrite lookup_insert_eq. eexists; split; [done|]. unfold file_ok, at_position in *. cbn. lia.
  - intros x. case_bool_decide as Hx.
    + subst. rewrite (opened_at _ fd p) by done. cbn. by rewrite lookup_insert_eq.
    + unfold opened. cbn [num_fds fd_table files moved set_files set_rest]. case_bool_decide; [|done].
      destruct (fd_table s !! entry x) as [[[t|] [q|]]|] eqn:E; try done.
      destruct (Z.eqb_spec t FILE_TYPE_CPIO) as [->|]; [|done]. rewrite lookup_insert_ne; [done|]. intros <-.
      pose proof (ok_inj _ _ Hok _ _ _ Ho E). unfold entry in *. lia.
Qed.

(** The copies that fill the buffers in order from the bytes at [src], as
    long as there are [left] of them. *)
Fixpoint copies (iov : list iovec) (src left : Z) : M W unit :=
  match iov with
  | [] => ret tt
  | (base, len) :: iov => if left <=? 0 then ret tt else
      let! _ := file_memcpy base (wrap src) (Z.min len left) in copies iov (src + Z.min len left) (left - Z.min len left)
  end.

Definition iov_total (iov : list iovec) : Z := foldr (fun v a => v.2 + a) 0 iov.

Lemma iov_total_nonneg (iov : list iovec) : Forall (fun v => 0 <= v.2) iov -> 0 <= iov_total iov.
Proof. induction 1; cbn; unfold iov_total in *; lia. Qed.

Lemma copies_returns (iov : list iovec) (src left : Z) (w : W) : exists w', copies iov src left w = Ok (tt, w') /\ live_blocks w' = live_blocks w.
Proof.
  revert src left w. induction iov as [|[base len] iov IH]; intros src left w; cbn [copies]; [by exists w|].
  destruct (left <=? 0); [by exists w|]. unfold bind.
  destruct (file_memcpy_returns base (wrap src) (Z.min len left) w) as (w1 & -> & Hw1). cbn [res_bind].
  destruct (IH (src + Z.min len left) (left - Z.min len left) w1) as (w2 & E & Hw2). exists w2. by rewrite Hw2.
Qed.

Lemma moved_moved (s : St) (p : Z) (f : cpio_file_data_t) (c d : Z) (w v : W) :
  moved (moved s p f c w) p (at_position f c) d v = moved s p f d v.
Proof. unfold moved. cbn. by rewrite insert_insert_eq. Qed.

Lemma moved_here (s : St) (p : Z) (f : cpio_file_data_t) : files s !! p = Some f -> moved s p f (file_current f) (io_rest s) = s.
Proof. intros Hp. unfold moved. destruct f, s. cbn in *. by rewrite insert_id. Qed.

Lemma readv_loop_ok (iov : list iovec) (s : St) (p r : Z) (f : cpio_file_data_t) :
  files s !! p = Some f -> file_ok f -> Forall (fun v => 0 <= v.2) iov ->
  exists w, copies iov (file_start f + file_current f) (file_size f - file_current f) (io_rest s) = Ok (tt, w) /\
    let n := Z.min (iov_total iov) (file_size f - file_current f) in
    readv_loop iov p r s = Ok (r + n, moved s p f (file_current f + n) w).
Proof.
  revert s r f. induction iov as [|[base len] iov IH]; intros s r f Hp Hf Hiov; cbn [readv_loop copies iov_total foldr].
  - exists (io_rest s). split; [done|]. cbv zeta. unfold file_ok in Hf. rewrite Z.min_l, !Z.add_0_r, moved_here by (done || lia). done.
  - apply Forall_cons in Hiov as [Hlen Hiov]. cbn [snd] in Hlen. pose proof (iov_total_nonneg iov Hiov) as Htot.
    erewrite (bind_ok _ _ s s f) by (unfold read_file, bind, gets, id; cbn; by rewrite Hp). unfold file_ok in Hf.
    destruct (Z.ltb_spec (file_current f) (file_size f)), (Z.leb_spec (file_size f - file_current f) 0); try lia; cbn [negb].
    2: { exists (io_rest s). split; [done|]. cbv zeta. fold (iov_total iov).
         cbn [snd]. replace (Z.min (len + iov_total iov) (file_size f - file_current f)) with 0 by lia. rewrite !Z.add_0_r. by rewrite moved_here. }
    set (left := file_size f - file_current f) in *.
    replace (if left <? len then left else len) with (Z.min len left) by (destruct (Z.ltb_spec left len); lia).
    set (n := Z.min len left). destruct (file_memcpy_returns base (wrap (file_start f + file_current f)) n (io_rest s)) as (w1 & E1 & _).
    destruct (IH (moved s p f (file_current f + n) w1) (r + n) (at_position f (file_current f + n))) as (w & Ec & El);
      [cbn; apply lookup_insert_eq|unfold file_ok; cbn; lia|done|].
    cbn [file_start file_size file_current at_position io_rest moved set_files set_rest] in Ec, El. exists w.
    rewrite moved_moved in El. split.
    + unfold bind. rewrite E1. cbn [res_bind]. rewrite <- Ec. f_equal; lia.
    + erewrite (bind_ok _ _ s) by (by apply io_outside_ok).
      erewrite (bind_ok _ _ (set_rest w1 s) (moved s p f (file_current f + n) w1)).
      2: { unfold set_current, modify. do 2 f_equal. unfold moved. cbn. f_equal. rewrite <- (insert_id (files s) p f Hp) at 1.
           by rewrite alter_insert_eq. }
      cbv zeta in El |- *. rewrite El. fold (iov_total iov). cbn [snd]. f_equal. f_equal; [lia|]. f_equal. lia.
Qed.

(** Getting at the block of an open descriptor. *)
Lemma open_entry {A} (s : St) (fd p : Z) (k : Z -> M St A) :
  FIRST_USER_FD <= fd < num_fds s -> open_at s (entry fd) p ->
  (let! i := get_fd_struct fd in let! m := read_fd i in let! t := written (filetype m) in
   let! _ := cassert (t =? FILE_TYPE_CPIO) in let! p := written (fd_data m) in k p) s = k p s.
Proof.
  intros Hfd Ho. erewrite bind_ok by (by apply get_fd_struct_ok). erewrite bind_ok by (apply read_fd_at; [lia|exact Ho]). done.
Qed.

Lemma sys_readv_ok (s : St) (l : list Z) (fd : Z) (f : cpio_file_data_t) (iov : list iovec) :
  fds_ok s l -> opened s fd = Some f -> Forall (fun v => 0 <= v.2) iov ->
  let n := Z.min (iov_total iov) (file_size f - file_current f) in
  exists s', sys_readv fd iov s = Ok (n, s') /\ fds_ok s' l /\ same_env s s' /\
    copies iov (file_start f + file_current f) (file_size f - file_current f) (io_rest s) = Ok (tt, io_rest s') /\
    forall x, opened s' x = if bool_decide (x = fd) then Some (at_position f (file_current f + n)) else opened s x.
Proof.
  intros Hok (Hfd & p & Ho & Hp)%opened_inv Hiov n. pose proof (ok_open _ _ Hok _ _ Ho) as [_ (g & Hg & Hf)]. simplify_eq.
  destruct (readv_loop_ok iov s p 0 f Hp Hf Hiov) as (w & Ec & El). cbv zeta in El. fold n in El.
  destruct (copies_returns iov (file_start f + file_current f) (file_size f - file_current f) (io_rest s)) as (w' & Ec' & Hw').
  assert (w' = w) by congruence. subst w'. pose proof (iov_total_nonneg iov Hiov). unfold file_ok in Hf.
  exists (moved s p f (file_current f + n) w).
  destruct (moved_ok s l fd p f (file_current f + n) w) as [Hok' Hop]; [done..|lia|done|]. split_and!; try done.
  unfold sys_readv. unfold bind at 1. unfold cassert at 1, rassert, lift. destruct (Z.leb_spec FIRST_USER_FD fd); [|lia]. cbn [res_bind].
  erewrite bind_ok by done. unfold id. rewrite valid_fd_true by done. cbn [negb].
  by rewrite (open_entry s fd p (fun p => readv_loop iov p 0)) by done.
Qed.

(** The move that a seek amounts to: none on an error. *)
Definition seek_result (f : cpio_file_data_t) (offset whence : Z) : Z * option Z :=
  match new_offset f offset whence with
  | inl error => (error, None)
  | inr n => if bool_decide (0 <= n <= file_size f) then (n, Some n) else (- EINVAL, None)
  end.

Lemma sys_lseek_ok (s : St) (l : list Z) (fd offset whence : Z) (f : cpio_file_data_t) :
  fds_ok s l -> opened s fd = Some f ->
  exists s', sys_lseek fd offset whence s = Ok ((seek_result f offset whence).1, s') /\ fds_ok s' l /\ same_env s s' /\
    io_rest s' = io_rest s /\
    forall x, opened s' x = match (seek_result f offset whence).2 with
      | Some n => if bool_decide (x = fd) then Some (at_position f n) else opened s x
      | None => opened s x
      end.
Proof.
  intros Hok (Hfd & p & Ho & Hp)%opened_inv. unfold seek_result, sys_lseek, sys_lseek_impl.
  erewrite bind_ok by done. unfold id. rewrite valid_fd_true by done. cbn [negb].
  rewrite (open_entry s fd p) by done.
  erewrite bind_ok by (unfold read_file, bind, gets, id; cbn; by rewrite Hp).
  destruct (new_offset f offset whence) as [e|n]; [by exists s|].
  case_bool_decide as Hn; cbn [fst snd].
  - destruct (Z.ltb_spec n 0), (Z.ltb_spec (file_size f) n); try lia.
    exists (moved s p f n (io_rest s)). destruct (moved_ok s l fd p f n (io_rest s)) as [Hok' Hop]; try done.
    split_and!; try done. unfold set_current, bind, modify, ret. cbn [res_bind]. do 2 f_equal.
    unfold moved. destruct s. cbn in *. f_equal. rewrite <- (insert_id _ p f Hp) at 1. by rewrite alter_insert_eq.
  - exists s. split_and!; try done. destruct (Z.ltb_spec n 0), (Z.ltb_spec (file_size f) n); try done. lia.
Qed.
End ops.
