(* ===== verification/FilesSpec.v ===== *)
(** What the file calls (Files.v) promise: a program that closes, reads and moves
    only what it has open sees the calls of a machine whose state is the files
    that are open and nothing else; reads in parts are one read; a seek on a
    file of less than 2 GiB does what POSIX says; a descriptor that is closed is
    the next to be handed out.  And where the calls do less than they mean to. *)
From stdpp Require Import gmap strings.
From S2P Require Import Prelude Interfaces Files FilesInv FilesOps.

(** ** The machine *)

(** The file of each descriptor that is open. *)
Definition view : Type := Z -> option cpio_file_data_t.
Definition view_set (A : view) (fd : Z) (f : option cpio_file_data_t) : view := fun x => if bool_decide (x = fd) then f else A x.
Definition view_eq (A B : view) : Prop := forall x, A x = B x.

#[export] Instance view_eq_equivalence : Equivalence view_eq.
Proof. split; unfold view_eq; congruence. Qed.

#[export] Instance view_set_proper : Proper (view_eq ==> eq ==> eq ==> view_eq) view_set.
Proof. intros A B H x y -> f g -> z. unfold view_set. by case_bool_decide. Qed.

Inductive file_op : Type :=
  | OpOpen (pathname : string)
  | OpClose (fd : Z)
  | OpReadv (fd : Z) (iov : list iovec)
  | OpLseek (fd offset whence : Z).

(** A step of the machine: the call, its result, and the files after it. *)
Inductive file_step `{FC : !FileConstants} (A : view) : file_op -> Z -> view -> Prop :=
  | step_open_error pathname r B : r < 0 -> view_eq B A -> file_step A (OpOpen pathname) r B
  | step_open pathname fd file size B : FIRST_USER_FD <= fd -> A fd = None -> 0 <= size < 2 ^ 32 ->
      view_eq B (view_set A fd (Some (CpioFile file size 0))) -> file_step A (OpOpen pathname) fd B
  | step_close fd f B : A fd = Some f -> view_eq B (view_set A fd None) -> file_step A (OpClose fd) 0 B
  | step_readv fd iov f n B : A fd = Some f -> n = Z.min (iov_total iov) (file_size f - file_current f) ->
      view_eq B (view_set A fd (Some (at_position f (file_current f + n)))) -> file_step A (OpReadv fd iov) n B
  | step_lseek_error fd offset whence r B : r < 0 -> view_eq B A -> file_step A (OpLseek fd offset whence) r B
  | step_lseek fd offset whence f n B : A fd = Some f -> new_offset f offset whence = inr n -> 0 <= n <= file_size f ->
      view_eq B (view_set A fd (Some (at_position f n))) -> file_step A (OpLseek fd offset whence) n B.

(** What a program may call: on descriptors it has open, with buffers. *)
Definition allowed (A : view) (o : file_op) : Prop :=
  match o with
  | OpOpen _ => True
  | OpClose fd | OpLseek fd _ _ => A fd <> None
  | OpReadv fd iov => A fd <> None /\ Forall (fun v => 0 <= v.2) iov
  end.

Inductive file_steps `{FC : !FileConstants} : view -> list (file_op * Z) -> view -> Prop :=
  | steps_none A B : view_eq B A -> file_steps A [] B
  | steps_more A o r B h C : file_step A o r B -> file_steps B h C -> file_steps A ((o, r) :: h) C.

Section spec.
Context {W : Type} `{FC : !FileConstants} `{MA : !Malloc W} `{ML : !MallocLaws W} `{FL : !FileLib W} `{FW : !FileLibLaws W}
  `{FE : !FileErrnos}.
#[local] Notation St := (io_state W).

Definition run_op (o : file_op) : M St Z :=
  match o with
  | OpOpen pathname => sys_open pathname O_RDONLY
  | OpClose fd => sys_close fd
  | OpReadv fd iov => sys_readv fd iov
  | OpLseek fd offset whence => sys_lseek fd offset whence
  end.

(** Calls one after the other, each of them allowed, with their results. *)
Inductive file_history : St -> list (file_op * Z) -> St -> Prop :=
  | history_none s : file_history s [] s
  | history_more s o r s1 h s2 : allowed (opened s) o -> run_op o s = Ok (r, s1) -> file_history s1 h s2 ->
      file_history s ((o, r) :: h) s2.

(** A state the calls work on. *)
Definition io_ok (s : St) : Prop := (exists l, fds_ok s l) /\ fd_table_ptr s <> 0 /\ finder_ok s.

Lemma io_ok_env (s s' : St) (l : list Z) : io_ok s -> fds_ok s' l -> same_env s s' -> io_ok s'.
Proof.
  intros (_ & Hp & Hf) Hok (_ & E1 & E2). split_and!; [by exists l|by rewrite E1|]. intros get Hg. apply Hf. congruence.
Qed.

Lemma seek_error_negative (f : cpio_file_data_t) (offset whence : Z) :
  (seek_result f offset whence).2 = None -> (seek_result f offset whence).1 < 0.
Proof.
  pose proof EINVAL_pos. pose proof EOVERFLOW_pos. unfold seek_result.
  destruct (new_offset f offset whence) as [e|n] eqn:E; cbn; [intros _|case_bool_decide; [done|cbn; lia] ].
  unfold new_offset in E. repeat (case_match; simplify_eq); lia.
Qed.

(** An allowed call returns, and is a step of the machine. *)
Lemma call_is_step (s : St) (o : file_op) : io_ok s -> allowed (opened s) o ->
  exists r s', run_op o s = Ok (r, s') /\ io_ok s' /\ file_step (opened s) o r (opened s').
Proof.
  intros Hio Hal. destruct Hio as ((l & Hok) & Hp & Hf). assert (Hio : io_ok s) by (by split_and!; [exists l|..]).
  destruct o as [path|fd|fd iov|fd off wh]; cbn [run_op allowed] in *.
  - destruct (sys_open_ok s l path O_RDONLY Hok Hp Hf open_read_only) as (r & s' & l' & E & Hok' & Henv & [(Hr & -> & Ho)|(-> & file & size & Ho)]).
    + exists r, s'. split_and!; [done|by eapply io_ok_env|by constructor].
    + exists r, s'. split_and!; [done|by eapply io_ok_env|].
      assert (Hin : r ∈ l' ++ [r]) by (apply elem_of_app; right; by apply list_elem_of_singleton).
      pose proof (free_in_range _ _ _ Hok Hin). pose proof (to_uint32_range size).
      eapply step_open; [lia| |done|intros x; apply Ho].
      apply opened_free. by apply (ok_free _ _ Hok) in Hin as [? _].
  - destruct (opened s fd) as [f|] eqn:E; [|done].
    destruct (sys_close_ok s l fd f Hok E) as (s' & Er & Hok' & Henv & Ho). exists 0, s'.
    split_and!; [done|by eapply io_ok_env|]. by eapply step_close.
  - destruct Hal as [Hal Hiov]. destruct (opened s fd) as [f|] eqn:E; [|done].
    destruct (sys_readv_ok s l fd f iov Hok E Hiov) as (s' & Er & Hok' & Henv & _ & Ho). eexists _, s'.
    split_and!; [done|by eapply io_ok_env|]. by eapply step_readv.
  - destruct (opened s fd) as [f|] eqn:E; [|done].
    destruct (sys_lseek_ok s l fd off wh f Hok E) as (s' & Er & Hok' & Henv & _ & Ho). eexists _, s'.
    split_and!; [done|by eapply io_ok_env|]. destruct (seek_result f off wh).2 as [n|] eqn:En.
    + unfold seek_result in *. destruct (new_offset f off wh) as [e|m] eqn:Em; [done|]. case_bool_decide; simplify_eq/=.
      by eapply step_lseek.
    + constructor; [by apply seek_error_negative|done].
Qed.

(** C10: a program that closes, reads and moves only descriptors it has open:
    whatever it calls, in whatever order, the call returns, and its results are
    those of the machine, whose state is the file and the position of each open
    descriptor; opening gives a descriptor that is not open, or an error that
    changes nothing.  So no two open descriptors share a file or a position,
    and none is written outside its file. *)
Theorem file_calls_refine (s : St) (h : list (file_op * Z)) (s' : St) :
  io_ok s -> file_history s h s' ->
  file_steps (opened s) h (opened s') /\
  forall o, allowed (opened s') o -> exists r s'', run_op o s' = Ok (r, s'') /\ file_step (opened s') o r (opened s'').
Proof.
  intros Hio Hh. induction Hh as [s|s o r s1 h s2 Hal Hr Hh IH].
  - split; [by constructor|]. intros o Ho. destruct (call_is_step s o Hio Ho) as (r & s'' & ? & _ & ?). by exists r, s''.
  - destruct (call_is_step s o Hio Hal) as (r' & s1' & Hr' & Hio1 & Hstep).
    assert (r' = r /\ s1' = s1) as [-> ->] by (split; congruence).
    destruct (IH Hio1) as [Hs Hprog]. split; [by econstructor|done].
Qed.

(** *** Reads in parts *)

Lemma readv_loop_app (iov iov' : list iovec) (p r : Z) (s : St) :
  readv_loop (iov ++ iov') p r s = (let! r := readv_loop iov p r in readv_loop iov' p r) s.
Proof.
  revert r s. induction iov as [|[base len] iov IH]; intros r s; [done|].
  assert (Hdone : forall f, files s !! p = Some f -> file_current f <? file_size f = false -> readv_loop iov' p r s = Ok (r, s)).
  { intros f Hp Hf. destruct iov' as [|[b' len'] iov']; [done|]. cbn [readv_loop].
    erewrite bind_ok by (unfold read_file, bind, gets, id; cbn; by rewrite Hp). by rewrite Hf. }
  cbn [app readv_loop]. unfold read_file, bind, gets, id. cbn [res_bind].
  destruct (files s !! p) as [f|] eqn:Hp; cbn [written ret stop res_bind]; [|done].
  destruct (file_current f <? file_size f) eqn:Hlt; cbn [negb]; [|unfold ret; cbn [res_bind]; by rewrite (Hdone f) by done].
  destruct (io_outside _ s) as [[[] s1]|]; cbn [res_bind]; [|done].
  destruct (set_current p _ s1) as [[[] s2]|]; cbn [res_bind]; [|done]. apply IH.
Qed.

Lemma readv_loop_shift (iov : list iovec) (p r n : Z) (s : St) :
  readv_loop iov p (n + r) s = (let! m := readv_loop iov p r in ret (n + m)) s.
Proof.
  revert r s. induction iov as [|[base len] iov IH]; intros r s; [done|]. cbn [readv_loop]. unfold bind.
  destruct (read_file p s) as [[f s1]|]; cbn [res_bind]; [|done].
  destruct (negb _); [done|].
  destruct (io_outside _ s1) as [[[] s2]|]; cbn [res_bind]; [|done].
  destruct (set_current p _ s2) as [[[] s3]|]; cbn [res_bind]; [|done]. rewrite <- Z.add_assoc. apply IH.
Qed.

Lemma sys_readv_open (s : St) (l : list Z) (fd p : Z) (iov : list iovec) :
  FIRST_USER_FD <= fd < num_fds s -> open_at s (entry fd) p -> sys_readv fd iov s = readv_loop iov p 0 s.
Proof.
  intros Hfd Ho. unfold sys_readv. unfold bind at 1. unfold cassert at 1, rassert, lift.
  destruct (Z.leb_spec FIRST_USER_FD fd); [|lia]. cbn [res_bind].
  erewrite bind_ok by done. unfold id. rewrite valid_fd_true by done. cbn [negb].
  by rewrite (open_entry s fd p (fun p => readv_loop iov p 0)) by done.
Qed.

(** Reading into two lists of buffers one after the other is reading into
    both at once: the same bytes are copied to the same places, the state is the
    same, and the results add up, wherever the file ends. *)
Theorem readv_app (s : St) (fd : Z) (iov iov' : list iovec) :
  io_ok s -> opened s fd <> None -> Forall (fun v => 0 <= v.2) iov ->
  sys_readv fd (iov ++ iov') s = (let! n := sys_readv fd iov in let! m := sys_readv fd iov' in ret (n + m)) s.
Proof.
  intros ((l & Hok) & _) Hop Hiov. destruct (opened s fd) as [f|] eqn:E; [|done]. clear Hop.
  destruct (opened_inv _ _ _ E) as (Hfd & p & Ho & Hp). pose proof (ok_open _ _ Hok _ _ Ho) as [_ (g & Hg & Hf)]. simplify_eq.
  rewrite (sys_readv_open s l fd p (iov ++ iov')), readv_loop_app by done.
  unfold bind. rewrite (sys_readv_open s l fd p iov) by done.
  destruct (readv_loop_ok iov s p 0 f Hp Hf Hiov) as (w & _ & ->). cbn [res_bind]. set (s1 := moved _ _ _ _ _).
  rewrite (sys_readv_open s1 l fd p iov') by done. generalize (0 + Z.min (iov_total iov) (file_size f - file_current f)). intros n.
  rewrite <- (Z.add_0_r n) at 1. apply readv_loop_shift.
Qed.

(** *** Seeking *)

(** On a file of less than 2 GiB and with an offset of 31 bits, a seek goes
    to the position asked for - from the start, from where the file is, or from
    its end - when that is in the file or at its end, and gives that position;
    otherwise it is an error and the file stays where it is. *)
Theorem lseek_spec (s : St) (fd offset whence base : Z) (f : cpio_file_data_t) :
  io_ok s -> opened s fd = Some f -> file_size f < 2 ^ 31 -> - 2 ^ 31 <= offset < 2 ^ 31 ->
  NoDup [SEEK_SET; SEEK_CUR; SEEK_END] ->
  (whence, base) ∈ [(SEEK_SET, 0); (SEEK_CUR, file_current f); (SEEK_END, file_size f)] ->
  exists r s', sys_lseek fd offset whence s = Ok (r, s') /\
    if bool_decide (0 <= base + offset <= file_size f)
    then r = base + offset /\ view_eq (opened s') (view_set (opened s) fd (Some (at_position f (base + offset))))
    else r < 0 /\ view_eq (opened s') (opened s).
Proof.
  intros ((l & Hok) & _) Hf Hsz Hoff Hnd Hin.
  destruct (sys_lseek_ok s l fd offset whence f Hok Hf) as (s' & E & _ & _ & _ & Ho). eexists _, s'. split; [exact E|].
  destruct (opened_inv _ _ _ Hf) as (_ & p & Hp & Hpf). pose proof (ok_open _ _ Hok _ _ Hp) as [_ (g & Hg & Hok')]. simplify_eq.
  unfold file_ok in Hok'.
  assert (Hint : forall x, - 2 ^ 31 <= x < 2 ^ 31 -> to_int x = x) by (intros x Hx; unfold to_int; rewrite Z.mod_small; lia).
  assert (Hr : if bool_decide (0 <= base + offset <= file_size f) then seek_result f offset whence = (base + offset, Some (base + offset))
    else (seek_result f offset whence).2 = None).
  { apply NoDup_cons in Hnd as [H1 Hnd]. apply NoDup_cons in Hnd as [H2 _]. unfold seek_result, new_offset.
    apply elem_of_cons in Hin as [?|[?|[?|[]%elem_of_nil]%elem_of_cons]%elem_of_cons]; simplify_eq.
    - rewrite Z.eqb_refl, Hint by lia. by repeat case_bool_decide; try lia.
    - destruct (Z.eqb_spec SEEK_CUR SEEK_SET); [set_solver|]. rewrite Z.eqb_refl, !Hint by lia. unfold safe_addition, INT_MAX.
      destruct (Z.leb_spec 0 (file_current f)), (Z.ltb_spec (2 ^ 31 - 1 - file_current f) offset),
        (Z.ltb_spec (file_current f) 0); cbn [negb andb]; try lia; [by case_bool_decide; try lia|].
      rewrite Hint by lia. by repeat case_bool_decide; try lia.
    - destruct (Z.eqb_spec SEEK_END SEEK_SET); [set_solver|]. destruct (Z.eqb_spec SEEK_END SEEK_CUR); [set_solver|].
      rewrite Z.eqb_refl. destruct (Z.ltb_spec 0 offset); [by case_bool_decide; try lia|]. rewrite Hint by lia.
      by repeat case_bool_decide; try lia. }
  pose proof (seek_error_negative f offset whence) as Hneg.
  case_bool_decide; [rewrite Hr in *|rewrite Hr in Ho]; cbn [fst snd] in *; [done|]. split; [by apply Hneg|done].
Qed.

(** *** The table *)

(** A descriptor that is closed is the next to be handed out. *)
Theorem close_open_same (s s1 s2 : St) (fd r r' : Z) (pathname : string) :
  io_ok s -> opened s fd <> None -> sys_close fd s = Ok (r, s1) -> sys_open pathname O_RDONLY s1 = Ok (r', s2) -> 0 <= r' ->
  r' = fd /\ forall x, x <> fd -> opened s2 x = opened s x.
Proof.
  intros ((l & Hok) & Hp & Hf) Hop Hc Ho Hr. destruct (opened s fd) as [f|] eqn:E; [|done].
  destruct (sys_close_ok s l fd f Hok E) as (s1' & Hc' & Hok1 & (E1 & E2 & E3) & Ho1).
  assert (s1' = s1) as -> by congruence.
  destruct (sys_open_ok s1 _ pathname O_RDONLY Hok1) as (r'' & s2' & l' & Ho' & _ & _ & Hres);
    [by rewrite E2|intros get Hg; apply Hf; congruence|exact open_read_only|].
  assert (r'' = r' /\ s2' = s2) as [-> ->] by (split; congruence).
  destruct Hres as [[? _]|(Heq & file & size & Ho2)]; [lia|]. apply app_inj_tail in Heq as [_ <-]. split; [done|].
  intros x Hx. rewrite Ho2, bool_decide_eq_false_2, Ho1, bool_decide_eq_false_2 by done. done.
Qed.

(** The loop that puts [n] descriptors on the stack. *)
Lemma add_free_fds_ok (n : nat) (i : Z) (s : St) (l : list Z) :
  fds_ok s l -> FIRST_USER_FD <= i -> i + Z.of_nat n = num_fds s -> (forall x, x ∈ l -> x < i) ->
  (forall x, i <= x < num_fds s -> exists d, fd_table s !! entry x = Some (Fd None d)) -> (forall x, opened s x = None) ->
  exists s' l', add_free_fds n i s = Ok (tt, s') /\ fds_ok s' l' /\ length l' = (length l + n)%nat /\ same_env s s' /\
    forall x, opened s' x = None.
Proof.
  revert i s l. induction n as [|n IH]; intros i s l Hok Hi Hn Hl Hd Ho; cbn [add_free_fds].
  { exists s, l. split_and!; try done. }
  destruct (Hd i ltac:(lia)) as [d Hdi]. assert (Hnl : i ∉ l) by (intros Hin; specialize (Hl i Hin); lia).
  assert (Hfd : FIRST_USER_FD <= i < num_fds s) by lia.
  pose proof (ok_index _ _ Hok). pose proof (ok_free_len _ _ Hok). pose proof (stack_room _ _ _ Hok Hfd Hnl).
  assert (H3 : 0 <= FIRST_USER_FD) by done. destruct (entry_lt _ _ i Hok Hfd) as [Hlt _].
  set (s1 := given_back s i d (files s) (io_rest s)).
  erewrite (bind_ok _ _ s s1 tt).
  2: { rewrite (add_free_fd_at s i (Fd None d)) by (done || lia). by destruct s. }
  destruct (IH (i + 1) s1 (l ++ [i])) as (s' & l' & E & Hok' & Hlen & (E1 & E2 & E3) & Ho').
  - apply given_back_ok; [done..|]. intros j p _ Hp. split; [by apply (ok_open _ _ Hok j)|done].
  - lia.
  - cbn. lia.
  - intros x [Hx|Hx%list_elem_of_singleton]%elem_of_app; [specialize (Hl x Hx)|]; lia.
  - intros x Hx. change (num_fds s1) with (num_fds s) in Hx. destruct (Hd x ltac:(lia)) as [d' Hd']. exists d'. cbn.
    rewrite list_lookup_insert_ne; [done|]. apply entry_ne; lia.
  - intros x. unfold s1. rewrite given_back_opened by (done || lia). by case_bool_decide.
  - exists s', l'. split_and!; try done. rewrite Hlen, length_app. cbn. lia.
Qed.

Lemma allocated_empty (s : St) : FIRST_USER_FD <= num_fds s ->
  fd_table s = replicate (Z.to_nat (num_fds s)) (Fd None None) ->
  free_fd_table s = replicate (Z.to_nat (num_fds s - FIRST_USER_FD)) None -> free_fd_table_index s = -1 ->
  fds_ok s [] /\ (forall x, opened s x = None) /\
  forall x, FIRST_USER_FD <= x < num_fds s -> exists d, fd_table s !! entry x = Some (Fd None d).
Proof.
  intros Hn Ht Hf Hi. assert (Hnone : forall i f, fd_table s !! i = Some f -> f = Fd None None).
  { intros i f. rewrite Ht. by intros [? _]%lookup_replicate. }
  assert (H3 : 0 <= FIRST_USER_FD) by done. split_and!.
  - constructor; [done|rewrite Ht, length_replicate; lia|rewrite Hf, length_replicate; lia|by rewrite Hi|done|constructor|..].
    + intros fd. split; [by intros ?%elem_of_nil|]. intros [[_ [d Hd%Hnone]] _]. done.
    + intros i d Hd%Hnone. done.
    + intros i p Hp%Hnone. done.
    + intros i j p Hp%Hnone. done.
  - intros x. unfold opened. case_bool_decide; [|done]. destruct (fd_table s !! entry x) as [f|] eqn:E; [|done].
    by rewrite (Hnone _ _ E).
  - intros x Hx. exists None. rewrite Ht. apply lookup_replicate_2. unfold entry. lia.
Qed.

(** Making the table: without memory it is an error; otherwise all descriptors are free. *)
Lemma allocate_file_table_ok (s : St) : FIRST_USER_FD <= num_fds s -> finder_ok s ->
  exists r s', allocate_file_table s = Ok (r, s') /\
    (r = - ENOMEM \/ (r = 0 /\ io_ok s' /\ (exists l, fds_ok s' l /\ Z.of_nat (length l) = num_fds s - FIRST_USER_FD) /\
       num_fds s' = num_fds s /\ forall x, opened s' x = None)).
Proof.
  intros Hn Hfi. unfold allocate_file_table. erewrite bind_ok by done. unfold id.
  destruct (malloc_law (FD_TABLE_SIZE (num_fds s)) (io_rest s)) as (p & w & Ep & Hp).
  erewrite bind_ok by (by apply io_outside_ok). erewrite bind_ok by done.
  set (s1 := set_tables _ _ _ _ _ _ (set_rest w s)). destruct (Z.eqb_spec p 0) as [->|Hp0]; [by eexists _, _; split; [done|left]|].
  destruct (malloc_law (FREE_FD_TABLE_SIZE (num_fds s)) (io_rest s1)) as (q & v & Eq & Hq).
  erewrite bind_ok by (by apply io_outside_ok). erewrite bind_ok by done.
  set (s2 := set_tables _ _ _ _ _ _ (set_rest v s1)). destruct (Z.eqb_spec q 0) as [->|Hq0].
  - destruct (free_law p (io_rest s2)) as (u & Eu & _).
    { cbn. destruct Hp as [[? _]|(_ & _ & Hw)]; [done|]. destruct Hq as [[_ ->]|[? _]]; [|done]. cbn. set_solver. }
    erewrite bind_ok by (by apply io_outside_ok). by eexists _, _; split; [done|left].
  - erewrite bind_ok by done. set (s3 := set_free _ _ s2).
    destruct (allocated_empty s3) as (Hok & Hno & Hd); [done| | |done|].
    { cbn. by destruct (Z.eqb_spec p 0). }
    { cbn. by destruct (Z.eqb_spec q 0). }
    destruct (add_free_fds_ok (Z.to_nat (num_fds s - FIRST_USER_FD)) FIRST_USER_FD s3 [] Hok) as (s' & l & E & Hok' & Hlen & Henv & Ho);
      [done|cbn; lia|by intros x ?%elem_of_nil|done|done|].
    erewrite bind_ok by exact E. eexists _, s'. split; [done|right]. destruct Henv as (E1 & E2 & E3).
    split_and!; [done|split_and!; [by exists l|by rewrite E2|intros get Hg; apply Hfi; rewrite E3 in Hg; exact Hg]| |done|done].
    exists l. split; [done|]. cbn in Hlen. lia.
Qed.
End spec.

(** ** An example *)

#[export] Instance linux_file_errnos : FileErrnos.
Proof. by constructor. Qed.

#[export] Instance toy_file_lib : FileLib toy_heap := {|
  file_memcpy := fun _ _ _ => ret tt; syscall_ret := fun r => if r <? 0 then -1 else r
|}.

#[export] Instance toy_file_lib_laws : FileLibLaws toy_heap.
Proof. constructor. intros. by exists w. Qed.

(** An archive with one file, of 5 bytes. *)
Definition toy_archive : muslcsys_cpio_get_file_fn_t toy_heap :=
  fun _ _ name => ret (if String.eqb name "a" then Some (1000, 5) else None).

(** A table of three descriptors, before it is made and after. *)
Definition toy_io_start : io_state toy_heap := IoState 6 0 [] 0 [] 0 ∅ 4096 512 (Some toy_archive) None (ToyHeap 10 ∅).
Definition run_to {A} (m : M (io_state toy_heap) A) (s : io_state toy_heap) : io_state toy_heap :=
  match m s with Ok (_, s') => s' | Fault _ => s end.
Definition toy_io : io_state toy_heap := run_to allocate_file_table toy_io_start.

Lemma toy_archive_ok (s : io_state toy_heap) : cpio_get_file_impl s = Some toy_archive -> finder_ok s.
Proof. intros Hs get Hg. rewrite Hs in Hg. simplify_eq. intros. by eexists _, w. Qed.

Lemma toy_io_ok : io_ok toy_io.
Proof.
  destruct (allocate_file_table_ok toy_io_start) as (r & s' & E & [->|(-> & Hok & _)]); [done|by apply toy_archive_ok|by vm_compute in E|].
  unfold toy_io, run_to. by rewrite E.
Qed.

(** The file is opened, three bytes are read, it is moved to two bytes before its end, and closed. *)
Definition toy_calls : list file_op := [OpOpen "a"; OpReadv 5 [(0, 2); (8, 1)]; OpLseek 5 (-2) 2; OpClose 5].

Lemma toy_allowed (fd : Z) (s : io_state toy_heap) (f : cpio_file_data_t) : opened s fd = Some f -> opened s fd <> None.
Proof. congruence. Qed.

Definition toy_io_1 : io_state toy_heap := run_to (run_op (OpOpen "a")) toy_io.
Definition toy_io_2 : io_state toy_heap := run_to (run_op (OpReadv 5 [(0, 2); (8, 1)])) toy_io_1.
Definition toy_io_3 : io_state toy_heap := run_to (run_op (OpLseek 5 (-2) 2)) toy_io_2.
Definition toy_io_4 : io_state toy_heap := run_to (run_op (OpClose 5)) toy_io_3.

Lemma toy_history : file_history toy_io (zip toy_calls [5; 3; 3; 0]) toy_io_4.
Proof.
  apply history_more with (s1 := toy_io_1); [done|by vm_compute|].
  apply history_more with (s1 := toy_io_2); [split; [by vm_compute|by apply (bool_decide_unpack _); vm_compute]|by vm_compute|].
  apply history_more with (s1 := toy_io_3); [by vm_compute|by vm_compute|].
  apply history_more with (s1 := toy_io_4); [by vm_compute|by vm_compute|]. constructor.
Qed.

Lemma file_calls_refine_witness : file_history toy_io (zip toy_calls [5; 3; 3; 0]) toy_io_4 /\
  file_steps (opened toy_io) (zip toy_calls [5; 3; 3; 0]) (opened toy_io_4).
Proof. split; [exact toy_history|]. exact (proj1 (file_calls_refine toy_io _ toy_io_4 toy_io_ok toy_history)). Defined.

Lemma toy_io_1_ok : io_ok toy_io_1.
Proof.
  destruct (call_is_step toy_io (OpOpen "a") toy_io_ok I) as (r & s' & E & Hok & _).
  unfold toy_io_1, run_to. by rewrite E.
Qed.

Lemma readv_app_witness : opened toy_io_1 5 = Some (CpioFile 1000 5 0) /\
  sys_readv 5 ([(0, 4)] ++ [(8, 4)]) toy_io_1 = (let! n := sys_readv 5 [(0, 4)] in let! m := sys_readv 5 [(8, 4)] in ret (n + m)) toy_io_1.
Proof.
  split; [by vm_compute|]. apply readv_app; [exact toy_io_1_ok|by vm_compute|]. by apply (bool_decide_unpack _); vm_compute.
Defined.

Lemma lseek_spec_witness : exists r s', sys_lseek 5 (-2) 2 toy_io_1 = Ok (r, s') /\ r = 3.
Proof.
  assert (Hf : opened toy_io_1 5 = Some (CpioFile 1000 5 0)) by (by vm_compute).
  destruct (lseek_spec toy_io_1 5 (-2) 2 5 (CpioFile 1000 5 0) toy_io_1_ok Hf) as (r & s' & E & Hr); [done|lia| | |].
  - by apply (bool_decide_unpack _); vm_compute.
  - by apply (bool_decide_unpack _); vm_compute.
  - exists r, s'. split; [exact E|]. cbn in Hr. by destruct Hr.
Defined.

Lemma close_open_same_witness : 5 = 5 /\ forall x, x <> 5 ->
  opened (run_to (sys_open "a" O_RDONLY) (run_to (sys_close 5) toy_io_1)) x = opened toy_io_1 x.
Proof.
  apply (close_open_same toy_io_1 (run_to (sys_close 5) toy_io_1) (run_to (sys_open "a" O_RDONLY) (run_to (sys_close 5) toy_io_1)) 5 0 5 "a");
    [exact toy_io_1_ok|by vm_compute|by vm_compute|by vm_compute|lia].
Defined.

(** ** What they do not do *)

Definition result_of {A} (m : M (io_state toy_heap) A) (s : io_state toy_heap) : res A := let? (a, _) := m s in Ok a.

(** A descriptor that is closed twice is handed out twice: two open
    descriptors that are the same. *)
Example double_close_shares :
  result_of (let! _ := sys_open "a" 0 in let! _ := sys_close 5 in let! _ := sys_close 5 in
    let! a := sys_open "a" 0 in let! b := sys_open "a" 0 in ret (a, b)) toy_io_1 = Ok (5, 5).
Proof. by vm_compute. Qed.

(** And when no other is open, the second close writes after the end of the stack:
    the assertion allows for three entries more than there are. *)
Example double_close_overflows : result_of (let! _ := sys_close 5 in sys_close 5) toy_io_1 = Fault OutOfBounds.
Proof. by vm_compute. Qed.

(** A table of 6 grown by 2 has no more descriptors to hand out than before. *)
Example grow_adds_none :
  let open := sys_open "a" 0 in
  result_of (let! _ := grow_fds 2 in let! a := open in let! b := open in let! c := open in let! d := open in
    let! s := gets id in ret (num_fds s, [a; b; c; d])) toy_io = Ok (8, [5; 4; 3; -24]).
Proof. by vm_compute. Qed.

(** Before the first [open] there is no table: closing a valid descriptor reads outside it. *)
Example close_before_open : sys_close 5 toy_io_start = Fault OutOfBounds.
Proof. by vm_compute. Qed.

(** Without memory for the table [open] is stopped, not refused. *)
Example open_without_memory : sys_open "a" 0 (set_rest (ToyHeap 0 ∅) toy_io_start) = Fault AssertFailed.
Proof. by vm_compute. Qed.

(** An offset of 2^32 is the start of the file. *)
Example seek_truncates : result_of (sys_lseek 5 (2 ^ 32) 0) toy_io_1 = Ok 0.
Proof. by vm_compute. Qed.

(** Lengths whose sum is over [SSIZE_MAX] are not refused: two halves of 2^64 are nothing to write. *)
Example sum_of_lengths_wraps : result_of (sys_writev 1 [(0, 2 ^ 63); (0, 2 ^ 63)] 2) toy_io_1 = Ok 0.
Proof. by vm_compute. Qed.
