(* ===== verification/Morecore.v ===== *)
(** libsel4muslcsys/src/sys_morecore.c: the memory of the C library's allocator.
    [brk] moves the end of a heap and [mmap] hands out blocks: from one area, the
    heap growing up from its bottom and the blocks down from its top, or from an
    address space.

    The [fixed_] operations are those of a library built with an area of its own,
    the others those of one that finds its area, or its address space, when it runs.
    The address space is behind the interface of vspace.h. *)
From stdpp Require Import gmap strings.
From S2P Require Import Prelude Interfaces Files.

Class MorecoreConstants : Type := {
  MAP_ANONYMOUS : Z;
  MREMAP_MAYMOVE : Z;
  MREMAP_FIXED : Z;
  mc_AllRights : Z;
  (* libutils: the pages of a number of bytes *)
  BYTES_TO_4K_PAGES : Z -> Z
}.

(** The operations of an address space. *)
Class MorecoreVspace (W : Type) : Type := {
  (* address, number, bits, reservation *)
  vspace_new_pages_at_vaddr : Z -> Z -> Z -> Z -> M W Z;
  (* rights, number, bits: the address *)
  vspace_new_pages : Z -> Z -> Z -> M W Z;
  vspace_get_cap : Z -> M W Z;
  vspace_get_cookie : Z -> M W Z;
  (* address, number, bits; the objects are kept *)
  vspace_unmap_pages_preserve : Z -> Z -> Z -> M W unit;
  (* bytes, rights, cacheable: the reservation and the address *)
  vspace_reserve_range : Z -> Z -> Z -> M W (Z * Z);
  (* address, bytes, rights, cacheable *)
  vspace_reserve_range_at : Z -> Z -> Z -> Z -> M W Z;
  (* capabilities, cookies, address, number, bits, reservation *)
  vspace_map_pages_at_vaddr : list Z -> list Z -> Z -> Z -> Z -> Z -> M W Z;
  vspace_free_reservation : Z -> M W unit
}.

Definition PAGE_SIZE_4K : Z := 4096.
Definition IS_ALIGNED_4K (x : Z) : bool := x mod PAGE_SIZE_4K =? 0.

(** ** An area of the library's own *)

(** Where the free space of the area starts and ends. *)
Record fixed_morecore : Type := FixedMorecore { fixed_base : Z; fixed_top : Z }.

Section fixed.
Context `{FC : !FileConstants} `{MC : !MorecoreConstants} (area : Z).

Definition fixed_sys_brk (newbrk : Z) : M fixed_morecore Z :=
  let! s := gets id in
  if newbrk =? 0 then ret (to_long (fixed_base s))
  else if (newbrk <? fixed_top s) && (area <? newbrk) then
    let! _ := modify (fun s => FixedMorecore newbrk (fixed_top s)) in ret (to_long newbrk)
  else ret 0.

Definition fixed_sys_mmap_impl (length flags : Z) : M fixed_morecore Z :=
  if length =? 0 then ret (- EINVAL) else
  if negb (Z.land flags MAP_ANONYMOUS =? 0) then
    let! s := gets id in
    if fixed_top s ⊟ fixed_base s <? length then ret (- ENOMEM) else
    let! _ := modify (fun s => FixedMorecore (fixed_base s) (fixed_top s ⊟ length)) in
    ret (to_long (fixed_top s ⊟ length))
  else stop AssertFailed.

Definition fixed_sys_mremap : M fixed_morecore Z := stop AssertFailed.
End fixed.

(** ** An area, or an address space, that is found when the program runs *)

Record morecore (W : Type) : Type := Morecore {
  muslc_this_vspace : Z;
  muslc_brk_reservation : Z;
  muslc_brk_reservation_start : Z;
  morecore_area : Z;
  morecore_size : Z;
  morecore_base : Z;
  morecore_top : Z;
  brk_start : Z;
  mc_rest : W
}.
Arguments Morecore {W} _ _ _ _ _ _ _ _ _.
Arguments muslc_this_vspace {W} _.
Arguments muslc_brk_reservation {W} _.
Arguments muslc_brk_reservation_start {W} _.
Arguments morecore_area {W} _.
Arguments morecore_size {W} _.
Arguments morecore_base {W} _.
Arguments morecore_top {W} _.
Arguments brk_start {W} _.
Arguments mc_rest {W} _.

Section dynamic.
Context {W : Type} `{FC : !FileConstants} `{MC : !MorecoreConstants} `{VS : !MorecoreVspace W} {seL4 : SeL4Constants}.
Context (fuel : nat).
#[local] Notation St := (morecore W).

Definition set_area (base top : Z) (s : St) : St :=
  Morecore (muslc_this_vspace s) (muslc_brk_reservation s) (muslc_brk_reservation_start s) (morecore_area s) (morecore_size s)
    base top (brk_start s) (mc_rest s).
Definition set_brk (b : Z) (s : St) : St :=
  Morecore (muslc_this_vspace s) (muslc_brk_reservation s) (muslc_brk_reservation_start s) (morecore_area s) (morecore_size s)
    (morecore_base s) (morecore_top s) b (mc_rest s).
Definition set_mc_rest (w : W) (s : St) : St :=
  Morecore (muslc_this_vspace s) (muslc_brk_reservation s) (muslc_brk_reservation_start s) (morecore_area s) (morecore_size s)
    (morecore_base s) (morecore_top s) (brk_start s) w.
Definition in_vspace {A} (m : M W A) : M St A := fun s => let? (a, w) := m (mc_rest s) in Ok (a, set_mc_rest w s).

Definition init_morecore_region : M St unit :=
  modify (fun s => if morecore_base s =? 0 then set_area (morecore_area s) (morecore_area s ⊞ morecore_size s) s else s).

Definition sys_brk_static (newbrk : Z) : M St Z :=
  let! _ := init_morecore_region in
  let! s := gets id in
  if newbrk =? 0 then ret (to_long (morecore_base s))
  else if (newbrk <? morecore_top s) && (morecore_area s <? newbrk) then
    let! _ := modify (set_area newbrk (morecore_top s)) in ret (to_long newbrk)
  else ret 0.

(** The loop that maps pages up to [newbrk]: whether it got there. *)
Fixpoint brk_loop (n : nat) (newbrk : Z) : M St bool :=
  let! s := gets id in
  if negb (brk_start s <? newbrk) then ret true else
  match n with
  | O => stop OutOfFuel
  | S n =>
      let! error := in_vspace (vspace_new_pages_at_vaddr (brk_start s) 1 seL4_PageBits (muslc_brk_reservation s)) in
      if negb (error =? 0) then ret false else
      let! _ := modify (fun s => set_brk (brk_start s ⊞ PAGE_SIZE_4K) s) in
      brk_loop n newbrk
  end.

Definition sys_brk_dynamic (newbrk : Z) : M St Z :=
  let! s := gets id in
  let! _ := cassert (negb (muslc_this_vspace s =? 0) && negb (muslc_brk_reservation s =? 0) && negb (muslc_brk_reservation_start s =? 0)) in
  if newbrk =? 0 then
    let! _ := modify (set_brk (muslc_brk_reservation_start s)) in ret (to_long (muslc_brk_reservation_start s))
  else
    let! done := brk_loop fuel newbrk in
    if negb done then ret 0 else
    let! s := gets id in ret (to_long (brk_start s)).

Definition sys_brk (newbrk : Z) : M St Z :=
  let! s := gets id in
  if negb (morecore_area s =? 0) then sys_brk_static newbrk
  else if negb (muslc_this_vspace s =? 0) then sys_brk_dynamic newbrk
  else stop AssertFailed.

Definition sys_mmap_impl_static (length flags : Z) : M St Z :=
  if negb (Z.land flags MAP_ANONYMOUS =? 0) then
    let! _ := init_morecore_region in
    let pages := BYTES_TO_4K_PAGES length in
    let adjusted_length := wrap (pages * PAGE_SIZE_4K) in
    let! s := gets id in
    if morecore_top s <? adjusted_length then ret (- ENOMEM) else
    let base := morecore_top s ⊟ adjusted_length in
    if base <? morecore_base s then ret (- ENOMEM) else
    let! _ := modify (fun s => set_area (morecore_base s) base s) in
    if negb (base mod 4096 =? 0) then stop Fatal else ret (to_long base)
  else stop AssertFailed.

Definition sys_mmap_impl_dynamic (length flags : Z) : M St Z :=
  let! s := gets id in
  let! _ := cassert (negb (muslc_this_vspace s =? 0)) in
  if negb (Z.land flags MAP_ANONYMOUS =? 0) then
    let pages := to_uint32 (BYTES_TO_4K_PAGES length) in
    let! ret_ := in_vspace (vspace_new_pages mc_AllRights pages seL4_PageBits) in
    if negb (ret_ mod 4096 =? 0) then stop Fatal else ret (to_long ret_)
  else stop AssertFailed.

Definition sys_mmap_impl (length flags : Z) : M St Z :=
  if length =? 0 then ret (- EINVAL) else
  let! s := gets id in
  if negb (morecore_area s =? 0) then sys_mmap_impl_static length flags
  else if negb (muslc_this_vspace s =? 0) then sys_mmap_impl_dynamic length flags
  else stop AssertFailed.

(** The capabilities and cookies of [n] pages from page [i] on. *)
Fixpoint get_caps (n : nat) (old_address i : Z) : M St (list Z * list Z) :=
  match n with
  | O => ret ([], [])
  | S n =>
      let vaddr := old_address ⊞ wrap (i * BIT seL4_PageBits) in
      let! cap := in_vspace (vspace_get_cap vaddr) in
      let! cookie := in_vspace (vspace_get_cookie vaddr) in
      let! (caps, cookies) := get_caps n old_address (i + 1) in
      ret (cap :: caps, cookie :: cookies)
  end.

(** The original mapping again. *)
Definition restore (old_address num_pages : Z) (caps cookies : list Z) : M St Z :=
  let! reservation := in_vspace (vspace_reserve_range_at old_address (wrap (num_pages * PAGE_SIZE_4K)) mc_AllRights 1) in
  let! _ := cassert (negb (reservation =? 0)) in
  let! error := in_vspace (vspace_map_pages_at_vaddr caps cookies old_address num_pages seL4_PageBits reservation) in
  let! _ := cassert (error =? 0) in
  ret (- ENOMEM).

(** The pages of a block move to a reservation of the new size. *)
Definition move_pages (old_address num_pages new_pages : Z) (caps cookies : list Z) : M St Z :=
  let! (reservation, new_address) := in_vspace (vspace_reserve_range (wrap (new_pages * PAGE_SIZE_4K)) mc_AllRights 1) in
  if reservation =? 0 then restore old_address num_pages caps cookies else
  let! error := in_vspace (vspace_map_pages_at_vaddr caps cookies new_address num_pages seL4_PageBits reservation) in
  if negb (error =? 0) then
    let! _ := in_vspace (vspace_free_reservation reservation) in
    restore old_address num_pages caps cookies
  else
  let! error := in_vspace (vspace_new_pages_at_vaddr (new_address ⊞ wrap (num_pages * PAGE_SIZE_4K)) (new_pages - num_pages)
    seL4_PageBits reservation) in
  if negb (error =? 0) then
    let! _ := in_vspace (vspace_unmap_pages_preserve new_address num_pages seL4_PageBits) in
    let! _ := in_vspace (vspace_free_reservation reservation) in
    restore old_address num_pages caps cookies
  else
  let! _ := in_vspace (vspace_free_reservation reservation) in
  ret (to_long new_address).

Definition sys_mremap_dynamic (old_address old_size new_size flags : Z) : M St Z :=
  let! _ := cassert (flags =? MREMAP_MAYMOVE) in
  let! _ := cassert (IS_ALIGNED_4K old_size) in
  let! _ := cassert (IS_ALIGNED_4K old_address) in
  let! _ := cassert (IS_ALIGNED_4K new_size) in
  let! _ := cassert (old_size <=? new_size) in
  let num_pages := to_int (Z.shiftr old_size seL4_PageBits) in
  let! (caps, cookies) := get_caps (Z.to_nat num_pages) old_address 0 in
  let! _ := in_vspace (vspace_unmap_pages_preserve old_address num_pages seL4_PageBits) in
  let new_pages := to_int (Z.shiftr new_size seL4_PageBits) in
  move_pages old_address num_pages new_pages caps cookies.

Definition sys_mremap_static : M St Z := stop AssertFailed.

Definition sys_mremap (old_address old_size new_size flags : Z) : M St Z :=
  let! s := gets id in
  if negb (morecore_area s =? 0) then sys_mremap_static
  else if negb (muslc_this_vspace s =? 0) then sys_mremap_dynamic old_address old_size new_size flags
  else stop AssertFailed.

Definition sys_madvise : M St Z := ret 0.
Definition sys_mmap (length flags : Z) : M St Z := sys_mmap_impl length flags.
Definition sys_mmap2 (length flags : Z) : M St Z := sys_mmap_impl length flags.
Definition sys_munmap : M St Z := ret 0.
End dynamic.
