(* ===== verification/MorecoreSpec.v ===== *)
(** What [brk] and [mmap] promise (Morecore.v): in an area the heap and the blocks
    never meet, whatever the calls; in an address space [brk] maps each page of
    the heap once, in order, and knows how far it got.  And what they do not. *)
From stdpp Require Import gmap strings.
From S2P Require Import Prelude Interfaces Files Morecore.

(** libutils' macro rounds up, for what does not come near the end of the addresses. *)
Class MorecorePages `{MC : !MorecoreConstants} : Prop := {
  pages_law : forall x, 0 <= x -> x + PAGE_SIZE_4K <= word_size ->
    x <= BYTES_TO_4K_PAGES x * PAGE_SIZE_4K < x + PAGE_SIZE_4K;
  anonymous_flag : MAP_ANONYMOUS <> 0
}.

(** ** One area *)

Section area.
Context {W : Type} `{FC : !FileConstants} `{MC : !MorecoreConstants} `{MP : !MorecorePages} `{VS : !MorecoreVspace W}
  {seL4 : SeL4Constants} (fuel : nat).
#[local] Notation St := (morecore W).
Context (area size : Z) (Harea : 0 < area) (Hsize : 0 <= size) (Hend : area + size < 2 ^ 63)
  (Haligned : (area + size) mod PAGE_SIZE_4K = 0) (HNOMEM : 0 < ENOMEM) (HINVAL : 0 < EINVAL).

Inductive heap_op : Type :=
  | Brk (newbrk : Z)
  | Mmap (length : Z).

Definition run_heap_op (o : heap_op) : M St Z :=
  match o with
  | Brk newbrk => sys_brk fuel newbrk
  | Mmap length => sys_mmap length MAP_ANONYMOUS
  end.

(** Lengths from which rounding up does not pass the end of the addresses. *)
Definition heap_op_ok (o : heap_op) : Prop :=
  match o with
  | Brk newbrk => 0 <= newbrk
  | Mmap length => 0 <= length /\ length + PAGE_SIZE_4K <= word_size
  end.

(** The bytes of a block. *)
Definition block_bytes (length : Z) : Z := BYTES_TO_4K_PAGES length * PAGE_SIZE_4K.

(** What a history of calls and results has made: the end of the heap, and the
    blocks with their bytes, the last first. *)
Fixpoint heap_end (h : list (heap_op * Z)) (e : Z) : Z :=
  match h with
  | [] => e
  | (Brk n, r) :: h => heap_end h (if (n =? 0) || (r =? 0) then e else n)
  | _ :: h => heap_end h e
  end.
Fixpoint blocks (h : list (heap_op * Z)) (bs : list (Z * Z)) : list (Z * Z) :=
  match h with
  | [] => bs
  | (Mmap n, r) :: h => blocks h (if r <? 0 then bs else (r, block_bytes n) :: bs)
  | _ :: h => blocks h bs
  end.

(** Blocks that follow each other from [lo] to [hi]. *)
Fixpoint stacked (lo : Z) (bs : list (Z * Z)) (hi : Z) : Prop :=
  match bs with
  | [] => lo = hi
  | (a, n) :: bs => a = lo /\ 0 <= n /\ a mod PAGE_SIZE_4K = 0 /\ stacked (a + n) bs hi
  end.

Inductive heap_history : St -> list (heap_op * Z) -> St -> Prop :=
  | heap_none s : heap_history s [] s
  | heap_more s o r s1 h s2 : heap_op_ok o -> run_heap_op o s = Ok (r, s1) -> heap_history s1 h s2 -> heap_history s ((o, r) :: h) s2.

(** The state when the area is in use, or about to be. *)
Definition area_state (s : St) (base top : Z) : Prop :=
  morecore_area s = area /\ morecore_size s = size /\
  ((morecore_base s = 0 /\ base = area /\ top = area + size) \/ (morecore_base s = base /\ morecore_top s = top)) /\
  area <= base <= top /\ top <= area + size.

Lemma area_init (s : St) (base top : Z) : area_state s base top ->
  exists s', init_morecore_region s = Ok (tt, s') /\ area_state s' base top /\
    morecore_base s' = base /\ morecore_top s' = top /\ morecore_area s' = area.
Proof.
  intros (Ha & Hs & Hb & Hle). unfold init_morecore_region, modify. eexists. split; [reflexivity|].
  destruct (Z.eqb_spec (morecore_base s) 0) as [E|E].
  - destruct Hb as [(_ & -> & ->)|[Hb _]]; [|lia]. unfold area_state. cbn. rewrite Ha, Hs.
    rewrite wrap_small by (unfold is_word, word_size; lia). naive_solver lia.
  - destruct Hb as [[? _]|[Hb Ht]]; [done|]. split; [|done]. split_and!; try done; [by right|lia..].
Qed.

Lemma to_long_small (x : Z) : 0 <= x < 2 ^ 63 -> to_long x = x.
Proof. intros Hx. unfold to_long. rewrite Z.mod_small; lia. Qed.

Lemma set_area_state (s : St) (base top b t : Z) : area_state s base top -> area <= b <= t -> t <= area + size ->
  area_state (set_area b t s) b t.
Proof. intros (Ha & Hs & _) H1 H2. split_and!; try done; [by right|lia..]. Qed.

Lemma brk_area (s : St) (base top newbrk : Z) : area_state s base top -> 0 <= newbrk ->
  exists r s', sys_brk fuel newbrk s = Ok (r, s') /\
    area_state s' (if (newbrk =? 0) || (r =? 0) then base else newbrk) top.
Proof.
  intros Hs Hn. unfold sys_brk. erewrite bind_ok by done. unfold id. assert (Ha : morecore_area s = area) by apply Hs.
  rewrite Ha. destruct (Z.eqb_spec area 0); [lia|]. cbn [negb]. unfold sys_brk_static.
  destruct (area_init s base top Hs) as (s1 & E & Hs1 & Hb & Ht & Ha1). erewrite bind_ok by exact E. erewrite bind_ok by done.
  unfold id. rewrite Ht, Ha1. destruct (Z.eqb_spec newbrk 0) as [->|Hne]; [by eexists _, s1|].
  destruct (Z.ltb_spec newbrk top), (Z.ltb_spec area newbrk); cbn [andb]; try by eexists _, s1.
  erewrite bind_ok by done. eexists _, _. split; [reflexivity|]. rewrite to_long_small by (destruct Hs; lia).
  destruct (Z.eqb_spec newbrk 0); [done|]. cbn [orb]. eapply set_area_state; [exact Hs1|lia|]. destruct Hs as (_ & _ & _ & ? & ?). lia.
Qed.

Lemma mmap_area (s : St) (base top length : Z) : area_state s base top -> 0 <= length -> length + PAGE_SIZE_4K <= word_size ->
  top mod PAGE_SIZE_4K = 0 ->
  exists r s', sys_mmap length MAP_ANONYMOUS s = Ok (r, s') /\
    ((r < 0 /\ area_state s' base top) \/
     (r = top - block_bytes length /\ 0 <= r /\ 0 < length /\ r mod PAGE_SIZE_4K = 0 /\ area_state s' base r)).
Proof.
  intros Hs Hl0 Hl Ht4. unfold sys_mmap, sys_mmap_impl. destruct (Z.eqb_spec length 0) as [->|Hne].
  { eexists _, s. split; [reflexivity|]. left. split; [lia|done]. }
  erewrite bind_ok by done. unfold id. assert (Ha : morecore_area s = area) by apply Hs.
  rewrite Ha. destruct (Z.eqb_spec area 0); [lia|]. cbn [negb]. unfold sys_mmap_impl_static.
  rewrite Z.land_diag. pose proof anonymous_flag. destruct (Z.eqb_spec MAP_ANONYMOUS 0); [done|]. cbn [negb].
  destruct (area_init s base top Hs) as (s1 & E & Hs1 & Hb & Ht & Ha1). erewrite bind_ok by exact E. cbv zeta. erewrite bind_ok by done.
  unfold id. rewrite Ht, Hb. pose proof (pages_law length Hl0 Hl) as Hp. fold (block_bytes length) in *.
  destruct Hs as (_ & _ & _ & Hbt & Hte).
  rewrite (wrap_small (block_bytes length)) by (unfold is_word; lia).
  destruct (Z.ltb_spec top (block_bytes length)); [eexists _, s1; split; [reflexivity|left; split; [lia|done] ]|].
  rewrite (wrap_small (top - block_bytes length)) by (unfold is_word, word_size in *; lia).
  destruct (Z.ltb_spec (top - block_bytes length) base); [eexists _, s1; split; [reflexivity|left; split; [lia|done] ]|].
  erewrite bind_ok by done. assert (Hm : (top - block_bytes length) mod PAGE_SIZE_4K = 0).
  { unfold block_bytes. rewrite Zminus_mod, Ht4, Z.mod_mul by done. done. }
  unfold PAGE_SIZE_4K in Hm at 1. rewrite Hm. cbn [Z.eqb negb]. eexists _, _. split; [reflexivity|]. right.
  rewrite to_long_small by lia. split_and!; [done|lia|lia|done|]. rewrite Hb. eapply set_area_state; [exact Hs1|lia|lia].
Qed.

(** What one call does to the heap and the blocks. *)
Lemma heap_op_area (s : St) (base top : Z) (bs : list (Z * Z)) (o : heap_op) :
  area_state s base top -> stacked top bs (area + size) -> top mod PAGE_SIZE_4K = 0 -> heap_op_ok o ->
  exists r s' top', run_heap_op o s = Ok (r, s') /\ area_state s' (heap_end [(o, r)] base) top' /\
    stacked top' (blocks [(o, r)] bs) (area + size) /\ top' mod PAGE_SIZE_4K = 0.
Proof.
  intros Hs Hbs Ht Ho. destruct o as [n|n]; cbn [run_heap_op heap_op_ok heap_end blocks] in *.
  - destruct (brk_area s base top n Hs Ho) as (r & s' & E & Hs'). by exists r, s', top.
  - destruct Ho as [Hn0 Hn]. destruct (mmap_area s base top n Hs Hn0 Hn Ht) as (r & s' & E & [[Hr Hs']|(-> & Hr & Hn1 & Hm & Hs')]).
    + exists r, s', top. destruct (Z.ltb_spec r 0); [done|lia].
    + exists (top - block_bytes n), s', (top - block_bytes n). destruct (Z.ltb_spec (top - block_bytes n) 0); [lia|].
      split_and!; try done. cbn [stacked]. pose proof (pages_law n Hn0 Hn). fold (block_bytes n) in *.
      split_and!; [done|lia|done|]. by replace (top - block_bytes n + block_bytes n) with top by lia.
Qed.

(** C14: in an area whose end is at the start of a page, [brk] and [mmap] can be
    called in any order with any arguments: each call returns, the heap ends
    where the last [brk] that succeeded put it, and the blocks that [mmap]
    gave follow each other, page by page, from the top of the free space to the
    end of the area: no block meets another, and none meets the heap. *)
Theorem heap_and_blocks_apart (s s' : St) (h : list (heap_op * Z)) :
  area_state s area (area + size) -> heap_history s h s' ->
  (exists top, area_state s' (heap_end h area) top /\ stacked top (blocks h []) (area + size)) /\
  forall o, heap_op_ok o -> exists r s'', run_heap_op o s' = Ok (r, s'').
Proof.
  intros Hs Hh.
  assert (Hgen : forall base top bs, area_state s base top -> stacked top bs (area + size) -> top mod PAGE_SIZE_4K = 0 ->
    (exists top, area_state s' (heap_end h base) top /\ stacked top (blocks h bs) (area + size)) /\
    forall o, heap_op_ok o -> exists r s'', run_heap_op o s' = Ok (r, s'')).
  { clear Hs. induction Hh as [s|s o r s1 h s2 Ho Hr Hh IH]; intros base top bs Hs Hbs Ht.
    - split; [by exists top|]. intros o Ho. destruct (heap_op_area s base top bs o Hs Hbs Ht Ho) as (r & s' & _ & E & _). by exists r, s'.
    - destruct (heap_op_area s base top bs o Hs Hbs Ht Ho) as (r' & s1' & top' & E & Hs' & Hbs' & Ht').
      assert (r' = r /\ s1' = s1) as [-> ->] by (split; congruence).
      specialize (IH _ _ _ Hs' Hbs' Ht'). by destruct o. }
  by apply (Hgen area (area + size) []).
Qed.
End area.

(** ** An address space *)

Section vspace_heap.
Context {W : Type} `{FC : !FileConstants} `{MC : !MorecoreConstants} `{VS : !MorecoreVspace W} {seL4 : SeL4Constants}.
#[local] Notation St := (morecore W).

(** New pages, one after the other, until one fails: how many there are. *)
Fixpoint new_pages (n : nat) (reservation vaddr : Z) : M W nat :=
  match n with
  | O => ret O
  | S n =>
      let! error := vspace_new_pages_at_vaddr vaddr 1 seL4_PageBits reservation in
      if negb (error =? 0) then ret O else
      let! m := new_pages n reservation (vaddr + PAGE_SIZE_4K) in ret (S m)
  end.

(** The pages from [b] on that take the heap to [newbrk]. *)
Definition pages_to (b newbrk : Z) : nat := Z.to_nat ((newbrk - b + PAGE_SIZE_4K - 1) / PAGE_SIZE_4K).

Lemma pages_to_none (b newbrk : Z) : newbrk <= b -> pages_to b newbrk = O.
Proof.
  intros H. unfold pages_to. enough ((newbrk - b + PAGE_SIZE_4K - 1) / PAGE_SIZE_4K < 1) by lia.
  apply Z.div_lt_upper_bound; unfold PAGE_SIZE_4K; lia.
Qed.

Lemma pages_to_more (b newbrk : Z) : b < newbrk -> pages_to b newbrk = S (pages_to (b + PAGE_SIZE_4K) newbrk).
Proof.
  intros H. unfold pages_to. replace (newbrk - b + PAGE_SIZE_4K - 1) with (newbrk - (b + PAGE_SIZE_4K) + PAGE_SIZE_4K - 1 + 1 * PAGE_SIZE_4K) by lia.
  rewrite Z.div_add by done. assert (0 <= (newbrk - (b + PAGE_SIZE_4K) + PAGE_SIZE_4K - 1) / PAGE_SIZE_4K); [|lia].
  apply Z.div_pos; unfold PAGE_SIZE_4K; lia.
Qed.

Lemma brk_loop_pages (fuel : nat) (newbrk : Z) (s : St) :
  0 <= brk_start s -> newbrk + PAGE_SIZE_4K <= word_size -> (pages_to (brk_start s) newbrk <= fuel)%nat ->
  brk_loop fuel newbrk s =
    let? (m, w) := new_pages (pages_to (brk_start s) newbrk) (muslc_brk_reservation s) (brk_start s) (mc_rest s) in
    Ok (bool_decide (m = pages_to (brk_start s) newbrk), set_brk (brk_start s + Z.of_nat m * PAGE_SIZE_4K) (set_mc_rest w s)).
Proof.
  revert s. induction fuel as [|fuel IH]; intros s Hb Hn Hf; cbn [brk_loop]; erewrite bind_ok by done; unfold id.
  all: destruct (Z.ltb_spec (brk_start s) newbrk) as [Hlt|Hge]; cbn [negb].
  2, 4: rewrite pages_to_none by done; cbn [new_pages ret res_bind]; rewrite bool_decide_eq_true_2 by done;
    unfold ret; do 2 f_equal; destruct s; unfold set_brk, set_mc_rest; cbn; f_equal; lia.
  - rewrite pages_to_more in Hf by done. lia.
  - rewrite pages_to_more in Hf |- * by done. cbn [new_pages]. unfold bind, in_vspace.
    destruct (vspace_new_pages_at_vaddr _ 1 seL4_PageBits _ (mc_rest s)) as [[e w]|]; cbn [res_bind]; [|done].
    destruct (Z.eqb_spec e 0) as [->|]; cbn [negb].
    2: { unfold ret. cbn [res_bind]. do 2 f_equal. unfold set_brk, set_mc_rest. cbn. f_equal. lia. }
    cbn [modify res_bind]. unfold modify. cbn [res_bind].
    set (s1 := set_brk _ (set_mc_rest w s)).
    assert (Hb1 : brk_start s1 = brk_start s + PAGE_SIZE_4K).
    { cbn. apply wrap_small. unfold is_word, PAGE_SIZE_4K in *. lia. }
    rewrite IH by (rewrite ?Hb1; unfold PAGE_SIZE_4K in *; lia). rewrite Hb1.
    change (mc_rest s1) with w. change (muslc_brk_reservation s1) with (muslc_brk_reservation s).
    destruct (new_pages _ _ _ w) as [[m w']|]; cbn [res_bind]; [|done]. unfold ret. cbn [res_bind]. f_equal. f_equal.
    + by repeat case_bool_decide; try lia.
    + unfold set_brk, set_mc_rest. cbn. f_equal. lia.
Qed.

(** With an address space, [brk] to [newbrk] maps the pages from where the
    heap ends, each once and in order, until there are enough or one cannot be
    mapped; it remembers how far it got, and gives the new end of the heap, or 0
    if it is short.  As many rounds as there are pages are enough. *)
Theorem brk_dynamic_maps (fuel : nat) (newbrk : Z) (s : St) :
  muslc_this_vspace s <> 0 -> muslc_brk_reservation s <> 0 -> muslc_brk_reservation_start s <> 0 ->
  0 <= brk_start s -> 0 < newbrk -> newbrk + PAGE_SIZE_4K <= 2 ^ 63 -> brk_start s < 2 ^ 63 ->
  let n := pages_to (brk_start s) newbrk in (n <= fuel)%nat ->
  sys_brk_dynamic fuel newbrk s =
    let? (m, w) := new_pages n (muslc_brk_reservation s) (brk_start s) (mc_rest s) in
    let b := brk_start s + Z.of_nat m * PAGE_SIZE_4K in
    Ok (if bool_decide (m = n) then b else 0, set_brk b (set_mc_rest w s)).
Proof.
  intros Hv Hr Hs Hb Hn0 Hn Hb63 n Hf. unfold sys_brk_dynamic. erewrite bind_ok by done. unfold id, cassert, rassert, lift.
  destruct (Z.eqb_spec (muslc_this_vspace s) 0), (Z.eqb_spec (muslc_brk_reservation s) 0),
    (Z.eqb_spec (muslc_brk_reservation_start s) 0); try done. cbn [negb andb]. unfold bind at 1. cbn [res_bind].
  destruct (Z.eqb_spec newbrk 0); [lia|]. unfold bind. rewrite brk_loop_pages by (unfold word_size; lia || done). fold n.
  destruct (new_pages n _ _ (mc_rest s)) as [[m w]|]; cbn [res_bind]; [|done]. case_bool_decide as Hm; cbn [negb]; [|done].
  unfold gets, id, ret. cbn [res_bind brk_start set_brk]. do 2 f_equal. unfold to_long. rewrite Z.mod_small; [lia|].
  assert (Z.of_nat n * PAGE_SIZE_4K < newbrk - brk_start s + PAGE_SIZE_4K \/ n = O); [|unfold PAGE_SIZE_4K in *; lia].
  destruct (decide (newbrk <= brk_start s)); [right; by apply pages_to_none|left]. unfold n, pages_to.
  pose proof (Z.mul_div_le (newbrk - brk_start s + PAGE_SIZE_4K - 1) PAGE_SIZE_4K ltac:(done)).
  rewrite Z2Nat.id by (apply Z.div_pos; unfold PAGE_SIZE_4K; lia). lia.
Qed.
End vspace_heap.

(** ** Examples *)

#[export] Instance toy_morecore : MorecoreConstants := {|
  MAP_ANONYMOUS := 32; MREMAP_MAYMOVE := 1; MREMAP_FIXED := 2; mc_AllRights := 15;
  BYTES_TO_4K_PAGES := fun b => (b + 4095) / 4096
|}.

#[export] Instance toy_morecore_pages : MorecorePages.
Proof.
  constructor; [|done]. intros x H0 _. cbn. unfold PAGE_SIZE_4K.
  pose proof (Z.div_mod (x + 4095) 4096 ltac:(done)). pose proof (Z.mod_pos_bound (x + 4095) 4096 ltac:(done)). lia.
Qed.

(** An address space of the pages that are mapped, with room for some more. *)
Record toy_pages : Type := ToyPages { room : nat; mapped : list Z }.

#[export] Instance toy_morecore_vspace : MorecoreVspace toy_pages := {|
  vspace_new_pages_at_vaddr := fun a _ _ _ w => match room w with
    | O => Ok (-1, w)
    | S r => if bool_decide (a ∈ mapped w) then Ok (-1, w) else Ok (0, ToyPages r (mapped w ++ [a]))
    end;
  vspace_new_pages := fun _ _ _ => ret 0;
  vspace_get_cap := fun a => ret a;
  vspace_get_cookie := fun a => ret 0;
  vspace_unmap_pages_preserve := fun _ _ _ => ret tt;
  vspace_reserve_range := fun _ _ _ => ret (0, 0);
  vspace_reserve_range_at := fun _ _ _ _ => ret 1;
  vspace_map_pages_at_vaddr := fun _ _ _ _ _ _ => ret 0;
  vspace_free_reservation := fun _ => ret tt
|}.

(** An area of 16 KiB; and an address space with room for two pages. *)
Definition toy_area : morecore toy_pages := Morecore 0 0 0 65536 16384 0 0 0 (ToyPages 0 []).
Definition toy_vspace : morecore toy_pages := Morecore 1 1 1048576 0 0 0 0 1048576 (ToyPages 2 []).
Definition mc_run {A} (m : M (morecore toy_pages) A) (s : morecore toy_pages) : morecore toy_pages :=
  match m s with Ok (_, s') => s' | Fault _ => s end.

Definition toy_area_1 : morecore toy_pages := mc_run (run_heap_op 10 (Brk 66000)) toy_area.
Definition toy_area_2 : morecore toy_pages := mc_run (run_heap_op 10 (Mmap 5000)) toy_area_1.
Definition toy_area_3 : morecore toy_pages := mc_run (run_heap_op 10 (Mmap 5000)) toy_area_2.
Definition toy_heap_calls : list (heap_op * Z) := [(Brk 66000, 66000); (Mmap 5000, 73728); (Mmap 5000, -12)].

Lemma toy_heap_history : heap_history 10 toy_area toy_heap_calls toy_area_3.
Proof.
  apply heap_more with (s1 := toy_area_1); [done|by vm_compute|].
  apply heap_more with (s1 := toy_area_2); [done|by vm_compute|].
  apply heap_more with (s1 := toy_area_3); [done|by vm_compute|]. constructor.
Qed.

Lemma heap_and_blocks_apart_witness : heap_end toy_heap_calls 65536 = 66000 /\ blocks toy_heap_calls [] = [(73728, 8192)] /\
  exists top, area_state 65536 16384 toy_area_3 (heap_end toy_heap_calls 65536) top /\ stacked top (blocks toy_heap_calls []) (65536 + 16384).
Proof.
  split; [by vm_compute|]. split; [by vm_compute|].
  refine (proj1 (heap_and_blocks_apart 10 65536 16384 _ _ _ _ _ _ toy_area toy_area_3 toy_heap_calls _ toy_heap_history)); try done.
  split_and!; [done|done|by left|lia|lia|lia].
Defined.

Lemma brk_dynamic_maps_witness : sys_brk_dynamic 2 1053000 toy_vspace = Ok (1056768, set_brk 1056768 (set_mc_rest (ToyPages 0 [1048576; 1052672]) toy_vspace)).
Proof.
  rewrite (brk_dynamic_maps 2 1053000 toy_vspace); [by vm_compute|done|done|done|cbn; lia|lia|unfold PAGE_SIZE_4K; lia|cbn; lia|].
  by apply (bool_decide_unpack _); vm_compute.
Defined.

(** Asked for the end of the heap, [brk] forgets it: the next call maps pages
    that are mapped, fails, and the heap is no longer there. *)
Example brk_zero_forgets :
  let s := mc_run (sys_brk_dynamic 5 1050000) (set_mc_rest (ToyPages 5 []) toy_vspace) in
  brk_start s = 1052672 /\
  let s := mc_run (sys_brk_dynamic 5 0) s in
  brk_start s = 1048576 /\ sys_brk_dynamic 5 1050000 s = Ok (0, s).
Proof. by vm_compute. Qed.

(** An address space without room: [mmap] gives address 0, and no error. *)
Example mmap_failure_is_zero : sys_mmap 4096 32 toy_vspace = Ok (0, toy_vspace).
Proof. by vm_compute. Qed.

(** In an area of the library's own, a block of 5 bytes is not at the start of a page. *)
Example fixed_block_unaligned : fixed_sys_mmap_impl 5 32 (FixedMorecore 65536 81920) = Ok (81915, FixedMorecore 65536 81915).
Proof. by vm_compute. Qed.
