(* ===== verification/VspaceApi.v ===== *)
(** libsel4vspace: the interface [vspace_t] to an address space and its
    wrappers (include/vspace/vspace.h), and what is built from them
    (src/vspace.c): stacks with a guard page, IPC buffers, shared pages.

    A [vspace_t] is a table of functions over the state [W] of the system; a
    null function pointer, and a null [vspace_t], is [None].  Where an address
    space is passed to an operation of another one, it is named by its [data]
    pointer.  An out-parameter is part of the result, [None] when it was not
    written; the check that it is not null has no counterpart. *)
From S2P Require Import Prelude Cspacepath Interfaces Objects Vka VspaceTables Vspace.

Record vspace_new_pages_config_t : Type := NewPagesConfig {
  vaddr : Z; num_pages : Z; size_bits : Z; can_use_dev : bool
}.

Record vspace_t (W : Type) : Type := VspaceOps {
  data : Z;
  new_pages : option (Z -> Z -> Z -> M W Z);
  map_pages : option (list Z -> option (list Z) -> Z -> Z -> Z -> Z -> M W Z);
  new_pages_at_vaddr : option (Z -> Z -> Z -> Z -> bool -> M W Z);
  map_pages_at_vaddr : option (list Z -> option (list Z) -> Z -> Z -> Z -> Z -> M W Z);
  deferred_rights_map_pages_at_vaddr : option (list Z -> option (list Z) -> Z -> Z -> Z -> Z -> Z -> M W Z);
  unmap_pages : option (Z -> Z -> Z -> vka_choice W -> M W unit);
  tear_down : option (vka_choice W -> M W unit);
  reserve_range_aligned : option (Z -> Z -> Z -> Z -> M W (Z * option Z));
  reserve_range_at : option (Z -> Z -> Z -> Z -> M W Z);
  reserve_deferred_rights_range_at : option (Z -> Z -> Z -> M W Z);
  free_reservation : option (Z -> M W unit);
  free_reservation_by_vaddr : option (Z -> M W unit);
  get_cap : option (Z -> M W Z);
  get_root : option (M W Z);
  get_cookie : option (Z -> M W Z);
  share_mem_at_vaddr : option (Z -> Z -> Z -> Z -> Z -> Z -> M W Z);
  allocated_object : option (vka_object_t -> M W unit)
}.
Arguments VspaceOps {W} _ _ _ _ _ _ _ _ _ _ _ _ _ _ _ _ _ _.
Arguments data {W} _.
Arguments new_pages {W} _.
Arguments map_pages {W} _.
Arguments new_pages_at_vaddr {W} _.
Arguments map_pages_at_vaddr {W} _.
Arguments deferred_rights_map_pages_at_vaddr {W} _.
Arguments unmap_pages {W} _.
Arguments tear_down {W} _.
Arguments reserve_range_aligned {W} _.
Arguments reserve_range_at {W} _.
Arguments reserve_deferred_rights_range_at {W} _.
Arguments free_reservation {W} _.
Arguments free_reservation_by_vaddr {W} _.
Arguments get_cap {W} _.
Arguments get_root {W} _.
Arguments get_cookie {W} _.
Arguments share_mem_at_vaddr {W} _.
Arguments allocated_object {W} _.

(** The result is [None] where the function returns -1. *)
Definition default_vspace_new_pages_config (num_pages size_bits : Z) : option vspace_new_pages_config_t :=
  if num_pages =? 0 then None else Some (NewPagesConfig 0 num_pages size_bits false).
Definition vspace_new_pages_config_set_vaddr (vaddr : Z) (config : vspace_new_pages_config_t)
    : Z * vspace_new_pages_config_t :=
  (0, NewPagesConfig vaddr (num_pages config) (size_bits config) (can_use_dev config)).
Definition vspace_new_pages_config_use_device_ut (can_use_dev : bool) (config : vspace_new_pages_config_t)
    : Z * vspace_new_pages_config_t :=
  (0, NewPagesConfig (vaddr config) (num_pages config) (size_bits config) can_use_dev).

Section wrappers.
Context {W : Type} `{SC : !SeL4Constants} (CONFIG_HUGE_PAGE : bool).
Implicit Types (vspace : option (vspace_t W)).

(** ** The wrappers *)

Definition vspace_new_pages vspace (rights num_pages size_bits : Z) : M W Z :=
  match vspace with
  | None => ret 0
  | Some v =>
      match new_pages v with
      | None => ret 0
      | Some f =>
          if num_pages =? 0 then ret 0 else
          let! valid := sel4_valid_size_bits CONFIG_HUGE_PAGE size_bits in
          if negb valid then ret 0 else f rights num_pages size_bits
      end
  end.

(** The test is of [new_pages], the call is of [map_pages]. *)
Definition vspace_map_pages vspace (caps : list Z) (cookies : option (list Z))
    (rights num_pages size_bits cacheable : Z) : M W Z :=
  match vspace with
  | None => ret 0
  | Some v =>
      match new_pages v with
      | None => ret 0
      | Some _ =>
          if num_pages =? 0 then ret 0 else
          let! valid := sel4_valid_size_bits CONFIG_HUGE_PAGE size_bits in
          if negb valid then ret 0 else
          match map_pages v with
          | None => stop NullPointer
          | Some f => f caps cookies rights num_pages size_bits cacheable
          end
      end
  end.

(** A missing reservation is only reported. *)
Definition vspace_new_pages_at_vaddr_with_config vspace (config : vspace_new_pages_config_t) (res : Z) : M W Z :=
  match vspace with
  | None => ret (-1)
  | Some v =>
      match new_pages_at_vaddr v with
      | None => stop NullPointer
      | Some f => f (vaddr config) (num_pages config) (size_bits config) res (can_use_dev config)
      end
  end.

Definition vspace_new_pages_at_vaddr vspace (vaddr num_pages size_bits reservation : Z) : M W Z :=
  match vspace with
  | None => ret (-1)
  | Some v =>
      match new_pages_at_vaddr v with
      | None => ret (-1)
      | Some _ =>
          match default_vspace_new_pages_config num_pages size_bits with
          | None => ret (-1)
          | Some config =>
              let (error, config) := vspace_new_pages_config_set_vaddr vaddr config in
              if negb (error =? 0) then ret (-1)
              else vspace_new_pages_at_vaddr_with_config vspace config reservation
          end
      end
  end.

Definition vspace_map_pages_at_vaddr vspace (caps : list Z) (cookies : option (list Z))
    (vaddr num_pages size_bits reservation : Z) : M W Z :=
  match vspace with
  | None => ret (-1)
  | Some v =>
      if num_pages =? 0 then ret (-1) else
      match map_pages_at_vaddr v with
      | None => ret (-1)
      | Some f => f caps cookies vaddr num_pages size_bits reservation
      end
  end.

Definition vspace_deferred_rights_map_pages_at_vaddr vspace (caps : list Z) (cookies : option (list Z))
    (vaddr num_pages size_bits rights reservation : Z) : M W Z :=
  match vspace with
  | None => ret (-1)
  | Some v =>
      if num_pages =? 0 then ret (-1) else
      match deferred_rights_map_pages_at_vaddr v with
      | None => ret (-1)
      | Some f => f caps cookies vaddr num_pages size_bits rights reservation
      end
  end.

Definition vspace_unmap_pages vspace (vaddr num_pages size_bits : Z) (vka : vka_choice W) : M W unit :=
  match vspace with
  | None => ret tt
  | Some v =>
      if num_pages =? 0 then ret tt else
      match unmap_pages v with None => ret tt | Some f => f vaddr num_pages size_bits vka end
  end.

Definition vspace_tear_down vspace (vka : vka_choice W) : M W unit :=
  match vspace with
  | None => ret tt
  | Some v => match tear_down v with None => ret tt | Some f => f vka end
  end.

(** A reservation that is not made is 0. *)
Definition vspace_reserve_range_aligned vspace (bytes size_bits rights cacheable : Z) : M W (Z * option Z) :=
  match vspace with
  | None => ret (0, None)
  | Some v =>
      match reserve_range_aligned v with
      | None => ret (0, None)
      | Some f => if bytes =? 0 then ret (0, None) else f bytes size_bits rights cacheable
      end
  end.

Definition vspace_reserve_range_at vspace (vaddr bytes rights cacheable : Z) : M W Z :=
  match vspace with
  | None => ret 0
  | Some v =>
      match reserve_range_at v with
      | None => ret 0
      | Some f => if bytes =? 0 then ret 0 else f vaddr bytes rights cacheable
      end
  end.

Definition vspace_reserve_deferred_rights_range_at vspace (vaddr bytes cacheable : Z) : M W Z :=
  match vspace with
  | None => ret 0
  | Some v =>
      match reserve_deferred_rights_range_at v with
      | None => ret 0
      | Some f => if bytes =? 0 then ret 0 else f vaddr bytes cacheable
      end
  end.

Definition vspace_free_reservation vspace (reservation : Z) : M W unit :=
  match vspace with
  | None => ret tt
  | Some v => match free_reservation v with None => ret tt | Some f => f reservation end
  end.

Definition vspace_free_reservation_by_vaddr vspace (vaddr : Z) : M W unit :=
  match vspace with
  | None => ret tt
  | Some v => match free_reservation_by_vaddr v with None => ret tt | Some f => f vaddr end
  end.

Definition vspace_get_cap vspace (vaddr : Z) : M W Z :=
  match vspace with
  | None => ret 0
  | Some v => match get_cap v with None => ret 0 | Some f => f vaddr end
  end.

Definition vspace_get_cookie vspace (vaddr : Z) : M W Z :=
  match vspace with
  | None => ret 0
  | Some v => match get_cookie v with None => ret 0 | Some f => f vaddr end
  end.

Definition vspace_maybe_call_allocated_object vspace (object : vka_object_t) : M W unit :=
  match vspace with
  | None => stop Fatal
  | Some v => match allocated_object v with None => ret tt | Some f => f object end
  end.

Definition vspace_get_root vspace : M W Z :=
  match vspace with
  | None => ret 0
  | Some v => match get_root v with None => ret 0 | Some f => f end
  end.

(** [num_pages] is an int. *)
Definition vspace_share_mem_at_vaddr (from to : option (vspace_t W))
    (start num_pages size_bits vaddr res : Z) : M W Z :=
  if num_pages =? 0 then ret (-1)
  else if num_pages <? 0 then ret (-1)
  else match from, to with
  | Some from, Some to =>
      if vaddr =? 0 then ret (-1) else
      match share_mem_at_vaddr from with
      | None => ret (-1)
      | Some f => f (data to) start num_pages size_bits vaddr res
      end
  | _, _ => ret (-1)
  end.

(** ** libsel4vspace/src/vspace.c *)

Context (seL4_AllRights CONFIG_SEL4UTILS_STACK_SIZE : Z) `{UM : !UtilsMacros}.

Definition vspace_reserve_range vspace (bytes rights cacheable : Z) : M W (Z * option Z) :=
  vspace_reserve_range_aligned vspace bytes seL4_PageBits rights cacheable.

(** The top of the stack, 0 if there is none. *)
Definition vspace_new_sized_stack vspace (n_pages : Z) : M W Z :=
  let! (reserve, vaddr) := vspace_reserve_range vspace ((n_pages ⊞ 1) ⊠ PAGE_SIZE_4K) seL4_AllRights 1 in
  if reserve =? 0 then ret 0 else
  let stack_bottom := default 0 vaddr ⊞ PAGE_SIZE_4K in
  let! error := vspace_new_pages_at_vaddr vspace stack_bottom n_pages seL4_PageBits reserve in
  if negb (error =? 0) then
    let! _ := vspace_free_reservation vspace reserve in ret 0
  else ret (stack_bottom ⊞ n_pages ⊠ PAGE_SIZE_4K).

Definition vspace_free_sized_stack vspace (stack_top n_pages : Z) : M W unit :=
  if n_pages >? 0 then
    let stack_bottom := stack_top ⊟ n_pages ⊠ PAGE_SIZE_4K in
    let! _ := vspace_unmap_pages vspace stack_bottom n_pages seL4_PageBits VSPACE_FREE in
    vspace_free_reservation_by_vaddr vspace (stack_bottom ⊟ PAGE_SIZE_4K)
  else ret tt.

(** BYTES_TO_4K_PAGES *)
Definition default_stack_pages : Z := BYTES_TO_SIZE_BITS_PAGES CONFIG_SEL4UTILS_STACK_SIZE PAGE_BITS_4K.
Definition vspace_new_stack vspace : M W Z := vspace_new_sized_stack vspace default_stack_pages.
Definition vspace_free_stack vspace (stack_top : Z) : M W unit :=
  vspace_free_sized_stack vspace stack_top default_stack_pages.

(** The address, and the capability where it was written. *)
Definition vspace_new_ipc_buffer vspace : M W (Z * option Z) :=
  let! vaddr := vspace_new_pages vspace seL4_AllRights 1 seL4_PageBits in
  if vaddr =? 0 then ret (0, None) else
  let! page := vspace_get_cap vspace vaddr in
  ret (vaddr, Some page).

Definition vspace_free_ipc_buffer vspace (addr : Z) : M W unit :=
  vspace_unmap_pages vspace addr 1 seL4_PageBits VSPACE_FREE.

Definition vspace_share_mem (from to : option (vspace_t W)) (start num_pages size_bits rights cacheable : Z) : M W Z :=
  let! (res, result) := vspace_reserve_range_aligned to (num_pages ⊠ BIT size_bits) size_bits rights cacheable in
  if res =? 0 then ret 0 else
  let result := default 0 result in
  let! error := vspace_share_mem_at_vaddr from to start num_pages size_bits result res in
  let! _ := vspace_free_reservation to res in
  ret (if negb (error =? 0) then 0 else result).

Definition vspace_access_page_with_callback (from to : option (vspace_t W))
    (access_addr size_bits rights cacheable : Z) (callback : Z -> Z -> M W Z) : M W Z :=
  let! to_vaddr := vspace_share_mem from to access_addr 1 size_bits rights cacheable in
  if to_vaddr =? 0 then ret (-1) else
  let! res := callback access_addr to_vaddr in
  let! _ := vspace_unmap_pages to to_vaddr 1 size_bits VSPACE_FREE in
  ret res.

(** The address the configuration ends with is written to the caller's. *)
Definition vspace_new_pages_with_config vspace (config : vspace_new_pages_config_t) (rights : Z)
    : M W (Z * vspace_new_pages_config_t) :=
  let bytes := num_pages config ⊠ SIZE_BITS_TO_BYTES (size_bits config) in
  let! (res, addr) := (if vaddr config =? 0
    then vspace_reserve_range_aligned vspace bytes (size_bits config) rights 1
    else let! res := vspace_reserve_range_at vspace (vaddr config) bytes rights 1 in ret (res, None)) in
  let (_, config) := vspace_new_pages_config_set_vaddr (default (vaddr config) addr) config in
  if res =? 0 then ret (0, config) else
  let! error := vspace_new_pages_at_vaddr_with_config vspace config res in
  let! _ := vspace_free_reservation vspace res in
  ret (if negb (error =? 0) then 0 else vaddr config, config).

(** libsel4utils/src/stack.c; the stack is not given back. *)
Definition sel4utils_run_on_stack vspace (utils_run_on_stack : Z -> M W Z) : M W (Z * option Z) :=
  let! stack_top := vspace_new_stack vspace in
  if stack_top =? 0 then ret (-1, None) else
  let! r := utils_run_on_stack stack_top in
  ret (0, Some r).

End wrappers.
