(* ===== verification/VspaceStack.v ===== *)
(** What an address space promises its clients, and the stacks of
    libsel4vspace/src/vspace.c over any address space that keeps the promise.

    A client holds pages and reservations: [held_pages] are the addresses of its
    4K pages, [held_ranges] the start and the end of each of its reservations. *)
From S2P Require Import Prelude Cspacepath Interfaces Objects Vka VspaceTables Vspace VspaceApi.

(** [n] pages from [a]. *)
Definition pages_at (a n : Z) : gset Z := list_to_set ((fun i => a + 4096 * Z.of_nat i) <$> seq 0 (Z.to_nat n)).

Lemma elem_of_pages_at (a n p : Z) : p ∈ pages_at a n <-> exists i, 0 <= i < n /\ p = a + 4096 * i.
Proof.
  unfold pages_at. rewrite elem_of_list_to_set, list_elem_of_fmap. split.
  - intros (i & -> & Hi%elem_of_seq). exists (Z.of_nat i). lia.
  - intros (i & Hi & ->). exists (Z.to_nat i). split; [lia|]. apply elem_of_seq. lia.
Qed.

Class VspaceAccounting (W : Type) {seL4 : SeL4Constants} (v : vspace_t W) : Type := {
  held_pages : W -> gset Z;
  held_ranges : W -> gmap Z (Z * Z);
  acct_new_pages : exists f, new_pages v = Some f /\ forall rights n w, 0 < n -> exists a w',
    f rights n seL4_PageBits w = Ok (a, w') /\ held_ranges w' = held_ranges w /\
    ((a = 0 /\ held_pages w' = held_pages w) \/
     (0 < a /\ pages_at a n ## held_pages w /\ held_pages w' = pages_at a n ∪ held_pages w));
  acct_reserve : exists f, reserve_range_aligned v = Some f /\ forall bytes rights c w, 0 < bytes -> exists r a w',
    f bytes seL4_PageBits rights c w = Ok (r, a, w') /\ held_pages w' = held_pages w /\
    ((r = 0 /\ held_ranges w' = held_ranges w) \/
     (r <> 0 /\ exists s, a = Some s /\ 0 < s /\ s + bytes < word_size /\ held_ranges w !! r = None /\
      held_ranges w' = <[r := (s, s + bytes)]> (held_ranges w) /\
      (forall r' s' e', held_ranges w !! r' = Some (s', e') -> e' <= s \/ s + bytes <= s') /\
      (forall p, p ∈ held_pages w -> p < s \/ s + bytes <= p)));
  acct_new_pages_at : exists f, new_pages_at_vaddr v = Some f /\ forall a n r d s e w,
    held_ranges w !! r = Some (s, e) -> s <= a -> a + 4096 * n <= e -> 0 < n -> pages_at a n ## held_pages w ->
    exists err w', f a n seL4_PageBits r d w = Ok (err, w') /\ held_ranges w' = held_ranges w /\
    ((err = 0 /\ held_pages w' = pages_at a n ∪ held_pages w) \/ (err <> 0 /\ held_pages w' = held_pages w));
  acct_unmap : exists f, unmap_pages v = Some f /\ forall a n w, pages_at a n ⊆ held_pages w -> exists w',
    f a n seL4_PageBits VSPACE_FREE w = Ok (tt, w') /\ held_ranges w' = held_ranges w /\
    held_pages w' = held_pages w ∖ pages_at a n;
  acct_free_reservation : exists f, free_reservation v = Some f /\ forall r w, r ∈ dom (held_ranges w) -> exists w',
    f r w = Ok (tt, w') /\ held_pages w' = held_pages w /\ held_ranges w' = delete r (held_ranges w);
  acct_free_by_vaddr : exists f, free_reservation_by_vaddr v = Some f /\ forall a r s e w,
    held_ranges w !! r = Some (s, e) -> s <= a < e ->
    (forall r' s' e', r' <> r -> held_ranges w !! r' = Some (s', e') -> ~ s' <= a < e') -> exists w',
    f a w = Ok (tt, w') /\ held_pages w' = held_pages w /\ held_ranges w' = delete r (held_ranges w);
  acct_get_cap : exists f, get_cap v = Some f /\ forall a w, exists c, f a w = Ok (c, w);
  acct_get_root : exists f, get_root v = Some f /\ forall w, exists c, f w = Ok (c, w)
}.

(** [n] pages of a stack below [top], and the reservation of a stack of [n]
    pages with its guard page. *)
Definition stack_pages (top n : Z) : gset Z := pages_at (top - 4096 * n) n.
Definition stack_range (top n : Z) : Z * Z := (top - 4096 * (n + 1), top).

(** [w'] has one reservation more than [w], apart from the others. *)
Definition one_more_range {W} `{VA : VspaceAccounting W v} (top n : Z) (w w' : W) : Prop :=
  exists r, held_ranges w !! r = None /\ held_ranges w' = <[r := stack_range top n]> (held_ranges w) /\
    forall r' s' e', held_ranges w !! r' = Some (s', e') -> e' <= top - 4096 * (n + 1) \/ top <= s'.

Section stack.
Context {W : Type} {seL4 : SeL4Constants} (v : vspace_t W) `{VA : !VspaceAccounting W v} (rights : Z).

Lemma free_stack_pages (top n : Z) (w0 w : W) :
  0 < n -> 4096 * (n + 1) < top < word_size -> stack_pages top n ⊆ held_pages w -> one_more_range top n w0 w ->
  exists w', vspace_free_sized_stack (Some v) top n w = Ok (tt, w') /\
    held_pages w' = held_pages w ∖ stack_pages top n /\ held_ranges w' = held_ranges w0.
Proof.
  intros Hn Htop Hp (r & Hr & Hrs & Hapart). unfold vspace_free_sized_stack.
  rewrite (proj2 (Z.gtb_lt n 0)) by lia.
  change PAGE_SIZE_4K with 4096. rewrite !(wrap_small (n * 4096)), !(wrap_small (top - n * 4096)), (wrap_small (_ - 4096))
    by (unfold is_word; lia).
  unfold vspace_unmap_pages. rewrite (proj2 (Z.eqb_neq n 0)) by lia.
  destruct acct_unmap as (fu & -> & Hu).
  replace (top - n * 4096) with (top - 4096 * n) by lia.
  destruct (Hu (top - 4096 * n) n w Hp) as (w1 & H1 & Hr1 & Hp1). erewrite bind_ok by exact H1.
  unfold vspace_free_reservation_by_vaddr. destruct acct_free_by_vaddr as (ff & -> & Hf).
  destruct (Hf (top - 4096 * n - 4096) r (top - 4096 * (n + 1)) top w1) as (w2 & H2 & Hp2 & Hr2).
  - rewrite Hr1, Hrs. by rewrite lookup_insert_eq.
  - lia.
  - intros r' s' e' Hne. rewrite Hr1, Hrs, lookup_insert_ne by done. intros H%Hapart. lia.
  - exists w2. split_and!; [done| |].
    + by rewrite Hp2, Hp1.
    + by rewrite Hr2, Hr1, Hrs, delete_insert_id.
Qed.

Lemma new_stack_cases (n : Z) (w : W) : 0 <= n -> 4096 * (n + 1) < word_size ->
  exists top w', vspace_new_sized_stack rights (Some v) n w = Ok (top, w') /\
  ((top = 0 /\ held_pages w' = held_pages w /\ held_ranges w' = held_ranges w) \/
   (0 < n /\ 4096 * (n + 1) < top < word_size /\ stack_pages top n ## held_pages w /\
    (top - 4096 * (n + 1) ∉ held_pages w) /\
    held_pages w' = stack_pages top n ∪ held_pages w /\ one_more_range top n w w')).
Proof.
  intros Hn Hb. unfold vspace_new_sized_stack, vspace_reserve_range, vspace_reserve_range_aligned.
  change PAGE_SIZE_4K with 4096. rewrite (wrap_small (n + 1)), (wrap_small ((n + 1) * 4096)) by (unfold is_word; lia).
  rewrite (proj2 (Z.eqb_neq ((n + 1) * 4096) 0)) by lia.
  destruct acct_reserve as (fr & -> & Hr).
  destruct (Hr ((n + 1) * 4096) rights 1 w) as (r & a & w1 & H1 & Hp1 & Hcases); [lia|].
  erewrite bind_ok by exact H1. cbn beta iota.
  destruct Hcases as [(-> & Hr1)|(Hr0 & s & -> & Hs & Hse & Hfresh & Hr1 & Hapart & Hfree)].
  { exists 0, w1. split; [done|]. by left. }
  rewrite (proj2 (Z.eqb_neq r 0)) by done. cbn [default from_option]. unfold id.
  rewrite (wrap_small (s + 4096)), (wrap_small (n * 4096)), (wrap_small (s + 4096 + n * 4096)) by (unfold is_word; lia).
  assert (Hdrop : forall w2, held_pages w2 = held_pages w -> held_ranges w2 = held_ranges w1 ->
    exists w', vspace_free_reservation (Some v) r w2 = Ok (tt, w') /\
      held_pages w' = held_pages w /\ held_ranges w' = held_ranges w).
  { intros w2 Hp2 Hr2. unfold vspace_free_reservation. destruct acct_free_reservation as (ff & -> & Hf).
    destruct (Hf r w2) as (w3 & H3 & Hp3 & Hr3). { rewrite Hr2, Hr1, dom_insert_L. apply elem_of_union_l, elem_of_singleton; done. }
    exists w3. split_and!; [done|congruence|]. by rewrite Hr3, Hr2, Hr1, delete_insert_id. }
  assert (Hnone : forall w2 e, e <> 0 -> held_pages w2 = held_pages w -> held_ranges w2 = held_ranges w1 ->
    exists top w', (if negb (e =? 0) then let! _ := vspace_free_reservation (Some v) r in ret 0
      else ret (s + 4096 + n * 4096)) w2 = Ok (top, w') /\
      top = 0 /\ held_pages w' = held_pages w /\ held_ranges w' = held_ranges w).
  { intros w2 e He Hp2 Hr2. rewrite (proj2 (Z.eqb_neq e 0)) by done. cbn [negb].
    destruct (Hdrop w2 Hp2 Hr2) as (w3 & H3 & Hp3 & Hr3). erewrite bind_ok by exact H3. by exists 0, w3. }
  unfold vspace_new_pages_at_vaddr, default_vspace_new_pages_config.
  destruct acct_new_pages_at as (fn & Hfn & Hnew). rewrite Hfn.
  destruct (Z.eqb_spec n 0) as [->|Hn0].
  { unfold bind at 1. cbn [ret res_bind]. destruct (Hnone w1 (-1)) as (top & w' & H & Hrest); [done..|].
    exists top, w'. split; [done|]. by left. }
  cbn [vspace_new_pages_config_set_vaddr]. unfold vspace_new_pages_at_vaddr_with_config. rewrite Hfn. simpl.
  destruct (Hnew (s + 4096) n r false s (s + (n + 1) * 4096) w1) as (e & w2 & H2 & Hr2 & Hcases).
  { by rewrite Hr1, lookup_insert_eq. } { lia. } { lia. } { lia. }
  { rewrite Hp1. intros p (i & Hi & ->)%elem_of_pages_at Hq%Hfree. lia. }
  erewrite bind_ok by exact H2. destruct Hcases as [(-> & Hp2)|(He & Hp2)].
  2:{ destruct (Hnone w2 e He) as (top & w' & H & Hrest); [congruence|done|]. exists top, w'. split; [done|]. by left. }
  simpl. exists (s + 4096 + n * 4096), w2. split; [done|]. right.
  unfold stack_pages, one_more_range, stack_range.
  replace (s + 4096 + n * 4096 - 4096 * n) with (s + 4096) by lia.
  replace (s + 4096 + n * 4096 - 4096 * (n + 1)) with s by lia.
  split_and!; [lia|lia|lia| |intros Hq%Hfree; lia|congruence|].
  - intros p (i & Hi & ->)%elem_of_pages_at Hq%Hfree. lia.
  - exists r. split_and!; [done| |].
    + rewrite Hr2, Hr1. do 2 f_equal. lia.
    + intros r' s' e' H%Hapart. lia.
Qed.

(** C29: over any address space that keeps its promise, [vspace_new_sized_stack]
    returns.  Either it fails and leaves the address space as it was, with no
    reservation left behind, or it returns the top of [n] new pages, below which
    one more page is reserved and not mapped; then [vspace_free_sized_stack] on
    that top gives the pages and the reservation back, and nothing else. *)
Theorem stack_given_back (n : Z) (w : W) : 0 <= n -> 4096 * (n + 1) < word_size ->
  exists top w', vspace_new_sized_stack rights (Some v) n w = Ok (top, w') /\
  ((top = 0 /\ held_pages w' = held_pages w /\ held_ranges w' = held_ranges w) \/
   (0 < n /\ 4096 * (n + 1) < top < word_size /\
    stack_pages top n ## held_pages w /\ held_pages w' = stack_pages top n ∪ held_pages w /\
    (top - 4096 * (n + 1) ∉ held_pages w') /\ one_more_range top n w w' /\
    exists w'', vspace_free_sized_stack (Some v) top n w' = Ok (tt, w'') /\
      held_pages w'' = held_pages w /\ held_ranges w'' = held_ranges w)).
Proof.
  intros Hn Hb. destruct (new_stack_cases n w Hn Hb)
    as (top & w' & -> & [H|(Hn0 & Htop & Hdisj & Hguard & Hp & Hr)]); exists top, w'; (split; [done|]); [by left|right].
  destruct (free_stack_pages top n w w') as (w'' & Hw & Hp' & Hr'); [done|done|set_solver|done|].
  split_and!; [done|lia|lia|done|done| |done|].
  - intros Hq. rewrite Hp in Hq. apply elem_of_union in Hq as [(i & Hi & He)%elem_of_pages_at|]; [lia|done].
  - exists w''. split_and!; [done| |done]. rewrite Hp', Hp. set_solver.
Qed.

End stack.

(** ** A model of the promise: pages and reservations after one another *)

Record spaces : Type := Spaces { sp_pages : gset Z; sp_ranges : gmap Z (Z * Z); sp_next : Z }.

Definition apart_from (a bytes : Z) (x : spaces) : Prop :=
  map_Forall (fun _ '(s, e) => e <= a \/ a + bytes <= s) (sp_ranges x) /\
  set_Forall (fun p => p < a \/ a + bytes <= p) (sp_pages x).
#[export] Instance apart_from_dec a bytes x : Decision (apart_from a bytes x).
Proof. unfold apart_from. apply and_dec; [apply map_Forall_dec; intros ? []|]; apply _. Defined.

Definition spaces_vspace : vspace_t spaces := {|
  data := 4096;
  new_pages := Some (fun _ n bits x =>
    let a := sp_next x in
    if bool_decide (0 < a /\ pages_at a n ## sp_pages x)
    then Ok (a, Spaces (pages_at a n ∪ sp_pages x) (sp_ranges x) (a + 4096 * n)) else Ok (0, x));
  map_pages := None;
  new_pages_at_vaddr := Some (fun a n _ _ _ x => Ok (0, Spaces (pages_at a n ∪ sp_pages x) (sp_ranges x) (sp_next x)));
  map_pages_at_vaddr := None;
  deferred_rights_map_pages_at_vaddr := None;
  unmap_pages := Some (fun a n _ _ x => Ok (tt, Spaces (sp_pages x ∖ pages_at a n) (sp_ranges x) (sp_next x)));
  tear_down := None;
  reserve_range_aligned := Some (fun bytes _ _ _ x =>
    let a := sp_next x in
    if bool_decide (0 < a /\ a + bytes < word_size /\ apart_from a bytes x)
    then let r := fresh (dom (sp_ranges x) ∪ {[0]}) in
         Ok (r, Some a, Spaces (sp_pages x) (<[r := (a, a + bytes)]> (sp_ranges x)) (a + bytes))
    else Ok (0, None, x));
  reserve_range_at := None;
  reserve_deferred_rights_range_at := None;
  free_reservation := Some (fun r x => Ok (tt, Spaces (sp_pages x) (delete r (sp_ranges x)) (sp_next x)));
  free_reservation_by_vaddr := Some (fun a x =>
    Ok (tt, Spaces (sp_pages x) (filter (fun '(_, (s, e)) => ~ s <= a < e) (sp_ranges x)) (sp_next x)));
  get_cap := Some (fun a => ret (a / 4096));
  get_root := Some (ret 3);
  get_cookie := None;
  share_mem_at_vaddr := None;
  allocated_object := None
|}.

#[export] Program Instance spaces_accounting : VspaceAccounting spaces spaces_vspace := {|
  held_pages := sp_pages; held_ranges := sp_ranges
|}.
Next Obligation.
  eexists. split; [reflexivity|]. intros rights n x Hn. cbn. case_bool_decide as H.
  - do 2 eexists. split_and!; [reflexivity|done|]. right. by destruct H.
  - do 2 eexists. split_and!; [reflexivity|done|]. by left.
Qed.
Next Obligation.
  eexists. split; [reflexivity|]. intros bytes rights c x Hb. cbn. case_bool_decide as H.
  - destruct H as (H0 & Hw & Hr & Hp).
    pose proof (is_fresh (dom (sp_ranges x) ∪ {[0]})) as Hf.
    do 3 eexists. split_and!; [reflexivity|done|]. right. split; [set_solver|].
    eexists. split_and!; [reflexivity|done|done| |done| |].
    + apply not_elem_of_dom. set_solver.
    + intros r' s' e' Hl. exact (Hr r' (s', e') Hl).
    + intros p. exact (Hp p).
  - do 3 eexists. split_and!; [reflexivity|done|]. by left.
Qed.
Next Obligation.
  eexists. split; [reflexivity|]. intros a n r d s e x Hr Hs He Hn Hp. cbn.
  do 2 eexists. split_and!; [reflexivity|done|]. by left.
Qed.
Next Obligation. eexists. split; [reflexivity|]. intros a n x Hp. by eexists. Qed.
Next Obligation. eexists. split; [reflexivity|]. intros r x Hr. by eexists. Qed.
Next Obligation.
  eexists. split; [reflexivity|]. intros a r s e x Hr Ha Hone. cbn. eexists. split_and!; [reflexivity|done|].
  apply map_eq. intros r'. cbn. rewrite map_lookup_filter.
  destruct (decide (r' = r)) as [->|Hne].
  - rewrite lookup_delete_eq, Hr. cbn. by rewrite option_guard_False by (intros H; by apply H).
  - rewrite lookup_delete_ne by done. destruct (sp_ranges x !! r') as [[s' e']|] eqn:Hl; [|done]. cbn.
    rewrite option_guard_True; [done|]. by apply (Hone r').
Qed.
Next Obligation. eexists. split; [reflexivity|]. intros a x. by eexists. Qed.
Next Obligation. eexists. split; [reflexivity|]. intros x. by eexists. Qed.

Lemma stack_given_back_witness :
  let x := Spaces {[4096]} {[1 := (0, 8192)]} 65536 in
  exists x', vspace_new_sized_stack 7 (Some spaces_vspace) 2 x = Ok (65536 + 12288, x') /\
    exists x'', vspace_free_sized_stack (Some spaces_vspace) (65536 + 12288) 2 x' = Ok (tt, x'') /\
      sp_pages x'' = sp_pages x /\ sp_ranges x'' = sp_ranges x.
Proof.
  intros x.
  destruct (stack_given_back spaces_vspace 7 2 x) as (top & x' & H & [(-> & _)|(_ & _ & _ & _ & _ & _ & Hf)]);
    [lia|unfold word_size; lia|vm_compute in H; discriminate|].
  assert (top = 65536 + 12288) as -> by (vm_compute in H; by injection H).
  exists x'. split; [exact H|exact Hf].
Defined.
