(* ===== verification/Threads.v ===== *)
(** libsel4utils/src/thread.c with include/sel4utils/thread.h,
    thread_config.h, mcs_api.h and the x86_64 part (src/sel4_arch/x86_64/arch.c,
    util.h): threads with a stack, an IPC buffer and, on a mixed-criticality
    kernel, a reply object and a scheduling context; starting them; and
    checkpoints of their registers and stack.

    The address space is behind the interface of VspaceApi.v, the allocator
    behind the one of Vka.v.  The kernel's calls, its register set, the C
    runtime's thread-local storage and the constants of the build are
    parameters.  The configuration has neither a debug build nor more than one
    node unless [nodes] says so; messages are left out. *)
From S2P Require Import Prelude Cspacepath Interfaces Objects Vka VspaceTables Vspace VspaceApi Simple.

(** The kernel's registers (libsel4): a register set and those that are
    accessed by name. *)
Class UserContexts : Type := {
  seL4_UserContext : Type;
  zero_context : seL4_UserContext;
  rsp : seL4_UserContext -> Z;
  rip : seL4_UserContext -> Z;
  rbx : seL4_UserContext -> Z;
  set_rsp : Z -> seL4_UserContext -> seL4_UserContext;
  set_rip : Z -> seL4_UserContext -> seL4_UserContext;
  set_rcx : Z -> seL4_UserContext -> seL4_UserContext;
  set_rdx : Z -> seL4_UserContext -> seL4_UserContext;
  set_rdi : Z -> seL4_UserContext -> seL4_UserContext;
  set_rsi : Z -> seL4_UserContext -> seL4_UserContext
}.

(** The system calls on threads and scheduling contexts, and the runtime. *)
Class ThreadKernel (W : Type) `{!UserContexts} : Type := {
  (* tcb, fault endpoint, cspace, its data, vspace, its data, buffer's address, buffer *)
  seL4_TCB_Configure : Z -> Z -> Z -> Z -> Z -> Z -> Z -> Z -> M W Z;
  seL4_TCB_SetSpace : Z -> Z -> Z -> Z -> Z -> Z -> M W Z;
  seL4_TCB_SetIPCBuffer : Z -> Z -> Z -> M W Z;
  seL4_TCB_SetTimeoutEndpoint : Z -> Z -> M W Z;
  seL4_SchedContext_Bind : Z -> Z -> M W Z;
  (* control, context, budget, period, refills, badge *)
  seL4_SchedControl_Configure : Z -> Z -> Z -> Z -> Z -> Z -> M W Z;
  seL4_TCB_SetMCPriority : Z -> Z -> Z -> M W Z;
  seL4_TCB_SetPriority : Z -> Z -> Z -> M W Z;
  seL4_TCB_SetAffinity : Z -> Z -> M W Z;
  (* tcb, resume, flags; the registers *)
  seL4_TCB_WriteRegisters : Z -> bool -> Z -> seL4_UserContext -> M W Z;
  (* the registers are written in the caller's structure *)
  seL4_TCB_ReadRegisters : Z -> bool -> Z -> seL4_UserContext -> M W (Z * seL4_UserContext);
  seL4_TCB_SetTLSBase : Z -> Z -> M W Z;
  seL4_TCB_Resume : Z -> M W Z;
  seL4_TCB_Suspend : Z -> M W Z;
  (* sel4runtime: the thread pointer; the variable of the IPC buffer *)
  sel4runtime_get_tls_size : M W Z;
  sel4runtime_write_tls_image : Z -> M W Z;
  sel4runtime_set_ipc_buffer : Z -> Z -> M W unit
}.

(** The constants of the build, of the kernel and of libutils. *)
Class ThreadConstants : Type := {
  seL4_NilData : Z;
  seL4_CNode_CapData_new : Z -> Z -> Z;
  ENOSYS : Z;
  CONFIG_SEL4UTILS_STACK_SIZE : Z;
  CONFIG_BOOT_THREAD_TIME_SLICE : Z;
  US_IN_MS : Z;
  CONFIG_MAX_NUM_NODES : Z;
  CONFIG_SYSENTER : bool;
  CONFIG_SYSCALL : bool;
  CONFIG_HUGE_PAGE : bool;
  STACK_CALL_ALIGNMENT_BITS : Z;
  STACK_CALL_ALIGNMENT : Z;
  IS_ALIGNED : Z -> Z -> bool
}.

(** ** The configuration of a thread *)

Record sched_params_t : Type := SchedParams {
  priority : Z; mcp : Z; auth : Z; create_sc : bool; sched_ctrl : Z; period : Z; budget : Z;
  extra_refills : Z; badge : Z; sp_sched_context : Z; core : Z
}.

Record sel4utils_thread_config_t : Type := ThreadConfig {
  fault_endpoint : Z; cspace : Z; cspace_root_data : Z; custom_stack_size : bool; config_stack_size : Z;
  no_ipc_buffer : bool; sched_params : sched_params_t; create_reply : bool; config_reply : Z
}.

Definition zero_sched_params : sched_params_t := SchedParams 0 0 0 false 0 0 0 0 0 0 0.
Definition zero_thread_config : sel4utils_thread_config_t :=
  ThreadConfig 0 0 0 false 0 false zero_sched_params false 0.

Record sel4utils_thread_t : Type := Thread {
  tcb : vka_object_t; sched_context : vka_object_t; stack_top : Z; initial_stack_pointer : Z; stack_size : Z;
  ipc_buffer : Z; ipc_buffer_addr : Z; own_sc : bool; own_reply : bool; reply : vka_object_t
}.
Definition zero_thread : sel4utils_thread_t := Thread no_object no_object 0 0 0 0 0 false false no_object.

Section config.
Context {W : Type} `{SC : !SeL4Constants} `{BC : !BootConstants} `{TC : !ThreadConstants}.
Implicit Types (config : sel4utils_thread_config_t) (params : sched_params_t) (simple : option (simple_t W)).

Definition with_sched_params (f : sched_params_t -> sched_params_t) config : sel4utils_thread_config_t :=
  ThreadConfig (fault_endpoint config) (cspace config) (cspace_root_data config) (custom_stack_size config)
    (config_stack_size config) (no_ipc_buffer config) (f (sched_params config)) (create_reply config) (config_reply config).

Definition sched_params_periodic params simple (core period_us budget_us extra_refills badge : Z) : M W sched_params_t :=
  let! ctrl := simple_get_sched_ctrl simple core in
  ret (SchedParams (priority params) (mcp params) (auth params) true ctrl period_us budget_us
    extra_refills badge (sp_sched_context params) (Threads.core params)).

Definition sched_params_round_robin params simple (core timeslice_us : Z) : M W sched_params_t :=
  sched_params_periodic params simple core timeslice_us timeslice_us 0 0.

Definition sched_params_core params (core : Z) : sched_params_t :=
  SchedParams (priority params) (mcp params) (auth params) (create_sc params) (sched_ctrl params) (period params)
    (budget params) (extra_refills params) (badge params) (sp_sched_context params) core.

Definition thread_config_create_reply config : sel4utils_thread_config_t :=
  ThreadConfig (fault_endpoint config) (cspace config) (cspace_root_data config) (custom_stack_size config)
    (config_stack_size config) (no_ipc_buffer config) (sched_params config) true (config_reply config).

Definition thread_config_reply config (reply : Z) : sel4utils_thread_config_t :=
  ThreadConfig (fault_endpoint config) (cspace config) (cspace_root_data config) (custom_stack_size config)
    (config_stack_size config) (no_ipc_buffer config) (sched_params config) false reply.

Definition thread_config_sched_context config (sched_context : Z) : sel4utils_thread_config_t :=
  with_sched_params (fun p => SchedParams (priority p) (mcp p) (auth p) false (sched_ctrl p) (period p) (budget p)
    (extra_refills p) (badge p) sched_context (core p)) config.

Definition thread_config_cspace config (cspace_root cspace_root_data : Z) : sel4utils_thread_config_t :=
  ThreadConfig (fault_endpoint config) cspace_root cspace_root_data (custom_stack_size config)
    (config_stack_size config) (no_ipc_buffer config) (sched_params config) (create_reply config) (config_reply config).

Definition thread_config_auth config (tcb : Z) : sel4utils_thread_config_t :=
  with_sched_params (fun p => SchedParams (priority p) (mcp p) tcb (create_sc p) (sched_ctrl p) (period p) (budget p)
    (extra_refills p) (badge p) (sp_sched_context p) (core p)) config.

Definition api_make_guard_word (guard guard_size : Z) : Z := seL4_CNode_CapData_new guard guard_size.
Definition api_make_guard_skip_word (guard_size : Z) : Z := api_make_guard_word 0 guard_size.

Definition thread_config_new simple : M W sel4utils_thread_config_t :=
  let! bits := simple_get_cnode_size_bits simple in
  let data := api_make_guard_skip_word (seL4_WordBits ⊟ bits) in
  let! tcb := simple_get_tcb simple in
  let! cnode := simple_get_cnode simple in
  ret (thread_config_cspace (thread_config_auth zero_thread_config tcb) cnode data).

Definition thread_config_priority config (prio : Z) : sel4utils_thread_config_t :=
  with_sched_params (fun p => SchedParams prio (mcp p) (auth p) (create_sc p) (sched_ctrl p) (period p) (budget p)
    (extra_refills p) (badge p) (sp_sched_context p) (core p)) config.

Definition thread_config_mcp config (mcp : Z) : sel4utils_thread_config_t :=
  with_sched_params (fun p => SchedParams (priority p) mcp (auth p) (create_sc p) (sched_ctrl p) (period p) (budget p)
    (extra_refills p) (badge p) (sp_sched_context p) (core p)) config.

Definition thread_config_stack_size config (size : Z) : sel4utils_thread_config_t :=
  ThreadConfig (fault_endpoint config) (cspace config) (cspace_root_data config) true size
    (no_ipc_buffer config) (sched_params config) (create_reply config) (config_reply config).

Definition thread_config_no_ipc_buffer config : sel4utils_thread_config_t :=
  ThreadConfig (fault_endpoint config) (cspace config) (cspace_root_data config) (custom_stack_size config)
    (config_stack_size config) true (sched_params config) (create_reply config) (config_reply config).

Definition thread_config_fault_endpoint config (fault_ep : Z) : sel4utils_thread_config_t :=
  ThreadConfig fault_ep (cspace config) (cspace_root_data config) (custom_stack_size config)
    (config_stack_size config) (no_ipc_buffer config) (sched_params config) (create_reply config) (config_reply config).

Definition thread_config_default simple (cnode data fault_ep prio : Z) : M W sel4utils_thread_config_t :=
  let! config := thread_config_new simple in
  let config := thread_config_cspace config cnode data in
  let config := thread_config_fault_endpoint config fault_ep in
  let config := thread_config_priority config prio in
  let! config := (if CONFIG_KERNEL_MCS then
      let! params := sched_params_round_robin (sched_params config) simple 0
        (CONFIG_BOOT_THREAD_TIME_SLICE ⊠ US_IN_MS) in
      ret (with_sched_params (fun _ => params) config)
    else ret config) in
  ret (thread_config_create_reply config).

End config.

(** ** Threads *)

Section threads.
Context {W : Type} `{SC : !SeL4Constants} `{BC : !BootConstants} `{TC : !ThreadConstants} `{UC : !UserContexts}
  `{KO : !KernelOps W} `{TK : !ThreadKernel W} `{UM : !UtilsMacros}.
Implicit Types (vka : option (vka_t W)) (alloc : option (vspace_t W)) (config : sel4utils_thread_config_t)
  (thread : sel4utils_thread_t).

(** *** mcs_api.h *)

Definition api_tcb_configure (tcb ep timeout_ep sc cspace cdata vspace vdata ipc_buffer_addr ipc_buffer_cap : Z)
    : M W Z :=
  if CONFIG_KERNEL_MCS then
    let! error := seL4_TCB_SetSpace tcb ep cspace cdata vspace vdata in
    let! error := (if error =? 0 then seL4_TCB_SetIPCBuffer tcb ipc_buffer_addr ipc_buffer_cap else ret error) in
    let! error := (if error =? 0 then seL4_TCB_SetTimeoutEndpoint tcb timeout_ep else ret error) in
    if (error =? 0) && negb (sc =? seL4_CapNull) then seL4_SchedContext_Bind sc tcb else ret error
  else seL4_TCB_Configure tcb ep cspace cdata vspace vdata ipc_buffer_addr ipc_buffer_cap.

Definition api_sched_ctrl_configure (sched_ctrl sc budget period refills badge : Z) : M W Z :=
  if CONFIG_KERNEL_MCS then seL4_SchedControl_Configure sched_ctrl sc budget period refills badge
  else ret (- ENOSYS).

(** libsel4vka/include/vka/object.h: objects of a mixed-criticality kernel. *)
Definition vka_alloc_reply vka (result : vka_object_t) : M W (Z * vka_object_t) :=
  if CONFIG_KERNEL_MCS then vka_alloc_object vka seL4_ReplyObject seL4_ReplyBits result else ret (ENOSYS, no_object).
Definition vka_alloc_sched_context vka (result : vka_object_t) : M W (Z * vka_object_t) :=
  if CONFIG_KERNEL_MCS then vka_alloc_object vka seL4_SchedContextObject seL4_MinSchedContextBits result
  else ret (ENOSYS, result).

(** *** Giving a thread back: the cleared structure is the result *)

Definition sel4utils_clean_up_thread vka alloc thread : M W sel4utils_thread_t :=
  let! _ := (if negb (cptr (tcb thread) =? 0) then vka_free_object vka (tcb thread) else ret tt) in
  let! _ := (if negb (ipc_buffer_addr thread =? 0) then vspace_free_ipc_buffer alloc (ipc_buffer_addr thread)
    else ret tt) in
  let! _ := (if negb (stack_top thread =? 0)
    then vspace_free_sized_stack alloc (stack_top thread) (stack_size thread) else ret tt) in
  let! _ := (if own_sc thread && negb (cptr (sched_context thread) =? 0)
    then vka_free_object vka (sched_context thread) else ret tt) in
  let! _ := (if own_reply thread && negb (cptr (reply thread) =? 0)
    then vka_free_object vka (reply thread) else ret tt) in
  ret zero_thread.

(** *** Configuring one

    Each part returns the error and the structure as it leaves it; an error
    ends the configuration. *)

Definition fail_thread vka alloc thread : M W (Z * sel4utils_thread_t) :=
  let! thread := sel4utils_clean_up_thread vka alloc thread in ret (-1, thread).

Definition with_cptr (cptr : Z) (o : vka_object_t) : vka_object_t := VkaObject cptr (ut o) (type o) (Vka.size_bits o).

Definition with_tcb (o : vka_object_t) thread : sel4utils_thread_t :=
  Thread o (sched_context thread) (stack_top thread) (initial_stack_pointer thread) (stack_size thread)
    (ipc_buffer thread) (ipc_buffer_addr thread) (own_sc thread) (own_reply thread) (reply thread).
Definition with_ipc_buffer (page addr : Z) thread : sel4utils_thread_t :=
  Thread (tcb thread) (sched_context thread) (stack_top thread) (initial_stack_pointer thread) (stack_size thread)
    page addr (own_sc thread) (own_reply thread) (reply thread).
Definition with_reply (own : bool) (o : vka_object_t) thread : sel4utils_thread_t :=
  Thread (tcb thread) (sched_context thread) (stack_top thread) (initial_stack_pointer thread) (stack_size thread)
    (ipc_buffer thread) (ipc_buffer_addr thread) (own_sc thread) own o.
Definition with_sched_context (own : bool) (o : vka_object_t) thread : sel4utils_thread_t :=
  Thread (tcb thread) o (stack_top thread) (initial_stack_pointer thread) (stack_size thread)
    (ipc_buffer thread) (ipc_buffer_addr thread) own (own_reply thread) (reply thread).
Definition with_stack (top sp size : Z) thread : sel4utils_thread_t :=
  Thread (tcb thread) (sched_context thread) top sp size
    (ipc_buffer thread) (ipc_buffer_addr thread) (own_sc thread) (own_reply thread) (reply thread).

Definition configure_ipc_buffer alloc config thread : M W (Z * sel4utils_thread_t) :=
  if no_ipc_buffer config then ret (0, thread) else
  let! (addr, page) := vspace_new_ipc_buffer CONFIG_HUGE_PAGE seL4_AllRights alloc in
  let thread := with_ipc_buffer (default (ipc_buffer thread) page) addr thread in
  if addr =? 0 then ret (-1, thread) else ret (0, thread).

Definition configure_reply vka alloc config thread : M W (Z * sel4utils_thread_t) :=
  if CONFIG_KERNEL_MCS && create_reply config then
    let! (error, o) := vka_alloc_reply vka (reply thread) in
    let thread := with_reply (own_reply thread) o thread in
    if negb (error =? 0) then fail_thread vka alloc thread
    else ret (0, with_reply true o thread)
  else ret (0, with_reply (own_reply thread) (with_cptr (config_reply config) (reply thread)) thread).

(** [error] is what the earlier calls left. *)
Definition configure_sched_context vka alloc config (error : Z) thread : M W (Z * sel4utils_thread_t) :=
  let params := sched_params config in
  if create_sc params then
    if negb CONFIG_KERNEL_MCS then fail_thread vka alloc thread else
    let! (failed, o) := vka_alloc_sched_context vka (sched_context thread) in
    let thread := with_sched_context (own_sc thread) o thread in
    if negb (failed =? 0) then fail_thread vka alloc thread else
    let! error := (if CONFIG_KERNEL_MCS
      then api_sched_ctrl_configure (sched_ctrl params) (cptr o) (budget params) (period params)
        (extra_refills params) (badge params)
      else ret error) in
    if negb (error =? seL4_NoError) then fail_thread vka alloc thread
    else ret (0, with_sched_context true o thread)
  else ret (0, with_sched_context (own_sc thread)
    (with_cptr (sp_sched_context params) (sched_context thread)) thread).

Definition configure_tcb vka alloc config thread : M W (Z * sel4utils_thread_t) :=
  let! vspace_root := vspace_get_root alloc in
  let! error := api_tcb_configure (cptr (tcb thread)) (fault_endpoint config) seL4_CapNull
    (cptr (sched_context thread)) (cspace config) (cspace_root_data config) vspace_root seL4_NilData
    (ipc_buffer_addr thread) (ipc_buffer thread) in
  if negb (error =? seL4_NoError) then fail_thread vka alloc thread else ret (0, thread).

Definition configure_mcp config thread : M W (Z * sel4utils_thread_t) :=
  if mcp (sched_params config) =? 0 then ret (0, thread) else
  let! error := seL4_TCB_SetMCPriority (cptr (tcb thread)) (auth (sched_params config)) (mcp (sched_params config)) in
  if negb (error =? 0) then ret (-1, thread) else ret (0, thread).

Definition configure_priority vka alloc config thread : M W (Z * sel4utils_thread_t) :=
  if priority (sched_params config) =? 0 then ret (0, thread) else
  let! error := seL4_TCB_SetPriority (cptr (tcb thread)) (auth (sched_params config))
    (priority (sched_params config)) in
  if negb (error =? 0) then fail_thread vka alloc thread else ret (0, thread).

Definition configure_stack vka alloc config thread : M W (Z * sel4utils_thread_t) :=
  let size := if custom_stack_size config then config_stack_size config
    else default_stack_pages CONFIG_SEL4UTILS_STACK_SIZE in
  let thread := with_stack (stack_top thread) (initial_stack_pointer thread) size thread in
  if size >? 0 then
    let! top := vspace_new_sized_stack seL4_AllRights alloc size in
    let thread := with_stack top (initial_stack_pointer thread) size thread in
    if top =? 0 then fail_thread vka alloc thread
    else ret (0, with_stack top top size thread)
  else ret (0, thread).

(** On to the next part unless this one ended the configuration. *)
Definition and_then (m : M W (Z * sel4utils_thread_t)) (k : sel4utils_thread_t -> M W (Z * sel4utils_thread_t))
    : M W (Z * sel4utils_thread_t) :=
  let! (error, thread) := m in if negb (error =? 0) then ret (error, thread) else k thread.

Definition sel4utils_configure_thread_config vka alloc config : M W (Z * sel4utils_thread_t) :=
  let! (error, o) := vka_alloc_tcb vka (tcb zero_thread) in
  let thread := with_tcb o zero_thread in
  if error =? -1 then fail_thread vka alloc thread else
  and_then (configure_ipc_buffer alloc config thread) (fun thread =>
  and_then (configure_reply vka alloc config thread) (fun thread =>
  and_then (configure_sched_context vka alloc config error thread) (fun thread =>
  and_then (configure_tcb vka alloc config thread) (fun thread =>
  and_then (configure_mcp config thread) (fun thread =>
  and_then (configure_priority vka alloc config thread) (fun thread =>
  configure_stack vka alloc config thread)))))).

Definition sel4utils_configure_thread vka alloc (fault_endpoint cspace cspace_root_data : Z)
    : M W (Z * sel4utils_thread_t) :=
  let config := thread_config_fault_endpoint zero_thread_config fault_endpoint in
  let config := thread_config_cspace config cspace cspace_root_data in
  let config := thread_config_create_reply config in
  sel4utils_configure_thread_config vka alloc config.

(** *** Starting one *)

Definition sel4utils_arch_init_context (entry_point stack_top : Z) (context : seL4_UserContext)
    : Z * seL4_UserContext :=
  (0, set_rip entry_point (set_rdx 0 (set_rsp stack_top context))).

Definition sel4utils_arch_init_context_with_args (entry_point arg0 arg1 arg2 stack_top : Z)
    (context : seL4_UserContext) : Z * seL4_UserContext :=
  if negb (IS_ALIGNED stack_top STACK_CALL_ALIGNMENT_BITS) then (-1, context) else
  let stack_top_after_call := stack_top ⊟ 8 in
  let (_, context) := sel4utils_arch_init_context entry_point stack_top_after_call context in
  (0, set_rdx arg2 (set_rsi arg1 (set_rdi arg0 context))).

Definition sel4utils_arch_init_local_context (entry_point arg0 arg1 arg2 stack_top : Z)
    (context : seL4_UserContext) : Z * seL4_UserContext :=
  sel4utils_arch_init_context_with_args entry_point arg0 arg1 arg2 stack_top context.

Definition sel4utils_start_thread thread (entry_point arg0 arg1 : Z) (resume : bool) : M W Z :=
  let! tls_size := sel4runtime_get_tls_size in
  if tls_size >? (stack_size thread ⊠ PAGE_SIZE_4K) / 8 then ret (-1) else
  let tls_base := initial_stack_pointer thread ⊟ tls_size in
  let! tp := sel4runtime_write_tls_image tls_base in
  let! _ := sel4runtime_set_ipc_buffer tp (ipc_buffer_addr thread) in
  let aligned_stack_pointer := ALIGN_DOWN tls_base STACK_CALL_ALIGNMENT in
  let (error, context) := sel4utils_arch_init_local_context entry_point arg0 arg1 (ipc_buffer_addr thread)
    aligned_stack_pointer zero_context in
  if negb (error =? 0) then ret error else
  let! error := seL4_TCB_WriteRegisters (cptr (tcb thread)) false 0 context in
  if negb (error =? 0) then ret error else
  let! error := seL4_TCB_SetTLSBase (cptr (tcb thread)) tp in
  if negb (error =? 0) then ret error else
  if resume then seL4_TCB_Resume (cptr (tcb thread)) else ret 0.

(** [fault_handler] is the address of the function that waits for faults and
    prints them, which never returns. *)
Definition sel4utils_start_fault_handler vka vspace (fault_handler fault_endpoint cspace cap_data name : Z)
    : M W (Z * sel4utils_thread_t) :=
  let! (error, thread) := sel4utils_configure_thread vka vspace 0 cspace cap_data in
  if negb (error =? 0) then ret (-1, thread) else
  let! error := sel4utils_start_thread thread fault_handler name fault_endpoint true in
  ret (error, thread).

Definition sel4utils_set_sched_affinity thread (params : sched_params_t) : M W Z :=
  if CONFIG_MAX_NUM_NODES >? 1 then
    if CONFIG_KERNEL_MCS then
      api_sched_ctrl_configure (sched_ctrl params) (cptr (sched_context thread)) (budget params) (period params)
        (extra_refills params) (badge params)
    else seL4_TCB_SetAffinity (cptr (tcb thread)) (core params)
  else ret (- ENOSYS).

Definition sel4utils_get_tcb thread : Z := cptr (tcb thread).
Definition sel4utils_suspend_thread thread : M W Z := seL4_TCB_Suspend (cptr (tcb thread)).

(** *** Checkpoints *)

Record sel4utils_checkpoint_t : Type := Checkpoint {
  stack : Z; regs : seL4_UserContext; thread : Z; sp : Z
}.

(** The bytes of memory, and the thread structure at an address. *)
Context `{MA : !Malloc W} (memory : W -> Z -> Z) (set_memory : (Z -> Z) -> W -> W)
  (thread_at : Z -> W -> sel4utils_thread_t).

Definition copied (mem : Z -> Z) (dst src n x : Z) : Z :=
  if (dst <=? x) && (x <? dst + n) then mem (src + (x - dst)) else mem x.
Definition memcpy (dst src n : Z) : M W unit := modify (fun w => set_memory (copied (memory w) dst src n) w).

Definition sel4utils_get_sp (regs : seL4_UserContext) : Z := rsp regs.

(** The stack pointer a checkpoint preserves, and its registers. *)
Definition checkpoint_regs (regs : seL4_UserContext) : Z * seL4_UserContext :=
  let sp := sel4utils_get_sp regs in
  if CONFIG_SYSENTER then (sp, let regs := set_rcx (rsp regs) regs in set_rdx (rip regs) regs)
  else if CONFIG_SYSCALL then (rbx regs, regs)
  else (sp, regs).

(** The structure is returned as the function leaves it. *)
Definition sel4utils_checkpoint_thread (p : Z) (checkpoint : sel4utils_checkpoint_t) (suspend : bool)
    : M W (Z * sel4utils_checkpoint_t) :=
  let! th := gets (thread_at p) in
  let! (error, r) := seL4_TCB_ReadRegisters (cptr (tcb th)) suspend 0 (regs checkpoint) in
  if negb (error =? 0) then ret (error, Checkpoint (stack checkpoint) r (thread checkpoint) (sp checkpoint)) else
  let (sp, r) := checkpoint_regs r in
  let! th := gets (thread_at p) in
  let stack_size := stack_top th ⊟ sp in
  let! block := malloc stack_size in
  if block =? 0 then ret (-1, Checkpoint block r (thread checkpoint) sp) else
  let! _ := memcpy block sp stack_size in
  ret (error, Checkpoint block r p sp).

Definition sel4utils_free_checkpoint (checkpoint : sel4utils_checkpoint_t) : M W unit := free (stack checkpoint).

Definition sel4utils_checkpoint_restore (checkpoint : sel4utils_checkpoint_t) (free_memory resume : bool) : M W Z :=
  let! th := gets (thread_at (thread checkpoint)) in
  let stack_size := stack_top th ⊟ sp checkpoint in
  let! _ := memcpy (sp checkpoint) (stack checkpoint) stack_size in
  let! th := gets (thread_at (thread checkpoint)) in
  let! error := seL4_TCB_WriteRegisters (cptr (tcb th)) resume 0 (regs checkpoint) in
  if negb (error =? 0) then ret error else
  let! _ := (if free_memory then sel4utils_free_checkpoint checkpoint else ret tt) in
  ret error.

End threads.
