(* ===== verification/ThreadHolds.v ===== *)
(** What a thread of libsel4utils holds: the objects it took from the allocator,
    its IPC buffer and its stack.  The allocator and the address space keep the
    promises of Vka.v and VspaceStack.v, and do not touch what the client holds of
    the other; the kernel's calls on threads touch neither. *)
From S2P Require Import Prelude Cspacepath Interfaces Objects Vka VspaceTables Vspace VspaceApi VspaceStack Simple Threads.

(** ** Computations that leave a view of the state alone *)

Definition keeps {W A X : Type} (view : W -> X) (m : M W A) : Prop :=
  forall w a w', m w = Ok (a, w') -> view w' = view w.

Create HintDb keeps.

Lemma keeps_ret {W A X} (view : W -> X) (a : A) : keeps view (ret a).
Proof. intros w a' w' [= _ ->]. done. Qed.
Lemma keeps_stop {W A X} (view : W -> X) (f : fault) : keeps view (stop (A := A) f).
Proof. intros w a w' H. discriminate. Qed.
Lemma keeps_bind {W A B X} (view : W -> X) (m : M W A) (k : A -> M W B) :
  keeps view m -> (forall a, keeps view (k a)) -> keeps view (bind m k).
Proof.
  intros Hm Hk w b w'. unfold bind. destruct (m w) as [[a w1]|] eqn:H1; [|done]. cbn. intros H2.
  rewrite (Hk a _ _ _ H2). by apply (Hm w a).
Qed.
#[export] Hint Resolve keeps_ret keeps_stop keeps_bind : keeps.

Section holds.
Context {W : Type} {seL4 : SeL4Constants} `{KO : !KernelOps W} (k : vka_t W) `{VK : !VkaAccounting W k}
  (v : vspace_t W) `{VA : !VspaceAccounting W v}.

Definition objects_of (w : W) : gset Z * gset Z := (live_slots w, live_cookies w).
Definition spaces_of (w : W) : gset Z * gmap Z (Z * Z) := (held_pages w, held_ranges w).
Definition same (w0 w : W) : Prop := objects_of w = objects_of w0 /\ spaces_of w = spaces_of w0.

(** The allocator leaves the client's pages alone, and the address space the
    client's objects. *)
Class Apart : Prop := {
  apart_cspace_alloc : forall f, cspace_alloc k = Some f -> keeps spaces_of f;
  apart_make_path : forall f, cspace_make_path k = Some f -> forall s, keeps spaces_of (f s);
  apart_maybe_device : forall f, utspace_alloc_maybe_device k = Some f -> forall p t sz d, keeps spaces_of (f p t sz d);
  apart_alloc_at : forall f, utspace_alloc_at k = Some f -> forall p t sz a, keeps spaces_of (f p t sz a);
  apart_cspace_free : forall f, cspace_free k = Some f -> forall s, keeps spaces_of (f s);
  apart_utspace_free : forall f, utspace_free k = Some f -> forall t sz c, keeps spaces_of (f t sz c);
  apart_delete : forall a b c, keeps spaces_of (seL4_CNode_Delete a b c);
  apart_new_pages : forall f, new_pages v = Some f -> forall r n b, keeps objects_of (f r n b);
  apart_reserve : forall f, reserve_range_aligned v = Some f -> forall n b r c, keeps objects_of (f n b r c);
  apart_new_pages_at : forall f, new_pages_at_vaddr v = Some f -> forall a n b r d, keeps objects_of (f a n b r d);
  apart_unmap : forall f, unmap_pages v = Some f -> forall a n b, keeps objects_of (f a n b VSPACE_FREE);
  apart_free_reservation : forall f, free_reservation v = Some f -> forall r, keeps objects_of (f r);
  apart_free_by_vaddr : forall f, free_reservation_by_vaddr v = Some f -> forall a, keeps objects_of (f a)
}.

Context `{AP : !Apart}.

Lemma keeps_cspace_free (s : Z) : keeps spaces_of (vka_cspace_free (Some k) s).
Proof. unfold vka_cspace_free. destruct (cspace_free k) eqn:H; [by eapply apart_cspace_free|auto with keeps]. Qed.
Lemma keeps_make_path (s : Z) : keeps spaces_of (vka_cspace_make_path (Some k) s).
Proof. unfold vka_cspace_make_path. destruct (cspace_make_path k) eqn:H; [by eapply apart_make_path|auto with keeps]. Qed.
Lemma keeps_delete (a b c : Z) : keeps spaces_of (seL4_CNode_Delete a b c).
Proof. apply apart_delete. Qed.

Lemma keeps_alloc_object (t sz : Z) (o : vka_object_t) : keeps spaces_of (vka_alloc_object (Some k) t sz o).
Proof.
  unfold vka_alloc_object, vka_alloc_object_at, vka_alloc_object_at_maybe_dev, alloc_object_error.
  assert (Herr : forall c e, keeps spaces_of (let! _ := (if negb (c =? 0) then vka_cspace_free (Some k) c else ret tt) in
    ret (e : Z, no_object))).
  { intros c e. apply keeps_bind; [|auto with keeps]. destruct (negb (c =? 0)); [apply keeps_cspace_free|auto with keeps]. }
  destruct (negb (t <? seL4_ObjectTypeCount)); [apply Herr|].
  apply keeps_bind.
  { unfold vka_cspace_alloc. destruct (cspace_alloc k) eqn:H; [by eapply apart_cspace_alloc|auto with keeps]. }
  intros [e s]. destruct (negb (e =? 0)); [apply Herr|]. apply keeps_bind; [apply keeps_make_path|]. intros p.
  apply keeps_bind.
  { destruct (VKA_NO_PADDR =? VKA_NO_PADDR).
    - unfold vka_utspace_alloc_maybe_device.
      destruct (utspace_alloc_maybe_device k) eqn:H; [by eapply apart_maybe_device|auto with keeps].
    - unfold vka_utspace_alloc_at. destruct (utspace_alloc_at k) eqn:H; [by eapply apart_alloc_at|auto with keeps]. }
  intros [e' u]. destruct (negb (e' =? 0)); [apply Herr|auto with keeps].
Qed.

Lemma keeps_free_object (o : vka_object_t) : keeps spaces_of (vka_free_object (Some k) o).
Proof.
  unfold vka_free_object. apply keeps_bind; [apply keeps_make_path|]. intros p.
  destruct (capPtr p =? 0); [auto with keeps|]. apply keeps_bind; [apply keeps_delete|]. intros _.
  apply keeps_bind; [apply keeps_cspace_free|]. intros _. unfold vka_utspace_free.
  destruct (utspace_free k) eqn:H; [by eapply apart_utspace_free|auto with keeps].
Qed.

Lemma keeps_unmap (a n b : Z) : keeps objects_of (vspace_unmap_pages (Some v) a n b VSPACE_FREE).
Proof.
  unfold vspace_unmap_pages. destruct (n =? 0); [auto with keeps|].
  destruct (unmap_pages v) eqn:H; [by eapply apart_unmap|auto with keeps].
Qed.

Lemma keeps_free_stack (top n : Z) : keeps objects_of (vspace_free_sized_stack (Some v) top n).
Proof.
  unfold vspace_free_sized_stack. destruct (n >? 0); [|auto with keeps].
  apply keeps_bind; [apply keeps_unmap|]. intros _. unfold vspace_free_reservation_by_vaddr.
  destruct (free_reservation_by_vaddr v) eqn:H; [by eapply apart_free_by_vaddr|auto with keeps].
Qed.

Lemma keeps_new_stack (rights n : Z) : keeps objects_of (vspace_new_sized_stack rights (Some v) n).
Proof.
  unfold vspace_new_sized_stack. apply keeps_bind.
  { unfold vspace_reserve_range, vspace_reserve_range_aligned.
    destruct (reserve_range_aligned v) eqn:H; [|auto with keeps].
    destruct (_ =? 0); [auto with keeps|by eapply apart_reserve]. }
  intros [r a]. destruct (r =? 0); [auto with keeps|]. apply keeps_bind.
  { unfold vspace_new_pages_at_vaddr. destruct (new_pages_at_vaddr v) eqn:H; [|auto with keeps].
    destruct (default_vspace_new_pages_config n seL4_PageBits); [|auto with keeps]. cbn.
    unfold vspace_new_pages_at_vaddr_with_config. rewrite H. by eapply apart_new_pages_at. }
  intros e. destruct (negb (e =? 0)); [|auto with keeps]. apply keeps_bind; [|auto with keeps].
  unfold vspace_free_reservation. destruct (free_reservation v) eqn:H; [by eapply apart_free_reservation|auto with keeps].
Qed.

(** ** The objects *)

Record vka_holds (w0 : W) (objs : list vka_object_t) (w : W) : Prop := {
  vh_slots_nodup : NoDup (cptr <$> objs);
  vh_cookies_nodup : NoDup (ut <$> objs);
  vh_new : Forall (fun o => cptr o <> 0 /\ (cptr o ∉ live_slots w0) /\ (ut o ∉ live_cookies w0)) objs;
  vh_slots : live_slots w = list_to_set (cptr <$> objs) ∪ live_slots w0;
  vh_cookies : live_cookies w = list_to_set (ut <$> objs) ∪ live_cookies w0
}.

#[export] Instance vka_holds_perm (w0 : W) : Proper (Permutation ==> eq ==> iff) (vka_holds w0).
Proof.
  assert (Himp : forall l l' w, l ≡ₚ l' -> vka_holds w0 l w -> vka_holds w0 l' w).
  { intros l l' w Hl [H1 H2 H3 H4 H5]. split; [by rewrite <- Hl..|rewrite H4|rewrite H5]; f_equal;
      apply list_to_set_perm_L; by f_equiv. }
  intros l l' Hl w w' <-. split; apply Himp; [done|by symmetry].
Qed.

Lemma vka_holds_nil (w : W) : vka_holds w [] w.
Proof. split; [apply NoDup_nil_2|apply NoDup_nil_2|done|set_solver|set_solver]. Qed.

Lemma vka_holds_same (w0 w w' : W) (l : list vka_object_t) :
  objects_of w' = objects_of w -> vka_holds w0 l w -> vka_holds w0 l w'.
Proof. intros [= Hs Hc] [H1 H2 H3 H4 H5]. split; [done|done|done|congruence|congruence]. Qed.

Lemma vka_holds_none (w0 w : W) : vka_holds w0 [] w -> objects_of w = objects_of w0.
Proof. intros [_ _ _ H4 H5]. unfold objects_of. rewrite H4, H5. f_equal; set_solver. Qed.

Lemma take_object (w0 w : W) (l : list vka_object_t) (t sz : Z) (o : vka_object_t) : vka_holds w0 l w ->
  exists e o' w', vka_alloc_object (Some k) t sz o w = Ok (e, o', w') /\ spaces_of w' = spaces_of w /\
  ((e = 0 /\ cptr o' <> 0 /\ vka_holds w0 (o' :: l) w') \/ (e <> 0 /\ o' = no_object /\ vka_holds w0 l w')).
Proof.
  intros [H1 H2 H3 H4 H5]. unfold vka_alloc_object, vka_alloc_object_at.
  destruct (alloc_object_cases k t sz VKA_NO_PADDR false o w) as (e & o' & w' & H & Hcases).
  exists e, o', w'. split; [done|]. split; [by apply (keeps_alloc_object t sz o w (e, o'))|].
  destruct Hcases as [(He & _ & _ & H0 & Hs & Hs' & Hc & Hc')|(He & Ho & Hs' & Hc')].
  - left. split_and!; [done|done|]. rewrite H4 in Hs. rewrite H5 in Hc.
    split; cbn [fmap list_fmap list_to_set].
    + apply NoDup_cons. split; [|done]. intros Hin. apply Hs, elem_of_union_l. by apply elem_of_list_to_set.
    + apply NoDup_cons. split; [|done]. intros Hin. apply Hc, elem_of_union_l. by apply elem_of_list_to_set.
    + constructor; [|done]. split_and!; [done|set_solver|set_solver].
    + rewrite Hs', H4. apply (assoc_L (∪)).
    + rewrite Hc', H5. apply (assoc_L (∪)).
  - right. split_and!; [done|done|]. split; [done|done|done|congruence|congruence].
Qed.

Definition owned (b : bool) (o : vka_object_t) : list vka_object_t := if b then [o] else [].

Lemma drop_object (w0 w : W) (b : bool) (o : vka_object_t) (l : list vka_object_t) : vka_holds w0 (owned b o ++ l) w ->
  exists w', (if b then vka_free_object (Some k) o else ret tt) w = Ok (tt, w') /\ vka_holds w0 l w' /\
    spaces_of w' = spaces_of w.
Proof.
  intros H. destruct b; cbn [owned app] in H; [|by exists w].
  destruct H as [H1 H2 H3 H4 H5]. cbn [fmap list_fmap list_to_set] in *.
  apply NoDup_cons in H1 as [H1 H1']. apply NoDup_cons in H2 as [H2 H2']. apply Forall_cons in H3 as [(H0 & Hs0 & Hc0) H3].
  destruct (free_object_cases k o w H0) as (w' & Hw & Hs & Hc); [set_solver|set_solver|].
  exists w'. split_and!; [done| |by apply (keeps_free_object o w tt)].
  rewrite <- (elem_of_list_to_set (C := gset Z)) in H1, H2.
  split; [done|done|done|rewrite Hs, H4; set_solver|rewrite Hc, H5; set_solver].
Qed.

(** ** The pages *)

Definition ipc_pages (addr : Z) : gset Z := if addr =? 0 then ∅ else pages_at addr 1.

Definition space_holds (w0 : W) (ipc top n : Z) (w : W) : Prop :=
  0 <= ipc /\ ipc_pages ipc ## held_pages w0 /\
  ((top = 0 /\ held_pages w = ipc_pages ipc ∪ held_pages w0 /\ held_ranges w = held_ranges w0) \/
   (0 < n /\ 4096 * (n + 1) < top < word_size /\ stack_pages top n ## ipc_pages ipc ∪ held_pages w0 /\
    held_pages w = stack_pages top n ∪ (ipc_pages ipc ∪ held_pages w0) /\ one_more_range top n w0 w)).

Lemma space_holds_same (w0 w w' : W) (ipc top n : Z) :
  spaces_of w' = spaces_of w -> space_holds w0 ipc top n w -> space_holds w0 ipc top n w'.
Proof.
  intros [= Hp Hr] (H0 & H & Hcases). split; [done|]. split; [done|].
  destruct Hcases as [(H1 & H2 & H3)|(H1 & H2 & H3 & H4 & (r & H5 & H6 & H7))]; [left|right];
    split_and!; try done; try congruence; try lia.
  exists r. split_and!; [done|congruence|done].
Qed.

(** ** A thread *)

Definition thread_objects (t : sel4utils_thread_t) : list vka_object_t :=
  owned (negb (cptr (tcb t) =? 0)) (tcb t) ++
  owned (own_sc t && negb (cptr (sched_context t) =? 0)) (sched_context t) ++
  owned (own_reply t && negb (cptr (reply t) =? 0)) (reply t).

Definition thread_holds (w0 : W) (t : sel4utils_thread_t) (w : W) : Prop :=
  vka_holds w0 (thread_objects t) w /\ space_holds w0 (ipc_buffer_addr t) (stack_top t) (stack_size t) w.

Lemma free_buffer (w0 w : W) (ipc top n : Z) : space_holds w0 ipc top n w ->
  exists w', (if negb (ipc =? 0) then vspace_free_ipc_buffer (Some v) ipc else ret tt) w = Ok (tt, w') /\
    space_holds w0 0 top n w' /\ objects_of w' = objects_of w.
Proof.
  intros (H0 & Hd & Hcases). destruct (Z.eqb_spec ipc 0) as [->|Hne]; [by exists w|]. cbn [negb].
  assert (Hi : ipc_pages ipc = pages_at ipc 1) by (unfold ipc_pages; by rewrite (proj2 (Z.eqb_neq _ _) Hne)).
  rewrite Hi in *. unfold vspace_free_ipc_buffer.
  destruct acct_unmap as (fu & Hfu & Hu). destruct (Hu ipc 1 w) as (w' & Hw & Hr & Hp).
  { destruct Hcases as [(_ & -> & _)|(_ & _ & _ & -> & _)]; set_solver. }
  assert (He : vspace_unmap_pages (Some v) ipc 1 seL4_PageBits VSPACE_FREE w = Ok (tt, w'))
    by (unfold vspace_unmap_pages; by rewrite Hfu).
  exists w'. split_and!; [done| |by apply (keeps_unmap ipc 1 seL4_PageBits w tt)].
  split; [done|]. change (ipc_pages 0) with (∅ : gset Z). split; [set_solver|].
  destruct Hcases as [(H1 & H2 & H3)|(H1 & H2 & H3 & H4 & (r & H5 & H6 & H7))]; [left|right].
  - split_and!; [done|rewrite Hp, H2; set_solver|congruence].
  - split_and!; [done|lia|lia|set_solver|rewrite Hp, H4; set_solver|].
    exists r. split_and!; [done|congruence|done].
Qed.

Lemma free_stack (w0 w : W) (top n : Z) : space_holds w0 0 top n w ->
  exists w', (if negb (top =? 0) then vspace_free_sized_stack (Some v) top n else ret tt) w = Ok (tt, w') /\
    spaces_of w' = spaces_of w0 /\ objects_of w' = objects_of w.
Proof.
  intros (_ & _ & Hcases). change (ipc_pages 0) with (∅ : gset Z) in Hcases.
  destruct Hcases as [(-> & H2 & H3)|(H1 & H2 & H3 & H4 & H5)].
  - exists w. split_and!; [done| |done]. unfold spaces_of. rewrite H2, H3. f_equal. set_solver.
  - rewrite (proj2 (Z.eqb_neq top 0)) by lia. cbn [negb].
    destruct (free_stack_pages v top n w0 w) as (w' & Hw & Hp & Hr); [done|done|set_solver|done|].
    exists w'. split_and!; [done| |by apply (keeps_free_stack top n w tt)].
    unfold spaces_of. rewrite Hp, Hr, H4. f_equal. set_solver.
Qed.

(** Cleaning up gives back what the thread holds, and only that. *)
Lemma clean_up_leaves (w0 w : W) (t : sel4utils_thread_t) (l : list vka_object_t) :
  vka_holds w0 (thread_objects t ++ l) w -> space_holds w0 (ipc_buffer_addr t) (stack_top t) (stack_size t) w ->
  exists w', sel4utils_clean_up_thread (Some k) (Some v) t w = Ok (zero_thread, w') /\
    vka_holds w0 l w' /\ spaces_of w' = spaces_of w0.
Proof.
  intros Ho Hs. unfold sel4utils_clean_up_thread, thread_objects in *. rewrite <- !(assoc_L (++)) in Ho.
  destruct (drop_object _ _ _ _ _ Ho) as (w1 & E1 & Ho1 & Hs1). erewrite bind_ok by exact E1.
  pose proof (space_holds_same _ _ _ _ _ _ Hs1 Hs) as Hs'.
  destruct (free_buffer _ _ _ _ _ Hs') as (w2 & E2 & Hs2 & Ho2). erewrite bind_ok by exact E2.
  destruct (free_stack _ _ _ _ Hs2) as (w3 & E3 & Hs3 & Ho3). erewrite bind_ok by exact E3.
  pose proof (vka_holds_same _ _ _ _ (eq_trans Ho3 Ho2) Ho1) as Ho'.
  destruct (drop_object _ _ _ _ _ Ho') as (w4 & E4 & Ho4 & Hs4). erewrite bind_ok by exact E4.
  destruct (drop_object _ _ _ _ _ Ho4) as (w5 & E5 & Ho5 & Hs5). erewrite bind_ok by exact E5.
  exists w5. split_and!; [done|done|congruence].
Qed.

Lemma clean_up_gives_back (w0 w : W) (t : sel4utils_thread_t) : thread_holds w0 t w ->
  exists w', sel4utils_clean_up_thread (Some k) (Some v) t w = Ok (zero_thread, w') /\ same w0 w'.
Proof.
  intros [Ho Hs]. rewrite <- (app_nil_r (thread_objects t)) in Ho.
  destruct (clean_up_leaves w0 w t [] Ho Hs) as (w' & Hw & Ho' & Hs').
  exists w'. split; [done|]. split; [by apply vka_holds_none|done].
Qed.

End holds.
