(* ===== verification/ThreadToy.v ===== *)
(** An allocator and an address space side by side: each works on its own half of
    the state, so that they keep their promises and stay out of each other's
    way. *)
From S2P Require Import Prelude Cspacepath Interfaces Objects Vka VspaceTables Vspace VspaceApi VspaceStack.
From S2P Require Import Simple Threads ThreadHolds.

Section pair.
Context {U X : Type}.

Definition on_left {A : Type} (m : M U A) : M (U * X) A :=
  fun '(u, x) => res_bind (m u) (fun '(a, u') => Ok (a, (u', x))).
Definition on_right {A : Type} (m : M X A) : M (U * X) A :=
  fun '(u, x) => res_bind (m x) (fun '(a, x') => Ok (a, (u, x'))).

Lemma on_left_ok {A} (m : M U A) (u u' : U) (x : X) (a : A) : m u = Ok (a, u') -> on_left m (u, x) = Ok (a, (u', x)).
Proof. intros H. unfold on_left. by rewrite H. Qed.
Lemma on_right_ok {A} (m : M X A) (u : U) (x x' : X) (a : A) : m x = Ok (a, x') -> on_right m (u, x) = Ok (a, (u, x')).
Proof. intros H. unfold on_right. by rewrite H. Qed.

Lemma on_left_keeps {A Y} (m : M U A) (f : X -> Y) : keeps (fun w : U * X => f w.2) (on_left m).
Proof. intros [u x] a [u' x']. unfold on_left. destruct (m u) as [[]|]; [|done]. by intros [= _ _ ->]. Qed.
Lemma on_right_keeps {A Y} (m : M X A) (f : U -> Y) : keeps (fun w : U * X => f w.1) (on_right m).
Proof. intros [u x] a [u' x']. unfold on_right. destruct (m x) as [[]|]; [|done]. by intros [= _ -> _]. Qed.

#[export] Instance pair_kernel `{KO : !KernelOps U} : KernelOps (U * X) := {|
  seL4_CNode_Delete a b c := on_left (seL4_CNode_Delete a b c);
  seL4_CNode_Move a b c d e f := on_left (seL4_CNode_Move a b c d e f);
  seL4_Untyped_Retype a b c d e f g h := on_left (seL4_Untyped_Retype a b c d e f g h)
|}.

Definition left_vka (k : vka_t U) : vka_t (U * X) := {|
  cspace_alloc := on_left <$> cspace_alloc k;
  cspace_make_path := (fun f s => on_left (f s)) <$> cspace_make_path k;
  utspace_alloc := (fun f p t s => on_left (f p t s)) <$> utspace_alloc k;
  utspace_alloc_maybe_device := (fun f p t s d => on_left (f p t s d)) <$> utspace_alloc_maybe_device k;
  utspace_alloc_at := (fun f p t s a => on_left (f p t s a)) <$> utspace_alloc_at k;
  cspace_free := (fun f s => on_left (f s)) <$> cspace_free k;
  utspace_free := (fun f t s c => on_left (f t s c)) <$> utspace_free k;
  utspace_paddr := (fun f c t s => on_left (f c t s)) <$> utspace_paddr k
|}.

(** The allocator pages are given back to does not matter to the right half. *)
Definition right_choice (c : vka_choice (U * X)) : vka_choice X :=
  match c with VSPACE_FREE => VSPACE_FREE | _ => VSPACE_PRESERVE end.

Definition right_vspace (v : vspace_t X) : vspace_t (U * X) := {|
  data := data v;
  new_pages := (fun f r n b => on_right (f r n b)) <$> new_pages v;
  map_pages := None;
  new_pages_at_vaddr := (fun f a n b r d => on_right (f a n b r d)) <$> new_pages_at_vaddr v;
  map_pages_at_vaddr := None;
  deferred_rights_map_pages_at_vaddr := None;
  unmap_pages := (fun f a n b c => on_right (f a n b (right_choice c))) <$> unmap_pages v;
  tear_down := None;
  reserve_range_aligned := (fun f n b r c => on_right (f n b r c)) <$> reserve_range_aligned v;
  reserve_range_at := None;
  reserve_deferred_rights_range_at := None;
  free_reservation := (fun f r => on_right (f r)) <$> free_reservation v;
  free_reservation_by_vaddr := (fun f a => on_right (f a)) <$> free_reservation_by_vaddr v;
  get_cap := (fun f a => on_right (f a)) <$> get_cap v;
  get_root := on_right <$> get_root v;
  get_cookie := None;
  share_mem_at_vaddr := None;
  allocated_object := None
|}.

#[export] Program Instance left_accounting `{KO : !KernelOps U} (k : vka_t U) `{VK : !VkaAccounting U k} :
  VkaAccounting (U * X) (left_vka k) := {| live_slots w := live_slots w.1; live_cookies w := live_cookies w.1 |}.
Next Obligation.
  intros KO k VK. destruct acct_cspace_alloc as (f & Hf & H). cbn. rewrite Hf. eexists. split; [reflexivity|].
  intros [u x]. destruct (H u) as (e & r & u' & He & Hrest). exists e, r, (u', x). by rewrite (on_left_ok _ _ _ x _ He).
Qed.
Next Obligation.
  intros KO k VK. destruct acct_make_path as (f & Hf & H). cbn. rewrite Hf. eexists. split; [reflexivity|].
  intros s [u x]. destruct (H s u) as (p & He & Hp). exists p. by rewrite (on_left_ok _ _ _ x _ He).
Qed.
Next Obligation.
  intros KO k VK. destruct acct_maybe_device as (f & Hf & H). cbn. rewrite Hf. eexists. split; [reflexivity|].
  intros p t s d [u x]. destruct (H p t s d u) as (e & r & u' & He & Hrest). exists e, r, (u', x).
  by rewrite (on_left_ok _ _ _ x _ He).
Qed.
Next Obligation.
  intros KO k VK. destruct acct_alloc_at as (f & Hf & H). cbn. rewrite Hf. eexists. split; [reflexivity|].
  intros p t s a [u x]. destruct (H p t s a u) as (e & r & u' & He & Hrest). exists e, r, (u', x).
  by rewrite (on_left_ok _ _ _ x _ He).
Qed.
Next Obligation.
  intros KO k VK. destruct acct_cspace_free as (f & Hf & H). cbn. rewrite Hf. eexists. split; [reflexivity|].
  intros s [u x] Hs. destruct (H s u Hs) as (u' & He & Hrest). exists (u', x). by rewrite (on_left_ok _ _ _ x _ He).
Qed.
Next Obligation.
  intros KO k VK. destruct acct_utspace_free as (f & Hf & H). cbn. rewrite Hf. eexists. split; [reflexivity|].
  intros t s c [u x] Hs. destruct (H t s c u Hs) as (u' & He & Hrest). exists (u', x).
  by rewrite (on_left_ok _ _ _ x _ He).
Qed.
Next Obligation.
  intros KO k VK a b c [u x]. destruct (acct_delete a b c u) as (e & u' & He & Hrest). exists e, (u', x).
  change (seL4_CNode_Delete a b c (u, x)) with (on_left (seL4_CNode_Delete a b c) (u, x)). by rewrite (on_left_ok _ _ _ x _ He).
Qed.

#[export] Program Instance right_accounting {seL4 : SeL4Constants} (v : vspace_t X) `{VA : !VspaceAccounting X v} :
  VspaceAccounting (U * X) (right_vspace v) := {| held_pages w := held_pages w.2; held_ranges w := held_ranges w.2 |}.
Next Obligation.
  intros S v VA. destruct acct_new_pages as (f & Hf & H). cbn. rewrite Hf. eexists. split; [reflexivity|].
  intros r n [u x] Hn. destruct (H r n x Hn) as (a & x' & He & Hrest). exists a, (u, x'). by rewrite (on_right_ok _ u _ _ _ He).
Qed.
Next Obligation.
  intros S v VA. destruct acct_reserve as (f & Hf & H). cbn. rewrite Hf. eexists. split; [reflexivity|].
  intros n r c [u x] Hn. destruct (H n r c x Hn) as (h & a & x' & He & Hrest). exists h, a, (u, x').
  by rewrite (on_right_ok _ u _ _ _ He).
Qed.
Next Obligation.
  intros S v VA. destruct acct_new_pages_at as (f & Hf & H). cbn. rewrite Hf. eexists. split; [reflexivity|].
  intros a n r d s e [u x] H1 H2 H3 H4 H5. destruct (H a n r d s e x H1 H2 H3 H4 H5) as (err & x' & He & Hrest).
  exists err, (u, x'). by rewrite (on_right_ok _ u _ _ _ He).
Qed.
Next Obligation.
  intros S v VA. destruct acct_unmap as (f & Hf & H). cbn. rewrite Hf. eexists. split; [reflexivity|].
  intros a n [u x] Hp. destruct (H a n x Hp) as (x' & He & Hrest). exists (u, x').
  cbn [right_choice]. by rewrite (on_right_ok _ u _ _ _ He).
Qed.
Next Obligation.
  intros S v VA. destruct acct_free_reservation as (f & Hf & H). cbn. rewrite Hf. eexists. split; [reflexivity|].
  intros r [u x] Hr. destruct (H r x Hr) as (x' & He & Hrest). exists (u, x'). by rewrite (on_right_ok _ u _ _ _ He).
Qed.
Next Obligation.
  intros S v VA. destruct acct_free_by_vaddr as (f & Hf & H). cbn. rewrite Hf. eexists. split; [reflexivity|].
  intros a r s e [u x] H1 H2 H3. destruct (H a r s e x H1 H2 H3) as (x' & He & Hrest). exists (u, x').
  by rewrite (on_right_ok _ u _ _ _ He).
Qed.
Next Obligation.
  intros S v VA. destruct acct_get_cap as (f & Hf & H). cbn. rewrite Hf. eexists. split; [reflexivity|].
  intros a [u x]. destruct (H a x) as (c & He). exists c. by rewrite (on_right_ok _ u _ _ _ He).
Qed.
Next Obligation.
  intros S v VA. destruct acct_get_root as (f & Hf & H). cbn. rewrite Hf. eexists. split; [reflexivity|].
  intros [u x]. destruct (H x) as (c & He). exists c. by rewrite (on_right_ok _ u _ _ _ He).
Qed.

#[export] Instance pair_apart `{KO : !KernelOps U} {seL4 : SeL4Constants} (k : vka_t U) `{VK : !VkaAccounting U k}
    (v : vspace_t X) `{VA : !VspaceAccounting X v} : Apart (left_vka k) (right_vspace v).
Proof.
  split; cbn; [intros f Hf; apply fmap_Some in Hf as (g & _ & ->); intros; by apply (on_left_keeps _ (spaces_of v))..| | | | | | |].
  { intros a b c. by apply (on_left_keeps _ (spaces_of v)). }
  all: intros f Hf; apply fmap_Some in Hf as (g & _ & ->); intros; by apply (on_right_keeps _ (objects_of k)).
Qed.

End pair.

(** ** A register set, the constants of an x86_64 build, and kernels *)

Record toy_regs : Type := ToyRegs {
  t_rsp : Z; t_rip : Z; t_rbx : Z; t_rcx : Z; t_rdx : Z; t_rdi : Z; t_rsi : Z
}.

#[export] Instance toy_contexts : UserContexts := {|
  seL4_UserContext := toy_regs; zero_context := ToyRegs 0 0 0 0 0 0 0;
  rsp := t_rsp; rip := t_rip; rbx := t_rbx;
  set_rsp x r := ToyRegs x (t_rip r) (t_rbx r) (t_rcx r) (t_rdx r) (t_rdi r) (t_rsi r);
  set_rip x r := ToyRegs (t_rsp r) x (t_rbx r) (t_rcx r) (t_rdx r) (t_rdi r) (t_rsi r);
  set_rcx x r := ToyRegs (t_rsp r) (t_rip r) (t_rbx r) x (t_rdx r) (t_rdi r) (t_rsi r);
  set_rdx x r := ToyRegs (t_rsp r) (t_rip r) (t_rbx r) (t_rcx r) x (t_rdi r) (t_rsi r);
  set_rdi x r := ToyRegs (t_rsp r) (t_rip r) (t_rbx r) (t_rcx r) (t_rdx r) x (t_rsi r);
  set_rsi x r := ToyRegs (t_rsp r) (t_rip r) (t_rbx r) (t_rcx r) (t_rdx r) (t_rdi r) x
|}.

#[export] Instance toy_thread_constants : ThreadConstants := {|
  seL4_NilData := 0; seL4_CNode_CapData_new guard size := size; ENOSYS := 38;
  CONFIG_SEL4UTILS_STACK_SIZE := 65536; CONFIG_BOOT_THREAD_TIME_SLICE := 5; US_IN_MS := 1000;
  CONFIG_MAX_NUM_NODES := 1; CONFIG_SYSENTER := false; CONFIG_SYSCALL := true; CONFIG_HUGE_PAGE := false;
  STACK_CALL_ALIGNMENT_BITS := 4; STACK_CALL_ALIGNMENT := 16; IS_ALIGNED x b := x mod 2 ^ b =? 0
|}.

(** A kernel whose calls succeed, but for the errors it is given for the
    scheduling context and the controlled priority. *)
Definition toy_thread_kernel {W : Type} (sched mcp : Z) : ThreadKernel W := {|
  seL4_TCB_Configure _ _ _ _ _ _ _ _ := ret 0;
  seL4_TCB_SetSpace _ _ _ _ _ _ := ret 0;
  seL4_TCB_SetIPCBuffer _ _ _ := ret 0;
  seL4_TCB_SetTimeoutEndpoint _ _ := ret 0;
  seL4_SchedContext_Bind _ _ := ret 0;
  seL4_SchedControl_Configure _ _ _ _ _ _ := ret sched;
  seL4_TCB_SetMCPriority _ _ _ := ret mcp;
  seL4_TCB_SetPriority _ _ _ := ret 0;
  seL4_TCB_SetAffinity _ _ := ret 0;
  seL4_TCB_WriteRegisters _ _ _ _ := ret 0;
  seL4_TCB_ReadRegisters _ _ _ r := ret (0, r);
  seL4_TCB_SetTLSBase _ _ := ret 0;
  seL4_TCB_Resume _ := ret 0;
  seL4_TCB_Suspend _ := ret 0;
  sel4runtime_get_tls_size := ret 600;
  sel4runtime_write_tls_image a := ret (a + 64);
  sel4runtime_set_ipc_buffer _ _ := ret tt
|}.

(** A machine with memory and the registers of one thread. *)
Record machine : Type := Machine { m_memory : Z -> Z; m_regs : toy_regs; m_break : Z }.

#[export] Instance machine_kernel : ThreadKernel machine :=
  let K := toy_thread_kernel 0 0 in {|
  seL4_TCB_Configure := @seL4_TCB_Configure _ _ K;
  seL4_TCB_SetSpace := @seL4_TCB_SetSpace _ _ K;
  seL4_TCB_SetIPCBuffer := @seL4_TCB_SetIPCBuffer _ _ K;
  seL4_TCB_SetTimeoutEndpoint := @seL4_TCB_SetTimeoutEndpoint _ _ K;
  seL4_SchedContext_Bind := @seL4_SchedContext_Bind _ _ K;
  seL4_SchedControl_Configure := @seL4_SchedControl_Configure _ _ K;
  seL4_TCB_SetMCPriority := @seL4_TCB_SetMCPriority _ _ K;
  seL4_TCB_SetPriority := @seL4_TCB_SetPriority _ _ K;
  seL4_TCB_SetAffinity := @seL4_TCB_SetAffinity _ _ K;
  seL4_TCB_WriteRegisters _ _ _ r m := Ok (0, Machine (m_memory m) r (m_break m));
  seL4_TCB_ReadRegisters _ _ _ _ m := Ok (0, m_regs m, m);
  seL4_TCB_SetTLSBase := @seL4_TCB_SetTLSBase _ _ K;
  seL4_TCB_Resume := @seL4_TCB_Resume _ _ K;
  seL4_TCB_Suspend := @seL4_TCB_Suspend _ _ K;
  sel4runtime_get_tls_size := @sel4runtime_get_tls_size _ _ K;
  sel4runtime_write_tls_image := @sel4runtime_write_tls_image _ _ K;
  sel4runtime_set_ipc_buffer := @sel4runtime_set_ipc_buffer _ _ K
|}.

#[export] Instance machine_malloc : Malloc machine := {|
  malloc n m := Ok (m_break m, Machine (m_memory m) (m_regs m) (m_break m + n));
  free p := ret tt
|}.

Definition set_m_memory (f : Z -> Z) (m : machine) : machine := Machine f (m_regs m) (m_break m).
Definition toy_tcb : vka_object_t := VkaObject 20 21 1 11.
Definition toy_thread : sel4utils_thread_t :=
  Thread toy_tcb no_object 131072 131072 16 5 40960 false false no_object.
Definition machine_regs (t : Z) (m : machine) : seL4_UserContext := m_regs m.
Definition toy_thread_at (p : Z) (m : machine) : sel4utils_thread_t := toy_thread.
