(* ===== verification/ThreadSpec.v ===== *)
(** The configuration of a thread keeps account of what it takes: every way
    [sel4utils_configure_thread_config] can end, and what cleaning up gives back. *)
From S2P Require Import Prelude Cspacepath Interfaces Objects Vka VspaceTables Vspace VspaceReserve VspaceApi VspaceStack.
From S2P Require Import Simple SimpleSpec Threads ThreadHolds ThreadToy.

Section spec.
Context {W : Type} {seL4 : SeL4Constants} `{KO : !KernelOps W} (k : vka_t W) `{VK : !VkaAccounting W k}
  (v : vspace_t W) `{VA : !VspaceAccounting W v} `{AP : !Apart k v}
  `{BC : !BootConstants} `{TC : !ThreadConstants} `{UC : !UserContexts} `{TK : !ThreadKernel W} `{UM : !UtilsMacros}.
Notation holds := (thread_holds k v).

(** A call that returns and leaves what the client holds alone. *)
Definition quiet (m : M W Z) : Prop := forall w, exists e w', m w = Ok (e, w') /\ same k v w w'.

Class QuietKernel : Prop := {
  quiet_configure : forall a b c d e f g h, quiet (seL4_TCB_Configure a b c d e f g h);
  quiet_space : forall a b c d e f, quiet (seL4_TCB_SetSpace a b c d e f);
  quiet_buffer : forall a b c, quiet (seL4_TCB_SetIPCBuffer a b c);
  quiet_timeout : forall a b, quiet (seL4_TCB_SetTimeoutEndpoint a b);
  quiet_bind : forall a b, quiet (seL4_SchedContext_Bind a b);
  quiet_sched : forall a b c d e f, quiet (seL4_SchedControl_Configure a b c d e f);
  quiet_mcp : forall a b c, quiet (seL4_TCB_SetMCPriority a b c);
  quiet_priority : forall a b c, quiet (seL4_TCB_SetPriority a b c)
}.
Context `{QK : !QuietKernel}.

Lemma same_trans (a b c : W) : same k v a b -> same k v b c -> same k v a c.
Proof. intros [H1 H2] [H3 H4]. split; congruence. Qed.

Lemma holds_same (w0 w w' : W) (t : sel4utils_thread_t) : same k v w w' -> holds w0 t w -> holds w0 t w'.
Proof. intros [H1 H2] [Ho Hs]. split; [by eapply vka_holds_same|by eapply space_holds_same]. Qed.

Lemma quiet_return (e : Z) : quiet (ret e).
Proof. intros w. by exists e, w. Qed.

Lemma quiet_bind_call (m : M W Z) (f : Z -> M W Z) : quiet m -> (forall e, quiet (f e)) -> quiet (bind m f).
Proof.
  intros Hm Hf w. destruct (Hm w) as (e & w1 & H1 & Hs1). destruct (Hf e w1) as (e' & w2 & H2 & Hs2).
  exists e', w2. split; [by erewrite bind_ok|by eapply same_trans].
Qed.

Lemma quiet_tcb_configure (a b c d e f g h i j : Z) : quiet (api_tcb_configure a b c d e f g h i j).
Proof.
  unfold api_tcb_configure. destruct CONFIG_KERNEL_MCS; [|apply quiet_configure].
  apply quiet_bind_call; [apply quiet_space|]. intros e1.
  apply quiet_bind_call; [destruct (e1 =? 0); [apply quiet_buffer|apply quiet_return]|]. intros e2.
  apply quiet_bind_call; [destruct (e2 =? 0); [apply quiet_timeout|apply quiet_return]|]. intros e3.
  destruct (_ && _); [apply quiet_bind|apply quiet_return].
Qed.

Lemma quiet_sched_configure (a b c d e f : Z) : quiet (api_sched_ctrl_configure a b c d e f).
Proof. unfold api_sched_ctrl_configure. destruct CONFIG_KERNEL_MCS; [apply quiet_sched|apply quiet_return]. Qed.

(** ** The ways to end

    Besides success and a failure that gives everything back, there are three
    failures that do not: the IPC buffer and the controlled priority return
    without cleaning up, so that the caller's structure still holds the thread's
    objects; and a scheduling context that cannot be configured is lost, since
    it is not yet marked as the thread's own. *)

Inductive outcome (w0 : W) (config : sel4utils_thread_config_t) : Z -> sel4utils_thread_t -> W -> Prop :=
  | configured t w : holds w0 t w -> outcome w0 config 0 t w
  | gave_back w : same k v w0 w -> outcome w0 config (-1) zero_thread w
  | no_buffer t w : no_ipc_buffer config = false -> ipc_buffer_addr t = 0 -> holds w0 t w ->
      outcome w0 config (-1) t w
  | no_mcp t w : mcp (sched_params config) <> 0 -> holds w0 t w -> outcome w0 config (-1) t w
  | lost_context o w : CONFIG_KERNEL_MCS = true -> create_sc (sched_params config) = true ->
      vka_holds k w0 [o] w -> spaces_of v w = spaces_of v w0 -> outcome w0 config (-1) zero_thread w.

(** What a part of the configuration does from [w]: it goes on with a thread
    that holds what it took, or it ends. *)
Definition goes_on (w0 : W) (config : sel4utils_thread_config_t) (P : sel4utils_thread_t -> Prop)
    (m : M W (Z * sel4utils_thread_t)) (w : W) : Prop :=
  exists e t w', m w = Ok (e, t, w') /\
    ((e = 0 /\ P t /\ holds w0 t w') \/ (e <> 0 /\ outcome w0 config e t w')).

Lemma and_then_goes_on (w0 w : W) (config : sel4utils_thread_config_t) (P Q : sel4utils_thread_t -> Prop)
    (m : M W (Z * sel4utils_thread_t)) (f : sel4utils_thread_t -> M W (Z * sel4utils_thread_t)) :
  goes_on w0 config P m w -> (forall t w', P t -> holds w0 t w' -> goes_on w0 config Q (f t) w') ->
  goes_on w0 config Q (and_then m f) w.
Proof.
  intros (e & t & w1 & H1 & Hcases) Hf. unfold goes_on, and_then. erewrite bind_ok by exact H1. cbn beta iota.
  destruct Hcases as [(-> & HP & Ht)|(He & Hout)]; [by apply Hf|].
  rewrite (proj2 (Z.eqb_neq e 0)) by done. exists e, t, w1. split; [done|]. by right.
Qed.

Lemma fails (w0 w : W) (config : sel4utils_thread_config_t) (P : sel4utils_thread_t -> Prop) (t : sel4utils_thread_t) :
  holds w0 t w -> goes_on w0 config P (fail_thread (Some k) (Some v) t) w.
Proof.
  intros H. destruct (clean_up_gives_back k v w0 w t H) as (w' & Hw & Hs).
  exists (-1), zero_thread, w'. split; [unfold fail_thread; by erewrite bind_ok|]. right. split; [done|by constructor].
Qed.

(** What is still to be taken: a thread without a stack, a reply object or a
    scheduling context of its own. *)
Definition no_stack (t : sel4utils_thread_t) : Prop := stack_top t = 0.
Definition no_context (t : sel4utils_thread_t) : Prop := no_stack t /\ own_sc t = false.
Definition no_reply (t : sel4utils_thread_t) : Prop := no_context t /\ own_reply t = false.
Definition no_space (t : sel4utils_thread_t) : Prop := no_reply t /\ ipc_buffer_addr t = 0.

Lemma valid_page_bits : sel4_valid_size_bits CONFIG_HUGE_PAGE seL4_PageBits = (ret true : M W bool).
Proof. unfold sel4_valid_size_bits, sel4_page_sizes. cbn [valid_size_loop app]. by rewrite Z.ltb_irrefl, Z.eqb_refl. Qed.

Lemma new_buffer (rights : Z) (w : W) : exists a page w',
  vspace_new_ipc_buffer CONFIG_HUGE_PAGE rights (Some v) w = Ok (a, page, w') /\
  objects_of k w' = objects_of k w /\ held_ranges w' = held_ranges w /\
  ((a = 0 /\ held_pages w' = held_pages w) \/
   (0 < a /\ pages_at a 1 ## held_pages w /\ held_pages w' = pages_at a 1 ∪ held_pages w)).
Proof.
  unfold vspace_new_ipc_buffer, vspace_new_pages. destruct acct_new_pages as (fn & Hfn & Hn). rewrite Hfn.
  cbn [Z.eqb]. rewrite valid_page_bits. destruct (Hn rights 1 w) as (a & w1 & H1 & Hr & Hcases); [lia|].
  pose proof (apart_new_pages k v fn Hfn rights 1 seL4_PageBits w a w1 H1) as Hobj.
  erewrite bind_ok by (erewrite bind_ok by reflexivity; exact H1).
  destruct (Z.eqb_spec a 0) as [->|Ha]; [exists 0, None, w1|]; [by split_and!|].
  unfold vspace_get_cap. destruct acct_get_cap as (fc & -> & Hc). destruct (Hc a w1) as (c & H2).
  erewrite bind_ok by exact H2. exists a, (Some c), w1. by split_and!.
Qed.

Lemma ipc_buffer_goes_on (w0 w : W) (config : sel4utils_thread_config_t) (t : sel4utils_thread_t) :
  no_space t -> holds w0 t w -> goes_on w0 config no_reply (configure_ipc_buffer (Some v) config t) w.
Proof.
  intros [Hr Hi] [Ho Hs]. unfold goes_on, configure_ipc_buffer. destruct (no_ipc_buffer config) eqn:Hno.
  { exists 0, t, w. split; [done|]. left. by split_and!. }
  destruct (new_buffer seL4_AllRights w) as (a & page & w1 & H1 & Hobj & Hr1 & Hcases).
  erewrite bind_ok by exact H1. cbn beta iota.
  set (t1 := with_ipc_buffer (default (ipc_buffer t) page) a t).
  assert (Hrep : no_reply t1) by done.
  assert (Ho1 : vka_holds k w0 (thread_objects t1) w1) by (by eapply vka_holds_same).
  destruct Hs as (_ & _ & [(Htop & Hp & Hrs)|(Hn & Ht & _)]).
  2:{ destruct Hr as ((Hst & _) & _). unfold no_stack in Hst. lia. }
  rewrite Hi in Hp. change (ipc_pages 0) with (∅ : gset Z) in Hp.
  destruct Hcases as [(-> & Hp1)|(Ha & Hd & Hp1)].
  - exists (-1), t1, w1. split; [done|]. right. split; [done|]. apply no_buffer; [done|done|]. split; [done|].
    change (ipc_buffer_addr t1) with 0. split; [done|]. change (ipc_pages 0) with (∅ : gset Z). split; [set_solver|].
    left. split_and!; [done|congruence|congruence].
  - rewrite (proj2 (Z.eqb_neq a 0)) by lia. exists 0, t1, w1. split; [done|]. left. split_and!; [done|done|].
    split; [done|]. change (ipc_buffer_addr t1) with a. split; [lia|].
    unfold ipc_pages. rewrite (proj2 (Z.eqb_neq a 0)) by lia.
    split; [set_solver|]. left. split_and!; [done|set_solver|congruence].
Qed.

Lemma reply_goes_on (w0 w : W) (config : sel4utils_thread_config_t) (t : sel4utils_thread_t) :
  no_reply t -> holds w0 t w -> goes_on w0 config no_context (configure_reply (Some k) (Some v) config t) w.
Proof.
  intros [Hc Hr] [Ho Hs]. unfold goes_on, configure_reply, vka_alloc_reply.
  assert (Hobj : forall o, thread_objects (with_reply false o t) = thread_objects t).
  { intros o. unfold thread_objects. cbn. by rewrite Hr. }
  destruct CONFIG_KERNEL_MCS; cbn [andb]; [destruct (create_reply config)|].
  2,3: rewrite Hr; eexists 0, _, w; (split; [reflexivity|]); left; (split; [done|]); (split; [done|]);
    split; [by rewrite Hobj|done].
  destruct (take_object k v w0 w (thread_objects t) seL4_ReplyObject seL4_ReplyBits (reply t) Ho)
    as (e & o & w1 & H1 & Hsp & Hcases).
  erewrite bind_ok by exact H1. cbn beta iota. rewrite Hr.
  pose proof (space_holds_same _ _ _ _ _ _ _ Hsp Hs) as Hs1.
  destruct Hcases as [(-> & H0 & Ho1)|(He & -> & Ho1)].
  - cbn [Z.eqb negb]. eexists 0, _, w1. split; [reflexivity|]. left. split_and!; [done|done|]. split; [|done].
    revert Ho1. apply vka_holds_perm; [|done]. unfold thread_objects. cbn. rewrite Hr, (proj2 (Z.eqb_neq _ 0) H0).
    cbn. rewrite app_nil_r, (assoc_L (++)). symmetry. apply Permutation_cons_append.
  - rewrite (proj2 (Z.eqb_neq e 0)) by done. apply (fails w0 w1 config no_context). split; [by rewrite Hobj|done].
Qed.

Lemma context_goes_on (w0 w : W) (config : sel4utils_thread_config_t) (error : Z) (t : sel4utils_thread_t) :
  no_context t -> holds w0 t w ->
  goes_on w0 config no_stack (configure_sched_context (Some k) (Some v) config error t) w.
Proof.
  intros [Hst Hc] H. pose proof H as [Ho Hs]. unfold configure_sched_context.
  assert (Hobj : forall o, thread_objects (with_sched_context false o t) = thread_objects t).
  { intros o. unfold thread_objects. cbn. by rewrite Hc. }
  rewrite Hc. destruct (create_sc (sched_params config)) eqn:Hsc.
  2:{ eexists 0, _, w. split; [reflexivity|]. left. split_and!; [done|done|]. split; [by rewrite Hobj|done]. }
  unfold vka_alloc_sched_context. destruct CONFIG_KERNEL_MCS eqn:Hmcs; cbn [negb]; [|by apply fails].
  destruct (take_object k v w0 w (thread_objects t) seL4_SchedContextObject seL4_MinSchedContextBits (sched_context t) Ho)
    as (e & o & w1 & H1 & Hsp & Hcases).
  unfold goes_on. erewrite bind_ok by exact H1. cbn beta iota.
  pose proof (space_holds_same _ _ _ _ _ _ _ Hsp Hs) as Hs1.
  destruct Hcases as [(-> & H0 & Ho1)|(He & -> & Ho1)].
  2:{ rewrite (proj2 (Z.eqb_neq e 0)) by done. apply (fails w0 w1 config no_stack). split; [by rewrite Hobj|done]. }
  cbn [Z.eqb negb].
  edestruct (quiet_sched_configure (sched_ctrl (sched_params config)) (cptr o) (budget (sched_params config)))
    as (e & w2 & H2 & Hsame). erewrite bind_ok by exact H2.
  pose proof (vka_holds_same _ _ _ _ _ (proj1 Hsame) Ho1) as Ho2.
  pose proof (space_holds_same _ _ _ _ _ _ _ (proj2 Hsame) Hs1) as Hs2.
  destruct (Z.eqb_spec e seL4_NoError) as [->|He]; cbn [negb].
  - eexists 0, _, w2. split; [reflexivity|]. left. split_and!; [done|done|]. split; [|done].
    revert Ho2. apply vka_holds_perm; [|done]. unfold thread_objects. cbn. rewrite Hc, (proj2 (Z.eqb_neq _ 0) H0).
    cbn. symmetry. apply Permutation_middle.
  - set (t1 := with_sched_context false o t).
    destruct (clean_up_leaves k v w0 w2 t1 [o]) as (w3 & H3 & Ho3 & Hs3).
    { revert Ho2. apply vka_holds_perm; [|done]. unfold t1. rewrite Hobj. symmetry. apply Permutation_cons_append. }
    { exact Hs2. }
    exists (-1), zero_thread, w3. split; [unfold fail_thread; by erewrite bind_ok|]. right. split; [done|].
    by apply (lost_context w0 config o).
Qed.

Lemma tcb_goes_on (w0 w : W) (config : sel4utils_thread_config_t) (t : sel4utils_thread_t) :
  no_stack t -> holds w0 t w -> goes_on w0 config no_stack (configure_tcb (Some k) (Some v) config t) w.
Proof.
  intros Hst H. unfold goes_on, configure_tcb, vspace_get_root. destruct acct_get_root as (fr & -> & Hr).
  destruct (Hr w) as (c & H1). erewrite bind_ok by exact H1.
  edestruct quiet_tcb_configure as (e & w2 & H2 & Hsame). erewrite bind_ok by exact H2.
  pose proof (holds_same _ _ _ _ Hsame H) as H'.
  destruct (Z.eqb_spec e seL4_NoError) as [->|He]; cbn [negb]; [|by apply fails].
  exists 0, t, w2. split; [done|]. left. by split_and!.
Qed.

Lemma mcp_goes_on (w0 w : W) (config : sel4utils_thread_config_t) (t : sel4utils_thread_t) :
  no_stack t -> holds w0 t w -> goes_on w0 config no_stack (configure_mcp config t) w.
Proof.
  intros Hst H. unfold goes_on, configure_mcp. destruct (Z.eqb_spec (mcp (sched_params config)) 0) as [H0|H0].
  { exists 0, t, w. split; [done|]. left. by split_and!. }
  edestruct quiet_mcp as (e & w2 & H2 & Hsame). erewrite bind_ok by exact H2.
  pose proof (holds_same _ _ _ _ Hsame H) as H'.
  destruct (Z.eqb_spec e 0) as [->|He]; cbn [negb].
  - exists 0, t, w2. split; [done|]. left. by split_and!.
  - exists (-1), t, w2. split; [done|]. right. split; [done|]. by apply no_mcp.
Qed.

Lemma priority_goes_on (w0 w : W) (config : sel4utils_thread_config_t) (t : sel4utils_thread_t) :
  no_stack t -> holds w0 t w -> goes_on w0 config no_stack (configure_priority (Some k) (Some v) config t) w.
Proof.
  intros Hst H. unfold goes_on, configure_priority.
  destruct (Z.eqb_spec (priority (sched_params config)) 0) as [H0|H0].
  { exists 0, t, w. split; [done|]. left. by split_and!. }
  edestruct quiet_priority as (e & w2 & H2 & Hsame). erewrite bind_ok by exact H2.
  pose proof (holds_same _ _ _ _ Hsame H) as H'.
  destruct (Z.eqb_spec e 0) as [->|He]; cbn [negb]; [|by apply fails].
  exists 0, t, w2. split; [done|]. left. by split_and!.
Qed.

Definition stack_pages_of (config : sel4utils_thread_config_t) : Z :=
  if custom_stack_size config then config_stack_size config else default_stack_pages CONFIG_SEL4UTILS_STACK_SIZE.

Lemma stack_goes_on (w0 w : W) (config : sel4utils_thread_config_t) (t : sel4utils_thread_t) :
  0 <= stack_pages_of config -> 4096 * (stack_pages_of config + 1) < word_size ->
  no_stack t -> holds w0 t w ->
  goes_on w0 config (fun _ => True) (configure_stack (Some k) (Some v) config t) w.
Proof.
  intros Hn Hb Hst [Ho Hs]. unfold goes_on, configure_stack. fold (stack_pages_of config).
  set (n := stack_pages_of config) in *. rewrite Hst.
  destruct Hs as (Hi & Hd & [(_ & Hp & Hr)|(H1 & Ht & _)]); [|unfold no_stack in Hst; lia].
  destruct (Z.gtb_spec n 0) as [H0|H0].
  2:{ eexists 0, _, w. split; [reflexivity|]. left. split_and!; [done|done|]. split; [done|].
      split; [done|]. split; [done|]. by left. }
  destruct (new_stack_cases v seL4_AllRights n w Hn Hb) as (top & w1 & H1 & Hcases). erewrite bind_ok by exact H1.
  pose proof (keeps_new_stack k v seL4_AllRights n w top w1 H1) as Hobj.
  assert (Ho1 : vka_holds k w0 (thread_objects t) w1) by (by eapply vka_holds_same).
  destruct Hcases as [(-> & Hp1 & Hr1)|(Hn0 & Htop & Hd1 & _ & Hp1 & Hr1)].
  - cbn [Z.eqb]. apply (fails w0 w1 config (fun _ => True)). split; [done|]. split; [done|]. split; [done|].
    left. split_and!; [done|by rewrite Hp1|by rewrite Hr1].
  - rewrite (proj2 (Z.eqb_neq top 0)) by lia. eexists 0, _, w1. split; [reflexivity|]. left. split_and!; [done|done|].
    split; [done|]. split; [done|]. split; [done|]. right. split_and!; [done|apply Htop|apply Htop| | |].
    + rewrite Hp in Hd1. exact Hd1.
    + rewrite Hp in Hp1. exact Hp1.
    + destruct Hr1 as (r & Hr2 & Hr3 & Hr4). rewrite Hr in Hr2, Hr3, Hr4. exists r. by split_and!.
Qed.

(** C11: whatever fails, [sel4utils_configure_thread_config] returns 0 or -1 and
    ends in one of five ways: the thread holds exactly the objects, the buffer
    and the stack that were taken; everything taken was given back and the
    structure is cleared; or one of the three failures that keep something.
    Unless a scheduling context was lost, [sel4utils_clean_up_thread] on the
    structure it leaves gives back all that was taken. *)
Theorem configure_thread_accounts (config : sel4utils_thread_config_t) (w : W) :
  0 <= stack_pages_of config -> 4096 * (stack_pages_of config + 1) < word_size ->
  exists e t w', sel4utils_configure_thread_config (Some k) (Some v) config w = Ok (e, t, w') /\
    outcome w config e t w' /\
    (holds w t w' -> exists w'', sel4utils_clean_up_thread (Some k) (Some v) t w' = Ok (zero_thread, w'') /\ same k v w w'').
Proof.
  intros Hn Hb. unfold sel4utils_configure_thread_config.
  destruct (take_object k v w w [] seL4_TCBObject seL4_TCBBits no_object (vka_holds_nil k v w))
    as (e & o & w1 & H1 & Hsp & Hcases). unfold vka_alloc_tcb. erewrite bind_ok by exact H1. cbn beta iota.
  set (t := with_tcb o zero_thread).
  assert (Hsp0 : space_holds v w 0 0 0 w).
  { split; [done|]. change (ipc_pages 0) with (∅ : gset Z). split; [set_solver|]. left. split_and!; [done|set_solver|done]. }
  assert (Ht : holds w t w1).
  { split; [|by eapply space_holds_same]. unfold thread_objects. cbn.
    destruct Hcases as [(_ & H0 & Ho)|(_ & -> & Ho)]; [|done]. by rewrite (proj2 (Z.eqb_neq _ 0) H0). }
  assert (Hend : forall m, goes_on w config (fun _ => True) m w1 ->
    exists e t w', m w1 = Ok (e, t, w') /\ outcome w config e t w' /\
    (holds w t w' -> exists w'', sel4utils_clean_up_thread (Some k) (Some v) t w' = Ok (zero_thread, w'') /\ same k v w w'')).
  { intros m (e' & t' & w' & Hm & Hout). exists e', t', w'. split; [done|].
    split; [|by apply clean_up_gives_back]. destruct Hout as [(-> & _ & Hh)|[_ Hout]]; [by apply configured|done]. }
  apply Hend. destruct (e =? -1); [by apply fails|].
  apply (and_then_goes_on w w1 config no_reply); [by apply ipc_buffer_goes_on|]. clear dependent w1. intros t1 w1 Hp1 Hw1.
  apply (and_then_goes_on w w1 config no_context); [by apply reply_goes_on|]. intros t2 w2 Hp2 Hw2.
  apply (and_then_goes_on w w2 config no_stack); [by apply context_goes_on|]. intros t3 w3 Hp3 Hw3.
  apply (and_then_goes_on w w3 config no_stack); [by apply tcb_goes_on|]. intros t4 w4 Hp4 Hw4.
  apply (and_then_goes_on w w4 config no_stack); [by apply mcp_goes_on|]. intros t5 w5 Hp5 Hw5.
  apply (and_then_goes_on w w5 config no_stack); [by apply priority_goes_on|]. intros t6 w6 Hp6 Hw6.
  by apply stack_goes_on.
Qed.

End spec.

(** ** At concrete configurations *)

Abbreviation toy_system := (ledger * spaces)%type.
Definition toy_vka : vka_t toy_system := left_vka ledger_vka.
Definition toy_vspace : vspace_t toy_system := right_vspace spaces_vspace.
Definition toy_start : toy_system := (Ledger {[5]} {[7]}, Spaces {[4096]} {[1 := (0, 8192)]} 65536).

Lemma toy_kernel_quiet {seL4 : SeL4Constants} `{VA : !VspaceAccounting toy_system toy_vspace} (sched mcp : Z) :
  QuietKernel toy_vka toy_vspace (TK := toy_thread_kernel sched mcp).
Proof.
  assert (H : forall e, quiet toy_vka toy_vspace (ret e)) by (intros e w; by exists e, w).
  split; intros; apply H.
Qed.

(** A thread with a stack of two pages is configured, and cleaning up gives
    everything back. *)
Definition toy_config : sel4utils_thread_config_t :=
  thread_config_stack_size (thread_config_cspace zero_thread_config 2 0) 2.
Definition toy_run (sched mcp : Z) {seL4 : SeL4Constants} (config : sel4utils_thread_config_t) :=
  sel4utils_configure_thread_config (TK := toy_thread_kernel sched mcp) (Some toy_vka) (Some toy_vspace) config toy_start.

Lemma configure_thread_accounts_witness :
  exists t w', toy_run 0 0 toy_config = Ok (0, t, w') /\ stack_top t = 81920 /\
    exists w'', sel4utils_clean_up_thread (Some toy_vka) (Some toy_vspace) t w' = Ok (zero_thread, w'') /\
      same toy_vka toy_vspace toy_start w''.
Proof.
  assert (QK : QuietKernel toy_vka toy_vspace (TK := toy_thread_kernel 0 0)) by apply toy_kernel_quiet.
  destruct (configure_thread_accounts toy_vka toy_vspace (TK := toy_thread_kernel 0 0) toy_config toy_start)
    as (e & t & w' & H & Hout & Hclean); [vm_compute; discriminate|reflexivity|].
  assert (He : e = 0 /\ stack_top t = 81920).
  { pose proof H as H'. vm_compute in H'. injection H' as <- <- _. done. }
  destruct He as [-> Ht]. exists t, w'. split; [exact H|]. split; [done|]. apply Hclean. by inversion Hout.
Defined.

(** The object types and sizes of a mixed-criticality kernel. *)
Definition mcs_constants : SeL4Constants := {|
  seL4_UntypedObject := 0; seL4_TCBObject := 1; seL4_EndpointObject := 2;
  seL4_NotificationObject := 3; seL4_CapTableObject := 4;
  seL4_SchedContextObject := 5; seL4_ReplyObject := 6;
  seL4_X86_PDPTObject := 7; seL4_X64_PML4Object := 8; seL4_X64_HugePageObject := 9;
  seL4_X86_4K := 10; seL4_X86_LargePageObject := 11; seL4_X86_PageTableObject := 12;
  seL4_X86_PageDirectoryObject := 13; seL4_X86_IOPageTableObject := 14;
  seL4_ObjectTypeCount := 15;
  seL4_SlotBits := 5; seL4_TCBBits := 11; seL4_EndpointBits := 4; seL4_NotificationBits := 6;
  seL4_ReplyBits := 5; seL4_MinSchedContextBits := 7;
  seL4_PageBits := 12; seL4_LargePageBits := 21; seL4_HugePageBits := 30;
  seL4_PageTableBits := 12; seL4_PageDirBits := 12; seL4_PDPTBits := 12; seL4_PML4Bits := 12;
  seL4_IOPageTableBits := 12;
  CONFIG_KERNEL_MCS := true
|}.

(** How a configuration ended, with the slots that are in use after it. *)
Definition toy_end (r : res (Z * sel4utils_thread_t * toy_system)) : option (Z * sel4utils_thread_t * nat) :=
  match r with Ok (e, t, (l, _)) => Some (e, t, size (l_slots l)) | Fault _ => None end.

(** The kernel refuses to configure the scheduling context: one slot is in use
    at the start, two are after the failure, and the structure is cleared. *)
Example scheduling_context_lost :
  let config := with_sched_params (fun p => SchedParams 0 0 0 true 9 5000 5000 0 0 0 0) toy_config in
  size (l_slots toy_start.1) = 1%nat /\
  toy_end (toy_run 10 0 (seL4 := mcs_constants) config) = Some (-1, zero_thread, 2%nat).
Proof. by vm_compute. Qed.

(** The kernel refuses the controlled priority: the thread keeps its TCB, and
    its slot and its buffer are left in use. *)
Example refused_mcp_keeps_thread :
  match toy_end (toy_run 0 3 (thread_config_mcp toy_config 100)) with
  | Some (e, t, slots) => e = -1 /\ cptr (tcb t) <> 0 /\ ipc_buffer_addr t <> 0 /\ slots = 2%nat
  | None => False
  end.
Proof. vm_compute. by split_and!. Qed.
