(* ===== verification/ThreadRun.v ===== *)
(** Starting a thread, and checkpoints of one: where the stack pointer of a new
    thread lies, and that restoring a checkpoint brings the stack and the
    registers back. *)
From S2P Require Import Prelude Cspacepath Interfaces Objects Vka VspaceTables Vspace VspaceReserve VspaceApi VspaceStack.
From S2P Require Import Simple SimpleSpec Threads ThreadToy.

(** What libutils states of the alignment of a stack. *)
Class StackLaws `{TC : !ThreadConstants} : Prop := {
  alignment_bits : 3 <= STACK_CALL_ALIGNMENT_BITS < 8;
  alignment_pow : STACK_CALL_ALIGNMENT = 2 ^ STACK_CALL_ALIGNMENT_BITS;
  IS_ALIGNED_law : forall x b, is_word x -> 0 <= b < 64 -> IS_ALIGNED x b = (x mod 2 ^ b =? 0)
}.

Section start.
Context {W : Type} {seL4 : SeL4Constants} `{BC : !BootConstants} `{TC : !ThreadConstants} `{SL : !StackLaws}
  `{UC : !UserContexts} `{TK : !ThreadKernel W} `{UM : !UtilsMacros} `{UL : !UtilsLaws}.

(** The registers a thread starts with. *)
Definition start_context (entry_point arg0 arg1 arg2 sp : Z) : seL4_UserContext :=
  set_rdx arg2 (set_rsi arg1 (set_rdi arg0 (set_rip entry_point (set_rdx 0 (set_rsp sp zero_context))))).

Lemma init_local_context (entry_point arg0 arg1 arg2 a : Z) : is_word a -> a mod 2 ^ STACK_CALL_ALIGNMENT_BITS = 0 ->
  8 <= a ->
  sel4utils_arch_init_local_context entry_point arg0 arg1 arg2 a zero_context =
  (0, start_context entry_point arg0 arg1 arg2 (a - 8)).
Proof.
  intros Ha Hm H8. pose proof alignment_bits. unfold sel4utils_arch_init_local_context, sel4utils_arch_init_context_with_args.
  rewrite IS_ALIGNED_law, Hm by (done || lia). cbn. by rewrite (wrap_small (a - 8)) by (unfold is_word in *; lia).
Qed.

(** C30: a thread with a stack of [n] pages either is not started, when its
    thread-local storage would use more than an eighth of the stack, or it
    starts at the entry point with the stack pointer eight bytes below an
    aligned address [a], as after a call; [a] is the highest that leaves the
    storage above it, and more than three quarters of the stack are below it. *)
Theorem start_thread_stack (t : sel4utils_thread_t) (n tls entry_point arg0 arg1 : Z) (resume : bool) (w w1 : W) :
  stack_size t = n -> initial_stack_pointer t = stack_top t -> 0 < n -> 4096 * (n + 1) < stack_top t < word_size ->
  sel4runtime_get_tls_size w = Ok (tls, w1) -> 0 <= tls ->
  (512 * n < tls -> sel4utils_start_thread t entry_point arg0 arg1 resume w = Ok (-1, w1)) /\
  (tls <= 512 * n -> exists a,
    a mod STACK_CALL_ALIGNMENT = 0 /\ a <= stack_top t - tls < a + STACK_CALL_ALIGNMENT /\
    stack_top t - 4096 * n + 3072 * n < a - 8 /\
    sel4utils_start_thread t entry_point arg0 arg1 resume w =
      (let! tp := sel4runtime_write_tls_image (stack_top t - tls) in
       let! _ := sel4runtime_set_ipc_buffer tp (ipc_buffer_addr t) in
       let! error := seL4_TCB_WriteRegisters (cptr (tcb t)) false 0
         (start_context entry_point arg0 arg1 (ipc_buffer_addr t) (a - 8)) in
       if negb (error =? 0) then ret error else
       let! error := seL4_TCB_SetTLSBase (cptr (tcb t)) tp in
       if negb (error =? 0) then ret error else
       if resume then seL4_TCB_Resume (cptr (tcb t)) else ret 0) w1).
Proof.
  intros Hsize Hinit Hn Htop Htls H0. unfold sel4utils_start_thread. erewrite bind_ok by exact Htls.
  rewrite Hsize, Hinit. change PAGE_SIZE_4K with 4096. rewrite (wrap_small (n * 4096)) by (unfold is_word; lia).
  replace (n * 4096 / 8) with (512 * n) by (replace (n * 4096) with (512 * n * 8) by lia; by rewrite Z.div_mul).
  split; intros Hle.
  { by rewrite (proj2 (Z.gtb_lt tls (512 * n))). }
  pose proof alignment_bits as Hb. rewrite alignment_pow. set (b := STACK_CALL_ALIGNMENT_BITS) in *.
  assert (Hpow : 8 <= 2 ^ b <= 128).
  { split; [change 8 with (2 ^ 3)|change 128 with (2 ^ 7)]; apply Z.pow_le_mono_r; lia. }
  rewrite Z.gtb_ltb, (proj2 (Z.ltb_ge (512 * n) tls)) by done.
  rewrite (wrap_small (stack_top t - tls)) by (unfold is_word; lia).
  set (base := stack_top t - tls) in *.
  assert (Hbase : is_word base) by (unfold is_word; lia).
  rewrite ALIGN_DOWN_law by (done || lia).
  pose proof (Z.mod_pos_bound base (2 ^ b) ltac:(lia)) as Hmod. pose proof (Z.div_mod base (2 ^ b) ltac:(lia)) as Hdm.
  set (a := base / 2 ^ b * 2 ^ b) in *.
  assert (Ha : a <= base < a + 2 ^ b) by lia.
  assert (Ham : a mod 2 ^ b = 0) by (unfold a; apply Z.mod_mul; lia).
  exists a. split; [done|]. split; [done|]. split; [lia|].
  rewrite init_local_context by (done || unfold is_word in *; lia). done.
Qed.

End start.

(** ** Checkpoints *)

Section checkpoints.
Context {W : Type} `{UC : !UserContexts} `{TK : !ThreadKernel W} `{TC : !ThreadConstants} `{MA : !Malloc W}
  (memory : W -> Z -> Z) (set_memory : (Z -> Z) -> W -> W) (thread_at : Z -> W -> sel4utils_thread_t)
  (registers : Z -> W -> seL4_UserContext).

(** The same bytes and the same thread structures. *)
Definition undisturbed (w w' : W) : Prop :=
  (forall x, memory w' x = memory w x) /\ (forall p, thread_at p w' = thread_at p w).

(** Memory is what was stored; thread structures lie apart from stacks and
    their copies; the kernel's calls read and write the registers of a thread;
    they and the C library's allocator return and change nothing else. *)
Class CheckpointLaws : Prop := {
  memory_set : forall f w x, memory (set_memory f w) x = f x;
  thread_set : forall f w p, thread_at p (set_memory f w) = thread_at p w;
  read_registers_law : forall t suspend flags r0 w, exists e r w',
    seL4_TCB_ReadRegisters t suspend flags r0 w = Ok (e, r, w') /\ undisturbed w w' /\ (e = 0 -> r = registers t w);
  write_registers_law : forall t resume flags r w, exists e w',
    seL4_TCB_WriteRegisters t resume flags r w = Ok (e, w') /\ undisturbed w w' /\ (e = 0 -> registers t w' = r);
  checkpoint_malloc_law : forall n w, exists p w', malloc n w = Ok (p, w') /\ undisturbed w w';
  checkpoint_free_law : forall p w, exists w', free p w = Ok (tt, w') /\ undisturbed w w' /\
    forall t, registers t w' = registers t w
}.
Context `{CL : !CheckpointLaws}.
Notation checkpoint_thread := (sel4utils_checkpoint_thread memory set_memory thread_at).
Notation checkpoint_restore := (sel4utils_checkpoint_restore memory set_memory thread_at).

Lemma undisturbed_trans (a b c : W) : undisturbed a b -> undisturbed b c -> undisturbed a c.
Proof. intros [H1 H2] [H3 H4]. split; intros x; [by rewrite H3|by rewrite H4]. Qed.

Lemma memcpy_ok (dst src n : Z) (w : W) : exists w', memcpy memory set_memory dst src n w = Ok (tt, w') /\
  (forall x, memory w' x = copied (memory w) dst src n x) /\ (forall p, thread_at p w' = thread_at p w).
Proof.
  eexists. split; [reflexivity|]. split; [intros x; apply memory_set|intros p; apply thread_set].
Qed.

(** C15: [sel4utils_checkpoint_thread] returns.  If it succeeds, it changed
    nothing but its copy, and from any later state in which that copy is intact
    [sel4utils_checkpoint_restore] brings back every byte of the stack from the
    preserved stack pointer up and changes nothing below or above; if it
    succeeds the thread has the registers that were read. *)
Theorem checkpoint_restores (p : Z) (c : sel4utils_checkpoint_t) (suspend : bool) (w : W) :
  exists e c' w', checkpoint_thread p c suspend w = Ok (e, c', w') /\
  (e <> 0 -> undisturbed w w') /\
  (e = 0 ->
   let top := stack_top (thread_at p w) in
   let inside x := sp c' <= x < top in
   0 <= sp c' <= top -> top < word_size ->
   (stack c' + (top - sp c') <= sp c' \/ top <= stack c') ->
   (forall x, inside x -> memory w' x = memory w x) /\
   (sp c', regs c') = checkpoint_regs (registers (cptr (tcb (thread_at p w))) w) /\
   forall (w2 : W) (free_memory resume : bool),
     (forall i, 0 <= i < top - sp c' -> memory w2 (stack c' + i) = memory w' (stack c' + i)) ->
     thread_at p w2 = thread_at p w ->
     exists err w3, checkpoint_restore c' free_memory resume w2 = Ok (err, w3) /\
       (forall x, inside x -> memory w3 x = memory w x) /\
       (forall x, ~ inside x -> memory w3 x = memory w2 x) /\
       (err = 0 -> registers (cptr (tcb (thread_at p w))) w3 = regs c')).
Proof.
  unfold sel4utils_checkpoint_thread.
  destruct (read_registers_law (cptr (tcb (thread_at p w))) suspend 0 (regs c) w) as (e & r & w1 & H1 & Hu1 & Hreg).
  unfold bind at 1. cbn [gets res_bind]. erewrite bind_ok by exact H1. cbn beta iota.
  destruct (Z.eqb_spec e 0) as [->|He]; cbn [negb].
  2:{ do 3 eexists. split; [reflexivity|]. by split. }
  destruct (checkpoint_regs r) as [s r'] eqn:Hr. unfold bind at 1. cbn [gets res_bind].
  rewrite (proj2 Hu1). set (th := thread_at p w) in *.
  destruct (checkpoint_malloc_law (stack_top th ⊟ s) w1) as (block & w2 & H2 & Hu2). erewrite bind_ok by exact H2.
  pose proof (undisturbed_trans _ _ _ Hu1 Hu2) as Hu.
  destruct (Z.eqb_spec block 0) as [->|Hb]. { do 3 eexists. split; [reflexivity|]. by split. }
  destruct (memcpy_ok block s (stack_top th ⊟ s) w2) as (w3 & H3 & Hmem & Hth). erewrite bind_ok by exact H3.
  exists 0, (Checkpoint block r' p s), w3. split; [done|]. split; [done|]. intros _ Hs Htop Hdisj.
  cbn [Threads.sp Threads.stack Threads.regs] in *. set (top := stack_top th) in *.
  rewrite (wrap_small (top - s)) in Hmem by (unfold is_word; lia).
  split; [|split]; [| |intros w4 fm resume Hcopy Hth4].
  - intros x Hx. rewrite Hmem. unfold copied. destruct (Z.leb_spec block x), (Z.ltb_spec x (block + (top - s)));
      cbn [andb]; try apply Hu. lia.
  - by rewrite <- Hreg.
  - unfold sel4utils_checkpoint_restore. cbn [Threads.sp Threads.stack Threads.regs Threads.thread].
    unfold bind at 1. cbn [gets res_bind]. rewrite Hth4. fold th. fold top.
    rewrite (wrap_small (top - s)) by (unfold is_word; lia).
    destruct (memcpy_ok s block (top - s) w4) as (w5 & H5 & Hmem5 & Hth5). erewrite bind_ok by exact H5.
    unfold bind at 1. cbn [gets res_bind]. rewrite Hth5, Hth4. fold th.
    destruct (write_registers_law (cptr (tcb th)) resume 0 r' w5) as (err & w6 & H6 & Hu6 & Hreg6). erewrite bind_ok by exact H6.
    assert (Hend : exists w7, (if negb (err =? 0) then ret err else
      let! _ := (if fm then sel4utils_free_checkpoint (Checkpoint block r' p s) else ret tt) in ret err) w6 = Ok (err, w7)
      /\ undisturbed w6 w7 /\ (forall t, registers t w7 = registers t w6)).
    { destruct (negb (err =? 0)); [by exists w6|]. destruct fm; [|by exists w6].
      destruct (checkpoint_free_law block w6) as (w7 & H7 & Hu7 & Hr7). exists w7. split; [|done].
      unfold sel4utils_free_checkpoint. cbn [Threads.stack]. by erewrite bind_ok. }
    destruct Hend as (w7 & H7 & Hu7 & Hr7). exists err, w7. split; [exact H7|].
    pose proof (undisturbed_trans _ _ _ Hu6 Hu7) as Hu'.
    split; [|split; [|intros He; rewrite Hr7; by apply Hreg6]]; intros x Hx; rewrite (proj1 Hu'), Hmem5; unfold copied;
      destruct (Z.leb_spec s x), (Z.ltb_spec x (s + (top - s))); cbn [andb]; try lia; try done.
    rewrite Hcopy, Hmem by lia. unfold copied.
    rewrite (proj2 (Z.leb_le block _)), (proj2 (Z.ltb_lt _ (block + _))) by lia. cbn [andb].
    replace (s + (block + (x - s) - block)) with x by lia. apply Hu.
Qed.

End checkpoints.

#[export] Instance toy_stack_laws : StackLaws.
Proof. split; [cbn; lia|done|done]. Qed.

Lemma start_thread_stack_witness :
  let m := Machine (fun x => x) (ToyRegs 0 0 0 0 0 0 0) 0 in
  exists a, a mod 16 = 0 /\ a <= 131072 - 600 < a + 16 /\ 131072 - 4096 * 16 + 3072 * 16 < a - 8 /\
    sel4utils_start_thread toy_thread 4198400 1 2 true m =
    Ok (0, Machine (m_memory m) (start_context 4198400 1 2 40960 (a - 8)) 0).
Proof.
  intros m. destruct (start_thread_stack toy_thread 16 600 4198400 1 2 true m m) as [_ H];
    [done|done|lia|cbn; unfold word_size; lia|done|lia|].
  destruct H as (a & H1 & H2 & H3 & H4); [lia|]. by exists a.
Defined.

Lemma checkpoint_restores_witness :
  let m := Machine (fun x => x) (ToyRegs 5 6 131000 0 0 0 0) 8192 in
  let run := sel4utils_checkpoint_thread m_memory set_m_memory toy_thread_at in
  exists c m1, run 1 (Checkpoint 0 zero_context 0 0) true m = Ok (0, c, m1) /\
    forall b : Z -> Z, (forall x, 8192 <= x < 8264 -> b x = m_memory m1 x) ->
    exists e m3, sel4utils_checkpoint_restore m_memory set_m_memory toy_thread_at c true true
        (Machine b (ToyRegs 0 0 0 0 0 0 0) 0) = Ok (e, m3) /\
      (forall x, 131000 <= x < 131072 -> m_memory m3 x = x) /\ (e = 0 -> m_regs m3 = ToyRegs 5 6 131000 0 0 0 0).
Proof.
  intros m run.
  assert (CL : CheckpointLaws m_memory set_m_memory toy_thread_at machine_regs).
  { split; intros; cbn; try done; repeat eexists; done. }
  destruct (checkpoint_restores m_memory set_m_memory toy_thread_at machine_regs 1
    (Checkpoint 0 zero_context 0 0) true m) as (e & c & m1 & Hrun & _ & H).
  assert (Ho : match run 1 (Checkpoint 0 zero_context 0 0) true m with
    | Ok (e, c, _) => (e, sp c, stack c, regs c) = (0, 131000, 8192, ToyRegs 5 6 131000 0 0 0 0)
    | Fault _ => False end) by (vm_compute; reflexivity).
  change (run 1 (Checkpoint 0 zero_context 0 0) true m = Ok (e, c, m1)) in Hrun. rewrite Hrun in Ho.
  injection Ho as -> Hsp Hst Hregs. exists c, m1. split; [exact Hrun|]. intros b Hb.
  destruct (H eq_refl) as (_ & _ & Hall); [rewrite Hsp; change (stack_top _) with 131072; lia|change (stack_top _) with 131072; unfold word_size; lia|rewrite Hsp, Hst; left; change (stack_top _) with 131072; lia|].
  destruct (Hall (Machine b (ToyRegs 0 0 0 0 0 0 0) 0) true true) as (err & m3 & H3 & Hin & _ & Hr).
  { intros i Hi. rewrite Hst in *. rewrite Hsp in Hi. apply Hb. cbn in Hi. lia. }
  { done. }
  exists err, m3. split; [exact H3|]. split; [intros x Hx; apply Hin; rewrite Hsp; exact Hx|].
  rewrite <- Hregs. exact Hr.
Defined.
