(* ===== verification/Slab.v ===== *)
(** libsel4utils/src/slab.c: an allocator that makes a number of objects of each
    type when it starts, next to each other in one untyped, and hands them out
    before it asks the allocator it was built on.

    [delegate] is that allocator; the C library's [calloc] and [qsort] are
    parameters.  The messages are left out. *)
From S2P Require Import Prelude Cspacepath Interfaces Objects Vka.

(** [objects] is [None] while the pointer is null. *)
Record slab_t : Type := Slab { n : Z; next : Z; objects : option (list vka_object_t) }.
Record slab_data_t : Type := SlabData { slabs : list slab_t; untyped : vka_object_t }.
Record object_desc_t : Type := ObjectDesc { desc_size_bits : Z; desc_type : Z }.

Definition sizeof_slab_data_t `{SeL4Constants} : Z := 40 + 24 * seL4_ObjectTypeCount.
Definition sizeof_vka_object_t : Z := 32.

Definition compare_object_descs (a b : object_desc_t) : Z := to_int (desc_size_bits b - desc_size_bits a).

Section slab.
Context {W : Type} {seL4 : SeL4Constants} `{KO : !KernelOps W} (delegate : option (vka_t W))
  (calloc : Z -> Z -> M W Z) (qsort : (object_desc_t -> object_desc_t -> Z) -> list object_desc_t -> list object_desc_t).

(** ** The operations of the allocator

    Its state is beside that of the rest of the system. *)
Local Abbreviation St := (slab_data_t * W)%type.

Definition in_rest {A : Type} (m : M W A) : M St A :=
  fun '(d, w) => res_bind (m w) (fun '(a, w') => Ok (a, (d, w'))).

Definition delegate_cspace_alloc : M St (Z * option Z) :=
  let! _ := cassert (match delegate with Some _ => true | None => false end) in
  in_rest (vka_cspace_alloc delegate).
Definition delegate_cspace_make_path (slot : Z) : M St cspacepath_t := in_rest (vka_cspace_make_path delegate slot).
Definition delegate_cspace_free (slot : Z) : M St unit := in_rest (vka_cspace_free delegate slot).

(** Taking an object: [*res] is not written. *)
Definition slab_utspace_alloc (dest : cspacepath_t) (type size_bits : Z) : M St (Z * option Z) :=
  if negb (type <? seL4_ObjectTypeCount) then ret (-1, None) else
  let! d := gets fst in
  let! slab := lift (arr_get (slabs d) type) in
  if next slab =? n slab then in_rest (vka_utspace_alloc delegate dest type size_bits) else
  match objects slab with
  | None => stop NullPointer
  | Some l =>
      let! o := lift (arr_get l (next slab)) in
      let! src := in_rest (vka_cspace_make_path delegate (cptr o)) in
      let! error := in_rest (vka_cnode_move dest src) in
      if negb (error =? seL4_NoError) then ret (-1, None) else
      let! taken := lift (arr_set (slabs d) type (Slab (n slab) (next slab ⊞ 1) (objects slab))) in
      let! _ := modify (fun '(d, w) => (SlabData taken (untyped d), w)) in
      ret (0, None)
  end.

Definition slab_utspace_alloc_maybe_device (dest : cspacepath_t) (type size_bits : Z) (can_use_dev : bool)
    : M St (Z * option Z) := slab_utspace_alloc dest type size_bits.
Definition delegate_utspace_alloc_at (dest : cspacepath_t) (type size_bits paddr : Z) : M St (Z * option Z) :=
  in_rest (vka_utspace_alloc_at delegate dest type size_bits paddr).
Definition slab_utspace_free (type size_bits target : Z) : M St unit := ret tt.

(** The table of functions; [slab_vka] is what the caller passed, whose
    function for physical addresses is not set. *)
Definition slab_vka (given : vka_t St) : vka_t St := {|
  cspace_alloc := Some delegate_cspace_alloc;
  cspace_make_path := Some delegate_cspace_make_path;
  utspace_alloc := Some slab_utspace_alloc;
  utspace_alloc_maybe_device := Some slab_utspace_alloc_maybe_device;
  utspace_alloc_at := Some delegate_utspace_alloc_at;
  cspace_free := Some delegate_cspace_free;
  utspace_free := Some slab_utspace_free;
  utspace_paddr := utspace_paddr given
|}.

(** ** Building it *)

(** The loop of [calculate_total_size] from type [i]. *)
Fixpoint total_loop (rounds : nat) (i : Z) (object_freq : list Z) (total_size : Z) : res Z :=
  match rounds with
  | O => Ok total_size
  | S rounds =>
      let? freq := arr_get object_freq i in
      if freq >? 0 then
        let object_size := vka_get_object_size i 0 in
        if (object_size =? 0) || (object_size =? minus_one) then Ok 0
        else total_loop rounds (i + 1) object_freq (total_size ⊞ BIT object_size ⊠ freq)
      else total_loop rounds (i + 1) object_freq total_size
  end.
Definition calculate_total_size (object_freq : list Z) : res Z :=
  total_loop (Z.to_nat seL4_ObjectTypeCount) 0 object_freq 0.

(** The error, and the object as it is left. *)
Definition alloc_object (untyped : vka_object_t) (size_bits type : Z) (object : vka_object_t) : M W (Z * vka_object_t) :=
  let! (error, slot) := vka_cspace_alloc delegate in
  let object := VkaObject (default (cptr object) slot) (ut object) type size_bits in
  if negb (error =? seL4_NoError) then ret (error, object) else
  let! path := vka_cspace_make_path delegate (cptr object) in
  let! error := seL4_Untyped_Retype (cptr untyped) type size_bits (root path) (dest path) (destDepth path) (offset path) 1 in
  ret (error, object).

(** The loop over the [n] objects of a slab: those made, and whether one failed. *)
Fixpoint objects_loop (n : nat) (untyped : vka_object_t) (size_bits type : Z) : M W (Z * list vka_object_t) :=
  match n with
  | O => ret (0, [])
  | S n =>
      let! (error, o) := alloc_object untyped size_bits type no_object in
      if negb (error =? seL4_NoError) then ret (-1, o :: replicate n no_object) else
      let! (error, l) := objects_loop n untyped size_bits type in
      ret (error, o :: l)
  end.

Definition alloc_object_slab (untyped : vka_object_t) (slab : slab_t) (n size_bits type : Z) : M W (Z * slab_t) :=
  let! (failed, slab) := (if n >? 0 then
      let! p := calloc n sizeof_vka_object_t in
      ret (p =? 0, Slab n 0 (if p =? 0 then None else Some (replicate (Z.to_nat n) no_object)))
    else ret (false, Slab n 0 (objects slab))) in
  if failed : bool then ret (-1, slab) else
  let! (error, l) := objects_loop (Z.to_nat n) untyped size_bits type in
  ret (error, Slab n 0 (if n >? 0 then Some l else objects slab)).

(** [size_bits] is signed. *)
Definition object_descs : list object_desc_t :=
  (fun i => ObjectDesc (to_long (vka_get_object_size (Z.of_nat i) 0)) (Z.of_nat i)) <$>
    seq 0 (Z.to_nat seL4_ObjectTypeCount).

(** The slabs of the types, up to the first without a size. *)
Fixpoint slabs_loop (descs : list object_desc_t) (object_freq : list Z) (data : slab_data_t) : M W (Z * slab_data_t) :=
  match descs with
  | [] => ret (0, data)
  | desc :: descs =>
      if desc_size_bits desc =? 0 then ret (0, data) else
      let type := desc_type desc in
      let! freq := lift (arr_get object_freq type) in
      let! slab := lift (arr_get (slabs data) type) in
      let! (error, slab) := alloc_object_slab (untyped data) slab freq (wrap (desc_size_bits desc)) type in
      let! changed := lift (arr_set (slabs data) type slab) in
      let data := SlabData changed (untyped data) in
      if negb (error =? 0) then ret (-1, data) else slabs_loop descs object_freq data
  end.

Definition empty_data : slab_data_t :=
  SlabData (replicate (Z.to_nat seL4_ObjectTypeCount) (Slab 0 0 None)) no_object.

(** The error, and the allocator's state if it got one.  Where the total is 0
    the number of its bits is undefined, and not used. *)
Definition slab_init (object_freq : list Z) : M W (Z * option slab_data_t) :=
  let! p := calloc 1 sizeof_slab_data_t in
  if p =? 0 then ret (-1, None) else
  let! total_size := lift (calculate_total_size object_freq) in
  let total_size_bits := seL4_WordBits ⊟ CLZL total_size in
  let! _ := cassert (total_size <=? BIT total_size_bits) in
  if total_size =? 0 then ret (0, Some empty_data) else
  let! (error, ut) := vka_alloc_untyped delegate total_size_bits (untyped empty_data) in
  let data := SlabData (slabs empty_data) ut in
  if negb (error =? 0) then ret (-1, Some data) else
  let! (error, data) := slabs_loop (qsort compare_object_descs object_descs) object_freq data in
  if negb (error =? 0) then ret (-1, Some data) else ret (0, Some data).

End slab.
