(* ===== verification/SlabSpec.v ===== *)
(** The slab allocator makes all the objects of a fixed size it was asked for,
    unless a request of its own is refused: the untyped it takes has room for
    them, and taking the largest first leaves no gap. *)
From Stdlib Require Import Sorting.
From S2P Require Import Prelude Cspacepath Interfaces Objects Vka Slab.

(** The system the slabs are made in.  [used] and [capacity] are the bytes taken
    from the untyped at a slot and the bits of its size; an object is placed at
    the next multiple of its size, and made exactly if it fits.  Memory, slots
    and untypeds may be refused at any time; [refusals] counts how often they
    were. *)
Class SlabSystem (W : Type) {seL4 : SeL4Constants} `{KO : !KernelOps W} (d : vka_t W) (calloc : Z -> Z -> M W Z) : Type := {
  used : W -> Z -> Z;
  capacity : W -> Z -> Z;
  refusals : W -> nat;
  sy_calloc : forall n s w, exists p w', calloc n s w = Ok (p, w') /\
    (forall c, used w' c = used w c) /\ (forall c, capacity w' c = capacity w c) /\
    ((p = 0 /\ (refusals w < refusals w')%nat) \/ (p <> 0 /\ refusals w' = refusals w));
  sy_slot : exists f, cspace_alloc d = Some f /\ forall w, exists e s w', f w = Ok (e, s, w') /\
    (forall c, used w' c = used w c) /\ (forall c, capacity w' c = capacity w c) /\
    ((e <> 0 /\ (refusals w < refusals w')%nat) \/ (e = 0 /\ is_Some s /\ refusals w' = refusals w));
  sy_slot_free : forall s w, exists w', vka_cspace_free (Some d) s w = Ok (tt, w') /\ refusals w' = refusals w;
  sy_path : exists f, cspace_make_path d = Some f /\ forall s w, exists p, f s w = Ok (p, w) /\ capPtr p = s;
  sy_untyped : exists f, utspace_alloc_maybe_device d = Some f /\ forall p b w, exists e c w',
    f p seL4_UntypedObject b false w = Ok (e, c, w') /\
    ((e <> 0 /\ (refusals w < refusals w')%nat) \/
     (e = 0 /\ used w' (capPtr p) = 0 /\ capacity w' (capPtr p) = b /\ refusals w' = refusals w));
  sy_retype : forall u t sz r i dp o w, t <> seL4_CapTableObject ->
    let b := vka_get_object_size t sz in
    let start := (used w u + 2 ^ b - 1) / 2 ^ b * 2 ^ b in
    0 <= b < 64 -> exists e w', seL4_Untyped_Retype u t sz r i dp o 1 w = Ok (e, w') /\
      (forall c, capacity w' c = capacity w c) /\ refusals w' = refusals w /\
      if start + 2 ^ b <=? 2 ^ capacity w u then e = 0 /\ used w' u = start + 2 ^ b else e <> 0
}.

(** The C library's sort: the same elements, and in order where the comparison
    is that of a key of the elements. *)
Class SortLaws (qsort : (object_desc_t -> object_desc_t -> Z) -> list object_desc_t -> list object_desc_t) : Prop := {
  qsort_perm : forall cmp l, Permutation (qsort cmp l) l;
  qsort_sorted : forall cmp (key : object_desc_t -> Z) l,
    (forall a b, a ∈ l -> b ∈ l -> (cmp a b <= 0 <-> key a <= key b)) ->
    StronglySorted (fun a b => key a <= key b) (qsort cmp l)
}.

Section spec.
Context {W : Type} {seL4 : SeL4Constants} `{KO : !KernelOps W} (d : vka_t W) (calloc : Z -> Z -> M W Z)
  `{SY : !SlabSystem W d calloc} (qsort : (object_desc_t -> object_desc_t -> Z) -> list object_desc_t -> list object_desc_t).

Lemma alloc_object_fits (u : vka_object_t) (s t U : Z) (o : vka_object_t) (w : W) :
  t <> seL4_CapTableObject -> vka_get_object_size t s = s -> 0 < s < 64 ->
  used w (cptr u) = U -> (2 ^ s | U) -> U + 2 ^ s <= 2 ^ capacity w (cptr u) ->
  exists e o' w', alloc_object (Some d) u s t o w = Ok (e, o', w') /\
    (forall c, capacity w' c = capacity w c) /\
    ((e <> 0 /\ (refusals w < refusals w')%nat) \/
     (e = 0 /\ refusals w' = refusals w /\ type o' = t /\ size_bits o' = s /\ used w' (cptr u) = U + 2 ^ s)).
Proof.
  intros Ht Hs Hrange HU [q ->] Hfit. pose proof (Z.pow_pos_nonneg 2 s ltac:(lia) ltac:(lia)) as Hpos.
  unfold alloc_object, vka_cspace_alloc. destruct sy_slot as (fs & -> & Hslot).
  destruct (Hslot w) as (e1 & c1 & w1 & H1 & Hu1 & Hc1 & [[He1 Hr1]|(-> & [c ->] & Hr1)]); erewrite bind_ok by exact H1;
    unfold seL4_NoError.
  { rewrite (proj2 (Z.eqb_neq e1 0)) by done. do 3 eexists. split; [reflexivity|]. split; [done|by left]. }
  cbn [default from_option Z.eqb negb].
  unfold vka_cspace_make_path. destruct sy_path as (fp & -> & Hpath). destruct (Hpath c w1) as (p & H2 & _).
  cbn [cptr]. unfold id. erewrite bind_ok by exact H2.
  destruct (sy_retype (cptr u) t s (root p) (dest p) (destDepth p) (offset p) w1 Ht) as (e & w2 & H3 & Hc2 & Hr2 & Hcase).
  { rewrite Hs. lia. }
  rewrite Hs, Hu1, Hc1, HU in Hcase.
  replace (q * 2 ^ s + 2 ^ s - 1) with (q * 2 ^ s + (2 ^ s - 1)) in Hcase by lia.
  rewrite Z.div_add_l, (Z.div_small (2 ^ s - 1)), Z.add_0_r in Hcase by lia.
  rewrite (proj2 (Z.leb_le _ _)) in Hcase by lia. destruct Hcase as [-> Hu2].
  eexists 0, _, w2. split; [by erewrite bind_ok by exact H3|]. split; [intros c'; by rewrite Hc2, Hc1|].
  right. split_and!; [done|by rewrite Hr2|done..].
Qed.

(** What a slab of type [t] holds when it is full. *)
Definition objects_of_type (t s : Z) (l : list vka_object_t) : Prop := Forall (fun o => type o = t /\ size_bits o = s) l.

Lemma objects_loop_fits (k : nat) (u : vka_object_t) (s t U : Z) (w : W) :
  t <> seL4_CapTableObject -> vka_get_object_size t s = s -> 0 < s < 64 ->
  used w (cptr u) = U -> (2 ^ s | U) -> U + Z.of_nat k * 2 ^ s <= 2 ^ capacity w (cptr u) ->
  exists e l w', objects_loop (Some d) k u s t w = Ok (e, l, w') /\ (forall c, capacity w' c = capacity w c) /\
    ((e = -1 /\ (refusals w < refusals w')%nat) \/
     (e = 0 /\ refusals w' = refusals w /\ length l = k /\ objects_of_type t s l /\
      used w' (cptr u) = U + Z.of_nat k * 2 ^ s)).
Proof.
  intros Ht Hs Hrange. pose proof (Z.pow_pos_nonneg 2 s ltac:(lia) ltac:(lia)) as Hpos.
  revert U w. induction k as [|k IH]; intros U w HU Hdiv Hfit; cbn [objects_loop].
  - exists 0, [], w. split; [done|]. split; [done|]. right. split_and!; [done..|by constructor|lia].
  - destruct (alloc_object_fits u s t U no_object w) as (e1 & o & w1 & H1 & Hc1 & Hcase); try done; [nia|].
    erewrite bind_ok by exact H1. unfold seL4_NoError.
    destruct Hcase as [[He1 Hr1]|(-> & Hr1 & Hto & Hso & Hu1)].
    { rewrite (proj2 (Z.eqb_neq e1 0)) by done. do 3 eexists. split; [reflexivity|]. split; [done|by left]. }
    cbn [Z.eqb negb].
    destruct (IH (U + 2 ^ s) w1) as (e & l & w2 & H2 & Hc2 & Hcase);
      [done|apply Z.divide_add_r; [done|apply Z.divide_refl]|rewrite Hc1; nia|].
    erewrite bind_ok by exact H2. do 3 eexists. split; [reflexivity|]. split; [intros c; by rewrite Hc2, Hc1|].
    rewrite Hr1 in Hcase. destruct Hcase as [|(-> & Hr2 & Hl & Hobj & Hu2)]; [by left|right].
    split_and!; [done|done|by rewrite <- Hl|by constructor|]. rewrite Hu2. lia.
Qed.

(** ** The sizes *)

Context (freq : list Z).
Definition frequency (t : Z) : Z := default 0 (freq !! Z.to_nat t).
Definition size_of (t : Z) : Z := vka_get_object_size t 0.
Definition bytes_of (t : Z) : Z := if frequency t >? 0 then frequency t * 2 ^ size_of t else 0.
Fixpoint sum_over (ts : list Z) : Z := match ts with [] => 0 | t :: ts => bytes_of t + sum_over ts end.
Definition types : list Z := Z.of_nat <$> seq 0 (Z.to_nat seL4_ObjectTypeCount).

(** What is asked for: a number of objects of each type, none of a type whose
    size depends on the request. *)
Record request : Prop := {
  rq_length : Z.of_nat (length freq) = seL4_ObjectTypeCount;
  rq_freq : Forall (fun f => 0 <= f) freq;
  rq_size : forall t, 0 < frequency t -> t <> seL4_CapTableObject /\ 0 < size_of t < 64;
  rq_sizes : forall t, 0 <= size_of t < 64 \/ size_of t = minus_one;
  rq_small : sum_over types < 2 ^ 63
}.
Context (RQ : request).

Lemma frequency_pos (t : Z) : 0 <= frequency t.
Proof.
  unfold frequency. destruct (freq !! Z.to_nat t) as [f|] eqn:H; [|done]. cbn. unfold id.
  by apply (proj1 (Forall_lookup _ _) (rq_freq RQ) _ _ H).
Qed.

Lemma bytes_pos (t : Z) : 0 <= bytes_of t.
Proof.
  unfold bytes_of. destruct (Z.gtb_spec (frequency t) 0) as [H|]; [|done].
  pose proof (Z.pow_nonneg 2 (size_of t)). nia.
Qed.

Lemma sum_pos (ts : list Z) : 0 <= sum_over ts.
Proof. induction ts as [|t ts IH]; cbn; [done|]. pose proof (bytes_pos t). lia. Qed.

Lemma freq_get (t : Z) : 0 <= t < seL4_ObjectTypeCount -> arr_get freq t = Ok (frequency t).
Proof.
  intros Ht. destruct (arr_get_in freq t) as (f & -> & Hf); [by rewrite (rq_length RQ)|].
  unfold frequency. by rewrite Hf.
Qed.

Lemma total_loop_ok (k : nat) (i total : Z) :
  0 <= i -> i + Z.of_nat k <= seL4_ObjectTypeCount -> 0 <= total ->
  total + sum_over (Z.of_nat <$> seq (Z.to_nat i) k) < word_size ->
  total_loop k i freq total = Ok (total + sum_over (Z.of_nat <$> seq (Z.to_nat i) k)).
Proof.
  revert i total. induction k as [|k IH]; intros i total Hi Hk Ht Hw; cbn [total_loop seq fmap list_fmap sum_over] in *.
  { by rewrite Z.add_0_r. }
  rewrite Z2Nat.id in * by done.
  rewrite <- Z2Nat.inj_succ in * by done. change (Z.succ i) with (i + 1) in *.
  pose proof (sum_pos (Z.of_nat <$> seq (Z.to_nat (i + 1)) k)) as Hrest. pose proof (bytes_pos i) as Hb.
  rewrite freq_get by lia. cbn [res_bind]. unfold bytes_of in *.
  destruct (Z.gtb_spec (frequency i) 0) as [Hf|Hf].
  2:{ rewrite Z.add_0_l in *. apply IH; lia. }
  destruct (rq_size RQ i) as [_ Hs]; [lia|]. unfold size_of in *.
  rewrite (proj2 (Z.eqb_neq _ 0)), (proj2 (Z.eqb_neq _ minus_one)) by (unfold minus_one, word_size; lia). cbn [orb].
  assert (Hpos : 0 < 2 ^ vka_get_object_size i 0) by (apply Z.pow_pos_nonneg; lia).
  rewrite BIT_pow by lia. rewrite (wrap_small (2 ^ _ * _)), (wrap_small (total + _)) by (unfold is_word; nia).
  rewrite IH by nia. f_equal. lia.
Qed.

Lemma calculate_total_size_ok : calculate_total_size freq = Ok (sum_over types).
Proof.
  unfold calculate_total_size. assert (0 <= seL4_ObjectTypeCount) by (rewrite <- (rq_length RQ); lia).
  pose proof (rq_small RQ). pose proof (sum_pos types).
  rewrite total_loop_ok; [done|done|lia|done|]. change (Z.to_nat 0) with 0%nat. fold types. unfold word_size. lia.
Qed.

(** ** The slabs, largest objects first *)

Lemma to_long_size (t : Z) : to_long (size_of t) = if size_of t =? minus_one then -1 else size_of t.
Proof.
  unfold to_long. destruct (rq_sizes RQ t) as [H| ->]; [|done].
  rewrite (proj2 (Z.eqb_neq _ minus_one)) by (unfold minus_one, word_size; lia).
  rewrite Z.mod_small by lia. lia.
Qed.

Definition desc_of (t : Z) : object_desc_t := ObjectDesc (to_long (size_of t)) t.

Lemma object_descs_types : object_descs = desc_of <$> types.
Proof. unfold object_descs, types. by rewrite <- list_fmap_compose. Qed.

(** The slab of type [t] has its objects. *)
Definition full (t : Z) (s : slab_t) : Prop :=
  n s = frequency t /\ next s = 0 /\
  (0 < frequency t -> exists l, objects s = Some l /\ Z.of_nat (length l) = frequency t /\ objects_of_type t (size_of t) l).

Definition fresh_slab : slab_t := Slab 0 0 None.

Lemma fresh_slab_full (t : Z) : frequency t = 0 -> full t fresh_slab.
Proof. intros H. split_and!; [by rewrite H|done|lia]. Qed.

Lemma alloc_object_slab_fits (u : vka_object_t) (t U : Z) (w : W) :
  used w (cptr u) = U -> (0 < frequency t -> (2 ^ size_of t | U)) -> U + bytes_of t <= 2 ^ capacity w (cptr u) ->
  exists e s w', alloc_object_slab (Some d) calloc u fresh_slab (frequency t) (wrap (to_long (size_of t))) t w = Ok (e, s, w') /\
    (forall c, capacity w' c = capacity w c) /\
    ((e = -1 /\ (refusals w < refusals w')%nat) \/
     (e = 0 /\ refusals w' = refusals w /\ full t s /\ used w' (cptr u) = U + bytes_of t)).
Proof.
  intros HU Hdiv Hfit. unfold alloc_object_slab, bytes_of in *. pose proof (frequency_pos t) as Hf.
  destruct (Z.gtb_spec (frequency t) 0) as [H|H].
  2:{ replace (frequency t) with 0 by lia. exists 0, fresh_slab, w. split; [done|]. split; [done|].
      right. split_and!; [done..|apply fresh_slab_full; lia|lia]. }
  destruct (rq_size RQ t H) as [Ht Hs].
  destruct (sy_calloc (frequency t) sizeof_vka_object_t w) as (p & w1 & H1 & Hu1 & Hc1 & Hp).
  erewrite bind_ok by (erewrite bind_ok by exact H1; reflexivity).
  destruct Hp as [[-> Hr1]|[Hp Hr1]].
  { do 3 eexists. split; [reflexivity|]. split; [done|by left]. }
  rewrite (proj2 (Z.eqb_neq p 0)) by done.
  assert (Hsize : wrap (to_long (size_of t)) = size_of t).
  { rewrite to_long_size, (proj2 (Z.eqb_neq _ minus_one)) by (unfold minus_one, word_size; lia).
    apply wrap_small. unfold is_word, word_size. lia. }
  rewrite Hsize. pose proof (vka_get_object_size_idem t 0 Ht) as Hidem. fold (size_of t) in Hidem.
  destruct (objects_loop_fits (Z.to_nat (frequency t)) u (size_of t) t U w1) as (e & l & w2 & H2 & Hc2 & Hcase);
    [done..|by rewrite Hu1|by apply Hdiv|rewrite Hc1, Z2Nat.id by done; lia|].
  erewrite bind_ok by exact H2. do 3 eexists. split; [reflexivity|]. split; [intros c; by rewrite Hc2, Hc1|].
  rewrite Hr1 in Hcase. destruct Hcase as [|(-> & Hr2 & Hl & Hobj & Hu2)]; [by left|right].
  rewrite Z2Nat.id in Hu2 by done. split_and!; [done|done| |done].
  split_and!; [done|done|]. intros _. exists l. split_and!; [done|lia|done].
Qed.

(** Larger first, so that what is taken stays a multiple of what comes. *)
Definition larger_first (ts : list Z) : Prop := StronglySorted (fun a b => to_long (size_of b) <= to_long (size_of a)) ts.

Lemma larger_divides (a b : Z) : 0 < frequency a -> 0 < frequency b ->
  to_long (size_of b) <= to_long (size_of a) -> (2 ^ size_of b | 2 ^ size_of a).
Proof.
  intros [_ Ha]%(rq_size RQ) [_ Hb]%(rq_size RQ). rewrite !to_long_size.
  rewrite !(proj2 (Z.eqb_neq _ minus_one)) by (unfold minus_one, word_size; lia). intros Hle.
  exists (2 ^ (size_of a - size_of b)). rewrite <- Z.pow_add_r by lia. f_equal. lia.
Qed.

Lemma not_positive (t : Z) : to_long (size_of t) <= 0 -> frequency t = 0.
Proof.
  intros Hle. pose proof (frequency_pos t). destruct (decide (0 < frequency t)) as [H1|]; [|lia].
  destruct (rq_size RQ t H1) as [_ Hs]. rewrite to_long_size, (proj2 (Z.eqb_neq _ minus_one)) in Hle
    by (unfold minus_one, word_size; lia). lia.
Qed.

Lemma slabs_loop_fits (ts : list Z) (u : vka_object_t) (l : list slab_t) (U : Z) (w : W) :
  larger_first ts -> NoDup ts -> Forall (fun t => 0 <= t < seL4_ObjectTypeCount) ts ->
  Z.of_nat (length l) = seL4_ObjectTypeCount -> Forall (fun t => l !! Z.to_nat t = Some fresh_slab) ts ->
  used w (cptr u) = U -> Forall (fun t => 0 < frequency t -> (2 ^ size_of t | U)) ts ->
  U + sum_over ts <= 2 ^ capacity w (cptr u) ->
  exists e l' w', slabs_loop (Some d) calloc (desc_of <$> ts) freq (SlabData l u) w = Ok (e, SlabData l' u, w') /\
    ((e = -1 /\ (refusals w < refusals w')%nat) \/
     (e = 0 /\ refusals w' = refusals w /\ used w' (cptr u) = U + sum_over ts /\ length l' = length l /\
      (forall t, t ∈ ts -> exists s, l' !! Z.to_nat t = Some s /\ full t s) /\
      (forall t, 0 <= t -> t ∉ ts -> l' !! Z.to_nat t = l !! Z.to_nat t))).
Proof.
  intros Hsort. revert l U w. induction Hsort as [|t ts Hsort IH Hle]; intros l U w Hnd Hrange Hlen Hfresh HU Hdiv Hfit.
  { cbn. exists 0, l, w. split; [done|]. right. split_and!; [done|done|lia|done|set_solver|done]. }
  apply NoDup_cons in Hnd as [Hnin Hnd]. apply Forall_cons in Hrange as [Ht Hrange].
  apply Forall_cons in Hfresh as [Hft Hfresh]. apply Forall_cons in Hdiv as [Hdt Hdiv].
  cbn [fmap list_fmap slabs_loop desc_of desc_size_bits desc_type sum_over] in *.
  pose proof (bytes_pos t) as Hbt. pose proof (sum_pos ts) as Hbs.
  destruct (Z.eqb_spec (to_long (size_of t)) 0) as [Hz|Hz].
  - (* nothing is asked of the rest *)
    assert (Hnone : forall x, x ∈ t :: ts -> frequency x = 0).
    { intros x [->|Hx]%elem_of_cons; apply not_positive; [lia|].
      rewrite Forall_forall in Hle. specialize (Hle x Hx). cbn in Hle. lia. }
    assert (Hsum : forall xs, (forall x, x ∈ xs -> frequency x = 0) -> sum_over xs = 0).
    { induction xs as [|x xs IHx]; intros Hxs; [done|]. cbn. unfold bytes_of at 1.
      rewrite (Hxs x) by set_solver. cbn. apply IHx. set_solver. }
    exists 0, l, w. split; [done|]. right. split; [done|]. split; [done|]. split; [|split; [done|split; [|done]]].
    + change (bytes_of t + sum_over ts) with (sum_over (t :: ts)). rewrite Hsum by done. lia.
    + intros x Hx. exists fresh_slab. split; [|apply fresh_slab_full; by apply Hnone].
      apply elem_of_cons in Hx as [->|Hx]; [done|]. rewrite Forall_forall in Hfresh. by apply Hfresh.
  - rewrite freq_get by done. unfold bind at 1. cbn [lift res_bind slabs untyped].
    destruct (arr_get_in l t) as (s0 & Hget & Hl0); [lia|]. rewrite Hft in Hl0. injection Hl0 as <-.
    rewrite Hget. unfold bind at 1. cbn [lift res_bind].
    destruct (alloc_object_slab_fits u t U w HU Hdt) as (e1 & s & w1 & H1 & Hc1 & Hcase); [lia|].
    erewrite bind_ok by exact H1. cbn beta iota. rewrite arr_set_in by lia. unfold bind at 1. cbn [lift res_bind].
    destruct Hcase as [[-> Hr1]|(-> & Hr1 & Hs & Hu1)]; cbn [Z.eqb negb].
    { do 3 eexists. split; [reflexivity|by left]. }
    destruct (IH (<[Z.to_nat t := s]> l) (U + bytes_of t) w1) as (e & l' & w2 & H2 & Hcase).
    + done.
    + done.
    + by rewrite length_insert.
    + rewrite Forall_forall in *. intros x Hx. rewrite list_lookup_insert_ne; [by apply Hfresh|].
      intros He. apply Hnin. specialize (Hrange x Hx). by replace t with x by lia.
    + done.
    + rewrite Forall_forall in *. intros x Hx Hfx. apply Z.divide_add_r; [by apply Hdiv|].
      unfold bytes_of. destruct (Z.gtb_spec (frequency t) 0) as [Hf|]; [|apply Z.divide_0_r].
      apply Z.divide_mul_r, larger_divides; [lia|done|by apply Hle].
    + rewrite Hc1. lia.
    + exists e, l', w2. split; [exact H2|]. rewrite Hr1 in Hcase.
      destruct Hcase as [|(-> & Hr2 & Hu2 & Hlen2 & Hin & Hout)]; [by left|right].
      split; [done|]. split; [done|]. split; [rewrite Hu2; lia|]. rewrite length_insert in Hlen2. split; [done|].
      split.
      * intros x [->|Hx]%elem_of_cons; [|by apply Hin]. exists s. split; [|done]. rewrite Hout by (lia || done).
        apply list_lookup_insert_eq. lia.
      * intros x Hx0 Hx. rewrite Hout by (done || set_solver). apply list_lookup_insert_ne.
        intros He. apply Hx. replace x with t by lia. set_solver.
Qed.

(** ** The whole *)

Lemma compare_sizes (a b : Z) :
  compare_object_descs (desc_of a) (desc_of b) <= 0 <-> to_long (size_of b) <= to_long (size_of a).
Proof.
  assert (Hbound : forall x, -1 <= to_long (size_of x) < 64).
  { intros x. rewrite to_long_size. destruct (rq_sizes RQ x) as [H| ->]; [|done].
    rewrite (proj2 (Z.eqb_neq _ minus_one)) by (unfold minus_one, word_size; lia). lia. }
  pose proof (Hbound a). pose proof (Hbound b). unfold compare_object_descs, desc_of, to_int. cbn [desc_size_bits].
  rewrite Z.mod_small by lia. lia.
Qed.

Lemma types_of_sorted `{SL : !SortLaws qsort} :
  exists ts, qsort compare_object_descs object_descs = desc_of <$> ts /\ Permutation ts types /\ larger_first ts.
Proof.
  pose proof (qsort_perm compare_object_descs object_descs) as Hp. rewrite object_descs_types in Hp.
  apply Permutation_map_inv in Hp as (ts & Hts & Hperm). exists ts. rewrite object_descs_types.
  split; [done|]. split; [by symmetry|].
  assert (Hs : StronglySorted (fun a b => - desc_size_bits a <= - desc_size_bits b)
    (qsort compare_object_descs (desc_of <$> types))).
  { apply (qsort_sorted compare_object_descs (fun a => - desc_size_bits a)).
    intros a b (x & -> & _)%list_elem_of_fmap (y & -> & _)%list_elem_of_fmap. rewrite compare_sizes. cbn. lia. }
  rewrite Hts in Hs. unfold larger_first. clear -Hs. induction ts as [|t ts IH]; [constructor|].
  apply StronglySorted_inv in Hs as [Hs Hle]. constructor; [by apply IH|].
  apply Forall_forall. intros x Hx.
  pose proof (proj1 (Forall_forall _ _) Hle (desc_of x) (list_elem_of_fmap_2 desc_of _ _ Hx)) as Hx'.
  cbn in Hx'. lia.
Qed.

Lemma sum_over_perm (xs ys : list Z) : Permutation xs ys -> sum_over xs = sum_over ys.
Proof. induction 1; cbn; lia. Qed.

Definition total_bits : Z := Z.log2 (sum_over types) + 1.

Lemma elem_of_types (t : Z) : t ∈ types <-> 0 <= t < seL4_ObjectTypeCount.
Proof.
  unfold types. rewrite list_elem_of_fmap. split.
  - intros (i & -> & Hi%elem_of_seq). lia.
  - intros Ht. exists (Z.to_nat t). split; [lia|]. apply elem_of_seq. lia.
Qed.

Lemma new_untyped (w : W) : 0 <= seL4_UntypedObject < seL4_ObjectTypeCount ->
  exists e ut w', vka_alloc_untyped (Some d) total_bits (untyped empty_data) w = Ok (e, ut, w') /\
    ((e <> 0 /\ (refusals w < refusals w')%nat) \/
     (e = 0 /\ refusals w' = refusals w /\ used w' (cptr ut) = 0 /\ capacity w' (cptr ut) = total_bits)).
Proof.
  intros Hut. unfold vka_alloc_untyped, vka_alloc_object, vka_alloc_object_at, vka_alloc_object_at_maybe_dev.
  rewrite (proj2 (Z.ltb_lt _ _)) by lia. cbn [negb].
  pose proof sy_slot_free as Hfree. unfold vka_cspace_alloc. destruct sy_slot as (fs & -> & Hslot).
  destruct (Hslot w) as (e1 & s1 & w1 & H1 & _ & _ & [[He1 Hr1]|(-> & [s ->] & Hr1)]); erewrite bind_ok by exact H1.
  { cbn beta iota. rewrite (proj2 (Z.eqb_neq e1 0)) by done. do 3 eexists. split; [reflexivity|by left]. }
  cbn [Z.eqb negb default from_option]. unfold id.
  unfold vka_cspace_make_path. destruct sy_path as (fp & -> & Hpath). destruct (Hpath s w1) as (p & H2 & Hps).
  erewrite bind_ok by exact H2. rewrite Z.eqb_refl. unfold vka_utspace_alloc_maybe_device.
  destruct sy_untyped as (fu & -> & Hunt). destruct (Hunt p total_bits w1) as (e2 & c & w2 & H3 & Hcase).
  erewrite bind_ok by exact H3. rewrite Hps, Hr1 in Hcase.
  destruct Hcase as [[He2 Hr2]|(-> & Hu & Hc & Hr2)]; [|do 3 eexists; split; [reflexivity|by right]].
  cbn beta iota. rewrite (proj2 (Z.eqb_neq e2 0)) by done. cbn [negb]. unfold alloc_object_error.
  destruct (Z.eqb_spec s 0); cbn [negb]; [do 3 eexists; split; [reflexivity|by left]|].
  destruct (Hfree s w2) as (w3 & H4 & Hr3). erewrite bind_ok by exact H4.
  do 3 eexists. split; [reflexivity|]. left. by rewrite Hr3.
Qed.

(** C16: asked for any number of objects of the types of a fixed size (untypeds
    and CNodes are not: see [slab_untypeds_ignored] and [slab_cnodes_do_not_fit]),
    [slab_init] fails exactly if a request of its own, for memory, a slot or the
    untyped, is refused; the retypes never are.  Otherwise the untyped has room
    for all the objects, every type's slab holds as many objects of that type and
    size as were asked for, and the bytes taken from the untyped are exactly
    those of the objects, with no gap between them. *)
Theorem slab_init_fits `{SL : !SortLaws qsort} (w : W) :
  0 < sum_over types -> 0 <= seL4_UntypedObject < seL4_ObjectTypeCount ->
  exists e data w', slab_init (Some d) calloc qsort freq w = Ok (e, data, w') /\
    ((e = -1 /\ (refusals w < refusals w')%nat) \/
     (e = 0 /\ refusals w' = refusals w /\ exists slabs_made, data = Some slabs_made /\
      used w' (cptr (untyped slabs_made)) = sum_over types /\ sum_over types <= 2 ^ total_bits /\
      (forall t, 0 <= t < seL4_ObjectTypeCount -> exists s, slabs slabs_made !! Z.to_nat t = Some s /\ full t s))).
Proof.
  intros Hpos Hut. unfold slab_init.
  destruct (sy_calloc 1 sizeof_slab_data_t w) as (p & w1 & H1 & _ & _ & [[-> Hr1]|[Hp Hr1]]); erewrite bind_ok by exact H1.
  { do 3 eexists. split; [reflexivity|by left]. }
  rewrite (proj2 (Z.eqb_neq p 0)) by done. rewrite calculate_total_size_ok. unfold bind at 1. cbn [lift res_bind].
  pose proof (rq_small RQ) as Hsmall. pose proof (Z.log2_spec _ Hpos) as [Hlo Hhi].
  assert (Hlog : 0 <= Z.log2 (sum_over types) < 63).
  { split; [apply Z.log2_nonneg|]. by apply Z.log2_lt_pow2. }
  assert (Hclz : seL4_WordBits ⊟ CLZL (sum_over types) = total_bits).
  { unfold seL4_WordBits, CLZL, CONFIG_WORD_SIZE, total_bits. rewrite wrap_small by (unfold is_word, word_size; lia). lia. }
  rewrite Hclz. rewrite BIT_pow by (unfold total_bits; lia).
  assert (Hroom : sum_over types < 2 ^ total_bits) by (unfold total_bits; by rewrite Z.add_1_r).
  rewrite (proj2 (Z.leb_le _ _)) by lia. unfold bind at 1. cbn [cassert lift rassert res_bind].
  rewrite (proj2 (Z.eqb_neq _ 0)) by lia. cbn beta iota.
  destruct (new_untyped w1 Hut) as (e2 & ut & w2 & H2 & Hcase2). erewrite bind_ok by exact H2. cbn beta iota.
  rewrite Hr1 in Hcase2. destruct Hcase2 as [[He2 Hr2]|(-> & Hr2 & Hu2 & Hc2)].
  { rewrite (proj2 (Z.eqb_neq e2 0)) by done. do 3 eexists. split; [reflexivity|by left]. }
  cbn [Z.eqb negb]. destruct types_of_sorted as (ts & Hts & Hperm & Hsorted). rewrite Hts.
  pose proof (sum_over_perm _ _ Hperm) as Hsum.
  destruct (slabs_loop_fits ts ut (slabs empty_data) 0 w2) as (e3 & l & w3 & H3 & Hcase3).
  - done.
  - rewrite Hperm. apply NoDup_fmap_2; [intros ? ? ?; lia|apply NoDup_seq].
  - apply Forall_forall. intros t. rewrite Hperm. by intros ?%elem_of_types.
  - cbn. rewrite length_replicate. lia.
  - apply Forall_forall. intros t. rewrite Hperm. intros Ht%elem_of_types. apply lookup_replicate. split; [done|lia].
  - done.
  - apply Forall_forall. intros t _ _. apply Z.divide_0_r.
  - rewrite Hsum, Hc2. lia.
  - erewrite bind_ok by exact H3. cbn beta iota. rewrite Hr2 in Hcase3.
    destruct Hcase3 as [[-> Hr3]|(-> & Hr3 & Hu3 & _ & Hall & _)]; [do 3 eexists; split; [reflexivity|by left]|].
    do 3 eexists. split; [reflexivity|]. right. split; [done|]. split; [done|]. eexists. split; [reflexivity|].
    split; [cbn; lia|]. split; [lia|]. intros t Ht. apply Hall. rewrite Hperm. by apply elem_of_types.
Qed.

End spec.

(** ** Handing the objects out *)

Section serve.
Context {W : Type} {seL4 : SeL4Constants} `{KO : !KernelOps W} (d : vka_t W) (moved : W -> list (Z * Z)).

(** A kernel that moves capabilities, and tells from which slot to which. *)
Class MovingKernel : Prop := {
  mk_path : exists f, cspace_make_path d = Some f /\ forall s w, exists p, f s w = Ok (p, w) /\ capPtr p = s;
  mk_move : forall a b c r s t w, exists w', seL4_CNode_Move a b c r s t w = Ok (0, w') /\ moved w' = moved w ++ [(s, b)]
}.
Context `{MK : !MovingKernel}.

(** A client that takes an object of one type for each of its slots. *)
Fixpoint serve (dests : list cspacepath_t) (type size_bits : Z) : M (slab_data_t * W) (list Z) :=
  match dests with
  | [] => ret []
  | dest :: dests =>
      let! (error, _) := slab_utspace_alloc (Some d) dest type size_bits in
      let! errors := serve dests type size_bits in
      ret (error :: errors)
  end.

(** As long as a slab has objects left, each request moves the next of them
    to the slot of the request, in the order they were made and each once; no
    other slab changes. *)
Theorem slab_hands_out (dests : list cspacepath_t) (type size_bits j : Z) (l : list vka_object_t) (data : slab_data_t) (w : W) :
  0 <= type < seL4_ObjectTypeCount -> Z.of_nat (length l) < word_size -> 0 <= j ->
  slabs data !! Z.to_nat type = Some (Slab (Z.of_nat (length l)) j (Some l)) ->
  j + Z.of_nat (length dests) <= Z.of_nat (length l) ->
  exists data' w', serve dests type size_bits (data, w) = Ok (replicate (length dests) 0, (data', w')) /\
    moved w' = moved w ++ zip (cptr <$> take (length dests) (drop (Z.to_nat j) l)) (capPtr <$> dests) /\
    untyped data' = untyped data /\
    slabs data' = <[Z.to_nat type := Slab (Z.of_nat (length l)) (j + Z.of_nat (length dests)) (Some l)]> (slabs data).
Proof.
  intros Ht Hl. revert j data w. induction dests as [|dest dests IH]; intros j data w Hj Hs Hle.
  { exists data, w. cbn. rewrite Z.add_0_r, app_nil_r. split_and!; [done..|]. by rewrite list_insert_id. }
  cbn [length] in *. cbn [serve].
  assert (Hget : arr_get (slabs data) type = Ok (Slab (Z.of_nat (length l)) j (Some l))) by (apply arr_get_ok; split; [lia|done]).
  destruct (arr_get_in l j) as (o & Ho & Hlo); [lia|].
  destruct mk_path as (fp & Hfp & Hpath). destruct (Hpath (cptr o) w) as (p & Hp & Hps).
  destruct (mk_move (root dest) (capPtr dest) (capDepth dest) (root p) (capPtr p) (capDepth p) w) as (w1 & H1 & Hm1).
  set (data1 := SlabData (<[Z.to_nat type := Slab (Z.of_nat (length l)) (j + 1) (Some l)]> (slabs data)) (untyped data)).
  assert (Hlen : (Z.to_nat type < length (slabs data))%nat) by (by eapply lookup_lt_Some).
  assert (Hstep : slab_utspace_alloc (Some d) dest type size_bits (data, w) = Ok (0, None, (data1, w1))).
  { unfold slab_utspace_alloc. rewrite (proj2 (Z.ltb_lt type _)) by lia. cbn [negb].
    unfold bind at 1. cbn [gets res_bind fst]. unfold bind at 1. rewrite Hget. cbn [lift res_bind next n].
    rewrite (proj2 (Z.eqb_neq j _)) by lia. cbn [objects]. unfold bind at 1. cbn [next]. rewrite Ho. cbn [lift res_bind].
    erewrite bind_ok by (unfold in_rest, vka_cspace_make_path; rewrite Hfp, Hp; reflexivity).
    erewrite bind_ok by (unfold in_rest, vka_cnode_move; rewrite H1; reflexivity).
    unfold seL4_NoError. cbn [Z.eqb negb]. unfold bind at 1. rewrite arr_set_in by lia. cbn [lift res_bind n next objects].
    rewrite (wrap_small (j + 1)) by (unfold is_word; lia). reflexivity. }
  erewrite bind_ok by exact Hstep. cbn beta iota.
  destruct (IH (j + 1) data1 w1) as (data' & w' & H2 & Hm2 & Hu2 & Hs2); [lia|by apply list_lookup_insert_eq|lia|].
  erewrite bind_ok by exact H2. exists data', w'. split; [done|]. split_and!; [|done|].
  - rewrite Hm2, Hm1, <- (assoc_L (++)). f_equal. rewrite Hps.
    rewrite (drop_S l o (Z.to_nat j)) by done. cbn. do 2 f_equal. f_equal. f_equal. f_equal. lia.
  - rewrite Hs2. cbn [slabs data1]. rewrite list_insert_insert_eq. do 2 f_equal. lia.
Qed.

End serve.

(** ** At a concrete kernel

    Capabilities are slot numbers; an untyped has a size and a number of bytes
    in use; there are 64 slots, and 8 blocks of memory. *)
Record toy_slab_world : Type := ToySlab {
  tw_slot : Z; tw_used : gmap Z Z; tw_bits : gmap Z Z; tw_moved : list (Z * Z); tw_blocks : nat; tw_refused : nat
}.
Definition tw_refuse (w : toy_slab_world) : toy_slab_world :=
  ToySlab (tw_slot w) (tw_used w) (tw_bits w) (tw_moved w) (tw_blocks w) (S (tw_refused w)).

#[export] Instance toy_slab_kernel : KernelOps toy_slab_world := {|
  seL4_CNode_Delete _ _ _ := ret 0;
  seL4_CNode_Move _ b _ _ s _ w := Ok (0, ToySlab (tw_slot w) (tw_used w) (tw_bits w) (tw_moved w ++ [(s, b)]) (tw_blocks w) (tw_refused w));
  seL4_Untyped_Retype u t sz _ _ _ _ _ w :=
    let b := vka_get_object_size t sz in
    let used := default 0 (tw_used w !! u) in
    let start := (used + 2 ^ b - 1) / 2 ^ b * 2 ^ b in
    if start + 2 ^ b <=? 2 ^ default 0 (tw_bits w !! u)
    then Ok (0, ToySlab (tw_slot w) (<[u := start + 2 ^ b]> (tw_used w)) (tw_bits w) (tw_moved w) (tw_blocks w) (tw_refused w))
    else Ok (10, w)
|}.

Definition toy_slab_delegate : vka_t toy_slab_world := {|
  cspace_alloc := Some (fun w =>
    if tw_slot w <? 164 then
      Ok (0, Some (tw_slot w), ToySlab (tw_slot w + 1) (tw_used w) (tw_bits w) (tw_moved w) (tw_blocks w) (tw_refused w))
    else Ok (-1, None, tw_refuse w));
  cspace_make_path := Some (fun s => ret (Cspacepath s 64 2 0 0 s 1));
  utspace_alloc := None;
  utspace_alloc_maybe_device := Some (fun p t b _ w =>
    if (4 <=? b) && (b <=? 47) then
      Ok (0, Some (capPtr p), ToySlab (tw_slot w) (<[capPtr p := 0]> (tw_used w)) (<[capPtr p := b]> (tw_bits w)) (tw_moved w)
        (tw_blocks w) (tw_refused w))
    else Ok (-1, None, tw_refuse w));
  utspace_alloc_at := None;
  cspace_free := None;
  utspace_free := None;
  utspace_paddr := None
|}.

Definition toy_slab_calloc (n size : Z) : M toy_slab_world Z := fun w =>
  match tw_blocks w with
  | O => Ok (0, tw_refuse w)
  | S b => Ok (4096 * Z.of_nat (S b), ToySlab (tw_slot w) (tw_used w) (tw_bits w) (tw_moved w) b (tw_refused w))
  end.

#[export] Program Instance toy_slab_system : SlabSystem toy_slab_world toy_slab_delegate toy_slab_calloc := {|
  used w u := default 0 (tw_used w !! u); capacity w u := default 0 (tw_bits w !! u); refusals := tw_refused
|}.
Next Obligation.
  intros n s w. unfold toy_slab_calloc. destruct (tw_blocks w); (do 2 eexists; split; [reflexivity|]; split; [done|]; split; [done|]).
  - left. split; [done|cbn; lia].
  - right. split; [lia|done].
Qed.
Next Obligation.
  eexists. split; [reflexivity|]. intros w. cbn beta. destruct (_ <? _); (do 3 eexists; split; [reflexivity|]; split; [done|]; split; [done|]).
  - by right.
  - left. split; [done|cbn; lia].
Qed.
Next Obligation. intros s w. by exists w. Qed.
Next Obligation. eexists. split; [reflexivity|]. intros s w. by eexists. Qed.
Next Obligation.
  eexists. split; [reflexivity|]. intros p b w. cbn beta. destruct (_ && _); (do 3 eexists; split; [reflexivity|]).
  - right. cbn. by rewrite !lookup_insert_eq.
  - left. split; [done|cbn; lia].
Qed.
Next Obligation.
  intros u t sz r i dp o w _ b Hb. cbn. fold b. destruct (_ <=? _); do 2 eexists; (split; [reflexivity|]); [|done].
  cbn. by rewrite lookup_insert_eq.
Qed.

Fixpoint insert_desc (cmp : object_desc_t -> object_desc_t -> Z) (a : object_desc_t) (l : list object_desc_t) :=
  match l with [] => [a] | b :: l' => if cmp a b <=? 0 then a :: l else b :: insert_desc cmp a l' end.
Definition insertion_sort (cmp : object_desc_t -> object_desc_t -> Z) (l : list object_desc_t) : list object_desc_t :=
  foldr (insert_desc cmp) [] l.

Lemma insert_desc_perm cmp a l : Permutation (insert_desc cmp a l) (a :: l).
Proof.
  induction l as [|b l IH]; [done|]. cbn. destruct (_ <=? _); [done|]. rewrite IH. apply perm_swap.
Qed.

#[export] Instance insertion_sort_laws : SortLaws insertion_sort.
Proof.
  assert (Hperm : forall cmp l, Permutation (insertion_sort cmp l) l).
  { intros cmp l. induction l as [|a l IH]; [done|]. cbn. rewrite insert_desc_perm. by constructor. }
  split; [done|]. intros cmp key l. induction l as [|a l IH]; intros Hkey; cbn; [constructor|].
  assert (Hs : StronglySorted (fun a b => key a <= key b) (insertion_sort cmp l)) by (apply IH; set_solver).
  assert (Hk : forall b, b ∈ insertion_sort cmp l -> (cmp a b <= 0 <-> key a <= key b)).
  { intros b Hb. rewrite Hperm in Hb. apply Hkey; set_solver. }
  fold (insertion_sort cmp l). clear -Hs Hk. induction Hs as [|b m Hm IHm Hle]; cbn; [by repeat constructor|].
  rewrite Forall_forall in Hle. destruct (Z.leb_spec (cmp a b) 0) as [Hc|Hc].
  - apply Hk in Hc; [|set_solver]. constructor; [constructor; [done|by apply Forall_forall]|].
    apply Forall_forall. intros x [->|Hx]%elem_of_cons; [done|]. specialize (Hle x Hx). lia.
  - constructor; [apply IHm; set_solver|]. apply Forall_forall. intros x. rewrite insert_desc_perm.
    intros [->|Hx]%elem_of_cons; [|by apply Hle]. specialize (Hk b ltac:(set_solver)). lia.
Qed.

(** Three endpoints, two TCBs and a page. *)
Definition toy_freq : list Z := [0; 2; 3; 0; 0; 0; 0; 0; 1; 0; 0; 0; 0].
Definition toy_slab_start : toy_slab_world := ToySlab 100 ∅ ∅ [] 8 0.
Definition toy_slab_init (freq : list Z) := slab_init (Some toy_slab_delegate) toy_slab_calloc insertion_sort freq toy_slab_start.

Lemma toy_request : request toy_freq.
Proof.
  assert (Hcase : forall t, frequency toy_freq t = 0 \/ t ∈ [1; 2; 8]).
  { intros t. unfold frequency. destruct (decide (t < 0)) as [H|H].
    { left. by replace (Z.to_nat t) with 0%nat by lia. }
    destruct (decide (t < 13)) as [H13|H13].
    - assert (t ∈ (Z.of_nat <$> seq 0 13)) as Ht. { apply list_elem_of_fmap. exists (Z.to_nat t). split; [lia|]. apply elem_of_seq. lia. }
      cbn in Ht. rewrite !elem_of_cons, elem_of_nil in Ht. destruct_or!; subst; cbn; try (by left); right; set_solver.
    - left. by rewrite lookup_ge_None_2 by (cbn; lia). }
  split.
  - done.
  - repeat constructor; done.
  - intros t Ht. destruct (Hcase t) as [H|H]; [lia|]. rewrite !elem_of_cons, elem_of_nil in H. by destruct_or!; subst.
  - intros t. unfold size_of, vka_get_object_size, vka_arch_get_object_size, vka_x86_mode_get_object_size.
    cbn [andb]. repeat case_match; try (by right); left; vm_compute; done.
  - done.
Qed.

Lemma slab_init_fits_witness : exists data w', toy_slab_init toy_freq = Ok (0, Some data, w') /\
  tw_used w' !! 100 = Some (3 * 16 + 2 * 2048 + 4096) /\
  exists s, slabs data !! 2%nat = Some s /\ full toy_freq 2 s.
Proof.
  destruct (slab_init_fits toy_slab_delegate toy_slab_calloc insertion_sort toy_freq toy_request toy_slab_start)
    as (e & made & w' & H & [[-> _]|(-> & _ & data & -> & Hu & _ & Hall)]); [done|done| |];
    pose proof H as H'; vm_compute in H'; [discriminate H'|].
  exists data, w'. split; [exact H|]. split; [by injection H' as <- <-|].
  destruct (Hall 2) as (s & Hs & Hf); [by split|]. exists s. split; [exact Hs|exact Hf].
Defined.

(** Where a slot or a block of memory is refused on the way, there is no allocator. *)
Example slab_refused :
  match toy_slab_init [0; 70; 0; 0; 0; 0; 0; 0; 0; 0; 0; 0; 0] with Ok (e, _, w) => (e, tw_refused w) | Fault _ => (0, O) end = (-1, 1%nat) /\
  match toy_slab_init [0; 1; 1; 1; 0; 1; 1; 1; 1; 1; 1; 1; 0] with Ok (e, _, w) => (e, tw_refused w) | Fault _ => (0, O) end = (-1, 1%nat).
Proof. split; vm_compute; reflexivity. Qed.

Lemma toy_moving : MovingKernel toy_slab_delegate tw_moved.
Proof. split; [eexists; split; [reflexivity|]; intros s w; by eexists|]. intros. by eexists. Qed.

Lemma slab_hands_out_witness :
  let data := SlabData (<[2%nat := Slab 2 0 (Some [VkaObject 101 0 2 4; VkaObject 102 0 2 4])]> (replicate 13 (Slab 0 0 None)))
    no_object in
  exists data' w', serve toy_slab_delegate [Cspacepath 7 64 2 0 0 7 1; Cspacepath 8 64 2 0 0 8 1] 2 4 (data, toy_slab_start) =
    Ok ([0; 0], (data', w')) /\ tw_moved w' = [(101, 7); (102, 8)].
Proof.
  intros data. pose proof toy_moving.
  destruct (slab_hands_out toy_slab_delegate tw_moved [Cspacepath 7 64 2 0 0 7 1; Cspacepath 8 64 2 0 0 8 1] 2 4 0
    [VkaObject 101 0 2 4; VkaObject 102 0 2 4] data toy_slab_start) as (data' & w' & H1 & H2 & _); [done..|].
  by exists data', w'.
Defined.

(** A CNode takes its number of slots as its size; the slab passes the size in
    memory, so that the CNodes it makes are larger than it reckoned with, and do
    not fit. *)
Example slab_cnodes_do_not_fit :
  match toy_slab_init [0; 0; 0; 0; 2; 0; 0; 0; 0; 0; 0; 0; 0] with Ok (e, _, _) => e | Fault _ => 0 end = -1.
Proof. by vm_compute. Qed.

(** Objects without a size of their own are refused with a message, and the
    initialisation succeeds with no object at all. *)
Example slab_untypeds_ignored :
  toy_slab_init [1; 2; 3; 0; 0; 0; 0; 0; 0; 0; 0; 0; 0] = Ok (0, Some empty_data, ToySlab 100 ∅ ∅ [] 7 0).
Proof. by vm_compute. Qed.
