(* ===== verification/PageDma.v ===== *)
(** libsel4utils/src/page_dma.c: memory for devices.  A block is an untyped, so
    that it is contiguous in physical memory, made into pages that are mapped one
    after the other; the record of a block is kept in the cookies of its pages.

    The address space is behind the interface of VspaceApi.v, the allocator behind
    the one of Vka.v.  The C library's allocator, the macro for logarithms and the
    kernel's cache operations are parameters. *)
From S2P Require Import Prelude Cspacepath Interfaces Objects Vka VspaceTables Vspace VspaceReserve VspaceApi VspaceStack.
From S2P Require Import Simple Threads ThreadToy.

Record dma_alloc_t : Type := DmaAlloc { base : Z; dma_ut : vka_object_t; paddr : Z }.
Definition sizeof_dma_alloc_t : Z := 48.
Definition sizeof_dma_man_t : Z := 232.
Definition sizeof_cspacepath_t : Z := 56.

Inductive dma_cache_op_t : Type := DMA_CACHE_OP_CLEAN | DMA_CACHE_OP_INVALIDATE | DMA_CACHE_OP_CLEAN_INVALIDATE.

(** The records of blocks on the heap, and the rest of the system. *)
Record dma_state (W : Type) : Type := DmaState { allocs : gmap Z dma_alloc_t; rest : W }.
Arguments DmaState {W} _ _.
Arguments allocs {W} _.
Arguments rest {W} _.

Section dma.
Context {W : Type} {seL4 : SeL4Constants} `{KO : !KernelOps W} `{MA : !Malloc W} `{UM : !UtilsMacros}.
Context (vka : option (vka_t W)) (vspace : option (vspace_t W)) (LOG_BASE_2 : Z -> Z) (calloc : Z -> Z -> M W Z)
  (seL4_AllRights : Z)
  (clean_data invalidate_data clean_invalidate_data : Z -> Z -> Z -> M W unit).
Local Abbreviation St := (dma_state W).

Definition within {A : Type} (m : M W A) : M St A :=
  fun s => res_bind (m (rest s)) (fun '(a, w) => Ok (a, DmaState (allocs s) w)).

Definition load_alloc (p : Z) : M St dma_alloc_t :=
  fun s => match allocs s !! p with Some a => Ok (a, s) | None => Fault NullPointer end.

(** The loop of [dma_free] over the pages from [i]. *)
Fixpoint free_pages_loop (k : nat) (i addr : Z) : M W unit :=
  match k with
  | O => ret tt
  | S k =>
      let page := addr ⊞ i ⊠ PAGE_SIZE_4K in
      let! frame := vspace_get_cap vspace page in
      let! _ := vspace_unmap_pages vspace page 1 PAGE_BITS_4K VSPACE_PRESERVE in
      let! path := vka_cspace_make_path vka frame in
      let! _ := vka_cnode_delete path in
      let! _ := vka_cspace_free vka frame in
      free_pages_loop k (i + 1) addr
  end.

Definition dma_free (addr : Z) : M St unit :=
  let! p := within (vspace_get_cookie vspace addr) in
  let! _ := cassert (negb (p =? 0)) in
  let! alloc := load_alloc p in
  let! _ := cassert (base alloc =? addr) in
  let num_pages := to_int (BIT (Vka.size_bits (dma_ut alloc)) / PAGE_SIZE_4K) in
  let! _ := within (free_pages_loop (Z.to_nat num_pages) 0 addr) in
  let! _ := within (vka_free_object vka (dma_ut alloc)) in
  let! _ := within (free p) in
  modify (fun s => DmaState (delete p (allocs s)) (rest s)).

(** [diff] is 32 bits wide. *)
Definition dma_pin (addr : Z) : M St Z :=
  let! p := within (vspace_get_cookie vspace addr) in
  if p =? 0 then ret 0 else
  let! alloc := load_alloc p in
  let diff := (addr - base alloc) mod 2 ^ 32 in
  ret (paddr alloc ⊞ diff).

(** ** Allocation *)

(** The frames of the block: the error, and the paths made so far followed by
    empty ones. *)
Fixpoint frames_loop (k : nat) (ut : vka_object_t) (size_bits : Z) : M W (Z * list cspacepath_t) :=
  match k with
  | O => ret (0, [])
  | S k =>
      let! (error, path) := vka_cspace_alloc_path vka in
      let path := default (Cspacepath 0 0 0 0 0 0 0) path in
      if negb (error =? 0) then ret (error, path :: replicate k (Cspacepath 0 0 0 0 0 0 0)) else
      let! error := seL4_Untyped_Retype (cptr ut) (kobject_get_type KOBJECT_FRAME PAGE_BITS_4K) size_bits
        (root path) (dest path) (destDepth path) (offset path) 1 in
      if negb (error =? seL4_NoError) then ret (error, path :: replicate k (Cspacepath 0 0 0 0 0 0 0)) else
      let! (error, paths) := frames_loop k ut size_bits in
      ret (error, path :: paths)
  end.

(** Mapping them from page [i]; the record's address is the cookie. *)
Fixpoint map_loop (frames : list cspacepath_t) (i p base res : Z) : M W Z :=
  match frames with
  | [] => ret 0
  | f :: frames =>
      let! error := vspace_map_pages_at_vaddr vspace [capPtr f] (Some [p]) (base ⊞ i ⊠ PAGE_SIZE_4K) 1 PAGE_BITS_4K res in
      if negb (error =? 0) then ret error else map_loop frames (i + 1) p base res
  end.

Fixpoint drop_frames (frames : list cspacepath_t) : M W unit :=
  match frames with
  | [] => ret tt
  | f :: frames =>
      let! _ := (if negb (capPtr f =? 0) then
          let! _ := vka_cnode_delete f in vka_cspace_free vka (capPtr f)
        else ret tt) in
      drop_frames frames
  end.

(** The label [handle_error]: [alloc] is the record's address, [frames] the
    array's with its contents, 0 where there is none. *)
Definition handle_error (ut : vka_object_t) (alloc res base num_frames frames : Z) (paths : list cspacepath_t) : M St Z :=
  let! _ := (if negb (alloc =? 0) then
      let! _ := within (free alloc) in modify (fun s => DmaState (delete alloc (allocs s)) (rest s))
    else ret tt) in
  let! _ := (if negb (res =? 0) then
      let! _ := within (vspace_unmap_pages vspace base num_frames PAGE_BITS_4K VSPACE_PRESERVE) in
      within (vspace_free_reservation vspace res)
    else ret tt) in
  let! _ := (if negb (frames =? 0) then
      let! _ := within (drop_frames paths) in within (free frames)
    else ret tt) in
  let! _ := within (vka_free_object vka ut) in
  ret 0.

Definition dma_alloc (size align cached : Z) : M St Z :=
  if align >? PAGE_SIZE_4K then ret 0 else
  let size := ROUND_UP size PAGE_SIZE_4K in
  let size_bits := LOG_BASE_2 size in
  let size_bits := if negb (BIT size_bits =? size) then size_bits ⊞ 1 else size_bits in
  let size := BIT size_bits in
  let! (error, ut) := within (vka_alloc_untyped vka size_bits no_object) in
  if negb (error =? 0) then ret 0 else
  let! paddr := within (vka_utspace_paddr vka (Vka.ut ut) seL4_UntypedObject size_bits) in
  if paddr =? VKA_NO_PADDR then handle_error ut 0 0 0 0 0 [] else
  let num_frames := size / PAGE_SIZE_4K in
  let! frames := within (calloc num_frames sizeof_cspacepath_t) in
  if frames =? 0 then handle_error ut 0 0 0 num_frames 0 [] else
  let! (error, paths) := within (frames_loop (Z.to_nat num_frames) ut size_bits) in
  if negb (error =? 0) then handle_error ut 0 0 0 num_frames frames paths else
  let! (res, addr) := within (vspace_reserve_range vspace size seL4_AllRights cached) in
  let base := default 0 addr in
  if res =? 0 then ret 0 else
  let! alloc := within (malloc sizeof_dma_alloc_t) in
  if alloc =? 0 then handle_error ut 0 res base num_frames frames paths else
  let! _ := modify (fun s => DmaState (<[alloc := DmaAlloc base ut paddr]> (allocs s)) (rest s)) in
  let! error := within (map_loop paths 0 alloc base res) in
  if negb (error =? 0) then handle_error ut alloc res base num_frames frames paths else
  let! _ := within (vspace_free_reservation vspace res) in
  ret base.

Definition dma_unpin (addr size : Z) : M St unit := ret tt.

(** ** The caches *)

Definition cache_call (op : dma_cache_op_t) (root cur top : Z) : M W unit :=
  match op with
  | DMA_CACHE_OP_CLEAN => clean_data root cur top
  | DMA_CACHE_OP_INVALIDATE => invalidate_data root cur top
  | DMA_CACHE_OP_CLEAN_INVALIDATE => clean_invalidate_data root cur top
  end.

Fixpoint cache_loop (fuel : nat) (op : dma_cache_op_t) (root cur end_ : Z) : M W unit :=
  if cur <? end_ then
    match fuel with
    | O => stop OutOfFuel
    | S fuel =>
        let top := ROUND_UP (cur ⊞ 1) PAGE_SIZE_4K in
        let top := if top >? end_ then end_ else top in
        let! _ := cache_call op root cur top in
        cache_loop fuel op root top end_
    end
  else ret tt.

Definition dma_cache_op (addr size : Z) (op : dma_cache_op_t) : M W unit :=
  let! root := vspace_get_root vspace in
  let end_ := addr ⊞ size in
  cache_loop (S (Z.to_nat (size / PAGE_SIZE_4K + 1))) op root addr end_.

(** The table of functions: what [sel4utils_new_page_dma_alloc] fills in. *)
Record ps_dma_man_t : Type := DmaMan {
  dma_alloc_fn : Z -> Z -> Z -> M St Z;
  dma_free_fn : Z -> M St unit;
  dma_pin_fn : Z -> M St Z;
  dma_unpin_fn : Z -> Z -> M St unit;
  dma_cache_op_fn : Z -> Z -> dma_cache_op_t -> M W unit
}.

Definition sel4utils_new_page_dma_alloc : M W (Z * option ps_dma_man_t) :=
  let! dma := calloc 1 sizeof_dma_man_t in
  if dma =? 0 then ret (-1, None)
  else ret (0, Some (DmaMan dma_alloc dma_free dma_pin dma_unpin dma_cache_op)).

(** ** The cache operations cover the range *)

(** The calls for a list of pieces. *)
Fixpoint cache_pieces (op : dma_cache_op_t) (root : Z) (pieces : list (Z * Z)) : M W unit :=
  match pieces with
  | [] => ret tt
  | (a, b) :: pieces => let! _ := cache_call op root a b in cache_pieces op root pieces
  end.

(** Pieces that follow each other from [a] to [b], each within a page. *)
Inductive pieces_of : Z -> Z -> list (Z * Z) -> Prop :=
  | no_piece a : pieces_of a a []
  | a_piece a b c l : a < b -> a / 4096 = (b - 1) / 4096 -> pieces_of b c l -> pieces_of a c ((a, b) :: l).

Context `{UL : !UtilsLaws}.

Lemma cache_loop_pieces (fuel : nat) (op : dma_cache_op_t) (root cur end_ : Z) :
  0 <= cur <= end_ -> end_ + 4096 < word_size -> (cur < end_ -> (end_ - 1) / 4096 - cur / 4096 < Z.of_nat fuel) ->
  exists l, pieces_of cur end_ l /\ length l = Z.to_nat (if cur <? end_ then (end_ - 1) / 4096 - cur / 4096 + 1 else 0) /\
    forall w, cache_loop fuel op root cur end_ w = cache_pieces op root l w.
Proof.
  revert cur. induction fuel as [|fuel IH]; intros cur Hcur Hw Hfuel; cbn [cache_loop];
    destruct (Z.ltb_spec cur end_) as [Hlt|Hge].
  - pose proof (Z.div_le_mono cur (end_ - 1) 4096). lia.
  - exists []. replace end_ with cur by lia. split_and!; [constructor|done|done].
  - change PAGE_SIZE_4K with 4096. rewrite wrap_small by (unfold is_word; lia).
    rewrite ROUND_UP_law by lia. replace (cur + 1 + 4096 - 1) with (cur + 1 * 4096) by lia.
    rewrite Z.div_add by lia. set (page := cur / 4096 + 1).
    pose proof (Z.div_mod cur 4096 ltac:(lia)) as Hdm. pose proof (Z.mod_pos_bound cur 4096 ltac:(lia)) as Hmod.
    set (top := if page * 4096 >? end_ then end_ else page * 4096).
    assert (Htop : cur < top <= end_ /\ (top = page * 4096 \/ top = end_ /\ end_ < page * 4096)).
    { unfold top, page in *. destruct (Z.gtb_spec ((cur / 4096 + 1) * 4096) end_); lia. }
    clearbody top.
    assert (Hpage : (top - 1) / 4096 = cur / 4096).
    { symmetry. apply (Z.div_unique_pos _ _ _ (top - 1 - 4096 * (cur / 4096))); unfold page in *; lia. }
    assert (Hnext : top < end_ -> top / 4096 = cur / 4096 + 1).
    { intros H. destruct Htop as [_ [->|[-> _]]]; [|lia]. by rewrite Z.div_mul. }
    assert (Hend : top = end_ -> (end_ - 1) / 4096 = cur / 4096) by (intros He; by rewrite <- He).
    destruct (IH top) as (l & Hl & Hlen & Hrun); [lia|done| |].
    { intros H. rewrite Hnext by done. specialize (Hfuel ltac:(lia)). lia. }
    exists ((cur, top) :: l). split_and!.
    + constructor; [lia|by symmetry|done].
    + cbn [length]. rewrite Hlen. destruct (Z.ltb_spec top end_) as [H|H].
      * rewrite Hnext by done. pose proof (Z.div_le_mono top (end_ - 1) 4096). rewrite Hnext in * by done. lia.
      * rewrite (Hend ltac:(lia)). lia.
    + intros w. cbn [cache_pieces]. unfold bind. destruct (cache_call op root cur top w) as [[[] w']|]; [|done].
      cbn. apply Hrun.
  - exists []. replace end_ with cur by lia. split_and!; [constructor|done|done].
Qed.

(** C31: [dma_cache_op] ends, and the kernel is asked for exactly the range
    [addr, addr + size), once and in order, in pieces that each lie within one
    page: as many as the pages the range touches. *)
Theorem dma_cache_op_covers (addr size root : Z) (op : dma_cache_op_t) (w : W) :
  0 <= addr -> 0 <= size -> addr + size + 4096 < word_size -> vspace_get_root vspace w = Ok (root, w) ->
  exists pieces, dma_cache_op addr size op w = cache_pieces op root pieces w /\
    pieces_of addr (addr + size) pieces /\
    (0 < size -> Z.of_nat (length pieces) = (addr + size - 1) / 4096 - addr / 4096 + 1).
Proof.
  intros Ha Hs Hw Hroot. unfold dma_cache_op. erewrite bind_ok by exact Hroot.
  rewrite wrap_small by (unfold is_word; lia). change PAGE_SIZE_4K with 4096.
  destruct (cache_loop_pieces (S (Z.to_nat (size / 4096 + 1))) op root addr (addr + size)) as (l & Hl & Hlen & Hrun); [lia|lia| |].
  { intros _. pose proof (Z.div_pos size 4096 Hs ltac:(lia)).
    pose proof (Z.div_mod addr 4096 ltac:(lia)). pose proof (Z.mod_pos_bound addr 4096 ltac:(lia)).
    pose proof (Z.div_mod size 4096 ltac:(lia)). pose proof (Z.mod_pos_bound size 4096 ltac:(lia)).
    pose proof (Z.div_mod (addr + size - 1) 4096 ltac:(lia)). pose proof (Z.mod_pos_bound (addr + size - 1) 4096 ltac:(lia)).
    lia. }
  exists l. split_and!; [apply Hrun|done|]. intros Hpos. rewrite Hlen, (proj2 (Z.ltb_lt _ _)) by lia.
  pose proof (Z.div_le_mono addr (addr + size - 1) 4096). lia.
Qed.

End dma.

(** ** At a concrete system *)

Lemma dma_cache_op_covers_witness :
  let v := Some spaces_vspace in
  let x := Spaces ∅ ∅ 0 in
  let log root a b := fun x : spaces => Ok (tt, Spaces ({[a]} ∪ sp_pages x) (sp_ranges x) b) in
  exists pieces, dma_cache_op v log log log 5000 5000 DMA_CACHE_OP_CLEAN x = cache_pieces log log log DMA_CACHE_OP_CLEAN 3 pieces x /\
    pieces_of 5000 10000 pieces /\ length pieces = 2%nat.
Proof.
  intros v x log. destruct (dma_cache_op_covers v log log log 5000 5000 3 DMA_CACHE_OP_CLEAN x) as (l & H1 & H2 & H3);
    [done|done|done|done|].
  exists l. split; [exact H1|]. split; [exact H2|]. specialize (H3 ltac:(done)). change (Z.of_nat (length l) = 2) in H3. lia.
Defined.

Abbreviation toy_dma := (ledger * spaces)%type.

#[export] Instance toy_dma_malloc : Malloc toy_dma := {| malloc n := on_left (malloc n); free p := on_left (free p) |}.

(** Untypeds are at physical address 2^30. *)
Definition toy_dma_vka : vka_t toy_dma := {|
  cspace_alloc := cspace_alloc (left_vka ledger_vka); cspace_make_path := cspace_make_path (left_vka ledger_vka);
  utspace_alloc := utspace_alloc (left_vka ledger_vka);
  utspace_alloc_maybe_device := utspace_alloc_maybe_device (left_vka ledger_vka);
  utspace_alloc_at := utspace_alloc_at (left_vka ledger_vka); cspace_free := cspace_free (left_vka ledger_vka);
  utspace_free := utspace_free (left_vka ledger_vka); utspace_paddr := Some (fun _ _ _ => ret (2 ^ 30))
|}.

(** The pages of the address space have the cookie [cookie]; it has room for
    reservations or not. *)
Definition toy_dma_vspace (room : bool) (cookie : Z) : vspace_t toy_dma :=
  let v := right_vspace spaces_vspace in {|
  data := data v; new_pages := new_pages v; map_pages := None; new_pages_at_vaddr := None;
  map_pages_at_vaddr := Some (fun _ _ _ _ _ _ => ret 0); deferred_rights_map_pages_at_vaddr := None;
  unmap_pages := unmap_pages v; tear_down := None;
  reserve_range_aligned := if room then reserve_range_aligned v else Some (fun _ _ _ _ => ret (0, None));
  reserve_range_at := None; reserve_deferred_rights_range_at := None;
  free_reservation := free_reservation v; free_reservation_by_vaddr := None;
  get_cap := get_cap v; get_root := get_root v; get_cookie := Some (fun _ => ret cookie);
  share_mem_at_vaddr := None; allocated_object := None
|}.

Definition toy_dma_start : dma_state toy_dma := DmaState ∅ (empty_ledger, Spaces ∅ ∅ 65536).
Definition toy_dma_alloc (room : bool) (size : Z) : res (Z * dma_state toy_dma) :=
  dma_alloc (Some toy_dma_vka) (Some (toy_dma_vspace room 0)) Z.log2 (fun n s => on_left (malloc (n * s))) 7 size 4096 0 toy_dma_start.

(** The slots and the blocks in use after an operation, with its result. *)
Definition dma_in_use {A : Type} (r : res (A * dma_state toy_dma)) : option (A * nat * nat) :=
  match r with Ok (a, s) => Some (a, size (l_slots (rest s).1), size (l_cookies (rest s).1)) | Fault _ => None end.

(** Two pages, but no room for a reservation: the untyped, its two frames and
    the array of their paths stay in use. *)
Example dma_no_room_leaks : dma_in_use (toy_dma_alloc false 8192) = Some (0, 3%nat, 2%nat).
Proof. by vm_compute. Qed.

(** A block that is made and freed: the array of the paths stays in use. *)
Example dma_array_stays :
  match toy_dma_alloc true 8192 with
  | Ok (addr, s) =>
      let cookie := default 0 (fst <$> head (map_to_list (allocs s))) in
      addr = 65536 /\
      snd <$> dma_in_use (dma_free (Some toy_dma_vka) (Some (toy_dma_vspace true cookie)) addr s) = Some 1%nat
  | Fault _ => False
  end.
Proof. by vm_compute. Qed.
