(* ===== verification/TargetMemory.v ===== *)
(** Writing into the memory of another program: what the functions of libsel4utils
    that load a program (elf.c) and set up its stack (process.c) ask of two address
    spaces, the target's and their own, of two allocators, and of the kernel.

    A page of the target is written through a window: its frame's capability is
    copied to a slot of one's own, mapped in one's own address space, written,
    unmapped, and the copy deleted.  [view] is what the promises are about. *)
From stdpp Require Import list_numbers.
From S2P Require Import Prelude Cspacepath Interfaces Objects Vka VspaceTables Vspace VspaceApi Mapping.

(** [bytes] are the target's, by address; [frames] the capability of the frame of
    each page it has; [reserved] its reservations, start and end.  [slots] are the
    slots allocated to us, [copies] the pages that our slots hold copies of,
    [windows] our mappings: page and slot.  [refused]: something was asked for
    that could not be given. *)
Record view : Type := View {
  bytes : Z -> Z;
  frames : gmap Z Z;
  reserved : gmap Z (Z * Z);
  slots : gset Z;
  copies : gmap Z Z;
  windows : gmap Z (Z * Z);
  refused : bool
}.

(** The bytes [l] at [a]. *)
Definition poke (a : Z) (l : list Z) (f : Z -> Z) : Z -> Z :=
  fun x => if bool_decide (a <= x < a + Z.of_nat (length l)) then l !!! Z.to_nat (x - a) else f x.

Definition set_bytes (f : (Z -> Z) -> Z -> Z) (v : view) : view :=
  View (f (bytes v)) (frames v) (reserved v) (slots v) (copies v) (windows v) (refused v).
Definition set_frames (f : gmap Z Z -> gmap Z Z) (v : view) : view :=
  View (bytes v) (f (frames v)) (reserved v) (slots v) (copies v) (windows v) (refused v).
Definition set_reserved (f : gmap Z (Z * Z) -> gmap Z (Z * Z)) (v : view) : view :=
  View (bytes v) (frames v) (f (reserved v)) (slots v) (copies v) (windows v) (refused v).
Definition set_slots (f : gset Z -> gset Z) (v : view) : view :=
  View (bytes v) (frames v) (reserved v) (f (slots v)) (copies v) (windows v) (refused v).
Definition set_copies (f : gmap Z Z -> gmap Z Z) (v : view) : view :=
  View (bytes v) (frames v) (reserved v) (slots v) (f (copies v)) (windows v) (refused v).
Definition set_windows (f : gmap Z (Z * Z) -> gmap Z (Z * Z)) (v : view) : view :=
  View (bytes v) (frames v) (reserved v) (slots v) (copies v) (f (windows v)) (refused v).
Definition refuse (v : view) : view :=
  View (bytes v) (frames v) (reserved v) (slots v) (copies v) (windows v) true.

(** A new frame of the target: its bytes are zero. *)
Definition new_frame (a c : Z) (v : view) : view :=
  set_bytes (poke a (replicate 4096 0)) (set_frames (<[a := c]>) v).

(** The copying of capabilities and of bytes. *)
Class CopyOps (W : Type) : Type := {
  seL4_CNode_Copy : Z -> Z -> Z -> Z -> Z -> Z -> Z -> M W Z;
  (* where to, and what *)
  memcpy : Z -> list Z -> M W unit
}.

(** The promise.  A request is granted, or refused without effect. *)
Class TargetMemory (W : Type) {seL4 : SeL4Constants} `{KO : !KernelOps W} `{MC : !MappingConstants} `{CO : !CopyOps W}
    (target current : vspace_t W) (target_vka vka : vka_t W) : Type := {
  view_of : W -> view;
  target_path : Z -> cspacepath_t;
  own_path : Z -> cspacepath_t;
  own_path_slot : forall s, capPtr (own_path s) = s;
  frames_not_null : forall w p c, frames (view_of w) !! p = Some c -> c <> 0;
  target_get_cap : exists f, get_cap target = Some f /\ forall p w,
    f p w = Ok (default 0 (frames (view_of w) !! p), w);
  target_new_page : exists f, new_pages_at_vaddr target = Some f /\ forall p r s e w,
    reserved (view_of w) !! r = Some (s, e) -> s <= p -> p + 4096 <= e -> p mod 4096 = 0 ->
    frames (view_of w) !! p = None -> exists err w', f p 1 seL4_PageBits r false w = Ok (err, w') /\
      ((err <> 0 /\ view_of w' = refuse (view_of w)) \/ (err = 0 /\ exists c, view_of w' = new_frame p c (view_of w)));
  target_reserve : exists f, reserve_range_at target = Some f /\ forall a n rights c w,
    0 < n -> a mod 4096 = 0 -> n mod 4096 = 0 -> exists r w', f a n rights c w = Ok (r, w') /\
      ((r = 0 /\ view_of w' = refuse (view_of w)) \/
       (r <> 0 /\ reserved (view_of w) !! r = None /\
        view_of w' = set_reserved (<[r := (a, a + n)]>) (view_of w)));
  target_free_reservation : exists f, free_reservation target = Some f /\ forall r w, exists w',
    f r w = Ok (tt, w') /\ view_of w' = set_reserved (delete r) (view_of w);
  target_make_path : exists f, cspace_make_path target_vka = Some f /\ forall c w, f c w = Ok (target_path c, w);
  own_make_path : exists f, cspace_make_path vka = Some f /\ forall s w, f s w = Ok (own_path s, w);
  own_alloc : exists f, cspace_alloc vka = Some f /\ forall w, exists err s w', f w = Ok (err, s, w') /\
    ((err <> 0 /\ view_of w' = refuse (view_of w)) \/
     (err = 0 /\ exists slot, s = Some slot /\ slot <> 0 /\ slot ∉ slots (view_of w) /\
      view_of w' = set_slots (union {[slot]}) (view_of w)));
  own_free : exists f, cspace_free vka = Some f /\ forall s w, exists w',
    f s w = Ok (tt, w') /\ view_of w' = set_slots (fun S => S ∖ {[s]}) (view_of w);
  copy_law : forall s p c w, s ∈ slots (view_of w) -> frames (view_of w) !! p = Some c ->
    exists err w', seL4_CNode_Copy (root (own_path s)) s (capDepth (own_path s))
      (root (target_path c)) (capPtr (target_path c)) (capDepth (target_path c)) seL4_AllRights w = Ok (err, w') /\
      ((err <> 0 /\ view_of w' = refuse (view_of w)) \/
       (err = 0 /\ copies (view_of w) !! s = None /\ view_of w' = set_copies (<[s := p]>) (view_of w)));
  delete_law : forall s w, exists err w', seL4_CNode_Delete (root (own_path s)) s (capDepth (own_path s)) w = Ok (err, w') /\
    view_of w' = set_copies (delete s) (view_of w);
  own_new_pages : new_pages current <> None;
  own_map : exists f, map_pages current = Some f /\ forall s p cacheable w, copies (view_of w) !! s = Some p ->
    exists a w', f [s] None seL4_AllRights 1 seL4_PageBits cacheable w = Ok (a, w') /\
      ((a = 0 /\ view_of w' = refuse (view_of w)) \/
       (0 < a /\ a mod 4096 = 0 /\ a + 4096 < word_size /\ windows (view_of w) !! a = None /\
        view_of w' = set_windows (<[a := (p, s)]>) (view_of w)));
  own_get_cap : exists f, get_cap current = Some f /\ forall a p s w, windows (view_of w) !! a = Some (p, s) ->
    f a w = Ok (s, w);
  own_unmap : exists f, unmap_pages current = Some f /\ forall a p s w, windows (view_of w) !! a = Some (p, s) ->
    exists w', f a 1 seL4_PageBits VSPACE_PRESERVE w = Ok (tt, w') /\ view_of w' = set_windows (delete a) (view_of w);
  memcpy_law : forall a p s o l w, windows (view_of w) !! a = Some (p, s) -> a mod 4096 = 0 ->
    0 <= o < 4096 -> o + Z.of_nat (length l) <= 4096 ->
    exists w', memcpy (a + o) l w = Ok (tt, w') /\ view_of w' = set_bytes (poke (p + o) l) (view_of w)
}.

(** ** Bytes in place *)

(** The bytes [l] are at [a]. *)
Definition holds_at (f : Z -> Z) (a : Z) (l : list Z) : Prop :=
  forall i, 0 <= i < Z.of_nat (length l) -> f (a + i) = l !!! Z.to_nat i.

Lemma poke_in (a : Z) (l : list Z) (f : Z -> Z) (x : Z) :
  a <= x < a + Z.of_nat (length l) -> poke a l f x = l !!! Z.to_nat (x - a).
Proof. intros H. unfold poke. by rewrite bool_decide_eq_true_2. Qed.

Lemma poke_out (a : Z) (l : list Z) (f : Z -> Z) (x : Z) :
  ~ (a <= x < a + Z.of_nat (length l)) -> poke a l f x = f x.
Proof. intros H. unfold poke. by rewrite bool_decide_eq_false_2. Qed.

Lemma poke_holds (a : Z) (l : list Z) (f : Z -> Z) : holds_at (poke a l f) a l.
Proof. intros i Hi. rewrite poke_in by lia. do 2 f_equal. lia. Qed.

(** What was in place stays, where nothing is written over it. *)
Lemma holds_at_same (f g : Z -> Z) (a : Z) (l : list Z) :
  (forall x, a <= x < a + Z.of_nat (length l) -> g x = f x) -> holds_at f a l -> holds_at g a l.
Proof. intros Hs H i Hi. rewrite Hs by lia. by apply H. Qed.

Lemma holds_at_app (f : Z -> Z) (a : Z) (l k : list Z) :
  holds_at f a (l ++ k) <-> holds_at f a l /\ holds_at f (a + Z.of_nat (length l)) k.
Proof.
  unfold holds_at. rewrite length_app. split.
  - intros H. split; intros i Hi.
    + rewrite H, lookup_total_app_l by lia. done.
    + rewrite <- Z.add_assoc, H, lookup_total_app_r by lia. f_equal. lia.
  - intros [H1 H2] i Hi. destruct (decide (i < Z.of_nat (length l))).
    + rewrite lookup_total_app_l by lia. apply H1. lia.
    + rewrite lookup_total_app_r by lia. replace (a + i) with (a + Z.of_nat (length l) + (i - Z.of_nat (length l))) by lia.
      rewrite H2 by lia. f_equal. lia.
Qed.

(** ** Writing through a window *)

Section windows.
Context {W : Type} {seL4 : SeL4Constants} `{KO : !KernelOps W} `{MC : !MappingConstants} `{CO : !CopyOps W}.
Context (target current : vspace_t W) (target_vka vka : vka_t W) `{TM : !TargetMemory W target current target_vka vka}.
Context (CONFIG_HUGE_PAGE : bool).

Lemma valid_page_size {S} (w : S) : sel4_valid_size_bits CONFIG_HUGE_PAGE seL4_PageBits w = Ok (true, w).
Proof. unfold sel4_valid_size_bits, sel4_page_sizes. cbn. by rewrite Z.ltb_irrefl, Z.eqb_refl. Qed.

(** The wrappers, on address spaces and allocators that keep the promise. *)
Lemma get_cap_step (p : Z) (w : W) :
  vspace_get_cap (Some target) p w = Ok (default 0 (frames (view_of w) !! p), w).
Proof. unfold vspace_get_cap. destruct target_get_cap as (f & -> & H). apply H. Qed.

Lemma own_get_cap_step (a p s : Z) (w : W) : windows (view_of w) !! a = Some (p, s) ->
  vspace_get_cap (Some current) a w = Ok (s, w).
Proof. intros Hw. unfold vspace_get_cap. destruct own_get_cap as (f & -> & H). by eapply H. Qed.

Lemma own_path_step (s : Z) (w : W) : vka_cspace_make_path (Some vka) s w = Ok (own_path s, w).
Proof. unfold vka_cspace_make_path. destruct own_make_path as (f & -> & H). apply H. Qed.

Lemma target_path_step (c : Z) (w : W) : vka_cspace_make_path (Some target_vka) c w = Ok (target_path c, w).
Proof. unfold vka_cspace_make_path. destruct target_make_path as (f & -> & H). apply H. Qed.

Lemma alloc_step (w : W) : exists err s w', vka_cspace_alloc (Some vka) w = Ok (err, s, w') /\
  ((err <> 0 /\ view_of w' = refuse (view_of w)) \/
   (err = 0 /\ exists slot, s = Some slot /\ slot <> 0 /\ slot ∉ slots (view_of w) /\ view_of w' = set_slots (union {[slot]}) (view_of w))).
Proof. unfold vka_cspace_alloc. destruct own_alloc as (f & -> & H). apply H. Qed.

Lemma free_step (s : Z) (w : W) : exists w', vka_cspace_free (Some vka) s w = Ok (tt, w') /\
  view_of w' = set_slots (fun S => S ∖ {[s]}) (view_of w).
Proof. unfold vka_cspace_free. destruct own_free as (f & -> & H). apply H. Qed.

Lemma copy_step (s p c : Z) (w : W) : s ∈ slots (view_of w) -> frames (view_of w) !! p = Some c ->
  exists err w', vka_cnode_copy seL4_CNode_Copy (own_path s) (target_path c) seL4_AllRights w = Ok (err, w') /\
    ((err <> 0 /\ view_of w' = refuse (view_of w)) \/
     (err = 0 /\ copies (view_of w) !! s = None /\ view_of w' = set_copies (<[s := p]>) (view_of w))).
Proof. intros Hs Hf. unfold vka_cnode_copy. rewrite own_path_slot. by apply copy_law. Qed.

Lemma delete_step (s : Z) (w : W) : exists err w', vka_cnode_delete (own_path s) w = Ok (err, w') /\
  view_of w' = set_copies (delete s) (view_of w).
Proof. unfold vka_cnode_delete. rewrite own_path_slot. apply delete_law. Qed.

Lemma map_step (s p cacheable : Z) (w : W) : copies (view_of w) !! s = Some p ->
  exists a w', vspace_map_pages CONFIG_HUGE_PAGE (Some current) [s] None seL4_AllRights 1 seL4_PageBits cacheable w = Ok (a, w') /\
    ((a = 0 /\ view_of w' = refuse (view_of w)) \/
     (0 < a /\ a mod 4096 = 0 /\ a + 4096 < word_size /\ windows (view_of w) !! a = None /\
      view_of w' = set_windows (<[a := (p, s)]>) (view_of w))).
Proof.
  intros Hs. unfold vspace_map_pages. destruct (new_pages current) eqn:E; [|by destruct own_new_pages].
  change (1 =? 0) with false. cbn beta iota. rewrite (bind_ok _ _ _ _ _ (valid_page_size w)). cbn [negb].
  destruct own_map as (f & -> & H). by apply H.
Qed.

Lemma unmap_step (a p s : Z) (w : W) : windows (view_of w) !! a = Some (p, s) ->
  exists w', vspace_unmap_pages (Some current) a 1 seL4_PageBits VSPACE_PRESERVE w = Ok (tt, w') /\
    view_of w' = set_windows (delete a) (view_of w).
Proof. intros Hw. unfold vspace_unmap_pages. destruct own_unmap as (f & -> & H). by eapply H. Qed.

Lemma memcpy_step (a p s o : Z) (l : list Z) (w : W) : windows (view_of w) !! a = Some (p, s) ->
  a mod 4096 = 0 -> 0 <= o < 4096 -> o + Z.of_nat (length l) <= 4096 -> 0 < a -> a + 4096 < word_size ->
  exists w', memcpy (a ⊞ o) l w = Ok (tt, w') /\ view_of w' = set_bytes (poke (p + o) l) (view_of w).
Proof. intros Hw Ha Ho Hl H0 Hb. rewrite wrap_small by (unfold is_word; lia). by eapply memcpy_law. Qed.

End windows.

(** ** A model of the promise

    The state is a view without the frames, the pages the target has, the number
    of requests that will still be granted, and a name to hand out.  The capability
    of the frame at [p] is [2 * p + 1]. *)

Record workshop : Type := Workshop { ws_view : view; ws_pages : gset Z; granted : nat; ws_next : Z }.

Definition frames_of (pages : gset Z) : gmap Z Z :=
  map_imap (fun p _ => Some (2 * p + 1)) (gset_to_gmap tt pages).
Definition workshop_view (w : workshop) : view := set_frames (fun _ => frames_of (ws_pages w)) (ws_view w).

(** A request: refused, or granted with a new name, a multiple of the size of a page. *)
Definition request {A : Type} (refusal : A) (grant : Z -> A * (view -> view) * gset Z) : M workshop A := fun w =>
  match granted w with
  | O => Ok (refusal, Workshop (refuse (ws_view w)) (ws_pages w) 0 (ws_next w))
  | S k => let '(a, f, pages) := grant (ws_next w) in
           Ok (a, Workshop (f (ws_view w)) (pages ∪ ws_pages w) k (ws_next w + 4096))
  end.

(** A change that is always made. *)
Definition perform {A : Type} (a : A) (f : view -> view) : M workshop A := fun w =>
  Ok (a, Workshop (f (ws_view w)) (ws_pages w) (granted w) (ws_next w)).

Definition workshop_path (s : Z) : cspacepath_t := Cspacepath s 64 2 0 0 0 0.

#[export] Instance workshop_kernel : KernelOps workshop := {|
  seL4_CNode_Delete _ s _ := perform 0 (set_copies (delete s));
  seL4_CNode_Move _ _ _ _ _ _ := ret 0;
  seL4_Untyped_Retype _ _ _ _ _ _ _ _ := ret 0
|}.

#[export] Instance workshop_copies : CopyOps workshop := {|
  seL4_CNode_Copy _ s _ _ c _ _ := fun w =>
    match copies (ws_view w) !! s with
    | None => request 1 (fun _ => (0, set_copies (<[s := c / 2]>), ∅)) w
    | Some _ => perform 8 refuse w
    end;
  memcpy a l := fun w =>
    match windows (ws_view w) !! (a - a mod 4096) with
    | Some (p, _) => perform tt (set_bytes (poke (p + a mod 4096) l)) w
    | None => Fault OutOfBounds
    end
|}.

Definition workshop_target : vspace_t workshop := {|
  data := 4096; new_pages := None; map_pages := None;
  new_pages_at_vaddr := Some (fun p _ _ r _ w =>
    match reserved (ws_view w) !! r with
    | Some (s, e) => if (s <=? p) && (p + 4096 <=? e)
        then request 1 (fun _ => (0, set_bytes (poke p (replicate 4096 0)), {[p]})) w else Ok (-1, w)
    | None => Ok (-1, w)
    end);
  map_pages_at_vaddr := None; deferred_rights_map_pages_at_vaddr := None; unmap_pages := None; tear_down := None;
  reserve_range_aligned := Some (fun n _ _ _ =>
    request (0, None) (fun a => (a, Some (a * 16), set_reserved (<[a := (a * 16, a * 16 + n)]>), ∅)));
  reserve_range_at := Some (fun a n _ _ w =>
    let r := fresh (dom (reserved (ws_view w)) ∪ {[0]}) in
    request 0 (fun _ => (r, set_reserved (<[r := (a, a + n)]>), ∅)) w);
  reserve_deferred_rights_range_at := None;
  free_reservation := Some (fun r => perform tt (set_reserved (delete r)));
  free_reservation_by_vaddr := None;
  get_cap := Some (fun p w => Ok (default 0 (frames_of (ws_pages w) !! p), w));
  get_root := None; get_cookie := None; share_mem_at_vaddr := None; allocated_object := None
|}.

Definition workshop_own : vspace_t workshop := {|
  data := 8192; new_pages := Some (fun _ _ _ => ret 0);
  map_pages := Some (fun slots _ _ _ _ _ w =>
    let s := default 0 (head slots) in
    let a := ws_next w in
    if bool_decide (0 < a /\ a mod 4096 = 0 /\ a + 4096 < word_size /\ windows (ws_view w) !! a = None)
    then request 0 (fun a => (a, set_windows (<[a := (default 0 (copies (ws_view w) !! s), s)]>), ∅)) w
    else perform 0 refuse w);
  new_pages_at_vaddr := None; map_pages_at_vaddr := None; deferred_rights_map_pages_at_vaddr := None;
  unmap_pages := Some (fun a _ _ _ => perform tt (set_windows (delete a)));
  tear_down := None; reserve_range_aligned := None; reserve_range_at := None;
  reserve_deferred_rights_range_at := None; free_reservation := None; free_reservation_by_vaddr := None;
  get_cap := Some (fun a w => Ok (default 0 (snd <$> windows (ws_view w) !! a), w));
  get_root := None; get_cookie := None; share_mem_at_vaddr := None; allocated_object := None
|}.

Definition workshop_vka : vka_t workshop := {|
  cspace_alloc := Some (fun w =>
    let s := fresh ({[0]} ∪ slots (ws_view w)) in
    request (1, None) (fun _ => ((0, Some s), set_slots (union {[s]}), ∅)) w);
  cspace_make_path := Some (fun s => ret (workshop_path s));
  utspace_alloc := None; utspace_alloc_maybe_device := None; utspace_alloc_at := None;
  cspace_free := Some (fun s => perform tt (set_slots (fun S => S ∖ {[s]})));
  utspace_free := None; utspace_paddr := None
|}.

Lemma frames_of_lookup (pages : gset Z) (p c : Z) :
  frames_of pages !! p = Some c <-> p ∈ pages /\ c = 2 * p + 1.
Proof.
  unfold frames_of. rewrite map_lookup_imap, lookup_gset_to_gmap.
  destruct (decide (p ∈ pages)) as [H|H].
  - rewrite option_guard_True by done. cbn. naive_solver.
  - rewrite option_guard_False by done. cbn. naive_solver.
Qed.

Lemma frames_of_insert (pages : gset Z) (p : Z) : frames_of ({[p]} ∪ pages) = <[p := 2 * p + 1]> (frames_of pages).
Proof. unfold frames_of. rewrite gset_to_gmap_union_singleton. by rewrite (map_imap_insert _ p tt). Qed.

(** What a request does to the view. *)
Lemma request_view {A} (refusal : A) (grant : Z -> A * (view -> view) * gset Z) (w : workshop) :
  (exists w', request refusal grant w = Ok (refusal, w') /\ workshop_view w' = refuse (workshop_view w)) \/
  (exists w', request refusal grant w = Ok ((grant (ws_next w)).1.1, w') /\
    workshop_view w' = set_frames (fun _ => frames_of ((grant (ws_next w)).2 ∪ ws_pages w)) ((grant (ws_next w)).1.2 (ws_view w))).
Proof.
  unfold request. destruct (granted w) as [|k]; [by left; eexists|right].
  destruct (grant (ws_next w)) as [[a f] pages]. by eexists.
Qed.

Ltac ask :=
  match goal with |- context [request ?r ?g ?w] =>
    let w' := fresh "w'" in let Hw := fresh "Hw" in let Hv := fresh "Hv" in
    destruct (request_view r g w) as [(w' & Hw & Hv)|(w' & Hw & Hv)]; rewrite Hw
  end.

#[export] Program Instance workshop_memory `{SeL4Constants, MappingConstants} :
    TargetMemory workshop workshop_target workshop_own workshop_vka workshop_vka := {|
  view_of := workshop_view; target_path := workshop_path; own_path := workshop_path
|}.
Next Obligation. done. Qed.
Next Obligation. intros ?? w p c [_ ->]%frames_of_lookup. lia. Qed.
Next Obligation. intros. by eexists. Qed.
Next Obligation.
  intros. eexists. split; [reflexivity|]. intros p r s e w Hr Hs He Hp Hf. cbn in Hr |- *.
  rewrite Hr, (proj2 (Z.leb_le s p)), (proj2 (Z.leb_le (p + 4096) e)) by lia. cbn [andb].
  ask; do 2 eexists; (split; [done|]); [by left|].
  right. split; [done|]. exists (2 * p + 1). rewrite Hv. cbn. by rewrite frames_of_insert.
Qed.
Next Obligation.
  intros. eexists. split; [reflexivity|]. intros a n rights c w Hn Ha Hm. cbn.
  pose proof (is_fresh (dom (reserved (ws_view w)) ∪ {[0]})) as Hr.
  ask; do 2 eexists; (split; [done|]); [by left|].
  right. cbn in Hv |- *. split_and!; [set_solver|apply not_elem_of_dom; set_solver|].
  by rewrite Hv, union_empty_l_L.
Qed.
Next Obligation. intros. eexists. split; [reflexivity|]. intros r w. by eexists. Qed.
Next Obligation. intros. by eexists. Qed.
Next Obligation. intros. by eexists. Qed.
Next Obligation.
  intros. eexists. split; [reflexivity|]. intros w. cbn. pose proof (is_fresh ({[0]} ∪ slots (ws_view w))) as Hs.
  ask; do 3 eexists; (split; [done|]); [by left|].
  right. cbn in Hv |- *. split; [done|]. eexists. split_and!; [done|set_solver|set_solver|]. by rewrite Hv, union_empty_l_L.
Qed.
Next Obligation. intros. eexists. split; [reflexivity|]. intros s w. by eexists. Qed.
Next Obligation.
  intros ?? s p c w Hs [Hp ->]%frames_of_lookup. cbn.
  destruct (copies (ws_view w) !! s) eqn:E; [do 2 eexists; split; [reflexivity|by left]|].
  ask; do 2 eexists; (split; [done|]); [by left|].
  right. cbn in Hv |- *. split_and!; [done|done|]. rewrite Hv, union_empty_l_L.
  replace ((2 * p + 1) / 2) with p by dlia. done.
Qed.
Next Obligation. intros. cbn. do 2 eexists. by split. Qed.
Next Obligation. intros. done. Qed.
Next Obligation.
  intros. eexists. split; [reflexivity|]. intros s p c w Hs. cbn in Hs |- *. rewrite Hs. cbn.
  case_bool_decide as H'; [|do 2 eexists; split; [done|by left]]. destruct H' as (? & ? & ? & ?).
  ask; do 2 eexists; (split; [done|]); [by left|].
  right. cbn in Hv |- *. split_and!; [done..|]. by rewrite Hv, union_empty_l_L.
Qed.
Next Obligation. intros. eexists. split; [reflexivity|]. intros a p s w Hw. cbn in Hw |- *. by rewrite Hw. Qed.
Next Obligation. intros. eexists. split; [reflexivity|]. intros a p s w Hw. by eexists. Qed.
Next Obligation.
  intros ?? a p s o l w Hw Ha Ho Hl. cbn in Hw |- *.
  replace ((a + o) mod 4096) with o by (rewrite Z.add_mod, Ha, (Z.mod_small o), Z.add_0_l, Z.mod_small by lia; done).
  replace (a + o - o) with a by lia. rewrite Hw. by eexists.
Qed.
