(* ===== verification/Elf.v ===== *)
(** libsel4utils/src/elf.c with include/sel4utils/elf.h: reserving address space
    for the segments of an ELF file, and loading them.

    The reader of ELF files (libelf), the sort of sglib and the bits of the rights
    are parameters.  The file is in our own memory: [elf_bytes] are the bytes at an
    address of it.  The array of regions is passed and given back; a pointer to it
    that is null is [None].  Integers are cut to their width where they are stored:
    the size of a region and the position in a segment are 32 bits wide.  Messages
    are left out, and so are the caches of ARM and RISC-V. *)
From S2P Require Import Prelude Cspacepath Interfaces Objects Vka VspaceTables Vspace VspaceApi Mapping TargetMemory.

Class ElfReader : Type := {
  elf_t : Type;
  elf_bytes : elf_t -> Z -> Z;
  elf_getNumProgramHeaders : elf_t -> Z;
  elf_getProgramHeaderType : elf_t -> Z -> Z;
  elf_getProgramHeaderFlags : elf_t -> Z -> Z;
  elf_getProgramHeaderVaddr : elf_t -> Z -> Z;
  elf_getProgramHeaderPaddr : elf_t -> Z -> Z;
  elf_getProgramHeaderOffset : elf_t -> Z -> Z;
  elf_getProgramHeaderAlign : elf_t -> Z -> Z;
  elf_getProgramHeaderMemorySize : elf_t -> Z -> Z;
  elf_getProgramHeaderFileSize : elf_t -> Z -> Z;
  (* 0: there is none *)
  elf_getProgramSegment : elf_t -> Z -> Z;
  elf_getEntryPoint : elf_t -> Z;
  (* its address, 0 if there is none, and its number *)
  elf_getSectionNamed : elf_t -> list Z -> Z * Z;
  elf_getSectionSize : elf_t -> Z -> Z;
  (* eight bytes of our memory *)
  load_word : Z -> Z;
  PT_LOAD : Z;
  PF_X : Z;
  PF_W : Z;
  PF_R : Z
}.

Class CapRights : Type := {
  (* grant reply, grant, read, write *)
  seL4_CapRights_new : bool -> bool -> bool -> bool -> Z;
  seL4_CapRights_get_capAllowRead : Z -> bool;
  seL4_CapRights_get_capAllowWrite : Z -> bool;
  seL4_NoRights : Z;
  seL4_InvalidArgument : Z;
  (* utils/page.h *)
  PAGE_ALIGN_4K : Z -> Z;
  PAGE_MASK_4K : Z
}.

Record sel4utils_elf_region_t : Type := Region {
  rights : Z; elf_vstart : Z; reservation_vstart : Z; region_size : Z; reservation_size : Z;
  reservation : Z; cacheable : Z; segment_index : Z
}.
Definition no_region : sel4utils_elf_region_t := Region 0 0 0 0 0 0 0 0.

Definition MIN (a b : Z) : Z := if a <? b then a else b.

Section regions.
Context `{ER : !ElfReader} `{CR : !CapRights} `{UM : !UtilsMacros}.
Context (sglib_quick_sort : (sel4utils_elf_region_t -> sel4utils_elf_region_t -> res Z) ->
  list sel4utils_elf_region_t -> res (list sel4utils_elf_region_t)).
Implicit Types (elf_file : elf_t) (regions : list sel4utils_elf_region_t).

Definition rights_from_elf (permissions : Z) : Z :=
  let canRead := negb (Z.land permissions PF_R =? 0) || negb (Z.land permissions PF_X =? 0) in
  let canWrite := negb (Z.land permissions PF_W =? 0) in
  seL4_CapRights_new false false canRead canWrite.

(** ** The segments of a file *)

Definition is_loadable_section elf_file (index : Z) : bool := elf_getProgramHeaderType elf_file index =? PT_LOAD.

Fixpoint count_loop (k : nat) elf_file (i loadable_headers : Z) : Z :=
  match k with
  | O => loadable_headers
  | S k => count_loop k elf_file (i + 1) (if is_loadable_section elf_file i then loadable_headers + 1 else loadable_headers)
  end.
Definition count_loadable_regions elf_file : Z :=
  count_loop (Z.to_nat (to_int (elf_getNumProgramHeaders elf_file))) elf_file 0 0.
Definition sel4utils_elf_num_regions elf_file : Z := count_loadable_regions elf_file.

Definition read_region elf_file (i : Z) (region : sel4utils_elf_region_t) : sel4utils_elf_region_t :=
  Region (rights_from_elf (elf_getProgramHeaderFlags elf_file i)) (elf_getProgramHeaderVaddr elf_file i)
    (reservation_vstart region) (elf_getProgramHeaderMemorySize elf_file i mod 2 ^ 32) (reservation_size region)
    (reservation region) 1 i.

Fixpoint read_loop (k : nat) elf_file (i region_id : Z) regions : res (Z * list sel4utils_elf_region_t) :=
  match k with
  | O => Ok (region_id, regions)
  | S k =>
      if is_loadable_section elf_file i then
        let? region := arr_get regions region_id in
        let? regions := arr_set regions region_id (read_region elf_file i region) in
        read_loop k elf_file (i + 1) (region_id + 1) regions
      else read_loop k elf_file (i + 1) region_id regions
  end.

Definition read_regions elf_file (total_regions : Z) regions : res (Z * list sel4utils_elf_region_t) :=
  let? (region_id, regions) := read_loop (Z.to_nat (to_int (elf_getNumProgramHeaders elf_file))) elf_file 0 0 regions in
  Ok (if negb (region_id =? total_regions) then 1 else 0, regions).

(** Segments that overlap stop the program. *)
Definition compare_regions (a b : sel4utils_elf_region_t) : res Z :=
  if elf_vstart a ⊞ region_size a <=? elf_vstart b then Ok (-1)
  else if elf_vstart b ⊞ region_size b <=? elf_vstart a then Ok 1
  else Fault Fatal.

(** ** Placing the reservations *)

(** Whether to move, [None] where the function returns -1. *)
Definition cap_writes_check_move_frame (a b : Z) : option bool :=
  if negb (seL4_CapRights_get_capAllowRead a) || negb (seL4_CapRights_get_capAllowRead b) then None
  else Some (negb (seL4_CapRights_get_capAllowWrite a) && seL4_CapRights_get_capAllowWrite b).

Definition with_reservation (start bytes : Z) (r : sel4utils_elf_region_t) : sel4utils_elf_region_t :=
  Region (rights r) (elf_vstart r) start (region_size r) bytes (reservation r) (cacheable r) (segment_index r).

(** The frame that is moved out of the previous region's reservation. *)
Definition shrink_previous (i : Z) regions : res (list sel4utils_elf_region_t) :=
  if i =? 0 then Fault Fatal else
  let? previous := arr_get regions (i - 1) in
  if reservation_size previous <? PAGE_SIZE_4K then Fault Fatal else
  arr_set regions (i - 1) (with_reservation (reservation_vstart previous) (reservation_size previous ⊟ PAGE_SIZE_4K) previous).

Fixpoint prepare_loop (k : nat) (i prev_res_start prev_res_size prev_rights : Z) regions
    : res (Z * list sel4utils_elf_region_t) :=
  match k with
  | O => Ok (0, regions)
  | S k =>
      let? region := arr_get regions i in
      let current_res_start := PAGE_ALIGN_4K (elf_vstart region) in
      let current_res_top := ROUND_UP (elf_vstart region ⊞ region_size region) PAGE_SIZE_4K in
      let current_res_size := current_res_top ⊟ current_res_start in
      let? _ := rassert (current_res_size mod PAGE_SIZE_4K =? 0) in
      let current_rights := rights region in
      let record (start bytes : Z) regions :=
        let? region := arr_get regions i in
        let? regions := arr_set regions i (with_reservation start bytes region) in
        prepare_loop k (i + 1) start bytes current_rights regions in
      if prev_res_start ⊞ prev_res_size >? current_res_start then
        match cap_writes_check_move_frame prev_rights current_rights with
        | None => Ok (-1, regions)
        | Some true =>
            let? regions := shrink_previous i regions in
            record current_res_start current_res_size regions
        | Some false =>
            let current_res_start := ROUND_UP (prev_res_start ⊞ prev_res_size ⊞ 1) PAGE_SIZE_4K in
            let current_res_size := current_res_top ⊟ current_res_start in
            if ROUND_UP (region_size region) PAGE_SIZE_4K ⊟ current_res_size =? PAGE_SIZE_4K then Fault Fatal
            else record current_res_start current_res_size regions
        end
      else record current_res_start current_res_size regions
  end.

Definition prepare_reservations (total_regions : Z) regions : res (Z * list sel4utils_elf_region_t) :=
  prepare_loop (Z.to_nat total_regions) 0 0 0 seL4_NoRights regions.

Definition entry_point elf_file : res Z :=
  let entry_point := elf_getEntryPoint elf_file in
  if negb (Z.shiftr entry_point 32 mod 2 ^ 32 =? 0) then Ok 0 else
  let? _ := rassert (negb (entry_point =? 0)) in
  Ok entry_point.

(** ** Sections and headers *)

(** The address, and the size where there is a section. *)
Definition sel4utils_elf_get_section elf_file (section_name : list Z) : Z * option Z :=
  let '(addr, section_id) := elf_getSectionNamed elf_file section_name in
  if negb (addr =? 0) then (addr, Some (elf_getSectionSize elf_file section_id)) else (0, None).

(** "__vsyscall" *)
Definition vsyscall_name : list Z := [95; 95; 118; 115; 121; 115; 99; 97; 108; 108].
Definition sel4utils_elf_get_vsyscall elf_file : Z :=
  let '(addr, _) := sel4utils_elf_get_section elf_file vsyscall_name in
  if negb (addr =? 0) then load_word addr else 0.

Record Elf_Phdr : Type := Phdr {
  p_type : Z; p_offset : Z; p_vaddr : Z; p_paddr : Z; p_filesz : Z; p_memsz : Z; p_flags : Z; p_align : Z
}.

(** A 32-bit count. *)
Definition sel4utils_elf_num_phdrs elf_file : Z := elf_getNumProgramHeaders elf_file mod 2 ^ 32.

Fixpoint read_phdrs_loop (k : nat) elf_file (i num_phdrs max_phdrs : Z) (phdrs : list Elf_Phdr) : res (list Elf_Phdr) :=
  match k with
  | O => Fault OutOfFuel
  | S k =>
      if (i <? num_phdrs) && (i <? max_phdrs) then
        let? phdrs := arr_set phdrs i (Phdr (elf_getProgramHeaderType elf_file i)
          (elf_getProgramHeaderOffset elf_file i) (elf_getProgramHeaderVaddr elf_file i)
          (elf_getProgramHeaderPaddr elf_file i) (elf_getProgramHeaderFileSize elf_file i)
          (elf_getProgramHeaderMemorySize elf_file i) (elf_getProgramHeaderFlags elf_file i)
          (elf_getProgramHeaderAlign elf_file i)) in
        read_phdrs_loop k elf_file (i + 1) num_phdrs max_phdrs phdrs
      else Ok phdrs
  end.
Definition sel4utils_elf_read_phdrs elf_file (max_phdrs : Z) (phdrs : list Elf_Phdr) : res (list Elf_Phdr) :=
  read_phdrs_loop (S (Z.to_nat max_phdrs)) elf_file 0 (elf_getNumProgramHeaders elf_file) max_phdrs phdrs.

(** ** Loading *)

Section loading.
Context {W : Type} {seL4 : SeL4Constants} `{KO : !KernelOps W} `{MC : !MappingConstants} `{CO : !CopyOps W}.
Context (CONFIG_HUGE_PAGE : bool).
Implicit Types (loadee loader : option (vspace_t W)) (loadee_vka loader_vka : option (vka_t W)).

(** The reservation a frame belongs to, [None] where the regions are invalid. *)
Definition choose_reservation regions (region : sel4utils_elf_region_t) (region_index num_regions segment_size pos loadee_vaddr : Z)
    : res (option Z) :=
  if loadee_vaddr <? reservation_vstart region then
    if region_index - 1 <? 0 then Ok None
    else let? previous := arr_get regions (region_index - 1) in Ok (Some (reservation previous))
  else if loadee_vaddr ⊞ MIN (segment_size ⊟ pos) PAGE_SIZE_4K >? reservation_vstart region ⊞ reservation_size region then
    if region_index + 1 >=? num_regions then Ok None
    else let? next := arr_get regions (region_index + 1) in Ok (Some (reservation next))
  else Ok (Some (reservation region)).

Definition file_bytes elf_file (src n : Z) : list Z := (fun i => elf_bytes elf_file (src + Z.of_nat i)) <$> seq 0 (Z.to_nat n).

Fixpoint load_loop (fuel : nat) loadee loader loadee_vka elf_file regions (region : sel4utils_elf_region_t)
    (loader_frame_cap : cspacepath_t) (file_size num_regions region_index segment_size error pos dst src : Z) : M W Z :=
  match fuel with
  | O => stop OutOfFuel
  | S fuel =>
      let again := load_loop fuel loadee loader loadee_vka elf_file regions region loader_frame_cap
        file_size num_regions region_index segment_size in
      if (pos <? segment_size) && (error =? seL4_NoError) then
        let loadee_vaddr := ROUND_DOWN dst PAGE_SIZE_4K in
        let! reservation := lift (choose_reservation regions region region_index num_regions segment_size pos loadee_vaddr) in
        match reservation with
        | None => again seL4_InvalidArgument pos dst src
        | Some reservation =>
            let! cap := vspace_get_cap loadee loadee_vaddr in
            let! error := (if cap =? 0
              then vspace_new_pages_at_vaddr loadee loadee_vaddr 1 seL4_PageBits reservation else ret error) in
            if negb (error =? seL4_NoError) then again error pos dst src else
            let! cap := vspace_get_cap loadee loadee_vaddr in
            let! loadee_frame_cap := vka_cspace_make_path loadee_vka cap in
            let! error := vka_cnode_copy seL4_CNode_Copy loader_frame_cap loadee_frame_cap seL4_AllRights in
            if negb (error =? seL4_NoError) then again error pos dst src else
            let! loader_vaddr := vspace_map_pages CONFIG_HUGE_PAGE loader [capPtr loader_frame_cap] None
              seL4_AllRights 1 seL4_PageBits 1 in
            if loader_vaddr =? 0 then again (-1) pos dst src else
            let nbytes := PAGE_SIZE_4K - Z.land dst PAGE_MASK_4K in
            let! _ := (if pos <? file_size
              then memcpy (loader_vaddr ⊞ dst mod PAGE_SIZE_4K) (file_bytes elf_file src (MIN nbytes (file_size ⊟ pos)))
              else ret tt) in
            let! _ := vspace_unmap_pages loader loader_vaddr 1 seL4_PageBits VSPACE_PRESERVE in
            let! _ := vka_cnode_delete loader_frame_cap in
            again error ((pos + nbytes) mod 2 ^ 32) (dst ⊞ nbytes) (src ⊞ nbytes)
        end
      else ret error
  end.

(** A slot that the allocator did not write is read uninitialised, as 0.  The
    loop makes a round for each page, one more to see that it is done. *)
Definition load_segment loadee loader loadee_vka loader_vka elf_file (src file_size num_regions : Z) regions
    (region_index : Z) : M W Z :=
  let! region := lift (arr_get regions region_index) in
  let segment_size := region_size region in
  let dst := elf_vstart region in
  if file_size >? segment_size then ret seL4_InvalidArgument else
  let! (error, loader_slot) := vka_cspace_alloc loader_vka in
  if negb (error =? 0) then ret error else
  let! loader_frame_cap := vka_cspace_make_path loader_vka (default 0 loader_slot) in
  let! error := load_loop (Z.to_nat (segment_size / PAGE_SIZE_4K) + 3) loadee loader loadee_vka elf_file regions region
    loader_frame_cap file_size num_regions region_index segment_size error 0 dst src in
  let! _ := vka_cspace_free loader_vka (capPtr loader_frame_cap) in
  ret error.

Fixpoint load_segments_loop (k : nat) loadee loader loadee_vka loader_vka elf_file (num_regions : Z) regions (i : Z) : M W Z :=
  match k with
  | O => ret 0
  | S k =>
      let! region := lift (arr_get regions i) in
      let source_addr := elf_getProgramSegment elf_file (segment_index region) in
      if source_addr =? 0 then ret 1 else
      let file_size := elf_getProgramHeaderFileSize elf_file (segment_index region) in
      let! error := load_segment loadee loader loadee_vka loader_vka elf_file source_addr file_size num_regions regions i in
      if negb (error =? 0) then ret error
      else load_segments_loop k loadee loader loadee_vka loader_vka elf_file num_regions regions (i + 1)
  end.
Definition load_segments loadee loader loadee_vka loader_vka elf_file (num_regions : Z) regions : M W Z :=
  load_segments_loop (Z.to_nat num_regions) loadee loader loadee_vka loader_vka elf_file num_regions regions 0.

Definition with_elf_reservation (r : Z) (start : option Z) (region : sel4utils_elf_region_t) : sel4utils_elf_region_t :=
  Region (rights region) (elf_vstart region) (default (reservation_vstart region) start) (region_size region)
    (reservation_size region) r (cacheable region) (segment_index region).

Fixpoint create_loop (k : nat) loadee (i : Z) (anywhere : bool) regions : M W (Z * list sel4utils_elf_region_t) :=
  match k with
  | O => ret (0, regions)
  | S k =>
      let! region := lift (arr_get regions i) in
      if reservation_size region =? 0 then create_loop k loadee (i + 1) anywhere regions else
      let! (r, start) := (if anywhere
        then vspace_reserve_range loadee (reservation_size region) (rights region) (cacheable region)
        else let! r := vspace_reserve_range_at loadee (reservation_vstart region) (reservation_size region)
               (rights region) (cacheable region) in ret (r, None)) in
      let! regions := lift (arr_set regions i (with_elf_reservation r start region)) in
      if r =? 0 then ret (-1, regions) else create_loop k loadee (i + 1) anywhere regions
  end.
Definition create_reservations loadee (total_regions : Z) regions (anywhere : bool) : M W (Z * list sel4utils_elf_region_t) :=
  create_loop (Z.to_nat total_regions) loadee 0 anywhere regions.

Definition elf_reserve_regions_in_vspace loadee elf_file (num_regions : Z) regions (mapanywhere : bool)
    : M W (Z * list sel4utils_elf_region_t) :=
  let! (error, regions) := lift (read_regions elf_file num_regions regions) in
  if negb (error =? 0) then ret (error, regions) else
  let! sorted := lift (sglib_quick_sort compare_regions (take (Z.to_nat num_regions) regions)) in
  let regions := sorted ++ drop (Z.to_nat num_regions) regions in
  let! (error, regions) := lift (prepare_reservations num_regions regions) in
  if negb (error =? 0) then ret (error, regions) else
  create_reservations loadee num_regions regions mapanywhere.

(** The entry point, 0 on error. *)
Definition sel4utils_elf_reserve loadee elf_file regions : M W (Z * list sel4utils_elf_region_t) :=
  let num_regions := count_loadable_regions elf_file in
  let! (error, regions) := elf_reserve_regions_in_vspace loadee elf_file num_regions regions true in
  if negb (error =? 0) then ret (0, regions) else
  let! entry := lift (entry_point elf_file) in
  ret (entry, regions).

Fixpoint clear_loop (k : nat) loadee (i : Z) regions : M W unit :=
  match k with
  | O => ret tt
  | S k =>
      let! region := lift (arr_get regions i) in
      let! _ := (if reservation_size region >? 0 then vspace_free_reservation loadee (reservation region) else ret tt) in
      clear_loop k loadee (i + 1) regions
  end.

(** The array on the stack is not initialised; its fields are then 0. *)
Definition sel4utils_elf_load_record_regions loadee loader loadee_vka loader_vka elf_file
    (regions : option (list sel4utils_elf_region_t)) (mapanywhere : bool) : M W (Z * option (list sel4utils_elf_region_t)) :=
  let num_regions := count_loadable_regions elf_file in
  let clear_at_end := match regions with None => true | Some _ => false end in
  let array := default (replicate (Z.to_nat num_regions) no_region) regions in
  let back array := match regions with None => None | Some _ => Some array end in
  let! (error, array) := elf_reserve_regions_in_vspace loadee elf_file num_regions array mapanywhere in
  if negb (error =? 0) then ret (0, back array) else
  let! error := load_segments loadee loader loadee_vka loader_vka elf_file num_regions array in
  if negb (error =? 0) then ret (0, back array) else
  let! _ := (if clear_at_end then clear_loop (Z.to_nat num_regions) loadee 0 array else ret tt) in
  let! entry := lift (entry_point elf_file) in
  ret (entry, back array).

Definition sel4utils_elf_load loadee loader loadee_vka loader_vka elf_file : M W Z :=
  let! (entry, _) := sel4utils_elf_load_record_regions loadee loader loadee_vka loader_vka elf_file None false in
  ret entry.

End loading.
End regions.
