(* ===== verification/ElfPlace.v ===== *)
(** Where prepare_reservations of libsel4utils/src/elf.c puts the reservations of
    the segments of an ELF file, and that each page of a segment is in the one
    load_segment chooses for it - provided that segments share a page only where
    the upper one is writable and the lower one is not. *)
From S2P Require Import Prelude Cspacepath Interfaces Objects Vka VspaceTables VspaceView VspaceSpec Vspace VspaceReserve.
From S2P Require Import VspaceApi Mapping TargetMemory Elf.

(** The bits of the rights and the pages of libutils. *)
Class CapRightsLaws `{CR : !CapRights} : Prop := {
  read_new : forall a b r w, seL4_CapRights_get_capAllowRead (seL4_CapRights_new a b r w) = r;
  write_new : forall a b r w, seL4_CapRights_get_capAllowWrite (seL4_CapRights_new a b r w) = w;
  invalid_argument : seL4_InvalidArgument <> 0;
  page_align_law : forall x, is_word x -> PAGE_ALIGN_4K x = x / 4096 * 4096;
  page_mask_law : PAGE_MASK_4K = 4095
}.

#[export] Instance x86_rights : CapRights := {|
  seL4_CapRights_new gr g r w := b2z w + 2 * b2z r + 4 * b2z g + 8 * b2z gr;
  seL4_CapRights_get_capAllowRead x := Z.testbit x 1;
  seL4_CapRights_get_capAllowWrite x := Z.testbit x 0;
  seL4_NoRights := 0; seL4_InvalidArgument := 1;
  PAGE_ALIGN_4K x := Z.land x (wnot 4095); PAGE_MASK_4K := 4095
|}.
#[export] Instance x86_rights_laws : CapRightsLaws.
Proof.
  split; [by intros [] [] [] []|by intros [] [] [] []|done| |done].
  intros x Hx. cbn. change 4095 with (MASK 12). rewrite wnot_MASK by done. done.
Qed.

(** ** Segments and their pages *)

Implicit Types (r a b : sel4utils_elf_region_t) (l : list sel4utils_elf_region_t).

Definition segment_end r : Z := elf_vstart r + region_size r.
(** The first page, and the end of the last one. *)
Definition first_page r : Z := elf_vstart r / 4096 * 4096.
Definition page_end r : Z := (segment_end r + 4095) / 4096 * 4096.
Definition page_of_segment r (p : Z) : Prop := p mod 4096 = 0 /\ first_page r <= p < page_end r.

Definition shares_page a b : Prop := first_page b < page_end a.

(** What is asked of a segment: it has bytes, of less than 4G, and it does not come
    near the end of the addresses. *)
Definition good_segment r : Prop :=
  0 <= elf_vstart r /\ 0 < region_size r < 2 ^ 32 - 4096 /\ segment_end r + 8192 < word_size.

Section place.
Context `{CR : !CapRights} `{CL : !CapRightsLaws} `{UM : !UtilsMacros} `{UL : !UtilsLaws}.

(** Two neighbours: in order, and if they share a page, the lower one is not
    writable and the upper one is. *)
Definition good_neighbours a b : Prop :=
  segment_end a <= elf_vstart b /\
  (shares_page a b -> seL4_CapRights_get_capAllowRead (rights a) = true /\ seL4_CapRights_get_capAllowRead (rights b) = true /\
     seL4_CapRights_get_capAllowWrite (rights a) = false /\ seL4_CapRights_get_capAllowWrite (rights b) = true).

Definition good_segments l : Prop :=
  Forall good_segment l /\ forall i a b, l !! i = Some a -> l !! S i = Some b -> good_neighbours a b.

(** The layout: each reservation is the pages of its segment, less the last one
    where that belongs to the next segment. *)
Fixpoint place l : list sel4utils_elf_region_t :=
  match l with
  | [] => []
  | a :: l' =>
      let shared := match l' with b :: _ => if bool_decide (first_page b < page_end a) then 4096 else 0 | [] => 0 end in
      with_reservation (first_page a) (page_end a - first_page a - shared) a :: place l'
  end.

Lemma good_page r : good_segment r ->
  PAGE_ALIGN_4K (elf_vstart r) = first_page r /\ ROUND_UP (elf_vstart r ⊞ region_size r) PAGE_SIZE_4K = page_end r /\
  0 <= first_page r /\ first_page r + 4096 <= page_end r /\ page_end r < word_size - 4096 /\
  first_page r <= elf_vstart r < first_page r + 4096 /\ segment_end r <= page_end r < segment_end r + 4096 /\
  (4096 | first_page r) /\ (4096 | page_end r).
Proof.
  intros (H0 & Hs & He). unfold page_end, segment_end, first_page in *. change PAGE_SIZE_4K with 4096.
  rewrite page_align_law, (wrap_small (elf_vstart r + _)), ROUND_UP_law by (unfold is_word in *; lia).
  split_and!; [done|f_equal; f_equal; lia|dlia..|by eexists|by eexists].
Qed.

Lemma good_order a b : good_segment a -> good_segment b -> segment_end a <= elf_vstart b ->
  page_end a <= first_page b \/ page_end a = first_page b + 4096.
Proof.
  intros Ha Hb Ho. pose proof (good_page a Ha) as (_ & _ & _ & _ & _ & _ & ? & _ & [x Hx]).
  pose proof (good_page b Hb) as (_ & _ & _ & _ & _ & ? & _ & [y Hy] & _). lia.
Qed.

Lemma place_cons a l : exists s, place (a :: l) = with_reservation (first_page a) (page_end a - first_page a - s) a :: place l /\
  s = match l with b :: _ => if bool_decide (first_page b < page_end a) then 4096 else 0 | [] => 0 end.
Proof. by eexists. Qed.

(** The state of the loop: the regions before [i] are placed, but for the page that
    the last of them may have to give to region [i]. *)
Lemma prepare_loop_places l done_ prev :
  Forall good_segment (prev :: l) ->
  (forall i a b, (prev :: l) !! i = Some a -> (prev :: l) !! S i = Some b -> good_neighbours a b) ->
  let full := with_reservation (first_page prev) (page_end prev - first_page prev) prev in
  prepare_loop (length l) (Z.of_nat (S (length done_))) (first_page prev) (page_end prev - first_page prev) (rights prev)
    (done_ ++ full :: l) = Ok (0, done_ ++ place (prev :: l)).
Proof.
  revert done_ prev. induction l as [|b l IH]; intros dn prev Hg Hn full.
  { cbn. by rewrite Z.sub_0_r. }
  apply Forall_cons in Hg as [Hp [Hb Hl]%Forall_cons]. cbn [length prepare_loop].
  pose proof (good_page prev Hp) as (_ & _ & Hp0 & Hp1 & Hp2 & _ & _ & [pf Hpf] & [pe Hpe]).
  pose proof (good_page b Hb) as (Hpa & Hru & Hb0 & Hb1 & Hb2 & _ & _ & [bf Hbf] & [be Hbe]).
  destruct (Hn 0%nat prev b eq_refl eq_refl) as [Hord Hshare].
  pose proof (good_order prev b Hp Hb Hord) as Hnext.
  set (fullb := with_reservation (first_page b) (page_end b - first_page b) b).
  assert (Hat : forall x : sel4utils_elf_region_t,
    arr_get (dn ++ x :: b :: l) (Z.of_nat (S (length dn))) = Ok b /\
    arr_set (dn ++ x :: b :: l) (Z.of_nat (S (length dn))) fullb = Ok (dn ++ x :: fullb :: l)).
  { intros x. split.
    - apply arr_get_ok. split; [lia|]. rewrite Nat2Z.id, lookup_app_r by lia. by replace (S (length dn) - length dn)%nat with 1%nat by lia.
    - rewrite arr_set_in by (rewrite length_app; cbn [length]; lia). f_equal. rewrite Nat2Z.id, insert_app_r_alt by lia.
      by replace (S (length dn) - length dn)%nat with 1%nat by lia. }
  destruct (Hat full) as [Hget Hset]. rewrite Hget. cbn [res_bind]. rewrite Hpa, Hru.
  rewrite (wrap_small (page_end b - _)), (wrap_small (first_page prev + _)) by (unfold is_word; lia).
  replace ((page_end b - first_page b) mod PAGE_SIZE_4K) with 0
    by (rewrite Hbe, Hbf, <- Z.mul_sub_distr_r; symmetry; by apply Z.mod_mul).
  cbn [rassert Z.eqb res_bind].
  replace (first_page prev + (page_end prev - first_page prev)) with (page_end prev) by lia.
  assert (Hrec : forall s, prepare_loop (length l) (Z.of_nat (S (length dn)) + 1) (first_page b) (page_end b - first_page b) (rights b)
      (dn ++ with_reservation (first_page prev) s prev :: fullb :: l) =
      Ok (0, dn ++ with_reservation (first_page prev) s prev :: place (b :: l))).
  { intros s. specialize (IH (dn ++ [with_reservation (first_page prev) s prev]) b). cbn zeta in IH.
    rewrite length_app in IH. cbn [length] in IH.
    replace (Z.of_nat (S (length dn)) + 1) with (Z.of_nat (S (length dn + 1))) by lia.
    rewrite <- !app_assoc in IH. cbn [app] in IH. apply IH; [by apply Forall_cons|].
    intros i x y Hx Hy. by apply (Hn (S i)). }
  destruct (Z.gtb_spec (page_end prev) (first_page b)) as [Hgt|Hle].
  - destruct Hshare as (Hr1 & Hr2 & Hw1 & Hw2); [done|].
    unfold cap_writes_check_move_frame. rewrite Hr1, Hr2, Hw1, Hw2. cbn [negb orb andb].
    unfold shrink_previous. rewrite (proj2 (Z.eqb_neq _ 0)) by lia.
    replace (Z.of_nat (S (length dn)) - 1) with (Z.of_nat (length dn)) by lia.
    assert (Hprev : arr_get (dn ++ full :: b :: l) (Z.of_nat (length dn)) = Ok full).
    { apply arr_get_ok. split; [lia|]. by rewrite Nat2Z.id, list_lookup_middle. }
    rewrite Hprev. cbn [res_bind reservation_size full with_reservation reservation_vstart].
    change PAGE_SIZE_4K with 4096. rewrite (proj2 (Z.ltb_ge _ 4096)), wrap_small by (unfold is_word; lia).
    rewrite arr_set_in by (rewrite length_app; cbn [length]; lia). cbn [res_bind].
    rewrite Nat2Z.id, insert_app_r_alt, Nat.sub_diag by lia. cbn [insert list_insert].
    set (shrunk := with_reservation _ _ full). destruct (Hat shrunk) as [Hget' Hset'].
    rewrite Hget'. cbn [res_bind]. fold fullb. rewrite Hset'. cbn [res_bind].
    change shrunk with (with_reservation (first_page prev) (page_end prev - first_page prev - 4096) prev). rewrite Hrec.
    f_equal. f_equal. f_equal. destruct (place_cons prev (b :: l)) as (s & -> & ->). by rewrite bool_decide_eq_true_2 by done.
  - fold fullb. rewrite Hset. cbn [res_bind]. unfold full. rewrite Hrec.
    f_equal. f_equal. f_equal. destruct (place_cons prev (b :: l)) as (s & -> & ->).
    rewrite bool_decide_eq_false_2 by lia. by rewrite Z.sub_0_r.
Qed.

Lemma prepare_places l : good_segments l -> prepare_reservations (Z.of_nat (length l)) l = Ok (0, place l).
Proof.
  intros [Hg Hn]. unfold prepare_reservations. rewrite Nat2Z.id. destruct l as [|a l]; [done|].
  pose proof Hg as [Ha _]%Forall_cons. cbn [length prepare_loop].
  pose proof (good_page a Ha) as (Hpa & Hru & Hb0 & Hb1 & Hb2 & _ & _ & [bf Hbf] & [be Hbe]).
  change (arr_get (a :: l) 0) with (Ok a). cbn [res_bind]. rewrite Hpa, Hru.
  rewrite (wrap_small (page_end a - _)) by (unfold is_word; lia). change (0 ⊞ 0) with 0.
  replace ((page_end a - first_page a) mod PAGE_SIZE_4K) with 0
    by (rewrite Hbe, Hbf, <- Z.mul_sub_distr_r; symmetry; by apply Z.mod_mul).
  cbn [rassert Z.eqb res_bind]. destruct (Z.gtb_spec 0 (first_page a)); [lia|].
  rewrite arr_set_in by (cbn [length]; lia). cbn [res_bind Z.to_nat insert list_insert].
  exact (prepare_loop_places l [] a Hg Hn).
Qed.

(** ** What the layout says *)

(** Region [i] is in its place; of the fields of its reservation nothing is said. *)
Definition laid_out l : Prop := forall i r, l !! i = Some r ->
  reservation_vstart r = first_page r /\
  (reservation_size r = page_end r - first_page r \/
   (reservation_size r = page_end r - first_page r - 4096 /\
    exists r', l !! S i = Some r' /\ first_page r' = page_end r - 4096 /\
      first_page r' + 4096 <= page_end r' /\
      reservation_vstart r' = first_page r' /\ reservation_size r' = page_end r' - first_page r')).

(** The same segment. *)
Definition same_segment a b : Prop :=
  rights b = rights a /\ elf_vstart b = elf_vstart a /\ region_size b = region_size a /\ cacheable b = cacheable a /\
  segment_index b = segment_index a.

Lemma same_segment_pages a b : same_segment a b ->
  first_page b = first_page a /\ page_end b = page_end a /\ segment_end b = segment_end a.
Proof. intros (_ & Hv & Hs & _). unfold first_page, page_end, segment_end. by rewrite Hv, Hs. Qed.

Lemma place_lookup l i a : l !! i = Some a -> exists s,
  place l !! i = Some (with_reservation (first_page a) (page_end a - first_page a - s) a) /\
  s = match l !! S i with Some b => if bool_decide (first_page b < page_end a) then 4096 else 0 | None => 0 end.
Proof.
  revert i. induction l as [|b l IH]; intros i Hi; [done|].
  destruct (place_cons b l) as (s & Hp & Hs). rewrite Hp. destruct i as [|i]; cbn in Hi |- *.
  - injection Hi as ->. exists s. split; [done|]. by destruct l.
  - destruct (IH i Hi) as (s' & H & H'). by exists s'.
Qed.

Lemma place_same l : Forall2 same_segment l (place l).
Proof. induction l as [|a l IH]; [constructor|]. destruct (place_cons a l) as (s & -> & _). by constructor. Qed.

Lemma place_laid_out l : good_segments l -> laid_out (place l).
Proof.
  intros [Hg Hn] i r Hi. destruct (Forall2_lookup_r _ _ _ _ _ (place_same l) Hi) as (a & Ha & _).
  destruct (place_lookup l i a Ha) as (s & Hi' & Hs). rewrite Hi in Hi'. injection Hi' as ->. cbn.
  split; [done|]. destruct (l !! S i) as [b|] eqn:Hb; [|left; rewrite Hs; unfold page_end, first_page, segment_end; cbn; lia].
  rewrite Hs. case_bool_decide as Hsh; [right|left; unfold page_end, first_page, segment_end; cbn; lia].
  split; [done|]. destruct (place_lookup l (S i) b Hb) as (s' & Hi' & Hs'). rewrite Hi'. eexists. split; [done|].
  pose proof (Hn i a b Ha Hb) as [Hord Hsharing]. destruct Hsharing as (_ & _ & _ & Hw); [done|].
  assert (Hga : good_segment a) by (eapply Forall_lookup_1; [exact Hg|done]).
  assert (Hgb : good_segment b) by (eapply Forall_lookup_1; [exact Hg|done]).
  pose proof (good_order a b Hga Hgb Hord) as Ho.
  pose proof (good_page b Hgb) as (_ & _ & _ & Hpb & _).
  cbn. split_and!; [change (first_page b = page_end a - 4096); lia|exact Hpb|done|].
  assert (s' = 0) as ->; [|unfold page_end, first_page, segment_end; cbn; lia].
  rewrite Hs'. destruct (l !! S (S i)) as [c|] eqn:Hc; [|done]. case_bool_decide as Hsc; [|done].
  destruct (Hn (S i) b c Hb Hc) as [_ Hx]. destruct Hx as (_ & _ & Hx & _); [done|]. congruence.
Qed.

(** The page [p] is in the reservation of [r]. *)
Definition reserves r (p : Z) : Prop := reservation_vstart r <= p /\ p + 4096 <= reservation_vstart r + reservation_size r.

(** load_segment's choice for the page of position [pos]. *)
Lemma choose_reserves l i r pos : laid_out l -> l !! i = Some r -> good_segment r ->
  0 <= pos < region_size r ->
  exists j r', l !! j = Some r' /\ reserves r' ((elf_vstart r + pos) / 4096 * 4096) /\
    choose_reservation l r (Z.of_nat i) (Z.of_nat (length l)) (region_size r) pos ((elf_vstart r + pos) / 4096 * 4096)
      = Ok (Some (reservation r')).
Proof.
  intros Hl Hi Hg Hpos. destruct (Hl i r Hi) as [Hv Hsize].
  pose proof (good_page r Hg) as (_ & _ & H0 & H1 & H2 & H3 & H4 & [f Hf] & [e He]). unfold segment_end in H4.
  pose proof Hg as (_ & Hsz & _).
  set (p := (elf_vstart r + pos) / 4096 * 4096).
  assert (Hp : (exists k, p = k * 4096) /\ elf_vstart r + pos - 4096 < p <= elf_vstart r + pos).
  { split; [by eexists|]. unfold p. dlia. }
  destruct Hp as [[k Hk] Hp]. clearbody p.
  unfold choose_reservation. rewrite Hv. destruct (Z.ltb_spec p (first_page r)); [lia|].
  unfold MIN. change PAGE_SIZE_4K with 4096. rewrite (wrap_small (region_size r - pos)) by (unfold is_word, word_size; lia).
  set (m := if region_size r - pos <? 4096 then region_size r - pos else 4096).
  assert (Hm : 0 < m <= 4096) by (unfold m; destruct (Z.ltb_spec (region_size r - pos) 4096); lia). clearbody m.
  rewrite (wrap_small (p + m)) by (unfold is_word; lia).
  destruct Hsize as [Hsize|(Hsize & r' & Hi' & Hf' & Hp' & Hv' & Hs')]; rewrite Hsize.
  - rewrite wrap_small by (unfold is_word; lia). destruct (Z.gtb_spec (p + m) (first_page r + (page_end r - first_page r))); [lia|].
    exists i, r. split_and!; [done| |done]. unfold reserves. lia.
  - rewrite wrap_small by (unfold is_word; lia).
    destruct (Z.gtb_spec (p + m) (first_page r + (page_end r - first_page r - 4096))).
    + rewrite Z.geb_leb. destruct (Z.leb_spec (Z.of_nat (length l)) (Z.of_nat i + 1)).
      { apply lookup_lt_Some in Hi'. lia. }
      assert (Hget : arr_get l (Z.of_nat i + 1) = Ok r').
      { apply arr_get_ok. split; [lia|]. by replace (Z.to_nat (Z.of_nat i + 1)) with (S i) by lia. }
      rewrite Hget. exists (S i), r'. split_and!; [done| |done]. unfold reserves.
      lia.
    + exists i, r. split_and!; [done| |done]. unfold reserves. lia.
Qed.

Lemma place_good l i r : good_segments l -> place l !! i = Some r -> good_segment r.
Proof.
  intros [Hg _] Hi. destruct (Forall2_lookup_r _ _ _ _ _ (place_same l) Hi) as (a & Ha & Hs).
  pose proof (Forall_lookup_1 _ _ _ _ Hg Ha) as Hga. destruct (same_segment_pages a r Hs) as (_ & _ & He).
  destruct Hs as (_ & Hv & Hz & _). unfold good_segment. by rewrite Hv, Hz, He.
Qed.

Lemma place_aligned l i r : good_segments l -> place l !! i = Some r ->
  reservation_vstart r mod 4096 = 0 /\ reservation_size r mod 4096 = 0 /\ 0 <= reservation_size r.
Proof.
  intros Hg Hi. pose proof (place_good l i r Hg Hi) as Hr.
  pose proof (good_page r Hr) as (_ & _ & _ & H1 & _ & _ & _ & [f Hf] & [e He]).
  destruct (place_laid_out l Hg i r Hi) as [Hv Hs]. rewrite Hv.
  assert (exists k, reservation_size r = k * 4096 /\ 0 <= k) as (k & -> & Hk).
  { destruct Hs as [->|[-> _]]; [exists (e - f)|exists (e - f - 1)]; lia. }
  rewrite Hf, !Z.mod_mul by lia. split_and!; [done|done|lia].
Qed.

(** Segments in order do not overlap, neighbours or not. *)
Lemma good_sorted l i j a b : good_segments l -> (i < j)%nat -> l !! i = Some a -> l !! j = Some b ->
  segment_end a <= elf_vstart b.
Proof.
  intros [Hg Hn] Hij Ha. revert b. induction Hij as [|j Hij IH]; intros b Hb; [by apply (Hn i)|].
  destruct (lookup_lt_is_Some_2 l j) as [c Hc]; [apply lookup_lt_Some in Hb; lia|].
  specialize (IH c Hc). pose proof (Hn j c b Hc Hb) as [Ho _].
  pose proof (Forall_lookup_1 _ _ _ _ Hg Hc) as (_ & Hs & _). unfold segment_end in *. lia.
Qed.

Lemma place_disjoint l : good_segments l -> forall i j a b, (i < j)%nat ->
  place l !! i = Some a -> place l !! j = Some b -> reservation_vstart a + reservation_size a <= reservation_vstart b.
Proof.
  intros Hg i j a b Hij Ha Hb.
  pose proof (place_good l i a Hg Ha) as Hga. pose proof (place_good l j b Hg Hb) as Hgb.
  destruct (Forall2_lookup_r _ _ _ _ _ (place_same l) Ha) as (a' & Ha' & Hsa).
  destruct (Forall2_lookup_r _ _ _ _ _ (place_same l) Hb) as (b' & Hb' & Hsb).
  pose proof (good_sorted l i j a' b' Hg Hij Ha' Hb') as Ho.
  destruct (same_segment_pages _ _ Hsa) as (Hfa & Hea & Hena). destruct (same_segment_pages _ _ Hsb) as (Hfb & Heb & _).
  pose proof Hsb as (_ & Hvb & _).
  destruct (place_lookup l i a' Ha') as (s & Hi & Hs). rewrite Ha in Hi. injection Hi as ->. cbn in *.
  destruct (place_laid_out l Hg j b Hb) as [-> _]. rewrite Hfb.
  assert (Hga' : good_segment a') by (eapply Forall_lookup_1; [apply Hg|done]).
  assert (Hgb' : good_segment b') by (eapply Forall_lookup_1; [apply Hg|done]).
  destruct (good_order a' b' Hga' Hgb' Ho) as [?|Heq].
  { assert (0 <= s); [|lia]. rewrite Hs. destruct (l !! S i); [case_bool_decide|]; lia. }
  assert (s = 4096) as ->; [|lia]. rewrite Hs.
  destruct (lookup_lt_is_Some_2 l (S i)) as [c Hc]; [apply lookup_lt_Some in Hb'; lia|]. rewrite Hc.
  rewrite bool_decide_eq_true_2; [done|]. assert (Hcb : elf_vstart c <= elf_vstart b').
  { destruct (decide (S i = j)) as [<-|]; [by simplify_eq|].
    pose proof (good_sorted l (S i) j c b' Hg ltac:(lia) Hc Hb') as Hcb.
    pose proof (Forall_lookup_1 _ _ _ _ (proj1 Hg) Hc) as (_ & Hz & _). unfold segment_end in Hcb. lia. }
  assert (first_page c <= first_page b'); [|lia]. unfold first_page.
  pose proof (Z.div_le_mono (elf_vstart c) (elf_vstart b') 4096). lia.
Qed.

(** C21: for segments in order, which share a page only where the lower one is
    read-only and the upper one is writable, so that the frame moves to the upper
    reservation, prepare_reservations succeeds and changes only where the
    reservations are.  They do not overlap, are made of whole pages - of none at all
    for a segment whose only page the next one takes - and for each byte of each
    segment the reservation that load_segment chooses for its page has the whole
    page in it.  Of segments that share a page in another way, whose frame stays in
    the lower reservation, none of this holds: [kept_page_lost] below, with
    [shared_page_leaves_a_gap], [shared_page_wraps] and [shared_page_stops]. *)
Theorem prepare_reservations_covers l : good_segments l -> exists l',
  prepare_reservations (Z.of_nat (length l)) l = Ok (0, l') /\ Forall2 same_segment l l' /\
  (forall i j a b, (i < j)%nat -> l' !! i = Some a -> l' !! j = Some b ->
     reservation_vstart a + reservation_size a <= reservation_vstart b) /\
  (forall i r, l' !! i = Some r -> reservation_vstart r mod 4096 = 0 /\ reservation_size r mod 4096 = 0 /\ 0 <= reservation_size r) /\
  (forall i r pos, l' !! i = Some r -> 0 <= pos < region_size r -> exists j r',
     l' !! j = Some r' /\ reserves r' ((elf_vstart r + pos) / 4096 * 4096) /\
     choose_reservation l' r (Z.of_nat i) (Z.of_nat (length l')) (region_size r) pos ((elf_vstart r + pos) / 4096 * 4096)
       = Ok (Some (reservation r'))).
Proof.
  intros Hg. exists (place l). split; [by apply prepare_places|]. split; [apply place_same|].
  split_and!.
  - by apply place_disjoint.
  - intros i r Hi. by apply (place_aligned l i).
  - intros i r pos Hi Hpos. apply choose_reserves; [by apply place_laid_out|done| |done].
    by apply (place_good l i).
Qed.
End place.

(** Code, its constants in the page of the end of the code, and data in the page of
    the end of the constants. *)
Definition code_segment : sel4utils_elf_region_t := Region 2 0x400000 0 0x1234 0 0 1 0.
Definition data_segment : sel4utils_elf_region_t := Region 3 0x401800 0 0x2000 0 0 1 1.
Definition more_segment : sel4utils_elf_region_t := Region 2 0x404000 0 0x100 0 0 1 2.

Lemma prepare_reservations_covers_witness :
  good_segments [code_segment; data_segment; more_segment] /\ exists l',
  prepare_reservations 3 [code_segment; data_segment; more_segment] = Ok (0, l') /\
  (reservation_vstart <$> l' !! 1%nat = Some 0x401000).
Proof.
  assert (Hg : good_segments [code_segment; data_segment; more_segment]).
  { split.
    - repeat constructor; vm_compute; done.
    - intros [|[|[|i]]] a b; cbn; [| |done|done]; intros [= <-] [= <-]; (split; [vm_compute; done|]);
        intros H; vm_compute in H |- *; done. }
  split; [exact Hg|]. destruct (prepare_reservations_covers _ Hg) as (l' & H & _ & _ & _ & Hc).
  exists l'. split; [exact H|]. vm_compute in H. by injection H as <-.
Defined.

(** ** Segments that share a page in another way

    The frame stays in the previous reservation, and this one is to start after it.
    The code rounds up the address after the end of the previous reservation, which
    is a multiple of the size of a page already: the page that follows is in none,
    whatever the segments are. *)
Section kept.
Context `{CR : !CapRights} `{CL : !CapRightsLaws} `{UM : !UtilsMacros} `{UL : !UtilsLaws}.

Lemma kept_page_lost a b l' : good_segment a -> good_segment b -> segment_end a <= elf_vstart b -> shares_page a b ->
  seL4_CapRights_get_capAllowRead (rights a) = true -> seL4_CapRights_get_capAllowRead (rights b) = true ->
  seL4_CapRights_get_capAllowWrite (rights a) = true \/ seL4_CapRights_get_capAllowWrite (rights b) = false ->
  page_end a < page_end b -> prepare_reservations 2 [a; b] = Ok (0, l') ->
  page_of_segment b (page_end a) /\ exists a' b', l' = [a'; b'] /\
    reservation_vstart a' + reservation_size a' = page_end a /\ reservation_vstart b' = page_end a + 4096.
Proof.
  intros Ha Hb Ho Hsh Hra Hrb Hw Hend Hrun.
  pose proof (good_page a Ha) as (Hpa & Hrua & Ha0 & Ha1 & Ha2 & _ & _ & [af Haf] & [ae Hae]).
  pose proof (good_page b Hb) as (Hpb & Hrub & Hb0 & Hb1 & Hb2 & _ & _ & [bf Hbf] & [be Hbe]).
  pose proof (good_order a b Ha Hb Ho) as Hnext. unfold shares_page in Hsh.
  split; [split; [rewrite Hae; by apply Z.mod_mul|lia]|].
  unfold prepare_reservations in Hrun. change (Z.to_nat 2) with 2%nat in Hrun. cbn [prepare_loop] in Hrun.
  change (arr_get [a; b] 0) with (Ok a) in Hrun. cbn [res_bind] in Hrun. rewrite Hpa, Hrua in Hrun.
  rewrite (wrap_small (page_end a - _)) in Hrun by (unfold is_word; lia). change (0 ⊞ 0) with 0 in Hrun.
  replace ((page_end a - first_page a) mod PAGE_SIZE_4K) with 0 in Hrun
    by (rewrite Hae, Haf, <- Z.mul_sub_distr_r; symmetry; by apply Z.mod_mul).
  cbn [rassert Z.eqb res_bind] in Hrun. destruct (Z.gtb_spec 0 (first_page a)); [lia|].
  set (a' := with_reservation (first_page a) (page_end a - first_page a) a) in Hrun.
  change (arr_set [a; b] 0 a') with (Ok [a'; b]) in Hrun. cbn [res_bind Z.add] in Hrun.
  change (0 + 1) with 1 in Hrun. change (arr_get [a'; b] 1) with (Ok b) in Hrun. cbn [res_bind] in Hrun. rewrite Hpb, Hrub in Hrun.
  rewrite (wrap_small (page_end b - first_page b)) in Hrun by (unfold is_word; lia).
  replace ((page_end b - first_page b) mod PAGE_SIZE_4K) with 0 in Hrun
    by (rewrite Hbe, Hbf, <- Z.mul_sub_distr_r; symmetry; by apply Z.mod_mul).
  cbn [rassert Z.eqb res_bind] in Hrun.
  replace (first_page a + (page_end a - first_page a)) with (page_end a) in Hrun by lia.
  rewrite (wrap_small (page_end a)) in Hrun by (unfold is_word; lia).
  destruct (Z.gtb_spec (page_end a) (first_page b)); [|lia].
  unfold cap_writes_check_move_frame in Hrun. rewrite Hra, Hrb in Hrun. cbn [negb orb] in Hrun.
  replace (negb _ && _) with false in Hrun by (by destruct Hw as [-> | ->]; [|rewrite andb_false_r]).
  rewrite (wrap_small (page_end a + 1)), (ROUND_UP_law (page_end a + 1)) in Hrun by (done || unfold is_word; change PAGE_SIZE_4K with 4096; lia).
  assert (Hup : (page_end a + 1 + PAGE_SIZE_4K - 1) / PAGE_SIZE_4K * PAGE_SIZE_4K = page_end a + 4096).
  { change PAGE_SIZE_4K with 4096. rewrite Hae. replace (ae * 4096 + 1 + 4096 - 1) with ((ae + 1) * 4096) by lia.
    rewrite Z.div_mul by lia. lia. }
  rewrite Hup in Hrun. destruct (_ =? PAGE_SIZE_4K); [discriminate|].
  change (arr_set [a'; b] 1 ?x) with (Ok [a'; x]) in Hrun. cbn [res_bind] in Hrun. injection Hrun as <-.
  do 2 eexists. split; [done|]. cbn. lia.
Qed.
End kept.

(** Here the previous segment is writable, and page 0x402000 is lost. *)
Example shared_page_leaves_a_gap :
  let l := [Region 3 0x400000 0 0x1800 0 0 1 0; Region 2 0x401800 0 0x2001 0 0 1 1] in
  exists a b, prepare_reservations 2 l = Ok (0, [a; b]) /\
    reservation_vstart a + reservation_size a = 0x402000 /\ reservation_vstart b = 0x403000 /\
    page_of_segment b 0x402000.
Proof. do 2 eexists. split; [vm_compute; reflexivity|]. by vm_compute. Qed.

(** A segment whose pages are all in the previous reservation gets one of almost
    the whole address space, not the empty one that create_reservations expects. *)
Example shared_page_wraps :
  let l := [Region 2 0x400000 0 0x100 0 0 1 0; Region 2 0x400100 0 0x100 0 0 1 1] in
  exists a b, prepare_reservations 2 l = Ok (0, [a; b]) /\ reservation_size b = word_size - 4096.
Proof. do 2 eexists. split; vm_compute; reflexivity. Qed.

(** And the check that is to find segments that overlap by more stops the program
    where they overlap by one page. *)
Example shared_page_stops :
  prepare_reservations 2 [Region 3 0x400000 0 0x1800 0 0 1 0; Region 2 0x401800 0 0x2000 0 0 1 1] = Fault Fatal.
Proof. vm_compute. reflexivity. Qed.
