(* ===== verification/ElfLoad.v ===== *)
(** That loading an ELF file (libsel4utils/src/elf.c) puts the bytes of its segments
    where the file says, over any address spaces and allocators that keep the
    promise of TargetMemory.v. *)
From S2P Require Import Prelude Cspacepath Interfaces Objects Vka VspaceTables VspaceView VspaceSpec Vspace VspaceReserve.
From S2P Require Import VspaceApi Mapping TargetMemory Elf ElfPlace.

Definition page_at (x : Z) : Z := x / 4096 * 4096.

Lemma page_at_bounds (x : Z) : page_at x <= x < page_at x + 4096.
Proof. unfold page_at. dlia. Qed.
Lemma page_at_mod (x : Z) : page_at x mod 4096 = 0.
Proof. unfold page_at. by apply Z.mod_mul. Qed.
Lemma page_at_eq (x p : Z) : p mod 4096 = 0 -> p <= x < p + 4096 -> page_at x = p.
Proof. intros Hp Hx. unfold page_at. dlia. Qed.
Lemma pages_apart (p q : Z) : p mod 4096 = 0 -> q mod 4096 = 0 -> p < q + 4096 -> q < p + 4096 -> p = q.
Proof. intros Hp Hq H1 H2. dlia. Qed.

(** ** What was written

    [source] says what byte goes to an address.  In the target, the bytes from [lo]
    to [fe] are [source]'s; the pages of the addresses from [lo] to [hi] are there;
    what is new in them is zero; nothing else has changed. *)
Record written (source : Z -> Z) (lo hi fe : Z) (v v' : view) : Prop := {
  wr_rest : v' = View (bytes v') (frames v') (reserved v) (slots v) (copies v) (windows v) (refused v);
  wr_old : forall p c, frames v !! p = Some c -> frames v' !! p = Some c;
  wr_frames : forall p, is_Some (frames v' !! p) <->
    is_Some (frames v !! p) \/ (p mod 4096 = 0 /\ lo < p + 4096 /\ p < hi);
  wr_file : forall x, lo <= x < fe -> bytes v' x = source x;
  wr_zero : forall x, ~ lo <= x < fe -> frames v !! page_at x = None -> lo < page_at x + 4096 -> page_at x < hi -> bytes v' x = 0;
  wr_same : forall x, ~ lo <= x < fe ->
    is_Some (frames v !! page_at x) \/ page_at x + 4096 <= lo \/ hi <= page_at x -> bytes v' x = bytes v x
}.

Lemma written_compose (source : Z -> Z) (lo mid hi fe : Z) (v1 v2 v3 : view) :
  lo < mid <= hi -> mid mod 4096 = 0 -> fe <= hi ->
  written source lo mid (if fe <? mid then fe else mid) v1 v2 -> written source mid hi fe v2 v3 -> written source lo hi fe v1 v3.
Proof.
  intros Hm Hmid Hfe H1 H2.
  assert (Hpre : forall x, x < mid -> page_at x < mid) by (intros x Hx; pose proof (page_at_bounds x); lia).
  assert (Hpost : forall x, mid <= x -> mid <= page_at x).
  { intros x Hx. pose proof (page_at_bounds x). pose proof (page_at_mod x). dlia. }
  set (f1 := if fe <? mid then fe else mid) in *.
  assert (Hf1 : (fe < mid /\ f1 = fe) \/ (mid <= fe /\ f1 = mid)) by (unfold f1; destruct (Z.ltb_spec fe mid); lia).
  assert (Hmod : forall p, p mod 4096 = 0 -> p < mid -> p + 4096 <= mid) by (intros; dlia).
  split.
  - rewrite (wr_rest _ _ _ _ _ _ H2), (wr_rest _ _ _ _ _ _ H1). done.
  - intros p c Hp. by apply (wr_old _ _ _ _ _ _ H2), (wr_old _ _ _ _ _ _ H1).
  - intros p. rewrite (wr_frames _ _ _ _ _ _ H2), (wr_frames _ _ _ _ _ _ H1). split.
    + intros [[?|(? & ? & ?)]|(? & ? & ?)]; [by left|right; split_and!; [done|lia|lia]|].
      right. split_and!; [done|lia|lia].
    + intros [?|(Hpm & ? & ?)]; [by left; left|]. destruct (decide (p < mid)); [left; right; split_and!; [done|lia|lia]|right].
      split_and!; [done|lia|lia].
  - intros x Hx. destruct (decide (mid <= x)) as [Hge|Hlt]; [apply (wr_file _ _ _ _ _ _ H2); lia|].
    rewrite (wr_same _ _ _ _ _ _ H2), (wr_file _ _ _ _ _ _ H1); [done|lia|lia|].
    pose proof (Hmod (page_at x) (page_at_mod x) (Hpre x ltac:(lia))). lia.
  - intros x Hx Hnone Hlo Hhi.
    destruct (decide (x < mid)) as [Hlt|Hge].
    + rewrite (wr_same _ _ _ _ _ _ H2), (wr_zero _ _ _ _ _ _ H1); [done|lia|done|lia|auto|lia|].
      pose proof (Hmod (page_at x) (page_at_mod x) (Hpre x ltac:(lia))). lia.
    + specialize (Hpost x ltac:(lia)). apply (wr_zero _ _ _ _ _ _ H2); [lia| |pose proof (page_at_bounds x); lia|done].
      destruct (frames v2 !! page_at x) as [c|] eqn:E; [|done].
      destruct (proj1 (wr_frames _ _ _ _ _ _ H1 (page_at x)) ltac:(by rewrite E)) as [[? ?]|(_ & _ & ?)]; [congruence|lia].
  - intros x Hx Hcase.
    destruct (decide (x < mid)) as [Hlt|Hge].
    + pose proof (Hmod (page_at x) (page_at_mod x) (Hpre x ltac:(lia))).
      rewrite (wr_same _ _ _ _ _ _ H2), (wr_same _ _ _ _ _ _ H1); [done|lia| |lia|lia]. destruct Hcase as [?|[?|?]]; [by left|lia|lia].
    + specialize (Hpost x ltac:(lia)). pose proof (page_at_bounds x).
      rewrite (wr_same _ _ _ _ _ _ H2), (wr_same _ _ _ _ _ _ H1); [done|lia|lia|lia|].
      destruct Hcase as [[c Hc]|[?|?]]; [left; exists c; by apply (wr_old _ _ _ _ _ _ H1)|lia|lia].
Qed.

(** One page: a new frame if there is none, and bytes in it. *)
Lemma written_page (source : Z -> Z) (lo hi fe c : Z) (l : list Z) (v : view) :
  let p := page_at lo in
  lo < hi <= p + 4096 -> fe <= hi -> Z.of_nat (length l) = (if lo <? fe then fe - lo else 0) ->
  (forall i, 0 <= i < Z.of_nat (length l) -> l !!! Z.to_nat i = source (lo + i)) ->
  let v1 := match frames v !! p with Some _ => v | None => new_frame p c v end in
  written source lo hi fe v (if lo <? fe then set_bytes (poke lo l) v1 else v1).
Proof.
  intros p Hhi Hfe Hlen Hl v1.
  pose proof (page_at_bounds lo) as Hlo. fold p in Hlo. pose proof (page_at_mod lo) as Hp. fold p in Hp.
  assert (Hone : forall q, q mod 4096 = 0 -> lo < q + 4096 -> q < hi -> q = p) by (intros; apply pages_apart; [done|done|lia|lia]).
  assert (Hv1 : written source lo hi lo v v1).
  { unfold v1. destruct (frames v !! p) as [c'|] eqn:E.
    - split; [by destruct v|done| |lia| |done].
      + intros q. split; [by left|]. intros [?|(H1 & H2 & H3)]; [done|]. rewrite (Hone q) by done. by rewrite E.
      + intros x _ Hn H1 H2. rewrite (Hone (page_at x)) in Hn by (done || apply page_at_mod). congruence.
    - unfold new_frame. split; cbn [bytes frames reserved slots copies windows refused set_bytes set_frames].
      + by destruct v.
      + intros q c' Hq. rewrite lookup_insert_ne; [done|]. by intros <-; rewrite Hq in E.
      + intros q. destruct (decide (q = p)) as [->|Hne].
        * rewrite lookup_insert_eq. split; [intros _; right; lia|by eexists].
        * rewrite lookup_insert_ne by done. split; [by left|]. intros [?|(H1 & H2 & H3)]; [done|]. by destruct (Hne (Hone q H1 H2 H3)).
      + lia.
      + intros x _ _ H1 H2. pose proof (Hone (page_at x) (page_at_mod x) H1 H2) as Hx. pose proof (page_at_bounds x).
        rewrite poke_in by (rewrite length_replicate; lia). apply lookup_total_replicate_2. lia.
      + intros x _ Hx. apply poke_out. rewrite length_replicate. intros Hin.
        rewrite (page_at_eq x p) in Hx by (done || lia). rewrite E in Hx. destruct Hx as [[? ?]|[?|?]]; [done|lia|lia]. }
  clearbody v1. destruct (Z.ltb_spec lo fe) as [Hlt|Hge].
  2:{ destruct Hv1. split; [done|done|done|lia|intros; apply wr_zero0; [lia|done..]|intros; apply wr_same0; [lia|done]]. }
  destruct Hv1 as [Hr Ho Hf _ Hz Hs]. split; cbn.
  - by rewrite Hr.
  - done.
  - done.
  - intros x Hx. rewrite poke_in by lia. rewrite Hl by lia. f_equal. lia.
  - intros x Hx. rewrite poke_out by lia. apply Hz. lia.
  - intros x Hx. rewrite poke_out by lia. apply Hs. lia.
Qed.

(** ** Loading a segment *)

Section load.
Context `{ER : !ElfReader} `{CR : !CapRights} `{CL : !CapRightsLaws} `{UM : !UtilsMacros} `{UL : !UtilsLaws}.
Context {W : Type} {seL4 : SeL4Constants} `{KO : !KernelOps W} `{MC : !MappingConstants} `{CO : !CopyOps W}.
Context (target current : vspace_t W) (target_vka vka : vka_t W) `{TM : !TargetMemory W target current target_vka vka}.
Context (CONFIG_HUGE_PAGE : bool) (elf_file : elf_t).
Implicit Types (l : list sel4utils_elf_region_t) (r : sel4utils_elf_region_t) (w : W) (v : view).

(** A request was refused; of what is ours, only a slot may have kept its copy. *)
Definition given_up v v' : Prop :=
  refused v' = true /\ slots v' = slots v /\ windows v' = windows v /\ reserved v' = reserved v.

(** The regions have the reservations they should. *)
Definition reserved_for l v : Prop := forall i r, l !! i = Some r -> reservation_size r <> 0 ->
  reserved v !! reservation r = Some (reservation_vstart r, reservation_vstart r + reservation_size r).

Local Abbreviation loop := (fun fuel l r s fs i => load_loop CONFIG_HUGE_PAGE fuel (Some target) (Some current) (Some target_vka)
  elf_file l r (own_path s) fs (Z.of_nat (length l)) (Z.of_nat i) (region_size r)).

Lemma load_loop_stops fuel l r s fs i e pos dst src w : e <> 0 -> loop (S fuel) l r s fs i e pos dst src w = Ok (e, w).
Proof.
  intros He. cbn [load_loop]. change seL4_NoError with 0. rewrite (proj2 (Z.eqb_neq e 0)) by done.
  by rewrite andb_false_r.
Qed.

Lemma file_bytes_spec (src n i : Z) : 0 <= n -> 0 <= i < n ->
  Z.of_nat (length (file_bytes elf_file src n)) = n /\ file_bytes elf_file src n !!! Z.to_nat i = elf_bytes elf_file (src + i).
Proof.
  intros Hn Hi. unfold file_bytes. rewrite length_fmap, length_seq. split; [lia|].
  apply list_lookup_total_correct. rewrite list_lookup_fmap, lookup_seq_lt by lia. cbn. do 2 f_equal. lia.
Qed.

Lemma file_bytes_length (src n : Z) : 0 <= n -> Z.of_nat (length (file_bytes elf_file src n)) = n.
Proof. intros Hn. unfold file_bytes. rewrite length_fmap, length_seq. lia. Qed.

(** The frame of a page: the one that is there, or a new one. *)
Lemma frame_step l r w p res : reserves r p -> p mod 4096 = 0 -> reserved (view_of w) !! res =
    Some (reservation_vstart r, reservation_vstart r + reservation_size r) ->
  exists e w', (let! cap := vspace_get_cap (Some target) p in
      if cap =? 0 then vspace_new_pages_at_vaddr (Some target) p 1 seL4_PageBits res else ret 0) w = Ok (e, w') /\
    ((e <> 0 /\ view_of w' = refuse (view_of w)) \/
     (e = 0 /\ exists c, frames (view_of w') !! p = Some c /\
       view_of w' = match frames (view_of w) !! p with Some _ => view_of w | None => new_frame p c (view_of w) end)).
Proof.
  intros [H1 H2] Hp Hres. rewrite (bind_ok _ _ _ _ _ (get_cap_step target current target_vka vka p w)).
  destruct (frames (view_of w) !! p) as [c|] eqn:E; cbn [default from_option].
  - unfold id. rewrite (proj2 (Z.eqb_neq c 0)) by (by eapply frames_not_null). exists 0, w. split; [done|]. right. split; [done|]. by exists c.
  - cbn [Z.eqb]. unfold vspace_new_pages_at_vaddr. destruct target_new_page as (f & Hf & Hlaw). rewrite Hf.
    change (default_vspace_new_pages_config 1 seL4_PageBits) with (Some (NewPagesConfig 0 1 seL4_PageBits false)).
    cbn [vspace_new_pages_config_set_vaddr negb Z.eqb]. unfold vspace_new_pages_at_vaddr_with_config. rewrite Hf. cbn.
    destruct (Hlaw p res _ _ w Hres H1 H2 Hp E) as (e & w' & Hrun & Hcase). exists e, w'. split; [done|].
    destruct Hcase as [?|(-> & c & Hv)]; [by left|right]. split; [done|]. exists c. rewrite Hv. split; [|done].
    unfold new_frame. cbn -[replicate]. apply lookup_insert_eq.
Qed.

Lemma load_loop_done fuel l r s fs i pos dst src w : region_size r <= pos ->
  loop (S fuel) l r s fs i 0 pos dst src w = Ok (0, w).
Proof. intros H. cbn [load_loop]. by rewrite (proj2 (Z.ltb_ge _ _) H). Qed.

(** What a round copies of the file. *)
Definition piece (lo fe hi src : Z) : list Z := if lo <? fe then file_bytes elf_file src (MIN (hi - lo) (fe - lo)) else [].

Lemma piece_spec (lo fe hi src : Z) : lo < hi -> let m := if fe <? hi then fe else hi in
  Z.of_nat (length (piece lo fe hi src)) = (if lo <? m then m - lo else 0) /\
  forall k, 0 <= k < Z.of_nat (length (piece lo fe hi src)) -> piece lo fe hi src !!! Z.to_nat k = elf_bytes elf_file (src + k).
Proof.
  intros Hhi m. assert (Hm : (fe < hi /\ m = fe) \/ (hi <= fe /\ m = hi)) by (unfold m; destruct (Z.ltb_spec fe hi); lia).
  clearbody m. unfold piece. destruct (Z.ltb_spec lo fe) as [Hlt|Hge], (Z.ltb_spec lo m); try lia; [|split; [done|cbn; lia]].
  replace (MIN (hi - lo) (fe - lo)) with (m - lo) by (unfold MIN; destruct (Z.ltb_spec (hi - lo) (fe - lo)); lia).
  rewrite file_bytes_length by lia. split; [done|]. intros k Hk. apply (file_bytes_spec src (m - lo) k); lia.
Qed.

(** A round of the loop, from [pos], at address [lo]: it gives up, or it has written
    to the end of the page. *)
Lemma load_round fuel l i r s fs src pos w :
  let lo := elf_vstart r + pos in let next := page_at lo + 4096 in
  let source x := elf_bytes elf_file (src + (x - elf_vstart r)) in
  laid_out l -> l !! i = Some r -> good_segment r -> reserved_for l (view_of w) -> s ∈ slots (view_of w) ->
  0 <= pos < region_size r -> fs <= region_size r -> 0 <= src -> src + region_size r + 4096 < word_size ->
  exists e w', loop (S (S fuel)) l r s fs i 0 pos lo (src + pos) w =
      (if e =? 0 then loop (S fuel) l r s fs i 0 (next - elf_vstart r) next (src + (next - elf_vstart r)) w' else Ok (e, w')) /\
    ((e <> 0 /\ given_up (view_of w) (view_of w')) \/
     (e = 0 /\ let hi := if segment_end r <? next then segment_end r else next in
       let fe := elf_vstart r + fs in written source lo hi (if fe <? hi then fe else hi) (view_of w) (view_of w'))).
Proof.
  intros lo next source Hl Hi Hg Hres Hs Hpos Hfs Hsrc Hsw.
  destruct (choose_reserves l i r pos Hl Hi Hg Hpos) as (j & r' & Hj & Hr' & Hchoose).
  fold lo in Hr', Hchoose. change (lo / 4096 * 4096) with (page_at lo) in *.
  pose proof (page_at_bounds lo) as Hlo. pose proof (page_at_mod lo) as Hmod. set (p := page_at lo) in *.
  assert (Hrsz : reservation_size r' <> 0) by (destruct Hr'; lia).
  pose proof Hg as (Hv0 & Hsz & Hend). unfold segment_end in Hend.
  assert (Hlow : is_word lo) by (unfold is_word, lo; lia).
  remember (S fuel) as f1. cbn [load_loop]. change seL4_NoError with 0.
  rewrite (proj2 (Z.ltb_lt pos _)) by lia. cbn [Z.eqb andb]. change PAGE_SIZE_4K with 4096.
  rewrite ROUND_DOWN_law by (done || lia). change (lo / 4096 * 4096) with p.
  unfold lift at 1. rewrite Hchoose. unfold bind at 1. cbn [res_bind].
  destruct (frame_step l r' w p (reservation r') Hr' Hmod (Hres j r' Hj Hrsz)) as (e1 & w1 & H1 & Hc1).
  unfold bind at 1 in H1. unfold bind at 1. destruct (vspace_get_cap (Some target) p w) as [[cap w0]|]; [|discriminate].
  cbn [res_bind] in H1 |- *. rewrite (bind_ok _ _ _ _ _ H1).
  destruct Hc1 as [(He1 & Hv1)|(-> & c & Hc & Hv1)].
  { rewrite (proj2 (Z.eqb_neq e1 0)) by done. cbn [negb]. subst f1. rewrite load_loop_stops by done.
    exists e1, w1. rewrite (proj2 (Z.eqb_neq e1 0)) by done. split; [done|left]. split; [done|]. by rewrite Hv1. }
  cbn [Z.eqb negb]. rewrite (bind_ok _ _ _ _ _ (get_cap_step target current target_vka vka p w1)), Hc. cbn [default from_option]. unfold id.
  rewrite (bind_ok _ _ _ _ _ (target_path_step target current target_vka vka c w1)).
  assert (Hrest1 : slots (view_of w1) = slots (view_of w) /\ windows (view_of w1) = windows (view_of w) /\
    reserved (view_of w1) = reserved (view_of w)) by (rewrite Hv1; by destruct (frames (view_of w) !! p)).
  destruct Hrest1 as (Hs1 & Hw1 & Hr1).
  destruct (copy_step target current target_vka vka s p c w1) as (e2 & w2 & H2 & Hc2); [by rewrite Hs1|done|].
  rewrite (bind_ok _ _ _ _ _ H2).
  destruct Hc2 as [(He2 & Hv2)|(-> & Hcs & Hv2)].
  { rewrite (proj2 (Z.eqb_neq e2 0)) by done. cbn [negb]. subst f1. rewrite load_loop_stops by done.
    exists e2, w2. rewrite (proj2 (Z.eqb_neq e2 0)) by done. split; [done|left]. split; [done|]. by rewrite Hv2. }
  cbn [Z.eqb negb]. rewrite own_path_slot.
  destruct (map_step target current target_vka vka CONFIG_HUGE_PAGE s p 1 w2) as (a & w3 & H3 & Hc3).
  { rewrite Hv2. cbn. apply lookup_insert_eq. }
  rewrite (bind_ok _ _ _ _ _ H3). destruct Hc3 as [(-> & Hv3)|(Ha & Ham & Hab & Hwn & Hv3)].
  { cbn [Z.eqb]. subst f1. rewrite load_loop_stops by done. exists (-1), w3. split; [done|left]. split; [done|].
    rewrite Hv3, Hv2. done. }
  rewrite (proj2 (Z.eqb_neq a 0)) by lia. rewrite page_mask_law. change 4095 with (MASK 12). rewrite land_MASK by lia.
  change (2 ^ 12) with 4096.
  assert (Hlm : lo mod 4096 = lo - p) by (unfold p, page_at; pose proof (Z.div_mod lo 4096); lia).
  rewrite Hlm. replace (4096 - (lo - p)) with (next - lo) by (unfold next; lia).
  assert (Hnext : lo < next <= lo + 4096) by (unfold next; lia).
  set (cp := piece lo (elf_vstart r + fs) next (src + pos)).
  assert (Hcp : Z.of_nat (length cp) = (if lo <? (if elf_vstart r + fs <? next then elf_vstart r + fs else next)
      then (if elf_vstart r + fs <? next then elf_vstart r + fs else next) - lo else 0) /\
    forall k, 0 <= k < Z.of_nat (length cp) -> cp !!! Z.to_nat k = source (lo + k)).
  { destruct (piece_spec lo (elf_vstart r + fs) next (src + pos)) as [Hlen Hk]; [lia|]. split; [done|].
    intros k Hk'. rewrite Hk by done. unfold source, lo. f_equal. lia. }
  destruct Hcp as [Hlen Hcp].
  assert (H4 : exists w4, (if pos <? fs then memcpy (a ⊞ (lo - p)) (file_bytes elf_file (src + pos) (MIN (next - lo) (fs ⊟ pos)))
      else ret tt) w3 = Ok (tt, w4) /\
    view_of w4 = (if lo <? elf_vstart r + fs then set_bytes (poke lo cp) (view_of w3) else view_of w3)).
  { unfold cp, piece. replace (pos <? fs) with (lo <? elf_vstart r + fs)
      by (unfold lo; destruct (Z.ltb_spec pos fs), (Z.ltb_spec (elf_vstart r + pos) (elf_vstart r + fs)); lia).
    destruct (Z.ltb_spec lo (elf_vstart r + fs)); [|by exists w3].
    rewrite (wrap_small (fs - pos)) by (unfold is_word, lo, word_size in *; lia). replace (fs - pos) with (elf_vstart r + fs - lo) by (unfold lo; lia).
    destruct (memcpy_step target current target_vka vka a p s (lo - p)
      (file_bytes elf_file (src + pos) (MIN (next - lo) (elf_vstart r + fs - lo))) w3) as (w4 & Hm & Hv4).
    - rewrite Hv3. cbn. apply lookup_insert_eq.
    - done.
    - lia.
    - rewrite file_bytes_length; unfold MIN; destruct (Z.ltb_spec (next - lo) (elf_vstart r + fs - lo)); unfold next in *; lia.
    - lia.
    - lia.
    - exists w4. split; [done|]. rewrite Hv4. do 2 f_equal. lia. }
  destruct H4 as (w4 & H4 & Hv4). rewrite (bind_ok _ _ _ _ _ H4).
  destruct (unmap_step target current target_vka vka a p s w4) as (w5 & H5 & Hv5).
  { rewrite Hv4, Hv3. destruct (lo <? elf_vstart r + fs); cbn; apply lookup_insert_eq. }
  rewrite (bind_ok _ _ _ _ _ H5).
  destruct (delete_step target current target_vka vka s w5) as (e6 & w6 & H6 & Hv6). rewrite (bind_ok _ _ _ _ _ H6).
  exists 0, w6. cbn [Z.eqb].
  replace ((pos + (next - lo)) mod 2 ^ 32) with (next - elf_vstart r) by (rewrite Z.mod_small; unfold lo in *; lia).
  rewrite (wrap_small (lo + _)), (wrap_small (src + pos + _)) by (unfold is_word, lo in *; lia).
  replace (lo + (next - lo)) with next by lia.
  replace (src + pos + (next - lo)) with (src + (next - elf_vstart r)) by (unfold lo; lia).
  split; [done|]. right. split; [done|].
  set (hi := if segment_end r <? next then segment_end r else next). set (fe := elf_vstart r + fs).
  assert (Hv : view_of w6 = if lo <? fe then set_bytes (poke lo cp) (view_of w1) else view_of w1).
  { rewrite Hv2 in Hwn. cbn in Hwn. rewrite Hv6, Hv5, Hv4, Hv3, Hv2. fold fe. destruct (view_of w1). cbn in Hcs, Hwn.
    destruct (lo <? fe); unfold set_copies, set_windows, set_bytes; cbn; f_equal; by rewrite delete_insert_id. }
  assert (Hhi : lo < hi <= next /\ (if fe <? next then fe else next) = (if fe <? hi then fe else hi) /\
    (if fe <? hi then fe else hi) <= hi /\ (lo <? (if fe <? hi then fe else hi)) = (lo <? fe)).
  { assert (Hfe : fe <= segment_end r) by (unfold fe, segment_end; lia).
    assert (Hhn : lo < hi <= next /\ fe <= Z.max fe next /\ (hi = next \/ hi = segment_end r)).
    { unfold hi, segment_end. destruct (Z.ltb_spec (elf_vstart r + region_size r) next); lia. }
    clearbody hi fe. split; [lia|].
    split; [destruct (Z.ltb_spec fe next), (Z.ltb_spec fe hi); lia|].
    destruct (Z.ltb_spec fe hi); (split; [lia|]); [done|].
    destruct (Z.ltb_spec lo hi), (Z.ltb_spec lo fe); lia. }
  destruct Hhi as (Hhi & Heq & Hle & Hltb). fold fe in Hlen. rewrite Heq in Hlen. rewrite Hv, <- Hltb, Hv1.
  apply (written_page source lo hi _ c cp); done.
Qed.

Lemma given_up_trans v1 v2 v3 source lo hi fe : written source lo hi fe v1 v2 -> given_up v2 v3 -> given_up v1 v3.
Proof. intros H (Hr & Hs & Hw & Hres). rewrite (wr_rest _ _ _ _ _ _ H) in Hs, Hw, Hres. done. Qed.

Lemma written_kept source lo hi fe v v' : written source lo hi fe v v' ->
  slots v' = slots v /\ reserved v' = reserved v.
Proof. intros H. rewrite (wr_rest _ _ _ _ _ _ H). done. Qed.

Lemma load_loop_loads fuel l i r s fs src pos w :
  let lo := elf_vstart r + pos in
  let source x := elf_bytes elf_file (src + (x - elf_vstart r)) in
  laid_out l -> l !! i = Some r -> good_segment r -> reserved_for l (view_of w) -> s ∈ slots (view_of w) ->
  0 <= pos < region_size r -> fs <= region_size r -> 0 <= src -> src + region_size r + 4096 < word_size ->
  page_end r <= page_at lo + 4096 * Z.of_nat fuel ->
  exists e w', loop (S fuel) l r s fs i 0 pos lo (src + pos) w = Ok (e, w') /\
    ((e <> 0 /\ given_up (view_of w) (view_of w')) \/
     (e = 0 /\ written source lo (segment_end r) (elf_vstart r + fs) (view_of w) (view_of w'))).
Proof.
  revert pos w. induction fuel as [|fuel IH]; intros pos w lo source Hl Hi Hg Hres Hs Hpos Hfs Hsrc Hsw Hfuel;
    pose proof (good_page r Hg) as (_ & _ & _ & _ & _ & _ & Hpe & _);
    pose proof (page_at_bounds lo) as Hlo; unfold segment_end in Hpe.
  { unfold lo in *. lia. }
  destruct (load_round fuel l i r s fs src pos w Hl Hi Hg Hres Hs Hpos Hfs Hsrc Hsw) as (e & w1 & Hrun & Hcase).
  fold lo in Hrun, Hcase. set (next := page_at lo + 4096) in *. fold source in Hcase. rewrite Hrun.
  destruct Hcase as [(He & Hgu)|(-> & Hwr)].
  { rewrite (proj2 (Z.eqb_neq e 0)) by done. exists e, w1. split; [done|]. by left. }
  cbn [Z.eqb]. unfold segment_end in Hwr.
  destruct (Z.ltb_spec (elf_vstart r + region_size r) next) as [Hlast|Hmore].
  - rewrite load_loop_done by lia. exists 0, w1. split; [done|]. right. split; [done|].
    destruct (Z.ltb_spec (elf_vstart r + fs) (elf_vstart r + region_size r)); [done|].
    by replace (elf_vstart r + fs) with (segment_end r) by (unfold segment_end; lia).
  - destruct (decide (next = elf_vstart r + region_size r)) as [Heq|Hne].
    { rewrite load_loop_done by lia. exists 0, w1. split; [done|]. right. split; [done|].
      unfold segment_end. rewrite <- Heq. destruct (Z.ltb_spec (elf_vstart r + fs) next); [done|].
      by replace (elf_vstart r + fs) with next by lia. }
    destruct (written_kept _ _ _ _ _ _ Hwr) as (Hs1 & Hr1).
    destruct (IH (next - elf_vstart r) w1) as (e & w2 & Hrun2 & Hcase2); [done|done|done| |by rewrite Hs1| |done|done|done| |].
    { intros j r' Hj Hz. rewrite Hr1. exact (Hres j r' Hj Hz). }
    { unfold lo, next in *. lia. }
    { replace (elf_vstart r + (next - elf_vstart r)) with next by lia.
      rewrite (page_at_eq next next) by (unfold next; try lia; rewrite Z.add_mod, page_at_mod by lia; done).
      unfold next in *. lia. }
    replace (elf_vstart r + (next - elf_vstart r)) with next in Hrun2, Hcase2 by lia.
    exists e, w2. split; [done|]. destruct Hcase2 as [(He & Hgu)|(-> & Hwr2)]; [left|right].
    + split; [done|]. by eapply given_up_trans.
    + split; [done|]. eapply (written_compose source lo next); [| | |exact Hwr|exact Hwr2].
      * unfold segment_end, next in *. lia.
      * unfold next. rewrite Z.add_mod, page_at_mod by lia. done.
      * unfold segment_end. lia.
Qed.

(** A segment of the file: what it is in our memory, and in the target's. *)
Definition segment_source r : Z := elf_getProgramSegment elf_file (segment_index r).
Definition segment_file_size r : Z := elf_getProgramHeaderFileSize elf_file (segment_index r).
Definition segment_byte r (x : Z) : Z := elf_bytes elf_file (segment_source r + (x - elf_vstart r)).

(** The file part is in the segment, and in our memory. *)
Definition good_source r : Prop :=
  0 < segment_source r /\ segment_source r + region_size r + 4096 < word_size /\
  0 <= segment_file_size r <= region_size r.

Lemma load_segment_loads l i r w : laid_out l -> l !! i = Some r -> good_segment r -> good_source r ->
  reserved_for l (view_of w) ->
  exists e w', load_segment CONFIG_HUGE_PAGE (Some target) (Some current) (Some target_vka) (Some vka) elf_file
      (segment_source r) (segment_file_size r) (Z.of_nat (length l)) l (Z.of_nat i) w = Ok (e, w') /\
    ((e <> 0 /\ given_up (view_of w) (view_of w')) \/
     (e = 0 /\ written (segment_byte r) (elf_vstart r) (segment_end r) (elf_vstart r + segment_file_size r) (view_of w) (view_of w'))).
Proof.
  intros Hl Hi Hg (Hs0 & Hsw & Hfs) Hres. unfold load_segment.
  assert (Hget : arr_get l (Z.of_nat i) = Ok r) by (apply arr_get_ok; rewrite Nat2Z.id; split; [lia|done]).
  unfold lift at 1. rewrite Hget. unfold bind at 1. cbn [res_bind].
  destruct (Z.gtb_spec (segment_file_size r) (region_size r)); [lia|].
  destruct (alloc_step target current target_vka vka w) as (e & s & w1 & H1 & Hc1). rewrite (bind_ok _ _ _ _ _ H1).
  destruct Hc1 as [(He & Hv1)|(-> & slot & -> & _ & Hfresh & Hv1)]; cbn beta iota.
  { rewrite (proj2 (Z.eqb_neq e 0)) by done. cbn [negb]. exists e, w1. split; [done|]. left. split; [done|]. by rewrite Hv1. }
  cbn [Z.eqb negb default from_option]. unfold id. rewrite (bind_ok _ _ _ _ _ (own_path_step target current target_vka vka slot w1)).
  destruct (load_loop_loads (Z.to_nat (region_size r / PAGE_SIZE_4K) + 2) l i r slot (segment_file_size r) (segment_source r) 0 w1)
    as (e & w2 & H2 & Hc2); try done; try lia.
  { intros j r' Hj Hz. rewrite Hv1. exact (Hres j r' Hj Hz). }
  { rewrite Hv1. cbn. set_solver. }
  { pose proof Hg as (_ & ? & _). lia. }
  { pose proof (good_page r Hg) as (_ & _ & _ & _ & _ & _ & Hpe & _). pose proof Hg as (_ & Hsz & _).
    change PAGE_SIZE_4K with 4096. pose proof (page_at_bounds (elf_vstart r + 0)).
    assert (Hm : page_end r mod 4096 = 0) by (unfold page_end; by apply Z.mod_mul).
    pose proof (page_at_mod (elf_vstart r + 0)). unfold segment_end in Hpe. dlia. }
  rewrite !Z.add_0_r in H2. replace (Z.to_nat (region_size r / PAGE_SIZE_4K) + 3)%nat
    with (S (Z.to_nat (region_size r / PAGE_SIZE_4K) + 2)) by lia.
  rewrite (bind_ok _ _ _ _ _ H2).
  rewrite own_path_slot. destruct (free_step target current target_vka vka slot w2) as (w3 & H3 & Hv3). rewrite (bind_ok _ _ _ _ _ H3).
  exists e, w3. split; [done|]. destruct Hc2 as [(He & Hr2 & Hs2 & Hw2 & Hres2)|(-> & Hwr)]; [left|right]; (split; [done|]).
  - unfold given_up. rewrite Hv3. cbn. rewrite Hr2, Hs2, Hw2, Hres2, Hv1. cbn. split_and!; [done| |done|done]. set_solver.
  - rewrite Z.add_0_r in Hwr. destruct Hwr as [R1 R2 R3 R4 R5 R6].
    split; rewrite ?Hv3; cbn.
    + rewrite R1, Hv1. unfold set_slots. cbn. f_equal. set_solver.
    + intros p c Hp. apply R2. by rewrite Hv1.
    + intros p. rewrite R3, Hv1. done.
    + done.
    + intros x Hx Hn. apply R5; [done|by rewrite Hv1].
    + intros x Hx Hc. rewrite R6; [by rewrite Hv1|done|by rewrite Hv1].
Qed.
End load.
