(* ===== verification/ElfSpec.v ===== *)
(** That sel4utils_elf_load (libsel4utils/src/elf.c) makes the target's memory what
    the ELF file says, and leaves nothing else behind. *)
From stdpp Require Import sorting.
From S2P Require Import Prelude Cspacepath Interfaces Objects Vka VspaceTables VspaceView VspaceSpec Vspace VspaceReserve.
From S2P Require Import VspaceApi Mapping TargetMemory Elf ElfPlace ElfLoad.

(** sglib's sort, for a comparison that compares keys. *)
Class SglibSorts (sort : (sel4utils_elf_region_t -> sel4utils_elf_region_t -> res Z) ->
    list sel4utils_elf_region_t -> res (list sel4utils_elf_region_t)) : Prop :=
  sglib_sorts : forall compare (key : sel4utils_elf_region_t -> Z) l,
    (forall i j a b, i <> j -> l !! i = Some a -> l !! j = Some b -> exists z, compare a b = Ok z /\
       ((key a < key b /\ z < 0) \/ (key b < key a /\ 0 < z) \/ (key a = key b /\ z = 0))) ->
    exists l', sort compare l = Ok l' /\ l' ≡ₚ l /\ StronglySorted (fun a b => key a <= key b) l'.

Lemma sorted_next {A} (R : A -> A -> Prop) (l : list A) (i : nat) (a b : A) :
  StronglySorted R l -> l !! i = Some a -> l !! S i = Some b -> R a b.
Proof.
  revert i. induction l as [|x l IH]; intros i Hs; [done|]. apply StronglySorted_cons in Hs as [Hx Hl].
  destruct i as [|i]; cbn; [|by apply IH]. intros [= ->] Hb. eapply Forall_lookup_1; [exact Hx|exact Hb].
Qed.

Section spec.
Context `{ER : !ElfReader} `{CR : !CapRights} `{CL : !CapRightsLaws} `{UM : !UtilsMacros} `{UL : !UtilsLaws}.
Context (sort : (sel4utils_elf_region_t -> sel4utils_elf_region_t -> res Z) ->
  list sel4utils_elf_region_t -> res (list sel4utils_elf_region_t)) `{SS : !SglibSorts sort} (elf_file : elf_t).
Implicit Types (l : list sel4utils_elf_region_t) (r : sel4utils_elf_region_t) (v : view).

(** ** The segments that are loaded *)

Definition few_headers : Prop := 0 <= elf_getNumProgramHeaders elf_file < 2 ^ 31.

Fixpoint segments_from (i : Z) (k : nat) : list sel4utils_elf_region_t :=
  match k with
  | O => []
  | S k => if is_loadable_section elf_file i then read_region elf_file i no_region :: segments_from (i + 1) k
           else segments_from (i + 1) k
  end.
Definition file_segments : list sel4utils_elf_region_t :=
  segments_from 0 (Z.to_nat (elf_getNumProgramHeaders elf_file)).

Lemma segments_from_index (i : Z) (k : nat) r : r ∈ segments_from i k ->
  i <= segment_index r < i + Z.of_nat k /\ r = read_region elf_file (segment_index r) no_region.
Proof.
  revert i. induction k as [|k IH]; intros i; cbn [segments_from]; [by intros H%elem_of_nil|].
  destruct (is_loadable_section elf_file i).
  - intros [->|H]%elem_of_cons; [cbn; split; [lia|done]|]. destruct (IH _ H). split; [lia|done].
  - intros H. destruct (IH _ H). split; [lia|done].
Qed.

Lemma segments_from_nodup (i : Z) (k : nat) : NoDup (segments_from i k).
Proof.
  revert i. induction k as [|k IH]; intros i; cbn [segments_from]; [constructor|].
  destruct (is_loadable_section elf_file i); [|done]. constructor; [|done].
  intros [H _]%segments_from_index. cbn in H. lia.
Qed.

Lemma count_segments (i n : Z) (k : nat) : count_loop k elf_file i n = n + Z.of_nat (length (segments_from i k)).
Proof.
  revert i n. induction k as [|k IH]; intros i n; cbn [count_loop segments_from]; [cbn; lia|]. rewrite IH.
  destruct (is_loadable_section elf_file i); cbn [length]; lia.
Qed.

Lemma num_headers : few_headers -> to_int (elf_getNumProgramHeaders elf_file) = elf_getNumProgramHeaders elf_file.
Proof. intros H. unfold few_headers, to_int in *. rewrite Z.mod_small; lia. Qed.

Lemma count_file_segments : few_headers -> count_loadable_regions elf_file = Z.of_nat (length file_segments).
Proof. intros H. unfold count_loadable_regions. rewrite num_headers by done. by rewrite count_segments. Qed.

Lemma read_loop_reads (k : nat) (i : Z) (done_ : list sel4utils_elf_region_t) :
  read_loop k elf_file i (Z.of_nat (length done_)) (done_ ++ replicate (length (segments_from i k)) no_region)
    = Ok (Z.of_nat (length done_ + length (segments_from i k)), done_ ++ segments_from i k).
Proof.
  revert i done_. induction k as [|k IH]; intros i dn; cbn [read_loop segments_from].
  { cbn. by rewrite app_nil_r, Nat.add_0_r. }
  destruct (is_loadable_section elf_file i); [|apply IH]. cbn [length replicate].
  assert (Hget : arr_get (dn ++ no_region :: replicate (length (segments_from (i + 1) k)) no_region) (Z.of_nat (length dn)) = Ok no_region).
  { apply arr_get_ok. rewrite Nat2Z.id, list_lookup_middle by done. split; [lia|done]. }
  rewrite Hget. cbn [res_bind]. rewrite arr_set_in by (rewrite length_app; cbn [length]; lia). cbn [res_bind].
  rewrite Nat2Z.id, insert_app_r_alt, Nat.sub_diag by lia. cbn [insert list_insert].
  specialize (IH (i + 1) (dn ++ [read_region elf_file i no_region])). rewrite length_app in IH. cbn [length] in IH.
  rewrite <- !app_assoc in IH. cbn [app] in IH. replace (Z.of_nat (length dn) + 1) with (Z.of_nat (length dn + 1)) by lia.
  rewrite IH. do 2 f_equal. lia.
Qed.

Lemma read_regions_reads : few_headers ->
  read_regions elf_file (Z.of_nat (length file_segments)) (replicate (length file_segments) no_region) = Ok (0, file_segments).
Proof.
  intros H. unfold read_regions. rewrite num_headers by done.
  pose proof (read_loop_reads (Z.to_nat (elf_getNumProgramHeaders elf_file)) 0 []) as Hr. cbn [length app Nat.add] in Hr.
  change (Z.of_nat 0) with 0 in Hr. unfold file_segments. rewrite Hr. cbn [res_bind]. by rewrite Z.eqb_refl.
Qed.

(** ** What is asked of the regions

    Of the regions as they are read: what is asked of the file is [good_file],
    below. *)
Record good_regions : Prop := {
  gr_headers : few_headers;
  gr_segments : Forall (fun r => good_segment r /\ good_source elf_file r) file_segments;
  gr_apart : forall a b, a ∈ file_segments -> b ∈ file_segments -> a <> b ->
    segment_end a <= elf_vstart b \/ segment_end b <= elf_vstart a;
  gr_share : forall a b, a ∈ file_segments -> b ∈ file_segments -> segment_end a <= elf_vstart b -> shares_page a b ->
    seL4_CapRights_get_capAllowRead (rights a) = true /\ seL4_CapRights_get_capAllowRead (rights b) = true /\
    seL4_CapRights_get_capAllowWrite (rights a) = false /\ seL4_CapRights_get_capAllowWrite (rights b) = true;
  gr_entry : 0 < elf_getEntryPoint elf_file < 2 ^ 32
}.

Lemma sort_segments : good_regions -> exists l, sort compare_regions file_segments = Ok l /\ l ≡ₚ file_segments /\ good_segments l.
Proof.
  intros [Hh Hs Ha Hsh _]. pose proof (segments_from_nodup 0 (Z.to_nat (elf_getNumProgramHeaders elf_file))) as Hnd.
  fold file_segments in Hnd.
  assert (Hgood : forall a, a ∈ file_segments -> good_segment a) by (intros a Hin; apply (proj1 (Forall_forall _ _) Hs a Hin)).
  destruct (sglib_sorts compare_regions elf_vstart file_segments) as (l & Hl & Hp & Hsorted).
  { intros i j a b Hij Hi Hj. assert (Hne : a <> b) by (intros ->; by apply Hij, (NoDup_lookup file_segments i j b)).
    apply list_elem_of_lookup_2 in Hi, Hj.
    pose proof (Hgood a Hi) as (Ha1 & Ha2 & Ha3). pose proof (Hgood b Hj) as (Hb1 & Hb2 & Hb3). unfold segment_end in *.
    unfold compare_regions. rewrite !wrap_small by (unfold is_word; lia).
    destruct (Ha a b Hi Hj Hne) as [H|H].
    - rewrite (proj2 (Z.leb_le _ _)) by done. exists (-1). split; [done|lia].
    - destruct (Z.leb_spec (elf_vstart a + region_size a) (elf_vstart b)); [lia|]. rewrite (proj2 (Z.leb_le _ _)) by done.
      exists 1. split; [done|lia]. }
  exists l. split_and!; [done|done|]. split.
  - apply Forall_forall. intros a Hin. apply Hgood. by rewrite <- Hp.
  - intros i a b Hi Hj.
    assert (Hle : elf_vstart a <= elf_vstart b) by exact (sorted_next (fun a b => elf_vstart a <= elf_vstart b) l i a b Hsorted Hi Hj).
    assert (Hne : a <> b) by (intros ->; assert (i = S i) by (eapply NoDup_lookup; [|done|done]; by rewrite Hp); lia).
    apply list_elem_of_lookup_2 in Hi, Hj. rewrite Hp in Hi, Hj.
    pose proof (Hgood a Hi) as (Ha1 & Ha2 & Ha3). pose proof (Hgood b Hj) as (Hb1 & Hb2 & Hb3).
    assert (Hord : segment_end a <= elf_vstart b) by (destruct (Ha a b Hi Hj Hne); unfold segment_end in *; lia).
    split; [done|]. intros Hshare. by apply Hsh.
Qed.
End spec.

(** ** Making and freeing the reservations, and loading all segments *)

Section whole.
Context `{ER : !ElfReader} `{CR : !CapRights} `{CL : !CapRightsLaws} `{UM : !UtilsMacros} `{UL : !UtilsLaws}.
Context {W : Type} {seL4 : SeL4Constants} `{KO : !KernelOps W} `{MC : !MappingConstants} `{CO : !CopyOps W}.
Context (target current : vspace_t W) (target_vka vka : vka_t W) `{TM : !TargetMemory W target current target_vka vka}.
Context (CONFIG_HUGE_PAGE : bool) (elf_file : elf_t).
Implicit Types (l : list sel4utils_elf_region_t) (r : sel4utils_elf_region_t) (w : W) (v : view).

(** The keys of the reservations that were made. *)
Definition made l : list Z := reservation <$> filter (fun r => reservation_size r <> 0) l.

(** [b] is [a] but for its reservation. *)
Definition same_place a b : Prop :=
  same_segment a b /\ reservation_vstart b = reservation_vstart a /\ reservation_size b = reservation_size a.

Lemma same_place_with a (k : Z) : same_place a (with_elf_reservation k None a).
Proof. done. Qed.

Lemma same_place_refl a : same_place a a.
Proof. done. Qed.

Lemma made_cons r l : made (r :: l) = (if decide (reservation_size r = 0) then [] else [reservation r]) ++ made l.
Proof. unfold made. rewrite filter_cons. destruct (decide (reservation_size r = 0)), (decide (reservation_size r <> 0)); try done. Qed.

Lemma lift_step {S A} (a : A) (s : S) : lift (Ok a) s = Ok (a, s).
Proof. done. Qed.

Lemma arr_get_middle {A} (dn l : list A) (x : A) : arr_get (dn ++ x :: l) (Z.of_nat (length dn)) = Ok x.
Proof. apply arr_get_ok. rewrite Nat2Z.id, list_lookup_middle by done. split; [lia|done]. Qed.

Lemma arr_set_middle {A} (dn l : list A) (x y : A) : arr_set (dn ++ x :: l) (Z.of_nat (length dn)) y = Ok (dn ++ y :: l).
Proof.
  rewrite arr_set_in by (rewrite length_app; cbn [length]; lia). by rewrite Nat2Z.id, insert_app_r_alt, Nat.sub_diag by lia.
Qed.

Definition only_reserved v v' : Prop := v' = View (bytes v) (frames v) (reserved v') (slots v) (copies v) (windows v) (refused v).

Lemma create_creates l dn w :
  Forall (fun r => reservation_vstart r mod 4096 = 0 /\ reservation_size r mod 4096 = 0 /\ 0 <= reservation_size r) l ->
  (exists e l' w', create_loop (length l) (Some target) (Z.of_nat (length dn)) false (dn ++ l) w = Ok (e, l', w') /\
     e <> 0 /\ refused (view_of w') = true /\ slots (view_of w') = slots (view_of w) /\ windows (view_of w') = windows (view_of w)) \/
  (exists l' w', create_loop (length l) (Some target) (Z.of_nat (length dn)) false (dn ++ l) w = Ok (0, dn ++ l', w') /\
     Forall2 same_place l l' /\ only_reserved (view_of w) (view_of w') /\
     (forall k, k ∈ made l' -> reserved (view_of w) !! k = None) /\
     (forall k, k ∉ made l' -> reserved (view_of w') !! k = reserved (view_of w) !! k) /\
     reserved_for l' (view_of w')).
Proof.
  revert dn w. induction l as [|r l IH]; intros dn w Hl.
  { right. exists [], w. cbn. rewrite app_nil_r. split_and!; [done|constructor|by destruct (view_of w)|by intros k H%elem_of_nil|done|done]. }
  apply Forall_cons in Hl as [(Hv & Hs & H0) Hl]. cbn [length create_loop]. rewrite arr_get_middle, (bind_ok _ _ _ _ _ (lift_step r w)).
  assert (Hnext : forall a, Z.of_nat (length dn) + 1 = Z.of_nat (length (dn ++ [a : sel4utils_elf_region_t])))
    by (intros; rewrite length_app; cbn [length]; lia).
  assert (Hmid : forall (a : sel4utils_elf_region_t) k, dn ++ a :: k = (dn ++ [a]) ++ k) by (intros; by rewrite <- app_assoc).
  destruct (Z.eqb_spec (reservation_size r) 0) as [Hz|Hz].
  - rewrite (Hnext r), (Hmid r l). destruct (IH (dn ++ [r]) w Hl) as [H|(l' & w' & H & Hf & Ho & Hk & Hr & Hres)]; [left; exact H|right].
    exists (r :: l'), w'. rewrite <- (Hmid r l'), <- (Hmid r l) in H. rewrite <- (Hmid r l).
    assert (Hm : made (r :: l') = made l') by (rewrite made_cons, decide_True by done; done). rewrite Hm.
    split_and!; [exact H|by constructor|done|done|done|]. intros [|i] a; cbn; [by intros [= <-]|apply Hres].
  - unfold vspace_reserve_range_at. destruct target_reserve as (f & -> & Hlaw).
    rewrite (proj2 (Z.eqb_neq _ 0)) by done.
    destruct (Hlaw (reservation_vstart r) (reservation_size r) (rights r) (cacheable r) w) as (k & w1 & H1 & Hc); [lia|done|done|].
    erewrite bind_ok by (rewrite (bind_ok _ _ _ _ _ H1); reflexivity). cbn beta iota.
    rewrite arr_set_middle, (bind_ok _ _ _ _ _ (lift_step _ w1)). destruct Hc as [(-> & Hv1)|(Hk0 & Hkn & Hv1)].
    { left. cbn [Z.eqb]. do 3 eexists. split; [done|]. rewrite Hv1. done. }
    rewrite (proj2 (Z.eqb_neq k 0)) by done. set (r' := with_elf_reservation k None r).
    rewrite (Hnext r'), (Hmid r' l). destruct (IH (dn ++ [r']) w1 Hl) as [(e & l' & w' & H & He & Hr & Hsl & Hw)|(l' & w' & H & Hf & Ho & Hk & Hr & Hres)].
    { left. exists e, l', w'. rewrite Hsl, Hw, Hv1. done. }
    right. exists (r' :: l'), w'. rewrite <- (Hmid r' l'), <- (Hmid r' l) in H. rewrite <- (Hmid r' l).
    assert (Hm : made (r' :: l') = k :: made l') by (rewrite made_cons, decide_False by done; done). rewrite Hm.
    assert (Hkl : k ∉ made l').
    { intros Hin. specialize (Hk k Hin). rewrite Hv1 in Hk. cbn in Hk. by rewrite lookup_insert_eq in Hk. }
    split_and!; [done|by constructor| | | |].
    + unfold only_reserved in *. rewrite Ho, Hv1. done.
    + intros q [->|Hq]%elem_of_cons; [done|]. specialize (Hk q Hq). rewrite Hv1 in Hk. cbn in Hk.
      rewrite lookup_insert_ne in Hk; [done|]. by intros <-.
    + intros q [Hq Hq']%not_elem_of_cons. rewrite Hr by done. rewrite Hv1. cbn. by rewrite lookup_insert_ne.
    + intros [|i] a; cbn [lookup list_lookup]; [|apply Hres]. intros [= <-] _. rewrite Hr by done. rewrite Hv1. cbn.
      by rewrite lookup_insert_eq.
Qed.

Lemma clear_clears l dn w : Forall (fun r => 0 <= reservation_size r) l ->
  exists w', clear_loop (length l) (Some target) (Z.of_nat (length dn)) (dn ++ l) w = Ok (tt, w') /\
    only_reserved (view_of w) (view_of w') /\
    forall k, reserved (view_of w') !! k = if decide (k ∈ made l) then None else reserved (view_of w) !! k.
Proof.
  revert dn w. induction l as [|r l IH]; intros dn w Hl.
  { exists w. split_and!; [done|by destruct (view_of w)|]. intros k. by rewrite decide_False by apply not_elem_of_nil. }
  apply Forall_cons in Hl as [H0 Hl]. cbn [length clear_loop]. rewrite arr_get_middle, (bind_ok _ _ _ _ _ (lift_step r w)).
  assert (Hstep : exists w1, (if reservation_size r >? 0 then vspace_free_reservation (Some target) (reservation r) else ret tt) w = Ok (tt, w1) /\
    view_of w1 = if decide (reservation_size r = 0) then view_of w else set_reserved (delete (reservation r)) (view_of w)).
  { destruct (Z.gtb_spec (reservation_size r) 0).
    - rewrite decide_False by lia. unfold vspace_free_reservation. destruct target_free_reservation as (f & -> & Hf). apply Hf.
    - rewrite decide_True by lia. by exists w. }
  destruct Hstep as (w1 & H1 & Hv1). rewrite (bind_ok _ _ _ _ _ H1).
  destruct (IH (dn ++ [r]) w1 Hl) as (w' & H & Ho & Hk). rewrite length_app, <- app_assoc in H. cbn [length app] in H.
  replace (Z.of_nat (length dn) + 1) with (Z.of_nat (length dn + 1)) by lia.
  exists w'. split; [done|]. split.
  - unfold only_reserved in *. rewrite Ho, Hv1. by destruct (decide (reservation_size r = 0)).
  - intros k. rewrite Hk, Hv1, made_cons. destruct (decide (reservation_size r = 0)); [done|]. cbn [app set_reserved reserved].
    destruct (decide (k ∈ made l)); [by rewrite decide_True by (by right)|].
    destruct (decide (k = reservation r)) as [->|Hne].
    + rewrite decide_True by left. apply lookup_delete_eq.
    + rewrite decide_False by (by apply not_elem_of_cons). by apply lookup_delete_ne.
Qed.

Lemma same_place_laid_out l l' : Forall2 same_place l l' -> laid_out l -> laid_out l'.
Proof.
  intros Hf Hl i b Hb. destruct (Forall2_lookup_r _ _ _ _ _ Hf Hb) as (a & Ha & (Hsa & Hva & Hza)).
  destruct (same_segment_pages _ _ Hsa) as (Hf1 & Hp1 & _). destruct (Hl i a Ha) as [Hv Hs].
  rewrite Hva, Hza, Hf1, Hp1. split; [done|]. destruct Hs as [?|(Hs & r' & Hi & Hx & Hy & Hz & Hq)]; [by left|right].
  split; [done|]. destruct (Forall2_lookup_l _ _ _ _ _ Hf Hi) as (b' & Hb' & (Hsb & Hvb & Hzb)).
  destruct (same_segment_pages _ _ Hsb) as (Hf2 & Hp2 & _). exists b'. by rewrite Hvb, Hzb, Hf2, Hp2.
Qed.

(** What loading the segments [rs] makes of the target. *)
Definition file_part r (x : Z) : Prop := elf_vstart r <= x < elf_vstart r + segment_file_size elf_file r.

Record loaded (rs : list sel4utils_elf_region_t) v v' : Prop := {
  ld_rest : v' = View (bytes v') (frames v') (reserved v) (slots v) (copies v) (windows v) (refused v);
  ld_old : forall p c, frames v !! p = Some c -> frames v' !! p = Some c;
  ld_frames : forall p, is_Some (frames v' !! p) <-> is_Some (frames v !! p) \/ exists r, r ∈ rs /\ page_of_segment r p;
  ld_file : forall r x, r ∈ rs -> file_part r x -> bytes v' x = segment_byte elf_file r x;
  ld_zero : forall r x, r ∈ rs -> page_of_segment r (page_at x) -> (forall r', r' ∈ rs -> ~ file_part r' x) ->
    frames v !! page_at x = None -> bytes v' x = 0;
  ld_same : forall x, (forall r', r' ∈ rs -> ~ file_part r' x) ->
    is_Some (frames v !! page_at x) \/ (forall r, r ∈ rs -> ~ page_of_segment r (page_at x)) -> bytes v' x = bytes v x
}.

Lemma written_pages r p : good_segment r -> p mod 4096 = 0 ->
  (elf_vstart r < p + 4096 /\ p < segment_end r) <-> page_of_segment r p.
Proof.
  intros Hg Hp. pose proof (good_page r Hg) as (_ & _ & _ & _ & _ & Hf & He & [a Ha] & [b Hb]). unfold page_of_segment. split.
  - intros [H1 H2]. split; [done|]. dlia.
  - intros [_ [H1 H2]]. dlia.
Qed.

Lemma loaded_cons r rs v1 v2 v3 : good_segment r -> 0 <= segment_file_size elf_file r <= region_size r ->
  (forall r', r' ∈ rs -> segment_end r <= elf_vstart r') ->
  written (segment_byte elf_file r) (elf_vstart r) (segment_end r) (elf_vstart r + segment_file_size elf_file r) v1 v2 ->
  loaded rs v2 v3 -> loaded (r :: rs) v1 v3.
Proof.
  intros Hg Hfs Hord [W1 W2 W3 W4 W5 W6] [L1 L2 L3 L4 L5 L6].
  pose proof (good_page r Hg) as (_ & _ & _ & _ & _ & Hfp & Hpe & _).
  assert (Hpage : forall p, p mod 4096 = 0 -> (elf_vstart r < p + 4096 /\ p < segment_end r) <-> page_of_segment r p)
    by (intros; by apply written_pages).
  assert (Hnot : forall x, ~ page_of_segment r (page_at x) -> page_at x + 4096 <= elf_vstart r \/ segment_end r <= page_at x).
  { intros x Hx. rewrite <- Hpage in Hx by apply page_at_mod. lia. }
  assert (Hin : forall x, file_part r x -> page_of_segment r (page_at x)).
  { intros x Hx. apply Hpage; [apply page_at_mod|]. unfold file_part, segment_end in *. pose proof (page_at_bounds x). lia. }
  split.
  - rewrite L1, W1. done.
  - intros p c Hp. by apply L2, W2.
  - intros p. rewrite L3, W3. split.
    + intros [[?|(Hm & H)]|(r' & Hr' & Hp)]; [by left|right|right].
      * exists r. split; [left|by apply Hpage].
      * exists r'. split; [by right|done].
    + intros [?|(r' & [->|Hr']%elem_of_cons & Hp)]; [by left; left| |right; by exists r'].
      left. right. split; [apply Hp|]. by apply Hpage; [apply Hp|].
  - intros r' x [->|Hr']%elem_of_cons Hx; [|by apply L4]. rewrite L6, W4; [done|exact Hx| |].
    + intros r' Hr' Hx'. specialize (Hord r' Hr'). unfold file_part, segment_end in *. lia.
    + left. apply W3. right. split; [apply page_at_mod|]. apply Hpage; [apply page_at_mod|]. by apply Hin.
  - intros r' x Hr' Hp Hno Hnone. assert (Hno' : forall r'', r'' ∈ rs -> ~ file_part r'' x) by (intros; apply Hno; by right).
    assert (Hnr : ~ file_part r x) by (apply Hno; left).
    destruct (decide (is_Some (frames v2 !! page_at x))) as [Hsome|Hn2].
    + rewrite L6 by (by (done || left)). apply W3 in Hsome as [[? ?]|(_ & H1 & H2)]; [congruence|]. by apply W5.
    + apply elem_of_cons in Hr' as [->|Hr'].
      * destruct Hn2. apply W3. right. split; [apply page_at_mod|]. by apply Hpage; [apply page_at_mod|].
      * apply (L5 r'); [done|done|done|]. destruct (frames v2 !! page_at x) eqn:E; [|done]. destruct Hn2. by eexists.
  - intros x Hno Hc. assert (Hno' : forall r'', r'' ∈ rs -> ~ file_part r'' x) by (intros; apply Hno; by right).
    rewrite L6; [apply W6; [apply Hno; left|]|done|].
    + destruct Hc as [?|Hc]; [by left|right]. apply Hnot, Hc. left.
    + destruct Hc as [[c Hc]|Hc]; [left; exists c; by apply W2|right]. intros r' Hr'. apply Hc. by right.
Qed.

Lemma load_segments_loads l rs i w : laid_out l -> (i + length rs = length l)%nat -> drop i l = rs ->
  Forall (fun r => good_segment r /\ good_source elf_file r) rs ->
  (forall j k a b, (j < k)%nat -> l !! j = Some a -> l !! k = Some b -> segment_end a <= elf_vstart b) ->
  reserved_for l (view_of w) ->
  exists e w', load_segments_loop CONFIG_HUGE_PAGE (length rs) (Some target) (Some current) (Some target_vka) (Some vka) elf_file
      (Z.of_nat (length l)) l (Z.of_nat i) w = Ok (e, w') /\
    ((e <> 0 /\ given_up (view_of w) (view_of w')) \/ (e = 0 /\ loaded rs (view_of w) (view_of w'))).
Proof.
  intros Hl. revert i w. induction rs as [|r rs IH]; intros i w Hlen Hdrop Hgood Hord Hres.
  { exists 0, w. split; [done|]. right. split; [done|].
    split; [by destruct (view_of w)|done| |by intros r x H%elem_of_nil|by intros r x H%elem_of_nil|done].
    intros p. split; [by left|]. intros [?|(r & H%elem_of_nil & _)]; done. }
  apply Forall_cons in Hgood as [[Hg Hsrc] Hgood].
  assert (Hi : l !! i = Some r) by (by rewrite <- (Nat.add_0_r i), <- lookup_drop, Hdrop).
  cbn [length load_segments_loop].
  assert (Hget : arr_get l (Z.of_nat i) = Ok r) by (apply arr_get_ok; rewrite Nat2Z.id; split; [lia|done]).
  rewrite Hget, (bind_ok _ _ _ _ _ (lift_step r w)).
  fold (segment_source elf_file r). fold (segment_file_size elf_file r).
  destruct (Z.eqb_spec (segment_source elf_file r) 0) as [H0|H0]; [destruct Hsrc; lia|].
  destruct (load_segment_loads target current target_vka vka CONFIG_HUGE_PAGE elf_file l i r w Hl Hi Hg Hsrc Hres)
    as (e & w1 & H1 & Hc). rewrite (bind_ok _ _ _ _ _ H1).
  destruct Hc as [(He & Hgu)|(-> & Hwr)].
  { rewrite (proj2 (Z.eqb_neq e 0)) by done. exists e, w1. split; [done|]. by left. }
  cbn [Z.eqb negb]. destruct (written_kept _ _ _ _ _ _ Hwr) as [Hs1 Hr1].
  assert (Hdrop' : drop (S i) l = rs).
  { replace (S i) with (i + 1)%nat by lia. by rewrite <- drop_drop, Hdrop. }
  destruct (IH (S i) w1) as (e & w' & H & Hc'); [cbn [length] in Hlen; lia|done|done|done| |].
  { intros j b Hj Hz. rewrite Hr1. exact (Hres j b Hj Hz). }
  replace (Z.of_nat (S i)) with (Z.of_nat i + 1) in H by lia. exists e, w'. split; [done|].
  destruct Hc' as [(He & Hgu)|(-> & Hld)]; [left|right]; (split; [done|]).
  - by eapply given_up_trans.
  - eapply loaded_cons; [done|apply Hsrc| |exact Hwr|exact Hld].
    intros r' [k Hk]%list_elem_of_lookup. rewrite <- Hdrop', lookup_drop in Hk. apply (Hord i (S i + k)%nat); [lia|done|done].
Qed.

End whole.

Section elf_load.
Context `{ER : !ElfReader} `{CR : !CapRights} `{CL : !CapRightsLaws} `{UM : !UtilsMacros} `{UL : !UtilsLaws}.
Context {W : Type} {seL4 : SeL4Constants} `{KO : !KernelOps W} `{MC : !MappingConstants} `{CO : !CopyOps W}.
Context (target current : vspace_t W) (target_vka vka : vka_t W) `{TM : !TargetMemory W target current target_vka vka}.
Context (sort : (sel4utils_elf_region_t -> sel4utils_elf_region_t -> res Z) ->
  list sel4utils_elf_region_t -> res (list sel4utils_elf_region_t)) `{SS : !SglibSorts sort}.
Context (CONFIG_HUGE_PAGE : bool) (elf_file : elf_t).
Implicit Types (l : list sel4utils_elf_region_t) (r : sel4utils_elf_region_t) (w : W) (v : view).

(** The target has the regions: see [image_loaded], below, which says so of the
    segments of the file. *)
Record regions_loaded v v' : Prop := {
  rl_rest : v' = View (bytes v') (frames v') (reserved v) (slots v) (copies v) (windows v) (refused v);
  rl_frames : forall p, is_Some (frames v' !! p) <->
    is_Some (frames v !! p) \/ exists r, r ∈ file_segments elf_file /\ page_of_segment r p;
  rl_file : forall r x, r ∈ file_segments elf_file -> file_part elf_file r x -> bytes v' x = segment_byte elf_file r x;
  rl_zero : forall r x, r ∈ file_segments elf_file -> page_of_segment r (page_at x) ->
    (forall r', r' ∈ file_segments elf_file -> ~ file_part elf_file r' x) -> bytes v' x = 0;
  rl_same : forall x, (forall r, r ∈ file_segments elf_file -> ~ page_of_segment r (page_at x)) -> bytes v' x = bytes v x
}.

(** None of the pages of the segments is there yet. *)
Definition room_for_regions v : Prop :=
  forall r p, r ∈ file_segments elf_file -> page_of_segment r p -> frames v !! p = None.

Lemma file_part_page r x : good_segment r -> good_source elf_file r -> file_part elf_file r x -> page_of_segment r (page_at x).
Proof.
  intros Hg (_ & _ & Hfs) Hx. apply written_pages; [done|apply page_at_mod|].
  unfold file_part, segment_end in *. pose proof (page_at_bounds x). lia.
Qed.

(** The array that is loaded has the segments of the file, in their places. *)
Lemma same_place_segments l l' : Forall2 same_place (place l) l' ->
  Forall2 same_segment l l'.
Proof.
  intros Hf. apply Forall2_lookup. intros i.
  pose proof (proj1 (Forall2_lookup _ _ _) (place_same l) i) as H1. pose proof (proj1 (Forall2_lookup _ _ _) Hf i) as H2.
  destruct H1 as [a b (A1 & A2 & A3 & A4 & A5)|]; inversion H2 as [? c ((B1 & B2 & B3 & B4 & B5) & _)|]; subst; constructor.
  unfold same_segment. by rewrite B1, B2, B3, B4, B5, A1, A2, A3, A4, A5.
Qed.

Lemma same_segment_parts a b : same_segment a b ->
  (good_segment a -> good_segment b) /\ (good_source elf_file a -> good_source elf_file b) /\
  (forall x, file_part elf_file b x <-> file_part elf_file a x) /\
  (forall x, segment_byte elf_file b x = segment_byte elf_file a x) /\ (forall p, page_of_segment b p <-> page_of_segment a p).
Proof.
  intros Hs. destruct (same_segment_pages _ _ Hs) as (Hf & Hp & He). destruct Hs as (_ & Hv & Hz & _ & Hi).
  unfold good_segment, good_source, file_part, segment_byte, segment_source, segment_file_size, page_of_segment.
  by rewrite Hv, Hz, Hf, Hp, He, Hi.
Qed.

Lemma loaded_regions l l' v v1 v2 v3 : good_regions elf_file -> l ≡ₚ file_segments elf_file -> Forall2 same_segment l l' ->
  room_for_regions v -> only_reserved v v1 -> loaded elf_file l' v1 v2 -> only_reserved v2 v3 -> reserved v3 = reserved v ->
  regions_loaded v v3.
Proof.
  intros Hgf Hp Hf Hroom Ho1 [L1 L2 L3 L4 L5 L6] Ho3 Hres.
  assert (Hv : bytes v1 = bytes v /\ frames v1 = frames v /\ bytes v3 = bytes v2 /\ frames v3 = frames v2)
    by (rewrite Ho1, Ho3; done). destruct Hv as (Hb1 & Hf1 & Hb3 & Hf3).
  assert (Hto : forall r, r ∈ file_segments elf_file -> exists r', r' ∈ l' /\ same_segment r r').
  { intros r Hr. rewrite <- Hp in Hr. apply list_elem_of_lookup in Hr as [i Hi].
    destruct (Forall2_lookup_l _ _ _ _ _ Hf Hi) as (r' & Hi' & Hs). exists r'. split; [by eapply list_elem_of_lookup_2|done]. }
  assert (Hfrom : forall r', r' ∈ l' -> exists r, r ∈ file_segments elf_file /\ same_segment r r').
  { intros r' Hr. apply list_elem_of_lookup in Hr as [i Hi]. destruct (Forall2_lookup_r _ _ _ _ _ Hf Hi) as (r & Hi' & Hs).
    exists r. split; [rewrite <- Hp; by eapply list_elem_of_lookup_2|done]. }
  split.
  - rewrite Ho3, L1, Ho1. cbn. by rewrite Hres.
  - intros p. rewrite Hf3, L3, Hf1. split; (intros [?|(r & Hr & Hx)]; [by left|right]).
    + destruct (Hfrom r Hr) as (r' & Hr' & Hs). exists r'. split; [done|]. by apply (same_segment_parts _ _ Hs).
    + destruct (Hto r Hr) as (r' & Hr' & Hs). exists r'. split; [done|]. by apply (same_segment_parts _ _ Hs).
  - intros r x Hr Hx. destruct (Hto r Hr) as (r' & Hr' & Hs). destruct (same_segment_parts _ _ Hs) as (_ & _ & Hx' & Hb & _).
    rewrite Hb3, (L4 r' x Hr') by (by apply Hx'). apply Hb.
  - intros r x Hr Hx Hno. destruct (Hto r Hr) as (r' & Hr' & Hs). rewrite Hb3. apply (L5 r' x Hr').
    + by apply (same_segment_parts _ _ Hs).
    + intros a Ha Hax. destruct (Hfrom a Ha) as (b & Hb & Hs'). apply (Hno b Hb). by apply (same_segment_parts _ _ Hs').
    + rewrite Hf1. by apply (Hroom r).
  - intros x Hno. rewrite Hb3, L6, Hb1; [done| |].
    + intros a Ha Hax. destruct (Hfrom a Ha) as (b & Hb & Hs'). apply (Hno b Hb).
      pose proof (proj1 (Forall_forall _ _) (gr_segments _ Hgf) b Hb) as [Hg1 Hg2]. apply file_part_page; [done|done|].
      by apply (same_segment_parts _ _ Hs').
    + right. intros a Ha Hax. destruct (Hfrom a Ha) as (b & Hb & Hs'). apply (Hno b Hb). by apply (same_segment_parts _ _ Hs').
Qed.

(** Up to the reservations. *)
Lemma reserve_regions l w : good_regions elf_file -> sort compare_regions (file_segments elf_file) = Ok l ->
  l ≡ₚ file_segments elf_file -> good_segments l ->
  (exists e l' w', elf_reserve_regions_in_vspace sort (Some target) elf_file (Z.of_nat (length l))
       (replicate (length l) no_region) false w = Ok (e, l', w') /\ e <> 0 /\ refused (view_of w') = true /\
       slots (view_of w') = slots (view_of w) /\ windows (view_of w') = windows (view_of w)) \/
  (exists l' w', elf_reserve_regions_in_vspace sort (Some target) elf_file (Z.of_nat (length l))
       (replicate (length l) no_region) false w = Ok (0, l', w') /\
     Forall2 same_place (place l) l' /\ only_reserved (view_of w) (view_of w') /\
     (forall k, k ∈ made l' -> reserved (view_of w) !! k = None) /\
     (forall k, k ∉ made l' -> reserved (view_of w') !! k = reserved (view_of w) !! k) /\
     reserved_for l' (view_of w')).
Proof.
  intros Hgf Hsort Hperm Hgood. pose proof (Permutation_length Hperm) as Hlen.
  unfold elf_reserve_regions_in_vspace. rewrite Hlen, read_regions_reads by apply Hgf.
  rewrite (bind_ok _ _ _ _ _ (lift_step _ w)). cbn [Z.eqb negb]. rewrite Nat2Z.id, firstn_all, drop_all, Hsort.
  rewrite (bind_ok _ _ _ _ _ (lift_step _ w)). rewrite app_nil_r, <- Hlen, (prepare_places l Hgood).
  rewrite (bind_ok _ _ _ _ _ (lift_step _ w)). cbn [Z.eqb negb]. unfold create_reservations. rewrite Nat2Z.id.
  pose proof (Forall2_length _ _ _ (place_same l)) as Hpl.
  destruct (create_creates target current target_vka vka (place l) [] w) as [H|H].
  - apply Forall_forall. intros r [i Hi]%list_elem_of_lookup. by apply (place_aligned l i).
  - left. rewrite <- Hpl in H. exact H.
  - right. rewrite <- Hpl in H. exact H.
Qed.

Lemma segments_good l l' : good_regions elf_file -> l ≡ₚ file_segments elf_file -> Forall2 same_segment l l' ->
  Forall (fun r => good_segment r /\ good_source elf_file r) l'.
Proof.
  intros Hgf Hp Hf. apply Forall_forall. intros r [i Hi]%list_elem_of_lookup.
  destruct (Forall2_lookup_r _ _ _ _ _ Hf Hi) as (a & Ha & Hs). apply list_elem_of_lookup_2 in Ha. rewrite Hp in Ha.
  destruct (proj1 (Forall_forall _ _) (gr_segments _ Hgf) a Ha). destruct (same_segment_parts _ _ Hs) as (H1 & H2 & _). split; auto.
Qed.

Lemma segments_order l l' : good_segments l -> Forall2 same_segment l l' ->
  forall j k a b, (j < k)%nat -> l' !! j = Some a -> l' !! k = Some b -> segment_end a <= elf_vstart b.
Proof.
  intros Hg Hf j k a b Hjk Ha Hb. destruct (Forall2_lookup_r _ _ _ _ _ Hf Ha) as (a' & Ha' & Hsa).
  destruct (Forall2_lookup_r _ _ _ _ _ Hf Hb) as (b' & Hb' & Hsb).
  destruct (same_segment_pages _ _ Hsa) as (_ & _ & ->). destruct Hsb as (_ & -> & _). by eapply good_sorted.
Qed.

Lemma reserved_nonneg l l' : good_segments l -> Forall2 same_place (place l) l' -> Forall (fun r => 0 <= reservation_size r) l'.
Proof.
  intros Hg Hf. apply Forall_forall. intros r [i Hi]%list_elem_of_lookup.
  destruct (Forall2_lookup_r _ _ _ _ _ Hf Hi) as (a & Ha & (_ & _ & ->)). by apply (place_aligned l i).
Qed.

Lemma entry_point_below : 0 < elf_getEntryPoint elf_file < 2 ^ 32 ->
  lift (S := W) (entry_point elf_file) = ret (elf_getEntryPoint elf_file).
Proof.
  intros H. unfold entry_point. rewrite shiftr_div, Z.div_small by lia. cbn [Z.eqb negb].
  by rewrite (proj2 (Z.eqb_neq (elf_getEntryPoint elf_file) 0)) by lia.
Qed.

Lemma load_regions w : good_regions elf_file -> room_for_regions (view_of w) ->
  exists a w', sel4utils_elf_load sort CONFIG_HUGE_PAGE (Some target) (Some current) (Some target_vka) (Some vka) elf_file w
      = Ok (a, w') /\
    ((a = 0 /\ refused (view_of w') = true /\ slots (view_of w') = slots (view_of w) /\ windows (view_of w') = windows (view_of w)) \/
     (a = elf_getEntryPoint elf_file /\ regions_loaded (view_of w) (view_of w'))).
Proof.
  intros Hgf Hroom. destruct (sort_segments sort elf_file Hgf) as (l & Hsort & Hperm & Hgood).
  pose proof (Permutation_length Hperm) as Hlen. pose proof (gr_headers _ Hgf) as Hh.
  unfold sel4utils_elf_load, sel4utils_elf_load_record_regions. cbn [default from_option]. unfold id.
  rewrite count_file_segments by done. rewrite Nat2Z.id. rewrite <- Hlen.
  destruct (reserve_regions l w) as [(e & l' & w1 & H1 & He & Hr)|(l' & w1 & H1 & Hf & Ho & Hk & Hk' & Hres)]; [done..| |].
  { exists 0, w1. erewrite bind_ok; [|erewrite bind_ok by exact H1; cbn beta iota; rewrite (proj2 (Z.eqb_neq e 0)) by done; reflexivity].
    split; [done|by left]. }
  pose proof (same_place_segments l l' Hf) as Hsame. pose proof (Forall2_length _ _ _ Hsame) as Hlen'.
  assert (Hlaid : laid_out l') by (eapply same_place_laid_out; [exact Hf|by apply place_laid_out]).
  destruct (load_segments_loads target current target_vka vka CONFIG_HUGE_PAGE elf_file l' l' 0 w1 Hlaid eq_refl (drop_0 _))
    as (e & w2 & H2 & Hc2); [by eapply segments_good|by eapply segments_order|exact Hres|].
  rewrite <- Hlen' in H2. change (Z.of_nat 0) with 0 in H2.
  assert (Hkeep : refused (view_of w1) = refused (view_of w) /\ slots (view_of w1) = slots (view_of w) /\
    windows (view_of w1) = windows (view_of w)) by (by rewrite Ho). destruct Hkeep as (_ & Hs1 & Hw1).
  destruct Hc2 as [(He & Hr2 & Hs2 & Hw2 & _)|(-> & Hld)].
  { exists 0, w2. erewrite bind_ok; [|erewrite bind_ok by exact H1; cbn beta iota; cbn [Z.eqb negb]; unfold load_segments;
      rewrite Nat2Z.id; erewrite bind_ok by exact H2; rewrite (proj2 (Z.eqb_neq e 0)) by done; reflexivity].
    split; [done|left]. by rewrite Hr2, Hs2, Hw2. }
  destruct (clear_clears target current target_vka vka l' [] w2) as (w3 & H3 & Ho3 & Hk3).
  { eapply reserved_nonneg; done. }
  rewrite <- Hlen' in H3. cbn [length app] in H3. change (Z.of_nat 0) with 0 in H3.
  exists (elf_getEntryPoint elf_file), w3. split.
  - erewrite bind_ok; [|erewrite bind_ok by exact H1; cbn beta iota; cbn [Z.eqb negb]; unfold load_segments;
      rewrite Nat2Z.id; erewrite bind_ok by exact H2; cbn [Z.eqb negb]; erewrite bind_ok by exact H3;
      rewrite (entry_point_below (gr_entry _ Hgf)); reflexivity]. done.
  - right. split; [done|]. eapply (loaded_regions l l'); [done|done|done|done|exact Ho|exact Hld|exact Ho3|].
    apply map_eq. intros k. rewrite Hk3. rewrite (ld_rest _ _ _ _ Hld). cbn. destruct (decide (k ∈ made l')) as [Hin|Hin]; [by rewrite Hk|by apply Hk'].
Qed.

(** ** What the file says

    Of the program headers themselves, at their full width. *)
Definition segment (i : Z) : Prop :=
  0 <= i < elf_getNumProgramHeaders elf_file /\ elf_getProgramHeaderType elf_file i = PT_LOAD.

Definition header_end (i : Z) : Z := elf_getProgramHeaderVaddr elf_file i + elf_getProgramHeaderMemorySize elf_file i.

(** The page [p] has a byte of segment [i]. *)
Definition page_of_header (i p : Z) : Prop :=
  p mod 4096 = 0 /\ elf_getProgramHeaderVaddr elf_file i < p + 4096 /\ p < header_end i.

(** The address [x] is one that the file has a byte for, and that byte. *)
Definition in_file (i x : Z) : Prop :=
  elf_getProgramHeaderVaddr elf_file i <= x < elf_getProgramHeaderVaddr elf_file i + elf_getProgramHeaderFileSize elf_file i.
Definition file_byte (i x : Z) : Z :=
  elf_bytes elf_file (elf_getProgramSegment elf_file i + (x - elf_getProgramHeaderVaddr elf_file i)).

Definition header_readable (i : Z) : Prop :=
  Z.land (elf_getProgramHeaderFlags elf_file i) PF_R <> 0 \/ Z.land (elf_getProgramHeaderFlags elf_file i) PF_X <> 0.
Definition header_writable (i : Z) : Prop := Z.land (elf_getProgramHeaderFlags elf_file i) PF_W <> 0.

(** What is asked of the file.  Each segment has bytes, of less than 4G, and does
    not come near the end of the addresses; it is in our memory, with no more bytes
    in the file than it has; no two overlap, and two share a page only where the
    lower one is read-only and the upper one is writable; the entry is below 4G. *)
Record good_file : Prop := {
  gf_headers : 0 <= elf_getNumProgramHeaders elf_file < 2 ^ 31;
  gf_sizes : forall i, segment i -> 0 <= elf_getProgramHeaderVaddr elf_file i /\
    0 < elf_getProgramHeaderMemorySize elf_file i < 2 ^ 32 - 4096 /\ header_end i + 8192 < word_size;
  gf_sources : forall i, segment i -> 0 < elf_getProgramSegment elf_file i /\
    elf_getProgramSegment elf_file i + elf_getProgramHeaderMemorySize elf_file i + 4096 < word_size /\
    0 <= elf_getProgramHeaderFileSize elf_file i <= elf_getProgramHeaderMemorySize elf_file i;
  gf_apart : forall i j, segment i -> segment j -> i <> j ->
    header_end i <= elf_getProgramHeaderVaddr elf_file j \/ header_end j <= elf_getProgramHeaderVaddr elf_file i;
  gf_share : forall i j p, segment i -> segment j -> header_end i <= elf_getProgramHeaderVaddr elf_file j ->
    page_of_header i p -> page_of_header j p ->
    header_readable i /\ header_readable j /\ ~ header_writable i /\ header_writable j;
  gf_entry : 0 < elf_getEntryPoint elf_file < 2 ^ 32
}.

(** None of the pages of the segments is there yet. *)
Definition room_for_segments v : Prop := forall i p, segment i -> page_of_header i p -> frames v !! p = None.

(** The target has the file's segments: nothing of ours has changed, and of the
    target only its memory - it has the pages of the segments, with the file's bytes
    where the file has bytes, zeros around them, and what it was elsewhere. *)
Record image_loaded v v' : Prop := {
  il_rest : v' = View (bytes v') (frames v') (reserved v) (slots v) (copies v) (windows v) (refused v);
  il_frames : forall p, is_Some (frames v' !! p) <->
    is_Some (frames v !! p) \/ exists i, segment i /\ page_of_header i p;
  il_file : forall i x, segment i -> in_file i x -> bytes v' x = file_byte i x;
  il_zero : forall i x, segment i -> page_of_header i (page_at x) ->
    (forall j, segment j -> ~ in_file j x) -> bytes v' x = 0;
  il_same : forall x, (forall i, segment i -> ~ page_of_header i (page_at x)) -> bytes v' x = bytes v x
}.

(** ** The regions are the segments *)

Lemma segments_from_all (i : Z) (k : nat) (j : Z) : i <= j < i + Z.of_nat k ->
  elf_getProgramHeaderType elf_file j = PT_LOAD -> read_region elf_file j no_region ∈ segments_from elf_file i k.
Proof.
  revert i. induction k as [|k IH]; intros i Hj Ht; [lia|]. cbn [segments_from].
  assert (Hl : is_loadable_section elf_file j = true) by (unfold is_loadable_section; by apply Z.eqb_eq).
  destruct (decide (j = i)) as [->|Hne]; [rewrite Hl; by left|].
  assert (Hr : read_region elf_file j no_region ∈ segments_from elf_file (i + 1) k) by (apply IH; [lia|done]).
  destruct (is_loadable_section elf_file i); [by right|done].
Qed.

Lemma segments_from_loadable (i : Z) (k : nat) r :
  r ∈ segments_from elf_file i k -> elf_getProgramHeaderType elf_file (segment_index r) = PT_LOAD.
Proof.
  revert i. induction k as [|k IH]; intros i; cbn [segments_from]; [by intros H%elem_of_nil|].
  destruct (is_loadable_section elf_file i) eqn:Hl; [|by apply IH].
  intros [->|H]%elem_of_cons; [by apply Z.eqb_eq|by eapply IH].
Qed.

Lemma elem_of_segments r :
  r ∈ file_segments elf_file <-> exists i, segment i /\ r = read_region elf_file i no_region.
Proof.
  unfold file_segments, segment. split.
  - intros H. destruct (segments_from_index _ _ _ _ H) as [Hi Hr]. exists (segment_index r).
    split; [split; [lia|by eapply segments_from_loadable]|done].
  - intros (i & [Hi Ht] & ->). apply segments_from_all; [lia|done].
Qed.

Lemma region_of_header (i : Z) : good_file -> segment i -> let r := read_region elf_file i no_region in
  region_size r = elf_getProgramHeaderMemorySize elf_file i /\ segment_end r = header_end i /\ good_segment r /\
  good_source elf_file r /\ forall p, page_of_segment r p <-> page_of_header i p.
Proof.
  intros Hf Hi r. destruct (gf_sizes Hf i Hi) as (Hv & Hm & He).
  assert (Hr : region_size r = elf_getProgramHeaderMemorySize elf_file i) by (cbn; apply Z.mod_small; lia).
  assert (Hend : segment_end r = header_end i) by (unfold segment_end; by rewrite Hr).
  assert (Hg : good_segment r) by (unfold good_segment; by rewrite Hr, Hend).
  split_and!; [done|done|done| |].
  - unfold good_source. rewrite Hr. exact (gf_sources Hf i Hi).
  - intros p. unfold page_of_header. rewrite <- Hend. split.
    + intros Hp. split; [apply Hp|]. exact (proj2 (written_pages r p Hg (proj1 Hp)) Hp).
    + intros (H0 & H12). exact (proj1 (written_pages r p Hg H0) H12).
Qed.

Lemma shared_page_exists a b : good_segment a -> good_segment b -> segment_end a <= elf_vstart b -> shares_page a b ->
  page_of_segment a (first_page b) /\ page_of_segment b (first_page b).
Proof.
  intros Ha Hb Ho Hs. unfold shares_page in Hs.
  pose proof (good_page a Ha) as (_ & _ & _ & ? & _ & ? & ? & [x Hx] & [y Hy]).
  pose proof (good_page b Hb) as (_ & _ & _ & ? & _ & ? & ? & [z Hz] & _). pose proof Ha as (_ & ? & _).
  unfold page_of_segment, segment_end in *. assert (first_page b mod 4096 = 0) by (unfold first_page; by apply Z.mod_mul).
  split; (split; [done|]); [|lia]. split; [|done]. assert (first_page a <= first_page b); [|done].
  unfold first_page. assert (elf_vstart a <= elf_vstart b) by lia. pose proof (Z.div_le_mono (elf_vstart a) (elf_vstart b) 4096). lia.
Qed.

Lemma header_rights (i : Z) : let r := read_region elf_file i no_region in
  (header_readable i -> seL4_CapRights_get_capAllowRead (rights r) = true) /\
  (header_writable i <-> seL4_CapRights_get_capAllowWrite (rights r) = true).
Proof.
  cbn [rights read_region]. unfold rights_from_elf, header_readable, header_writable. rewrite read_new, write_new.
  rewrite orb_true_iff, !negb_true_iff, !Z.eqb_neq. tauto.
Qed.

Lemma good_file_regions : good_file -> good_regions elf_file.
Proof.
  intros Hf. split; [apply Hf| | | |apply Hf].
  - apply Forall_forall. intros r (i & Hi & ->)%elem_of_segments. by destruct (region_of_header i Hf Hi) as (_ & _ & ? & ? & _).
  - intros a b (i & Hi & ->)%elem_of_segments (j & Hj & ->)%elem_of_segments Hne.
    destruct (region_of_header i Hf Hi) as (_ & -> & _), (region_of_header j Hf Hj) as (_ & -> & _).
    apply (gf_apart Hf i j Hi Hj). by intros ->.
  - intros a b (i & Hi & ->)%elem_of_segments (j & Hj & ->)%elem_of_segments Ho Hs.
    destruct (region_of_header i Hf Hi) as (_ & He & Hga & _ & Hpa), (region_of_header j Hf Hj) as (_ & _ & Hgb & _ & Hpb).
    destruct (shared_page_exists _ _ Hga Hgb Ho Hs) as [H1%Hpa H2%Hpb]. rewrite He in Ho.
    destruct (gf_share Hf i j _ Hi Hj Ho H1 H2) as (Hri & Hrj & Hwi & Hwj).
    split; [by apply header_rights|]. split; [by apply header_rights|]. split; [|by apply header_rights].
    destruct (seL4_CapRights_get_capAllowWrite _) eqn:Hw; [|done]. by apply (proj2 (header_rights i)) in Hw.
Qed.

Lemma room_regions v : good_file -> room_for_segments v -> room_for_regions v.
Proof.
  intros Hf Hroom r p (i & Hi & ->)%elem_of_segments Hp. apply (Hroom i p Hi). by apply (region_of_header i Hf Hi).
Qed.

Lemma regions_image v v' : good_file -> regions_loaded v v' -> image_loaded v v'.
Proof.
  intros Hf [R1 R2 R3 R4 R5].
  assert (Hpage : forall i p, segment i -> page_of_segment (read_region elf_file i no_region) p <-> page_of_header i p)
    by (intros i p Hi; by apply (region_of_header i Hf Hi)).
  assert (Hin : forall i, segment i -> read_region elf_file i no_region ∈ file_segments elf_file)
    by (intros i Hi; apply elem_of_segments; by exists i).
  split; [done| | | |].
  - intros p. rewrite R2. split; (intros [?|H]; [by left|right]).
    + destruct H as (r & (i & Hi & ->)%elem_of_segments & Hp). exists i. split; [done|by apply Hpage].
    + destruct H as (i & Hi & Hp). exists (read_region elf_file i no_region). split; [by apply Hin|by apply Hpage].
  - intros i x Hi Hx. exact (R3 _ x (Hin i Hi) Hx).
  - intros i x Hi Hp Hno. apply (R4 _ x (Hin i Hi)); [by apply Hpage|].
    intros r (j & Hj & ->)%elem_of_segments. by apply Hno.
  - intros x Hno. apply R5. intros r (i & Hi & ->)%elem_of_segments Hp. apply (Hno i Hi). by apply Hpage.
Qed.

(** C1: for an ELF file whose segments do not overlap, share a page only where the
    lower one is read-only and the upper one is writable, and have each some bytes,
    of less than 4G, with an entry point below 4G, and a target that has none of
    their pages yet, sel4utils_elf_load ends.  Either something it asked for was refused - then it
    returns no entry point, and has given its slots and its mappings back - or it
    returns the file's entry point, and the target's memory is what the program
    headers say: each byte of a segment that is in the file is in its place, the
    rest of the segments' pages is zero, other memory is as it was; and no slot,
    capability, mapping or reservation is left behind.  Outside these conditions the
    code does something else: [big_segment_cut], [high_entry_is_none] and the
    examples at the end of ElfPlace.v. *)
Theorem elf_load_image w : good_file -> room_for_segments (view_of w) ->
  exists a w', sel4utils_elf_load sort CONFIG_HUGE_PAGE (Some target) (Some current) (Some target_vka) (Some vka) elf_file w
      = Ok (a, w') /\
    ((a = 0 /\ refused (view_of w') = true /\ slots (view_of w') = slots (view_of w) /\ windows (view_of w') = windows (view_of w)) \/
     (a = elf_getEntryPoint elf_file /\ image_loaded (view_of w) (view_of w'))).
Proof.
  intros Hf Hroom. destruct (load_regions w (good_file_regions Hf) (room_regions _ Hf Hroom)) as (a & w' & H & Hc).
  exists a, w'. split; [exact H|]. destruct Hc as [Hc|[Ha Hc]]; [by left|right]. split; [exact Ha|by apply regions_image].
Qed.
End elf_load.

(** ** An ELF file

    Its code is at 0x400000, 0x1234 bytes of which the file has 0x1000; then a header
    that is not loaded; then data from the page the code ends in. *)

#[export] Instance small_elf : ElfReader := {|
  elf_t := unit;
  elf_bytes _ a := a mod 251;
  elf_getNumProgramHeaders _ := 3;
  elf_getProgramHeaderType _ i := if i =? 1 then 4 else 1;
  elf_getProgramHeaderFlags _ i := if i =? 0 then 6 else 5;
  elf_getProgramHeaderVaddr _ i := if i =? 0 then 0x401800 else 0x400000;
  elf_getProgramHeaderPaddr _ i := 0;
  elf_getProgramHeaderOffset _ i := 4096 * i;
  elf_getProgramHeaderAlign _ i := 4096;
  elf_getProgramHeaderMemorySize _ i := if i =? 0 then 0x2000 else 0x1234;
  elf_getProgramHeaderFileSize _ i := 0x1000;
  elf_getProgramSegment _ i := 0x10000 + 4096 * i;
  elf_getEntryPoint _ := 0x400100;
  elf_getSectionNamed _ _ := (0, 0);
  elf_getSectionSize _ _ := 0;
  load_word _ := 0;
  PT_LOAD := 1; PF_X := 1; PF_W := 2; PF_R := 4
|}.

(** A sort. *)
Fixpoint insert_sorted {A} (compare : A -> A -> res Z) (a : A) (l : list A) : res (list A) :=
  match l with
  | [] => Ok [a]
  | b :: l' =>
      let? z := compare a b in
      if z <=? 0 then Ok (a :: l) else let? l' := insert_sorted compare a l' in Ok (b :: l')
  end.
Fixpoint insertion_sort {A} (compare : A -> A -> res Z) (l : list A) : res (list A) :=
  match l with
  | [] => Ok []
  | a :: l => let? l := insertion_sort compare l in insert_sorted compare a l
  end.

Section insertion.
Context {A : Type} (compare : A -> A -> res Z) (key : A -> Z).
Definition compares (a b : A) : Prop := exists z, compare a b = Ok z /\
  ((key a < key b /\ z < 0) \/ (key b < key a /\ 0 < z) \/ (key a = key b /\ z = 0)).

Lemma insert_sorted_sorts (a : A) (l : list A) : (forall b, b ∈ l -> compares a b) ->
  StronglySorted (fun a b => key a <= key b) l ->
  exists l', insert_sorted compare a l = Ok l' /\ l' ≡ₚ a :: l /\ StronglySorted (fun a b => key a <= key b) l'.
Proof.
  induction l as [|b l IH]; intros Hc Hs; cbn [insert_sorted].
  { exists [a]. by repeat constructor. }
  apply StronglySorted_cons in Hs as [Hb Hs]. destruct (Hc b ltac:(by left)) as (z & -> & Hz). cbn [res_bind].
  destruct (Z.leb_spec z 0).
  - exists (a :: b :: l). split_and!; [done|done|]. apply StronglySorted_cons. split; [|by apply StronglySorted_cons].
    constructor; [lia|]. eapply Forall_impl; [exact Hb|]. intros x Hx. cbn in Hx. lia.
  - destruct IH as (l' & -> & Hp & Hs'); [intros x Hx; apply Hc; by right|done|]. cbn [res_bind].
    exists (b :: l'). split_and!; [done|rewrite Hp; constructor|]. apply StronglySorted_cons. split; [|done].
    rewrite Hp. constructor; [lia|done].
Qed.

Lemma insertion_sort_sorts (l : list A) :
  (forall i j a b, i <> j -> l !! i = Some a -> l !! j = Some b -> compares a b) ->
  exists l', insertion_sort compare l = Ok l' /\ l' ≡ₚ l /\ StronglySorted (fun a b => key a <= key b) l'.
Proof.
  induction l as [|a l IH]; intros Hc; cbn [insertion_sort]; [exists []; by repeat constructor|].
  destruct IH as (l' & -> & Hp & Hs). { intros i j x y Hij. by apply (Hc (S i) (S j)); congruence. }
  cbn [res_bind]. destruct (insert_sorted_sorts a l') as (l'' & -> & Hp' & Hs'); [|done|].
  - intros b Hb. rewrite Hp in Hb. apply list_elem_of_lookup in Hb as [j Hj]. by apply (Hc 0%nat (S j)).
  - exists l''. split_and!; [done|by rewrite Hp', Hp|done].
Qed.
End insertion.

#[export] Instance insertion_sorts : SglibSorts insertion_sort.
Proof. intros compare key l Hc. by apply insertion_sort_sorts. Qed.

(** A workshop where [n] requests will be granted. *)
Definition workshop_with (n : nat) : workshop :=
  Workshop (View (fun _ => 99) ∅ ∅ {[7]} ∅ ∅ false) ∅ n 8192.

Definition small_load (n : nat) : res (Z * workshop) :=
  sel4utils_elf_load (W := workshop) insertion_sort false (Some workshop_target) (Some workshop_own) (Some workshop_vka)
    (Some workshop_vka) tt (workshop_with n).

(** The entry point, whether anything was refused, and the bytes at some addresses. *)
Definition outcome (addresses : list Z) (r : res (Z * workshop)) : option (Z * bool * list Z) :=
  match r with
  | Ok (a, w) => Some (a, refused (ws_view w), bytes (ws_view w) <$> addresses)
  | Fault _ => None
  end.

Lemma small_segments (i : Z) : segment (ER := small_elf) tt i <-> i = 0 \/ i = 2.
Proof.
  unfold segment. cbn. split.
  - intros [Hi Ht]. destruct (Z.eqb_spec i 1); [discriminate Ht|lia].
  - by intros [->| ->].
Qed.

Lemma small_good : good_file (ER := small_elf) tt.
Proof.
  split; [by vm_compute| | | | |by vm_compute].
  - by intros i [->| ->]%small_segments.
  - by intros i [->| ->]%small_segments.
  - intros i j [->| ->]%small_segments [->| ->]%small_segments Hne; try done; [by right|by left].
  - intros i j p [->| ->]%small_segments [->| ->]%small_segments; unfold header_end; cbn; intros Ho _ _; try lia.
    unfold header_readable, header_writable. cbn. split_and!; [by left|by left|by intros []|done].
Qed.

Lemma elf_load_image_witness : exists w', small_load 100 = Ok (0x400100, w') /\
  bytes (workshop_view w') 0x400005 = (0x12000 + 5) mod 251 /\ bytes (workshop_view w') 0x401700 = 0 /\
  slots (workshop_view w') = {[7]} /\ reserved (workshop_view w') = ∅.
Proof.
  destruct (elf_load_image (ER := small_elf) workshop_target workshop_own workshop_vka workshop_vka insertion_sort false tt (workshop_with 100)
    small_good ltac:(by intros i p _ _)) as (a & w' & H & Hc).
  assert (Ho : outcome [0x400005; 0x401700] (small_load 100) = Some (0x400100, false, [(0x12000 + 5) mod 251; 0])).
  { vm_compute. reflexivity. }
  change (small_load 100 = Ok (a, w')) in H. rewrite H in Ho. cbn [outcome] in Ho. injection Ho as -> Hr Hb1 Hb2.
  exists w'. split; [exact H|]. split; [exact Hb1|]. split; [exact Hb2|].
  clear H Hr Hb1 Hb2. destruct Hc as [(Ha & _)|(_ & [Hrest _ _ _ _])]; [exfalso; clear -Ha; lia|].
  change (workshop_view w') with (view_of w'). rewrite Hrest. split; reflexivity.
Defined.

(** ** Where the code does not do what it says

    The header says that no capability slot of the loader leaks.  When the window
    cannot be mapped, the slot is given back to the allocator, but the copy of the
    frame's capability is still in it. *)
Example refused_window_leaves_a_copy :
  match small_load 5 with
  | Ok (a, w') => a = 0 /\ bool_decide (slots (ws_view w') = {[7]}) = true /\
      map_to_list (copies (ws_view w')) = [(fresh (A := Z) (C := gset Z) ({[0]} ∪ {[7]}), 0x400000)]
  | Fault _ => False
  end.
Proof. vm_compute. by split_and!. Qed.

(** With [mapanywhere] the reservations are where the address space had room, but
    the pages are mapped at the addresses of the file: loading fails with everything
    granted. *)
Example mapanywhere_fails :
  outcome [] (let? (a, _, w) := sel4utils_elf_load_record_regions (W := workshop) insertion_sort false (Some workshop_target)
      (Some workshop_own) (Some workshop_vka) (Some workshop_vka) tt None true (workshop_with 100) in Ok (a, w))
    = Some (0, false, []).
Proof. vm_compute. reflexivity. Qed.

(** ** Files that are not loaded as they say

    The size of a segment is kept in 32 bits.  Of a segment of 4G and a page, the
    first page is loaded, and the entry point is returned. *)
Definition one_segment (memsz entry : Z) : ElfReader := {|
  elf_t := unit;
  elf_bytes _ a := a mod 251;
  elf_getNumProgramHeaders _ := 1;
  elf_getProgramHeaderType _ _ := 1;
  elf_getProgramHeaderFlags _ _ := 5;
  elf_getProgramHeaderVaddr _ _ := 0x400000;
  elf_getProgramHeaderPaddr _ _ := 0;
  elf_getProgramHeaderOffset _ _ := 4096;
  elf_getProgramHeaderAlign _ _ := 4096;
  elf_getProgramHeaderMemorySize _ _ := memsz;
  elf_getProgramHeaderFileSize _ _ := 0x1000;
  elf_getProgramSegment _ _ := 0x10000;
  elf_getEntryPoint _ := entry;
  elf_getSectionNamed _ _ := (0, 0);
  elf_getSectionSize _ _ := 0;
  load_word _ := 0;
  PT_LOAD := 1; PF_X := 1; PF_W := 2; PF_R := 4
|}.

Definition load_one (memsz entry : Z) : option (Z * bool * list Z) :=
  match sel4utils_elf_load (ER := one_segment memsz entry) (W := workshop) insertion_sort false (Some workshop_target)
      (Some workshop_own) (Some workshop_vka) (Some workshop_vka) tt (workshop_with 100) with
  | Ok (a, w) => Some (a, refused (ws_view w), (map_to_list (frames (workshop_view w))).*1)
  | Fault _ => None
  end.

Example big_segment_cut : let ER := one_segment (2 ^ 32 + 0x1000) 0x400100 in
  load_one (2 ^ 32 + 0x1000) 0x400100 = Some (0x400100, false, [0x400000]) /\
  page_of_header (ER := ER) tt 0 0x401000.
Proof. split; vm_compute; [reflexivity|done]. Qed.

(** An entry point above 4G is not returned, though nothing is refused and the
    segments are loaded. *)
Example high_entry_is_none : load_one 0x1000 0x100400000 = Some (0, false, [0x400000]).
Proof. vm_compute. reflexivity. Qed.
