(* ===== verification/Process.v ===== *)
(** libsel4utils/src/process.c with include/sel4utils/process.h and
    process_config.h: programs with an address space, a capability space and a
    thread of their own.  Here: the structure, the capabilities of a process, and
    starting one with arguments on its stack.

    The list of the objects an address space has allocated is in the memory [W],
    behind a lens; the rest of the structure is passed and given back.  A pointer to
    an array is its address and what is there.  [argc] is the length of [argv], whose
    strings are bytes without the 0 that ends them.  Messages are left out. *)
From S2P Require Import Prelude Cspacepath Interfaces Objects Vka VspaceTables Vspace VspaceApi Simple Mapping Threads Elf.
From S2P Require Import TargetMemory.

(** The constants of the build, of seL4 and of its runtime. *)
Class ProcessConstants : Type := {
  CONFIG_X86_64 : bool;
  CONFIG_SEL4UTILS_CSPACE_SIZE_BITS : Z;
  PT_NULL : Z;
  PT_PHDR : Z;
  AT_PHDR : Z;
  AT_PHENT : Z;
  AT_PHNUM : Z;
  AT_PAGESZ : Z;
  AT_SYSINFO : Z;
  AT_SEL4_IPC_BUFFER_PTR : Z;
  AT_SEL4_TCB : Z;
  process_EINVAL : Z
}.

Class ProcessKernel (W : Type) : Type := {
  (* destination: root, index, depth; source: root, index, depth; rights, badge *)
  process_CNode_Mint : Z -> Z -> Z -> Z -> Z -> Z -> Z -> Z -> M W Z;
  process_CNode_Revoke : Z -> Z -> Z -> M W Z;
  seL4_ARCH_ASIDPool_Assign : Z -> Z -> M W Z
}.

(** The list a process keeps of its address space's objects: the node's address and
    the object; and the flag of the function that adds to it. *)
Class ObjectList (W : Type) : Type := {
  allocated_object_list : W -> list (Z * vka_object_t);
  set_allocated_object_list : list (Z * vka_object_t) -> W -> W;
  recurse : W -> bool;
  set_recurse : bool -> W -> W
}.

Definition SEL4UTILS_CNODE_SLOT : Z := 1.
Definition SEL4UTILS_ENDPOINT_SLOT : Z := 2.
Definition SEL4UTILS_PD_SLOT : Z := 3.
Definition SEL4UTILS_ASID_POOL_SLOT : Z := 4.
Definition SEL4UTILS_TCB_SLOT : Z := 5.
Definition SEL4UTILS_SCHED_CONTEXT_SLOT : Z := 6.
Definition SEL4UTILS_REPLY_SLOT : Z := 7.

Definition sizeof_Elf_Phdr : Z := 56.
Definition sizeof_object_node_t : Z := 40.

Record sel4utils_process_t (W : Type) : Type := Process {
  proc_pd : vka_object_t;
  proc_vspace : vspace_t W;
  proc_cspace : vka_object_t;
  cspace_size : Z;
  cspace_next_free : Z;
  proc_thread : sel4utils_thread_t;
  proc_fault_endpoint : vka_object_t;
  proc_entry_point : Z;
  proc_sysinfo : Z;
  dest_tcb_cptr : Z;
  pagesz : Z;
  num_elf_phdrs : Z;
  elf_phdrs : Z * list Elf_Phdr;
  num_elf_regions : Z;
  elf_regions : Z * list sel4utils_elf_region_t;
  own_vspace : bool;
  own_cspace : bool;
  own_ep : bool
}.
Arguments Process {W} _ _ _ _ _ _ _ _ _ _ _ _ _ _ _ _ _ _ .
Arguments proc_pd {W} _.
Arguments proc_vspace {W} _.
Arguments proc_cspace {W} _.
Arguments cspace_size {W} _.
Arguments cspace_next_free {W} _.
Arguments proc_thread {W} _.
Arguments proc_fault_endpoint {W} _.
Arguments proc_entry_point {W} _.
Arguments proc_sysinfo {W} _.
Arguments dest_tcb_cptr {W} _.
Arguments pagesz {W} _.
Arguments num_elf_phdrs {W} _.
Arguments elf_phdrs {W} _.
Arguments num_elf_regions {W} _.
Arguments elf_regions {W} _.
Arguments own_vspace {W} _.
Arguments own_cspace {W} _.
Arguments own_ep {W} _.
Definition no_vspace {W} : vspace_t W :=
  VspaceOps 0 None None None None None None None None None None None None None None None None None.
Definition zero_process {W} : sel4utils_process_t W :=
  Process no_object no_vspace no_object 0 0 zero_thread no_object 0 0 0 0 0 (0, []) 0 (0, []) false false false.

Section setters.
Context {W : Type}.

Definition with_pd (own : bool) (pd : vka_object_t) (p : sel4utils_process_t W) : sel4utils_process_t W :=
  Process pd (proc_vspace p) (proc_cspace p) (cspace_size p) (cspace_next_free p) (proc_thread p)
    (proc_fault_endpoint p) (proc_entry_point p) (proc_sysinfo p) (dest_tcb_cptr p) (pagesz p)
    (num_elf_phdrs p) (elf_phdrs p) (num_elf_regions p) (elf_regions p) own (own_cspace p) (own_ep p).
Definition with_vspace (v : vspace_t W) (p : sel4utils_process_t W) : sel4utils_process_t W :=
  Process (proc_pd p) v (proc_cspace p) (cspace_size p) (cspace_next_free p) (proc_thread p)
    (proc_fault_endpoint p) (proc_entry_point p) (proc_sysinfo p) (dest_tcb_cptr p) (pagesz p)
    (num_elf_phdrs p) (elf_phdrs p) (num_elf_regions p) (elf_regions p) (own_vspace p) (own_cspace p)
    (own_ep p).
Definition with_cspace (own : bool) (c : vka_object_t) (p : sel4utils_process_t W) : sel4utils_process_t W :=
  Process (proc_pd p) (proc_vspace p) c (cspace_size p) (cspace_next_free p) (proc_thread p)
    (proc_fault_endpoint p) (proc_entry_point p) (proc_sysinfo p) (dest_tcb_cptr p) (pagesz p)
    (num_elf_phdrs p) (elf_phdrs p) (num_elf_regions p) (elf_regions p) (own_vspace p) own (own_ep p).
Definition with_slots (bits next : Z) (p : sel4utils_process_t W) : sel4utils_process_t W :=
  Process (proc_pd p) (proc_vspace p) (proc_cspace p) bits next (proc_thread p) (proc_fault_endpoint p)
    (proc_entry_point p) (proc_sysinfo p) (dest_tcb_cptr p) (pagesz p) (num_elf_phdrs p) (elf_phdrs p)
    (num_elf_regions p) (elf_regions p) (own_vspace p) (own_cspace p) (own_ep p).
Definition with_thread (t : sel4utils_thread_t) (p : sel4utils_process_t W) : sel4utils_process_t W :=
  Process (proc_pd p) (proc_vspace p) (proc_cspace p) (cspace_size p) (cspace_next_free p) t
    (proc_fault_endpoint p) (proc_entry_point p) (proc_sysinfo p) (dest_tcb_cptr p) (pagesz p)
    (num_elf_phdrs p) (elf_phdrs p) (num_elf_regions p) (elf_regions p) (own_vspace p) (own_cspace p)
    (own_ep p).
Definition with_endpoint (own : bool) (o : vka_object_t) (p : sel4utils_process_t W) : sel4utils_process_t W :=
  Process (proc_pd p) (proc_vspace p) (proc_cspace p) (cspace_size p) (cspace_next_free p) (proc_thread p) o
    (proc_entry_point p) (proc_sysinfo p) (dest_tcb_cptr p) (pagesz p) (num_elf_phdrs p) (elf_phdrs p)
    (num_elf_regions p) (elf_regions p) (own_vspace p) (own_cspace p) own.
Definition with_entry (entry sysinfo : Z) (p : sel4utils_process_t W) : sel4utils_process_t W :=
  Process (proc_pd p) (proc_vspace p) (proc_cspace p) (cspace_size p) (cspace_next_free p) (proc_thread p)
    (proc_fault_endpoint p) entry sysinfo (dest_tcb_cptr p) (pagesz p) (num_elf_phdrs p) (elf_phdrs p)
    (num_elf_regions p) (elf_regions p) (own_vspace p) (own_cspace p) (own_ep p).
Definition with_phdrs (n : Z) (a : Z * list Elf_Phdr) (p : sel4utils_process_t W) : sel4utils_process_t W :=
  Process (proc_pd p) (proc_vspace p) (proc_cspace p) (cspace_size p) (cspace_next_free p) (proc_thread p)
    (proc_fault_endpoint p) (proc_entry_point p) (proc_sysinfo p) (dest_tcb_cptr p) (pagesz p) n a
    (num_elf_regions p) (elf_regions p) (own_vspace p) (own_cspace p) (own_ep p).
Definition with_regions (n : Z) (a : Z * list sel4utils_elf_region_t) (p : sel4utils_process_t W) : sel4utils_process_t W :=
  Process (proc_pd p) (proc_vspace p) (proc_cspace p) (cspace_size p) (cspace_next_free p) (proc_thread p)
    (proc_fault_endpoint p) (proc_entry_point p) (proc_sysinfo p) (dest_tcb_cptr p) (pagesz p)
    (num_elf_phdrs p) (elf_phdrs p) n a (own_vspace p) (own_cspace p) (own_ep p).
Definition with_dest_tcb (slot : Z) (p : sel4utils_process_t W) : sel4utils_process_t W :=
  Process (proc_pd p) (proc_vspace p) (proc_cspace p) (cspace_size p) (cspace_next_free p) (proc_thread p)
    (proc_fault_endpoint p) (proc_entry_point p) (proc_sysinfo p) slot (pagesz p) (num_elf_phdrs p)
    (elf_phdrs p) (num_elf_regions p) (elf_regions p) (own_vspace p) (own_cspace p) (own_ep p).
Definition with_pagesz (n : Z) (p : sel4utils_process_t W) : sel4utils_process_t W :=
  Process (proc_pd p) (proc_vspace p) (proc_cspace p) (cspace_size p) (cspace_next_free p) (proc_thread p)
    (proc_fault_endpoint p) (proc_entry_point p) (proc_sysinfo p) (dest_tcb_cptr p) n (num_elf_phdrs p)
    (elf_phdrs p) (num_elf_regions p) (elf_regions p) (own_vspace p) (own_cspace p) (own_ep p).
End setters.

(** ** Bytes of words, headers and entries of the auxiliary vector *)

(** The low [n] bytes, lowest first. *)
Definition le_bytes (n : nat) (x : Z) : list Z := (fun i => Z.shiftr x (8 * Z.of_nat i) mod 256) <$> seq 0 n.
Definition word_bytes (x : Z) : list Z := le_bytes 8 x.
Definition words_bytes (l : list Z) : list Z := l ≫= word_bytes.
Definition phdr_bytes (h : Elf_Phdr) : list Z :=
  le_bytes 4 (p_type h) ++ le_bytes 4 (p_flags h) ++ words_bytes [p_offset h; p_vaddr h; p_paddr h; p_filesz h; p_memsz h; p_align h].
Definition auxv_bytes (l : list (Z * Z)) : list Z := l ≫= fun '(a_type, a_val) => words_bytes [a_type; a_val].

(** ** Words as arguments *)

Definition WORD_STRING_SIZE : nat := 22.

(** The decimal digits of a word. *)
Fixpoint digits (fuel : nat) (x : Z) (acc : list Z) : list Z :=
  match fuel with
  | O => acc
  | S fuel => let acc := (48 + x mod 10) :: acc in if x <? 10 then acc else digits fuel (x / 10) acc
  end.
Definition decimal (x : Z) : list Z := digits 20 x [].

(** snprintf cuts at the size of the buffer, less one for the 0 at the end. *)
Definition sel4utils_create_word_args (args : list Z) : list (list Z) := (fun x => take (WORD_STRING_SIZE - 1) (decimal x)) <$> args.

Section process.
Context {W : Type} `{SC : !SeL4Constants} `{BC : !BootConstants} `{MC : !MappingConstants} `{TC : !ThreadConstants}
  `{PC : !ProcessConstants} `{UC : !UserContexts} `{KO : !KernelOps W} `{TK : !ThreadKernel W} `{PK : !ProcessKernel W}
  `{CO : !CopyOps W} `{UM : !UtilsMacros} `{CR : !CapRights} `{MA : !Malloc W} `{OL : !ObjectList W}.
Implicit Types (process : sel4utils_process_t W) (vka : option (vka_t W)) (vspace : option (vspace_t W)).

(** ** The objects of the address space *)

Definition sel4utils_allocated_object (object : vka_object_t) : M W unit :=
  let! again := gets recurse in
  if again then stop Fatal else
  let! _ := modify (set_recurse true) in
  let! node := malloc sizeof_object_node_t in
  let! _ := cassert (negb (node =? 0)) in
  let! _ := modify (fun w => set_allocated_object_list ((node, object) :: allocated_object_list w) w) in
  modify (set_recurse false).

(** One round for each node of the list. *)
Fixpoint clear_loop (k : nat) (vka : option (vka_t W)) : M W unit :=
  match k with
  | O => stop OutOfFuel
  | S k =>
      let! l := gets allocated_object_list in
      match l with
      | [] => ret tt
      | (node, object) :: l =>
          let! _ := modify (set_allocated_object_list l) in
          let! _ := vka_free_object vka object in
          let! _ := free node in
          clear_loop k vka
      end
  end.
Definition clear_objects vka : M W unit :=
  let! _ := cassert (match vka with Some _ => true | None => false end) in
  let! l := gets allocated_object_list in
  clear_loop (S (length l)) vka.

(** ** The capabilities of a process *)

(** The path of the next slot, none if the capability space is full. *)
Definition next_free_slot process : option cspacepath_t :=
  if cspace_next_free process >=? BIT (cspace_size process) then None
  else Some (Cspacepath (cspace_next_free process) (cspace_size process) (cptr (proc_cspace process)) 0 0 0 0).

Definition allocate_next_slot process : res (sel4utils_process_t W) :=
  let? _ := rassert (cspace_next_free process <? BIT (cspace_size process)) in
  Ok (with_slots (cspace_size process) ((cspace_next_free process + 1) mod 2 ^ 32) process).

(** The end of the functions that give a process a capability: the slot, 0 on error. *)
Definition to_process process (dest : cspacepath_t) (error : Z) (after : M W unit) : M W (Z * sel4utils_process_t W) :=
  if negb (error =? seL4_NoError) then ret (0, process) else
  let! _ := after in
  let! process := lift (allocate_next_slot process) in
  ret (capPtr dest, process).

Definition sel4utils_mint_cap_to_process process (src : cspacepath_t) (rights data : Z) : M W (Z * sel4utils_process_t W) :=
  match next_free_slot process with
  | None => ret (0, process)
  | Some dest =>
      let! error := process_CNode_Mint (root dest) (capPtr dest) (capDepth dest) (root src) (capPtr src) (capDepth src) rights data in
      to_process process dest error (ret tt)
  end.

Definition sel4utils_copy_path_to_process process (src : cspacepath_t) : M W (Z * sel4utils_process_t W) :=
  match next_free_slot process with
  | None => ret (0, process)
  | Some dest =>
      let! error := vka_cnode_copy seL4_CNode_Copy dest src Mapping.seL4_AllRights in
      to_process process dest error (ret tt)
  end.

Definition sel4utils_copy_cap_to_process process vka (cap : Z) : M W (Z * sel4utils_process_t W) :=
  let! path := vka_cspace_make_path vka cap in
  sel4utils_copy_path_to_process process path.

Definition sel4utils_move_cap_to_process process (src : cspacepath_t) (from_vka : option (vka_t W))
    : M W (Z * sel4utils_process_t W) :=
  match next_free_slot process with
  | None => ret (0, process)
  | Some dest =>
      let! error := vka_cnode_move dest src in
      to_process process dest error (match from_vka with
        | Some _ => vka_cspace_free from_vka (capPtr src)
        | None => ret tt
        end)
  end.

Definition sel4utils_process_init_cap (cap : Z) : Z :=
  if cap =? seL4_CapInitThreadTCB then SEL4UTILS_TCB_SLOT
  else if cap =? seL4_CapInitThreadCNode then SEL4UTILS_CNODE_SLOT
  else if cap =? seL4_CapInitThreadPD then SEL4UTILS_PD_SLOT
  else if cap =? seL4_CapInitThreadASIDPool then SEL4UTILS_ASID_POOL_SLOT
  else if CONFIG_KERNEL_MCS && (cap =? seL4_CapInitThreadSC) then SEL4UTILS_SCHED_CONTEXT_SLOT
  else Simple.seL4_CapNull.

(** Capabilities of the objects of a timer: the slots of the copies. *)
Fixpoint copy_caps process vka (caps : list Z) : M W (list Z * sel4utils_process_t W) :=
  match caps with
  | [] => ret ([], process)
  | cap :: caps =>
      let! (slot, process) := sel4utils_copy_cap_to_process process vka cap in
      let! (slots, process) := copy_caps process vka caps in
      ret (slot :: slots, process)
  end.

(** The interrupt handlers and the memory of a timer, as its [timer_objects_t]
    has them; what else is in it is copied. *)
Definition sel4utils_copy_timer_caps_to_process (from : option (list Z * list Z)) vka (process : option (sel4utils_process_t W))
    : M W (Z * option (list Z * list Z) * option (sel4utils_process_t W)) :=
  match from, vka, process with
  | Some (irqs, objs), Some _, Some process =>
      let! (irqs, process) := copy_caps process vka irqs in
      let! (objs, process) := copy_caps process vka objs in
      ret (0, Some (irqs, objs), Some process)
  | _, _, _ => ret (process_EINVAL, None, process)
  end.

(** ** Writing on the stack of a process *)

Section writing.
Context (CONFIG_HUGE_PAGE : bool).

Definition dup_and_map vka vspace (frame : Z) : M W Z :=
  sel4utils_dup_and_map vka seL4_CNode_Copy
    (fun caps cookies rights n bits c => vspace_map_pages CONFIG_HUGE_PAGE vspace caps cookies rights n bits (b2z c)) frame seL4_PageBits.
Definition unmap_dup vka vspace (mapping : Z) : M W unit :=
  sel4utils_unmap_dup vka (vspace_get_cap vspace) (vspace_unmap_pages vspace) mapping seL4_PageBits.

(** A round for each page, and one to see that it is done. *)
Fixpoint write_loop (fuel : nat) current target vka (buf : list Z) (remaining current_dest : Z) : M W Z :=
  match fuel with
  | O => stop OutOfFuel
  | S fuel =>
      if remaining >? 0 then
        let towrite := MIN (PAGE_SIZE_4K ⊟ current_dest mod PAGE_SIZE_4K) remaining in
        let! _ := cassert (negb (towrite =? 0)) in
        let! frame := vspace_get_cap target (PAGE_ALIGN_4K current_dest) in
        if frame =? 0 then ret (-1) else
        let! mapping := dup_and_map vka current frame in
        if mapping =? 0 then ret (-1) else
        let! _ := memcpy (mapping ⊞ current_dest mod PAGE_SIZE_4K) (take (Z.to_nat towrite) buf) in
        let! _ := unmap_dup vka current mapping in
        write_loop fuel current target vka (drop (Z.to_nat towrite) buf) (remaining ⊟ towrite) (current_dest ⊞ towrite)
      else ret 0
  end.

(** The error, and the stack pointer as it is left. *)
Definition sel4utils_stack_write current target vka (buf : list Z) (initial_stack_pointer : Z) : M W (Z * Z) :=
  let len := Z.of_nat (length buf) in
  let new_stack_pointer := initial_stack_pointer ⊟ len in
  let! error := write_loop (Z.to_nat (len / PAGE_SIZE_4K) + 3) current target vka buf len new_stack_pointer in
  ret (if negb (error =? 0) then (error, initial_stack_pointer) else (0, new_stack_pointer)).

Definition sel4utils_stack_write_constant current target vka (value initial_stack_pointer : Z) : M W (Z * Z) :=
  sel4utils_stack_write current target vka (word_bytes value) initial_stack_pointer.

(** The error, the addresses of the strings, and the stack pointer. *)
Fixpoint sel4utils_stack_copy_args current target vka (argv : list (list Z)) (initial_stack_pointer : Z) : M W (Z * list Z * Z) :=
  match argv with
  | [] => ret (0, [], initial_stack_pointer)
  | arg :: argv =>
      let! (error, sp) := sel4utils_stack_write current target vka (arg ++ [0]) initial_stack_pointer in
      if negb (error =? 0) then ret (error, [], sp) else
      let! (error, rest, sp') := sel4utils_stack_copy_args current target vka argv (ROUND_DOWN sp 4) in
      ret (error, sp :: rest, sp')
  end.

(** ** Starting a process *)

(** Onto the stack one after the other: an error ends it, with -1. *)
Fixpoint push_all current target vka (items : list (list Z)) (sp : Z) : M W (Z * Z) :=
  match items with
  | [] => ret (0, sp)
  | item :: items =>
      let! (error, sp) := sel4utils_stack_write current target vka item sp in
      if negb (error =? 0) then ret (-1, sp) else push_all current target vka items sp
  end.

Definition with_stack_pointer (sp : Z) process : sel4utils_process_t W :=
  let t := proc_thread process in with_thread (with_stack (stack_top t) sp (stack_size t) t) process.

Definition sel4utils_spawn_process process vka vspace (argv : list (list Z)) (resume : bool)
    : M W (Z * sel4utils_process_t W) :=
  let argc := Z.of_nat (length argv) in
  let initial_stack_pointer := stack_top (proc_thread process) ⊟ 8 in
  let target := Some (proc_vspace process) in
  let! (error, initial_stack_pointer, new_process_argv) := (if argc >? 0 then
      let! (error, dest_argv, sp) := sel4utils_stack_copy_args vspace target vka argv initial_stack_pointer in
      if negb (error =? 0) then ret (-1, sp, 0) else
      let! (error, sp) := sel4utils_stack_write vspace target vka (words_bytes dest_argv) sp in
      if negb (error =? 0) then ret (-1, sp, 0) else ret (0, sp, sp)
    else ret (0, initial_stack_pointer, 0)) in
  if negb (error =? 0) then ret (-1, process) else
  let initial_stack_pointer := ALIGN_DOWN (initial_stack_pointer ⊟ 8) STACK_CALL_ALIGNMENT in
  let (error, context) := sel4utils_arch_init_context_with_args (proc_entry_point process) argc new_process_argv
    (ipc_buffer_addr (proc_thread process)) initial_stack_pointer zero_context in
  if negb (error =? 0) then ret (error, process) else
  let process := with_stack_pointer initial_stack_pointer process in
  let! error := seL4_TCB_WriteRegisters (cptr (tcb (proc_thread process))) resume 0 context in
  ret (error, process).

Definition process_auxv process (at_phdr : Z) : list (Z * Z) :=
  [(AT_PAGESZ, pagesz process); (AT_PHDR, at_phdr); (AT_PHNUM, num_elf_phdrs process); (AT_PHENT, sizeof_Elf_Phdr);
   (AT_SEL4_IPC_BUFFER_PTR, ipc_buffer_addr (proc_thread process)); (AT_SEL4_TCB, dest_tcb_cptr process)] ++
  (if negb (proc_sysinfo process =? 0) then [(AT_SYSINFO, proc_sysinfo process)] else []).

Definition sel4utils_spawn_process_v process vka vspace (argv : list (list Z)) (resume : bool)
    : M W (Z * sel4utils_process_t W) :=
  let argc := Z.of_nat (length argv) in
  let initial_stack_pointer := stack_top (proc_thread process) ⊟ 8 in
  let target := Some (proc_vspace process) in
  let phdrs := take (Z.to_nat (num_elf_phdrs process)) (elf_phdrs process).2 in
  let! (error, at_phdr) := sel4utils_stack_write vspace target vka (phdrs ≫= phdr_bytes) initial_stack_pointer in
  if negb (error =? 0) then ret (-1, process) else
  let auxv := process_auxv process at_phdr in
  let! (error, dest_argv, sp) := sel4utils_stack_copy_args vspace target vka argv at_phdr in
  if negb (error =? 0) then ret (-1, process) else
  let to_push := 5 * 8 + 16 * Z.of_nat (length auxv) + 8 * argc in
  let hypothetical_stack_pointer := sp ⊟ to_push in
  let rounded_stack_pointer := ALIGN_DOWN hypothetical_stack_pointer STACK_CALL_ALIGNMENT in
  let stack_rounding := hypothetical_stack_pointer ⊟ rounded_stack_pointer in
  let sp := sp ⊟ stack_rounding in
  let! (error, sp) := push_all vspace target vka
    [word_bytes 0; word_bytes 0; auxv_bytes auxv; word_bytes 0; word_bytes 0; words_bytes dest_argv; word_bytes argc] sp in
  if negb (error =? 0) then ret (-1, process) else
  let! _ := cassert (sp mod (2 * 8) =? 0) in
  let (error, context) := sel4utils_arch_init_context (proc_entry_point process) sp zero_context in
  if negb (error =? 0) then ret (error, process) else
  let process := with_stack_pointer sp process in
  let! error := seL4_TCB_WriteRegisters (cptr (tcb (proc_thread process))) resume 0 context in
  ret (error, process).

End writing.
End process.
