(* ===== verification/ProcessSpec.v ===== *)
(** That the functions of libsel4utils/src/process.c put on the stack of a new
    process what its runtime looks for, over any address spaces and allocator that
    keep the promise of TargetMemory.v. *)
From S2P Require Import Prelude Cspacepath Interfaces Objects Vka VspaceTables VspaceView VspaceSpec Vspace VspaceReserve.
From S2P Require Import VspaceApi Simple Mapping Threads Elf TargetMemory ElfPlace ElfLoad Process.

(** The bytes [l] were written at [a], and nothing else happened. *)
Definition wrote (a : Z) (l : list Z) (v v' : view) : Prop :=
  v' = View (bytes v') (frames v) (reserved v) (slots v) (copies v) (windows v) (refused v) /\
  forall x, bytes v' x = poke a l (bytes v) x.

Lemma wrote_nothing (a : Z) (v : view) : wrote a [] v v.
Proof. split; [by destruct v|]. intros x. by rewrite poke_out by (cbn; lia). Qed.

Lemma poke_app (a : Z) (l k : list Z) (f : Z -> Z) (x : Z) :
  poke (a + Z.of_nat (length l)) k (poke a l f) x = poke a (l ++ k) f x.
Proof.
  destruct (decide (a <= x < a + Z.of_nat (length l))).
  { rewrite poke_out, !poke_in by (rewrite ?length_app; lia). by rewrite lookup_total_app_l by lia. }
  destruct (decide (a <= x < a + Z.of_nat (length (l ++ k)))) as [H|H]; rewrite length_app in H.
  - rewrite !poke_in by (rewrite ?length_app; lia). rewrite lookup_total_app_r by lia. f_equal. lia.
  - rewrite !poke_out by (rewrite ?length_app; lia). done.
Qed.

Lemma wrote_app (a : Z) (l k : list Z) (v1 v2 v3 : view) :
  wrote a l v1 v2 -> wrote (a + Z.of_nat (length l)) k v2 v3 -> wrote a (l ++ k) v1 v3.
Proof.
  intros [R1 B1] [R2 B2]. split; [by rewrite R2, R1|]. intros x. rewrite B2, <- poke_app.
  unfold poke. by rewrite B1.
Qed.

(** Every byte from [a] to [b] is in a page of the target. *)
Definition mapped (a b : Z) (v : view) : Prop := forall x, a <= x < b -> is_Some (frames v !! page_at x).

Lemma mapped_wrote (a b c : Z) (l : list Z) (v v' : view) : wrote c l v v' -> mapped a b v -> mapped a b v'.
Proof. intros [R _] H x Hx. rewrite R. by apply H. Qed.

(** A request was refused, and all that is ours is as it was. *)
Definition refusal (v v' : view) : Prop :=
  refused v' = true /\ frames v' = frames v /\ reserved v' = reserved v /\ slots v' = slots v /\ copies v' = copies v /\ windows v' = windows v.

Lemma refusal_wrote (a : Z) (l : list Z) (v1 v2 v3 : view) : wrote a l v1 v2 -> refusal v2 v3 -> refusal v1 v3.
Proof. intros [R _] (H1 & H2 & H3 & H4 & H5 & H6). rewrite R in H2, H3, H4, H5, H6. done. Qed.

Section windows.
Context `{UM : !UtilsMacros} `{UL : !UtilsLaws} `{CR : !CapRights} `{CL : !CapRightsLaws}.
Context {W : Type} {seL4 : SeL4Constants} `{KO : !KernelOps W} `{MC : !MappingConstants} `{CO : !CopyOps W}.
Context (target current : vspace_t W) (vka : vka_t W) `{TM : !TargetMemory W target current vka vka}.
Context (CONFIG_HUGE_PAGE : bool).
Implicit Types (w : W) (v : view).

(** The target's page [p], in a window of ours at [a]. *)
Definition opened (a p s : Z) v : view :=
  set_windows (<[a := (p, s)]>) (set_copies (<[s := p]>) (set_slots (union {[s]}) v)).

Lemma opened_refused s v : s ∉ slots v -> set_slots (fun S => S ∖ {[s]}) (refuse (set_slots (union {[s]}) v)) = refuse v.
Proof. intros H. destruct v. unfold set_slots, refuse. cbn in *. f_equal. set_solver. Qed.

Lemma dup_and_map_opens p c w : frames (view_of w) !! p = Some c ->
  exists a w', dup_and_map CONFIG_HUGE_PAGE (Some vka) (Some current) c w = Ok (a, w') /\
    ((a = 0 /\ view_of w' = refuse (view_of w)) \/
     (0 < a /\ a mod 4096 = 0 /\ a + 4096 < word_size /\ windows (view_of w) !! a = None /\
      exists s, s <> 0 /\ s ∉ slots (view_of w) /\ copies (view_of w) !! s = None /\ view_of w' = opened a p s (view_of w))).
Proof.
  intros Hc. unfold dup_and_map, sel4utils_dup_and_map, vka_cspace_alloc_path. change seL4_NoError with 0.
  destruct (alloc_step target current vka vka w) as (e & s & w1 & H1 & Hc1).
  destruct Hc1 as [(He & Hv1)|(-> & slot & -> & Hs0 & Hs & Hv1)].
  { erewrite bind_ok; [|erewrite bind_ok by exact H1; cbn beta iota; rewrite (proj2 (Z.eqb_neq e 0)) by done; reflexivity].
    cbn beta iota. rewrite (proj2 (Z.eqb_neq e 0)) by done. cbn [negb]. exists 0, w1. split; [done|by left]. }
  erewrite bind_ok; [|erewrite bind_ok by exact H1; cbn [Z.eqb default from_option]; unfold id;
    rewrite (bind_ok _ _ _ _ _ (own_path_step target current vka vka slot w1)); reflexivity].
  cbn [Z.eqb negb default from_option]. unfold id. rewrite (bind_ok _ _ _ _ _ (target_path_step target current vka vka c w1)).
  destruct (copy_step target current vka vka slot p c w1) as (e2 & w2 & H2 & Hc2); [rewrite Hv1; cbn; set_solver|by rewrite Hv1|].
  rewrite (bind_ok _ _ _ _ _ H2). rewrite !own_path_slot.
  destruct Hc2 as [(He2 & Hv2)|(-> & Hnone & Hv2)].
  { rewrite (proj2 (Z.eqb_neq e2 0)) by done. cbn [negb].
    destruct (free_step target current vka vka slot w2) as (w3 & H3 & Hv3). rewrite (bind_ok _ _ _ _ _ H3).
    exists 0, w3. split; [done|left]. split; [done|]. rewrite Hv3, Hv2, Hv1. by apply opened_refused. }
  cbn [Z.eqb negb].
  destruct (map_step target current vka vka CONFIG_HUGE_PAGE slot p (b2z true) w2) as (a & w3 & H3 & Hc3).
  { rewrite Hv2. cbn. apply lookup_insert_eq. }
  rewrite (bind_ok _ _ _ _ _ H3). rewrite Hv1 in Hnone. cbn in Hnone.
  destruct Hc3 as [(-> & Hv3)|(Ha & Ham & Hab & Hwn & Hv3)].
  - cbn [Z.eqb]. destruct (delete_step target current vka vka slot w3) as (e4 & w4 & H4 & Hv4). rewrite (bind_ok _ _ _ _ _ H4).
    destruct (free_step target current vka vka slot w4) as (w5 & H5 & Hv5). rewrite (bind_ok _ _ _ _ _ H5).
    exists 0, w5. split; [done|left]. split; [done|]. rewrite Hv5, Hv4, Hv3, Hv2, Hv1. rewrite <- (opened_refused slot (view_of w)) by done.
    unfold set_slots, set_copies, refuse. cbn. f_equal. by rewrite delete_insert_id.
  - rewrite (proj2 (Z.eqb_neq a 0)) by lia. exists a, w3. split; [done|right].
    rewrite Hv2, Hv1 in Hwn. cbn in Hwn. split_and!; [done..|]. exists slot. split_and!; [done|done|done|].
    by rewrite Hv3, Hv2, Hv1.
Qed.

Lemma unmap_dup_closes a p s v f w : s ∉ slots v -> copies v !! s = None -> windows v !! a = None -> s <> 0 ->
  view_of w = set_bytes f (opened a p s v) ->
  exists w', unmap_dup (Some vka) (Some current) a w = Ok (tt, w') /\ view_of w' = set_bytes f v.
Proof.
  intros Hs Hc Hw H0 Hv. unfold unmap_dup, sel4utils_unmap_dup.
  assert (Hin : windows (view_of w) !! a = Some (p, s)) by (rewrite Hv; cbn; apply lookup_insert_eq).
  rewrite (bind_ok _ _ _ _ _ (own_get_cap_step target current vka vka a p s w Hin)).
  rewrite (proj2 (Z.eqb_neq s 0)) by done. cbn [negb]. rewrite (bind_ok (cassert true) _ w w tt eq_refl).
  destruct (unmap_step target current vka vka a p s w Hin) as (w1 & H1 & Hv1). rewrite (bind_ok _ _ _ _ _ H1).
  rewrite (bind_ok _ _ _ _ _ (own_path_step target current vka vka s w1)).
  destruct (delete_step target current vka vka s w1) as (e & w2 & H2 & Hv2). rewrite (bind_ok _ _ _ _ _ H2).
  destruct (free_step target current vka vka s w2) as (w3 & H3 & Hv3). rewrite H3. exists w3. split; [done|].
  rewrite Hv3, Hv2, Hv1, Hv. destruct v. unfold opened, set_slots, set_copies, set_windows, set_bytes. cbn in *. f_equal.
  - set_solver.
  - by rewrite delete_insert_id.
  - by rewrite delete_insert_id.
Qed.

(** A round: the bytes that go to the page of [dest]. *)
Lemma write_round buf dest t w : 0 <= dest -> 0 < t <= Z.of_nat (length buf) -> dest + t <= page_at dest + 4096 ->
  dest < word_size -> is_Some (frames (view_of w) !! page_at dest) ->
  exists e w', (let! frame := vspace_get_cap (Some target) (PAGE_ALIGN_4K dest) in
      if frame =? 0 then ret (-1) else
      let! mapping := dup_and_map CONFIG_HUGE_PAGE (Some vka) (Some current) frame in
      if mapping =? 0 then ret (-1) else
      let! _ := memcpy (mapping ⊞ dest mod PAGE_SIZE_4K) (take (Z.to_nat t) buf) in
      let! _ := unmap_dup (Some vka) (Some current) mapping in ret 0) w = Ok (e, w') /\
    ((e = -1 /\ refusal (view_of w) (view_of w')) \/ (e = 0 /\ wrote dest (take (Z.to_nat t) buf) (view_of w) (view_of w'))).
Proof.
  intros H0 Ht Hend Hw [c Hc]. pose proof (page_at_bounds dest) as Hp. pose proof (page_at_mod dest) as Hpm.
  rewrite page_align_law by (unfold is_word; lia). change (dest / 4096 * 4096) with (page_at dest). set (p := page_at dest) in *.
  rewrite (bind_ok _ _ _ _ _ (get_cap_step target current vka vka p w)), Hc. cbn [default from_option]. unfold id.
  rewrite (proj2 (Z.eqb_neq c 0)) by (by eapply frames_not_null).
  destruct (dup_and_map_opens p c w Hc) as (a & w1 & H1 & Hc1). rewrite (bind_ok _ _ _ _ _ H1).
  destruct Hc1 as [(-> & Hv1)|(Ha & Ham & Hab & Hwn & s & Hs0 & Hs & Hcn & Hv1)].
  { cbn [Z.eqb]. exists (-1), w1. split; [done|left]. split; [done|]. by rewrite Hv1. }
  rewrite (proj2 (Z.eqb_neq a 0)) by lia. change PAGE_SIZE_4K with 4096.
  assert (Hm : dest mod 4096 = dest - p) by (unfold p, page_at; pose proof (Z.div_mod dest 4096); lia). rewrite Hm.
  destruct (memcpy_step target current vka vka a p s (dest - p) (take (Z.to_nat t) buf) w1) as (w2 & H2 & Hv2);
    [rewrite Hv1; cbn; apply lookup_insert_eq|done|lia|rewrite length_take; lia|lia|lia|].
  rewrite (bind_ok _ _ _ _ _ H2). replace (p + (dest - p)) with dest in Hv2 by lia. rewrite Hv1 in Hv2.
  destruct (unmap_dup_closes a p s (view_of w) _ w2 Hs Hcn Hwn Hs0 Hv2) as (w3 & H3 & Hv3). rewrite (bind_ok _ _ _ _ _ H3).
  exists 0, w3. split; [done|right]. split; [done|]. rewrite Hv3. by split.
Qed.

Lemma write_loop_writes fuel buf dest w : let len := Z.of_nat (length buf) in
  0 <= dest -> dest + len + 4096 < word_size -> mapped dest (dest + len) (view_of w) ->
  len = 0 \/ len + (dest - page_at dest) <= 4096 * Z.of_nat fuel ->
  exists e w', write_loop CONFIG_HUGE_PAGE (S fuel) (Some current) (Some target) (Some vka) buf len dest w = Ok (e, w') /\
    ((e <> 0 /\ refusal (view_of w) (view_of w')) \/ (e = 0 /\ wrote dest buf (view_of w) (view_of w'))).
Proof.
  revert buf dest w. induction fuel as [|fuel IH]; intros buf dest w len H0 Hw Hm Hf; pose proof (page_at_bounds dest) as Hp.
  { destruct buf; [|unfold len in Hf; cbn [length] in Hf; lia]. exists 0, w. split; [done|right]. split; [done|]. apply wrote_nothing. }
  remember (S fuel) as f1. cbn [write_loop]. destruct (Z.gtb_spec len 0) as [Hl|Hl].
  2:{ destruct buf; [|unfold len in Hl; cbn [length] in Hl; lia]. exists 0, w. split; [done|right]. split; [done|]. apply wrote_nothing. }
  change PAGE_SIZE_4K with 4096.
  assert (Hmod : dest mod 4096 = dest - page_at dest) by (unfold page_at; pose proof (Z.div_mod dest 4096); lia).
  rewrite Hmod, (wrap_small (4096 - _)) by (unfold is_word, word_size; lia).
  set (t := MIN (4096 - (dest - page_at dest)) len).
  assert (Ht : 0 < t <= len /\ dest + t <= page_at dest + 4096 /\ (t = len \/ dest + t = page_at dest + 4096)).
  { unfold t, MIN. destruct (Z.ltb_spec (4096 - (dest - page_at dest)) len); lia. }
  clearbody t. destruct Ht as (Ht & Hpe & Hcase). rewrite (proj2 (Z.eqb_neq t 0)) by lia. cbn [negb].
  rewrite (bind_ok (cassert true) _ w w tt eq_refl). rewrite <- Hmod.
  destruct (write_round buf dest t w H0 Ht Hpe ltac:(lia) (Hm dest ltac:(lia))) as (e & w1 & H1 & Hc).
  assert (Hrun : forall k, (let! frame := vspace_get_cap (Some target) (PAGE_ALIGN_4K dest) in
      if frame =? 0 then ret (-1) else
      let! mapping := dup_and_map CONFIG_HUGE_PAGE (Some vka) (Some current) frame in
      if mapping =? 0 then ret (-1) else
      let! _ := memcpy (mapping ⊞ dest mod 4096) (take (Z.to_nat t) buf) in
      let! _ := unmap_dup (Some vka) (Some current) mapping in k) w = if e =? 0 then k w1 else Ok (e, w1)).
  { intros k. revert H1. unfold bind. destruct (vspace_get_cap _ _ w) as [[fr w2]|]; [|done]. cbn [res_bind].
    destruct (fr =? 0); [by intros [= <- <-]|]. destruct (dup_and_map _ _ _ fr w2) as [[m w3]|]; [|done]. cbn [res_bind].
    destruct (m =? 0); [by intros [= <- <-]|]. change PAGE_SIZE_4K with 4096.
    destruct (memcpy _ _ w3) as [[[] w4]|]; [|done]. cbn [res_bind]. destruct (unmap_dup _ _ m w4) as [[[] w5]|]; [|done].
    cbn [res_bind]. by intros [= <- <-]. }
  rewrite Hrun. destruct Hc as [(-> & Href)|(-> & Hwr)].
  { exists (-1), w1. split; [done|left]. by split. }
  cbn [Z.eqb]. rewrite (wrap_small (len - t)), (wrap_small (dest + t)) by (unfold is_word; lia). subst f1.
  assert (Hlen : Z.of_nat (length (drop (Z.to_nat t) buf)) = len - t) by (rewrite length_drop; lia).
  destruct (IH (drop (Z.to_nat t) buf) (dest + t) w1) as (e & w2 & H2 & Hc2); rewrite ?Hlen; [lia|lia| | |].
  { apply (mapped_wrote _ _ _ _ _ _ Hwr). intros x Hx. apply Hm. lia. }
  { destruct Hcase as [->|He]; [left; lia|right].
    rewrite (page_at_eq (dest + t) (dest + t)) by (try lia; rewrite He, Z.add_mod, page_at_mod by lia; done). lia. }
  rewrite Hlen in H2. exists e, w2. split; [done|]. destruct Hc2 as [(He & Href)|(-> & Hwr2)]; [left|right]; (split; [done|]).
  - by eapply refusal_wrote.
  - rewrite <- (take_drop (Z.to_nat t) buf). eapply wrote_app; [exact Hwr|].
    rewrite length_take. by replace (Z.of_nat (Z.to_nat t `min` length buf)) with t by lia.
Qed.

Lemma stack_write_writes buf sp w : let len := Z.of_nat (length buf) in
  len <= sp -> sp + 4096 < word_size -> mapped (sp - len) sp (view_of w) ->
  exists e sp' w', sel4utils_stack_write CONFIG_HUGE_PAGE (Some current) (Some target) (Some vka) buf sp w = Ok (e, sp', w') /\
    ((e <> 0 /\ refusal (view_of w) (view_of w')) \/
     (e = 0 /\ sp' = sp - len /\ wrote (sp - len) buf (view_of w) (view_of w'))).
Proof.
  intros len Hl Hsp Hm. unfold sel4utils_stack_write. fold len. rewrite (wrap_small (sp - len)) by (unfold is_word; lia).
  destruct (write_loop_writes (Z.to_nat (len / PAGE_SIZE_4K) + 2) buf (sp - len) w) as (e & w' & H & Hc); fold len; [lia|lia| | |].
  { by replace (sp - len + len) with sp by lia. }
  { right. change PAGE_SIZE_4K with 4096. pose proof (page_at_bounds (sp - len)). dlia. }
  fold len in H. replace (Z.to_nat (len / PAGE_SIZE_4K) + 3)%nat with (S (Z.to_nat (len / PAGE_SIZE_4K) + 2)) by lia.
  rewrite (bind_ok _ _ _ _ _ H). destruct Hc as [(He & Hr)|(-> & Hwr)].
  - rewrite (proj2 (Z.eqb_neq e 0)) by done. exists e, sp, w'. split; [done|by left].
  - exists 0, (sp - len), w'. split; [done|right]. done.
Qed.
End windows.
