(* ===== verification/ProcessSpawn.v ===== *)
(** Starting a process with arguments (libsel4utils/src/process.c): what the
    runtime of the new process finds at its stack pointer. *)
From S2P Require Import Prelude Cspacepath Interfaces Objects Vka VspaceTables VspaceView VspaceSpec Vspace VspaceReserve.
From S2P Require Import VspaceApi VspaceStack Simple Mapping Threads ThreadToy ThreadRun Elf TargetMemory ElfPlace ElfLoad.
From S2P Require Import Process ProcessSpec.

Lemma length_le_bytes (n : nat) (x : Z) : length (le_bytes n x) = n.
Proof. unfold le_bytes. by rewrite length_fmap, length_seq. Qed.

Lemma length_words_bytes (l : list Z) : Z.of_nat (length (words_bytes l)) = 8 * Z.of_nat (length l).
Proof.
  unfold words_bytes, word_bytes. induction l as [|x l IH]; [done|]. cbn [mbind list_bind]. rewrite length_app, length_le_bytes.
  cbn [length]. lia.
Qed.

Lemma length_auxv_bytes (l : list (Z * Z)) : Z.of_nat (length (auxv_bytes l)) = 16 * Z.of_nat (length l).
Proof.
  unfold auxv_bytes. induction l as [|[a b] l IH]; [done|]. cbn [mbind list_bind]. rewrite length_app, Nat2Z.inj_add, length_words_bytes.
  cbn [length]. lia.
Qed.

Lemma length_concat_reverse {A} (l : list (list A)) : length (concat (reverse l)) = length (concat l).
Proof.
  induction l as [|x l IH]; [done|]. rewrite reverse_cons, concat_app, length_app, IH. cbn [concat].
  rewrite app_nil_r, length_app. lia.
Qed.

(** Only bytes from [lo] to [hi] have changed. *)
Definition stacked (lo hi : Z) (v v' : view) : Prop :=
  v' = View (bytes v') (frames v) (reserved v) (slots v) (copies v) (windows v) (refused v) /\
  forall x, ~ lo <= x < hi -> bytes v' x = bytes v x.

Lemma wrote_stacked (a : Z) (l : list Z) (v v' : view) : wrote a l v v' -> stacked a (a + Z.of_nat (length l)) v v'.
Proof. intros [R B]. split; [done|]. intros x Hx. rewrite B. by apply poke_out. Qed.

Lemma stacked_trans (lo mid hi : Z) (v1 v2 v3 : view) : lo <= mid <= hi ->
  stacked mid hi v1 v2 -> stacked lo mid v2 v3 -> stacked lo hi v1 v3.
Proof. intros Hm [R1 B1] [R2 B2]. split; [by rewrite R2, R1|]. intros x Hx. rewrite B2, B1; [done|lia|lia]. Qed.

Lemma stacked_grow (lo lo' hi : Z) (v v' : view) : lo' <= lo -> stacked lo hi v v' -> stacked lo' hi v v'.
Proof. intros Hl [R B]. split; [done|]. intros x Hx. apply B. lia. Qed.

Lemma stacked_mapped (lo hi a b : Z) (v v' : view) : stacked lo hi v v' -> mapped a b v -> mapped a b v'.
Proof. intros [R _] H x Hx. rewrite R. by apply H. Qed.

Lemma stacked_refusal (lo hi : Z) (v1 v2 v3 : view) : stacked lo hi v1 v2 -> refusal v2 v3 -> refusal v1 v3.
Proof. intros [R _] (H1 & H2 & H3 & H4 & H5 & H6). rewrite R in H2, H3, H4, H5, H6. done. Qed.

(** Writing below what was written. *)
Lemma wrote_below (a : Z) (l k : list Z) (v1 v2 v3 : view) :
  wrote (a + Z.of_nat (length l)) k v1 v2 -> wrote a l v2 v3 -> wrote a (l ++ k) v1 v3.
Proof.
  intros [R1 B1] [R2 B2]. split; [by rewrite R2, R1|]. intros x. rewrite B2, <- poke_app. unfold poke. rewrite B1. unfold poke.
  repeat case_bool_decide; lia || done.
Qed.

(** What lies above what is written stays. *)
Lemma stacked_holds (lo hi a : Z) (l : list Z) (v v' : view) : stacked lo hi v v' -> hi <= a ->
  holds_at (bytes v) a l -> holds_at (bytes v') a l.
Proof. intros [_ B] Ha. apply holds_at_same. intros x Hx. apply B. lia. Qed.

(** The arguments are strings at these addresses, which end with 0. *)
Definition args_at (f : Z -> Z) (ptrs : list Z) (argv : list (list Z)) : Prop :=
  Forall2 (fun p arg => holds_at f p (arg ++ [0])) ptrs argv.

Lemma args_at_stays (lo hi : Z) (v v' : view) (ptrs : list Z) (argv : list (list Z)) :
  stacked lo hi v v' -> Forall (fun p => hi <= p) ptrs -> args_at (bytes v) ptrs argv -> args_at (bytes v') ptrs argv.
Proof.
  intros Hst Hall Hargs. unfold args_at in *. induction Hargs as [|p a ptrs argv Hp Hrest IH]; [constructor|].
  apply Forall_cons in Hall as [Hpl Hall]. constructor; [|by apply IH]. by eapply stacked_holds.
Qed.

(** At most this many bytes of stack for the strings. *)
Definition strings_room (argv : list (list Z)) : Z := foldr (fun arg n => Z.of_nat (length arg) + 4 + n) 0 argv.

Lemma strings_room_nonneg (argv : list (list Z)) : 0 <= strings_room argv.
Proof. unfold strings_room. induction argv; cbn [foldr]; lia. Qed.

Section spawn.
Context `{UM : !UtilsMacros} `{UL : !UtilsLaws} `{CR : !CapRights} `{CL : !CapRightsLaws}.
Context {W : Type} {seL4 : SeL4Constants} `{BC : !BootConstants} `{KO : !KernelOps W} `{MC : !MappingConstants} `{CO : !CopyOps W}.
Context `{TC : !ThreadConstants} `{SL : !StackLaws} `{UC : !UserContexts} `{TK : !ThreadKernel W} `{PC : !ProcessConstants}.
Context (target current : vspace_t W) (vka : vka_t W) `{TM : !TargetMemory W target current vka vka}.
Context (HUGE : bool).
Implicit Types (w : W) (v : view).

Lemma copy_args_writes argv sp w : strings_room argv <= sp -> sp + 4096 < word_size ->
  mapped (sp - strings_room argv) sp (view_of w) ->
  exists e ptrs sp' w', sel4utils_stack_copy_args HUGE (Some current) (Some target) (Some vka) argv sp w = Ok (e, ptrs, sp', w') /\
    ((e <> 0 /\ refusal (view_of w) (view_of w')) \/
     (e = 0 /\ sp - strings_room argv <= sp' <= sp /\ stacked sp' sp (view_of w) (view_of w') /\
      args_at (bytes (view_of w')) ptrs argv /\ Forall (fun p => sp' <= p) ptrs)).
Proof.
  revert sp w. induction argv as [|arg argv IH]; intros sp w Hr Hw Hm; cbn [sel4utils_stack_copy_args].
  { exists 0, [], sp, w. split; [done|right]. split; [done|]. cbn. split; [lia|].
    split; [split; [by destruct (view_of w)|done]|]. split; constructor. }
  cbn [strings_room foldr] in Hr, Hm. fold (strings_room argv) in Hr, Hm. pose proof (strings_room_nonneg argv) as Hn.
  set (k := Z.of_nat (length arg) + 1).
  assert (Hk : Z.of_nat (length (arg ++ [0])) = k) by (rewrite length_app; cbn [length]; lia).
  destruct (stack_write_writes target current vka HUGE (arg ++ [0]) sp w) as (e & sp1 & w1 & H1 & Hc1); rewrite ?Hk; [lia|lia| |].
  { intros x Hx. apply Hm. lia. }
  rewrite Hk in Hc1. rewrite (bind_ok _ _ _ _ _ H1). destruct Hc1 as [(He & Href)|(-> & -> & Hwr)]; cbn beta iota.
  { rewrite (proj2 (Z.eqb_neq e 0)) by done. exists e, [], sp1, w1. split; [done|by left]. }
  cbn [Z.eqb negb]. rewrite ROUND_DOWN_law by (unfold is_word; lia).
  set (a := (sp - k) / 4 * 4). assert (Ha : sp - k - 4 < a <= sp - k) by (unfold a; dlia). clearbody a.
  pose proof (wrote_stacked _ _ _ _ Hwr) as Hst. rewrite Hk in Hst. replace (sp - k + k) with sp in Hst by lia.
  destruct (IH a w1) as (e & ptrs & sp' & w2 & H2 & Hc2); [lia|lia| |].
  { apply (stacked_mapped _ _ _ _ _ _ Hst). intros x Hx. apply Hm. lia. }
  rewrite (bind_ok _ _ _ _ _ H2). cbn beta iota. exists e, (sp - k :: ptrs), sp', w2. split; [done|].
  destruct Hc2 as [(He & Href)|(-> & Hsp & Hst2 & Hargs & Hall)]; [left|right]; (split; [done|]).
  - by eapply stacked_refusal.
  - cbn [strings_room foldr]. fold (strings_room argv). split; [lia|]. split; [|split].
    + eapply (stacked_trans sp' a); [lia| |exact Hst2]. eapply (stacked_grow (sp - k)); [lia|exact Hst].
    + constructor; [|done]. eapply stacked_holds; [exact Hst2|lia|]. destruct Hwr as [_ B]. intros i Hi. rewrite B. by apply poke_holds.
    + constructor; [lia|]. done.
Qed.

(** Items pushed one after the other lie the other way round. *)
Lemma push_all_writes items sp w : let n := Z.of_nat (length (concat items)) in
  n <= sp -> sp + 4096 < word_size -> mapped (sp - n) sp (view_of w) ->
  exists e sp' w', push_all HUGE (Some current) (Some target) (Some vka) items sp w = Ok (e, sp', w') /\
    ((e <> 0 /\ refusal (view_of w) (view_of w')) \/
     (e = 0 /\ sp' = sp - n /\ wrote (sp - n) (concat (reverse items)) (view_of w) (view_of w'))).
Proof.
  revert sp w. induction items as [|item items IH]; intros sp w n Hn Hw Hm; cbn [push_all].
  { exists 0, sp, w. split; [done|right]. unfold n. cbn. split_and!; [done|lia|]. apply wrote_nothing. }
  assert (Hlen : n = Z.of_nat (length item) + Z.of_nat (length (concat items))).
  { unfold n. cbn [concat]. rewrite length_app. lia. }
  destruct (stack_write_writes target current vka HUGE item sp w) as (e & sp1 & w1 & H1 & Hc1); [lia|lia| |].
  { intros x Hx. apply Hm. lia. }
  rewrite (bind_ok _ _ _ _ _ H1). destruct Hc1 as [(He & Href)|(-> & -> & Hwr)]; cbn beta iota.
  { rewrite (proj2 (Z.eqb_neq e 0)) by done. exists (-1), sp1, w1. split; [done|by left]. }
  cbn [Z.eqb negb]. destruct (IH (sp - Z.of_nat (length item)) w1) as (e & sp' & w2 & H2 & Hc2); [lia|lia| |].
  { apply (mapped_wrote _ _ _ _ _ _ Hwr). intros x Hx. apply Hm. lia. }
  rewrite H2. exists e, sp', w2. split; [done|]. destruct Hc2 as [(He & Href)|(-> & -> & Hwr2)]; [left|right]; (split; [done|]).
  - by eapply refusal_wrote.
  - split; [lia|]. rewrite reverse_cons, concat_app. cbn [concat]. rewrite app_nil_r.
    assert (Hrev : length (concat (reverse items)) = length (concat items)).
    { apply length_concat_reverse. }
    apply (wrote_below _ _ _ _ (view_of w1)); [|by replace (sp - n) with (sp - Z.of_nat (length item) - Z.of_nat (length (concat items))) by lia].
    rewrite Hrev. by replace (sp - n + Z.of_nat (length (concat items))) with (sp - Z.of_nat (length item)) by lia.
Qed.

(** ** The stack of sel4utils_spawn_process_v *)

Definition header_bytes (process : sel4utils_process_t W) : list Z :=
  take (Z.to_nat (num_elf_phdrs process)) (elf_phdrs process).2 ≫= phdr_bytes.

(** The frame the runtime reads: the arguments, the environment, which is empty,
    and the auxiliary vector. *)
Definition initial_frame (process : sel4utils_process_t W) (argc at_phdr : Z) (ptrs : list Z) : list Z :=
  word_bytes argc ++ words_bytes ptrs ++ word_bytes 0 ++ word_bytes 0 ++ auxv_bytes (process_auxv process at_phdr) ++
  word_bytes 0 ++ word_bytes 0.

(** At most this many bytes of stack. *)
Definition stack_need (process : sel4utils_process_t W) (argv : list (list Z)) : Z :=
  Z.of_nat (length (header_bytes process)) + strings_room argv + (40 + 112 + 8 * Z.of_nat (length argv)) + STACK_CALL_ALIGNMENT.

Lemma auxv_length (process : sel4utils_process_t W) (at_phdr : Z) :
  Z.of_nat (length (process_auxv process at_phdr)) <= 7.
Proof. unfold process_auxv. rewrite length_app. cbn [length]. destruct (negb _); cbn [length]; lia. Qed.

Lemma frame_items (process : sel4utils_process_t W) (argc at_phdr : Z) (ptrs : list Z) :
  let items := [word_bytes 0; word_bytes 0; auxv_bytes (process_auxv process at_phdr); word_bytes 0; word_bytes 0;
    words_bytes ptrs; word_bytes argc] in
  concat (reverse items) = initial_frame process argc at_phdr ptrs /\
  Z.of_nat (length (concat items)) = 5 * 8 + 16 * Z.of_nat (length (process_auxv process at_phdr)) + 8 * Z.of_nat (length ptrs).
Proof.
  cbn zeta. split.
  - unfold initial_frame, reverse. cbn [rev_append concat]. by rewrite app_nil_r.
  - cbn [concat]. rewrite !length_app, !Nat2Z.inj_add, length_auxv_bytes, length_words_bytes.
    unfold word_bytes. rewrite !length_le_bytes. cbn [length]. lia.
Qed.

Lemma pow_multiple (x : Z) : (x / STACK_CALL_ALIGNMENT * STACK_CALL_ALIGNMENT) mod 8 = 0 /\
  (4 <= STACK_CALL_ALIGNMENT_BITS -> (x / STACK_CALL_ALIGNMENT * STACK_CALL_ALIGNMENT) mod 16 = 0).
Proof.
  pose proof alignment_bits as Hb. rewrite alignment_pow. split; [|intros H4].
  - replace (2 ^ STACK_CALL_ALIGNMENT_BITS) with (2 ^ (STACK_CALL_ALIGNMENT_BITS - 3) * 8)
      by (rewrite <- (Z.pow_add_r 2 _ 3) by lia; f_equal; lia). rewrite Z.mul_assoc. apply Z.mod_mul. lia.
  - replace (2 ^ STACK_CALL_ALIGNMENT_BITS) with (2 ^ (STACK_CALL_ALIGNMENT_BITS - 4) * 16)
      by (rewrite <- (Z.pow_add_r 2 _ 4) by lia; f_equal; lia). rewrite Z.mul_assoc. apply Z.mod_mul. lia.
Qed.

(** Everything up to the registers. *)
Record stack_ready (process : sel4utils_process_t W) (argv : list (list Z)) (sp : Z) v v' : Prop := {
  sr_aligned : sp mod 16 = 0;
  sr_stacked : stacked sp (stack_top (proc_thread process) - 8) v v';
  sr_room : stack_top (proc_thread process) - 8 - stack_need process argv <= sp;
  sr_frame : exists at_phdr ptrs, holds_at (bytes v') sp (initial_frame process (Z.of_nat (length argv)) at_phdr ptrs) /\
    holds_at (bytes v') at_phdr (header_bytes process) /\ args_at (bytes v') ptrs argv /\
    sp + Z.of_nat (length (initial_frame process (Z.of_nat (length argv)) at_phdr ptrs)) <= at_phdr /\
    Forall (fun p => sp + Z.of_nat (length (initial_frame process (Z.of_nat (length argv)) at_phdr ptrs)) <= p) ptrs
}.

(** C4: with room for the arguments on its stack, which is mapped,
    sel4utils_spawn_process_v either returns -1 because a request was refused, with
    everything of ours as it was; or it writes the registers of the thread - the
    entry point, and the stack pointer [sp] - when the stack is as the System V ABI
    asks: [sp] is a multiple of 16, the number of arguments is there, then the
    addresses of the strings, which end with 0 and are above, an empty environment, the
    auxiliary vector with the address of the program headers, which are above too,
    and its end; and nothing outside the stack has changed. *)
Theorem spawn_process_v_stack (process : sel4utils_process_t W) (argv : list (list Z)) (resume : bool) w :
  let top := stack_top (proc_thread process) in
  proc_vspace process = target -> 4 <= STACK_CALL_ALIGNMENT_BITS ->
  stack_need process argv + 8 <= top -> top + 4096 < word_size ->
  mapped (top - 8 - stack_need process argv) (top - 8) (view_of w) ->
  (exists w', sel4utils_spawn_process_v HUGE process (Some vka) (Some current) argv resume w = Ok (-1, process, w') /\
     refusal (view_of w) (view_of w')) \/
  (exists sp w', stack_ready process argv sp (view_of w) (view_of w') /\
     sel4utils_spawn_process_v HUGE process (Some vka) (Some current) argv resume w =
     (let! error := seL4_TCB_WriteRegisters (cptr (tcb (proc_thread process))) resume 0
        (set_rip (proc_entry_point process) (set_rdx 0 (set_rsp sp zero_context))) in
      ret (error, with_stack_pointer sp process)) w').
Proof.
  intros top Htg Hb Hneed Htop Hm. pose proof (strings_room_nonneg argv) as Hsr. pose proof alignment_bits as Hab.
  assert (Hal : STACK_CALL_ALIGNMENT = 2 ^ STACK_CALL_ALIGNMENT_BITS) by apply alignment_pow.
  assert (Hal0 : 0 < STACK_CALL_ALIGNMENT) by (rewrite Hal; lia).
  unfold sel4utils_spawn_process_v. rewrite Htg. fold top. fold (header_bytes process).
  unfold stack_need in Hneed, Hm. set (hb := header_bytes process) in *. set (h := Z.of_nat (length hb)) in *.
  rewrite (wrap_small (top - 8)) by (unfold is_word; lia).
  destruct (stack_write_writes target current vka HUGE hb (top - 8) w) as (e & sp1 & w1 & H1 & Hc1); fold h; [lia|lia| |].
  { intros x Hx. apply Hm. lia. }
  fold h in Hc1. rewrite (bind_ok _ _ _ _ _ H1). destruct Hc1 as [(He & Href)|(-> & -> & Hwr)]; cbn beta iota.
  { rewrite (proj2 (Z.eqb_neq e 0)) by done. left. exists w1. by split. }
  cbn [Z.eqb negb]. set (ph := top - 8 - h) in *.
  pose proof (wrote_stacked _ _ _ _ Hwr) as Hst1. fold h in Hst1. replace (ph + h) with (top - 8) in Hst1 by (unfold ph; lia).
  destruct (copy_args_writes argv ph w1) as (e & ptrs & sp2 & w2 & H2 & Hc2); [unfold ph; lia|unfold ph; lia| |].
  { apply (stacked_mapped _ _ _ _ _ _ Hst1). intros x Hx. apply Hm. unfold ph in *. lia. }
  rewrite (bind_ok _ _ _ _ _ H2). destruct Hc2 as [(He & Href)|(-> & Hsp2 & Hst2 & Hargs & Hall)]; cbn beta iota.
  { rewrite (proj2 (Z.eqb_neq e 0)) by done. left. exists w2. split; [done|]. by eapply stacked_refusal. }
  cbn [Z.eqb negb]. pose proof (Forall2_length _ _ _ Hargs) as Hlp. pose proof (auxv_length process ph) as Hax.
  set (n := 5 * 8 + 16 * Z.of_nat (length (process_auxv process ph)) + 8 * Z.of_nat (length argv)).
  assert (Hn : 0 <= n <= 40 + 112 + 8 * Z.of_nat (length argv)) by (unfold n; lia).
  rewrite (wrap_small (sp2 - n)) by (unfold is_word, ph in *; lia). rewrite Hal, ALIGN_DOWN_law by (unfold is_word, ph in *; lia).
  rewrite <- Hal. set (sp := (sp2 - n) / STACK_CALL_ALIGNMENT * STACK_CALL_ALIGNMENT).
  assert (Hsp : sp <= sp2 - n < sp + STACK_CALL_ALIGNMENT).
  { unfold sp. pose proof (Z.div_mod (sp2 - n) STACK_CALL_ALIGNMENT). pose proof (Z.mod_pos_bound (sp2 - n) STACK_CALL_ALIGNMENT). lia. }
  assert (H16 : sp mod 16 = 0) by (by apply pow_multiple). clearbody sp.
  rewrite (wrap_small (sp2 - n - sp)), (wrap_small (sp2 - (sp2 - n - sp))) by (unfold is_word, ph in *; lia).
  replace (sp2 - (sp2 - n - sp)) with (sp + n) by lia.
  destruct (frame_items process (Z.of_nat (length argv)) ph ptrs) as [Hfr Hlen]. rewrite Hlp in Hlen. fold n in Hlen.
  match goal with |- context [push_all _ _ _ _ ?items _] =>
    destruct (push_all_writes items (sp + n) w2) as (e & sp3 & w3 & H3 & Hc3) end;
    rewrite ?Hlen; [unfold ph in *; lia|unfold ph in *; lia| |].
  { apply (stacked_mapped _ _ _ _ _ _ Hst2), (stacked_mapped _ _ _ _ _ _ Hst1). intros x Hx. apply Hm. unfold ph in *. lia. }
  rewrite Hlen, Hfr in Hc3. rewrite (bind_ok _ _ _ _ _ H3). destruct Hc3 as [(He & Href)|(-> & -> & Hwr3)]; cbn beta iota.
  { rewrite (proj2 (Z.eqb_neq e 0)) by done. left. exists w3. split; [done|]. by eapply stacked_refusal, stacked_refusal. }
  cbn [Z.eqb negb]. replace (sp + n - n) with sp in * by lia. change (2 * 8) with 16. rewrite H16. cbn [Z.eqb].
  rewrite (bind_ok (cassert true) _ w3 w3 tt eq_refl). cbn [sel4utils_arch_init_context negb Z.eqb].
  right. exists sp, w3. split; [|done].
  pose proof (wrote_stacked _ _ _ _ Hwr3) as Hst3.
  assert (Hfl : Z.of_nat (length (initial_frame process (Z.of_nat (length argv)) ph ptrs)) = n).
  { rewrite <- Hfr, length_concat_reverse. exact Hlen. }
  rewrite Hfl in Hst3.
  split; [done| |unfold stack_need; fold hb h; unfold ph in *; fold top; lia|].
  - fold top. eapply (stacked_trans sp ph); [unfold ph in *; lia|exact Hst1|].
    eapply (stacked_trans sp sp2); [lia|exact Hst2|]. destruct Hst3 as [R B]. split; [done|]. intros x Hx. apply B. lia.
  - exists ph, ptrs. rewrite Hfl. split_and!.
    + destruct Hwr3 as [_ B]. intros i Hi. rewrite B. by apply poke_holds.
    + eapply stacked_holds; [exact Hst3|lia|]. eapply stacked_holds; [exact Hst2|lia|]. destruct Hwr as [_ B].
      intros i Hi. rewrite B. by apply poke_holds.
    + eapply args_at_stays; [exact Hst3| |exact Hargs]. eapply Forall_impl; [exact Hall|]. intros p Hp. cbn in Hp. lia.
    + lia.
    + eapply Forall_impl; [exact Hall|]. intros p Hp. cbn in Hp. lia.
Qed.
End spawn.

(** ** A process that is started *)

#[export] Instance toy_process_constants : ProcessConstants := {|
  CONFIG_X86_64 := true; CONFIG_SEL4UTILS_CSPACE_SIZE_BITS := 12; PT_NULL := 0; PT_PHDR := 6; AT_PHDR := 3; AT_PHENT := 4;
  AT_PHNUM := 5; AT_PAGESZ := 6; AT_SYSINFO := 32; AT_SEL4_IPC_BUFFER_PTR := 64; AT_SEL4_TCB := 66; process_EINVAL := 22
|}.

(** Its stack is the two pages below 131072, it has one program header. *)
Definition ready_process : sel4utils_process_t workshop :=
  with_vspace workshop_target (with_phdrs 1 (8192, [Phdr 1 0 4194304 0 4096 4660 5 4096])
    (with_pagesz 4096 (with_entry 4194560 0 (with_thread toy_thread zero_process)))).
Definition ready_workshop (n : nat) : workshop :=
  Workshop (View (fun _ => 99) ∅ ∅ {[7]} ∅ ∅ false) {[122880; 126976]} n 8192.

Definition start_ready (n : nat) : res (Z * sel4utils_process_t workshop * workshop) :=
  sel4utils_spawn_process_v (TK := toy_thread_kernel 0 0) false ready_process (Some workshop_vka) (Some workshop_own)
    [[97; 98]; [99]] true (ready_workshop n).

(** The error, and the stack pointer of the thread. *)
Definition started {W} (r : res (Z * sel4utils_process_t W * W)) : option (Z * Z) :=
  match r with
  | Ok (e, p, _) => Some (e, initial_stack_pointer (proc_thread p))
  | Fault _ => None
  end.

Lemma ready_mapped (n : nat) (a b : Z) : 122880 <= a -> b <= 131072 -> mapped a b (view_of (ready_workshop n)).
Proof.
  intros Ha Hb x Hx. exists (2 * page_at x + 1). apply frames_of_lookup. split; [|done]. cbn [ws_pages ready_workshop].
  pose proof (page_at_bounds x). pose proof (page_at_mod x).
  rewrite elem_of_union, !elem_of_singleton. destruct (decide (x < 126976)); [left|right]; apply page_at_eq; (done || lia).
Qed.

Lemma spawn_process_v_stack_witness :
  exists w', started (start_ready 100) = Some (0, 130848) /\
    stack_ready ready_process [[97; 98]; [99]] 130848 (view_of (ready_workshop 100)) (view_of w').
Proof.
  assert (Ho : started (start_ready 100) = Some (0, 130848)) by (vm_compute; reflexivity).
  destruct (spawn_process_v_stack (TK := toy_thread_kernel 0 0) workshop_target workshop_own workshop_vka false
    ready_process [[97; 98]; [99]] true (ready_workshop 100)) as [(w' & H & _)|(sp & w' & Hr & H)].
  - reflexivity.
  - apply Z.leb_le. reflexivity.
  - apply Z.leb_le. vm_compute. reflexivity.
  - reflexivity.
  - apply ready_mapped; apply Z.leb_le; vm_compute; reflexivity.
  - exfalso. change (start_ready 100 = Ok (-1, ready_process, w')) in H. rewrite H in Ho. discriminate Ho.
  - exists w'. split; [exact Ho|].
    assert (sp = 130848) as <-; [|exact Hr]. unfold start_ready in Ho. rewrite H in Ho. cbn [started] in Ho.
    injection Ho as Ho. exact Ho.
Defined.
