(* ===== verification/ProcessConfigure.v ===== *)
(** Configuring a process, and giving it back: libsel4utils/src/process.c and
    include/sel4utils/process_config.h.

    An address space is made by [sel4utils_get_vspace], a parameter: it answers with
    an error, which the code does not look at, and the table of functions.  The file
    of an image, found in the archive the program is linked with, is a parameter
    too.  The structure is passed from step to step and given back. *)
From S2P Require Import Prelude Cspacepath Interfaces Objects Vka VspaceTables Vspace VspaceApi Simple SimpleSpec Mapping.
From S2P Require Import Threads Elf TargetMemory Process.

Record sel4utils_process_config_t (W : Type) : Type := ProcessConfig {
  is_elf : bool;
  image_name : Z;
  do_elf_load : bool;
  cfg_entry_point : Z;
  cfg_sysinfo : Z;
  create_cspace : bool;
  one_level_cspace_size_bits : Z;
  dest_cspace_tcb_cptr : Z;
  cnode : vka_object_t;
  create_vspace : bool;
  cfg_vspace : option (vspace_t W);
  page_dir : vka_object_t;
  reservations : list sel4utils_elf_region_t;
  num_reservations : Z;
  create_fault_endpoint : bool;
  cfg_fault_endpoint : vka_object_t;
  cfg_sched_params : sched_params_t;
  asid_pool : Z
}.
Arguments ProcessConfig {W} _ _ _ _ _ _ _ _ _ _ _ _ _ _ _ _ _ _.
Arguments is_elf {W} _.
Arguments image_name {W} _.
Arguments do_elf_load {W} _.
Arguments cfg_entry_point {W} _.
Arguments cfg_sysinfo {W} _.
Arguments create_cspace {W} _.
Arguments one_level_cspace_size_bits {W} _.
Arguments dest_cspace_tcb_cptr {W} _.
Arguments cnode {W} _.
Arguments create_vspace {W} _.
Arguments cfg_vspace {W} _.
Arguments page_dir {W} _.
Arguments reservations {W} _.
Arguments num_reservations {W} _.
Arguments create_fault_endpoint {W} _.
Arguments cfg_fault_endpoint {W} _.
Arguments cfg_sched_params {W} _.
Arguments asid_pool {W} _.

(** The configuration that is all zeros. *)
Definition zero_process_config {W} : sel4utils_process_config_t W :=
  ProcessConfig false 0 false 0 0 false 0 0 no_object false None no_object [] 0 false no_object zero_sched_params 0.

Section config.
Context {W : Type} `{SC : !SeL4Constants} `{BC : !BootConstants} `{TC : !ThreadConstants} `{PC : !ProcessConstants}.
Implicit Types (config : sel4utils_process_config_t W) (simple : option (simple_t W)).

Definition process_config_asid_pool config (asid_pool : Z) : sel4utils_process_config_t W :=
  ProcessConfig (is_elf config) (image_name config) (do_elf_load config) (cfg_entry_point config) (cfg_sysinfo
    config) (create_cspace config) (one_level_cspace_size_bits config) (dest_cspace_tcb_cptr config) (cnode
    config) (create_vspace config) (cfg_vspace config) (page_dir config) (reservations config) (num_reservations
    config) (create_fault_endpoint config) (cfg_fault_endpoint config) (cfg_sched_params config) asid_pool.
Definition process_config_auth config (auth : Z) : sel4utils_process_config_t W :=
  ProcessConfig (is_elf config) (image_name config) (do_elf_load config) (cfg_entry_point config) (cfg_sysinfo
    config) (create_cspace config) (one_level_cspace_size_bits config) (dest_cspace_tcb_cptr config) (cnode
    config) (create_vspace config) (cfg_vspace config) (page_dir config) (reservations config) (num_reservations
    config) (create_fault_endpoint config) (cfg_fault_endpoint config) (let p := cfg_sched_params config in
    SchedParams (priority p) (mcp p) auth (create_sc p) (sched_ctrl p) (period p) (budget p) (extra_refills p)
    (badge p) (sp_sched_context p) (core p)) (asid_pool config).
Definition process_config_new simple : M W (sel4utils_process_config_t W) :=
  let! tcb := simple_get_tcb simple in
  let config := process_config_auth zero_process_config tcb in
  let! pool := simple_get_init_cap simple seL4_CapInitThreadASIDPool in
  ret (process_config_asid_pool config pool).
Definition process_config_elf config (image_name : Z) (preload : bool) : sel4utils_process_config_t W :=
  ProcessConfig true image_name preload (cfg_entry_point config) (cfg_sysinfo config) (create_cspace config)
    (one_level_cspace_size_bits config) (dest_cspace_tcb_cptr config) (cnode config) (create_vspace config)
    (cfg_vspace config) (page_dir config) (reservations config) (num_reservations config) (create_fault_endpoint
    config) (cfg_fault_endpoint config) (cfg_sched_params config) (asid_pool config).
Definition process_config_noelf config (entry_point sysinfo : Z) : sel4utils_process_config_t W :=
  ProcessConfig false (image_name config) (do_elf_load config) entry_point sysinfo (create_cspace config)
    (one_level_cspace_size_bits config) (dest_cspace_tcb_cptr config) (cnode config) (create_vspace config)
    (cfg_vspace config) (page_dir config) (reservations config) (num_reservations config) (create_fault_endpoint
    config) (cfg_fault_endpoint config) (cfg_sched_params config) (asid_pool config).
Definition process_config_cnode config (cnode : vka_object_t) : sel4utils_process_config_t W :=
  ProcessConfig (is_elf config) (image_name config) (do_elf_load config) (cfg_entry_point config) (cfg_sysinfo
    config) false (one_level_cspace_size_bits config) (dest_cspace_tcb_cptr config) cnode (create_vspace config)
    (cfg_vspace config) (page_dir config) (reservations config) (num_reservations config) (create_fault_endpoint
    config) (cfg_fault_endpoint config) (cfg_sched_params config) (asid_pool config).
Definition process_config_create_cnode config (size_bits : Z) : sel4utils_process_config_t W :=
  ProcessConfig (is_elf config) (image_name config) (do_elf_load config) (cfg_entry_point config) (cfg_sysinfo
    config) true size_bits (dest_cspace_tcb_cptr config) (cnode config) (create_vspace config) (cfg_vspace
    config) (page_dir config) (reservations config) (num_reservations config) (create_fault_endpoint config)
    (cfg_fault_endpoint config) (cfg_sched_params config) (asid_pool config).
Definition process_config_vspace config (vspace : option (vspace_t W)) (page_dir : vka_object_t) : sel4utils_process_config_t W :=
  ProcessConfig (is_elf config) (image_name config) (do_elf_load config) (cfg_entry_point config) (cfg_sysinfo
    config) (create_cspace config) (one_level_cspace_size_bits config) (dest_cspace_tcb_cptr config) (cnode
    config) false vspace page_dir (reservations config) (num_reservations config) (create_fault_endpoint config)
    (cfg_fault_endpoint config) (cfg_sched_params config) (asid_pool config).
Definition process_config_create_vspace config (reservations : list sel4utils_elf_region_t) (num_reservations : Z) : sel4utils_process_config_t W :=
  ProcessConfig (is_elf config) (image_name config) (do_elf_load config) (cfg_entry_point config) (cfg_sysinfo
    config) (create_cspace config) (one_level_cspace_size_bits config) (dest_cspace_tcb_cptr config) (cnode
    config) true (cfg_vspace config) (page_dir config) reservations num_reservations (create_fault_endpoint
    config) (cfg_fault_endpoint config) (cfg_sched_params config) (asid_pool config).
Definition process_config_priority config (priority : Z) : sel4utils_process_config_t W :=
  ProcessConfig (is_elf config) (image_name config) (do_elf_load config) (cfg_entry_point config) (cfg_sysinfo
    config) (create_cspace config) (one_level_cspace_size_bits config) (dest_cspace_tcb_cptr config) (cnode
    config) (create_vspace config) (cfg_vspace config) (page_dir config) (reservations config) (num_reservations
    config) (create_fault_endpoint config) (cfg_fault_endpoint config) (let p := cfg_sched_params config in
    SchedParams priority (mcp p) (auth p) (create_sc p) (sched_ctrl p) (period p) (budget p) (extra_refills p)
    (badge p) (sp_sched_context p) (core p)) (asid_pool config).
Definition process_config_mcp config (mcp : Z) : sel4utils_process_config_t W :=
  ProcessConfig (is_elf config) (image_name config) (do_elf_load config) (cfg_entry_point config) (cfg_sysinfo
    config) (create_cspace config) (one_level_cspace_size_bits config) (dest_cspace_tcb_cptr config) (cnode
    config) (create_vspace config) (cfg_vspace config) (page_dir config) (reservations config) (num_reservations
    config) (create_fault_endpoint config) (cfg_fault_endpoint config) (let p := cfg_sched_params config in
    SchedParams (priority p) mcp (auth p) (create_sc p) (sched_ctrl p) (period p) (budget p) (extra_refills p)
    (badge p) (sp_sched_context p) (core p)) (asid_pool config).
Definition process_config_create_fault_endpoint config  : sel4utils_process_config_t W :=
  ProcessConfig (is_elf config) (image_name config) (do_elf_load config) (cfg_entry_point config) (cfg_sysinfo
    config) (create_cspace config) (one_level_cspace_size_bits config) (dest_cspace_tcb_cptr config) (cnode
    config) (create_vspace config) (cfg_vspace config) (page_dir config) (reservations config) (num_reservations
    config) true (cfg_fault_endpoint config) (cfg_sched_params config) (asid_pool config).
Definition process_config_fault_endpoint config (fault_endpoint : vka_object_t) : sel4utils_process_config_t W :=
  ProcessConfig (is_elf config) (image_name config) (do_elf_load config) (cfg_entry_point config) (cfg_sysinfo
    config) (create_cspace config) (one_level_cspace_size_bits config) (dest_cspace_tcb_cptr config) (cnode
    config) (create_vspace config) (cfg_vspace config) (page_dir config) (reservations config) (num_reservations
    config) false fault_endpoint (cfg_sched_params config) (asid_pool config).
Definition process_config_fault_cptr config (fault_cptr : Z) : sel4utils_process_config_t W :=
  ProcessConfig (is_elf config) (image_name config) (do_elf_load config) (cfg_entry_point config) (cfg_sysinfo
    config) (create_cspace config) (one_level_cspace_size_bits config) (dest_cspace_tcb_cptr config) (cnode
    config) (create_vspace config) (cfg_vspace config) (page_dir config) (reservations config) (num_reservations
    config) false (with_cptr fault_cptr (cfg_fault_endpoint config)) (cfg_sched_params config) (asid_pool
    config).
Definition with_process_sched_params config (params : sched_params_t) : sel4utils_process_config_t W :=
  ProcessConfig (is_elf config) (image_name config) (do_elf_load config) (cfg_entry_point config) (cfg_sysinfo
    config) (create_cspace config) (one_level_cspace_size_bits config) (dest_cspace_tcb_cptr config) (cnode
    config) (create_vspace config) (cfg_vspace config) (page_dir config) (reservations config) (num_reservations
    config) (create_fault_endpoint config) (cfg_fault_endpoint config) params (asid_pool config).
Definition process_config_default (image_name asid_pool : Z) : sel4utils_process_config_t W :=
  let config := process_config_asid_pool zero_process_config asid_pool in
  let config := process_config_elf config image_name true in
  let config := process_config_create_cnode config CONFIG_SEL4UTILS_CSPACE_SIZE_BITS in
  let config := process_config_create_vspace config [] 0 in
  process_config_create_fault_endpoint config.
Definition process_config_default_simple simple (image_name prio : Z) : M W (sel4utils_process_config_t W) :=
  let! config := process_config_new simple in
  let config := process_config_elf config image_name true in
  let config := process_config_create_cnode config CONFIG_SEL4UTILS_CSPACE_SIZE_BITS in
  let config := process_config_create_vspace config [] 0 in
  let config := process_config_create_fault_endpoint config in
  let! config := (if CONFIG_KERNEL_MCS then
      let! params := sched_params_round_robin (cfg_sched_params config) simple 0 (CONFIG_BOOT_THREAD_TIME_SLICE ⊠ US_IN_MS) in
      ret (with_process_sched_params config params)
    else ret config) in
  ret (process_config_priority config prio).

End config.

(** libsel4vka, x86_64 *)
Section vspace_root.
Context {W : Type} `{SC : !SeL4Constants}.
Definition vka_alloc_pml4 (vka : option (vka_t W)) (result : vka_object_t) : M W (Z * vka_object_t) :=
  vka_alloc_object vka (kobject_get_type KOBJECT_PML4 0) seL4_PML4Bits result.
Definition vka_alloc_vspace_root (vka : option (vka_t W)) (result : vka_object_t) : M W (Z * vka_object_t) :=
  vka_alloc_pml4 vka result.
End vspace_root.

(** ** Configuring *)

Section configure.
Context {W : Type} `{SC : !SeL4Constants} `{BC : !BootConstants} `{MC : !MappingConstants} `{TC : !ThreadConstants}
  `{PC : !ProcessConstants} `{UC : !UserContexts} `{KO : !KernelOps W} `{TK : !ThreadKernel W} `{PK : !ProcessKernel W}
  `{CO : !CopyOps W} `{UM : !UtilsMacros} `{CR : !CapRights} `{MA : !Malloc W} `{OL : !ObjectList W} `{ER : !ElfReader}.
Context (sglib_quick_sort : (sel4utils_elf_region_t -> sel4utils_elf_region_t -> res Z) ->
  list sel4utils_elf_region_t -> res (list sel4utils_elf_region_t)).
(** The spawner's address space, the allocator, the root of the new one, and what to
    call for each object allocated; and the file of an image. *)
Context (sel4utils_get_vspace : option (vspace_t W) -> option (vka_t W) -> Z -> (vka_object_t -> M W unit) -> M W (Z * vspace_t W))
  (image_file : Z -> option elf_t).
Implicit Types (process : sel4utils_process_t W) (vka : option (vka_t W)) (spawner vspace : option (vspace_t W))
  (config : sel4utils_process_config_t W).

(** The inner loop frees the reservation of region [i], the one that was not made. *)
Fixpoint free_made (j : nat) vspace (regions : list sel4utils_elf_region_t) (i : Z) : M W unit :=
  match j with
  | O => ret tt
  | S j =>
      let! region := lift (arr_get regions i) in
      let! _ := vspace_free_reservation vspace (reservation region) in
      free_made j vspace regions i
  end.
Fixpoint reserve_loop (k : nat) vspace (regions : list sel4utils_elf_region_t) (i : Z)
    : M W (Z * list sel4utils_elf_region_t) :=
  match k with
  | O => ret (0, regions)
  | S k =>
      let! region := lift (arr_get regions i) in
      let! r := vspace_reserve_range_at vspace (elf_vstart region) (region_size region) (rights region) (cacheable region) in
      let! regions := lift (arr_set regions i (with_elf_reservation r None region)) in
      if r =? 0 then
        let! _ := free_made (Z.to_nat i) vspace regions i in ret (-1, regions)
      else reserve_loop k vspace regions (i + 1)
  end.
Definition create_reservations vspace (num : Z) (regions : list sel4utils_elf_region_t)
    : M W (Z * list sel4utils_elf_region_t) := reserve_loop (Z.to_nat num) vspace regions 0.

Definition get_asid_pool (asid_pool : Z) : Z := if asid_pool =? 0 then seL4_CapInitThreadASIDPool else asid_pool.
Definition assign_asid_pool (asid_pool pd : Z) : M W Z := seL4_ARCH_ASIDPool_Assign (get_asid_pool asid_pool) pd.

Definition copy_to_slot vka process (cap slot : Z) : M W (sel4utils_process_t W) :=
  let! (got, process) := sel4utils_copy_cap_to_process process vka cap in
  let! _ := cassert (got =? slot) in
  ret process.

Definition create_cspace_ vka (size_bits : Z) process (cspace_root_data asid_pool : Z) : M W (Z * sel4utils_process_t W) :=
  let! (error, o) := vka_alloc_cnode_object vka size_bits (proc_cspace process) in
  let process := with_cspace (own_cspace process) o process in
  if negb (error =? 0) then ret (error, process) else
  let process := with_slots (size_bits mod 2 ^ 32) 1 process in
  let! src := vka_cspace_make_path vka (cptr (proc_cspace process)) in
  let! (slot, process) := sel4utils_mint_cap_to_process process src Mapping.seL4_AllRights cspace_root_data in
  let! _ := cassert (slot =? SEL4UTILS_CNODE_SLOT) in
  let! process := (if negb (cptr (proc_fault_endpoint process) =? 0)
    then copy_to_slot vka process (cptr (proc_fault_endpoint process)) SEL4UTILS_ENDPOINT_SLOT
    else lift (allocate_next_slot process)) in
  let! (slot, process) := sel4utils_copy_cap_to_process process vka (cptr (proc_pd process)) in
  let! _ := cassert (slot =? SEL4UTILS_PD_SLOT) in
  let! (slot, process) := (if negb CONFIG_X86_64
    then sel4utils_copy_cap_to_process process vka (get_asid_pool asid_pool)
    else let! process := lift (allocate_next_slot process) in ret (slot, process)) in
  let! _ := cassert (slot =? SEL4UTILS_ASID_POOL_SLOT) in
  ret (0, process).

Definition create_fault_endpoint_ vka process : M W (Z * sel4utils_process_t W) :=
  let! (error, o) := vka_alloc_endpoint vka (proc_fault_endpoint process) in
  ret (error, with_endpoint true o process).

(** The [error:] label. *)
Definition fail_process vka config process : M W (Z * sel4utils_process_t W) :=
  let! _ := (if create_fault_endpoint config && negb (cptr (proc_fault_endpoint process) =? 0)
    then vka_free_object vka (proc_fault_endpoint process) else ret tt) in
  let! _ := (if create_cspace config && negb (cptr (proc_cspace process) =? 0)
    then vka_free_object vka (proc_cspace process) else ret tt) in
  let! _ := (if create_vspace config && negb (cptr (proc_pd process) =? 0)
    then vka_free_object vka (proc_pd process) else ret tt) in
  let! _ := (if negb ((elf_regions process).1 =? 0) then free (elf_regions process).1 else ret tt) in
  let! _ := (if negb ((elf_phdrs process).1 =? 0) then free (elf_phdrs process).1 else ret tt) in
  ret (-1, process).

(** A step of the configuration: an error goes to the label. *)
Definition step vka config (m : M W (Z * sel4utils_process_t W)) (k : sel4utils_process_t W -> M W (Z * sel4utils_process_t W))
    : M W (Z * sel4utils_process_t W) :=
  let! (error, process) := m in if negb (error =? 0) then fail_process vka config process else k process.

Definition configure_root vka config process : M W (Z * sel4utils_process_t W) :=
  if create_vspace config then
    let! (error, o) := vka_alloc_vspace_root vka (proc_pd process) in
    let process := with_pd true o process in
    if negb (error =? 0) then ret (error, process) else
    if negb CONFIG_X86_64 then
      let! error := assign_asid_pool (asid_pool config) (cptr o) in ret (error, process)
    else ret (0, process)
  else ret (0, with_pd false (page_dir config) process).

Definition configure_endpoint vka config process : M W (Z * sel4utils_process_t W) :=
  if create_fault_endpoint config then create_fault_endpoint_ vka process
  else ret (0, with_endpoint (own_ep process) (cfg_fault_endpoint config) process).

Definition configure_cspace vka config (cspace_root_data : Z) process : M W (Z * sel4utils_process_t W) :=
  let process := with_cspace (create_cspace config) (proc_cspace process) process in
  if create_cspace config
  then create_cspace_ vka (one_level_cspace_size_bits config) process cspace_root_data (asid_pool config)
  else ret (0, with_cspace false (cnode config) process).

(** What is made of an address space that could not be set up is used all the same. *)
Definition configure_vspace vka spawner config process : M W (Z * sel4utils_process_t W) :=
  if create_vspace config then
    let! (_, v) := sel4utils_get_vspace spawner vka (cptr (proc_pd process)) sel4utils_allocated_object in
    let process := with_vspace v process in
    if num_reservations config >? 0 then
      let! (error, _) := create_reservations (Some v) (num_reservations config) (reservations config) in
      ret (error, process)
    else ret (0, process)
  else
    match cfg_vspace config with
    | None => stop NullPointer
    | Some v => ret (0, with_vspace v process)
    end.

(** calloc, whose block is all zeros. *)
Definition calloc (n bytes : Z) : M W Z := malloc (n ⊠ bytes).

Definition no_phdr : Elf_Phdr := Phdr 0 0 0 0 0 0 0 0.
Definition hide_phdr (h : Elf_Phdr) : Elf_Phdr :=
  if p_type h =? PT_PHDR
  then Phdr PT_NULL (p_offset h) (p_vaddr h) (p_paddr h) (p_filesz h) (p_memsz h) (p_flags h) (p_align h) else h.

Definition load_image vka spawner config (elf : elf_t) process : M W (Z * sel4utils_process_t W) :=
  let target := Some (proc_vspace process) in
  if do_elf_load config then
    let! entry := sel4utils_elf_load sglib_quick_sort CONFIG_HUGE_PAGE target spawner vka vka elf in
    ret (if entry =? 0 then -1 else 0, with_entry entry (proc_sysinfo process) process)
  else
    let n := sel4utils_elf_num_regions elf in
    let! p := calloc n 56 in
    let array := replicate (Z.to_nat n) no_region in
    let process := with_regions n (p, array) process in
    if p =? 0 then ret (-1, process) else
    let! (entry, array) := sel4utils_elf_reserve sglib_quick_sort target elf array in
    ret (if entry =? 0 then -1 else 0, with_entry entry (proc_sysinfo process) (with_regions n (p, array) process)).

Definition configure_image vka spawner config process : M W (Z * sel4utils_process_t W) :=
  if is_elf config then
    match image_file (image_name config) with
    | None => ret (-1, process)
    | Some elf =>
        let! (error, process) := load_image vka spawner config elf process in
        if negb (error =? 0) then ret (error, process) else
        let process := with_entry (proc_entry_point process) (sel4utils_elf_get_vsyscall elf) process in
        let n := to_int (sel4utils_elf_num_phdrs elf) in
        let! p := calloc (wrap n) sizeof_Elf_Phdr in
        if p =? 0 then ret (-1, with_phdrs n (0, []) process) else
        let! phdrs := lift (sel4utils_elf_read_phdrs elf (wrap n) (replicate (Z.to_nat n) no_phdr)) in
        ret (0, with_phdrs n (p, hide_phdr <$> phdrs) process)
    end
  else ret (0, with_entry (cfg_entry_point config) (cfg_sysinfo config) process).

Definition process_thread_config config process (cspace_root_data : Z) : sel4utils_thread_config_t :=
  let c := thread_config_cspace zero_thread_config (cptr (proc_cspace process)) cspace_root_data in
  let c := if CONFIG_KERNEL_MCS then thread_config_fault_endpoint c (cptr (proc_fault_endpoint process))
    else if negb (cptr (proc_fault_endpoint process) =? 0) then thread_config_fault_endpoint c SEL4UTILS_ENDPOINT_SLOT
    else c in
  let c := with_sched_params (fun _ => cfg_sched_params config) c in
  ThreadConfig (Threads.fault_endpoint c) (Threads.cspace c) (cspace_root_data) (custom_stack_size c) (config_stack_size c)
    (no_ipc_buffer c) (sched_params c) (create_cspace config) (config_reply c).

Definition configure_thread vka config (cspace_root_data : Z) process : M W (Z * sel4utils_process_t W) :=
  let! (error, thread) := sel4utils_configure_thread_config vka (Some (proc_vspace process))
    (process_thread_config config process cspace_root_data) in
  ret (error, with_thread thread process).

Definition configure_caps vka config process : M W (Z * sel4utils_process_t W) :=
  if create_cspace config then
    let! process := copy_to_slot vka process (cptr (tcb (proc_thread process))) SEL4UTILS_TCB_SLOT in
    let process := with_dest_tcb SEL4UTILS_TCB_SLOT process in
    if CONFIG_KERNEL_MCS then
      let! process := copy_to_slot vka process (cptr (sched_context (proc_thread process))) SEL4UTILS_SCHED_CONTEXT_SLOT in
      let! process := copy_to_slot vka process (cptr (reply (proc_thread process))) SEL4UTILS_REPLY_SLOT in
      ret (0, process)
    else
      let! process := lift (allocate_next_slot process) in
      let! process := lift (allocate_next_slot process) in
      ret (0, process)
  else ret (0, with_dest_tcb (dest_cspace_tcb_cptr config) process).

Definition sel4utils_configure_process_custom vka spawner config : M W (Z * sel4utils_process_t W) :=
  let! _ := modify (set_allocated_object_list []) in
  let cspace_root_data := api_make_guard_skip_word (seL4_WordBits ⊟ one_level_cspace_size_bits config) in
  step vka config (configure_root vka config zero_process) (fun process =>
  step vka config (configure_endpoint vka config process) (fun process =>
  step vka config (configure_cspace vka config cspace_root_data process) (fun process =>
  step vka config (configure_vspace vka spawner config process) (fun process =>
  step vka config (configure_image vka spawner config process) (fun process =>
  let process := with_pagesz PAGE_SIZE_4K process in
  step vka config (configure_thread vka config cspace_root_data process) (fun process =>
  configure_caps vka config process)))))).

Definition sel4utils_configure_process vka spawner (image_name : Z) : M W (Z * sel4utils_process_t W) :=
  sel4utils_configure_process_custom vka spawner (process_config_default image_name seL4_CapInitThreadASIDPool).

(** ** Giving it back *)

Definition sel4utils_destroy_process process vka : M W unit :=
  let! _ := (if own_cspace process then
      let! path := vka_cspace_make_path vka (cptr (proc_cspace process)) in
      let! _ := vka_cnode_revoke process_CNode_Revoke path in
      vka_free_object vka (proc_cspace process)
    else ret tt) in
  let! _ := sel4utils_clean_up_thread vka (Some (proc_vspace process)) (proc_thread process) in
  let! _ := (if own_vspace process then
      let! _ := vspace_tear_down (Some (proc_vspace process)) VSPACE_FREE in clear_objects vka
    else ret tt) in
  let! _ := (if own_ep process && negb (cptr (proc_fault_endpoint process) =? 0)
    then vka_free_object vka (proc_fault_endpoint process) else ret tt) in
  let! _ := (if own_vspace process then vka_free_object vka (proc_pd process) else ret tt) in
  let! _ := (if negb ((elf_regions process).1 =? 0) then free (elf_regions process).1 else ret tt) in
  if negb ((elf_phdrs process).1 =? 0) then free (elf_phdrs process).1 else ret tt.

End configure.

(** ** Where the code does not do what it means to

    A world where every request is granted, with new names in turn. *)

Definition yes_vka : vka_t Z := {|
  cspace_alloc := Some (fun w => Ok (0, Some w, w + 1));
  cspace_make_path := Some (fun s => ret (Cspacepath s 64 2 0 0 0 0));
  utspace_alloc := None;
  utspace_alloc_maybe_device := Some (fun _ _ _ _ w => Ok (0, Some w, w + 1));
  utspace_alloc_at := None;
  cspace_free := Some (fun _ => ret tt);
  utspace_free := Some (fun _ _ _ => ret tt);
  utspace_paddr := None
|}.
#[local] Instance yes_kernel : KernelOps Z := {|
  seL4_CNode_Delete _ _ _ := ret 0; seL4_CNode_Move _ _ _ _ _ _ := ret 0; seL4_Untyped_Retype _ _ _ _ _ _ _ _ := ret 0
|}.
#[local] Instance yes_copies : CopyOps Z := {| seL4_CNode_Copy _ _ _ _ _ _ _ := ret 0; memcpy _ _ := ret tt |}.
#[local] Instance yes_process_kernel : ProcessKernel Z := {|
  process_CNode_Mint _ _ _ _ _ _ _ _ := ret 0; process_CNode_Revoke _ _ _ := ret 0; seL4_ARCH_ASIDPool_Assign _ _ := ret 0
|}.
Definition constants_with (x86_64 : bool) : ProcessConstants := {|
  CONFIG_X86_64 := x86_64; CONFIG_SEL4UTILS_CSPACE_SIZE_BITS := 12; PT_NULL := 0; PT_PHDR := 6; AT_PHDR := 3; AT_PHENT := 4;
  AT_PHNUM := 5; AT_PAGESZ := 6; AT_SYSINFO := 32; AT_SEL4_IPC_BUFFER_PTR := 64; AT_SEL4_TCB := 66; process_EINVAL := 22
|}.

(** The capability space of a new process, where everything is granted: its next
    free slot, or the fault. *)
Definition new_cspace (x86_64 : bool) : fault + Z :=
  match create_cspace_ (PC := constants_with x86_64) (Some yes_vka) 12
      (with_pd true (VkaObject 40 41 6 12) zero_process) 0 0 100 with
  | Ok (_, p, _) => inr (cspace_next_free p)
  | Fault f => inl f
  end.

(** Where the ASID pool is skipped, the slot that is compared is still the one of the
    page directory: the assertion fails.  It holds where the pool is copied. *)
Example skipped_pool_asserts :
  new_cspace true = inl AssertFailed /\ new_cspace false = inr 5.
Proof. split; vm_compute; reflexivity. Qed.

(** The reservations of the list are made in a workshop that grants the first and
    refuses the second: the first one is not given back. *)
Example made_reservation_stays :
  let regions := [Region 3 0x400000 0 4096 0 0 1 0; Region 3 0x500000 0 4096 0 0 1 1] in
  match create_reservations (Some workshop_target) 2 regions (Workshop (View (fun _ => 0) ∅ ∅ ∅ ∅ ∅ false) ∅ 1 8192) with
  | Ok (e, _, w) => e = -1 /\ map_to_list (reserved (ws_view w)) = [(fresh (A := Z) (C := gset Z) {[0]}, (0x400000, 0x401000))]
  | Fault _ => False
  end.
Proof. vm_compute. by split. Qed.
